(* ===== verification/_CoqProject ===== *)
-Q . S2P
Prelude.v
Irql.v
ListEntry.v
Rtl.v
MmPfn.v
MmPte.v
Pool.v
MmVad.v
Disk.v
Fat32.v
Ob.v
Dispatch.v
Ps.v
PushLock.v
Rundown.v
EResource.v
WorkItem.v
Lookaside.v
Timer.v
Cm.v
Cache.v
Se.v
Firewall.v
Quota.v
Job.v
Atom.v
IoMgr.v
Lpc.v
Hive.v
Ntfs.v
Partition.v
Boot.v
Dns.v
Scm.v
RamFs.v
Filter.v
Apc.v
SeToken.v
Pe.v
MsgQueue.v
Clipboard.v
RtlSupp.v
