(* ===== verification/Prelude.v ===== *)
(** * MinNT: verification of the kernel executive

    MinNT (src/) is a freestanding x86-64 kernel with the architecture of
    Windows NT: one image made of an executive (memory manager, pool, object
    manager, dispatcher, process manager, registry, security, I/O) and, on top
    of it, drivers, a vendored network stack, a windowing layer and a shell.
    The system runs on one processor.  This library models the executive, the
    part every other subsystem calls, from its C text, and proves what its
    callers rely on.

    ** How the parts interact

    The clock interrupt (ke/irql.c) drives the tick counter and the quantum.
    Every component protects its globals with a spin lock that raises the
    processor to DISPATCH_LEVEL.  The memory manager (mm/mminit.c) parses the
    boot memory map into the PFN database and hands out pages; the pool
    (ex/pool.c) turns pages into tagged blocks; the page-table code
    (mm/mminit.c, mm/mmuser.c) takes its tables from the page allocator; the
    region lists of user address spaces, the object manager (ob/obmgr.c), the
    registry (cm/cm.c), the atom table and the lookaside lists take their nodes
    from the pool.  The dispatcher (ke/dispatch.c, ps/psmgr.c) keeps ready and
    wait queues made of LIST_ENTRY links; rundown protection, resources and the
    work queue wait on dispatcher objects; processes and threads (ps/psmgr.c)
    are objects whose bodies the dispatcher schedules.

    ** How the code is modelled

    - A w-bit integer is a [Z]; wherever a C expression can leave its width the
      model applies [u8], [u16], [u32], [u64], [s32] or [s64].
    - A routine is a Rocq function in the monad [M S A]: from a state it gives
      [Ok] with a result and a new state, [BugCheck] with the code and parameters
      of a machine stop, [Spin] for a busy wait nobody can end, [NoFuel] for a
      loop that was cut off, or [Undef] for an access the C text does not
      define.  Theorems say that the outcome is [Ok], or which other it is;
      nothing is stated of the form "if it returns".  Routines that only index a
      static table are plain functions on the table.
    - [loop] runs a body for at most 2^64 turns, a bound no counter of the
      program can exceed; [loops_to] and [loop_ok] turn a decreasing measure
      into termination.  The walk that creates a registry path is fuelled by the
      length of the path, of which each turn consumes a character.  Walks of
      lists and tables recurse on the list or on the table's static size.
    - A component's state is a record.  The class [HasPcr] (Irql) gives every
      component the processor control region inside its own state, [SpinLock]
      (Irql) names a lock and its frame, [zoom] (Prelude) runs a routine of one
      component on its part of another's state, and [PoolInterface] (Pool)
      states what the allocator promises: clients are written and proved against
      it, and Pool discharges it.
    - A singly linked chain, or a LIST_ENTRY queue, is the list of the addresses
      on it; ListEntry justifies this for the doubly linked ones.
    - Callbacks (object delete procedures, device reads, disk access, DPC and
      work routines) are arguments or are recorded in a trace.
    - Debug output is not modelled.

    ** Files

    - Prelude: integers, the monad and its rules, loops, list and counting
      lemmas.
    - Irql: ke/irql.c. IRQL, spin locks, the clock.
    - ListEntry: include/nt/ntdef.h. Linked lists and their refinement to
      lists.
    - Rtl: rtl/rtl.c, rtl/rtlsupp.c. Memory, strings, integer parsing.
    - MmPfn: mm/mminit.c. Boot memory map, PFN database, pages, contiguous
      pool.
    - MmPte: mm/mminit.c, mm/mmuser.c. Page tables, faults, device mappings.
    - Pool: ex/pool.c. The nonpaged pool and [PoolInterface].
    - MmVad: mm/mmuser.c. User address spaces and their regions.
    - Disk: little-endian fields of byte buffers, the interface of the AHCI
      driver ([BlockDevice]).
    - Fat32: fs/fat32.c. The FAT32 file system.
    - Ob: ob/obmgr.c. Objects, handles, names.
    - Dispatch: ke/dispatch.c, ps/psmgr.c. Ready queue, waits, events,
      semaphores, mutants.
    - Ps: ps/psmgr.c. Processes and threads.
    - PushLock: ex/pushlock.c. Push locks as a step relation over
      interleavings.
    - Rundown: ex/rundown.c. Rundown protection.
    - EResource: ex/eresource.c. Reader-writer resources.
    - WorkItem: ex/workitem.c. The worker queue.
    - Lookaside: ex/lookaside.c. Lookaside lists.
    - Timer: ke/timer.c. Timers and the scan thread.
    - Cm: cm/cm.c. The registry.
    - Cache: mm/cache.c. The sector cache.
    - Se: se/se.c. Access checks.
    - Firewall: net/firewall.c. The packet filter.
    - Quota: mm/quotas.c. Disk quotas.
    - Job: ps/job.c. Job objects.
    - Atom: win32k/atom.c. The global atom table.
    - IoMgr: io/iomgr.c, include/nt/io.h. Drivers, devices and requests.
    - Lpc: lpc/lpc.c. Ports, connections, requests and replies.
    - Hive: cm/cmpers.c. The registry saved to and loaded from a file.
    - Ntfs: fs/ntfs.c. Reading NTFS volumes.
    - Partition: fs/partition.c. The scan of partition tables, mounting what
      it finds.
    - Boot: boot/bootargs.c, boot/profile.c, boot/registry.c. Command line,
      profiles, the order of initialisation.
    - Dns: net/dns.c. The resolver's table of names.
    - Scm: se/scm.c. Services, on the registry, the process manager and the
      pool.
    - RamFs: fs/fs.c. The FAT16 RAM disk and the file calls.
    - Filter: fs/filter.c. The filter manager.
    - Apc: ps/apc.c, ps/fiber.c. Asynchronous procedure calls and fibers.
    - SeToken: se/se.c. SIDs, tokens and security descriptors.
    - Pe: ke/pe.c, include/nt/pe.h. The image loader.
    - MsgQueue: win32k/queue.c. Message queues of threads.
    - Clipboard: win32k/clipboard.c. The clipboard.
    - RtlSupp: rtl/rtlsupp.c. The formatter, allocated strings, the
      environment.

    ** What the theorems show

    - Memory: which pages are free after boot, lowest-first page allocation,
      disjoint zeroed pool blocks, double frees and wrong tags stop the machine,
      a mapping changes the translation of its own page only where no large page
      covers it, device mappings
      round-trip and roll back, regions of an address space are disjoint and at
      the least vacant address.
    - Boot: the profile chosen by the command line, the topological order of the
      subsystems and the calls made in it.
    - Objects: the reference-count invariant over every call, deletion exactly
      at the last reference, handles name their object until closed.
    - Scheduling and synchronisation: the effect of waits and signals on every
      branch, round-robin progress, mutual exclusion by mutants as long as another
      thread is ready and (over all interleavings) by push locks, rundown, resources as a reader-writer lock;
      a thread blocked on its message queue gets the message posted for it.
    - Deferred work: scan passes fire exactly the due timers, the worker loop
      ends having run every due item.
    - Data services: the registry's path parsing and tree, cache transparency,
      first-match packet filtering, access checks, quotas, atoms (with their
      16-bit numbers and counts) and the clipboard as finite maps, job tables.
    - Files and devices: what FAT32 mount, read, write and delete do to the
      volume and return, what an NTFS file read returns, which partitions a
      scan lists and mounts and which disks it does not survive, the registry
      saved to a volume and its values, without their names, loaded from it, requests reach their driver and are given back, the
      driver and device tables stay consistent, what a request on a port does
      to the queues of both ends, bytes written to a file of the RAM disk are
      read back and leave the other files alone.
    - Services: what registering, starting, stopping and auto-starting a service
      does to its table, the registry and the threads; names resolve until their
      time to live is over.
    - Images and filters: which images the loader accepts and that it reads only
      the file, what loading, relocating and looking up exports do, which file
      system filters see a request and in which order.

    Where the code does not do what its comments or its callers expect, the
    theorem states what it does; PROJECT.json lists these findings.

    ** Bounds assumed

    Hypotheses bound what the program cannot exceed: a chain holds fewer than
    2^31 blocks, IRQLs are at most HIGH_LEVEL, addresses and sizes are in their
    machine width.  The disk is a parameter ([BlockDevice]) all of whose transfers
    succeed, which the real driver ensures only while it finds physical memory.
    Each property of PROJECT.json with hypotheses has a [_witness]
    that applies it to a concrete state.

    ** Not modelled

    Assembly (context switch, traps, system-call entry), port and MMIO
    programming (hal, acpi, drivers, usb, ndis, rtw), the translation buffer,
    the vendored lwIP stack, windowing, shell and applications, boot images and
    installers.  PROJECT.json lists every part left out with its reason. *)

From Stdlib Require Export ZArith Lia ZifyBool ZifyNat.
From stdpp Require Export gmap list.

#[export] Set Default Goal Selector "!".
#[export] Set Warnings "-clear-no-such-hyp".

Declare Scope minnt_scope.
Delimit Scope minnt_scope with minnt.

(** ** Fixed-width integers

    A w-bit C integer is a [Z]; every place where the C expression can leave
    its width goes through one of these reductions. *)

Definition u8 (x : Z) : Z := (x mod 256)%Z.
Definition u16 (x : Z) : Z := (x mod 65536)%Z.
Definition u32 (x : Z) : Z := (x mod 4294967296)%Z.
Definition u64 (x : Z) : Z := (x mod 18446744073709551616)%Z.
Definition s32 (x : Z) : Z := ((x + 2147483648) mod 4294967296 - 2147483648)%Z.
Definition s64 (x : Z) : Z :=
  ((x + 9223372036854775808) mod 18446744073709551616 - 9223372036854775808)%Z.

Lemma u32_opp_s32 x : u32 (- s32 (u32 x)) = u32 (- x).
Proof. unfold s32, u32. Z.div_mod_to_equations. lia. Qed.

Lemma u64_small x : (0 <= x < 18446744073709551616)%Z → u64 x = x.
Proof. apply Z.mod_small. Qed.

Lemma u32_small x : (0 <= x < 4294967296)%Z → u32 x = x.
Proof. apply Z.mod_small. Qed.

Lemma s64_small x : (-9223372036854775808 <= x < 9223372036854775808)%Z → s64 x = x.
Proof. intros Hx. unfold s64. rewrite Z.mod_small; lia. Qed.

(** [x & ~(2^k - 1)] on an unsigned value: round down to a multiple. *)
Definition align_down (x a : Z) : Z := (x - x mod a)%Z.

(** [(x + a - 1) & ~(a - 1)] in a 64-bit unsigned type: the addition wraps. *)
Definition align_up64 (x a : Z) : Z := align_down (u64 (x + a - 1)) a.

(** A C condition [if (e)] on an integer. *)
Definition truthy (x : Z) : bool := negb (x =? 0)%Z.

(** A bit test [(state & mask) != 0]. *)
Definition has_bits (x mask : Z) : bool := truthy (Z.land x mask).

(** ** Outcomes and the kernel monad

    A kernel routine runs on one processor to completion.  It returns, stops
    the machine through [KeBugCheckEx] (declared [DECLSPEC_NORETURN]), or never
    returns: [Spin] is a busy wait whose condition nobody else can change on
    this processor (a spin lock that is already held), and [NoFuel] is the
    answer of a fuelled loop that was given too little fuel; the theorems on
    such loops show how much is enough.  [Undef] is an access through a pointer
    to no live object, where the C text has no meaning. *)

Inductive Res (A : Type) : Type :=
| Ok (a : A)
| BugCheck (code p1 p2 p3 p4 : Z)
| Spin
| NoFuel
| Undef.
Arguments Ok {A} a.
Arguments BugCheck {A} code p1 p2 p3 p4.
Arguments Spin {A}.
Arguments NoFuel {A}.
Arguments Undef {A}.

Definition M (S A : Type) : Type := S → Res (A * S).

#[global] Instance M_ret S : MRet (M S) := λ A a s, Ok (a, s).
#[global] Instance M_bind S : MBind (M S) := λ A B k m s,
  match m s with
  | Ok (a, s') => k a s'
  | BugCheck c p1 p2 p3 p4 => BugCheck c p1 p2 p3 p4
  | Spin => Spin
  | NoFuel => NoFuel
  | Undef => Undef
  end.

Definition mget {S} : M S S := λ s, Ok (s, s).
Definition mgets {S A} (f : S → A) : M S A := λ s, Ok (f s, s).
Definition mmod {S} (f : S → S) : M S unit := λ s, Ok (tt, f s).
Definition mbug {S A} (code p1 p2 p3 p4 : Z) : M S A :=
  λ _, BugCheck code p1 p2 p3 p4.
Definition mwhen {S} (b : bool) (m : M S unit) : M S unit :=
  if b then m else mret tt.
Definition mspin {S A} : M S A := λ _, Spin.
Definition mnofuel {S A} : M S A := λ _, NoFuel.
Definition mundef {S A} : M S A := λ _, Undef.

(** Read through a pointer: undefined when nothing lives there. *)
Definition mderef {S A} (f : S → option A) : M S A :=
  λ s, match f s with Some a => Ok (a, s) | None => Undef end.
Arguments mget {S} s /.
Arguments mgets {S A} f s /.
Arguments mmod {S} f s /.
Arguments mbug {S A} code p1 p2 p3 p4 s /.
Arguments mwhen {S} b m : simpl never.

(** Run a routine of a component on the sub-state of a larger one. *)
Definition zoom {S T A} (g : S → T) (p : T → S → S) (m : M T A) : M S A := λ s,
  match m (g s) with
  | Ok (a, t) => Ok (a, p t s)
  | BugCheck c p1 p2 p3 p4 => BugCheck c p1 p2 p3 p4
  | Spin => Spin
  | NoFuel => NoFuel
  | Undef => Undef
  end.

Lemma bind_ok {S A B} (m : M S A) (k : A → M S B) s a s' :
  m s = Ok (a, s') → (m ≫= k) s = k a s'.
Proof. intros H. unfold mbind, M_bind. by rewrite H. Qed.

Lemma bind_ret {S A B} (a : A) (k : A → M S B) s : (mret a ≫= k) s = k a s.
Proof. done. Qed.

Lemma bind_inv {S A B} (m : M S A) (k : A → M S B) s b s'' :
  (m ≫= k) s = Ok (b, s'') → ∃ a s', m s = Ok (a, s') ∧ k a s' = Ok (b, s'').
Proof.
  unfold mbind, M_bind. destruct (m s) as [[a s']|?????| | |]; try done. eauto.
Qed.

Lemma deref_ok {S A} (f : S → option A) s a : f s = Some a → mderef f s = Ok (a, s).
Proof. unfold mderef. by intros ->. Qed.

Lemma deref_bind {S A B} (f : S → option A) (k : A → M S B) s a :
  f s = Some a → (mderef f ≫= k) s = k a s.
Proof. intros H. by rewrite (bind_ok _ _ _ _ _ (deref_ok f s a H)). Qed.

Lemma mwhen_true {S} (m : M S unit) : mwhen true m = m.
Proof. done. Qed.

Lemma mwhen_false {S} (m : M S unit) : mwhen false m = mret tt.
Proof. done. Qed.

Lemma zoom_ok {S T A} g p (m : M T A) (s : S) a t :
  m (g s) = Ok (a, t) → zoom g p m s = Ok (a, p t s).
Proof. intros H. unfold zoom. by rewrite H. Qed.

(** ** Loops

    A C loop is its body, which either asks for another turn ([inl]) or leaves
    ([inr]).  [loop] runs it for at most 2^64 turns, by doubling, so that it
    still evaluates on concrete states; [loops_to] is the relation the proofs
    use, and says in how many turns a loop ends. *)

Fixpoint loop_n {S A B} (k : nat) (body : A → M S (A + B)) (x : A) : M S (A + B) :=
  match k with
  | O => body x
  | Datatypes.S k' => r ← loop_n k' body x;
           match r with inl x' => loop_n k' body x' | inr b => mret (inr b) end
  end.

Definition loop {S A B} (body : A → M S (A + B)) (x : A) : M S B :=
  r ← loop_n 64 body x;
  match r with inl _ => mnofuel | inr b => mret b end.

Inductive loops_to {S A B} (body : A → M S (A + B)) : Z → A → S → B → S → Prop :=
| loops_done x s b s' : body x s = Ok (inr b, s') → loops_to body 1 x s b s'
| loops_step n x s x' s1 b s' :
    body x s = Ok (inl x', s1) → loops_to body n x' s1 b s' →
    loops_to body (n + 1) x s b s'.

Lemma loops_to_pos {S A B} (body : A → M S (A + B)) n x s b s' :
  loops_to body n x s b s' → (1 <= n)%Z.
Proof. induction 1; lia. Qed.

Lemma loop_n_ok {S A B} (body : A → M S (A + B)) b s' k : ∀ n x s,
  loops_to body n x s b s' →
  ((n <= 2 ^ Z.of_nat k)%Z → loop_n k body x s = Ok (inr b, s')) ∧
  ((2 ^ Z.of_nat k < n)%Z → ∃ x1 s1, loop_n k body x s = Ok (inl x1, s1) ∧
     loops_to body (n - 2 ^ Z.of_nat k) x1 s1 b s').
Proof.
  induction k as [|k IH]; intros n x s Hl.
  - change (2 ^ Z.of_nat 0)%Z with 1%Z. cbn [loop_n].
    destruct Hl as [x s b s' Hb|n x s x' s1 b s' Hb Hl].
    + split; [done|lia].
    + pose proof (loops_to_pos _ _ _ _ _ _ Hl). split; [lia|]. intros _.
      exists x', s1. split; [done|]. by replace (n + 1 - 1)%Z with n by lia.
  - rewrite Nat2Z.inj_succ, Z.pow_succ_r by lia. cbn [loop_n].
    destruct (IH n x s Hl) as [IHle IHgt]. split.
    + intros Hn. destruct (Z.le_gt_cases n (2 ^ Z.of_nat k)) as [Hle|Hgt].
      * by rewrite (bind_ok _ _ _ _ _ (IHle Hle)).
      * destruct IHgt as (x1 & s1 & Hr & Hl1); [lia|]. rewrite (bind_ok _ _ _ _ _ Hr).
        apply (proj1 (IH _ _ _ Hl1)). lia.
    + intros Hn. destruct IHgt as (x1 & s1 & Hr & Hl1); [lia|].
      rewrite (bind_ok _ _ _ _ _ Hr).
      destruct (proj2 (IH _ _ _ Hl1)) as (x2 & s2 & Hr2 & Hl2); [lia|].
      exists x2, s2. split; [done|].
      by replace (n - 2 * 2 ^ Z.of_nat k)%Z with (n - 2 ^ Z.of_nat k - 2 ^ Z.of_nat k)%Z by lia.
Qed.

Lemma loop_ok {S A B} (body : A → M S (A + B)) n x s b s' :
  loops_to body n x s b s' → (n <= 18446744073709551616)%Z → loop body x s = Ok (b, s').
Proof.
  intros Hl Hn. unfold loop.
  rewrite (bind_ok _ _ _ _ _ (proj1 (loop_n_ok body b s' 64 n x s Hl) Hn)). done.
Qed.

(** A loop one of whose turns has no meaning. *)
Inductive loops_undef {S A B} (body : A → M S (A + B)) : Z → A → S → Prop :=
| undef_here x s : body x s = Undef → loops_undef body 1 x s
| undef_step n x s x' s1 :
    body x s = Ok (inl x', s1) → loops_undef body n x' s1 → loops_undef body (n + 1) x s.

Lemma loops_undef_pos {S A B} (body : A → M S (A + B)) n x s : loops_undef body n x s → (1 <= n)%Z.
Proof. induction 1; lia. Qed.

Lemma bind_undef {S A B} (m : M S A) (k : A → M S B) s : m s = Undef → (m ≫= k) s = Undef.
Proof. intros H. unfold mbind, M_bind. by rewrite H. Qed.

Lemma loop_n_undef {S A B} (body : A → M S (A + B)) k : ∀ n x s,
  loops_undef body n x s →
  ((n <= 2 ^ Z.of_nat k)%Z → loop_n k body x s = Undef) ∧
  ((2 ^ Z.of_nat k < n)%Z → ∃ x1 s1, loop_n k body x s = Ok (inl x1, s1) ∧
     loops_undef body (n - 2 ^ Z.of_nat k) x1 s1).
Proof.
  induction k as [|k IH]; intros n x s Hl.
  - change (2 ^ Z.of_nat 0)%Z with 1%Z. cbn [loop_n].
    destruct Hl as [x s Hb|n x s x' s1 Hb Hl].
    + split; [done|lia].
    + pose proof (loops_undef_pos _ _ _ _ Hl). split; [lia|]. intros _.
      exists x', s1. split; [done|]. by replace (n + 1 - 1)%Z with n by lia.
  - rewrite Nat2Z.inj_succ, Z.pow_succ_r by lia. cbn [loop_n].
    destruct (IH n x s Hl) as [IHle IHgt]. split; intros Hn.
    + destruct (Z.le_gt_cases n (2 ^ Z.of_nat k)) as [Hle|Hgt]; [by apply bind_undef, IHle|].
      destruct IHgt as (x1 & s1 & Hr & Hl1); [lia|]. rewrite (bind_ok _ _ _ _ _ Hr).
      apply (proj1 (IH _ _ _ Hl1)). lia.
    + destruct IHgt as (x1 & s1 & Hr & Hl1); [lia|]. rewrite (bind_ok _ _ _ _ _ Hr).
      destruct (proj2 (IH _ _ _ Hl1)) as (x2 & s2 & Hr2 & Hl2); [lia|].
      exists x2, s2. split; [done|].
      by replace (n - 2 * 2 ^ Z.of_nat k)%Z with (n - 2 ^ Z.of_nat k - 2 ^ Z.of_nat k)%Z by lia.
Qed.

Lemma loop_undef {S A B} (body : A → M S (A + B)) n x s :
  loops_undef body n x s → (n <= 18446744073709551616)%Z → loop body x s = Undef.
Proof. intros Hl Hn. apply bind_undef. by apply (proj1 (loop_n_undef body 64 n x s Hl)). Qed.

(** ** NTSTATUS

    Status codes are kept as their 32-bit pattern; [NT_SUCCESS] is the sign
    test of the C macro. *)

Definition NT_SUCCESS (st : Z) : bool := (st <? 0x80000000)%Z.

Definition STATUS_SUCCESS := 0x00000000%Z.
Definition STATUS_WAIT_0 := 0x00000000%Z.
Definition STATUS_ABANDONED_WAIT_0 := 0x00000080%Z.
Definition STATUS_TIMEOUT := 0x00000102%Z.
Definition STATUS_UNSUCCESSFUL := 0xC0000001%Z.
Definition STATUS_INVALID_HANDLE := 0xC0000008%Z.
Definition STATUS_INVALID_PARAMETER := 0xC000000D%Z.
Definition STATUS_INVALID_DEVICE_REQUEST := 0xC0000010%Z.
Definition STATUS_NO_MEMORY := 0xC0000017%Z.
Definition STATUS_ACCESS_DENIED := 0xC0000022%Z.
Definition STATUS_OBJECT_NAME_NOT_FOUND := 0xC0000034%Z.
Definition STATUS_INVALID_IMAGE_FORMAT := 0xC000007B%Z.
Definition STATUS_INSUFFICIENT_RESOURCES := 0xC000009A%Z.
Definition STATUS_NOT_FOUND := 0xC0000227%Z.
Definition STATUS_NO_MORE_ENTRIES := 0x8000001A%Z.

(** ** Bugcheck codes *)

Definition IRQL_NOT_LESS_OR_EQUAL := 0x0000000A%Z.
Definition BAD_POOL_HEADER := 0x00000019%Z.
Definition MANUALLY_INITIATED_CRASH := 0x000000E2%Z.

(** [ASSERT(exp)] of ke.h; the pointer to the file name is 0 here. *)
Definition ASSERT {S} (b : bool) (line : Z) : M S unit :=
  if b then mret tt else mbug MANUALLY_INITIATED_CRASH 0 line 0 0.

(** ** First slot of a table

    The fixed tables of the kernel are searched with
    [for (i = 0; i < MAX; i++) if (test(t[i])) ... break;]. *)

Fixpoint first_idx {A} (p : A → bool) (l : list A) : option nat :=
  match l with
  | [] => None
  | x :: l' => if p x then Some 0 else S <$> first_idx p l'
  end.

Lemma first_idx_Some {A} (p : A → bool) l i :
  first_idx p l = Some i ↔
  (∃ x, l !! i = Some x ∧ p x = true) ∧
  ∀ j y, (j < i)%nat → l !! j = Some y → p y = false.
Proof.
  revert i; induction l as [|x l IH]; intros i; simpl.
  { split; [done|]. intros [(? & ? & _) _]. done. }
  destruct (p x) eqn:Hp.
  - split.
    + intros [= <-]. split; [eauto|]. intros; lia.
    + intros [_ Hlt]. destruct i as [|i]; [done|].
      specialize (Hlt 0%nat x ltac:(lia) eq_refl). congruence.
  - split.
    + intros (k & Hk & ->)%fmap_Some. apply IH in Hk as [Hx Hlt].
      split; [done|]. intros [|j] y Hj Hy; [by simplify_eq/=|].
      apply (Hlt j); [lia|done].
    + intros [(y & Hy & Hpy) Hlt]. destruct i as [|i]; [simplify_eq/=; congruence|].
      rewrite (proj2 (IH i)); [done|]. split; [eauto|].
      intros j z Hj Hz. apply (Hlt (S j)); [lia|done].
Qed.

Lemma first_idx_None {A} (p : A → bool) l :
  first_idx p l = None ↔ ∀ j y, l !! j = Some y → p y = false.
Proof.
  induction l as [|x l IH]; simpl; [done|]. destruct (p x) eqn:Hp.
  - split; [done|]. intros H. specialize (H 0%nat x eq_refl). congruence.
  - rewrite fmap_None, IH. split.
    + intros H [|j] y Hy; simplify_eq/=; eauto.
    + intros H j y Hy. apply (H (S j) y Hy).
Qed.

Lemma first_idx_lt {A} (p : A → bool) l i :
  first_idx p l = Some i → (i < length l)%nat.
Proof.
  rewrite first_idx_Some. intros [(x & Hx & _) _]. eauto using lookup_lt_Some.
Qed.

Lemma first_idx_alter {A} (p : A → bool) f l : ∀ i, (∀ x, l !! i = Some x → p (f x) = p x) → first_idx p (alter f i l) = first_idx p l.
Proof.
  induction l as [|y l IH]; intros [|i] Hp; [done..| |].
  - cbn. by rewrite (Hp y eq_refl).
  - change (alter f (S i) (y :: l)) with (y :: alter f i l). cbn. by rewrite IH.
Qed.

Lemma first_idx_put {A} (p : A → bool) (l : list A) i x :
  (i < length l)%nat → p x = true → (∀ j y, (j < i)%nat → l !! j = Some y → p y = false) →
  first_idx p (<[i := x]> l) = Some i.
Proof.
  intros Hi Hx Hlow. apply first_idx_Some. split.
  - exists x. split; [by apply list_lookup_insert_eq|done].
  - intros j y Hj. rewrite list_lookup_insert_ne by lia. by apply Hlow.
Qed.

(** An update of a slot in range. *)
Lemma alter_insert {A} (f : A → A) (l : list A) : ∀ i x, l !! i = Some x → alter f i l = <[i := f x]> l.
Proof.
  induction l as [|y l IH]; intros [|i] x Hx; [done..|by injection Hx as ->|].
  change (y :: alter f i l = y :: <[i := f x]> l). by rewrite (IH i x Hx).
Qed.

(** ** C strings

    A string is the characters before the first 0 of an array; reading past the
    end of the list gives the terminator. *)

Definition chr (l : list Z) (k : nat) : Z := default 0%Z (l !! k).

(** The characters of a string, at most [n] of them, from position [k]. *)
Fixpoint cname (u : list Z) (k n : nat) : list Z :=
  match n with
  | O => []
  | S n' => if (chr u k =? 0)%Z then [] else chr u k :: cname u (S k) n'
  end.

(** [for (k = 0; k < n; k++) { if (a[k] != u[k]) differ; if (u[k] == 0) break; }] *)
Fixpoint same_str (a u : list Z) (k n : nat) : bool :=
  match n with
  | O => true
  | S n' =>
      if negb (chr a k =? chr u k)%Z then false
      else if (chr u k =? 0)%Z then true
      else same_str a u (S k) n'
  end.

Lemma same_str_cname a u n : ∀ k, same_str a u k n = bool_decide (cname a k n = cname u k n).
Proof.
  induction n as [|n IH]; intros k; cbn [same_str cname]; [done|].
  destruct (Z.eqb_spec (chr a k) (chr u k)) as [->|Hne]; simpl.
  - destruct (chr u k =? 0)%Z; [done|]. rewrite IH. apply bool_decide_ext. split; [by intros ->|by intros [=]].
  - symmetry. apply bool_decide_eq_false. destruct (Z.eqb_spec (chr a k) 0); destruct (Z.eqb_spec (chr u k) 0); [lia|done..|].
    intros [= E]. done.
Qed.

Lemma cname_nonzero u n c : ∀ k, c ∈ cname u k n → c ≠ 0%Z.
Proof.
  induction n as [|n IH]; intros k; cbn [cname]; [by intros ?%elem_of_nil|].
  destruct (Z.eqb_spec (chr u k) 0%Z); [by intros ?%elem_of_nil|].
  intros [->|Hc]%elem_of_cons; [done|]. by apply (IH (S k)).
Qed.

(** [for (k = 0; k < n; k++) { dst[k] = src[k]; if (src[k] == 0) break; }]. *)
Fixpoint copy_str (dst src : list Z) (k n : nat) : list Z :=
  match n with
  | O => dst
  | S n' =>
      let dst := <[k := chr src k]> dst in
      if (chr src k =? 0)%Z then dst else copy_str dst src (S k) n'
  end.

Lemma chr_insert l i x j : (i < length l)%nat → chr (<[i := x]> l) j = if decide (i = j) then x else chr l j.
Proof.
  intros Hi. unfold chr. case_decide as E; [subst; by rewrite list_lookup_insert_eq|by rewrite list_lookup_insert_ne].
Qed.

Lemma copy_str_chr n : ∀ dst src k j, (k + n ≤ length dst)%nat →
  length (copy_str dst src k n) = length dst ∧ ((j < k)%nat → chr (copy_str dst src k n) j = chr dst j).
Proof.
  induction n as [|n IH]; intros dst src k j Hl; cbn [copy_str]; [done|].
  destruct (chr src k =? 0)%Z.
  - rewrite length_insert. split; [done|]. intros Hj. rewrite chr_insert by lia. rewrite decide_False by lia. done.
  - destruct (IH (<[k := chr src k]> dst) src (S k) j) as [IH1 IH2]; [rewrite length_insert; lia|].
    rewrite length_insert in IH1. split; [done|]. intros Hj. rewrite IH2 by lia. rewrite chr_insert by lia.
    by rewrite decide_False by lia.
Qed.

Lemma copy_str_cname n : ∀ dst src k, (k + n ≤ length dst)%nat → cname (copy_str dst src k n) k n = cname src k n.
Proof.
  induction n as [|n IH]; intros dst src k Hl; cbn [copy_str cname]; [done|].
  destruct (Z.eqb_spec (chr src k) 0%Z) as [E|E].
  - rewrite chr_insert by lia. rewrite decide_True by done. by rewrite E.
  - destruct (copy_str_chr n (<[k := chr src k]> dst) src (S k) k) as [_ Hc]; [rewrite length_insert; lia|].
    rewrite Hc by lia. rewrite chr_insert by lia. rewrite decide_True by done.
    destruct (Z.eqb_spec (chr src k) 0%Z); [done|]. f_equal. apply IH. rewrite length_insert. lia.
Qed.

(** ** Counting *)

(** How many entries of a table satisfy a test. *)
Definition countb {A} (p : A → bool) (l : list A) : Z :=
  Z.of_nat (length (List.filter p l)).

Lemma countb_app {A} (p : A → bool) l1 l2 : countb p (l1 ++ l2) = (countb p l1 + countb p l2)%Z.
Proof. unfold countb. rewrite List.filter_app, length_app. lia. Qed.

Lemma countb_cons {A} (p : A → bool) x l :
  countb p (x :: l) = ((if p x then 1 else 0) + countb p l)%Z.
Proof. unfold countb. simpl. destruct (p x); cbn [length]; lia. Qed.

Lemma countb_bounds {A} (p : A → bool) l : (0 <= countb p l <= Z.of_nat (length l))%Z.
Proof. unfold countb. pose proof (List.filter_length_le p l). lia. Qed.

Lemma countb_insert {A} (p : A → bool) l i x y :
  l !! i = Some x →
  countb p (<[i := y]> l) = (countb p l - (if p x then 1 else 0) + (if p y then 1 else 0))%Z.
Proof.
  intros Hx. pose proof (lookup_lt_Some _ _ _ Hx) as Hlt.
  rewrite insert_take_drop by done. rewrite <- (take_drop_middle l i x Hx) at 3.
  rewrite !countb_app, !countb_cons. lia.
Qed.

Lemma countb_zero {A} (p : A → bool) l :
  countb p l = 0%Z ↔ ∀ i x, l !! i = Some x → p x = false.
Proof.
  induction l as [|y l IH]; [done|]. rewrite countb_cons. pose proof (countb_bounds p l).
  split.
  - intros H0 [|i] x Hx; simpl in Hx; simplify_eq.
    + destruct (p x); [lia|done].
    + eapply IH; [|done]. destruct (p y); lia.
  - intros Hall. rewrite (Hall 0%nat y eq_refl), (proj2 IH); [done|].
    intros i x Hx. by apply (Hall (S i)).
Qed.

Lemma countb_elem {A} (p : A → bool) l i x :
  l !! i = Some x → p x = true → (1 <= countb p l)%Z.
Proof.
  intros Hx Hp. pose proof (countb_bounds p l). destruct (decide (countb p l = 0%Z)) as [H0|]; [|lia].
  rewrite countb_zero in H0. rewrite (H0 i x Hx) in Hp. done.
Qed.

Lemma countb_replicate {A} (p : A → bool) n x : p x = false → countb p (replicate n x) = 0%Z.
Proof.
  intros Hp. apply countb_zero. intros i y [-> _]%lookup_replicate. done.
Qed.

(** A duplicate-free list of addresses below [n] has at most [n] elements. *)
Lemma NoDup_bounded_length (l : list Z) (n : Z) :
  (0 <= n)%Z → NoDup l → (∀ x, x ∈ l → (0 <= x < n)%Z) → (Z.of_nat (length l) <= n)%Z.
Proof.
  intros Hn Hnd Hb.
  assert (l ⊆ seqZ 0 n) as Hsub by (intros x Hx; apply elem_of_seqZ; specialize (Hb x Hx); lia).
  pose proof (submseteq_length _ _ (NoDup_submseteq _ _ Hnd Hsub)) as Hlen.
  rewrite length_seqZ in Hlen. lia.
Qed.

(** Removing an address that is not in the list. *)
Lemma filter_ne_id {A} `{EqDecision A} (l : list A) e : e ∉ l → filter (λ x, x ≠ e) l = l.
Proof.
  induction l as [|x l IH]; [done|]. intros [? ?]%not_elem_of_cons.
  rewrite filter_cons_True by done. by rewrite IH.
Qed.

(** ** Chains of records linked by a next member, in a map by address *)

Inductive next_chain {A} (next : A → Z) (D : gmap Z A) : Z → list Z → Prop :=
| nc_end : next_chain next D 0%Z []
| nc_cons a x l : a ≠ 0%Z → D !! a = Some x → next_chain next D (next x) l → next_chain next D a (a :: l).

Section NextChain.
Context {A : Type} (next : A → Z).
Implicit Types (D : gmap Z A).

Lemma next_chain_mono D D' a l : (∀ v, v ∈ l → D' !! v = D !! v) → next_chain next D a l → next_chain next D' a l.
Proof.
  intros Hd Hc. induction Hc as [|a x l Ha Hx Hc IH]; [constructor|]. apply (nc_cons _ _ a x); [done| |].
  - rewrite Hd by left. done.
  - apply IH. intros v Hv. apply Hd. by right.
Qed.

Lemma next_chain_det D a l l' : next_chain next D a l → next_chain next D a l' → l = l'.
Proof.
  intros Hc. revert l'. induction Hc as [|a x l Ha Hx Hc IH]; intros l' Hc'; inversion Hc'; simplify_eq; try done.
  f_equal. by apply IH.
Qed.

Lemma next_chain_0 D l : next_chain next D 0 l → l = [].
Proof. by inversion 1. Qed.

(** A chain one of whose records is gone cannot be walked to its end. *)
Lemma next_chain_break D a l v : next_chain next D a l → v ∈ l → ∀ l', ¬ next_chain next (delete v D) a l'.
Proof.
  intros Hc. induction Hc as [|a x l Ha Hx Hc IH]; intros Hv l' Hl'; [by apply elem_of_nil in Hv|].
  inversion Hl' as [|? y l'' _ Hy Hl'']; subst; [done|]. apply lookup_delete_Some in Hy as [Hne Hy]. rewrite Hx in Hy. injection Hy as <-.
  apply elem_of_cons in Hv as [->|Hv]; [done|]. by apply (IH Hv l'').
Qed.
End NextChain.

(** ** Automation *)

Create HintDb minnt.

(** Split every conditional of the goal on its boolean. *)
Ltac case_if :=
  match goal with
  | |- context [if ?b then _ else _] => destruct b eqn:?
  end.

(** Reflect boolean tests over [Z] in the hypotheses. *)
Ltac bool_hyps :=
  repeat match goal with
  | H : andb _ _ = true |- _ => apply andb_true_iff in H as [? ?]
  | H : orb _ _ = false |- _ => apply orb_false_iff in H as [? ?]
  | H : negb _ = true |- _ => apply negb_true_iff in H
  | H : negb _ = false |- _ => apply negb_false_iff in H
  end.
