(* ===== verification/Irql.v ===== *)
(** * Ke: IRQL, spin locks, clock (src/ke/irql.c, src/include/nt/ke.h)

    The processor control region as seen by the software IRQL model, the
    spin locks built on it, the clock interrupt and the time services.  The
    class [HasPcr] is what the other components implement to call this one:
    their state has a processor control region inside. *)

From S2P Require Import Prelude.

#[local] Open Scope Z_scope.

(** IRQL levels (ntdef.h). *)
Definition PASSIVE_LEVEL := 0.
Definition APC_LEVEL := 1.
Definition DISPATCH_LEVEL := 2.
Definition HIGH_LEVEL := 15.

(** The fields of the KPCR the executive uses, with the interrupt flag of the
    processor that [cli] and [sti] change. *)
Record KPCR := mkKPCR { Irql : Z; IntEnabled : bool }.

#[global] Instance KPCR_eq_dec : EqDecision KPCR.
Proof. solve_decision. Defined.

Class HasPcr (S : Type) := {
  pcr : S → KPCR;
  set_pcr : KPCR → S → S;
  pcr_set k s : pcr (set_pcr k s) = k;
  set_pcr_set k k' s : set_pcr k (set_pcr k' s) = set_pcr k s;
  set_pcr_pcr s : set_pcr (pcr s) s = s
}.
#[global] Hint Mode HasPcr ! : typeclass_instances.

(** A [KSPIN_LOCK] word inside a state. *)
Record SpinLock (S : Type) `{HasPcr S} := mkSpinLock {
  lk : S → Z;
  set_lk : Z → S → S;
  lk_set v s : lk (set_lk v s) = v;
  lk_set_pcr k s : lk (set_pcr k s) = lk s;
  pcr_set_lk v s : pcr (set_lk v s) = pcr s;
  set_lk_set v w s : set_lk v (set_lk w s) = set_lk v s;
  set_lk_lk s : set_lk (lk s) s = s;
  set_lk_set_pcr v k s : set_lk v (set_pcr k s) = set_pcr k (set_lk v s)
}.
Arguments lk {S _} _ _.
Arguments set_lk {S _} _ _ _.
Arguments mkSpinLock {S _} _ _ _ _ _ _ _ _.

(** The lock words of a table of objects, in a map that stores nothing for 0. *)
Definition lock_word (o : option (positive + positive)) : Z :=
  match o with None => 0 | Some (inl p) => Zpos p | Some (inr p) => Zneg p end.
Definition word_lock (v : Z) : option (positive + positive) :=
  match v with Z0 => None | Zpos p => Some (inl p) | Zneg p => Some (inr p) end.

#[global] Instance KPCR_HasPcr : HasPcr KPCR.
Proof. by refine {| pcr := id; set_pcr := λ k _, k |}. Defined.

Section Ke.
Context {S : Type} `{HP : HasPcr S}.

Definition KeDisableInterrupts : M S unit :=
  mmod (λ s, set_pcr (mkKPCR (Irql (pcr s)) false) s).

Definition KeEnableInterrupts : M S unit :=
  mmod (λ s, set_pcr (mkKPCR (Irql (pcr s)) true) s).

Definition KeGetCurrentIrql : M S Z := mgets (λ s, Irql (pcr s)).

Definition set_Irql (n : Z) : M S unit :=
  mmod (λ s, set_pcr (mkKPCR n (IntEnabled (pcr s))) s).

Definition KfRaiseIrql (NewIrql : Z) : M S Z :=
  Old ← KeGetCurrentIrql;
  if NewIrql <? Old then mbug IRQL_NOT_LESS_OR_EQUAL NewIrql Old 0 1
  else
    set_Irql NewIrql;;
    mwhen (DISPATCH_LEVEL <=? NewIrql) KeDisableInterrupts;;
    mret Old.

Definition KfLowerIrql (NewIrql : Z) : M S unit :=
  cur ← KeGetCurrentIrql;
  if cur <? NewIrql then mbug IRQL_NOT_LESS_OR_EQUAL NewIrql cur 0 2
  else
    set_Irql NewIrql;;
    mwhen (NewIrql <? DISPATCH_LEVEL) KeEnableInterrupts.

Definition KeInitializeSpinLock (L : SpinLock S) : M S unit := mmod (set_lk L 0).

(** [__atomic_test_and_set] on the low byte of the lock word; the loop around
    it spins for ever when the byte is already set, because the holder is on
    this processor and cannot run. *)
Definition KeAcquireSpinLockRaiseToDpc (L : SpinLock S) : M S Z :=
  Old ← KfRaiseIrql DISPATCH_LEVEL;
  w ← mgets (lk L);
  if u8 w =? 0 then mmod (set_lk L (w - u8 w + 1));; mret Old
  else λ _, Spin.

(** [__atomic_clear] on the low byte, then the IRQL the caller passes. *)
Definition KeReleaseSpinLock (L : SpinLock S) (NewIrql : Z) : M S unit :=
  w ← mgets (lk L);
  mmod (set_lk L (w - u8 w));;
  KfLowerIrql NewIrql.

(** The macro [KeAcquireSpinLock(Lock, &irql)]. *)
Definition KeAcquireSpinLock (L : SpinLock S) : M S Z :=
  KeAcquireSpinLockRaiseToDpc L.

(** The interrupt flag follows the IRQL: what the two transitions maintain. *)
Definition pcr_wf (k : KPCR) : Prop :=
  IntEnabled k = (Irql k <? DISPATCH_LEVEL) ∧ 0 ≤ Irql k ≤ HIGH_LEVEL.

(** A processor that may take a spin lock. *)
Definition can_lock (k : KPCR) : Prop := pcr_wf k ∧ Irql k ≤ DISPATCH_LEVEL.

Definition locked_pcr : KPCR := mkKPCR DISPATCH_LEVEL false.

Lemma locked_can_lock : can_lock locked_pcr.
Proof. unfold can_lock, pcr_wf, locked_pcr; simpl. unfold DISPATCH_LEVEL, HIGH_LEVEL; lia. Qed.

Lemma set_pcr_id k (s : S) : k = pcr s → set_pcr k s = s.
Proof. intros ->. apply set_pcr_pcr. Qed.

Lemma raise_ok (n : Z) s :
  Irql (pcr s) ≤ n →
  KfRaiseIrql n s =
  Ok (Irql (pcr s),
      set_pcr (mkKPCR n (if DISPATCH_LEVEL <=? n then false else IntEnabled (pcr s))) s).
Proof.
  intros Hle. unfold KfRaiseIrql, KeGetCurrentIrql, set_Irql, mbind, M_bind; simpl.
  destruct (n <? Irql (pcr s)) eqn:E; [lia|]. simpl.
  unfold mwhen. destruct (DISPATCH_LEVEL <=? n); simpl; [|done].
  by rewrite pcr_set, set_pcr_set.
Qed.

Lemma lower_ok (n : Z) s :
  n ≤ Irql (pcr s) →
  KfLowerIrql n s =
  Ok (tt, set_pcr (mkKPCR n (if n <? DISPATCH_LEVEL then true else IntEnabled (pcr s))) s).
Proof.
  intros Hle. unfold KfLowerIrql, KeGetCurrentIrql, set_Irql, mbind, M_bind; simpl.
  destruct (Irql (pcr s) <? n) eqn:E; [lia|]. simpl.
  unfold mwhen, KeEnableInterrupts. destruct (n <? DISPATCH_LEVEL); simpl; [|done].
  by rewrite pcr_set, set_pcr_set.
Qed.

Lemma acquire_ok (L : SpinLock S) s :
  Irql (pcr s) ≤ DISPATCH_LEVEL → lk L s = 0 →
  KeAcquireSpinLock L s = Ok (Irql (pcr s), set_lk L 1 (set_pcr locked_pcr s)).
Proof.
  intros Hle H0. unfold KeAcquireSpinLock, KeAcquireSpinLockRaiseToDpc.
  rewrite (bind_ok _ _ _ _ _ (raise_ok _ _ Hle)). simpl.
  unfold mbind, M_bind; simpl. by rewrite lk_set_pcr, H0.
Qed.

Lemma release_ok (L : SpinLock S) n s :
  n ≤ Irql (pcr s) → lk L s = 1 →
  KeReleaseSpinLock L n s =
  Ok (tt, set_pcr (mkKPCR n (if n <? DISPATCH_LEVEL then true else IntEnabled (pcr s)))
                  (set_lk L 0 s)).
Proof.
  intros Hle H1. unfold KeReleaseSpinLock, mbind, M_bind; simpl. rewrite H1.
  change (1 - u8 1) with 0. rewrite lower_ok; rewrite pcr_set_lk; done.
Qed.

Lemma release_to (L : SpinLock S) (s s2 : S) :
  can_lock (pcr s) → pcr s2 = locked_pcr → lk L s2 = 1 →
  KeReleaseSpinLock L (Irql (pcr s)) s2 = Ok (tt, set_pcr (pcr s) (set_lk L 0 s2)).
Proof.
  intros [[Hif Hr] Hle] Hp2 Hl2. rewrite release_ok; [|by rewrite Hp2|done].
  rewrite Hp2. destruct (pcr s) as [q f]; simpl in *. subst f. do 3 f_equal. by destruct (q <? DISPATCH_LEVEL).
Qed.

(** The pattern every component uses: take the lock, run, give the lock back
    at the IRQL that was saved. *)
Lemma locked_section_ok {A} (L : SpinLock S) (body : M S A) s a s2 :
  can_lock (pcr s) → lk L s = 0 →
  body (set_lk L 1 (set_pcr locked_pcr s)) = Ok (a, s2) →
  pcr s2 = locked_pcr → lk L s2 = 1 →
  (irql ← KeAcquireSpinLock L; r ← body; KeReleaseSpinLock L irql;; mret r) s =
  Ok (a, set_pcr (pcr s) (set_lk L 0 s2)).
Proof.
  intros [[Hif Hr] Hle] H0 Hb Hp2 Hl2.
  rewrite (bind_ok _ _ _ _ _ (acquire_ok L s Hle H0)).
  rewrite (bind_ok _ _ _ _ _ Hb).
  erewrite bind_ok; [|apply release_ok; [rewrite Hp2; done|done]].
  unfold mret, M_ret. do 3 f_equal. rewrite Hp2. destruct (pcr s) as [q f]; simpl in *.
  subst f. f_equal. by destruct (q <? DISPATCH_LEVEL).
Qed.

(** The state inside a section under lock [L], and the updates that do not
    look at the lock or the processor: run inside a section they have the
    effect they have outside. *)
Definition locked (L : SpinLock S) (s : S) : S := set_lk L 1 (set_pcr locked_pcr s).

Record framed (L : SpinLock S) (f : S → S) : Prop := {
  fr_comm v k s : f (set_lk L v (set_pcr k s)) = set_lk L v (set_pcr k (f s));
  fr_lk s : lk L (f s) = lk L s;
  fr_pcr s : pcr (f s) = pcr s
}.

Lemma framed_id L : framed L id.
Proof. by constructor. Qed.

Lemma framed_comp L f g : framed L f → framed L g → framed L (g ∘ f).
Proof.
  intros [c1 l1 p1] [c2 l2 p2]. constructor; simpl; intros.
  - by rewrite c1, c2.
  - by rewrite l2, l1.
  - by rewrite p2, p1.
Qed.

Lemma acquire_bind {B} (L : SpinLock S) (k : Z → M S B) s :
  can_lock (pcr s) → lk L s = 0 →
  (irql ← KeAcquireSpinLock L; k irql) s = k (Irql (pcr s)) (locked L s).
Proof. intros [_ Hle] H0. erewrite bind_ok; [done|]. by apply acquire_ok. Qed.

Lemma release_framed (L : SpinLock S) f s :
  can_lock (pcr s) → lk L s = 0 → framed L f →
  KeReleaseSpinLock L (Irql (pcr s)) (f (locked L s)) = Ok (tt, f s).
Proof.
  intros [[Hif Hr] Hle] H0 [Hc Hl Hp]. unfold locked. rewrite Hc.
  rewrite release_ok; rewrite ?lk_set, ?pcr_set_lk, ?pcr_set; [|done..].
  rewrite set_lk_set, set_lk_set_pcr, set_pcr_set. do 2 f_equal.
  rewrite set_pcr_id.
  - rewrite <- H0, <- (Hl s). apply set_lk_lk.
  - rewrite pcr_set_lk, Hp. destruct (pcr s) as [q f0]; simpl in *. subst f0. f_equal. by case_if.
Qed.

Lemma release_bind {B} (L : SpinLock S) f s (k : M S B) :
  can_lock (pcr s) → lk L s = 0 → framed L f →
  (KeReleaseSpinLock L (Irql (pcr s));; k) (f (locked L s)) = k (f s).
Proof. intros. erewrite bind_ok; [done|]. by apply release_framed. Qed.

Lemma release_same {B} (L : SpinLock S) s (k : M S B) :
  can_lock (pcr s) → lk L s = 0 → (KeReleaseSpinLock L (Irql (pcr s));; k) (locked L s) = k s.
Proof. intros. by apply (release_bind L id), framed_id. Qed.

(** A section whose body only does such an update. *)
Lemma locked_framed {A} (L : SpinLock S) (body : M S A) f s a :
  can_lock (pcr s) → lk L s = 0 → framed L f → body (locked L s) = Ok (a, f (locked L s)) →
  (irql ← KeAcquireSpinLock L; r ← body; KeReleaseSpinLock L irql;; mret r) s = Ok (a, f s).
Proof. intros Hc H0 Hf Hb. rewrite acquire_bind, (bind_ok _ _ _ _ _ Hb) by done. by rewrite release_bind. Qed.

(** Raising to a level at or above the current one and lowering back to
    the returned level is the identity on the processor state, and every
    other raise or lower stops with IRQL_NOT_LESS_OR_EQUAL and the
    parameters that name the offending transition. *)
Theorem irql_transitions (n : Z) (s : S) (Hwf : pcr_wf (pcr s)) :
  (Irql (pcr s) ≤ n →
     (old ← KfRaiseIrql n; KfLowerIrql old) s = Ok (tt, s)) ∧
  (n < Irql (pcr s) →
     KfRaiseIrql n s = BugCheck IRQL_NOT_LESS_OR_EQUAL n (Irql (pcr s)) 0 1) ∧
  (Irql (pcr s) < n →
     KfLowerIrql n s = BugCheck IRQL_NOT_LESS_OR_EQUAL n (Irql (pcr s)) 0 2).
Proof.
  destruct Hwf as [Hif Hr]. split_and!.
  - intros Hle. rewrite (bind_ok _ _ _ _ _ (raise_ok _ _ Hle)).
    rewrite lower_ok; rewrite pcr_set; simpl; [|done].
    rewrite set_pcr_set, set_pcr_id; [done|].
    destruct (pcr s) as [q f]; simpl in *. subst f. f_equal.
    repeat case_if; try done; unfold DISPATCH_LEVEL in *; lia.
  - intros Hlt. unfold KfRaiseIrql, KeGetCurrentIrql, mbind, M_bind; simpl.
    by rewrite (proj2 (Z.ltb_lt _ _)).
  - intros Hlt. unfold KfLowerIrql, KeGetCurrentIrql, mbind, M_bind; simpl.
    by rewrite (proj2 (Z.ltb_lt _ _)).
Qed.

(** A spin lock taken at or below DISPATCH_LEVEL raises to DISPATCH_LEVEL
    with interrupts off; releasing it at the saved level restores the
    processor state and the lock word exactly.  Taking a lock that is
    already held never returns, and taking one above DISPATCH_LEVEL stops
    the machine. *)
Theorem spinlock_discipline (L : SpinLock S) (s : S) (Hwf : pcr_wf (pcr s)) :
  (Irql (pcr s) ≤ DISPATCH_LEVEL → lk L s = 0 →
     (∃ s1, KeAcquireSpinLock L s = Ok (Irql (pcr s), s1) ∧
            pcr s1 = locked_pcr ∧ lk L s1 = 1 ∧
            KeAcquireSpinLock L s1 = Spin) ∧
     (irql ← KeAcquireSpinLock L; KeReleaseSpinLock L irql) s = Ok (tt, s)) ∧
  (DISPATCH_LEVEL < Irql (pcr s) →
     KeAcquireSpinLock L s =
     BugCheck IRQL_NOT_LESS_OR_EQUAL DISPATCH_LEVEL (Irql (pcr s)) 0 1).
Proof.
  split.
  - intros Hle H0. split.
    + eexists. split; [by apply acquire_ok|].
      rewrite pcr_set_lk, pcr_set, lk_set. split_and!; [done..|].
      unfold KeAcquireSpinLock, KeAcquireSpinLockRaiseToDpc.
      erewrite bind_ok; [|apply raise_ok; by rewrite pcr_set_lk, pcr_set].
      unfold mbind, M_bind; simpl. by rewrite lk_set_pcr, lk_set.
    + destruct Hwf as [Hif Hr].
      rewrite (bind_ok _ _ _ _ _ (acquire_ok L s Hle H0)).
      rewrite release_ok; rewrite ?lk_set, ?pcr_set_lk, ?pcr_set; [|done..].
      rewrite set_lk_set, set_lk_set_pcr, set_pcr_set.
      rewrite <- H0, set_lk_lk, set_pcr_id; [done|].
      destruct (pcr s) as [q f]; simpl in *. subst f. f_equal. by case_if.
  - intros Hlt. unfold KeAcquireSpinLock, KeAcquireSpinLockRaiseToDpc, KfRaiseIrql,
      KeGetCurrentIrql, mbind, M_bind; simpl.
    by rewrite (proj2 (Z.ltb_lt _ _)).
Qed.
End Ke.

(** ** Clock interrupt and time services *)

Module Clock.

(** The end-of-interrupt messages the handler can send. *)
Inductive EOI := EoiX2Apic | EoiLapicMmio | EoiPic (irq : Z).

Record CLOCK_STATE := mkClock {
  KeTickCount : Z;
  InterruptCount : Z;             (* Prcb->InterruptCount *)
  CurrentQuantum : option Z;      (* Prcb->CurrentThread->Quantum, None: no thread *)
  LapicMode : Z;
  LapicBase : Z;
  EoiLog : list EOI
}.

Definition APIC_MODE_X2APIC := 2.

Definition LapicSendEoi (s : CLOCK_STATE) : list EOI :=
  if LapicMode s =? APIC_MODE_X2APIC then [EoiX2Apic]
  else if truthy (LapicBase s) then [EoiLapicMmio] else [].

Definition KiClockInterrupt (s : CLOCK_STATE) : CLOCK_STATE := {|
  KeTickCount := u64 (KeTickCount s + 1);
  InterruptCount := u64 (InterruptCount s + 1);
  CurrentQuantum :=
    match CurrentQuantum s with
    | Some q => Some (if 0 <? q then q - 1 else q)
    | None => None
    end;
  LapicMode := LapicMode s;
  LapicBase := LapicBase s;
  EoiLog := EoiLog s ++ (if truthy (LapicMode s) then LapicSendEoi s else [EoiPic 0])
|}.

(** [SystemTime->QuadPart = (LONG64)KeTickCount * 10000]. *)
Definition KeQuerySystemTime (s : CLOCK_STATE) : Z := s64 (s64 (KeTickCount s) * 10000).

Definition KeQueryTickCount (s : CLOCK_STATE) : Z := KeTickCount s.

Definition KeQueryPerformanceCounter (s : CLOCK_STATE) : Z * Z :=
  (s64 (KeTickCount s), 1000).

Definition TSC_CYCLES_PER_US := 2000.

(** The do/while of the busy wait: [rdtsc i] is the i-th reading of the time
    stamp counter; the result is the index of the reading that ended it. *)
Fixpoint stall_loop (rdtsc : nat → Z) (fin : Z) (fuel i : nat) : option nat :=
  match fuel with
  | O => None
  | S fuel' => if rdtsc i <? fin then stall_loop rdtsc fin fuel' (S i) else Some i
  end.

Definition KeStallExecutionProcessor (rdtsc : nat → Z) (fuel : nat)
    (Microseconds : Z) : option nat :=
  let fin := u64 (rdtsc 0%nat + u64 (Microseconds * TSC_CYCLES_PER_US)) in
  stall_loop rdtsc fin fuel 1.

Lemma stall_loop_spec rdtsc fin n : ∀ fuel i,
  (i ≤ n)%nat → (n - i < fuel)%nat → fin ≤ rdtsc n →
  (∀ j, (i ≤ j < n)%nat → rdtsc j < fin) →
  stall_loop rdtsc fin fuel i = Some n.
Proof.
  induction fuel as [|fuel IH]; intros i Hi Hf Hn Hlt; [lia|]. simpl.
  destruct (decide (i = n)) as [->|Hne].
  - by destruct (rdtsc n <? fin) eqn:E; [lia|].
  - destruct (rdtsc i <? fin) eqn:E; [|specialize (Hlt i); lia].
    apply IH; [lia..|]. intros j Hj. apply Hlt. lia.
Qed.

(** A clock tick counts exactly one tick and one interrupt, takes one
    from a positive quantum and leaves an exhausted one at zero, and sends
    exactly one end-of-interrupt whenever the APIC is off or mapped. *)
Theorem clock_tick (s : CLOCK_STATE)
    (Hq : ∀ q, CurrentQuantum s = Some q → 0 ≤ q)
    (Hl : LapicMode s = 0 ∨ LapicMode s = APIC_MODE_X2APIC ∨ LapicBase s ≠ 0) :
  let s' := KiClockInterrupt s in
  KeTickCount s' = u64 (KeTickCount s + 1) ∧
  InterruptCount s' = u64 (InterruptCount s + 1) ∧
  CurrentQuantum s' = (λ q, Z.max 0 (q - 1)) <$> CurrentQuantum s ∧
  ∃ e, EoiLog s' = EoiLog s ++ [e].
Proof.
  simpl. split_and!; [done..| |].
  - destruct (CurrentQuantum s) as [q|]; simpl; [|done].
    specialize (Hq q eq_refl). f_equal. destruct (0 <? q) eqn:E; lia.
  - unfold truthy, LapicSendEoi, truthy. repeat case_if; eauto; bool_hyps; lia.
Qed.
End Clock.

(** ** Concrete runs *)

Definition demo_pcr : KPCR := mkKPCR PASSIVE_LEVEL true.

Lemma demo_can_lock : can_lock demo_pcr.
Proof. unfold can_lock, pcr_wf; simpl. unfold HIGH_LEVEL, PASSIVE_LEVEL, DISPATCH_LEVEL; lia. Defined.

#[local] Instance demo_HasPcr : HasPcr (KPCR * Z).
Proof. refine {| pcr := fst; set_pcr := λ k s, (k, snd s) |}; [done..|by intros []]. Defined.

Definition demo_lock : SpinLock (KPCR * Z).
Proof.
  refine (mkSpinLock snd (λ v s, (fst s, v)) _ _ _ _ _ _); [done..|by intros []|done].
Defined.

Lemma irql_transitions_witness :
  (old ← KfRaiseIrql 5; KfLowerIrql old) (mkKPCR 2 false) = Ok (tt, mkKPCR 2 false).
Proof. apply (irql_transitions 5 (mkKPCR 2 false)); [by split|done]. Defined.

Lemma spinlock_discipline_witness :
  (irql ← KeAcquireSpinLock demo_lock; KeReleaseSpinLock demo_lock irql) (mkKPCR 0 true, 0) =
  Ok (tt, (mkKPCR 0 true, 0)).
Proof. apply (spinlock_discipline demo_lock (mkKPCR 0 true, 0)); [by split|done|done]. Defined.

Lemma clock_tick_witness :
  let s := Clock.mkClock 7 3 (Some 1) 0 0 [] in
  Clock.CurrentQuantum (Clock.KiClockInterrupt s) = Some 0 ∧
  Clock.KeTickCount (Clock.KiClockInterrupt s) = 8.
Proof.
  intros s. destruct (Clock.clock_tick s) as (Ht & _ & Hq & _).
  - intros q [= <-]. done.
  - by left.
  - by rewrite Ht, Hq.
Defined.
