(* ===== verification/ListEntry.v ===== *)
(** * LIST_ENTRY (src/include/nt/ntdef.h)

    The intrusive doubly linked lists every queue of the kernel is made of,
    on a store of forward and backward links, and the proof that the inline
    operations implement the operations on Rocq lists.  The other files model
    a [LIST_ENTRY] queue as the list of the addresses linked into it; the
    theorem [list_entry_refinement] is what justifies that. *)

From S2P Require Import Prelude.

#[local] Open Scope Z_scope.

(** The links of all LIST_ENTRY cells, by address. *)
Record LINKS := mkLinks { Flink : Z → Z; Blink : Z → Z }.

Definition upd (f : Z → Z) (a v : Z) : Z → Z := λ x, if decide (x = a) then v else f x.
Definition setF (a v : Z) (st : LINKS) : LINKS := mkLinks (upd (Flink st) a v) (Blink st).
Definition setB (a v : Z) (st : LINKS) : LINKS := mkLinks (Flink st) (upd (Blink st) a v).

Definition InitializeListHead (Head : Z) (st : LINKS) : LINKS :=
  setF Head Head (setB Head Head st).

Definition IsListEmpty (Head : Z) (st : LINKS) : bool := Flink st Head =? Head.

Definition InsertTailList (Head Entry : Z) (st : LINKS) : LINKS :=
  let bl := Blink st Head in
  let st := setF Entry Head st in
  let st := setB Entry bl st in
  let st := setF bl Entry st in
  setB Head Entry st.

Definition InsertHeadList (Head Entry : Z) (st : LINKS) : LINKS :=
  let fl := Flink st Head in
  let st := setF Entry fl st in
  let st := setB Entry Head st in
  let st := setB fl Entry st in
  setF Head Entry st.

Definition RemoveEntryList (Entry : Z) (st : LINKS) : bool * LINKS :=
  let fl := Flink st Entry in
  let bl := Blink st Entry in
  let st := setF bl fl st in
  let st := setB fl bl st in
  (fl =? bl, st).

Definition RemoveHeadList (Head : Z) (st : LINKS) : Z * LINKS :=
  let Entry := Flink st Head in
  (Entry, (RemoveEntryList Entry st).2).

(** [chain st a l b]: following forward links from [a] visits [l] and reaches
    [b], and the backward links agree. *)
Fixpoint chain (st : LINKS) (a : Z) (l : list Z) (b : Z) : Prop :=
  match l with
  | [] => Flink st a = b ∧ Blink st b = a
  | x :: l' => Flink st a = x ∧ Blink st x = a ∧ chain st x l' b
  end.

(** The circular list with head [h] and entries [l]. *)
Definition is_list (st : LINKS) (h : Z) (l : list Z) : Prop :=
  NoDup (h :: l) ∧ chain st h l h.

Lemma upd_eq f a v : upd f a v a = v.
Proof. unfold upd. by rewrite decide_True. Qed.
Lemma upd_ne f a v x : x ≠ a → upd f a v x = f x.
Proof. intros. unfold upd. by rewrite decide_False. Qed.

Lemma chain_app st a l1 x l2 b :
  chain st a (l1 ++ x :: l2) b ↔ chain st a l1 x ∧ chain st x l2 b.
Proof.
  revert a; induction l1 as [|y l1 IH]; intros a; simpl; [tauto|].
  rewrite IH. tauto.
Qed.

Lemma chain_setF st a l b c v : c ∉ a :: l → chain (setF c v st) a l b ↔ chain st a l b.
Proof.
  revert a; induction l as [|x l IH]; intros a [Hca Hc]%not_elem_of_cons; simpl;
    rewrite upd_ne by done; [done|]. by rewrite IH.
Qed.

Lemma chain_setB st a l b c v : c ∉ l ++ [b] → chain (setB c v st) a l b ↔ chain st a l b.
Proof.
  revert a; induction l as [|x l IH]; intros a [Hca Hc]%not_elem_of_cons; simpl;
    rewrite upd_ne by done; [done|]. by rewrite IH.
Qed.

Lemma chain_last st a l b : chain st a l b → Blink st b = default a (last l).
Proof.
  destruct l as [|x l _] using rev_ind; [by intros []|].
  intros [_ [_ Hb]]%chain_app. by rewrite last_snoc.
Qed.

Lemma chain_first st a l b : chain st a l b → Flink st a = default b (head l).
Proof. destruct l; simpl; by intros [-> _]. Qed.

Ltac solve_upd :=
  simpl; unfold upd; repeat case_decide; subst; try done; try congruence;
  exfalso; set_solver.

(** Splice a fresh cell between two neighbours. *)
Definition splice (p e n : Z) (st : LINKS) : LINKS :=
  setB n e (setF p e (setB e p (setF e n st))).

Lemma chain_splice st h l1 l2 e :
  NoDup (h :: l1 ++ l2) → e ∉ h :: l1 ++ l2 → chain st h (l1 ++ l2) h →
  chain (splice (default h (last l1)) e (default h (head l2)) st) h (l1 ++ e :: l2) h.
Proof.
  intros Hnd He Hc.
  remember (default h (last l1)) as p eqn:Ep.
  remember (default h (head l2)) as n eqn:En.
  assert (Hp : p = h ∧ l1 = [] ∨ ∃ k, l1 = k ++ [p]).
  { destruct l1 as [|z k _] using rev_ind; [by left|]. right. exists k.
    by rewrite Ep, last_snoc. }
  assert (Hn : n = h ∧ l2 = [] ∨ ∃ k, l2 = n :: k) by (destruct l2; subst; eauto).
  clear Ep En.
  rewrite chain_app. unfold splice. revert Hc.
  destruct Hp as [[-> ->]|[k1 ->]], Hn as [[-> ->]|[k2 ->]]; simpl in *;
    rewrite ?app_nil_r, <- ?app_assoc in *; simpl in *;
    rewrite ?NoDup_cons, ?NoDup_app, ?NoDup_cons in Hnd;
    rewrite ?chain_app; simpl;
    (rewrite ?chain_setB, ?chain_setF by set_solver;
     rewrite ?chain_setB, ?chain_setF by set_solver); simpl;
    intros Hc; decompose [and] Hc; clear Hc; split_and?; try done; try solve [solve_upd].
Qed.

Lemma is_list_init h st : is_list (InitializeListHead h st) h [].
Proof. split; [apply NoDup_singleton|]. simpl. by rewrite !upd_eq. Qed.

Lemma is_list_empty h l st : is_list st h l → IsListEmpty h st = true ↔ l = [].
Proof.
  intros [Hnd Hc]. unfold IsListEmpty. rewrite Z.eqb_eq, (chain_first _ _ _ _ Hc).
  destruct l as [|x l]; simpl; [done|]. split; [|done]. intros ->.
  apply NoDup_cons in Hnd as [Hn _]. set_solver.
Qed.

Lemma is_list_insert_tail h e l st :
  is_list st h l → e ∉ h :: l → is_list (InsertTailList h e st) h (l ++ [e]).
Proof.
  intros [Hnd Hc] He. split.
  - rewrite !NoDup_cons, ?NoDup_app, ?NoDup_cons in *. set_solver by constructor.
  - pose proof (chain_splice st h l [] e) as H. rewrite app_nil_r in H.
    specialize (H Hnd He Hc). unfold InsertTailList.
    rewrite (chain_last _ _ _ _ Hc). apply H.
Qed.

Lemma is_list_insert_head h e l st :
  is_list st h l → e ∉ h :: l → is_list (InsertHeadList h e st) h (e :: l).
Proof.
  intros [Hnd Hc] He. split.
  - rewrite !NoDup_cons in *. set_solver.
  - pose proof (chain_splice st h [] l e Hnd He Hc) as H. unfold InsertHeadList.
    rewrite (chain_first _ _ _ _ Hc). apply H.
Qed.

Lemma chain_split st h l1 e l2 :
  chain st h (l1 ++ e :: l2) h →
  Blink st e = default h (last l1) ∧ Flink st e = default h (head l2).
Proof.
  intros [H1 H2]%chain_app. by rewrite (chain_last _ _ _ _ H1), (chain_first _ _ _ _ H2).
Qed.

Lemma chain_unlink st h l1 e l2 :
  NoDup (h :: l1 ++ e :: l2) → chain st h (l1 ++ e :: l2) h →
  chain (setB (default h (head l2)) (default h (last l1))
        (setF (default h (last l1)) (default h (head l2)) st)) h (l1 ++ l2) h.
Proof.
  intros Hnd Hc.
  assert (Hp : default h (last l1) = h ∧ l1 = [] ∨ ∃ k p, default h (last l1) = p ∧ l1 = k ++ [p]).
  { destruct l1 as [|z k _] using rev_ind; [by left|]. right. exists k, z.
    by rewrite last_snoc. }
  assert (Hn : default h (head l2) = h ∧ l2 = [] ∨ ∃ k n, default h (head l2) = n ∧ l2 = n :: k)
    by (destruct l2; naive_solver).
  revert Hc.
  destruct Hp as [[-> ->]|(k1 & p & -> & ->)], Hn as [[-> ->]|(k2 & n & -> & ->)]; simpl in *;
    rewrite ?app_nil_r, <- ?app_assoc in *; simpl in *;
    rewrite ?NoDup_cons, ?NoDup_app, ?NoDup_cons in Hnd;
    rewrite ?chain_app; simpl;
    (rewrite ?chain_setB, ?chain_setF by set_solver); simpl;
    intros Hc; decompose [and] Hc; clear Hc; split_and?; try done; solve_upd.
Qed.

Lemma is_list_remove_entry h e l1 l2 st :
  is_list st h (l1 ++ e :: l2) → is_list (RemoveEntryList e st).2 h (l1 ++ l2).
Proof.
  intros [Hnd Hc]. split.
  - rewrite !NoDup_cons, ?NoDup_app, ?NoDup_cons in *. set_solver.
  - destruct (chain_split _ _ _ _ _ Hc) as [HB HF]. unfold RemoveEntryList; simpl.
    rewrite HB, HF. by apply chain_unlink with e.
Qed.

(** ** Refinement *)

(** The queue operations of the kernel on the store ... *)
Inductive LOP := InsTail (e : Z) | InsHead (e : Z) | RemHead | RemEntry (e : Z).

Definition run_store (h : Z) (op : LOP) (st : LINKS) : LINKS :=
  match op with
  | InsTail e => InsertTailList h e st
  | InsHead e => InsertHeadList h e st
  | RemHead => (RemoveHeadList h st).2
  | RemEntry e => (RemoveEntryList e st).2
  end.

(** ... and on lists, [None] where the callers never are: linking a cell that
    is linked already, or unlinking one that is not. *)
Definition run_list (h : Z) (op : LOP) (l : list Z) : option (list Z) :=
  match op with
  | InsTail e => if decide (e ∈ h :: l) then None else Some (l ++ [e])
  | InsHead e => if decide (e ∈ h :: l) then None else Some (e :: l)
  | RemHead => match l with [] => None | _ :: l' => Some l' end
  | RemEntry e => if decide (e ∈ l) then Some (filter (λ x, x ≠ e) l) else None
  end.

Lemma filter_ne_split (l1 l2 : list Z) e :
  e ∉ l1 → e ∉ l2 → filter (λ x, x ≠ e) (l1 ++ e :: l2) = l1 ++ l2.
Proof.
  intros H1 H2. rewrite filter_app, filter_cons_False by tauto.
  by rewrite !filter_ne_id.
Qed.

Lemma run_refines h op l l' st :
  is_list st h l → run_list h op l = Some l' → is_list (run_store h op st) h l'.
Proof.
  intros Hl. destruct op as [e|e| |e]; simpl.
  - case_decide; [done|]. intros [= <-]. by apply is_list_insert_tail.
  - case_decide; [done|]. intros [= <-]. by apply is_list_insert_head.
  - destruct l as [|x l2]; [done|]. intros [= <-]. unfold RemoveHeadList; simpl.
    rewrite (chain_first _ _ _ _ (proj2 Hl)). simpl.
    by apply (is_list_remove_entry h x [] l2).
  - case_decide as He; [|done]. intros [= <-].
    apply list_elem_of_split in He as (l1 & l2 & ->). pose proof Hl as [Hnd _].
    rewrite NoDup_cons, NoDup_app, NoDup_cons in Hnd.
    rewrite filter_ne_split by set_solver. by apply is_list_remove_entry.
Qed.

Fixpoint run_lists (h : Z) (ops : list LOP) (l : list Z) : option (list Z) :=
  match ops with
  | [] => Some l
  | op :: ops' => l' ← run_list h op l; run_lists h ops' l'
  end.

(** [C13] The inline LIST_ENTRY operations refine list operations: from an
    initialised head, every sequence of insertions of unlinked cells and
    removals of linked ones leaves a circular, doubly linked list that holds
    exactly the cells of the list computed by appending, prepending and
    deleting, with distinct cells; IsListEmpty and the cell RemoveHeadList
    returns agree with that list. *)
Theorem list_entry_refinement (h : Z) (ops : list LOP) (st : LINKS) (l : list Z)
    (Hrun : run_lists h ops [] = Some l) :
  let st' := foldl (λ s op, run_store h op s) (InitializeListHead h st) ops in
  is_list st' h l ∧
  (IsListEmpty h st' = true ↔ l = []) ∧
  (∀ x k, l = x :: k → (RemoveHeadList h st').1 = x).
Proof.
  assert (Hgen : ∀ l0 s0, is_list s0 h l0 → run_lists h ops l0 = Some l →
            is_list (foldl (λ s op, run_store h op s) s0 ops) h l).
  { clear. induction ops as [|op ops IH]; intros l0 s0 Hl; simpl.
    - by intros [= <-].
    - intros (l1 & H1 & H2)%bind_Some. apply (IH l1); [|done].
      by apply run_refines with l0. }
  specialize (Hgen [] (InitializeListHead h st) (is_list_init h st) Hrun).
  simpl. split_and!; [done|by apply is_list_empty|].
  intros x k ->. unfold RemoveHeadList; simpl. by rewrite (chain_first _ _ _ _ (proj2 Hgen)).
Qed.

Lemma list_entry_refinement_witness :
  run_lists 100 [InsTail 1; InsTail 2; InsHead 3; RemEntry 1; RemHead] [] = Some [2] ∧
  (IsListEmpty 100
     (foldl (λ s op, run_store 100 op s) (InitializeListHead 100 (mkLinks id id))
        [InsTail 1; InsTail 2; InsHead 3; RemEntry 1; RemHead]) = true ↔ [2] = []).
Proof.
  split; [reflexivity|].
  apply (list_entry_refinement 100 [InsTail 1; InsTail 2; InsHead 3; RemEntry 1; RemHead]
           (mkLinks id id) [2] eq_refl).
Defined.
