(* ===== verification/Rtl.v ===== *)
(** * Rtl: memory and string primitives (src/rtl/rtl.c, src/rtl/rtlsupp.c)

    The freestanding memory routines on a byte memory, and the counted and
    zero-terminated string routines.  A wide string is the list of its 16-bit
    units; reading a buffer at or past its end gives the terminator. *)

From S2P Require Import Prelude.

#[local] Open Scope Z_scope.

(** ** Memory *)

Definition wr (m : Z → Z) (a v : Z) : Z → Z := λ x, if decide (x = a) then v else m x.

Fixpoint memcpy_loop (n : nat) (dd ss : Z) (m : Z → Z) : Z → Z :=
  match n with
  | O => m
  | S n' => memcpy_loop n' (dd + 1) (ss + 1) (wr m dd (m ss))
  end.

Definition memcpy (d s : Z) (n : nat) (m : Z → Z) : Z → Z := memcpy_loop n d s m.

Fixpoint memset_loop (n : nat) (dd c : Z) (m : Z → Z) : Z → Z :=
  match n with
  | O => m
  | S n' => memset_loop n' (dd + 1) c (wr m dd (u8 c))
  end.

Definition memset (d c : Z) (n : nat) (m : Z → Z) : Z → Z := memset_loop n d c m.

Definition RtlCopyMemory (Dst Src : Z) (Length : nat) (m : Z → Z) := memcpy Dst Src Length m.
Definition RtlZeroMemory (Dst : Z) (Length : nat) (m : Z → Z) := memset Dst 0 Length m.
Definition RtlFillMemory (Dst : Z) (Length : nat) (Fill : Z) (m : Z → Z) := memset Dst Fill Length m.

(** The backward loop: [*--dd = *--ss]. *)
Fixpoint memmove_back (n : nat) (dd ss : Z) (m : Z → Z) : Z → Z :=
  match n with
  | O => m
  | S n' => memmove_back n' (dd - 1) (ss - 1) (wr m (dd - 1) (m (ss - 1)))
  end.

Definition memmove (d s : Z) (n : nat) (m : Z → Z) : Z → Z :=
  if d <? s then memcpy_loop n d s m
  else memmove_back n (d + Z.of_nat n) (s + Z.of_nat n) m.

Fixpoint memcmp (a b : Z) (n : nat) (m : Z → Z) : Z :=
  match n with
  | O => 0
  | S n' => if negb (m a =? m b) then m a - m b else memcmp (a + 1) (b + 1) n' m
  end.

Fixpoint RtlCompareMemory_loop (a b : Z) (i : Z) (left : nat) (m : Z → Z) : Z :=
  match left with
  | O => i
  | S left' =>
      if negb (m (a + i) =? m (b + i)) then i
      else RtlCompareMemory_loop a b (i + 1) left' m
  end.

Definition RtlCompareMemory (Source1 Source2 : Z) (Length : nat) (m : Z → Z) : Z :=
  RtlCompareMemory_loop Source1 Source2 0 Length m.

(** ** Characters and strings *)

(** [buf[i]] of a zero-terminated or counted buffer. *)
Definition rd (buf : list Z) (i : nat) : Z := default 0 (buf !! i).

(** [while (S[n]) n++;] of RtlStringLength, RtlWStringLength and wcslen. *)
Fixpoint RtlStringLength (S : list Z) : nat :=
  match S with
  | [] => 0
  | c :: S' => if c =? 0 then 0 else 1 + RtlStringLength S'
  end.

(** The characters before the terminator, and strings in cleared arrays. *)
Definition cstr (u : list Z) : list Z := take (RtlStringLength u) u.

Lemma cname_take u n : ∀ k, cname u k n = take n (cstr (drop k u)).
Proof.
  induction n as [|n IH]; intros k; [done|]. cbn [cname]. rewrite IH. unfold chr.
  destruct (u !! k) as [c|] eqn:Hk.
  - rewrite (drop_S u c k Hk). unfold cstr. cbn [RtlStringLength from_option]. unfold id. by destruct (Z.eqb_spec c 0).
  - rewrite (drop_ge u k) by by apply lookup_ge_None. by destruct n.
Qed.

Lemma RtlStringLength_zeros (l : list Z) n :
  (∀ c, c ∈ l → c ≠ 0) → RtlStringLength (l ++ replicate n 0) = length l.
Proof.
  induction l as [|c l IH]; intros Hl; [by destruct n|]. simpl.
  destruct (Z.eqb_spec c 0) as [->|_]; [|rewrite IH; [done|]; intros c' Hc'; apply Hl; by right].
  destruct (Hl 0); [left|done].
Qed.

Lemma cstr_nil u : cstr u = [] ↔ chr u 0 = 0.
Proof.
  destruct u as [|c u]; [done|]. unfold cstr, chr. simpl. destruct (Z.eqb_spec c 0) as [->|Hc]; [done|].
  simpl. split; [done|]. intros ->. done.
Qed.
Lemma cstr_cons c u : c ≠ 0 → cstr (c :: u) = c :: cstr u.
Proof. intros Hc. unfold cstr. simpl. by destruct (Z.eqb_spec c 0). Qed.
Lemma cstr_nonzero u c : c ∈ cstr u → c ≠ 0.
Proof.
  induction u as [|d u IH]; [by intros ?%elem_of_nil|]. unfold cstr. simpl. destruct (Z.eqb_spec d 0); [by intros ?%elem_of_nil|].
  intros [->|Hc]%elem_of_cons; [done|by apply IH].
Qed.
Lemma cstr_zeros l n : (∀ c, c ∈ l → c ≠ 0) → cstr (l ++ replicate n 0) = l.
Proof. intros Hl. unfold cstr. rewrite RtlStringLength_zeros by done. apply take_app_length. Qed.
Lemma cstr_length u : length (cstr u) = RtlStringLength u.
Proof.
  induction u as [|c u IH]; [done|]. unfold cstr in *. simpl. destruct (c =? 0); [done|]. simpl. by rewrite IH.
Qed.

(** Two strings one of which has ended are equal when both have; [fa] and [fb]
    are their characters, as they are or with their case folded. *)
Lemma ends_together (a b fa fb : list Z) :
  (fa = [] ↔ chr a 0 = 0) → (fb = [] ↔ chr b 0 = 0) → fa = [] ∨ fb = [] →
  (chr a 0 =? 0) && (chr b 0 =? 0) = bool_decide (fa = fb).
Proof.
  intros Ha Hb H. destruct (Z.eqb_spec (chr a 0) 0) as [Ea|Ea], (Z.eqb_spec (chr b 0) 0) as [Eb|Eb]; simpl; symmetry.
  - apply bool_decide_eq_true. by rewrite (proj2 Ha Ea), (proj2 Hb Eb).
  - apply bool_decide_eq_false. rewrite (proj2 Ha Ea). intros E. by apply Eb, Hb.
  - apply bool_decide_eq_false. rewrite (proj2 Hb Eb). intros E. by apply Ea, Ha.
  - exfalso. destruct H as [H|H]; [apply Ea, Ha, H|apply Eb, Hb, H].
Qed.

(** [Src] may be NULL. *)
Definition wcslen (s : option (list Z)) : nat :=
  match s with Some s => RtlStringLength s | None => 0 end.

(** The index of the last unit equal to [c] before the terminator. *)
Fixpoint wcsrchr_loop (s : list Z) (c : Z) (i : nat) (last : option nat) : option nat :=
  match s with
  | [] => last
  | x :: s' =>
      if x =? 0 then last
      else wcsrchr_loop s' c (S i) (if x =? c then Some i else last)
  end.

Definition wcsrchr (s : option (list Z)) (c : Z) : option nat :=
  match s with Some s => wcsrchr_loop s c 0 None | None => None end.

Record UNICODE_STRING := mkUS { Length : Z; MaximumLength : Z; Buffer : list Z }.

#[global] Instance UNICODE_STRING_eq_dec : EqDecision UNICODE_STRING.
Proof. solve_decision. Defined.

Definition RtlInitUnicodeString (Src : option (list Z)) : UNICODE_STRING :=
  let n := Z.of_nat (wcslen Src) in
  {| Buffer := default [] Src;
     Length := u16 (n * 2);
     MaximumLength := u16 ((n + 1) * 2) |}.

Definition RtlpUpcase (c : Z) : Z := if (97 <=? c) && (c <=? 122) then c - 32 else c.

Definition RtlUpcaseUnicodeChar (c : Z) : Z := if (97 <=? c) && (c <=? 122) then c - 32 else c.

(** The comparison loop [for (i = 0; i < n; i++)], shared by the equality and
    the prefix test; [up] is the case map, applied when asked for. *)
Fixpoint units_equal (up : Z → Z) (ci : bool) (a b : list Z) (i left : nat) : bool :=
  match left with
  | O => true
  | S left' =>
      let x := rd a i in let y := rd b i in
      let '(x, y) := if ci then (up x, up y) else (x, y) in
      if negb (x =? y) then false else units_equal up ci a b (S i) left'
  end.

Definition RtlEqualUnicodeString (A B : UNICODE_STRING) (CaseInsensitive : bool) : bool :=
  if negb (Length A =? Length B) then false
  else units_equal RtlpUpcase CaseInsensitive (Buffer A) (Buffer B) 0 (Z.to_nat (Length A / 2)).

Definition RtlPrefixUnicodeString (Str1 Str2 : option UNICODE_STRING) (CaseInsensitive : bool) : bool :=
  match Str1, Str2 with
  | Some s1, Some s2 =>
      if Length s2 <? Length s1 then false
      else units_equal RtlUpcaseUnicodeChar CaseInsensitive (Buffer s1) (Buffer s2) 0
             (Z.to_nat (Length s1 / 2))
  | _, _ => false
  end.

Definition lower_ascii (c : Z) : Z := if (65 <=? c) && (c <=? 90) then c + 32 else c.

(** [_stricmp] and [_wcsicmp] have the same body at two widths. *)
Fixpoint wcsicmp (s1 s2 : list Z) : Z :=
  match s1, s2 with
  | x :: s1', y :: s2' =>
      if (x =? 0) || (y =? 0) then x - y
      else
        let c1 := lower_ascii x in let c2 := lower_ascii y in
        if negb (c1 =? c2) then c1 - c2 else wcsicmp s1' s2'
  | _, _ => rd s1 0 - rd s2 0
  end.

Fixpoint wcsupr (s : list Z) : list Z :=
  match s with
  | [] => []
  | c :: s' =>
      if c =? 0 then s
      else (if (97 <=? c) && (c <=? 122) then c - 32 else c) :: wcsupr s'
  end.

(** The inner loop of [wcsstr]: does [t] occur at the front of [s]? *)
Fixpoint wcs_front (s t : list Z) : bool :=
  match t with
  | [] => true
  | y :: t' =>
      if y =? 0 then true
      else match s with
           | x :: s' => if x =? y then wcs_front s' t' else false
           | [] => false
           end
  end.

Fixpoint wcsstr (str substr : list Z) (i : nat) : option nat :=
  match str with
  | [] => None
  | c :: str' =>
      if c =? 0 then None
      else if wcs_front str substr then Some i else wcsstr str' substr (S i)
  end.

(** ** Number parsing *)

Definition digit_of (c : Z) : option Z :=
  if (48 <=? c) && (c <=? 57) then Some (c - 48)
  else if (97 <=? c) && (c <=? 102) then Some (10 + c - 97)
  else if (65 <=? c) && (c <=? 70) then Some (10 + c - 65)
  else None.

Fixpoint parse_digits (buf : list Z) (Base : Z) (i left : nat) (v : Z) : Z :=
  match left with
  | O => v
  | S left' =>
      match digit_of (rd buf i) with
      | None => v
      | Some d => if Base <=? d then v else parse_digits buf Base (S i) left' (u32 (v * Base + d))
      end
  end.

(** Status and the value stored through [Value]; [None] pointers are refused. *)
Definition RtlUnicodeStringToInteger (Str : option UNICODE_STRING) (Base : Z) : Z * option Z :=
  match Str with
  | None => (STATUS_INVALID_PARAMETER, None)
  | Some u =>
      let len := Z.to_nat (Length u / 2) in
      if (len =? 0)%nat then (STATUS_SUCCESS, Some 0)
      else
        let c0 := rd (Buffer u) 0 in
        let neg := c0 =? 45 in
        let i := if neg || (c0 =? 43) then 1%nat else 0%nat in
        let v := parse_digits (Buffer u) Base i (len - i) 0 in
        (STATUS_SUCCESS, Some (if neg then u32 (- s32 v) else v))
  end.

(** ** Bounded copies *)

(** The copy loop of RtlStringCbCopyW from index [i] on: the writes made, in
    order, and the index it stops at. *)
Fixpoint cb_copy_loop (src : list Z) (cbDest : Z) (i : nat) : list (nat * Z) * nat :=
  match src with
  | [] => ([], i)
  | c :: src' =>
      if negb (c =? 0) && ((Z.of_nat i + 1) * 2 <=? cbDest)
      then let '(w, j) := cb_copy_loop src' cbDest (S i) in ((i, c) :: w, j)
      else ([], i)
  end.

(** Status and the list of (index, unit) writes to [pszDest]. *)
Definition RtlStringCbCopyW (pszDest : bool) (cbDest : Z) (pszSrc : option (list Z))
    : Z * list (nat * Z) :=
  match pszDest, pszSrc with
  | true, Some src =>
      if cbDest <? 2 then (STATUS_INVALID_PARAMETER, [])
      else
        let '(w, i) := cb_copy_loop src cbDest 0 in
        if Z.of_nat i * 2 <? cbDest then (STATUS_SUCCESS, w ++ [(i, 0)])
        else (0x80000005 (* STATUS_BUFFER_OVERFLOW *), w ++ [(Z.to_nat (cbDest / 2 - 1), 0)])
  | _, _ => (STATUS_INVALID_PARAMETER, [])
  end.

Fixpoint cb_cat_loop (src : list Z) (cbDest : Z) (destLen srcIdx : nat) : list (nat * Z) * nat :=
  match src with
  | [] => ([], srcIdx)
  | c :: src' =>
      if negb (c =? 0) && ((Z.of_nat (destLen + srcIdx) + 1) * 2 <? cbDest)
      then let '(w, j) := cb_cat_loop src' cbDest destLen (S srcIdx) in
           ((destLen + srcIdx, c)%nat :: w, j)
      else ([], srcIdx)
  end.

Definition RtlStringCbCatW (pszDest : option (list Z)) (cbDest : Z) (pszSrc : option (list Z))
    : Z * list (nat * Z) :=
  match pszDest, pszSrc with
  | Some dest, Some src =>
      if cbDest <? 2 then (STATUS_INVALID_PARAMETER, [])
      else
        let destLen := RtlStringLength dest in
        let '(w, j) := cb_cat_loop src cbDest destLen 0 in
        (STATUS_SUCCESS, w ++ [((destLen + j)%nat, 0)])
  | _, _ => (STATUS_INVALID_PARAMETER, [])
  end.

(** ** Critical sections *)

Record RTL_CRITICAL_SECTION := mkCS {
  LockCount : Z; RecursionCount : Z; OwningThread : Z; SpinCount : Z }.

Definition RtlInitializeCriticalSection : RTL_CRITICAL_SECTION := mkCS (-1) 0 0 0.

(** The compare-and-swap loop: nobody else runs, so a taken section spins. *)
Definition RtlEnterCriticalSection (cur : Z) : M RTL_CRITICAL_SECTION Z := λ cs,
  if LockCount cs =? -1 then Ok (STATUS_SUCCESS, mkCS 0 1 cur (SpinCount cs)) else Spin.

Definition RtlLeaveCriticalSection : M RTL_CRITICAL_SECTION Z := λ cs,
  Ok (STATUS_SUCCESS, mkCS (-1) 0 0 (SpinCount cs)).

(** ** Proofs *)

Lemma wr_eq m a v : wr m a v a = v.
Proof. unfold wr. by rewrite decide_True. Qed.
Lemma wr_ne m a v x : x ≠ a → wr m a v x = m x.
Proof. intros. unfold wr. by rewrite decide_False. Qed.

(** What a copy of [n] bytes should do. *)
Definition copied (d s : Z) (n : nat) (m : Z → Z) (a : Z) : Z :=
  if (d <=? a) && (a <? d + Z.of_nat n) then m (s + (a - d)) else m a.

Lemma memcpy_loop_copied n : ∀ d s m a,
  d ≤ s ∨ s + Z.of_nat n ≤ d → memcpy_loop n d s m a = copied d s n m a.
Proof.
  induction n as [|n IH]; intros d s m a Hds; simpl.
  { unfold copied. case_if; [bool_hyps; exfalso; lia|done]. }
  rewrite IH by lia. unfold copied.
  destruct (decide (a = d)) as [->|Hne].
  - replace (d + 1 <=? d) with false by lia. simpl. rewrite wr_eq.
    replace ((d <=? d) && (d <? d + Z.of_nat (S n))) with true by lia.
    f_equal; lia.
  - destruct ((d + 1 <=? a) && (a <? d + 1 + Z.of_nat n)) eqn:E;
      destruct ((d <=? a) && (a <? d + Z.of_nat (S n))) eqn:E'; try lia.
    + rewrite wr_ne by lia. f_equal; lia.
    + by apply wr_ne.
Qed.

Lemma memmove_back_copied n : ∀ d s m a,
  s ≤ d →
  memmove_back n (d + Z.of_nat n) (s + Z.of_nat n) m a = copied d s n m a.
Proof.
  induction n as [|n IH]; intros d s m a Hds; cbn [memmove_back].
  { unfold copied. case_if; [bool_hyps; lia|done]. }
  replace (d + Z.of_nat (S n) - 1) with (d + Z.of_nat n) by lia.
  replace (s + Z.of_nat (S n) - 1) with (s + Z.of_nat n) by lia.
  rewrite IH by lia. unfold copied.
  destruct (decide (a = d + Z.of_nat n)) as [->|Hne].
  - replace ((d <=? d + Z.of_nat n) && (d + Z.of_nat n <? d + Z.of_nat n)) with false by lia.
    rewrite wr_eq.
    replace ((d <=? d + Z.of_nat n) && (d + Z.of_nat n <? d + Z.of_nat (S n))) with true by lia.
    f_equal; lia.
  - destruct ((d <=? a) && (a <? d + Z.of_nat n)) eqn:E;
      destruct ((d <=? a) && (a <? d + Z.of_nat (S n))) eqn:E'; try lia.
    + rewrite wr_ne by lia. done.
    + by apply wr_ne.
Qed.

Lemma memset_spec n : ∀ d c m a,
  memset d c n m a = if (d <=? a) && (a <? d + Z.of_nat n) then u8 c else m a.
Proof.
  unfold memset. induction n as [|n IH]; intros d c m a; simpl.
  { case_if; [bool_hyps; lia|done]. }
  rewrite IH. destruct (decide (a = d)) as [->|Hne].
  - rewrite wr_eq. repeat case_if; try done; bool_hyps; lia.
  - rewrite wr_ne by done. repeat case_if; try done; bool_hyps; lia.
Qed.

(** memmove copies the source as it was before the call whatever the
    overlap of the two ranges and changes nothing else; memcpy does so when
    the destination does not start inside the source, and RtlCompareMemory
    then finds the two ranges equal. *)
Theorem memmove_overlap (d s : Z) (n : nat) (m : Z → Z) :
  (∀ a, memmove d s n m a =
        if (d <=? a) && (a <? d + Z.of_nat n) then m (s + (a - d)) else m a) ∧
  (d ≤ s ∨ s + Z.of_nat n ≤ d → ∀ a, memcpy d s n m a = memmove d s n m a).
Proof.
  assert (Hmm : ∀ a, memmove d s n m a = copied d s n m a).
  { intros a. unfold memmove. case_if.
    - apply memcpy_loop_copied. lia.
    - apply memmove_back_copied. lia. }
  split; [exact Hmm|].
  intros Hds a. rewrite Hmm. unfold memcpy. by apply memcpy_loop_copied.
Qed.

(** The units a counted string denotes, case folded. *)
Definition ufold (u : UNICODE_STRING) : list Z :=
  (λ i, RtlpUpcase (rd (Buffer u) i)) <$> seq 0 (Z.to_nat (Length u / 2)).

Lemma units_equal_spec up ci a b n : ∀ i,
  units_equal up ci a b i n = true ↔
  ∀ j, (i ≤ j < i + n)%nat →
    if ci then up (rd a j) = up (rd b j) else rd a j = rd b j.
Proof.
  induction n as [|n IH]; intros i; simpl.
  { split; [|done]. intros _ j Hj. lia. }
  assert (Hstep : (∀ j, (i ≤ j < i + S n)%nat →
            if ci then up (rd a j) = up (rd b j) else rd a j = rd b j) ↔
          (if ci then up (rd a i) = up (rd b i) else rd a i = rd b i) ∧
          ∀ j, (S i ≤ j < S i + n)%nat →
            if ci then up (rd a j) = up (rd b j) else rd a j = rd b j).
  { split.
    - intros H. split; [apply H; lia|]. intros j Hj. apply H. lia.
    - intros [Hi H] j Hj. destruct (decide (j = i)) as [->|]; [done|]. apply H. lia. }
  rewrite Hstep, <- IH. clear Hstep IH. destruct ci; simpl.
  - destruct (up (rd a i) =? up (rd b i)) eqn:E; simpl; [|split; [done|lia]].
    apply Z.eqb_eq in E. tauto.
  - destruct (rd a i =? rd b i) eqn:E; simpl; [|split; [done|lia]].
    apply Z.eqb_eq in E. tauto.
Qed.

Lemma ueq_fold A B :
  RtlEqualUnicodeString A B true = true ↔ Length A = Length B ∧ ufold A = ufold B.
Proof.
  unfold RtlEqualUnicodeString. destruct (Length A =? Length B) eqn:E; simpl.
  - apply Z.eqb_eq in E. rewrite units_equal_spec. unfold ufold. rewrite E. split.
    + intros H. split; [done|]. apply list_fmap_ext. intros i x [-> Hi]%lookup_seq.
      simpl. apply (H i). lia.
    + intros [_ H] j Hj. apply (f_equal (lookup j)) in H. rewrite !list_lookup_fmap in H.
      rewrite lookup_seq_lt in H by lia. simpl in H. by simplify_eq.
  - split; [done|]. lia.
Qed.

(** Name equality is case-insensitive string equality: two counted strings
    are equal exactly when they have the same length and the same units after
    mapping a-z to A-Z, and it is an equivalence relation, which the object
    namespace and the registry rely on. *)
Theorem RtlEqualUnicodeString_equivalence :
  (∀ A B, RtlEqualUnicodeString A B true = true ↔ Length A = Length B ∧ ufold A = ufold B) ∧
  Equivalence (λ A B, RtlEqualUnicodeString A B true = true).
Proof.
  split; [exact ueq_fold|]. split; red; intros *; rewrite !ueq_fold.
  - done.
  - intros [-> ->]; done.
  - intros [-> ->] [-> ->]; done.
Qed.

(** ** Numbers *)

Definition unit_of_digit (d : Z) : Z := if d <? 10 then 48 + d else 87 + d.

(** The counted string of a list of units. *)
Definition ustr (l : list Z) : UNICODE_STRING :=
  mkUS (2 * Z.of_nat (length l)) (2 * Z.of_nat (length l) + 2) l.

Definition digits_value (Base : Z) (ds : list Z) : Z := foldl (λ v d, v * Base + d) 0 ds.

Lemma digit_of_unit d : 0 ≤ d < 16 → digit_of (unit_of_digit d) = Some d.
Proof.
  intros Hd. unfold digit_of, unit_of_digit.
  destruct (d <? 10) eqn:E.
  - replace ((48 <=? 48 + d) && (48 + d <=? 57)) with true by lia. f_equal; lia.
  - replace ((48 <=? 87 + d) && (87 + d <=? 57)) with false by lia.
    replace ((97 <=? 87 + d) && (87 + d <=? 102)) with true by lia. f_equal; lia.
Qed.

Lemma rd_app_r a b i : rd (a ++ b) (length a + i) = rd b i.
Proof. unfold rd. by rewrite lookup_app_r, Nat.add_sub' by lia. Qed.

Lemma rd_cons_0 x l : rd (x :: l) 0 = x.
Proof. done. Qed.

Lemma u32_mul_add v Base d : u32 (u32 v * Base + d) = u32 (v * Base + d).
Proof.
  unfold u32. rewrite Zplus_mod, Zmult_mod, Zmod_mod, <- Zmult_mod, <- Zplus_mod. done.
Qed.

Lemma parse_digits_spec Base ds : ∀ pre v,
  2 ≤ Base ≤ 16 → Forall (λ d, 0 ≤ d < Base) ds →
  parse_digits (pre ++ map unit_of_digit ds) Base (length pre) (length ds) (u32 v) =
  u32 (foldl (λ v d, v * Base + d) v ds).
Proof.
  induction ds as [|d ds IH]; intros pre v HB Hds; [done|]. simpl.
  apply Forall_cons in Hds as [Hd Hds].
  rewrite <- (Nat.add_0_r (length pre)), rd_app_r. unfold rd at 1; simpl.
  rewrite digit_of_unit by lia. destruct (Base <=? d) eqn:E; [lia|].
  rewrite u32_mul_add. rewrite <- (IH (pre ++ [unit_of_digit d])) by done.
  rewrite <- app_assoc, length_app. simpl. f_equal. lia.
Qed.

Lemma unit_of_digit_not_sign d : 0 ≤ d → unit_of_digit d ≠ 45 ∧ unit_of_digit d ≠ 43.
Proof. unfold unit_of_digit. case_if; lia. Qed.

(** Parsing the rendering of a number in a base from 2 to 16, with or
    without a leading minus, gives the number (negated) modulo 2^32. *)
Theorem RtlUnicodeStringToInteger_roundtrip (Base : Z) (ds : list Z)
    (HB : 2 ≤ Base ≤ 16) (Hds : Forall (λ d, 0 ≤ d < Base) ds) :
  RtlUnicodeStringToInteger (Some (ustr (map unit_of_digit ds))) Base =
    (STATUS_SUCCESS, Some (u32 (digits_value Base ds))) ∧
  RtlUnicodeStringToInteger (Some (ustr (45 :: map unit_of_digit ds))) Base =
    (STATUS_SUCCESS, Some (u32 (- digits_value Base ds))).
Proof.
  unfold RtlUnicodeStringToInteger, ustr; cbn [Length Buffer].
  rewrite !(Z.mul_comm 2), !Z.div_mul by lia. rewrite !Nat2Z.id. split.
  - rewrite length_map. destruct ds as [|d ds]; [done|].
    replace (length (d :: ds) =? 0)%nat with false by done.
    assert (Hd : 0 ≤ d) by (apply Forall_cons in Hds; lia).
    destruct (unit_of_digit_not_sign d Hd) as [H1 H2].
    cbn [map]. rewrite !rd_cons_0.
    replace (unit_of_digit d =? 45) with false by lia.
    replace (unit_of_digit d =? 43) with false by lia. cbn [orb].
    rewrite Nat.sub_0_r. unfold digits_value.
    by rewrite <- (parse_digits_spec Base (d :: ds) [] 0).
  - cbn [length]. replace (S (length (map unit_of_digit ds)) =? 0)%nat with false by done.
    rewrite !rd_cons_0. change (45 =? 45) with true. cbn [orb].
    rewrite Nat.sub_succ, Nat.sub_0_r, length_map.
    pose proof (parse_digits_spec Base ds [45] 0 HB Hds) as Hp.
    change (u32 0) with 0 in Hp. cbn [app length] in Hp. rewrite Hp. do 2 f_equal.
    fold (digits_value Base ds). generalize (digits_value Base ds). intros x.
    apply u32_opp_s32.
Qed.

Lemma RtlUnicodeStringToInteger_roundtrip_witness :
  RtlUnicodeStringToInteger (Some (ustr (45 :: map unit_of_digit [1; 10; 15]))) 16 =
  (STATUS_SUCCESS, Some (u32 (- digits_value 16 [1; 10; 15]))).
Proof.
  apply (RtlUnicodeStringToInteger_roundtrip 16 [1; 10; 15]); [lia|].
  repeat constructor; lia.
Defined.

(** ** Bounded copy *)

Lemma cb_copy_loop_spec src cb : ∀ i,
  ∃ k, (k ≤ RtlStringLength src)%nat ∧
    (cb_copy_loop src cb i).2 = (i + k)%nat ∧
    (cb_copy_loop src cb i).1 = zip (seq i k) (take k src) ∧
    ((0 < k)%nat → Z.of_nat (i + k) * 2 ≤ cb) ∧
    ((k < RtlStringLength src)%nat → cb < (Z.of_nat (i + k) + 1) * 2).
Proof.
  induction src as [|c src IH]; intros i; simpl.
  { exists 0%nat. simpl. split_and!; try done; lia. }
  destruct (c =? 0) eqn:Ec; simpl.
  { exists 0%nat. simpl. split_and!; try done; lia. }
  destruct ((Z.of_nat i + 1) * 2 <=? cb) eqn:Ecb.
  - destruct (IH (S i)) as (k & Hk & H2 & H1 & Hle & Hlt).
    destruct (cb_copy_loop src cb (S i)) as [w j]; simpl in *.
    exists (S k). simpl. subst. split_and!; try done; try lia.
  - exists 0%nat. simpl. split_and!; try done; try lia.
Qed.

(** For a destination of an even, non-zero size every unit RtlStringCbCopyW
    writes lies inside it, the last write is the terminator, and the status is
    success exactly when the source with its terminator fits. *)
Theorem RtlStringCbCopyW_bounds (k : Z) (src : list Z) (Hk : 1 ≤ k) :
  let '(st, writes) := RtlStringCbCopyW true (2 * k) (Some src) in
  Forall (λ w, Z.of_nat w.1 < k) writes ∧
  (∃ i w, writes = w ++ [(i, 0)]) ∧
  (st = STATUS_SUCCESS ↔ Z.of_nat (RtlStringLength src) < k).
Proof.
  unfold RtlStringCbCopyW. replace (2 * k <? 2) with false by lia.
  destruct (cb_copy_loop_spec src (2 * k) 0) as (n & Hn & H2 & H1 & Hle & Hlt).
  destruct (cb_copy_loop src (2 * k) 0) as [w i]; simpl in *. subst.
  assert (HF : Forall (λ p, Z.of_nat p.1 < k) (zip (seq 0 n) (take n src))).
  { apply Forall_forall. intros [a b] Hab%elem_of_zip_l. apply elem_of_seq in Hab. simpl. lia. }
  destruct (Z.of_nat n * 2 <? 2 * k) eqn:E.
  - split_and!; [|eauto|].
    + rewrite Forall_app, Forall_singleton. split; [done|]. simpl. lia.
    + split; [|done]. intros _. lia.
  - split_and!; [|eauto|].
    + rewrite Forall_app, Forall_singleton. split; [done|]. simpl.
      rewrite (Z.mul_comm 2), Z.div_mul by lia. lia.
    + split; [done|lia].
Qed.

Lemma RtlStringCbCopyW_bounds_witness :
  RtlStringCbCopyW true (2 * 3) (Some [65; 66; 67; 68]) = (0x80000005, [(0%nat, 65); (1%nat, 66); (2%nat, 67); (2%nat, 0)]) ∧
  (let '(st, writes) := RtlStringCbCopyW true (2 * 3) (Some [65; 66; 67; 68]) in
   Forall (λ w, Z.of_nat w.1 < 3) writes ∧
   (∃ i w, writes = w ++ [(i, 0)]) ∧
   (st = STATUS_SUCCESS ↔ Z.of_nat (RtlStringLength [65; 66; 67; 68]) < 3)).
Proof. split; [reflexivity|]. apply (RtlStringCbCopyW_bounds 3 [65; 66; 67; 68]). lia. Defined.

(** With an odd size the terminator of a short source is written one byte past
    the end: a 3-byte destination receives units 0 and 1. *)
Example RtlStringCbCopyW_odd_size :
  RtlStringCbCopyW true 3 (Some [65]) = (STATUS_SUCCESS, [(0%nat, 65); (1%nat, 0)]).
Proof. reflexivity. Qed.
