(* ===== verification/MmPfn.v ===== *)
(** * Mm: the physical page allocator (src/mm/mminit.c, src/include/nt/mm.h)

    Phase 0 of the memory manager: the multiboot2 memory map becomes the PFN
    database, pages are handed out by a rising-hint scan and given back, and
    the contiguous pool is a bump allocator at a fixed address.  Memory is the
    identity-mapped physical memory, as 64-bit words by byte address. *)

From S2P Require Import Prelude Irql.

#[local] Open Scope Z_scope.

Definition PAGE_SIZE := 4096.
Definition PAGE_SHIFT := 12.
Definition PAGE_ALIGN (Va : Z) : Z := align_down Va PAGE_SIZE.
Definition BYTES_TO_PAGES (Sz : Z) : Z := Z.shiftr (u64 (Sz + PAGE_SIZE - 1)) PAGE_SHIFT.
Definition MM_BOOT_MAPPED_LIMIT := 68719476736. (* 64ULL << 30 *)
Definition MM_MAX_MMAP_ENTRIES : nat := 64.

Inductive MM_PAGE_STATE := PfnFree | PfnActive | PfnReservedHw | PfnKernelImage.

#[global] Instance MM_PAGE_STATE_eq_dec : EqDecision MM_PAGE_STATE.
Proof. solve_decision. Defined.

Record MMPFN := mkPfn { State : MM_PAGE_STATE; Flags : Z; RefCount : Z }.

Record CONTIG_POOL := mkContig {
  MmContiguousPoolBase : Z; MmContiguousPoolUsed : Z; MmContiguousPoolLock : Z }.

Record PFN_STATE := mkPfnState {
  mm_pcr : KPCR;
  MmPfnDatabase : list MMPFN;
  MmHighestPfn : Z;
  MmTotalPages : Z;
  MmFreePages : Z;
  MmHintPfn : Z;
  MmPfnLock : Z;
  contig : CONTIG_POOL;
  qmem : Z → Z
}.

Definition set_mm_pcr (v : KPCR) (s : PFN_STATE) : PFN_STATE :=
  mkPfnState v (MmPfnDatabase s) (MmHighestPfn s) (MmTotalPages s) (MmFreePages s)
    (MmHintPfn s) (MmPfnLock s) (contig s) (qmem s).
Definition set_MmPfnLock (v : Z) (s : PFN_STATE) : PFN_STATE :=
  mkPfnState (mm_pcr s) (MmPfnDatabase s) (MmHighestPfn s) (MmTotalPages s) (MmFreePages s)
    (MmHintPfn s) v (contig s) (qmem s).
Definition set_pages (db : list MMPFN) (free hint : Z) (s : PFN_STATE) : PFN_STATE :=
  mkPfnState (mm_pcr s) db (MmHighestPfn s) (MmTotalPages s) free hint (MmPfnLock s)
    (contig s) (qmem s).
Definition set_contig (v : CONTIG_POOL) (s : PFN_STATE) : PFN_STATE :=
  mkPfnState (mm_pcr s) (MmPfnDatabase s) (MmHighestPfn s) (MmTotalPages s) (MmFreePages s)
    (MmHintPfn s) (MmPfnLock s) v (qmem s).
Definition set_qmem (v : Z → Z) (s : PFN_STATE) : PFN_STATE :=
  mkPfnState (mm_pcr s) (MmPfnDatabase s) (MmHighestPfn s) (MmTotalPages s) (MmFreePages s)
    (MmHintPfn s) (MmPfnLock s) (contig s) v.

#[global] Instance PFN_HasPcr : HasPcr PFN_STATE.
Proof. refine {| pcr := mm_pcr; set_pcr := set_mm_pcr |}; [done..|by intros []]. Defined.

Definition PfnLock : SpinLock PFN_STATE.
Proof. refine (mkSpinLock MmPfnLock set_MmPfnLock _ _ _ _ _ _); [done..|by intros []|done]. Defined.

Definition ContigLock : SpinLock PFN_STATE.
Proof.
  refine (mkSpinLock (λ s, MmContiguousPoolLock (contig s))
    (λ v s, set_contig (mkContig (MmContiguousPoolBase (contig s))
                                 (MmContiguousPoolUsed (contig s)) v) s) _ _ _ _ _ _);
    [done..|by intros [???????[]?]|done].
Defined.

(** ** Multiboot2 memory map

    [rd32 a] is the 32-bit word of physical memory at [a]. *)

Record MB2_MMAP_ENTRY := mkEntry { BaseAddr : Z; ELength : Z; EType : Z }.

Definition rd64 (rd32 : Z → Z) (a : Z) : Z := rd32 a + 4294967296 * rd32 (a + 4).

Definition MB2_TAG_TYPE_END := 0.
Definition MB2_TAG_TYPE_MMAP := 6.

(** The tag walk; 0 stands for the NULL [mmap]. *)
Fixpoint walk_tags (rd32 : Z → Z) (fuel : nat) (cursor stop mmap : Z) : Res Z :=
  match fuel with
  | O => NoFuel
  | S fuel' =>
      if cursor <? stop then
        let type := rd32 cursor in
        if type =? MB2_TAG_TYPE_END then Ok mmap
        else
          walk_tags rd32 fuel'
            (u64 (cursor + align_down (u32 (rd32 (cursor + 4) + 7)) 8)) stop
            (if type =? MB2_TAG_TYPE_MMAP then cursor else mmap)
      else Ok mmap
  end.

(** The snapshot of at most MM_MAX_MMAP_ENTRIES entries. *)
Fixpoint snapshot (rd32 : Z → Z) (left : nat) (c e EntrySize : Z) : list MB2_MMAP_ENTRY :=
  match left with
  | O => []
  | S left' =>
      if u64 (c + EntrySize) <=? e then
        mkEntry (rd64 rd32 c) (rd64 rd32 (c + 8)) (rd32 (c + 16)) ::
        snapshot rd32 left' (u64 (c + EntrySize)) e EntrySize
      else []
  end.

(** Pass 1, one entry. *)
Definition pass1 (highest : Z) (e : MB2_MMAP_ENTRY) : Z :=
  let top := u64 (BaseAddr e + ELength e) in
  if negb (EType e =? 1) then highest
  else
    let top := if MM_BOOT_MAPPED_LIMIT <? top then MM_BOOT_MAPPED_LIMIT else top in
    if highest <? Z.shiftr top PAGE_SHIFT then Z.shiftr top PAGE_SHIFT else highest.

(** [for (pfn = lo; pfn < hi; pfn++) db[pfn] = f(db[pfn])]. *)
Definition upd_range (lo hi : Z) (f : MMPFN → MMPFN) (db : list MMPFN) : list MMPFN :=
  imap (λ i p, if (lo <=? Z.of_nat i) && (Z.of_nat i <? hi) then f p else p) db.

Definition set_State (st : MM_PAGE_STATE) (p : MMPFN) : MMPFN := mkPfn st (Flags p) (RefCount p).

Definition is_free (p : MMPFN) : bool := bool_decide (State p = PfnFree).

(** The recount of free pages, over a slice of the database. *)
Definition count_free (db : list MMPFN) : Z :=
  Z.of_nat (length (filter (λ p, State p = PfnFree) db)).

Definition slice (lo hi : Z) (db : list MMPFN) : list MMPFN :=
  take (Z.to_nat (hi - lo)) (drop (Z.to_nat lo) db).

(** Pass 2, one entry: the database and MmTotalPages. *)
Definition pass2 (highest : Z) (acc : list MMPFN * Z) (e : MB2_MMAP_ENTRY) : list MMPFN * Z :=
  let '(db, total) := acc in
  if negb (EType e =? 1) then acc
  else
    let first := Z.shiftr (u64 (BaseAddr e + PAGE_SIZE - 1)) PAGE_SHIFT in
    let last := Z.shiftr (u64 (BaseAddr e + ELength e)) PAGE_SHIFT in
    let last := Z.min last highest in
    (upd_range first last (set_State PfnFree) db, u64 (total + Z.max 0 (last - first))).

Definition MmInitContiguousPool (s : PFN_STATE) : PFN_STATE :=
  set_contig (mkContig 0x10000000 0 0) s.

(** [junk] is what the memory under the database held in the Flags bytes;
    [kernel_start] and [kernel_end] are the linker symbols. *)
Definition MmInitSystem (rd32 : Z → Z) (junk : nat → Z) (kernel_start kernel_end : Z)
    (fuel : nat) (info : Z) : M PFN_STATE Z := λ s,
  let TotalSize := rd32 info in
  let s := set_MmPfnLock 0 s in
  match walk_tags rd32 fuel (u64 (info + 8)) (u64 (info + TotalSize)) 0 with
  | Ok mmap =>
      if mmap =? 0 then Ok (STATUS_UNSUCCESSFUL, s)
      else
        let mapCopy := snapshot rd32 MM_MAX_MMAP_ENTRIES (u64 (mmap + 16))
                         (u64 (mmap + rd32 (mmap + 4))) (rd32 (mmap + 8)) in
        let highest := foldl pass1 (MmHighestPfn s) mapCopy in
        if highest =? 0 then
          Ok (STATUS_UNSUCCESSFUL, s)
        else
          let reserveEnd :=
            if kernel_end <? u64 (info + TotalSize) then u64 (info + TotalSize) else kernel_end in
          let dbBytes := u64 (highest * 4) in
          let dbStart := align_up64 reserveEnd PAGE_SIZE in
          let dbEnd := u64 (dbStart + dbBytes) in
          let db := (λ i, mkPfn PfnReservedHw (junk i) 0) <$> seq 0 (Z.to_nat highest) in
          let '(db, total) := foldl (pass2 highest) (db, MmTotalPages s) mapCopy in
          let db := alter (set_State PfnReservedHw) 0%nat db in
          let lo := Z.shiftr kernel_start PAGE_SHIFT in
          let hi := Z.min (Z.shiftr (u64 (dbEnd - 1)) PAGE_SHIFT + 1) highest in
          let total := u64 (total - count_free (slice lo hi db)) in
          let db := upd_range lo hi (set_State PfnKernelImage) db in
          Ok (STATUS_SUCCESS,
              MmInitContiguousPool
                (mkPfnState (mm_pcr s) db highest total (count_free db) 0x100
                   (MmPfnLock s) (contig s) (qmem s)))
  | BugCheck c p1 p2 p3 p4 => BugCheck c p1 p2 p3 p4
  | Spin => Spin
  | NoFuel => NoFuel
  | Undef => Undef
  end.

(** ** Allocation *)

Definition zero_page (pa : Z) (m : Z → Z) : Z → Z :=
  λ a, if (pa <=? a) && (a <? pa + PAGE_SIZE) then 0 else m a.

(** The scan [for (pfn = MmHintPfn; pfn < MmHighestPfn; pfn++)]. *)
Definition scan_free (s : PFN_STATE) : option Z :=
  (λ k, MmHintPfn s + Z.of_nat k) <$>
  first_idx is_free
    (drop (Z.to_nat (MmHintPfn s)) (take (Z.to_nat (MmHighestPfn s)) (MmPfnDatabase s))).

Definition take_page (pfn : Z) (s : PFN_STATE) : PFN_STATE :=
  set_pages
    (alter (λ p, mkPfn PfnActive (Flags p) 1) (Z.to_nat pfn) (MmPfnDatabase s))
    (u64 (MmFreePages s - 1)) (pfn + 1) s.

Definition MmAllocatePhysicalPage : M PFN_STATE Z :=
  irql ← KeAcquireSpinLock PfnLock;
  found ← mgets scan_free;
  pa ← match found with
       | Some pfn => mmod (take_page pfn);; mret (u64 (Z.shiftl pfn PAGE_SHIFT))
       | None => mret 0
       end;
  KeReleaseSpinLock PfnLock irql;;
  mwhen (truthy pa) (mmod (λ s, set_qmem (zero_page pa (qmem s)) s));;
  mret pa.

Definition give_page (pfn : Z) (s : PFN_STATE) : PFN_STATE :=
  set_pages
    (alter (λ p, mkPfn PfnFree (Flags p) 0) (Z.to_nat pfn) (MmPfnDatabase s))
    (u64 (MmFreePages s + 1))
    (if pfn <? MmHintPfn s then pfn else MmHintPfn s) s.

Definition page_state (pfn : Z) (s : PFN_STATE) : option MM_PAGE_STATE :=
  State <$> MmPfnDatabase s !! Z.to_nat pfn.

Definition MmFreePhysicalPage (Pa : Z) : M PFN_STATE unit :=
  let pfn := Z.shiftr Pa PAGE_SHIFT in
  highest ← mgets MmHighestPfn;
  ASSERT (pfn <? highest) 181;;
  irql ← KeAcquireSpinLock PfnLock;
  st ← mgets (page_state pfn);
  ASSERT (bool_decide (st = Some PfnActive)) 183;;
  mmod (give_page pfn);;
  KeReleaseSpinLock PfnLock irql.

Definition MmGetTotalPages (s : PFN_STATE) : Z := MmTotalPages s.
Definition MmGetFreePages (s : PFN_STATE) : Z := MmFreePages s.

(** ** Contiguous pool *)

Definition MM_CONTIG_POOL_SIZE := 8388608.
Definition MM_CONTIG_ALIGNMENT := 64.

Definition MmAllocateContiguousMemory (NumberOfBytes HighestAcceptableAddress : Z) : M PFN_STATE Z :=
  let AlignedSize := align_up64 NumberOfBytes MM_CONTIG_ALIGNMENT in
  let AlignedSize := if PAGE_SIZE <? AlignedSize then align_up64 AlignedSize PAGE_SIZE
                     else AlignedSize in
  OldIrql ← KeAcquireSpinLock ContigLock;
  c ← mgets contig;
  if MM_CONTIG_POOL_SIZE <? u64 (MmContiguousPoolUsed c + AlignedSize) then
    KeReleaseSpinLock ContigLock OldIrql;; mret 0
  else
    let Result := u64 (MmContiguousPoolBase c + MmContiguousPoolUsed c) in
    mmod (λ s, set_contig (mkContig (MmContiguousPoolBase c)
                 (u32 (MmContiguousPoolUsed c + u32 AlignedSize))
                 (MmContiguousPoolLock (contig s))) s);;
    KeReleaseSpinLock ContigLock OldIrql;;
    mmod (λ s, set_qmem (λ a, if (Result <=? a) && (a <? Result + AlignedSize) then 0
                              else qmem s a) s);;
    mret Result.

(** A bump allocator cannot free: the call only prints. *)
Definition MmFreeContiguousMemory (BaseAddress : Z) : M PFN_STATE unit := mret tt.

Definition MmGetPhysicalAddress (BaseAddress : Z) : Z := BaseAddress.

Definition MmGetKernelImageSize (kernel_start kernel_end : Z) : Z :=
  u32 (kernel_end - kernel_start).

Definition MmInitSystemWrap (rd32 : Z → Z) (junk : nat → Z) (kernel_start kernel_end : Z)
    (fuel : nat) (KiMultibootInfo : Z) : M PFN_STATE Z :=
  MmInitSystem rd32 junk kernel_start kernel_end fuel KiMultibootInfo.

(** ** Invariant *)

(** Pages below 1MB are never handed out, the hint is never above a free page,
    and the counter of free pages is exact. *)
Record pfn_wf (s : PFN_STATE) : Prop := {
  wf_len : Z.of_nat (length (MmPfnDatabase s)) = MmHighestPfn s;
  wf_high : 0 ≤ MmHighestPfn s ≤ 16777216;
  wf_free : MmFreePages s = count_free (MmPfnDatabase s);
  wf_hint : 0x100 ≤ MmHintPfn s;
  wf_hint_ok : ∀ i p, MmPfnDatabase s !! i = Some p → State p = PfnFree →
                 0x100 ≤ Z.of_nat i → MmHintPfn s ≤ Z.of_nat i;
  wf_low : ∀ i p, MmPfnDatabase s !! i = Some p → State p = PfnActive → 0x100 ≤ Z.of_nat i;
  wf_lock : MmPfnLock s = 0
}.

Lemma count_free_bounds db : 0 ≤ count_free db ≤ Z.of_nat (length db).
Proof.
  unfold count_free. split; [lia|]. apply inj_le. apply length_filter.
Qed.

Lemma count_free_alter db i f p :
  db !! i = Some p →
  count_free (alter f i db) =
  count_free db - (if is_free p then 1 else 0) + (if is_free (f p) then 1 else 0).
Proof.
  intros Hp. rewrite <- (take_drop_middle db i p Hp) at 2.
  replace (alter f i db) with (take i db ++ f p :: drop (S i) db).
  { unfold count_free, is_free. rewrite !filter_app, !length_app.
    rewrite !filter_cons. repeat case_bool_decide; repeat case_decide; try done; simpl; lia. }
  rewrite <- (take_drop_middle db i p Hp) at 3. symmetry.
  pose proof (lookup_lt_Some _ _ _ Hp) as Hlt.
  replace i with (length (take i db) + 0)%nat at 1 by (rewrite length_take; lia).
  rewrite alter_app_r. done.
Qed.

Lemma scan_free_Some s pfn :
  scan_free s = Some pfn → 0 ≤ MmHintPfn s →
  Z.of_nat (length (MmPfnDatabase s)) = MmHighestPfn s →
  MmHintPfn s ≤ pfn < MmHighestPfn s ∧
  (∃ p, MmPfnDatabase s !! Z.to_nat pfn = Some p ∧ State p = PfnFree) ∧
  ∀ i p, MmHintPfn s ≤ Z.of_nat i < pfn → MmPfnDatabase s !! i = Some p → State p ≠ PfnFree.
Proof.
  unfold scan_free. intros (k & Hk & ->)%fmap_Some Hh Hlen.
  apply first_idx_Some in Hk as [(p & Hp & Hf) Hlt].
  rewrite lookup_drop, take_ge in Hp by lia.
  replace (Z.to_nat (MmHintPfn s + Z.of_nat k)) with (Z.to_nat (MmHintPfn s) + k)%nat by lia.
  pose proof (lookup_lt_Some _ _ _ Hp). unfold is_free in Hf. apply bool_decide_eq_true in Hf.
  split_and!; [lia|lia|eauto|]. intros i q Hi Hq Hst.
  assert (is_free q = false) as Hb; [|unfold is_free in Hb; by rewrite bool_decide_eq_true_2 in Hb].
  apply (Hlt (i - Z.to_nat (MmHintPfn s))%nat); [lia|].
  rewrite lookup_drop, take_ge by lia. rewrite <- Hq. f_equal. lia.
Qed.

Lemma scan_free_None s i p :
  scan_free s = None → 0 ≤ MmHintPfn s →
  Z.of_nat (length (MmPfnDatabase s)) = MmHighestPfn s →
  MmHintPfn s ≤ Z.of_nat i → MmPfnDatabase s !! i = Some p → State p ≠ PfnFree.
Proof.
  unfold scan_free. intros Hn%fmap_None Hh Hlen Hi Hp Hst.
  rewrite first_idx_None in Hn. specialize (Hn (i - Z.to_nat (MmHintPfn s))%nat p).
  rewrite lookup_drop, take_ge in Hn by lia.
  replace (Z.to_nat (MmHintPfn s) + (i - Z.to_nat (MmHintPfn s)))%nat with i in Hn by lia.
  specialize (Hn Hp). unfold is_free in Hn. by rewrite bool_decide_eq_true_2 in Hn.
Qed.

Lemma pfn_wf_set_pcr k s : pfn_wf s → pfn_wf (set_mm_pcr k s).
Proof. by destruct s; intros []; constructor. Qed.

Lemma pfn_wf_set_qmem m s : pfn_wf s → pfn_wf (set_qmem m s).
Proof. by destruct s; intros []; constructor. Qed.

Lemma shiftl_page pfn : Z.shiftl pfn PAGE_SHIFT = pfn * 4096.
Proof. unfold PAGE_SHIFT. rewrite Z.shiftl_mul_pow2 by lia. done. Qed.

Lemma shiftr_page pa : Z.shiftr pa PAGE_SHIFT = pa / 4096.
Proof. unfold PAGE_SHIFT. rewrite Z.shiftr_div_pow2 by lia. done. Qed.

Lemma take_page_wf s pfn :
  pfn_wf s → scan_free s = Some pfn → pfn_wf (take_page pfn s).
Proof.
  intros [Hlen Hh Hf Hhint Hok Hlow Hlk] Hs.
  destruct (scan_free_Some s pfn Hs) as ([Hge Hlt] & (p & Hp & Hst) & Hmin); [lia|done|].
  constructor; simpl; try done.
  - by rewrite length_alter.
  - rewrite (count_free_alter _ _ _ p Hp). unfold is_free. rewrite Hst. simpl.
    pose proof (count_free_bounds (MmPfnDatabase s)) as Hb.
    assert (1 ≤ count_free (MmPfnDatabase s)).
    { unfold count_free. assert (p ∈ filter (λ p, State p = PfnFree) (MmPfnDatabase s)) as Hin.
      { apply list_elem_of_filter. split; [done|]. eapply list_elem_of_lookup_2; eauto. }
      destruct (filter _ _); [by apply not_elem_of_nil in Hin|simpl; lia]. }
    rewrite Hf, u64_small; lia.
  - lia.
  - intros i q Hq Hqs Hi. destruct (decide (i = Z.to_nat pfn)) as [->|Hne].
    + rewrite list_lookup_alter_eq, Hp in Hq. by simplify_eq/=.
    + rewrite list_lookup_alter_ne in Hq by done.
      pose proof (Hok i q Hq Hqs Hi). destruct (decide (pfn < Z.of_nat i)); [lia|].
      exfalso. apply (Hmin i q); [lia|done|done].
  - intros i q Hq Hqs. destruct (decide (i = Z.to_nat pfn)) as [->|Hne]; [lia|].
    rewrite list_lookup_alter_ne in Hq by done. eauto.
Qed.

(** What one allocation does: the page taken is the lowest free page at or
    above 1MB. *)
Definition lowest_free (s : PFN_STATE) (pfn : Z) : Prop :=
  0x100 ≤ pfn ∧ page_state pfn s = Some PfnFree ∧
  ∀ i p, MmPfnDatabase s !! i = Some p → State p = PfnFree → 0x100 ≤ Z.of_nat i → pfn ≤ Z.of_nat i.

Lemma alloc_page_run s :
  pfn_wf s → can_lock (mm_pcr s) →
  MmAllocatePhysicalPage s =
  match scan_free s with
  | Some pfn => Ok (pfn * 4096,
      set_qmem (zero_page (pfn * 4096) (qmem s)) (take_page pfn s))
  | None => Ok (0, s)
  end.
Proof.
  intros Hwf [[Hif Hr] Hle]. unfold MmAllocatePhysicalPage.
  erewrite bind_ok; [|apply acquire_ok; [done|apply Hwf]].
  unfold mbind at 1, M_bind at 1; simpl. change (scan_free _) with (scan_free s) at 1.
  destruct (scan_free s) as [pfn|] eqn:Hs.
  - destruct (scan_free_Some s pfn Hs) as ([Hge Hlt] & _ & _);
      [destruct Hwf; lia|apply Hwf|].
    destruct Hwf as [Hlen Hh Hf Hhint Hok Hlow Hlk].
    erewrite bind_ok; [|reflexivity].
    erewrite bind_ok; [|apply release_ok; done]. simpl.
    rewrite shiftl_page, u64_small by lia.
    unfold mbind, M_bind, mwhen, truthy. replace (pfn * 4096 =? 0) with false by lia. simpl.
    unfold mret, M_ret. do 2 f_equal.
    destruct s as [[q f]]; simpl in *; unfold take_page, set_pages, set_qmem, set_mm_pcr; simpl.
    subst. do 2 f_equal. by case_if.
  - erewrite bind_ok; [|reflexivity].
    erewrite bind_ok; [|apply release_ok; done]. simpl.
    unfold mbind, M_bind, mwhen, truthy; simpl. unfold mret, M_ret. do 2 f_equal.
    destruct Hwf. destruct s as [[q f]]; simpl in *; unfold set_mm_pcr, set_MmPfnLock; simpl.
    subst. do 2 f_equal. by case_if.
Qed.

Lemma give_page_wf s pfn :
  pfn_wf s → 0 ≤ pfn → page_state pfn s = Some PfnActive → pfn_wf (give_page pfn s).
Proof.
  intros [Hlen Hh Hf Hhint Hok Hlow Hlk] H0 (p & Hp & Hst)%fmap_Some.
  pose proof (Hlow _ _ Hp (eq_sym Hst)) as Hl.
  pose proof (lookup_lt_Some _ _ _ Hp) as Hlt.
  constructor; simpl; try done.
  - by rewrite length_alter.
  - rewrite (count_free_alter _ _ _ p Hp). unfold is_free. rewrite <- Hst. simpl.
    pose proof (count_free_bounds (MmPfnDatabase s)) as Hb.
    rewrite Hf, u64_small; lia.
  - case_if; lia.
  - intros i q Hq Hqs Hi. destruct (decide (i = Z.to_nat pfn)) as [->|Hne].
    + case_if; lia.
    + rewrite list_lookup_alter_ne in Hq by done. pose proof (Hok i q Hq Hqs Hi). case_if; lia.
  - intros i q Hq Hqs. destruct (decide (i = Z.to_nat pfn)) as [->|Hne].
    + rewrite list_lookup_alter_eq, Hp in Hq. by simplify_eq/=.
    + rewrite list_lookup_alter_ne in Hq by done. eauto.
Qed.

Lemma free_page_run s Pa :
  pfn_wf s → can_lock (mm_pcr s) → 0 ≤ Pa →
  page_state (Pa / 4096) s = Some PfnActive →
  MmFreePhysicalPage Pa s = Ok (tt, give_page (Pa / 4096) s).
Proof.
  intros Hwf [[Hif Hr] Hle] H0 Hst. unfold MmFreePhysicalPage. rewrite shiftr_page.
  set (pfn := Pa / 4096) in *. assert (Hp0 : 0 ≤ pfn) by (subst pfn; Z.div_mod_to_equations; lia).
  pose proof Hst as (p & Hp & _)%fmap_Some. pose proof (lookup_lt_Some _ _ _ Hp) as Hlt.
  destruct Hwf as [Hlen Hh Hf Hhint Hok Hlow Hlk].
  unfold mbind at 1, M_bind at 1; simpl.
  replace (pfn <? MmHighestPfn s) with true by lia.
  erewrite bind_ok; [|reflexivity].
  erewrite bind_ok; [|apply acquire_ok; done].
  unfold mbind at 1, M_bind at 1; simpl. change (page_state pfn _) with (page_state pfn s).
  rewrite Hst, bool_decide_eq_true_2 by done.
  erewrite bind_ok; [|reflexivity]. erewrite bind_ok; [|reflexivity].
  rewrite release_ok by done. do 2 f_equal.
  destruct s as [[q f]]; simpl in *; unfold give_page, set_pages, set_mm_pcr; simpl.
  subst. do 2 f_equal. by case_if.
Qed.

Lemma page_state_take pfn s q :
  0 ≤ pfn → 0 ≤ q → page_state pfn s ≠ None →
  page_state q (take_page pfn s) = if q =? pfn then Some PfnActive else page_state q s.
Proof.
  intros H0 Hq Hn. unfold page_state, take_page; simpl.
  destruct (q =? pfn) eqn:E.
  - apply Z.eqb_eq in E as ->. rewrite list_lookup_alter_eq. unfold page_state in Hn.
    by destruct (MmPfnDatabase s !! Z.to_nat pfn).
  - by rewrite list_lookup_alter_ne by lia.
Qed.

(** A physical page allocation at or below DISPATCH_LEVEL always returns.
    It returns the lowest free page at or above 1MB, marks it active, zeroes
    it, and leaves every other page as it was; it returns 0 exactly when there
    is no such page, and then changes nothing.  The allocator invariant (exact
    free count, hint below every free page, low memory untouched, lock free)
    and the processor state are preserved. *)
Theorem MmAllocatePhysicalPage_spec (s : PFN_STATE)
    (Hwf : pfn_wf s) (Hc : can_lock (mm_pcr s)) :
  ∃ pa s', MmAllocatePhysicalPage s = Ok (pa, s') ∧ pfn_wf s' ∧ mm_pcr s' = mm_pcr s ∧
    ((pa = 0 ∧ s' = s ∧ ¬ ∃ pfn, lowest_free s pfn) ∨
     ∃ pfn, pa = pfn * 4096 ∧ lowest_free s pfn ∧
       MmFreePages s' = MmFreePages s - 1 ∧
       (∀ a, pa ≤ a < pa + PAGE_SIZE → qmem s' a = 0) ∧
       (∀ q, 0 ≤ q → page_state q s' = if q =? pfn then Some PfnActive else page_state q s)).
Proof.
  rewrite alloc_page_run by done. pose proof Hwf as [Hlen Hh Hf Hhint Hok Hlow Hlk].
  destruct (scan_free s) as [pfn|] eqn:Hs.
  - destruct (scan_free_Some s pfn Hs) as ([Hge Hlt] & (p & Hp & Hst) & Hmin); [lia|done|].
    assert (Hps : page_state pfn s = Some PfnFree) by (unfold page_state; rewrite Hp; simpl; by f_equal).
    pose proof (take_page_wf s pfn Hwf Hs) as Hwf'.
    eexists _, _. split; [done|]. split; [by apply pfn_wf_set_qmem|]. split; [done|].
    right. exists pfn. split_and!; [done| | | |].
    + split_and!; [lia|done|]. intros i q Hq Hqs Hi. pose proof (Hok i q Hq Hqs Hi).
      destruct (decide (pfn ≤ Z.of_nat i)); [done|]. exfalso. apply (Hmin i q); [lia|done|done].
    + rewrite (wf_free _ Hwf). pose proof (wf_free _ Hwf') as Hf'. simpl in *.
      rewrite Hf'. rewrite (count_free_alter _ _ _ p Hp). unfold is_free. rewrite Hst. simpl. lia.
    + intros a Ha. simpl. unfold zero_page, PAGE_SIZE in *.
      by replace ((pfn * 4096 <=? a) && (a <? pfn * 4096 + 4096)) with true by lia.
    + intros q Hq. apply page_state_take; [lia|done|]. by rewrite Hps.
  - eexists 0, s. split_and!; try done. left. split_and!; try done.
    intros (pfn & Hge & (p & Hp & Hst)%fmap_Some & _).
    apply (scan_free_None s (Z.to_nat pfn) p Hs); try done; try lia.
    pose proof (Hok (Z.to_nat pfn) p Hp). rewrite <- Hst in *. lia.
Qed.

Lemma scan_free_hint s p :
  pfn_wf s → MmHintPfn s < MmHighestPfn s →
  MmPfnDatabase s !! Z.to_nat (MmHintPfn s) = Some p → State p = PfnFree →
  scan_free s = Some (MmHintPfn s).
Proof.
  intros [Hlen Hh Hf Hhint Hok Hlow Hlk] Hlt Hp Hst.
  destruct (scan_free s) as [q|] eqn:Hs.
  - destruct (scan_free_Some s q Hs) as ([Hge Hlt'] & _ & Hmin); [lia|done|]. f_equal.
    destruct (decide (q = MmHintPfn s)); [done|]. exfalso.
    apply (Hmin (Z.to_nat (MmHintPfn s)) p); [lia|done|done].
  - exfalso. apply (scan_free_None s (Z.to_nat (MmHintPfn s)) p Hs); try done; lia.
Qed.

(** A page that was taken and is given back leaves the database it came from,
    but for the reference count of that page, and the hint on that page. *)
Lemma give_take_page pfn s m :
  pfn_wf s → scan_free s = Some pfn →
  give_page pfn (set_qmem m (take_page pfn s)) =
  set_qmem m (set_pages (alter (λ p, mkPfn PfnFree (Flags p) 0) (Z.to_nat pfn) (MmPfnDatabase s))
                (MmFreePages s) pfn s).
Proof.
  intros Hwf Hs. unfold give_page, take_page, set_qmem; simpl. rewrite list_alter_alter_eq.
  unfold set_pages; simpl. f_equal.
  - rewrite (wf_free _ Hwf). pose proof (count_free_bounds (MmPfnDatabase s)).
    pose proof (wf_len _ Hwf). pose proof (wf_high _ Hwf).
    unfold u64. Z.div_mod_to_equations. lia.
  - by replace (pfn <? pfn + 1) with true by lia.
Qed.

Lemma free_alloc_run s pa s1 :
  pfn_wf s → can_lock (mm_pcr s) → MmAllocatePhysicalPage s = Ok (pa, s1) → pa ≠ 0 →
  ∃ s2 s3, MmFreePhysicalPage pa s1 = Ok (tt, s2) ∧
    MmFreePages s2 = MmFreePages s ∧
    (∀ q, 0 ≤ q → page_state q s2 = page_state q s) ∧
    MmAllocatePhysicalPage s2 = Ok (pa, s3).
Proof.
  intros Hwf Hc Ha Hne. rewrite alloc_page_run in Ha by done.
  destruct (scan_free s) as [pfn|] eqn:Hs; [|by simplify_eq].
  injection Ha as <- <-. set (m := zero_page _ _).
  destruct (scan_free_Some s pfn Hs) as ([Hge Hlt] & (p & Hp & Hst) & _);
    [destruct Hwf; lia|apply Hwf|].
  assert (H0 : 0 ≤ pfn) by (destruct Hwf; lia).
  assert (Hwf1 : pfn_wf (set_qmem m (take_page pfn s)))
    by (apply pfn_wf_set_qmem; by apply take_page_wf).
  assert (Hact : page_state pfn (set_qmem m (take_page pfn s)) = Some PfnActive).
  { unfold page_state; simpl. by rewrite list_lookup_alter_eq, Hp. }
  assert (Hd : pfn * 4096 / 4096 = pfn) by (apply Z.div_mul; lia).
  eexists _, _. split; [apply free_page_run; rewrite ?Hd; [done..|lia|done]|]. rewrite Hd.
  pose proof (give_page_wf _ _ Hwf1 H0 Hact) as Hwf2.
  rewrite give_take_page in * by done. split_and!; [done| |].
  - intros q Hq. unfold page_state; simpl.
    destruct (decide (q = pfn)) as [->|Hn]; [|by rewrite list_lookup_alter_ne by lia].
    rewrite list_lookup_alter_eq, Hp. simpl. by rewrite Hst.
  - rewrite alloc_page_run; [|done|done].
    rewrite (scan_free_hint _ (mkPfn PfnFree (Flags p) 0)); [done|done|done| |done].
    simpl. by rewrite list_lookup_alter_eq, Hp.
Qed.

(** Freeing: a page that is active is returned to the free set, counted,
    and found again; anything else (an address beyond the database, a page
    that is already free, reserved, or part of the kernel image) stops the
    machine in the ASSERT that caught it.  Allocating a page and freeing it
    restores the state of every page and the free count, and the next
    allocation returns the same page. *)
Theorem MmFreePhysicalPage_spec (s : PFN_STATE)
    (Hwf : pfn_wf s) (Hc : can_lock (mm_pcr s)) :
  (∀ Pa, 0 ≤ Pa →
     (MmHighestPfn s ≤ Pa / 4096 →
        MmFreePhysicalPage Pa s = BugCheck MANUALLY_INITIATED_CRASH 0 181 0 0) ∧
     (Pa / 4096 < MmHighestPfn s → page_state (Pa / 4096) s ≠ Some PfnActive →
        MmFreePhysicalPage Pa s = BugCheck MANUALLY_INITIATED_CRASH 0 183 0 0) ∧
     (page_state (Pa / 4096) s = Some PfnActive →
        ∃ s', MmFreePhysicalPage Pa s = Ok (tt, s') ∧ pfn_wf s' ∧
              page_state (Pa / 4096) s' = Some PfnFree ∧ MmFreePages s' = MmFreePages s + 1)) ∧
  (∀ pa s1, MmAllocatePhysicalPage s = Ok (pa, s1) → pa ≠ 0 →
     ∃ s2 s3, MmFreePhysicalPage pa s1 = Ok (tt, s2) ∧
       MmFreePages s2 = MmFreePages s ∧
       (∀ q, 0 ≤ q → page_state q s2 = page_state q s) ∧
       MmAllocatePhysicalPage s2 = Ok (pa, s3)).
Proof.
  split.
  - intros Pa H0. pose proof Hwf as [Hlen Hh Hf Hhint Hok Hlow Hlk].
    destruct Hc as [[Hif Hr] Hle]. split_and!.
    + intros Hge. unfold MmFreePhysicalPage. rewrite shiftr_page.
      unfold mbind, M_bind; simpl. by replace (Pa / 4096 <? MmHighestPfn s) with false by lia.
    + intros Hlt Hst. unfold MmFreePhysicalPage. rewrite shiftr_page.
      unfold mbind at 1, M_bind at 1; simpl.
      replace (Pa / 4096 <? MmHighestPfn s) with true by lia.
      erewrite bind_ok; [|reflexivity]. erewrite bind_ok; [|by apply acquire_ok].
      unfold mbind at 1, M_bind at 1; simpl.
      change (page_state (Pa / 4096) _) with (page_state (Pa / 4096) s).
      by rewrite bool_decide_eq_false_2.
    + intros Hst. eexists. split; [apply free_page_run; done|].
      assert (0 ≤ Pa / 4096) by (Z.div_mod_to_equations; lia).
      pose proof (give_page_wf s (Pa / 4096) Hwf ltac:(done) Hst) as Hwf'.
      pose proof Hst as (p & Hp & Hst')%fmap_Some.
      split_and!; [done| |].
      * unfold page_state, give_page; simpl. by rewrite list_lookup_alter_eq, Hp.
      * rewrite (wf_free _ Hwf). pose proof (wf_free _ Hwf') as Hf'. simpl in *. rewrite Hf'.
        rewrite (count_free_alter _ _ _ p Hp). unfold is_free. rewrite <- Hst'. simpl. lia.
  - intros pa s1. by apply free_alloc_run.
Qed.

Record contig_wf (s : PFN_STATE) : Prop := {
  cw_base : MmContiguousPoolBase (contig s) = 0x10000000;
  cw_used : 0 ≤ MmContiguousPoolUsed (contig s) ≤ MM_CONTIG_POOL_SIZE;
  cw_align : MmContiguousPoolUsed (contig s) mod MM_CONTIG_ALIGNMENT = 0;
  cw_lock : MmContiguousPoolLock (contig s) = 0
}.

(** ** Building the database *)

(** A well-formed run of multiboot2 tags from [cursor]: (address, type) of each
    tag, ended by an END tag or by the end of the block. *)
Inductive mb2_tags (rd32 : Z → Z) (stop : Z) : Z → list (Z * Z) → Prop :=
| mb2_stop cursor : stop ≤ cursor → mb2_tags rd32 stop cursor []
| mb2_end cursor : cursor < stop → rd32 cursor = MB2_TAG_TYPE_END → mb2_tags rd32 stop cursor []
| mb2_cons cursor l :
    cursor < stop → rd32 cursor ≠ MB2_TAG_TYPE_END →
    mb2_tags rd32 stop (u64 (cursor + align_down (u32 (rd32 (cursor + 4) + 7)) 8)) l →
    mb2_tags rd32 stop cursor ((cursor, rd32 cursor) :: l).

(** The last memory-map tag of a run, 0 when there is none. *)
Definition last_mmap (l : list (Z * Z)) (mmap : Z) : Z :=
  foldl (λ m '(a, ty), if ty =? MB2_TAG_TYPE_MMAP then a else m) mmap l.

Lemma walk_tags_run rd32 stop cursor l :
  mb2_tags rd32 stop cursor l → ∀ fuel mmap, (length l < fuel)%nat →
  walk_tags rd32 fuel cursor stop mmap = Ok (last_mmap l mmap).
Proof.
  induction 1 as [c Hc|c Hc Ht|c l Hc Ht Hl IH]; intros [|fuel] mmap Hf; simpl in *; try lia.
  - by replace (c <? stop) with false by lia.
  - replace (c <? stop) with true by lia. by rewrite Ht.
  - replace (c <? stop) with true by lia.
    replace (rd32 c =? MB2_TAG_TYPE_END) with false by lia. apply IH. lia.
Qed.

Lemma pass1_bounds h e : h ≤ pass1 h e ≤ Z.max h 16777216.
Proof.
  unfold pass1, MM_BOOT_MAPPED_LIMIT. repeat case_if; rewrite ?shiftr_page in *;
    Z.div_mod_to_equations; lia.
Qed.

Lemma foldl_pass1_bounds es : ∀ h, h ≤ foldl pass1 h es ≤ Z.max h 16777216.
Proof.
  induction es as [|e es IH]; intros h; simpl; [lia|].
  pose proof (pass1_bounds h e). specialize (IH (pass1 h e)). lia.
Qed.

Lemma upd_range_length lo hi f db : length (upd_range lo hi f db) = length db.
Proof. unfold upd_range. apply length_imap. Qed.

Lemma upd_range_lookup lo hi f db i :
  upd_range lo hi f db !! i =
  (λ p, if (lo <=? Z.of_nat i) && (Z.of_nat i <? hi) then f p else p) <$> db !! i.
Proof. unfold upd_range. by rewrite list_lookup_imap. Qed.

(** The pages an available entry offers. *)
Definition entry_offers (e : MB2_MMAP_ENTRY) (pfn : Z) : Prop :=
  EType e = 1 ∧ Z.shiftr (u64 (BaseAddr e + PAGE_SIZE - 1)) PAGE_SHIFT ≤ pfn <
                Z.shiftr (u64 (BaseAddr e + ELength e)) PAGE_SHIFT.

Definition offered (es : list MB2_MMAP_ENTRY) (pfn : Z) : Prop :=
  ∃ e, e ∈ es ∧ entry_offers e pfn.

(** Pass 2 keeps the length and frees exactly the pages some available entry
    offers. *)
Lemma foldl_pass2 highest es : ∀ db total db' total',
  foldl (pass2 highest) (db, total) es = (db', total') → Z.of_nat (length db) ≤ highest →
  length db' = length db ∧
  ∀ i p p', db !! i = Some p → db' !! i = Some p' →
    (State p' = State p ∧ ¬ offered es (Z.of_nat i)) ∨
    (State p' = PfnFree ∧ offered es (Z.of_nat i)).
Proof.
  induction es as [|e es IH]; intros db total db' total'; cbn [foldl].
  { intros [= <- <-] _. split; [done|]. intros i p p' Hp Hp'. left. simplify_eq.
    split; [done|]. intros (e & He & _). by apply not_elem_of_nil in He. }
  assert (Hoff : ∀ i, offered (e :: es) i ↔ entry_offers e i ∨ offered es i).
  { intros i. unfold offered. setoid_rewrite elem_of_cons. naive_solver. }
  unfold pass2 at 2. destruct (negb (EType e =? 1)) eqn:Ht; intros Hf Hh;
    apply IH in Hf as [Hlen Hst]; try done.
  - split; [done|]. intros i p p' Hp Hp'. specialize (Hst i p p' Hp Hp'). rewrite Hoff.
    assert (¬ entry_offers e (Z.of_nat i)) by (unfold entry_offers; lia). naive_solver.
  - rewrite upd_range_length in Hlen. split; [done|]. intros i p p' Hp Hp'.
    assert (Hlt := lookup_lt_Some _ _ _ Hp). bool_hyps.
    specialize (Hst i _ p' ltac:(rewrite upd_range_lookup, Hp; reflexivity) Hp').
    rewrite Hoff. revert Hst. case_if; simpl.
    + assert (entry_offers e (Z.of_nat i)) by (unfold entry_offers; bool_hyps; lia). naive_solver.
    + assert (¬ entry_offers e (Z.of_nat i)) by (unfold entry_offers; lia). naive_solver.
  - by rewrite upd_range_length.
Qed.

(** Where MmInitSystem puts the PFN database. *)
Definition db_end (info TotalSize kernel_end highest : Z) : Z :=
  let reserveEnd := if kernel_end <? u64 (info + TotalSize) then u64 (info + TotalSize)
                    else kernel_end in
  u64 (align_up64 reserveEnd PAGE_SIZE + u64 (highest * 4)).

(** The database before the carve-outs, in terms of the memory map. *)
Lemma init_db junk h total es db total' i p :
  foldl (pass2 h) ((λ i, mkPfn PfnReservedHw (junk i) 0) <$> seq 0 (Z.to_nat h), total) es =
    (db, total') → 0 ≤ h →
  length db = Z.to_nat h ∧
  (alter (set_State PfnReservedHw) 0%nat db !! i = Some p →
   (State p = PfnFree ∧ i ≠ 0%nat ∧ offered es (Z.of_nat i)) ∨
   (State p = PfnReservedHw ∧ (i = 0%nat ∨ ¬ offered es (Z.of_nat i)))).
Proof.
  intros Hf Hh. apply foldl_pass2 in Hf as [Hlen Hst]; [|rewrite length_fmap, length_seq; lia].
  rewrite length_fmap, length_seq in Hlen. split; [done|]. intros Hi.
  destruct (decide (i = 0%nat)) as [->|Hn].
  - rewrite list_lookup_alter_eq in Hi. apply fmap_Some in Hi as (q & _ & ->). auto.
  - rewrite list_lookup_alter_ne in Hi by done.
    pose proof (lookup_lt_Some _ _ _ Hi) as Hlt. rewrite Hlen in Hlt.
    edestruct (Hst i) as [[Hs ?]|[? ?]]; [|done| |by left].
    { rewrite list_lookup_fmap, lookup_seq_lt by done. reflexivity. }
    simpl in Hs. auto.
Qed.


(** ** The contiguous pool *)

Definition contig_size (NumberOfBytes : Z) : Z :=
  let a := align_up64 NumberOfBytes MM_CONTIG_ALIGNMENT in
  if PAGE_SIZE <? a then align_up64 a PAGE_SIZE else a.

Lemma align_up64_spec x a :
  0 < a → 0 ≤ x → x + a - 1 < 18446744073709551616 →
  x ≤ align_up64 x a < x + a ∧ align_up64 x a mod a = 0.
Proof.
  intros Ha H0 Hx. unfold align_up64, align_down. rewrite u64_small by lia.
  split; [|rewrite Zminus_mod_idemp_r, Z.sub_diag; by apply Z.mod_0_l; lia].
  pose proof (Z.mod_pos_bound (x + a - 1) a Ha).
  Z.div_mod_to_equations. nia.
Qed.

Lemma contig_size_spec n :
  0 ≤ n ≤ 9223372036854775808 → n ≤ contig_size n < n + 4160 ∧ contig_size n mod 64 = 0.
Proof.
  intros Hn. unfold contig_size, MM_CONTIG_ALIGNMENT, PAGE_SIZE. cbn zeta.
  destruct (align_up64_spec n 64) as [Ha Hm]; [lia..|].
  destruct (4096 <? align_up64 n 64) eqn:E; [|lia].
  destruct (align_up64_spec (align_up64 n 64) 4096) as [Hb Hm']; [lia..|].
  split; [lia|]. revert Hm'. generalize (align_up64 (align_up64 n 64) 4096). intros z Hz.
  Z.div_mod_to_equations. lia.
Qed.

(** The contiguous pool is a bump allocator: a request that fits returns
    a 64-byte aligned, zeroed block inside the 8MB pool that starts where the
    last one ended, so blocks never overlap; a request that does not fit
    returns 0 and changes nothing. *)
Theorem MmAllocateContiguousMemory_spec (s : PFN_STATE) (n hi : Z)
    (Hwf : contig_wf s) (Hc : can_lock (mm_pcr s)) (Hn : 0 ≤ n ≤ 9223372036854775808) :
  let used := MmContiguousPoolUsed (contig s) in
  (MM_CONTIG_POOL_SIZE < used + contig_size n →
     MmAllocateContiguousMemory n hi s = Ok (0, s)) ∧
  (used + contig_size n ≤ MM_CONTIG_POOL_SIZE →
     ∃ r s', MmAllocateContiguousMemory n hi s = Ok (r, s') ∧
       r = 0x10000000 + used ∧ r mod MM_CONTIG_ALIGNMENT = 0 ∧
       r + n ≤ 0x10000000 + MmContiguousPoolUsed (contig s') ∧
       MmContiguousPoolUsed (contig s') = used + contig_size n ∧
       contig_wf s' ∧ mm_pcr s' = mm_pcr s ∧
       MmPfnDatabase s' = MmPfnDatabase s ∧
       (∀ a, qmem s' a = if (r <=? a) && (a <? r + contig_size n) then 0 else qmem s a)).
Proof.
  destruct Hwf as [Hb Hu Ha Hl]. destruct Hc as [[Hif Hr] Hle].
  destruct (contig_size_spec n Hn) as [Hs Hm].
  unfold MM_CONTIG_POOL_SIZE, MM_CONTIG_ALIGNMENT in *. simpl. split.
  - intros Hbig. unfold MmAllocateContiguousMemory. fold (contig_size n). cbn zeta.
    erewrite bind_ok; [|by apply acquire_ok]. unfold mbind at 1, M_bind at 1; simpl.
    rewrite u64_small by lia. unfold MM_CONTIG_POOL_SIZE.
    replace (8388608 <? _) with true by lia.
    erewrite bind_ok; [|by apply release_ok]. simpl.
    unfold mret, M_ret. do 2 f_equal.
    destruct s as [[q f] ?????? [???]]; simpl in *; unfold set_mm_pcr, set_contig; simpl.
    subst. do 2 f_equal. by case_if.
  - intros Hfit. unfold MmAllocateContiguousMemory. fold (contig_size n). cbn zeta.
    erewrite bind_ok; [|by apply acquire_ok]. unfold mbind at 1, M_bind at 1; simpl.
    rewrite u64_small by lia. unfold MM_CONTIG_POOL_SIZE.
    replace (8388608 <? _) with false by lia.
    erewrite bind_ok; [|reflexivity].
    erewrite bind_ok; [|by apply release_ok].
    erewrite bind_ok; [|reflexivity]. simpl. rewrite Hb.
    rewrite u64_small by lia. eexists _, _. split; [done|]. simpl.
    assert (Hu32 : u32 (MmContiguousPoolUsed (contig s) + u32 (contig_size n)) =
                   MmContiguousPoolUsed (contig s) + contig_size n).
    { unfold u32. rewrite !Z.mod_small; lia. }
    rewrite Hu32. split_and!; try done; try lia.
    + constructor; simpl; try done; unfold MM_CONTIG_POOL_SIZE, MM_CONTIG_ALIGNMENT; [lia|].
      Z.div_mod_to_equations. lia.
    + destruct (mm_pcr s) as [q f]; simpl in *. subst. f_equal. by case_if.
Qed.

(** ** Concrete runs *)

(** 1MB of reserved memory, then a free page and an active one. *)
Definition demo_pfn : PFN_STATE :=
  mkPfnState demo_pcr
    (replicate 256 (mkPfn PfnReservedHw 0 0) ++ [mkPfn PfnFree 0 0; mkPfn PfnActive 0 1])
    258 2 1 256 0 (mkContig 0x10000000 0 0) (λ a, a).

Lemma demo_pfn_lookup i p :
  MmPfnDatabase demo_pfn !! i = Some p →
  (State p = PfnReservedHw ∨ 256 ≤ Z.of_nat i).
Proof.
  unfold demo_pfn. cbn [MmPfnDatabase]. intros H. destruct (decide (i < 256)%nat); [left|lia].
  rewrite lookup_app_l in H by (rewrite length_replicate; lia).
  by apply lookup_replicate in H as [-> _].
Defined.

Lemma demo_pfn_wf : pfn_wf demo_pfn.
Proof.
  constructor; try done.
  intros i p Hp Hs. destruct (demo_pfn_lookup i p Hp); [congruence|lia].
Defined.

Lemma MmAllocatePhysicalPage_spec_witness :
  ∃ pa s', MmAllocatePhysicalPage demo_pfn = Ok (pa, s') ∧ pa = 256 * 4096.
Proof.
  destruct (MmAllocatePhysicalPage_spec demo_pfn demo_pfn_wf demo_can_lock)
    as (pa & s' & Hrun & _). exists pa, s'. split; [done|].
  assert (Hb : match MmAllocatePhysicalPage demo_pfn with
    | Ok (pa, _) => pa = 256 * 4096 | _ => False end) by (vm_compute; reflexivity).
  by rewrite Hrun in Hb.
Defined.

Lemma MmFreePhysicalPage_spec_witness :
  MmFreePhysicalPage (258 * 4096) demo_pfn = BugCheck MANUALLY_INITIATED_CRASH 0 181 0 0 ∧
  MmFreePhysicalPage (256 * 4096) demo_pfn = BugCheck MANUALLY_INITIATED_CRASH 0 183 0 0 ∧
  ∃ s', MmFreePhysicalPage (257 * 4096 + 8) demo_pfn = Ok (tt, s') ∧ MmFreePages s' = 2.
Proof.
  destruct (MmFreePhysicalPage_spec demo_pfn demo_pfn_wf demo_can_lock) as [H _].
  split_and!.
  - apply (H (258 * 4096)); done.
  - apply (H (256 * 4096)); done.
  - destruct (H (257 * 4096 + 8)) as (_ & _ & H3); [done|].
    destruct H3 as (s' & Hr & _ & _ & Hf); [done|]. by exists s'.
Defined.

Lemma MmAllocateContiguousMemory_spec_witness :
  ∃ s', MmAllocateContiguousMemory 100 0 demo_pfn = Ok (0x10000000, s') ∧
        MmContiguousPoolUsed (contig s') = 128.
Proof.
  destruct (MmAllocateContiguousMemory_spec demo_pfn 100 0) as [_ H].
  - by constructor.
  - apply demo_can_lock.
  - done.
  - destruct H as (r & s' & Hr & -> & _ & _ & Hu & _); [done|]. by exists s'.
Defined.

(** A boot block at 0x9000: a memory-map tag with one available entry of 2MB,
    and the end tag. *)
Definition demo_mb2 (a : Z) : Z :=
  if a =? 0x9000 then 56 else if a =? 0x9008 then 6 else if a =? 0x900C then 40
  else if a =? 0x9010 then 24 else if a =? 0x9020 then 0x200000
  else if a =? 0x9028 then 1 else 0.

Lemma demo_mb2_tags :
  mb2_tags demo_mb2 (u64 (0x9000 + demo_mb2 0x9000)) (u64 (0x9000 + 8)) [(0x9008, 6)].
Proof.
  apply (mb2_cons demo_mb2 _ (u64 (0x9000 + 8)) []); [done|done|]. apply mb2_end; done.
Defined.

