(* ===== verification/MmPte.v ===== *)
(** * MmPte: page tables and device mappings (src/mm/mminit.c, src/mm/mmuser.c)

    The four-level page-table walk that creates missing tables, page mapping,
    the demand-zero fault handler, and the MMIO window that grows down from
    0xFFFFF80000000000.  Tables live in the identity-mapped memory of the page
    allocator ([qmem], 64-bit words by byte address); CR3 is an argument.  The
    specification side is what the processor makes of that memory: [walk]
    follows the present entries of a linear address. *)

From S2P Require Import Prelude Irql MmPfn.

#[local] Open Scope Z_scope.

Definition PTE_PRESENT := 0x1.
Definition PTE_WRITE := 0x2.
Definition PTE_USER := 0x4.
Definition PTE_PWT := 0x8.
Definition PTE_PCD := 0x10.
Definition PTE_PAT := 0x80.
Definition PTE_LARGE := 0x80.
Definition ADDR_MASK := 0x000FFFFFFFFFF000.

Definition upd64 (a v : Z) (m : Z → Z) : Z → Z := λ b, if b =? a then v else m b.
Definition wr64 (a v : Z) : M PFN_STATE unit := mmod (λ s, set_qmem (upd64 a v (qmem s)) s).
Definition rd64q (a : Z) : M PFN_STATE Z := mgets (λ s, qmem s a).

Definition pte_index (Va shift : Z) : Z := Z.land (Z.shiftr Va shift) 0x1FF.

(** One level of the walk: the entry's table, made when it is missing; 0 is
    the NULL of the C text. *)
Definition next_table (table idx : Z) : M PFN_STATE Z :=
  e ← rd64q (table + 8 * idx);
  ok ← (if has_bits e PTE_PRESENT then mret true
        else pa ← MmAllocatePhysicalPage;
             if pa =? 0 then mret false
             else wr64 (table + 8 * idx) (Z.lor (Z.lor pa PTE_PRESENT) PTE_WRITE);; mret true);
  if (ok : bool) then
    e ← rd64q (table + 8 * idx);
    mret (Z.land e ADDR_MASK)
  else mret 0.

Definition MmpWalkToPte (Va Pml4Base : Z) : M PFN_STATE Z :=
  let pml4 := Z.land Pml4Base ADDR_MASK in
  pdpt ← next_table pml4 (pte_index Va 39);
  if pdpt =? 0 then mret 0 else
  pd ← next_table pdpt (pte_index Va 30);
  if pd =? 0 then mret 0 else
  pt ← next_table pd (pte_index Va 21);
  if pt =? 0 then mret 0 else
  mret (pt + 8 * pte_index Va 12).

Definition MmMapPage (cr3 Va Pa Flags : Z) : M PFN_STATE Z :=
  pte ← MmpWalkToPte Va cr3;
  if pte =? 0 then mret STATUS_NO_MEMORY
  else
    wr64 pte (Z.lor (align_down Pa 4096) Flags);;
    mret STATUS_SUCCESS.

Definition MM_USER_BASE := 0x10000.
Definition MM_USER_MAX := 0x7FFFFFFFE000.

Definition MmAccessFault (cr3 FaultAddress ErrorCode : Z) : M PFN_STATE Z :=
  if (FaultAddress <? MM_USER_BASE) || (MM_USER_MAX <? FaultAddress) then mret STATUS_UNSUCCESSFUL
  else
    pa ← MmAllocatePhysicalPage;
    if pa =? 0 then mret STATUS_NO_MEMORY
    else
      status ← MmMapPage cr3 (PAGE_ALIGN FaultAddress) pa (Z.lor PTE_USER PTE_WRITE);
      if negb (NT_SUCCESS status) then MmFreePhysicalPage pa;; mret status
      else mret STATUS_SUCCESS.

Definition MmIsAddressValid (Va : Z) : bool :=
  if Va =? 0 then false
  else if 0xFFFF800000000000 <=? Va then true
  else if (Va <? MM_USER_BASE) || (MM_USER_MAX <? Va) then false
  else true.

(** ** Device mappings *)

Record MMIO_MAPPING := mkIoMap {
  VirtualAddress : Z; IoLength : Z; PhysicalAddress : Z; ReferenceCount : Z; Active : Z }.

Record IO_STATE := mkIo {
  io_pfn : PFN_STATE;
  MmIoMappingTable : list MMIO_MAPPING;
  MmIoMappingCount : Z;
  MmIoVaCursor : Z;
  MmIoLock : Z
}.

Definition set_io_pfn (p : PFN_STATE) (s : IO_STATE) : IO_STATE :=
  mkIo p (MmIoMappingTable s) (MmIoMappingCount s) (MmIoVaCursor s) (MmIoLock s).
Definition set_MmIoLock (v : Z) (s : IO_STATE) : IO_STATE :=
  mkIo (io_pfn s) (MmIoMappingTable s) (MmIoMappingCount s) (MmIoVaCursor s) v.
Definition set_io (t : list MMIO_MAPPING) (n c : Z) (s : IO_STATE) : IO_STATE :=
  mkIo (io_pfn s) t n c (MmIoLock s).

#[global] Instance IO_HasPcr : HasPcr IO_STATE.
Proof.
  refine {| pcr := λ s, mm_pcr (io_pfn s); set_pcr := λ k s, set_io_pfn (set_mm_pcr k (io_pfn s)) s |};
    [done..|by intros [[]]].
Defined.

Definition IoLock : SpinLock IO_STATE.
Proof. refine (mkSpinLock MmIoLock set_MmIoLock _ _ _ _ _ _); [done..|by intros []|done]. Defined.

Definition on_pfn {A} (m : M PFN_STATE A) : M IO_STATE A := zoom io_pfn set_io_pfn m.

Definition MMIO_MAPPING_MAX := 128.
Definition MMIO_FLOOR := 0xFFFFF70000000000.

(** [for (i = 0; i < numPages; i++) { pte = walk(startVa + i*PAGE_SIZE); if (pte) *pte = 0; }]:
    the loop of the roll-back and of the unmapping. *)
Fixpoint clear_ptes (cr3 startVa i : Z) (n : nat) : M PFN_STATE unit :=
  match n with
  | O => mret tt
  | S n' =>
      pte ← MmpWalkToPte (u64 (startVa + u32 (i * PAGE_SIZE))) cr3;
      mwhen (truthy pte) (wr64 pte 0);;
      clear_ptes cr3 startVa (i + 1) n'
  end.

Definition MmpRollbackMapping (cr3 startVa numPages : Z) : M PFN_STATE unit :=
  clear_ptes cr3 startVa 0 (Z.to_nat numPages).

Definition UC_FLAGS : Z :=
  Z.lor (Z.lor (Z.lor (Z.lor PTE_PRESENT PTE_WRITE) PTE_PCD) PTE_PWT) PTE_PAT.

(** The mapping loop; the result is the page at which the walk failed. *)
Fixpoint map_ptes (cr3 startVa startPa i : Z) (n : nat) : M PFN_STATE (option Z) :=
  match n with
  | O => mret None
  | S n' =>
      pte ← MmpWalkToPte (u64 (startVa + u32 (i * PAGE_SIZE))) cr3;
      if pte =? 0 then mret (Some i)
      else
        wr64 pte (Z.lor (align_down (u64 (startPa + u32 (i * PAGE_SIZE))) 4096) UC_FLAGS);;
        map_ptes cr3 startVa startPa (i + 1) n'
  end.

Definition with_use (act refs : Z) (x : MMIO_MAPPING) : MMIO_MAPPING :=
  mkIoMap (VirtualAddress x) (IoLength x) (PhysicalAddress x) refs act.

Definition MmMapIoSpace (cr3 Pa Length : Z) : M IO_STATE Z :=
  if Length =? 0 then mret 0
  else
    irql ← KeAcquireSpinLock IoLock;
    count ← mgets MmIoMappingCount;
    if MMIO_MAPPING_MAX <=? count then KeReleaseSpinLock IoLock irql;; mret 0
    else
      let startPa := align_down Pa PAGE_SIZE in
      let endPa := align_down (u64 (startPa + Length + PAGE_SIZE - 1)) PAGE_SIZE in
      let numPages := u32 (Z.shiftr (u64 (endPa - startPa)) PAGE_SHIFT) in
      cursor0 ← mgets MmIoVaCursor;
      let cursor := align_down cursor0 PAGE_SIZE in
      let startVa := u64 (cursor - u32 (numPages * PAGE_SIZE)) in
      if startVa <? MMIO_FLOOR then
        mmod (λ s, set_io (MmIoMappingTable s) count cursor s);;
        KeReleaseSpinLock IoLock irql;; mret 0
      else
        mmod (λ s, set_io (<[Z.to_nat count := mkIoMap startVa Length Pa 1 1]> (MmIoMappingTable s))
                     (u32 (count + 1)) startVa s);;
        failed ← on_pfn (map_ptes cr3 startVa startPa 0 (Z.to_nat numPages));
        match failed with
        | Some i =>
            on_pfn (MmpRollbackMapping cr3 startVa i);;
            mmod (λ s, set_io (alter (with_use 0 0) (Z.to_nat count) (MmIoMappingTable s))
                         (u32 (MmIoMappingCount s - 1)) (MmIoVaCursor s) s);;
            KeReleaseSpinLock IoLock irql;; mret 0
        | None => KeReleaseSpinLock IoLock irql;; mret startVa
        end.

Definition MmUnmapIoSpace (cr3 Va : Z) : M IO_STATE unit :=
  if Va =? 0 then mret tt
  else
    irql ← KeAcquireSpinLock IoLock;
    s ← mget;
    match first_idx (λ x, truthy (Active x) && (VirtualAddress x =? Va))
            (take (Z.to_nat (MmIoMappingCount s)) (MmIoMappingTable s)) with
    | Some i =>
        match MmIoMappingTable s !! i with
        | Some x =>
            let refs := u32 (ReferenceCount x - 1) in
            mmod (λ s, set_io (<[i := with_use (Active x) refs x]> (MmIoMappingTable s))
                         (MmIoMappingCount s) (MmIoVaCursor s) s);;
            if 0 <? refs then KeReleaseSpinLock IoLock irql
            else
              on_pfn (clear_ptes cr3 (VirtualAddress x) 0
                        (Z.to_nat (u32 (Z.shiftr (u64 (IoLength x + PAGE_SIZE - 1)) PAGE_SHIFT))));;
              mmod (λ s, set_io (<[i := with_use 0 0 x]> (MmIoMappingTable s))
                           (MmIoMappingCount s) (MmIoVaCursor s) s);;
              KeReleaseSpinLock IoLock irql
        | None => mundef
        end
    | None => KeReleaseSpinLock IoLock irql
    end.

(** ** What the processor sees

    [tbl m t p] is the table reached from table [t] by the indices [p], through
    entries that are present and do not map a large page; [walk m t p] is the
    list of entries the translation of an address with the indices [p] uses,
    the last one being the entry that maps the page. *)

Definition present (e : Z) : bool := has_bits e PTE_PRESENT.
Definition large (e : Z) : bool := has_bits e PTE_LARGE.
Definition base_of (e : Z) : Z := Z.land e ADDR_MASK.

Fixpoint tbl (m : Z → Z) (t : Z) (p : list Z) : option Z :=
  match p with
  | [] => Some t
  | i :: p' =>
      let e := m (t + 8 * i) in
      if present e && negb (large e) then tbl m (base_of e) p' else None
  end.

Fixpoint walk (m : Z → Z) (t : Z) (p : list Z) : option (list Z) :=
  match p with
  | [] => None
  | i :: p' =>
      let e := m (t + 8 * i) in
      if present e then
        match p' with
        | [] => Some [e]
        | _ => if large e then Some [e] else (cons e) <$> walk m (base_of e) p'
        end
      else None
  end.

Definition va_path (Va : Z) : list Z :=
  [pte_index Va 39; pte_index Va 30; pte_index Va 21; pte_index Va 12].

(** The translation of [Va] under [cr3], as the entries it goes through. *)
Definition translation (s : PFN_STATE) (cr3 Va : Z) : option (list Z) :=
  walk (qmem s) (base_of cr3) (va_path Va).

(** Two addresses in the same page of the 48-bit address space. *)
Definition same_page (Va Vb : Z) : Prop := va_path Va = va_path Vb.

(** A 4KB translation: the physical address and the flags. *)
Definition maps_to (s : PFN_STATE) (cr3 Va pa flags : Z) : Prop :=
  ∃ es, translation s cr3 Va = Some (es ++ [Z.lor pa flags]) ∧ length es = 3%nat.

Definition idx_ok (i : Z) : Prop := 0 ≤ i < 512.

(** The tables are a tree of distinct pages that are not free. *)
Record pt_wf (s : PFN_STATE) (root : Z) : Prop := {
  pt_pages p u : (length p ≤ 3)%nat → Forall idx_ok p → tbl (qmem s) root p = Some u →
    u mod 4096 = 0 ∧ 0 < u < 68719476736 ∧ page_state (u / 4096) s ≠ Some PfnFree;
  pt_inj p q u : (length p ≤ 3)%nat → (length q ≤ 3)%nat → Forall idx_ok p → Forall idx_ok q →
    tbl (qmem s) root p = Some u → tbl (qmem s) root q = Some u → p = q
}.

(** ** Bits *)

Lemma has_bits_pow2 e n : 0 ≤ n → has_bits e (2 ^ n) = Z.testbit e n.
Proof.
  intros Hn. unfold has_bits, truthy. destruct (Z.testbit e n) eqn:Ht.
  - assert (Z.land e (2 ^ n) ≠ 0) as Hne; [|lia].
    intros H0. assert (Z.testbit (Z.land e (2 ^ n)) n = true) as Hb.
    { rewrite Z.land_spec, Ht, Z.pow2_bits_true by done. done. }
    by rewrite H0, Z.bits_0 in Hb.
  - assert (Z.land e (2 ^ n) = 0) as ->; [|done].
    apply Z.bits_inj'. intros k Hk. rewrite Z.land_spec, Z.bits_0.
    destruct (decide (k = n)) as [->|]; [by rewrite Ht|]. by rewrite Z.pow2_bits_false, andb_false_r by lia.
Qed.

Lemma present_mod e : present e = (e mod 2 =? 1).
Proof.
  unfold present. change PTE_PRESENT with (2 ^ 0). rewrite has_bits_pow2 by lia.
  rewrite Z.testbit_eqb by lia. by rewrite Z.pow_0_r, Z.div_1_r.
Qed.

Lemma large_mod e : large e = ((e / 128) mod 2 =? 1).
Proof.
  unfold large. change PTE_LARGE with (2 ^ 7). rewrite has_bits_pow2 by lia. by rewrite Z.testbit_eqb by lia.
Qed.

Lemma base_of_mod e : base_of e = 4096 * ((e / 4096) mod 1099511627776).
Proof.
  unfold base_of, ADDR_MASK. change 0x000FFFFFFFFFF000 with (Z.shiftl (Z.ones 40) 12).
  apply Z.bits_inj'. intros k Hk. rewrite Z.land_spec, Z.shiftl_spec by lia.
  replace (4096 * ((e / 4096) mod 1099511627776)) with (Z.shiftl (Z.land (Z.shiftr e 12) (Z.ones 40)) 12).
  - rewrite Z.shiftl_spec by lia. destruct (decide (12 ≤ k)).
    + rewrite Z.land_spec, Z.shiftr_spec by lia. by replace (k - 12 + 12) with k by lia.
    + rewrite !(Z.testbit_neg_r _ (k - 12)) by lia. by rewrite andb_false_r.
  - rewrite Z.land_ones, Z.shiftl_mul_pow2, Z.shiftr_div_pow2 by lia. change (2 ^ 12) with 4096. change (2 ^ 40) with 1099511627776. lia.
Qed.

Lemma pte_index_ok Va k : idx_ok (pte_index Va k).
Proof.
  unfold idx_ok, pte_index. change 0x1FF with (Z.ones 9). rewrite Z.land_ones by lia.
  change (2 ^ 9) with 512. apply Z.mod_pos_bound. lia.
Qed.

Lemma new_entry pa :
  pa mod 4096 = 0 → 0 ≤ pa < 68719476736 →
  let e := Z.lor (Z.lor pa PTE_PRESENT) PTE_WRITE in
  present e = true ∧ large e = false ∧ base_of e = pa.
Proof.
  intros Ha Hb e. assert (He : e = pa + 3).
  { subst e. rewrite <- Z.lor_assoc. change (Z.lor PTE_PRESENT PTE_WRITE) with 3.
    rewrite <- Z.lxor_lor, Z.add_nocarry_lxor; [done|..].
    all: apply Z.bits_inj'; intros k Hk; rewrite Z.land_spec, Z.bits_0;
      destruct (decide (k < 12)).
    all: try (replace pa with (pa / 4096 * 2 ^ 12) by (Z.div_mod_to_equations; lia); by rewrite Z.mul_pow2_bits_low).
    all: rewrite (Z.bits_above_log2 3 k), andb_false_r; [done|lia|change (Z.log2 3) with 1; lia]. }
  rewrite present_mod, large_mod, base_of_mod, He. split_and!; Z.div_mod_to_equations; lia.
Qed.

(** ** Paths through the tables *)

Lemma tbl_app m p : ∀ t q, tbl m t (p ++ q) = match tbl m t p with Some u => tbl m u q | None => None end.
Proof. induction p as [|i p IH]; intros t q; [done|]. simpl. case_if; [apply IH|done]. Qed.

Lemma tbl_snoc m t p u i :
  tbl m t p = Some u →
  tbl m t (p ++ [i]) =
    if present (m (u + 8 * i)) && negb (large (m (u + 8 * i))) then Some (base_of (m (u + 8 * i))) else None.
Proof. intros Hp. by rewrite tbl_app, Hp. Qed.

(** A walk depends only on the slots of the tables it goes through. *)
Lemma walk_same m m' : ∀ path t,
  (∀ q j r u, path = q ++ j :: r → tbl m t q = Some u → m' (u + 8 * j) = m (u + 8 * j)) →
  walk m' t path = walk m t path.
Proof.
  induction path as [|i path IH]; intros t Hs; [done|]. simpl.
  rewrite (Hs [] i path t eq_refl eq_refl). destruct (present _) eqn:Hp; [|done].
  destruct path as [|j path]; [done|]. destruct (large _) eqn:Hl; [done|]. f_equal. apply IH.
  intros q k r u Heq Hq. apply (Hs (i :: q) k r); [by rewrite Heq|]. simpl. by rewrite Hp, Hl.
Qed.

(** A walk ends at an entry that is not present. *)
Lemma walk_cut m : ∀ p t u i q,
  tbl m t p = Some u → present (m (u + 8 * i)) = false → walk m t (p ++ i :: q) = None.
Proof.
  induction p as [|j p IH]; intros t u i q Hp Hn; simpl in *.
  - simplify_eq. by rewrite Hn.
  - destruct (present (m (t + 8 * j))) eqn:E1; [|done]. destruct (large (m (t + 8 * j))) eqn:E2; [done|].
    simpl in Hp. rewrite (IH _ _ i q Hp Hn). by destruct (p ++ i :: q) eqn:E; [destruct p|].
Qed.

(** The last table of a walk decides it. *)
Lemma walk_leaf m : ∀ p t u,
  tbl m t p = Some u → ∃ es, length es = length p ∧
    ∀ i, walk m t (p ++ [i]) = if present (m (u + 8 * i)) then Some (es ++ [m (u + 8 * i)]) else None.
Proof.
  induction p as [|j p IH]; intros t u Hp; simpl in *.
  - simplify_eq. exists []. done.
  - destruct (present (m (t + 8 * j))) eqn:E1; [|done]. destruct (large (m (t + 8 * j))) eqn:E2; [done|].
    simpl in Hp. destruct (IH _ _ Hp) as (es & Hl & Hw). exists (m (t + 8 * j) :: es).
    split; [simpl; by rewrite Hl|]. intros i. rewrite (Hw i).
    destruct (p ++ [i]) as [|] eqn:E; [by destruct p|]. by case_if.
Qed.

(** Slots of tables in different pages, or of the same table at different
    indices, are different words. *)
Lemma slot_ne u v i j :
  u mod 4096 = 0 → v mod 4096 = 0 → idx_ok i → idx_ok j → u + 8 * i = v + 8 * j → u = v ∧ i = j.
Proof. unfold idx_ok. intros Hu Hv Hi Hj He. Z.div_mod_to_equations. lia. Qed.

(** The tables, the state of the pages and the translations an operation may
    not disturb. *)
Record pt_ext (s s' : PFN_STATE) (root : Z) : Prop := {
  px_tbl p u : (length p ≤ 3)%nat → Forall idx_ok p → tbl (qmem s) root p = Some u → tbl (qmem s') root p = Some u;
  px_walk p : length p = 4%nat → Forall idx_ok p → walk (qmem s') root p = walk (qmem s) root p;
  px_new p u : (length p ≤ 3)%nat → Forall idx_ok p → tbl (qmem s') root p = Some u →
    tbl (qmem s) root p = Some u ∨ page_state (u / 4096) s = Some PfnFree;
  px_busy pfn : 0 ≤ pfn → page_state pfn s ≠ Some PfnFree → page_state pfn s' ≠ Some PfnFree;
  px_active pfn : 0 ≤ pfn → page_state pfn s = Some PfnActive → page_state pfn s' = Some PfnActive
}.

Lemma pt_ext_refl s root : pt_ext s s root.
Proof. constructor; auto. Qed.

Lemma pt_ext_trans s1 s2 s3 root : pt_ext s1 s2 root → pt_ext s2 s3 root → pt_wf s3 root → pt_ext s1 s3 root.
Proof.
  intros [t1 w1 n1 b1 a1] [t2 w2 n2 b2 a2] Hwf. constructor; eauto; [intros p Hl Hp; by rewrite w2, w1|].
  intros p u Hl Hp Hu. destruct (n2 p u Hl Hp Hu) as [H2|H2]; [eauto|]. right.
  destruct (decide (page_state (u / 4096) s1 = Some PfnFree)) as [|Hb]; [done|].
  exfalso. revert H2. apply b1; [|done]. destruct (pt_pages _ _ Hwf p u Hl Hp Hu). Z.div_mod_to_equations. lia.
Qed.

(** A state after the page [pfn] was taken, zeroed and linked into slot [i] of
    table [t]. *)
Definition grown (s : PFN_STATE) (pfn t i : Z) : PFN_STATE :=
  set_qmem (upd64 (t + 8 * i) (Z.lor (Z.lor (pfn * 4096) PTE_PRESENT) PTE_WRITE)
              (zero_page (pfn * 4096) (qmem s))) (take_page pfn s).

Lemma grown_slots s root p t i pfn :
  pt_wf s root → (length p ≤ 2)%nat → Forall idx_ok p → idx_ok i → tbl (qmem s) root p = Some t →
  page_state pfn s = Some PfnFree → 0 ≤ pfn →
  ∀ q u j, (length q ≤ 3)%nat → Forall idx_ok q → idx_ok j → tbl (qmem s) root q = Some u → ¬ (q = p ∧ j = i) →
    qmem (grown s pfn t i) (u + 8 * j) = qmem s (u + 8 * j).
Proof.
  intros [Hpg Hinj] Hl Hp Hi Ht Hst Hpfn q u j Hlq Hq Hj Hu Hne.
  destruct (Hpg p t ltac:(lia) Hp Ht) as (Ha & _ & Hf). destruct (Hpg q u Hlq Hq Hu) as (Hb & Hr & Hg).
  simpl. unfold upd64. destruct (Z.eqb_spec (u + 8 * j) (t + 8 * i)) as [He|_].
  - exfalso. apply slot_ne in He as [-> ->]; [|done..]. apply Hne. split; [|done]. eapply Hinj; [..|exact Hu|exact Ht]; try done; lia.
  - unfold zero_page. replace ((pfn * 4096 <=? u + 8 * j) && (u + 8 * j <? pfn * 4096 + PAGE_SIZE)) with false; [done|].
    symmetry. apply not_true_iff_false. intros Hin. apply Hg. rewrite <- Hst. f_equal.
    unfold idx_ok, PAGE_SIZE in *. Z.div_mod_to_equations. lia.
Qed.

Lemma grown_tbl s root p t i pfn :
  pt_wf s root → (length p ≤ 2)%nat → Forall idx_ok p → idx_ok i → tbl (qmem s) root p = Some t →
  present (qmem s (t + 8 * i)) = false → page_state pfn s = Some PfnFree → 0 ≤ pfn < 16777216 →
  ∀ q, (length q ≤ 3)%nat → Forall idx_ok q →
    tbl (qmem (grown s pfn t i)) root q =
      if decide (q = p ++ [i]) then Some (pfn * 4096)
      else if decide (p ++ [i] `prefix_of` q) then None else tbl (qmem s) root q.
Proof.
  intros Hwf Hl Hp Hi Ht Hn Hst Hpfn. set (s' := grown s pfn t i).
  pose proof (grown_slots s root p t i pfn Hwf Hl Hp Hi Ht Hst ltac:(lia)) as Hslot. fold s' in Hslot.
  destruct (pt_pages _ _ Hwf p t ltac:(lia) Hp Ht) as (Hta & Htr & Htf).
  destruct (new_entry (pfn * 4096)) as (Ep & El & Eb); [rewrite Z.mod_mul; lia|lia|].
  induction q as [|j q IH] using rev_ind; intros Hlq Hq.
  - rewrite decide_False by (by destruct p). rewrite decide_False; [done|]. intros H%prefix_nil_inv. by destruct p.
  - rewrite length_app in Hlq. simpl in Hlq. apply Forall_app in Hq as [Hq Hj]. rewrite Forall_singleton in Hj.
    specialize (IH ltac:(lia) Hq). destruct (decide (q ++ [j] = p ++ [i])) as [He|He].
    + apply app_inj_tail in He as [-> ->]. rewrite decide_False in IH
        by (intros H%(f_equal length); rewrite length_app in H; simpl in H; lia).
      rewrite decide_False in IH by (intros H%prefix_length; rewrite length_app in H; simpl in H; lia).
      rewrite Ht in IH. rewrite (tbl_snoc _ _ _ _ i IH). simpl. unfold upd64. rewrite Z.eqb_refl, Ep, El, Eb. done.
    + rewrite tbl_app, IH. destruct (decide (q = p ++ [i])) as [->|Hqe].
      * rewrite decide_True by (by eexists). simpl. unfold upd64.
        replace (pfn * 4096 + 8 * j =? t + 8 * i) with false.
        -- unfold zero_page, PAGE_SIZE. unfold idx_ok in Hj.
           replace ((pfn * 4096 <=? pfn * 4096 + 8 * j) && (pfn * 4096 + 8 * j <? pfn * 4096 + 4096)) with true by lia. done.
        -- symmetry. apply Z.eqb_neq. intros H. apply Htf. rewrite <- Hst. f_equal. unfold idx_ok in *.
           Z.div_mod_to_equations. lia.
      * destruct (decide (p ++ [i] `prefix_of` q)) as [Hpre|Hpre].
        -- rewrite decide_True; [done|]. by apply prefix_app_r.
        -- rewrite (decide_False (P := p ++ [i] `prefix_of` q ++ [j])).
           2:{ intros [r Hr]. destruct r as [|x r _] using rev_ind; [rewrite app_nil_r in Hr; done|].
               rewrite app_assoc in Hr. apply app_inj_tail in Hr as [Hr _]. apply Hpre. by exists r. }
           rewrite tbl_app. destruct (tbl (qmem s) root q) as [u|] eqn:Hu; [|done]. cbn [tbl]. rewrite (Hslot q u j); [done|lia|done..|].
           intros [-> ->]. done.
Qed.

Lemma walk_large m : ∀ p t u i j q,
  tbl m t p = Some u → present (m (u + 8 * i)) = true → large (m (u + 8 * i)) = true →
  ∃ es, walk m t (p ++ i :: j :: q) = Some es ∧ length es = S (length p).
Proof.
  induction p as [|k p IH]; intros t u i j q Hp He Hl; simpl in *.
  - simplify_eq. rewrite He, Hl. eauto.
  - destruct (present (m (t + 8 * k))) eqn:E1; [|done]. destruct (large (m (t + 8 * k))) eqn:E2; [done|].
    simpl in Hp. destruct (IH _ _ i j q Hp He Hl) as (es & Hw & Hlen). rewrite Hw.
    destruct (p ++ i :: j :: q) eqn:E; [by destruct p|]. eexists. split; [done|]. simpl. by rewrite Hlen.
Qed.

(** No large page covers the address with these indices. *)
Definition not_large (s : PFN_STATE) (root : Z) (path : list Z) : Prop :=
  ∀ es, walk (qmem s) root path = Some es → length es = 4%nat.

Lemma not_large_ext s s' root path :
  pt_ext s s' root → length path = 4%nat → Forall idx_ok path → not_large s root path → not_large s' root path.
Proof. intros He Hl Hp Hn es. rewrite (px_walk _ _ _ He) by done. apply Hn. Qed.

Lemma page_state_grown s pfn t i q :
  0 ≤ pfn → 0 ≤ q → page_state pfn s ≠ None →
  page_state q (grown s pfn t i) = if q =? pfn then Some PfnActive else page_state q s.
Proof. apply page_state_take. Qed.

Lemma grown_ext s root p t i pfn :
  pt_wf s root → (length p ≤ 2)%nat → Forall idx_ok p → idx_ok i → tbl (qmem s) root p = Some t →
  present (qmem s (t + 8 * i)) = false → page_state pfn s = Some PfnFree → 0 < pfn < 16777216 →
  pt_wf (grown s pfn t i) root ∧ pt_ext s (grown s pfn t i) root ∧
  tbl (qmem (grown s pfn t i)) root (p ++ [i]) = Some (pfn * 4096).
Proof.
  intros Hwf Hl Hp Hi Ht Hn Hst Hpfn.
  pose proof (grown_tbl s root p t i pfn Hwf Hl Hp Hi Ht Hn Hst ltac:(lia)) as Htbl.
  pose proof (grown_slots s root p t i pfn Hwf Hl Hp Hi Ht Hst ltac:(lia)) as Hslot.
  assert (Hps : ∀ q, 0 ≤ q → page_state q (grown s pfn t i) = if q =? pfn then Some PfnActive else page_state q s)
    by (intros q Hq; apply page_state_grown; [lia|done|by rewrite Hst]).
  assert (Hpi : (length (p ++ [i]) ≤ 3)%nat ∧ Forall idx_ok (p ++ [i])).
  { rewrite length_app, Forall_app, Forall_singleton. simpl. split; [lia|done]. }
  assert (Hnone : ∀ q u, p ++ [i] `prefix_of` q → tbl (qmem s) root q = Some u → False).
  { intros q u [r ->] Hu. rewrite tbl_app, tbl_app, Ht in Hu. simpl in Hu. by rewrite Hn in Hu. }
  assert (Hold : ∀ q u, (length q ≤ 3)%nat → Forall idx_ok q → tbl (qmem (grown s pfn t i)) root q = Some u →
    (q = p ++ [i] ∧ u = pfn * 4096) ∨ (tbl (qmem s) root q = Some u ∧ u ≠ pfn * 4096)).
  { intros q u Hlq Hq. rewrite (Htbl q Hlq Hq). repeat case_decide; [intros [= <-]; by left|done|].
    intros Hu. right. split; [done|]. intros ->. destruct (pt_pages _ _ Hwf q _ Hlq Hq Hu) as (_ & _ & Hf).
    by rewrite Z.div_mul, Hst in Hf by lia. }
  split_and!.
  - split.
    + intros q u Hlq Hq Hu. destruct (Hold q u Hlq Hq Hu) as [[-> ->]|[Hu0 _]].
      * rewrite Z.mod_mul, Z.div_mul, Hps, Z.eqb_refl by lia. split_and!; [done|lia|lia|done].
      * destruct (pt_pages _ _ Hwf q u Hlq Hq Hu0) as (? & ? & Hf). split_and!; [done|lia|lia|].
        rewrite Hps by (Z.div_mod_to_equations; lia). by case_if.
    + intros q q' u Hlq Hlq' Hq Hq' Hu Hu'.
      destruct (Hold q u Hlq Hq Hu) as [[-> E1]|[H1 E1]]; destruct (Hold q' u Hlq' Hq' Hu') as [[-> E2]|[H2 E2]]; try done.
      by apply (pt_inj _ _ Hwf q q' u).
  - constructor; [| | | |].
    + intros q u Hlq Hq Hu. rewrite (Htbl q Hlq Hq). rewrite decide_False, decide_False; [done|..].
      * intros Hpre. by apply (Hnone q u).
      * intros ->. by apply (Hnone (p ++ [i]) u).
    + intros path Hlen Hpath. destruct (decide (p ++ [i] `prefix_of` path)) as [[r Hr]|Hnp].
      * rewrite <- app_assoc in Hr. simpl in Hr. subst path. rewrite (walk_cut (qmem s) p root t i r Ht Hn).
        assert (∃ j r', r = j :: r' ∧ idx_ok j) as (j & r' & -> & Hj).
        { rewrite length_app in Hlen. simpl in Hlen. destruct r as [|j r']; [simpl in Hlen; lia|].
          rewrite Forall_app, !Forall_cons in Hpath. naive_solver. }
        replace (p ++ i :: j :: r') with ((p ++ [i]) ++ j :: r') by (by rewrite <- app_assoc).
        eapply walk_cut; [rewrite (Htbl _ (proj1 Hpi) (proj2 Hpi)); by rewrite decide_True|].
        simpl. unfold upd64. destruct (Z.eqb_spec (pfn * 4096 + 8 * j) (t + 8 * i)) as [He|_].
        -- exfalso. destruct (pt_pages _ _ Hwf p t ltac:(lia) Hp Ht) as (Ha & _ & Hf).
           apply slot_ne in He as [<- _]; [|by rewrite ?Z.mod_mul by lia..|done|done].
           by rewrite Z.div_mul, Hst in Hf by lia.
        -- unfold zero_page, PAGE_SIZE, idx_ok in *.
           by replace ((pfn * 4096 <=? pfn * 4096 + 8 * j) && (pfn * 4096 + 8 * j <? pfn * 4096 + 4096)) with true by lia.
      * apply walk_same. intros q j r u -> Hu. rewrite length_app in Hlen. simpl in Hlen.
        rewrite Forall_app, Forall_cons in Hpath. destruct Hpath as (Hq & Hj & _).
        apply (Hslot q u j); [lia|done..|]. intros [-> ->]. apply Hnp. exists r. by rewrite <- app_assoc.
    + intros q u Hlq Hq Hu. destruct (Hold q u Hlq Hq Hu) as [[-> ->]|[Hu0 _]]; [right|by left].
      by rewrite Z.div_mul by lia.
    + intros q Hq Hb. rewrite Hps by done. by case_if.
    + intros q Hq Hb. rewrite Hps by done. by case_if.
  - rewrite (Htbl _ (proj1 Hpi) (proj2 Hpi)). by rewrite decide_True.
Qed.

(** What every routine of this file keeps of the page allocator. *)
Record mm_ok (s : PFN_STATE) (root : Z) : Prop := {
  mo_pfn : pfn_wf s;
  mo_pcr : can_lock (mm_pcr s);
  mo_pt : pt_wf s root
}.

Lemma next_table_run s root p t i :
  mm_ok s root → (length p ≤ 2)%nat → Forall idx_ok p → idx_ok i → tbl (qmem s) root p = Some t →
  (present (qmem s (t + 8 * i)) = true → large (qmem s (t + 8 * i)) = false) →
  ∃ u s', next_table t i s = Ok (u, s') ∧ mm_ok s' root ∧ mm_pcr s' = mm_pcr s ∧ pt_ext s s' root ∧
    ((u = 0 ∧ s' = s ∧ present (qmem s (t + 8 * i)) = false) ∨
     (u ≠ 0 ∧ tbl (qmem s') root (p ++ [i]) = Some u)).
Proof.
  intros [Hpw Hc Hwf] Hl Hp Hi Ht Hnl. unfold next_table. unfold mbind at 1, M_bind at 1. cbn [rd64q mgets].
  fold (present (qmem s (t + 8 * i))). destruct (present (qmem s (t + 8 * i))) eqn:Hpr.
  - erewrite bind_ok; [|reflexivity]. cbv match. unfold mbind at 1, M_bind at 1. cbn [rd64q mgets].
    fold (base_of (qmem s (t + 8 * i))). exists (base_of (qmem s (t + 8 * i))), s.
    assert (Hu : tbl (qmem s) root (p ++ [i]) = Some (base_of (qmem s (t + 8 * i)))).
    { by rewrite (tbl_snoc _ _ _ _ _ Ht), Hpr, Hnl. }
    split_and!; [done|done|done|apply pt_ext_refl|]. right. split; [|done].
    assert (Hlen : (length (p ++ [i]) ≤ 3)%nat) by (rewrite length_app; simpl; lia).
    assert (Hpi : Forall idx_ok (p ++ [i])) by (apply Forall_app; split; [done|by constructor]).
    destruct (pt_pages _ _ Hwf (p ++ [i]) _ Hlen Hpi Hu) as (_ & ? & _). lia.
  - pose proof (alloc_page_run s Hpw Hc) as Hal. destruct (scan_free s) as [pfn|] eqn:Hs.
    + destruct Hpw as [Hlen Hh Hf Hhint Hok Hlow Hlk].
      destruct (scan_free_Some s pfn Hs) as (Hr & (x & Hx & Hst) & _); [lia|done|].
      assert (Hps : page_state pfn s = Some PfnFree) by (unfold page_state; rewrite Hx; simpl; by rewrite Hst).
      destruct (grown_ext s root p t i pfn Hwf Hl Hp Hi Ht Hpr Hps ltac:(lia)) as (Hwf' & Hext & Htb).
      exists (pfn * 4096), (grown s pfn t i). split_and!.
      * rewrite (bind_ok _ _ _ true (grown s pfn t i)).
        2:{ rewrite (bind_ok _ _ _ _ _ Hal). by replace (pfn * 4096 =? 0) with false by lia. }
        cbv match. unfold mbind at 1, M_bind at 1. cbn [rd64q mgets]. unfold mret, M_ret. do 2 f_equal.
        simpl. unfold upd64. rewrite Z.eqb_refl. apply new_entry; [by rewrite Z.mod_mul by lia|lia].
      * split; [|done|done]. apply (pfn_wf_set_qmem _ (take_page pfn s)). by apply take_page_wf.
      * done.
      * done.
      * right. split; [lia|done].
    + exists 0, s. split_and!; [|done|done|apply pt_ext_refl|by left].
      rewrite (bind_ok _ _ _ false s); [done|]. by rewrite (bind_ok _ _ _ _ _ Hal).
Qed.

Lemma not_large_slot s root p t i j q :
  not_large s root (p ++ i :: j :: q) → (length p ≤ 2)%nat → tbl (qmem s) root p = Some t →
  present (qmem s (t + 8 * i)) = true → large (qmem s (t + 8 * i)) = false.
Proof.
  intros Hn Hl Ht Hp. destruct (large _) eqn:E; [|done].
  destruct (walk_large _ _ _ _ i j q Ht Hp E) as (es & Hw & Hlen). apply Hn in Hw. lia.
Qed.

(** Index lists built from [pte_index]. *)
Ltac indices Hi := repeat (apply Forall_cons_2; [apply Hi|]); apply Forall_nil_2.

Lemma va_path_ok Va : Forall idx_ok (va_path Va).
Proof. indices (pte_index_ok Va). Qed.

Lemma translation_ext s s' cr3 Va : pt_ext s s' (base_of cr3) → translation s' cr3 Va = translation s cr3 Va.
Proof. intros He. apply (px_walk _ _ _ He); [done|apply va_path_ok]. Qed.

(** The walk ends with the address of the entry for the page, or without
    memory; either way no translation has changed. *)
Lemma walk_run s cr3 Va :
  mm_ok s (base_of cr3) → not_large s (base_of cr3) (va_path Va) →
  ∃ pte s', MmpWalkToPte Va cr3 s = Ok (pte, s') ∧ mm_ok s' (base_of cr3) ∧ mm_pcr s' = mm_pcr s ∧
    pt_ext s s' (base_of cr3) ∧
    ((pte = 0 ∧ translation s cr3 Va = None) ∨ ∃ pt, tbl (qmem s') (base_of cr3) [pte_index Va 39; pte_index Va 30; pte_index Va 21] = Some pt ∧
       pte = pt + 8 * pte_index Va 12 ∧ pte ≠ 0).
Proof.
  intros H0 Hn. set (root := base_of cr3) in *. unfold MmpWalkToPte. fold (base_of cr3). fold root. cbv zeta.
  pose proof (pte_index_ok Va) as Hi. assert (Hpath : Forall idx_ok (va_path Va)) by (indices Hi).
  destruct (next_table_run s root [] root (pte_index Va 39) H0) as (u1 & s1 & R1 & O1 & P1 & X1 & C1);
    [simpl; lia|constructor|done|done|by apply (not_large_slot s root [] root _ _ _ Hn); [simpl; lia|]|].
  rewrite (bind_ok _ _ _ _ _ R1). destruct C1 as [(-> & -> & C1)|[N1 T1]].
  { exists 0, s. split_and!; [done..|]. left. split; [done|]. by apply (walk_cut (qmem s) [] root root). }
  replace (u1 =? 0) with false by lia. pose proof (not_large_ext _ _ _ (va_path Va) X1 eq_refl Hpath Hn) as Hn1.
  destruct (next_table_run s1 root [pte_index Va 39] u1 (pte_index Va 30) O1) as (u2 & s2 & R2 & O2 & P2 & X2 & C2);
    [simpl; lia|indices Hi|done|done|by apply (not_large_slot s1 root [_] u1 _ _ _ Hn1); [simpl; lia|]|].
  rewrite (bind_ok _ _ _ _ _ R2). pose proof (pt_ext_trans _ _ _ _ X1 X2 (mo_pt _ _ O2)) as X12.
  destruct C2 as [(-> & -> & C2)|[N2 T2]].
  { exists 0, s1. split_and!; [done..|]. left. split; [done|]. rewrite <- (translation_ext s s1 cr3 Va X1).
    by apply (walk_cut (qmem s1) [_] root u1). }
  replace (u2 =? 0) with false by lia. pose proof (not_large_ext _ _ _ (va_path Va) X12 eq_refl Hpath Hn) as Hn2.
  destruct (next_table_run s2 root [pte_index Va 39; pte_index Va 30] u2 (pte_index Va 21) O2) as (u3 & s3 & R3 & O3 & P3 & X3 & C3);
    [simpl; lia|indices Hi|done|done|by apply (not_large_slot s2 root [_; _] u2 _ _ _ Hn2); [simpl; lia|]|].
  rewrite (bind_ok _ _ _ _ _ R3). pose proof (pt_ext_trans _ _ _ _ X12 X3 (mo_pt _ _ O3)) as X13.
  destruct C3 as [(-> & -> & C3)|[N3 T3]].
  { exists 0, s2. split_and!; [done|done|congruence|done|]. left. split; [done|].
    rewrite <- (translation_ext s s2 cr3 Va X12). by apply (walk_cut (qmem s2) [_; _] root u2). }
  replace (u3 =? 0) with false by lia. eexists _, s3. split_and!; [done|done|congruence|done|right].
  exists u3. split_and!; [done|done|].
  pose proof (pt_pages _ _ (mo_pt _ _ O3) [_; _; _] _ (le_n 3) ltac:(indices Hi) T3) as (_ & ? & _).
  specialize (Hi 12). unfold idx_ok in Hi. lia.
Qed.

(** ** Writing a leaf entry *)

Definition leaf_set (s : PFN_STATE) (pte v : Z) : PFN_STATE := set_qmem (upd64 pte v (qmem s)) s.

Lemma leaf_slots s root p pt i v :
  pt_wf s root → length p = 3%nat → Forall idx_ok p → idx_ok i → tbl (qmem s) root p = Some pt →
  ∀ q u j, (length q ≤ 3)%nat → Forall idx_ok q → idx_ok j → tbl (qmem s) root q = Some u → ¬ (q = p ∧ j = i) →
    qmem (leaf_set s (pt + 8 * i) v) (u + 8 * j) = qmem s (u + 8 * j).
Proof.
  intros [Hpg Hinj] Hl Hp Hi Ht q u j Hlq Hq Hj Hu Hne. simpl. unfold upd64.
  destruct (Z.eqb_spec (u + 8 * j) (pt + 8 * i)) as [He|]; [|done].
  destruct (Hpg p pt ltac:(lia) Hp Ht) as (Ha & _). destruct (Hpg q u Hlq Hq Hu) as (Hb & _).
  apply slot_ne in He as [-> ->]; [|done..]. exfalso. apply Hne. split; [|done]. eapply Hinj; [..|exact Hu|exact Ht]; try done; lia.
Qed.

Lemma leaf_tbl s root p pt i v :
  pt_wf s root → length p = 3%nat → Forall idx_ok p → idx_ok i → tbl (qmem s) root p = Some pt →
  ∀ q, (length q ≤ 3)%nat → Forall idx_ok q → tbl (qmem (leaf_set s (pt + 8 * i) v)) root q = tbl (qmem s) root q.
Proof.
  intros Hwf Hl Hp Hi Ht. pose proof (leaf_slots s root p pt i v Hwf Hl Hp Hi Ht) as Hs.
  induction q as [|j q IH] using rev_ind; intros Hlq Hq; [done|].
  rewrite length_app in Hlq. simpl in Hlq. apply Forall_app in Hq as [Hq Hj]. rewrite Forall_singleton in Hj.
  rewrite !tbl_app, (IH ltac:(lia) Hq). destruct (tbl (qmem s) root q) as [u|] eqn:Hu; [|done]. cbn [tbl].
  rewrite (Hs q u j); [done|lia|done..|]. intros [-> _]. lia.
Qed.

Lemma leaf_set_spec s root p pt i v :
  mm_ok s root → length p = 3%nat → Forall idx_ok p → idx_ok i → tbl (qmem s) root p = Some pt →
  let s' := leaf_set s (pt + 8 * i) v in
  mm_ok s' root ∧
  (∃ es, length es = 3%nat ∧ walk (qmem s') root (p ++ [i]) = if present v then Some (es ++ [v]) else None) ∧
  ∀ path, length path = 4%nat → Forall idx_ok path → path ≠ p ++ [i] → walk (qmem s') root path = walk (qmem s) root path.
Proof.
  intros [Hpw Hc Hwf] Hl Hp Hi Ht s'. pose proof (leaf_slots s root p pt i v Hwf Hl Hp Hi Ht) as Hs.
  pose proof (leaf_tbl s root p pt i v Hwf Hl Hp Hi Ht) as Htb. fold s' in Hs, Htb. split_and!.
  - split; [by apply pfn_wf_set_qmem|done|]. split.
    + intros q u Hlq Hq. rewrite Htb by done. by apply (pt_pages _ _ Hwf).
    + intros q q' u Hlq Hlq' Hq Hq'. rewrite !Htb by done. by apply (pt_inj _ _ Hwf).
  - destruct (walk_leaf (qmem s') p root pt) as (es & Hes & Hw); [rewrite Htb; [done|lia|done]|].
    exists es. split; [lia|]. rewrite (Hw i). simpl. unfold upd64. by rewrite Z.eqb_refl.
  - intros path Hlen Hpath Hne. apply walk_same. intros q j r u -> Hu.
    rewrite length_app in Hlen. simpl in Hlen. rewrite Forall_app, Forall_cons in Hpath. destruct Hpath as (Hq & Hj & _).
    apply (Hs q u j); [lia|done..|]. intros [-> ->]. apply Hne. destruct r; [done|simpl in Hlen; lia].
Qed.

(** ** Mapping a page *)

(** Everything but one page is translated as before. *)
Definition only_page (s s' : PFN_STATE) (cr3 Va : Z) : Prop :=
  ∀ Vb, ¬ same_page Va Vb → translation s' cr3 Vb = translation s cr3 Vb.

(** The walk and the store of one entry, as all three users do them. *)
Lemma set_pte_run {B} s cr3 Va v (fail : M PFN_STATE B) (k : M PFN_STATE B) :
  mm_ok s (base_of cr3) → not_large s (base_of cr3) (va_path Va) →
  ∃ s1, mm_ok s1 (base_of cr3) ∧ mm_pcr s1 = mm_pcr s ∧ pt_ext s s1 (base_of cr3) ∧
    ((pte ← MmpWalkToPte Va cr3; if pte =? 0 then fail else wr64 pte v;; k) s = fail s1 ∧
       translation s cr3 Va = None ∨
     ∃ s2, (pte ← MmpWalkToPte Va cr3; if pte =? 0 then fail else wr64 pte v;; k) s = k s2 ∧
       mm_ok s2 (base_of cr3) ∧ mm_pcr s2 = mm_pcr s ∧ only_page s s2 cr3 Va ∧
       MmPfnDatabase s2 = MmPfnDatabase s1 ∧
       ∃ es, length es = 3%nat ∧ translation s2 cr3 Va = if present v then Some (es ++ [v]) else None).
Proof.
  intros Hok Hn. destruct (walk_run s cr3 Va Hok Hn) as (pte & s1 & R & O1 & P1 & X1 & C).
  exists s1. split_and!; [done..|]. rewrite (bind_ok _ _ _ _ _ R). destruct C as [[-> Hnone]|(pt & Ht & -> & Hne)].
  - by left.
  - right. replace (pt + 8 * pte_index Va 12 =? 0) with false by lia. exists (leaf_set s1 (pt + 8 * pte_index Va 12) v).
    destruct (leaf_set_spec s1 (base_of cr3) [_; _; _] pt (pte_index Va 12) v O1 eq_refl ltac:(indices (pte_index_ok Va))
      (pte_index_ok Va 12) Ht) as (O2 & Hw & Hother).
    split_and!; [done|done|done| |done|done]. intros Vb Hd.
    etrans; [apply Hother; [done|apply va_path_ok|by intros E]|exact (translation_ext s s1 cr3 Vb X1)].
Qed.

(** An entry that is present is followed, large or not. *)
Lemma next_table_present s t i :
  present (qmem s (t + 8 * i)) = true → next_table t i s = Ok (base_of (qmem s (t + 8 * i)), s).
Proof.
  intros Hp. unfold next_table. unfold mbind at 1, M_bind at 1. cbn [rd64q mgets].
  fold (present (qmem s (t + 8 * i))). rewrite Hp. by rewrite (bind_ok _ _ _ true s).
Qed.

Lemma base_of_bounds e : 0 ≤ base_of e ∧ base_of e mod 4096 = 0.
Proof. rewrite base_of_mod. split; [|rewrite Z.mul_comm; apply Z.mod_mul; lia]. pose proof (Z.mod_pos_bound (e / 4096) 1099511627776). lia. Qed.

(** The walk to an address that a 2MB page maps takes the frame of that page
    for a page table. *)
Lemma walk_2mb_run s cr3 Va e1 e2 e3 :
  mm_ok s (base_of cr3) → translation s cr3 Va = Some [e1; e2; e3] →
  MmpWalkToPte Va cr3 s = Ok (if base_of e3 =? 0 then 0 else base_of e3 + 8 * pte_index Va 12, s).
Proof.
  intros [_ _ [Hpg _]] Ht. set (root := base_of cr3) in *. pose proof (pte_index_ok Va) as Hi.
  unfold translation, va_path in Ht. fold root in Ht. cbn [walk] in Ht.
  destruct (present (qmem s (root + 8 * pte_index Va 39))) eqn:P1; [|done].
  destruct (large (qmem s (root + 8 * pte_index Va 39))) eqn:L1; [done|].
  set (t1 := base_of (qmem s (root + 8 * pte_index Va 39))) in *.
  destruct (present (qmem s (t1 + 8 * pte_index Va 30))) eqn:P2; [|done].
  destruct (large (qmem s (t1 + 8 * pte_index Va 30))) eqn:L2; [done|].
  set (t2 := base_of (qmem s (t1 + 8 * pte_index Va 30))) in *.
  destruct (present (qmem s (t2 + 8 * pte_index Va 21))) eqn:P3; [|done].
  assert (qmem s (t2 + 8 * pte_index Va 21) = e3) as He3.
  { destruct (large (qmem s (t2 + 8 * pte_index Va 21))); [by simplify_eq/=|]. by case_match; simplify_eq/=. }
  assert (t1 ≠ 0 ∧ t2 ≠ 0) as [H1 H2].
  { destruct (Hpg [pte_index Va 39] t1) as (_ & ? & _); [simpl; lia|indices Hi|simpl; by rewrite P1, L1|].
    destruct (Hpg [pte_index Va 39; pte_index Va 30] t2) as (_ & ? & _);
      [simpl; lia|indices Hi|cbn [tbl]; rewrite P1, L1; simpl; fold t1; by rewrite P2, L2|]. lia. }
  unfold MmpWalkToPte. fold (base_of cr3). fold root. cbv zeta.
  rewrite (bind_ok _ _ _ _ _ (next_table_present s root _ P1)). fold t1. replace (t1 =? 0) with false by lia.
  rewrite (bind_ok _ _ _ _ _ (next_table_present s t1 _ P2)). fold t2. replace (t2 =? 0) with false by lia.
  rewrite (bind_ok _ _ _ _ _ (next_table_present s t2 _ P3)), He3. by destruct (base_of e3 =? 0).
Qed.

(** A store outside the page tables changes no translation. *)
Lemma stray_store s cr3 u i v :
  mm_ok s (base_of cr3) → u mod 4096 = 0 → idx_ok i →
  (∀ q, (length q ≤ 3)%nat → Forall idx_ok q → tbl (qmem s) (base_of cr3) q ≠ Some u) →
  ∀ Vb, translation (leaf_set s (u + 8 * i) v) cr3 Vb = translation s cr3 Vb.
Proof.
  intros [_ _ [Hpg _]] Hu Hi Hno Vb. apply walk_same. intros q j r w Heq Hw.
  assert (Hl : length (q ++ j :: r) = 4%nat) by (by rewrite <- Heq). rewrite length_app in Hl. simpl in Hl.
  pose proof (va_path_ok Vb) as Hok. rewrite Heq, Forall_app, Forall_cons in Hok. destruct Hok as (Hq & Hj & _).
  destruct (Hpg q w ltac:(lia) Hq Hw) as (Ha & _). simpl. unfold upd64.
  destruct (Z.eqb_spec (w + 8 * j) (u + 8 * i)) as [He|]; [|done].
  apply slot_ne in He as [-> _]; [|done..]. by destruct (Hno q ltac:(lia) Hq).
Qed.

(** [C19] Mapping a page, at an address no large page covers or a 2MB page covers
    (an address inside a 1GB page is not considered).  Where no large page
    covers the address MmMapPage always returns: on success the page of the
    address, and no other, is translated anew, by the entry made of the physical
    page and the flags (not at all when the flags lack the present bit); out of
    memory, no translation has changed; the page tables stay a tree of pages
    the allocator does not hand out.  The walk does not look at the large-page
    bit: where a 2MB page covers the address, as the boot map does from 0 to
    64GB, MmMapPage fails with STATUS_NO_MEMORY if the page's frame is frame 0,
    and otherwise reports success after storing the entry into the mapped
    page's own first 4KB, as if it were a page table; when that is not one of
    the page tables, no translation has changed at all. *)
Theorem MmMapPage_spec s cr3 Va Pa Flags :
  mm_ok s (base_of cr3) →
  let e := Z.lor (align_down Pa 4096) Flags in
  (not_large s (base_of cr3) (va_path Va) →
   ∃ st s', MmMapPage cr3 Va Pa Flags s = Ok (st, s') ∧ mm_ok s' (base_of cr3) ∧ mm_pcr s' = mm_pcr s ∧
    ((st = STATUS_NO_MEMORY ∧ ∀ Vb, translation s' cr3 Vb = translation s cr3 Vb) ∨
     (st = STATUS_SUCCESS ∧ only_page s s' cr3 Va ∧
      (present e = true → maps_to s' cr3 Va (align_down Pa 4096) Flags) ∧
      (present e = false → translation s' cr3 Va = None)))) ∧
  (∀ e1 e2 e3, translation s cr3 Va = Some [e1; e2; e3] →
   if base_of e3 =? 0 then MmMapPage cr3 Va Pa Flags s = Ok (STATUS_NO_MEMORY, s)
   else
     let s' := leaf_set s (base_of e3 + 8 * pte_index Va 12) e in
     MmMapPage cr3 Va Pa Flags s = Ok (STATUS_SUCCESS, s') ∧
     ((∀ q, (length q ≤ 3)%nat → Forall idx_ok q → tbl (qmem s) (base_of cr3) q ≠ Some (base_of e3)) →
      ∀ Vb, translation s' cr3 Vb = translation s cr3 Vb)).
Proof.
  intros Hok e. split.
  - intros Hn. unfold MmMapPage. fold e.
    destruct (set_pte_run s cr3 Va e (mret STATUS_NO_MEMORY) (mret STATUS_SUCCESS) Hok Hn)
      as (s1 & O1 & P1 & X1 & [[R _]|(s2 & R & O2 & P2 & Ho & _ & es & Hl & Ht)]); rewrite R.
    + exists STATUS_NO_MEMORY, s1. split_and!; [done..|left]. split; [done|]. intros Vb. by apply translation_ext.
    + exists STATUS_SUCCESS, s2. split_and!; [done..|right].
      split_and!; [done|done| |]; intros E; rewrite E in Ht; [|done]. by exists es.
  - intros e1 e2 e3 Ht. pose proof (walk_2mb_run s cr3 Va e1 e2 e3 Hok Ht) as Hw.
    pose proof (base_of_bounds e3) as [Hb0 Hb]. pose proof (pte_index_ok Va 12) as Hi.
    unfold MmMapPage. fold e. rewrite (bind_ok _ _ _ _ _ Hw).
    destruct (Z.eqb_spec (base_of e3) 0) as [E|E]; [done|].
    replace (base_of e3 + 8 * pte_index Va 12 =? 0) with false by (unfold idx_ok in Hi; lia).
    split; [done|]. intros Hno. by apply stray_store.
Qed.

(** ** The demand-zero fault *)

Lemma tbl_same m m' root :
  (∀ q u j, (length q ≤ 3)%nat → Forall idx_ok q → idx_ok j → tbl m root q = Some u → m' (u + 8 * j) = m (u + 8 * j)) →
  ∀ q, (length q ≤ 3)%nat → Forall idx_ok q → tbl m' root q = tbl m root q.
Proof.
  intros Hs. induction q as [|j q IH] using rev_ind; intros Hlq Hq; [done|].
  rewrite length_app in Hlq. simpl in Hlq. apply Forall_app in Hq as [Hq Hj]. rewrite Forall_singleton in Hj.
  rewrite !tbl_app, (IH ltac:(lia) Hq). destruct (tbl m root q) as [u|] eqn:Hu; [|done]. cbn [tbl].
  rewrite (Hs q u j); [done|lia|done..].
Qed.

(** Taking or giving back a page that holds no table. *)
Lemma pages_ext s s' root :
  mm_ok s root → pfn_wf s' → mm_pcr s' = mm_pcr s →
  (∀ q u j, (length q ≤ 3)%nat → Forall idx_ok q → idx_ok j → tbl (qmem s) root q = Some u →
     qmem s' (u + 8 * j) = qmem s (u + 8 * j)) →
  (∀ q u, (length q ≤ 3)%nat → Forall idx_ok q → tbl (qmem s) root q = Some u → page_state (u / 4096) s' ≠ Some PfnFree) →
  mm_ok s' root ∧ ∀ cr3 Va, base_of cr3 = root → translation s' cr3 Va = translation s cr3 Va.
Proof.
  intros [Hp Hc [Hpg Hinj]] Hp' Hpc Hs Hf. pose proof (tbl_same _ _ root Hs) as Ht. split.
  - split; [done|by rewrite Hpc|]. split.
    + intros q u Hlq Hq. rewrite Ht by done. intros Hu. destruct (Hpg q u Hlq Hq Hu) as (? & ? & _). eauto.
    + intros q q' u Hlq Hlq' Hq Hq'. rewrite !Ht by done. by apply Hinj.
  - intros cr3 Va <-. apply walk_same. intros q j r u Heq Hu.
    assert (Hl : length (q ++ j :: r) = 4%nat) by (by rewrite <- Heq). rewrite length_app in Hl. simpl in Hl.
    pose proof (va_path_ok Va) as Hok. rewrite Heq, Forall_app, Forall_cons in Hok. destruct Hok as (Hq & Hj & _).
    apply (Hs q u j); [lia|done..].
Qed.

Lemma alloc_ok s root :
  mm_ok s root →
  ∃ pa s', MmAllocatePhysicalPage s = Ok (pa, s') ∧ mm_ok s' root ∧ mm_pcr s' = mm_pcr s ∧
    (∀ cr3 Va, base_of cr3 = root → translation s' cr3 Va = translation s cr3 Va) ∧
    ((pa = 0 ∧ s' = s) ∨
     (0 < pa ∧ pa mod 4096 = 0 ∧ page_state (pa / 4096) s = Some PfnFree ∧ page_state (pa / 4096) s' = Some PfnActive ∧
      (∀ a, pa ≤ a < pa + 4096 → qmem s' a = 0) ∧
      ∀ q u, (length q ≤ 3)%nat → Forall idx_ok q → tbl (qmem s') root q = Some u → u / 4096 ≠ pa / 4096)).
Proof.
  intros Hok. pose proof Hok as [Hpw Hc Hwf]. rewrite (alloc_page_run s Hpw Hc).
  destruct (scan_free s) as [pfn|] eqn:Hs; [|exists 0, s; naive_solver].
  pose proof Hpw as [Hlen Hh Hf Hhint _ Hlow Hlk].
  destruct (scan_free_Some s pfn Hs) as (Hr & (x & Hx & Hst) & _); [lia|done|].
  assert (Hps : page_state pfn s = Some PfnFree) by (unfold page_state; rewrite Hx; simpl; by rewrite Hst).
  eexists _, _. split; [done|]. match goal with |- mm_ok ?x _ ∧ _ => set (s' := x) end.
  assert (Hst' : ∀ q, 0 ≤ q → page_state q s' = if q =? pfn then Some PfnActive else page_state q s)
    by (intros q Hq; apply (page_state_take pfn s q); [lia|done|by rewrite Hps]).
  assert (Hslots : ∀ q u j, (length q ≤ 3)%nat → Forall idx_ok q → idx_ok j → tbl (qmem s) root q = Some u →
     qmem s' (u + 8 * j) = qmem s (u + 8 * j)).
  { intros q u j Hlq Hq Hj Hu. simpl. unfold zero_page.
    destruct (pt_pages _ _ Hwf q u Hlq Hq Hu) as (Ha & Hb & Hg).
    replace ((pfn * 4096 <=? u + 8 * j) && (u + 8 * j <? pfn * 4096 + PAGE_SIZE)) with false; [done|].
    symmetry. apply not_true_iff_false. intros Hin. apply Hg. rewrite <- Hps. f_equal.
    unfold idx_ok, PAGE_SIZE in *. Z.div_mod_to_equations. lia. }
  destruct (pages_ext s s' root Hok) as [Hok' Htr]; [by apply pfn_wf_set_qmem, take_page_wf|done|done| |].
  - intros q u Hlq Hq Hu. destruct (pt_pages _ _ Hwf q u Hlq Hq Hu) as (Ha & Hb & Hg).
    rewrite Hst' by (Z.div_mod_to_equations; lia). by case_if.
  - split_and!; [done..|]. right. rewrite Z.mod_mul, Z.div_mul, Hst', Z.eqb_refl by lia. split_and!; [lia|done..| |].
    { intros a Hra. simpl. unfold zero_page, PAGE_SIZE.
      by replace ((pfn * 4096 <=? a) && (a <? pfn * 4096 + 4096)) with true by lia. }
    intros q u Hlq Hq. rewrite (tbl_same _ _ root Hslots) by done. intros Hu E.
    destruct (pt_pages _ _ Hwf q u Hlq Hq Hu) as (_ & _ & Hg). by rewrite E in Hg.
Qed.

Lemma pte_index_align Va k : 12 ≤ k → pte_index (PAGE_ALIGN Va) k = pte_index Va k.
Proof.
  intros Hk. unfold pte_index, PAGE_ALIGN, PAGE_SIZE, align_down. rewrite !Z.shiftr_div_pow2 by lia.
  replace (Va - Va mod 4096) with (Va / 4096 * 4096) by (Z.div_mod_to_equations; lia).
  replace k with (12 + (k - 12)) by lia. rewrite Z.pow_add_r by lia. change (2 ^ 12) with 4096.
  rewrite <- !Z.div_div by lia. by rewrite Z.div_mul by lia.
Qed.

Lemma va_path_align Va : va_path (PAGE_ALIGN Va) = va_path Va.
Proof. unfold va_path. by rewrite !pte_index_align by lia. Qed.

(** Without the present bit among the flags an entry for a page is not present. *)
Lemma not_present_flags pa : pa mod 4096 = 0 → present (Z.lor (align_down pa 4096) (Z.lor PTE_USER PTE_WRITE)) = false.
Proof.
  intros Ha. unfold present. change PTE_PRESENT with (2 ^ 0). rewrite has_bits_pow2 by lia.
  rewrite Z.lor_spec. change (Z.testbit (Z.lor PTE_USER PTE_WRITE) 0) with false. rewrite orb_false_r.
  rewrite Z.testbit_eqb by lia. rewrite Z.pow_0_r, Z.div_1_r. unfold align_down. Z.div_mod_to_equations. lia.
Qed.

Lemma free_table_page s root pa :
  mm_ok s root → 0 ≤ pa → page_state (pa / 4096) s = Some PfnActive →
  (∀ q u, (length q ≤ 3)%nat → Forall idx_ok q → tbl (qmem s) root q = Some u → u / 4096 ≠ pa / 4096) →
  ∃ s', MmFreePhysicalPage pa s = Ok (tt, s') ∧ mm_ok s' root ∧ mm_pcr s' = mm_pcr s ∧
    ∀ cr3 Va, base_of cr3 = root → translation s' cr3 Va = translation s cr3 Va.
Proof.
  intros Hok H0 Hst Hno. pose proof Hok as [Hpw Hc Hwf]. rewrite (free_page_run s pa Hpw Hc H0 Hst).
  assert (0 ≤ pa / 4096) by (Z.div_mod_to_equations; lia).
  eexists. split; [done|]. destruct (pages_ext s (give_page (pa / 4096) s) root Hok) as [Hok' Htr];
    [by apply give_page_wf|done|done| |done].
  intros q u Hlq Hq Hu. destruct (pt_pages _ _ Hwf q u Hlq Hq Hu) as (_ & Hr & Hg).
  unfold page_state, give_page. simpl. rewrite list_lookup_alter_ne; [exact Hg|].
  specialize (Hno q u Hlq Hq Hu). Z.div_mod_to_equations. lia.
Qed.

(** The page-fault handler does not resolve the fault.  On a user address it
    reports success after taking a zeroed page and storing an entry for it, but
    the entry lacks the present bit: the faulting address is translated by
    nothing after the call, as before it, so the access faults again, and the
    page stays allocated.  Out of memory it reports STATUS_NO_MEMORY and changes
    no translation; an address outside the user range is refused. *)
Theorem MmAccessFault_spec s cr3 Va err :
  mm_ok s (base_of cr3) → translation s cr3 Va = None →
  ∃ st s', MmAccessFault cr3 Va err s = Ok (st, s') ∧ mm_ok s' (base_of cr3) ∧
    (∀ Vb, translation s' cr3 Vb = translation s cr3 Vb) ∧
    ((st = STATUS_UNSUCCESSFUL ∧ s' = s ∧ ¬ MM_USER_BASE ≤ Va ≤ MM_USER_MAX) ∨ st = STATUS_NO_MEMORY ∨
     (st = STATUS_SUCCESS ∧ MM_USER_BASE ≤ Va ≤ MM_USER_MAX ∧
      ∃ pfn, page_state pfn s = Some PfnFree ∧ page_state pfn s' = Some PfnActive)).
Proof.
  intros Hok Hnone. unfold MmAccessFault.
  destruct ((Va <? MM_USER_BASE) || (MM_USER_MAX <? Va)) eqn:Er.
  { exists STATUS_UNSUCCESSFUL, s. split_and!; [done..|]. left. split_and!; [done|done|lia]. }
  destruct (alloc_ok s _ Hok) as (pa & s1 & R1 & O1 & P1 & T1 & [[-> ->]|(Hpa & Hal & Hf & Ha & _ & Hno)]);
    rewrite (bind_ok _ _ _ _ _ R1).
  { exists STATUS_NO_MEMORY, s. split_and!; [done..|]. by right; left. }
  replace (pa =? 0) with false by lia.
  assert (Hn1 : not_large s1 (base_of cr3) (va_path (PAGE_ALIGN Va))).
  { intros es. rewrite va_path_align. fold (translation s1 cr3 Va). by rewrite T1, Hnone. }
  set (v := Z.lor (align_down pa 4096) (Z.lor PTE_USER PTE_WRITE)).
  destruct (set_pte_run s1 cr3 (PAGE_ALIGN Va) v (mret STATUS_NO_MEMORY) (mret STATUS_SUCCESS) O1 Hn1)
    as (s2 & O2 & P2 & X2 & [[R _]|(s3 & R & O3 & P3 & Ho & Hdb & es & Hl & Ht)]); rewrite (bind_ok _ _ _ _ _ R).
  - change (negb (NT_SUCCESS STATUS_NO_MEMORY)) with true. cbv match.
    destruct (free_table_page s2 _ pa O2) as (s4 & R4 & O4 & _ & T4); [lia| | |].
    + apply (px_active _ _ _ X2); [Z.div_mod_to_equations; lia|done].
    + intros q u Hlq Hq Hu. destruct (px_new _ _ _ X2 q u Hlq Hq Hu) as [Hu1|Hu1]; [by eapply Hno|]. intros E. by rewrite E, Ha in Hu1.
    + exists STATUS_NO_MEMORY, s4. split_and!; [by erewrite bind_ok; [|exact R4]|done| |by right; left].
      intros Vb. rewrite T4 by done. rewrite (translation_ext _ _ _ _ X2). by apply T1.
  - exists STATUS_SUCCESS, s3. split_and!; [done|done| |right; right; split_and!; [done|lia|lia|]].
    + intros Vb. destruct (decide (va_path (PAGE_ALIGN Va) = va_path Vb)) as [E|E]; [|by rewrite Ho, T1].
      unfold translation in *. rewrite va_path_align in *. rewrite <- E, Ht, Hnone. unfold v. by rewrite not_present_flags.
    + exists (pa / 4096). split; [done|]. unfold page_state. rewrite Hdb. fold (page_state (pa / 4096) s2).
      apply (px_active _ _ _ X2); [Z.div_mod_to_equations; lia|done].
Qed.

(** ** The MMIO window *)

Definition WINDOW_TOP := 0xFFFFF80000000000.

Lemma digit_inj a b : a / 512 = b / 512 → a mod 512 = b mod 512 → a = b.
Proof. intros. Z.div_mod_to_equations. lia. Qed.

Lemma same_page_window Va Vb :
  MMIO_FLOOR ≤ Va < WINDOW_TOP → MMIO_FLOOR ≤ Vb < WINDOW_TOP → same_page Va Vb → Va / 4096 = Vb / 4096.
Proof.
  unfold same_page, va_path, pte_index, MMIO_FLOOR, WINDOW_TOP. intros Ha Hb [= H1 H2 H3 H4].
  change 0x1FF with (Z.ones 9) in *. rewrite !Z.land_ones, !Z.shiftr_div_pow2 in * by lia.
  change (2 ^ 9) with 512 in *. change (2 ^ 12) with 4096 in *. change (2 ^ 21) with (4096 * 512) in *.
  change (2 ^ 30) with (4096 * 512 * 512) in *. change (2 ^ 39) with (4096 * 512 * 512 * 512) in *.
  rewrite <- !Z.div_div in * by lia. do 4 (apply digit_inj; [|done]).
  rewrite !Z.div_div by lia. change (4096 * (512 * (512 * (512 * 512)))) with 281474976710656.
  clear H1 H2 H3 H4. Z.div_mod_to_equations. lia.
Qed.

(** The page [j] of a region of the window. *)
Definition page_at (va j : Z) : Z := va + 4096 * j.

Record region (va n : Z) : Prop := {
  rg_low : MMIO_FLOOR ≤ va;
  rg_high : va + 4096 * n ≤ WINDOW_TOP;
  rg_align : va mod 4096 = 0;
  rg_count : 0 ≤ n ≤ 1048576
}.

Lemma page_at_ne va n i j :
  region va n → 0 ≤ i < n → 0 ≤ j < n → i ≠ j → ¬ same_page (page_at va i) (page_at va j).
Proof.
  intros [Hl Hh Ha Hn] Hi Hj Hne Hs. apply same_page_window in Hs; unfold page_at in *; [|lia..].
  Z.div_mod_to_equations. lia.
Qed.

Lemma page_at_u64 va n j : region va n → 0 ≤ j < n → u64 (va + u32 (j * PAGE_SIZE)) = page_at va j.
Proof.
  intros [Hl Hh Ha Hn] Hj. unfold page_at, PAGE_SIZE, MMIO_FLOOR, WINDOW_TOP in *.
  rewrite u32_small, u64_small; lia.
Qed.

Lemma unmapped_not_large s cr3 Va : translation s cr3 Va = None → not_large s (base_of cr3) (va_path Va).
Proof. unfold translation. intros H es He. congruence. Qed.

(** What one of the two loops did to the pages from [i] up to [stop]. *)
Definition pages_only (s s' : PFN_STATE) (cr3 va i stop : Z) : Prop :=
  ∀ Vb, (∀ j, i ≤ j < stop → ¬ same_page (page_at va j) Vb) → translation s' cr3 Vb = translation s cr3 Vb.

Lemma uc_entry_present pa : present (Z.lor pa UC_FLAGS) = true.
Proof.
  unfold present. change PTE_PRESENT with (2 ^ 0). rewrite has_bits_pow2 by lia.
  rewrite Z.lor_spec. change (Z.testbit UC_FLAGS 0) with true. apply orb_true_r.
Qed.

Lemma map_ptes_run cr3 va total pa n : ∀ s i,
  region va total → pa mod 4096 = 0 → 0 ≤ pa → pa + 4096 * total ≤ 4503599627370496 →
  mm_ok s (base_of cr3) → 0 ≤ i → i + Z.of_nat n = total →
  (∀ j, i ≤ j < total → translation s cr3 (page_at va j) = None) →
  ∃ r s', map_ptes cr3 va pa i n s = Ok (r, s') ∧ mm_ok s' (base_of cr3) ∧ mm_pcr s' = mm_pcr s ∧
    let stop := match r with Some f => f | None => total end in
    i ≤ stop ≤ total ∧ (r ≠ None → stop < total) ∧ pages_only s s' cr3 va i stop ∧
    ∀ j, i ≤ j < stop → maps_to s' cr3 (page_at va j) (page_at pa j) UC_FLAGS.
Proof.
  induction n as [|n IH]; intros s i Hr Hpa H0 Hmax Hok Hi Hn Hfree; cbn [map_ptes].
  - exists None, s. do 3 (split; [done|]). cbv zeta match. split_and!; [lia|lia|done|done|lia].
  - pose proof (Hfree i ltac:(lia)) as Hf. rewrite (page_at_u64 va total i Hr ltac:(lia)).
    assert (Hv : align_down (u64 (pa + u32 (i * PAGE_SIZE))) 4096 = page_at pa i).
    { destruct Hr. unfold page_at, PAGE_SIZE, align_down. rewrite u32_small, u64_small by lia.
      Z.div_mod_to_equations. lia. }
    rewrite Hv.
    destruct (set_pte_run s cr3 (page_at va i) (Z.lor (page_at pa i) UC_FLAGS) (mret (Some i))
      (map_ptes cr3 va pa (i + 1) n) Hok (unmapped_not_large _ _ _ Hf))
      as (s1 & O1 & P1 & X1 & [[R _]|(s2 & R & O2 & P2 & Ho & _ & es & Hl & Ht)]); rewrite R.
    + exists (Some i), s1. do 3 (split; [done|]). cbv zeta match. split_and!; [lia|lia|intros _; lia| |lia].
      intros Vb _. by apply translation_ext.
    + destruct (IH s2 (i + 1) Hr Hpa H0 Hmax O2 ltac:(lia) ltac:(lia)) as (r & s3 & R3 & O3 & P3 & Hs & Hlt & Hp & Hm).
      { intros j Hj. rewrite Ho; [apply Hfree; lia|]. apply (page_at_ne va total i j Hr); lia. }
      exists r, s3. do 2 (split; [done|]). split; [congruence|]. cbv zeta in *. split_and!; [lia|lia|done| |].
      * intros Vb Hb. rewrite Hp by (intros j Hj; apply Hb; lia). apply Ho, Hb. lia.
      * intros j Hj. destruct (decide (j = i)) as [->|]; [|apply Hm; lia]. exists es. split; [|done].
        rewrite Hp.
        -- rewrite Ht, uc_entry_present. done.
        -- intros k Hk Hsame. apply (page_at_ne va total k i Hr ltac:(lia) ltac:(lia) ltac:(lia) Hsame).
Qed.

Lemma clear_ptes_run cr3 va total n : ∀ s i,
  region va total → mm_ok s (base_of cr3) → 0 ≤ i → i + Z.of_nat n ≤ total →
  (∀ j, i ≤ j < i + Z.of_nat n → not_large s (base_of cr3) (va_path (page_at va j))) →
  ∃ s', clear_ptes cr3 va i n s = Ok (tt, s') ∧ mm_ok s' (base_of cr3) ∧ mm_pcr s' = mm_pcr s ∧
    pages_only s s' cr3 va i (i + Z.of_nat n) ∧
    ∀ j, i ≤ j < i + Z.of_nat n → translation s' cr3 (page_at va j) = None.
Proof.
  induction n as [|n IH]; intros s i Hr Hok Hi Hn Hlg; cbn [clear_ptes].
  - exists s. split_and!; [done..|lia].
  - rewrite (page_at_u64 va total i Hr ltac:(lia)).
    replace ((pte ← MmpWalkToPte (page_at va i) cr3; mwhen (truthy pte) (wr64 pte 0);; clear_ptes cr3 va (i + 1) n) s)
      with ((pte ← MmpWalkToPte (page_at va i) cr3;
             if pte =? 0 then clear_ptes cr3 va (i + 1) n else wr64 pte 0;; clear_ptes cr3 va (i + 1) n) s)
      by (unfold mbind, M_bind; destruct (MmpWalkToPte _ _ s) as [[pte ?]|?????| | |]; try done; unfold mwhen, truthy; by case_if).
    destruct (set_pte_run s cr3 (page_at va i) 0 (clear_ptes cr3 va (i + 1) n)
      (clear_ptes cr3 va (i + 1) n) Hok (Hlg i ltac:(lia))) as (s1 & O1 & P1 & X1 & Hcase).
    assert (∃ s2, mm_ok s2 (base_of cr3) ∧ mm_pcr s2 = mm_pcr s ∧ only_page s s2 cr3 (page_at va i) ∧
      translation s2 cr3 (page_at va i) = None ∧
      (pte ← MmpWalkToPte (page_at va i) cr3;
       if pte =? 0 then clear_ptes cr3 va (i + 1) n else wr64 pte 0;; clear_ptes cr3 va (i + 1) n) s =
      clear_ptes cr3 va (i + 1) n s2) as (s2 & O2 & P2 & Ho & Ht & ->).
    { destruct Hcase as [[R Hn0]|(s2 & R & O2 & P2 & Ho & _ & es & _ & Ht)]; [exists s1|exists s2]; rewrite R.
      - split_and!; [done|done| | |done]; [intros Vb _; by apply translation_ext|]. by rewrite (translation_ext _ _ _ _ X1).
      - done. }
    destruct (IH s2 (i + 1) Hr O2 ltac:(lia) ltac:(lia)) as (s3 & R3 & O3 & P3 & Hp & Hz).
    { intros j Hj. assert (Hne : ¬ same_page (page_at va i) (page_at va j)) by (apply (page_at_ne va total i j Hr); lia).
      intros es. pose proof (Ho _ Hne) as He. unfold translation in He. rewrite He. apply Hlg. lia. }
    exists s3. split_and!; [done|done|congruence| |].
    + intros Vb Hb. rewrite Hp by (intros j Hj; apply Hb; lia). apply Ho, Hb. lia.
    + intros j Hj. destruct (decide (j = i)) as [->|]; [|apply Hz; lia]. rewrite Hp; [done|].
      intros k Hk Hsame. apply (page_at_ne va total k i Hr ltac:(lia) ltac:(lia) ltac:(lia) Hsame).
Qed.

(** The window's invariant: the pages below the cursor are not mapped, and the
    active mappings lie above it. *)
Record io_wf (s : IO_STATE) (cr3 : Z) : Prop := {
  io_mm : mm_ok (io_pfn s) (base_of cr3);
  io_lock : MmIoLock s = 0;
  io_len : length (MmIoMappingTable s) = 128%nat;
  io_count : 0 ≤ MmIoMappingCount s ≤ 128;
  io_cursor : MMIO_FLOOR ≤ MmIoVaCursor s ≤ WINDOW_TOP ∧ MmIoVaCursor s mod 4096 = 0;
  io_free Va : MMIO_FLOOR ≤ Va < MmIoVaCursor s → translation (io_pfn s) cr3 Va = None;
  io_used i x : Z.of_nat i < MmIoMappingCount s → MmIoMappingTable s !! i = Some x → Active x ≠ 0 →
    MmIoVaCursor s ≤ VirtualAddress x
}.

Lemma mm_ok_pcr s root k : mm_ok s root → can_lock k → mm_ok (set_mm_pcr k s) root.
Proof. intros [Hp _ [Hpg Hinj]] Hk. split; [by apply pfn_wf_set_pcr|done|]. by split. Qed.

Lemma on_pfn_run {A} (m : M PFN_STATE A) s a p :
  m (io_pfn s) = Ok (a, p) → on_pfn m s = Ok (a, set_io_pfn p s).
Proof. apply zoom_ok. Qed.

(** The number of pages, as MmMapIoSpace computes it for an aligned address. *)
Lemma io_pages Pa Length :
  Pa mod 4096 = 0 → 0 ≤ Pa → 0 < Length ≤ 4294963200 → Pa + Length ≤ 4503599627366400 →
  let n := (Length + 4095) / 4096 in
  align_down Pa PAGE_SIZE = Pa ∧ 0 < n ≤ 1048575 ∧
  u32 (Z.shiftr (u64 (align_down (u64 (Pa + Length + PAGE_SIZE - 1)) PAGE_SIZE - Pa)) PAGE_SHIFT) = n ∧
  Pa + 4096 * n ≤ 4503599627370496.
Proof.
  intros Ha H0 HL Hm n. rewrite shiftr_page. unfold align_down, PAGE_SIZE.
  assert (Hn : 4096 * n = Pa + Length + 4095 - (Pa + Length + 4095) mod 4096 - Pa).
  { subst n. Z.div_mod_to_equations. lia. }
  assert (Hr : 0 < n ≤ 1048575) by (subst n; Z.div_mod_to_equations; lia).
  assert (Hb : 0 ≤ (Pa + Length + 4095) mod 4096 < 4096) by (apply Z.mod_pos_bound; lia).
  split_and!; [lia|lia|lia| |lia].
  replace (Pa + Length + 4096 - 1) with (Pa + Length + 4095) by lia.
  rewrite (u64_small (Pa + Length + 4095)) by lia. rewrite <- Hn, u64_small by lia.
  replace (4096 * n / 4096) with n by (Z.div_mod_to_equations; lia). by rewrite u32_small by lia.
Qed.

(** The state in which the mapping loop runs. *)
Definition reserved (s : IO_STATE) (va Pa Length : Z) : IO_STATE :=
  set_io (<[Z.to_nat (MmIoMappingCount s) := mkIoMap va Length Pa 1 1]> (MmIoMappingTable s))
    (u32 (MmIoMappingCount s + 1)) va (locked IoLock s).

(** Pages that were not mapped, were mapped and are cleared again: nothing has
    changed. *)
Lemma restored s p p' cr3 va i :
  (∀ j, 0 ≤ j < i → translation s cr3 (page_at va j) = None) →
  pages_only s p cr3 va 0 i → pages_only p p' cr3 va 0 i →
  (∀ j, 0 ≤ j < i → translation p' cr3 (page_at va j) = None) →
  ∀ Vb, translation p' cr3 Vb = translation s cr3 Vb.
Proof.
  intros Hnone Honly Hp Hz Vb.
  destruct (decide (Exists (λ j, va_path (page_at va j) = va_path Vb) (seqZ 0 i))) as [(j & Hj & E)%Exists_exists|Hno].
  - apply elem_of_seqZ in Hj. assert (He : ∀ q : PFN_STATE, translation q cr3 Vb = translation q cr3 (page_at va j))
      by (intros q; unfold translation; by rewrite E).
    rewrite !He, Hnone, Hz by lia. done.
  - assert (Hout : ∀ j, 0 ≤ j < i → ¬ same_page (page_at va j) Vb).
    { intros j Hj E. apply Hno, Exists_exists. exists j. split; [apply elem_of_seqZ; lia|done]. }
    rewrite Hp by done. by apply Honly.
Qed.

(** The roll-back leaves every translation as it was before the call. *)
Lemma rollback_run s p cr3 va n i :
  region va n → mm_ok p (base_of cr3) → 0 ≤ i ≤ n → (∀ j, 0 ≤ j < n → translation s cr3 (page_at va j) = None) →
  pages_only s p cr3 va 0 i → (∀ j, 0 ≤ j < i → not_large p (base_of cr3) (va_path (page_at va j))) →
  ∃ p', MmpRollbackMapping cr3 va i p = Ok (tt, p') ∧ mm_ok p' (base_of cr3) ∧ mm_pcr p' = mm_pcr p ∧
    ∀ Vb, translation p' cr3 Vb = translation s cr3 Vb.
Proof.
  intros Hr Hok Hi Hnone Honly Hlg. unfold MmpRollbackMapping.
  destruct (clear_ptes_run cr3 va n (Z.to_nat i) p 0 Hr Hok) as (p' & R & O & P & Hp & Hz); [lia|lia| |].
  { intros j Hj. apply Hlg. lia. }
  rewrite Z2Nat.id in Hp, Hz by lia. exists p'. split_and!; [done..|].
  apply (restored s p p' cr3 va i); [|done..]. intros j Hj. apply Hnone. lia.
Qed.

Lemma maps_not_large s cr3 Va pa fl : maps_to s cr3 Va pa fl → not_large s (base_of cr3) (va_path Va).
Proof.
  intros (es & Ht & Hl) es'. unfold translation in Ht. rewrite Ht. intros [= <-].
  rewrite length_app. simpl. lia.
Qed.

(** Closing the section restores the processor and the lock. *)
Lemma io_release {A} s t n c p (a : A) :
  can_lock (mm_pcr (io_pfn s)) → mm_pcr p = locked_pcr →
  (KeReleaseSpinLock IoLock (Irql (mm_pcr (io_pfn s)));; mret a) (set_io t n c (set_io_pfn p (locked IoLock s))) =
  Ok (a, mkIo (set_mm_pcr (mm_pcr (io_pfn s)) p) t n c 0).
Proof.
  intros Hc Hp. erewrite bind_ok; [|apply (release_to IoLock s); done]. done.
Qed.

Lemma map_io_run s cr3 Pa Length :
  io_wf s cr3 → Pa mod 4096 = 0 → 0 ≤ Pa → 0 < Length ≤ 4294963200 → Pa + Length ≤ 4503599627366400 →
  let n := (Length + 4095) / 4096 in
  let va := MmIoVaCursor s - 4096 * n in
  ∃ r s', MmMapIoSpace cr3 Pa Length s = Ok (r, s') ∧ io_wf s' cr3 ∧ mm_pcr (io_pfn s') = mm_pcr (io_pfn s) ∧
    ((r = 0 ∧ ∀ Vb, translation (io_pfn s') cr3 Vb = translation (io_pfn s) cr3 Vb) ∨
     (r = va ∧ MMIO_FLOOR ≤ va ∧ MmIoVaCursor s' = va ∧ pages_only (io_pfn s) (io_pfn s') cr3 va 0 n ∧
      (∀ j, 0 ≤ j < n → maps_to (io_pfn s') cr3 (page_at va j) (page_at Pa j) UC_FLAGS) ∧
      MmIoMappingCount s' = MmIoMappingCount s + 1 ∧
      MmIoMappingTable s' !! Z.to_nat (MmIoMappingCount s) = Some (mkIoMap va Length Pa 1 1) ∧
      ∀ i, i ≠ Z.to_nat (MmIoMappingCount s) → MmIoMappingTable s' !! i = MmIoMappingTable s !! i)).
Proof.
  intros Hwf Ha H0 HL Hm n va. pose proof Hwf as [Hmm Hlk Hlen Hcnt [Hcur Hcal] Hfree Hused].
  destruct (io_pages Pa Length Ha H0 HL Hm) as (Epa & Hn & En & Hpn). fold n in Hn, En, Hpn.
  pose proof (mo_pcr _ _ Hmm) as Hc.
  unfold MmMapIoSpace. replace (Length =? 0) with false by lia. rewrite acquire_bind by done.
  unfold mbind at 1, M_bind at 1. cbn [mgets]. change (MmIoMappingCount (locked IoLock s)) with (MmIoMappingCount s).
  unfold MMIO_MAPPING_MAX. destruct (Z.leb_spec 128 (MmIoMappingCount s)) as [Hfull|Hroom].
  { exists 0, s. split_and!; [etrans; [by apply (release_same IoLock s)|done]|done|done|by left]. }
  cbv zeta. unfold mbind at 1, M_bind at 1. cbn [mgets]. change (MmIoVaCursor (locked IoLock s)) with (MmIoVaCursor s).
  rewrite Epa, En. assert (Eva : u64 (align_down (MmIoVaCursor s) PAGE_SIZE - u32 (n * PAGE_SIZE)) = va).
  { unfold align_down, PAGE_SIZE, MMIO_FLOOR, WINDOW_TOP in *. rewrite Hcal, u32_small, u64_small; lia. }
  rewrite Eva. destruct (Z.ltb_spec va MMIO_FLOOR) as [Hlow|Hva].
  { exists 0, s. split_and!; [|done|done|by left]. erewrite bind_ok; [|reflexivity].
    etrans; [apply (io_release s _ _ _ (set_mm_pcr locked_pcr (io_pfn s))); done|].
    unfold align_down, PAGE_SIZE. rewrite Hcal, Z.sub_0_r, <- Hlk. by destruct s as [[]]. }
  assert (Hr : region va n).
  { unfold WINDOW_TOP in *. constructor; [lia|unfold WINDOW_TOP; lia| |lia]. subst va. Z.div_mod_to_equations. lia. }
  assert (Hnone : ∀ j, 0 ≤ j < n → translation (io_pfn s) cr3 (page_at va j) = None).
  { intros j Hj. apply Hfree. unfold page_at. lia. }
  erewrite bind_ok; [|reflexivity]. fold (reserved s va Pa Length).
  destruct (map_ptes_run cr3 va n Pa (Z.to_nat n) (set_mm_pcr locked_pcr (io_pfn s)) 0 Hr Ha H0 Hpn
    (mm_ok_pcr _ _ _ Hmm locked_can_lock) ltac:(lia) ltac:(lia) Hnone) as (f & p & R & O & P & Hstop & Hlt & Honly & Hmaps).
  cbv zeta in Hstop, Hlt, Honly, Hmaps.
  rewrite (bind_ok _ _ _ f (set_io_pfn p (reserved s va Pa Length))) by (by apply on_pfn_run).
  set (tab := <[Z.to_nat (MmIoMappingCount s) := mkIoMap va Length Pa 1 1]> (MmIoMappingTable s)).
  assert (Hn32 : u32 (MmIoMappingCount s + 1) = MmIoMappingCount s + 1) by (apply u32_small; lia).
  destruct f as [i|]; cbv match in *.
  - destruct (rollback_run (io_pfn s) p cr3 va n i Hr O ltac:(lia) Hnone Honly) as (p' & R' & O' & P' & T').
    { intros j Hj. by eapply maps_not_large, Hmaps. }
    erewrite bind_ok; [|apply on_pfn_run; exact R']. erewrite bind_ok; [|reflexivity].
    eexists 0, _. split; [apply (io_release s _ _ _ p'); [done|by rewrite P']|]. split_and!; [|done|by left].
    constructor; simpl.
    + by apply mm_ok_pcr.
    + done.
    + unfold tab. by rewrite length_alter, length_insert.
    + rewrite Hn32, u32_small; lia.
    + split; [unfold WINDOW_TOP in *; lia|apply Hr].
    + intros Vb Hb. change (translation p' cr3 Vb = None). rewrite T'. apply Hfree. lia.
    + intros k x Hk Hx Hact. rewrite Hn32, u32_small in Hk by lia. fold tab in Hx.
      rewrite list_lookup_alter_ne in Hx by lia. unfold tab in Hx. rewrite list_lookup_insert_ne in Hx by lia.
      specialize (Hused k x ltac:(lia) Hx Hact). lia.
  - eexists va, _. split; [apply (io_release s _ _ _ p); done|]. split_and!; [|done|right].
    + constructor; simpl.
      * by apply mm_ok_pcr.
      * done.
      * unfold tab. by rewrite length_insert.
      * rewrite Hn32. lia.
      * split; [unfold WINDOW_TOP in *; lia|apply Hr].
      * intros Vb Hb. change (translation p cr3 Vb = None). rewrite Honly; [apply Hfree; lia|].
        intros j Hj Hs. apply same_page_window in Hs; [|unfold page_at, WINDOW_TOP in *; lia..].
        destruct Hr as [_ _ Hal _]. unfold page_at in *. Z.div_mod_to_equations. lia.
      * intros k x Hk Hx Hact. destruct (decide (k = Z.to_nat (MmIoMappingCount s))) as [->|Hne].
        -- unfold tab in Hx. rewrite list_lookup_insert_eq in Hx by lia. by simplify_eq/=.
        -- unfold tab in Hx. rewrite list_lookup_insert_ne in Hx by done.
           rewrite Hn32 in Hk. specialize (Hused k x ltac:(lia) Hx Hact). lia.
    + simpl. split_and!; [done|done|done|exact Honly|exact Hmaps|done| |].
      * unfold tab. apply list_lookup_insert_eq. lia.
      * intros i Hi. unfold tab. by rewrite list_lookup_insert_ne.
Qed.

(** Giving up the only reference to a mapping clears its pages. *)
Lemma unmap_io_run s cr3 i va Length Pa :
  io_wf s cr3 → 0 < Length ≤ 4294963200 → va ≠ 0 → let n := (Length + 4095) / 4096 in region va n →
  Z.of_nat i < MmIoMappingCount s → MmIoMappingTable s !! i = Some (mkIoMap va Length Pa 1 1) →
  (∀ k x, (k < i)%nat → MmIoMappingTable s !! k = Some x → Active x ≠ 0 → VirtualAddress x ≠ va) →
  (∀ j, 0 ≤ j < n → not_large (io_pfn s) (base_of cr3) (va_path (page_at va j))) →
  ∃ s', MmUnmapIoSpace cr3 va s = Ok (tt, s') ∧ io_wf s' cr3 ∧ mm_pcr (io_pfn s') = mm_pcr (io_pfn s) ∧
    pages_only (io_pfn s) (io_pfn s') cr3 va 0 n ∧
    ∀ j, 0 ≤ j < n → translation (io_pfn s') cr3 (page_at va j) = None.
Proof.
  intros Hwf HL Hva n Hr Hi Hx Hfirst Hlg. pose proof Hwf as [Hmm Hlk Hlen Hcnt [Hcur Hcal] Hfree Hused].
  pose proof (mo_pcr _ _ Hmm) as Hc. unfold MmUnmapIoSpace. replace (va =? 0) with false by lia.
  rewrite acquire_bind by done. unfold mbind at 1, M_bind at 1. cbn [mget].
  change (MmIoMappingTable (locked IoLock s)) with (MmIoMappingTable s).
  change (MmIoMappingCount (locked IoLock s)) with (MmIoMappingCount s).
  rewrite (proj2 (first_idx_Some _ _ i)).
  2:{ split.
      - eexists. rewrite lookup_take_Some. split; [split; [exact Hx|lia]|]. simpl. by rewrite Z.eqb_refl.
      - intros k x Hk [Hkx _]%lookup_take_Some. unfold truthy.
        destruct (Z.eqb_spec (Active x) 0) as [|Hact]; [done|]. simpl. specialize (Hfirst k x Hk Hkx Hact). lia. }
  rewrite Hx. cbn [ReferenceCount VirtualAddress IoLength]. erewrite bind_ok; [|reflexivity].
  change (0 <? u32 (1 - 1)) with false. cbv match.
  replace (Z.to_nat (u32 (Z.shiftr (u64 (Length + PAGE_SIZE - 1)) PAGE_SHIFT))) with (Z.to_nat n).
  2:{ rewrite shiftr_page. unfold PAGE_SIZE. rewrite u64_small by lia.
      replace (Length + 4096 - 1) with (Length + 4095) by lia. destruct Hr as [_ _ _ ?]. rewrite u32_small by (fold n; lia). done. }
  destruct (clear_ptes_run cr3 va n (Z.to_nat n) (set_mm_pcr locked_pcr (io_pfn s)) 0 Hr
    (mm_ok_pcr _ _ _ Hmm locked_can_lock)) as (p & R & O & P & Hp & Hz); [lia|destruct Hr; lia|intros j Hj; apply Hlg; lia|].
  assert (Hn0 : 0 + Z.of_nat (Z.to_nat n) = n) by (destruct Hr; lia). rewrite Hn0 in Hp, Hz.
  erewrite bind_ok; [|apply on_pfn_run; exact R]. erewrite bind_ok; [|reflexivity].
  eexists. split.
  { etrans; [apply (release_to IoLock s); done|reflexivity]. }
  split_and!; [|done|exact Hp|exact Hz]. constructor; simpl; try done.
  - by apply mm_ok_pcr.
  - by rewrite !length_insert.
  - intros Vb Hb. change (translation p cr3 Vb = None). rewrite Hp; [by apply Hfree|]. intros j Hj Hs.
    specialize (Hused i _ ltac:(lia) Hx ltac:(done)). simpl in Hused.
    apply same_page_window in Hs; [|destruct Hr; unfold page_at, WINDOW_TOP in *; lia..].
    destruct Hr as [_ _ Hal _]. unfold page_at in *. Z.div_mod_to_equations. lia.
  - intros k x Hk Hkx Hact. destruct (decide (k = i)) as [->|Hne].
    + rewrite list_lookup_insert_eq in Hkx by (rewrite length_insert; eauto using lookup_lt_Some). by simplify_eq/=.
    + rewrite !list_lookup_insert_ne in Hkx by done. eauto.
Qed.

(** [C20] Device mappings.  For a page-aligned physical address MmMapIoSpace
    always returns.  It fails with 0 and every translation as before (the table
    is full, the window exhausted, or no memory for page tables: the partial
    mapping is rolled back); or it returns the address of a fresh region, just
    below the last one, whose every page is translated to the corresponding
    physical page, uncached, while every other page is translated as before.
    Unmapping that address then restores every translation. *)
Theorem MmMapIoSpace_spec s cr3 Pa Length :
  io_wf s cr3 → Pa mod 4096 = 0 → 0 ≤ Pa → 0 < Length ≤ 4294963200 → Pa + Length ≤ 4503599627366400 →
  let n := (Length + 4095) / 4096 in
  ∃ va s', MmMapIoSpace cr3 Pa Length s = Ok (va, s') ∧ io_wf s' cr3 ∧
    ((va = 0 ∧ ∀ Vb, translation (io_pfn s') cr3 Vb = translation (io_pfn s) cr3 Vb) ∨
     (va + 4096 * n = MmIoVaCursor s ∧ MMIO_FLOOR ≤ va ∧ pages_only (io_pfn s) (io_pfn s') cr3 va 0 n ∧
      (∀ j, 0 ≤ j < n → maps_to (io_pfn s') cr3 (page_at va j) (page_at Pa j) UC_FLAGS) ∧
      ∃ s'', MmUnmapIoSpace cr3 va s' = Ok (tt, s'') ∧ io_wf s'' cr3 ∧
        ∀ Vb, translation (io_pfn s'') cr3 Vb = translation (io_pfn s) cr3 Vb)).
Proof.
  intros Hwf Ha H0 HL Hm n. destruct (map_io_run s cr3 Pa Length Hwf Ha H0 HL Hm) as (r & s' & R & Hwf' & Hpc & Hcase).
  exists r, s'. split_and!; [done..|]. cbv zeta in Hcase. fold n in Hcase. set (va := MmIoVaCursor s - 4096 * n) in *.
  destruct Hcase as [?|(-> & Hlow & Hcur & Honly & Hmaps & Hcnt & Hent & Hold)]; [by left|right].
  destruct (io_pages Pa Length Ha H0 HL Hm) as (_ & Hn & _ & _). fold n in Hn.
  pose proof (io_count _ _ Hwf) as Hc0. destruct (io_cursor _ _ Hwf) as [Hc1 Hc2].
  assert (Hr : region va n).
  { constructor; [lia|unfold WINDOW_TOP in *; lia| |lia]. subst va. Z.div_mod_to_equations. lia. }
  split_and!; [lia|done..|].
  destruct (unmap_io_run s' cr3 (Z.to_nat (MmIoMappingCount s)) va Length Pa Hwf' HL ltac:(unfold MMIO_FLOOR in *; lia) Hr
    ltac:(lia) Hent) as (s'' & R'' & Hwf'' & _ & Hp & Hz).
  - intros k x Hk. rewrite Hold by lia. intros Hx Hact.
    pose proof (io_used _ _ Hwf k x ltac:(lia) Hx Hact). lia.
  - intros j Hj. by eapply maps_not_large, Hmaps.
  - exists s''. split_and!; [done..|]. apply (restored _ (io_pfn s') _ cr3 va n); [|done..].
    intros j Hj. apply (io_free _ _ Hwf). unfold page_at. lia.
Qed.

(** ** Concrete runs *)

(** An empty root table in page 256, and five free pages after it. *)
Definition demo_mm : PFN_STATE :=
  mkPfnState demo_pcr
    (replicate 256 (mkPfn PfnReservedHw 0 0) ++ mkPfn PfnActive 0 1 :: replicate 5 (mkPfn PfnFree 0 0))
    262 6 5 257 0 (mkContig 0x10000000 0 0) (λ _, 0).
Definition demo_cr3 := 0x100000.

Lemma demo_mm_lookup i p : MmPfnDatabase demo_mm !! i = Some p →
  (State p = PfnReservedHw ∧ Z.of_nat i < 256) ∨ (State p = PfnActive ∧ Z.of_nat i = 256) ∨ 257 ≤ Z.of_nat i.
Proof.
  unfold demo_mm. cbn [MmPfnDatabase]. intros H. destruct (decide (i < 256)%nat).
  - rewrite lookup_app_l in H by (rewrite length_replicate; lia). apply lookup_replicate in H as [-> _]. left. split; [done|lia].
  - rewrite lookup_app_r, length_replicate in H by (rewrite length_replicate; lia).
    destruct (i - 256)%nat as [|k] eqn:E; simplify_eq/=; [right; left|right; right]; [split; [done|lia]|lia].
Qed.

Lemma demo_mm_ok : mm_ok demo_mm (base_of demo_cr3).
Proof.
  assert (Htop : ∀ p u, tbl (qmem demo_mm) (base_of demo_cr3) p = Some u → p = [] ∧ u = 0x100000)
    by (intros [|i p] u Hu; [by injection Hu as <-|done]).
  split.
  - constructor; try done.
    + intros i p Hp Hs _. destruct (demo_mm_lookup i p Hp) as [[? ?]|[[? ?]|?]]; [congruence|congruence|done].
    + intros i p Hp Hs. destruct (demo_mm_lookup i p Hp) as [[? ?]|[[? ?]|?]]; [congruence|lia|lia].
  - done.
  - split.
    + intros p u _ _ [-> ->]%Htop. split_and!; [done|lia|lia|]. by vm_compute.
    + intros p q u _ _ _ _ [-> _]%Htop [-> _]%Htop. done.
Qed.

Definition demo_io : IO_STATE := mkIo demo_mm (replicate 128 (mkIoMap 0 0 0 0 0)) 0 WINDOW_TOP 0.

Lemma demo_io_wf : io_wf demo_io demo_cr3.
Proof.
  constructor; try done.
  - apply demo_mm_ok.
  - simpl. intros i x Hi. lia.
Qed.

Lemma MmMapPage_spec_witness :
  ∃ s', MmMapPage demo_cr3 0x400000 0x5000 3 demo_mm = Ok (STATUS_SUCCESS, s') ∧
    maps_to s' demo_cr3 0x400000 0x5000 3.
Proof.
  destruct (MmMapPage_spec demo_mm demo_cr3 0x400000 0x5000 3 demo_mm_ok) as [Hmap _].
  destruct Hmap as (st & s' & R & _ & _ & Hc).
  - intros es H. discriminate H.
  - assert (Hb : match MmMapPage demo_cr3 0x400000 0x5000 3 demo_mm with Ok (st, _) => st = STATUS_SUCCESS | _ => False end)
      by (vm_compute; reflexivity).
    rewrite R in Hb. exists s'. split; [by rewrite R, Hb|].
    destruct Hc as [[E _]|(_ & _ & Hm & _)]; [rewrite E in Hb; discriminate Hb|]. apply Hm. reflexivity.
Defined.

Lemma MmAccessFault_spec_witness :
  ∃ s', MmAccessFault demo_cr3 0x400123 6 demo_mm = Ok (STATUS_SUCCESS, s') ∧
    translation s' demo_cr3 0x400123 = None ∧ MmFreePages s' = 1.
Proof.
  destruct (MmAccessFault_spec demo_mm demo_cr3 0x400123 6 demo_mm_ok ltac:(reflexivity)) as (st & s' & R & _ & Ht & _).
  assert (Hb : match MmAccessFault demo_cr3 0x400123 6 demo_mm with
    Ok (st, s') => st = STATUS_SUCCESS ∧ MmFreePages s' = 1 | _ => False end) by (vm_compute; split; reflexivity).
  rewrite R in Hb. destruct Hb as [Hb Hf]. exists s'. split_and!; [by rewrite R, Hb|by rewrite Ht|exact Hf].
Defined.

Lemma MmMapIoSpace_spec_witness :
  ∃ s', MmMapIoSpace demo_cr3 0xFEE00000 4096 demo_io = Ok (0xFFFFF7FFFFFFF000, s') ∧
    maps_to (io_pfn s') demo_cr3 0xFFFFF7FFFFFFF000 0xFEE00000 UC_FLAGS.
Proof.
  destruct (MmMapIoSpace_spec demo_io demo_cr3 0xFEE00000 4096 demo_io_wf) as (va & s' & R & _ & Hc); [reflexivity|lia..|].
  assert (Hb : match MmMapIoSpace demo_cr3 0xFEE00000 4096 demo_io with Ok (va, _) => va = 0xFFFFF7FFFFFFF000 | _ => False end)
    by (vm_compute; reflexivity).
  rewrite R in Hb. cbv beta match in Hb. exists s'. split; [by rewrite R, Hb|].
  destruct Hc as [[E _]|(_ & _ & _ & Hm & _)]; [lia|].
  rewrite Hb in Hm. apply (Hm 0). vm_compute. split; [discriminate|reflexivity].
Defined.
