(* ===== verification/Pool.v ===== *)
(** * Ex: the nonpaged pool (src/ex/pool.c)

    A first-fit free list of blocks with headers, over pages pulled from the
    physical page allocator.  Headers live in the memory of [PFN_STATE], one
    cell per field, so zeroing a page or a body writes the same memory the
    headers are read from.  The class [PoolInterface] at the end is what the
    other components of the executive are given of this file. *)

From S2P Require Import Prelude Irql MmPfn.

#[local] Open Scope Z_scope.

Definition POOL_MAGIC_USED := 0x4E504F4F.
Definition POOL_MAGIC_FREE := 0x45455246.
Definition POOL_GRANULARITY := 16.
Definition POOL_EXPAND_PAGES := 16.

(** sizeof(POOL_HEADER): ULONG Magic, ULONG Tag, SIZE_T Size, NextFree. *)
Definition sizeof_POOL_HEADER := 24.

Record POOL_STATE := mkPool {
  pool_mm : PFN_STATE;
  ExpFreeList : Z;
  ExpPoolLock : Z
}.

Definition set_pool_mm (m : PFN_STATE) (s : POOL_STATE) : POOL_STATE :=
  mkPool m (ExpFreeList s) (ExpPoolLock s).
Definition set_ExpFreeList (v : Z) (s : POOL_STATE) : POOL_STATE :=
  mkPool (pool_mm s) v (ExpPoolLock s).
Definition set_ExpPoolLock (v : Z) (s : POOL_STATE) : POOL_STATE :=
  mkPool (pool_mm s) (ExpFreeList s) v.

#[global] Instance POOL_HasPcr : HasPcr POOL_STATE.
Proof.
  refine {| pcr := λ s, mm_pcr (pool_mm s);
            set_pcr := λ k s, set_pool_mm (set_mm_pcr k (pool_mm s)) s |};
    [done..|by intros [[]]].
Defined.

Definition PoolLock : SpinLock POOL_STATE.
Proof. refine (mkSpinLock ExpPoolLock set_ExpPoolLock _ _ _ _ _ _); [done..|by intros []|done]. Defined.

(** ** Header fields, by offset *)

Definition rd (a : Z) (s : POOL_STATE) : Z := qmem (pool_mm s) a.
Definition wr (a v : Z) (s : POOL_STATE) : POOL_STATE :=
  set_pool_mm (set_qmem (λ x, if x =? a then v else qmem (pool_mm s) x) (pool_mm s)) s.

Definition Magic (h : Z) (s : POOL_STATE) : Z := rd h s.
Definition Tag (h : Z) (s : POOL_STATE) : Z := rd (h + 4) s.
Definition Size (h : Z) (s : POOL_STATE) : Z := rd (h + 8) s.
Definition NextFree (h : Z) (s : POOL_STATE) : Z := rd (h + 16) s.
Definition set_Magic (h v : Z) := wr h v.
Definition set_Tag (h v : Z) := wr (h + 4) v.
Definition set_Size (h v : Z) := wr (h + 8) v.
Definition set_NextFree (h v : Z) := wr (h + 16) v.

Definition mm_run {A} (m : M PFN_STATE A) : M POOL_STATE A := zoom pool_mm set_pool_mm m.

(** ** Expansion *)

(** One turn of the page-grabbing loop at index [i]: go on, or leave with the
    number of pages of the region. *)
Definition grab_page (base pages i : Z) : M POOL_STATE (Z + Z) :=
  if i <? pages then
    pa ← mm_run MmAllocatePhysicalPage;
    if pa =? u64 (base + Z.shiftl i PAGE_SHIFT) then mret (inl (i + 1))
    else
      mwhen (truthy pa) (mm_run (MmFreePhysicalPage pa));;
      mret (inr i)
  else mret (inr pages).

Definition push_region (base pages : Z) (s : POOL_STATE) : POOL_STATE :=
  let s := set_Magic base POOL_MAGIC_FREE s in
  let s := set_Tag base 0 s in
  let s := set_Size base (u64 (Z.shiftl pages PAGE_SHIFT - sizeof_POOL_HEADER)) s in
  let s := set_NextFree base (ExpFreeList s) s in
  set_ExpFreeList base s.

Definition ExpExpandPool (MinBytes : Z) : M POOL_STATE Z :=
  let pages := BYTES_TO_PAGES (u64 (MinBytes + sizeof_POOL_HEADER)) in
  let pages := if pages <? POOL_EXPAND_PAGES then POOL_EXPAND_PAGES else pages in
  base ← mm_run MmAllocatePhysicalPage;
  if base =? 0 then mret STATUS_NO_MEMORY
  else
    pages ← loop (grab_page base pages) 1;
    mmod (push_region base pages);;
    mret STATUS_SUCCESS.

Definition ExInitializePoolManager : M POOL_STATE Z :=
  KeInitializeSpinLock PoolLock;;
  mmod (set_ExpFreeList 0);;
  ExpExpandPool (Z.shiftl POOL_EXPAND_PAGES PAGE_SHIFT).

(** ** Allocation *)

(** Where [prev] points: at ExpFreeList, or at a header's NextFree. *)
Definition set_prev (prev : option Z) (v : Z) : POOL_STATE → POOL_STATE :=
  match prev with None => set_ExpFreeList v | Some h => set_NextFree h v end.

(** One turn of the first-fit search. *)
Definition fit_step (NumberOfBytes : Z) (pc : option Z * Z) :
    M POOL_STATE ((option Z * Z) + option (option Z * Z)) :=
  let '(prev, cur) := pc in
  if cur =? 0 then mret (inr None)
  else
    magic ← mgets (Magic cur);
    if negb (magic =? POOL_MAGIC_FREE) then mbug BAD_POOL_HEADER cur magic 0 1
    else
      size ← mgets (Size cur);
      if size <? NumberOfBytes then
        next ← mgets (NextFree cur);
        mret (inl (Some cur, next))
      else mret (inr (Some (prev, cur))).

(** The block [cur] is taken, and split if the remainder can hold a header and
    one granule. *)
Definition carve (NumberOfBytes Tag : Z) (prev : option Z) (cur : Z) (s : POOL_STATE) : POOL_STATE :=
  let s :=
    if u64 (NumberOfBytes + sizeof_POOL_HEADER + POOL_GRANULARITY) <=? Size cur s then
      let split := cur + sizeof_POOL_HEADER + NumberOfBytes in
      let s := set_Magic split POOL_MAGIC_FREE s in
      let s := set_Tag split 0 s in
      let s := set_Size split (u64 (Size cur s - NumberOfBytes - sizeof_POOL_HEADER)) s in
      let s := set_NextFree split (NextFree cur s) s in
      let s := set_prev prev split s in
      set_Size cur NumberOfBytes s
    else set_prev prev (NextFree cur s) s in
  let s := set_Magic cur POOL_MAGIC_USED s in
  set_Tag cur Tag s.

(** The search, the carving, and the [goto retry] after an expansion. *)
Definition alloc_step (NumberOfBytes Tag : Z) (_ : unit) : M POOL_STATE (unit + Z) :=
  head ← mgets ExpFreeList;
  found ← loop (fit_step NumberOfBytes) (None, head);
  match found with
  | Some (prev, cur) =>
      mmod (carve NumberOfBytes Tag prev cur);;
      mret (inr (cur + sizeof_POOL_HEADER))
  | None =>
      st ← ExpExpandPool NumberOfBytes;
      mret (if NT_SUCCESS st then inl tt else inr 0)
  end.

Definition zero_body (body n : Z) (s : POOL_STATE) : POOL_STATE :=
  set_pool_mm (set_qmem (λ a, if (body <=? a) && (a <? body + n) then 0
                              else qmem (pool_mm s) a) (pool_mm s)) s.

Definition ExAllocatePoolWithTag (PoolType NumberOfBytes Tag : Z) : M POOL_STATE Z :=
  if NumberOfBytes =? 0 then mret 0
  else
    let NumberOfBytes := align_up64 NumberOfBytes POOL_GRANULARITY in
    irql ← KeAcquireSpinLock PoolLock;
    body ← loop (alloc_step NumberOfBytes Tag) tt;
    KeReleaseSpinLock PoolLock irql;;
    mwhen (truthy body) (mmod (zero_body body NumberOfBytes));;
    mret body.

Definition push_free (hdr : Z) (s : POOL_STATE) : POOL_STATE :=
  let s := set_Magic hdr POOL_MAGIC_FREE s in
  let s := set_NextFree hdr (ExpFreeList s) s in
  set_ExpFreeList hdr s.

Definition ExFreePoolWithTag (P TagArg : Z) : M POOL_STATE unit :=
  if P =? 0 then mret tt
  else
    let hdr := P - sizeof_POOL_HEADER in
    magic ← mgets (Magic hdr);
    if negb (magic =? POOL_MAGIC_USED) then mbug BAD_POOL_HEADER hdr magic 0 2
    else
      tag ← mgets (Tag hdr);
      if truthy TagArg && negb (tag =? TagArg) then mbug BAD_POOL_HEADER hdr tag TagArg 3
      else
        irql ← KeAcquireSpinLock PoolLock;
        mmod (push_free hdr);;
        KeReleaseSpinLock PoolLock irql.

(** ** What the page allocator gives the pool *)

Definition active (m : PFN_STATE) (a : Z) : Prop := page_state (a / 4096) m = Some PfnActive.

Lemma active_bounds m a : pfn_wf m → active m a → 0x100000 ≤ a < 68719476736.
Proof.
  intros Hwf (p & Hp & Hs)%fmap_Some. pose proof (lookup_lt_Some _ _ _ Hp) as Hlt.
  pose proof (wf_low _ Hwf _ _ Hp (eq_sym Hs)). destruct Hwf.
  Z.div_mod_to_equations. lia.
Qed.

(** [m'] is a later state of the page allocator: pages that were active still
    are, with their contents. *)
Record mm_ext (m m' : PFN_STATE) : Prop := {
  me_wf : pfn_wf m';
  me_pcr : mm_pcr m' = mm_pcr m;
  me_free : MmFreePages m' ≤ MmFreePages m;
  me_act a : active m a → active m' a ∧ qmem m' a = qmem m a
}.

Lemma mm_ext_refl m : pfn_wf m → mm_ext m m.
Proof. by constructor. Qed.

Lemma mm_ext_trans m1 m2 m3 : mm_ext m1 m2 → mm_ext m2 m3 → mm_ext m1 m3.
Proof.
  intros H12 H23. constructor; [apply H23|..].
  - rewrite (me_pcr _ _ H23). apply H12.
  - pose proof (me_free _ _ H12). pose proof (me_free _ _ H23). lia.
  - intros a Ha. destruct (me_act _ _ H12 a Ha) as [Ha2 Hq2].
    destruct (me_act _ _ H23 a Ha2) as [Ha3 Hq3]. by rewrite Hq3.
Qed.

(** A page that came from the allocator: wholly fresh. *)
Definition fresh_page (m m' : PFN_STATE) (pa : Z) : Prop :=
  pa mod 4096 = 0 ∧ ∀ a, pa ≤ a < pa + 4096 → active m' a ∧ ¬ active m a.

Lemma alloc_page_ext m :
  pfn_wf m → can_lock (mm_pcr m) →
  ∃ pa m', MmAllocatePhysicalPage m = Ok (pa, m') ∧ mm_ext m m' ∧
    ((pa = 0 ∧ m' = m ∧ scan_free m = None) ∨
     (0 < pa < 68719476736 ∧ fresh_page m m' pa ∧ MmFreePages m' = MmFreePages m - 1)).
Proof.
  intros Hwf Hc. rewrite alloc_page_run by done. destruct (scan_free m) as [pfn|] eqn:Hs.
  2: { eexists _, _. split; [done|]. split; [by apply mm_ext_refl|]. by left. }
  destruct (scan_free_Some m pfn Hs) as ([Hge Hlt] & (p & Hp & Hst) & _);
    [destruct Hwf; lia|apply Hwf|].
  pose proof (take_page_wf m pfn Hwf Hs) as Hwf'.
  assert (Hfree : MmFreePages (take_page pfn m) = MmFreePages m - 1).
  { rewrite (wf_free _ Hwf), (wf_free _ Hwf'). simpl. rewrite (count_free_alter _ _ _ p Hp).
    unfold is_free. rewrite Hst. simpl. lia. }
  assert (Hin : page_state pfn m = Some PfnFree) by (unfold page_state; rewrite Hp; simpl; by f_equal).
  assert (Hpos : 256 ≤ pfn < 16777216) by (destruct Hwf; lia).
  eexists _, _. split; [done|]. split.
  - constructor; [by apply pfn_wf_set_qmem|done|simpl in *; lia|]. intros a Ha. simpl.
    pose proof (active_bounds m a Hwf Ha).
    assert (Hne : a / 4096 ≠ pfn) by (intros Heq; unfold active in Ha; rewrite Heq in Ha; congruence).
    split.
    + unfold active. change (page_state (a / 4096) (take_page pfn m) = Some PfnActive).
      rewrite page_state_take by (Z.div_mod_to_equations; first [lia|congruence]).
      by replace (a / 4096 =? pfn) with false by lia.
    + unfold zero_page, PAGE_SIZE. by replace (_ && _) with false by (Z.div_mod_to_equations; lia).
  - right. split; [lia|]. split; [|simpl in *; lia]. split; [apply Z.mod_mul; lia|].
    intros a Ha. assert (Hq : a / 4096 = pfn) by (Z.div_mod_to_equations; lia).
    unfold active. rewrite Hq, Hin. split; [|done].
    change (page_state pfn (take_page pfn m) = Some PfnActive).
    rewrite page_state_take by (first [lia|congruence]). by replace (pfn =? pfn) with true by lia.
Qed.

(** A page that was grabbed and did not fit is given back. *)
Lemma give_back_ext m pa m' :
  pfn_wf m → can_lock (mm_pcr m) → mm_ext m m' → fresh_page m m' pa → 0 < pa →
  MmFreePages m' = MmFreePages m - 1 →
  ∃ m2, MmFreePhysicalPage pa m' = Ok (tt, m2) ∧ mm_ext m m2.
Proof.
  intros Hwf Hc He [Hal Hfr] H0 Hfree.
  destruct (Hfr pa ltac:(lia)) as [Hact Hnact].
  eexists. split; [apply free_page_run; [apply He|by rewrite (me_pcr _ _ He)|lia|done]|].
  assert (Hwf2 : pfn_wf (give_page (pa / 4096) m')).
  { apply give_page_wf; [apply He|Z.div_mod_to_equations; lia|done]. }
  pose proof Hact as (p & Hp & Hs)%fmap_Some.
  constructor; [done|apply He| |].
  - rewrite (wf_free _ Hwf2). simpl. rewrite (count_free_alter _ _ _ p Hp).
    rewrite <- (wf_free _ (me_wf _ _ He)). unfold is_free. rewrite <- Hs. simpl. lia.
  - intros a Ha. destruct (me_act _ _ He a Ha) as [Ha' Hq]. split; [|done].
    pose proof (active_bounds m a Hwf Ha).
    unfold active, page_state, give_page; simpl. rewrite list_lookup_alter_ne; [done|].
    intros Heq. apply Hnact. unfold active in *. replace (pa / 4096) with (a / 4096); [done|].
    Z.div_mod_to_equations. lia.
Qed.

(** The pages [base, base + k pages) were grabbed since [m]. *)
Definition grabbed (m m' : PFN_STATE) (base k : Z) : Prop :=
  ∀ a, base ≤ a < base + k * 4096 → active m' a ∧ ¬ active m a.

Lemma grab_loop m0 base pages (d : nat) : ∀ i s,
  pfn_wf m0 → can_lock (mm_pcr m0) →
  Z.of_nat d = pages - i → 1 ≤ i → pages ≤ 4503599627370496 → 0 < base < 68719476736 →
  mm_ext m0 (pool_mm s) → grabbed m0 (pool_mm s) base i →
  MmFreePages (pool_mm s) < MmFreePages m0 →
  ∃ n k m', loops_to (grab_page base pages) n i s k (set_pool_mm m' s) ∧ n ≤ Z.of_nat d + 1 ∧
    i ≤ k ≤ pages ∧ mm_ext m0 m' ∧ grabbed m0 m' base k ∧ MmFreePages m' < MmFreePages m0.
Proof.
  induction d as [|d IH]; intros i s Hwf Hc Hd Hi Hp Hb He Hg Hf.
  { exists 1, pages, (pool_mm s). split_and!; try done; try lia.
    - apply loops_done. unfold grab_page. replace (i <? pages) with false by lia. by destruct s.
    - by replace pages with i by lia. }
  assert (Hc' : can_lock (mm_pcr (pool_mm s))) by (by rewrite (me_pcr _ _ He)).
  destruct (alloc_page_ext _ (me_wf _ _ He) Hc') as (pa & m1 & Hrun & He1 & Hpa).
  assert (Hstep : grab_page base pages i s =
    (if pa =? u64 (base + Z.shiftl i PAGE_SHIFT) then mret (inl (i + 1))
     else mwhen (truthy pa) (mm_run (MmFreePhysicalPage pa));; mret (inr i)) (set_pool_mm m1 s)).
  { unfold grab_page. replace (i <? pages) with true by lia.
    erewrite bind_ok; [done|]. by apply zoom_ok. }
  destruct (Hg (base + i * 4096 - 1)) as [Hlast%(active_bounds _ _ (me_wf _ _ He)) _]; [lia|].
  rewrite shiftl_page, u64_small in Hstep by lia.
  destruct (pa =? base + i * 4096) eqn:Heq.
  - apply Z.eqb_eq in Heq. destruct Hpa as [(? & _)|(Hb1 & [_ Hfr] & Hf1)]; [lia|].
    destruct (IH (i + 1) (set_pool_mm m1 s)) as (n & k & m' & Hl & Hn & Hk & He' & Hg' & Hf');
      try done; try lia.
    + by eapply mm_ext_trans.
    + intros a Ha. simpl. destruct (decide (a < base + i * 4096)).
      * destruct (Hg a) as [Ha1 Ha2]; [lia|]. split; [|done]. apply (me_act _ _ He1 a Ha1).
      * destruct (Hfr a) as [Ha1 Ha2]; [lia|]. split; [done|]. intros Ha3.
        by apply Ha2, (me_act _ _ He).
    + simpl. lia.
    + exists (n + 1), k, m'. split_and!; try done; try lia. eapply loops_step; [done|]. done.
  - destruct Hpa as [(-> & -> & _)|(Hb1 & Hfr & Hf1)].
    + exists 1, i, (pool_mm s). split_and!; try done; try lia. by apply loops_done.
    + destruct (give_back_ext _ _ _ (me_wf _ _ He) Hc' He1 Hfr ltac:(lia) Hf1) as (m2 & Hr2 & He2).
      exists 1, i, m2. split_and!; try done; try lia.
      * apply loops_done. rewrite Hstep. unfold truthy. replace (pa =? 0) with false by lia.
        unfold mwhen; simpl. erewrite bind_ok; [|by apply zoom_ok]. done.
      * by eapply mm_ext_trans.
      * intros a Ha. destruct (Hg a Ha) as [Ha1 Ha2]. split; [|done]. apply (me_act _ _ He2 a Ha1).
      * pose proof (me_free _ _ He2). lia.
Qed.

(** Expansion either finds no page at all, or pushes a region of at least one
    page that nobody had. *)
Lemma expand_run n s :
  pfn_wf (pool_mm s) → can_lock (mm_pcr (pool_mm s)) →
  (scan_free (pool_mm s) = None ∧ ExpExpandPool n s = Ok (STATUS_NO_MEMORY, s)) ∨
  ∃ base k m', ExpExpandPool n s = Ok (STATUS_SUCCESS, push_region base k (set_pool_mm m' s)) ∧
    1 ≤ k ≤ 4503599627370496 ∧ mm_ext (pool_mm s) m' ∧ grabbed (pool_mm s) m' base k ∧
    MmFreePages m' < MmFreePages (pool_mm s).
Proof.
  intros Hwf Hc. destruct (alloc_page_ext _ Hwf Hc) as (pa & m1 & Hrun & He1 & Hpa).
  unfold ExpExpandPool. cbn zeta.
  set (pages := if _ <? POOL_EXPAND_PAGES then _ else _).
  assert (Hpages : 16 ≤ pages ≤ 4503599627370496).
  { unfold pages, POOL_EXPAND_PAGES, BYTES_TO_PAGES. rewrite shiftr_page.
    case_if; [lia|]. unfold u64 in *. Z.div_mod_to_equations. lia. }
  erewrite bind_ok; [|by apply zoom_ok].
  destruct Hpa as [(-> & -> & Hs)|(Hb & [Hal Hfr] & Hf)].
  { left. split; [done|]. simpl. by destruct s. }
  right. replace (pa =? 0) with false by lia.
  destruct (grab_loop (pool_mm s) pa pages (Z.to_nat (pages - 1)) 1 (set_pool_mm m1 s))
    as (cnt & k & m' & Hl & Hn & Hk & He' & Hg' & Hf'); try done; try lia.
  { simpl. lia. }
  exists pa, k, m'. split_and!; try done; try lia.
  erewrite bind_ok; [|eapply loop_ok; [done|lia]]. done.
Qed.

(** ** Layout of the blocks

    A block is the address of its header and the size of its body. *)

Abbreviation Block := (Z * Z)%type.
Definition top (b : Block) : Z := b.1 + 24 + b.2.
Definition sep (b1 b2 : Block) : Prop := top b1 ≤ b2.1 ∨ top b2 ≤ b1.1.

Fixpoint disj (l : list Block) : Prop :=
  match l with [] => True | b :: l' => Forall (sep b) l' ∧ disj l' end.

Lemma sep_sym b1 b2 : sep b1 b2 → sep b2 b1.
Proof. unfold sep. tauto. Qed.

#[global] Instance disj_perm : Proper ((≡ₚ) ==> iff) disj.
Proof.
  assert (∀ l l', l ≡ₚ l' → disj l → disj l') as Himp; [|by split; apply Himp].
  induction 1 as [|b l l' Hp IH|b1 b2 l|]; simpl; try tauto.
  - intros [Hf Hd]. split; [by rewrite <- Hp|auto].
  - rewrite !Forall_cons. intros [[Hs ?] [? ?]]. apply sep_sym in Hs. tauto.
Qed.

Definition in_active (m : PFN_STATE) (b : Block) : Prop :=
  0 ≤ b.2 ∧ ∀ a, b.1 ≤ a < top b → active m a.

(** Blocks are disjoint and in pages the allocator considers taken. *)
Definition layout (m : PFN_STATE) (l : list Block) : Prop :=
  disj l ∧ Forall (in_active m) l.

#[global] Instance layout_perm m : Proper ((≡ₚ) ==> iff) (layout m).
Proof. intros l l' Hp. unfold layout. by rewrite Hp. Qed.

Lemma in_active_bounds m b :
  pfn_wf m → in_active m b → 0x100000 ≤ b.1 ∧ top b ≤ 68719476736 ∧ 0 ≤ b.2.
Proof.
  intros Hwf [H0 Ha]. unfold top in *.
  pose proof (active_bounds m b.1 Hwf (Ha b.1 ltac:(lia))).
  pose proof (active_bounds m (b.1 + 24 + b.2 - 1) Hwf (Ha (b.1 + 24 + b.2 - 1) ltac:(lia))). lia.
Qed.

Lemma layout_length m l : pfn_wf m → layout m l → Z.of_nat (length l) ≤ 68719476736.
Proof.
  intros Hwf [Hd Ha]. rewrite <- (length_fmap fst). apply NoDup_bounded_length; [done| |].
  - induction l as [|b l IH]; simpl in *; [constructor|].
    destruct Hd as [Hs Hd]. apply Forall_cons in Ha as [Hb Ha]. constructor; [|by apply IH].
    intros (b' & Heq & Hin)%list_elem_of_fmap.
    rewrite Forall_forall in Hs, Ha. specialize (Hs b' Hin). specialize (Ha b' Hin).
    destruct Hb as [? _], Ha as [? _]. unfold sep, top in Hs. lia.
  - intros x (b & -> & Hin)%list_elem_of_fmap. rewrite Forall_forall in Ha.
    pose proof (in_active_bounds m b Hwf (Ha b Hin)). unfold top in *. lia.
Qed.

(** Two non-empty ranges with no common address are apart. *)
Lemma sep_of_no_overlap b1 b2 :
  0 ≤ b1.2 → 0 ≤ b2.2 →
  (∀ a, b1.1 ≤ a < top b1 → b2.1 ≤ a < top b2 → False) → sep b1 b2.
Proof.
  intros H1 H2 Hno. unfold sep, top in *. specialize (Hno (Z.max b1.1 b2.1)). lia.
Qed.

Lemma layout_cons m b l : layout m (b :: l) ↔ Forall (sep b) l ∧ in_active m b ∧ layout m l.
Proof. unfold layout; simpl. rewrite Forall_cons. tauto. Qed.

Lemma layout_app_l m l r : layout m (l ++ r) → layout m l.
Proof.
  induction l as [|b l IH]; [done|]. simpl. rewrite !layout_cons.
  intros ([Hs _]%Forall_app & Hb & Hl). auto.
Qed.

(** Splitting a block keeps the layout. *)
Lemma layout_split m h sz n l :
  0 ≤ n → n + 24 ≤ sz → layout m ((h, sz) :: l) →
  layout m ((h, n) :: (h + 24 + n, sz - n - 24) :: l).
Proof.
  intros Hn Hsz. rewrite !layout_cons. intros (Hs & [H0 Ha] & Hl).
  unfold in_active, top in *; simpl in *. rewrite Forall_cons. split_and!; try done; try lia.
  - unfold sep, top; simpl. lia.
  - eapply Forall_impl; [exact Hs|]. unfold sep, top; simpl. lia.
  - intros a Ha'. apply Ha. lia.
  - eapply Forall_impl; [exact Hs|]. unfold sep, top; simpl. lia.
  - intros a Ha'. apply Ha. lia.
Qed.

(** ** Headers *)

Lemma rd_wr x a v s : rd x (wr a v s) = if x =? a then v else rd x s.
Proof. done. Qed.

Definition free_hdr (s : POOL_STATE) (b : Block) : Prop :=
  Magic b.1 s = POOL_MAGIC_FREE ∧ Size b.1 s = b.2.
Definition used_hdr (s : POOL_STATE) (b : Block) : Prop :=
  Magic b.1 s = POOL_MAGIC_USED ∧ Size b.1 s = b.2.

(** The linked segment of free blocks from pointer [c] to pointer [d]. *)
Fixpoint seg (s : POOL_STATE) (c : Z) (l : list Block) (d : Z) : Prop :=
  match l with
  | [] => c = d
  | b :: l' => c = b.1 ∧ free_hdr s b ∧ seg s (NextFree b.1 s) l' d
  end.

Definition same_hdr (s s' : POOL_STATE) (b : Block) : Prop :=
  ∀ a, b.1 ≤ a < b.1 + 24 → rd a s' = rd a s.

Lemma same_hdr_free s s' b : same_hdr s s' b → free_hdr s b → free_hdr s' b.
Proof. unfold same_hdr, free_hdr, Magic, Size. intros H. by rewrite !H by lia. Qed.

Lemma same_hdr_used s s' b : same_hdr s s' b → used_hdr s b → used_hdr s' b.
Proof. unfold same_hdr, used_hdr, Magic, Size. intros H. by rewrite !H by lia. Qed.

Lemma seg_ext s s' l : ∀ c d, Forall (same_hdr s s') l → seg s c l d → seg s' c l d.
Proof.
  induction l as [|b l IH]; intros c d; simpl; [done|].
  rewrite Forall_cons. intros [Hb Hl] (-> & Hf & Hs).
  split_and!; [done|by eapply same_hdr_free|]. unfold NextFree. rewrite Hb by lia. by apply IH.
Qed.

Lemma seg_app s l1 l2 : ∀ c d, seg s c (l1 ++ l2) d ↔ ∃ e, seg s c l1 e ∧ seg s e l2 d.
Proof.
  induction l1 as [|b l1 IH]; intros c d; simpl.
  - split; [eauto|]. by intros (e & -> & ?).
  - rewrite IH. naive_solver.
Qed.

(** What [prev] points at when the search has passed [l1]. *)
Definition prev_of (l1 : list Block) : option Z := fst <$> last l1.

(** ** Invariant *)

(** Free blocks [fl] in list order, used blocks [ul]. *)
Record pool_inv (s : POOL_STATE) (fl ul : list Block) : Prop := {
  pi_mm : pfn_wf (pool_mm s);
  pi_seg : seg s (ExpFreeList s) fl 0;
  pi_used : Forall (used_hdr s) ul;
  pi_lay : layout (pool_mm s) (fl ++ ul)
}.

Definition inside (b : Block) (a : Z) : Prop := b.1 ≤ a < top b.

(** A step that writes only cells inside the blocks [l]. *)
Record touch (s s' : POOL_STATE) (l : list Block) : Prop := {
  to_mm : ∃ q, pool_mm s' = set_qmem q (pool_mm s);
  to_lock : ExpPoolLock s' = ExpPoolLock s;
  to_rd a : (∀ b, b ∈ l → ¬ inside b a) → rd a s' = rd a s
}.

Lemma touch_trans s1 s2 s3 l1 l2 :
  touch s1 s2 l1 → touch s2 s3 l2 → touch s1 s3 (l1 ++ l2).
Proof.
  intros [[q1 H1] L1 R1] [[q2 H2] L2 R2]. constructor.
  - exists q2. by rewrite H2, H1.
  - congruence.
  - intros a Ha. rewrite R2, R1; [done|..]; intros b Hb; apply Ha, elem_of_app; auto.
Qed.

Lemma touch_wr s a v b : inside b a → touch s (wr a v s) [b].
Proof.
  intros Hin. constructor; [by eexists|done|]. intros x Hx. rewrite rd_wr.
  destruct (x =? a) eqn:E; [|done]. apply Z.eqb_eq in E as ->.
  by destruct (Hx b (list_elem_of_here _ _)).
Qed.

Lemma touch_set_list s s' v l : touch s s' l → touch s (set_ExpFreeList v s') l.
Proof. by intros []. Qed.

Lemma touch_mono s s' l l' : touch s s' l → l ⊆ l' → touch s s' l'.
Proof. intros [Hm Hl Hr] Hs. constructor; try done. intros a Ha. apply Hr. auto. Qed.

Lemma layout_app_sep m l r b1 b2 :
  layout m (l ++ r) → b1 ∈ l → b2 ∈ r → sep b1 b2 ∧ 0 ≤ b1.2 ∧ 0 ≤ b2.2.
Proof.
  intros Hl [l1 [l2 ->]]%list_elem_of_split H2.
  assert ((l1 ++ b1 :: l2) ++ r ≡ₚ b1 :: ((l1 ++ l2) ++ r)) as Hp by solve_Permutation.
  rewrite Hp, layout_cons in Hl. destruct Hl as (Hs & [Hb1 _] & [_ Ha]).
  rewrite Forall_forall in Hs, Ha. split_and!; [|done|].
  - apply Hs, elem_of_app. by right.
  - apply Ha, elem_of_app. by right.
Qed.

(** Blocks apart from those a step touches keep every cell. *)
Lemma touch_other s s' m l r b a :
  touch s s' l → layout m (l ++ r) → b ∈ r → inside b a → rd a s' = rd a s.
Proof.
  intros Ht Hl Hb Ha. apply Ht. intros b' Hb' Ha'.
  destruct (layout_app_sep m l r b' b Hl Hb' Hb) as (Hs & _ & _).
  unfold sep, inside in *. lia.
Qed.

Lemma touch_hdr s s' m l r :
  touch s s' l → layout m (l ++ r) → Forall (same_hdr s s') r.
Proof.
  intros Ht Hl. apply Forall_forall. intros b Hb a Ha.
  eapply touch_other; try done. destruct Hl as [_ Hact].
  apply Forall_app in Hact as [_ Hact]. rewrite Forall_forall in Hact.
  destruct (Hact b Hb). unfold inside, top. lia.
Qed.

(** A layout whatever the contents of memory. *)
Lemma touch_layout s s' l bs : touch s s' l → layout (pool_mm s') bs ↔ layout (pool_mm s) bs.
Proof. by intros [[q ->] _ _]. Qed.

Lemma touch_wf s s' l : touch s s' l → pfn_wf (pool_mm s) → pfn_wf (pool_mm s').
Proof. intros [[q ->] _ _] H. by apply pfn_wf_set_qmem. Qed.

(** Putting block [b] at the head of the free list. *)
Lemma push_inv s s' b fl ul :
  touch s s' [b] → ExpFreeList s' = b.1 → free_hdr s' b → NextFree b.1 s' = ExpFreeList s →
  pfn_wf (pool_mm s) → layout (pool_mm s) (b :: fl ++ ul) →
  seg s (ExpFreeList s) fl 0 → Forall (used_hdr s) ul →
  pool_inv s' (b :: fl) ul.
Proof.
  intros Ht Hh Hf Hn Hwf Hl Hs Hu.
  pose proof (touch_hdr s s' _ [b] (fl ++ ul) Ht Hl) as [H1 H2]%Forall_app.
  constructor.
  - by eapply touch_wf.
  - simpl. split_and!; [done|done|]. rewrite Hn. by eapply seg_ext.
  - rewrite Forall_forall in *. intros b' Hb'. eapply same_hdr_used; eauto.
  - by rewrite (touch_layout _ _ _ _ Ht).
Qed.

Ltac wr_simpl :=
  unfold free_hdr, used_hdr, Magic, Tag, Size, NextFree, set_Magic, set_Tag, set_Size,
    set_NextFree in *; simpl in *;
  repeat (rewrite rd_wr || change (rd ?a (set_ExpFreeList ?v ?s)) with (rd a s));
  repeat match goal with |- context [?x =? ?y] =>
    first [replace (x =? y) with true by lia | replace (x =? y) with false by lia] end.

Lemma push_free_touch h sz s : 0 ≤ sz → touch s (push_free h s) [(h, sz)].
Proof.
  intros H0. unfold push_free. apply touch_set_list.
  eapply (touch_mono _ _ ([(h, sz)] ++ [(h, sz)])); [|set_solver].
  eapply touch_trans; apply touch_wr; unfold inside, top; simpl; lia.
Qed.

Lemma push_free_inv s h sz fl ul1 ul2 :
  pool_inv s fl (ul1 ++ (h, sz) :: ul2) → pool_inv (push_free h s) ((h, sz) :: fl) (ul1 ++ ul2).
Proof.
  intros [Hwf Hs Hu Hl].
  assert (fl ++ ul1 ++ (h, sz) :: ul2 ≡ₚ (h, sz) :: fl ++ ul1 ++ ul2) as Hp by solve_Permutation.
  rewrite Hp in Hl. apply Forall_app in Hu as [Hu1 [[Hm Hsz] Hu2]%Forall_cons].
  pose proof Hl as (_ & [H0 _] & _)%layout_cons. simpl in *.
  apply (push_inv s); try done.
  - by apply push_free_touch.
  - split; unfold push_free; wr_simpl; done.
  - unfold push_free. by wr_simpl.
  - by apply Forall_app.
Qed.

Lemma push_region_touch base k s :
  1 ≤ k → touch s (push_region base k s) [(base, k * 4096 - 24)].
Proof.
  intros Hk. unfold push_region. apply touch_set_list.
  set (b := (base, k * 4096 - 24)).
  eapply (touch_mono _ _ ((([b] ++ [b]) ++ [b]) ++ [b])); [|set_solver].
  repeat eapply touch_trans; apply touch_wr; unfold inside, top, b; simpl; lia.
Qed.

Lemma in_active_ext m m' b : mm_ext m m' → in_active m b → in_active m' b.
Proof. intros He [H0 Ha]. split; [done|]. intros a Hin. by apply (me_act _ _ He), Ha. Qed.

Lemma layout_ext m m' l : mm_ext m m' → layout m l → layout m' l.
Proof.
  intros He [Hd Ha]. split; [done|]. eapply Forall_impl; [exact Ha|]. intros b.
  by apply in_active_ext.
Qed.

(** The page allocator working underneath does not disturb the pool. *)
Lemma pool_inv_ext s m' fl ul :
  pool_inv s fl ul → mm_ext (pool_mm s) m' → pool_inv (set_pool_mm m' s) fl ul.
Proof.
  intros [Hwf Hs Hu Hl] He.
  assert (Forall (same_hdr s (set_pool_mm m' s)) (fl ++ ul)) as [Hf Hg]%Forall_app.
  { destruct Hl as [_ Ha]. eapply Forall_impl; [exact Ha|]. intros b [H0 Hb] a Hin.
    apply (me_act _ _ He), Hb. unfold top. lia. }
  constructor; simpl; [apply He|by eapply seg_ext| |by eapply layout_ext].
  rewrite Forall_forall in *. intros b Hb. eapply same_hdr_used; eauto.
Qed.

Lemma expand_inv s m' base k fl ul :
  pool_inv s fl ul → mm_ext (pool_mm s) m' → grabbed (pool_mm s) m' base k →
  1 ≤ k ≤ 4503599627370496 →
  pool_inv (push_region base k (set_pool_mm m' s)) ((base, k * 4096 - 24) :: fl) ul.
Proof.
  intros Hinv He Hg Hk. pose proof (pool_inv_ext _ _ _ _ Hinv He) as [Hwf Hs Hu Hl].
  assert (Hb : in_active m' (base, k * 4096 - 24)).
  { split; simpl; [lia|]. intros a Ha. apply Hg. unfold top in Ha; simpl in Ha. lia. }
  pose proof (in_active_bounds _ _ Hwf Hb) as (Hb1 & Hb2 & _). unfold top in Hb2; simpl in Hb1, Hb2.
  apply (push_inv (set_pool_mm m' s)); try done.
  - apply push_region_touch. lia.
  - unfold push_region. split; wr_simpl; [done|]. rewrite shiftl_page. apply u64_small.
    unfold sizeof_POOL_HEADER. lia.
  - unfold push_region. by wr_simpl.
  - apply layout_cons. split_and!; [|done|done].
    destruct Hinv as [Hwf0 _ _ [_ Ha]]. eapply Forall_impl; [exact Ha|].
    intros b [H0 Hin]. apply sep_of_no_overlap; simpl; [lia|done|].
    intros a Ha1 Ha2. destruct (Hg a) as [_ Hn]; [|by apply Hn, Hin].
    unfold top in Ha1; simpl in Ha1. lia.
Qed.

(** Redirecting the pointer that follows [l1]. *)
Lemma set_prev_spec s m l1 d v :
  layout m l1 → seg s (ExpFreeList s) l1 d →
  let s' := set_prev (prev_of l1) v s in
  touch s s' l1 ∧ seg s' (ExpFreeList s') l1 v.
Proof.
  intros Hl Hs. unfold prev_of. destruct l1 as [|b l1 _] using rev_ind; simpl.
  { split; [|done]. constructor; try done. exists (qmem (pool_mm s)). by destruct s as [[]]. }
  rewrite last_snoc; simpl. apply seg_app in Hs as (e & Hs & [-> [Hf _]]).
  assert (l1 ++ [b] ≡ₚ [b] ++ l1) as Hperm by solve_Permutation. rewrite Hperm in Hl.
  pose proof Hl as (_ & [Hb _] & _)%layout_cons.
  assert (Ht : touch s (set_NextFree b.1 v s) [b]) by (apply touch_wr; unfold inside, top; lia).
  split; [eapply touch_mono; [done|set_solver]|]. apply seg_app. exists b.1. split.
  - eapply seg_ext; [|done]. by eapply touch_hdr.
  - simpl. split_and!; [done| |]; wr_simpl; tauto.
Qed.

(** Taking the whole block. *)
Definition use_hdr (cur tag : Z) (s : POOL_STATE) : POOL_STATE :=
  set_Tag cur tag (set_Magic cur POOL_MAGIC_USED s).

Lemma use_hdr_inv s cur sz tag fl ul :
  pfn_wf (pool_mm s) → seg s (ExpFreeList s) fl 0 → Forall (used_hdr s) ul →
  layout (pool_mm s) ((cur, sz) :: fl ++ ul) → Size cur s = sz →
  touch s (use_hdr cur tag s) [(cur, sz)] ∧
  pool_inv (use_hdr cur tag s) fl ((cur, sz) :: ul) ∧ Tag cur (use_hdr cur tag s) = tag.
Proof.
  intros Hwf Hs Hu Hl Hsz. pose proof Hl as (_ & [H0 _] & _)%layout_cons. simpl in H0.
  assert (Ht : touch s (use_hdr cur tag s) [(cur, sz)]).
  { eapply (touch_mono _ _ ([(cur, sz)] ++ [(cur, sz)])); [|set_solver].
    eapply touch_trans; apply touch_wr; unfold inside, top; simpl; lia. }
  pose proof (touch_hdr _ _ _ [(cur, sz)] (fl ++ ul) Ht Hl) as [H1 H2]%Forall_app.
  split; [done|]. split; [constructor|unfold use_hdr; by wr_simpl].
  - by eapply touch_wf.
  - by eapply seg_ext.
  - constructor.
    + unfold use_hdr. wr_simpl. done.
    + rewrite Forall_forall in *. intros b Hb. eapply same_hdr_used; eauto.
  - rewrite (touch_layout _ _ _ _ Ht).
    assert (fl ++ (cur, sz) :: ul ≡ₚ (cur, sz) :: fl ++ ul) as -> by solve_Permutation. done.
Qed.

Lemma carve_whole s tag cur sz l1 l2 ul :
  pool_inv s (l1 ++ (cur, sz) :: l2) ul →
  let s' := use_hdr cur tag (set_prev (prev_of l1) (NextFree cur s) s) in
  touch s s' (l1 ++ [(cur, sz)]) ∧ pool_inv s' (l1 ++ l2) ((cur, sz) :: ul) ∧ Tag cur s' = tag.
Proof.
  intros [Hwf Hs Hu Hl]. simpl.
  apply seg_app in Hs as (e & Hs1 & -> & [Hm Hsz] & Hs2). simpl in *.
  assert (Hl1 : layout (pool_mm s) (l1 ++ ((cur, sz) :: l2 ++ ul)))
    by (by rewrite <- app_assoc in Hl).
  pose proof (layout_app_l _ _ _ Hl1) as Hll.
  destruct (set_prev_spec s (pool_mm s) l1 cur (NextFree cur s) Hll Hs1) as [Ht Hseg].
  set (s1 := set_prev _ _ s) in *.
  pose proof (touch_hdr _ _ _ _ _ Ht Hl1) as [Hc [H2 H3]%Forall_app]%Forall_cons.
  destruct (use_hdr_inv s1 cur sz tag (l1 ++ l2) ul) as (Ht2 & Hinv & Htag).
  - by eapply touch_wf.
  - apply seg_app. exists (NextFree cur s). split; [done|]. by eapply seg_ext.
  - rewrite Forall_forall in *. intros b Hb. eapply same_hdr_used; eauto.
  - rewrite (touch_layout _ _ _ _ Ht).
    assert ((cur, sz) :: (l1 ++ l2) ++ ul ≡ₚ l1 ++ (cur, sz) :: l2 ++ ul) as -> by solve_Permutation.
    done.
  - unfold Size. rewrite Hc by (simpl; lia). done.
  - split_and!; [|done|done]. by eapply touch_trans.
Qed.

(** The header written into the remainder of a split block. *)
Definition split_hdr (cur split n : Z) (s : POOL_STATE) : POOL_STATE :=
  let s := set_Magic split POOL_MAGIC_FREE s in
  let s := set_Tag split 0 s in
  let s := set_Size split (u64 (Size cur s - n - sizeof_POOL_HEADER)) s in
  set_NextFree split (NextFree cur s) s.

Lemma split_hdr_spec cur sz n s :
  0 ≤ n → n + 40 ≤ sz → sz < 68719476736 → Size cur s = sz →
  let split := cur + 24 + n in
  let s' := split_hdr cur split n s in
  touch s s' [(cur, sz)] ∧ free_hdr s' (split, sz - n - 24) ∧
  NextFree split s' = NextFree cur s ∧ ExpFreeList s' = ExpFreeList s.
Proof.
  intros Hn Hsz Hb Hsize. simpl. split_and!; [| | |done].
  - set (b := (cur, sz)). eapply (touch_mono _ _ ((([b] ++ [b]) ++ [b]) ++ [b])); [|set_solver].
    unfold split_hdr. repeat eapply touch_trans; apply touch_wr; unfold inside, top, b; simpl; lia.
  - split; unfold split_hdr; wr_simpl; [done|]. unfold Size in Hsize. rewrite Hsize.
    apply u64_small. unfold sizeof_POOL_HEADER. lia.
  - unfold split_hdr. by wr_simpl.
Qed.

Lemma touch_widen s s' h n sz : n ≤ sz → touch s s' [(h, n)] → touch s s' [(h, sz)].
Proof.
  intros Hle [Hm Hl Hr]. constructor; try done. intros a Ha. apply Hr.
  intros b ->%list_elem_of_singleton Hin. apply (Ha (h, sz)); [by left|].
  unfold inside, top in *; simpl in *. lia.
Qed.

(** The free list once the remainder of [cur] has taken its place. *)
Lemma relink_split s n cur sz l1 l2 ul :
  pool_inv s (l1 ++ (cur, sz) :: l2) ul → 0 ≤ n → n + 40 ≤ sz →
  let split := cur + 24 + n in
  let s6 := set_Size cur n (set_prev (prev_of l1) split (split_hdr cur split n s)) in
  touch s s6 (l1 ++ [(cur, sz)]) ∧
  seg s6 (ExpFreeList s6) (l1 ++ (split, sz - n - 24) :: l2) 0 ∧ Forall (used_hdr s6) ul ∧
  layout (pool_mm s) ((cur, n) :: (l1 ++ (split, sz - n - 24) :: l2) ++ ul).
Proof.
  intros [Hwf Hs Hu Hl] Hn Hsz. intros split s6.
  apply seg_app in Hs as (e & Hs1 & -> & [Hm Hsize] & Hs2). simpl in *.
  assert (Hl1 : layout (pool_mm s) (l1 ++ (cur, sz) :: l2 ++ ul)) by (by rewrite <- app_assoc in Hl).
  assert (l1 ++ (cur, sz) :: l2 ++ ul ≡ₚ [(cur, sz)] ++ l1 ++ l2 ++ ul) as Hp by solve_Permutation.
  pose proof Hl1 as Hlc. rewrite Hp in Hlc. pose proof Hlc as (_ & Hact & _)%layout_cons.
  pose proof (in_active_bounds _ _ Hwf Hact) as (Hlo & Hhi & _). unfold top in Hhi; simpl in *.
  destruct (split_hdr_spec cur sz n s) as (Ht4 & Hf4 & Hn4 & Hh4); [lia..|done|].
  fold split in Ht4, Hf4, Hn4, Hh4. set (s4 := split_hdr cur split n s) in *.
  pose proof (touch_hdr _ _ _ [(cur, sz)] _ Ht4 Hlc) as [H41 [H42 H43]%Forall_app]%Forall_app.
  destruct (set_prev_spec s4 (pool_mm s) l1 cur split) as [Ht5 Hseg5].
  { by eapply layout_app_l. }
  { rewrite Hh4. by eapply seg_ext. }
  set (s5 := set_prev _ _ s4) in *.
  pose proof (λ a, touch_other s4 s5 (pool_mm s) l1 _ (cur, sz) a Ht5 Hl1 (list_elem_of_here _ _)) as Hcell.
  pose proof (touch_hdr _ _ _ _ _ Ht5 Hl1) as [_ [H52 H53]%Forall_app]%Forall_cons.
  assert (Ht6 : touch s5 s6 [(cur, n)]) by (apply touch_wr; unfold inside, top; simpl; lia).
  assert (Hlay : layout (pool_mm s) ([(cur, n)] ++ (split, sz - n - 24) :: l1 ++ l2 ++ ul)).
  { apply layout_split; [lia..|done]. }
  pose proof (touch_hdr _ _ _ [(cur, n)] _ Ht6 Hlay)
    as [H6s [H61 [H62 H63]%Forall_app]%Forall_app]%Forall_cons.
  split_and!.
  - eapply (touch_mono _ _ (([(cur, sz)] ++ l1) ++ [(cur, sz)])); [|set_solver].
    eapply touch_trans; [by eapply touch_trans|]. apply (touch_widen _ _ _ n); [lia|done].
  - apply seg_app. exists split. split; [by eapply seg_ext|]. simpl.
    assert (same_hdr s4 s6 (split, sz - n - 24)) as Hsame.
    { intros a Ha. simpl in Ha. rewrite H6s by (simpl; lia). apply Hcell.
      unfold inside, top, split in *; simpl. lia. }
    split_and!; [done|by eapply same_hdr_free|].
    unfold NextFree in *. rewrite Hsame by (simpl; lia). rewrite Hn4.
    eapply seg_ext; [exact H62|]. eapply seg_ext; [exact H52|]. by eapply seg_ext.
  - rewrite Forall_forall in *. intros b Hb.
    eapply same_hdr_used; [by apply H63|]. eapply same_hdr_used; [by apply H53|].
    eapply same_hdr_used; [by apply H43|]. by apply Hu.
  - assert ((cur, n) :: (l1 ++ (split, sz - n - 24) :: l2) ++ ul ≡ₚ
            [(cur, n)] ++ (split, sz - n - 24) :: l1 ++ l2 ++ ul) as -> by solve_Permutation.
    done.
Qed.

(** Carving: the block [cur] becomes a used block of at least [n] bytes, and
    only the free list and that block are written. *)
Lemma carve_spec s n tag cur sz l1 l2 ul :
  pool_inv s (l1 ++ (cur, sz) :: l2) ul → 0 ≤ n ≤ sz →
  let s' := carve n tag (prev_of l1) cur s in
  ∃ fl' sz', n ≤ sz' ≤ sz ∧ touch s s' (l1 ++ [(cur, sz)]) ∧
    pool_inv s' fl' ((cur, sz') :: ul) ∧ Tag cur s' = tag.
Proof.
  intros Hinv [Hn Hsz]. unfold carve.
  assert (Size cur s = sz ∧ sz < 68719476736) as [Hsize Hb].
  { destruct Hinv as [Hwf Hs _ Hl]. apply seg_app in Hs as (e & _ & _ & [_ Hsize] & _).
    split; [done|]. rewrite <- app_assoc in Hl. destruct Hl as [_ Ha].
    apply Forall_app in Ha as [_ [Ha _]%Forall_cons].
    pose proof (in_active_bounds _ _ Hwf Ha). unfold top in *; simpl in *. lia. }
  replace (u64 (n + sizeof_POOL_HEADER + POOL_GRANULARITY)) with (n + 40)
    by (rewrite u64_small; unfold sizeof_POOL_HEADER, POOL_GRANULARITY; lia).
  rewrite Hsize. destruct (n + 40 <=? sz) eqn:E.
  - destruct (relink_split s n cur sz l1 l2 ul Hinv) as (Ht & Hseg & Hu & Hl); [lia..|].
    cbn zeta in *. fold (split_hdr cur (cur + 24 + n) n s).
    fold (use_hdr cur tag (set_Size cur n (set_prev (prev_of l1) (cur + 24 + n)
             (split_hdr cur (cur + 24 + n) n s)))).
    set (s6 := set_Size cur n _) in *.
    eexists _, n. split; [lia|].
    destruct (use_hdr_inv s6 cur n tag _ ul (touch_wf _ _ _ Ht (pi_mm _ _ _ Hinv)) Hseg Hu)
      as (Ht7 & Hi & Htag).
    + by rewrite (touch_layout _ _ _ _ Ht).
    + unfold s6. by wr_simpl.
    + split_and!; [|exact Hi|exact Htag].
      eapply (touch_mono _ _ ((l1 ++ [(cur, sz)]) ++ [(cur, sz)])); [|set_solver].
      eapply touch_trans; [done|]. by apply (touch_widen _ _ _ n).
  - eexists _, sz. split; [lia|]. by apply carve_whole.
Qed.

(** ** The search and the retry loop *)

Lemma fit_loop s n l2 : ∀ l1 cur,
  seg s cur l2 0 → Forall (λ b, 0 < b.1) l2 →
  ∃ r k, loops_to (fit_step n) k (prev_of l1, cur) s r s ∧ k ≤ Z.of_nat (length l2) + 1 ∧
    match r with
    | None => Forall (λ b, b.2 < n) l2
    | Some (prev, c) => ∃ m1 sz m2, l2 = m1 ++ (c, sz) :: m2 ∧ prev = prev_of (l1 ++ m1) ∧
                          n ≤ sz ∧ Forall (λ b, b.2 < n) m1
    end.
Proof.
  induction l2 as [|[h sz] l2 IH]; intros l1 cur; simpl.
  - intros -> _. exists None, 1. split_and!; [by apply loops_done|lia|constructor].
  - intros (-> & [Hm Hs] & Hseg) [Hpos Hl]%Forall_cons. simpl in *.
    assert (Hstep : fit_step n (prev_of l1, h) s =
      if sz <? n then Ok (inl (Some h, NextFree h s), s) else Ok (inr (Some (prev_of l1, h)), s)).
    { unfold fit_step. replace (h =? 0) with false by lia.
      unfold mbind, M_bind; simpl. rewrite Hm. simpl. rewrite Hs. by destruct (sz <? n). }
    destruct (sz <? n) eqn:E.
    + destruct (IH (l1 ++ [(h, sz)]) (NextFree h s) Hseg Hl) as (r & k & Hlp & Hk & Hr).
      exists r, (k + 1). split_and!; [|lia|].
      * eapply loops_step; [done|]. unfold prev_of in Hlp at 1. by rewrite last_snoc in Hlp.
      * destruct r as [[prev c]|]; [|constructor; [simpl; lia|done]].
        destruct Hr as (m1 & z & m2 & -> & -> & Hz & Hf).
        exists ((h, sz) :: m1), z, m2. split_and!; [done| |done|constructor; [simpl; lia|done]].
        by rewrite <- app_assoc.
    + exists (Some (prev_of l1, h)), 1. split_and!; [by apply loops_done|lia|].
      exists [], sz, l2. split_and!; [done|by rewrite app_nil_r|lia|constructor].
Qed.

Lemma pool_inv_pos s fl ul : pool_inv s fl ul → Forall (λ b, 0 < b.1) fl.
Proof.
  intros [Hwf _ _ [_ Ha]]. apply Forall_app in Ha as [Ha _].
  eapply Forall_impl; [exact Ha|]. intros b Hb. pose proof (in_active_bounds _ _ Hwf Hb). lia.
Qed.

Lemma fit_run s n fl ul :
  pool_inv s fl ul →
  ∃ r, loop (fit_step n) (None, ExpFreeList s) s = Ok (r, s) ∧
    match r with
    | None => Forall (λ b, b.2 < n) fl
    | Some (prev, c) => ∃ m1 sz m2, fl = m1 ++ (c, sz) :: m2 ∧ prev = prev_of m1 ∧
                          n ≤ sz ∧ Forall (λ b, b.2 < n) m1
    end.
Proof.
  intros Hinv. destruct (fit_loop s n fl [] (ExpFreeList s)) as (r & k & Hl & Hk & Hr).
  - apply Hinv.
  - by eapply pool_inv_pos.
  - exists r. split; [|done]. eapply loop_ok; [exact Hl|].
    destruct Hinv as [Hwf _ _ Hlay]. apply layout_app_l in Hlay.
    pose proof (layout_length _ _ Hwf Hlay). lia.
Qed.

(** What an operation leaves alone: the processor, the lock, and every cell of
    the blocks [ul]. *)
Record keeps (s s' : POOL_STATE) (ul : list Block) : Prop := {
  ke_pcr : mm_pcr (pool_mm s') = mm_pcr (pool_mm s);
  ke_lock : ExpPoolLock s' = ExpPoolLock s;
  ke_cells b a : b ∈ ul → inside b a → rd a s' = rd a s
}.

Lemma keeps_trans s1 s2 s3 ul : keeps s1 s2 ul → keeps s2 s3 ul → keeps s1 s3 ul.
Proof.
  intros [p1 l1 c1] [p2 l2 c2]. constructor; [congruence..|].
  intros b a Hb Ha. by rewrite (c2 b a), (c1 b a).
Qed.

Lemma touch_keeps s s' m l ul :
  touch s s' l → layout m (l ++ ul) → keeps s s' ul.
Proof.
  intros Ht Hl. constructor.
  - by destruct (to_mm _ _ _ Ht) as [q ->].
  - apply Ht.
  - intros b a Hb Ha. by eapply touch_other.
Qed.

(** What one call of the search-and-retry loop returns. *)
Definition alloc_result (n tag : Z) (ul : list Block) (body : Z) (s' : POOL_STATE) : Prop :=
  (body = 0 ∧ ∃ fl', pool_inv s' fl' ul ∧ scan_free (pool_mm s') = None ∧
                     Forall (λ b, b.2 < n) fl') ∨
  ∃ fl' cur sz', body = cur + 24 ∧ n ≤ sz' ∧ pool_inv s' fl' ((cur, sz') :: ul) ∧
                 Tag cur s' = tag.

(** [c] is the first free block that fits [n] bytes. *)
Definition first_fit (n : Z) (fl : list Block) (c : Z) : Prop :=
  ∃ m1 sz m2, fl = m1 ++ (c, sz) :: m2 ∧ n ≤ sz ∧ Forall (λ b, b.2 < n) m1.

Lemma first_fit_unique n fl c m1 c' sz' m2 :
  first_fit n fl c → fl = m1 ++ (c', sz') :: m2 → n ≤ sz' → Forall (λ b, b.2 < n) m1 → c = c'.
Proof.
  intros (l1 & sz & l2 & -> & Hsz & Hf) Heq Hsz' Hf'. revert m1 Heq Hf'.
  induction l1 as [|b l1 IH]; intros [|b' m1]; simpl; intros Heq Hf';
    injection Heq as Hb Heq; subst; try done.
  - apply Forall_cons in Hf' as [? _]. simpl in *. lia.
  - apply Forall_cons in Hf as [? _]. simpl in *. lia.
  - apply Forall_cons in Hf as [_ Hf], Hf' as [_ Hf']. eauto.
Qed.

Lemma first_fit_None n fl c : first_fit n fl c → Forall (λ b, b.2 < n) fl → False.
Proof.
  intros (m1 & sz & m2 & -> & Hsz & _) [_ [H _]%Forall_cons]%Forall_app. simpl in *. lia.
Qed.

Lemma alloc_step_run s n tag fl ul :
  pool_inv s fl ul → can_lock (mm_pcr (pool_mm s)) → 0 ≤ n →
  ∃ r s', alloc_step n tag tt s = Ok (r, s') ∧ keeps s s' ul ∧
    (∀ c, first_fit n fl c → r = inr (c + 24)) ∧
    match r with
    | inr body => alloc_result n tag ul body s'
    | inl _ => ∃ fl', pool_inv s' fl' ul ∧ MmFreePages (pool_mm s') < MmFreePages (pool_mm s)
    end.
Proof.
  intros Hinv Hc Hn. unfold alloc_step. destruct (fit_run s n fl ul Hinv) as (r & Hrun & Hr).
  unfold mbind at 1, M_bind at 1; simpl. rewrite (bind_ok _ _ _ _ _ Hrun).
  destruct r as [[prev c]|].
  - destruct Hr as (m1 & sz & m2 & -> & -> & Hsz & Hfm).
    destruct (carve_spec s n tag c sz m1 m2 ul Hinv) as (fl' & sz' & Hle & Ht & Hi & Htag); [lia|].
    eexists _, _. split; [done|]. split.
    + apply (touch_keeps _ _ (pool_mm s) _ _ Ht). destruct Hinv as [_ _ _ Hl].
      assert ((m1 ++ (c, sz) :: m2) ++ ul ≡ₚ ((m1 ++ [(c, sz)]) ++ ul) ++ m2) as Hp by solve_Permutation.
      rewrite Hp in Hl. by eapply layout_app_l.
    + split; [|right; exists fl', c, sz'; split_and!; [reflexivity|lia|done|done]].
      intros c' Hc'. rewrite (first_fit_unique n _ c' m1 c sz m2 Hc'); done.
  - destruct (expand_run n s (pi_mm _ _ _ Hinv) Hc) as [[Hs Hx]|(base & k & m' & Hx & Hk & He & Hg & Hf)];
      rewrite (bind_ok _ _ _ _ _ Hx); (eexists _, _; split; [done|]; simpl).
    + split; [by constructor|]. split; [intros c' Hc'; by destruct (first_fit_None _ _ _ Hc')|].
      left. split; [done|]. by exists fl.
    + pose proof (expand_inv s m' base k fl ul Hinv He Hg Hk) as Hi.
      assert (Ht := push_region_touch base k (set_pool_mm m' s) (proj1 Hk)). split.
      * eapply keeps_trans; [|eapply (touch_keeps _ _ (pool_mm (push_region base k (set_pool_mm m' s))));
          [exact Ht|]].
        -- constructor; [apply He|done|]. intros b a Hb Ha. apply (me_act _ _ He).
           destruct Hinv as [_ _ _ [_ Hact]]. apply Forall_app in Hact as [_ Hact].
           rewrite Forall_forall in Hact. by apply (Hact b Hb).
        -- destruct Hi as [_ _ _ Hl]. simpl in Hl.
           assert ((base, k * 4096 - 24) :: fl ++ ul ≡ₚ ([(base, k * 4096 - 24)] ++ ul) ++ fl) as Hp
             by solve_Permutation. rewrite Hp in Hl. by eapply layout_app_l.
      * split; [intros c' Hc'; by destruct (first_fit_None _ _ _ Hc')|].
        eexists. split; [exact Hi|]. exact Hf.
Qed.

Lemma alloc_loop n tag ul (d : nat) : ∀ s fl,
  pool_inv s fl ul → can_lock (mm_pcr (pool_mm s)) → 0 ≤ n →
  MmFreePages (pool_mm s) ≤ Z.of_nat d →
  ∃ k body s', loops_to (alloc_step n tag) k tt s body s' ∧ k ≤ Z.of_nat d + 1 ∧
    keeps s s' ul ∧ (∀ c, first_fit n fl c → body = c + 24) ∧ alloc_result n tag ul body s'.
Proof.
  induction d as [|d IH]; intros s fl Hinv Hc Hn Hd;
    destruct (alloc_step_run s n tag fl ul Hinv Hc Hn) as ([[]|body] & s1 & Hrun & Hk & Hff & Hr).
  - destruct Hr as (fl' & Hi & Hlt). pose proof (wf_free _ (pi_mm _ _ _ Hi)).
    pose proof (count_free_bounds (MmPfnDatabase (pool_mm s1))). lia.
  - exists 1, body, s1. split_and!; [by apply loops_done|lia|done| |done].
    intros c Hc'. specialize (Hff c Hc'). congruence.
  - destruct Hr as (fl' & Hi & Hlt).
    destruct (IH s1 fl') as (k & body & s' & Hl & Hk' & Hkeep & _ & Hres); [done| |done|lia|].
    { by rewrite (ke_pcr _ _ _ Hk). }
    exists (k + 1), body, s'. split_and!; [by eapply loops_step|lia|by eapply keeps_trans| |done].
    intros c Hc'. specialize (Hff c Hc'). congruence.
  - exists 1, body, s1. split_and!; [by apply loops_done|lia|done| |done].
    intros c Hc'. specialize (Hff c Hc'). congruence.
Qed.

Lemma align_up64_wrap x : 0 ≤ x < 18446744073709551616 → 0 ≤ align_up64 x 16 < 18446744073709551616.
Proof. intros Hx. unfold align_up64, align_down, u64. Z.div_mod_to_equations. lia. Qed.

Definition set_locked (s : POOL_STATE) : POOL_STATE :=
  set_ExpPoolLock 1 (set_pcr locked_pcr s).

Lemma pool_inv_pcr s k v fl ul :
  pool_inv s fl ul ↔ pool_inv (set_ExpPoolLock v (set_pcr k s)) fl ul.
Proof.
  split; intros [Hwf Hs Hu Hl].
  - constructor; simpl; [by apply pfn_wf_set_pcr| | |done].
    + eapply seg_ext; [|exact Hs]. apply Forall_forall. by intros.
    + done.
  - constructor; simpl in *; [by destruct Hwf| | |done].
    + eapply seg_ext; [|exact Hs]. apply Forall_forall. by intros.
    + done.
Qed.

(** Writing in the body of a used block changes no header and no other block. *)
Lemma body_inv s s' b fl ul :
  touch s s' [b] → same_hdr s s' b → ExpFreeList s' = ExpFreeList s →
  pool_inv s fl (b :: ul) → pool_inv s' fl (b :: ul) ∧ keeps s s' ul ∧ Tag b.1 s' = Tag b.1 s.
Proof.
  intros Ht Hsame Hfl [Hwf Hs Hu Hl].
  assert (fl ++ b :: ul ≡ₚ [b] ++ fl ++ ul) as Hp by solve_Permutation.
  pose proof Hl as Hl'. rewrite Hp in Hl'.
  pose proof (touch_hdr _ _ _ [b] (fl ++ ul) Ht Hl') as [H1 H2]%Forall_app. split_and!.
  - constructor; [by eapply touch_wf|rewrite Hfl; by eapply seg_ext| |by rewrite (touch_layout _ _ _ _ Ht)].
    apply Forall_cons in Hu as [Hc Hu]. constructor; [by eapply same_hdr_used|].
    rewrite Forall_forall in *. intros b' Hb. eapply same_hdr_used; eauto.
  - eapply touch_keeps; [exact Ht|].
    assert ([b] ++ fl ++ ul ≡ₚ ([b] ++ ul) ++ fl) as Hp2 by solve_Permutation.
    rewrite Hp2 in Hl'. by eapply layout_app_l.
  - unfold Tag. apply Hsame. lia.
Qed.

Lemma zero_body_inv s cur sz n fl ul :
  pool_inv s fl ((cur, sz) :: ul) → 0 ≤ n ≤ sz →
  let s' := zero_body (cur + 24) n s in
  pool_inv s' fl ((cur, sz) :: ul) ∧ keeps s s' ul ∧ Tag cur s' = Tag cur s ∧
  ∀ a, cur + 24 ≤ a < cur + 24 + n → rd a s' = 0.
Proof.
  intros Hi Hn. simpl. set (s' := zero_body _ _ s).
  assert (Hrd : ∀ a, rd a s' = if (cur + 24 <=? a) && (a <? cur + 24 + n) then 0 else rd a s) by done.
  destruct (body_inv s s' (cur, sz) fl ul) as (H1 & H2 & H3); [| |done|done|].
  - constructor; [by eexists|done|]. intros a Ha. rewrite Hrd.
    specialize (Ha (cur, sz) (list_elem_of_here _ _)). unfold inside, top in Ha; simpl in Ha.
    by replace (_ && _) with false by lia.
  - intros a Ha. rewrite Hrd. simpl in Ha. by replace (_ && _) with false by lia.
  - split_and!; [done..|]. intros a Ha. rewrite Hrd. by replace (_ && _) with true by lia.
Qed.

Lemma keeps_cells s1 s2 k v ul :
  keeps (set_ExpPoolLock v (set_pcr k s1)) s2 ul →
  keeps s1 (set_ExpPoolLock (ExpPoolLock s1) (set_pcr (pcr s1) s2)) ul.
Proof. intros [_ _ Hc]. by constructor. Qed.

Lemma alloc_pool_run s fl ul pt n tag :
  pool_inv s fl ul → ExpPoolLock s = 0 → can_lock (mm_pcr (pool_mm s)) →
  0 < n < 18446744073709551616 →
  let N := align_up64 n POOL_GRANULARITY in
  ∃ body s1, ExAllocatePoolWithTag pt n tag s =
     Ok (body, if body =? 0 then s1 else zero_body body N s1) ∧
    keeps s s1 ul ∧ (∀ c, first_fit N fl c → body = c + 24) ∧ alloc_result N tag ul body s1.
Proof.
  intros Hinv Hlk Hc Hn. cbn zeta. set (N := align_up64 n POOL_GRANULARITY).
  assert (HN : 0 ≤ N) by (pose proof (align_up64_wrap n); unfold N, POOL_GRANULARITY; lia).
  destruct (alloc_loop N tag ul (Z.to_nat (MmFreePages (pool_mm s))) (set_locked s) fl)
    as (k & body & s2 & Hl & Hk & Hkeep & Hff & Hres).
  { by apply (pool_inv_pcr s). } { apply locked_can_lock. } { done. } { simpl. lia. }
  pose proof Hc as [[Hif Hr] Hle].
  exists body, (set_ExpPoolLock (ExpPoolLock s) (set_pcr (pcr s) s2)). split_and!.
  - unfold ExAllocatePoolWithTag. replace (n =? 0) with false by lia. fold N.
    erewrite bind_ok; [|by apply acquire_ok].
    erewrite bind_ok; [|eapply loop_ok; [exact Hl|]].
    2: { pose proof (wf_free _ (pi_mm _ _ _ Hinv)). pose proof (wf_high _ (pi_mm _ _ _ Hinv)).
         pose proof (wf_len _ (pi_mm _ _ _ Hinv)).
         pose proof (count_free_bounds (MmPfnDatabase (pool_mm s))). lia. }
    assert (Hp2 : pcr s2 = locked_pcr) by (apply (ke_pcr _ _ _ Hkeep)).
    assert (Hl2 : ExpPoolLock s2 = 1) by (apply (ke_lock _ _ _ Hkeep)).
    erewrite bind_ok; [|apply release_ok; [by rewrite Hp2|done]]. rewrite Hp2. simpl.
    assert (Hk0 : mkKPCR (Irql (mm_pcr (pool_mm s))) (if Irql (mm_pcr (pool_mm s)) <? DISPATCH_LEVEL
       then true else false) = mm_pcr (pool_mm s)).
    { destruct (mm_pcr (pool_mm s)) as [q f]; simpl in *. subst f. f_equal. by case_if. }
    rewrite Hk0, Hlk. unfold mwhen, truthy. destruct (body =? 0); done.
  - by eapply keeps_cells.
  - done.
  - destruct Hres as [(-> & fl' & Hi & Hs & Hf)|(fl' & cur & sz' & -> & Hsz & Hi & Htag)].
    + left. split; [done|]. exists fl'. split; [by apply (pool_inv_pcr s2)|done].
    + right. exists fl', cur, sz'. split_and!; try done. by apply (pool_inv_pcr s2).
Qed.

Lemma alloc_pool_spec s fl ul pt n tag :
  pool_inv s fl ul → ExpPoolLock s = 0 → can_lock (mm_pcr (pool_mm s)) →
  0 < n < 18446744073709551616 →
  let N := align_up64 n POOL_GRANULARITY in
  ∃ body s', ExAllocatePoolWithTag pt n tag s = Ok (body, s') ∧ keeps s s' ul ∧
    ((body = 0 ∧ (∃ fl', pool_inv s' fl' ul) ∧ scan_free (pool_mm s') = None) ∨
     ∃ fl' sz, 0 < body ∧ N ≤ sz ∧ pool_inv s' fl' ((body - 24, sz) :: ul) ∧
       Tag (body - 24) s' = tag ∧ ∀ a, body ≤ a < body + N → rd a s' = 0).
Proof.
  intros Hinv Hlk Hc Hn. cbn zeta. set (N := align_up64 n POOL_GRANULARITY).
  assert (HN : 0 ≤ N) by (pose proof (align_up64_wrap n); unfold N, POOL_GRANULARITY; lia).
  destruct (alloc_pool_run s fl ul pt n tag Hinv Hlk Hc Hn) as (body & s1 & Hrun & Hk & _ & Hres).
  fold N in Hrun, Hres. eexists body, _. split; [exact Hrun|].
  destruct Hres as [(-> & fl' & Hi & Hs & Hf)|(fl' & cur & sz' & -> & Hsz & Hi & Htag)].
  - split; [done|]. left. eauto.
  - assert (0 < cur) as Hpos.
    { destruct Hi as [Hwf _ _ [_ Ha]]. apply Forall_app in Ha as [_ [Ha _]%Forall_cons].
      pose proof (in_active_bounds _ _ Hwf Ha). simpl in *. lia. }
    replace (cur + 24 =? 0) with false by lia.
    destruct (zero_body_inv s1 cur sz' N fl' ul Hi) as (Hi' & Hk' & Htag' & Hz); [lia|].
    split; [by eapply keeps_trans|]. right. exists fl', sz'.
    replace (cur + 24 - 24) with cur by lia.
    split_and!; [lia|done|done|by rewrite Htag'|done].
Qed.

(** [C1] Every pool allocation returns, at or below DISPATCH_LEVEL, and keeps
    the pool's invariant: blocks have intact headers, never overlap, and lie
    in pages taken from the page allocator.  On success the body is a new
    block of at least the (rounded) size with the caller's tag, zeroed, and
    no cell of any block in use has changed; it returns 0 only when no free
    physical page is left, since the pool retries until then.  A request for
    0 bytes returns 0. *)
Theorem ExAllocatePoolWithTag_spec (s : POOL_STATE) fl ul pt n tag
    (Hinv : pool_inv s fl ul) (Hlk : ExpPoolLock s = 0) (Hc : can_lock (mm_pcr (pool_mm s)))
    (Hn : 0 ≤ n < 18446744073709551616) :
  let N := align_up64 n POOL_GRANULARITY in
  ∃ body s', ExAllocatePoolWithTag pt n tag s = Ok (body, s') ∧ keeps s s' ul ∧
    ((body = 0 ∧ (∃ fl', pool_inv s' fl' ul) ∧ (n = 0 ∨ scan_free (pool_mm s') = None)) ∨
     ∃ fl' sz, 0 < body ∧ N ≤ sz ∧ pool_inv s' fl' ((body - 24, sz) :: ul) ∧
       Tag (body - 24) s' = tag ∧ ∀ a, body ≤ a < body + N → rd a s' = 0).
Proof.
  destruct (decide (n = 0)) as [->|Hne].
  - exists 0, s. split; [done|]. split; [by constructor|]. left. eauto.
  - destruct (alloc_pool_spec s fl ul pt n tag Hinv Hlk Hc) as (body & s' & Hr & Hk & H); [lia|].
    exists body, s'. split; [done|]. split; [done|]. destruct H as [(? & ? & ?)|H]; [left; eauto|].
    right. done.
Qed.

Lemma free_pool_run s fl ul1 h sz ul2 t :
  pool_inv s fl (ul1 ++ (h, sz) :: ul2) → ExpPoolLock s = 0 → can_lock (mm_pcr (pool_mm s)) →
  t = 0 ∨ t = Tag h s →
  ExFreePoolWithTag (h + 24) t s = Ok (tt, push_free h s).
Proof.
  intros Hinv Hlk [[Hif Hr] Hle] Ht. pose proof Hinv as [Hwf _ Hu [_ Ha]].
  apply Forall_app in Hu as [_ [[Hm _] _]%Forall_cons].
  apply Forall_app in Ha as [_ [_ [Ha _]%Forall_cons]%Forall_app].
  pose proof (in_active_bounds _ _ Hwf Ha). simpl in *.
  unfold ExFreePoolWithTag. replace (h + 24 =? 0) with false by lia.
  unfold sizeof_POOL_HEADER. replace (h + 24 - 24) with h by lia.
  unfold mbind at 1, M_bind at 1; simpl. rewrite Hm; simpl.
  unfold mbind at 1, M_bind at 1; simpl.
  replace (truthy t && negb (Tag h s =? t)) with false by (unfold truthy; lia).
  erewrite bind_ok; [|by apply acquire_ok]. erewrite bind_ok; [|reflexivity].
  rewrite release_ok by done. do 2 f_equal.
  destruct s as [[[q f]]]; simpl in *; subst. unfold set_pool_mm, set_mm_pcr; simpl.
  do 3 f_equal. f_equal. by case_if.
Qed.

(** [C11] Freeing a block in use with its tag (or tag 0) puts it back at the
    head of the free list, keeps the invariant and every cell of the other
    blocks in use; freeing it again stops with BAD_POOL_HEADER, and so does
    freeing it with another tag.  The next request that fits returns the very
    same block. *)
Theorem ExFreePoolWithTag_spec (s : POOL_STATE) fl ul1 h sz ul2 t
    (Hinv : pool_inv s fl (ul1 ++ (h, sz) :: ul2)) (Hlk : ExpPoolLock s = 0)
    (Hc : can_lock (mm_pcr (pool_mm s))) :
  (t ≠ 0 → t ≠ Tag h s →
     ExFreePoolWithTag (h + 24) t s = BugCheck BAD_POOL_HEADER h (Tag h s) t 3) ∧
  (t = 0 ∨ t = Tag h s →
     ∃ s', ExFreePoolWithTag (h + 24) t s = Ok (tt, s') ∧
       pool_inv s' ((h, sz) :: fl) (ul1 ++ ul2) ∧ keeps s s' (ul1 ++ ul2) ∧
       ExFreePoolWithTag (h + 24) t s' = BugCheck BAD_POOL_HEADER h POOL_MAGIC_FREE 0 2 ∧
       ∀ pt n tag, 0 < n < 18446744073709551616 → align_up64 n POOL_GRANULARITY ≤ sz →
         ∃ s2, ExAllocatePoolWithTag pt n tag s' = Ok (h + 24, s2)).
Proof.
  pose proof Hinv as [Hwf _ Hu Hl].
  apply Forall_app in Hu as [_ [[Hm _] _]%Forall_cons]. simpl in Hm.
  assert (fl ++ ul1 ++ (h, sz) :: ul2 ≡ₚ ([(h, sz)] ++ (ul1 ++ ul2)) ++ fl) as Hp by solve_Permutation.
  pose proof Hl as Hl'. rewrite Hp in Hl'. apply layout_app_l in Hl'.
  pose proof Hl' as (_ & Ha & _)%layout_cons.
  pose proof (in_active_bounds _ _ Hwf Ha) as (Hlo & Hhi & Hsz). simpl in *.
  split.
  - intros H0 Ht. unfold ExFreePoolWithTag, sizeof_POOL_HEADER.
    replace (h + 24 =? 0) with false by lia. replace (h + 24 - 24) with h by lia.
    unfold mbind, M_bind; simpl. rewrite Hm; simpl.
    by replace (truthy t && negb (Tag h s =? t)) with true by (unfold truthy; lia).
  - intros Ht. exists (push_free h s). split; [by eapply free_pool_run|].
    pose proof (push_free_inv _ _ _ _ _ _ Hinv) as Hi.
    assert (Hk : keeps s (push_free h s) (ul1 ++ ul2)).
    { eapply touch_keeps; [by apply (push_free_touch h sz)|exact Hl']. }
    split_and!; [done|done| |].
    + unfold ExFreePoolWithTag, sizeof_POOL_HEADER.
      replace (h + 24 =? 0) with false by lia. replace (h + 24 - 24) with h by lia.
      unfold mbind, M_bind; simpl.
      replace (Magic h (push_free h s)) with POOL_MAGIC_FREE; [done|].
      unfold push_free. by wr_simpl.
    + intros pt n tag Hn Hfit.
      destruct (alloc_pool_run _ _ _ pt n tag Hi) as (body & s1 & Hrun & _ & Hff & _); [done..|].
      rewrite Hrun. rewrite (Hff h); [eauto|].
      exists [], sz, fl. split_and!; [done|done|constructor].
Qed.

(** ** The interface the executive is given

    [pool_rep p m] says that [m] maps the body of every block in use to its
    tag.  Clients are proved against the laws; [POOL_STATE] implements them. *)

Class PoolInterface (P : Type) `{HasPcr P} := {
  pool_alloc : Z → Z → Z → M P Z;
  pool_free : Z → Z → M P unit;
  pool_rep : P → gmap Z Z → Prop;
  pool_rep_pos p m a t : pool_rep p m → m !! a = Some t → 0 < a < 9223372036854775808;
  pool_rep_pcr p m k : pool_rep p m → pool_rep (set_pcr k p) m;
  pool_alloc_law p m pt n tag :
    pool_rep p m → can_lock (pcr p) → 0 < n < 18446744073709551616 →
    ∃ a p', pool_alloc pt n tag p = Ok (a, p') ∧ pcr p' = pcr p ∧
      ((a = 0 ∧ pool_rep p' m) ∨ (0 < a ∧ m !! a = None ∧ pool_rep p' (<[a := tag]> m)));
  pool_free_law p m a t tag :
    pool_rep p m → can_lock (pcr p) → m !! a = Some t → tag = 0 ∨ tag = t →
    ∃ p', pool_free a tag p = Ok (tt, p') ∧ pcr p' = pcr p ∧ pool_rep p' (delete a m)
}.
#[global] Hint Mode PoolInterface ! - : typeclass_instances.

(** The pool as a client sees it that shares it with the owner of the blocks
    [F]: whatever the client does, those stay live. *)
Definition pool_frame {P} `{HP : HasPcr P} (PI : PoolInterface P) (F : gmap Z Z) : PoolInterface P.
Proof.
  refine {| pool_alloc := pool_alloc; pool_free := pool_free;
            pool_rep := λ p m, m ##ₘ F ∧ pool_rep p (m ∪ F) |}.
  - intros p m a t [_ Hp] Ha. apply (pool_rep_pos _ _ _ t Hp). by apply lookup_union_Some_l.
  - intros p m k [Hd Hp]. split; [done|by apply pool_rep_pcr].
  - intros p m pt n tag [Hd Hp] Hc Hn. destruct (pool_alloc_law p (m ∪ F) pt n tag Hp Hc Hn) as (a & p' & Hr & Hk & Hcase).
    exists a, p'. split_and!; [done..|]. destruct Hcase as [[-> Hp']|(Ha & [Hm HF]%lookup_union_None & Hp')]; [by left|right].
    split_and!; [done..|by apply map_disjoint_insert_l|by rewrite <- insert_union_l].
  - intros p m a t tag [Hd Hp] Hc Ha Ht. destruct (pool_free_law p (m ∪ F) a t tag Hp Hc) as (p' & Hr & Hk & Hp');
      [by apply lookup_union_Some_l|done|]. exists p'. split_and!; [done..|by apply map_disjoint_delete_l|].
    rewrite delete_union, (delete_id F) in Hp'; [done|]. by eapply map_disjoint_Some_l.
Defined.

Definition live_rep (s : POOL_STATE) (m : gmap Z Z) : Prop :=
  ExpPoolLock s = 0 ∧ ∃ fl ul, pool_inv s fl ul ∧
  ∀ a t, m !! a = Some t ↔ ∃ sz, (a - 24, sz) ∈ ul ∧ Tag (a - 24) s = t.

Lemma keeps_tag s s' ul fl b :
  pool_inv s fl ul → keeps s s' ul → b ∈ ul → Tag b.1 s' = Tag b.1 s.
Proof.
  intros [_ _ _ [_ Ha]] Hk Hb. apply Forall_app in Ha as [_ Ha]. rewrite Forall_forall in Ha.
  destruct (Ha b Hb) as [H0 _]. apply (ke_cells _ _ _ Hk b); [done|].
  unfold inside, top. lia.
Qed.

Lemma used_unique s fl ul h sz1 sz2 :
  pool_inv s fl ul → (h, sz1) ∈ ul → (h, sz2) ∈ ul → sz1 = sz2.
Proof.
  intros [_ _ Hu _] H1 H2. rewrite Forall_forall in Hu.
  destruct (Hu _ H1) as [_ E1], (Hu _ H2) as [_ E2]. simpl in *. congruence.
Qed.

(** The same, with the block at [a], of [n] bytes at least, known to be live. *)
Definition live_block (s : POOL_STATE) (m : gmap Z Z) (a n : Z) : Prop :=
  ExpPoolLock s = 0 ∧ ∃ fl sz ul, pool_inv s fl ((a - 24, sz) :: ul) ∧ n ≤ sz ∧
  ∀ b t, m !! b = Some t ↔ ∃ z, (b - 24, z) ∈ (a - 24, sz) :: ul ∧ Tag (b - 24) s = t.

Lemma live_block_rep s m a n : live_block s m a n → live_rep s m.
Proof. intros (Hlk & fl & sz & ul & Hi & _ & Hm). split; [done|]. eauto. Qed.

Lemma live_alloc_block s m pt n tag :
  live_rep s m → can_lock (pcr s) → 0 < n < 18446744073709551616 →
  ∃ a s', ExAllocatePoolWithTag pt n tag s = Ok (a, s') ∧ pcr s' = pcr s ∧
    ((a = 0 ∧ live_rep s' m) ∨ (0 < a ∧ m !! a = None ∧ live_block s' (<[a := tag]> m) a (align_up64 n POOL_GRANULARITY))).
Proof.
  intros (Hlk & fl & ul & Hinv & Hm) Hc Hn.
  destruct (alloc_pool_spec s fl ul pt n tag Hinv Hlk Hc Hn) as (a & s' & Hrun & Hk & Hr).
  exists a, s'. split; [done|]. split; [apply Hk|].
  assert (Hm' : ∀ b t, m !! b = Some t ↔ ∃ sz, (b - 24, sz) ∈ ul ∧ Tag (b - 24) s' = t).
  { intros b t. rewrite Hm. split; intros (sz & Hin & Ht); exists sz; (split; [done|]);
      pose proof (keeps_tag _ _ _ _ _ Hinv Hk Hin); simpl in *; congruence. }
  assert (Hlk' : ExpPoolLock s' = 0) by (by rewrite (ke_lock _ _ _ Hk)).
  destruct Hr as [(-> & (fl' & Hi) & _)|(fl' & sz & Ha & Hsz & Hi & Ht & _)].
  - left. split; [done|]. split; [done|]. eauto.
  - right. assert (Hnot : ∀ z, (a - 24, z) ∉ ul).
    { intros z Hz. destruct Hi as [_ _ _ Hl].
      assert (fl' ++ (a - 24, sz) :: ul ≡ₚ [(a - 24, sz)] ++ ul ++ fl') as Hp by solve_Permutation.
      rewrite Hp, app_assoc in Hl. apply layout_app_l in Hl.
      destruct (layout_app_sep _ _ _ _ _ Hl (list_elem_of_here _ _) Hz) as (Hs & ? & ?).
      unfold sep, top in Hs; simpl in *. lia. }
    split; [done|]. split.
    + apply eq_None_not_Some. intros [t (z & Hz & _)%Hm']. by apply (Hnot z).
    + split; [done|]. exists fl', sz, ul. split; [done|]. split; [done|]. intros b t.
      destruct (decide (a = b)) as [->|Hne].
      * rewrite lookup_insert_eq. split.
        -- intros [= <-]. exists sz. split; [by left|done].
        -- intros (z & _ & Hz). congruence.
      * rewrite lookup_insert_ne, Hm' by done. split; intros (z & Hz & Htz); exists z; (split; [|done]).
        -- by right.
        -- apply elem_of_cons in Hz as [[= Heq]|Hz]; [lia|done].
Qed.

(** Writing in the body of a live block keeps the pool. *)
Lemma live_block_wr s m a n c v : live_block s m a n → a ≤ c < a + n → live_block (wr c v s) m a n.
Proof.
  intros (Hlk & fl & sz & ul & Hi & Hsz & Hm) Hc.
  destruct (body_inv s (wr c v s) (a - 24, sz) fl ul) as (Hi' & Hk & Ht); [| |done|done|].
  - apply touch_wr. unfold inside, top. simpl. lia.
  - intros x Hx. simpl in Hx. rewrite rd_wr. by replace (x =? c) with false by lia.
  - split; [done|]. exists fl, sz, ul. split; [done|]. split; [done|]. intros b t. rewrite Hm.
    assert (Htags : ∀ z, (b - 24, z) ∈ (a - 24, sz) :: ul → Tag (b - 24) (wr c v s) = Tag (b - 24) s).
    { intros z [[= -> _]|Hin]%elem_of_cons; [exact Ht|]. destruct Hi as [_ _ _ Hl].
      rewrite <- Permutation_middle, layout_cons in Hl. destruct Hl as (_ & _ & [_ Ha]). apply Forall_app in Ha as [_ Ha].
      rewrite Forall_forall in Ha. destruct (Ha _ Hin) as [H0 _]. apply (ke_cells _ _ _ Hk _ _ Hin). unfold inside, top. simpl in *. lia. }
    split; intros (z & Hin & <-); exists z; (split; [done|]); [by apply (Htags z)|symmetry; by apply (Htags z)].
Qed.

Lemma live_alloc s m pt n tag :
  live_rep s m → can_lock (pcr s) → 0 < n < 18446744073709551616 →
  ∃ a s', ExAllocatePoolWithTag pt n tag s = Ok (a, s') ∧ pcr s' = pcr s ∧
    ((a = 0 ∧ live_rep s' m) ∨ (0 < a ∧ m !! a = None ∧ live_rep s' (<[a := tag]> m))).
Proof.
  intros Hm Hc Hn. destruct (live_alloc_block s m pt n tag Hm Hc Hn) as (a & s' & Hr & Hp & Hcase).
  exists a, s'. split; [done|]. split; [done|]. destruct Hcase as [?|(? & ? & ?%live_block_rep)]; [by left|by right].
Qed.

Lemma live_free s m a t tag :
  live_rep s m → can_lock (pcr s) → m !! a = Some t → tag = 0 ∨ tag = t →
  ∃ s', ExFreePoolWithTag a tag s = Ok (tt, s') ∧ pcr s' = pcr s ∧ live_rep s' (delete a m).
Proof.
  intros (Hlk & fl & ul & Hinv & Hm) Hc (sz & Hin & Ht)%Hm Htag.
  apply list_elem_of_split in Hin as (u1 & u2 & ->).
  pose proof (free_pool_run _ _ _ _ _ _ tag Hinv Hlk Hc) as Hrun.
  replace (a - 24 + 24) with a in Hrun by lia.
  exists (push_free (a - 24) s). split; [apply Hrun; naive_solver|]. split; [done|].
  split; [done|]. exists ((a - 24, sz) :: fl), (u1 ++ u2). split; [by apply push_free_inv|].
  pose proof Hinv as [Hwf _ _ Hl].
  assert (fl ++ u1 ++ (a - 24, sz) :: u2 ≡ₚ ([(a - 24, sz)] ++ (u1 ++ u2)) ++ fl) as Hp by solve_Permutation.
  rewrite Hp in Hl. apply layout_app_l in Hl.
  assert (Hk : keeps s (push_free (a - 24) s) (u1 ++ u2)).
  { eapply touch_keeps; [|exact Hl]. apply push_free_touch.
    pose proof Hl as (_ & [? _] & _)%layout_cons. done. }
  assert (Hnot : ∀ z, (a - 24, z) ∉ u1 ++ u2).
  { intros z Hz. destruct (layout_app_sep _ _ _ _ _ Hl (list_elem_of_here _ _) Hz) as (Hs & ? & ?).
    unfold sep, top in Hs; simpl in *. lia. }
  assert (Htags : ∀ b, b ∈ u1 ++ u2 → Tag b.1 (push_free (a - 24) s) = Tag b.1 s).
  { intros b Hb. apply (ke_cells _ _ _ Hk b); [done|].
    destruct (layout_app_sep _ _ _ _ _ Hl (list_elem_of_here _ _) Hb) as (_ & _ & ?).
    unfold inside, top. lia. }
  intros b u. destruct (decide (a = b)) as [->|Hne].
  - rewrite lookup_delete_eq. split; [done|]. intros (z & Hz & _). by destruct (Hnot z).
  - rewrite lookup_delete_ne, Hm by done. split; intros (z & Hz & Htz); exists z.
    + assert ((b - 24, z) ∈ u1 ++ u2) as Hz'.
      { rewrite elem_of_app, elem_of_cons in *. destruct Hz as [?|[[= ? ?]|?]]; [auto|lia|auto]. }
      split; [done|]. rewrite <- Htz. by apply (Htags (b - 24, z)).
    + split; [rewrite elem_of_app, elem_of_cons in *; tauto|].
      rewrite <- Htz. symmetry. by apply (Htags (b - 24, z)).
Qed.

#[global] Instance POOL_Interface : PoolInterface POOL_STATE.
Proof.
  refine {| pool_alloc := ExAllocatePoolWithTag; pool_free := ExFreePoolWithTag;
            pool_rep := live_rep |}.
  - intros p m a t (_ & fl & ul & Hinv & Hm) (sz & Hin & _)%Hm.
    destruct Hinv as [Hwf _ _ [_ Ha]]. apply Forall_app in Ha as [_ Ha].
    rewrite Forall_forall in Ha. pose proof (in_active_bounds _ _ Hwf (Ha _ Hin)).
    unfold top in *. simpl in *. lia.
  - intros p m k (Hlk & fl & ul & Hinv & Hm). split; [done|]. exists fl, ul. split; [|done].
    by apply (pool_inv_pcr p k (ExpPoolLock p)).
  - apply live_alloc.
  - apply live_free.
Defined.

(** ** Concrete runs *)

(** A run on a machine with 40 free pages. *)
Definition demo_pool : POOL_STATE :=
  mkPool (mkPfnState demo_pcr (replicate 256 (mkPfn PfnReservedHw 0 0) ++
                               replicate 40 (mkPfn PfnFree 0 0))
            296 40 40 256 0 (mkContig 0x10000000 0 0) (λ a, 0)) 0 0.

Example demo_alloc :
  match (ExInitializePoolManager ;; a ← ExAllocatePoolWithTag 0 100 7;
         b ← ExAllocatePoolWithTag 0 1 8; ExFreePoolWithTag a 7;;
         c ← ExAllocatePoolWithTag 0 50 9; big ← ExAllocatePoolWithTag 0 1000000 9;
         mret (a, b, c, big)) demo_pool with
  | Ok ((a, b, c, big), s) =>
      a = 256 * 4096 + 24 ∧ b = a + 112 + 24 ∧ c = a ∧ big = 0 ∧ MmFreePages (pool_mm s) = 0
  | _ => False
  end.
Proof. vm_compute. auto. Qed.

(** A request within 15 bytes of 2^64 is rounded up to 0: the caller is given a
    block with an empty body. *)
Example huge_request_wraps :
  match (ExInitializePoolManager ;; a ← ExAllocatePoolWithTag 0 18446744073709551615 7;
         mret a) demo_pool with
  | Ok (a, s) => a = 256 * 4096 + 24 ∧ Size (a - 24) s = 0
  | _ => False
  end.
Proof. vm_compute. auto. Qed.

Lemma demo_pool_inv : pool_inv demo_pool [] [].
Proof.
  constructor; [|done|constructor|by split; constructor].
  constructor; try done. intros i p Hp Hs. exfalso.
  unfold demo_pool in Hp; cbn [pool_mm MmPfnDatabase] in Hp.
  apply lookup_app_Some in Hp as [[-> _]%lookup_replicate|[_ [-> _]%lookup_replicate]]; done.
Defined.

Lemma ExAllocatePoolWithTag_spec_witness :
  ∃ s', ExAllocatePoolWithTag 0 100 7 demo_pool = Ok (256 * 4096 + 24, s') ∧
        ∀ a, 256 * 4096 + 24 ≤ a < 256 * 4096 + 24 + 100 → rd a s' = 0.
Proof.
  destruct (ExAllocatePoolWithTag_spec demo_pool [] [] 0 100 7 demo_pool_inv eq_refl
    demo_can_lock ltac:(lia)) as (body & s' & Hrun & _ & Hr).
  assert (Hb : match ExAllocatePoolWithTag 0 100 7 demo_pool with
    | Ok (a, _) => a = 256 * 4096 + 24 | _ => False end) by (vm_compute; reflexivity).
  rewrite Hrun in Hb. subst body. exists s'. split; [exact Hrun|].
  destruct Hr as [[Hbad _]|(fl & sz & _ & _ & _ & _ & Hz)]; [exfalso; clear -Hbad; lia|].
  intros a Ha. apply Hz. change (align_up64 100 POOL_GRANULARITY) with 112. lia.
Defined.

(** One page, wholly used by a block with tag 7. *)
Definition demo_pool_used : POOL_STATE :=
  mkPool (mkPfnState demo_pcr (replicate 256 (mkPfn PfnReservedHw 0 0) ++ [mkPfn PfnActive 0 1])
            257 1 0 257 0 (mkContig 0x10000000 0 0)
            (λ a, if a =? 0x100000 then POOL_MAGIC_USED else if a =? 0x100004 then 7
                  else if a =? 0x100008 then 4072 else 0)) 0 0.

Lemma demo_pool_used_inv : pool_inv demo_pool_used [] ([] ++ (0x100000, 4072) :: []).
Proof.
  constructor.
  - constructor; try done; unfold demo_pool_used; cbn [pool_mm MmPfnDatabase MmHintPfn];
      intros i p Hp Hs; apply lookup_app_Some in Hp as [[-> _]%lookup_replicate|[Hi Hp]]; try done.
    + by apply list_lookup_singleton_Some in Hp as [_ <-].
    + rewrite length_replicate in Hi. lia.
  - done.
  - repeat constructor.
  - split; [by repeat constructor|]. constructor; [|constructor]. split; [done|].
    unfold top; simpl. intros a Ha. unfold active.
    replace (a / 4096) with 256 by (Z.div_mod_to_equations; lia). done.
Defined.

Lemma ExFreePoolWithTag_spec_witness :
  ExFreePoolWithTag (0x100000 + 24) 8 demo_pool_used = BugCheck BAD_POOL_HEADER 0x100000 7 8 3.
Proof.
  apply (ExFreePoolWithTag_spec demo_pool_used [] [] 0x100000 4072 [] 8 demo_pool_used_inv
    eq_refl demo_can_lock); done.
Defined.

(** The pool of the concrete runs, seen through the interface. *)
Lemma demo_pool_rep : pool_rep demo_pool ∅.
Proof.
  split; [done|]. exists [], []. split; [exact demo_pool_inv|].
  intros a t. rewrite lookup_empty. split; [done|]. intros (sz & Hin & _). by apply not_elem_of_nil in Hin.
Qed.
