(* ===== verification/MmVad.v ===== *)
(** * MmVad: user address spaces (src/mm/mmuser.c, src/include/nt/mm.h)

    The list of virtual address descriptors of a process: reserving a range,
    freeing it, tearing the space down; and the creation of the top-level table
    of a new address space.  Descriptors are pool blocks; the chain from
    VadRoot is the list of their addresses and contents. *)

From S2P Require Import Prelude Irql Rtl MmPfn MmPte Pool.

#[local] Open Scope Z_scope.

Record MM_VAD := mkVad { StartingVa : Z; EndingVa : Z; VadFlags : Z; VadSection : Z }.

Record MM_ADDRESS_SPACE := mkSpace {
  Pml4 : Z;
  VadRoot : list (Z * MM_VAD);
  NextAvailableVa : Z;
  HighestVa : Z
}.

Record VM_STATE (P : Type) := mkVm { space : MM_ADDRESS_SPACE; vm_pool : P }.
Arguments mkVm {P} _ _.
Arguments space {P} _.
Arguments vm_pool {P} _.

Definition set_space {P} (x : MM_ADDRESS_SPACE) (s : VM_STATE P) : VM_STATE P := mkVm x (vm_pool s).
Definition set_vm_pool {P} (p : P) (s : VM_STATE P) : VM_STATE P := mkVm (space s) p.

Definition with_vads (l : list (Z * MM_VAD)) (next : Z) (x : MM_ADDRESS_SPACE) : MM_ADDRESS_SPACE :=
  mkSpace (Pml4 x) l next (HighestVa x).

Definition TAG_PROC := 0x636F7250.
Definition sizeof_MM_VAD := 40.
Definition MM_VAD_COMMIT := 0x01.

(** ** Creation: the top-level table *)

(** [for (i = 256; i < 512; i++) pml4[i] = currentPml4[i]]. *)
Fixpoint copy_kernel_half (dst src i : Z) (n : nat) (m : Z → Z) : Z → Z :=
  match n with
  | O => m
  | S n' => copy_kernel_half dst src (i + 1) n' (upd64 (dst + 8 * i) (m (src + 8 * i)) m)
  end.

Definition MmpAllocateUserPml4 (cr3 : Z) : M PFN_STATE Z :=
  pml4Pa ← MmAllocatePhysicalPage;
  if pml4Pa =? 0 then mret 0
  else
    mmod (λ s, set_qmem (copy_kernel_half pml4Pa (Z.land cr3 ADDR_MASK) 256 256 (qmem s)) s);;
    mret pml4Pa.

Definition MmCreateAddressSpace (cr3 : Z) : M PFN_STATE (Z * option MM_ADDRESS_SPACE) :=
  pml4Pa ← MmpAllocateUserPml4 cr3;
  if pml4Pa =? 0 then mret (STATUS_NO_MEMORY, None)
  else mret (STATUS_SUCCESS, Some (mkSpace pml4Pa [] MM_USER_BASE MM_USER_MAX)).

(** Loading CR3: the register after the call. *)
Definition MmSwitchAddressSpace (Space : option MM_ADDRESS_SPACE) (cr3 : Z) : Z :=
  match Space with
  | Some x => if truthy (Pml4 x) then Pml4 x else cr3
  | None => cr3
  end.

Section Vad.
Context {P : Type} `{PoolInterface P}.
Implicit Types (s : VM_STATE P).

Definition vm_do {A} (m : M P A) : M (VM_STATE P) A := zoom vm_pool set_vm_pool m.

(** ** Reserving *)

Definition collides (base size : Z) (v : MM_VAD) : bool :=
  (base <? EndingVa v) && (StartingVa v <? u64 (base + size)).

(** One turn of [while (existing)]: the state is the base and the rest of the
    chain. *)
Definition place_step (all : list (Z * MM_VAD)) (size : Z) (x : Z * list (Z * MM_VAD)) :
    M (VM_STATE P) ((Z * list (Z * MM_VAD)) + Z) :=
  match x.2 with
  | [] => mret (inr x.1)
  | (_, v) :: rest =>
      if collides x.1 size v then mret (inl (EndingVa v, all))
      else mret (inl (x.1, rest))
  end.

Definition MmAllocateVirtualMemory (BaseAddress RegionSize AllocationType : Z) :
    M (VM_STATE P) (Z * Z) :=
  let size := align_up64 RegionSize PAGE_SIZE in
  sp ← mgets space;
  let base0 := if truthy BaseAddress then PAGE_ALIGN BaseAddress else NextAvailableVa sp in
  base ← loop (place_step (VadRoot sp) size) (base0, VadRoot sp);
  if HighestVa sp <? u64 (base + size) then mret (STATUS_NO_MEMORY, BaseAddress)
  else
    vad ← vm_do (pool_alloc 0 sizeof_MM_VAD TAG_PROC);
    if vad =? 0 then mret (STATUS_NO_MEMORY, BaseAddress)
    else
      mmod (λ s, set_space (with_vads
        ((vad, mkVad base (u64 (base + size)) (u32 AllocationType) 0) :: VadRoot (space s))
        (u64 (base + size)) (space s)) s);;
      mret (STATUS_SUCCESS, base).

(** ** Freeing *)

Definition starts_at (va : Z) (e : Z * MM_VAD) : bool := StartingVa e.2 =? va.

Definition MmFreeVirtualMemory (BaseAddress : Z) : M (VM_STATE P) Z :=
  sp ← mgets space;
  match first_idx (starts_at (PAGE_ALIGN BaseAddress)) (VadRoot sp) with
  | Some i =>
      match VadRoot sp !! i with
      | Some (vad, _) =>
          mmod (λ s, set_space (with_vads (delete i (VadRoot (space s))) (NextAvailableVa (space s)) (space s)) s);;
          vm_do (pool_free vad TAG_PROC);;
          mret STATUS_SUCCESS
      | None => mundef
      end
  | None => mret STATUS_INVALID_PARAMETER
  end.

Fixpoint free_vads (l : list (Z * MM_VAD)) : M (VM_STATE P) unit :=
  match l with
  | [] => mret tt
  | (vad, _) :: l' => vm_do (pool_free vad TAG_PROC);; free_vads l'
  end.

Definition MmDestroyAddressSpace : M (VM_STATE P) Z :=
  sp ← mgets space;
  free_vads (VadRoot sp);;
  mmod (λ s, set_space (with_vads [] (NextAvailableVa (space s)) (space s)) s);;
  mret STATUS_SUCCESS.

Definition MmMapViewOfSection (BaseAddress ViewSize : Z) : M (VM_STATE P) (Z * Z) :=
  MmAllocateVirtualMemory BaseAddress ViewSize MM_VAD_COMMIT.

Definition MmUnmapViewOfSection (BaseAddress : Z) : M (VM_STATE P) Z := MmFreeVirtualMemory BaseAddress.

(** ** Invariant *)

Definition apart (x y : MM_VAD) : Prop := EndingVa x ≤ StartingVa y ∨ EndingVa y ≤ StartingVa x.

Record vad_wf (hi : Z) (v : MM_VAD) : Prop := {
  vw_order : 0 ≤ StartingVa v ≤ EndingVa v;
  vw_high : EndingVa v ≤ hi;
  vw_start : StartingVa v mod 4096 = 0;
  vw_end : EndingVa v mod 4096 = 0
}.

Record vm_inv s (m : gmap Z Z) : Prop := {
  vi_pool : pool_rep (vm_pool s) m;
  vi_pcr : can_lock (pcr (vm_pool s));
  vi_nodup : NoDup (VadRoot (space s)).*1;
  vi_live e : e ∈ VadRoot (space s) → m !! e.1 = Some TAG_PROC;
  vi_wf : Forall (λ e, vad_wf (HighestVa (space s)) e.2) (VadRoot (space s));
  vi_apart i j x y : i ≠ j → VadRoot (space s) !! i = Some x → VadRoot (space s) !! j = Some y → apart x.2 y.2;
  vi_next : 0 ≤ NextAvailableVa (space s) ≤ HighestVa (space s) ∧ NextAvailableVa (space s) mod 4096 = 0;
  vi_high : HighestVa (space s) = MM_USER_MAX
}.

(** The range is free: it meets no descriptor. *)
Definition vacant (l : list (Z * MM_VAD)) (base size : Z) : Prop :=
  ∀ e, e ∈ l → collides base size e.2 = false.

(** Chain entries that still lie above the base: each restart passes one. *)
Definition above (base : Z) (l : list (Z * MM_VAD)) : Z := countb (λ e, base <? EndingVa e.2) l.

Lemma above_mono b b' l : b ≤ b' → above b' l ≤ above b l.
Proof.
  intros Hb. induction l as [|e l IH]; [done|]. unfold above in *. rewrite !countb_cons.
  destruct (Z.ltb_spec b' (EndingVa e.2)); destruct (Z.ltb_spec b (EndingVa e.2)); lia.
Qed.

Lemma above_lt b e l : e ∈ l → b < EndingVa e.2 → above (EndingVa e.2) l < above b l.
Proof.
  intros He Hlt. induction l as [|x l IH]; [by apply not_elem_of_nil in He|].
  unfold above in *. rewrite !countb_cons. apply elem_of_cons in He as [->|He].
  - rewrite Z.ltb_irrefl. replace (b <? EndingVa x.2) with true by lia.
    pose proof (above_mono b (EndingVa x.2) l ltac:(lia)) as Hm. unfold above in Hm. lia.
  - specialize (IH He). destruct (Z.ltb_spec (EndingVa e.2) (EndingVa x.2)); destruct (Z.ltb_spec b (EndingVa x.2)); lia.
Qed.

(** The placement loop ends at the least address, from the base on, where the
    range is free. *)
Lemma place_loop all size s : 
  0 ≤ size → (∀ e, e ∈ all → 0 ≤ EndingVa e.2 ∧ EndingVa e.2 + size < 18446744073709551616) →
  ∀ k base rest seen, above base all ≤ Z.of_nat k → all = seen ++ rest → 0 ≤ base → base + size < 18446744073709551616 →
  (∀ e, e ∈ seen → collides base size e.2 = false) →
  ∃ n b, loops_to (place_step all size) n (base, rest) s b s ∧
    n ≤ Z.of_nat k * (Z.of_nat (length all) + 1) + Z.of_nat (length rest) + 1 ∧
    base ≤ b ∧ (b = base ∨ ∃ e, e ∈ all ∧ b = EndingVa e.2) ∧ vacant all b size ∧
    ∀ b', base ≤ b' < b → ¬ vacant all b' size.
Proof.
  intros Hsz Hend. induction k as [k IHk] using lt_wf_ind. intros base rest.
  induction rest as [|[a v] rest IHr]; intros seen Hk Hall Hb Hbs Hseen.
  - rewrite app_nil_r in Hall. subst seen. exists 1, base. split_and!; [by apply loops_done|simpl; lia|lia|by left|done|lia].
  - destruct (collides base size v) eqn:Hc.
    + assert (Hv : (a, v) ∈ all) by (rewrite Hall; apply elem_of_app; right; by left).
      pose proof Hc as [Hlt1 Hlt2]%andb_true_iff. apply Z.ltb_lt in Hlt1, Hlt2. rewrite u64_small in Hlt2 by lia.
      pose proof (above_lt base (a, v) all Hv Hlt1) as Hlt. destruct (Hend _ Hv) as [He1 He2]. simpl in *.
      pose proof (countb_bounds (λ e, EndingVa v <? EndingVa e.2) all) as Hpos. fold (above (EndingVa v) all) in Hpos.
      destruct k as [|k]; [lia|].
      destruct (IHk k ltac:(lia) (EndingVa v) all []) as (n & b & Hl & Hn & Hge & Hor & Hvac & Hleast); [lia|done|lia|lia| |].
      { intros e He. by apply not_elem_of_nil in He. }
      exists (n + 1), b. split_and!.
      * eapply loops_step; [|exact Hl]. unfold place_step. simpl. by rewrite Hc.
      * simpl. lia.
      * lia.
      * right. destruct Hor as [->|?]; [by exists (a, v)|done].
      * done.
      * intros b' Hb'. destruct (decide (b' < EndingVa v)) as [Hin|Hout]; [|apply Hleast; lia].
        intros Hvb. specialize (Hvb _ Hv). simpl in Hvb. unfold collides in Hvb.
        rewrite u64_small in Hvb by lia. lia.
    + destruct (IHr (seen ++ [(a, v)])) as (n & b & Hl & Hn & Hrest); [done|by rewrite <- app_assoc|done|done| |].
      { intros e [He|He]%elem_of_app; [by apply Hseen|]. by apply list_elem_of_singleton in He as ->. }
      exists (n + 1), b. split; [|split; [cbn [length]; lia|done]].
      eapply loops_step; [|exact Hl]. unfold place_step. simpl. by rewrite Hc.
Qed.

Lemma page_round n :
  0 ≤ n ≤ 4611686018427387904 →
  n ≤ align_up64 n PAGE_SIZE < n + 4096 ∧ align_up64 n PAGE_SIZE mod 4096 = 0.
Proof.
  intros Hn. unfold align_up64, align_down, PAGE_SIZE. rewrite u64_small by lia. Z.div_mod_to_equations. lia.
Qed.

(** Where a request starts looking. *)
Definition first_base (sp : MM_ADDRESS_SPACE) (BaseAddress : Z) : Z :=
  if truthy BaseAddress then PAGE_ALIGN BaseAddress else NextAvailableVa sp.

Lemma first_base_ok s m Base :
  vm_inv s m → 0 ≤ Base < 9223372036854775808 →
  0 ≤ first_base (space s) Base < 9223372036854775808 ∧ first_base (space s) Base mod 4096 = 0.
Proof.
  intros Hinv Hb. destruct (vi_next _ _ Hinv) as [Hn1 Hn2]. rewrite (vi_high _ _ Hinv) in Hn1.
  unfold first_base, PAGE_ALIGN, align_down, PAGE_SIZE, MM_USER_MAX in *. case_if; Z.div_mod_to_equations; lia.
Qed.

Lemma vacant_apart l base size e :
  vacant l base size → e ∈ l → base + size < 18446744073709551616 → 0 ≤ base + size →
  base + size ≤ StartingVa e.2 ∨ EndingVa e.2 ≤ base.
Proof.
  intros Hv He Hs Hz. specialize (Hv e He). unfold collides in Hv. rewrite u64_small in Hv by lia. lia.
Qed.

Lemma vm_inv_pool s m p m' :
  vm_inv s m → pool_rep p m' → pcr p = pcr (vm_pool s) →
  (∀ e, e ∈ VadRoot (space s) → m' !! e.1 = Some TAG_PROC) → vm_inv (set_vm_pool p s) m'.
Proof. intros [] Hp Hpc Hl. constructor; simpl; try done. by rewrite Hpc. Qed.

(** A descriptor for a vacant, aligned range may be added. *)
Lemma vm_inv_add s m a base size fl :
  vm_inv s m → m !! a = Some TAG_PROC → a ∉ (VadRoot (space s)).*1 →
  vacant (VadRoot (space s)) base size → 0 ≤ base → 0 ≤ size → base + size ≤ MM_USER_MAX →
  base mod 4096 = 0 → size mod 4096 = 0 →
  vm_inv (set_space (with_vads ((a, mkVad base (base + size) fl 0) :: VadRoot (space s)) (base + size) (space s)) s) m.
Proof.
  intros Hinv Ha Hnew Hvac Hb Hs Hhi Hab Has. pose proof Hinv as [Hp Hc Hnd Hlive Hwf Hap Hnext Hh].
  assert (Hsum : (base + size) mod 4096 = 0) by (Z.div_mod_to_equations; lia).
  assert (Hout : ∀ e, e ∈ VadRoot (space s) → apart (mkVad base (base + size) fl 0) e.2).
  { intros e He. unfold apart. simpl. unfold MM_USER_MAX in *.
    destruct (vacant_apart _ base size e Hvac He); lia. }
  constructor; simpl; rewrite ?Hh; try done.
  - by constructor.
  - intros e [->|He]%elem_of_cons; [done|by apply Hlive].
  - constructor; [|by rewrite Hh in Hwf]. constructor; simpl; try done; lia.
  - intros [|i] [|j] x y Hne Hx Hy; simplify_eq/=.
    + apply Hout. by eapply list_elem_of_lookup_2.
    + pose proof (Hout _ (list_elem_of_lookup_2 _ _ _ Hx)) as Ho. unfold apart in *. simpl in *. tauto.
    + eapply (Hap i j); [by intros ->|done|done].
  - split; [lia|done].
Qed.

Lemma place_run s m Base size :
  vm_inv s m → 0 ≤ Base < 9223372036854775808 → 0 ≤ size ≤ 4611686018427391999 →
  Z.of_nat (length (VadRoot (space s))) < 2147483648 →
  let b0 := first_base (space s) Base in
  ∃ b, loop (place_step (VadRoot (space s)) size) (b0, VadRoot (space s)) s = Ok (b, s) ∧
    b0 ≤ b < 9223372036854775808 ∧ b mod 4096 = 0 ∧ vacant (VadRoot (space s)) b size ∧
    ∀ b', b0 ≤ b' < b → ¬ vacant (VadRoot (space s)) b' size.
Proof.
  intros Hinv Hb Hsz Hlen b0. destruct (first_base_ok s m Base Hinv Hb) as [Hb0 Hal]. fold b0 in Hb0, Hal.
  pose proof (vi_wf _ _ Hinv) as Hwf. rewrite Forall_forall, (vi_high _ _ Hinv) in Hwf.
  set (l := VadRoot (space s)) in *. pose proof (countb_bounds (λ e : Z * MM_VAD, b0 <? EndingVa e.2) l) as Hc.
  destruct (place_loop l size s ltac:(lia)) with (k := length l) (base := b0) (rest := l) (seen := @nil (Z * MM_VAD))
    as (n & b & Hl & Hn & Hge & Hor & Hvac & Hleast); [|unfold above; lia|done|lia|lia| |].
  - intros e He. destruct (Hwf e He) as [? ? _ _]. unfold MM_USER_MAX in *. lia.
  - intros e He. by apply not_elem_of_nil in He.
  - exists b. assert (Hbb : b < 9223372036854775808 ∧ b mod 4096 = 0).
    { destruct Hor as [->|(e & He & ->)]; [lia|]. destruct (Hwf e He) as [? ? _ ?]. unfold MM_USER_MAX in *. split; [lia|done]. }
    split_and!; try done; try lia. eapply loop_ok; [exact Hl|]. nia.
Qed.

Lemma vad_allocate_run s m Base Size Type_ :
  vm_inv s m → 0 ≤ Base < 9223372036854775808 → 0 ≤ Size ≤ 4611686018427387904 →
  Z.of_nat (length (VadRoot (space s))) < 2147483648 →
  let size := align_up64 Size PAGE_SIZE in
  let b0 := first_base (space s) Base in
  ∃ st r s' m', MmAllocateVirtualMemory Base Size Type_ s = Ok ((st, r), s') ∧ vm_inv s' m' ∧
    ((st = STATUS_NO_MEMORY ∧ r = Base ∧ space s' = space s ∧ m' = m) ∨
     (st = STATUS_SUCCESS ∧ b0 ≤ r ∧ r + size ≤ MM_USER_MAX ∧ r mod 4096 = 0 ∧
      vacant (VadRoot (space s)) r size ∧ (∀ b', b0 ≤ b' < r → ¬ vacant (VadRoot (space s)) b' size) ∧
      ∃ a, m !! a = None ∧ m' = <[a := TAG_PROC]> m ∧
        VadRoot (space s') = (a, mkVad r (r + size) (u32 Type_) 0) :: VadRoot (space s) ∧
        NextAvailableVa (space s') = r + size)).
Proof.
  intros Hinv Hb Hsz Hlen size b0. destruct (page_round Size Hsz) as [Hs1 Hs2]. fold size in Hs1, Hs2.
  destruct (place_run s m Base size Hinv Hb ltac:(lia) Hlen) as (b & Hl & Hbr & Hba & Hvac & Hleast). fold b0 in Hl, Hbr, Hleast.
  pose proof Hinv as [Hp Hc Hnd Hlive Hwf Hap Hnext Hh].
  destruct (first_base_ok s m Base Hinv Hb) as [Hb0 _]. fold b0 in Hb0.
  unfold MmAllocateVirtualMemory. fold size. cbv zeta. unfold mbind at 1, M_bind at 1. cbn [mgets].
  fold (first_base (space s) Base). fold b0. rewrite (bind_ok _ _ _ _ _ Hl).
  rewrite Hh, u64_small by lia. destruct (Z.ltb_spec MM_USER_MAX (b + size)) as [Hbig|Hfit].
  { exists STATUS_NO_MEMORY, Base, s, m. split_and!; [done|done|by left]. }
  destruct (pool_alloc_law (vm_pool s) m 0 sizeof_MM_VAD TAG_PROC Hp Hc ltac:(done)) as (a & p' & Hr & Hpc & Hcase).
  erewrite bind_ok; [|apply (zoom_ok _ _ _ _ _ _ Hr)]. destruct Hcase as [[-> Hp']|(Ha & Hna & Hp')].
  - exists STATUS_NO_MEMORY, Base, (set_vm_pool p' s), m. split_and!; [done|by eapply vm_inv_pool|by left].
  - replace (a =? 0) with false by lia. eexists STATUS_SUCCESS, b, _, _. split; [reflexivity|]. split.
    + apply (vm_inv_add (set_vm_pool p' s) (<[a := TAG_PROC]> m)); simpl; try done; try lia.
      * apply (vm_inv_pool s m); [done..|]. intros e He. rewrite lookup_insert_ne; [by apply Hlive|].
        intros ->. rewrite (Hlive _ He) in Hna. done.
      * by rewrite lookup_insert_eq.
      * intros (e & -> & He)%list_elem_of_fmap. by rewrite (Hlive _ He) in Hna.
    + right. split_and!; [done|lia|done|done|done|done|]. by exists a.
Qed.

(** Removing the descriptor [e] at position [i] and giving its block back. *)
Lemma vm_inv_delete s m i e p :
  vm_inv s m → VadRoot (space s) !! i = Some e → pool_rep p (delete e.1 m) → pcr p = pcr (vm_pool s) →
  vm_inv (set_vm_pool p (set_space (with_vads (delete i (VadRoot (space s))) (NextAvailableVa (space s)) (space s)) s))
    (delete e.1 m).
Proof.
  intros [Hp Hc Hnd Hlive Hwf Hap Hnext Hh] He Hp' Hpc.
  assert (Hsub : delete i (VadRoot (space s)) `sublist_of` VadRoot (space s)) by apply sublist_delete.
  assert (Hpos : ∀ j x, delete i (VadRoot (space s)) !! j = Some x →
    VadRoot (space s) !! (if decide (j < i)%nat then j else S j) = Some x).
  { intros j x. case_decide; [by rewrite list_lookup_delete_lt|by rewrite list_lookup_delete_ge by lia]. }
  constructor; simpl; try done.
  - by rewrite Hpc.
  - rewrite list_fmap_delete. eapply sublist_NoDup; [exact Hnd|apply sublist_delete].
  - intros x [j Hj%Hpos]%list_elem_of_lookup_1. rewrite lookup_delete_ne.
    + apply Hlive. by eapply list_elem_of_lookup_2.
    + intros Heq. enough (i = if decide (j < i)%nat then j else S j) as Hij by (case_decide; lia).
      eapply NoDup_lookup; [exact Hnd|rewrite list_lookup_fmap, He; done|rewrite list_lookup_fmap, Hj; simpl; by rewrite Heq].
  - apply Forall_forall. intros x [j Hj%Hpos]%list_elem_of_lookup_1. rewrite Forall_forall in Hwf. apply Hwf.
    by eapply list_elem_of_lookup_2.
  - intros j k x y Hne Hj%Hpos Hk%Hpos. eapply Hap; [|exact Hj|exact Hk]. repeat case_decide; lia.
Qed.

Lemma free_run s m Base :
  vm_inv s m →
  match first_idx (starts_at (PAGE_ALIGN Base)) (VadRoot (space s)) with
  | None => MmFreeVirtualMemory Base s = Ok (STATUS_INVALID_PARAMETER, s)
  | Some i => ∃ s' m' e, VadRoot (space s) !! i = Some e ∧ StartingVa e.2 = PAGE_ALIGN Base ∧
      MmFreeVirtualMemory Base s = Ok (STATUS_SUCCESS, s') ∧ vm_inv s' m' ∧
      m' = delete e.1 m ∧ VadRoot (space s') = delete i (VadRoot (space s))
  end.
Proof.
  intros Hinv.
  destruct (first_idx (starts_at (PAGE_ALIGN Base)) (VadRoot (space s))) as [i|] eqn:Hi.
  2:{ unfold MmFreeVirtualMemory. unfold mbind at 1, M_bind at 1. cbn [mgets]. by rewrite Hi. }
  apply first_idx_Some in Hi as Hi'. destruct Hi' as [([a v] & He & Hst) _].
  pose proof (vi_live _ _ Hinv _ (list_elem_of_lookup_2 _ _ _ He)) as Hlive. simpl in Hlive.
  destruct (pool_free_law (vm_pool s) m a TAG_PROC TAG_PROC (vi_pool _ _ Hinv) (vi_pcr _ _ Hinv) Hlive ltac:(by right))
    as (p' & Hr & Hpc & Hp').
  eexists _, (delete a m), (a, v). split_and!; [done|by apply Z.eqb_eq in Hst| |by apply (vm_inv_delete s m i (a, v))|done|done].
  unfold MmFreeVirtualMemory. unfold mbind at 1, M_bind at 1. cbn [mgets]. rewrite Hi, He. erewrite bind_ok; [|reflexivity].
  erewrite bind_ok; [|by apply zoom_ok; simpl; exact Hr]. done.
Qed.

Lemma free_vads_run l : ∀ s m,
  pool_rep (vm_pool s) m → can_lock (pcr (vm_pool s)) → NoDup l.*1 → (∀ e, e ∈ l → m !! e.1 = Some TAG_PROC) →
  ∃ p' m', free_vads l s = Ok (tt, set_vm_pool p' s) ∧ pool_rep p' m' ∧ pcr p' = pcr (vm_pool s) ∧
    ∀ a, m' !! a = if bool_decide (a ∈ l.*1) then None else m !! a.
Proof.
  induction l as [|[e v] l IH]; intros s m Hp Hc Hnd Hl; cbn [free_vads].
  - exists (vm_pool s), m. split_and!; [by destruct s|done..].
  - apply NoDup_cons in Hnd as [Hne Hnd].
    destruct (pool_free_law (vm_pool s) m e TAG_PROC TAG_PROC Hp Hc) as (p1 & Hr & Hpc & Hp1); [apply (Hl (e, v)); by left|by right|].
    destruct (IH (set_vm_pool p1 s) (delete e m)) as (p' & m' & Hr' & Hp' & Hpc' & Hm'); simpl; try done.
    + by rewrite Hpc.
    + intros x Hx. rewrite lookup_delete_ne; [apply Hl; by right|]. intros ->. apply Hne. apply list_elem_of_fmap. by exists x.
    + exists p', m'. split_and!; [|done|by rewrite Hpc'|].
      * erewrite bind_ok; [|by apply zoom_ok, Hr]. exact Hr'.
      * intros a. rewrite Hm'. cbn [fmap list_fmap fst]. destruct (decide (a = e)) as [->|Hae].
        -- rewrite (bool_decide_eq_true_2 (e ∈ e :: _)) by (by left). rewrite lookup_delete_eq. by case_match.
        -- rewrite lookup_delete_ne by done. erewrite (bool_decide_ext (a ∈ l.*1)); [done|]. rewrite elem_of_cons. naive_solver.
Qed.

(** [C21] Reserving address space.  A request of at most 2^62 bytes at a base below
    2^63 (a size within a page of 2^64 wraps, see [huge_region_wraps]) always
    ends, in a bounded number of turns of the placement loop.  It is placed at the least
    page-aligned address, from the one asked for (or the end of the last
    reservation) on, where it meets no other reservation, below the end of user
    space; otherwise it fails with STATUS_NO_MEMORY and the space unchanged.
    Reservations stay page-aligned and pairwise disjoint.  Freeing the address
    it returned gives the descriptor's block back to the pool, which then holds
    exactly the blocks it held before the request, and restores the list; a
    failed request leaves the pool's blocks as they were; freeing an
    address at which no reservation starts fails with no effect; destroying the
    space gives every descriptor's block back to the pool and no other. *)
Theorem vad_spec s m Base Size Type_ :
  vm_inv s m → 0 ≤ Base < 9223372036854775808 → 0 ≤ Size ≤ 4611686018427387904 →
  Z.of_nat (length (VadRoot (space s))) < 2147483648 →
  let size := align_up64 Size PAGE_SIZE in
  let b0 := first_base (space s) Base in
  (∃ st r s' m', MmAllocateVirtualMemory Base Size Type_ s = Ok ((st, r), s') ∧ vm_inv s' m' ∧
    ((st = STATUS_NO_MEMORY ∧ r = Base ∧ space s' = space s ∧ m' = m) ∨
     (st = STATUS_SUCCESS ∧ b0 ≤ r ∧ r + size ≤ MM_USER_MAX ∧ r mod 4096 = 0 ∧
      vacant (VadRoot (space s)) r size ∧ (∀ b', b0 ≤ b' < r → ¬ vacant (VadRoot (space s)) b' size) ∧
      (∃ a, m !! a = None ∧ m' = <[a := TAG_PROC]> m ∧
         VadRoot (space s') = (a, mkVad r (r + size) (u32 Type_) 0) :: VadRoot (space s) ∧
         NextAvailableVa (space s') = r + size) ∧
      ∃ s'', MmFreeVirtualMemory r s' = Ok (STATUS_SUCCESS, s'') ∧ vm_inv s'' m ∧
        VadRoot (space s'') = VadRoot (space s)))) ∧
  ((∀ e, e ∈ VadRoot (space s) → StartingVa e.2 ≠ PAGE_ALIGN Base) →
     MmFreeVirtualMemory Base s = Ok (STATUS_INVALID_PARAMETER, s)) ∧
  (∃ s' m', MmDestroyAddressSpace s = Ok (STATUS_SUCCESS, s') ∧ vm_inv s' m' ∧ VadRoot (space s') = [] ∧
     ∀ a, m' !! a = if bool_decide (a ∈ (VadRoot (space s)).*1) then None else m !! a).
Proof.
  intros Hinv Hb Hs Hlen size b0. split_and!.
  - destruct (vad_allocate_run s m Base Size Type_ Hinv Hb Hs Hlen) as (st & r & s' & m' & Hr & Hinv' & Hcase).
    exists st, r, s', m'. split_and!; [done|done|]. destruct Hcase as [?|(Hst & H1 & H2 & H3 & H4 & H5 & a & Ha & Hm & Hroot & Hnx)]; [by left|right].
    split_and!; [done..|by exists a|]. pose proof (free_run s' m' r Hinv') as Hfree.
    assert (Hal : PAGE_ALIGN r = r) by (unfold PAGE_ALIGN, align_down, PAGE_SIZE; lia).
    rewrite Hal, Hroot in Hfree. cbn [first_idx] in Hfree. unfold starts_at at 1 in Hfree. cbn [snd StartingVa] in Hfree.
    rewrite Z.eqb_refl in Hfree.
    destruct Hfree as (s'' & m'' & e & [= <-] & _ & Hf & Hinv'' & Hm'' & Hd). exists s''. split_and!; [done| |done].
    subst m' m''. simpl in Hinv''. by rewrite delete_insert_eq, delete_id in Hinv''.
  - intros Hno. pose proof (free_run s m Base Hinv) as Hfree.
    destruct (first_idx _ _) as [i|]; [|done]. destruct Hfree as (_ & _ & e & He & Hst & _).
    exfalso. apply (Hno e); [by eapply list_elem_of_lookup_2|done].
  - pose proof Hinv as [Hp Hc Hnd Hlive Hwf Hap Hnext Hh].
    destruct (free_vads_run (VadRoot (space s)) s m Hp Hc Hnd Hlive) as (p' & m' & Hr & Hp' & Hpc & Hm').
    eexists _, m'. split.
    { unfold MmDestroyAddressSpace. unfold mbind at 1, M_bind at 1. cbn [mgets].
      rewrite (bind_ok _ _ _ _ _ Hr). reflexivity. }
    split_and!; [|done|done]. constructor; simpl; try done.
    + by rewrite Hpc.
    + constructor.
    + intros e He. by apply not_elem_of_nil in He.
Qed.
End Vad.

(** ** A new address space *)

Lemma copy_half_spec dst src : ∀ n i m a,
  (∀ j k, 0 ≤ j < 512 → 0 ≤ k < 512 → dst + 8 * j ≠ src + 8 * k) → 0 ≤ i → i + Z.of_nat n ≤ 512 →
  (∀ j, i ≤ j < i + Z.of_nat n → a = dst + 8 * j → copy_kernel_half dst src i n m a = m (src + 8 * j)) ∧
  ((∀ j, i ≤ j < i + Z.of_nat n → a ≠ dst + 8 * j) → copy_kernel_half dst src i n m a = m a).
Proof.
  induction n as [|n IH]; intros i m a Hsep Hi Hn; cbn [copy_kernel_half]; [split; [lia|done]|].
  destruct (IH (i + 1) (upd64 (dst + 8 * i) (m (src + 8 * i)) m) a Hsep ltac:(lia) ltac:(lia)) as [IH1 IH2]. split.
  - intros j Hj Ha. destruct (decide (j = i)) as [->|Hne].
    + rewrite IH2 by (intros k Hk; lia). unfold upd64. subst a. by rewrite Z.eqb_refl.
    + rewrite (IH1 j) by lia. unfold upd64. destruct (Z.eqb_spec (src + 8 * j) (dst + 8 * i)) as [He|]; [|done].
      exfalso. apply (Hsep i j); lia.
  - intros Hout. rewrite IH2 by (intros k Hk; apply Hout; lia). unfold upd64.
    destruct (Z.eqb_spec a (dst + 8 * i)) as [->|]; [|done]. exfalso. apply (Hout i); lia.
Qed.

Lemma kernel_half_spec dst src m a :
  (∀ j k, 0 ≤ j < 512 → 0 ≤ k < 512 → dst + 8 * j ≠ src + 8 * k) →
  (∀ j, 256 ≤ j < 512 → a = dst + 8 * j → copy_kernel_half dst src 256 256 m a = m (src + 8 * j)) ∧
  ((∀ j, 256 ≤ j < 512 → a ≠ dst + 8 * j) → copy_kernel_half dst src 256 256 m a = m a).
Proof.
  intros Hsep. generalize (eq_refl (Z.of_nat 256)). generalize 256%nat at 1 3 4 as n. change (Z.of_nat 256) with 256.
  intros n Hn. destruct (copy_half_spec dst src n 256 m a Hsep) as [H1 H2]; [lia|lia|].
  split; intros; [apply H1|apply H2]; eauto with lia.
Qed.

Lemma user_pml4_run s cr3 pa s1 :
  MmAllocatePhysicalPage s = Ok (pa, s1) → pa ≠ 0 →
  ∃ m2, MmpAllocateUserPml4 cr3 s = Ok (pa, set_qmem m2 s1) ∧
    ((∀ j k, 0 ≤ j < 512 → 0 ≤ k < 512 → pa + 8 * j ≠ base_of cr3 + 8 * k) →
     ∀ a, (∀ j, 256 ≤ j < 512 → a = pa + 8 * j → m2 a = qmem s1 (base_of cr3 + 8 * j)) ∧
       ((∀ j, 256 ≤ j < 512 → a ≠ pa + 8 * j) → m2 a = qmem s1 a)).
Proof.
  intros R Hpa. eexists. split.
  - unfold MmpAllocateUserPml4. rewrite (bind_ok _ _ _ _ _ R). replace (pa =? 0) with false by lia. reflexivity.
  - intros Hsep a. apply kernel_half_spec, Hsep.
Qed.

(** A new address space shares the kernel half and nothing else:
    MmCreateAddressSpace fails with STATUS_NO_MEMORY, or returns a space with no
    reservations whose top-level table translates every address of the upper
    half as the current one does and no address of the lower half.  The current
    space is translated as before in either case. *)
Theorem MmCreateAddressSpace_spec s cr3 :
  mm_ok s (base_of cr3) →
  ∃ st sp s', MmCreateAddressSpace cr3 s = Ok ((st, sp), s') ∧ mm_ok s' (base_of cr3) ∧
    (∀ Va, translation s' cr3 Va = translation s cr3 Va) ∧
    ((st = STATUS_NO_MEMORY ∧ sp = None) ∨
     ∃ x, st = STATUS_SUCCESS ∧ sp = Some x ∧ VadRoot x = [] ∧
       ∀ Va, translation s' (MmSwitchAddressSpace sp cr3) Va =
         if 256 <=? pte_index Va 39 then translation s cr3 Va else None).
Proof.
  intros Hok. unfold MmCreateAddressSpace.
  destruct (alloc_ok s _ Hok) as (pa & s1 & R1 & O1 & P1 & T1 & [[-> ->]|(Hpa & Hal & Hf & Ha & Hzero & Hno)]).
  { exists STATUS_NO_MEMORY, None, s. split_and!; [|done|done|by left].
    unfold MmpAllocateUserPml4. by rewrite (bind_ok _ _ _ 0 s) by (by rewrite (bind_ok _ _ _ _ _ R1)). }
  set (root := base_of cr3) in *. pose proof O1 as [Hpw Hc Hwf].
  destruct (pt_pages _ _ Hwf [] root) as (Hra & Hrr & _); [simpl; lia|constructor|done|].
  assert (Hpr : root / 4096 ≠ pa / 4096) by (apply (Hno [] root); [simpl; lia|constructor|done]).
  assert (Hsep : ∀ j k, 0 ≤ j < 512 → 0 ≤ k < 512 → pa + 8 * j ≠ root + 8 * k) by (intros; Z.div_mod_to_equations; lia).
  destruct (user_pml4_run s cr3 pa s1 R1 ltac:(lia)) as (m2 & Hrun & Hcopy). specialize (Hcopy Hsep).
  set (s2 :=  set_qmem m2 s1) in *.
  assert (Hslot : ∀ q u j, (length q ≤ 3)%nat → Forall idx_ok q → idx_ok j → tbl (qmem s1) root q = Some u →
    qmem s2 (u + 8 * j) = qmem s1 (u + 8 * j)).
  { intros q u j Hlq Hq Hj Hu. apply Hcopy. intros k Hk.
    destruct (pt_pages _ _ Hwf q u Hlq Hq Hu) as (Hua & _ & _). specialize (Hno q u Hlq Hq Hu).
    unfold idx_ok in Hj. Z.div_mod_to_equations. lia. }
  destruct (pages_ext s1 s2 root O1) as [O2 T2]; [by apply pfn_wf_set_qmem|done|done| |].
  { intros q u Hlq Hq Hu. by apply (pt_pages _ _ Hwf q u). }
  assert (Hbound : pa < 68719476736).
  { destruct (decide (page_state (pa / 4096) s1 = None)) as [E|E]; [by rewrite E in Ha|].
    unfold page_state in E. destruct (MmPfnDatabase s1 !! Z.to_nat (pa / 4096)) as [x|] eqn:Hx; [|done].
    apply lookup_lt_Some in Hx. destruct Hpw as [Hl Hh]. Z.div_mod_to_equations. lia. }
  exists STATUS_SUCCESS, (Some (mkSpace pa [] MM_USER_BASE MM_USER_MAX)), s2. split_and!.
  - rewrite (bind_ok _ _ _ _ _ Hrun). by replace (pa =? 0) with false by lia.
  - done.
  - intros Va. by rewrite T2, T1.
  - right. exists (mkSpace pa [] MM_USER_BASE MM_USER_MAX). do 3 (split; [reflexivity|]). intros Va.
    cbn [MmSwitchAddressSpace Pml4]. unfold truthy. replace (pa =? 0) with false by lia. cbn [negb]. unfold translation at 1.
    assert (Hbase : base_of pa = pa) by (rewrite base_of_mod; Z.div_mod_to_equations; lia). rewrite Hbase.
    pose proof (pte_index_ok Va 39) as Hi. destruct (Z.leb_spec 256 (pte_index Va 39)) as [Hk|Hk].
    + rewrite <- T1 by done. unfold translation, va_path. fold root. cbn [walk].
      assert (He : qmem s2 (pa + 8 * pte_index Va 39) = qmem s1 (root + 8 * pte_index Va 39)).
      { apply (proj1 (Hcopy _) (pte_index Va 39)); unfold idx_ok in Hi; lia. }
      rewrite He. destruct (present _) eqn:Hp; [|done]. destruct (large _) eqn:Hlg; [done|]. f_equal.
      apply (walk_same (qmem s1) (qmem s2) [_; _; _]). intros q j r u Heq Hu.
      assert (Hidx : Forall idx_ok (q ++ j :: r)) by (rewrite <- Heq; indices (pte_index_ok Va)).
      assert (Hlen : length (q ++ j :: r) = 3%nat) by (by rewrite <- Heq). rewrite length_app in Hlen. simpl in Hlen.
      rewrite Forall_app, Forall_cons in Hidx. destruct Hidx as (Hq & Hj & _).
      apply (Hslot (pte_index Va 39 :: q) u j); [simpl; lia|by constructor|done|]. simpl. by rewrite Hp, Hlg.
    + cbn [va_path walk]. replace (qmem s2 (pa + 8 * pte_index Va 39)) with 0; [done|].
      symmetry. etrans; [apply (proj2 (Hcopy _)); intros j Hj; lia|]. apply Hzero. unfold idx_ok in Hi. lia.
Qed.

(** ** Concrete runs *)

Definition demo_vm : VM_STATE POOL_STATE := mkVm (mkSpace 0 [] MM_USER_BASE MM_USER_MAX) demo_pool.

Lemma demo_vm_inv : vm_inv demo_vm ∅.
Proof.
  constructor; simpl; try done.
  - exact demo_pool_rep.
  - constructor.
  - intros e He. by apply not_elem_of_nil in He.
Qed.

Lemma vad_spec_witness :
  ∃ s', MmAllocateVirtualMemory 0 100 1 demo_vm = Ok ((STATUS_SUCCESS, MM_USER_BASE), s') ∧
    ∃ s'', MmFreeVirtualMemory MM_USER_BASE s' = Ok (STATUS_SUCCESS, s'') ∧ VadRoot (space s'') = [].
Proof.
  destruct (vad_spec demo_vm ∅ 0 100 1 demo_vm_inv ltac:(lia) ltac:(lia) ltac:(simpl; lia))
    as ((st & r & s' & m' & R & _ & Hc) & _ & _).
  assert (Hb : match MmAllocateVirtualMemory 0 100 1 demo_vm with
    Ok ((st, r), _) => st = STATUS_SUCCESS ∧ r = MM_USER_BASE | _ => False end) by (vm_compute; split; reflexivity).
  rewrite R in Hb. destruct Hb as [-> ->]. exists s'. split; [exact R|].
  destruct Hc as [[E _]|(_ & _ & _ & _ & _ & _ & _ & s'' & Hf & _ & Hl)]; [discriminate E|]. exists s''. split; [exact Hf|exact Hl].
Defined.

(** A size within a page of 2^64 wraps to 0: the descriptor is empty and the
    call succeeds. *)
Example huge_region_wraps :
  match MmAllocateVirtualMemory 0 18446744073709551615 1 demo_vm with
  | Ok ((st, r), s) => st = STATUS_SUCCESS ∧ StartingVa <$> (VadRoot (space s)).*2 = [r] ∧
                       EndingVa <$> (VadRoot (space s)).*2 = [r]
  | _ => False
  end.
Proof. vm_compute. split_and!; reflexivity. Qed.

Lemma MmCreateAddressSpace_spec_witness :
  ∃ sp s', MmCreateAddressSpace demo_cr3 demo_mm = Ok ((STATUS_SUCCESS, Some sp), s') ∧ Pml4 sp = 0x101000 ∧
    translation s' 0x101000 0x400000 = None.
Proof.
  destruct (MmCreateAddressSpace_spec demo_mm demo_cr3 demo_mm_ok) as (st & sp & s' & R & _ & _ & Hc).
  assert (Hb : match MmCreateAddressSpace demo_cr3 demo_mm with
    Ok ((st, Some x), _) => Pml4 x = 0x101000 | _ => False end) by (vm_compute; reflexivity).
  rewrite R in Hb. destruct sp as [x|]; [|contradiction].
  destruct Hc as [[_ E]|(y & -> & [= <-] & _ & Ht)]; [discriminate E|]. exists x, s'. split; [exact R|]. split; [exact Hb|].
  specialize (Ht 0x400000). cbn [MmSwitchAddressSpace] in Ht. rewrite Hb in Ht. exact Ht.
Defined.
