(* ===== verification/Disk.v ===== *)
(** * Disk: sectors and little-endian fields

    What the file systems are given of the disk driver (src/drivers/ata/ahci.c,
    whose body programs the controller): the class [BlockDevice] states that a
    transfer of up to 256 sectors moves whole 512-byte sectors between the
    buffer and the disk, and that a longer read is cut to 256 sectors and still
    reports success.  The file also holds the reading and writing of fields
    in byte buffers that every on-disk format shares. *)

From S2P Require Import Prelude.

#[local] Open Scope Z_scope.

(** ** Byte buffers *)

Definition byte (b : Z) : Prop := 0 ≤ b < 256.

(** The little-endian number in a field, and the field of a number. *)
Fixpoint le_val (bs : list Z) : Z :=
  match bs with
  | [] => 0
  | b :: bs' => b + 256 * le_val bs'
  end.

Fixpoint le_bytes (n : nat) (v : Z) : list Z :=
  match n with
  | O => []
  | S n' => v mod 256 :: le_bytes n' (v / 256)
  end.

(** The field of [n] bytes at offset [o]. *)
Definition sub (o n : nat) (buf : list Z) : list Z := take n (drop o buf).
Definition field (o n : nat) (buf : list Z) : Z := le_val (sub o n buf).

(** The [n] bytes at [o] of a buffer, when it has them. *)
Definition bytes_at (o n : Z) (buf : list Z) : option (list Z) :=
  if (0 <=? o) && (0 <=? n) && (o + n <=? Z.of_nat (length buf)) then Some (sub (Z.to_nat o) (Z.to_nat n) buf) else None.

(** [bs] written over a buffer at offset [o]; past its end there is no buffer. *)
Definition splice (o : nat) (bs buf : list Z) : list Z :=
  take o buf ++ bs ++ drop (o + length bs) buf.
Definition store_at (o : nat) (bs buf : list Z) : option (list Z) :=
  if (o + length bs <=? length buf)%nat then Some (splice o bs buf) else None.

Lemma le_bytes_length n v : length (le_bytes n v) = n.
Proof. revert v. induction n as [|n IH]; intros v; simpl; [done|by rewrite IH]. Qed.

Lemma le_bytes_byte n v : Forall byte (le_bytes n v).
Proof.
  revert v. induction n as [|n IH]; intros v; simpl; constructor; [|apply IH].
  unfold byte. Z.div_mod_to_equations. lia.
Qed.

Lemma le_val_bytes n v : le_val (le_bytes n v) = v mod 256 ^ Z.of_nat n.
Proof.
  revert v. induction n as [|n IH]; intros v; simpl le_bytes; simpl le_val.
  - by rewrite Z.mod_1_r.
  - rewrite IH, Nat2Z.inj_succ, Z.pow_succ_r by lia.
    rewrite Z.rem_mul_r by (try apply Z.pow_pos_nonneg; lia). done.
Qed.

Lemma le_val_bound bs : Forall byte bs → 0 ≤ le_val bs < 256 ^ Z.of_nat (length bs).
Proof.
  induction 1 as [|b bs Hb _ IH]; [simpl; lia|]. unfold byte in Hb.
  cbn [le_val length]. rewrite Nat2Z.inj_succ, Z.pow_succ_r by lia. lia.
Qed.

Lemma sub_length o n buf : (o + n ≤ length buf)%nat → length (sub o n buf) = n.
Proof. intros Hl. unfold sub. rewrite length_take, length_drop. lia. Qed.

Lemma sub_Forall (Q : Z → Prop) o n buf : Forall Q buf → Forall Q (sub o n buf).
Proof. intros Hb. by apply Forall_take, Forall_drop. Qed.

Lemma field_bound o n buf :
  Forall byte buf → (o + n ≤ length buf)%nat → 0 ≤ field o n buf < 256 ^ Z.of_nat n.
Proof.
  intros Hb Hl. unfold field. rewrite <- (sub_length o n buf Hl) at 3.
  by apply le_val_bound, sub_Forall.
Qed.

Lemma splice_length o bs buf : (o + length bs ≤ length buf)%nat → length (splice o bs buf) = length buf.
Proof. intros Hl. unfold splice. rewrite !length_app, length_take, length_drop. lia. Qed.

Lemma splice_Forall (Q : Z → Prop) o bs buf : Forall Q bs → Forall Q buf → Forall Q (splice o bs buf).
Proof.
  intros Hs Hb. unfold splice. rewrite !Forall_app.
  split_and!; [by apply Forall_take|done|by apply Forall_drop].
Qed.

Lemma sub_splice_same o n bs buf :
  length bs = n → (o + n ≤ length buf)%nat → sub o n (splice o bs buf) = bs.
Proof.
  intros Hn Hl. unfold sub, splice. rewrite drop_app_length' by (rewrite length_take; lia).
  by rewrite take_app_length'.
Qed.

Lemma sub_splice_other o n o' bs buf :
  (o' + length bs ≤ length buf)%nat → (o + n ≤ o' ∨ o' + length bs ≤ o)%nat →
  sub o n (splice o' bs buf) = sub o n buf.
Proof.
  intros Hl Hd. apply list_eq. intros i. unfold sub, splice.
  destruct (decide (i < n)%nat) as [Hi|Hi]; [|by rewrite !lookup_take_ge by lia].
  rewrite !lookup_take_lt, !lookup_drop by lia. destruct Hd as [Hd|Hd].
  - rewrite lookup_app_l by (rewrite length_take; lia). by rewrite lookup_take_lt by lia.
  - rewrite lookup_app_r by (rewrite length_take; lia). rewrite lookup_app_r by (rewrite length_take; lia).
    rewrite length_take, lookup_drop. f_equal. lia.
Qed.

(** A number written to its field is read back, and other fields are kept. *)
Lemma field_stored o n v buf :
  0 ≤ v < 256 ^ Z.of_nat n → (o + n ≤ length buf)%nat → field o n (splice o (le_bytes n v) buf) = v.
Proof.
  intros Hv Hl. unfold field. rewrite sub_splice_same by (by rewrite ?le_bytes_length).
  rewrite le_val_bytes. by apply Z.mod_small.
Qed.

Lemma field_kept o n o' n' v buf :
  (o' + n' ≤ length buf)%nat → (o + n ≤ o' ∨ o' + n' ≤ o)%nat → field o n (splice o' (le_bytes n' v) buf) = field o n buf.
Proof. intros Hl Hd. unfold field. by rewrite sub_splice_other by (by rewrite le_bytes_length). Qed.

Lemma store_at_fits o bs buf :
  (o + length bs ≤ length buf)%nat → store_at o bs buf = Some (splice o bs buf).
Proof. intros Hl. unfold store_at. destruct (Nat.leb_spec (o + length bs) (length buf)); [done|lia]. Qed.

Lemma store_at_over o bs buf : (length buf < o + length bs)%nat → store_at o bs buf = None.
Proof. intros Hl. unfold store_at. destruct (Nat.leb_spec (o + length bs) (length buf)); [lia|done]. Qed.

Lemma splice_all bs buf : length bs = length buf → splice 0 bs buf = bs.
Proof. intros Hl. unfold splice. simpl. by rewrite Hl, drop_all, app_nil_r. Qed.

(** ** The block device *)

Definition SECTOR : nat := 512.

(** The contents of [n] sectors from [lba], for a disk given by its sectors. *)
Fixpoint sectors (sec : Z → list Z) (lba : Z) (n : nat) : list Z :=
  match n with
  | O => []
  | S n' => sec lba ++ sectors sec (lba + 1) n'
  end.

(** A read gives the status and the bytes put at the start of the buffer; a
    write is given the bytes it reads from the buffer.  [dev_up] is a drive that
    is attached and answers: the driver finds its port ([AhciIsPresent]), and
    every transfer succeeds.  That leaves out two ways the driver can fail, a drive
    that reports an error and the buffer each transfer takes from physical memory
    and never gives back, so that a real one fails at last.  A count above 256 is
    cut to 256 without a word ([ahci_read_clamp]); no client writes that much. *)
Class BlockDevice (D : Type) := {
  AhciIsPresent : D → bool;
  AhciReadSectors : Z → Z → M D (Z * list Z);
  AhciWriteSectors : Z → Z → list Z → M D Z;
  sector : D → Z → list Z;
  dev_up : D → Prop;
  ahci_present_law d : dev_up d → AhciIsPresent d = true;
  sector_len d l : dev_up d → length (sector d l) = SECTOR;
  sector_byte d l : dev_up d → Forall byte (sector d l);
  ahci_read_law d lba n : dev_up d → 0 < n ≤ 256 →
    ∃ d', AhciReadSectors lba n d = Ok ((STATUS_SUCCESS, sectors (sector d) lba (Z.to_nat n)), d') ∧
      dev_up d' ∧ ∀ l, sector d' l = sector d l;
  ahci_read_clamp d lba n : dev_up d → 256 < n → AhciReadSectors lba n d = AhciReadSectors lba 256 d;
  ahci_write_law d lba n bs : dev_up d → 0 < n ≤ 256 →
    length bs = (SECTOR * Z.to_nat n)%nat → Forall byte bs →
    ∃ d', AhciWriteSectors lba n bs d = Ok (STATUS_SUCCESS, d') ∧ dev_up d' ∧
      ∀ l, sector d' l = if (lba <=? l) && (l <? lba + n)
                         then sub (SECTOR * Z.to_nat (l - lba)) SECTOR bs else sector d l
}.
#[global] Hint Mode BlockDevice ! : typeclass_instances.

Lemma sectors_length sec lba n :
  (∀ l, length (sec l) = SECTOR) → length (sectors sec lba n) = (SECTOR * n)%nat.
Proof.
  intros Hs. revert lba. induction n as [|n IH]; intros lba; cbn [sectors length]; [lia|].
  rewrite length_app, Hs, IH. lia.
Qed.

Lemma sectors_ext sec sec' lba n :
  (∀ l, lba ≤ l < lba + Z.of_nat n → sec l = sec' l) → sectors sec lba n = sectors sec' lba n.
Proof.
  revert lba. induction n as [|n IH]; intros lba He; [done|]. cbn [sectors].
  rewrite (He lba), (IH (lba + 1)); [done|intros; apply He; lia|lia].
Qed.

Lemma sectors_Forall (Q : Z → Prop) sec lba n :
  (∀ l, Forall Q (sec l)) → Forall Q (sectors sec lba n).
Proof. intros Hs. revert lba. induction n as [|n IH]; intros lba; cbn [sectors]; [constructor|by apply Forall_app]. Qed.

(** Reading back what was written over whole sectors. *)
Lemma sectors_sub sec lba n bs :
  length bs = (SECTOR * n)%nat →
  (∀ l, lba ≤ l < lba + Z.of_nat n → sec l = sub (SECTOR * Z.to_nat (l - lba)) SECTOR bs) →
  sectors sec lba n = bs.
Proof.
  revert lba bs. induction n as [|n IH]; intros lba bs Hl Hs.
  - destruct bs; [done|]. cbn in Hl. lia.
  - cbn [sectors]. rewrite (Hs lba) by lia. rewrite (IH (lba + 1) (drop SECTOR bs)).
    + rewrite Z.sub_diag. cbn [Z.to_nat]. rewrite Nat.mul_0_r. unfold sub. rewrite drop_0. apply take_drop.
    + rewrite length_drop. lia.
    + intros l Hl'. rewrite (Hs l) by lia. unfold sub. rewrite drop_drop.
      replace (Z.to_nat (l - lba)) with (S (Z.to_nat (l - (lba + 1)))) by lia. do 2 f_equal. lia.
Qed.

(** ** A disk in memory: the device of the witnesses *)

Record RAMDISK := mkDisk { platter : Z → list Z }.

Definition ram_write (lba n : Z) (bs : list Z) (d : RAMDISK) : RAMDISK :=
  mkDisk (λ l, if (lba <=? l) && (l <? lba + n)
               then sub (SECTOR * Z.to_nat (l - lba)) SECTOR bs else platter d l).

#[global, program] Instance ram_device : BlockDevice RAMDISK := {
  AhciIsPresent d := true;
  AhciReadSectors lba n := λ d, Ok ((STATUS_SUCCESS, sectors (platter d) lba (Z.to_nat (Z.min n 256))), d);
  AhciWriteSectors lba n bs := λ d, Ok (STATUS_SUCCESS, ram_write lba n bs d);
  sector := platter;
  dev_up d := ∀ l, length (platter d l) = SECTOR ∧ Forall byte (platter d l)
}.
Next Obligation. done. Qed.
Next Obligation. intros d l Hd. apply Hd. Qed.
Next Obligation. intros d l Hd. apply Hd. Qed.
Next Obligation. intros d lba n Hd Hn. cbn. rewrite Z.min_l by lia. eauto. Qed.
Next Obligation. intros d lba n Hd Hn. cbn. by rewrite !Z.min_r by lia. Qed.
Next Obligation.
  intros d lba n bs Hd Hn Hl Hb. exists (ram_write lba n bs d). split_and!; [done| |done].
  intros l. unfold ram_write. cbn [platter]. case_if; [|apply Hd]. split; [|by apply sub_Forall].
  apply sub_length. rewrite Hl. apply andb_true_iff in Heqb as [?%Z.leb_le ?%Z.ltb_lt]. nia.
Qed.
