(* ===== verification/Fat32.v ===== *)
(** * Fat32: the FAT32 file system driver (src/fs/fat32.c)

    The mount record with its cached allocation table, cluster input and
    output, the cluster chains, the root directory, and reading, writing and
    deleting files by name.  The disk is any [BlockDevice], buffers come from
    any [PoolInterface].  A directory entry is its 32 bytes; [fat_mem] is the
    array the pointer fat_cache leads to.  Pool blocks are zeroed when they are
    handed out (Pool), so a fresh buffer is zeros. *)

From S2P Require Import Prelude Irql Pool Disk.

#[local] Open Scope Z_scope.

Definition STATUS_DEVICE_DOES_NOT_EXIST := 0xC00000C0.
Definition STATUS_DISK_FULL := 0xC000017F.
Definition STATUS_INVALID_IMAGE_FORMAT := 0xC000007B.

(** End of chain, and the least value that means it. *)
Definition EOC := 0x0FFFFFFF.
Definition EOC_MIN := 0x0FFFFFF8.
Definition FAT_MASK := 0x0FFFFFFF.
Definition FAT_ATTR_ARCHIVE := 0x20.

(** ** The on-disk records *)

Definition BytesPerSector (bpb : list Z) : Z := field 11 2 bpb.
Definition SectorsPerCluster (bpb : list Z) : Z := field 13 1 bpb.
Definition ReservedSectors (bpb : list Z) : Z := field 14 2 bpb.
Definition NumberOfFATs (bpb : list Z) : Z := field 16 1 bpb.
Definition RootEntryCount (bpb : list Z) : Z := field 17 2 bpb.
Definition TotalSectors16 (bpb : list Z) : Z := field 19 2 bpb.
Definition SectorsPerFAT16 (bpb : list Z) : Z := field 22 2 bpb.
Definition TotalSectors32 (bpb : list Z) : Z := field 32 4 bpb.
Definition SectorsPerFAT32 (bpb : list Z) : Z := field 36 4 bpb.
Definition RootCluster (bpb : list Z) : Z := field 44 4 bpb.

Definition ENTRY : nat := 32.
Definition EName (e : list Z) : list Z := sub 0 11 e.
Definition name0 (e : list Z) : Z := field 0 1 e.
Definition FirstClusterHigh (e : list Z) : Z := field 20 2 e.
Definition FirstClusterLow (e : list Z) : Z := field 26 2 e.
Definition FileSize (e : list Z) : Z := field 28 4 e.
Definition set_FileSize (n : Z) (e : list Z) : list Z := splice 28 (le_bytes 4 n) e.

(** [(entry.FirstClusterHigh << 16) | entry.FirstClusterLow]. *)
Definition first_cluster (e : list Z) : Z :=
  u32 (Z.lor (Z.shiftl (FirstClusterHigh e) 16) (FirstClusterLow e)).

(** ** The mount *)

Record FAT32_MOUNT := mkMount {
  partition_start : Z; bytes_per_sector : Z; sectors_per_cluster : Z; bytes_per_cluster : Z;
  reserved_sectors : Z; num_fats : Z; sectors_per_fat : Z; root_cluster : Z;
  fat_start : Z; data_start : Z; fat_total_sectors : Z; valid : bool;
  fat_cache : Z; fat_entries : Z; lock : Z }.

Record FS (P D : Type) := mkFs { mnt : FAT32_MOUNT; fat_mem : list Z; fs_pool : P; dev : D }.
Arguments mkFs {P D} _ _ _ _.
Arguments mnt {P D} _.
Arguments fat_mem {P D} _.
Arguments fs_pool {P D} _.
Arguments dev {P D} _.

Definition with_fat (cache : Z) (m : FAT32_MOUNT) : FAT32_MOUNT :=
  mkMount (partition_start m) (bytes_per_sector m) (sectors_per_cluster m) (bytes_per_cluster m)
    (reserved_sectors m) (num_fats m) (sectors_per_fat m) (root_cluster m) (fat_start m) (data_start m)
    (fat_total_sectors m) (valid m) cache (fat_entries m) (lock m).

Definition mounted (m : FAT32_MOUNT) : FAT32_MOUNT :=
  mkMount (partition_start m) (bytes_per_sector m) (sectors_per_cluster m) (bytes_per_cluster m)
    (reserved_sectors m) (num_fats m) (sectors_per_fat m) (root_cluster m) (fat_start m) (data_start m)
    (fat_total_sectors m) true (fat_cache m) (fat_entries m) 0.

Section Fat32.
Context {P D : Type} `{PoolInterface P} `{!BlockDevice D}.
Implicit Types (s : FS P D).

Definition set_mnt (m : FAT32_MOUNT) s : FS P D := mkFs m (fat_mem s) (fs_pool s) (dev s).
Definition set_fat_mem (f : list Z) s : FS P D := mkFs (mnt s) f (fs_pool s) (dev s).
Definition set_fs_pool (p : P) s : FS P D := mkFs (mnt s) (fat_mem s) p (dev s).
Definition set_dev (d : D) s : FS P D := mkFs (mnt s) (fat_mem s) (fs_pool s) d.

Definition on_pool {A} (m : M P A) : M (FS P D) A := zoom fs_pool set_fs_pool m.
Definition on_dev {A} (m : M D A) : M (FS P D) A := zoom dev set_dev m.

(** ExAllocatePool and ExFreePool are the tagged calls with tag 0. *)
Definition ExAllocatePool (n : Z) : M (FS P D) Z := on_pool (pool_alloc 0 n 0).
Definition ExFreePool (a : Z) : M (FS P D) unit := on_pool (pool_free a 0).

(** ** Sectors and clusters *)

Definition Fat32ReadSectors (lba count : Z) : M (FS P D) (Z * list Z) :=
  if count =? 0 then mret (STATUS_SUCCESS, []) else on_dev (AhciReadSectors lba count).

Definition Fat32WriteSectors (lba count : Z) (bs : list Z) : M (FS P D) Z :=
  if count =? 0 then mret STATUS_SUCCESS else on_dev (AhciWriteSectors lba count bs).

(** A read into a buffer that is too small runs over its end. *)
Definition into (o : nat) (buf : list Z) (r : Z * list Z) : M (FS P D) (Z * list Z) :=
  match store_at o r.2 buf with
  | Some buf' => mret (r.1, buf')
  | None => mundef
  end.

Definition cluster_lba (m : FAT32_MOUNT) (cluster : Z) : Z :=
  u64 (data_start m + (cluster - 2) * sectors_per_cluster m).

Definition Fat32ReadCluster (cluster : Z) (buffer : list Z) : M (FS P D) (Z * list Z) :=
  if cluster <? 2 then mret (STATUS_INVALID_PARAMETER, buffer)
  else
    m ← mgets mnt;
    r ← Fat32ReadSectors (cluster_lba m cluster) (sectors_per_cluster m);
    into 0 buffer r.

Definition Fat32WriteCluster (cluster : Z) (buffer : list Z) : M (FS P D) Z :=
  if cluster <? 2 then mret STATUS_INVALID_PARAMETER
  else
    m ← mgets mnt;
    let n := (SECTOR * Z.to_nat (sectors_per_cluster m))%nat in
    if (n <=? length buffer)%nat
    then Fat32WriteSectors (cluster_lba m cluster) (sectors_per_cluster m) (take n buffer)
    else mundef.

(** ** The allocation table *)

Definition Fat32GetFatEntry (cluster : Z) : M (FS P D) Z :=
  m ← mgets mnt;
  if fat_entries m <=? cluster then mret EOC
  else if fat_cache m =? 0 then mret EOC
  else
    w ← mderef (λ s, fat_mem s !! Z.to_nat cluster);
    mret (Z.land w FAT_MASK).

Definition Fat32SetFatEntry (cluster value : Z) : M (FS P D) Z :=
  m ← mgets mnt;
  if fat_entries m <=? cluster then mret STATUS_INVALID_PARAMETER
  else if fat_cache m =? 0 then mret STATUS_INVALID_PARAMETER
  else
    mmod (λ s, set_fat_mem (<[Z.to_nat cluster := Z.land value FAT_MASK]> (fat_mem s)) s);;
    if bytes_per_sector m =? 0 then mundef
    else
      let byte_offset := u32 (cluster * 4) in
      let sector_offset := byte_offset / bytes_per_sector m in
      let offset_in_sector := byte_offset mod bytes_per_sector m in
      r ← Fat32ReadSectors (u64 (fat_start m + sector_offset)) 1;
      if negb (NT_SUCCESS r.1) then mret r.1
      else
        match store_at (Z.to_nat offset_in_sector) (le_bytes 4 (Z.land value FAT_MASK)) r.2 with
        | None => mundef
        | Some sector_buf => Fat32WriteSectors (u64 (fat_start m + sector_offset)) 1 sector_buf
        end.

(** The status and, on success, [*out_cluster].  Without a cache the read is
    through a null pointer. *)
Definition Fat32FindFreeCluster : M (FS P D) (Z * option Z) :=
  m ← mgets mnt;
  if (2 <? fat_entries m) && (fat_cache m =? 0) then mundef
  else
    i ← mgets (λ s, first_idx (λ w, w =? 0) (drop 2 (take (Z.to_nat (fat_entries m)) (fat_mem s))));
    match i with
    | Some i => mret (STATUS_SUCCESS, Some (2 + Z.of_nat i))
    | None => mret (STATUS_DISK_FULL, None)
    end.

(** The loop of Fat32AllocateChain, [left] turns before its end. *)
Fixpoint allocate_from (left : nat) (cur : Z) : M (FS P D) Z :=
  match left with
  | O => mret STATUS_SUCCESS
  | S O => Fat32SetFatEntry cur EOC;; mret STATUS_SUCCESS
  | S left' =>
      r ← Fat32FindFreeCluster;
      match r.2 with
      | None => Fat32SetFatEntry cur EOC;; mret r.1
      | Some next =>
          Fat32SetFatEntry next EOC;;
          Fat32SetFatEntry cur next;;
          allocate_from left' next
      end
  end.

Definition Fat32AllocateChain (start_cluster count : Z) : M (FS P D) Z :=
  allocate_from (Z.to_nat count) start_cluster.

(** [cur < 0x0FFFFFF8 && cur >= 2]: a cluster of a chain. *)
Definition in_chain (cur : Z) : bool := (cur <? EOC_MIN) && (2 <=? cur).

(** ** Directories *)

Definition dir_entry (buf : list Z) (i : nat) : list Z := sub (ENTRY * i) ENTRY buf.

(** The scan of one cluster from entry [i]: whether the end of the directory
    was met, and the entries stored so far. *)
Fixpoint dir_scan (buf : list Z) (i left : nat) (max : Z) (acc : list (list Z)) : bool * list (list Z) :=
  match left with
  | O => (false, acc)
  | S left' =>
      if Z.of_nat (length acc) <? max then
        let e := dir_entry buf i in
        if name0 e =? 0 then (true, acc)
        else dir_scan buf (S i) left' max (if name0 e =? 0xE5 then acc else acc ++ [e])
      else (false, acc)
  end.

Definition per_cluster (m : FAT32_MOUNT) : nat := Z.to_nat (bytes_per_cluster m / 32).

(** One turn over the chain of a directory: status, entries, and whether
    [*out_count] is written. *)
Definition dir_turn (max : Z) (x : Z * list Z * list (list Z)) :
    M (FS P D) ((Z * list Z * list (list Z)) + (Z * list (list Z) * bool)) :=
  let '(cur, buf, acc) := x in
  if in_chain cur && (Z.of_nat (length acc) <? max) then
    m ← mgets mnt;
    r ← Fat32ReadCluster cur buf;
    if negb (NT_SUCCESS r.1) then mret (inr (r.1, acc, false))
    else
      let '(ended, acc') := dir_scan r.2 0 (per_cluster m) max acc in
      if (ended : bool) then mret (inr (STATUS_SUCCESS, acc', true))
      else
        next ← Fat32GetFatEntry cur;
        if (next =? 0) || (EOC_MIN <=? next) then mret (inr (STATUS_SUCCESS, acc', true))
        else mret (inl (next, r.2, acc'))
  else mret (inr (STATUS_SUCCESS, acc, true)).

Definition zeros (n : Z) : list Z := replicate (Z.to_nat n) 0.

(** Every exit of the loop frees the buffer. *)
Definition Fat32ReadDirectory (dir_cluster max_entries : Z) : M (FS P D) (Z * list (list Z) * bool) :=
  m ← mgets mnt;
  cluster_buf ← ExAllocatePool (bytes_per_cluster m);
  if cluster_buf =? 0 then mret (STATUS_NO_MEMORY, [], false)
  else
    r ← loop (dir_turn max_entries) (dir_cluster, zeros (bytes_per_cluster m), []);
    ExFreePool cluster_buf;;
    mret r.

(** ** Names *)

(** The copy of at most [n] characters up to the end or a dot ([dot]), in
    upper case, and the rest of the name. *)
Definition upcase (c : Z) : Z := if (97 <=? c) && (c <=? 122) then c - 32 else c.

Fixpoint copy_part (dot : bool) (n : nat) (name : list Z) : list Z * list Z :=
  match n, name with
  | S n', c :: rest =>
      if (c =? 0) || (dot && (c =? 46)) then ([], name)
      else let '(a, r) := copy_part dot n' rest in (upcase c :: a, r)
  | _, _ => ([], name)
  end.

(** [while (name[si] && name[si] != '.') si++; if (name[si] == '.') si++;] *)
Fixpoint skip_dot (name : list Z) : list Z :=
  match name with
  | [] => []
  | c :: rest => if c =? 0 then name else if c =? 46 then rest else skip_dot rest
  end.

(** The 8.3 name, with both parts filled up with [pad]: Fat32FindEntry leaves
    the zeros of the cleared buffer, Fat32WriteFile writes spaces. *)
Definition short_name (pad : Z) (name : list Z) : list Z :=
  let '(base, rest) := copy_part true 8 name in
  let '(ext, _) := copy_part false 3 (skip_dot rest) in
  base ++ replicate (8 - length base) pad ++ ext ++ replicate (3 - length ext) pad.

Definition is_named (fat_name : list Z) (e : list Z) : bool := bool_decide (EName e = fat_name).

Definition Fat32FindEntry (dir_cluster : Z) (name : list Z) : M (FS P D) (Z * option (list Z)) :=
  '(st, entries, counted) ← Fat32ReadDirectory dir_cluster 64;
  if negb (NT_SUCCESS st) then mret (st, None)
  else
    let entries := if (counted : bool) then entries else [] in
    match first_idx (is_named (short_name 0 name)) entries with
    | Some i => mret (STATUS_SUCCESS, entries !! i)
    | None => mret (STATUS_OBJECT_NAME_NOT_FOUND, None)
    end.

(** ** Mounting *)

Definition read_bpb (lba : Z) (bpb : list Z) (m : FAT32_MOUNT) : FAT32_MOUNT :=
  let fat_start_ := u64 (lba + ReservedSectors bpb) in
  let total_fat := u32 (NumberOfFATs bpb * SectorsPerFAT32 bpb) in
  let total := if TotalSectors32 bpb =? 0 then TotalSectors16 bpb else TotalSectors32 bpb in
  let data_sectors := u32 (total - u32 (ReservedSectors bpb + total_fat)) in
  mkMount lba (BytesPerSector bpb) (SectorsPerCluster bpb) (BytesPerSector bpb * SectorsPerCluster bpb)
    (ReservedSectors bpb) (NumberOfFATs bpb) (SectorsPerFAT32 bpb) (RootCluster bpb)
    fat_start_ (u64 (fat_start_ + total_fat)) total_fat (valid m) (fat_cache m)
    (data_sectors / SectorsPerCluster bpb) (lock m).

(** The words of a byte buffer. *)
Definition words (bs : list Z) : list Z :=
  (λ i, field (4 * i) 4 bs) <$> seq 0 (length bs / 4).

(** One turn of the loop that reads the table, 64 sectors at a time, into the
    cache of [fat_entries] words. *)
Definition fat_turn (offset : Z) : M (FS P D) (Z + Z) :=
  m ← mgets mnt;
  if offset <? fat_total_sectors m then
    let chunk := Z.min 64 (fat_total_sectors m - offset) in
    r ← Fat32ReadSectors (u64 (fat_start m + offset)) chunk;
    mem ← mgets fat_mem;
    match store_at (Z.to_nat (u32 (offset * 512) / 4)) (words r.2) mem with
    | None => mundef
    | Some mem' =>
        mmod (set_fat_mem mem');;
        if negb (NT_SUCCESS r.1) then mret (inr r.1) else mret (inl (offset + chunk))
    end
  else mret (inr STATUS_SUCCESS).

Definition Fat32MountPartition (partition_start_lba : Z) : M (FS P D) Z :=
  r ← Fat32ReadSectors partition_start_lba 1;
  if negb (NT_SUCCESS r.1) then mret r.1
  else
    let bpb := r.2 in
    if truthy (RootEntryCount bpb) || truthy (SectorsPerFAT16 bpb) || (BytesPerSector bpb =? 0)
    then mret STATUS_INVALID_IMAGE_FORMAT
    else if SectorsPerCluster bpb =? 0 then mundef
    else
      mmod (λ s, set_mnt (read_bpb partition_start_lba bpb (mnt s)) s);;
      old ← mgets (λ s, fat_cache (mnt s));
      mwhen (truthy old) (ExFreePool old);;
      n ← mgets (λ s, fat_entries (mnt s));
      cache ← ExAllocatePool (n * 4);
      mmod (λ s, set_mnt (with_fat cache (mnt s)) (set_fat_mem (zeros n) s));;
      if cache =? 0 then mret STATUS_NO_MEMORY
      else
        st ← loop fat_turn 0;
        if negb (NT_SUCCESS st) then mret st
        else
          mmod (λ s, set_mnt (mounted (mnt s)) s);;
          mret STATUS_SUCCESS.

Definition Fat32IsMounted : M (FS P D) bool := mgets (λ s, valid (mnt s)).

(** ** Reading a file *)

(** One turn of the copy loop: [out] is the buffer filled so far, of the
    [bufsize] bytes the caller has. *)
Definition read_turn (read_size bufsize : Z) (x : Z * list Z * list Z) :
    M (FS P D) ((Z * list Z * list Z) + (Z * list Z)) :=
  let '(cur, buf, out) := x in
  let bytes_copied := Z.of_nat (length out) in
  if (2 <=? cur) && (cur <? EOC_MIN) && (bytes_copied <? read_size) then
    m ← mgets mnt;
    r ← Fat32ReadCluster cur buf;
    if negb (NT_SUCCESS r.1) then mret (inr (r.1, out))
    else
      let copy := bytes_per_cluster m in
      let copy := if read_size <? u32 (bytes_copied + copy) then read_size - bytes_copied else copy in
      if bufsize <? bytes_copied + copy then mundef
      else
        next ← Fat32GetFatEntry cur;
        mret (inl (next, r.2, out ++ take (Z.to_nat copy) r.2))
  else mret (inr (STATUS_SUCCESS, out)).

(** The status, the bytes stored at the start of the buffer, and what is
    stored in [*bytes_read], if anything is. *)
Definition Fat32ReadFile (name : list Z) (bufsize : Z) : M (FS P D) (Z * list Z * option Z) :=
  m ← mgets mnt;
  if negb (valid m) then mret (STATUS_DEVICE_DOES_NOT_EXIST, [], None)
  else
    '(st, entry) ← Fat32FindEntry (root_cluster m) name;
    match entry with
    | None => mret (st, [], Some 0)
    | Some entry =>
        if FileSize entry =? 0 then mret (STATUS_SUCCESS, [], Some 0)
        else
          let read_size := Z.min (FileSize entry) bufsize in
          let start_cluster := first_cluster entry in
          if start_cluster <? 2 then mret (STATUS_INVALID_PARAMETER, [], Some 0)
          else
            cluster_buf ← ExAllocatePool (bytes_per_cluster m);
            if cluster_buf =? 0 then mret (STATUS_NO_MEMORY, [], Some 0)
            else
              '(st, out) ← loop (read_turn read_size bufsize) (start_cluster, zeros (bytes_per_cluster m), []);
              ExFreePool cluster_buf;;
              mret (st, out, Some (if NT_SUCCESS st then Z.of_nat (length out) else 0))
    end.

(** ** Writing a directory entry *)

Fixpoint free_slot (buf : list Z) (i left : nat) : option nat :=
  match left with
  | O => None
  | S left' =>
      let n0 := name0 (dir_entry buf i) in
      if (n0 =? 0) || (n0 =? 0xE5) then Some i else free_slot buf (S i) left'
  end.

Definition slot_turn (entry : list Z) (x : Z * list Z) : M (FS P D) ((Z * list Z) + Z) :=
  let '(cur, buf) := x in
  if in_chain cur then
    m ← mgets mnt;
    r ← Fat32ReadCluster cur buf;
    if negb (NT_SUCCESS r.1) then mret (inr r.1)
    else
      match free_slot r.2 0 (per_cluster m) with
      | Some i => st ← Fat32WriteCluster cur (splice (ENTRY * i) entry r.2); mret (inr st)
      | None =>
          next ← Fat32GetFatEntry cur;
          if (next =? 0) || (EOC_MIN <=? next) then mret (inr STATUS_DISK_FULL)
          else mret (inl (next, r.2))
      end
  else mret (inr STATUS_DISK_FULL).

(** The argument is_new of the C text is not used. *)
Definition Fat32WriteDirectoryEntry (dir_cluster : Z) (entry : list Z) : M (FS P D) Z :=
  m ← mgets mnt;
  cluster_buf ← ExAllocatePool (bytes_per_cluster m);
  if cluster_buf =? 0 then mret STATUS_NO_MEMORY
  else
    st ← loop (slot_turn entry) (dir_cluster, zeros (bytes_per_cluster m));
    ExFreePool cluster_buf;;
    mret st.

(** ** Writing a file *)

Definition new_entry (name : list Z) (start_cluster : Z) : list Z :=
  short_name 32 name ++ [FAT_ATTR_ARCHIVE] ++ replicate 8 0 ++
  le_bytes 2 (Z.shiftr start_cluster 16) ++ replicate 4 0 ++ le_bytes 2 start_cluster ++ le_bytes 4 0.

(** The branch that creates a file: the status of a failure, or its cluster. *)
Definition create_file (name : list Z) : M (FS P D) (Z + Z) :=
  m ← mgets mnt;
  r ← Fat32FindFreeCluster;
  match r.2 with
  | None => mret (inl r.1)
  | Some start_cluster =>
      Fat32SetFatEntry start_cluster EOC;;
      st ← Fat32WriteDirectoryEntry (root_cluster m) (new_entry name start_cluster);
      if negb (NT_SUCCESS st) then mret (inl st) else mret (inr start_cluster)
  end.

(** The two walks to the end of an existing chain: its length, and its last
    cluster. *)
Definition count_turn (x : Z * Z) : M (FS P D) ((Z * Z) + Z) :=
  let '(cur_cluster, n) := x in
  if in_chain cur_cluster then
    next ← Fat32GetFatEntry cur_cluster; mret (inl (next, u32 (n + 1)))
  else mret (inr n).

Definition last_turn (x : Z * Z) : M (FS P D) ((Z * Z) + Z) :=
  let '(cur, prev) := x in
  if in_chain cur then next ← Fat32GetFatEntry cur; mret (inl (next, cur))
  else mret (inr prev).

Definition extend_chain (start_cluster clusters_needed : Z) : M (FS P D) Z :=
  existing_clusters ← loop count_turn (start_cluster, 0);
  if existing_clusters <? clusters_needed then
    prev ← loop last_turn (start_cluster, 0);
    Fat32AllocateChain prev (clusters_needed - existing_clusters)
  else mret STATUS_SUCCESS.

(** One turn of the loop that writes the data: the status of a failure, or the
    number of bytes written. *)
Definition write_turn (buffer : list Z) (x : Z * Z) : M (FS P D) ((Z * Z) + (Z + Z)) :=
  let '(cur, done_) := x in
  let bufsize := Z.of_nat (length buffer) in
  if (done_ <? bufsize) && (2 <=? cur) && (cur <? EOC_MIN) then
    m ← mgets mnt;
    let copy := Z.min (bufsize - done_) (bytes_per_cluster m) in
    cluster_buf ← ExAllocatePool (bytes_per_cluster m);
    if cluster_buf =? 0 then mret (inr (inl STATUS_NO_MEMORY))
    else
      let copy := if bufsize <? u32 (done_ + copy) then bufsize - done_ else copy in
      st ← Fat32WriteCluster cur
             (splice 0 (sub (Z.to_nat done_) (Z.to_nat copy) buffer) (zeros (bytes_per_cluster m)));
      ExFreePool cluster_buf;;
      if negb (NT_SUCCESS st) then mret (inr (inl st))
      else
        next ← Fat32GetFatEntry cur;
        if (EOC_MIN <=? next) || (next =? 0) then mret (inr (inr (done_ + copy)))
        else mret (inl (next, done_ + copy))
  else mret (inr (inr done_)).

(** [entry0] is what the uninitialised local [entry] holds, [want] says whether
    the pointer bytes_written is not null.  The result is the status and what is
    stored in [*bytes_written]. *)
Definition Fat32WriteFile (name buffer : list Z) (entry0 : list Z) (want : bool) :
    M (FS P D) (Z * option Z) :=
  m ← mgets mnt;
  if negb (valid m) then mret (STATUS_DEVICE_DOES_NOT_EXIST, None)
  else
    let bufsize := Z.of_nat (length buffer) in
    '(_, found) ← Fat32FindEntry (root_cluster m) name;
    start ← match found with
            | Some entry => mret (if first_cluster entry <? 2 then inl STATUS_INVALID_PARAMETER
                                  else inr (first_cluster entry))
            | None => create_file name
            end;
    match start with
    | inl st => mret (st, None)
    | inr start_cluster =>
        if bytes_per_cluster m =? 0 then mundef
        else
          let needed := u32 (bufsize + bytes_per_cluster m - 1) / bytes_per_cluster m in
          let clusters_needed := if needed =? 0 then 1 else needed in
          st ← match found with
               | None => Fat32AllocateChain start_cluster clusters_needed
               | Some _ => extend_chain start_cluster clusters_needed
               end;
          if negb (NT_SUCCESS st) then mret (st, None)
          else
            r ← loop (write_turn buffer) (start_cluster, 0);
            match r with
            | inl st => mret (st, None)
            | inr written =>
                if truthy written && negb want then mundef
                else
                  let out := if truthy written then Some written else None in
                  match found with
                  | Some _ => mret (STATUS_SUCCESS, out)
                  | None =>
                      st ← Fat32WriteDirectoryEntry (root_cluster m) (set_FileSize written entry0);
                      mret (if NT_SUCCESS st then STATUS_SUCCESS else st, out)
                  end
            end
    end.

(** ** Deleting a file *)

Definition free_turn (cur : Z) : M (FS P D) (Z + unit) :=
  if in_chain cur then
    next ← Fat32GetFatEntry cur;
    Fat32SetFatEntry cur 0;;
    mret (inl next)
  else mret (inr tt).

Definition Fat32DeleteFile (name : list Z) : M (FS P D) Z :=
  m ← mgets mnt;
  if negb (valid m) then mret STATUS_DEVICE_DOES_NOT_EXIST
  else
    '(st, found) ← Fat32FindEntry (root_cluster m) name;
    match found with
    | None => mret st
    | Some entry =>
        mwhen (2 <=? first_cluster entry) (loop free_turn (first_cluster entry));;
        Fat32WriteDirectoryEntry (root_cluster m) (splice 0 [0xE5] entry)
    end.

Definition Fat32ListDirectory (dir_cluster max_entries : Z) : M (FS P D) (Z * list (list Z) * bool) :=
  m ← mgets mnt;
  if negb (valid m) then mret (STATUS_DEVICE_DOES_NOT_EXIST, [], false)
  else Fat32ReadDirectory dir_cluster max_entries.

Definition Fat32GetRootCluster : M (FS P D) Z := mgets (λ s, root_cluster (mnt s)).

(** ** What a volume holds *)

Record fat_ok s (m : gmap Z Z) : Prop := {
  fo_valid : valid (mnt s) = true;
  fo_bps : bytes_per_sector (mnt s) = 512;
  fo_spc : 0 < sectors_per_cluster (mnt s) < 256;
  fo_bpc : bytes_per_cluster (mnt s) = 512 * sectors_per_cluster (mnt s);
  fo_cache : fat_cache (mnt s) ≠ 0;
  fo_len : Z.of_nat (length (fat_mem s)) = fat_entries (mnt s);
  fo_entries : 2 ≤ fat_entries (mnt s) < EOC_MIN;
  fo_start : 0 ≤ fat_start (mnt s);
  fo_data : fat_start (mnt s) + (fat_entries (mnt s) + 127) / 128 ≤ data_start (mnt s);
  fo_end : data_start (mnt s) < 9223372036854775808;
  fo_mirror c w : fat_mem s !! c = Some w →
    field (4 * (c mod 128)) 4 (sector (dev s) (fat_start (mnt s) + Z.of_nat (c / 128))) = w;
  fo_dev : dev_up (dev s);
  fo_pool : pool_rep (fs_pool s) m;
  fo_pcr : can_lock (pcr (fs_pool s))
}.

(** The entry of a cluster as the driver sees it, and the bytes of a cluster. *)
Definition fat s (c : Z) : Z :=
  if fat_entries (mnt s) <=? c then EOC else Z.land (default 0 (fat_mem s !! Z.to_nat c)) FAT_MASK.
Definition cdata s (c : Z) : list Z :=
  sectors (sector (dev s)) (data_start (mnt s) + (c - 2) * sectors_per_cluster (mnt s))
    (Z.to_nat (sectors_per_cluster (mnt s))).

(** The clusters of a file, from its first one. *)
Inductive chain (f : Z → Z) : Z → list Z → Prop :=
| chain_nil c : in_chain c = false → chain f c []
| chain_cons c l : in_chain c = true → chain f (f c) l → chain f c (c :: l).

(** The entries in use, in order, up to the end of a directory. *)
Fixpoint live (es : list (list Z)) : list (list Z) :=
  match es with
  | [] => []
  | e :: es' =>
      if name0 e =? 0 then [] else if name0 e =? 0xE5 then live es' else e :: live es'
  end.
Definition entries_of (buf : list Z) (n : nat) : list (list Z) := dir_entry buf <$> seq 0 n.
Definition dirents s (l : list Z) : list (list Z) :=
  l ≫= λ c, entries_of (cdata s c) (per_cluster (mnt s)).
Definition find_entry s (l : list Z) (name : list Z) : option (list Z) :=
  head (filter (λ e, EName e = short_name 0 name) (take 64 (live (dirents s l)))).

(** Nothing on the volume has changed. *)
Record same s s' : Prop := {
  sm_mnt : mnt s' = mnt s;
  sm_fat : fat_mem s' = fat_mem s;
  sm_dev l : sector (dev s') l = sector (dev s) l
}.

Lemma same_refl s : same s s.
Proof. done. Qed.

Lemma same_trans s1 s2 s3 : same s1 s2 → same s2 s3 → same s1 s3.
Proof. intros [E1 F1 G1] [E2 F2 G2]. split; [congruence..|]. intros l. by rewrite G2. Qed.

Lemma same_fat s s' : same s s' → ∀ c, fat s' c = fat s c.
Proof. intros [E1 F1 _] c. unfold fat. by rewrite E1, F1. Qed.

Lemma same_cdata s s' : same s s' → ∀ c, cdata s' c = cdata s c.
Proof. intros [E1 _ G1] c. unfold cdata. rewrite E1. by apply sectors_ext. Qed.

Lemma same_dirents s s' l : same s s' → dirents s' l = dirents s l.
Proof.
  intros Hs. unfold dirents. induction l as [|c l IH]; [done|]. cbn. rewrite IH.
  by rewrite (same_cdata _ _ Hs), (sm_mnt _ _ Hs).
Qed.

Lemma same_chain s s' c l : same s s' → chain (fat s) c l → chain (fat s') c l.
Proof.
  intros Hs. induction 1 as [c Hc|c l Hc _ IH]; [by constructor|].
  constructor; [done|]. by rewrite (same_fat _ _ Hs).
Qed.

(** A state that differs only by a device that still holds the same bytes. *)
Lemma dev_same s m d :
  fat_ok s m → dev_up d → (∀ l, sector d l = sector (dev s) l) →
  fat_ok (set_dev d s) m ∧ same s (set_dev d s).
Proof.
  intros Hok Hd He. split; [|done]. destruct Hok. split; try done. cbn.
  intros c w Hc. rewrite He. eauto.
Qed.

(** ** Clusters *)

Lemma in_chain_bounds c : in_chain c = true ↔ 2 ≤ c < EOC_MIN.
Proof. unfold in_chain. rewrite andb_true_iff, Z.ltb_lt, Z.leb_le. lia. Qed.

Lemma cluster_lba_ok s m c :
  fat_ok s m → 2 ≤ c < EOC_MIN →
  cluster_lba (mnt s) c = data_start (mnt s) + (c - 2) * sectors_per_cluster (mnt s).
Proof.
  intros Hok Hc. destruct (fo_spc _ _ Hok). unfold cluster_lba.
  pose proof (fo_start _ _ Hok). pose proof (fo_data _ _ Hok). pose proof (fo_end _ _ Hok). pose proof (fo_entries _ _ Hok).
  unfold EOC_MIN in *. apply u64_small. assert (0 ≤ (fat_entries (mnt s) + 127) / 128) by (apply Z.div_pos; lia). nia.
Qed.

Lemma cdata_length s m c : fat_ok s m → length (cdata s c) = Z.to_nat (bytes_per_cluster (mnt s)).
Proof.
  intros Hok. unfold cdata. rewrite sectors_length by (intros; by apply sector_len, (fo_dev _ _ Hok)).
  rewrite (fo_bpc _ _ Hok). destruct (fo_spc _ _ Hok). unfold SECTOR. lia.
Qed.

Lemma get_run s m c : fat_ok s m → 0 ≤ c → Fat32GetFatEntry c s = Ok (fat s c, s).
Proof.
  intros Hok Hc. unfold Fat32GetFatEntry, fat. unfold mbind at 1, M_bind at 1. cbn [mgets].
  destruct (Z.leb_spec (fat_entries (mnt s)) c); [done|].
  destruct (Z.eqb_spec (fat_cache (mnt s)) 0) as [Hz|_]; [by destruct (fo_cache _ _ Hok)|].
  destruct (lookup_lt_is_Some_2 (fat_mem s) (Z.to_nat c)) as [w Hw]; [pose proof (fo_len _ _ Hok); lia|].
  rewrite (deref_bind (λ s, fat_mem s !! Z.to_nat c) _ _ w Hw). by rewrite Hw.
Qed.

Lemma read_sectors_run s m lba n :
  fat_ok s m → 0 < n ≤ 256 →
  ∃ s', Fat32ReadSectors lba n s = Ok ((STATUS_SUCCESS, sectors (sector (dev s)) lba (Z.to_nat n)), s') ∧
    fat_ok s' m ∧ same s s'.
Proof.
  intros Hok Hn. destruct (ahci_read_law (dev s) lba n (fo_dev _ _ Hok) Hn) as (d & Hr & Hup & He).
  exists (set_dev d s). split; [|by apply dev_same]. unfold Fat32ReadSectors.
  replace (n =? 0) with false by lia. by apply zoom_ok.
Qed.

Lemma read_cluster_run s m c buf :
  fat_ok s m → 2 ≤ c < EOC_MIN → length buf = Z.to_nat (bytes_per_cluster (mnt s)) →
  ∃ s', Fat32ReadCluster c buf s = Ok ((STATUS_SUCCESS, cdata s c), s') ∧ fat_ok s' m ∧ same s s'.
Proof.
  intros Hok Hc Hl. destruct (fo_spc _ _ Hok) as [Hs0 Hs1].
  destruct (read_sectors_run s m (cluster_lba (mnt s) c) (sectors_per_cluster (mnt s)) Hok) as (s' & Hr & Hok' & Hsame); [lia|].
  exists s'. split; [|done]. unfold Fat32ReadCluster. replace (c <? 2) with false by lia.
  unfold mbind at 1, M_bind at 1. cbn [mgets]. rewrite (bind_ok _ _ _ _ _ Hr).
  rewrite (cluster_lba_ok _ _ _ Hok Hc). fold (cdata s c). unfold into. cbn [fst snd].
  pose proof (cdata_length s m c Hok) as Hcl. rewrite store_at_fits by lia. rewrite splice_all by lia. done.
Qed.

(** ** Buffers from the pool *)

Lemma pool_ok s m m' p :
  fat_ok s m → pool_rep p m' → pcr p = pcr (fs_pool s) → fat_ok (set_fs_pool p s) m' ∧ same s (set_fs_pool p s).
Proof. intros Hok Hp Hpcr. split; [|done]. destruct Hok. split; try done. cbn. by rewrite Hpcr. Qed.

Lemma alloc_run s m n :
  fat_ok s m → 0 < n < 18446744073709551616 →
  ∃ a s', ExAllocatePool n s = Ok (a, s') ∧ same s s' ∧
    ((a = 0 ∧ fat_ok s' m) ∨ (a ≠ 0 ∧ m !! a = None ∧ fat_ok s' (<[a := 0]> m))).
Proof.
  intros Hok Hn.
  destruct (pool_alloc_law (fs_pool s) m 0 n 0 (fo_pool _ _ Hok) (fo_pcr _ _ Hok) Hn) as (a & p & Hr & Hpcr & Hc).
  exists a, (set_fs_pool p s). split; [by apply zoom_ok|]. split; [done|].
  destruct Hc as [[-> Hp]|(Ha & Hm & Hp)]; [left|right]; split_and!; try done; try lia; by eapply pool_ok.
Qed.

Lemma free_run' s m a :
  m !! a = None → fat_ok s (<[a := 0]> m) → ∃ s', ExFreePool a s = Ok (tt, s') ∧ fat_ok s' m ∧ same s s'.
Proof.
  intros Ha Hok.
  destruct (pool_free_law (fs_pool s) (<[a := 0]> m) a 0 0 (fo_pool _ _ Hok) (fo_pcr _ _ Hok)) as (p & Hr & Hpcr & Hp);
    [by rewrite lookup_insert_eq|by left|].
  rewrite delete_insert_id in Hp by done.
  exists (set_fs_pool p s). split; [by apply zoom_ok|]. by eapply pool_ok.
Qed.

Lemma bpc_pos s m : fat_ok s m → 0 < bytes_per_cluster (mnt s) < 131072.
Proof. intros Hok. rewrite (fo_bpc _ _ Hok). destruct (fo_spc _ _ Hok). lia. Qed.

(** ** Directories *)

Definition ends (e : list Z) : bool := name0 e =? 0.

Lemma live_app es1 es2 :
  live (es1 ++ es2) = if existsb ends es1 then live es1 else live es1 ++ live es2.
Proof.
  induction es1 as [|e es IH]; [done|]. cbn [app live existsb]. fold (ends e).
  destruct (ends e); [done|]. cbn [orb]. rewrite IH. destruct (name0 e =? 229), (existsb ends es); done.
Qed.

Lemma dir_scan_spec buf max left : ∀ i acc,
  Z.of_nat (length acc) ≤ max →
  let es := dir_entry buf <$> seq i left in
  let r := dir_scan buf i left max acc in
  r.2 = take (Z.to_nat max) (acc ++ live es) ∧
  (if r.1 then existsb ends es = true else existsb ends es = false ∨ Z.of_nat (length r.2) = max).
Proof.
  induction left as [|left IH]; intros i acc Hacc; cbn [seq fmap list_fmap dir_scan live existsb].
  - cbn. rewrite app_nil_r, take_ge by lia. eauto.
  - destruct (Z.ltb_spec (Z.of_nat (length acc)) max) as [Hlt|Hge].
    + unfold ends at 1 3. destruct (name0 (dir_entry buf i) =? 0) eqn:H0'; cbn [fst snd orb].
      * rewrite app_nil_r, take_ge by lia. done.
      * destruct (name0 (dir_entry buf i) =? 229) eqn:H5.
        -- by apply IH.
        -- destruct (IH (S i) (acc ++ [dir_entry buf i])) as [Hr Hb]; [rewrite length_app; simpl; lia|].
           cbn zeta in Hr, Hb. rewrite Hr in Hb |- *. rewrite <- app_assoc in Hr, Hb |- *. done.
    + cbn [fst snd]. assert (length acc = Z.to_nat max) as Hl by lia. split.
      * by rewrite <- Hl, take_app_length.
      * right. lia.
Qed.

Lemma take_live_more max acc es1 es2 :
  Z.of_nat (length (take (Z.to_nat max) (acc ++ live es1))) = max →
  take (Z.to_nat max) (acc ++ live es1) = take (Z.to_nat max) (acc ++ live (es1 ++ es2)).
Proof.
  intros Hl. rewrite length_take in Hl. rewrite live_app. destruct (existsb ends es1); [done|].
  rewrite app_assoc. rewrite (take_app_le (acc ++ live es1)) by lia. done.
Qed.

Lemma dir_turn_run max m s s1 c buf acc :
  in_chain c = true → Z.of_nat (length acc) < max → fat_ok s1 m → same s s1 →
  Fat32ReadCluster c buf s = Ok ((STATUS_SUCCESS, cdata s c), s1) →
  dir_turn max (c, buf, acc) s =
    let '(ended, acc') := dir_scan (cdata s c) 0 (per_cluster (mnt s)) max acc in
    if (ended : bool) then Ok (inr (STATUS_SUCCESS, acc', true), s1)
    else if (fat s c =? 0) || (EOC_MIN <=? fat s c) then Ok (inr (STATUS_SUCCESS, acc', true), s1)
    else Ok (inl (fat s c, cdata s c, acc'), s1).
Proof.
  intros Hin Hlt Hok1 Hs1 Hrd. pose proof (proj1 (in_chain_bounds _) Hin) as Hb. unfold dir_turn.
  rewrite Hin. replace (Z.of_nat (length acc) <? max) with true by lia. cbn [andb].
  unfold mbind at 1, M_bind at 1. cbn [mgets]. rewrite (bind_ok _ _ _ _ _ Hrd). cbn [fst snd].
  replace (NT_SUCCESS STATUS_SUCCESS) with true by done. cbn [negb]. cbv match.
  destruct (dir_scan _ _ _ _ _) as [[] acc']; [done|].
  rewrite (bind_ok _ _ _ _ _ (get_run s1 m c Hok1 ltac:(lia))), (same_fat _ _ Hs1).
  by destruct ((fat s c =? 0) || (EOC_MIN <=? fat s c)).
Qed.

(** The walk over the clusters of a directory. *)
Lemma dir_loop max m l : ∀ s c buf acc,
  fat_ok s m → chain (fat s) c l → Z.of_nat (length acc) ≤ max →
  length buf = Z.to_nat (bytes_per_cluster (mnt s)) →
  ∃ n s', loops_to (dir_turn max) n (c, buf, acc) s
      (STATUS_SUCCESS, take (Z.to_nat max) (acc ++ live (dirents s l)), true) s' ∧
    n ≤ Z.of_nat (length l) + 1 ∧ fat_ok s' m ∧ same s s'.
Proof.
  induction l as [|c' l IH]; intros s c buf acc Hok Hch Hacc Hbuf.
  - inversion Hch as [? Hin|]; subst. exists 1, s. split; [|split_and!; [simpl; lia|done..]].
    apply loops_done. unfold dir_turn. rewrite Hin. cbn [andb]. cbn. by rewrite app_nil_r, take_ge by lia.
  - inversion Hch as [|? ? Hin Hch']; subst.
    destruct (Z.ltb_spec (Z.of_nat (length acc)) max) as [Hlt|Hge].
    2:{ exists 1, s. split; [|split_and!; [simpl; lia|done..]]. apply loops_done. unfold dir_turn.
        rewrite Hin. replace (Z.of_nat (length acc) <? max) with false by lia. cbn [andb].
        assert (length acc = Z.to_nat max) as Hl by lia. by rewrite <- Hl, take_app_length. }
    pose proof (proj1 (in_chain_bounds _) Hin) as Hb.
    destruct (read_cluster_run s m c' buf Hok Hb Hbuf) as (s1 & Hrd & Hok1 & Hs1).
    pose proof (dir_scan_spec (cdata s c') max (per_cluster (mnt s)) 0 acc Hacc) as Hscan.
    cbn zeta in Hscan. fold (entries_of (cdata s c') (per_cluster (mnt s))) in Hscan.
    destruct (dir_scan (cdata s c') 0 (per_cluster (mnt s)) max acc) as [ended acc'] eqn:Hde.
    cbn [fst snd] in Hscan. destruct Hscan as [Hacc' Hend].
    assert (Hdir : dirents s (c' :: l) = entries_of (cdata s c') (per_cluster (mnt s)) ++ dirents s l) by done.
    assert (Hturn := dir_turn_run max m s s1 c' buf acc Hin Hlt Hok1 Hs1 Hrd). rewrite Hde in Hturn.
    destruct ended.
    { exists 1, s1. split; [|split_and!; [simpl; lia|done..]]. apply loops_done. rewrite Hturn, Hacc', Hdir, live_app, Hend. done. }
    destruct ((fat s c' =? 0) || (EOC_MIN <=? fat s c')) eqn:Hstop.
    { assert (l = []) as ->.
      { inversion Hch' as [|? ? Hin']; [done|]. apply in_chain_bounds in Hin'. lia. }
      exists 1, s1. split; [|split_and!; [simpl; lia|done..]]. apply loops_done. rewrite Hturn, Hacc', Hdir.
      cbn. by rewrite app_nil_r. }
    destruct (IH s1 (fat s c') (cdata s c') acc') as (n & s2 & Hl & Hn & Hok2 & Hs2);
      [done|by eapply same_chain|rewrite Hacc', length_take; lia|by rewrite (cdata_length s m), (sm_mnt _ _ Hs1)|].
    exists (n + 1), s2. split; [|split_and!; [simpl; lia|done|by eapply same_trans]].
    eapply loops_step; [exact Hturn|]. rewrite (same_dirents _ _ _ Hs1) in Hl.
    replace (take (Z.to_nat max) (acc ++ live (dirents s (c' :: l)))) with (take (Z.to_nat max) (acc' ++ live (dirents s l))); [done|].
    rewrite Hdir. destruct Hend as [Hno|Hfull].
    + rewrite live_app, Hno, app_assoc, Hacc'.
      set (x := acc ++ live _). rewrite !take_app. f_equal; [by rewrite take_take, Nat.min_id|].
      f_equal. rewrite length_take. lia.
    + rewrite <- take_live_more by (by rewrite <- Hacc'). rewrite <- Hacc'. by rewrite take_app_length' by lia.
Qed.

(** A chain that ends is free of repetitions, so it is bounded by the number of
    cluster numbers. *)
Lemma chain_det f c l1 l2 : chain f c l1 → chain f c l2 → l1 = l2.
Proof.
  intros H1. revert l2. induction H1 as [c Hc|c l Hc _ IH]; intros l2 H2; inversion H2; subst; try congruence.
  f_equal. by apply IH.
Qed.

Lemma chain_suffix f c l1 x l2 : chain f c (l1 ++ x :: l2) → chain f x (x :: l2).
Proof.
  revert c. induction l1 as [|y l1 IH]; intros c Hc; cbn in Hc.
  - inversion Hc; subst. done.
  - inversion Hc; subst. by eapply IH.
Qed.

Lemma chain_NoDup f c l : chain f c l → NoDup l.
Proof.
  induction 1 as [|c l Hc Hl IH]; constructor; [|done]. intros (l1 & l2 & ->)%list_elem_of_split.
  pose proof (chain_suffix _ _ _ _ _ Hl) as H1.
  assert (c :: l1 ++ c :: l2 = c :: l2) as E by (eapply chain_det; [by constructor|exact H1]).
  apply (f_equal length) in E. cbn in E. rewrite length_app in E. cbn in E. lia.
Qed.

Lemma chain_in f c l x : chain f c l → x ∈ l → 2 ≤ x < EOC_MIN.
Proof.
  induction 1 as [|c l Hc _ IH]; [by intros ?%not_elem_of_nil|].
  intros [->|?]%elem_of_cons; [by apply in_chain_bounds|by apply IH].
Qed.

Lemma chain_length f c l : chain f c l → Z.of_nat (length l) ≤ EOC_MIN.
Proof.
  intros Hc. apply NoDup_bounded_length; [done|by eapply chain_NoDup|].
  intros x Hx. pose proof (chain_in _ _ _ _ Hc Hx). lia.
Qed.

Lemma zeros_length n : length (zeros n) = Z.to_nat n.
Proof. apply length_replicate. Qed.

Lemma read_directory_run s m c l max :
  fat_ok s m → chain (fat s) c l → 0 ≤ max →
  ∃ r s', Fat32ReadDirectory c max s = Ok (r, s') ∧ fat_ok s' m ∧ same s s' ∧
    (r = (STATUS_NO_MEMORY, [], false) ∨
     r = (STATUS_SUCCESS, take (Z.to_nat max) (live (dirents s l)), true)).
Proof.
  intros Hok Hch Hmax. pose proof (bpc_pos _ _ Hok) as Hbpc. unfold Fat32ReadDirectory.
  unfold mbind at 1, M_bind at 1. cbn [mgets].
  destruct (alloc_run s m (bytes_per_cluster (mnt s)) Hok) as (a & s1 & Ha & Hs1 & Hcase); [lia|].
  rewrite (bind_ok _ _ _ _ _ Ha). destruct Hcase as [[-> Hok1]|(Hne & Hm & Hok1)].
  { do 2 eexists. split_and!; [done|done|done|by left]. }
  replace (a =? 0) with false by lia.
  destruct (dir_loop max _ l s1 c (zeros (bytes_per_cluster (mnt s))) [] Hok1) as (n & s2 & Hl & Hn & Hok2 & Hs2);
    [by eapply same_chain|done|by rewrite zeros_length, (sm_mnt _ _ Hs1)|].
  pose proof (chain_length _ _ _ Hch) as Hlen.
  erewrite bind_ok; [|eapply loop_ok; [exact Hl|unfold EOC_MIN in *; lia]].
  destruct (free_run' s2 m a Hm Hok2) as (s3 & Hf & Hok3 & Hs3). rewrite (bind_ok _ _ _ _ _ Hf).
  do 2 eexists. split_and!; [done|done|by do 2 (eapply same_trans; [done|])|].
  right. cbn. by rewrite (same_dirents _ _ _ Hs1).
Qed.

Lemma first_named name es :
  first_idx (is_named name) es ≫= (λ i, es !! i) = head (filter (λ e, EName e = name) es).
Proof.
  induction es as [|e es IH]; [done|]. cbn [first_idx]. rewrite filter_cons.
  unfold is_named at 1. destruct (decide (EName e = name)) as [He|He].
  - by rewrite bool_decide_true.
  - rewrite bool_decide_false by done. rewrite <- IH. by destruct (first_idx (is_named name) es).
Qed.

Lemma find_entry_run s m c l name :
  fat_ok s m → chain (fat s) c l →
  ∃ r s', Fat32FindEntry c name s = Ok (r, s') ∧ fat_ok s' m ∧ same s s' ∧
    (r = (STATUS_NO_MEMORY, None) ∨
     r = (match find_entry s l name with Some _ => STATUS_SUCCESS | None => STATUS_OBJECT_NAME_NOT_FOUND end,
          find_entry s l name)).
Proof.
  intros Hok Hch. destruct (read_directory_run s m c l 64 Hok Hch) as (r & s' & Hr & Hok' & Hs & Hcase); [lia|].
  unfold Fat32FindEntry. rewrite (bind_ok _ _ _ _ _ Hr). destruct Hcase as [->| ->].
  { do 2 eexists. split_and!; [done|done|done|by left]. }
  cbv match. replace (NT_SUCCESS STATUS_SUCCESS) with true by done. cbn [negb].
  change (Z.to_nat 64) with 64%nat. unfold find_entry. rewrite <- first_named.
  set (es := take 64 _). destruct (first_idx (is_named (short_name 0 name)) es) as [i|] eqn:Hi.
  - pose proof (first_idx_lt _ _ _ Hi) as [e He]%lookup_lt_is_Some_2.
    do 2 eexists. split_and!; [done|done|done|]. right. cbn. by rewrite He.
  - do 2 eexists. split_and!; [done|done|done|]. by right.
Qed.

(** ** Reading files *)

Definition content s (l : list Z) : list Z := l ≫= cdata s.

Lemma same_content s s' l : same s s' → content s' l = content s l.
Proof. intros Hs. unfold content. induction l as [|c l IH]; [done|]. cbn. by rewrite IH, (same_cdata _ _ Hs). Qed.

Lemma read_loop size bufsize m l : ∀ s c buf out,
  fat_ok s m → chain (fat s) c l → Z.of_nat (length out) ≤ size → size ≤ bufsize →
  size + bytes_per_cluster (mnt s) < 4294967296 →
  length buf = Z.to_nat (bytes_per_cluster (mnt s)) →
  ∃ n s', loops_to (read_turn size bufsize) n (c, buf, out) s
      (STATUS_SUCCESS, take (Z.to_nat size) (out ++ content s l)) s' ∧
    n ≤ Z.of_nat (length l) + 1 ∧ fat_ok s' m ∧ same s s'.
Proof.
  induction l as [|c' l IH]; intros s c buf out Hok Hch Hout Hsb Hw Hbuf.
  - inversion Hch as [? Hin|]; subst. exists 1, s. split; [|split_and!; [simpl; lia|done..]].
    apply loops_done. unfold read_turn. rewrite (andb_comm (2 <=? c)). fold (in_chain c). rewrite Hin. cbn.
    by rewrite app_nil_r, take_ge by lia.
  - inversion Hch as [|? ? Hin Hch']; subst. pose proof (proj1 (in_chain_bounds _) Hin) as Hb.
    pose proof (bpc_pos _ _ Hok) as Hbpc.
    destruct (Z.ltb_spec (Z.of_nat (length out)) size) as [Hlt|Hge].
    2:{ exists 1, s. split; [|split_and!; [simpl; lia|done..]]. apply loops_done. unfold read_turn.
        replace (Z.of_nat (length out) <? size) with false by lia. rewrite andb_false_r.
        assert (length out = Z.to_nat size) as Hl by lia. by rewrite <- Hl, take_app_length. }
    destruct (read_cluster_run s m c' buf Hok Hb Hbuf) as (s1 & Hrd & Hok1 & Hs1).
    pose proof (cdata_length s m c' Hok) as Hcl.
    set (copy := Z.min (size - Z.of_nat (length out)) (bytes_per_cluster (mnt s))).
    assert (Hturn : read_turn size bufsize (c', buf, out) s =
      Ok (inl (fat s c', cdata s c', out ++ take (Z.to_nat copy) (cdata s c')), s1)).
    { unfold read_turn. rewrite (andb_comm (2 <=? c')). fold (in_chain c'). rewrite Hin.
      replace (Z.of_nat (length out) <? size) with true by lia. cbn [andb].
      unfold mbind at 1, M_bind at 1. cbn [mgets]. rewrite (bind_ok _ _ _ _ _ Hrd). cbn [fst snd].
      replace (NT_SUCCESS STATUS_SUCCESS) with true by done. cbn [negb]. cbv match.
      rewrite u32_small by lia.
      replace (if size <? Z.of_nat (length out) + bytes_per_cluster (mnt s)
               then size - Z.of_nat (length out) else bytes_per_cluster (mnt s)) with copy by (unfold copy; case_if; lia).
      replace (bufsize <? Z.of_nat (length out) + copy) with false by lia.
      rewrite (bind_ok _ _ _ _ _ (get_run s1 m c' Hok1 ltac:(lia))). by rewrite (same_fat _ _ Hs1). }
    destruct (IH s1 (fat s c') (cdata s c') (out ++ take (Z.to_nat copy) (cdata s c'))) as (n & s2 & Hl & Hn & Hok2 & Hs2);
      [done|by eapply same_chain|rewrite length_app, length_take; lia|done|by rewrite (sm_mnt _ _ Hs1)
      |by rewrite (cdata_length s m), (sm_mnt _ _ Hs1)|].
    exists (n + 1), s2. split; [|split_and!; [simpl; lia|done|by eapply same_trans]].
    eapply loops_step; [exact Hturn|]. rewrite (same_content _ _ _ Hs1) in Hl.
    replace (take (Z.to_nat size) (out ++ content s (c' :: l)))
      with (take (Z.to_nat size) ((out ++ take (Z.to_nat copy) (cdata s c')) ++ content s l)); [done|].
    change (content s (c' :: l)) with (cdata s c' ++ content s l).
    destruct (decide (copy = bytes_per_cluster (mnt s))) as [Hc|Hc].
    + rewrite (take_ge (cdata s c')) by lia. by rewrite <- app_assoc.
    + assert (length (out ++ take (Z.to_nat copy) (cdata s c')) = Z.to_nat size) as Hlen
        by (rewrite length_app, length_take; lia).
      rewrite <- Hlen at 1. rewrite take_app_length. rewrite take_app. rewrite (take_ge out) by lia. f_equal.
      rewrite take_app_le by lia. f_equal. lia.
Qed.

Lemma live_sub es e : e ∈ live es → e ∈ es.
Proof.
  induction es as [|x es IH]; [done|]. cbn [live].
  destruct (name0 x =? 0); [by intros ?%not_elem_of_nil|]. destruct (name0 x =? 229); rewrite ?elem_of_cons; naive_solver.
Qed.

Lemma find_entry_wf s m l name e :
  fat_ok s m → find_entry s l name = Some e → Forall byte e ∧ length e = ENTRY.
Proof.
  intros Hok He. unfold find_entry in He. apply head_Some_elem_of in He.
  apply list_elem_of_filter in He as [_ He]. apply elem_of_take in He as (i & He & _).
  apply list_elem_of_lookup_2, live_sub in He. unfold dirents in He.
  apply list_elem_of_bind in He as (c & He & _). apply list_elem_of_fmap in He as (j & -> & Hj).
  apply elem_of_seq in Hj. unfold dir_entry. split.
  - apply sub_Forall, sectors_Forall. intros l'. by apply sector_byte, (fo_dev _ _ Hok).
  - apply sub_length. rewrite (cdata_length s m c Hok). pose proof (bpc_pos _ _ Hok).
    unfold per_cluster, ENTRY in *. Z.div_mod_to_equations. lia.
Qed.

Lemma FileSize_bound s m l name e :
  fat_ok s m → find_entry s l name = Some e → 0 ≤ FileSize e < 4294967296.
Proof.
  intros Hok He. destruct (find_entry_wf _ _ _ _ _ Hok He) as [Hb Hl].
  apply (field_bound 28 4 e Hb). unfold ENTRY in Hl. lia.
Qed.

Lemma read_file_run s m name dl l bufsize :
  fat_ok s m → chain (fat s) (root_cluster (mnt s)) dl → 0 ≤ bufsize < 4294836224 →
  (∀ e, find_entry s dl name = Some e → 2 ≤ first_cluster e → chain (fat s) (first_cluster e) l) →
  ∃ r s', Fat32ReadFile name bufsize s = Ok (r, s') ∧ fat_ok s' m ∧ same s s' ∧
    (r = (STATUS_NO_MEMORY, [], Some 0) ∨
     r = match find_entry s dl name with
         | None => (STATUS_OBJECT_NAME_NOT_FOUND, [], Some 0)
         | Some e =>
             if FileSize e =? 0 then (STATUS_SUCCESS, [], Some 0)
             else if first_cluster e <? 2 then (STATUS_INVALID_PARAMETER, [], Some 0)
             else let out := take (Z.to_nat (Z.min (FileSize e) bufsize)) (content s l) in
                  (STATUS_SUCCESS, out, Some (Z.of_nat (length out)))
         end).
Proof.
  intros Hok Hdl Hbuf Hl. unfold Fat32ReadFile. unfold mbind at 1, M_bind at 1. cbn [mgets].
  rewrite (fo_valid _ _ Hok). cbn [negb].
  destruct (find_entry_run s m _ dl name Hok Hdl) as (r & s1 & Hr & Hok1 & Hs1 & Hcase).
  rewrite (bind_ok _ _ _ _ _ Hr). destruct Hcase as [->| ->].
  { do 2 eexists. split_and!; [done|done|done|by left]. }
  destruct (find_entry s dl name) as [e|] eqn:He; cbv match.
  2:{ do 2 eexists. split_and!; [done|done|done|by right]. }
  pose proof (FileSize_bound _ _ _ _ _ Hok He) as Hsz.
  destruct (FileSize e =? 0); [do 2 eexists; split_and!; [done|done|done|by right]|].
  destruct (Z.ltb_spec (first_cluster e) 2) as [|Hge]; [do 2 eexists; split_and!; [done|done|done|by right]|].
  pose proof (bpc_pos _ _ Hok) as Hbpc.
  destruct (alloc_run s1 m (bytes_per_cluster (mnt s)) Hok1) as (a & s2 & Ha & Hs2 & Hcase); [lia|].
  rewrite (bind_ok _ _ _ _ _ Ha). destruct Hcase as [[-> Hok2]|(Hne & Hm & Hok2)].
  { do 2 eexists. split_and!; [done|done|by eapply same_trans|by left]. }
  replace (a =? 0) with false by lia. pose proof (same_trans _ _ _ Hs1 Hs2) as Hs12.
  destruct (read_loop (Z.min (FileSize e) bufsize) bufsize _ l s2 (first_cluster e) (zeros (bytes_per_cluster (mnt s))) [] Hok2)
    as (n & s3 & Hlp & Hn & Hok3 & Hs3);
    [eapply same_chain; [exact Hs12|by apply Hl]|cbn; lia|lia|rewrite (sm_mnt _ _ Hs12); lia|by rewrite zeros_length, (sm_mnt _ _ Hs12)|].
  pose proof (chain_length _ _ _ (Hl e eq_refl Hge)) as Hlen.
  erewrite bind_ok; [|eapply loop_ok; [exact Hlp|unfold EOC_MIN in *; lia]].
  destruct (free_run' s3 m a Hm Hok3) as (s4 & Hf & Hok4 & Hs4). cbv match. rewrite (bind_ok _ _ _ _ _ Hf).
  do 2 eexists. split_and!; [done|done|by do 2 (eapply same_trans; [done|])|].
  right. cbn [app]. by rewrite (same_content _ _ _ Hs12).
Qed.

(** [C25] Reading a file by name from the root directory returns, with the volume
    unchanged: the bytes of the file's cluster chain, cut to the smaller of its
    recorded size and the buffer, and their number; nothing for an empty file;
    an error for a name that is not in the directory or an entry without a
    valid cluster.  The only other outcome is that the pool is exhausted. *)
Theorem Fat32ReadFile_spec s m name dl l bufsize :
  fat_ok s m → chain (fat s) (root_cluster (mnt s)) dl → 0 ≤ bufsize < 4294836224 →
  (∀ e, find_entry s dl name = Some e → 2 ≤ first_cluster e → chain (fat s) (first_cluster e) l) →
  ∃ r s', Fat32ReadFile name bufsize s = Ok (r, s') ∧ fat_ok s' m ∧ same s s' ∧
    (r = (STATUS_NO_MEMORY, [], Some 0) ∨
     r = match find_entry s dl name with
         | None => (STATUS_OBJECT_NAME_NOT_FOUND, [], Some 0)
         | Some e =>
             if FileSize e =? 0 then (STATUS_SUCCESS, [], Some 0)
             else if first_cluster e <? 2 then (STATUS_INVALID_PARAMETER, [], Some 0)
             else let out := take (Z.to_nat (Z.min (FileSize e) bufsize)) (content s l) in
                  (STATUS_SUCCESS, out, Some (Z.of_nat (length out)))
         end).
Proof. apply read_file_run. Qed.

(** ** The allocation table on the disk *)

(** Clusters are apart from one another and from the table. *)
Lemma table_below_data s m c :
  fat_ok s m → 0 ≤ c < fat_entries (mnt s) → fat_start (mnt s) + c / 128 < data_start (mnt s).
Proof.
  intros Hok Hc. pose proof (fo_data _ _ Hok). Z.div_mod_to_equations. lia.
Qed.

Record fat_set (c v : Z) s s' : Prop := {
  fs_mnt : mnt s' = mnt s;
  fs_fat : fat_mem s' = <[Z.to_nat c := v]> (fat_mem s);
  fs_data l : data_start (mnt s) ≤ l → sector (dev s') l = sector (dev s) l
}.

Lemma land_mask v : 0 ≤ v ≤ FAT_MASK → Z.land v FAT_MASK = v.
Proof.
  intros Hv. change FAT_MASK with (Z.ones 28). rewrite Z.land_ones by lia. apply Z.mod_small.
  change (2 ^ 28) with (FAT_MASK + 1). lia.
Qed.

Lemma write_one_run (d : D) a bs :
  dev_up d → length bs = SECTOR → Forall byte bs →
  ∃ d', AhciWriteSectors a 1 bs d = Ok (STATUS_SUCCESS, d') ∧ dev_up d' ∧
    ∀ l, sector d' l = if decide (l = a) then bs else sector d l.
Proof.
  intros Hup Hl Hb. destruct (ahci_write_law d a 1 bs Hup) as (d' & Hw & Hup' & He); [lia|rewrite Hl; unfold SECTOR; lia|done|].
  exists d'. split_and!; [done..|]. intros l. rewrite He. destruct (decide (l = a)) as [->|Hne].
  - replace ((a <=? a) && (a <? a + 1)) with true by lia. rewrite Z.sub_diag. cbn [Z.to_nat].
    unfold sub. rewrite Nat.mul_0_r, drop_0. apply take_ge. lia.
  - by replace ((a <=? l) && (l <? a + 1)) with false by lia.
Qed.

(** Patching the word of an entry in its sector keeps the table and the cache
    equal. *)
Lemma mirror_set (f : list Z) (sec sec' : Z → list Z) start c v a :
  a = start + c / 128 → length (sec a) = SECTOR → 0 ≤ c < Z.of_nat (length f) → 0 ≤ v ≤ FAT_MASK →
  (∀ l, sec' l = if decide (l = a) then splice (Z.to_nat (4 * (c mod 128))) (le_bytes 4 v) (sec a) else sec l) →
  (∀ k w, f !! k = Some w → field (4 * (k mod 128)) 4 (sec (start + Z.of_nat (k / 128))) = w) →
  ∀ k w, <[Z.to_nat c := v]> f !! k = Some w → field (4 * (k mod 128)) 4 (sec' (start + Z.of_nat (k / 128))) = w.
Proof.
  intros Ha Hsl Hc Hv Hsec Hmir k w Hk. rewrite Hsec.
  assert (0 ≤ c mod 128 < 128) as Hmod by (apply Z.mod_pos_bound; lia).
  destruct (decide (k = Z.to_nat c)) as [->|Hne].
  - rewrite list_lookup_insert_eq in Hk by lia. injection Hk as <-.
    rewrite decide_True by (rewrite Nat2Z.inj_div, Z2Nat.id by lia; lia).
    unfold field. replace (4 * (Z.to_nat c mod 128))%nat with (Z.to_nat (4 * (c mod 128)))
      by (rewrite <- (Nat2Z.id (Z.to_nat c mod 128)), Nat2Z.inj_mod, Z2Nat.id by lia; lia).
    rewrite sub_splice_same; [|apply le_bytes_length|rewrite Hsl; unfold SECTOR; lia].
    rewrite le_val_bytes. apply Z.mod_small. unfold FAT_MASK in Hv. change (256 ^ Z.of_nat 4) with 4294967296. lia.
  - rewrite list_lookup_insert_ne in Hk by done. case_decide as Hka; [|by apply Hmir].
    rewrite <- (Hmir _ _ Hk), Hka. unfold field. f_equal. apply sub_splice_other.
    + rewrite le_bytes_length, Hsl. unfold SECTOR. lia.
    + rewrite le_bytes_length. assert (Z.of_nat (k / 128) = c / 128) as Hq by lia. rewrite Nat2Z.inj_div in Hq.
      assert (Z.of_nat (k mod 128) = Z.of_nat k mod 128) as Hm by (by rewrite Nat2Z.inj_mod).
      assert (Z.of_nat k ≠ c) by lia. change (Z.of_nat 128) with 128 in *. Z.div_mod_to_equations. lia.
Qed.

Lemma set_run s m c v :
  fat_ok s m → 0 ≤ c < fat_entries (mnt s) → 0 ≤ v ≤ FAT_MASK →
  ∃ s', Fat32SetFatEntry c v s = Ok (STATUS_SUCCESS, s') ∧ fat_ok s' m ∧ fat_set c v s s'.
Proof.
  intros Hok Hc Hv. pose proof (fo_entries _ _ Hok) as He. pose proof (table_below_data s m c Hok Hc) as Htb.
  pose proof (fo_start _ _ Hok) as Hst. pose proof (fo_end _ _ Hok) as Hen. unfold EOC_MIN in He.
  unfold Fat32SetFatEntry. unfold mbind at 1, M_bind at 1. cbn [mgets].
  replace (fat_entries (mnt s) <=? c) with false by lia. pose proof (fo_cache _ _ Hok).
  replace (fat_cache (mnt s) =? 0) with false by lia. rewrite (land_mask v Hv).
  set (s0 := set_fat_mem (<[Z.to_nat c := v]> (fat_mem s)) s).
  unfold mbind at 1, M_bind at 1. cbn [mmod]. fold s0. rewrite (fo_bps _ _ Hok). cbn [Z.eqb].
  rewrite (u32_small (c * 4)) by lia.
  replace (c * 4 / 512) with (c / 128) by (Z.div_mod_to_equations; lia).
  replace (c * 4 mod 512) with (4 * (c mod 128)) by (Z.div_mod_to_equations; lia).
  rewrite u64_small by (Z.div_mod_to_equations; lia). set (a := fat_start (mnt s) + c / 128) in *.
  destruct (ahci_read_law (dev s) a 1 (fo_dev _ _ Hok)) as (d1 & Hr & Hup1 & He1); [lia|].
  unfold Fat32ReadSectors at 1. cbn [Z.eqb]. erewrite bind_ok; [|by apply zoom_ok].
  cbn [fst snd]. change (Z.to_nat 1) with 1%nat. cbn [sectors]. rewrite app_nil_r.
  pose proof (sector_len (dev s) a (fo_dev _ _ Hok)) as Hsl.
  assert (0 ≤ c mod 128 < 128) as Hmod by (apply Z.mod_pos_bound; lia).
  rewrite store_at_fits by (rewrite le_bytes_length, Hsl; unfold SECTOR; lia).
  replace (NT_SUCCESS STATUS_SUCCESS) with true by done. cbn [negb].
  set (bs := splice _ _ _).
  destruct (write_one_run d1 a bs Hup1) as (d2 & Hw & Hup2 & He2).
  { unfold bs. rewrite splice_length; [done|]. rewrite le_bytes_length, Hsl. unfold SECTOR. lia. }
  { apply splice_Forall; [apply le_bytes_byte|by apply sector_byte, (fo_dev _ _ Hok)]. }
  exists (set_dev d2 (set_dev d1 s0)). split; [unfold Fat32WriteSectors; cbn [Z.eqb]; by apply zoom_ok|].
  assert (Hsec : ∀ l, sector d2 l = if decide (l = a) then bs else sector (dev s) l).
  { intros l. by rewrite He2, He1. }
  split; [|split; [done|done|]; cbn; intros l Hl; rewrite Hsec, decide_False by lia; done].
  destruct Hok. split; try done; cbn [set_dev set_fat_mem s0 mnt fat_mem dev]; [by rewrite length_insert|].
  by eapply mirror_set; [|exact Hsl|lia|done|exact Hsec|].
Qed.

(** ** Cluster chains *)

(** The free clusters from [k] on, in order. *)
Fixpoint free_from (k : Z) (l : list Z) : list Z :=
  match l with
  | [] => []
  | w :: l' => if w =? 0 then k :: free_from (k + 1) l' else free_from (k + 1) l'
  end.
Definition frees s : list Z := free_from 2 (drop 2 (fat_mem s)).

Lemma free_from_elem k l c : c ∈ free_from k l ↔ k ≤ c ∧ l !! Z.to_nat (c - k) = Some 0.
Proof.
  revert k. induction l as [|w l IH]; intros k; cbn [free_from].
  - rewrite elem_of_nil, lookup_nil. naive_solver.
  - assert (Hst : k < c → (w :: l) !! Z.to_nat (c - k) = l !! Z.to_nat (c - (k + 1))).
    { intros Hlt. by replace (Z.to_nat (c - k)) with (S (Z.to_nat (c - (k + 1)))) by lia. }
    destruct (decide (c = k)) as [->|Hne].
    + rewrite Z.sub_diag. destruct (Z.eqb_spec w 0) as [->|Hw]; rewrite ?elem_of_cons, IH.
      * split; [intros _; split; [lia|done]|by left].
      * split; [lia|]. intros [_ Hx]. change (Some w = Some 0) in Hx. congruence.
    + destruct (Z.eqb_spec w 0) as [->|Hw]; rewrite ?elem_of_cons, IH; split.
      * intros [?|[? Hl]]; [done|]. rewrite Hst by lia. split; [lia|done].
      * intros [? Hl]. rewrite Hst in Hl by lia. right. split; [lia|done].
      * intros [? Hl]. rewrite Hst by lia. split; [lia|done].
      * intros [? Hl]. rewrite Hst in Hl by lia. split; [lia|done].
Qed.

Lemma free_from_keep k l i w v : l !! i = Some w → w ≠ 0 → v ≠ 0 → free_from k (<[i := v]> l) = free_from k l.
Proof.
  intros Hl Hw Hv. revert k i Hl. induction l as [|x l IH]; intros k i Hl; [done|]. destruct i as [|i].
  - injection Hl as ->. cbn [insert list_insert free_from].
    replace (v =? 0) with false by lia. by replace (w =? 0) with false by lia.
  - cbn [insert list_insert free_from]. by rewrite IH.
Qed.

Lemma free_from_take k l c r v :
  free_from k l = c :: r → v ≠ 0 → free_from k (<[Z.to_nat (c - k) := v]> l) = r.
Proof.
  intros Hl Hv. revert k Hl. induction l as [|x l IH]; intros k Hl; [done|]. cbn [free_from] in Hl.
  destruct (x =? 0) eqn:Hx.
  - injection Hl as <- <-. rewrite Z.sub_diag. change (Z.to_nat 0) with 0%nat. cbn [insert list_insert free_from].
    by replace (v =? 0) with false by lia.
  - assert (k + 1 ≤ c) as Hc by (apply (free_from_elem (k + 1) l c); rewrite Hl; by left).
    replace (Z.to_nat (c - k)) with (S (Z.to_nat (c - (k + 1)))) by lia.
    cbn [insert list_insert free_from]. rewrite Hx. by apply IH.
Qed.

Lemma first_free k l : (λ i, k + Z.of_nat i) <$> first_idx (λ w, w =? 0) l = head (free_from k l).
Proof.
  revert k. induction l as [|w l IH]; intros k; [done|]. cbn [first_idx free_from].
  destruct (w =? 0); [cbn; f_equal; lia|]. rewrite <- (IH (k + 1)).
  destruct (first_idx _ l); cbn; [f_equal; lia|done].
Qed.

Lemma find_free_run s m :
  fat_ok s m →
  Fat32FindFreeCluster s =
    Ok (match frees s with [] => (STATUS_DISK_FULL, None) | c :: _ => (STATUS_SUCCESS, Some c) end, s).
Proof.
  intros Hok. unfold Fat32FindFreeCluster. unfold mbind at 1, M_bind at 1. cbn [mgets].
  pose proof (fo_cache _ _ Hok). replace (fat_cache (mnt s) =? 0) with false by lia. rewrite andb_false_r.
  unfold mbind at 1, M_bind at 1. cbn [mgets]. pose proof (fo_len _ _ Hok).
  rewrite (take_ge (fat_mem s)) by lia. pose proof (first_free 2 (drop 2 (fat_mem s))) as Hf. fold (frees s) in Hf.
  destruct (first_idx _ _) as [i|], (frees s) as [|c r]; cbn in Hf; try done. injection Hf as <-. done.
Qed.

Lemma frees_elem s c : c ∈ frees s ↔ 2 ≤ c ∧ fat_mem s !! Z.to_nat c = Some 0.
Proof.
  unfold frees. rewrite free_from_elem, lookup_drop. split; intros [? Hl]; (split; [done|]).
  - by replace (Z.to_nat c) with (2 + Z.to_nat (c - 2))%nat by lia.
  - by replace (2 + Z.to_nat (c - 2))%nat with (Z.to_nat c) by lia.
Qed.

Lemma frees_range s m c : fat_ok s m → c ∈ frees s → 2 ≤ c < fat_entries (mnt s).
Proof.
  intros Hok [Hc Hl]%frees_elem. apply lookup_lt_Some in Hl. pose proof (fo_len _ _ Hok). lia.
Qed.

(** Only the table entries of [touched] have changed. *)
Record fat_kept (touched : list Z) s s' : Prop := {
  fk_mnt : mnt s' = mnt s;
  fk_fat c : 0 ≤ c → c ∉ touched → fat_mem s' !! Z.to_nat c = fat_mem s !! Z.to_nat c;
  fk_data l : data_start (mnt s) ≤ l → sector (dev s') l = sector (dev s) l
}.

Lemma fat_set_kept c v s s' : 0 ≤ c → fat_set c v s s' → fat_kept [c] s s'.
Proof.
  intros Hc [Hm Hf Hd]. split; [done| |done]. intros x Hx Hn. rewrite Hf.
  apply list_lookup_insert_ne. intros ?. apply Hn. apply list_elem_of_singleton. lia.
Qed.

Lemma fat_kept_trans l1 l2 l s1 s2 s3 :
  fat_kept l1 s1 s2 → fat_kept l2 s2 s3 → l1 ⊆ l → l2 ⊆ l → fat_kept l s1 s3.
Proof.
  intros [M1 F1 D1] [M2 F2 D2] H1 H2. split; [congruence| |].
  - intros c Hc Hn. assert (c ∉ l1) by (intros ?; by apply Hn, H1).
    assert (c ∉ l2) by (intros ?; by apply Hn, H2). by rewrite F2, F1.
  - intros l' Hl'. rewrite D2, D1; [done..|by rewrite M1].
Qed.

Lemma fat_of s m c w : fat_ok s m → 0 ≤ c → fat_mem s !! Z.to_nat c = Some w → 0 ≤ w ≤ FAT_MASK → fat s c = w.
Proof.
  intros Hok Hc Hw Hr. unfold fat. pose proof (lookup_lt_Some _ _ _ Hw). pose proof (fo_len _ _ Hok).
  replace (fat_entries (mnt s) <=? c) with false by lia. rewrite Hw. by apply land_mask.
Qed.

(** Writing a nonzero entry: what it makes of the free list. *)
Lemma frees_set_used s s' m c v w :
  fat_ok s m → 2 ≤ c → fat_mem s !! Z.to_nat c = Some w → w ≠ 0 → v ≠ 0 → fat_set c v s s' → frees s' = frees s.
Proof.
  intros Hok Hc Hw Hw0 Hv Hset. unfold frees. rewrite (fs_fat _ _ _ _ Hset), drop_insert_ge by lia.
  eapply free_from_keep; [|exact Hw0|done]. rewrite lookup_drop, <- Hw. f_equal. lia.
Qed.

Lemma frees_set_first s s' c r v : frees s = c :: r → v ≠ 0 → fat_set c v s s' → frees s' = r.
Proof.
  intros Hf Hv Hset. assert (2 ≤ c) as Hc by (apply (frees_elem s c); rewrite Hf; by left).
  unfold frees. rewrite (fs_fat _ _ _ _ Hset), drop_insert_ge by lia.
  replace (Z.to_nat c - 2)%nat with (Z.to_nat (c - 2)) by lia. by apply free_from_take.
Qed.

Lemma fat_set_lookup c v s s' m : fat_ok s m → 0 ≤ c < fat_entries (mnt s) → fat_set c v s s' → fat_mem s' !! Z.to_nat c = Some v.
Proof.
  intros Hok Hc Hset. rewrite (fs_fat _ _ _ _ Hset). apply list_lookup_insert_eq. pose proof (fo_len _ _ Hok). lia.
Qed.

Lemma fat_used_lt s m c w : fat_ok s m → 0 ≤ c → fat_mem s !! Z.to_nat c = Some w → c < fat_entries (mnt s).
Proof. intros Hok Hc Hw. apply lookup_lt_Some in Hw. pose proof (fo_len _ _ Hok). lia. Qed.

Lemma end_chain_run s m cur w :
  fat_ok s m → 2 ≤ cur → fat_mem s !! Z.to_nat cur = Some w → w ≠ 0 →
  ∃ s', Fat32SetFatEntry cur EOC s = Ok (STATUS_SUCCESS, s') ∧ fat_ok s' m ∧ fat_kept [cur] s s' ∧
    chain (fat s') cur [cur] ∧ frees s' = frees s.
Proof.
  intros Hok Hcur Hw Hw0. pose proof (fat_used_lt s m cur w Hok ltac:(lia) Hw) as Hlt.
  pose proof (fo_entries _ _ Hok) as He.
  destruct (set_run s m cur EOC Hok) as (s' & Hr & Hok' & Hset); [lia|done|].
  exists s'. split_and!; [done|done|by apply (fat_set_kept _ EOC); [lia|]| |exact (frees_set_used s s' m cur EOC w Hok Hcur Hw Hw0 ltac:(done) Hset)].
  constructor; [apply in_chain_bounds; lia|].
  rewrite (fat_of s' m cur EOC); [by apply chain_nil; vm_compute|done|lia|eapply fat_set_lookup; [exact Hok|lia|done]|done].
Qed.

(** One cluster more: the first free one is marked as the end and linked. *)
Lemma link_next_run s m cur w next r :
  fat_ok s m → 2 ≤ cur → fat_mem s !! Z.to_nat cur = Some w → w ≠ 0 → frees s = next :: r →
  ∃ s1 s2, Fat32SetFatEntry next EOC s = Ok (STATUS_SUCCESS, s1) ∧
    Fat32SetFatEntry cur next s1 = Ok (STATUS_SUCCESS, s2) ∧ fat_ok s2 m ∧ fat_kept [next; cur] s s2 ∧
    2 ≤ next < EOC_MIN ∧ frees s2 = r ∧
    fat_mem s2 !! Z.to_nat next = Some EOC ∧ fat_mem s2 !! Z.to_nat cur = Some next.
Proof.
  intros Hok Hcur Hw Hw0 Hfr. assert (next ∈ frees s) as Hin by (rewrite Hfr; by left).
  pose proof (frees_range s m next Hok Hin) as Hnx. pose proof (proj1 (frees_elem s next) Hin) as [_ Hn0].
  assert (cur ≠ next) as Hne by congruence.
  pose proof (fat_used_lt s m cur w Hok ltac:(lia) Hw) as Hlt. pose proof (fo_entries _ _ Hok) as He.
  destruct (set_run s m next EOC Hok) as (s1 & Hr1 & Hok1 & Hset1); [lia|done|].
  pose proof (frees_set_first s s1 next r EOC Hfr ltac:(done) Hset1) as Hf1.
  assert (Hk1 := fat_set_kept next EOC s s1 ltac:(lia) Hset1). pose proof (fk_mnt _ _ _ Hk1) as Hm1.
  assert (Hw1 : fat_mem s1 !! Z.to_nat cur = Some w).
  { rewrite (fk_fat _ _ _ Hk1); [done|lia|]. by rewrite list_elem_of_singleton. }
  destruct (set_run s1 m cur next Hok1) as (s2 & Hr2 & Hok2 & Hset2); [rewrite Hm1; lia|unfold FAT_MASK, EOC_MIN in *; lia|].
  pose proof (frees_set_used s1 s2 m cur next w Hok1 Hcur Hw1 Hw0 ltac:(lia) Hset2) as Hf2.
  assert (Hk2 := fat_set_kept cur next s1 s2 ltac:(lia) Hset2).
  exists s1, s2. split_and!; [done|done|done| |lia|lia|congruence| |].
  - eapply fat_kept_trans; [exact Hk1|exact Hk2|set_solver|set_solver].
  - rewrite (fk_fat _ _ _ Hk2); [|lia|by rewrite list_elem_of_singleton].
    eapply fat_set_lookup; [exact Hok|lia|done].
  - eapply fat_set_lookup; [exact Hok1|rewrite Hm1; lia|done].
Qed.

(** Taking [k] more clusters after [cur]: the first free ones, in order, linked
    into a chain that ends at the last; when fewer are free, all of them. *)
Lemma allocate_chain_run m k : ∀ s cur w,
  fat_ok s m → 2 ≤ cur → fat_mem s !! Z.to_nat cur = Some w → w ≠ 0 →
  ∃ s', allocate_from (S k) cur s =
      Ok (if (k <=? length (frees s))%nat then STATUS_SUCCESS else STATUS_DISK_FULL, s') ∧
    fat_ok s' m ∧ fat_kept (cur :: take k (frees s)) s s' ∧
    chain (fat s') cur (cur :: take k (frees s)) ∧ frees s' = drop k (frees s).
Proof.
  induction k as [|k IH]; intros s cur w Hok Hcur Hw Hw0.
  { destruct (end_chain_run s m cur w Hok Hcur Hw Hw0) as (s' & Hr & Hrest).
    exists s'. cbn [allocate_from]. rewrite (bind_ok _ _ _ _ _ Hr). done. }
  change (allocate_from (S (S k)) cur) with
    (r ← Fat32FindFreeCluster;
     match r.2 with
     | None => Fat32SetFatEntry cur EOC;; mret r.1
     | Some next => Fat32SetFatEntry next EOC;; Fat32SetFatEntry cur next;; allocate_from (S k) next
     end).
  rewrite (bind_ok _ _ _ _ _ (find_free_run s m Hok)).
  destruct (frees s) as [|next r] eqn:Hfr; cbn [fst snd].
  { destruct (end_chain_run s m cur w Hok Hcur Hw Hw0) as (s' & Hr & Hrest).
    exists s'. rewrite (bind_ok _ _ _ _ _ Hr). by rewrite Hfr in Hrest. }
  destruct (link_next_run s m cur w next r Hok Hcur Hw Hw0 Hfr)
    as (s1 & s2 & Hr1 & Hr2 & Hok2 & Hk2 & Hnx & Hf2 & Hw2 & Hc2).
  pose proof (fat_used_lt s m cur w Hok ltac:(lia) Hw) as Hlt. pose proof (fo_entries _ _ Hok) as He.
  destruct (IH s2 next EOC Hok2) as (s' & Hr & Hok' & Hk' & Hch & Hf'); [lia|done|done|].
  rewrite Hf2 in *. exists s'. rewrite (bind_ok _ _ _ _ _ Hr1), (bind_ok _ _ _ _ _ Hr2), Hr. cbn [take drop].
  split_and!; [done|done| | |done].
  - eapply fat_kept_trans; [exact Hk2|exact Hk'|set_solver|set_solver].
  - constructor; [apply in_chain_bounds; lia|]. rewrite (fat_of s' m cur next); [done|done|lia| |unfold FAT_MASK, EOC_MIN in *; lia].
    assert (Hnf : cur ∉ frees s) by (rewrite frees_elem; intros [_ ?]; congruence).
    rewrite (fk_fat _ _ _ Hk'); [done|lia|]. intros Hc. apply Hnf. rewrite Hfr.
    apply elem_of_cons in Hc as [->|(i & Hc & _)%elem_of_take]; [by left|right; by eapply list_elem_of_lookup_2].
Qed.

(** ** Writing clusters *)

(** Only the bytes of the clusters in [touched] have changed. *)
Record wrote (touched : list Z) s s' : Prop := {
  wr_mnt : mnt s' = mnt s;
  wr_fat : fat_mem s' = fat_mem s;
  wr_data c : 2 ≤ c → c ∉ touched → cdata s' c = cdata s c
}.

Lemma same_wrote s s' l : same s s' → wrote l s s'.
Proof. intros Hs. split; [apply Hs..|]. intros c _ _. by apply same_cdata. Qed.

Lemma wrote_trans l1 l2 l s1 s2 s3 : wrote l1 s1 s2 → wrote l2 s2 s3 → l1 ⊆ l → l2 ⊆ l → wrote l s1 s3.
Proof.
  intros [M1 F1 D1] [M2 F2 D2] H1 H2. split; [congruence..|].
  intros c Hc Hn. rewrite D2, D1; [done|done| |done|]; intros ?; [by apply Hn, H1|by apply Hn, H2].
Qed.

Lemma wrote_fat l s s' c : wrote l s s' → fat s' c = fat s c.
Proof. intros [Hm Hf _]. unfold fat. by rewrite Hm, Hf. Qed.

Lemma wrote_chain l s s' c cl : wrote l s s' → chain (fat s) c cl → chain (fat s') c cl.
Proof.
  intros Hs. induction 1 as [c Hc|c l' Hc _ IH]; [by constructor|]. constructor; [done|]. by rewrite (wrote_fat _ _ _ _ Hs).
Qed.

Lemma write_cluster_run s m c buf :
  fat_ok s m → 2 ≤ c < EOC_MIN → length buf = Z.to_nat (bytes_per_cluster (mnt s)) → Forall byte buf →
  ∃ s', Fat32WriteCluster c buf s = Ok (STATUS_SUCCESS, s') ∧ fat_ok s' m ∧ wrote [c] s s' ∧ cdata s' c = buf.
Proof.
  intros Hok Hc Hl Hb. destruct (fo_spc _ _ Hok) as [Hs0 Hs1]. pose proof (fo_bpc _ _ Hok) as Hbpc.
  set (spc := sectors_per_cluster (mnt s)) in *. set (a := data_start (mnt s) + (c - 2) * spc).
  assert (Hn : (SECTOR * Z.to_nat spc)%nat = length buf) by (unfold SECTOR; lia).
  destruct (ahci_write_law (dev s) a spc buf (fo_dev _ _ Hok)) as (d & Hw & Hup & He); [lia|done|done|].
  exists (set_dev d s). split.
  { unfold Fat32WriteCluster. replace (c <? 2) with false by lia. unfold mbind at 1, M_bind at 1. cbn [mgets].
    fold spc. rewrite Hn, Nat.leb_refl, take_ge by lia. rewrite (cluster_lba_ok _ _ _ Hok Hc). fold spc a.
    unfold Fat32WriteSectors. replace (spc =? 0) with false by lia. by apply zoom_ok. }
  assert (Hbelow : ∀ l, l < data_start (mnt s) → sector d l = sector (dev s) l).
  { intros l Hlt. rewrite He. replace ((a <=? l) && (l <? a + spc)) with false; [done|]. unfold a. nia. }
  split_and!.
  - pose proof (fo_mirror _ _ Hok) as Hmir. pose proof (fo_len _ _ Hok) as Hfl.
    assert (Htb := table_below_data s m). destruct Hok. split; try done. cbn [set_dev dev mnt fat_mem].
    intros k w Hk. rewrite Hbelow; [by apply Hmir|]. rewrite Nat2Z.inj_div. apply Htb; [done|].
    apply lookup_lt_Some in Hk. lia.
  - split; [done..|]. intros c' Hc' Hne. rewrite list_elem_of_singleton in Hne. unfold cdata. cbn [set_dev dev mnt].
    fold spc. apply sectors_ext. intros l Hlr. rewrite He.
    replace ((a <=? l) && (l <? a + spc)) with false; [done|]. unfold a. symmetry. apply not_true_is_false. nia.
  - unfold cdata. cbn [set_dev dev mnt]. fold spc. fold a. apply sectors_sub; [lia|].
    intros l Hlr. rewrite He. by replace ((a <=? l) && (l <? a + spc)) with true by lia.
Qed.

(** The cluster image of [n] bytes of data. *)
Lemma image_ok s m bs :
  fat_ok s m → (length bs ≤ Z.to_nat (bytes_per_cluster (mnt s)))%nat → Forall byte bs →
  let image := splice 0 bs (zeros (bytes_per_cluster (mnt s))) in
  length image = Z.to_nat (bytes_per_cluster (mnt s)) ∧ Forall byte image ∧ take (length bs) image = bs.
Proof.
  intros Hok Hl Hb. cbn zeta. split_and!.
  - rewrite splice_length; rewrite zeros_length; [done|lia].
  - apply splice_Forall; [done|]. by apply Forall_replicate.
  - unfold splice. rewrite take_0, app_nil_l. by rewrite take_app_length.
Qed.

(** One turn that finds data to write: out of memory, or the cluster holds it. *)
Lemma write_turn_run s m buffer c done_ :
  fat_ok s m → in_chain c = true → 0 ≤ done_ < Z.of_nat (length buffer) →
  Z.of_nat (length buffer) < 4294836224 → Forall byte buffer →
  let copy := Z.min (Z.of_nat (length buffer) - done_) (bytes_per_cluster (mnt s)) in
  ∃ r s', write_turn buffer (c, done_) s = Ok (r, s') ∧ fat_ok s' m ∧ wrote [c] s s' ∧
    (r = inr (inl STATUS_NO_MEMORY) ∨
     r = (if (EOC_MIN <=? fat s c) || (fat s c =? 0) then inr (inr (done_ + copy)) else inl (fat s c, done_ + copy)) ∧
     take (Z.to_nat copy) (cdata s' c) = sub (Z.to_nat done_) (Z.to_nat copy) buffer).
Proof.
  intros Hok Hin Hd Hlen Hb copy. pose proof (bpc_pos _ _ Hok) as Hbpc.
  pose proof (proj1 (in_chain_bounds _) Hin) as Hc. unfold write_turn.
  replace (done_ <? Z.of_nat (length buffer)) with true by lia.
  rewrite <- andb_assoc, (andb_comm (2 <=? c)). fold (in_chain c). rewrite Hin. cbn [andb].
  unfold mbind at 1, M_bind at 1. cbn [mgets]. fold copy.
  destruct (alloc_run s m (bytes_per_cluster (mnt s)) Hok) as (a & s1 & Ha & Hs1 & Hcase); [lia|].
  rewrite (bind_ok _ _ _ _ _ Ha). destruct Hcase as [[-> Hok1]|(Hne & Hm & Hok1)].
  { do 2 eexists. split_and!; [done|done|by apply same_wrote|by left]. }
  replace (a =? 0) with false by lia. rewrite u32_small by lia.
  replace (if Z.of_nat (length buffer) <? done_ + copy then Z.of_nat (length buffer) - done_ else copy)
    with copy by (case_if; lia).
  set (bs := sub (Z.to_nat done_) (Z.to_nat copy) buffer).
  assert (Hbs : length bs = Z.to_nat copy) by (apply sub_length; lia).
  destruct (image_ok s m bs Hok) as (Hil & Hib & Hit); [lia|by apply sub_Forall|]. rewrite Hbs in Hit.
  destruct (write_cluster_run s1 _ c (splice 0 bs (zeros (bytes_per_cluster (mnt s)))) Hok1 Hc) as (s2 & Hw & Hok2 & Hwr & Hcd); [rewrite (sm_mnt _ _ Hs1); exact Hil|exact Hib|].
  rewrite (bind_ok _ _ _ _ _ Hw).
  destruct (free_run' s2 m a Hm Hok2) as (s3 & Hf & Hok3 & Hs3). rewrite (bind_ok _ _ _ _ _ Hf).
  replace (NT_SUCCESS STATUS_SUCCESS) with true by done. cbn [negb]. cbv match.
  rewrite (bind_ok _ _ _ _ _ (get_run s3 m c Hok3 ltac:(lia))).
  assert (Hw3 : wrote [c] s s3).
  { eapply wrote_trans; [by apply (same_wrote _ _ [c])| |reflexivity|reflexivity].
    eapply wrote_trans; [exact Hwr|by apply (same_wrote _ _ [c])|reflexivity|reflexivity]. }
  rewrite (wrote_fat _ _ _ _ Hw3).
  exists (if (EOC_MIN <=? fat s c) || (fat s c =? 0) then inr (inr (done_ + copy)) else inl (fat s c, done_ + copy)), s3.
  split; [by destruct ((EOC_MIN <=? fat s c) || (fat s c =? 0))|].
  split_and!; [done|done|]. right. split; [done|]. by rewrite (same_cdata _ _ Hs3), Hcd.
Qed.

Lemma write_loop m buffer l : ∀ s c done_,
  fat_ok s m → chain (fat s) c l → 0 ≤ done_ ≤ Z.of_nat (length buffer) →
  Z.of_nat (length buffer) < 4294836224 → Forall byte buffer →
  let n := Z.min (Z.of_nat (length buffer) - done_) (Z.of_nat (length l) * bytes_per_cluster (mnt s)) in
  ∃ k r s', loops_to (write_turn buffer) k (c, done_) s r s' ∧ k ≤ Z.of_nat (length l) + 1 ∧
    fat_ok s' m ∧ wrote l s s' ∧
    (r = inl STATUS_NO_MEMORY ∨
     r = inr (done_ + n) ∧ take (Z.to_nat n) (content s' l) = sub (Z.to_nat done_) (Z.to_nat n) buffer).
Proof.
  induction l as [|c' l IH]; intros s c done_ Hok Hch Hd Hlen Hb n.
  - inversion Hch as [? Hin|]; subst. exists 1, (inr done_), s. split_and!; [|simpl; lia|done|done|].
    + apply loops_done. unfold write_turn. rewrite <- andb_assoc, (andb_comm (2 <=? c)). fold (in_chain c).
      by rewrite Hin, andb_false_r.
    + right. assert (n = 0) as -> by (unfold n; cbn; lia). by rewrite Z.add_0_r.
  - inversion Hch as [|? ? Hin Hch']; subst. pose proof (bpc_pos _ _ Hok) as Hbpc.
    destruct (decide (done_ = Z.of_nat (length buffer))) as [->|Hne].
    { exists 1, (inr (Z.of_nat (length buffer))), s. split_and!; [|simpl; lia|done|done|].
      - apply loops_done. unfold write_turn. by rewrite Z.ltb_irrefl.
      - right. assert (n = 0) as -> by (unfold n; cbn; nia). by rewrite Z.add_0_r. }
    destruct (write_turn_run s m buffer c' done_ Hok Hin ltac:(lia) Hlen Hb) as (r & s1 & Hr & Hok1 & Hw1 & Hcase).
    set (copy := Z.min (Z.of_nat (length buffer) - done_) (bytes_per_cluster (mnt s))) in *.
    destruct Hcase as [->|[-> Hcd]].
    { exists 1, (inl STATUS_NO_MEMORY), s1. split_and!; [by apply loops_done|simpl; lia|done| |by left].
      eapply wrote_trans; [exact Hw1|by apply (same_wrote _ _ [])|set_solver|set_solver]. }
    destruct ((EOC_MIN <=? fat s c') || (fat s c' =? 0)) eqn:Hstop.
    { assert (l = []) as ->.
      { inversion Hch' as [|? ? Hin']; [done|]. apply in_chain_bounds in Hin'. lia. }
      exists 1, (inr (done_ + copy)), s1. split_and!; [by apply loops_done|simpl; lia|done|done|]. right.
      assert (n = copy) as -> by (unfold n, copy; cbn; lia). split; [done|]. cbn. by rewrite app_nil_r. }
    pose proof (chain_NoDup _ _ _ Hch) as [Hnl _]%NoDup_cons.
    destruct (IH s1 (fat s c') (done_ + copy)) as (k & r & s2 & Hl & Hk & Hok2 & Hw2 & Hcase);
      [done|by eapply wrote_chain|lia|done|done|].
    exists (k + 1), r, s2. split_and!; [by eapply loops_step|simpl; lia|done|eapply wrote_trans; [exact Hw1|exact Hw2|set_solver|set_solver]|].
    destruct Hcase as [->|[-> Hct]]; [by left|right]. rewrite (wr_mnt _ _ _ Hw1) in *.
    set (n' := Z.min (Z.of_nat (length buffer) - (done_ + copy)) (Z.of_nat (length l) * bytes_per_cluster (mnt s))) in *.
    assert (n = copy + n' ∧ (n' = 0 ∨ copy = bytes_per_cluster (mnt s)) ∧ 0 ≤ n') as (-> & Hor & Hn') by (unfold n, n', copy; cbn [length]; nia).
    split; [f_equal; lia|]. change (content s2 (c' :: l)) with (cdata s2 c' ++ content s2 l).
    rewrite (wr_data _ _ _ Hw2) by (try done; apply in_chain_bounds in Hin; lia).
    pose proof (cdata_length s1 m c' Hok1) as Hcl. rewrite (wr_mnt _ _ _ Hw1) in Hcl.
    unfold sub in *. rewrite Z2Nat.inj_add in * by lia. destruct Hor as [Hz|Hc].
    + rewrite Hz in *. rewrite Z2Nat.inj_0, !Nat.add_0_r, take_app_le by lia. done.
    + rewrite take_app_add' by lia. rewrite Hct. rewrite (take_ge (cdata s1 c')) in Hcd by lia. rewrite Hcd.
      by rewrite <- drop_drop, take_take_drop.
Qed.

(** ** Extending and overwriting *)

Lemma count_loop s m l : ∀ c k,
  fat_ok s m → chain (fat s) c l → 0 ≤ k → k + Z.of_nat (length l) < 4294967296 →
  ∃ n, loops_to count_turn n (c, k) s (k + Z.of_nat (length l)) s ∧ n ≤ Z.of_nat (length l) + 1.
Proof.
  induction l as [|c' l IH]; intros c k Hok Hch Hk Hkl; inversion Hch as [? Hin|? ? Hin Hch']; subst.
  - exists 1. split; [|cbn; lia]. apply loops_done. unfold count_turn. rewrite Hin. cbn. by rewrite Z.add_0_r.
  - cbn [length] in *. destruct (IH (fat s c') (k + 1)) as (n & Hl & Hn); [done|done|lia|lia|].
    exists (n + 1). split; [|lia]. replace (k + Z.of_nat (S (length l))) with (k + 1 + Z.of_nat (length l)) by lia.
    eapply loops_step; [|exact Hl]. unfold count_turn. rewrite Hin. apply in_chain_bounds in Hin.
    rewrite (bind_ok _ _ _ _ _ (get_run s m c' Hok ltac:(lia))). by rewrite u32_small by lia.
Qed.

Lemma last_loop s m l : ∀ c p,
  fat_ok s m → chain (fat s) c l →
  ∃ n, loops_to last_turn n (c, p) s (default p (last l)) s ∧ n ≤ Z.of_nat (length l) + 1.
Proof.
  induction l as [|c' l IH]; intros c p Hok Hch; inversion Hch as [? Hin|? ? Hin Hch']; subst.
  - exists 1. split; [|cbn; lia]. apply loops_done. unfold last_turn. by rewrite Hin.
  - destruct (IH (fat s c') c') as (n & Hl & Hn); [done|done|].
    exists (n + 1). split; [|cbn [length]; lia].
    replace (default p (last (c' :: l))) with (default c' (last l)) by (destruct l using rev_ind; [done|by rewrite app_comm_cons, !last_snoc]).
    eapply loops_step; [|exact Hl]. unfold last_turn. rewrite Hin. apply in_chain_bounds in Hin.
    by rewrite (bind_ok _ _ _ _ _ (get_run s m c' Hok ltac:(lia))).
Qed.

Lemma chain_extend f f' c l x new :
  chain f c (l ++ [x]) → chain f' x (x :: new) → (∀ y, y ∈ l → f' y = f y) → chain f' c (l ++ x :: new).
Proof.
  revert c. induction l as [|y l IH]; intros c Hc Hx Hf; cbn in *.
  - inversion Hc; subst. done.
  - inversion Hc as [|? ? Hin Hc']; subst. constructor; [done|]. rewrite Hf by (by left). apply IH; [done..|].
    intros z Hz. apply Hf. by right.
Qed.

(** The clusters of the chain are marked in the table. *)
Definition used s (l : list Z) : Prop := ∀ c, c ∈ l → ∃ w, fat_mem s !! Z.to_nat c = Some w ∧ w ≠ 0.

Lemma used_not_free s l c : used s l → c ∈ l → c ∉ frees s.
Proof. intros Hu Hc [_ Hf]%frees_elem. destruct (Hu c Hc) as (w & Hw & Hw0). congruence. Qed.

Lemma kept_fat l s s' c : fat_kept l s s' → 0 ≤ c → c ∉ l → fat s' c = fat s c.
Proof. intros [Hm Hf _] Hc Hn. unfold fat. by rewrite Hm, Hf. Qed.

Lemma kept_cdata l s s' c m : fat_ok s m → fat_kept l s s' → 2 ≤ c → cdata s' c = cdata s c.
Proof.
  intros Hok [Hm _ Hd] Hc. unfold cdata. rewrite Hm. apply sectors_ext. intros a Ha. apply Hd.
  destruct (fo_spc _ _ Hok). nia.
Qed.

(** Making an existing chain [needed] clusters long. *)
Lemma extend_run s m c l needed :
  fat_ok s m → chain (fat s) c l → l ≠ [] → used s l → 0 ≤ needed < 4294967296 →
  let new := take (Z.to_nat (needed - Z.of_nat (length l) - 1)) (frees s) in
  ∃ st s', extend_chain c needed s = Ok (st, s') ∧ fat_ok s' m ∧ chain (fat s') c (l ++ new) ∧
    (∃ touched, fat_kept touched s s' ∧ touched ⊆ l ++ new) ∧
    (st = STATUS_SUCCESS ∨
     st = STATUS_DISK_FULL ∧ Z.of_nat (length (frees s)) < needed - Z.of_nat (length l) - 1).
Proof.
  intros Hok Hch Hne Hused Hneed new. pose proof (chain_length _ _ _ Hch) as Hlen. unfold EOC_MIN in Hlen.
  destruct (count_loop s m l c 0 Hok Hch) as (n1 & Hl1 & Hn1); [lia|lia|].
  unfold extend_chain. erewrite bind_ok; [|eapply loop_ok; [exact Hl1|lia]]. rewrite Z.add_0_l.
  destruct (Z.ltb_spec (Z.of_nat (length l)) needed) as [Hlt|Hge].
  2:{ assert (new = []) as Hnew by (unfold new; by rewrite Z2Nat.nonpos by lia).
      exists STATUS_SUCCESS, s. rewrite Hnew, app_nil_r. split_and!; [done..| |by left]. exists []. split; [done|set_solver]. }
  destruct (last_loop s m l c 0 Hok Hch) as (n2 & Hl2 & Hn2). erewrite bind_ok; [|eapply loop_ok; [exact Hl2|lia]].
  destruct l as [|x l _] using rev_ind; [done|]. rewrite last_snoc. cbn [default from_option id].
  destruct (Hused x) as (w & Hw & Hw0); [apply elem_of_app; right; by left|].
  pose proof (chain_in _ _ _ x Hch ltac:(apply elem_of_app; right; by left)) as Hx.
  set (k := Z.to_nat (needed - Z.of_nat (length (l ++ [x])) - 1)) in *.
  destruct (allocate_chain_run m k s x w Hok) as (s' & Hr & Hok' & Hk & Hch' & _); [lia|done|done|].
  fold new in Hk, Hch'. unfold Fat32AllocateChain. replace (Z.to_nat (needed - Z.of_nat (length (l ++ [x])))) with (S k) by (unfold k; lia). rewrite Hr.
  do 2 eexists. split; [done|]. split; [done|]. split_and!.
  - rewrite <- app_assoc. eapply chain_extend; [exact Hch|exact Hch'|]. intros y Hy.
    pose proof (chain_in _ _ _ y Hch ltac:(apply elem_of_app; by left)). eapply kept_fat; [exact Hk|lia|].
    intros [->|Hin]%elem_of_cons.
    + apply chain_NoDup, NoDup_app in Hch as (_ & Hd & _). by apply (Hd x Hy), list_elem_of_singleton.
    + apply elem_of_take in Hin as (i & Hin & _). apply list_elem_of_lookup_2 in Hin.
      eapply used_not_free; [exact Hused|apply elem_of_app; by left|done].
  - exists (x :: new). split; [done|]. rewrite <- app_assoc. set_solver.
  - destruct (Nat.leb_spec k (length (frees s))); [by left|right]. unfold k in *. split; [done|lia].
Qed.

Definition clusters_for s (n : Z) : Z :=
  let k := (n + bytes_per_cluster (mnt s) - 1) / bytes_per_cluster (mnt s) in if k =? 0 then 1 else k.

(** A directory whose clusters are not touched keeps its entries. *)
Lemma find_entry_ext s s' dl name :
  mnt s' = mnt s → (∀ c, c ∈ dl → cdata s' c = cdata s c) → find_entry s' dl name = find_entry s dl name.
Proof.
  intros Hm Hd. unfold find_entry. do 4 f_equal. unfold dirents.
  induction dl as [|c dl IH]; [done|]. cbn. rewrite Hm, (Hd c) by (by left). f_equal.
  rewrite Hm in IH. apply IH. intros c' Hc'. apply Hd. by right.
Qed.

Lemma chain_ext f f' c l : (∀ x, x ∈ l → f' x = f x) → chain f c l → chain f' c l.
Proof.
  intros Hf Hc. induction Hc as [c Hin|c l Hin _ IH]; [by constructor|]. constructor; [done|].
  rewrite Hf by (by left). apply IH. intros x Hx. apply Hf. by right.
Qed.

(** The whole call once the lookup, the extension and the data loop are known. *)
Lemma write_file_unfold s s0 s1 s2 m name buffer junk e st r k :
  fat_ok s m → Fat32FindEntry (root_cluster (mnt s)) name s = Ok ((STATUS_SUCCESS, Some e), s0) →
  2 ≤ first_cluster e → Z.of_nat (length buffer) < 4294836224 →
  extend_chain (first_cluster e) (clusters_for s (Z.of_nat (length buffer))) s0 = Ok (st, s1) →
  loops_to (write_turn buffer) k (first_cluster e, 0) s1 r s2 → k ≤ 18446744073709551616 →
  Fat32WriteFile name buffer junk true s =
    if NT_SUCCESS st then
      match r with
      | inl st => Ok ((st, None), s2)
      | inr w => Ok ((STATUS_SUCCESS, if truthy w then Some w else None), s2)
      end
    else Ok ((st, None), s1).
Proof.
  intros Hok Hfind Hfc Hlen Hext Hl Hk. pose proof (bpc_pos _ _ Hok) as Hbpc.
  unfold Fat32WriteFile. unfold mbind at 1, M_bind at 1. cbn [mgets]. rewrite (fo_valid _ _ Hok). cbn [negb].
  rewrite (bind_ok _ _ _ _ _ Hfind). cbv match. replace (first_cluster e <? 2) with false by lia.
  rewrite bind_ret. replace (bytes_per_cluster (mnt s) =? 0) with false by lia. rewrite u32_small by lia.
  fold (clusters_for s (Z.of_nat (length buffer))). rewrite (bind_ok _ _ _ _ _ Hext).
  destruct (NT_SUCCESS st); [|done]. cbn [negb].
  erewrite bind_ok; [|eapply loop_ok; [exact Hl|lia]]. destruct r as [?|w]; [done|]. cbn [negb]. by rewrite andb_false_r.
Qed.

(** The part of a directory's guarantee that survives changes to other clusters. *)
Lemma directory_kept s s' m dl (all : list Z) name :
  chain (fat s) (root_cluster (mnt s)) dl → (∀ c, c ∈ dl → c ∉ all) → mnt s' = mnt s →
  (∀ c, 2 ≤ c → c ∉ all → cdata s' c = cdata s c) → fat_ok s m → find_entry s' dl name = find_entry s dl name.
Proof.
  intros Hdl Hd Hm Hc Hok. apply find_entry_ext; [done|]. intros c Hin.
  pose proof (chain_in _ _ _ c Hdl Hin). apply Hc; [lia|by apply Hd].
Qed.

(** What happens to the volume when an existing file is written. *)
Lemma write_existing_run s s0 m name buffer junk dl l e :
  fat_ok s m → chain (fat s) (root_cluster (mnt s)) dl →
  Fat32FindEntry (root_cluster (mnt s)) name s = Ok ((STATUS_SUCCESS, Some e), s0) →
  chain (fat s) (first_cluster e) l → l ≠ [] → used s (dl ++ l) → (∀ c, c ∈ dl → c ∉ l) →
  Z.of_nat (length buffer) < 4294836224 → Forall byte buffer →
  let needed := clusters_for s (Z.of_nat (length buffer)) in
  let all := l ++ take (Z.to_nat (needed - Z.of_nat (length l) - 1)) (frees s) in
  let n := Z.min (Z.of_nat (length buffer)) (Z.of_nat (length all) * bytes_per_cluster (mnt s)) in
  ∃ r s', Fat32WriteFile name buffer junk true s = Ok (r, s') ∧ fat_ok s' m ∧ mnt s' = mnt s ∧
    chain (fat s') (first_cluster e) all ∧ chain (fat s') (root_cluster (mnt s)) dl ∧
    find_entry s' dl name = Some e ∧ (∀ c, 2 ≤ c → c ∉ all → cdata s' c = cdata s c) ∧
    (r = (STATUS_DISK_FULL, None) ∧ Z.of_nat (length (frees s)) < needed - Z.of_nat (length l) - 1 ∨
     r = (STATUS_NO_MEMORY, None) ∨
     r = (STATUS_SUCCESS, if truthy n then Some n else None) ∧
       take (Z.to_nat n) (content s' all) = take (Z.to_nat n) buffer).
Proof.
  intros Hok Hdl Hfind Hch Hne Hused Hdisj Hlen Hb needed all n.
  pose proof (bpc_pos _ _ Hok) as Hbpc.
  destruct (find_entry_run s m _ dl name Hok Hdl) as (r0 & s0' & Hr0 & Hok0 & Hs0 & Hcase).
  rewrite Hfind in Hr0. injection Hr0 as <- <-. destruct Hcase as [?|Hfe]; [done|]. injection Hfe as _ Hfe.
  assert (2 ≤ first_cluster e) as Hfc.
  { inversion Hch as [|? ? Hin]; subst; [done|]. apply in_chain_bounds in Hin. lia. }
  assert (Hneed : 0 ≤ needed < 4294967296).
  { unfold needed, clusters_for. case_if; [lia|]. split; [apply Z.div_pos; lia|]. apply Z.div_lt_upper_bound; nia. }
  destruct (extend_run s0 m (first_cluster e) l needed Hok0) as (st & s1 & Hext & Hok1 & Hch1 & (tch & Hk & Hts) & Hst);
    [by eapply same_chain|done| |done|].
  { intros c Hc. rewrite (sm_fat _ _ Hs0). apply Hused, elem_of_app. by right. }
  assert (frees s0 = frees s) as Hfs by (unfold frees; by rewrite (sm_fat _ _ Hs0)). rewrite Hfs in *. fold all in Hch1, Hts.
  assert (Hm1 : mnt s1 = mnt s) by (by rewrite (fk_mnt _ _ _ Hk), (sm_mnt _ _ Hs0)).
  assert (Hdall : ∀ c, c ∈ dl → c ∉ all).
  { intros c Hc [Hl|Ht]%elem_of_app; [by apply (Hdisj c)|]. apply elem_of_take in Ht as (i & Ht & _).
    apply list_elem_of_lookup_2 in Ht. eapply used_not_free; [exact Hused|apply elem_of_app; by left|done]. }
  assert (Hcd1 : ∀ c, 2 ≤ c → cdata s1 c = cdata s c).
  { intros c Hc. by rewrite (kept_cdata _ _ _ _ _ Hok0 Hk), (same_cdata _ _ Hs0) by done. }
  assert (Hdl1 : chain (fat s1) (root_cluster (mnt s)) dl).
  { eapply chain_ext; [|exact Hdl]. intros x Hx. pose proof (chain_in _ _ _ x Hdl Hx).
    rewrite (kept_fat _ _ _ _ Hk), (same_fat _ _ Hs0); [done|lia|]. intros ?. by apply (Hdall x), Hts. }
  destruct (write_loop m buffer all s1 (first_cluster e) 0 Hok1 Hch1) as (k & r & s2 & Hl & Hkn & Hok2 & Hw & Hcase);
    [lia|done|done|]. rewrite Hm1 in Hcase. rewrite Z.sub_0_r in Hcase. fold n in Hcase.
  pose proof (chain_length _ _ _ Hch1) as Hcl. unfold EOC_MIN in Hcl.
  pose proof (write_file_unfold s s0 s1 s2 m name buffer junk e st r k Hok Hfind Hfc Hlen Hext Hl ltac:(lia)) as Hrun.
  assert (Hfe1 : ∀ s', mnt s' = mnt s → (∀ c, 2 ≤ c → c ∉ all → cdata s' c = cdata s c) → find_entry s' dl name = Some e).
  { intros s' Hm' Hc'. rewrite Hfe. by eapply directory_kept. }
  destruct Hst as [->|[-> Hfull]]; cbn in Hrun.
  - assert (Hcd2 : ∀ c, 2 ≤ c → c ∉ all → cdata s2 c = cdata s c).
    { intros c Hc Hn. by rewrite (wr_data _ _ _ Hw), Hcd1. }
    assert (Hm2 : mnt s2 = mnt s) by (by rewrite (wr_mnt _ _ _ Hw)).
    destruct Hcase as [->|[-> Htk]]; do 2 eexists; (split; [exact Hrun|]); split_and!;
      try done; try (by eapply wrote_chain); try (by apply Hfe1).
    + right. by left.
    + right. right. split; [done|]. unfold sub in Htk. by rewrite drop_0 in Htk.
  - do 2 eexists. split; [exact Hrun|]. split_and!; try done.
    + apply Hfe1; [done|]. intros c Hc _. by apply Hcd1.
    + intros c Hc _. by apply Hcd1.
    + by left.
Qed.

(** [C24] Writing a file that exists, whose lookup succeeds: the chain keeps its
    clusters and grows by the first free ones, one fewer than the data needs;
    when they suffice the data is in the chain up to its capacity and the
    number of bytes written says how much; the data of the clusters outside the
    chain and the file's directory entry are untouched, and reading the file back,
    within its recorded size, gives the data.  Too few free clusters or an
    exhausted pool are reported. *)
Theorem fat32_write_read s s0 m name buffer junk dl l e :
  fat_ok s m → chain (fat s) (root_cluster (mnt s)) dl →
  Fat32FindEntry (root_cluster (mnt s)) name s = Ok ((STATUS_SUCCESS, Some e), s0) →
  chain (fat s) (first_cluster e) l → l ≠ [] → used s (dl ++ l) → (∀ c, c ∈ dl → c ∉ l) →
  0 < Z.of_nat (length buffer) < 4294836224 → Forall byte buffer →
  let needed := clusters_for s (Z.of_nat (length buffer)) in
  let all := l ++ take (Z.to_nat (needed - Z.of_nat (length l) - 1)) (frees s) in
  let n := Z.min (Z.of_nat (length buffer)) (Z.of_nat (length all) * bytes_per_cluster (mnt s)) in
  ∃ r s', Fat32WriteFile name buffer junk true s = Ok (r, s') ∧ fat_ok s' m ∧
    chain (fat s') (first_cluster e) all ∧ find_entry s' dl name = Some e ∧
    (∀ c, 2 ≤ c → c ∉ all → cdata s' c = cdata s c) ∧
    (r = (STATUS_DISK_FULL, None) ∧ Z.of_nat (length (frees s)) < needed - Z.of_nat (length l) - 1 ∨
     r = (STATUS_NO_MEMORY, None) ∨
     r = (STATUS_SUCCESS, Some n) ∧
       ∀ b, 0 ≤ b ≤ Z.min n (FileSize e) →
       ∃ r2 s2, Fat32ReadFile name b s' = Ok (r2, s2) ∧
         (r2 = (STATUS_NO_MEMORY, [], Some 0) ∨
          r2 = (STATUS_SUCCESS, take (Z.to_nat b) buffer, Some b))).
Proof.
  intros Hok Hdl Hfind Hch Hne Hused Hdisj Hlen Hb needed all n. pose proof (bpc_pos _ _ Hok) as Hbpc.
  destruct (write_existing_run s s0 m name buffer junk dl l e Hok Hdl Hfind Hch Hne Hused Hdisj)
    as (r & s' & Hr & Hok' & Hm & Hch' & Hdl' & Hfe & Hcd & Hcase); [lia|done|].
  fold needed all n in Hcase, Hch', Hcd. exists r, s'. split_and!; [done..|].
  destruct Hcase as [?|[?|[-> Htk]]]; [by left|by right; left|right; right].
  assert (0 < n) as Hn.
  { unfold n, all. rewrite length_app. assert (0 < Z.of_nat (length l)) by (destruct l; [done|cbn; lia]). nia. }
  split; [unfold truthy; by replace (n =? 0) with false by lia|]. intros b Hbn.
  assert (2 ≤ first_cluster e).
  { destruct l as [|x l0]; [done|]. inversion Hch as [|? ? Hin]; subst. apply in_chain_bounds in Hin. lia. }
  destruct (read_file_run s' m name dl all b Hok') as (r2 & s2 & Hr2 & _ & _ & Hc2); [by rewrite Hm|lia| |].
  { intros e' He' _. rewrite Hfe in He'. by injection He' as <-. }
  exists r2, s2. split; [done|]. destruct Hc2 as [?| ->]; [by left|right]. rewrite Hfe.
  destruct (Z.eqb_spec (FileSize e) 0) as [Hz|Hz]; [by replace b with 0 by lia|].
  replace (first_cluster e <? 2) with false by lia. cbn zeta. rewrite Z.min_r by lia.
  assert (Hpre : take (Z.to_nat b) (content s' all) = take (Z.to_nat b) buffer).
  { replace (take (Z.to_nat b) (content s' all)) with (take (Z.to_nat b) (take (Z.to_nat n) (content s' all)))
      by (rewrite take_take; f_equal; lia).
    rewrite Htk, take_take. f_equal. lia. }
  rewrite Hpre. do 2 f_equal. rewrite length_take. lia.
Qed.

(** ** Directory slots *)

Definition is_free (e : list Z) : bool := (name0 e =? 0) || (name0 e =? 0xE5).

Lemma free_slot_idx buf n : ∀ i, free_slot buf i n = (λ k, (i + k)%nat) <$> first_idx is_free (dir_entry buf <$> seq i n).
Proof.
  induction n as [|n IH]; intros i; [done|]. cbn [free_slot seq fmap list_fmap first_idx]. unfold is_free at 1.
  destruct ((name0 (dir_entry buf i) =? 0) || (name0 (dir_entry buf i) =? 229)); [cbn; f_equal; lia|].
  rewrite IH. destruct (first_idx is_free _); cbn; [f_equal; lia|done].
Qed.

Lemma entries_splice buf n i e :
  (ENTRY * n ≤ length buf)%nat → (i < n)%nat → length e = ENTRY →
  entries_of (splice (ENTRY * i) e buf) n = <[i := e]> (entries_of buf n).
Proof.
  intros Hl Hi He. unfold entries_of. apply list_eq. intros j. rewrite list_lookup_fmap.
  destruct (decide (j < n)%nat) as [Hj|Hj].
  - rewrite lookup_seq_lt by done. cbn [fmap option_fmap option_map]. destruct (decide (i = j)) as [->|Hne].
    + rewrite list_lookup_insert_eq by (by rewrite length_fmap, length_seq). f_equal. unfold dir_entry.
      apply sub_splice_same; [done|]. unfold ENTRY in *. lia.
    + rewrite list_lookup_insert_ne, list_lookup_fmap, lookup_seq_lt by done. cbn [fmap option_fmap option_map]. f_equal. unfold dir_entry.
      apply sub_splice_other; rewrite He; unfold ENTRY in *; lia.
  - rewrite !lookup_ge_None_2; [done| |rewrite length_seq; lia].
    rewrite length_insert, length_fmap, length_seq. lia.
Qed.

Lemma entries_length buf n : length (entries_of buf n) = n.
Proof. unfold entries_of. by rewrite length_fmap, length_seq. Qed.

Lemma first_idx_app' {A} (p : A → bool) l1 l2 :
  first_idx p (l1 ++ l2) =
    match first_idx p l1 with Some i => Some i | None => (λ k, (length l1 + k)%nat) <$> first_idx p l2 end.
Proof.
  induction l1 as [|x l1 IH]; cbn [app first_idx length].
  - by destruct (first_idx p l2).
  - destruct (p x); [done|]. rewrite IH. destruct (first_idx p l1); [done|]. by destruct (first_idx p l2).
Qed.

Lemma dirents_ext s s' l :
  mnt s' = mnt s → (∀ c, c ∈ l → cdata s' c = cdata s c) → dirents s' l = dirents s l.
Proof.
  intros Hm Hd. unfold dirents. rewrite Hm. induction l as [|c l IH]; [done|]. cbn. rewrite (Hd c) by (by left). f_equal.
  apply IH. intros c' Hc'. apply Hd. by right.
Qed.

Lemma slot_turn_run s m c buf entry :
  fat_ok s m → in_chain c = true → length buf = Z.to_nat (bytes_per_cluster (mnt s)) →
  length entry = ENTRY → Forall byte entry →
  let es s := entries_of (cdata s c) (per_cluster (mnt s)) in
  ∃ r s', slot_turn entry (c, buf) s = Ok (r, s') ∧ fat_ok s' m ∧ wrote [c] s s' ∧
    match first_idx is_free (es s) with
    | Some k => r = inr STATUS_SUCCESS ∧ es s' = <[k := entry]> (es s)
    | None => same s s' ∧ r = if (fat s c =? 0) || (EOC_MIN <=? fat s c) then inr STATUS_DISK_FULL else inl (fat s c, cdata s c)
    end.
Proof.
  intros Hok Hin Hbuf Hel Heb es. pose proof (proj1 (in_chain_bounds _) Hin) as Hb. pose proof (bpc_pos _ _ Hok) as Hbpc.
  destruct (read_cluster_run s m c buf Hok Hb Hbuf) as (s1 & Hrd & Hok1 & Hs1).
  pose proof (cdata_length s m c Hok) as Hcl. set (n := per_cluster (mnt s)).
  assert (Hn : (ENTRY * n ≤ length (cdata s c))%nat).
  { rewrite Hcl. unfold n, per_cluster, ENTRY. Z.div_mod_to_equations. lia. }
  unfold slot_turn. rewrite Hin. unfold mbind at 1, M_bind at 1. cbn [mgets]. rewrite (bind_ok _ _ _ _ _ Hrd).
  cbn [fst snd]. replace (NT_SUCCESS STATUS_SUCCESS) with true by done. cbn [negb]. cbv match. fold n.
  pose proof (free_slot_idx (cdata s c) n 0) as Hfs. fold (entries_of (cdata s c) n) in Hfs. unfold n in Hfs. fold (es s) in Hfs.
  fold n in Hfs. rewrite Hfs. destruct (first_idx is_free (es s)) as [k|] eqn:Hk; cbn [fmap option_fmap option_map Nat.add].
  - pose proof (first_idx_lt _ _ _ Hk) as Hkn. unfold es in Hkn. rewrite entries_length in Hkn. fold n in Hkn.
    destruct (write_cluster_run s1 m c (splice (ENTRY * k) entry (cdata s c)) Hok1 Hb) as (s2 & Hw & Hok2 & Hwr & Hcd).
    { rewrite splice_length, Hcl by (unfold ENTRY in *; lia). by rewrite (sm_mnt _ _ Hs1). }
    { apply splice_Forall; [done|]. apply sectors_Forall. intros x. by apply sector_byte, (fo_dev _ _ Hok). }
    assert (Hw2 : wrote [c] s s2) by (eapply wrote_trans; [by apply (same_wrote _ _ [])|exact Hwr|set_solver|set_solver]).
    do 2 eexists. split; [by rewrite (bind_ok _ _ _ _ _ Hw)|]. split_and!; [done|done|done|].
    unfold es. rewrite Hcd, (wr_mnt _ _ _ Hw2). by apply entries_splice.
  - rewrite (bind_ok _ _ _ _ _ (get_run s1 m c Hok1 ltac:(lia))), (same_fat _ _ Hs1).
    exists (if (fat s c =? 0) || (EOC_MIN <=? fat s c) then inr STATUS_DISK_FULL else inl (fat s c, cdata s c)), s1.
    split; [by destruct ((fat s c =? 0) || (EOC_MIN <=? fat s c))|]. split_and!; [done|by apply same_wrote|done|done].
Qed.

(** Writing an entry puts it in the first slot that is free or deleted. *)
Lemma slot_loop m entry l : ∀ s c buf,
  fat_ok s m → chain (fat s) c l → length buf = Z.to_nat (bytes_per_cluster (mnt s)) →
  length entry = ENTRY → Forall byte entry →
  ∃ n st s', loops_to (slot_turn entry) n (c, buf) s st s' ∧ n ≤ Z.of_nat (length l) + 1 ∧ fat_ok s' m ∧ wrote l s s' ∧
    match first_idx is_free (dirents s l) with
    | Some k => st = STATUS_SUCCESS ∧ dirents s' l = <[k := entry]> (dirents s l)
    | None => st = STATUS_DISK_FULL ∧ dirents s' l = dirents s l
    end.
Proof.
  induction l as [|c' l IH]; intros s c buf Hok Hch Hbuf Hel Heb.
  { inversion Hch as [? Hin|]; subst. exists 1, STATUS_DISK_FULL, s. split_and!; [|simpl; lia|done|done|done].
    apply loops_done. unfold slot_turn. by rewrite Hin. }
  pose proof (chain_NoDup _ _ _ Hch) as [Hnl _]%NoDup_cons. inversion Hch as [|? ? Hin Hch']; subst.
  destruct (slot_turn_run s m c' buf entry Hok Hin Hbuf Hel Heb) as (r & s1 & Hr & Hok1 & Hw1 & Hcase). cbn zeta in Hcase.
  set (n := per_cluster (mnt s)) in *. rewrite (wr_mnt _ _ _ Hw1) in Hcase. fold n in Hcase.
  assert (Hdir : ∀ s', mnt s' = mnt s → dirents s' (c' :: l) = entries_of (cdata s' c') n ++ dirents s' l).
  { intros s' Hm. change (dirents s' (c' :: l)) with (entries_of (cdata s' c') (per_cluster (mnt s')) ++ dirents s' l).
    by rewrite Hm. }
  rewrite (Hdir s) by done. rewrite first_idx_app'.
  destruct (first_idx is_free (entries_of (cdata s c') n)) as [k|] eqn:Hk.
  - destruct Hcase as [-> Hes]. exists 1, STATUS_SUCCESS, s1.
    split_and!; [by apply loops_done|simpl; lia|done|eapply wrote_trans; [exact Hw1|by apply (same_wrote _ _ [])|set_solver|set_solver]|done|].
    rewrite (Hdir s1) by apply Hw1. rewrite Hes, insert_app_l by (by eapply first_idx_lt). f_equal.
    apply dirents_ext; [apply Hw1|]. intros x Hx. apply (wr_data _ _ _ Hw1).
    + pose proof (chain_in _ _ _ x Hch' Hx). lia.
    + rewrite list_elem_of_singleton. by intros ->.
  - destruct Hcase as [Hs1 ->]. destruct ((fat s c' =? 0) || (EOC_MIN <=? fat s c')) eqn:Hstop.
    { assert (l = []) as -> by (inversion Hch' as [|? ? Hin']; [done|]; apply in_chain_bounds in Hin'; lia).
      exists 1, STATUS_DISK_FULL, s1. split_and!; [by apply loops_done|simpl; lia|done|by apply same_wrote|].
      split; [done|]. rewrite (Hdir s1) by apply Hs1. by rewrite (same_cdata _ _ Hs1). }
    destruct (IH s1 (fat s c') (cdata s c')) as (k' & st & s2 & Hl & Hkn & Hok2 & Hw2 & Hres);
      [done|by eapply same_chain|by rewrite (cdata_length s m), (sm_mnt _ _ Hs1)|done|done|].
    exists (k' + 1), st, s2. split_and!; [by eapply loops_step|simpl; lia|done|eapply wrote_trans; [by apply (same_wrote _ _ [])|exact Hw2|set_solver|set_solver]|].
    rewrite (same_dirents _ _ _ Hs1) in Hres.
    assert (Hc2 : cdata s2 c' = cdata s c').
    { rewrite (wr_data _ _ _ Hw2), (same_cdata _ _ Hs1); [done|apply in_chain_bounds in Hin; lia|done]. }
    rewrite (Hdir s2), Hc2 by (by rewrite (wr_mnt _ _ _ Hw2), (sm_mnt _ _ Hs1)).
    destruct (first_idx is_free (dirents s l)) as [k|] eqn:Hk2; cbn; destruct Hres as [-> ->]; (split; [done|]); [|done].
    rewrite insert_app_r. done.
Qed.

Lemma write_entry_run s m c l entry :
  fat_ok s m → chain (fat s) c l → length entry = ENTRY → Forall byte entry →
  ∃ st s', Fat32WriteDirectoryEntry c entry s = Ok (st, s') ∧ fat_ok s' m ∧ wrote l s s' ∧
    (st = STATUS_NO_MEMORY ∧ dirents s' l = dirents s l ∨
     match first_idx is_free (dirents s l) with
     | Some k => st = STATUS_SUCCESS ∧ dirents s' l = <[k := entry]> (dirents s l)
     | None => st = STATUS_DISK_FULL ∧ dirents s' l = dirents s l
     end).
Proof.
  intros Hok Hch Hel Heb. pose proof (bpc_pos _ _ Hok) as Hbpc. unfold Fat32WriteDirectoryEntry.
  unfold mbind at 1, M_bind at 1. cbn [mgets].
  destruct (alloc_run s m (bytes_per_cluster (mnt s)) Hok) as (a & s1 & Ha & Hs1 & Hcase); [lia|].
  rewrite (bind_ok _ _ _ _ _ Ha). destruct Hcase as [[-> Hok1]|(Hne & Hm & Hok1)].
  { do 2 eexists. split_and!; [done|done|by apply same_wrote|left]. split; [done|]. by apply same_dirents. }
  replace (a =? 0) with false by lia.
  destruct (slot_loop _ entry l s1 c (zeros (bytes_per_cluster (mnt s))) Hok1) as (n & st & s2 & Hl & Hn & Hok2 & Hw & Hres);
    [by eapply same_chain|by rewrite zeros_length, (sm_mnt _ _ Hs1)|done|done|].
  pose proof (chain_length _ _ _ Hch) as Hlen. erewrite bind_ok; [|eapply loop_ok; [exact Hl|unfold EOC_MIN in *; lia]].
  destruct (free_run' s2 m a Hm Hok2) as (s3 & Hf & Hok3 & Hs3). rewrite (bind_ok _ _ _ _ _ Hf).
  do 2 eexists. split_and!; [done|done| |right].
  - eapply wrote_trans; [by apply (same_wrote _ _ l)| |reflexivity|reflexivity].
    eapply wrote_trans; [exact Hw|by apply (same_wrote _ _ l)|reflexivity|reflexivity].
  - by rewrite (same_dirents _ _ _ Hs3), <- (same_dirents _ _ _ Hs1).
Qed.

(** ** Deleting *)

Lemma free_loop m l : ∀ s c,
  fat_ok s m → chain (fat s) c l → used s l →
  ∃ n s', loops_to free_turn n c s tt s' ∧ n ≤ Z.of_nat (length l) + 1 ∧ fat_ok s' m ∧ fat_kept l s s' ∧
    ∀ x, x ∈ l → fat_mem s' !! Z.to_nat x = Some 0.
Proof.
  induction l as [|c' l IH]; intros s c Hok Hch Hu.
  { inversion Hch as [? Hin|]; subst. exists 1, s. split_and!; [|simpl; lia|done|done|by intros ? ?%not_elem_of_nil].
    apply loops_done. unfold free_turn. by rewrite Hin. }
  pose proof (chain_NoDup _ _ _ Hch) as [Hnl _]%NoDup_cons. inversion Hch as [|? ? Hin Hch']; subst.
  pose proof (proj1 (in_chain_bounds _) Hin) as Hb. destruct (Hu c') as (w & Hw & _); [by left|].
  pose proof (fat_used_lt s m c' w Hok ltac:(lia) Hw) as Hlt.
  destruct (set_run s m c' 0 Hok) as (s1 & Hr & Hok1 & Hset); [lia|unfold FAT_MASK; lia|].
  pose proof (fat_set_kept c' 0 s s1 ltac:(lia) Hset) as Hk1.
  assert (Hno : ∀ x, x ∈ l → x ∉ [c']) by (intros x Hx; rewrite list_elem_of_singleton; by intros ->).
  assert (Hpos : ∀ x, x ∈ l → 0 ≤ x) by (intros x Hx; pose proof (chain_in _ _ _ x Hch' Hx); lia).
  destruct (IH s1 (fat s c') Hok1) as (n & s2 & Hl & Hn & Hok2 & Hk2 & Hz).
  { eapply chain_ext; [|exact Hch']. intros x Hx. eapply kept_fat; [exact Hk1|by apply Hpos|by apply Hno]. }
  { intros x Hx. rewrite (fk_fat _ _ _ Hk1); [apply Hu; by right|by apply Hpos|by apply Hno]. }
  exists (n + 1), s2. split_and!; [|simpl; lia|done|eapply fat_kept_trans; [exact Hk1|exact Hk2|set_solver|set_solver]|].
  - eapply loops_step; [|exact Hl]. unfold free_turn. rewrite Hin.
    rewrite (bind_ok _ _ _ _ _ (get_run s m c' Hok ltac:(lia))). by rewrite (bind_ok _ _ _ _ _ Hr).
  - intros x [->|Hx]%elem_of_cons; [|by apply Hz]. rewrite (fk_fat _ _ _ Hk2); [|lia|done].
    eapply fat_set_lookup; [exact Hok|lia|done].
Qed.

(** Marking a slot as deleted hides nothing that was visible. *)
Lemma live_mark es k d :
  first_idx is_free es = Some k → name0 d = 0xE5 → ∃ more, live (<[k := d]> es) = live es ++ more.
Proof.
  intros Hk Hd. revert k Hk. induction es as [|e es IH]; intros k Hk; [done|]. cbn [first_idx] in Hk.
  destruct (is_free e) eqn:He.
  - injection Hk as <-. cbn [insert list_insert live]. rewrite Hd. cbn [Z.eqb]. unfold is_free in He.
    destruct (name0 e =? 0); [by exists (live es)|]. cbn [orb] in He. rewrite He. exists []. by rewrite app_nil_r.
  - destruct (first_idx is_free es) as [j|] eqn:Hj; [|done]. injection Hk as <-.
    destruct (IH j eq_refl) as [more Hm]. exists more. change (<[S j := d]> (e :: es)) with (e :: <[j := d]> es). cbn [live].
    apply orb_false_iff in He as [-> ->]. by rewrite Hm.
Qed.

Lemma find_entry_more s s' dl name e more :
  find_entry s dl name = Some e → live (dirents s' dl) = live (dirents s dl) ++ more → find_entry s' dl name = Some e.
Proof.
  unfold find_entry. intros He ->. rewrite take_app, filter_app. set (x := filter _ (take 64 _)) in *.
  destruct x; [done|]. exact He.
Qed.

(** A directory in which at most one slot became a deleted mark shows the same
    first entry of every name. *)
Lemma find_entry_marked s s' dl name e d :
  find_entry s dl name = Some e → name0 d = 0xE5 →
  dirents s' dl = dirents s dl ∨
    (∃ k, first_idx is_free (dirents s dl) = Some k ∧ dirents s' dl = <[k := d]> (dirents s dl)) →
  find_entry s' dl name = Some e.
Proof.
  intros He Hd [Hd2|(k & Hk & Hd2)].
  - eapply (find_entry_more s s' _ _ _ []); [done|by rewrite Hd2, app_nil_r].
  - destruct (live_mark _ _ d Hk Hd) as [more Hmore]. eapply find_entry_more; [done|]. by rewrite Hd2, Hmore.
Qed.

(** Deleting a file whose lookup succeeds frees every cluster of its chain,
    in the cached table and on the disk, and touches no other chain and no file
    data.  The marked entry goes to the first free slot of the directory, so the
    name of the file is still found, with the clusters it no longer owns. *)
Theorem fat32_delete_frees s s0 m name dl l e :
  fat_ok s m → chain (fat s) (root_cluster (mnt s)) dl →
  Fat32FindEntry (root_cluster (mnt s)) name s = Ok ((STATUS_SUCCESS, Some e), s0) →
  chain (fat s) (first_cluster e) l → l ≠ [] → used s (dl ++ l) → (∀ c, c ∈ dl → c ∉ l) →
  ∃ st s', Fat32DeleteFile name s = Ok (st, s') ∧ fat_ok s' m ∧
    (∀ c, c ∈ l → c ∈ frees s') ∧
    (∀ c, 0 ≤ c → c ∉ l → fat_mem s' !! Z.to_nat c = fat_mem s !! Z.to_nat c) ∧
    (∀ c, 2 ≤ c → c ∉ dl → cdata s' c = cdata s c) ∧
    (st = STATUS_SUCCESS ∨ st = STATUS_DISK_FULL ∨ st = STATUS_NO_MEMORY) ∧
    find_entry s' dl name = Some e.
Proof.
  intros Hok Hdl Hfind Hch Hne Hused Hdisj.
  destruct (find_entry_run s m _ dl name Hok Hdl) as (r0 & s0' & Hr0 & Hok0 & Hs0 & Hcase).
  rewrite Hfind in Hr0. injection Hr0 as <- <-. destruct Hcase as [?|Hfe]; [done|]. injection Hfe as _ Hfe.
  assert (2 ≤ first_cluster e) as Hfc.
  { inversion Hch as [|? ? Hin]; subst; [done|]. apply in_chain_bounds in Hin. lia. }
  destruct (free_loop m l s0 (first_cluster e) Hok0) as (n & s1 & Hl & Hn & Hok1 & Hk & Hz); [by eapply same_chain| |].
  { intros c Hc. rewrite (sm_fat _ _ Hs0). apply Hused, elem_of_app. by right. }
  pose proof (chain_length _ _ _ Hch) as Hlen. unfold EOC_MIN in Hlen.
  assert (Hm1 : mnt s1 = mnt s) by (by rewrite (fk_mnt _ _ _ Hk), (sm_mnt _ _ Hs0)).
  destruct (find_entry_wf s m dl name e Hok) as [Heb Hel]; [done|].
  destruct (write_entry_run s1 m (root_cluster (mnt s)) dl (splice 0 [0xE5] e) Hok1) as (st & s2 & Hw & Hok2 & Hwr & Hres).
  { eapply chain_ext; [|exact Hdl]. intros x Hx. pose proof (chain_in _ _ _ x Hdl Hx).
    rewrite (kept_fat _ _ _ _ Hk), (same_fat _ _ Hs0); [done|lia|by apply Hdisj]. }
  { rewrite splice_length; [done|]. rewrite Hel. cbn. unfold ENTRY. lia. }
  { apply splice_Forall; [|done]. repeat constructor. unfold byte. lia. }
  assert (Hcd : ∀ c, 2 ≤ c → cdata s1 c = cdata s c).
  { intros c Hc. by rewrite (kept_cdata _ _ _ _ _ Hok0 Hk), (same_cdata _ _ Hs0) by done. }
  assert (Hdir : dirents s1 dl = dirents s dl).
  { apply dirents_ext; [done|]. intros c Hc. apply Hcd. pose proof (chain_in _ _ _ c Hdl Hc). lia. }
  exists st, s2. split.
  { unfold Fat32DeleteFile. unfold mbind at 1, M_bind at 1. cbn [mgets]. rewrite (fo_valid _ _ Hok). cbn [negb].
    rewrite (bind_ok _ _ _ _ _ Hfind). cbv match. replace (2 <=? first_cluster e) with true by lia. rewrite mwhen_true.
    erewrite bind_ok; [exact Hw|eapply loop_ok; [exact Hl|lia]]. }
  rewrite Hdir in Hres. split_and!; [done| | | | |].
  - intros c Hc. apply frees_elem. pose proof (chain_in _ _ _ c Hch Hc). split; [lia|]. rewrite (wr_fat _ _ _ Hwr). by apply Hz.
  - intros c Hc Hnl. rewrite (wr_fat _ _ _ Hwr), (fk_fat _ _ _ Hk) by done. by rewrite (sm_fat _ _ Hs0).
  - intros c Hc Hnd. by rewrite (wr_data _ _ _ Hwr), Hcd.
  - destruct Hres as [[-> _]|Hres]; [by do 2 right|]. destruct (first_idx is_free (dirents s dl)); destruct Hres as [-> _]; eauto.
  - eapply (find_entry_marked s s2 _ _ _ (splice 0 [0xE5] e)); [done|done|].
    destruct (first_idx is_free (dirents s dl)) as [k|]; naive_solver.
Qed.

(** ** Mounting *)

Lemma sectors_app sec lba a b :
  sectors sec lba (a + b) = sectors sec lba a ++ sectors sec (lba + Z.of_nat a) b.
Proof.
  revert lba. induction a as [|a IH]; intros lba; cbn [Nat.add sectors].
  - by rewrite Z.add_0_r.
  - rewrite IH, <- app_assoc. do 3 f_equal. lia.
Qed.

Lemma words_length bs : length (words bs) = (length bs / 4)%nat.
Proof. unfold words. by rewrite length_fmap, length_seq. Qed.

Lemma words_app a b k : length a = (4 * k)%nat → words (a ++ b) = words a ++ words b.
Proof.
  intros Hk. unfold words. rewrite length_app, Hk.
  replace ((4 * k + length b) / 4)%nat with (k + length b / 4)%nat by (rewrite Nat.mul_comm, Nat.div_add_l; lia).
  replace (4 * k / 4)%nat with k by (rewrite Nat.mul_comm, Nat.div_mul; lia).
  rewrite seq_app, fmap_app. f_equal.
  - apply list_fmap_ext. intros i x Hx. apply lookup_seq in Hx as [-> Hi]. unfold field, sub. f_equal.
    rewrite drop_app_le, take_app_le by (rewrite ?length_drop; lia). done.
  - replace (0 + k)%nat with (k + 0)%nat by lia. rewrite <- fmap_add_seq, <- list_fmap_compose.
    apply list_fmap_ext. intros i x _. cbn [compose]. unfold field, sub. do 2 f_equal.
    rewrite Nat.mul_add_distr_l, <- Hk, <- drop_drop, drop_app_length. done.
Qed.

(** The table as it is on the disk, as words. *)
Definition table (sec : Z → list Z) (start n : Z) : list Z := words (sectors sec start (Z.to_nat n)).

Lemma table_length sec start n :
  (∀ l, length (sec l) = SECTOR) → 0 ≤ n → length (table sec start n) = (128 * Z.to_nat n)%nat.
Proof.
  intros Hs Hn. unfold table. rewrite words_length, sectors_length by done. unfold SECTOR.
  replace (512 * Z.to_nat n)%nat with (128 * Z.to_nat n * 4)%nat by lia. apply Nat.div_mul. lia.
Qed.

Lemma table_app sec start a b :
  (∀ l, length (sec l) = SECTOR) → 0 ≤ a → 0 ≤ b →
  table sec start (a + b) = table sec start a ++ table sec (start + a) b.
Proof.
  intros Hs Ha Hb. unfold table. rewrite Z2Nat.inj_add, sectors_app by lia.
  rewrite (words_app _ _ (128 * Z.to_nat a)) by (rewrite sectors_length by done; unfold SECTOR; lia).
  by rewrite Z2Nat.id by lia.
Qed.

Lemma splice_next (a b rest : list Z) :
  (length b ≤ length rest)%nat → splice (length a) b (a ++ rest) = (a ++ b) ++ drop (length b) rest.
Proof.
  intros Hl. unfold splice. rewrite take_app_length, <- app_assoc. do 2 f_equal.
  rewrite <- drop_drop, drop_app_length. done.
Qed.

(** The state while the table is read: [o] sectors are in the cache. *)
Record loading (sec : Z → list Z) (g : FAT32_MOUNT) (m : gmap Z Z) (o : Z) s : Prop := {
  ld_mnt : mnt s = g;
  ld_mem : fat_mem s = table sec (fat_start g) o ++ zeros (fat_entries g - 128 * o);
  ld_dev : dev_up (dev s);
  ld_sec l : sector (dev s) l = sec l;
  ld_pool : pool_rep (fs_pool s) m;
  ld_pcr : can_lock (pcr (fs_pool s))
}.

Definition chunk_at (g : FAT32_MOUNT) (o : Z) : Z := Z.min 64 (fat_total_sectors g - o).

Lemma fat_turn_run sec g m o s :
  loading sec g m o s → (∀ l, length (sec l) = SECTOR) →
  0 ≤ o < fat_total_sectors g → 128 * o ≤ fat_entries g < EOC_MIN →
  0 ≤ fat_start g → fat_start g + fat_total_sectors g < 18446744073709551616 →
  if 128 * (o + chunk_at g o) <=? fat_entries g
  then ∃ s', fat_turn o s = Ok (inl (o + chunk_at g o), s') ∧ loading sec g m (o + chunk_at g o) s'
  else fat_turn o s = Undef.
Proof.
  intros [Hm Hmem Hup Hsec Hp Hpcr] Hs Ho He Hst Hend. set (ch := chunk_at g o).
  assert (0 < ch ≤ 64) as Hch by (unfold ch, chunk_at; lia). unfold EOC_MIN in He.
  destruct (ahci_read_law (dev s) (fat_start g + o) ch Hup) as (d & Hr & Hup' & He'); [lia|].
  assert (Hrd : Fat32ReadSectors (u64 (fat_start g + o)) ch s =
    Ok ((STATUS_SUCCESS, sectors sec (fat_start g + o) (Z.to_nat ch)), set_dev d s)).
  { unfold Fat32ReadSectors. replace (ch =? 0) with false by lia. rewrite u64_small by (unfold ch, chunk_at in *; lia).
    rewrite (sectors_ext _ sec) in Hr by (intros; apply Hsec). by apply zoom_ok. }
  assert (Hstep : fat_turn o s =
    match store_at (Z.to_nat (128 * o)) (table sec (fat_start g + o) ch) (fat_mem s) with
    | None => Undef
    | Some mem' => Ok (inl (o + ch), set_fat_mem mem' (set_dev d s))
    end).
  { unfold fat_turn. unfold mbind at 1, M_bind at 1. cbn [mgets]. rewrite Hm.
    replace (o <? fat_total_sectors g) with true by lia. fold (chunk_at g o). fold ch.
    rewrite (bind_ok _ _ _ _ _ Hrd). unfold mbind at 1, M_bind at 1. cbn [mgets fst snd].
    change (fat_mem (set_dev d s)) with (fat_mem s). fold (table sec (fat_start g + o) ch).
    rewrite u32_small by lia. replace (o * 512 / 4) with (128 * o) by (Z.div_mod_to_equations; lia).
    by destruct (store_at _ _ _). }
  pose proof (table_length sec (fat_start g) o Hs ltac:(lia)) as Hl1.
  pose proof (table_length sec (fat_start g + o) ch Hs ltac:(lia)) as Hl2.
  destruct (Z.leb_spec (128 * (o + ch)) (fat_entries g)) as [Hfit|Hover].
  - rewrite Hmem, store_at_fits in Hstep by (rewrite length_app, Hl1, Hl2, zeros_length; lia).
    eexists. split; [exact Hstep|]. split; cbn [mnt fat_mem dev fs_pool set_fat_mem set_dev]; try done.
    + replace (Z.to_nat (128 * o)) with (length (table sec (fat_start g) o)) by lia.
      rewrite splice_next by (rewrite Hl2, zeros_length; lia). rewrite <- table_app by (done || lia). f_equal.
      unfold zeros. rewrite drop_replicate, Hl2. f_equal. lia.
    + intros l. by rewrite He'.
  - by rewrite Hmem, store_at_over in Hstep by (rewrite length_app, Hl1, Hl2, zeros_length; lia).
Qed.

(** The loop reads the whole table when it fits the cache, and runs over the end
    of the cache otherwise. *)
Lemma fat_load sec g m : (∀ l, length (sec l) = SECTOR) → fat_entries g < EOC_MIN →
  0 ≤ fat_start g → fat_start g + fat_total_sectors g < 18446744073709551616 → fat_total_sectors g < 4294967296 →
  ∀ k o s, fat_total_sectors g - o ≤ Z.of_nat k → 0 ≤ o ≤ fat_total_sectors g → 128 * o ≤ fat_entries g →
  loading sec g m o s →
  if 128 * fat_total_sectors g <=? fat_entries g
  then ∃ n s', loops_to fat_turn n o s STATUS_SUCCESS s' ∧ n ≤ Z.of_nat k + 1 ∧ loading sec g m (fat_total_sectors g) s'
  else ∃ n, loops_undef fat_turn n o s ∧ n ≤ Z.of_nat k + 1.
Proof.
  intros Hs He Hst Hend Htot. induction k as [|k IH]; intros o s Hk Ho Hoe Hld.
  - assert (o = fat_total_sectors g) as -> by lia. replace (128 * fat_total_sectors g <=? fat_entries g) with true by lia.
    exists 1, s. split_and!; [|lia|done]. apply loops_done. unfold fat_turn. unfold mbind at 1, M_bind at 1. cbn [mgets].
    rewrite (ld_mnt _ _ _ _ _ Hld). by rewrite Z.ltb_irrefl.
  - destruct (decide (o = fat_total_sectors g)) as [->|Hne].
    { replace (128 * fat_total_sectors g <=? fat_entries g) with true by lia.
      exists 1, s. split_and!; [|lia|done]. apply loops_done. unfold fat_turn. unfold mbind at 1, M_bind at 1. cbn [mgets].
      rewrite (ld_mnt _ _ _ _ _ Hld). by rewrite Z.ltb_irrefl. }
    pose proof (fat_turn_run sec g m o s Hld Hs ltac:(lia) ltac:(lia) Hst Hend) as Hturn.
    assert (0 < chunk_at g o ≤ fat_total_sectors g - o) as Hch by (unfold chunk_at; lia).
    destruct (Z.leb_spec (128 * (o + chunk_at g o)) (fat_entries g)) as [Hfit|Hover].
    + destruct Hturn as (s1 & Hr & Hld1). specialize (IH (o + chunk_at g o) s1 ltac:(lia) ltac:(lia) Hfit Hld1).
      case_if.
      * destruct IH as (n & s2 & Hl & Hn & Hld2). exists (n + 1), s2. split_and!; [by eapply loops_step|lia|done].
      * destruct IH as (n & Hl & Hn). exists (n + 1). split; [by eapply undef_step|lia].
    + replace (128 * fat_total_sectors g <=? fat_entries g) with false by lia.
      exists 1. split; [by apply undef_here|lia].
Qed.

Lemma table_lookup sec start n c w :
  (∀ l, length (sec l) = SECTOR) → 0 ≤ n → table sec start n !! c = Some w →
  field (4 * (c mod 128)) 4 (sec (start + Z.of_nat (c / 128))) = w.
Proof.
  intros Hs Hn Hc. pose proof (lookup_lt_Some _ _ _ Hc) as Hlt. rewrite table_length in Hlt by done.
  unfold table, words in Hc. rewrite list_lookup_fmap in Hc. destruct (seq _ _ !! c) as [x|] eqn:Hx; [|done].
  apply lookup_seq in Hx as [-> _]. injection Hc as <-. unfold field. f_equal.
  pose proof (Nat.div_mod_eq c 128) as Hdm. pose proof (Nat.mod_upper_bound c 128 ltac:(lia)) as Hmu.
  set (q := (c / 128)%nat) in *. set (r := (c mod 128)%nat) in *.
  replace (Z.to_nat n) with (q + S (Z.to_nat n - q - 1))%nat by lia.
  rewrite sectors_app. cbn [sectors]. unfold sub.
  replace (c + (c + (c + (c + 0))))%nat with (length (sectors sec start q) + 4 * r)%nat by (rewrite sectors_length by done; unfold SECTOR; lia).
  rewrite <- (drop_drop _ (4 * r) (length (sectors sec start q))), drop_app_length, drop_app_le, take_app_le; [done|rewrite length_drop, Hs|rewrite Hs]; unfold SECTOR; lia.
Qed.

Lemma bpb_bounds (d : D) lba :
  dev_up d → let bpb := sector d lba in
  0 ≤ BytesPerSector bpb < 65536 ∧ 0 ≤ SectorsPerCluster bpb < 256 ∧ 0 ≤ ReservedSectors bpb < 65536.
Proof.
  intros Hup bpb. pose proof (sector_len d lba Hup) as Hl. pose proof (sector_byte d lba Hup) as Hb.
  assert (Hf : ∀ o n, (o + n ≤ 512)%nat → 0 ≤ field o n bpb < 256 ^ Z.of_nat n).
  { intros o n Hon. apply field_bound; [done|]. unfold bpb. rewrite Hl. done. }
  split_and!; apply Hf; lia.
Qed.

(** What the mount record describes when the table exactly fills the cache. *)
Lemma mounted_ok s m lba cache s1 :
  dev_up (dev s) → 0 ≤ lba < 4294967296 → cache ≠ 0 →
  let bpb := sector (dev s) lba in
  let g := with_fat cache (read_bpb lba bpb (mnt s)) in
  BytesPerSector bpb = 512 → SectorsPerCluster bpb ≠ 0 → 2 ≤ fat_entries g < EOC_MIN →
  fat_entries g = 128 * fat_total_sectors g →
  loading (sector (dev s)) g m (fat_total_sectors g) s1 → fat_ok (set_mnt (mounted (mnt s1)) s1) m.
Proof.
  intros Hup Hlba Hcache bpb g Hbps Hspc He Heq [Hm Hmem Hup1 Hsec Hp Hpcr].
  destruct (bpb_bounds (dev s) lba Hup) as (_ & Hs & Hr). fold bpb in Hs, Hr.
  assert (Hlen := sector_len (dev s)). unfold EOC_MIN in He.
  assert (Hfs : fat_start g = lba + ReservedSectors bpb) by (cbn; apply u64_small; lia).
  assert (Hds : data_start g = fat_start g + fat_total_sectors g).
  { change (data_start g) with (u64 (fat_start g + fat_total_sectors g)). apply u64_small. lia. }
  rewrite Heq, Z.sub_diag in Hmem. change (zeros 0) with (@nil Z) in Hmem. rewrite app_nil_r in Hmem.
  rewrite Hm. split; cbn [set_mnt mounted mnt fat_mem dev fs_pool valid bytes_per_sector sectors_per_cluster
    bytes_per_cluster fat_cache fat_entries fat_start data_start]; try done.
  - cbn. lia.
  - cbn. fold bpb. rewrite Hbps. lia.
  - rewrite Hmem, table_length by (try intros; try apply Hlen; try done; lia). lia.
  - lia.
  - rewrite Hds. rewrite Heq at 1. rewrite Z.mul_comm, Z.div_add_l by lia. lia.
  - rewrite Hds. lia.
  - intros c w Hc. rewrite Hsec. rewrite Hmem in Hc. eapply table_lookup; [intros; by apply Hlen| |exact Hc]. lia.
Qed.

(** The old cache is given back. *)
Lemma free_old_run s m :
  pool_rep (fs_pool s) m → can_lock (pcr (fs_pool s)) →
  (fat_cache (mnt s) = 0 ∨ m !! fat_cache (mnt s) = Some 0) →
  ∃ p, mwhen (truthy (fat_cache (mnt s))) (ExFreePool (fat_cache (mnt s))) s = Ok (tt, set_fs_pool p s) ∧
    pool_rep p (delete (fat_cache (mnt s)) m) ∧ pcr p = pcr (fs_pool s).
Proof.
  intros Hp Hc Hold. unfold truthy. destruct (Z.eqb_spec (fat_cache (mnt s)) 0) as [Hz|Hnz]; cbn [negb].
  - exists (fs_pool s). split_and!; [by destruct s|rewrite delete_id; [done|]|done].
    rewrite Hz. destruct (m !! 0) as [t|] eqn:H0'; [|done]. pose proof (pool_rep_pos _ _ _ _ Hp H0'). lia.
  - destruct Hold as [?|Hold]; [done|].
    destruct (pool_free_law (fs_pool s) m _ 0 0 Hp Hc Hold) as (p & Hr & Hpcr & Hp'); [by left|].
    exists p. split_and!; [by apply zoom_ok|done|done].
Qed.

Definition no_marks (bpb : list Z) : bool :=
  truthy (RootEntryCount bpb) || truthy (SectorsPerFAT16 bpb) || (BytesPerSector bpb =? 0).

Lemma read_boot_run s lba :
  dev_up (dev s) →
  ∃ d, Fat32ReadSectors lba 1 s = Ok ((STATUS_SUCCESS, sector (dev s) lba), set_dev d s) ∧ dev_up d ∧
    ∀ l, sector d l = sector (dev s) l.
Proof.
  intros Hup. destruct (ahci_read_law (dev s) lba 1 Hup) as (d & Hr & Hup1 & Hsec); [lia|]. exists d. split; [|done].
  unfold Fat32ReadSectors, on_dev. cbn [Z.eqb]. erewrite zoom_ok; [|exact Hr]. change (Z.to_nat 1) with 1%nat.
  cbn [sectors]. by rewrite app_nil_r.
Qed.

(** The call up to the loop that reads the table. *)
Lemma mount_unfold s lba bpb d p1 p2 cache :
  let g := read_bpb lba bpb (mnt s) in
  let s1 := set_mnt g (set_dev d s) in
  let s3 := set_mnt (with_fat cache g) (set_fat_mem (zeros (fat_entries g)) (set_fs_pool p2 (set_fs_pool p1 s1))) in
  Fat32ReadSectors lba 1 s = Ok ((STATUS_SUCCESS, bpb), set_dev d s) →
  no_marks bpb = false → SectorsPerCluster bpb ≠ 0 →
  mwhen (truthy (fat_cache (mnt s1))) (ExFreePool (fat_cache (mnt s1))) s1 = Ok (tt, set_fs_pool p1 s1) →
  pool_alloc 0 (fat_entries g * 4) 0 p1 = Ok (cache, p2) →
  Fat32MountPartition lba s =
    if cache =? 0 then Ok (STATUS_NO_MEMORY, s3)
    else (st ← loop fat_turn 0;
          if negb (NT_SUCCESS st) then mret st
          else mmod (λ s, set_mnt (mounted (mnt s)) s);; mret STATUS_SUCCESS) s3.
Proof.
  intros g s1 s3 Hrd Hmarks Hspc Hfree Hal. unfold no_marks in Hmarks.
  unfold Fat32MountPartition. rewrite (bind_ok _ _ _ _ _ Hrd). cbn [fst snd].
  replace (NT_SUCCESS STATUS_SUCCESS) with true by done. cbn [negb]. cbv match. rewrite Hmarks.
  replace (SectorsPerCluster bpb =? 0) with false by lia. unfold mbind at 1, M_bind at 1. cbn [mmod]. fold g. fold s1.
  unfold mbind at 1, M_bind at 1. cbn [mgets]. rewrite (bind_ok _ _ _ _ _ Hfree).
  unfold mbind at 1, M_bind at 1. cbn [mgets]. erewrite bind_ok; [|by apply zoom_ok].
  unfold mbind at 1, M_bind at 1. cbn [mmod]. fold s3. by destruct (cache =? 0).
Qed.

(** A mount past the checks of the boot sector. *)
Lemma mount_run s m lba :
  dev_up (dev s) → pool_rep (fs_pool s) m → can_lock (pcr (fs_pool s)) →
  (fat_cache (mnt s) = 0 ∨ m !! fat_cache (mnt s) = Some 0) → 0 ≤ lba < 4294967296 →
  let bpb := sector (dev s) lba in
  let g := read_bpb lba bpb (mnt s) in
  let m1 := delete (fat_cache (mnt s)) m in
  SectorsPerCluster bpb ≠ 0 → 2 ≤ fat_entries g < EOC_MIN → no_marks bpb = false →
  (∃ s', Fat32MountPartition lba s = Ok (STATUS_NO_MEMORY, s') ∧ fat_cache (mnt s') = 0 ∧ pool_rep (fs_pool s') m1 ∧
     can_lock (pcr (fs_pool s')) ∧ dev_up (dev s') ∧ (∀ l, sector (dev s') l = sector (dev s) l) ∧
     ∃ p p' : P, pool_rep p m1 ∧ pool_alloc 0 (fat_entries g * 4) 0 p = Ok (0, p')) ∨
  if 128 * fat_total_sectors g <=? fat_entries g then
    ∃ cache s', Fat32MountPartition lba s = Ok (STATUS_SUCCESS, set_mnt (mounted (mnt s')) s') ∧ cache ≠ 0 ∧ m1 !! cache = None ∧
      loading (sector (dev s)) (with_fat cache g) (<[cache := 0]> m1) (fat_total_sectors g) s'
  else Fat32MountPartition lba s = Undef.
Proof.
  intros Hup Hp Hc Hold Hlba bpb g m1 Hspc He Hmarks. destruct (bpb_bounds (dev s) lba Hup) as (_ & _ & Hrs). fold bpb in Hrs.
  destruct (read_boot_run s lba Hup) as (d & Hrd & Hup1 & Hsec). fold bpb in Hrd.
  set (s1 := set_mnt g (set_dev d s)).
  destruct (free_old_run s1 m Hp Hc Hold) as (p1 & Hfree & Hp1 & Hpcr1).
  destruct (pool_alloc_law p1 m1 0 (fat_entries g * 4) 0 Hp1) as (cache & p2 & Hal & Hpcr2 & Hcase);
    [by rewrite Hpcr1|unfold EOC_MIN in He; lia|].
  pose proof (mount_unfold s lba bpb d p1 p2 cache Hrd Hmarks Hspc Hfree Hal) as Hrun. cbn zeta in Hrun. fold g s1 in Hrun.
  set (s3 := set_mnt (with_fat cache g) _) in Hrun.
  assert (can_lock (pcr (fs_pool s3))) as Hc3 by (cbn; by rewrite Hpcr2, Hpcr1).
  rewrite Hrun. destruct (Z.eqb_spec cache 0) as [->|Hnz].
  { left. exists s3. destruct Hcase as [[_ Hp2]|(? & _)]; [|lia]. split_and!; try done. by exists p1, p2. }
  right.
  destruct Hcase as [[? _]|(_ & Hfr & Hp2)]; [done|].
  assert (Hld : loading (sector (dev s)) (with_fat cache g) (<[cache := 0]> m1) 0 s3).
  { split; try done; cbn; by rewrite Z.sub_0_r. }
  assert (Hft : 0 ≤ fat_total_sectors g < 4294967296) by (apply Z.mod_pos_bound; lia).
  assert (Hfs : fat_start g = lba + ReservedSectors bpb) by (apply u64_small; lia).
  pose proof (fat_load (sector (dev s)) (with_fat cache g) (<[cache := 0]> m1) (λ l, sector_len _ l Hup) (proj2 He)
    ltac:(cbn [with_fat fat_start]; lia) ltac:(cbn [with_fat fat_start fat_total_sectors]; lia) ltac:(cbn [with_fat fat_total_sectors]; lia)
    (Z.to_nat (fat_total_sectors g)) 0 s3 ltac:(cbn [with_fat fat_total_sectors]; lia) ltac:(cbn [with_fat fat_total_sectors]; lia)
    ltac:(cbn [with_fat fat_entries]; lia) Hld) as Hload.
  change (fat_total_sectors (with_fat cache g)) with (fat_total_sectors g) in Hload.
  change (fat_entries (with_fat cache g)) with (fat_entries g) in Hload. case_if.
  - destruct Hload as (n & s4 & Hl & Hn & Hld4). exists cache, s4.
    split; [by erewrite bind_ok; [|eapply loop_ok; [exact Hl|lia]]|done].
  - destruct Hload as (n & Hl & Hn). apply bind_undef. eapply loop_undef; [exact Hl|lia].
Qed.

Lemma mount_refused s lba :
  dev_up (dev s) → no_marks (sector (dev s) lba) = true →
  ∃ d, Fat32MountPartition lba s = Ok (STATUS_INVALID_IMAGE_FORMAT, set_dev d s) ∧ dev_up d ∧ ∀ l, sector d l = sector (dev s) l.
Proof.
  intros Hup Hmarks. destruct (read_boot_run s lba Hup) as (d & Hrd & Hup1 & Hsec).
  exists d. split; [|done]. unfold Fat32MountPartition. rewrite (bind_ok _ _ _ _ _ Hrd). cbn [fst snd].
  replace (NT_SUCCESS STATUS_SUCCESS) with true by done. cbn [negb]. cbv match. unfold no_marks in Hmarks. by rewrite Hmarks.
Qed.

(** [C34] Mounting a volume whose boot sector has the marks of FAT32: the cache is
    allocated or the call fails; a table that fits the cache is read into it
    from the first copy on, and when it fills it exactly the mount satisfies
    everything the file operations rely on; a larger table is written past the
    end of the cache.  Any other boot sector is refused without effect.  This is for
    a volume that starts below sector 2^32, has at least one sector per cluster and
    between 2 and 0x0FFFFFF7 clusters, on a device whose transfers succeed. *)
Theorem Fat32MountPartition_spec s m lba :
  dev_up (dev s) → pool_rep (fs_pool s) m → can_lock (pcr (fs_pool s)) →
  (fat_cache (mnt s) = 0 ∨ m !! fat_cache (mnt s) = Some 0) → 0 ≤ lba < 4294967296 →
  let bpb := sector (dev s) lba in
  let g := read_bpb lba bpb (mnt s) in
  let m1 := delete (fat_cache (mnt s)) m in
  SectorsPerCluster bpb ≠ 0 → 2 ≤ fat_entries g < EOC_MIN →
  if no_marks bpb then
    ∃ s', Fat32MountPartition lba s = Ok (STATUS_INVALID_IMAGE_FORMAT, s') ∧ same s s'
  else
    (∃ s', Fat32MountPartition lba s = Ok (STATUS_NO_MEMORY, s') ∧ fat_cache (mnt s') = 0 ∧ pool_rep (fs_pool s') m1) ∨
    if 128 * fat_total_sectors g <=? fat_entries g then
      ∃ cache s', Fat32MountPartition lba s = Ok (STATUS_SUCCESS, s') ∧ mnt s' = mounted (with_fat cache g) ∧
        fat_mem s' = table (sector (dev s)) (fat_start g) (fat_total_sectors g)
                     ++ zeros (fat_entries g - 128 * fat_total_sectors g) ∧
        (BytesPerSector bpb = 512 → fat_entries g = 128 * fat_total_sectors g → fat_ok s' (<[cache := 0]> m1))
    else Fat32MountPartition lba s = Undef.
Proof.
  intros Hup Hp Hc Hold Hlba bpb g m1 Hspc He. destruct (no_marks bpb) eqn:Hmarks.
  { destruct (mount_refused s lba Hup Hmarks) as (d & Hr & ? & ?). by exists (set_dev d s). }
  destruct (mount_run s m lba Hup Hp Hc Hold Hlba Hspc He Hmarks) as [(s' & Hr & Hz & Hp' & _)|Hrun]; [left; by exists s'|right].
  fold bpb g m1 in Hrun. case_if; [|done]. destruct Hrun as (cache & s4 & Hr & Hnz & _ & Hld).
  exists cache, (set_mnt (mounted (mnt s4)) s4). split; [done|].
  split; [cbn; by rewrite (ld_mnt _ _ _ _ _ Hld)|]. split; [exact (ld_mem _ _ _ _ _ Hld)|].
  intros Hbps Heq. by eapply (mounted_ok s _ lba cache s4).
Qed.

End Fat32.

(** A table that describes every cluster has two entries more than there are
    clusters: no such volume can be mounted. *)
Lemma complete_table_overruns g :
  0 ≤ fat_entries g → 1 ≤ num_fats g → fat_total_sectors g = num_fats g * sectors_per_fat g → fat_entries g + 2 ≤ 128 * sectors_per_fat g →
  (128 * fat_total_sectors g <=? fat_entries g) = false.
Proof. intros H0 H1 H2 H3. apply Z.leb_gt. nia. Qed.

(** ** Names *)

Lemma copy_part_length dot n name : (length (copy_part dot n name).1 ≤ n)%nat.
Proof.
  revert name. induction n as [|n IH]; intros [|c name]; cbn; try lia.
  destruct ((c =? 0) || (dot && (c =? 46))); cbn; [lia|]. specialize (IH name).
  destruct (copy_part dot n name); cbn in *. lia.
Qed.

(** The name a lookup compares with is the name a new file is given exactly when
    both of its parts fill their fields, eight and three characters. *)
Lemma short_name_agrees name :
  let '(base, rest) := copy_part true 8 name in
  let '(ext, _) := copy_part false 3 (skip_dot rest) in
  short_name 0 name = short_name 32 name ↔ length base = 8%nat ∧ length ext = 3%nat.
Proof.
  pose proof (copy_part_length true 8 name) as Hb. unfold short_name.
  destruct (copy_part true 8 name) as [base rest]. cbn in Hb.
  pose proof (copy_part_length false 3 (skip_dot rest)) as He.
  destruct (copy_part false 3 (skip_dot rest)) as [ext r]. cbn in He. split.
  - intros Heq. apply (inj (app base)) in Heq.
    apply app_inj_1 in Heq as [Hp Heq]; [|by rewrite !length_replicate].
    apply (inj (app ext)) in Heq. split.
    + destruct (8 - length base)%nat eqn:H8; [lia|done].
    + destruct (3 - length ext)%nat eqn:H3; [lia|done].
  - intros [-> ->]. done.
Qed.

(** ** A small volume

    One reserved area of ten sectors, one table of one sector, 128 one-sector
    clusters; REGISTRY.DAT has 600 bytes in clusters 3 and 4. *)

Definition demo_boot : list Z :=
  splice 11 (le_bytes 2 512 ++ [1] ++ le_bytes 2 10 ++ [1]) (splice 32 (le_bytes 4 139 ++ le_bytes 4 1)
    (splice 44 (le_bytes 4 2) (replicate 512 0))).
Definition demo_table : list Z :=
  splice 0 (le_bytes 4 EOC_MIN ++ le_bytes 4 EOC ++ le_bytes 4 EOC ++ le_bytes 4 4 ++ le_bytes 4 EOC) (replicate 512 0).
Definition demo_name : list Z := [114; 101; 103; 105; 115; 116; 114; 121; 46; 100; 97; 116].
Definition demo_entry : list Z :=
  short_name 0 demo_name ++ [32] ++ replicate 14 0 ++ le_bytes 2 3 ++ le_bytes 4 600.
Definition demo_root : list Z := splice 0 demo_entry (replicate 512 0).
Definition demo_disk : RAMDISK :=
  mkDisk (λ l, if l =? 0 then demo_boot else if l =? 10 then demo_table else if l =? 11 then demo_root
               else if l =? 12 then replicate 512 1 else if l =? 13 then replicate 512 2 else replicate 512 0).
Definition unmounted : FAT32_MOUNT := mkMount 0 0 0 0 0 0 0 0 0 0 0 false 0 0 0.
Definition demo_start : FS POOL_STATE RAMDISK := mkFs unmounted [] demo_pool demo_disk.
Definition demo_fs : FS POOL_STATE RAMDISK :=
  mkFs (mounted (with_fat 1 (read_bpb 0 demo_boot unmounted))) (table (platter demo_disk) 10 1) demo_pool demo_disk.

Definition byteb (b : Z) : bool := (0 <=? b) && (b <? 256).

Lemma demo_disk_up : dev_up demo_disk.
Proof.
  assert (Hs : ∀ bs, length bs = SECTOR → forallb byteb bs = true → length bs = SECTOR ∧ Forall byte bs).
  { intros bs Hl Hb. split; [done|]. rewrite forallb_forall in Hb. apply Forall_forall. intros x Hx.
    apply list_elem_of_In, Hb in Hx. unfold byteb in Hx. unfold byte. lia. }
  intros l. cbn [demo_disk platter]. repeat case_if; (apply Hs; [vm_compute; reflexivity|vm_compute; reflexivity]).
Qed.

Lemma demo_fs_ok : fat_ok demo_fs ∅.
Proof.
  assert (Hm : mnt demo_fs = mkMount 0 512 1 512 10 1 1 2 10 11 1 true 1 128 0) by (vm_compute; reflexivity).
  split; rewrite ?Hm; cbn [valid bytes_per_sector sectors_per_cluster bytes_per_cluster fat_cache fat_entries
    fat_start data_start]; try done; try lia.
  - intros c w Hc. eapply (table_lookup _ 10 1); [|lia|exact Hc]. intros l. apply (sector_len _ _ demo_disk_up).
  - exact demo_disk_up.
  - exact demo_pool_rep.
Qed.

Lemma demo_dir_chain : chain (fat demo_fs) (root_cluster (mnt demo_fs)) [2].
Proof.
  change (root_cluster (mnt demo_fs)) with 2. constructor; [done|]. apply chain_nil.
  assert (fat demo_fs 2 = EOC) as -> by (vm_compute; reflexivity). done.
Qed.

Lemma demo_file_chain : chain (fat demo_fs) 3 [3; 4].
Proof.
  constructor; [done|]. assert (fat demo_fs 3 = 4) as -> by (vm_compute; reflexivity).
  constructor; [done|]. apply chain_nil. assert (fat demo_fs 4 = EOC) as -> by (vm_compute; reflexivity). done.
Qed.

Lemma demo_find : find_entry demo_fs [2] demo_name = Some demo_entry.
Proof. vm_compute. reflexivity. Qed.

Lemma Fat32ReadFile_spec_witness :
  ∃ r s', Fat32ReadFile demo_name 1000 demo_fs = Ok (r, s') ∧
    r = (STATUS_SUCCESS, replicate 512 1 ++ replicate 88 2, Some 600).
Proof.
  destruct (Fat32ReadFile_spec demo_fs ∅ demo_name [2] [3; 4] 1000 demo_fs_ok demo_dir_chain) as (r & s' & Hr & _ & _ & Hc); [lia| |].
  { intros e He _. rewrite demo_find in He. injection He as <-. exact demo_file_chain. }
  exists r, s'. split; [exact Hr|]. destruct Hc as [Hn|Hr2].
  - assert (Hb : match Fat32ReadFile demo_name 1000 demo_fs with Ok (r, _) => r.1.1 = STATUS_SUCCESS | _ => False end)
      by (vm_compute; reflexivity).
    rewrite Hr, Hn in Hb. discriminate.
  - rewrite Hr2, demo_find. vm_compute. reflexivity.
Defined.

Lemma demo_lookup_ok :
  ∃ s0, Fat32FindEntry (root_cluster (mnt demo_fs)) demo_name demo_fs = Ok ((STATUS_SUCCESS, Some demo_entry), s0).
Proof.
  destruct (find_entry_run demo_fs ∅ _ [2] demo_name demo_fs_ok demo_dir_chain) as (r & s' & Hr & _ & _ & Hc).
  exists s'. rewrite Hr. destruct Hc as [Hn|Hr2]; [|by rewrite Hr2, demo_find].
  assert (Hb : match Fat32FindEntry (root_cluster (mnt demo_fs)) demo_name demo_fs with Ok (r, _) => r.1 = STATUS_SUCCESS | _ => False end) by (vm_compute; reflexivity).
  rewrite Hr, Hn in Hb. discriminate.
Qed.

Lemma demo_used : used demo_fs ([2] ++ [3; 4]).
Proof.
  intros c Hc. repeat (apply elem_of_cons in Hc as [->|Hc]); [..|by apply not_elem_of_nil in Hc];
    eexists; (split; [vm_compute; reflexivity|vm_compute; discriminate]).
Qed.

Lemma demo_apart c : c ∈ [2] → c ∉ [3; 4].
Proof. intros ->%list_elem_of_singleton. set_solver. Qed.

Definition demo_data : list Z := replicate 1500 7.

Lemma fat32_write_read_witness :
  ∃ r s', Fat32WriteFile demo_name demo_data [] true demo_fs = Ok (r, s') ∧ r = (STATUS_SUCCESS, Some 1024) ∧
    ∃ r2 s2, Fat32ReadFile demo_name 600 s' = Ok (r2, s2) ∧
      (r2 = (STATUS_NO_MEMORY, [], Some 0) ∨ r2 = (STATUS_SUCCESS, replicate 600 7, Some 600)).
Proof.
  destruct demo_lookup_ok as (s0 & Hlook).
  assert (Hlen : 0 < Z.of_nat (length demo_data) < 4294836224) by (vm_compute; split; reflexivity).
  assert (Hbytes : Forall byte demo_data) by (apply Forall_replicate; unfold byte; lia).
  pose proof (fat32_write_read demo_fs s0 ∅ demo_name demo_data [] [2] [3; 4] demo_entry demo_fs_ok demo_dir_chain Hlook
    demo_file_chain ltac:(discriminate) demo_used demo_apart Hlen Hbytes) as Ht.
  destruct Ht as (r & s' & Hr & _ & _ & _ & _ & Hc).
  assert (Hb : match Fat32WriteFile demo_name demo_data [] true demo_fs with Ok (r, _) => r = (STATUS_SUCCESS, Some 1024) | _ => False end)
    by (vm_compute; reflexivity).
  exists r, s'. split; [exact Hr|]. rewrite Hr in Hb. split; [exact Hb|].
  destruct Hc as [[Hc _]|[Hc|[_ Hread]]]; [rewrite Hc in Hb; discriminate..|].
  apply (Hread 600). vm_compute. split; discriminate.
Defined.

Lemma fat32_delete_frees_witness :
  ∃ st s', Fat32DeleteFile demo_name demo_fs = Ok (st, s') ∧ st = STATUS_SUCCESS ∧ 3 ∈ frees s' ∧
    find_entry s' [2] demo_name = Some demo_entry.
Proof.
  destruct demo_lookup_ok as (s0 & Hlook).
  destruct (fat32_delete_frees demo_fs s0 ∅ demo_name [2] [3; 4] demo_entry demo_fs_ok demo_dir_chain Hlook demo_file_chain)
    as (st & s' & Hr & _ & Hfr & _ & _ & _ & Hfe); [discriminate|exact demo_used|exact demo_apart|].
  exists st, s'. split; [exact Hr|]. split_and!; [|apply Hfr; by left|exact Hfe].
  assert (Hb : match Fat32DeleteFile demo_name demo_fs with Ok (st, _) => st = STATUS_SUCCESS | _ => False end)
    by (vm_compute; reflexivity).
  by rewrite Hr in Hb.
Defined.

Lemma Fat32MountPartition_spec_witness :
  ∃ cache s', Fat32MountPartition 0 demo_start = Ok (STATUS_SUCCESS, s') ∧ fat_ok s' {[ cache := 0 ]}.
Proof.
  pose proof (Fat32MountPartition_spec demo_start ∅ 0 demo_disk_up demo_pool_rep) as Ht. cbn zeta in Ht.
  change (sector (dev demo_start) 0) with demo_boot in Ht.
  assert (Hg : read_bpb 0 demo_boot (mnt demo_start) = mkMount 0 512 1 512 10 1 1 2 10 11 1 false 0 128 0) by (vm_compute; reflexivity).
  rewrite Hg in Ht. assert (Hmk : no_marks demo_boot = false) by (vm_compute; reflexivity). rewrite Hmk in Ht.
  destruct Ht as [(s' & Hr & _)|(cache & s' & Hr & _ & _ & Hok)];
    [done|by left|lia|vm_compute; discriminate|vm_compute; split; [discriminate|reflexivity]| |].
  - assert (Hb : match Fat32MountPartition 0 demo_start with Ok (st, _) => st = STATUS_SUCCESS | _ => False end)
      by (vm_compute; reflexivity).
    rewrite Hr in Hb. discriminate.
  - exists cache, s'. split; [exact Hr|]. apply Hok; vm_compute; reflexivity.
Defined.
