(* ===== verification/Ob.v ===== *)
(** * Ob: the object manager (src/ob/obmgr.c, src/include/nt/ob.h)

    Objects with a header in pool memory, pointer and handle counts, the
    512-slot handle table, the flat case-insensitive namespace.  The file is
    parametric in the pool: it is written and proved against [PoolInterface].
    Delete procedures are callbacks of other components, a parameter here. *)

From S2P Require Import Prelude Irql Rtl MmPfn Pool.

#[local] Open Scope Z_scope.

Record OBJECT_TYPE := mkType {
  TName : UNICODE_STRING;
  Key : Z;
  TotalNumberOfObjects : Z;
  TotalNumberOfHandles : Z;
  DeleteProcedure : Z                 (* 0 is NULL *)
}.

Record OBJECT_HEADER := mkHdr {
  PointerCount : Z;
  HandleCount : Z;
  Type_ : Z;                          (* POBJECT_TYPE, 0 is NULL *)
  Name : UNICODE_STRING
}.

Definition sizeof_OBJECT_TYPE := 64.
Definition sizeof_OBJECT_HEADER := 56.
Definition TAG_OBJT := 0x744A624F.
Definition TAG_OBHD := 0x64484F62.
Definition OBP_HANDLE_TABLE_SIZE := 512.

Definition BODY_TO_HEADER (Body : Z) : Z := Body - sizeof_OBJECT_HEADER.
Definition HEADER_TO_BODY (Hdr : Z) : Z := Hdr + sizeof_OBJECT_HEADER.
Definition HANDLE_TO_INDEX (H : Z) : Z := u64 (Z.shiftr H 2 - 1).
Definition INDEX_TO_HANDLE (I : Z) : Z := u64 (Z.shiftl (I + 1) 2).

(** Type and header objects by address; the two lists hold addresses. *)
Record OB_STATE (P : Type) := mkOb {
  ob_pool : P;
  ObTypes : gmap Z OBJECT_TYPE;
  ObHeaders : gmap Z OBJECT_HEADER;
  ObpTypeListHead : list Z;
  ObpNamedObjectHead : list Z;
  ObpHandleTable : list Z;
  ObpLock : Z;
  IoFileObjectType : Z;
  LpcPortObjectType : Z
}.
Arguments mkOb {P}.
Arguments ob_pool {P}.
Arguments ObTypes {P}.
Arguments ObHeaders {P}.
Arguments ObpTypeListHead {P}.
Arguments ObpNamedObjectHead {P}.
Arguments ObpHandleTable {P}.
Arguments ObpLock {P}.
Arguments IoFileObjectType {P}.
Arguments LpcPortObjectType {P}.

Section Setters.
Context {P : Type}.

Definition set_ob_pool (v : P) (s : OB_STATE P) : OB_STATE P :=
  mkOb v (ObTypes s) (ObHeaders s) (ObpTypeListHead s) (ObpNamedObjectHead s)
    (ObpHandleTable s) (ObpLock s) (IoFileObjectType s) (LpcPortObjectType s).
Definition set_ObTypes (v : gmap Z OBJECT_TYPE) (s : OB_STATE P) : OB_STATE P :=
  mkOb (ob_pool s) v (ObHeaders s) (ObpTypeListHead s) (ObpNamedObjectHead s)
    (ObpHandleTable s) (ObpLock s) (IoFileObjectType s) (LpcPortObjectType s).
Definition set_ObHeaders (v : gmap Z OBJECT_HEADER) (s : OB_STATE P) : OB_STATE P :=
  mkOb (ob_pool s) (ObTypes s) v (ObpTypeListHead s) (ObpNamedObjectHead s)
    (ObpHandleTable s) (ObpLock s) (IoFileObjectType s) (LpcPortObjectType s).
Definition set_ObpTypeListHead (v : list Z) (s : OB_STATE P) : OB_STATE P :=
  mkOb (ob_pool s) (ObTypes s) (ObHeaders s) v (ObpNamedObjectHead s)
    (ObpHandleTable s) (ObpLock s) (IoFileObjectType s) (LpcPortObjectType s).
Definition set_ObpNamed (v : list Z) (s : OB_STATE P) : OB_STATE P :=
  mkOb (ob_pool s) (ObTypes s) (ObHeaders s) (ObpTypeListHead s) v
    (ObpHandleTable s) (ObpLock s) (IoFileObjectType s) (LpcPortObjectType s).
Definition set_ObpHandleTable (v : list Z) (s : OB_STATE P) : OB_STATE P :=
  mkOb (ob_pool s) (ObTypes s) (ObHeaders s) (ObpTypeListHead s) (ObpNamedObjectHead s)
    v (ObpLock s) (IoFileObjectType s) (LpcPortObjectType s).
Definition set_ObpLock (v : Z) (s : OB_STATE P) : OB_STATE P :=
  mkOb (ob_pool s) (ObTypes s) (ObHeaders s) (ObpTypeListHead s) (ObpNamedObjectHead s)
    (ObpHandleTable s) v (IoFileObjectType s) (LpcPortObjectType s).
Definition set_IoFileObjectType (v : Z) (s : OB_STATE P) : OB_STATE P :=
  mkOb (ob_pool s) (ObTypes s) (ObHeaders s) (ObpTypeListHead s) (ObpNamedObjectHead s)
    (ObpHandleTable s) (ObpLock s) v (LpcPortObjectType s).
Definition set_LpcPortObjectType (v : Z) (s : OB_STATE P) : OB_STATE P :=
  mkOb (ob_pool s) (ObTypes s) (ObHeaders s) (ObpTypeListHead s) (ObpNamedObjectHead s)
    (ObpHandleTable s) (ObpLock s) (IoFileObjectType s) v.
End Setters.

#[global] Instance OB_HasPcr {P} `{HasPcr P} : HasPcr (OB_STATE P).
Proof.
  refine {| pcr := λ s, pcr (ob_pool s);
            set_pcr := λ k s, set_ob_pool (set_pcr k (ob_pool s)) s |}.
  - intros k s. apply pcr_set.
  - intros k k' s. unfold set_ob_pool; simpl. by rewrite set_pcr_set.
  - intros []. unfold set_ob_pool; simpl. by rewrite set_pcr_pcr.
Defined.

Definition ObLock {P} `{HasPcr P} : SpinLock (OB_STATE P).
Proof. refine (mkSpinLock ObpLock set_ObpLock _ _ _ _ _ _); [done..|by intros []|done]. Defined.

Section Ob.
Context {P : Type} `{HP : HasPcr P} `{PI : !PoolInterface P}.
(** [DeleteProc proc body]: the call through [type->DeleteProcedure]. *)
Context (DeleteProc : Z → Z → M (OB_STATE P) unit).

#[local] Abbreviation OB := (OB_STATE P).

Definition ob_alloc (n tag : Z) : M OB Z := zoom ob_pool set_ob_pool (pool_alloc 0 n tag).
Definition ob_free (a tag : Z) : M OB unit := zoom ob_pool set_ob_pool (pool_free a tag).

Definition get_hdr (h : Z) : M OB OBJECT_HEADER := mderef (λ s, ObHeaders s !! h).
Definition put_hdr (h : Z) (x : OBJECT_HEADER) : M OB unit :=
  mmod (λ s, set_ObHeaders (<[h := x]> (ObHeaders s)) s).
Definition get_type (t : Z) : M OB OBJECT_TYPE := mderef (λ s, ObTypes s !! t).
Definition put_type (t : Z) (x : OBJECT_TYPE) : M OB unit :=
  mmod (λ s, set_ObTypes (<[t := x]> (ObTypes s)) s).

(** [Type ? Type->Key : TAG_OBHD] *)
Definition key_of (t : Z) : M OB Z :=
  if t =? 0 then mret TAG_OBHD else ty ← get_type t; mret (Key ty).

Definition ObCreateObjectType (TypeName : UNICODE_STRING) (PoolTag DeleteProcedure : Z) :
    M OB (Z * Z) :=
  type ← ob_alloc sizeof_OBJECT_TYPE TAG_OBJT;
  if type =? 0 then mret (STATUS_INSUFFICIENT_RESOURCES, 0)
  else
    put_type type (mkType TypeName PoolTag 0 0 DeleteProcedure);;
    mmod (λ s, set_ObpTypeListHead (ObpTypeListHead s ++ [type]) s);;
    mret (STATUS_SUCCESS, type).

Definition ObInitSystem (FileName PortName : UNICODE_STRING) : M OB Z :=
  mmod (set_ObpTypeListHead []);;
  mmod (set_ObpNamed []);;
  KeInitializeSpinLock ObLock;;
  mmod (set_ObpHandleTable (replicate (Z.to_nat OBP_HANDLE_TABLE_SIZE) 0));;
  '(st, ty) ← ObCreateObjectType FileName 0x656C6F46 0;
  if negb (NT_SUCCESS st) then mret st
  else
    mmod (set_IoFileObjectType ty);;
    '(st, ty) ← ObCreateObjectType PortName 0x74726F50 0;
    if negb (NT_SUCCESS st) then mret st
    else
      mmod (set_LpcPortObjectType ty);;
      mret STATUS_SUCCESS.

Definition add_type_objects (t d : Z) : M OB unit :=
  ty ← get_type t;
  put_type t (mkType (TName ty) (Key ty) (u64 (TotalNumberOfObjects ty + d))
                (TotalNumberOfHandles ty) (DeleteProcedure ty)).
Definition add_type_handles (t d : Z) : M OB unit :=
  ty ← get_type t;
  put_type t (mkType (TName ty) (Key ty) (TotalNumberOfObjects ty)
                (u64 (TotalNumberOfHandles ty + d)) (DeleteProcedure ty)).

Definition ObCreateObject (Type_ BodySize : Z) (Nm : option UNICODE_STRING) : M OB (Z * Z) :=
  tag ← key_of Type_;
  hdr ← ob_alloc (u64 (sizeof_OBJECT_HEADER + BodySize)) tag;
  if hdr =? 0 then mret (STATUS_INSUFFICIENT_RESOURCES, 0)
  else
    match Nm with
    | Some n =>
        if truthy (Length n) then
          put_hdr hdr (mkHdr 1 0 Type_ n);;
          irql ← KeAcquireSpinLock ObLock;
          mmod (λ s, set_ObpNamed (ObpNamedObjectHead s ++ [hdr]) s);;
          KeReleaseSpinLock ObLock irql
        else put_hdr hdr (mkHdr 1 0 Type_ (mkUS 0 0 []))
    | None => put_hdr hdr (mkHdr 1 0 Type_ (mkUS 0 0 []))
    end;;
    mwhen (truthy Type_) (add_type_objects Type_ 1);;
    mret (STATUS_SUCCESS, HEADER_TO_BODY hdr).

Definition ObReferenceObject (Body : Z) : M OB unit :=
  let hdr := BODY_TO_HEADER Body in
  x ← get_hdr hdr;
  put_hdr hdr (mkHdr (s64 (PointerCount x + 1)) (HandleCount x) (Type_ x) (Name x)).

(** The object's memory is gone once it is freed. *)
Definition ObDereferenceObject (Body : Z) : M OB unit :=
  let hdr := BODY_TO_HEADER Body in
  x ← get_hdr hdr;
  let count := s64 (PointerCount x - 1) in
  put_hdr hdr (mkHdr count (HandleCount x) (Type_ x) (Name x));;
  ASSERT (0 <=? count) 125;;
  mwhen (count =? 0) (
    mwhen (truthy (Length (Name x))) (
      irql ← KeAcquireSpinLock ObLock;
      mmod (λ s, set_ObpNamed (filter (λ e, e ≠ hdr) (ObpNamedObjectHead s)) s);;
      KeReleaseSpinLock ObLock irql);;
    mwhen (truthy (Type_ x)) (
      add_type_objects (Type_ x) (-1);;
      ty ← get_type (Type_ x);
      mwhen (truthy (DeleteProcedure ty)) (DeleteProc (DeleteProcedure ty) Body));;
    tag ← key_of (Type_ x);
    ob_free hdr tag;;
    mmod (λ s, set_ObHeaders (delete hdr (ObHeaders s)) s)).

Definition ObInsertHandle (Body : Z) : M OB (Z * Z) :=
  irql ← KeAcquireSpinLock ObLock;
  slot ← mgets (λ s, first_idx (λ b, b =? 0) (ObpHandleTable s));
  r ← match slot with
      | Some i =>
          mmod (λ s, set_ObpHandleTable (<[i := Body]> (ObpHandleTable s)) s);;
          mret (STATUS_SUCCESS, INDEX_TO_HANDLE (Z.of_nat i))
      | None => mret (STATUS_INSUFFICIENT_RESOURCES, 0)
      end;
  KeReleaseSpinLock ObLock irql;;
  mwhen (NT_SUCCESS r.1) (
    let hdr := BODY_TO_HEADER Body in
    ObReferenceObject Body;;
    x ← get_hdr hdr;
    put_hdr hdr (mkHdr (PointerCount x) (s64 (HandleCount x + 1)) (Type_ x) (Name x));;
    mwhen (truthy (Type_ x)) (add_type_handles (Type_ x) 1));;
  mret r.

Definition table_get (idx : Z) (s : OB) : Z := default 0 (ObpHandleTable s !! Z.to_nat idx).

Definition ObReferenceObjectByHandle (Handle ExpectedType : Z) : M OB (Z * Z) :=
  let idx := HANDLE_TO_INDEX Handle in
  if OBP_HANDLE_TABLE_SIZE <=? idx then mret (STATUS_INVALID_HANDLE, 0)
  else
    irql ← KeAcquireSpinLock ObLock;
    body ← mgets (table_get idx);
    mwhen (truthy body) (ObReferenceObject body);;
    KeReleaseSpinLock ObLock irql;;
    if body =? 0 then mret (STATUS_INVALID_HANDLE, 0)
    else
      x ← get_hdr (BODY_TO_HEADER body);
      if truthy ExpectedType && negb (Type_ x =? ExpectedType) then
        ObDereferenceObject body;;
        mret (STATUS_ACCESS_DENIED, 0)
      else mret (STATUS_SUCCESS, body).

Definition ObCloseHandle (Handle : Z) : M OB Z :=
  let idx := HANDLE_TO_INDEX Handle in
  if OBP_HANDLE_TABLE_SIZE <=? idx then mret STATUS_INVALID_HANDLE
  else
    irql ← KeAcquireSpinLock ObLock;
    body ← mgets (table_get idx);
    mmod (λ s, set_ObpHandleTable (<[Z.to_nat idx := 0]> (ObpHandleTable s)) s);;
    KeReleaseSpinLock ObLock irql;;
    if body =? 0 then mret STATUS_INVALID_HANDLE
    else
      let hdr := BODY_TO_HEADER body in
      x ← get_hdr hdr;
      put_hdr hdr (mkHdr (PointerCount x) (s64 (HandleCount x - 1)) (Type_ x) (Name x));;
      mwhen (truthy (Type_ x)) (add_type_handles (Type_ x) (-1));;
      ObDereferenceObject body;;
      mret STATUS_SUCCESS.

(** The walk over the named list: the first header whose name is equal, up to
    case. *)
Fixpoint find_named (l : list Z) (nm : UNICODE_STRING) (s : OB) : Res (option Z) :=
  match l with
  | [] => Ok None
  | h :: l' =>
      match ObHeaders s !! h with
      | None => Undef
      | Some x => if RtlEqualUnicodeString (Name x) nm true then Ok (Some h) else find_named l' nm s
      end
  end.

Definition find_name (nm : UNICODE_STRING) : M OB (option Z) := λ s,
  match find_named (ObpNamedObjectHead s) nm s with
  | Ok r => Ok (r, s)
  | BugCheck c p1 p2 p3 p4 => BugCheck c p1 p2 p3 p4
  | Spin => Spin
  | NoFuel => NoFuel
  | Undef => Undef
  end.

Definition ObLookupObjectByName (Nm : UNICODE_STRING) : M OB (Z * Z) :=
  irql ← KeAcquireSpinLock ObLock;
  found ← find_name Nm;
  r ← match found with
      | Some h => ObReferenceObject (HEADER_TO_BODY h);; mret (STATUS_SUCCESS, HEADER_TO_BODY h)
      | None => mret (STATUS_OBJECT_NAME_NOT_FOUND, 0)
      end;
  KeReleaseSpinLock ObLock irql;;
  mret r.

(** ** Invariant *)

(** The slots of the handle table that hold the object with header [h]. *)
Definition slots (table : list Z) (h : Z) : Z := countb (λ b, b =? HEADER_TO_BODY h) table.

(** The counts are exact: [ext h] references are held outside the table. *)
Record ob_core (hdrs : gmap Z OBJECT_HEADER) (types : gmap Z OBJECT_TYPE)
    (named table : list Z) (ext : Z → Z) : Prop := {
  c_len : Z.of_nat (length table) = OBP_HANDLE_TABLE_SIZE;
  c_count h x : hdrs !! h = Some x →
    PointerCount x = ext h + slots table h ∧ HandleCount x = slots table h ∧
    0 ≤ ext h < 4611686018427387904;
  c_slots i b : table !! i = Some b → b ≠ 0 → is_Some (hdrs !! BODY_TO_HEADER b);
  c_type h x : hdrs !! h = Some x → Type_ x = 0 ∨ is_Some (types !! Type_ x);
  c_nodup : NoDup named;
  c_named h : h ∈ named ↔
    ∃ x, hdrs !! h = Some x ∧ Length (Name x) ≠ 0 ∧ 0 < PointerCount x
}.

Definition tag_of (types : gmap Z OBJECT_TYPE) (x : OBJECT_HEADER) : Z :=
  if Type_ x =? 0 then TAG_OBHD else default 0 (Key <$> types !! Type_ x).

(** Headers and types are live pool blocks with the tag they will be freed
    with. *)
Definition ob_mem (p : P) (hdrs : gmap Z OBJECT_HEADER) (types : gmap Z OBJECT_TYPE) : Prop :=
  ∃ m, pool_rep p m ∧
    (∀ h x, hdrs !! h = Some x → m !! h = Some (tag_of types x)) ∧
    (∀ t y, types !! t = Some y → m !! t = Some TAG_OBJT) ∧
    (∀ h, is_Some (hdrs !! h) → types !! h = None).

Record ob_inv (s : OB) (ext : Z → Z) : Prop := {
  oi_core : ob_core (ObHeaders s) (ObTypes s) (ObpNamedObjectHead s) (ObpHandleTable s) ext;
  oi_mem : ob_mem (ob_pool s) (ObHeaders s) (ObTypes s);
  oi_lock : ObpLock s = 0
}.

(** No object is kept without a reference. *)
Definition ob_wf (s : OB) (ext : Z → Z) : Prop :=
  ob_inv s ext ∧ ∀ h x, ObHeaders s !! h = Some x → 0 < PointerCount x.

(** What a delete procedure may do: use the pool, but not with the object
    manager's own blocks. *)
Definition delete_ok_for (body : Z) : Prop := ∀ proc (s : OB),
  ob_mem (ob_pool s) (ObHeaders s) (ObTypes s) → can_lock (pcr s) →
  ∃ p', DeleteProc proc body s = Ok (tt, set_ob_pool p' s) ∧ pcr p' = pcr (ob_pool s) ∧
        ob_mem p' (ObHeaders s) (ObTypes s).

Definition delete_ok : Prop := ∀ body, delete_ok_for body.

Definition bump (ext : Z → Z) (h d : Z) : Z → Z := λ a, if a =? h then ext a + d else ext a.

Lemma slots_bounds table h : 0 ≤ slots table h ≤ Z.of_nat (length table).
Proof. apply countb_bounds. Qed.

(** Changing an existing header so that the counts stay exact. *)
Lemma core_put hdrs types named table ext ext' h x x' :
  ob_core hdrs types named table ext → hdrs !! h = Some x →
  (∀ a, a ≠ h → ext' a = ext a) →
  PointerCount x' = ext' h + slots table h → HandleCount x' = slots table h →
  0 ≤ ext' h < 4611686018427387904 →
  Type_ x' = Type_ x → Name x' = Name x → 0 < PointerCount x → 0 < PointerCount x' →
  ob_core (<[h := x']> hdrs) types named table ext'.
Proof.
  intros [Hlen Hcnt Hslots Hty Hnd Hnm] Hx Hext Hp Hh Hb Ht Hn Hpos Hpos'. constructor; try done.
  - intros a y. destruct (decide (a = h)) as [->|Hne].
    + rewrite lookup_insert_eq. intros [= <-]. done.
    + rewrite lookup_insert_ne by done. rewrite Hext by done. apply Hcnt.
  - intros i b Hi Hb0. destruct (decide (BODY_TO_HEADER b = h)) as [->|Hne].
    + rewrite lookup_insert_eq. eauto.
    + rewrite lookup_insert_ne by done. eauto.
  - intros a y. destruct (decide (a = h)) as [->|Hne].
    + rewrite lookup_insert_eq. intros [= <-]. rewrite Ht. eauto.
    + rewrite lookup_insert_ne by done. eauto.
  - intros a. rewrite Hnm. destruct (decide (a = h)) as [->|Hne].
    + rewrite lookup_insert_eq, Hx. split; intros (y & [= <-] & Hl & Hy).
      * exists x'. by rewrite Hn.
      * exists x. by rewrite Hn in Hl.
    + by rewrite lookup_insert_ne.
Qed.

Lemma mem_put p hdrs types h x x' :
  ob_mem p hdrs types → hdrs !! h = Some x → Type_ x' = Type_ x →
  ob_mem p (<[h := x']> hdrs) types.
Proof.
  intros (m & Hm & Hh & Ht & Hd) Hx Htx. exists m. split_and!; try done.
  - intros a y. destruct (decide (a = h)) as [->|Hne].
    + rewrite lookup_insert_eq. intros [= <-]. rewrite (Hh h x Hx). unfold tag_of. by rewrite Htx.
    + rewrite lookup_insert_ne by done. apply Hh.
  - intros a. destruct (decide (a = h)) as [->|Hne]; [eauto|]. rewrite lookup_insert_ne by done. apply Hd.
Qed.

(** Counters of a type change neither its key nor its delete procedure. *)
Lemma mem_type p hdrs types t y y' :
  ob_mem p hdrs types → types !! t = Some y → Key y' = Key y →
  ob_mem p hdrs (<[t := y']> types).
Proof.
  intros (m & Hm & Hh & Ht & Hd) Hy Hk. exists m. split_and!; try done.
  - intros a x Hx. rewrite (Hh a x Hx). unfold tag_of. destruct (Type_ x =? 0); [done|].
    destruct (decide (Type_ x = t)) as [->|Hne].
    + by rewrite lookup_insert_eq, Hy; simpl; rewrite Hk.
    + by rewrite lookup_insert_ne.
  - intros a z. destruct (decide (a = t)) as [->|Hne]; [eauto|]. rewrite lookup_insert_ne by done. apply Ht.
  - intros a Ha. destruct (decide (a = t)) as [->|Hne]; [|rewrite lookup_insert_ne by done; auto].
    rewrite (Hd t Ha) in Hy. done.
Qed.

Lemma core_type hdrs types named table ext t y y' :
  ob_core hdrs types named table ext → types !! t = Some y →
  ob_core hdrs (<[t := y']> types) named table ext.
Proof.
  intros [Hlen Hcnt Hslots Hty Hnd Hnm] Hy. constructor; try done.
  intros h x Hx. destruct (Hty h x Hx) as [?|Hs]; [by left|right].
  destruct (decide (Type_ x = t)) as [->|Hne]; [rewrite lookup_insert_eq; eauto|].
  by rewrite lookup_insert_ne.
Qed.

Lemma b2h_h2b h : BODY_TO_HEADER (HEADER_TO_BODY h) = h.
Proof. unfold BODY_TO_HEADER, HEADER_TO_BODY. lia. Qed.
Lemma h2b_b2h b : HEADER_TO_BODY (BODY_TO_HEADER b) = b.
Proof. unfold BODY_TO_HEADER, HEADER_TO_BODY. lia. Qed.

Definition with_hdr (h : Z) (x : OBJECT_HEADER) (s : OB) : OB :=
  set_ObHeaders (<[h := x]> (ObHeaders s)) s.
Definition with_type (t : Z) (y : OBJECT_TYPE) (s : OB) : OB :=
  set_ObTypes (<[t := y]> (ObTypes s)) s.

Lemma framed_hdr h x : framed ObLock (with_hdr h x).
Proof. by constructor. Qed.

(** ** References *)

Definition ref_hdr (x : OBJECT_HEADER) (d : Z) : OBJECT_HEADER :=
  mkHdr (s64 (PointerCount x + d)) (HandleCount x) (Type_ x) (Name x).

Lemma ref_run s h x :
  ObHeaders s !! h = Some x →
  ObReferenceObject (HEADER_TO_BODY h) s = Ok (tt, with_hdr h (ref_hdr x 1) s).
Proof.
  intros Hx. unfold ObReferenceObject. rewrite b2h_h2b.
  unfold get_hdr, mderef, mbind, M_bind. by rewrite Hx.
Qed.

Lemma count_bounds s ext h x :
  ob_inv s ext → ObHeaders s !! h = Some x →
  PointerCount x = ext h + slots (ObpHandleTable s) h ∧ HandleCount x = slots (ObpHandleTable s) h ∧
  0 ≤ ext h < 4611686018427387904 ∧ 0 ≤ slots (ObpHandleTable s) h ≤ 512.
Proof.
  intros [Hc _ _] Hx. destruct (c_count _ _ _ _ _ Hc h x Hx) as (H1 & H2 & H3).
  pose proof (slots_bounds (ObpHandleTable s) h). pose proof (c_len _ _ _ _ _ Hc) as Hlen.
  unfold OBP_HANDLE_TABLE_SIZE in Hlen. lia.
Qed.

Lemma ref_wf s ext h x :
  ob_wf s ext → ObHeaders s !! h = Some x → ext h + 1 < 4611686018427387904 →
  ob_wf (with_hdr h (ref_hdr x 1) s) (bump ext h 1).
Proof.
  intros [Hinv Hpos] Hx Hb. pose proof (count_bounds s ext h x Hinv Hx) as (H1 & H2 & H3 & H4).
  assert (Hpc : PointerCount (ref_hdr x 1) = PointerCount x + 1) by (simpl; rewrite s64_small; lia).
  pose proof (Hpos h x Hx). destruct Hinv as [Hc Hm Hl]. split; [constructor; simpl; try done|].
  - apply (core_put _ _ _ _ ext _ h x); try done; try lia; unfold bump.
    + intros a Ha. by replace (a =? h) with false by lia.
    + rewrite Z.eqb_refl. lia.
    + rewrite Z.eqb_refl. lia.
  - by apply (mem_put _ _ _ _ x).
  - intros a y. simpl. destruct (decide (a = h)) as [->|Hne].
    + rewrite lookup_insert_eq. intros [= <-]. lia.
    + rewrite lookup_insert_ne by done. apply Hpos.
Qed.

(** A decrement that leaves a reference. *)
Lemma unref_wf s ext h x :
  ob_wf s ext → ObHeaders s !! h = Some x → 1 ≤ ext h → 1 < PointerCount x →
  ob_wf (with_hdr h (ref_hdr x (-1)) s) (bump ext h (-1)).
Proof.
  intros [Hinv Hpos] Hx Hb Hgt. pose proof (count_bounds s ext h x Hinv Hx) as (H1 & H2 & H3 & H4).
  assert (Hpc : PointerCount (ref_hdr x (-1)) = PointerCount x - 1) by (simpl; rewrite s64_small; lia).
  destruct Hinv as [Hc Hm Hl]. split; [constructor; simpl; try done|].
  - apply (core_put _ _ _ _ ext _ h x); try done; try lia; unfold bump.
    + intros a Ha. by replace (a =? h) with false by lia.
    + rewrite Z.eqb_refl. lia.
    + rewrite Z.eqb_refl. lia.
  - by apply (mem_put _ _ _ _ x).
  - intros a y. simpl. destruct (decide (a = h)) as [->|Hne].
    + rewrite lookup_insert_eq. intros [= <-]. lia.
    + rewrite lookup_insert_ne by done. apply Hpos.
Qed.

Definition unname (h : Z) (s : OB) : OB :=
  set_ObpNamed (filter (λ e, e ≠ h) (ObpNamedObjectHead s)) s.

Lemma framed_unname h : framed ObLock (unname h).
Proof. by constructor. Qed.

(** Unlinking from the namespace, for a named object. *)
Lemma unname_run h x s :
  can_lock (pcr s) → ObpLock s = 0 →
  mwhen (truthy (Length (Name x))) (
    irql ← KeAcquireSpinLock ObLock;
    mmod (λ s, set_ObpNamed (filter (λ e, e ≠ h) (ObpNamedObjectHead s)) s);;
    KeReleaseSpinLock ObLock irql) s =
  Ok (tt, if truthy (Length (Name x)) then unname h s else s).
Proof.
  intros Hc Hl. unfold mwhen. destruct (truthy _); [|done].
  rewrite acquire_bind by done. erewrite bind_ok; [|reflexivity].
  change (set_ObpNamed _ (locked ObLock s)) with (unname h (locked ObLock s)).
  apply release_framed; [done..|apply framed_unname].
Qed.

(** The memory of an object whose count dropped to zero goes back to the pool. *)
Lemma mem_free p hdrs types h x :
  ob_mem p hdrs types → hdrs !! h = Some x → can_lock (pcr p) →
  ∃ p', pool_free h (tag_of types x) p = Ok (tt, p') ∧ pcr p' = pcr p ∧
        ob_mem p' (delete h hdrs) types.
Proof.
  intros (m & Hm & Hh & Ht & Hd) Hx Hc.
  destruct (pool_free_law p m h (tag_of types x) (tag_of types x)) as (p' & Hr & Hp & Hm'); [done|done|by apply Hh|by right|].
  exists p'. split_and!; try done. exists (delete h m). split_and!; try done.
  - intros a y. destruct (decide (a = h)) as [->|Hne]; [by rewrite lookup_delete_eq|].
    rewrite !lookup_delete_ne by done. apply Hh.
  - intros a y Hy. destruct (decide (a = h)) as [->|Hne].
    + rewrite (Hd h) in Hy by eauto. done.
    + rewrite lookup_delete_ne by done. eauto.
  - intros a. destruct (decide (a = h)) as [->|Hne].
    + rewrite lookup_delete_eq. by intros [? ?].
    + rewrite lookup_delete_ne by done. apply Hd.
Qed.

Lemma core_delete hdrs types named named' table ext ext' h x :
  ob_core hdrs types named table ext → hdrs !! h = Some x → slots table h = 0 →
  (∀ a, a ≠ h → ext' a = ext a) → NoDup named' → (∀ a, a ∈ named' ↔ a ∈ named ∧ a ≠ h) →
  ob_core (delete h hdrs) types named' table ext'.
Proof.
  intros [Hlen Hcnt Hslots Hty Hnd Hnm] Hx Hsl Hext Hnd' Hnm'. constructor; try done.
  - intros a y [Hne Hy]%lookup_delete_Some. rewrite Hext by done. by apply Hcnt.
  - intros i b Hi Hb. rewrite lookup_delete_ne; [eauto|]. intros Heq.
    unfold slots in Hsl. rewrite countb_zero in Hsl. specialize (Hsl i b Hi). simpl in Hsl.
    rewrite Heq, h2b_b2h in Hsl. lia.
  - intros a y [_ Hy]%lookup_delete_Some. eauto.
  - intros a. rewrite Hnm', Hnm. split.
    + intros [(y & Hy & Hl & Hp) Hne]. exists y. by rewrite lookup_delete_ne.
    + intros (y & [Hne Hy]%lookup_delete_Some & Hl & Hp). eauto.
Qed.

Lemma unname_elem s h b x ext :
  ob_inv s ext → ObHeaders s !! h = Some x → b = truthy (Length (Name x)) →
  let l := ObpNamedObjectHead (if b then unname h s else s) in
  NoDup l ∧ ∀ a, a ∈ l ↔ a ∈ ObpNamedObjectHead s ∧ a ≠ h.
Proof.
  intros [Hc _ _] Hx ->. pose proof (c_nodup _ _ _ _ _ Hc). destruct (truthy _) eqn:E; simpl.
  - split; [by apply NoDup_filter|]. intros a. rewrite list_elem_of_filter. tauto.
  - split; [done|]. intros a. split; [|tauto]. intros Ha. split; [done|]. intros ->.
    apply (c_named _ _ _ _ _ Hc) in Ha as (y & Hy & Hl & _). simplify_eq.
    unfold truthy in E. lia.
Qed.

Lemma add_objects_run s t y d :
  ObTypes s !! t = Some y →
  add_type_objects t d s =
  Ok (tt, with_type t (mkType (TName y) (Key y) (u64 (TotalNumberOfObjects y + d))
                         (TotalNumberOfHandles y) (DeleteProcedure y)) s).
Proof. intros Hy. unfold add_type_objects, get_type. by erewrite deref_bind. Qed.

Lemma add_handles_run s t y d :
  ObTypes s !! t = Some y →
  add_type_handles t d s =
  Ok (tt, with_type t (mkType (TName y) (Key y) (TotalNumberOfObjects y)
                         (u64 (TotalNumberOfHandles y + d)) (DeleteProcedure y)) s).
Proof. intros Hy. unfold add_type_handles, get_type. by erewrite deref_bind. Qed.

(** The type's object counter and its delete procedure. *)
Lemma type_delete_run s x body :
  delete_ok_for body → can_lock (pcr s) →
  ob_mem (ob_pool s) (ObHeaders s) (ObTypes s) →
  (Type_ x = 0 ∨ is_Some (ObTypes s !! Type_ x)) →
  ∃ p' types', mwhen (truthy (Type_ x)) (
      add_type_objects (Type_ x) (-1);;
      ty ← get_type (Type_ x);
      mwhen (truthy (DeleteProcedure ty)) (DeleteProc (DeleteProcedure ty) body)) s =
    Ok (tt, set_ob_pool p' (set_ObTypes types' s)) ∧ pcr p' = pcr (ob_pool s) ∧
    ob_mem p' (ObHeaders s) types' ∧ tag_of types' x = tag_of (ObTypes s) x ∧
    (Type_ x ≠ 0 → is_Some (types' !! Type_ x)) ∧
    (types' = ObTypes s ∨ ∃ y y', ObTypes s !! Type_ x = Some y ∧ types' = <[Type_ x := y']> (ObTypes s)).
Proof.
  intros Hdel Hc Hm Hty. unfold mwhen at 1, truthy. destruct (Type_ x =? 0) eqn:E; simpl.
  { exists (ob_pool s), (ObTypes s). split_and!; try done; [by destruct s|lia|by left]. }
  destruct Hty as [?|[y Hy]]; [lia|].
  erewrite bind_ok; [|by apply add_objects_run]. set (y' := mkType _ _ _ _ _).
  unfold get_type. erewrite deref_bind; [|apply lookup_insert_eq]. set (types' := <[Type_ x := y']> (ObTypes s)).
  assert (Hm' : ob_mem (ob_pool s) (ObHeaders s) types') by (by apply (mem_type _ _ _ _ y)).
  assert (Htag : tag_of types' x = tag_of (ObTypes s) x).
  { unfold tag_of, types'. rewrite E, lookup_insert_eq, Hy. done. }
  assert (Hin : is_Some (types' !! Type_ x)) by (unfold types'; rewrite lookup_insert_eq; eauto).
  unfold mwhen, truthy. cbn [y' DeleteProcedure]. destruct (DeleteProcedure y =? 0); simpl.
  - exists (ob_pool s), types'. split_and!; try done. right. eauto.
  - destruct (Hdel (DeleteProcedure y) (set_ObTypes types' s)) as (p' & Hr & Hp & Hm2); [done..|].
    exists p', types'. split_and!; try done. right. eauto.
Qed.

Lemma deref_keep_run s h x :
  ObHeaders s !! h = Some x → 0 < s64 (PointerCount x - 1) →
  ObDereferenceObject (HEADER_TO_BODY h) s = Ok (tt, with_hdr h (ref_hdr x (-1)) s).
Proof.
  intros Hx Hgt. unfold ObDereferenceObject. rewrite b2h_h2b. cbn zeta.
  unfold get_hdr. erewrite deref_bind by done.
  erewrite bind_ok; [|reflexivity]. replace (0 <=? _) with true by lia.
  erewrite bind_ok; [|reflexivity]. unfold mwhen at 1.
  by replace (s64 (PointerCount x - 1) =? 0) with false by lia.
Qed.

(** The last reference: the object leaves the namespace, its delete procedure
    runs, and its memory is returned. *)
Lemma deref_free_run s ext h x :
  delete_ok_for (HEADER_TO_BODY h) → ob_wf s ext → can_lock (pcr s) → ObHeaders s !! h = Some x →
  PointerCount x = 1 → slots (ObpHandleTable s) h = 0 →
  ∃ s', ObDereferenceObject (HEADER_TO_BODY h) s = Ok (tt, s') ∧
    ob_wf s' (bump ext h (-1)) ∧ pcr s' = pcr s ∧
    ObHeaders s' = delete h (ObHeaders s) ∧ ObpHandleTable s' = ObpHandleTable s.
Proof.
  intros Hdel [Hinv Hpos] Hc Hx Hpc Hsl. pose proof Hinv as [Hcore Hmem Hlk].
  unfold ObDereferenceObject. rewrite b2h_h2b. cbn zeta.
  unfold get_hdr. erewrite deref_bind by done. rewrite Hpc. erewrite bind_ok; [|reflexivity].
  change (s64 (1 - 1)) with 0. erewrite bind_ok; [|reflexivity]. unfold mwhen at 1. cbn [Z.eqb].
  set (x0 := mkHdr 0 (HandleCount x) (Type_ x) (Name x)). set (s1 := with_hdr h x0 s).
  change (set_ObHeaders (<[h:=x0]> (ObHeaders s)) s) with s1.
  erewrite bind_ok; [|by apply unname_run]. set (s2 := if truthy _ then unname h s1 else s1).
  assert (Hs2 : ob_pool s2 = ob_pool s ∧ ObHeaders s2 = <[h := x0]> (ObHeaders s) ∧
    ObTypes s2 = ObTypes s ∧ ObpHandleTable s2 = ObpHandleTable s ∧ ObpLock s2 = 0).
  { unfold s2. destruct (truthy _); done. }
  destruct Hs2 as (Hp2 & Hh2 & Ht2 & Htab2 & Hl2).
  destruct (unname_elem s h _ x ext Hinv Hx eq_refl) as [Hnd Hnm].
  assert (Hn2 : ObpNamedObjectHead s2 =
    ObpNamedObjectHead (if truthy (Length (Name x)) then unname h s else s)).
  { unfold s2. by destruct (truthy _). }
  destruct (type_delete_run s2 x0 (HEADER_TO_BODY h) Hdel) as (p' & types' & Hr & Hp' & Hm' & Htag & Hin & Hty').
  { simpl. by rewrite Hp2. }
  { rewrite Hp2, Hh2, Ht2. by apply (mem_put _ _ _ _ x). }
  { rewrite Ht2. apply (c_type _ _ _ _ _ Hcore h x Hx). }
  erewrite bind_ok; [|exact Hr]. set (s3 := set_ob_pool p' (set_ObTypes types' s2)).
  assert (Hkey : key_of (Type_ x) s3 = Ok (tag_of types' x0, s3)).
  { unfold key_of, tag_of. simpl. destruct (Type_ x =? 0) eqn:E; [done|].
    destruct (Hin ltac:(simpl; lia)) as [y Hy]. simpl in Hy. unfold get_type.
    erewrite deref_bind by exact Hy. by rewrite Hy. }
  erewrite bind_ok; [|exact Hkey].
  destruct (mem_free p' _ types' h x0 Hm') as (p4 & Hr4 & Hp4 & Hm4).
  { by rewrite Hh2, lookup_insert_eq. } { by rewrite Hp', Hp2. }
  erewrite bind_ok; [|apply zoom_ok; exact Hr4]. eexists. split; [reflexivity|].
  rewrite Hh2, delete_insert_eq in Hm4. simpl. rewrite Hh2, delete_insert_eq.
  split_and!; [|by rewrite Hp4, Hp', Hp2|done|done].
  split; [constructor; simpl; rewrite ?Hh2, ?delete_insert_eq; [|done|done]|].
  - rewrite Htab2, Hn2. apply (core_delete _ _ (ObpNamedObjectHead s) _ _ ext _ h x); try done.
    + destruct Hty' as [->|(y & y' & Hy & ->)]; rewrite Ht2 in *; [done|]. by eapply core_type.
    + intros a Ha. unfold bump. by replace (a =? h) with false by lia.
  - simpl. intros a y [_ Hy]%lookup_delete_Some. eauto.
Qed.

Lemma deref_run s ext h x :
  delete_ok_for (HEADER_TO_BODY h) → ob_wf s ext → can_lock (pcr s) → ObHeaders s !! h = Some x → 1 ≤ ext h →
  ∃ s', ObDereferenceObject (HEADER_TO_BODY h) s = Ok (tt, s') ∧
    ob_wf s' (bump ext h (-1)) ∧ pcr s' = pcr s ∧ ObpHandleTable s' = ObpHandleTable s ∧
    ObHeaders s' = if PointerCount x =? 1 then delete h (ObHeaders s)
                   else <[h := ref_hdr x (-1)]> (ObHeaders s).
Proof.
  intros Hdel Hwf Hc Hx Hext. pose proof (count_bounds s ext h x (proj1 Hwf) Hx) as (H1 & H2 & H3 & H4).
  destruct (PointerCount x =? 1) eqn:E.
  - destruct (deref_free_run s ext h x) as (s' & Hr & Hw & Hp & Hh & Ht); try done; [lia..|].
    exists s'. split_and!; done.
  - eexists. split; [apply deref_keep_run; [done|rewrite s64_small; lia]|].
    split_and!; try done. apply unref_wf; try done. lia.
Qed.

(** ** The handle table *)

Lemma hdr_pos p hdrs types h x :
  ob_mem p hdrs types → hdrs !! h = Some x → 0 < h < 9223372036854775808.
Proof. intros (m & Hm & Hh & _ & _) Hx. eapply pool_rep_pos; [exact Hm|]. by apply Hh. Qed.

Lemma slots_insert table i b b' h :
  table !! i = Some b →
  slots (<[i := b']> table) h =
  slots table h - (if b =? HEADER_TO_BODY h then 1 else 0) + (if b' =? HEADER_TO_BODY h then 1 else 0).
Proof. intros Hb. unfold slots. by rewrite (countb_insert _ _ _ b). Qed.

(** One slot changes between empty and the object [h], and the header with
    it. *)
Lemma core_slot hdrs types named table ext ext' i b b' h x x' :
  ob_core hdrs types named table ext → hdrs !! h = Some x →
  (∀ a y, hdrs !! a = Some y → 0 < a) →
  table !! i = Some b → (b = 0 ∧ b' = HEADER_TO_BODY h) ∨ (b = HEADER_TO_BODY h ∧ b' = 0) →
  (∀ a, a ≠ h → ext' a = ext a) →
  PointerCount x' = ext' h + slots (<[i := b']> table) h →
  HandleCount x' = slots (<[i := b']> table) h → 0 ≤ ext' h < 4611686018427387904 →
  Type_ x' = Type_ x → Name x' = Name x → 0 < PointerCount x → 0 < PointerCount x' →
  ob_core (<[h := x']> hdrs) types named (<[i := b']> table) ext'.
Proof.
  intros [Hlen Hcnt Hslots Hty Hnd Hnm] Hx Hpos Hi Hbb Hext Hp Hh Hb Ht Hn Hp0 Hp1.
  assert (Hne0 : ∀ a y, hdrs !! a = Some y → HEADER_TO_BODY a ≠ 0).
  { intros a y Hy. pose proof (Hpos a y Hy). unfold HEADER_TO_BODY, sizeof_OBJECT_HEADER. lia. }
  constructor; try done.
  - by rewrite length_insert.
  - intros a y. destruct (decide (a = h)) as [->|Hne].
    + rewrite lookup_insert_eq. intros [= <-]. done.
    + rewrite lookup_insert_ne by done. intros Hy. rewrite Hext by done.
      rewrite (slots_insert _ _ b) by done. pose proof (Hne0 a y Hy).
      destruct (Hcnt a y Hy) as (? & ? & ?).
      assert ((b =? HEADER_TO_BODY a) = false ∧ (b' =? HEADER_TO_BODY a) = false) as [-> ->].
      { unfold HEADER_TO_BODY in *. lia. }
      split_and!; lia.
  - intros j c. destruct (decide (j = i)) as [->|Hj].
    + rewrite list_lookup_insert_eq by (by eapply lookup_lt_Some). intros [= <-] Hc.
      destruct Hbb as [[_ ->]|[_ ->]]; [|done]. rewrite b2h_h2b, lookup_insert_eq. eauto.
    + rewrite list_lookup_insert_ne by done. intros Hj' Hc.
      destruct (decide (BODY_TO_HEADER c = h)) as [->|?]; [rewrite lookup_insert_eq; eauto|].
      rewrite lookup_insert_ne by done. eauto.
  - intros a y. destruct (decide (a = h)) as [->|Hne].
    + rewrite lookup_insert_eq. intros [= <-]. rewrite Ht. eauto.
    + rewrite lookup_insert_ne by done. eauto.
  - intros a. rewrite Hnm. destruct (decide (a = h)) as [->|Hne].
    + rewrite lookup_insert_eq, Hx. split; intros (y & [= <-] & Hl & Hy).
      * exists x'. by rewrite Hn.
      * exists x. by rewrite Hn in Hl.
    + by rewrite lookup_insert_ne.
Qed.

(** The handle counter of a type, when the object has one. *)
Lemma type_handles_run s x d :
  (Type_ x = 0 ∨ is_Some (ObTypes s !! Type_ x)) →
  ∃ types', mwhen (truthy (Type_ x)) (add_type_handles (Type_ x) d) s = Ok (tt, set_ObTypes types' s) ∧
    (∀ p hdrs, ob_mem p hdrs (ObTypes s) → ob_mem p hdrs types') ∧
    (∀ hdrs named table ext, ob_core hdrs (ObTypes s) named table ext →
       ob_core hdrs types' named table ext).
Proof.
  intros Hty. unfold mwhen, truthy. destruct (Type_ x =? 0) eqn:E; simpl.
  - exists (ObTypes s). split; [by destruct s|done].
  - destruct Hty as [?|[y Hy]]; [lia|]. eexists. split; [by apply add_handles_run|]. split.
    + intros p hdrs Hm. by apply (mem_type _ _ _ _ y).
    + intros. by eapply core_type.
Qed.

Definition put_slot (i : nat) (b : Z) (s : OB) : OB :=
  set_ObpHandleTable (<[i := b]> (ObpHandleTable s)) s.

Lemma framed_slot i b : framed ObLock (put_slot i b).
Proof. by constructor. Qed.

Lemma insert_run s ext h x :
  ob_wf s ext → can_lock (pcr s) → ObHeaders s !! h = Some x →
  match first_idx (λ b, b =? 0) (ObpHandleTable s) with
  | None => ObInsertHandle (HEADER_TO_BODY h) s = Ok ((STATUS_INSUFFICIENT_RESOURCES, 0), s)
  | Some i => ∃ s', ObInsertHandle (HEADER_TO_BODY h) s =
        Ok ((STATUS_SUCCESS, INDEX_TO_HANDLE (Z.of_nat i)), s') ∧ ob_wf s' ext ∧ pcr s' = pcr s ∧
        ObpHandleTable s' = <[i := HEADER_TO_BODY h]> (ObpHandleTable s) ∧
        ∃ x', ObHeaders s' = <[h := x']> (ObHeaders s) ∧ Type_ x' = Type_ x
  end.
Proof.
  intros [Hinv Hpos] Hc Hx. pose proof Hinv as [Hcore Hmem Hlk].
  pose proof (count_bounds s ext h x Hinv Hx) as (H1 & H2 & H3 & H4). pose proof (Hpos h x Hx).
  pose proof (hdr_pos _ _ _ h x Hmem Hx) as Hh0.
  destruct (first_idx _ _) as [i|] eqn:Hi; unfold ObInsertHandle; rewrite acquire_bind by done;
    unfold mbind at 1, M_bind at 1; cbn [mgets]; change (ObpHandleTable (locked ObLock s)) with (ObpHandleTable s);
    rewrite Hi.
  - apply first_idx_Some in Hi as [(b & Hb & Hb0%Z.eqb_eq) _]. subst b.
    erewrite bind_ok; [|reflexivity].
    change (set_ObpHandleTable _ (locked ObLock s)) with (put_slot i (HEADER_TO_BODY h) (locked ObLock s)).
    rewrite release_bind; [|done..|apply framed_slot]. cbn [fst].
    set (s1 := put_slot i (HEADER_TO_BODY h) s). unfold mwhen at 1. change (NT_SUCCESS STATUS_SUCCESS) with true.
    cbn zeta. rewrite b2h_h2b.
    set (x2 := mkHdr (s64 (PointerCount x + 1)) (s64 (HandleCount x + 1)) (Type_ x) (Name x)).
    set (s2 := with_hdr h x2 (with_hdr h (ref_hdr x 1) s1)).
    destruct (type_handles_run s2 x 1) as (types' & Hr & Hm' & Hc').
    { apply (c_type _ _ _ _ _ Hcore h x Hx). }
    erewrite bind_ok.
    2: { erewrite bind_ok; [|by apply ref_run]. unfold get_hdr.
         erewrite deref_bind by apply lookup_insert_eq.
         erewrite bind_ok; [|reflexivity]. cbn [ref_hdr HandleCount PointerCount Type_ Name].
         exact Hr. }
    eexists. split; [reflexivity|]. simpl. rewrite insert_insert_eq.
    assert (Hs : slots (<[i:=HEADER_TO_BODY h]> (ObpHandleTable s)) h = slots (ObpHandleTable s) h + 1).
    { rewrite (slots_insert _ _ 0) by done. rewrite Z.eqb_refl.
      replace (0 =? HEADER_TO_BODY h) with false by (unfold HEADER_TO_BODY, sizeof_OBJECT_HEADER; lia). lia. }
    split_and!; [|done|done|by exists x2].
    split; [constructor; simpl; rewrite ?insert_insert_eq; [|by apply Hm', (mem_put _ _ _ _ x)|done]|].
    + apply Hc', (core_slot _ _ _ _ ext _ _ 0 _ _ x); try done; simpl; rewrite ?Hs, ?s64_small; try lia.
      intros a y Hy. by apply (hdr_pos _ _ _ a y Hmem).
    + simpl. rewrite insert_insert_eq. intros a y. destruct (decide (a = h)) as [->|Hne].
      * rewrite lookup_insert_eq. intros [= <-]. simpl. rewrite s64_small; lia.
      * rewrite lookup_insert_ne by done. apply Hpos.
  - erewrite bind_ok; [|reflexivity].
    change (locked ObLock s) with (id (locked ObLock s)).
    rewrite release_bind; [|done..|apply framed_id]. done.
Qed.

Lemma bump_bump ext h : ∀ a, bump (bump ext h 1) h (-1) a = ext a.
Proof. intros a. unfold bump. destruct (a =? h); lia. Qed.

Lemma core_ext hdrs types named table ext ext' :
  (∀ a, ext' a = ext a) → ob_core hdrs types named table ext → ob_core hdrs types named table ext'.
Proof.
  intros He [Hlen Hcnt Hslots Hty Hnd Hnm]. constructor; try done.
  intros h x Hx. rewrite He. by apply Hcnt.
Qed.

Lemma wf_ext s ext ext' : (∀ a, ext' a = ext a) → ob_wf s ext → ob_wf s ext'.
Proof.
  intros He [[Hc Hm Hl] Hp]. split; [|done]. constructor; [|done|done]. by eapply core_ext.
Qed.

Lemma table_get_Some s ext idx :
  ob_inv s ext → 0 ≤ idx < OBP_HANDLE_TABLE_SIZE → table_get idx s ≠ 0 →
  ObpHandleTable s !! Z.to_nat idx = Some (table_get idx s) ∧
  ∃ x, ObHeaders s !! BODY_TO_HEADER (table_get idx s) = Some x.
Proof.
  intros [Hc _ _] Hi H0. unfold table_get in *.
  destruct (lookup_lt_is_Some_2 (ObpHandleTable s) (Z.to_nat idx)) as [b Hb].
  { pose proof (c_len _ _ _ _ _ Hc). lia. }
  rewrite Hb in *. simpl in *. split; [done|]. apply (c_slots _ _ _ _ _ Hc _ b Hb H0).
Qed.

Lemma h2i_bounds H : 0 ≤ HANDLE_TO_INDEX H.
Proof. unfold HANDLE_TO_INDEX, u64. apply Z.mod_pos_bound. lia. Qed.

Lemma by_handle_run s ext H ty :
  delete_ok → ob_wf s ext → can_lock (pcr s) →
  let idx := HANDLE_TO_INDEX H in
  let body := table_get idx s in
  let h := BODY_TO_HEADER body in
  (OBP_HANDLE_TABLE_SIZE ≤ idx ∨ body = 0 →
     ObReferenceObjectByHandle H ty s = Ok ((STATUS_INVALID_HANDLE, 0), s)) ∧
  (idx < OBP_HANDLE_TABLE_SIZE → body ≠ 0 → ext h + 1 < 4611686018427387904 →
   ∃ x, ObHeaders s !! h = Some x ∧
     (ty ≠ 0 ∧ Type_ x ≠ ty →
        ObReferenceObjectByHandle H ty s = Ok ((STATUS_ACCESS_DENIED, 0), s)) ∧
     (ty = 0 ∨ Type_ x = ty →
        ObReferenceObjectByHandle H ty s = Ok ((STATUS_SUCCESS, body), with_hdr h (ref_hdr x 1) s))).
Proof.
  intros Hdel Hwf Hc idx body h. pose proof (h2i_bounds H) as Hi. pose proof (proj1 Hwf) as Hinv.
  pose proof (oi_lock _ _ Hinv) as Hl. fold idx in Hi. split.
  - intros Hbad. unfold ObReferenceObjectByHandle. fold idx. destruct (OBP_HANDLE_TABLE_SIZE <=? idx) eqn:E; [done|].
    destruct Hbad as [?|Hb]; [lia|].
    rewrite acquire_bind by done. unfold mbind at 1, M_bind at 1. cbn [mgets].
    change (table_get idx (locked ObLock s)) with body. rewrite Hb.
    erewrite bind_ok; [|reflexivity]. change (locked ObLock s) with (id (locked ObLock s)).
    by rewrite release_bind; [|done..|apply framed_id].
  - intros Hlt Hb Hext. destruct (table_get_Some s ext idx Hinv) as [Htab [x Hx]]; [lia|done|].
    fold body in Hx. fold h in Hx. exists x. split; [done|].
    assert (Hcommon : ObReferenceObjectByHandle H ty s =
      (if truthy ty && negb (Type_ x =? ty) then ObDereferenceObject body;; mret (STATUS_ACCESS_DENIED, 0)
       else mret (STATUS_SUCCESS, body)) (with_hdr h (ref_hdr x 1) s)).
    { unfold ObReferenceObjectByHandle. fold idx.
      replace (OBP_HANDLE_TABLE_SIZE <=? idx) with false by lia.
      rewrite acquire_bind by done. unfold mbind at 1, M_bind at 1. cbn [mgets].
      change (table_get idx (locked ObLock s)) with body.
      replace (truthy body) with true by (unfold truthy; lia). unfold mwhen.
      replace (body =? 0) with false by lia.
      erewrite bind_ok; [|rewrite <- (h2b_b2h body); apply ref_run; exact Hx].
      rewrite release_bind; [|done..|apply framed_hdr]. unfold get_hdr.
      erewrite deref_bind by apply lookup_insert_eq. done. }
    rewrite Hcommon. split.
    + intros [Hty Hne]. unfold truthy. replace (negb (ty =? 0) && negb (Type_ x =? ty)) with true by lia.
      pose proof (count_bounds s ext h x Hinv Hx) as (H1 & H2 & H3 & H4). pose proof (proj2 Hwf h x Hx).
      rewrite <- (h2b_b2h body). fold h.
      erewrite bind_ok; [|apply deref_keep_run; [apply lookup_insert_eq|
        simpl; rewrite (s64_small (PointerCount x + 1)) by lia; rewrite s64_small; lia]].
      unfold mret, M_ret. do 2 f_equal. destruct s as [p tys hs tl nl tb l f1 f2].
      unfold with_hdr, set_ObHeaders, ref_hdr; simpl in *. rewrite insert_insert_eq. f_equal.
      apply insert_id. rewrite Hx. f_equal. destruct x as [pc hc t nm]; simpl in *.
      f_equal. rewrite (s64_small (pc + 1)) by lia. rewrite s64_small; lia.
    + intros Hty. unfold truthy. by replace (negb (ty =? 0) && negb (Type_ x =? ty)) with false by lia.
Qed.

Lemma close_run s ext H :
  delete_ok → ob_wf s ext → can_lock (pcr s) →
  let idx := HANDLE_TO_INDEX H in
  let body := table_get idx s in
  let h := BODY_TO_HEADER body in
  (OBP_HANDLE_TABLE_SIZE ≤ idx ∨ body = 0 →
     ∃ s', ObCloseHandle H s = Ok (STATUS_INVALID_HANDLE, s') ∧ s' = s) ∧
  (idx < OBP_HANDLE_TABLE_SIZE → body ≠ 0 → ext h + 1 < 4611686018427387904 →
   ∃ x s', ObHeaders s !! h = Some x ∧ ObCloseHandle H s = Ok (STATUS_SUCCESS, s') ∧ ob_wf s' ext ∧
     pcr s' = pcr s ∧ ObpHandleTable s' = <[Z.to_nat idx := 0]> (ObpHandleTable s) ∧
     (is_Some (ObHeaders s' !! h) ↔ PointerCount x ≠ 1) ∧
     (∀ a y y', ObHeaders s !! a = Some y → ObHeaders s' !! a = Some y' → Type_ y' = Type_ y)).
Proof.
  intros Hdel [Hinv Hpos] Hc idx body h. pose proof (h2i_bounds H) as Hi.
  pose proof Hinv as [Hcore Hmem Hl]. fold idx in Hi. unfold ObCloseHandle. fold idx. split.
  - intros Hbad. exists s. split; [|done]. destruct (OBP_HANDLE_TABLE_SIZE <=? idx) eqn:E; [done|].
    destruct Hbad as [?|Hb]; [lia|].
    rewrite acquire_bind by done. unfold mbind at 1, M_bind at 1. cbn [mgets].
    change (table_get idx (locked ObLock s)) with body. rewrite Hb.
    erewrite bind_ok; [|reflexivity].
    change (set_ObpHandleTable _ (locked ObLock s)) with (put_slot (Z.to_nat idx) 0 (locked ObLock s)).
    rewrite release_bind; [|done..|apply framed_slot]. cbn [Z.eqb]. unfold mret, M_ret. do 2 f_equal.
    destruct (lookup_lt_is_Some_2 (ObpHandleTable s) (Z.to_nat idx)) as [b Hb'].
    { pose proof (c_len _ _ _ _ _ Hcore). lia. }
    assert (b = 0) by (unfold body, table_get in Hb; rewrite Hb' in Hb; done). subst b.
    destruct s; unfold put_slot, set_ObpHandleTable; simpl in *. f_equal. by apply list_insert_id.
  - intros Hlt Hb Hext. destruct (table_get_Some s ext idx Hinv) as [Htab [x Hx]]; [lia|done|].
    fold body in Htab, Hx. fold h in Hx.
    pose proof (count_bounds s ext h x Hinv Hx) as (H1 & H2 & H3 & H4). pose proof (Hpos h x Hx) as Hpx.
    assert (Hbody : body = HEADER_TO_BODY h) by (unfold h; by rewrite h2b_b2h).
    assert (Hs : slots (<[Z.to_nat idx := 0]> (ObpHandleTable s)) h = slots (ObpHandleTable s) h - 1).
    { rewrite (slots_insert _ _ body) by done. rewrite Hbody, Z.eqb_refl.
      replace (0 =? HEADER_TO_BODY h) with false by lia. lia. }
    assert (1 ≤ slots (ObpHandleTable s) h).
    { apply (countb_elem _ _ (Z.to_nat idx) body Htab). lia. }
    set (x1 := mkHdr (PointerCount x) (s64 (HandleCount x - 1)) (Type_ x) (Name x)).
    set (s1 := with_hdr h x1 (put_slot (Z.to_nat idx) 0 s)).
    destruct (type_handles_run s1 x (-1)) as (types' & Hr & Hm' & Hc').
    { apply (c_type _ _ _ _ _ Hcore h x Hx). }
    assert (Hwf1 : ob_wf (set_ObTypes types' s1) (bump ext h 1)).
    { split; [constructor; simpl; [|by apply Hm', (mem_put _ _ _ _ x)|done]|].
      - apply Hc', (core_slot _ _ _ _ ext _ _ body _ _ x); try done; unfold bump; simpl;
          rewrite ?Z.eqb_refl, ?Hs, ?s64_small; try lia.
        + intros a y Hy. by apply (hdr_pos _ _ _ a y Hmem).
        + intros a Ha. by replace (a =? h) with false by lia.
      - simpl. intros a y. destruct (decide (a = h)) as [->|Hne].
        + rewrite lookup_insert_eq. by intros [= <-].
        + rewrite lookup_insert_ne by done. apply Hpos. }
    destruct (deref_run _ _ h x1 (Hdel _) Hwf1) as (s' & Hd & Hw & Hp & Ht & Hh).
    { done. } { simpl. apply lookup_insert_eq. } { unfold bump. rewrite Z.eqb_refl. lia. }
    exists x, s'. split; [done|]. split_and!; [|by eapply wf_ext; [|exact Hw]; intros a; rewrite bump_bump|done|done| |].
    + replace (OBP_HANDLE_TABLE_SIZE <=? idx) with false by lia.
      rewrite acquire_bind by done. unfold mbind at 1, M_bind at 1. cbn [mgets].
      change (table_get idx (locked ObLock s)) with body. erewrite bind_ok; [|reflexivity].
      change (set_ObpHandleTable _ (locked ObLock s)) with (put_slot (Z.to_nat idx) 0 (locked ObLock s)).
      rewrite release_bind; [|done..|apply framed_slot]. replace (body =? 0) with false by lia.
      cbn zeta. fold h. unfold get_hdr. erewrite deref_bind by exact Hx.
      erewrite bind_ok; [|reflexivity]. erewrite bind_ok; [|exact Hr].
      rewrite Hbody. erewrite bind_ok; [|exact Hd]. done.
    + rewrite Hh. simpl. destruct (PointerCount x =? 1) eqn:E.
      * rewrite delete_insert_eq, lookup_delete_eq. split; [by intros [? ?]|lia].
      * rewrite insert_insert_eq, lookup_insert_eq. split; [lia|eauto].
    + intros a y y' Hy. rewrite Hh. simpl. destruct (decide (a = h)) as [->|Hne]; destruct (PointerCount x =? 1);
        rewrite ?lookup_delete_eq, ?lookup_insert_eq, ?lookup_delete_ne, ?lookup_insert_ne by done;
        intros [=]; subst; simpl; congruence.
Qed.

(** ** Creation *)

Definition fresh_ext (ext : Z → Z) (h : Z) : Z → Z := λ a, if a =? h then 1 else ext a.

Lemma core_create hdrs types named table ext h x :
  ob_core hdrs types named table ext → hdrs !! h = None → 0 < h →
  PointerCount x = 1 → HandleCount x = 0 → (Type_ x = 0 ∨ is_Some (types !! Type_ x)) →
  ob_core (<[h := x]> hdrs) types (if truthy (Length (Name x)) then named ++ [h] else named)
    table (fresh_ext ext h).
Proof.
  intros [Hlen Hcnt Hslots Hty Hnd Hnm] Hnone Hh Hp Hhc Ht.
  assert (Hs : slots table h = 0).
  { unfold slots. apply countb_zero. intros i b Hb. destruct (b =? HEADER_TO_BODY h) eqn:E; [|done].
    exfalso. apply Z.eqb_eq in E as ->. destruct (Hslots i _ Hb) as [y Hy].
    - unfold HEADER_TO_BODY, sizeof_OBJECT_HEADER. lia.
    - rewrite b2h_h2b in Hy. congruence. }
  assert (Hnot : h ∉ named) by (rewrite Hnm; intros (y & Hy & _); congruence).
  constructor; try done.
  - intros a y. unfold fresh_ext. destruct (decide (a = h)) as [->|Hne].
    + rewrite lookup_insert_eq, Z.eqb_refl. intros [= <-]. lia.
    + rewrite lookup_insert_ne by done. replace (a =? h) with false by lia. apply Hcnt.
  - intros i b Hi Hb. destruct (decide (BODY_TO_HEADER b = h)) as [->|Hne].
    + rewrite lookup_insert_eq. eauto.
    + rewrite lookup_insert_ne by done. eauto.
  - intros a y. destruct (decide (a = h)) as [->|Hne].
    + rewrite lookup_insert_eq. by intros [= <-].
    + rewrite lookup_insert_ne by done. eauto.
  - destruct (truthy _); [|done]. apply NoDup_app. split_and!; [done| |apply NoDup_singleton].
    intros a Ha ->%list_elem_of_singleton. done.
  - intros a. destruct (decide (a = h)) as [->|Hne].
    + rewrite lookup_insert_eq. unfold truthy. destruct (Length (Name x) =? 0) eqn:E; simpl.
      * split; [done|]. intros (y & [= <-] & ? & _). lia.
      * rewrite elem_of_app, list_elem_of_singleton. split; [|auto]. intros _. exists x. split_and!; [done|lia..].
    + rewrite lookup_insert_ne, <- Hnm by done. destruct (truthy _); [|done].
      rewrite elem_of_app, list_elem_of_singleton. tauto.
Qed.

Lemma mem_create p' m hdrs types h x :
  pool_rep p' (<[h := tag_of types x]> m) → m !! h = None →
  (∀ h x, hdrs !! h = Some x → m !! h = Some (tag_of types x)) →
  (∀ t y, types !! t = Some y → m !! t = Some TAG_OBJT) →
  (∀ h, is_Some (hdrs !! h) → types !! h = None) →
  hdrs !! h = None ∧ ob_mem p' (<[h := x]> hdrs) types.
Proof.
  intros Hp' Hm Hh Ht Hd. split.
  - apply eq_None_not_Some. intros [y Hy]. rewrite (Hh h y Hy) in Hm. done.
  - eexists. split_and!; [exact Hp'|..].
    + intros a y. destruct (decide (a = h)) as [->|Hne].
      * rewrite lookup_insert_eq. intros [= <-]. by rewrite lookup_insert_eq.
      * rewrite !lookup_insert_ne by done. apply Hh.
    + intros a y Hy. rewrite lookup_insert_ne; [eauto|]. intros ->. rewrite (Ht a y Hy) in Hm. done.
    + intros a. destruct (decide (a = h)) as [->|Hne].
      * intros _. apply eq_None_not_Some. intros [y Hy]. rewrite (Ht h y Hy) in Hm. done.
      * rewrite lookup_insert_ne by done. apply Hd.
Qed.

Definition stored_name (Nm : option UNICODE_STRING) : UNICODE_STRING :=
  match Nm with
  | Some n => if truthy (Length n) then n else mkUS 0 0 []
  | None => mkUS 0 0 []
  end.

Lemma framed_name h : framed ObLock (λ s : OB, set_ObpNamed (ObpNamedObjectHead s ++ [h]) s).
Proof. by constructor. Qed.

(** Storing the header and linking a named object. *)
Lemma store_run s h ty Nm :
  can_lock (pcr s) → ObpLock s = 0 →
  let x := mkHdr 1 0 ty (stored_name Nm) in
  match Nm with
  | Some n =>
      if truthy (Length n) then
        put_hdr h (mkHdr 1 0 ty n);;
        irql ← KeAcquireSpinLock ObLock;
        mmod (λ s, set_ObpNamed (ObpNamedObjectHead s ++ [h]) s);;
        KeReleaseSpinLock ObLock irql
      else put_hdr h (mkHdr 1 0 ty (mkUS 0 0 []))
  | None => put_hdr h (mkHdr 1 0 ty (mkUS 0 0 []))
  end s =
  Ok (tt, set_ObpNamed (if truthy (Length (stored_name Nm)) then ObpNamedObjectHead s ++ [h]
                        else ObpNamedObjectHead s) (with_hdr h x s)).
Proof.
  intros Hc Hl. simpl. destruct Nm as [n|]; simpl; [|by destruct s].
  destruct (truthy (Length n)) eqn:E; simpl; [|by destruct s]. rewrite E.
  erewrite bind_ok; [|reflexivity]. rewrite acquire_bind by done. erewrite bind_ok; [|reflexivity].
  pose proof (release_framed ObLock _ (with_hdr h (mkHdr 1 0 ty n) s) Hc Hl (framed_name h)) as Hr.
  simpl in Hr. exact Hr.
Qed.

Lemma create_run_table s ext ty n Nm :
  ob_wf s ext → can_lock (pcr s) → (ty = 0 ∨ is_Some (ObTypes s !! ty)) →
  0 ≤ n < 18446744073709551560 →
  ∃ st body s', ObCreateObject ty n Nm s = Ok ((st, body), s') ∧ pcr s' = pcr s ∧
    ObpHandleTable s' = ObpHandleTable s ∧
    ((st = STATUS_INSUFFICIENT_RESOURCES ∧ body = 0 ∧ ob_wf s' ext ∧ ObHeaders s' = ObHeaders s) ∨
     ∃ h, st = STATUS_SUCCESS ∧ body = HEADER_TO_BODY h ∧ ObHeaders s !! h = None ∧
       ob_wf s' (fresh_ext ext h) ∧
       ObHeaders s' = <[h := mkHdr 1 0 ty (stored_name Nm)]> (ObHeaders s)).
Proof.
  intros [Hinv Hpos] Hc Hty Hn. pose proof Hinv as [Hcore (m & Hm & Hh & Ht & Hd) Hl].
  set (x := mkHdr 1 0 ty (stored_name Nm)).
  assert (Hkey : key_of ty s = Ok (tag_of (ObTypes s) x, s)).
  { unfold key_of, tag_of; simpl. destruct (ty =? 0) eqn:E; [done|]. destruct Hty as [?|[y Hy]]; [lia|].
    unfold get_type. erewrite deref_bind by exact Hy. by rewrite Hy. }
  unfold ObCreateObject. erewrite bind_ok; [|exact Hkey].
  unfold sizeof_OBJECT_HEADER. rewrite u64_small by lia.
  destruct (pool_alloc_law (ob_pool s) m 0 (56 + n) (tag_of (ObTypes s) x))
    as (a & p' & Hr & Hp & Hcase); [done|done|lia|].
  erewrite bind_ok; [|apply zoom_ok; exact Hr].
  destruct Hcase as [[-> Hm']|(Ha & Hfresh & Hm')].
  - eexists _, _, _. split; [reflexivity|]. split; [done|]. split; [done|]. left. split_and!; try done.
    split; [constructor; simpl; try done|done]. exists m. done.
  - replace (a =? 0) with false by lia. set (s1 := set_ob_pool p' s).
    destruct (mem_create p' m (ObHeaders s) (ObTypes s) a x) as [Hnone Hmem']; try done.
    erewrite bind_ok; [|apply store_run; [simpl; by rewrite Hp|done]]. cbn zeta. fold x.
    set (s2 := set_ObpNamed _ (with_hdr a x s1)).
    assert (Hcore' : ob_core (ObHeaders s2) (ObTypes s) (ObpNamedObjectHead s2) (ObpHandleTable s) (fresh_ext ext a)).
    { apply core_create; done. }
    assert (∃ types', mwhen (truthy ty) (add_type_objects ty 1) s2 = Ok (tt, set_ObTypes types' s2) ∧
      ob_mem p' (ObHeaders s2) types' ∧
      ob_core (ObHeaders s2) types' (ObpNamedObjectHead s2) (ObpHandleTable s) (fresh_ext ext a)) as (types' & Hr2 & Hm2 & Hc2).
    { unfold mwhen, truthy. destruct (ty =? 0) eqn:E; simpl.
      - exists (ObTypes s). by split_and!.
      - destruct Hty as [?|[y Hy]]; [lia|]. eexists. split; [by apply add_objects_run|]. split.
        + by eapply mem_type.
        + by eapply core_type. }
    erewrite bind_ok; [|exact Hr2]. eexists _, _, _. split; [reflexivity|]. split; [done|]. split; [done|].
    right. exists a. split_and!; try done. split; [by constructor|]. simpl. intros b y.
    destruct (decide (b = a)) as [->|Hne].
    + rewrite lookup_insert_eq. intros [= <-]. simpl. lia.
    + rewrite lookup_insert_ne by done. apply Hpos.
Qed.

Lemma create_run s ext ty n Nm :
  ob_wf s ext → can_lock (pcr s) → (ty = 0 ∨ is_Some (ObTypes s !! ty)) →
  0 ≤ n < 18446744073709551560 →
  ∃ st body s', ObCreateObject ty n Nm s = Ok ((st, body), s') ∧ pcr s' = pcr s ∧
    ((st = STATUS_INSUFFICIENT_RESOURCES ∧ body = 0 ∧ ob_wf s' ext ∧ ObHeaders s' = ObHeaders s) ∨
     ∃ h, st = STATUS_SUCCESS ∧ body = HEADER_TO_BODY h ∧ ObHeaders s !! h = None ∧
       ob_wf s' (fresh_ext ext h) ∧
       ObHeaders s' = <[h := mkHdr 1 0 ty (stored_name Nm)]> (ObHeaders s)).
Proof.
  intros Hwf Hc Hty Hn. destruct (create_run_table s ext ty n Nm) as (st & b & s' & Hr & Hp & _ & Hcase); [done..|].
  by exists st, b, s'.
Qed.

(** ** Names *)

Definition named_match (s : OB) (nm : UNICODE_STRING) (h : Z) : Prop :=
  ∃ x, ObHeaders s !! h = Some x ∧ RtlEqualUnicodeString (Name x) nm true = true.

Lemma find_named_spec s nm l :
  (∀ h, h ∈ l → is_Some (ObHeaders s !! h)) →
  ∃ r, find_named l nm s = Ok r ∧
    match r with
    | Some h => ∃ l1 l2, l = l1 ++ h :: l2 ∧ named_match s nm h ∧ ∀ a, a ∈ l1 → ¬ named_match s nm a
    | None => ∀ a, a ∈ l → ¬ named_match s nm a
    end.
Proof.
  induction l as [|h l IH]; intros Hall; simpl.
  { exists None. split; [done|]. intros a Ha. by apply not_elem_of_nil in Ha. }
  destruct (Hall h ltac:(left)) as [x Hx]. rewrite Hx.
  destruct (RtlEqualUnicodeString (Name x) nm true) eqn:E.
  - exists (Some h). split; [done|]. exists [], l. split_and!; [done|by exists x|].
    intros a Ha. by apply not_elem_of_nil in Ha.
  - assert (Hn : ¬ named_match s nm h) by (intros (y & Hy & He); congruence).
    destruct IH as (r & Hr & Hs); [intros a Ha; apply Hall; by right|].
    exists r. split; [done|]. destruct r as [b|].
    + destruct Hs as (l1 & l2 & -> & Hm & Hno). exists (h :: l1), l2. split_and!; [done|done|].
      intros a [->|Ha]%elem_of_cons; [done|by apply Hno].
    + intros a [->|Ha]%elem_of_cons; [done|by apply Hs].
Qed.

Lemma lookup_run s ext nm :
  ob_wf s ext → can_lock (pcr s) →
  (∃ l1 h x l2, ObpNamedObjectHead s = l1 ++ h :: l2 ∧ ObHeaders s !! h = Some x ∧
     RtlEqualUnicodeString (Name x) nm true = true ∧ (∀ a, a ∈ l1 → ¬ named_match s nm a) ∧
     ObLookupObjectByName nm s = Ok ((STATUS_SUCCESS, HEADER_TO_BODY h), with_hdr h (ref_hdr x 1) s)) ∨
  ((∀ a, a ∈ ObpNamedObjectHead s → ¬ named_match s nm a) ∧
   ObLookupObjectByName nm s = Ok ((STATUS_OBJECT_NAME_NOT_FOUND, 0), s)).
Proof.
  intros [Hinv Hpos] Hc. pose proof Hinv as [Hcore Hmem Hl].
  destruct (find_named_spec s nm (ObpNamedObjectHead s)) as (r & Hr & Hs).
  { intros h (x & Hx & _)%(c_named _ _ _ _ _ Hcore). eauto. }
  assert (Hf : find_name nm (locked ObLock s) = Ok (r, locked ObLock s)).
  { unfold find_name. change (ObpNamedObjectHead (locked ObLock s)) with (ObpNamedObjectHead s).
    assert (Heq : ∀ l, find_named l nm (locked ObLock s) = find_named l nm s)
      by (induction l as [|b l IH]; [done|]; cbn [find_named];
          change (ObHeaders (locked ObLock s)) with (ObHeaders s); by rewrite IH).
    by rewrite Heq, Hr. }
  unfold ObLookupObjectByName. destruct r as [h|].
  - left. destruct Hs as (l1 & l2 & Hn & (x & Hx & He) & Hno). exists l1, h, x, l2.
    split_and!; try done. rewrite acquire_bind by done. erewrite bind_ok; [|exact Hf].
    erewrite bind_ok; [|erewrite bind_ok; [reflexivity|by apply ref_run]].
    rewrite release_bind; [done|done|done|apply framed_hdr].
  - right. split; [done|]. rewrite acquire_bind by done. erewrite bind_ok; [|exact Hf].
    erewrite bind_ok; [|reflexivity]. change (locked ObLock s) with (id (locked ObLock s)).
    rewrite release_bind; [done|done|done|apply framed_id].
Qed.

(** ** Properties *)

(** The calls other components make. *)
Inductive ob_op :=
| OpCreate (ty n : Z) (nm : option UNICODE_STRING)
| OpReference (h : Z)
| OpDereference (h : Z)
| OpInsert (h : Z)
| OpByHandle (H ty : Z)
| OpClose (H : Z)
| OpLookup (nm : UNICODE_STRING).

Definition run_op (op : ob_op) : M OB (Z * Z) :=
  match op with
  | OpCreate ty n nm => ObCreateObject ty n nm
  | OpReference h => ObReferenceObject (HEADER_TO_BODY h);; mret (0, 0)
  | OpDereference h => ObDereferenceObject (HEADER_TO_BODY h);; mret (0, 0)
  | OpInsert h => ObInsertHandle (HEADER_TO_BODY h)
  | OpByHandle H ty => ObReferenceObjectByHandle H ty
  | OpClose H => st ← ObCloseHandle H; mret (st, 0)
  | OpLookup nm => ObLookupObjectByName nm
  end.

(** What the caller must ensure: it names live objects, and only gives back a
    reference it holds. *)
Definition allowed (op : ob_op) (s : OB) (ext : Z → Z) : Prop :=
  match op with
  | OpCreate ty n _ => (ty = 0 ∨ is_Some (ObTypes s !! ty)) ∧ 0 ≤ n < 18446744073709551560
  | OpReference h | OpInsert h => is_Some (ObHeaders s !! h)
  | OpDereference h => is_Some (ObHeaders s !! h) ∧ 1 ≤ ext h
  | _ => True
  end.

(** The references held by callers afterwards. *)
Definition after (op : ob_op) (r : Z * Z) (ext : Z → Z) : Z → Z :=
  let h := BODY_TO_HEADER r.2 in
  match op with
  | OpCreate _ _ _ => if r.1 =? STATUS_SUCCESS then fresh_ext ext h else ext
  | OpReference h => bump ext h 1
  | OpDereference h => bump ext h (-1)
  | OpInsert _ | OpClose _ => ext
  | OpByHandle _ _ | OpLookup _ => if r.1 =? STATUS_SUCCESS then bump ext h 1 else ext
  end.

(** The calls other than a close of the handle [H] (the two low bits of a
    handle are not part of its index). *)
Definition keeps_handle (H : Z) (op : ob_op) : Prop :=
  match op with OpClose H' => HANDLE_TO_INDEX H' ≠ HANDLE_TO_INDEX H | _ => True end.

(** No object changes its type while it lives, and a used slot of the handle
    table changes only when its handle is closed. *)
Definition op_keeps (op : ob_op) (s s' : OB) : Prop :=
  (∀ a y y', ObHeaders s !! a = Some y → ObHeaders s' !! a = Some y' → Type_ y' = Type_ y) ∧
  (∀ H b, keeps_handle H op → ObpHandleTable s !! Z.to_nat (HANDLE_TO_INDEX H) = Some b → b ≠ 0 →
     ObpHandleTable s' !! Z.to_nat (HANDLE_TO_INDEX H) = Some b).

Lemma keeps_same op s : op_keeps op s s.
Proof. split; [congruence|done]. Qed.
Lemma keeps_put op s s' h x x' :
  ObHeaders s !! h = Some x → ObHeaders s' = <[h := x']> (ObHeaders s) → Type_ x' = Type_ x →
  ObpHandleTable s' = ObpHandleTable s → op_keeps op s s'.
Proof.
  intros Hx Hh Hty Ht. split; [|by rewrite Ht]. intros a y y' Hy. rewrite Hh.
  destruct (decide (a = h)) as [->|Hne]; [rewrite lookup_insert_eq|rewrite lookup_insert_ne by done]; congruence.
Qed.
Lemma keeps_new op s s' h x :
  ObHeaders s !! h = None → ObHeaders s' = <[h := x]> (ObHeaders s) →
  ObpHandleTable s' = ObpHandleTable s → op_keeps op s s'.
Proof.
  intros Hx Hh Ht. split; [|by rewrite Ht]. intros a y y' Hy. rewrite Hh.
  destruct (decide (a = h)) as [->|Hne]; [congruence|rewrite lookup_insert_ne by done]; congruence.
Qed.
Lemma keeps_delete op s s' h :
  ObHeaders s' = delete h (ObHeaders s) → ObpHandleTable s' = ObpHandleTable s → op_keeps op s s'.
Proof.
  intros Hh Ht. split; [|by rewrite Ht]. intros a y y' Hy. rewrite Hh, lookup_delete_Some. intros [_ ?]. congruence.
Qed.

(** What every call does: it returns, keeps the invariant, the types of the
    objects and the slots of the handles that are not closed. *)
Lemma op_run op s ext :
  delete_ok → ob_wf s ext → can_lock (pcr s) → (∀ a, ext a + 1 < 4611686018427387904) → allowed op s ext →
  ∃ r s', run_op op s = Ok (r, s') ∧ ob_wf s' (after op r ext) ∧ pcr s' = pcr s ∧ op_keeps op s s'.
Proof.
  intros Hdel Hwf Hc Hb Hok. destruct op as [ty n nm|h|h|h|H ty|H|nm]; simpl in *.
  - destruct Hok as [Hty Hn].
    destruct (create_run_table s ext ty n nm)
      as (st & b & s' & Hr & Hp & Ht & [(-> & -> & Hw & Hh)|(h & -> & -> & Hnone & Hw & Hh)]);
      [done..| |]; eexists (_, _), s'; (split; [exact Hr|]); simpl; rewrite ?b2h_h2b; split_and!; try done.
    + split; [rewrite Hh; congruence|by rewrite Ht].
    + by eapply keeps_new.
  - destruct Hok as [x Hx]. eexists _, _. split; [erewrite bind_ok; [reflexivity|by apply ref_run]|].
    split_and!; [by apply ref_wf|done|by eapply keeps_put].
  - destruct Hok as [[x Hx] He]. destruct (deref_run s ext h x) as (s' & Hr & Hw & Hp & Ht & Hh); [done..|].
    eexists _, s'. split; [by erewrite bind_ok|]. split_and!; [done..|].
    destruct (PointerCount x =? 1); [by eapply keeps_delete|by eapply keeps_put].
  - destruct Hok as [x Hx]. pose proof (insert_run s ext h x Hwf Hc Hx) as Hi.
    destruct (first_idx _ _) as [i|] eqn:Ei; [|eexists _, s; split_and!; [done..|apply keeps_same]].
    destruct Hi as (s' & Hr & Hw & Hp & Ht & x' & Hh & Hty). eexists _, _. split_and!; [done..|].
    apply first_idx_Some in Ei as [(b0 & Hb0 & E0) _]. split.
    + intros a y y' Hy. rewrite Hh. destruct (decide (a = h)) as [->|Hne];
        [rewrite lookup_insert_eq|rewrite lookup_insert_ne by done]; congruence.
    + intros H b _ Hs Hne. rewrite Ht, list_lookup_insert_ne; [done|]. intros ->. simplify_eq. lia.
  - destruct (by_handle_run s ext H ty Hdel Hwf Hc) as [Hbad Hgood].
    pose proof (h2i_bounds H) as Hi. simpl in *.
    destruct (decide (OBP_HANDLE_TABLE_SIZE ≤ HANDLE_TO_INDEX H ∨ table_get (HANDLE_TO_INDEX H) s = 0)) as [Hd|Hd];
      [rewrite (Hbad Hd); eexists _, s; split_and!; [done..|apply keeps_same]|].
    destruct Hgood as (x & Hx & Hden & Hyes); [lia|lia|apply Hb|].
    destruct (decide (ty ≠ 0 ∧ Type_ x ≠ ty)) as [Ht|Ht].
    + rewrite (Hden Ht). eexists _, s. split_and!; [done..|apply keeps_same].
    + rewrite Hyes by lia. eexists _, _. split; [reflexivity|].
      split_and!; [by apply ref_wf|done|by eapply keeps_put].
  - destruct (close_run s ext H Hdel Hwf Hc) as [Hbad Hgood]. simpl in *. pose proof (h2i_bounds H).
    destruct (decide (OBP_HANDLE_TABLE_SIZE ≤ HANDLE_TO_INDEX H ∨ table_get (HANDLE_TO_INDEX H) s = 0)) as [Hd|Hd].
    + destruct (Hbad Hd) as (s' & Hr & ->). eexists _, s. split; [by erewrite bind_ok|].
      split_and!; [done..|apply keeps_same].
    + destruct Hgood as (x & s' & Hx & Hr & Hw & Hp & Ht & _ & Hty); [lia|lia|apply Hb|].
      eexists _, s'. split; [by erewrite bind_ok|]. split_and!; [done..|]. split; [exact Hty|].
      intros H' b Hk Hs Hne. simpl in Hk. pose proof (h2i_bounds H').
      rewrite Ht, list_lookup_insert_ne; [done|]. lia.
  - destruct (lookup_run s ext nm Hwf Hc) as [(l1 & h & x & l2 & _ & Hx & _ & _ & Hr)|[_ Hr]]; rewrite Hr;
      (eexists _, _; split; [reflexivity|]; simpl; rewrite ?b2h_h2b).
    + split_and!; [by apply ref_wf|done|by eapply keeps_put].
    + split_and!; [done..|apply keeps_same].
Qed.

(** [C2] Every call of the object manager with valid arguments returns, at or
    below DISPATCH_LEVEL, and keeps its invariant: each object's PointerCount
    is exactly the references callers hold plus the handles that name it,
    HandleCount the latter, the handle table and the namespace only hold live
    objects, every object has a reference, and every object is a live pool
    block.  [after] is what the call does to the callers' references. *)
Theorem ob_operations_preserve (op : ob_op) (s : OB) (ext : Z → Z)
    (Hdel : delete_ok) (Hwf : ob_wf s ext) (Hc : can_lock (pcr s))
    (Hb : ∀ a, ext a + 1 < 4611686018427387904) (Hok : allowed op s ext) :
  ∃ r s', run_op op s = Ok (r, s') ∧ ob_wf s' (after op r ext) ∧ pcr s' = pcr s.
Proof.
  destruct (op_run op s ext) as (r & s' & Hr & Hw & Hp & _); [done..|]. by exists r, s'.
Qed.

(** An object lives exactly as long as it is referenced: giving back a
    reference frees it (header gone, memory returned to the pool) when it was
    the last one and no handle names the object, and otherwise leaves it with
    one reference less. *)
Theorem ob_lifetime (s : OB) (ext : Z → Z) (h : Z)
    (Hdel : delete_ok) (Hwf : ob_wf s ext) (Hc : can_lock (pcr s))
    (Hlive : is_Some (ObHeaders s !! h)) (Hext : 1 ≤ ext h) :
  ∃ s', ObDereferenceObject (HEADER_TO_BODY h) s = Ok (tt, s') ∧
    (is_Some (ObHeaders s' !! h) ↔ 1 < ext h + slots (ObpHandleTable s) h) ∧
    (∀ a, a ≠ h → ObHeaders s' !! a = ObHeaders s !! a) ∧
    ob_mem (ob_pool s') (ObHeaders s') (ObTypes s').
Proof.
  destruct Hlive as [x Hx]. destruct (deref_run s ext h x) as (s' & Hr & Hw & _ & _ & Hh); [done..|].
  pose proof (count_bounds s ext h x (proj1 Hwf) Hx) as (H1 & H2 & H3 & H4).
  exists s'. split; [done|]. split_and!; [| |apply Hw]; rewrite Hh.
  - destruct (PointerCount x =? 1) eqn:E.
    + rewrite lookup_delete_eq. split; [by intros [? ?]|lia].
    + rewrite lookup_insert_eq. split; [lia|eauto].
  - intros a Ha. destruct (PointerCount x =? 1); [by rewrite lookup_delete_ne|by rewrite lookup_insert_ne].
Qed.

Lemma index_roundtrip i : 0 ≤ i < OBP_HANDLE_TABLE_SIZE → HANDLE_TO_INDEX (INDEX_TO_HANDLE i) = i.
Proof.
  unfold OBP_HANDLE_TABLE_SIZE. intros Hi. unfold HANDLE_TO_INDEX, INDEX_TO_HANDLE.
  rewrite Z.shiftl_mul_pow2, (u64_small (_ * _)) by lia. rewrite Z.shiftr_div_pow2 by lia.
  change (2 ^ 2) with 4. rewrite Z.div_mul by lia. rewrite u64_small; lia.
Qed.

(** Any calls in a row that do not close the handle [H]: each is allowed where
    it is made, and [ext] follows the references the callers hold. *)
Inductive calls (H : Z) : list ob_op → OB → (Z → Z) → OB → (Z → Z) → Prop :=
| calls_nil s ext : calls H [] s ext s ext
| calls_cons op ops s ext r s1 s' ext' :
    keeps_handle H op → allowed op s ext → (∀ a, ext a + 1 < 4611686018427387904) →
    run_op op s = Ok (r, s1) → calls H ops s1 (after op r ext) s' ext' →
    calls H (op :: ops) s ext s' ext'.

(** [H] names the object [h] of type [ty]. *)
Definition names (H h ty : Z) (s : OB) : Prop :=
  HANDLE_TO_INDEX H < OBP_HANDLE_TABLE_SIZE ∧
  ObpHandleTable s !! Z.to_nat (HANDLE_TO_INDEX H) = Some (HEADER_TO_BODY h) ∧
  ∃ y, ObHeaders s !! h = Some y ∧ Type_ y = ty.

Lemma names_pos H h ty s ext : ob_wf s ext → names H h ty s → HEADER_TO_BODY h ≠ 0.
Proof.
  intros [[_ Hm _] _] (_ & _ & y & Hy & _). pose proof (hdr_pos _ _ _ h y Hm Hy).
  unfold HEADER_TO_BODY, sizeof_OBJECT_HEADER. lia.
Qed.

(** A handle keeps naming its object while it is not closed. *)
Lemma calls_names H h ty ops s ext s' ext' :
  delete_ok → calls H ops s ext s' ext' → ob_wf s ext → can_lock (pcr s) → names H h ty s →
  ob_wf s' ext' ∧ can_lock (pcr s') ∧ names H h ty s'.
Proof.
  intros Hdel. induction 1 as [|op ops s ext r s1 s' ext' Hk Hok Hb Hr Hcalls IH]; intros Hwf Hc Hn; [done|].
  destruct (op_run op s ext Hdel Hwf Hc Hb Hok) as (r0 & s0 & Hr0 & Hw & Hp & Hty & Hsl).
  rewrite Hr in Hr0. injection Hr0 as <- <-. apply IH; [done|by rewrite Hp|]. pose proof (names_pos _ _ _ _ _ Hwf Hn) as H0.
  destruct Hn as (Hi & Ht & y & Hy & Hyt). specialize (Hsl H _ Hk Ht H0). split_and!; [done..|].
  destruct (c_slots _ _ _ _ _ (oi_core _ _ (proj1 Hw)) _ _ Hsl H0) as [y' Hy']. rewrite b2h_h2b in Hy'.
  exists y'. split; [done|]. by rewrite (Hty h y y').
Qed.

(** What a handle that names [h] gives. *)
Lemma names_use H h ty s ext :
  delete_ok → ob_wf s ext → can_lock (pcr s) → names H h ty s → ext h + 1 < 4611686018427387904 →
  ∃ y, ObHeaders s !! h = Some y ∧ Type_ y = ty ∧
    (∀ want, want = 0 ∨ want = ty → ObReferenceObjectByHandle H want s =
       Ok ((STATUS_SUCCESS, HEADER_TO_BODY h), with_hdr h (ref_hdr y 1) s)) ∧
    (∀ want, want ≠ 0 → want ≠ ty →
       ObReferenceObjectByHandle H want s = Ok ((STATUS_ACCESS_DENIED, 0), s)) ∧
    (∃ s3, ObCloseHandle H s = Ok (STATUS_SUCCESS, s3) ∧ ob_wf s3 ext ∧
       ∀ want, ObReferenceObjectByHandle H want s3 = Ok ((STATUS_INVALID_HANDLE, 0), s3)).
Proof.
  intros Hdel Hwf Hc Hn Hb. pose proof (names_pos _ _ _ _ _ Hwf Hn) as H0.
  destruct Hn as (Hi & Ht & y & Hy & Hty).
  assert (Hget : table_get (HANDLE_TO_INDEX H) s = HEADER_TO_BODY h) by (unfold table_get; by rewrite Ht).
  exists y. split_and!; [done..| | |].
  - intros want Hw. destruct (by_handle_run s ext H want Hdel Hwf Hc) as [_ Hg]. cbn zeta in Hg.
    rewrite Hget, b2h_h2b in Hg. destruct Hg as (y' & Hy' & _ & Hyes); [done..|]. simplify_eq.
    apply Hyes. naive_solver.
  - intros want Hw0 Hw. destruct (by_handle_run s ext H want Hdel Hwf Hc) as [_ Hg]. cbn zeta in Hg.
    rewrite Hget, b2h_h2b in Hg. destruct Hg as (y' & Hy' & Hno & _); [done..|]. simplify_eq.
    apply Hno. naive_solver.
  - destruct (close_run s ext H Hdel Hwf Hc) as [_ Hcl]. cbn zeta in Hcl. rewrite Hget, b2h_h2b in Hcl.
    destruct Hcl as (y' & s3 & _ & Hr3 & Hw3 & Hp3 & Ht3 & _); [done..|].
    exists s3. split; [done|]. split; [done|]. intros want.
    apply (by_handle_run s3 ext H want Hdel Hw3); [by rewrite Hp3|]. right.
    unfold table_get. rewrite Ht3, list_lookup_insert_eq; [done|]. by eapply lookup_lt_Some.
Qed.

(** [C17] Handles round trip: an object is given a free handle, and after any
    sequence of allowed calls of the object manager that does not close that
    handle (fewer than 2^62 references being held at each) it still names the
    object: a reference by handle returns the object's body and changes nothing
    but its PointerCount, which goes up by one; it is refused with
    STATUS_ACCESS_DENIED and no effect when another type is expected; closing
    the handle succeeds, keeps the manager's invariant, and leaves the handle
    invalid.  A full table gives STATUS_INSUFFICIENT_RESOURCES and changes
    nothing. *)
Theorem handle_roundtrip (s : OB) (ext : Z → Z) (h : Z) (x : OBJECT_HEADER)
    (Hdel : delete_ok) (Hwf : ob_wf s ext) (Hc : can_lock (pcr s))
    (Hx : ObHeaders s !! h = Some x) :
  let body := HEADER_TO_BODY h in
  ((∀ i b, ObpHandleTable s !! i = Some b → b ≠ 0) →
     ObInsertHandle body s = Ok ((STATUS_INSUFFICIENT_RESOURCES, 0), s)) ∧
  (0 ∈ ObpHandleTable s →
   ∃ H s1, ObInsertHandle body s = Ok ((STATUS_SUCCESS, H), s1) ∧
     ∀ ops s2 ext2, calls H ops s1 ext s2 ext2 → ext2 h + 1 < 4611686018427387904 →
       ∃ y, ObHeaders s2 !! h = Some y ∧ Type_ y = Type_ x ∧
         (∀ ty, ty = 0 ∨ ty = Type_ x → ObReferenceObjectByHandle H ty s2 =
            Ok ((STATUS_SUCCESS, body), with_hdr h (ref_hdr y 1) s2)) ∧
         (∀ ty, ty ≠ 0 → ty ≠ Type_ x →
            ObReferenceObjectByHandle H ty s2 = Ok ((STATUS_ACCESS_DENIED, 0), s2)) ∧
         (∃ s3, ObCloseHandle H s2 = Ok (STATUS_SUCCESS, s3) ∧ ob_wf s3 ext2 ∧
            ∀ ty, ObReferenceObjectByHandle H ty s3 = Ok ((STATUS_INVALID_HANDLE, 0), s3))).
Proof.
  intros body. pose proof (insert_run s ext h x Hwf Hc Hx) as Hi. split.
  - intros Hfull. destruct (first_idx _ _) as [i|] eqn:E; [|done].
    apply first_idx_Some in E as [(b & Hb0 & E) _]. specialize (Hfull i b Hb0). lia.
  - intros [i Hi0]%list_elem_of_lookup. destruct (first_idx _ _) as [j|] eqn:E.
    2: { rewrite first_idx_None in E. specialize (E i 0 Hi0). done. }
    pose proof (first_idx_lt _ _ _ E) as Hj.
    destruct Hi as (s1 & Hr & Hw1 & Hp1 & Htab & x' & Hh1 & Htx).
    pose proof (c_len _ _ _ _ _ (oi_core _ _ (proj1 Hwf))) as Hlen.
    exists (INDEX_TO_HANDLE (Z.of_nat j)), s1. split; [done|].
    assert (Hn1 : names (INDEX_TO_HANDLE (Z.of_nat j)) h (Type_ x) s1).
    { unfold names. rewrite index_roundtrip by lia. rewrite Nat2Z.id, Htab, list_lookup_insert_eq by done.
      split_and!; [lia|done|]. exists x'. rewrite Hh1, lookup_insert_eq. done. }
    intros ops s2 ext2 Hcalls Hb.
    destruct (calls_names _ _ _ _ _ _ _ _ Hdel Hcalls Hw1 ltac:(by rewrite Hp1) Hn1) as (Hw2 & Hc2 & Hn2).
    by apply names_use.
Qed.

(** Looking up a name returns, with a new reference, the first object in
    order of creation whose name is equal up to case, and
    STATUS_OBJECT_NAME_NOT_FOUND with no effect when there is none. *)
Theorem ObLookupObjectByName_spec (s : OB) (ext : Z → Z) (nm : UNICODE_STRING)
    (Hwf : ob_wf s ext) (Hc : can_lock (pcr s)) :
  (∀ l1 h l2, ObpNamedObjectHead s = l1 ++ h :: l2 → named_match s nm h →
     (∀ a, a ∈ l1 → ¬ named_match s nm a) →
     ∃ s', ObLookupObjectByName nm s = Ok ((STATUS_SUCCESS, HEADER_TO_BODY h), s')) ∧
  ((∀ a, a ∈ ObpNamedObjectHead s → ¬ named_match s nm a) →
     ObLookupObjectByName nm s = Ok ((STATUS_OBJECT_NAME_NOT_FOUND, 0), s)).
Proof.
  destruct (lookup_run s ext nm Hwf Hc) as [(m1 & k & x & m2 & Hn & Hx & He & Hno & Hr)|[Hno Hr]]; rewrite Hr.
  - assert (Hm : named_match s nm k) by (by exists x). split.
    + intros l1 h l2 Hl Hh Hl1.
      assert (k = h) as ->; [|eauto]. rewrite Hn in Hl. clear Hn. revert l1 Hl Hl1.
      induction m1 as [|b m1 IH]; intros [|c l1] Heq Hl1; simpl in Heq; simplify_eq; try done.
      * destruct (Hl1 c); [by left|done].
      * destruct (Hno h); [by left|done].
      * eapply (IH ltac:(intros a Ha; apply Hno; by right)); [done|].
        intros a Ha. apply Hl1. by right.
    + intros Hnone. destruct (Hnone k); [|done]. rewrite Hn. apply elem_of_app. right. by left.
  - split; [|done]. intros l1 h l2 Hl Hh _. destruct (Hno h); [|done].
    rewrite Hl. apply elem_of_app. right. by left.
Qed.
End Ob.

(** ** A concrete instance: the object manager on the kernel pool *)

(** The delete procedures of this instance do nothing, like
    PspProcessDelete. *)
Definition no_delete (proc body : Z) : M (OB_STATE POOL_STATE) unit := mret tt.

Lemma no_delete_ok : delete_ok no_delete.
Proof. intros body proc [] Hm Hc. eexists. split; [reflexivity|]. done. Defined.

(** One unnamed, untyped object in the pool page of [demo_pool_used], with one
    reference, and an empty handle table. *)
Definition demo_ob : OB_STATE POOL_STATE :=
  mkOb (mkPool (mkPfnState demo_pcr
                  (replicate 256 (mkPfn PfnReservedHw 0 0) ++ [mkPfn PfnActive 0 1])
                  257 1 0 257 0 (mkContig 0x10000000 0 0)
                  (λ a, if a =? 0x100000 then POOL_MAGIC_USED else if a =? 0x100004 then TAG_OBHD
                        else if a =? 0x100008 then 4072 else 0)) 0 0)
    ∅ {[ 0x100018 := mkHdr 1 0 0 (mkUS 0 0 []) ]} [] [] (replicate 512 0) 0 0 0.

Lemma demo_ob_wf : ob_wf demo_ob (λ _, 1).
Proof.
  split.
  - constructor; [constructor| |done]; unfold demo_ob;
      cbn [ob_pool ObHeaders ObTypes ObpNamedObjectHead ObpHandleTable]; try done.
    + intros h x [<- <-]%lookup_singleton_Some. unfold slots. rewrite countb_replicate; done.
    + intros i b [-> _]%lookup_replicate. done.
    + intros h x [<- <-]%lookup_singleton_Some. by left.
    + constructor.
    + intros h. split; [intros Hh; by apply not_elem_of_nil in Hh|].
      intros (x & [<- <-]%lookup_singleton_Some & ? & _). done.
    + exists {[ 0x100018 := TAG_OBHD ]}. split_and!.
      * split; [done|]. exists [], [(0x100000, 4072)]. split.
        -- destruct demo_pool_used_inv as [Hwf _ _ Hl]. constructor; [|done|by repeat constructor|exact Hl].
           by destruct Hwf; constructor.
        -- intros a t. rewrite lookup_singleton_Some. split.
           ++ intros [<- <-]. exists 4072. split; [by left|done].
           ++ intros (sz & [[= H1 H2]|H1]%elem_of_cons & Ht); [|by apply not_elem_of_nil in H1].
              assert (a = 0x100018) as -> by lia. by split.
      * intros h x [<- <-]%lookup_singleton_Some. by rewrite lookup_singleton_eq.
      * intros t y Hy. by rewrite lookup_empty in Hy.
      * intros h _. apply lookup_empty.
  - simpl. intros h x [<- <-]%lookup_singleton_Some. done.
Defined.

Lemma ob_operations_preserve_witness :
  ∃ r s', run_op no_delete (OpInsert 0x100018) demo_ob = Ok (r, s') ∧ ob_wf s' (λ _, 1).
Proof.
  destruct (ob_operations_preserve no_delete (OpInsert 0x100018) demo_ob (λ _, 1)
    no_delete_ok demo_ob_wf demo_can_lock) as (r & s' & Hr & Hw & _).
  - intros a. lia.
  - simpl. rewrite lookup_singleton_eq. by eexists.
  - exists r, s'. split; [exact Hr|exact Hw].
Defined.

Lemma ob_lifetime_witness :
  ∃ s', ObDereferenceObject no_delete (HEADER_TO_BODY 0x100018) demo_ob = Ok (tt, s') ∧
        ¬ is_Some (ObHeaders s' !! 0x100018).
Proof.
  destruct (ob_lifetime no_delete demo_ob (λ _, 1) 0x100018 no_delete_ok demo_ob_wf demo_can_lock)
    as (s' & Hr & Hl & _).
  - simpl. rewrite lookup_singleton_eq. by eexists.
  - lia.
  - exists s'. split; [exact Hr|]. rewrite Hl. unfold slots, demo_ob.
    cbn [ObpHandleTable]. rewrite countb_replicate; [lia|done].
Defined.

(** The object is given a handle, the handle is used once, and then another
    type is refused. *)
Lemma handle_roundtrip_witness :
  ∃ H s1 s2, ObInsertHandle (HEADER_TO_BODY 0x100018) demo_ob = Ok ((STATUS_SUCCESS, H), s1) ∧
    ObReferenceObjectByHandle no_delete H 0 s1 = Ok ((STATUS_SUCCESS, HEADER_TO_BODY 0x100018), s2) ∧
    ObReferenceObjectByHandle no_delete H 5 s2 = Ok ((STATUS_ACCESS_DENIED, 0), s2).
Proof.
  destruct (handle_roundtrip no_delete demo_ob (λ _, 1) 0x100018 (mkHdr 1 0 0 (mkUS 0 0 []))
    no_delete_ok demo_ob_wf demo_can_lock) as [_ Hr].
  - simpl. by rewrite lookup_singleton_eq.
  - destruct Hr as (H & s1 & Hi & Hany).
    + apply (list_elem_of_lookup_2 _ 0%nat). done.
    + destruct (Hany [] s1 (λ _, 1) (calls_nil _ _ _ _) ltac:(lia)) as (y & _ & _ & Hyes & _).
      specialize (Hyes 0 (or_introl eq_refl)).
      destruct (Hany [OpByHandle H 0] (with_hdr 0x100018 (ref_hdr y 1) s1)
        (after (OpByHandle H 0) (STATUS_SUCCESS, HEADER_TO_BODY 0x100018) (λ _, 1))) as (z & _ & _ & _ & Hd & _).
      * eapply calls_cons; [done|done|intros a; lia|exact Hyes|apply calls_nil].
      * vm_compute. reflexivity.
      * exists H, s1. eexists. split; [exact Hi|]. split; [exact Hyes|]. apply Hd; done.
Defined.

Lemma ObLookupObjectByName_spec_witness :
  ObLookupObjectByName (mkUS 2 4 [65; 0]) demo_ob = Ok ((STATUS_OBJECT_NAME_NOT_FOUND, 0), demo_ob).
Proof.
  destruct (ObLookupObjectByName_spec no_delete demo_ob (λ _, 1) (mkUS 2 4 [65; 0]) demo_ob_wf demo_can_lock)
    as [_ H]. apply H. intros a Ha. by apply not_elem_of_nil in Ha.
Defined.
