(* ===== verification/Dispatch.v ===== *)
(** * Ke: threads, the scheduler and dispatcher objects
    (src/ke/dispatch.c, the dispatcher of src/ps/psmgr.c, src/include/nt/dispatcher.h,
    src/include/nt/ps.h)

    Threads and dispatcher objects by address.  The one list entry of a thread,
    WaitListEntry, links it on the ready list or on one object's wait list: the
    queues are lists of thread addresses and the invariant says that a thread is
    on exactly the queue its State names.

    A context switch ends the run of the old thread in the middle of a routine.
    The routines that can switch are therefore cut there: what they do up to the
    switch, and what they do when the thread is dispatched again ([_resume]). *)

From S2P Require Import Prelude Irql.

#[local] Open Scope Z_scope.

Inductive KTHREAD_STATE := Initialized | Ready | Running | Standby | Terminated | Waiting.

#[global] Instance KTHREAD_STATE_eq_dec : EqDecision KTHREAD_STATE.
Proof. solve_decision. Defined.

Record KTHREAD := mkThread {
  Process : Z;
  KernelStack : Z;
  StackPointer : Z;
  TState : KTHREAD_STATE;
  Priority : Z;
  WaitStatus : Z;
  WaitObject : Z;
  Quantum : Z
}.

Definition with_state (st : KTHREAD_STATE) (t : KTHREAD) : KTHREAD :=
  mkThread (Process t) (KernelStack t) (StackPointer t) st (Priority t) (WaitStatus t)
    (WaitObject t) (Quantum t).
Definition with_wait (st : KTHREAD_STATE) (ws wo : Z) (t : KTHREAD) : KTHREAD :=
  mkThread (Process t) (KernelStack t) (StackPointer t) st (Priority t) ws wo (Quantum t).
Definition with_sp (sp : Z) (t : KTHREAD) : KTHREAD :=
  mkThread (Process t) (KernelStack t) sp (TState t) (Priority t) (WaitStatus t)
    (WaitObject t) (Quantum t).

(** Type codes of dispatcher.h. *)
Definition EventObject := 0.
Definition SynchronizationEvent := 1.
Definition NotificationEvent := 0.
Definition SemaphoreObject := 3.
Definition MutantObject := 5.

(** A dispatcher header with the fields of KEVENT, KSEMAPHORE and KMUTANT. *)
Record KOBJECT := mkObject {
  OType : Z;
  SignalState : Z;
  WaitListHead : list Z;
  Limit : Z;                (* KSEMAPHORE *)
  CurrentCount : Z;
  OwnerThread : Z           (* KMUTANT *)
}.

Definition with_signal (v : Z) (o : KOBJECT) : KOBJECT :=
  mkObject (OType o) v (WaitListHead o) (Limit o) (CurrentCount o) (OwnerThread o).
Definition with_waiters (l : list Z) (o : KOBJECT) : KOBJECT :=
  mkObject (OType o) (SignalState o) l (Limit o) (CurrentCount o) (OwnerThread o).
Definition with_count (c sig : Z) (o : KOBJECT) : KOBJECT :=
  mkObject (OType o) sig (WaitListHead o) (Limit o) c (OwnerThread o).
Definition with_owner (t : Z) (o : KOBJECT) : KOBJECT :=
  mkObject (OType o) (SignalState o) (WaitListHead o) (Limit o) (CurrentCount o) t.

Record SCHED := mkSched {
  Threads : gmap Z KTHREAD;
  Objects : gmap Z KOBJECT;
  KiReadyListHead : list Z;
  CurrentThread : Z;              (* Prcb->CurrentThread, 0 is NULL *)
  Rsp : Z;                        (* the stack pointer of the processor *)
  TssRsp0 : Z
}.

Record KS := mkKS { ks_pcr : KPCR; KiDispatcherLock : Z; sched : SCHED }.

Definition set_ks_pcr (k : KPCR) (s : KS) : KS := mkKS k (KiDispatcherLock s) (sched s).
Definition set_KiDispatcherLock (v : Z) (s : KS) : KS := mkKS (ks_pcr s) v (sched s).
Definition set_sched (v : SCHED) (s : KS) : KS := mkKS (ks_pcr s) (KiDispatcherLock s) v.

#[global] Instance KS_HasPcr : HasPcr KS.
Proof. refine {| pcr := ks_pcr; set_pcr := set_ks_pcr |}; [done..|by intros []]. Defined.

Definition DispatcherLock : SpinLock KS.
Proof.
  refine (mkSpinLock KiDispatcherLock set_KiDispatcherLock _ _ _ _ _ _); [done..|by intros []|done].
Defined.

(** ** Updates of the scheduler's data *)

Definition upd_thread (t : Z) (x : KTHREAD) (c : SCHED) : SCHED :=
  mkSched (<[t := x]> (Threads c)) (Objects c) (KiReadyListHead c) (CurrentThread c) (Rsp c) (TssRsp0 c).
Definition upd_object (o : Z) (x : KOBJECT) (c : SCHED) : SCHED :=
  mkSched (Threads c) (<[o := x]> (Objects c)) (KiReadyListHead c) (CurrentThread c) (Rsp c) (TssRsp0 c).
Definition set_ready (l : list Z) (c : SCHED) : SCHED :=
  mkSched (Threads c) (Objects c) l (CurrentThread c) (Rsp c) (TssRsp0 c).
Definition set_current (t : Z) (c : SCHED) : SCHED :=
  mkSched (Threads c) (Objects c) (KiReadyListHead c) t (Rsp c) (TssRsp0 c).
Definition set_rsp (r : Z) (c : SCHED) : SCHED :=
  mkSched (Threads c) (Objects c) (KiReadyListHead c) (CurrentThread c) r (TssRsp0 c).
Definition set_rsp0 (r : Z) (c : SCHED) : SCHED :=
  mkSched (Threads c) (Objects c) (KiReadyListHead c) (CurrentThread c) (Rsp c) r.

Definition kmod (f : SCHED → SCHED) : M KS unit := mmod (λ s, set_sched (f (sched s)) s).
Definition get_thread (t : Z) : M KS KTHREAD := mderef (λ s, Threads (sched s) !! t).
Definition get_object (o : Z) : M KS KOBJECT := mderef (λ s, Objects (sched s) !! o).
Definition put_thread (t : Z) (x : KTHREAD) : M KS unit := kmod (upd_thread t x).
Definition put_object (o : Z) (x : KOBJECT) : M KS unit := kmod (upd_object o x).

(** InsertTailList on the ready list. *)
Definition ready_tail (t : Z) : M KS unit :=
  kmod (λ c, set_ready (KiReadyListHead c ++ [t]) c).

(** RemoveEntryList of a thread's WaitListEntry: from whatever list it is on. *)
Definition unlink (t : Z) : M KS unit := kmod (λ c,
  mkSched (Threads c)
    ((λ o, with_waiters (filter (λ x, x ≠ t) (WaitListHead o)) o) <$> Objects c)
    (filter (λ x, x ≠ t) (KiReadyListHead c)) (CurrentThread c) (Rsp c) (TssRsp0 c)).

(** ** The scheduler (psmgr.c) *)

(** The release that writes the IRQL directly. *)
Definition KiReleaseDispatcherLockNoYield (OldIrql : Z) : M KS unit :=
  w ← mgets KiDispatcherLock;
  mmod (set_KiDispatcherLock (w - u8 w));;
  set_Irql OldIrql;;
  mwhen (OldIrql <? DISPATCH_LEVEL) KeEnableInterrupts.

Definition KiInitializeScheduler : M KS unit :=
  kmod (set_ready []);;
  KeInitializeSpinLock DispatcherLock.

Definition KiReadyThread (Thread : Z) : M KS unit :=
  irql ← KeAcquireSpinLock DispatcherLock;
  t ← get_thread Thread;
  put_thread Thread (with_state Ready t);;
  ready_tail Thread;;
  KiReleaseDispatcherLockNoYield irql.

(** The stack switch of ctxswap.S: the call and seven pushes on the old stack,
    seven pops and the return on the new one. *)
Definition KiSwapContext (Old New : Z) : M KS unit :=
  o ← get_thread Old;
  rsp ← mgets (λ s, Rsp (sched s));
  put_thread Old (with_sp (u64 (rsp - 64)) o);;
  n ← get_thread New;
  kmod (set_rsp (u64 (StackPointer n + 64))).

(** Returns whether the processor now runs another thread (or, with no
    current thread, whether one was made current). *)
Definition KiDispatchNextThread : M KS bool :=
  irql ← KeAcquireSpinLock DispatcherLock;
  ready ← mgets (λ s, KiReadyListHead (sched s));
  match ready with
  | [] => KeReleaseSpinLock DispatcherLock irql;; mret false
  | New :: rest =>
      Old ← mgets (λ s, CurrentThread (sched s));
      kmod (set_ready rest);;
      n ← get_thread New;
      put_thread New (with_state Running n);;
      mwhen (truthy Old) (
        o ← get_thread Old;
        if bool_decide (TState o = Running) then
          put_thread Old (with_state Ready o);;
          ready_tail Old
        else mret tt);;
      kmod (set_current New);;
      KeReleaseSpinLock DispatcherLock irql;;
      n ← get_thread New;
      mwhen (truthy (KernelStack n)) (kmod (set_rsp0 (KernelStack n)));;
      mwhen (truthy Old) (KiSwapContext Old New);;
      mret true
  end.

(** ** Blocking and waking (dispatch.c) *)

Definition KiWaitThread (Thread Object : Z) : M KS bool :=
  irql ← KeAcquireSpinLock DispatcherLock;
  t ← get_thread Thread;
  put_thread Thread (with_wait Waiting (WaitStatus t) Object t);;
  o ← get_object Object;
  put_object Object (with_waiters (WaitListHead o ++ [Thread]) o);;
  KeReleaseSpinLock DispatcherLock irql;;
  KiDispatchNextThread.

(** The rest of KiWaitThread, when the thread runs again. *)
Definition KiWaitThread_resume (Thread : Z) : M KS unit :=
  irql ← KeAcquireSpinLock DispatcherLock;
  t ← get_thread Thread;
  (if bool_decide (TState t = Waiting) then
     put_thread Thread (with_state Ready t);;
     unlink Thread;;
     ready_tail Thread
   else mret tt);;
  KeReleaseSpinLock DispatcherLock irql.

Definition wake (Thread WaitStatus : Z) : M KS unit :=
  t ← get_thread Thread;
  put_thread Thread (with_wait Ready (u32 WaitStatus) 0 t);;
  ready_tail Thread.

Definition KiWakeThread (Thread WaitStatus : Z) : M KS unit :=
  irql ← KeAcquireSpinLock DispatcherLock;
  wake Thread WaitStatus;;
  KeReleaseSpinLock DispatcherLock irql.

(** 0 stands for the NULL thread. *)
Definition KiWakeFirstWaiterUnsafe (Object WaitStatus : Z) : M KS Z :=
  o ← get_object Object;
  match WaitListHead o with
  | [] => mret 0
  | Thread :: rest =>
      put_object Object (with_waiters rest o);;
      wake Thread WaitStatus;;
      mret Thread
  end.

Definition KiWakeFirstWaiter (Object WaitStatus : Z) : M KS Z :=
  irql ← KeAcquireSpinLock DispatcherLock;
  t ← KiWakeFirstWaiterUnsafe Object WaitStatus;
  KeReleaseSpinLock DispatcherLock irql;;
  mret t.

Definition KiWakeAllWaitersUnsafe (Object WaitStatus : Z) : M KS unit :=
  loop (λ _ : unit,
    o ← get_object Object;
    if bool_decide (WaitListHead o = []) then mret (inr tt)
    else KiWakeFirstWaiterUnsafe Object WaitStatus;; mret (inl tt)) tt.

(** ** Events *)

Definition KeInitializeEvent (Event Type_ : Z) (State : bool) : M KS unit :=
  put_object Event (mkObject (if Type_ =? NotificationEvent then EventObject else SynchronizationEvent)
                      (if State then 1 else 0) [] 0 0 0).

Definition KeSetEvent (Event : Z) : M KS Z :=
  irql ← KeAcquireSpinLock DispatcherLock;
  o ← get_object Event;
  let PreviousState := SignalState o in
  put_object Event (with_signal 1 o);;
  if OType o =? EventObject then
    KiWakeAllWaitersUnsafe Event STATUS_WAIT_0;;
    KeReleaseSpinLock DispatcherLock irql;;
    mret PreviousState
  else
    Wakened ← KiWakeFirstWaiterUnsafe Event STATUS_WAIT_0;
    if Wakened =? 0 then
      KeReleaseSpinLock DispatcherLock irql;;
      mret PreviousState
    else
      o ← get_object Event;
      put_object Event (with_signal 0 o);;
      KeReleaseSpinLock DispatcherLock irql;;
      mret PreviousState.

Definition KeResetEvent (Event : Z) : M KS Z :=
  irql ← KeAcquireSpinLock DispatcherLock;
  o ← get_object Event;
  put_object Event (with_signal 0 o);;
  KeReleaseSpinLock DispatcherLock irql;;
  mret (SignalState o).

Definition KeClearEvent (Event : Z) : M KS Z := KeResetEvent Event.

Definition KeReadStateEvent (Event : Z) : M KS Z :=
  o ← get_object Event; mret (u8 (SignalState o)).

(** ** Semaphores *)

Definition KeInitializeSemaphore (Semaphore Count Lim : Z) : M KS unit :=
  put_object Semaphore (mkObject SemaphoreObject (if 0 <? Count then 1 else 0) [] (u32 Lim) Count 0).

(** [for (i = 0; i < Adjustment; i++)] with the break on an empty list. *)
Definition wake_some (Semaphore Adjustment : Z) : M KS unit :=
  loop (λ i : Z,
    if i <? Adjustment then
      o ← get_object Semaphore;
      if bool_decide (WaitListHead o = []) then mret (inr tt)
      else KiWakeFirstWaiterUnsafe Semaphore STATUS_WAIT_0;; mret (inl (i + 1))
    else mret (inr tt)) 0.

Definition KeReleaseSemaphore (Semaphore Adjustment : Z) : M KS Z :=
  o ← get_object Semaphore;
  let PreviousCount := CurrentCount o in
  irql ← KeAcquireSpinLock DispatcherLock;
  o ← get_object Semaphore;
  let c := s32 (CurrentCount o + Adjustment) in
  let c := if s32 (Limit o) <? c then s32 (Limit o) else c in
  put_object Semaphore (with_count c (if 0 <? c then 1 else 0) o);;
  wake_some Semaphore Adjustment;;
  KeReleaseSpinLock DispatcherLock irql;;
  mret PreviousCount.

Definition KeReadStateSemaphore (Semaphore : Z) : M KS Z :=
  if Semaphore =? 0 then mret 0 else o ← get_object Semaphore; mret (CurrentCount o).

(** ** Mutants *)

Definition KeInitializeMutex (Mutex : Z) : M KS unit :=
  put_object Mutex (mkObject MutantObject 1 [] 0 0 0).

Definition KeReleaseMutex (Mutex : Z) : M KS Z :=
  cur ← mgets (λ s, CurrentThread (sched s));
  o ← get_object Mutex;
  if negb (OwnerThread o =? cur) then mret 0
  else
    put_object Mutex (with_owner 0 o);;
    (if bool_decide (WaitListHead o = []) then
       o ← get_object Mutex;
       put_object Mutex (with_signal 1 o)
     else
       Thread ← KiWakeFirstWaiter Mutex STATUS_WAIT_0;
       mwhen (truthy Thread) (
         o ← get_object Mutex;
         put_object Mutex (with_signal 0 (with_owner Thread o))));;
    mret 0.

(** ** Waiting *)

(** A wait returned, or the thread lost the processor inside it. *)
Inductive WAIT := Returned (st : Z) | SwitchedAway.

(** What a thread in KeWaitForSingleObject does when it runs again. *)
Definition KeWait_resume (Thread : Z) : M KS WAIT :=
  KiWaitThread_resume Thread;;
  t ← get_thread Thread;
  mret (Returned (u32 (WaitStatus t))).

Definition KeWaitForSingleObject (Object : Z) (Timeout : option Z) : M KS WAIT :=
  cur ← mgets (λ s, CurrentThread (sched s));
  o ← get_object Object;
  if truthy (SignalState o) then
    (if (OType o =? SynchronizationEvent) || (OType o =? MutantObject) then
       put_object Object (with_signal 0 o);;
       mwhen (OType o =? MutantObject) (
         o ← get_object Object;
         put_object Object (with_owner cur o))
     else mret tt);;
    mret (Returned STATUS_WAIT_0)
  else if bool_decide (Timeout = Some 0) then mret (Returned STATUS_TIMEOUT)
  else
    away ← KiWaitThread cur Object;
    if away : bool then mret SwitchedAway else KeWait_resume cur.

(** The first object of the array that is not signaled is waited for. *)
Fixpoint wait_first (l : list Z) (i : Z) (Timeout : option Z) : M KS WAIT :=
  match l with
  | [] => mret (Returned STATUS_WAIT_0)
  | o :: l' =>
      x ← get_object o;
      if SignalState x =? 0 then
        r ← KeWaitForSingleObject o Timeout;
        mret match r with
             | Returned st => Returned (if NT_SUCCESS st then u32 (STATUS_WAIT_0 + i) else st)
             | SwitchedAway => SwitchedAway
             end
      else wait_first l' (i + 1) Timeout
  end.

Definition KeWaitForMultipleObjects (Object : list Z) (Timeout : option Z) : M KS WAIT :=
  wait_first Object 0 Timeout.

(** ** Invariant *)

(** A thread is on the ready list exactly when it is Ready, on an object's wait
    list exactly when it is Waiting for that object, and at most the current
    thread is Running.  Threads have non-null 64-bit addresses. *)
Record sched_inv (c : SCHED) : Prop := {
  w_nodup : NoDup (KiReadyListHead c);
  w_wnodup o x : Objects c !! o = Some x → NoDup (WaitListHead x);
  w_ready t : t ∈ KiReadyListHead c ↔ ∃ th, Threads c !! t = Some th ∧ TState th = Ready;
  w_wait o x t : Objects c !! o = Some x →
    (t ∈ WaitListHead x ↔ ∃ th, Threads c !! t = Some th ∧ TState th = Waiting ∧ WaitObject th = o);
  w_obj t th : Threads c !! t = Some th → TState th = Waiting → is_Some (Objects c !! WaitObject th);
  w_run t th : Threads c !! t = Some th → TState th = Running → t = CurrentThread c;
  w_pos t th : Threads c !! t = Some th → 0 < t < 18446744073709551552
}.

Definition current_is (st : KTHREAD_STATE) (c : SCHED) : Prop :=
  ∃ th, Threads c !! CurrentThread c = Some th ∧ TState th = st.

(** Between two calls the current thread is Running. *)
Definition sched_wf (c : SCHED) : Prop := sched_inv c ∧ current_is Running c.

Definition ks_wf (s : KS) : Prop :=
  sched_wf (sched s) ∧ KiDispatcherLock s = 0 ∧ can_lock (ks_pcr s).

Lemma framed_sched f : framed DispatcherLock (λ s, set_sched (f (sched s)) s).
Proof. by constructor. Qed.

Lemma release_ks s c :
  can_lock (ks_pcr s) → KiDispatcherLock s = 0 →
  KeReleaseSpinLock DispatcherLock (Irql (ks_pcr s)) (set_sched c (locked DispatcherLock s)) =
  Ok (tt, set_sched c s).
Proof. intros Hc Hl. by apply (release_framed DispatcherLock (λ s, set_sched c s)). Qed.

Lemma release_ks_bind {B} s c (k : M KS B) :
  can_lock (ks_pcr s) → KiDispatcherLock s = 0 →
  (KeReleaseSpinLock DispatcherLock (Irql (ks_pcr s));; k) (set_sched c (locked DispatcherLock s)) =
  k (set_sched c s).
Proof. intros Hc Hl. erewrite bind_ok; [done|]. by apply release_ks. Qed.

(** The release of KiReadyThread does the same from inside a section. *)
Lemma release_noyield s c :
  can_lock (ks_pcr s) → KiDispatcherLock s = 0 →
  KiReleaseDispatcherLockNoYield (Irql (ks_pcr s)) (set_sched c (locked DispatcherLock s)) =
  Ok (tt, set_sched c s).
Proof.
  intros [[Hif Hr] Hle] Hl. destruct s as [[q f] l c0]; simpl in *. subst.
  unfold KiReleaseDispatcherLockNoYield, mbind, M_bind, mwhen; simpl.
  destruct (q <? DISPATCH_LEVEL) eqn:E; simpl; done.
Qed.

(** An object update that leaves the wait list alone. *)
(** A new object, or one nobody waits on, may be put anywhere. *)
Lemma idle_object_inv c o x' :
  sched_inv c → (∀ x, Objects c !! o = Some x → WaitListHead x = []) → WaitListHead x' = [] →
  sched_inv (upd_object o x' c).
Proof.
  intros [H1 H2 H3 H4 H5 H6 H7] Hx Hw. constructor; simpl; try done.
  - intros o' y [[<- <-]|[_ Hy]]%lookup_insert_Some; [rewrite Hw; constructor|eauto].
  - intros o' y t [[<- <-]|[_ Hy]]%lookup_insert_Some; [|by apply H4]. rewrite Hw. split; [by intros ?%elem_of_nil|].
    intros (th & Ht & Hs & E). destruct (H5 t th Ht Hs) as [z Hz]. rewrite E in Hz.
    assert (t ∈ WaitListHead z) as Hin by (apply (H4 o z t Hz); eauto). rewrite (Hx z Hz) in Hin. by apply elem_of_nil in Hin.
  - intros t th Ht Hs. destruct (decide (WaitObject th = o)) as [->|Hne]; [rewrite lookup_insert_eq; eauto|].
    rewrite lookup_insert_ne by done. eauto.
Qed.

Lemma upd_object_inv c o x x' :
  sched_inv c → Objects c !! o = Some x → WaitListHead x' = WaitListHead x →
  sched_inv (upd_object o x' c).
Proof.
  intros [H1 H2 H3 H4 H5 H6 H7] Hx Hw. constructor; simpl; try done.
  - intros o' y. destruct (decide (o' = o)) as [->|Hne].
    + rewrite lookup_insert_eq. intros [= <-]. rewrite Hw. eauto.
    + rewrite lookup_insert_ne by done. eauto.
  - intros o' y t. destruct (decide (o' = o)) as [->|Hne].
    + rewrite lookup_insert_eq. intros [= <-]. rewrite Hw. eauto.
    + rewrite lookup_insert_ne by done. eauto.
  - intros t th Ht Hs. destruct (decide (o = WaitObject th)) as [->|Hne].
    + rewrite lookup_insert_eq. eauto.
    + rewrite lookup_insert_ne by done. eauto.
Qed.

(** A new object: nobody can be waiting for it yet. *)
Lemma new_object_inv c o x :
  sched_inv c → Objects c !! o = None → WaitListHead x = [] → sched_inv (upd_object o x c).
Proof. intros Hi Hx Hw. apply idle_object_inv; [done| |done]. congruence. Qed.

(** The first waiter of [o] moved to the tail of the ready list. *)
Definition wake_sched (o st t : Z) (x : KOBJECT) (th : KTHREAD) (rest : list Z) (c : SCHED) : SCHED :=
  let c := upd_thread t (with_wait Ready (u32 st) 0 th) (upd_object o (with_waiters rest x) c) in
  set_ready (KiReadyListHead c ++ [t]) c.

Lemma wake_sched_inv c o st t x th rest :
  sched_inv c → Objects c !! o = Some x → WaitListHead x = t :: rest → Threads c !! t = Some th →
  sched_inv (wake_sched o st t x th rest c) ∧ TState th = Waiting ∧ WaitObject th = o.
Proof.
  intros [H1 H2 H3 H4 H5 H6 H7] Hx Hw Ht.
  assert (TState th = Waiting ∧ WaitObject th = o) as [Hs Ho].
  { destruct (proj1 (H4 o x t Hx)) as (th' & Ht' & ? & ?); [rewrite Hw; by left|]. by simplify_eq. }
  split; [|done]. pose proof (H2 o x Hx) as Hnd. rewrite Hw in Hnd.
  apply NoDup_cons in Hnd as [Hnotin Hnd].
  constructor; simpl.
  - apply NoDup_app. split_and!; [done| |apply NoDup_singleton].
    intros a Ha ->%list_elem_of_singleton. apply H3 in Ha as (y & Hy & Hr). simplify_eq. congruence.
  - intros o' y. destruct (decide (o' = o)) as [->|Hne].
    + rewrite lookup_insert_eq. by intros [= <-].
    + rewrite lookup_insert_ne by done. eauto.
  - intros a. rewrite elem_of_app, list_elem_of_singleton, H3.
    destruct (decide (a = t)) as [->|Hne].
    + rewrite lookup_insert_eq. split; [eauto|auto].
    + rewrite lookup_insert_ne by done. naive_solver.
  - intros o' y a Hy. destruct (decide (o' = o)) as [->|Hne].
    + rewrite lookup_insert_eq in Hy. injection Hy as <-. simpl.
      destruct (decide (a = t)) as [->|Hna].
      * rewrite lookup_insert_eq. split; [done|]. intros (th' & [= <-] & Hs' & _). done.
      * rewrite lookup_insert_ne, <- (H4 o x a Hx), Hw by done. rewrite elem_of_cons. tauto.
    + rewrite lookup_insert_ne in Hy by done. rewrite (H4 o' y a Hy).
      destruct (decide (a = t)) as [->|Hna].
      * rewrite lookup_insert_eq, Ht. split; intros (th' & [= <-] & Hs' & Ho'); simplify_eq/=.
      * by rewrite lookup_insert_ne.
  - intros a y. destruct (decide (a = t)) as [->|Hne].
    + rewrite lookup_insert_eq. by intros [= <-].
    + rewrite lookup_insert_ne by done. intros Ha Hs'.
      destruct (decide (o = WaitObject y)) as [->|?]; [rewrite lookup_insert_eq; eauto|].
      rewrite lookup_insert_ne by done. eauto.
  - intros a y. destruct (decide (a = t)) as [->|Hne].
    + rewrite lookup_insert_eq. by intros [= <-].
    + rewrite lookup_insert_ne by done. eauto.
  - intros a y. destruct (decide (a = t)) as [->|Hne].
    + intros _. eauto.
    + rewrite lookup_insert_ne by done. eauto.
Qed.

Lemma wake_current c o st t x th rest k :
  sched_inv c → Objects c !! o = Some x → WaitListHead x = t :: rest → Threads c !! t = Some th →
  k ≠ Waiting → current_is k c → current_is k (wake_sched o st t x th rest c).
Proof.
  intros Hi Hx Hw Ht Hk (y & Hy & Hs).
  destruct (wake_sched_inv c o st t x th rest Hi Hx Hw Ht) as (_ & Hs' & _).
  exists y. simpl. rewrite lookup_insert_ne; [done|]. intros ->. simplify_eq.
Qed.

Lemma inv_waiter c o x t rest :
  sched_inv c → Objects c !! o = Some x → WaitListHead x = t :: rest →
  ∃ th, Threads c !! t = Some th ∧ TState th = Waiting ∧ WaitObject th = o ∧ t ≠ 0.
Proof.
  intros Hi Hx Hw. destruct (proj1 (w_wait c Hi o x t Hx)) as (th & Ht & Hs & Ho); [rewrite Hw; by left|].
  exists th. pose proof (w_pos c Hi t th Ht). split_and!; [done..|lia].
Qed.

Lemma wake_first_run s o x st :
  Objects (sched s) !! o = Some x →
  match WaitListHead x with
  | [] => KiWakeFirstWaiterUnsafe o st s = Ok (0, s)
  | t :: rest => ∀ th, Threads (sched s) !! t = Some th →
      KiWakeFirstWaiterUnsafe o st s = Ok (t, set_sched (wake_sched o st t x th rest (sched s)) s)
  end.
Proof.
  intros Hx. unfold KiWakeFirstWaiterUnsafe, get_object. erewrite deref_bind by exact Hx.
  destruct (WaitListHead x) as [|t rest]; [done|]. intros th Ht.
  erewrite bind_ok; [|reflexivity]. unfold wake, get_thread.
  erewrite bind_ok; [|erewrite deref_bind by exact Ht; reflexivity]. done.
Qed.

(** The effect of waking the first waiters [l] of [o], [rest] being left. *)
Record woke (o st : Z) (l rest : list Z) (x : KOBJECT) (c c' : SCHED) : Prop := {
  wk_inv : sched_inv c';
  wk_ready : KiReadyListHead c' = KiReadyListHead c ++ l;
  wk_obj : Objects c' = <[o := with_waiters rest x]> (Objects c);
  wk_cur : CurrentThread c' = CurrentThread c;
  wk_woken t : t ∈ l → ∃ th, Threads c' !! t = Some th ∧ TState th = Ready ∧
                             WaitStatus th = u32 st ∧ WaitObject th = 0;
  wk_other t : t ∉ l → Threads c' !! t = Threads c !! t
}.

Lemma woke_nil o st x c :
  sched_inv c → Objects c !! o = Some x → woke o st [] (WaitListHead x) x c c.
Proof.
  intros Hi Hx. constructor; try done.
  - by rewrite app_nil_r.
  - symmetry. apply insert_id. rewrite Hx. by destruct x.
  - intros t Ht. by apply not_elem_of_nil in Ht.
Qed.

Lemma woke_step o st t l rest x th c c' :
  Objects c !! o = Some x → sched_inv c → WaitListHead x = t :: l ++ rest → Threads c !! t = Some th →
  woke o st l rest (with_waiters (l ++ rest) x) (wake_sched o st t x th (l ++ rest) c) c' →
  woke o st (t :: l) rest x c c'.
Proof.
  intros Hx Hi Hw Ht [H1 H2 H3 H4 H5 H6].
  pose proof (w_wnodup c Hi o x Hx) as Hnd. rewrite Hw in Hnd.
  apply NoDup_cons in Hnd as [Hnot _]. rewrite elem_of_app in Hnot.
  constructor; try done.
  - rewrite H2. simpl. by rewrite <- app_assoc.
  - rewrite H3. simpl. by rewrite insert_insert_eq.
  - intros a [->|Ha]%elem_of_cons; [|by apply H5].
    rewrite H6 by tauto. simpl. rewrite lookup_insert_eq. eauto.
  - intros a Ha. apply not_elem_of_cons in Ha as [Hne Ha]. rewrite H6 by done. simpl.
    by rewrite lookup_insert_ne.
Qed.

(** A loop that wakes waiters while its counter [i] allows it. *)
Lemma wake_loop {A} (body : A → M KS (A + unit)) (next : A → A) o st (go : A → Prop) :
  (∀ i s x t rest th, go i → Objects (sched s) !! o = Some x → WaitListHead x = t :: rest →
     Threads (sched s) !! t = Some th →
     body i s = Ok (inl (next i), set_sched (wake_sched o st t x th rest (sched s)) s)) →
  (∀ i s x, Objects (sched s) !! o = Some x → WaitListHead x = [] ∨ ¬ go i →
     body i s = Ok (inr tt, s)) →
  ∀ l i s x rest, sched_inv (sched s) → Objects (sched s) !! o = Some x → WaitListHead x = l ++ rest →
    (∀ k, (k < length l)%nat → go (Nat.iter k next i)) →
    rest = [] ∨ ¬ go (Nat.iter (length l) next i) →
    ∃ c', loops_to body (Z.of_nat (length l) + 1) i s tt (set_sched c' s) ∧ woke o st l rest x (sched s) c'.
Proof.
  intros Hstep Hstop. induction l as [|t l IH]; intros i s x rest Hi Hx Hw Hgo Hend.
  - exists (sched s). simpl in Hw. split.
    + apply loops_done. rewrite (Hstop i s x Hx); [by destruct s|]. rewrite Hw. exact Hend.
    + rewrite <- Hw. by apply woke_nil.
  - destruct (inv_waiter _ o x t (l ++ rest) Hi Hx Hw) as (th & Ht & _).
    pose proof (Hstep i s x t (l ++ rest) th (Hgo 0%nat ltac:(simpl; lia)) Hx Hw Ht) as Hrun.
    set (c1 := wake_sched o st t x th (l ++ rest) (sched s)) in *.
    destruct (IH (next i) (set_sched c1 s) (with_waiters (l ++ rest) x) rest) as (c' & Hl & Hwk).
    + apply wake_sched_inv; done.
    + simpl. by rewrite lookup_insert_eq.
    + done.
    + intros k Hk. rewrite <- Nat.iter_succ_r. apply Hgo. simpl. lia.
    + rewrite <- Nat.iter_succ_r. exact Hend.
    + exists c'. split.
      * cbn [length]. replace (Z.of_nat (S (length l)) + 1) with (Z.of_nat (length l) + 1 + 1) by lia.
        eapply loops_step; [exact Hrun|exact Hl].
      * by eapply woke_step.
Qed.

Lemma waiters_bound c o x : sched_inv c → Objects c !! o = Some x →
  Z.of_nat (length (WaitListHead x)) ≤ 18446744073709551552.
Proof.
  intros Hi Hx. apply NoDup_bounded_length; [lia|by eapply w_wnodup|].
  intros t (th & Ht & _)%(w_wait c Hi o x t Hx). pose proof (w_pos c Hi t th Ht). lia.
Qed.

Lemma wake_all_run s o x st :
  sched_inv (sched s) → Objects (sched s) !! o = Some x →
  ∃ c', KiWakeAllWaitersUnsafe o st s = Ok (tt, set_sched c' s) ∧
        woke o st (WaitListHead x) [] x (sched s) c'.
Proof.
  intros Hi Hx. unfold KiWakeAllWaitersUnsafe. set (body := λ _ : unit, _).
  destruct (wake_loop body (λ u, u) o st (λ _, True)) with (l := WaitListHead x) (i := tt) (s := s) (x := x)
    (rest := @nil Z) as (c' & Hl & Hw); try done.
  - intros i s0 x0 t rest th _ Hx0 Hw Ht. unfold body, get_object. erewrite deref_bind by exact Hx0.
    rewrite bool_decide_eq_false_2 by (by rewrite Hw).
    pose proof (wake_first_run s0 o x0 st Hx0) as Hr. rewrite Hw in Hr.
    erewrite bind_ok; [|by apply Hr]. by destruct i.
  - intros i s0 x0 Hx0 [Hw|Hw]; [|tauto]. unfold body, get_object. erewrite deref_bind by exact Hx0.
    by rewrite bool_decide_eq_true_2.
  - by rewrite app_nil_r.
  - by left.
  - exists c'. split; [|done]. eapply loop_ok; [exact Hl|].
    pose proof (waiters_bound _ o x Hi Hx). lia.
Qed.

Lemma iter_add (k : nat) i : Nat.iter k (λ i, i + 1) i = i + Z.of_nat k.
Proof. revert i. induction k as [|k IH]; intros i; [simpl; lia|]. rewrite Nat.iter_succ, IH. lia. Qed.

(** A release wakes [Adjustment] waiters, or all of them if there are fewer. *)
Lemma wake_some_run s o x adj :
  sched_inv (sched s) → Objects (sched s) !! o = Some x →
  ∃ c', wake_some o adj s = Ok (tt, set_sched c' s) ∧
    woke o STATUS_WAIT_0 (take (Z.to_nat adj) (WaitListHead x)) (drop (Z.to_nat adj) (WaitListHead x))
      x (sched s) c'.
Proof.
  intros Hi Hx. unfold wake_some. set (body := λ i : Z, _).
  destruct (wake_loop body (λ i, i + 1) o STATUS_WAIT_0 (λ i, i < adj)) with
    (l := take (Z.to_nat adj) (WaitListHead x)) (i := 0) (s := s) (x := x)
    (rest := drop (Z.to_nat adj) (WaitListHead x)) as (c' & Hl & Hw); try done.
  - intros i s0 x0 t rest th Hgo Hx0 Hw Ht. unfold body. replace (i <? adj) with true by lia.
    unfold get_object. erewrite deref_bind by exact Hx0.
    rewrite bool_decide_eq_false_2 by (by rewrite Hw).
    pose proof (wake_first_run s0 o x0 STATUS_WAIT_0 Hx0) as Hr. rewrite Hw in Hr.
    erewrite bind_ok; [|by apply Hr]. done.
  - intros i s0 x0 Hx0 Hw. unfold body. destruct (i <? adj) eqn:E; [|done].
    unfold get_object. erewrite deref_bind by exact Hx0.
    destruct Hw as [Hw|Hw]; [|lia]. by rewrite bool_decide_eq_true_2.
  - by rewrite take_drop.
  - intros k Hk. rewrite length_take in Hk. rewrite iter_add. lia.
  - rewrite iter_add, length_take. destruct (decide (length (WaitListHead x) ≤ Z.to_nat adj)%nat).
    + left. by apply drop_ge.
    + right. lia.
  - exists c'. split; [|done]. eapply loop_ok; [exact Hl|].
    pose proof (waiters_bound _ o x Hi Hx). rewrite length_take. lia.
Qed.

(** ** Events *)

Lemma woke_current o st l rest x c c' k :
  sched_inv c → Objects c !! o = Some x → WaitListHead x = l ++ rest →
  woke o st l rest x c c' → k ≠ Waiting → current_is k c → current_is k c'.
Proof.
  intros Hi Hx Hl Hw Hk (th & Ht & Hs). exists th. rewrite (wk_cur _ _ _ _ _ _ _ Hw).
  split; [|done]. rewrite (wk_other _ _ _ _ _ _ _ Hw); [done|]. intros Hin.
  destruct (proj1 (w_wait c Hi o x (CurrentThread c) Hx)) as (y & Hy & Hs' & _).
  - rewrite Hl. apply elem_of_app. by left.
  - simplify_eq.
Qed.

(** What KeSetEvent leaves behind, by event type. *)
Definition set_event_post (Event : Z) (x : KOBJECT) (c c' : SCHED) : Prop :=
  if OType x =? EventObject then
    woke Event STATUS_WAIT_0 (WaitListHead x) [] (with_signal 1 x)
      (upd_object Event (with_signal 1 x) c) c'
  else match WaitListHead x with
  | [] => c' = upd_object Event (with_signal 1 x) c
  | t :: rest =>
      KiReadyListHead c' = KiReadyListHead c ++ [t] ∧
      Objects c' = <[Event := with_signal 0 (with_waiters rest x)]> (Objects c) ∧
      CurrentThread c' = CurrentThread c ∧
      (∃ th, Threads c' !! t = Some th ∧ TState th = Ready ∧ WaitStatus th = STATUS_WAIT_0) ∧
      ∀ a, a ≠ t → Threads c' !! a = Threads c !! a
  end.

Lemma set_event_run s e x :
  ks_wf s → Objects (sched s) !! e = Some x →
  ∃ c', KeSetEvent e s = Ok (SignalState x, set_sched c' s) ∧ sched_wf c' ∧
        set_event_post e x (sched s) c'.
Proof.
  intros ([Hi Hcur] & Hl & Hc) Hx. unfold KeSetEvent, set_event_post.
  rewrite acquire_bind by done. unfold get_object. erewrite deref_bind by exact Hx. cbn zeta.
  erewrite bind_ok; [|reflexivity].
  set (c1 := upd_object e (with_signal 1 x) (sched s)).
  change (set_sched (upd_object e (with_signal 1 x) (sched (locked DispatcherLock s))) (locked DispatcherLock s))
    with (set_sched c1 (locked DispatcherLock s)).
  set (s1 := set_sched c1 (locked DispatcherLock s)).
  assert (Hi1 : sched_inv c1) by (by eapply upd_object_inv).
  assert (Hx1 : Objects c1 !! e = Some (with_signal 1 x)) by (simpl; apply lookup_insert_eq).
  destruct (OType x =? EventObject).
  - destruct (wake_all_run s1 e _ STATUS_WAIT_0 Hi1 Hx1) as (c' & Hr & Hw).
    exists c'. split_and!.
    + erewrite bind_ok; [|exact Hr]. by apply (release_ks_bind s c').
    + split; [apply Hw|]. eapply (woke_current e _ _ [] _ c1); try done. by rewrite app_nil_r.
    + done.
  - pose proof (wake_first_run s1 e _ STATUS_WAIT_0 Hx1) as Hr. simpl WaitListHead in Hr.
    destruct (WaitListHead x) as [|t rest] eqn:Hw.
    + exists c1. erewrite bind_ok; [|exact Hr]. cbn [Z.eqb]. split_and!; [by apply (release_ks_bind s c1)|done|done].
    + destruct (inv_waiter c1 e (with_signal 1 x) t rest Hi1 Hx1 Hw) as (th & Ht & _ & _ & Hne).
      specialize (Hr th Ht). set (c2 := wake_sched _ _ _ _ _ _ _) in Hr.
      assert (Hi2 : sched_inv c2) by (by apply wake_sched_inv).
      erewrite bind_ok; [|exact Hr]. replace (t =? 0) with false by lia.
      erewrite deref_bind; [|apply lookup_insert_eq].
      erewrite bind_ok; [|reflexivity]. set (c3 := upd_object e (with_signal 0 (with_waiters rest (with_signal 1 x))) c2).
      exists c3. split; [by apply (release_ks_bind s c3)|].
      split; [split|].
      * apply (upd_object_inv _ _ (with_waiters rest (with_signal 1 x))); [done| |done].
        unfold c2, wake_sched. simpl. apply lookup_insert_eq.
      * change (current_is Running c2). by apply wake_current.
      * simpl. rewrite !insert_insert_eq. split_and!; try done.
        -- rewrite lookup_insert_eq. eauto.
        -- intros a Ha. by rewrite lookup_insert_ne.
Qed.

(** Setting an event returns its previous state and keeps the dispatcher's
    invariant.  A notification event stays signaled and wakes every waiter, in
    order; a synchronization event hands its signal to the first waiter alone
    and is left not signaled, or stays signaled when nobody waits.  No thread
    other than the woken ones changes. *)
Theorem KeSetEvent_spec (s : KS) (e : Z) (x : KOBJECT)
    (Hwf : ks_wf s) (Hx : Objects (sched s) !! e = Some x) :
  ∃ c', KeSetEvent e s = Ok (SignalState x, set_sched c' s) ∧ ks_wf (set_sched c' s) ∧
    (OType x = EventObject →
       Objects c' !! e = Some (with_waiters [] (with_signal 1 x)) ∧
       KiReadyListHead c' = KiReadyListHead (sched s) ++ WaitListHead x) ∧
    (OType x ≠ EventObject → WaitListHead x = [] →
       c' = upd_object e (with_signal 1 x) (sched s)) ∧
    (∀ t rest, OType x ≠ EventObject → WaitListHead x = t :: rest →
       Objects c' !! e = Some (with_signal 0 (with_waiters rest x)) ∧
       KiReadyListHead c' = KiReadyListHead (sched s) ++ [t]) ∧
    (∀ a, a ∉ WaitListHead x → Threads c' !! a = Threads (sched s) !! a).
Proof.
  destruct (set_event_run s e x Hwf Hx) as (c' & Hr & Hwf' & Hp). exists c'.
  split; [done|]. split; [by destruct Hwf as (_ & ? & ?)|]. unfold set_event_post in Hp.
  destruct (OType x =? EventObject) eqn:E.
  - split_and!; try (intros; lia).
    + intros _. rewrite (wk_obj _ _ _ _ _ _ _ Hp), lookup_insert_eq. split; [done|].
      apply (wk_ready _ _ _ _ _ _ _ Hp).
    + intros a Ha. by rewrite (wk_other _ _ _ _ _ _ _ Hp).
  - destruct (WaitListHead x) as [|t rest] eqn:Hw.
    + subst c'. split_and!; try done; intros; lia.
    + destruct Hp as (Hrd & Ho & _ & _ & Hoth). split_and!; try (intros; lia || done).
      * intros t' rest' _ [= <- <-]. split; [|done]. rewrite Ho. apply lookup_insert_eq.
      * intros a Ha. apply Hoth. intros ->. apply Ha. by left.
Qed.

(** ** Dispatching *)

(** The scheduler's data after a switch from the current thread (record [o])
    to the head of the ready list (record [n]). *)
Definition switch_sched (New : Z) (rest : list Z) (o n : KTHREAD) (c : SCHED) : SCHED :=
  let Old := CurrentThread c in
  let run := bool_decide (TState o = Running) in
  mkSched
    (<[Old := with_sp (u64 (Rsp c - 64)) (if run then with_state Ready o else o)]>
       (<[New := with_state Running n]> (Threads c)))
    (Objects c)
    (if run then rest ++ [Old] else rest)
    New
    (u64 (StackPointer n + 64))
    (if truthy (KernelStack n) then KernelStack n else TssRsp0 c).

Lemma dispatch_run s New rest o n :
  can_lock (ks_pcr s) → KiDispatcherLock s = 0 → CurrentThread (sched s) ≠ 0 →
  KiReadyListHead (sched s) = New :: rest → New ≠ CurrentThread (sched s) →
  Threads (sched s) !! CurrentThread (sched s) = Some o → Threads (sched s) !! New = Some n →
  KiDispatchNextThread s = Ok (true, set_sched (switch_sched New rest o n (sched s)) s).
Proof.
  intros Hc Hl H0 Hr Hne Ho Hn. unfold KiDispatchNextThread, get_thread. rewrite acquire_bind by done.
  unfold mbind at 1, M_bind at 1. cbn [mgets].
  change (sched (locked DispatcherLock s)) with (sched s). rewrite Hr.
  unfold mbind at 1, M_bind at 1. cbn [mgets]. change (sched (locked DispatcherLock s)) with (sched s).
  set (Old := CurrentThread (sched s)) in *.
  erewrite bind_ok; [|reflexivity]. erewrite deref_bind by exact Hn.
  erewrite bind_ok; [|reflexivity]. replace (truthy Old) with true by (unfold truthy; lia).
  set (c1 := upd_thread New (with_state Running n) (set_ready rest (sched s))).
  set (c2 := if bool_decide (TState o = Running)
             then set_ready (rest ++ [Old]) (upd_thread Old (with_state Ready o) c1) else c1).
  assert (Ho1 : Threads c1 !! Old = Some o) by (simpl; rewrite lookup_insert_ne; done).
  erewrite (bind_ok _ _ _ tt (set_sched c2 (locked DispatcherLock s))).
  2: { rewrite mwhen_true. erewrite deref_bind by exact Ho1. unfold c2. by case_bool_decide. }
  set (c3 := set_current New c2).
  assert (Hn3 : Threads c3 !! New = Some (with_state Running n)).
  { unfold c3, c2. case_bool_decide; simpl; [rewrite lookup_insert_ne by done|]; apply lookup_insert_eq. }
  assert (Hold3 : Threads c3 !! Old = Some (if bool_decide (TState o = Running) then with_state Ready o else o)).
  { unfold c3, c2. case_bool_decide; simpl; [apply lookup_insert_eq|done]. }
  erewrite bind_ok; [|reflexivity].
  change (set_sched (set_current New (sched (set_sched c2 (locked DispatcherLock s)))) (set_sched c2 (locked DispatcherLock s)))
    with (set_sched c3 (locked DispatcherLock s)).
  change (Irql (pcr s)) with (Irql (ks_pcr s)). rewrite release_ks_bind by done.
  erewrite deref_bind by exact Hn3. cbn [KernelStack with_state].
  set (c4 := if truthy (KernelStack n) then set_rsp0 (KernelStack n) c3 else c3).
  erewrite (bind_ok _ _ _ tt (set_sched c4 s)).
  2: { unfold mwhen, c4. by destruct (truthy (KernelStack n)). }
  assert (Ht4 : Threads c4 = Threads c3) by (unfold c4; by destruct (truthy _)).
  rewrite mwhen_true. unfold KiSwapContext, get_thread.
  erewrite bind_ok.
  2: { erewrite deref_bind by (simpl; rewrite Ht4; exact Hold3).
       unfold mbind at 1, M_bind at 1. cbn [mgets]. erewrite bind_ok; [|reflexivity].
       erewrite deref_bind; [reflexivity|]. simpl. rewrite Ht4, lookup_insert_ne by done. exact Hn3. }
  unfold mret, M_ret. do 2 f_equal. unfold switch_sched, c4, c3, c2. fold Old.
  destruct s as [k l c]; unfold set_sched; simpl in *. f_equal.
  by case_bool_decide; destruct (truthy (KernelStack n)); simpl; unfold set_rsp; simpl;
    rewrite ?insert_insert_eq.
Qed.

(** Facts about a dispatch, from the invariant. *)
Lemma switch_inv c New rest o n :
  sched_inv c → KiReadyListHead c = New :: rest →
  Threads c !! CurrentThread c = Some o → Threads c !! New = Some n → TState o ≠ Ready →
  New ≠ CurrentThread c ∧ sched_wf (switch_sched New rest o n c).
Proof.
  intros [H1 H2 H3 H4 H5 H6 H7] Hr Ho Hn Hst. rewrite Hr in H1. apply NoDup_cons in H1 as [Hnotin Hnd].
  assert (Hnr : TState n = Ready).
  { destruct (proj1 (H3 New)) as (y & Hy & Hs); [rewrite Hr; by left|]. by simplify_eq. }
  assert (Hne : New ≠ CurrentThread c) by (intros Heq; rewrite <- Heq in Ho; congruence).
  assert (Hcr : CurrentThread c ∉ rest).
  { intros Hin. destruct (proj1 (H3 (CurrentThread c))) as (y & Hy & Hs); [rewrite Hr; by right|].
    congruence. }
  split; [done|]. unfold switch_sched. split.
  2: { exists (with_state Running n). simpl. rewrite lookup_insert_ne, lookup_insert_eq by done. done. }
  set (o' := with_sp _ _). set (Old := CurrentThread c) in *.
  assert (Ho' : TState o' = if bool_decide (TState o = Running) then Ready else TState o)
    by (unfold o'; by case_bool_decide).
  assert (Hlook : ∀ t th, <[Old := o']> (<[New := with_state Running n]> (Threads c)) !! t = Some th ↔
    (t = Old ∧ th = o') ∨ (t = New ∧ th = with_state Running n) ∨
    (t ≠ Old ∧ t ≠ New ∧ Threads c !! t = Some th)).
  { intros t th. rewrite !lookup_insert_Some. naive_solver. }
  assert (Hwo : TState o' = Waiting → TState o = Waiting ∧ WaitObject o' = WaitObject o).
  { rewrite Ho'. unfold o'. by case_bool_decide. }
  assert (Hrest : ∀ t, t ∈ rest ↔ t ≠ New ∧ ∃ th, Threads c !! t = Some th ∧ TState th = Ready).
  { intros t. rewrite <- H3, Hr, elem_of_cons. split; [|tauto]. intros Hin. split; [|auto]. by intros ->. }
  constructor; cbn [Threads Objects KiReadyListHead CurrentThread].
  - case_bool_decide; [|done]. apply NoDup_app. split_and!; [done| |apply NoDup_singleton].
    intros a Ha ->%list_elem_of_singleton. done.
  - done.
  - intros t. setoid_rewrite Hlook. transitivity ((t ∈ rest) ∨ (t = Old ∧ TState o = Running)).
    { case_bool_decide; rewrite ?elem_of_app, ?list_elem_of_singleton; tauto. }
    rewrite Hrest. split.
    + intros [(Hn' & th & Ht & Hs)|[-> Hs]].
      * exists th. split; [|done]. right. right. split_and!; [|done|done]. intros ->. congruence.
      * exists o'. split; [by left|]. rewrite Ho'. by rewrite bool_decide_eq_true_2.
    + intros (th & [[-> ->]|[[-> ->]|(Ha & Hb & Ht)]] & Hs); [|done|].
      * right. split; [done|]. rewrite Ho' in Hs. by case_bool_decide.
      * left. split; [done|]. eauto.
  - intros ob x t Hx. rewrite (H4 ob x t Hx). setoid_rewrite Hlook. split.
    + intros (th & Ht & Hs & Hob). destruct (decide (t = Old)) as [->|Ha].
      * exists o'. assert (th = o) as -> by (unfold Old in *; congruence). split; [by left|].
        rewrite Ho', bool_decide_eq_false_2 by congruence. split; [done|].
        unfold o'. by rewrite bool_decide_eq_false_2 by congruence.
      * exists th. split; [|done]. right. right. split_and!; [done| |done]. intros ->. congruence.
    + intros (th & [[-> ->]|[[-> ->]|(Ha & Hb & Ht)]] & Hs & Hob); [|done|by eauto].
      destruct (Hwo Hs) as [Hs' Hob']. exists o. split_and!; [done|done|congruence].
  - intros t th. rewrite Hlook. intros [[-> ->]|[[-> ->]|(Ha & Hb & Ht)]] Hs; [|done|by eauto].
    destruct (Hwo Hs) as [Hs' ->]. eauto.
  - intros t th. rewrite Hlook. intros [[-> ->]|[[-> ->]|(Ha & Hb & Ht)]] Hs; [|done|].
    + rewrite Ho' in Hs. by case_bool_decide.
    + by destruct (Ha (H6 t th Ht Hs)).
  - intros t th. rewrite Hlook. intros [[-> ->]|[[-> ->]|(Ha & Hb & Ht)]]; eauto.
Qed.

(** A dispatch by a thread that is not Ready, with somebody to run. *)
Lemma dispatch_wf s New rest o :
  sched_inv (sched s) → KiDispatcherLock s = 0 → can_lock (ks_pcr s) →
  KiReadyListHead (sched s) = New :: rest →
  Threads (sched s) !! CurrentThread (sched s) = Some o → TState o ≠ Ready →
  ∃ n, Threads (sched s) !! New = Some n ∧
    KiDispatchNextThread s = Ok (true, set_sched (switch_sched New rest o n (sched s)) s) ∧
    ks_wf (set_sched (switch_sched New rest o n (sched s)) s).
Proof.
  intros Hi Hl Hc Hr Ho Hst.
  destruct (proj1 (w_ready _ Hi New)) as (n & Hn & _); [rewrite Hr; by left|].
  destruct (switch_inv _ New rest o n Hi Hr Ho Hn Hst) as [Hne Hwf].
  exists n. split; [done|]. split; [|done]. apply dispatch_run; try done.
  pose proof (w_pos _ Hi _ _ Ho). lia.
Qed.

(** Yield [k] times in a row, whoever is running. *)
Fixpoint yields (k : nat) : M KS unit :=
  match k with O => mret tt | S k' => KiDispatchNextThread;; yields k' end.

Definition same_status (c c' : SCHED) : Prop :=
  ∀ t, WaitStatus <$> Threads c' !! t = WaitStatus <$> Threads c !! t.

Lemma yields_rotate k : ∀ s, ks_wf s → (k ≤ length (KiReadyListHead (sched s)))%nat →
  let L := CurrentThread (sched s) :: KiReadyListHead (sched s) in
  ∃ s', yields k s = Ok (tt, s') ∧ ks_wf s' ∧
    CurrentThread (sched s') :: KiReadyListHead (sched s') = drop k L ++ take k L ∧
    same_status (sched s) (sched s') ∧ Objects (sched s') = Objects (sched s).
Proof.
  induction k as [|k IH]; intros s Hwf Hk; cbn zeta.
  { exists s. split; [done|]. split; [done|]. cbn [drop take]. by rewrite app_nil_r. }
  pose proof Hwf as ([Hi (o & Ho & Hst)] & Hl & Hc).
  destruct (KiReadyListHead (sched s)) as [|New rest] eqn:Hr; [simpl in Hk; lia|].
  destruct (dispatch_wf s New rest o Hi Hl Hc Hr Ho) as (n & Hn & Hrun & Hwf'); [congruence|].
  set (s1 := set_sched _ s) in *.
  assert (Hr1 : KiReadyListHead (sched s1) = rest ++ [CurrentThread (sched s)]).
  { simpl. by rewrite bool_decide_eq_true_2. }
  destruct (IH s1 Hwf') as (s' & Hy & Hwf'' & Hrot & Hss & Hob).
  { rewrite Hr1, length_app. simpl in *. lia. }
  exists s'. split; [cbn [yields]; by erewrite bind_ok|]. split; [done|]. split_and!; [| |done].
  - rewrite Hrot, Hr1.
    change (CurrentThread (sched s1)) with New. cbn [length] in Hk. cbn [drop take].
    change (New :: rest ++ [CurrentThread (sched s)]) with ((New :: rest) ++ [CurrentThread (sched s)]).
    rewrite drop_app_le, take_app_le by (simpl; lia). by rewrite <- app_assoc.
  - intros t. rewrite Hss. simpl.
    destruct (decide (t = CurrentThread (sched s))) as [->|H1].
    { rewrite lookup_insert_eq, Ho. simpl. by case_bool_decide. }
    rewrite lookup_insert_ne by done. destruct (decide (t = New)) as [->|H2].
    + by rewrite lookup_insert_eq, Hn.
    + by rewrite lookup_insert_ne.
Qed.

(** [C12] The dispatcher is a fair round robin: [k] voluntary yields rotate the
    queue made of the current thread and the ready list by [k], so every
    ready thread runs after at most as many yields as there are ready
    threads, in the order of the list, and the invariant holds throughout. *)
Theorem round_robin (k : nat) (s : KS) (Hwf : ks_wf s)
    (Hk : (k ≤ length (KiReadyListHead (sched s)))%nat) :
  let L := CurrentThread (sched s) :: KiReadyListHead (sched s) in
  ∃ s', yields k s = Ok (tt, s') ∧ ks_wf s' ∧
    CurrentThread (sched s') :: KiReadyListHead (sched s') = drop k L ++ take k L ∧
    L !! k = Some (CurrentThread (sched s')).
Proof.
  destruct (yields_rotate k s Hwf Hk) as (s' & Hy & Hwf' & Hrot & _). cbn zeta.
  exists s'. split_and!; [done|done|done|].
  set (L := CurrentThread (sched s) :: KiReadyListHead (sched s)) in *.
  assert (k < length L)%nat as Hlt by (unfold L; cbn [length]; lia).
  destruct (lookup_lt_is_Some_2 L k Hlt) as [t Ht]. rewrite Ht. f_equal.
  rewrite (drop_S _ _ _ Ht) in Hrot. by injection Hrot as -> _.
Qed.

(** ** Waiting *)

Definition block_sched (o : Z) (x : KOBJECT) (th : KTHREAD) (c : SCHED) : SCHED :=
  let t := CurrentThread c in
  upd_object o (with_waiters (WaitListHead x ++ [t]) x)
    (upd_thread t (with_wait Waiting (WaitStatus th) o th) c).

Lemma block_inv c o x th :
  sched_inv c → Objects c !! o = Some x → Threads c !! CurrentThread c = Some th →
  TState th = Running → sched_inv (block_sched o x th c).
Proof.
  intros [H1 H2 H3 H4 H5 H6 H7] Hx Ht Hs. set (t := CurrentThread c) in *. unfold block_sched. fold t.
  set (th' := with_wait Waiting (WaitStatus th) o th).
  assert (Hnot : t ∉ WaitListHead x).
  { intros (y & Hy & Hw & _)%(H4 o x t Hx). congruence. }
  constructor; simpl.
  - done.
  - intros o' y. destruct (decide (o' = o)) as [->|Hne].
    + rewrite lookup_insert_eq. intros [= <-]. simpl. apply NoDup_app.
      split_and!; [eauto| |apply NoDup_singleton]. by intros a Ha ->%list_elem_of_singleton.
    + rewrite lookup_insert_ne by done. eauto.
  - intros a. rewrite H3. destruct (decide (a = t)) as [->|Hne].
    + rewrite lookup_insert_eq, Ht. split; intros (y & [= <-] & Hy); [congruence|done].
    + by rewrite lookup_insert_ne.
  - intros o' y a Hy. destruct (decide (o' = o)) as [->|Hne].
    + rewrite lookup_insert_eq in Hy. injection Hy as <-. simpl.
      rewrite elem_of_app, list_elem_of_singleton, (H4 o x a Hx).
      destruct (decide (a = t)) as [->|Ha].
      * rewrite lookup_insert_eq. split; [|auto]. intros _. by exists th'.
      * rewrite lookup_insert_ne by done. naive_solver.
    + rewrite lookup_insert_ne in Hy by done. rewrite (H4 o' y a Hy).
      destruct (decide (a = t)) as [->|Ha].
      * rewrite lookup_insert_eq, Ht. split; intros (z & [= <-] & Hz & Ho); [congruence|]. by simpl in Ho.
      * by rewrite lookup_insert_ne.
  - intros a y. destruct (decide (a = t)) as [->|Ha].
    + rewrite lookup_insert_eq. intros [= <-] _. simpl. rewrite lookup_insert_eq. eauto.
    + rewrite lookup_insert_ne by done. intros Ha' Hw.
      destruct (decide (o = WaitObject y)) as [->|?]; [rewrite lookup_insert_eq; eauto|].
      rewrite lookup_insert_ne by done. eauto.
  - intros a y. destruct (decide (a = t)) as [->|Ha]; [by intros _ _|].
    rewrite lookup_insert_ne by done. eauto.
  - intros a y. destruct (decide (a = t)) as [->|Ha]; [intros _; eauto|].
    rewrite lookup_insert_ne by done. eauto.
Qed.

(** The first half of KiWaitThread. *)
Lemma wait_enqueue s o x th :
  ks_wf s → Objects (sched s) !! o = Some x →
  Threads (sched s) !! CurrentThread (sched s) = Some th →
  KiWaitThread (CurrentThread (sched s)) o s =
  KiDispatchNextThread (set_sched (block_sched o x th (sched s)) s).
Proof.
  intros (_ & Hl & Hc) Hx Ht. unfold KiWaitThread, get_thread, get_object.
  rewrite acquire_bind by done. erewrite deref_bind by exact Ht.
  erewrite bind_ok; [|reflexivity]. erewrite deref_bind by exact Hx.
  erewrite bind_ok; [|reflexivity]. by apply (release_ks_bind s (block_sched o x th (sched s))).
Qed.

(** What a wait on a signaled object does to the object. *)
Definition consume (cur : Z) (x : KOBJECT) : KOBJECT :=
  if OType x =? MutantObject then with_owner cur (with_signal 0 x)
  else if OType x =? SynchronizationEvent then with_signal 0 x
  else x.

Lemma wait_signaled s o x tmo :
  Objects (sched s) !! o = Some x → SignalState x ≠ 0 →
  KeWaitForSingleObject o tmo s =
  Ok (Returned STATUS_WAIT_0, set_sched (upd_object o (consume (CurrentThread (sched s)) x) (sched s)) s).
Proof.
  intros Hx Hs. unfold KeWaitForSingleObject, get_object. unfold mbind at 1, M_bind at 1. cbn [mgets].
  erewrite deref_bind by exact Hx. replace (truthy (SignalState x)) with true by (unfold truthy; lia).
  unfold consume. destruct (OType x =? MutantObject) eqn:Em.
  - rewrite orb_true_r. erewrite bind_ok.
    2: { erewrite bind_ok; [|reflexivity]. rewrite mwhen_true.
         erewrite deref_bind; [reflexivity|]. apply lookup_insert_eq. }
    unfold mret, M_ret. do 2 f_equal. destruct s as [k l c]; unfold set_sched, upd_object; simpl.
    by rewrite insert_insert_eq.
  - rewrite orb_false_r. destruct (OType x =? SynchronizationEvent).
    + erewrite bind_ok; [|erewrite bind_ok; [|reflexivity]; reflexivity]. done.
    + erewrite bind_ok; [|reflexivity]. unfold mret, M_ret. do 2 f_equal.
      destruct s as [k l c]; unfold set_sched, upd_object; simpl. rewrite insert_id by done. by destruct c.
Qed.

Lemma wait_blocks s o x th New rest tmo :
  ks_wf s → Objects (sched s) !! o = Some x → SignalState x = 0 → tmo ≠ Some 0 →
  Threads (sched s) !! CurrentThread (sched s) = Some th →
  KiReadyListHead (sched s) = New :: rest →
  ∃ s', KeWaitForSingleObject o tmo s = Ok (SwitchedAway, s') ∧ ks_wf s' ∧
    CurrentThread (sched s') = New ∧ KiReadyListHead (sched s') = rest ∧
    Objects (sched s') = <[o := with_waiters (WaitListHead x ++ [CurrentThread (sched s)]) x]> (Objects (sched s)).
Proof.
  intros Hwf Hx Hs Ht Hth Hr. pose proof Hwf as ([Hi (th' & Hth' & Hrun)] & Hl & Hc).
  assert (th' = th) as -> by congruence.
  set (s1 := set_sched (block_sched o x th (sched s)) s).
  destruct (dispatch_wf s1 New rest (with_wait Waiting (WaitStatus th) o th)) as (n & Hn & Hd & Hw); try done.
  - by apply block_inv.
  - simpl. apply lookup_insert_eq.
  - eexists. split; [|split; [exact Hw|]].
    + unfold KeWaitForSingleObject, get_object. unfold mbind at 1, M_bind at 1. cbn [mgets].
      erewrite deref_bind by exact Hx. rewrite Hs. cbn [truthy Z.eqb negb].
      unfold truthy; simpl. rewrite bool_decide_eq_false_2 by done.
      erewrite bind_ok; [|rewrite (wait_enqueue s o x th Hwf Hx Hth); exact Hd]. done.
    + simpl. split_and!; done.
Qed.

(** When no other thread is ready, a wait on an unsignaled object does not
    wait: it returns the thread's old WaitStatus at once, with the object still
    unsignaled, and leaves the running thread on the ready list, so that the
    dispatcher's invariant is lost. *)
Theorem wait_alone_returns (s : KS) (o : Z) (x : KOBJECT) (th : KTHREAD) (tmo : option Z)
    (Hwf : ks_wf s) (Hx : Objects (sched s) !! o = Some x) (Hs : SignalState x = 0)
    (Ht : tmo ≠ Some 0) (Hth : Threads (sched s) !! CurrentThread (sched s) = Some th)
    (Hr : KiReadyListHead (sched s) = []) :
  ∃ s', KeWaitForSingleObject o tmo s = Ok (Returned (u32 (WaitStatus th)), s') ∧
    Objects (sched s') !! o = Some x ∧
    CurrentThread (sched s') = CurrentThread (sched s) ∧
    KiReadyListHead (sched s') = [CurrentThread (sched s)] ∧ ¬ sched_wf (sched s').
Proof.
  pose proof Hwf as ([Hi (th' & Hth' & Hrun)] & Hl & Hc). assert (th' = th) as -> by congruence.
  set (t := CurrentThread (sched s)) in *. set (c1 := block_sched o x th (sched s)).
  set (th1 := with_wait Waiting (WaitStatus th) o th).
  assert (Hnot : t ∉ WaitListHead x).
  { intros (y & Hy & Hw & _)%(w_wait _ Hi o x t Hx). congruence. }
  set (c2 := mkSched (<[t := with_state Ready th1]> (Threads c1))
    ((λ y, with_waiters (filter (λ z, z ≠ t) (WaitListHead y)) y) <$> Objects c1)
    (filter (λ z, z ≠ t) (KiReadyListHead c1) ++ [t]) t (Rsp c1) (TssRsp0 c1)).
  exists (set_sched c2 s). split; [|split_and!].
  - unfold KeWaitForSingleObject, get_object. unfold mbind at 1, M_bind at 1. cbn [mgets].
    erewrite deref_bind by exact Hx. rewrite Hs. unfold truthy; simpl.
    rewrite bool_decide_eq_false_2 by done. fold t.
    erewrite (bind_ok _ _ _ false (set_sched c1 s)).
    2: { unfold t. rewrite (wait_enqueue s o x th Hwf Hx Hth). fold c1. unfold KiDispatchNextThread.
         rewrite acquire_bind by done. unfold mbind at 1, M_bind at 1. cbn [mgets].
         change (KiReadyListHead (sched (locked DispatcherLock (set_sched c1 s)))) with (KiReadyListHead (sched s)).
         rewrite Hr. by apply (release_ks_bind s c1). }
    unfold KeWait_resume, KiWaitThread_resume, get_thread.
    erewrite (bind_ok _ _ _ tt (set_sched c2 s)).
    2: { rewrite acquire_bind by done. erewrite deref_bind by (simpl; apply lookup_insert_eq).
         rewrite bool_decide_eq_true_2 by done. erewrite bind_ok.
         2: { erewrite bind_ok; [|reflexivity]. erewrite bind_ok; [|reflexivity]. reflexivity. }
         by apply (release_ks s c2). }
    erewrite deref_bind by (simpl; apply lookup_insert_eq). reflexivity.
  - simpl. rewrite lookup_fmap, lookup_insert_eq. simpl. rewrite filter_app, filter_cons_False by tauto.
    rewrite app_nil_r. f_equal. destruct x as [a b w l cc ow]; unfold with_waiters; simpl in *. f_equal.
    by apply filter_ne_id.
  - done.
  - simpl. rewrite Hr. done.
  - intros [_ (y & Hy & Hbad)]. simpl in Hy. fold t in Hy. rewrite lookup_insert_eq in Hy. by simplify_eq/=.
Qed.


(** ** Semaphores and mutants *)

Lemma release_semaphore_run (s : KS) (o adj : Z) (x : KOBJECT)
    (Hwf : ks_wf s) (Hx : Objects (sched s) !! o = Some x)
    (Hr : -2147483648 ≤ CurrentCount x + adj < 2147483648) (Hl : 0 ≤ Limit x < 2147483648) :
  let c := Z.min (Limit x) (CurrentCount x + adj) in
  ∃ s', KeReleaseSemaphore o adj s = Ok (CurrentCount x, s') ∧ ks_wf s' ∧
    Objects (sched s') !! o = Some (with_waiters (drop (Z.to_nat adj) (WaitListHead x))
                                      (with_count c (if 0 <? c then 1 else 0) x)) ∧
    KiReadyListHead (sched s') = KiReadyListHead (sched s) ++ take (Z.to_nat adj) (WaitListHead x).
Proof.
  pose proof Hwf as ([Hi Hcur] & Hlk & Hc). intros c.
  assert (Hs32 : ∀ z, -2147483648 ≤ z < 2147483648 → s32 z = z).
  { intros z Hz. unfold s32. rewrite Z.mod_small; lia. }
  set (x1 := with_count c (if 0 <? c then 1 else 0) x). set (c1 := upd_object o x1 (sched s)).
  destruct (wake_some_run (set_sched c1 (locked DispatcherLock s)) o x1 adj) as (c' & Hw & Hwk).
  { by eapply upd_object_inv. } { simpl. apply lookup_insert_eq. }
  exists (set_sched c' s). split_and!.
  - unfold KeReleaseSemaphore, get_object. erewrite deref_bind by exact Hx. cbn zeta.
    rewrite acquire_bind by done. erewrite deref_bind by exact Hx.
    rewrite !Hs32 by lia.
    replace (if Limit x <? CurrentCount x + adj then Limit x else CurrentCount x + adj) with c
      by (unfold c; case_if; lia).
    erewrite bind_ok; [|reflexivity]. erewrite bind_ok; [|exact Hw].
    by apply (release_ks_bind s c').
  - split; [|done]. split; [apply Hwk|].
    eapply (woke_current o _ _ _ _ c1); [| | |exact Hwk|done|done].
    + by eapply upd_object_inv.
    + simpl. apply lookup_insert_eq.
    + by rewrite take_drop.
  - simpl. rewrite (wk_obj _ _ _ _ _ _ _ Hwk), lookup_insert_eq. done.
  - simpl. apply (wk_ready _ _ _ _ _ _ _ Hwk).
Qed.

(** Releasing a semaphore returns the old count, adds the adjustment up to
    the limit, and wakes as many waiters as the adjustment, in order.  The
    units handed to the woken threads are not taken from the count. *)
Theorem KeReleaseSemaphore_spec (s : KS) (o adj : Z) (x : KOBJECT)
    (Hwf : ks_wf s) (Hx : Objects (sched s) !! o = Some x)
    (Hr : -2147483648 ≤ CurrentCount x + adj < 2147483648) (Hl : 0 ≤ Limit x < 2147483648) :
  let c := Z.min (Limit x) (CurrentCount x + adj) in
  ∃ s', KeReleaseSemaphore o adj s = Ok (CurrentCount x, s') ∧ ks_wf s' ∧
    Objects (sched s') !! o = Some (with_waiters (drop (Z.to_nat adj) (WaitListHead x))
                                      (with_count c (if 0 <? c then 1 else 0) x)) ∧
    KiReadyListHead (sched s') = KiReadyListHead (sched s) ++ take (Z.to_nat adj) (WaitListHead x).
Proof. by apply release_semaphore_run. Qed.

(** A mutant is free, unowned and without waiters, or owned. *)
Definition mutant_ok (x : KOBJECT) : Prop :=
  OType x = MutantObject ∧
  ((SignalState x = 1 ∧ OwnerThread x = 0 ∧ WaitListHead x = []) ∨
   (SignalState x = 0 ∧ OwnerThread x ≠ 0)).

(** [C15] Mutual exclusion by mutants, as long as another thread is ready.  A
    free mutant is taken by the thread that waits for it; while it is owned a
    wait with a zero timeout fails with no effect, and any other wait blocks
    when another thread is ready: the mutant keeps its owner and the caller
    joins the tail of its wait list.  When no other thread is ready the wait on
    an owned mutant returns at once with the thread's old WaitStatus, a success
    if its last wait succeeded, while the mutant still has its old owner, so
    exclusion is lost there.  A release by anybody but the owner has no effect;
    a release by the owner passes the mutant directly to the first waiter, or
    frees it when nobody waits. *)
Theorem mutant_protocol (s : KS) (o : Z) (x : KOBJECT)
    (Hwf : ks_wf s) (Hx : Objects (sched s) !! o = Some x) (Hm : mutant_ok x) :
  let cur := CurrentThread (sched s) in
  (SignalState x = 1 → ∀ tmo, ∃ s' x', KeWaitForSingleObject o tmo s = Ok (Returned STATUS_WAIT_0, s') ∧
     ks_wf s' ∧ Objects (sched s') !! o = Some x' ∧ mutant_ok x' ∧ OwnerThread x' = cur) ∧
  (SignalState x = 0 →
     KeWaitForSingleObject o (Some 0) s = Ok (Returned STATUS_TIMEOUT, s) ∧
     (∀ tmo, tmo ≠ Some 0 → KiReadyListHead (sched s) ≠ [] →
        ∃ s' x', KeWaitForSingleObject o tmo s = Ok (SwitchedAway, s') ∧ ks_wf s' ∧
          Objects (sched s') !! o = Some x' ∧ mutant_ok x' ∧ OwnerThread x' = OwnerThread x ∧
          WaitListHead x' = WaitListHead x ++ [cur]) ∧
     (∀ tmo th, tmo ≠ Some 0 → KiReadyListHead (sched s) = [] → Threads (sched s) !! cur = Some th →
        ∃ s', KeWaitForSingleObject o tmo s = Ok (Returned (u32 (WaitStatus th)), s') ∧
          Objects (sched s') !! o = Some x ∧ ¬ sched_wf (sched s'))) ∧
  (OwnerThread x ≠ cur → KeReleaseMutex o s = Ok (0, s)) ∧
  (OwnerThread x = cur → ∃ s' x', KeReleaseMutex o s = Ok (0, s') ∧ ks_wf s' ∧
     Objects (sched s') !! o = Some x' ∧ mutant_ok x' ∧
     match WaitListHead x with
     | [] => SignalState x' = 1
     | t :: rest => OwnerThread x' = t ∧ WaitListHead x' = rest ∧
                    KiReadyListHead (sched s') = KiReadyListHead (sched s) ++ [t]
     end).
Proof.
  pose proof Hwf as ([Hi (th & Hth & Hrun)] & Hlk & Hc). destruct Hm as [Hty Hst]. intros cur.
  assert (Hcur0 : cur ≠ 0) by (pose proof (w_pos _ Hi _ _ Hth); lia). split_and!.
  - intros Hs tmo. rewrite (wait_signaled s o x tmo Hx) by lia. eexists _, _. split; [reflexivity|].
    split_and!; [|simpl; apply lookup_insert_eq| |].
    + split; [|done]. split; [|by exists th]. eapply upd_object_inv; [done|exact Hx|].
      unfold consume. by repeat case_if.
    + unfold consume. rewrite Hty. split; [done|]. right. simpl. done.
    + unfold consume. by rewrite Hty.
  - intros Hs. split_and!.
    + unfold KeWaitForSingleObject, get_object. unfold mbind at 1, M_bind at 1. cbn [mgets].
      erewrite deref_bind by exact Hx. by rewrite Hs.
    + intros tmo Ht Hr. destruct (KiReadyListHead (sched s)) as [|New rest] eqn:Hrd; [done|].
      destruct (wait_blocks s o x th New rest tmo) as (s2 & Hw2 & Hwf2 & _ & _ & Ho); try done.
      exists s2, (with_waiters (WaitListHead x ++ [cur]) x).
      split_and!; try done; [rewrite Ho; apply lookup_insert_eq|].
      split; [done|]. right. split; [done|]. simpl. lia.
    + intros tmo th0 Ht Hr Hth0.
      destruct (wait_alone_returns s o x th0 tmo) as (s2 & Hw2 & Ho & _ & _ & Hbad); eauto.
  - intros Hne. unfold KeReleaseMutex, get_object. unfold mbind at 1, M_bind at 1. cbn [mgets].
    erewrite deref_bind by exact Hx. fold cur. by replace (OwnerThread x =? cur) with false by lia.
  - intros Hown. unfold KeReleaseMutex, get_object. unfold mbind at 1, M_bind at 1. cbn [mgets].
    erewrite deref_bind by exact Hx. fold cur. rewrite Hown, Z.eqb_refl. cbn [negb].
    set (c1 := upd_object o (with_owner 0 x) (sched s)).
    assert (Hi1 : sched_inv c1) by (by eapply upd_object_inv).
    assert (Hx1 : Objects c1 !! o = Some (with_owner 0 x)) by apply lookup_insert_eq.
    erewrite bind_ok; [|reflexivity].
    destruct (WaitListHead x) as [|t rest] eqn:Hwl.
    + rewrite bool_decide_eq_true_2 by done. erewrite bind_ok.
      2: { erewrite deref_bind by exact Hx1. reflexivity. }
      eexists _, _. split; [reflexivity|]. split_and!; [|simpl; apply lookup_insert_eq| |done].
      * split; [|done]. split; [|by exists th]. by eapply (upd_object_inv c1 o (with_owner 0 x)).
      * split; [done|]. left. done.
    + rewrite bool_decide_eq_false_2 by done.
      destruct (inv_waiter c1 o (with_owner 0 x) t rest Hi1 Hx1 Hwl) as (tw & Htw & Hsw & How & Hne).
      set (c2 := wake_sched o STATUS_WAIT_0 t (with_owner 0 x) tw rest c1).
      assert (Hi2 : sched_inv c2) by (by apply wake_sched_inv).
      set (c3 := upd_object o (with_signal 0 (with_owner t (with_waiters rest (with_owner 0 x)))) c2).
      erewrite (bind_ok _ _ _ tt (set_sched c3 s)).
      2: { erewrite (bind_ok _ _ _ t (set_sched c2 s)).
           - replace (truthy t) with true by (unfold truthy; lia). rewrite mwhen_true.
             erewrite deref_bind by apply lookup_insert_eq. done.
           - unfold KiWakeFirstWaiter. rewrite acquire_bind by done.
             pose proof (wake_first_run (locked DispatcherLock (set_sched c1 s)) o _ STATUS_WAIT_0 Hx1) as Hw.
             simpl WaitListHead in Hw. rewrite Hwl in Hw.
             erewrite bind_ok; [|by apply Hw]. by apply (release_ks_bind s c2). }
      eexists _, _. split; [reflexivity|]. split_and!; [|simpl; apply lookup_insert_eq| |done|done|done].
      * split; [|done]. split.
        -- apply (upd_object_inv c2 o (with_waiters rest (with_owner 0 x))); [done|apply lookup_insert_eq|done].
        -- change (current_is Running c2). apply wake_current; try done. by exists th.
      * split; [done|]. right. done.
Qed.

(** A wait for several objects that times out on its first unsignaled
    object reports that the object was signaled: STATUS_TIMEOUT is a success
    code, and every success is turned into STATUS_WAIT_0 plus the index. *)
Theorem multiple_wait_timeout (s : KS) (l1 l2 : list Z) (o : Z) (x : KOBJECT)
    (Hl1 : ∀ a, a ∈ l1 → ∃ y, Objects (sched s) !! a = Some y ∧ SignalState y ≠ 0)
    (Hx : Objects (sched s) !! o = Some x) (Hs : SignalState x = 0)
    (Hlen : Z.of_nat (length l1) < 4294967296) :
  KeWaitForMultipleObjects (l1 ++ o :: l2) (Some 0) s =
  Ok (Returned (STATUS_WAIT_0 + Z.of_nat (length l1)), s).
Proof.
  unfold KeWaitForMultipleObjects.
  assert (∀ i, 0 ≤ i → i + Z.of_nat (length l1) < 4294967296 →
    wait_first (l1 ++ o :: l2) i (Some 0) s = Ok (Returned (i + Z.of_nat (length l1)), s)) as Hgen.
  { clear Hlen. induction l1 as [|a l1 IH]; intros i Hi Hlt; cbn [app wait_first].
    - unfold get_object. erewrite deref_bind by exact Hx. rewrite Hs. cbn [Z.eqb].
      erewrite bind_ok.
      2: { unfold KeWaitForSingleObject, get_object. unfold mbind at 1, M_bind at 1. cbn [mgets].
           erewrite deref_bind by exact Hx. rewrite Hs. reflexivity. }
      simpl. unfold mret, M_ret, STATUS_WAIT_0. simpl in Hlt. rewrite u32_small by lia. do 3 f_equal. lia.
    - destruct (Hl1 a) as (y & Hy & Hsy); [by left|]. unfold get_object. erewrite deref_bind by exact Hy.
      replace (SignalState y =? 0) with false by lia.
      rewrite IH; [| |lia|cbn [length] in Hlt; lia].
      + do 3 f_equal. cbn [length]. lia.
      + intros b Hb. apply Hl1. by right. }
  rewrite Hgen by lia. do 3 f_equal.
Qed.

(** The rest of a wait, in a thread that was woken. *)
Lemma resume_run s t th :
  ks_wf s → Threads (sched s) !! t = Some th → TState th ≠ Waiting →
  KeWait_resume t s = Ok (Returned (u32 (WaitStatus th)), s).
Proof.
  intros (_ & Hl & Hc) Ht Hs. unfold KeWait_resume, KiWaitThread_resume, get_thread.
  erewrite (bind_ok _ _ _ tt s).
  2: { rewrite acquire_bind by done. erewrite deref_bind by exact Ht.
       rewrite bool_decide_eq_false_2 by done. erewrite bind_ok; [|reflexivity].
       by apply (release_framed DispatcherLock id); [..|apply framed_id]. }
  by erewrite deref_bind by exact Ht.
Qed.

(** Blocking and waking end to end: a thread that waits for an unsignaled
    synchronization event nobody else waits for loses the processor; when the
    thread that runs next sets the event and the ready threads then yield, the
    waiter runs again after one turn of the queue, its wait returns
    STATUS_WAIT_0, and the event is left unsignaled. *)
Theorem event_wait_completes (s : KS) (e New : Z) (rest : list Z) (x : KOBJECT)
    (Hwf : ks_wf s) (Hx : Objects (sched s) !! e = Some x)
    (Hty : OType x = SynchronizationEvent) (Hs : SignalState x = 0) (Hw : WaitListHead x = [])
    (Hr : KiReadyListHead (sched s) = New :: rest) :
  let me := CurrentThread (sched s) in
  ∃ s1 s2 s3, KeWaitForSingleObject e None s = Ok (SwitchedAway, s1) ∧
    (KeSetEvent e;; yields (S (length rest))) s1 = Ok (tt, s2) ∧
    CurrentThread (sched s2) = me ∧
    KeWait_resume me s2 = Ok (Returned STATUS_WAIT_0, s3) ∧ ks_wf s3 ∧
    (∃ x', Objects (sched s3) !! e = Some x' ∧ SignalState x' = 0).
Proof.
  pose proof Hwf as ([Hi (th & Hth & Hrun)] & Hl & Hc). intros me.
  destruct (wait_blocks s e x th New rest None) as (s1 & Hw1 & Hwf1 & Hc1 & Hr1 & Ho1); try done.
  set (x1 := with_waiters (WaitListHead x ++ [me]) x) in *.
  assert (Hx1 : Objects (sched s1) !! e = Some x1) by (rewrite Ho1; apply lookup_insert_eq).
  destruct (set_event_run s1 e x1 Hwf1 Hx1) as (c2 & Hset & Hwf2 & Hpost).
  unfold set_event_post in Hpost. unfold x1 in Hpost. rewrite Hw in Hpost. simpl in Hpost.
  rewrite Hty in Hpost. destruct Hpost as (Hrd & Hob & Hcur & (tm & Htm & Hrdy & Hst) & _).
  assert (Hwf2' : ks_wf (set_sched c2 s1)) by (split; [done|apply Hwf1]).
  destruct (yields_rotate (S (length rest)) (set_sched c2 s1) Hwf2') as (s2 & Hy & Hwf3 & Hrot & Hss & Hobj).
  { simpl. rewrite Hrd, Hr1, length_app. simpl. lia. }
  assert (Hme : CurrentThread (sched s2) = me).
  { simpl in Hrot. rewrite Hrd, Hr1, drop_app_length in Hrot. by injection Hrot as -> _. }
  pose proof Hwf3 as ([_ (tm' & Htm' & Hrun')] & _ & _). rewrite Hme in Htm'.
  specialize (Hss me). rewrite Htm' in Hss. simpl in Hss. rewrite Htm in Hss. injection Hss as Hst'.
  exists s1, s2, s2. split_and!; [done| |done| |done|].
  - erewrite bind_ok; [exact Hy|]. exact Hset.
  - rewrite (resume_run s2 me tm' Hwf3 Htm') by congruence. by rewrite Hst', Hst.
  - rewrite Hobj. simpl. rewrite Hob, lookup_insert_eq. eauto.
Qed.

(** ** Concrete runs *)

Definition demo_thread (st : KTHREAD_STATE) : KTHREAD := mkThread 0 0x5000 0x4F00 st 8 0 0 3.

(** Thread 16 runs, thread 32 is ready; 100 is an unsignaled synchronization
    event, 200 a free mutant, 300 a semaphore with one unit. *)
Definition demo_sched (ready : list Z) (st2 : KTHREAD_STATE) : SCHED :=
  mkSched {[ 16 := demo_thread Running; 32 := demo_thread st2 ]}
    {[ 100 := mkObject SynchronizationEvent 0 [] 0 0 0;
       200 := mkObject MutantObject 1 [] 0 0 0;
       300 := mkObject SemaphoreObject 1 [] 5 1 0 ]}
    ready 16 0x8000 0.

Definition demo_ks (ready : list Z) (st2 : KTHREAD_STATE) : KS := mkKS demo_pcr 0 (demo_sched ready st2).

Lemma demo_threads st2 t th :
  Threads (demo_sched [] st2) !! t = Some th →
  (t = 16 ∧ th = demo_thread Running) ∨ (t = 32 ∧ th = demo_thread st2).
Proof. simpl. rewrite lookup_insert_Some, lookup_singleton_Some. naive_solver. Defined.

Lemma demo_objects l st2 o x :
  Objects (demo_sched l st2) !! o = Some x → WaitListHead x = [].
Proof. simpl. rewrite !lookup_insert_Some, lookup_singleton_Some. naive_solver. Defined.

Lemma demo_inv l st2 :
  (l = [32] ∧ st2 = Ready) ∨ (l = [] ∧ st2 = Initialized) → sched_inv (demo_sched l st2).
Proof.
  intros Hl. constructor.
  - destruct Hl as [[-> _]|[-> _]]; simpl; [apply NoDup_singleton|constructor].
  - intros o x Hx. rewrite (demo_objects _ _ _ _ Hx). constructor.
  - intros t. split.
    + intros Ht. destruct Hl as [[-> ->]|[-> ->]]; simpl in *; [|by apply not_elem_of_nil in Ht].
      apply list_elem_of_singleton in Ht as ->. by exists (demo_thread Ready).
    + intros (th & [[-> ->]|[-> ->]]%demo_threads & Hs); [done|]. simpl in *.
      destruct Hl as [[-> ->]|[-> ->]]; [by left|done].
  - intros o x t Hx. rewrite (demo_objects _ _ _ _ Hx). split; [intros Ht; by apply not_elem_of_nil in Ht|].
    intros (th & [[-> ->]|[-> ->]]%demo_threads & Hs & _); [done|]. by destruct Hl as [[_ ->]|[_ ->]].
  - intros t th [[-> ->]|[-> ->]]%demo_threads Hs; [done|]. by destruct Hl as [[_ ->]|[_ ->]].
  - intros t th [[-> ->]|[-> ->]]%demo_threads Hs; [done|]. by destruct Hl as [[_ ->]|[_ ->]].
  - intros t th [[-> _]|[-> _]]%demo_threads; lia.
Defined.

Lemma demo_ks_wf : ks_wf (demo_ks [32] Ready).
Proof. split; [split; [apply demo_inv; auto|by eexists]|]. split; [done|apply demo_can_lock]. Defined.

Lemma demo_ks_alone : ks_wf (demo_ks [] Initialized).
Proof. split; [split; [apply demo_inv; auto|by eexists]|]. split; [done|apply demo_can_lock]. Defined.

Lemma KeSetEvent_spec_witness :
  ∃ c', KeSetEvent 100 (demo_ks [32] Ready) = Ok (0, set_sched c' (demo_ks [32] Ready)) ∧
        (∃ x, Objects c' !! 100 = Some x ∧ SignalState x = 1).
Proof.
  destruct (KeSetEvent_spec (demo_ks [32] Ready) 100 _ demo_ks_wf eq_refl) as (c' & Hr & _ & _ & He & _).
  exists c'. split; [exact Hr|]. rewrite He by done. by eexists.
Defined.

Lemma round_robin_witness :
  ∃ s', yields 1 (demo_ks [32] Ready) = Ok (tt, s') ∧ CurrentThread (sched s') = 32.
Proof.
  destruct (round_robin 1 (demo_ks [32] Ready) demo_ks_wf) as (s' & Hy & _ & _ & Hk); [simpl; lia|].
  exists s'. split; [exact Hy|]. by injection Hk as ->.
Defined.


Lemma wait_alone_returns_witness :
  ∃ s', KeWaitForSingleObject 100 None (demo_ks [] Initialized) = Ok (Returned 0, s') ∧
        KiReadyListHead (sched s') = [16].
Proof.
  destruct (wait_alone_returns (demo_ks [] Initialized) 100 _ (demo_thread Running) None
    demo_ks_alone eq_refl) as (s' & Hr & _ & _ & Hl & _); try done.
  exists s'. split; [exact Hr|exact Hl].
Defined.

Lemma KeReleaseSemaphore_spec_witness :
  ∃ s', KeReleaseSemaphore 300 7 (demo_ks [32] Ready) = Ok (1, s') ∧
        (∃ x, Objects (sched s') !! 300 = Some x ∧ CurrentCount x = 5).
Proof.
  destruct (KeReleaseSemaphore_spec (demo_ks [32] Ready) 300 7
    (mkObject SemaphoreObject 1 [] 5 1 0) demo_ks_wf eq_refl) as (s' & Hr & _ & Ho & _); [simpl; lia..|].
  exists s'. split; [exact Hr|]. by eexists.
Defined.

Lemma mutant_protocol_witness :
  ∃ s' x', KeWaitForSingleObject 200 None (demo_ks [32] Ready) = Ok (Returned STATUS_WAIT_0, s') ∧
    Objects (sched s') !! 200 = Some x' ∧ OwnerThread x' = 16.
Proof.
  destruct (mutant_protocol (demo_ks [32] Ready) 200 (mkObject MutantObject 1 [] 0 0 0)
    demo_ks_wf eq_refl) as (H & _).
  - split; [done|]. by left.
  - destruct (H eq_refl None) as (s' & x' & Hr & _ & Hx & _ & Ho). by exists s', x'.
Defined.

Lemma multiple_wait_timeout_witness :
  KeWaitForMultipleObjects [200; 100] (Some 0) (demo_ks [32] Ready) =
  Ok (Returned 1, demo_ks [32] Ready).
Proof.
  apply (multiple_wait_timeout (demo_ks [32] Ready) [200] [] 100 (mkObject SynchronizationEvent 0 [] 0 0 0)).
  - intros a ->%list_elem_of_singleton. by eexists.
  - done.
  - done.
  - simpl. lia.
Defined.

Lemma event_wait_completes_witness :
  ∃ s1 s2 s3, KeWaitForSingleObject 100 None (demo_ks [32] Ready) = Ok (SwitchedAway, s1) ∧
    (KeSetEvent 100;; yields 1) s1 = Ok (tt, s2) ∧
    KeWait_resume 16 s2 = Ok (Returned STATUS_WAIT_0, s3).
Proof.
  destruct (event_wait_completes (demo_ks [32] Ready) 100 32 [] _ demo_ks_wf eq_refl)
    as (s1 & s2 & s3 & H1 & H2 & _ & H3 & _); try done.
  by exists s1, s2, s3.
Defined.
