(* ===== verification/Ps.v ===== *)
(** * Ps: processes and threads (src/ps/psmgr.c, src/include/nt/ps.h)

    The process structure on top of the object manager, the pool and the
    dispatcher: creation of processes, of system threads and of user threads,
    with the stack each new thread is given for its first context switch.
    Threads are KTHREAD records in the dispatcher's map at the address of
    their object body (the KTHREAD is the first member of the ETHREAD). *)

From S2P Require Import Prelude Irql Rtl MmPfn Pool Ob Dispatch.

#[local] Open Scope Z_scope.

Record EPROCESS := mkProc {
  DirectoryTableBase : Z;
  PThreadList : list Z;               (* Pcb.ThreadListHead *)
  BasePriority : Z;
  ActiveThreads : Z;
  UniqueProcessId : Z;
  ImageFileName : list Z;
  EThreadList : list Z                (* ThreadListHead *)
}.

(** The executive part of a thread. *)
Record ETHREAD := mkEThread {
  UniqueThreadId : Z;
  ThreadProcess : Z;
  StartRoutine : Z;
  StartContext : Z
}.

Record PS_STATE := mkPs {
  ps_ob : OB_STATE POOL_STATE;
  ps_lock : Z;                        (* KiDispatcherLock *)
  ps_sched : SCHED;
  Processes : gmap Z EPROCESS;
  EThreads : gmap Z ETHREAD;
  PsActiveProcessHead : list Z;
  PspNextPid : Z;
  PspNextTid : Z;
  PsProcessType : Z;
  PsThreadType : Z;
  PsInitialSystemProcess : Z
}.

Definition set_ps_ob (v : OB_STATE POOL_STATE) (s : PS_STATE) : PS_STATE :=
  mkPs v (ps_lock s) (ps_sched s) (Processes s) (EThreads s) (PsActiveProcessHead s) (PspNextPid s)
    (PspNextTid s) (PsProcessType s) (PsThreadType s) (PsInitialSystemProcess s).
Definition set_ps_sched (l : Z) (c : SCHED) (s : PS_STATE) : PS_STATE :=
  mkPs (ps_ob s) l c (Processes s) (EThreads s) (PsActiveProcessHead s) (PspNextPid s)
    (PspNextTid s) (PsProcessType s) (PsThreadType s) (PsInitialSystemProcess s).
Definition set_Processes (v : gmap Z EPROCESS) (s : PS_STATE) : PS_STATE :=
  mkPs (ps_ob s) (ps_lock s) (ps_sched s) v (EThreads s) (PsActiveProcessHead s) (PspNextPid s)
    (PspNextTid s) (PsProcessType s) (PsThreadType s) (PsInitialSystemProcess s).
Definition set_EThreads (v : gmap Z ETHREAD) (tid : Z) (s : PS_STATE) : PS_STATE :=
  mkPs (ps_ob s) (ps_lock s) (ps_sched s) (Processes s) v (PsActiveProcessHead s) (PspNextPid s)
    tid (PsProcessType s) (PsThreadType s) (PsInitialSystemProcess s).
Definition set_active (v : list Z) (pid : Z) (s : PS_STATE) : PS_STATE :=
  mkPs (ps_ob s) (ps_lock s) (ps_sched s) (Processes s) (EThreads s) v pid
    (PspNextTid s) (PsProcessType s) (PsThreadType s) (PsInitialSystemProcess s).
Definition set_types (pt thrt : Z) (s : PS_STATE) : PS_STATE :=
  mkPs (ps_ob s) (ps_lock s) (ps_sched s) (Processes s) (EThreads s) (PsActiveProcessHead s) (PspNextPid s)
    (PspNextTid s) pt thrt (PsInitialSystemProcess s).
Definition set_initial (p : Z) (s : PS_STATE) : PS_STATE :=
  mkPs (ps_ob s) (ps_lock s) (ps_sched s) (Processes s) (EThreads s) (PsActiveProcessHead s) (PspNextPid s)
    (PspNextTid s) (PsProcessType s) (PsThreadType s) p.

(** The dispatcher's view of the state, and its pool's memory. *)
Definition ke_view (s : PS_STATE) : KS := mkKS (pcr (ps_ob s)) (ps_lock s) (ps_sched s).
Definition ke_put (k : KS) (s : PS_STATE) : PS_STATE :=
  set_ps_sched (KiDispatcherLock k) (sched k) (set_ps_ob (set_pcr (ks_pcr k) (ps_ob s)) s).
Definition ke {A} (m : M KS A) : M PS_STATE A := zoom ke_view ke_put m.
Definition ob {A} (m : M (OB_STATE POOL_STATE) A) : M PS_STATE A := zoom ps_ob set_ps_ob m.

Definition poke (a v : Z) (s : PS_STATE) : PS_STATE :=
  set_ps_ob (set_ob_pool (wr a v (ob_pool (ps_ob s))) (ps_ob s)) s.
Definition peek (s : PS_STATE) (a : Z) : Z := rd a (ob_pool (ps_ob s)).

Definition TAG_PROC := 0x636F7250.
Definition TAG_THRD := 0x64726854.
Definition sizeof_EPROCESS := 8352.
Definition sizeof_ETHREAD := 144.
Definition KERNEL_STACK_SIZE := 0x4000.

(** Addresses of code the stacks and the types point at. *)
Record CODE := mkCode { KiThreadStartup : Z; KiEnterUserMode : Z;
                        PspProcessDelete_ptr : Z; PspThreadDelete_ptr : Z }.

(** ** Object delete procedures *)

Definition PspProcessDelete (Body : Z) : M (OB_STATE POOL_STATE) unit := mret tt.

(** [threads] is the KTHREAD memory the body is read from. *)
Definition PspThreadDelete (threads : gmap Z KTHREAD) (Body : Z) : M (OB_STATE POOL_STATE) unit :=
  match threads !! Body with
  | None => mundef
  | Some t => mwhen (truthy (KernelStack t)) (ob_free (KernelStack t - 0x4000) TAG_THRD)
  end.

Definition delete_proc (code : CODE) (threads : gmap Z KTHREAD) (proc Body : Z) :
    M (OB_STATE POOL_STATE) unit :=
  if proc =? PspProcessDelete_ptr code then PspProcessDelete Body
  else if proc =? PspThreadDelete_ptr code then PspThreadDelete threads Body
  else mret tt.

(** The thread at [t] is gone with the memory of its body. *)
Definition drop_thread (t : Z) (s : PS_STATE) : PS_STATE :=
  set_EThreads (delete t (EThreads s)) (PspNextTid s)
    (set_ps_sched (ps_lock s)
       (mkSched (delete t (Threads (ps_sched s))) (Objects (ps_sched s)) (KiReadyListHead (ps_sched s))
          (CurrentThread (ps_sched s)) (Rsp (ps_sched s)) (TssRsp0 (ps_sched s))) s).

Definition PsDereference (code : CODE) (Body : Z) : M PS_STATE unit :=
  (λ s, ob (ObDereferenceObject (delete_proc code (Threads (ps_sched s))) Body) s);;
  mmod (λ s, match ObHeaders (ps_ob s) !! BODY_TO_HEADER Body with Some _ => s | None => drop_thread Body s end).

(** ** Processes *)

(** [for (i = 0; i < 15 && ImageName[i]; i++)], then the terminator. *)
Definition copy_image_name (ImageName : list Z) : list Z :=
  take 15 (take (RtlStringLength ImageName) ImageName) ++ [0].

(** [cr3] is the page table base the processor holds. *)
Definition PsCreateSystemProcess (cr3 : Z) (ImageName : list Z) : M PS_STATE (Z * Z) :=
  ty ← mgets PsProcessType;
  '(st, proc) ← ob (ObCreateObject ty sizeof_EPROCESS None);
  if negb (NT_SUCCESS st) then mret (st, 0)
  else
    mmod (λ s,
      set_active (PsActiveProcessHead s ++ [proc]) (u64 (PspNextPid s + 4))
        (set_Processes (<[proc := mkProc cr3 [] 8 0 (PspNextPid s) (copy_image_name ImageName) []]>
                          (Processes s)) s));;
    mret (STATUS_SUCCESS, proc).

(** ** Stacks

    [*--sp = v] for each value, from the first; returns the final [sp]. *)
Fixpoint push_all (vs : list Z) (sp : Z) (s : PS_STATE) : Z * PS_STATE :=
  match vs with
  | [] => (sp, s)
  | v :: vs' => push_all vs' (sp - 8) (poke (sp - 8) v s)
  end.

(** The values of PsCreateSystemThread, in the order they are pushed. *)
Definition system_frame (code : CODE) : list Z :=
  [KiThreadStartup code; 0x202; 0; 0; 0; 0; 0; 0].

(** The values of PsCreateUserThread. *)
Definition user_frame (code : CODE) (entry stack size : Z) : list Z :=
  [Z.lor 0x20 3; u64 (stack + size - 8); 0x202; Z.lor 0x18 3; entry; KiEnterUserMode code;
   0; 0; 0; 0; 0; 0; 0x202].

(** ** Threads *)

(** Both thread creation routines: they differ in the frame and in whether a
    start routine is recorded. *)
Definition create_thread (code : CODE) (Process_ : Z) (frame : list Z) (start ctx : Z) :
    M PS_STATE (Z * Z) :=
  ty ← mgets PsThreadType;
  '(st, thread) ← ob (ObCreateObject ty sizeof_ETHREAD None);
  if negb (NT_SUCCESS st) then mret (st, 0)
  else
    (* the body is zeroed pool memory *)
    ke (put_thread thread (mkThread 0 0 0 Initialized 0 0 0 0));;
    stackBase ← ob (ob_alloc KERNEL_STACK_SIZE TAG_THRD);
    if stackBase =? 0 then
      PsDereference code thread;;
      mret (STATUS_INSUFFICIENT_RESOURCES, 0)
    else
      p ← mderef (λ s, Processes s !! Process_);
      let KernelStack := stackBase + KERNEL_STACK_SIZE in
      mmod (λ s, set_EThreads (<[thread := mkEThread (PspNextTid s) Process_ start ctx]> (EThreads s))
                   (u64 (PspNextTid s + 4)) s);;
      sp ← (λ s, let '(sp, s') := push_all frame (align_down KernelStack 16) s in Ok (sp, s'));
      ke (put_thread thread (mkThread Process_ KernelStack sp Initialized (BasePriority p) 0 0 3));;
      mmod (λ s, set_Processes (<[Process_ :=
               mkProc (DirectoryTableBase p) (PThreadList p ++ [thread]) (BasePriority p)
                 (u32 (ActiveThreads p + 1)) (UniqueProcessId p) (ImageFileName p)
                 (EThreadList p ++ [thread])]> (Processes s)) s);;
      ke (KiReadyThread thread);;
      mret (STATUS_SUCCESS, thread).

Definition PsCreateSystemThread (code : CODE) (Process_ Start Context : Z) : M PS_STATE (Z * Z) :=
  create_thread code Process_ (system_frame code) Start Context.

(** StartRoutine and StartContext keep the zeros of the pool. *)
Definition PsCreateUserThread (code : CODE) (Process_ UserEntryPoint UserStackBase UserStackSize : Z) :
    M PS_STATE (Z * Z) :=
  create_thread code Process_ (user_frame code UserEntryPoint UserStackBase UserStackSize) 0 0.

(** ** Initialisation *)

Definition PsInitSystem (code : CODE) (cr3 : Z) (ProcName ThrdName : UNICODE_STRING) (System : list Z) :
    M PS_STATE Z :=
  mmod (λ s, set_active [] (PspNextPid s) s);;
  ke KiInitializeScheduler;;
  '(st, pt) ← ob (ObCreateObjectType ProcName TAG_PROC (PspProcessDelete_ptr code));
  if negb (NT_SUCCESS st) then mret st
  else
    mmod (λ s, set_types pt (PsThreadType s) s);;
    '(st, thrt) ← ob (ObCreateObjectType ThrdName TAG_THRD (PspThreadDelete_ptr code));
    if negb (NT_SUCCESS st) then mret st
    else
      mmod (λ s, set_types (PsProcessType s) thrt s);;
      '(st, p) ← PsCreateSystemProcess cr3 System;
      mwhen (NT_SUCCESS st) (mmod (set_initial p));;
      mret st.

Definition PsGetCurrentProcessId (s : PS_STATE) : option Z :=
  t ← Threads (ps_sched s) !! CurrentThread (ps_sched s);
  UniqueProcessId <$> Processes s !! Process t.

(** ** The first switch to a new thread *)

Record CONTEXT := mkCtx { r15 : Z; r14 : Z; r13 : Z; r12 : Z; rbx : Z; rbp : Z; rflags : Z; rip : Z }.

(** The pops and the return of KiSwapContext (ke/ctxswap.S). *)
Definition pop_context (mem : Z → Z) (sp : Z) : CONTEXT :=
  mkCtx (mem sp) (mem (sp + 8)) (mem (sp + 16)) (mem (sp + 24)) (mem (sp + 32)) (mem (sp + 40))
    (mem (sp + 48)) (mem (sp + 56)).

Lemma peek_poke a v s x : peek (poke a v s) x = if x =? a then v else peek s x.
Proof. done. Qed.

Lemma push_all_spec vs : ∀ sp s,
  let r := push_all vs sp s in
  r.1 = sp - 8 * Z.of_nat (length vs) ∧
  (∀ i v, vs !! i = Some v → peek r.2 (sp - 8 * (Z.of_nat i + 1)) = v) ∧
  (∀ x, sp ≤ x → peek r.2 x = peek s x).
Proof.
  induction vs as [|v vs IH]; intros sp s; cbn [push_all].
  { split_and!; [simpl; lia|done|done]. }
  destruct (IH (sp - 8) (poke (sp - 8) v s)) as (H1 & H2 & H3). cbn zeta. split_and!.
  - rewrite H1. cbn [length]. lia.
  - intros [|i] w; cbn [lookup list_lookup].
    + intros [= <-]. replace (sp - 8 * (Z.of_nat 0 + 1)) with (sp - 8) by lia.
      rewrite H3, peek_poke by lia. by rewrite Z.eqb_refl.
    + intros Hi. replace (sp - 8 * (Z.of_nat (S i) + 1)) with (sp - 8 - 8 * (Z.of_nat i + 1)) by lia.
      by apply H2.
  - intros x Hx. rewrite H3, peek_poke by lia. by replace (x =? sp - 8) with false by lia.
Qed.

(** ** Invariant *)

(** [F] are pool blocks that belong to others, which no operation on processes
    and threads may release. *)
Definition shared (F : gmap Z Z) : PoolInterface POOL_STATE := pool_frame POOL_Interface F.

Record ps_wf (F : gmap Z Z) (s : PS_STATE) (ext : Z → Z) : Prop := {
  pw_ob : ob_wf (PI := shared F) (ps_ob s) ext;
  pw_sched : sched_inv (ps_sched s);
  pw_lock : ps_lock s = 0;
  pw_pcr : can_lock (pcr (ps_ob s));
  pw_type : PsThreadType s = 0 ∨ is_Some (ObTypes (ps_ob s) !! PsThreadType s);
  pw_bodies t th : Threads (ps_sched s) !! t = Some th → is_Some (ObHeaders (ps_ob s) !! BODY_TO_HEADER t);
  pw_eth t e : EThreads s !! t = Some e → is_Some (Threads (ps_sched s) !! t)
}.

(** A thread that is on no queue yet. *)
Lemma new_thread_inv c t x :
  sched_inv c → (∀ th, Threads c !! t = Some th → TState th = Initialized) →
  TState x = Initialized → 0 < t < 18446744073709551552 → sched_inv (upd_thread t x c).
Proof.
  intros [H1 H2 H3 H4 H5 H6 H7] Ht Hx Hb. constructor; simpl; try done.
  - intros a. rewrite H3. destruct (decide (a = t)) as [->|Hne]; [|by rewrite lookup_insert_ne].
    rewrite lookup_insert_eq. split; intros (y & Hy & Hs); [rewrite (Ht y Hy) in Hs; done|simplify_eq; congruence].
  - intros o y a Hy. rewrite (H4 o y a Hy). destruct (decide (a = t)) as [->|Hne]; [|by rewrite lookup_insert_ne].
    rewrite lookup_insert_eq. split; intros (z & Hz & Hs & _); [rewrite (Ht z Hz) in Hs; done|simplify_eq; congruence].
  - intros a y. destruct (decide (a = t)) as [->|Hne]; [|rewrite lookup_insert_ne by done; eauto].
    rewrite lookup_insert_eq. intros [= <-]. congruence.
  - intros a y. destruct (decide (a = t)) as [->|Hne]; [|rewrite lookup_insert_ne by done; eauto].
    rewrite lookup_insert_eq. intros [= <-]. congruence.
  - intros a y. destruct (decide (a = t)) as [->|Hne]; [done|rewrite lookup_insert_ne by done; eauto].
Qed.

Definition ready_sched (t : Z) (x : KTHREAD) (c : SCHED) : SCHED :=
  set_ready (KiReadyListHead c ++ [t]) (upd_thread t (with_state Ready x) c).

Lemma ready_inv c t x :
  sched_inv c → Threads c !! t = Some x → TState x = Initialized → sched_inv (ready_sched t x c).
Proof.
  intros [H1 H2 H3 H4 H5 H6 H7] Ht Hx.
  assert (Hnot : t ∉ KiReadyListHead c) by (rewrite H3; intros (y & Hy & Hs); congruence).
  constructor; simpl; try done.
  - apply NoDup_app. split_and!; [done| |apply NoDup_singleton]. by intros a Ha ->%list_elem_of_singleton.
  - intros a. rewrite elem_of_app, list_elem_of_singleton, H3. destruct (decide (a = t)) as [->|Hne].
    + rewrite lookup_insert_eq. split; [eauto|auto].
    + rewrite lookup_insert_ne by done. naive_solver.
  - intros o y a Hy. rewrite (H4 o y a Hy). destruct (decide (a = t)) as [->|Hne]; [|by rewrite lookup_insert_ne].
    rewrite lookup_insert_eq. split; intros (z & Hz & Hs & _); simplify_eq/=; congruence.
  - intros a y. destruct (decide (a = t)) as [->|Hne]; [|rewrite lookup_insert_ne by done; eauto].
    rewrite lookup_insert_eq. by intros [= <-].
  - intros a y. destruct (decide (a = t)) as [->|Hne]; [|rewrite lookup_insert_ne by done; eauto].
    rewrite lookup_insert_eq. by intros [= <-].
  - intros a y. destruct (decide (a = t)) as [->|Hne]; [intros _; eauto|rewrite lookup_insert_ne by done; eauto].
Qed.

Lemma ready_run s t x :
  can_lock (ks_pcr s) → KiDispatcherLock s = 0 → Threads (sched s) !! t = Some x →
  KiReadyThread t s = Ok (tt, set_sched (ready_sched t x (sched s)) s).
Proof.
  intros Hc Hl Ht. unfold KiReadyThread, get_thread. rewrite acquire_bind by done.
  erewrite deref_bind by exact Ht. erewrite bind_ok; [|reflexivity]. erewrite bind_ok; [|reflexivity].
  by apply (release_noyield s (ready_sched t x (sched s))).
Qed.

Lemma ke_put_sched s c : ke_put (set_sched c (ke_view s)) s = set_ps_sched (ps_lock s) c s.
Proof.
  unfold ke_put, ke_view. cbn [ks_pcr KiDispatcherLock sched set_sched].
  rewrite (set_pcr_pcr (ps_ob s)). by destruct s.
Qed.

Lemma ke_put_run s t x : ke (put_thread t x) s = Ok (tt, set_ps_sched (ps_lock s) (upd_thread t x (ps_sched s)) s).
Proof. unfold ke. erewrite zoom_ok; [|reflexivity]. by rewrite ke_put_sched. Qed.

Lemma ke_ready_run s t x :
  can_lock (pcr (ps_ob s)) → ps_lock s = 0 → Threads (ps_sched s) !! t = Some x →
  ke (KiReadyThread t) s = Ok (tt, set_ps_sched (ps_lock s) (ready_sched t x (ps_sched s)) s).
Proof.
  intros Hc Hl Ht. unfold ke. erewrite zoom_ok; [|by apply ready_run]. by rewrite ke_put_sched.
Qed.

Lemma push_all_keeps vs : ∀ sp s,
  let s' := (push_all vs sp s).2 in
  ps_sched s' = ps_sched s ∧ ps_lock s' = ps_lock s ∧ pcr (ps_ob s') = pcr (ps_ob s) ∧
  Processes s' = Processes s ∧ EThreads s' = EThreads s ∧ PspNextTid s' = PspNextTid s ∧
  ps_ob s' = set_ob_pool (ob_pool (ps_ob s')) (ps_ob s) ∧ PsThreadType s' = PsThreadType s ∧
  PsInitialSystemProcess s' = PsInitialSystemProcess s.
Proof.
  induction vs as [|v vs IH]; intros sp s; [by destruct s as [[]]|]. cbn [push_all].
  specialize (IH (sp - 8) (poke (sp - 8) v s)). cbn zeta in IH. destruct IH as (H1 & H2 & H3 & H4 & H5 & H6 & H7 & H8 & H9).
  split_and!; [done..|exact H7|done|done].
Qed.

(** Pushes that stay inside a live block keep the pool. *)
Lemma push_all_block vs m a n : ∀ sp s,
  live_block (ob_pool (ps_ob s)) m a n → a + 8 * Z.of_nat (length vs) ≤ sp ≤ a + n →
  live_block (ob_pool (ps_ob (push_all vs sp s).2)) m a n.
Proof.
  induction vs as [|v vs IH]; intros sp s Hl Hsp; [done|]. cbn [push_all length] in *.
  apply IH; [|lia]. apply live_block_wr; [done|lia].
Qed.

(** The delete procedure of a thread that has no stack yet does nothing. *)
Lemma delete_fresh_ok (PI : PoolInterface POOL_STATE) code threads body t :
  threads !! body = Some t → KernelStack t = 0 → delete_ok_for (PI := PI) (delete_proc code threads) body.
Proof.
  intros Ht Hk proc s Hm Hc. exists (ob_pool s). split; [|done].
  unfold delete_proc, PspProcessDelete, PspThreadDelete. rewrite Ht, Hk.
  assert (set_ob_pool (ob_pool s) s = s) as -> by (by destruct s).
  by repeat case_if.
Qed.

(** ** Object types outlive every object-manager call *)

Definition types_kept {A} (m : M (OB_STATE POOL_STATE) A) : Prop := ∀ s a s', m s = Ok (a, s') →
  ∀ t, is_Some (ObTypes s !! t) → is_Some (ObTypes s' !! t).

Lemma tk_bind {A B} (m : M (OB_STATE POOL_STATE) A) (k : A → M (OB_STATE POOL_STATE) B) :
  types_kept m → (∀ a, types_kept (k a)) → types_kept (m ≫= k).
Proof. intros Hm Hk s b s' (a & s1 & H1 & H2)%bind_inv t Ht. eapply Hk; [exact H2|]. by eapply Hm. Qed.
Lemma tk_ret {A} (a : A) : types_kept (mret a).
Proof. intros s b s' [= _ <-]. done. Qed.
Lemma tk_deref {A} (f : OB_STATE POOL_STATE → option A) : types_kept (mderef f).
Proof. intros s b s'. unfold mderef. destruct (f s); [|done]. by intros [= _ <-]. Qed.
Lemma tk_same f : (∀ s, ObTypes (f s) = ObTypes s) → types_kept (mmod f).
Proof. intros Hf s b s' [= _ <-] t. by rewrite Hf. Qed.
Lemma tk_when b m : types_kept m → types_kept (mwhen b m).
Proof. destruct b; [done|]. intros _. apply tk_ret. Qed.
Lemma tk_pool {A} (m : M POOL_STATE A) : types_kept (zoom ob_pool set_ob_pool m).
Proof. intros s b s'. unfold zoom. destruct (m (ob_pool s)) as [[]|?????| | |]; try done. by intros [= _ <-]. Qed.
Lemma tk_type t x : types_kept (put_type t x).
Proof.
  intros s b s' [= _ <-] t' Ht'. cbn [ObTypes set_ObTypes]. destruct (decide (t' = t)) as [->|]; [by rewrite lookup_insert_eq|by rewrite lookup_insert_ne].
Qed.
Lemma tk_gets {A} (f : OB_STATE POOL_STATE → A) : types_kept (mgets f).
Proof. by intros s b s' [= _ <-]. Qed.
Lemma tk_none {A} (m : M (OB_STATE POOL_STATE) A) : (∀ s a s', m s ≠ Ok (a, s')) → types_kept m.
Proof. intros Hm s a s' H. by apply Hm in H. Qed.

Ltac tk := repeat first
  [ apply tk_bind; [|intros ?] | apply tk_when | apply tk_type | apply tk_ret | apply tk_deref | apply tk_gets | apply tk_pool
  | apply tk_same; done | case_match | by apply tk_none ].

Lemma tk_create ty n Nm : types_kept (ObCreateObject ty n Nm).
Proof. unfold ObCreateObject, key_of. tk. Qed.
Lemma tk_deref_object del body : (∀ p b, types_kept (del p b)) → types_kept (ObDereferenceObject del body).
Proof. intros Hd. unfold ObDereferenceObject, key_of, ASSERT. tk. apply Hd. Qed.
Lemma tk_delete code threads p b : types_kept (delete_proc code threads p b).
Proof. unfold delete_proc, PspProcessDelete, PspThreadDelete. tk. Qed.

(** ** Thread creation *)

(** What a successful creation leaves, for the frame it pushes. *)
Record thread_created (s s' : PS_STATE) (t proc : Z) (p : EPROCESS) (frame : list Z) (start ctx : Z) : Prop := {
  tc_inv : sched_inv (ps_sched s');
  tc_ready : KiReadyListHead (ps_sched s') = KiReadyListHead (ps_sched s) ++ [t];
  tc_fresh : Threads (ps_sched s) !! t = None;
  tc_others u : u ≠ t → Threads (ps_sched s') !! u = Threads (ps_sched s) !! u;
  tc_eth : EThreads s' = <[t := mkEThread (PspNextTid s) proc start ctx]> (EThreads s);
  tc_tid : PspNextTid s' = u64 (PspNextTid s + 4);
  tc_proc : Processes s' =
    <[proc := mkProc (DirectoryTableBase p) (PThreadList p ++ [t]) (BasePriority p)
            (u32 (ActiveThreads p + 1)) (UniqueProcessId p) (ImageFileName p) (EThreadList p ++ [t])]> (Processes s);
  tc_thread : ∃ top stack, Threads (ps_sched s') !! t =
      Some (mkThread proc stack (top - 8 * Z.of_nat (length frame)) Ready (BasePriority p) 0 0 3) ∧
    top mod 16 = 0 ∧ stack - 16 < top ≤ stack ∧
    ∀ i v, frame !! i = Some v → peek s' (top - 8 * (Z.of_nat i + 1)) = v
}.

(** Changing the pool alone, as long as the manager's blocks stay live. *)
Lemma ob_wf_repool F (o : OB_STATE POOL_STATE) p ext :
  ob_wf (PI := shared F) o ext → ob_mem (PI := shared F) p (ObHeaders o) (ObTypes o) →
  ob_wf (PI := shared F) (set_ob_pool p o) ext.
Proof. intros [[Hc _ Hl] Hpos] Hm. split; [by constructor|done]. Qed.

(** The block of a new kernel stack, added to the blocks of the manager. *)
Lemma ob_mem_more F p p' hdrs types m a tag :
  ob_mem (PI := shared F) p hdrs types → m ##ₘ F → m !! a = None →
  (∀ h x, hdrs !! h = Some x → m !! h = Some (tag_of types x)) → (∀ t y, types !! t = Some y → m !! t = Some TAG_OBJT) →
  F !! a = None → live_rep p' (<[a := tag]> (m ∪ F)) → ob_mem (PI := shared F) p' hdrs types.
Proof.
  intros (_ & _ & _ & _ & Hd) Hmf Hma Hh Ht HF Hl. exists (<[a := tag]> m). split_and!; [|..|done].
  - split; [by apply map_disjoint_insert_l|by rewrite <- insert_union_l].
  - intros h x Hx. rewrite lookup_insert_ne; [by apply Hh|]. intros <-. apply Hh in Hx. congruence.
  - intros t y Hy. rewrite lookup_insert_ne; [by apply (Ht t y)|]. intros <-. apply Ht in Hy. congruence.
Qed.

(** Dropping the thread that was just stored restores the scheduler. *)
Lemma drop_fresh_sched t x c :
  Threads c !! t = None →
  mkSched (delete t (Threads (upd_thread t x c))) (Objects (upd_thread t x c)) (KiReadyListHead (upd_thread t x c))
    (CurrentThread (upd_thread t x c)) (Rsp (upd_thread t x c)) (TssRsp0 (upd_thread t x c)) = c.
Proof. intros Ht. destruct c. cbn in *. by rewrite delete_insert_id. Qed.

(** The failing branches: what is left of a creation that found no memory. *)
Record thread_refused (s s' : PS_STATE) : Prop := {
  tr_proc : Processes s' = Processes s;
  tr_eth : EThreads s' = EThreads s;
  tr_tid : PspNextTid s' = PspNextTid s;
  tr_sched : ps_sched s' = ps_sched s
}.

Section Create.
Context (F : gmap Z Z) (code : CODE).
Implicit Types (s : PS_STATE).

(** No memory for the stack: the object is released again. *)
Lemma create_no_stack s ext h o1 p3 :
  ps_wf F s ext → Threads (ps_sched s) !! HEADER_TO_BODY h = None →
  ob_wf (PI := shared F) o1 (fresh_ext ext h) → pcr o1 = pcr (ps_ob s) → ObHeaders (ps_ob s) !! h = None →
  (∀ t, is_Some (ObTypes (ps_ob s) !! t) → is_Some (ObTypes o1 !! t)) →
  ObHeaders o1 = <[h := mkHdr 1 0 (PsThreadType s) (stored_name None)]> (ObHeaders (ps_ob s)) →
  ob_mem (PI := shared F) p3 (ObHeaders o1) (ObTypes o1) → pcr p3 = pcr (ob_pool o1) →
  let t := HEADER_TO_BODY h in
  let s3 := set_ps_ob (set_ob_pool p3 o1)
              (set_ps_sched (ps_lock s) (upd_thread t (mkThread 0 0 0 Initialized 0 0 0 0) (ps_sched s)) (set_ps_ob o1 s)) in
  ∃ s' ext', PsDereference code t s3 = Ok (tt, s') ∧ ps_wf F s' ext' ∧ thread_refused s s' ∧
    PsInitialSystemProcess s' = PsInitialSystemProcess s.
Proof.
  intros [Hob Hsch Hlk Hpcr Hty Hbod Heth] Hfresh Hwf1 Hpc1 Hnone Htk Hh1 Hm3 Hpc3 t s3.
  set (o3 := set_ob_pool p3 o1).
  assert (Hwf3 : ob_wf (PI := shared F) o3 (fresh_ext ext h)) by by apply ob_wf_repool.
  assert (Hx1 : ObHeaders o3 !! h = Some (mkHdr 1 0 (PsThreadType s) (stored_name None))) by (cbn; rewrite Hh1; apply lookup_insert_eq).
  assert (Hpc : pcr o3 = pcr (ps_ob s)) by (transitivity (pcr (ob_pool o1)); [exact Hpc3|exact Hpc1]).
  destruct (deref_run (PI := shared F) (delete_proc code (Threads (ps_sched s3))) o3 _ h
    (mkHdr 1 0 (PsThreadType s) (stored_name None))
    (delete_fresh_ok (shared F) code _ t (mkThread 0 0 0 Initialized 0 0 0 0) (lookup_insert_eq _ _ _) eq_refl) Hwf3) as (o4 & Hr4 & Hwf4 & Hpc4 & _ & Hh4).
  { by rewrite Hpc. } { exact Hx1. } { unfold fresh_ext. rewrite Z.eqb_refl. lia. }
  cbn [PointerCount] in Hh4. rewrite Z.eqb_refl in Hh4. cbn [o3 set_ob_pool ObHeaders] in Hh4. rewrite Hh1, delete_insert_id in Hh4 by done.
  unfold PsDereference. erewrite bind_ok; [|unfold ob; apply zoom_ok; exact Hr4]. cbn [mmod set_ps_ob ps_ob].
  assert (Hb : BODY_TO_HEADER t = h) by apply (b2h_h2b (P := POOL_STATE) (λ _ _, mret tt)).
  rewrite Hb, Hh4, Hnone. eexists _, _. split; [reflexivity|].
  set (s' := drop_thread t _).
  assert (Hs' : ps_sched s' = ps_sched s) by by apply drop_fresh_sched.
  assert (He' : EThreads s' = EThreads s).
  { apply delete_id, eq_None_not_Some. intros [e He]. apply Heth in He as [? He]. unfold t in He. congruence. }
  split_and!; [|constructor; done|done]. constructor.
  - exact Hwf4.
  - by rewrite Hs'.
  - done.
  - change (can_lock (pcr o4)). by rewrite Hpc4, Hpc.
  - change (PsThreadType s = 0 ∨ is_Some (ObTypes o4 !! PsThreadType s)). destruct Hty as [Hty|Hty]; [by left|right].
    eapply (tk_deref_object _ t (tk_delete code (Threads (ps_sched s3)))); [exact Hr4|]. by apply Htk.
  - intros u th Hu. rewrite Hs' in Hu. change (is_Some (ObHeaders o4 !! BODY_TO_HEADER u)). rewrite Hh4. eauto.
  - intros u e He. rewrite He' in He. rewrite Hs'. eauto.
Qed.
Lemma create_thread_run s ext proc p frame start ctx :
  ps_wf F s ext → Processes s !! proc = Some p → (length frame ≤ 100)%nat →
  ∃ st t s' ext', create_thread code proc frame start ctx s = Ok ((st, t), s') ∧ ps_wf F s' ext' ∧
    PsInitialSystemProcess s' = PsInitialSystemProcess s ∧
    ((st = STATUS_INSUFFICIENT_RESOURCES ∧ t = 0 ∧ thread_refused s s') ∨
     (st = STATUS_SUCCESS ∧ thread_created s s' t proc p frame start ctx)).
Proof.
  intros Hps Hp Hfr. pose proof Hps as [Hob Hsch Hlk Hpcr Hty Hbod Heth]. unfold create_thread. unfold mbind at 1, M_bind at 1. cbn [mgets].
  destruct (create_run (PI := shared F) (delete_proc code ∅) (ps_ob s) ext (PsThreadType s) sizeof_ETHREAD None Hob Hpcr Hty)
    as (st & body & o1 & Hr1 & Hpc1 & Hcase); [unfold sizeof_ETHREAD; lia|].
  pose proof (tk_create (PsThreadType s) sizeof_ETHREAD None _ _ _ Hr1) as Htk.
  erewrite bind_ok; [|apply zoom_ok; exact Hr1].
  destruct Hcase as [(-> & -> & Hwf1 & Hh1)|(h & -> & -> & Hnone & Hwf1 & Hh1)].
  { eexists _, _, _, ext. split; [reflexivity|]. split; [|split; [done|left; split; [done|]; split; [done|by constructor]]].
    constructor; cbn [set_ps_ob ps_ob ps_sched ps_lock PsThreadType]; [done..|by rewrite Hpc1| | |].
    - destruct Hty as [Hty|Hty]; [by left|right; by apply Htk].
    - intros t th Ht. rewrite Hh1. eauto.
    - exact Heth. }
  change (NT_SUCCESS STATUS_SUCCESS) with true. cbn [negb].
  set (t := HEADER_TO_BODY h). erewrite bind_ok; [|apply ke_put_run].
  set (t0 := mkThread 0 0 0 Initialized 0 0 0 0).
  set (s2 := set_ps_sched _ _ _).
  assert (Hb2h : BODY_TO_HEADER t = h) by apply (b2h_h2b (P := POOL_STATE) (λ _ _, mret tt)).
  assert (Hfresh : Threads (ps_sched s) !! t = None).
  { apply eq_None_not_Some. intros [th Hth]. destruct (Hbod t th Hth) as [y Hy]. rewrite Hb2h in Hy. congruence. }
  assert (Hx1 : ObHeaders o1 !! h = Some (mkHdr 1 0 (PsThreadType s) (stored_name None)))
    by (rewrite Hh1; apply lookup_insert_eq).
  assert (Htb : 0 < t < 18446744073709551552).
  { pose proof (hdr_pos (PI := shared F) _ _ _ _ _ (oi_mem _ _ (proj1 Hwf1)) Hx1).
    unfold t, HEADER_TO_BODY, sizeof_OBJECT_HEADER. lia. }
  assert (Hi2 : sched_inv (ps_sched s2)).
  { apply new_thread_inv; [done| |done|done]. intros th Hth. simpl in Hth. congruence. }
  pose proof (oi_mem _ _ (proj1 Hwf1)) as Hmem1. pose proof Hmem1 as (m & [Hmf Hm] & Hmh & Hmt & Hmd).
  destruct (live_alloc_block (ob_pool o1) (m ∪ F) 0 KERNEL_STACK_SIZE TAG_THRD Hm)
    as (base & p3 & Hr3 & Hpc3 & Hcase3); [by rewrite <- Hpc1 in Hpcr|unfold KERNEL_STACK_SIZE; lia|].
  set (o3 := set_ob_pool p3 o1). set (s3 := set_ps_ob o3 s2).
  erewrite (bind_ok (ob (ob_alloc KERNEL_STACK_SIZE TAG_THRD)) _ _ base s3).
  2: { apply zoom_ok. unfold ob_alloc. by apply zoom_ok. }
  assert (Hpc : pcr o3 = pcr (ps_ob s)) by (transitivity (pcr (ob_pool o1)); [exact Hpc3|exact Hpc1]).
  destruct Hcase3 as [[-> Hm3]|(Hb0 & [Hbm HbF]%lookup_union_None & Hm3)].
  - cbn [Z.eqb].
    destruct (create_no_stack s ext h o1 p3 Hps Hfresh Hwf1 Hpc1 Hnone Htk Hh1) as (s' & ext' & Hr4 & Hw4 & Href & Hini);
      [exists m; split_and!; [split|..]; done|done|].
    erewrite bind_ok; [|exact Hr4]. exists STATUS_INSUFFICIENT_RESOURCES, 0, s', ext'. split; [done|]. split; [done|]. split; [done|]. by left.
  - replace (base =? 0) with false by lia. erewrite deref_bind by exact Hp. cbn zeta.
    erewrite bind_ok; [|reflexivity]. set (s4 := set_EThreads _ _ s3).
    set (top := align_down (base + KERNEL_STACK_SIZE) 16).
    assert (Htop : base + KERNEL_STACK_SIZE - 16 < top ≤ base + KERNEL_STACK_SIZE).
    { unfold top, align_down. pose proof (Z.mod_pos_bound (base + KERNEL_STACK_SIZE) 16). lia. }
    pose proof (push_all_spec frame top s4) as (Hsp & Hval & _).
    pose proof (push_all_keeps frame top s4) as (K1 & K2 & K3 & K4 & K5 & K6 & K7 & K8 & K9).
    pose proof (push_all_block frame _ _ _ top s4 Hm3) as Hlive.
    destruct (push_all frame top s4) as [sp s5] eqn:Hpush. cbn [fst snd] in *.
    erewrite bind_ok; [|rewrite Hpush; reflexivity].
    erewrite bind_ok; [|apply ke_put_run].
    set (th := mkThread proc (base + KERNEL_STACK_SIZE) sp Initialized (BasePriority p) 0 0 3).
    erewrite bind_ok; [|reflexivity]. set (s7 := set_Processes _ _).
    erewrite bind_ok; [|apply (ke_ready_run s7 t th)].
    2: { change (can_lock (pcr (ps_ob s5))). rewrite K3. change (can_lock (pcr o3)). by rewrite Hpc. }
    2: { simpl. by rewrite K2. } 2: { simpl. apply lookup_insert_eq. }
    assert (Hi7 : sched_inv (ps_sched s7)).
    { simpl. rewrite K1. apply new_thread_inv; [exact Hi2| |done|done].
      intros y Hy. simpl in Hy. rewrite lookup_insert_eq in Hy. by simplify_eq. }
    assert (Hi8 : sched_inv (ready_sched t th (ps_sched s7))) by (apply ready_inv; [done|simpl; apply lookup_insert_eq|done]).
    eexists _, _, _, (fresh_ext ext h). split; [reflexivity|]. split; [|split; [done|]].
    + constructor.
      * change (ob_wf (PI := shared F) (ps_ob s5) (fresh_ext ext h)). rewrite K7. apply (ob_wf_repool F o3).
        { apply ob_wf_repool; [done|]. by eapply (ob_mem_more F), live_block_rep. }
        eapply (ob_mem_more F _ _ _ _ m base TAG_THRD); try done. apply (live_block_rep _ _ base (align_up64 KERNEL_STACK_SIZE POOL_GRANULARITY)), Hlive.
        change (align_up64 KERNEL_STACK_SIZE POOL_GRANULARITY) with KERNEL_STACK_SIZE. unfold KERNEL_STACK_SIZE in *. lia.
      * done.
      * simpl. by rewrite K2.
      * change (can_lock (pcr (ps_ob s5))). rewrite K3. change (can_lock (pcr o3)). by rewrite Hpc.
      * change (PsThreadType s5 = 0 ∨ is_Some (ObTypes (ps_ob s5) !! PsThreadType s5)). rewrite K7, K8.
        change (PsThreadType s = 0 ∨ is_Some (ObTypes o1 !! PsThreadType s)). destruct Hty as [?|?]; [by left|right; by apply Htk].
      * intros u y Hu. change (is_Some (ObHeaders (ps_ob s5) !! BODY_TO_HEADER u)). rewrite K7.
        change (is_Some (ObHeaders o1 !! BODY_TO_HEADER u)). rewrite Hh1.
        destruct (decide (u = t)) as [->|Hne]; [rewrite Hb2h, lookup_insert_eq; eauto|].
        simpl in Hu. rewrite K1 in Hu. simpl in Hu. rewrite !lookup_insert_ne in Hu by done. destruct (Hbod u y Hu) as [z Hz].
        rewrite lookup_insert_ne; [eauto|]. intros Heq. rewrite <- Heq in Hz. congruence.
      * intros u e He. simpl in He. rewrite K5 in He. simpl. rewrite K1. simpl in He |- *.
        destruct (decide (u = t)) as [->|Hne]; [rewrite lookup_insert_eq; eauto|].
        rewrite lookup_insert_ne in He by done. rewrite !lookup_insert_ne by done. eauto.
    + right. split; [done|]. constructor.
      * done.
      * simpl. by rewrite K1.
      * done.
      * intros u Hu. simpl. rewrite K1. simpl. by rewrite !lookup_insert_ne.
      * simpl. rewrite K5. done.
      * simpl. by rewrite K6.
      * simpl. by rewrite K4.
      * exists top, (base + KERNEL_STACK_SIZE). split_and!; [| |lia..|].
        -- simpl. rewrite lookup_insert_eq. unfold th, with_state. simpl. by rewrite Hsp.
        -- unfold top, align_down. pose proof (Z.div_mod (base + KERNEL_STACK_SIZE) 16). apply Z.mod_divide; [lia|]. exists ((base + KERNEL_STACK_SIZE) / 16). lia.
        -- intros i v Hv. apply Hval in Hv. exact Hv.
Qed.
End Create.

(** The eight words the first switch to a thread pops, for a frame that ends
    in them. *)
Lemma popped s s' t proc p pre vs start ctx :
  length vs = 8%nat → thread_created s s' t proc p (pre ++ vs) start ctx →
  ∃ th, Threads (ps_sched s') !! t = Some th ∧
    ∀ i v, vs !! i = Some v → peek s' (StackPointer th + 8 * (7 - Z.of_nat i)) = v.
Proof.
  intros Hl [_ _ _ _ _ _ _ (top & stack & Hth & _ & _ & Hv)]. eexists. split; [exact Hth|].
  intros i v Hi. simpl. pose proof (lookup_lt_Some _ _ _ Hi).
  rewrite <- (Hv (length pre + i)%nat v); [|by rewrite lookup_app_r, Nat.add_sub' by lia].
  f_equal. rewrite length_app, Hl. lia.
Qed.

Lemma pop_context_of mem sp a b c d e f g h :
  (∀ i v, [a; b; c; d; e; f; g; h] !! i = Some v → mem (sp + 8 * (7 - Z.of_nat i)) = v) →
  pop_context mem sp = mkCtx h g f e d c b a.
Proof.
  intros H. unfold pop_context.
  pose proof (H 0%nat a eq_refl) as H0. pose proof (H 1%nat b eq_refl) as H1.
  pose proof (H 2%nat c eq_refl) as H2. pose proof (H 3%nat d eq_refl) as H3.
  pose proof (H 4%nat e eq_refl) as H4. pose proof (H 5%nat f eq_refl) as H5.
  pose proof (H 6%nat g eq_refl) as H6. pose proof (H 7%nat h eq_refl) as H7.
  replace (sp + 8 * _) with (sp + 56) in H0 by lia. replace (sp + 8 * _) with (sp + 48) in H1 by lia.
  replace (sp + 8 * _) with (sp + 40) in H2 by lia. replace (sp + 8 * _) with (sp + 32) in H3 by lia.
  replace (sp + 8 * _) with (sp + 24) in H4 by lia. replace (sp + 8 * _) with (sp + 16) in H5 by lia.
  replace (sp + 8 * _) with (sp + 8) in H6 by lia. replace (sp + 8 * _) with sp in H7 by lia.
  by rewrite H0, H1, H2, H3, H4, H5, H6, H7.
Qed.

(** [C14] PsCreateSystemThread returns, in a state where the object manager and
    the scheduler are well formed and the process exists, and leaves such a
    state, whatever else lives in the pool.  Without memory for the object or
    for the stack it reports STATUS_INSUFFICIENT_RESOURCES and neither the
    process nor the scheduler changes.  Otherwise the thread is
    fresh, at the tail of the ready list and of the process's lists, has the
    next thread id and the process's priority, the scheduler's invariant holds,
    and the first switch to it pops zeroed registers, interrupts enabled, and
    returns into KiThreadStartup on a stack aligned to 16 bytes. *)
Theorem PsCreateSystemThread_spec F code s ext proc p start ctx :
  ps_wf F s ext → Processes s !! proc = Some p →
  ∃ st t s' ext', PsCreateSystemThread code proc start ctx s = Ok ((st, t), s') ∧ ps_wf F s' ext' ∧
    ((st = STATUS_INSUFFICIENT_RESOURCES ∧ t = 0 ∧ thread_refused s s') ∨
     (st = STATUS_SUCCESS ∧ thread_created s s' t proc p (system_frame code) start ctx ∧
      ∃ th, Threads (ps_sched s') !! t = Some th ∧
        pop_context (peek s') (StackPointer th) = mkCtx 0 0 0 0 0 0 0x202 (KiThreadStartup code))).
Proof.
  intros Hwf Hp. destruct (create_thread_run F code s ext proc p (system_frame code) start ctx Hwf Hp)
    as (st & t & s' & ext' & Hr & Hw' & _ & Hcase); [cbn; lia|]. exists st, t, s', ext'. split; [exact Hr|]. split; [exact Hw'|].
  destruct Hcase as [?|[-> Hc]]; [by left|]. right. split; [done|]. split; [done|].
  destruct (popped s s' t proc p [] (system_frame code) start ctx eq_refl Hc) as (th & Hth & Hv).
  exists th. split; [done|]. by apply pop_context_of.
Qed.

(** A user thread created by PsCreateUserThread starts with the registers
    in the wrong places: the frame is pushed in the reverse of the order
    KiSwapContext pops it, so r15 receives the flags word 0x202 and the flags
    register is loaded with 0 (interrupts disabled, where 0x202 was meant);
    the return address and the IRETQ frame above it are as intended. *)
Theorem PsCreateUserThread_context F code s ext proc p entry stack size :
  ps_wf F s ext → Processes s !! proc = Some p →
  ∃ st t s', PsCreateUserThread code proc entry stack size s = Ok ((st, t), s') ∧
    ((st = STATUS_INSUFFICIENT_RESOURCES ∧ t = 0 ∧ Processes s' = Processes s) ∨
     (st = STATUS_SUCCESS ∧ ∃ th, Threads (ps_sched s') !! t = Some th ∧
        pop_context (peek s') (StackPointer th) = mkCtx 0x202 0 0 0 0 0 0 (KiEnterUserMode code) ∧
        peek s' (StackPointer th + 64) = entry ∧ peek s' (StackPointer th + 72) = 0x1B ∧
        peek s' (StackPointer th + 80) = 0x202 ∧
        peek s' (StackPointer th + 88) = u64 (stack + size - 8) ∧ peek s' (StackPointer th + 96) = 0x23)).
Proof.
  intros Hwf Hp. destruct (create_thread_run F code s ext proc p (user_frame code entry stack size) 0 0 Hwf Hp)
    as (st & t & s' & ext' & Hr & _ & _ & Hcase); [cbn; lia|]. exists st, t, s'. split; [exact Hr|].
  destruct Hcase as [(-> & -> & [H _ _ _])|[-> Hc]]; [by left|]. right. split; [done|].
  destruct (popped s s' t proc p (take 5 (user_frame code entry stack size))
    (drop 5 (user_frame code entry stack size)) 0 0 eq_refl Hc) as (th & Hth & Hv).
  exists th. split; [done|]. split; [by apply pop_context_of|].
  destruct Hc as [_ _ _ _ _ _ _ (top & st' & Hth' & _ & _ & Hf)]. rewrite Hth' in Hth. simplify_eq/=.
  pose proof (Hf 4%nat _ eq_refl) as H4. pose proof (Hf 3%nat _ eq_refl) as H3.
  pose proof (Hf 2%nat _ eq_refl) as H2. pose proof (Hf 1%nat _ eq_refl) as H1.
  pose proof (Hf 0%nat _ eq_refl) as H0.
  split_and!; [etrans; [|exact H4]|etrans; [|exact H3]|etrans; [|exact H2]|etrans; [|exact H1]|etrans; [|exact H0]];
    f_equal; lia.
Qed.

(** PsCreateSystemProcess returns; out of memory it reports
    STATUS_INSUFFICIENT_RESOURCES and changes no process list, and otherwise
    the new process is a fresh object at the tail of the active list, with the
    next process id (ids step by 4), priority 8, no threads, the caller's
    page tables, and the first 15 characters of the name, terminated. *)
Theorem PsCreateSystemProcess_spec F s ext cr3 name :
  ob_wf (PI := shared F) (ps_ob s) ext → can_lock (pcr (ps_ob s)) →
  PsProcessType s = 0 ∨ is_Some (ObTypes (ps_ob s) !! PsProcessType s) →
  ∃ st b s', PsCreateSystemProcess cr3 name s = Ok ((st, b), s') ∧
    ((st = STATUS_INSUFFICIENT_RESOURCES ∧ b = 0 ∧ Processes s' = Processes s ∧
      PsActiveProcessHead s' = PsActiveProcessHead s ∧ PspNextPid s' = PspNextPid s) ∨
     (st = STATUS_SUCCESS ∧ ObHeaders (ps_ob s) !! BODY_TO_HEADER b = None ∧
      ob_wf (PI := shared F) (ps_ob s') (fresh_ext ext (BODY_TO_HEADER b)) ∧
      PsActiveProcessHead s' = PsActiveProcessHead s ++ [b] ∧ PspNextPid s' = u64 (PspNextPid s + 4) ∧
      Processes s' = <[b := mkProc cr3 [] 8 0 (PspNextPid s) (copy_image_name name) []]> (Processes s))) ∧
    (length (copy_image_name name) ≤ 16)%nat ∧ last (copy_image_name name) = Some 0.
Proof.
  intros Hob Hc Hty. unfold PsCreateSystemProcess. unfold mbind at 1, M_bind at 1. cbn [mgets].
  destruct (create_run (PI := shared F) (λ _ _, mret tt) (ps_ob s) ext (PsProcessType s) sizeof_EPROCESS None Hob Hc Hty)
    as (st & body & o1 & Hr1 & Hpc1 & Hcase); [unfold sizeof_EPROCESS; lia|].
  erewrite bind_ok; [|apply zoom_ok; exact Hr1].
  assert (Hn : (length (copy_image_name name) ≤ 16)%nat ∧ last (copy_image_name name) = Some 0).
  { unfold copy_image_name. rewrite last_snoc, length_app, length_take. cbn [length]. split; [lia|done]. }
  destruct Hcase as [(-> & -> & _ & _)|(h & -> & -> & Hnone & Hwf1 & Hh1)].
  { eexists _, _, _. split; [reflexivity|]. split; [by left|]. destruct Hn. done. }
  eexists _, _, _. split; [reflexivity|]. rewrite (b2h_h2b (P:=POOL_STATE) (λ _ _, mret tt)).
  split; [by right|]. destruct Hn. done.
Qed.

(** ** A concrete system: one process, no thread, 40 free pages *)

Definition demo_code : CODE := mkCode 0x200000 0x201000 0x202000 0x203000.
Definition demo_process : EPROCESS := mkProc 0x1000 [] 8 0 4 [83; 0] [].
Definition demo_ps : PS_STATE :=
  mkPs (mkOb demo_pool ∅ ∅ [] [] (replicate 512 0) 0 0 0) 0 (mkSched ∅ ∅ [] 0 0x8000 0)
    {[ 0x300 := demo_process ]} ∅ [0x300] 8 4 0 0 0x300.

Lemma demo_ps_wf : ps_wf ∅ demo_ps (λ _, 0).
Proof.
  constructor; unfold demo_ps; cbn [ps_ob ps_sched ps_lock PsThreadType].
  - split; [|intros h x Hx; cbn [ObHeaders] in Hx; by rewrite lookup_empty in Hx].
    constructor; [constructor| |done]; cbn [ob_pool ObHeaders ObTypes ObpNamedObjectHead ObpHandleTable]; try done.
    + intros i b [-> _]%lookup_replicate. done.
    + constructor.
    + intros h. split; [intros Hh; by apply not_elem_of_nil in Hh|].
      intros (x & Hx & _). by rewrite lookup_empty in Hx.
    + exists ∅. split_and!; try done. split; [apply map_disjoint_empty_l|]. rewrite (left_id_L ∅ (∪)). split; [done|]. exists [], []. split; [exact demo_pool_inv|].
      intros a t. rewrite lookup_empty. split; [done|].
      intros (sz & Hin & _). by apply not_elem_of_nil in Hin.
  - constructor; simpl; try done; [constructor|]. intros t.
    split; [intros Hh; by apply not_elem_of_nil in Hh|]. intros (x & Hx & _). by rewrite lookup_empty in Hx.
  - done.
  - exact demo_can_lock.
  - by left.
  - simpl. intros t th Hx. by rewrite lookup_empty in Hx.
  - simpl. intros t e Hx. by rewrite lookup_empty in Hx.
Defined.

Lemma PsCreateSystemThread_spec_witness :
  ∃ t th s', PsCreateSystemThread demo_code 0x300 0x300000 7 demo_ps = Ok ((STATUS_SUCCESS, t), s') ∧
    Threads (ps_sched s') !! t = Some th ∧ KiReadyListHead (ps_sched s') = [t] ∧
    pop_context (peek s') (StackPointer th) = mkCtx 0 0 0 0 0 0 0x202 0x200000.
Proof.
  destruct (PsCreateSystemThread_spec ∅ demo_code demo_ps (λ _, 0) 0x300 demo_process 0x300000 7
    demo_ps_wf eq_refl) as (st & t & s' & ext' & Hr & _ & Hc).
  assert (Hb : match PsCreateSystemThread demo_code 0x300 0x300000 7 demo_ps with
    | Ok ((st, _), _) => st = STATUS_SUCCESS | _ => False end) by (vm_compute; reflexivity).
  rewrite Hr in Hb. subst st.
  destruct Hc as [[Hbad _]|(_ & Hcr & th & Hth & Hpop)]; [discriminate Hbad|].
  exists t, th, s'. split_and!; [exact Hr|exact Hth|exact (tc_ready _ _ _ _ _ _ _ _ Hcr)|exact Hpop].
Defined.

Lemma PsCreateUserThread_context_witness :
  ∃ t th s', PsCreateUserThread demo_code 0x300 0x400000 0x500000 0x10000 demo_ps
      = Ok ((STATUS_SUCCESS, t), s') ∧
    Threads (ps_sched s') !! t = Some th ∧
    pop_context (peek s') (StackPointer th) = mkCtx 0x202 0 0 0 0 0 0 0x201000.
Proof.
  destruct (PsCreateUserThread_context ∅ demo_code demo_ps (λ _, 0) 0x300 demo_process
    0x400000 0x500000 0x10000 demo_ps_wf eq_refl) as (st & t & s' & Hr & Hc).
  assert (Hb : match PsCreateUserThread demo_code 0x300 0x400000 0x500000 0x10000 demo_ps with
    | Ok ((st, _), _) => st = STATUS_SUCCESS | _ => False end) by (vm_compute; reflexivity).
  rewrite Hr in Hb. subst st.
  destruct Hc as [[Hbad _]|(_ & th & Hth & Hpop & _)]; [discriminate Hbad|].
  exists t, th, s'. split_and!; [exact Hr|exact Hth|exact Hpop].
Defined.

Lemma PsCreateSystemProcess_spec_witness :
  ∃ b s', PsCreateSystemProcess 0x1000 [83; 121; 115; 0] demo_ps = Ok ((STATUS_SUCCESS, b), s') ∧
    Processes s' !! b = Some (mkProc 0x1000 [] 8 0 8 [83; 121; 115; 0] []).
Proof.
  destruct (PsCreateSystemProcess_spec ∅ demo_ps (λ _, 0) 0x1000 [83; 121; 115; 0]
    (pw_ob _ _ _ demo_ps_wf) demo_can_lock (or_introl eq_refl)) as (st & b & s' & Hr & Hc & _).
  assert (Hb : match PsCreateSystemProcess 0x1000 [83; 121; 115; 0] demo_ps with
    | Ok ((st, _), _) => st = STATUS_SUCCESS | _ => False end) by (vm_compute; reflexivity).
  rewrite Hr in Hb. subst st.
  destruct Hc as [[Hbad _]|(_ & _ & _ & _ & _ & Hp)]; [discriminate Hbad|].
  exists b, s'. split; [exact Hr|]. rewrite Hp. apply lookup_insert_eq.
Defined.
