(* ===== verification/PushLock.v ===== *)
(** * PushLock: push locks under interleaving (src/ex/pushlock.c)

    The lock word and, for every thread, the point it has reached in one of
    the four routines.  A step is one atomic access to the lock word by one
    thread: a read, or a compare-and-swap, with the local [state] of the
    routine carried in the program point.  The wake event of a push lock is
    zeroed by ExInitializePushLock and never given a wait list, so an access
    to it ends a thread's path in [Unmodelled]. *)

From S2P Require Import Prelude.

#[local] Open Scope Z_scope.

Definition PUSHLOCK_EXCLUSIVE_BIT := 16.
Definition PUSHLOCK_WAITING_BIT := 17.
Definition PUSHLOCK_SHARED_MASK := 0xFFFF.

Definition EXCLUSIVE : Z := Z.shiftl 1 PUSHLOCK_EXCLUSIVE_BIT.
Definition WAITING : Z := Z.shiftl 1 PUSHLOCK_WAITING_BIT.

(** Program points: [AcqS st], [RelS st], [AcqX st] and [RelX st] are the heads
    of the loops of the four routines with their local [state]; [Spin n] has
    [n] turns of the exclusive spin left, [Check] and [Reload] are the two
    reads after it. *)
Inductive PC :=
| Idle | AcqS (state : Z) | HoldS | RelS (state : Z)
| AcqX (state : Z) | Spin (n : nat) | Check_ | Reload | HoldX | RelX (state : Z)
| Unmodelled.

(** What a caller asks for when it is outside the routines. *)
Inductive CALL := CallShared | CallExclusive | CallReleaseShared | CallReleaseExclusive.

(** [__sync_val_compare_and_swap]: the previous value and the new word. *)
Definition cas (word old new : Z) : Z * Z := (word, if word =? old then new else word).

(** ** ExAcquirePushLockShared, one turn of its loop *)
Definition ExAcquirePushLockShared (word state : Z) : Z * PC :=
  if (Z.land state EXCLUSIVE =? 0) && (Z.land state PUSHLOCK_SHARED_MASK <? PUSHLOCK_SHARED_MASK) then
    let newState := Z.land (u32 (state + 1)) PUSHLOCK_SHARED_MASK in
    let '(prev, word') := cas word state newState in
    (word', if prev =? state then HoldS else AcqS prev)
  else (word, AcqS word).

(** ** ExReleasePushLockShared *)
Definition ExReleasePushLockShared (word state : Z) : Z * PC :=
  let count := Z.land state PUSHLOCK_SHARED_MASK in
  if count =? 0 then (word, Idle)
  else
    let newState := u32 (state - 1) in
    let '(prev, word') := cas word state newState in
    (word', if prev =? state then
              if Z.land newState (Z.lor WAITING PUSHLOCK_SHARED_MASK) =? WAITING
              then Unmodelled            (* KeSetEvent(&Lock->WakeEvent) *)
              else Idle
            else RelS prev).

(** ** ExAcquirePushLockExclusive *)
Definition ExAcquirePushLockExclusive (word state : Z) : Z * PC :=
  if state =? 0 then
    let newState := Z.lor EXCLUSIVE WAITING in
    let '(prev, word') := cas word state newState in
    (word', if prev =? state then HoldX else AcqX prev)
  else
    let newState := Z.lor state WAITING in
    let '(prev, word') := cas word state newState in
    (word', if prev =? state then Spin 1000 else AcqX prev).

(** ** ExReleasePushLockExclusive *)
Definition ExReleasePushLockExclusive (word state : Z) : Z * PC :=
  let newState := Z.land state (u32 (Z.lnot (Z.lor EXCLUSIVE WAITING))) in
  let '(prev, word') := cas word state newState in
  (word', if prev =? state then
            if (0 <? Z.land newState PUSHLOCK_SHARED_MASK) || truthy (Z.land newState WAITING)
            then Unmodelled              (* KeSetEvent(&Lock->WakeEvent) *)
            else Idle
          else RelX prev).

(** One step of a thread inside a routine. *)
Definition advance (word : Z) (p : PC) : option (Z * PC) :=
  match p with
  | AcqS st => Some (ExAcquirePushLockShared word st)
  | RelS st => Some (ExReleasePushLockShared word st)
  | AcqX st => Some (ExAcquirePushLockExclusive word st)
  | RelX st => Some (ExReleasePushLockExclusive word st)
  | Spin 0 => Some (word, Check_)
  | Spin (S n) => Some (word, if word =? 0 then Check_ else Spin n)
  | Check_ => Some (word, if word =? 0 then Reload else Unmodelled)   (* KeWaitForSingleObject *)
  | Reload => Some (word, AcqX word)
  | Idle | HoldS | HoldX | Unmodelled => None
  end.

(** Entering a routine reads the word. *)
Definition call (word : Z) (p : PC) (c : CALL) : option PC :=
  match p, c with
  | Idle, CallShared => Some (AcqS word)
  | Idle, CallExclusive => Some (AcqX word)
  | HoldS, CallReleaseShared => Some (RelS word)
  | HoldX, CallReleaseExclusive => Some (RelX word)
  | _, _ => None
  end.

Record CONFIG := mkConfig { State : Z; Pcs : list PC }.

Definition ExInitializePushLock (threads : nat) : CONFIG := mkConfig 0 (replicate threads Idle).
Definition ExGetPushLockState (c : CONFIG) : Z := State c.

(** Any thread takes a step of its routine, or enters one. *)
Inductive step : CONFIG → CONFIG → Prop :=
| step_in w ps i p w' p' :
    ps !! i = Some p → advance w p = Some (w', p') → step (mkConfig w ps) (mkConfig w' (<[i := p']> ps))
| step_call w ps i p c p' :
    ps !! i = Some p → call w p c = Some p' → step (mkConfig w ps) (mkConfig w (<[i := p']> ps)).

Definition shared (p : PC) : bool := match p with HoldS | RelS _ => true | _ => false end.
Definition exclusive (p : PC) : bool := match p with HoldX | RelX _ => true | _ => false end.

(** ** Arithmetic of the packed word *)

Lemma land_div a b : Z.land a b / 65536 = Z.land (a / 65536) (b / 65536).
Proof. change 65536 with (2 ^ 16). rewrite <- !Z.shiftr_div_pow2 by lia. apply Z.shiftr_land. Qed.
Lemma lor_div a b : Z.lor a b / 65536 = Z.lor (a / 65536) (b / 65536).
Proof. change 65536 with (2 ^ 16). rewrite <- !Z.shiftr_div_pow2 by lia. apply Z.shiftr_lor. Qed.
Lemma land_mod a b : Z.land a b mod 65536 = Z.land (a mod 65536) (b mod 65536).
Proof.
  change 65536 with (2 ^ 16). rewrite <- !Z.land_ones by lia. apply Z.bits_inj'. intros n _. rewrite !Z.land_spec.
  by repeat destruct (Z.testbit _ n).
Qed.
Lemma lor_mod a b : Z.lor a b mod 65536 = Z.lor (a mod 65536) (b mod 65536).
Proof. change 65536 with (2 ^ 16). rewrite <- !Z.land_ones by lia. apply Z.land_lor_distr_l. Qed.

Lemma land_pack S k T m : 0 ≤ S < 65536 → 0 ≤ T < 65536 →
  Z.land (S + 65536 * k) (T + 65536 * m) = Z.land S T + 65536 * Z.land k m.
Proof.
  intros. rewrite (Z.div_mod (Z.land _ _) 65536) at 1 by lia. rewrite land_div, land_mod.
  replace ((S + 65536 * k) / 65536) with k by (Z.div_mod_to_equations; lia).
  replace ((T + 65536 * m) / 65536) with m by (Z.div_mod_to_equations; lia).
  replace ((S + 65536 * k) mod 65536) with S by (Z.div_mod_to_equations; lia).
  replace ((T + 65536 * m) mod 65536) with T by (Z.div_mod_to_equations; lia). lia.
Qed.
Lemma lor_pack S k T m : 0 ≤ S < 65536 → 0 ≤ T < 65536 →
  Z.lor (S + 65536 * k) (T + 65536 * m) = Z.lor S T + 65536 * Z.lor k m.
Proof.
  intros. rewrite (Z.div_mod (Z.lor _ _) 65536) at 1 by lia. rewrite lor_div, lor_mod.
  replace ((S + 65536 * k) / 65536) with k by (Z.div_mod_to_equations; lia).
  replace ((T + 65536 * m) / 65536) with m by (Z.div_mod_to_equations; lia).
  replace ((S + 65536 * k) mod 65536) with S by (Z.div_mod_to_equations; lia).
  replace ((T + 65536 * m) mod 65536) with T by (Z.div_mod_to_equations; lia). lia.
Qed.

Lemma low_pack S k : 0 ≤ S < 65536 → Z.land (S + 65536 * k) PUSHLOCK_SHARED_MASK = S.
Proof.
  intros. change PUSHLOCK_SHARED_MASK with (65535 + 65536 * 0). rewrite land_pack, Z.land_0_r by lia.
  change 65535 with (Z.ones 16). rewrite Z.land_ones, Z.mod_small by (simpl; lia). lia.
Qed.
Lemma excl_pack S k : 0 ≤ S < 65536 → Z.land (S + 65536 * k) EXCLUSIVE = 65536 * Z.land k 1.
Proof. intros. change EXCLUSIVE with (0 + 65536 * 1). rewrite land_pack, Z.land_0_r by lia. lia. Qed.

(** The word of a lock with [S] readers, [X] writers and the waiting flag [b]. *)
Definition packed (S X b : Z) : Z := S + 65536 * (X + 2 * b).

Record lock_inv (c : CONFIG) : Prop := {
  li_word : ∃ b, 0 ≤ b ≤ 1 ∧ State c = packed (countb shared (Pcs c)) (countb exclusive (Pcs c)) b;
  li_shared : countb shared (Pcs c) ≤ 65535;
  li_excl : countb exclusive (Pcs c) ≤ 1;
  li_both : countb exclusive (Pcs c) = 1 → countb shared (Pcs c) = 0;
  li_rel i st : Pcs c !! i = Some (RelS st) → Z.land st PUSHLOCK_SHARED_MASK ≠ 0
}.

(** A step that leaves the word and who holds the lock. *)
Lemma inv_move w ps i p p' :
  lock_inv (mkConfig w ps) → ps !! i = Some p → shared p' = shared p → exclusive p' = exclusive p →
  (∀ st, p' = RelS st → Z.land st PUSHLOCK_SHARED_MASK ≠ 0) → lock_inv (mkConfig w (<[i := p']> ps)).
Proof.
  intros [H1 H2 H3 H4 H5] Hi Hs Hx Hr. constructor; simpl in *.
  1-4: rewrite !(countb_insert _ ps i p p' Hi), ?Hs, ?Hx, !Z.sub_add; done.
  intros j st. destruct (decide (i = j)) as [->|Hne].
  - rewrite list_lookup_insert_eq by (by eapply lookup_lt_Some). intros [= ->]. by apply Hr.
  - rewrite list_lookup_insert_ne by done. apply H5.
Qed.

(** A reader's word has a positive count. *)
Lemma reader_count w ps i p :
  lock_inv (mkConfig w ps) → ps !! i = Some p → shared p = true → Z.land w PUSHLOCK_SHARED_MASK ≠ 0.
Proof.
  intros [(b & Hb & Hw) H2 _ _ _] Hi Hp. simpl in *. pose proof (countb_elem _ _ _ _ Hi Hp).
  rewrite Hw. unfold packed. rewrite low_pack by lia. lia.
Qed.

(** A compare-and-swap that succeeds: the holders change with the word. *)
Lemma inv_swap w ps i p p' w' S' X' b :
  lock_inv (mkConfig w ps) → ps !! i = Some p →
  (∀ st, p' ≠ RelS st) → 0 ≤ b ≤ 1 →
  S' = countb shared ps - (if shared p then 1 else 0) + (if shared p' then 1 else 0) →
  X' = countb exclusive ps - (if exclusive p then 1 else 0) + (if exclusive p' then 1 else 0) →
  w' = packed S' X' b → S' ≤ 65535 → X' ≤ 1 → (X' = 1 → S' = 0) → lock_inv (mkConfig w' (<[i := p']> ps)).
Proof.
  intros [H1 H2 H3 H4 H5] Hi Hr Hb HS HX Hw ? ? ?. constructor; simpl in *.
  1-4: rewrite !(countb_insert _ ps i p p' Hi), <- ?HS, <- ?HX; eauto.
  intros j st. destruct (decide (i = j)) as [->|Hne].
  - rewrite list_lookup_insert_eq by (by eapply lookup_lt_Some). intros [= ->]. by destruct (Hr st).
  - rewrite list_lookup_insert_ne by done. apply H5.
Qed.

Lemma acquire_shared_step w ps i st w' p' :
  lock_inv (mkConfig w ps) → ps !! i = Some (AcqS st) → ExAcquirePushLockShared w st = (w', p') →
  lock_inv (mkConfig w' (<[i := p']> ps)).
Proof.
  intros Hinv Hi. unfold ExAcquirePushLockShared, cas. destruct (_ && _) eqn:Hg.
  2: { intros [= <- <-]. by apply (inv_move w ps i (AcqS st)). }
  destruct (Z.eqb_spec w st) as [->|Hne].
  2: { intros [= <- <-]. by apply (inv_move w ps i (AcqS st)). }
  intros [= <- <-]. pose proof Hinv as [(b & Hb & Hw) H2 H3 H4 _]. simpl in *.
  pose proof (countb_bounds shared ps). pose proof (countb_bounds exclusive ps).
  rewrite Hw in Hg. unfold packed in Hg. rewrite excl_pack, low_pack in Hg by lia.
  apply andb_true_iff in Hg as [Hx Hlt].
  assert (HX : countb exclusive ps = 0).
  { assert (countb exclusive ps = 0 ∨ countb exclusive ps = 1) as [?|HX] by lia; [done|].
    rewrite HX in Hx. assert (b = 0 ∨ b = 1) as [-> | ->] by lia; done. }
  unfold PUSHLOCK_SHARED_MASK in Hlt.
  eapply (inv_swap _ ps i (AcqS st) HoldS _ _ _ 0 Hinv Hi); simpl; try done; try lia.
  rewrite Hw, u32_small by (unfold packed; lia). unfold packed.
  replace (countb shared ps + 65536 * (countb exclusive ps + 2 * b) + 1)
    with (countb shared ps + 1 + 65536 * (countb exclusive ps + 2 * b)) by lia.
  rewrite low_pack by lia. lia.
Qed.

Lemma release_shared_step w ps i st w' p' :
  lock_inv (mkConfig w ps) → ps !! i = Some (RelS st) → ExReleasePushLockShared w st = (w', p') →
  lock_inv (mkConfig w' (<[i := p']> ps)).
Proof.
  intros Hinv Hi. pose proof (li_rel _ Hinv i st Hi) as Hst. unfold ExReleasePushLockShared, cas.
  replace (Z.land st PUSHLOCK_SHARED_MASK =? 0) with false by lia.
  destruct (Z.eqb_spec w st) as [->|Hne].
  2: { intros [= <- <-]. apply (inv_move w ps i (RelS st)); try done.
       intros st' [= <-]. by apply (reader_count w ps i (RelS st)). }
  intros [= <- <-]. pose proof Hinv as [(b & Hb & Hw) H2 H3 H4 _]. simpl in *.
  pose proof (countb_bounds exclusive ps). pose proof (countb_elem shared ps i _ Hi eq_refl).
  set (p' := if (_ : bool) then Unmodelled else Idle).
  assert (shared p' = false ∧ exclusive p' = false ∧ ∀ st, p' ≠ RelS st) as (Hs & Hx & Hr)
    by (unfold p'; by case_match).
  eapply (inv_swap _ ps i (RelS st) p' _ _ _ b Hinv Hi); rewrite ?Hs, ?Hx; simpl; try done; try lia.
  rewrite Hw, u32_small by (unfold packed; lia). unfold packed. lia.
Qed.

Lemma acquire_exclusive_step w ps i st w' p' :
  lock_inv (mkConfig w ps) → ps !! i = Some (AcqX st) → ExAcquirePushLockExclusive w st = (w', p') →
  lock_inv (mkConfig w' (<[i := p']> ps)).
Proof.
  intros Hinv Hi. unfold ExAcquirePushLockExclusive, cas.
  pose proof Hinv as [(b & Hb & Hw) H2 H3 H4 _]. simpl in *.
  pose proof (countb_bounds shared ps). pose proof (countb_bounds exclusive ps).
  destruct (Z.eqb_spec st 0) as [->|Hnz].
  - destruct (Z.eqb_spec w 0) as [->|Hne].
    2: { intros [= <- <-]. by apply (inv_move w ps i (AcqX 0)). }
    intros [= <- <-]. unfold packed in Hw.
    eapply (inv_swap _ ps i (AcqX 0) HoldX _ 0 1 1 Hinv Hi); simpl; try done; try lia.
  - destruct (Z.eqb_spec w st) as [->|Hne].
    2: { intros [= <- <-]. by apply (inv_move w ps i (AcqX st)). }
    intros [= <- <-]. eapply (inv_swap _ ps i (AcqX st) (Spin 1000) _ _ _ 1 Hinv Hi); simpl; try done; try lia.
    rewrite Hw. change WAITING with (0 + 65536 * 2). unfold packed. rewrite lor_pack, Z.lor_0_r by lia.
    assert (countb exclusive ps = 0 ∨ countb exclusive ps = 1) as [HX|HX] by lia;
      rewrite HX; assert (b = 0 ∨ b = 1) as [-> | ->] by lia;
      match goal with |- context [Z.lor ?a ?b] => let v := eval vm_compute in (Z.lor a b) in
        change (Z.lor a b) with v end; lia.
Qed.

Lemma release_exclusive_step w ps i st w' p' :
  lock_inv (mkConfig w ps) → ps !! i = Some (RelX st) → ExReleasePushLockExclusive w st = (w', p') →
  lock_inv (mkConfig w' (<[i := p']> ps)).
Proof.
  intros Hinv Hi. unfold ExReleasePushLockExclusive, cas.
  destruct (Z.eqb_spec w st) as [->|Hne].
  2: { intros [= <- <-]. by apply (inv_move w ps i (RelX st)). }
  intros [= <- <-]. pose proof Hinv as [(b & Hb & Hw) H2 H3 H4 _]. simpl in *.
  pose proof (countb_elem exclusive ps i _ Hi eq_refl).
  assert (HX : countb exclusive ps = 1) by lia. pose proof (H4 HX) as HS.
  set (p' := if (_ : bool) then Unmodelled else Idle).
  assert (shared p' = false ∧ exclusive p' = false ∧ ∀ st, p' ≠ RelS st) as (Hs & Hx & Hr)
    by (unfold p'; by case_match).
  eapply (inv_swap _ ps i (RelX st) p' _ 0 0 0 Hinv Hi); rewrite ?Hs, ?Hx; simpl; try done; try lia.
  rewrite Hw, HX, HS. assert (b = 0 ∨ b = 1) as [-> | ->] by lia; done.
Qed.

Lemma step_inv c c' : lock_inv c → step c c' → lock_inv c'.
Proof.
  intros Hinv Hs. destruct Hs as [w ps i p w' p' Hi Ha|w ps i p cl p' Hi Hc].
  - destruct p as [|st| |st|st|n| | | |st|]; simpl in Ha; try discriminate.
    + apply (acquire_shared_step w ps i st); [done..|congruence].
    + apply (release_shared_step w ps i st); [done..|congruence].
    + apply (acquire_exclusive_step w ps i st); [done..|congruence].
    + destruct n; injection Ha as <- <-; [|case_match]; by apply (inv_move w ps i _ _ Hinv Hi).
    + injection Ha as <- <-. case_match; by apply (inv_move w ps i _ _ Hinv Hi).
    + injection Ha as <- <-. by apply (inv_move w ps i _ _ Hinv Hi).
    + apply (release_exclusive_step w ps i st); [done..|congruence].
  - destruct p, cl; simplify_eq/=; try by apply (inv_move w ps i _ _ Hinv Hi).
    apply (inv_move w ps i _ _ Hinv Hi); try done. intros st [= <-].
    by apply (reader_count w ps i HoldS).
Qed.

Lemma init_inv n : lock_inv (ExInitializePushLock n).
Proof.
  constructor; simpl; rewrite ?countb_replicate by done; try lia.
  - exists 0. done.
  - intros i st [? _]%lookup_replicate. done.
Qed.

(** [C3] Mutual exclusion of push locks: in every configuration that any number
    of threads can reach by interleaving the atomic accesses of the four
    routines, at most one thread holds the lock exclusively, no thread holds it
    shared while one does, and the lock word is exactly the number of shared
    holders (never more than 65535), the exclusive flag, and the waiting flag. *)
Theorem pushlock_mutual_exclusion n c :
  rtc step (ExInitializePushLock n) c →
  countb exclusive (Pcs c) ≤ 1 ∧ countb shared (Pcs c) ≤ 65535 ∧
  (countb exclusive (Pcs c) = 1 → countb shared (Pcs c) = 0) ∧
  ∃ b, 0 ≤ b ≤ 1 ∧
    ExGetPushLockState c = countb shared (Pcs c) + 65536 * (countb exclusive (Pcs c) + 2 * b).
Proof.
  intros Hr. assert (Hinv : lock_inv c).
  { pose proof (init_inv n) as H0. induction Hr as [|x y z Hxy _ IH]; [done|]. eauto using step_inv. }
  destruct Hinv as [H1 H2 H3 H4 _]. split_and!; done.
Qed.

(** ** The waiting flag outlives its writer

    After the last reader leaves, the waiting flag a blocked writer set is still
    in the word. *)

Fixpoint run_alone (fuel : nat) (w : Z) (p : PC) : Z * PC :=
  match fuel with
  | O => (w, p)
  | S f => match advance w p with Some (w', p') => run_alone f w' p' | None => (w, p) end
  end.

Lemma run_alone_spin n f : run_alone (n + f) WAITING (Spin n) = run_alone f WAITING (Spin 0).
Proof. induction n as [|n IH]; [done|]. exact IH. Qed.

(** A writer that finds only the waiting flag set never acquires the lock:
    the flag is cleared by a shared acquire or an exclusive release and by
    nothing else, so with no other thread in the lock the writer spins 1000
    turns and then blocks on the wake event, which was never initialised.  The
    free lock is thus unavailable to writers; the comment says the release
    wakes them. *)
Theorem pushlock_waiting_flag_blocks_writer f :
  run_alone (1003 + f) WAITING (AcqX WAITING) = (WAITING, Unmodelled) ∧
  (∃ n c, rtc step (ExInitializePushLock n) c ∧ State c = WAITING ∧
     countb shared (Pcs c) = 0 ∧ countb exclusive (Pcs c) = 0).
Proof.
  split.
  - change (1003 + f)%nat with (S (1000 + S (S f))). cbn [run_alone].
    change (advance WAITING (AcqX WAITING)) with (Some (WAITING, Spin 1000)).
    cbv beta iota. rewrite run_alone_spin. by destruct f.
  - exists 2%nat, (mkConfig WAITING [Unmodelled; Spin 1000]). split; [|done].
    eapply rtc_l. { apply (step_call 0 _ 0 Idle CallShared (AcqS 0)); done. } simpl.
    eapply rtc_l. { apply (step_in 0 _ 0 (AcqS 0) 1 HoldS); done. } simpl.
    eapply rtc_l. { apply (step_call 1 _ 1 Idle CallExclusive (AcqX 1)); done. } simpl.
    eapply rtc_l. { apply (step_in 1 _ 1 (AcqX 1) (1 + WAITING) (Spin 1000)); done. } simpl.
    eapply rtc_l. { apply (step_call _ _ 0 HoldS CallReleaseShared (RelS (1 + WAITING))); done. } simpl.
    eapply rtc_l. { apply (step_in _ _ 0 (RelS (1 + WAITING)) WAITING Unmodelled); done. } simpl.
    apply rtc_refl.
Qed.

Lemma pushlock_mutual_exclusion_witness :
  let c := mkConfig 196608 [HoldX; AcqS 0] in
  rtc step (ExInitializePushLock 2) c ∧ (countb exclusive (Pcs c) = 1 → countb shared (Pcs c) = 0).
Proof.
  intros c. assert (Hr : rtc step (ExInitializePushLock 2) c).
  { eapply rtc_l. { apply (step_call 0 _ 1 Idle CallShared (AcqS 0)); done. } simpl.
    eapply rtc_l. { apply (step_call 0 _ 0 Idle CallExclusive (AcqX 0)); done. } simpl.
    eapply rtc_l. { apply (step_in 0 _ 0 (AcqX 0) 196608 HoldX); done. } simpl. apply rtc_refl. }
  split; [exact Hr|]. by destruct (pushlock_mutual_exclusion 2 c Hr) as (_ & _ & H & _).
Defined.
