(* ===== verification/Rundown.v ===== *)
(** * Rundown: executive rundown protection (src/ex/rundown.c)

    The reference counter and the two flags of a RUNDOWN_REF, on top of the
    dispatcher's state: the event embedded in the structure is a dispatcher
    object at the address [RundownEvent].  A zeroed event has no wait list and
    is not an object of the dispatcher until KeInitializeEvent has run. *)

From S2P Require Import Prelude Irql Dispatch.

#[local] Open Scope Z_scope.

Record RUNDOWN_REF := mkRef { Count : Z; RundownCompleted : bool; EventInitialized : bool }.

Record RUN_STATE := mkRun { ref : RUNDOWN_REF; rks : KS }.

Definition set_ref (r : RUNDOWN_REF) (s : RUN_STATE) : RUN_STATE := mkRun r (rks s).
Definition set_rks (k : KS) (s : RUN_STATE) : RUN_STATE := mkRun (ref s) k.
Definition kern {A} (m : M KS A) : M RUN_STATE A := zoom rks set_rks m.

Definition with_rcount (n : Z) (r : RUNDOWN_REF) : RUNDOWN_REF :=
  mkRef n (RundownCompleted r) (EventInitialized r).

(** [__sync_add_and_fetch] and [__sync_sub_and_fetch] on the counter. *)
Definition add_and_fetch (d : Z) : M RUN_STATE Z :=
  r ← mgets ref;
  let n := u32 (Count r + d) in
  mmod (set_ref (with_rcount n r));;
  mret n.

Section Rundown.
Context (RundownEvent : Z).

(** RtlZeroMemory over the structure: the embedded event is not usable. *)
Definition ExInitializeRundownProtection : M RUN_STATE Z :=
  mmod (λ s, mkRun (mkRef 0 false false)
    (set_sched (mkSched (Threads (sched (rks s))) (delete RundownEvent (Objects (sched (rks s))))
                  (KiReadyListHead (sched (rks s))) (CurrentThread (sched (rks s)))
                  (Rsp (sched (rks s))) (TssRsp0 (sched (rks s)))) (rks s)));;
  mret STATUS_SUCCESS.

Definition ExAcquireRundownProtection : M RUN_STATE unit :=
  count ← add_and_fetch 1;
  r ← mgets ref;
  mwhen (RundownCompleted r) (
    mwhen (count =? 1) (kern (KeSetEvent RundownEvent);; mret tt);;
    add_and_fetch (-1);; mret tt).

Definition ExReleaseRundownProtection : M RUN_STATE unit :=
  count ← add_and_fetch (-1);
  r ← mgets ref;
  mwhen ((count =? 0) && RundownCompleted r) (kern (KeSetEvent RundownEvent);; mret tt).

(** [if (!Ref->EventInitialized) KeInitializeEvent(...)]. *)
Definition init_event_once : M RUN_STATE unit :=
  r ← mgets ref;
  mwhen (negb (EventInitialized r)) (
    kern (KeInitializeEvent RundownEvent NotificationEvent false);;
    mmod (λ s, set_ref (mkRef (Count (ref s)) (RundownCompleted (ref s)) true) s)).

Definition ExWaitForRundownProtectionRelease : M RUN_STATE WAIT :=
  r ← mgets ref;
  if Count r =? 0 then mret (Returned STATUS_SUCCESS)
  else
    init_event_once;;
    kern (KeWaitForSingleObject RundownEvent None).

(** The wait is on the caller's own event; the reference is not looked at, and
    the wait's status is dropped. *)
Definition ExWaitForRundownProtectionReleaseAsync (Event : Z) : M RUN_STATE WAIT :=
  r ← kern (KeWaitForSingleObject Event None);
  mret (match r with Returned _ => Returned STATUS_SUCCESS | SwitchedAway => SwitchedAway end).

Definition ExRundownCompleted : M RUN_STATE unit :=
  mmod (λ s, set_ref (mkRef (Count (ref s)) true (EventInitialized (ref s))) s);;
  r ← mgets ref;
  mwhen (Count r =? 0) (init_event_once;; kern (KeSetEvent RundownEvent);; mret tt).

(** The [for] loop of ExAcquireRundownProtectionEx. *)
Definition acquire_times (n : Z) : M RUN_STATE unit :=
  loop (λ i : Z,
    if i <? n then ExAcquireRundownProtection;; mret (inl (i + 1)) else mret (inr tt)) 0.

Definition ExAcquireRundownProtectionEx (n : Z) : M RUN_STATE bool :=
  if n =? 0 then mret false
  else
    acquire_times n;;
    r ← mgets ref;
    mret (negb (RundownCompleted r)).

Definition ExGetRundownProtectionCount (s : RUN_STATE) : Z := Count (ref s).

(** The dispatcher is well formed; the event is an object of it exactly when it
    is initialised. *)
Record run_wf (s : RUN_STATE) : Prop := {
  rw_ks : ks_wf (rks s);
  rw_count : 0 ≤ Count (ref s) < 4294967296;
  rw_event : EventInitialized (ref s) = true →
    ∃ x, Objects (sched (rks s)) !! RundownEvent = Some x ∧ OType x = EventObject;
  rw_none : EventInitialized (ref s) = false → Objects (sched (rks s)) !! RundownEvent = None
}.

(** The threads that wait for the rundown, and an event nobody has signaled. *)
Definition rd_waiters (s : RUN_STATE) : list Z :=
  from_option WaitListHead [] (Objects (sched (rks s)) !! RundownEvent).
Definition unsignaled (s : RUN_STATE) : Prop :=
  ∀ x, Objects (sched (rks s)) !! RundownEvent = Some x → SignalState x = 0.

Lemma kern_ok {A} (m : M KS A) s a k : m (rks s) = Ok (a, k) → kern m s = Ok (a, set_rks k s).
Proof. intros H. by apply zoom_ok. Qed.

(** Signalling the initialised event: all its waiters become ready. *)
Lemma signal_run s :
  run_wf s → EventInitialized (ref s) = true →
  ∃ x c, Objects (sched (rks s)) !! RundownEvent = Some x ∧
    kern (KeSetEvent RundownEvent) s = Ok (SignalState x, set_rks (set_sched c (rks s)) s) ∧
    run_wf (set_rks (set_sched c (rks s)) s) ∧
    KiReadyListHead c = KiReadyListHead (sched (rks s)) ++ WaitListHead x ∧
    Objects c !! RundownEvent = Some (with_waiters [] (with_signal 1 x)).
Proof.
  intros [Hk Hn He Hz] Hi. destruct (He Hi) as (x & Hx & Ht).
  destruct (set_event_run (rks s) RundownEvent x Hk Hx) as (c & Hr & Hwf & Hp).
  unfold set_event_post in Hp. rewrite Ht, Z.eqb_refl in Hp.
  assert (Ho : Objects c !! RundownEvent = Some (with_waiters [] (with_signal 1 x))).
  { rewrite (wk_obj _ _ _ _ _ _ _ Hp). apply lookup_insert_eq. }
  exists x, c. split_and!; [done|by apply kern_ok| |apply (wk_ready _ _ _ _ _ _ _ Hp)|done].
  constructor; simpl; [by destruct Hk as (_ & ? & ?)|done|eauto|congruence].
Qed.

Lemma init_event_run s :
  run_wf s →
  ∃ s', init_event_once s = Ok (tt, s') ∧ run_wf s' ∧ EventInitialized (ref s') = true ∧
    Count (ref s') = Count (ref s) ∧ RundownCompleted (ref s') = RundownCompleted (ref s) ∧
    CurrentThread (sched (rks s')) = CurrentThread (sched (rks s)) ∧
    KiReadyListHead (sched (rks s')) = KiReadyListHead (sched (rks s)) ∧
    rd_waiters s' = rd_waiters s ∧ (unsignaled s → unsignaled s').
Proof.
  intros Hwf. pose proof Hwf as [Hk Hn He Hz]. unfold init_event_once. unfold mbind at 1, M_bind at 1. cbn [mgets].
  destruct (EventInitialized (ref s)) eqn:Ei; [by exists s; split_and!|]. specialize (Hz eq_refl).
  eexists. split; [reflexivity|]. split_and!; try done.
  - constructor; simpl; [| |intros _; eexists; split; [apply lookup_insert_eq|done]|done]; [|done].
    destruct Hk as ([Hi Hcur] & ? & ?). split; [|done]. split; [|done]. by apply new_object_inv.
  - unfold rd_waiters. simpl. by rewrite lookup_insert_eq, Hz.
  - intros _ x. simpl. rewrite lookup_insert_eq. by intros [= <-].
Qed.

Lemma acquire_open s :
  RundownCompleted (ref s) = false → 0 ≤ Count (ref s) < 4294967295 →
  ExAcquireRundownProtection s = Ok (tt, set_ref (with_rcount (Count (ref s) + 1) (ref s)) s).
Proof.
  intros Hc Hn. unfold ExAcquireRundownProtection, add_and_fetch, mwhen, mbind, M_bind. simpl.
  by rewrite Hc, u32_small by lia.
Qed.

Lemma release_plain s :
  1 ≤ Count (ref s) < 4294967296 → Count (ref s) ≠ 1 ∨ RundownCompleted (ref s) = false →
  ExReleaseRundownProtection s = Ok (tt, set_ref (with_rcount (Count (ref s) - 1) (ref s)) s).
Proof.
  intros Hn Hc. unfold ExReleaseRundownProtection, add_and_fetch, mwhen, mbind, M_bind. simpl.
  rewrite u32_small by lia. change (Count (ref s) + -1) with (Count (ref s) - 1).
  destruct Hc as [Hc|Hc]; [|by rewrite Hc, andb_false_r]. by replace (Count (ref s) - 1 =? 0) with false by lia.
Qed.

Lemma set_ref_wf s n :
  run_wf s → 0 ≤ n < 4294967296 → run_wf (set_ref (with_rcount n (ref s)) s).
Proof. intros [H1 H2 H3 H4] Hn. by constructor. Qed.

(** After rundown an acquire takes nothing. *)
Lemma acquire_closed s :
  run_wf s → RundownCompleted (ref s) = true → EventInitialized (ref s) = true ∨ 0 < Count (ref s) →
  Count (ref s) < 4294967295 →
  ∃ s', ExAcquireRundownProtection s = Ok (tt, s') ∧ run_wf s' ∧ ref s' = ref s.
Proof.
  intros Hwf Hc Hi Hn. pose proof (rw_count _ Hwf). unfold ExAcquireRundownProtection.
  set (s1 := set_ref (with_rcount (Count (ref s) + 1) (ref s)) s).
  assert (Hwf1 : run_wf s1) by (apply set_ref_wf; [done|lia]).
  erewrite (bind_ok _ _ _ (Count (ref s) + 1) s1).
  2: { unfold add_and_fetch, mbind, M_bind. simpl. by rewrite u32_small by lia. }
  unfold mbind at 1, M_bind at 1. cbn [mgets]. change (RundownCompleted (ref s1)) with (RundownCompleted (ref s)).
  rewrite Hc. unfold mwhen at 1.
  assert (∃ s2, mwhen (Count (ref s) + 1 =? 1) (kern (KeSetEvent RundownEvent) ≫= λ _, mret ()) s1 = Ok (tt, s2) ∧
            run_wf s2 ∧ ref s2 = ref s1) as (s2 & Hr2 & Hwf2 & Href2).
  { unfold mwhen. destruct (Z.eqb_spec (Count (ref s) + 1) 1) as [He|He]; [|by exists s1].
    destruct Hi as [Hi|Hi]; [|lia]. destruct (signal_run s1 Hwf1 Hi) as (x & c & _ & Hr & Hw & _). eexists.
    split; [erewrite bind_ok; [|exact Hr]; reflexivity|done]. }
  erewrite bind_ok; [|exact Hr2].
  exists (set_ref (ref s) s2). split_and!; [|constructor; [apply Hwf2|apply Hwf|intros ?; apply Hwf2; by rewrite Href2..]|done].
  unfold add_and_fetch, mbind, M_bind. simpl. rewrite Href2. simpl.
  rewrite u32_small by lia. unfold with_rcount. simpl.
  replace (Count (ref s) + 1 + -1) with (Count (ref s)) by lia. by destruct (ref s).
Qed.

Lemma acquire_times_closed n k : ∀ i s,
  run_wf s → RundownCompleted (ref s) = true → EventInitialized (ref s) = true ∨ 0 < Count (ref s) →
  Count (ref s) < 4294967295 → Z.of_nat k = n - i →
  ∃ s', run_wf s' ∧ ref s' = ref s ∧
    loops_to (λ i : Z, if i <? n then ExAcquireRundownProtection;; mret (inl (i + 1)) else mret (inr tt))
      (Z.of_nat k + 1) i s tt s'.
Proof.
  induction k as [|k IH]; intros i s Hwf Hc Hi Hn Hk.
  - exists s. split_and!; [done..|]. apply loops_done. by replace (i <? n) with false by lia.
  - destruct (acquire_closed s Hwf Hc Hi Hn) as (s1 & Hr & Hwf1 & Href).
    destruct (IH (i + 1) s1) as (s' & Hwf' & Href' & Hl); rewrite ?Href; try done; [lia|].
    exists s'. split_and!; [done|congruence|]. replace (Z.of_nat (S k) + 1) with (Z.of_nat k + 1 + 1) by lia.
    eapply loops_step; [|exact Hl]. replace (i <? n) with true by lia. by erewrite bind_ok; [|exact Hr].
Qed.

Lemma acquire_times_open n k : ∀ i s,
  RundownCompleted (ref s) = false → 0 ≤ Count (ref s) → Count (ref s) + Z.of_nat k < 4294967296 →
  Z.of_nat k = n - i →
  loops_to (λ i : Z, if i <? n then ExAcquireRundownProtection;; mret (inl (i + 1)) else mret (inr tt))
    (Z.of_nat k + 1) i s tt (set_ref (with_rcount (Count (ref s) + Z.of_nat k) (ref s)) s).
Proof.
  induction k as [|k IH]; intros i s Hc H0 Hn Hk.
  - replace (set_ref _ s) with s by (destruct s as [[] ?]; unfold set_ref, with_rcount; simpl; by rewrite Z.add_0_r).
    apply loops_done. by replace (i <? n) with false by lia.
  - replace (Z.of_nat (S k) + 1) with (Z.of_nat k + 1 + 1) by lia.
    specialize (IH (i + 1) (set_ref (with_rcount (Count (ref s) + 1) (ref s)) s) Hc). simpl in IH.
    replace (Count (ref s) + Z.of_nat (S k)) with (Count (ref s) + 1 + Z.of_nat k) by lia.
    eapply loops_step; [|apply IH; lia]. replace (i <? n) with true by lia.
    by erewrite bind_ok; [|apply acquire_open; [done|lia]].
Qed.

(** [n] releases in a row. *)
Fixpoint releases (n : nat) : M RUN_STATE unit :=
  match n with O => mret tt | S n' => ExReleaseRundownProtection;; releases n' end.

Lemma releases_plain n : ∀ s,
  Z.of_nat n < Count (ref s) < 4294967296 →
  releases n s = Ok (tt, set_ref (with_rcount (Count (ref s) - Z.of_nat n) (ref s)) s).
Proof.
  induction n as [|n IH]; intros s Hn; cbn [releases].
  - rewrite Z.sub_0_r. by destruct s as [[] ?].
  - erewrite bind_ok; [|apply release_plain; [lia|left; lia]].
    rewrite IH by (simpl; lia).
    by replace (Count (ref s) - Z.of_nat (S n)) with (Count (ref s) - 1 - Z.of_nat n) by lia.
Qed.

(** The last release after rundown. *)
Lemma release_last s :
  run_wf s → Count (ref s) = 1 → RundownCompleted (ref s) = true →
  ExReleaseRundownProtection s =
    (kern (KeSetEvent RundownEvent);; mret tt) (set_ref (with_rcount 0 (ref s)) s).
Proof.
  intros Hwf Hn Hc. unfold ExReleaseRundownProtection, add_and_fetch.
  unfold mwhen, mbind at 1 2 3 4, M_bind. simpl. rewrite Hn. change (u32 (1 + -1)) with 0. simpl. by rewrite Hc.
Qed.

Lemma releases_app a b s : releases (a + b) s = (releases a;; releases b) s.
Proof.
  revert s; induction a as [|a IH]; intros s; [done|]. cbn [releases Nat.add]. unfold mbind, M_bind in *.
  by destruct (ExReleaseRundownProtection s) as [[[] ?]| | | |].
Qed.

(** All the references after rundown: the last release is what remains. *)
Lemma releases_all s :
  run_wf s → 0 < Count (ref s) → RundownCompleted (ref s) = true →
  releases (Z.to_nat (Count (ref s))) s =
    ((kern (KeSetEvent RundownEvent);; mret tt);; mret tt) (set_ref (with_rcount 0 (ref s)) s).
Proof.
  intros Hwf H0 Hc. pose proof (rw_count _ Hwf).
  replace (Z.to_nat (Count (ref s))) with (Z.to_nat (Count (ref s) - 1) + 1)%nat by lia.
  rewrite releases_app. erewrite bind_ok; [|apply releases_plain; lia].
  replace (Count (ref s) - Z.of_nat (Z.to_nat (Count (ref s) - 1))) with 1 by lia.
  cbn [releases]. unfold mbind at 1, M_bind at 1. rewrite release_last; [done| |done..]. by apply set_ref_wf.
Qed.

(** A wait that finds references and another ready thread. *)
Lemma rundown_wait_blocks s New rest :
  run_wf s → Count (ref s) ≠ 0 → unsignaled s → KiReadyListHead (sched (rks s)) = New :: rest →
  ∃ s', ExWaitForRundownProtectionRelease s = Ok (SwitchedAway, s') ∧ run_wf s' ∧
    EventInitialized (ref s') = true ∧ Count (ref s') = Count (ref s) ∧
    RundownCompleted (ref s') = RundownCompleted (ref s) ∧
    CurrentThread (sched (rks s')) = New ∧ KiReadyListHead (sched (rks s')) = rest ∧
    rd_waiters s' = rd_waiters s ++ [CurrentThread (sched (rks s))].
Proof.
  intros Hwf H0 Hu Hr.
  destruct (init_event_run s Hwf) as (s1 & Hi & Hwf1 & He & Hc & Hd & Hcur & Hrd & Hwl & Hus).
  pose proof Hwf1 as [Hk Hn Hx _]. destruct (Hx He) as (x & Hxo & Hty).
  pose proof Hk as ([_ (th & Hth & _)] & _ & _).
  destruct (wait_blocks (rks s1) RundownEvent x th New rest None) as (k & Hw & Hkw & Hcn & Hrn & Ho);
    try done; [by apply Hus|congruence|].
  exists (set_rks k s1). split_and!; try done.
  - unfold ExWaitForRundownProtectionRelease. unfold mbind at 1, M_bind at 1. cbn [mgets].
    replace (Count (ref s) =? 0) with false by lia. erewrite bind_ok; [|exact Hi]. by apply kern_ok.
  - constructor; [done|done| |simpl; congruence].
    intros _. simpl. rewrite Ho, lookup_insert_eq. eauto.
  - rewrite <- Hwl, <- Hcur. unfold rd_waiters. simpl. by rewrite Ho, lookup_insert_eq, Hxo.
Qed.

(** Marking the rundown complete. *)
Lemma completed_run s :
  run_wf s →
  ∃ s', ExRundownCompleted s = Ok (tt, s') ∧ run_wf s' ∧ RundownCompleted (ref s') = true ∧
    Count (ref s') = Count (ref s) ∧
    if Count (ref s) =? 0 then
      EventInitialized (ref s') = true ∧
      (∃ x, Objects (sched (rks s')) !! RundownEvent = Some x ∧ SignalState x = 1 ∧ WaitListHead x = []) ∧
      KiReadyListHead (sched (rks s')) = KiReadyListHead (sched (rks s)) ++ rd_waiters s
    else EventInitialized (ref s') = EventInitialized (ref s) ∧ rks s' = rks s.
Proof.
  intros Hwf. pose proof Hwf as [Hk Hn He Hz].
  set (s0 := set_ref (mkRef (Count (ref s)) true (EventInitialized (ref s))) s).
  assert (Hwf0 : run_wf s0) by (by constructor). unfold ExRundownCompleted.
  erewrite (bind_ok _ _ _ tt s0) by reflexivity. unfold mbind at 1, M_bind at 1. cbn [mgets].
  change (Count (ref s0)) with (Count (ref s)). unfold mwhen.
  destruct (Count (ref s) =? 0) eqn:H0; [|by exists s0].
  destruct (init_event_run s0 Hwf0) as (s1 & Hi & Hwf1 & Hie & Hc & Hd & _ & Hrd & Hwl & _).
  destruct (signal_run s1 Hwf1 Hie) as (x & c & Hx & Hr & Hw & Hrc & Ho).
  exists (set_rks (set_sched c (rks s1)) s1). split_and!; try done.
  - erewrite bind_ok; [|exact Hi]. by erewrite bind_ok; [|exact Hr].
  - eexists. split; [exact Ho|done].
  - simpl. rewrite Hrc, Hrd. f_equal. change (rd_waiters s) with (rd_waiters s0). rewrite <- Hwl.
    unfold rd_waiters. by rewrite Hx.
Qed.

Lemma signal_uninitialised s :
  run_wf s → EventInitialized (ref s) = false → kern (KeSetEvent RundownEvent) s = Undef.
Proof.
  intros [(_ & Hl & Hc) _ _ Hz] Hi. specialize (Hz Hi). unfold kern, zoom.
  assert (KeSetEvent RundownEvent (rks s) = Undef) as ->; [|done].
  unfold KeSetEvent. rewrite acquire_bind by done. unfold get_object, mderef, mbind, M_bind.
  change (sched (locked DispatcherLock (rks s))) with (sched (rks s)). by rewrite Hz.
Qed.

(** [C16] Rundown protection, from any state of the reference.  Before rundown an
    acquire adds one reference, ExAcquireRundownProtectionEx adds n and reports
    success, and a release takes one away.  A waiter that finds no reference
    returns at once; one that finds references, an unsignaled event and another
    ready thread sets the event up if need be, joins the tail of its wait list
    and loses the processor.  ExRundownCompleted marks the rundown and keeps the
    count; with no reference left it sets the event up, signals it and makes
    every waiter ready, and with references left it touches neither the event
    nor the dispatcher.  So after it the event is set up or a reference is left,
    and then an acquire changes nothing and ExAcquireRundownProtectionEx reports
    failure, and all but the last of the references held only count down.  The last release leaves the count at zero,
    the event signaled and every waiter on the ready list when some waiter set
    the event up; when nobody did, it signals an event that was never
    initialised, which is undefined. *)
Theorem rundown_protocol s :
  run_wf s →
  (RundownCompleted (ref s) = false →
     (Count (ref s) < 4294967295 →
        ExAcquireRundownProtection s = Ok (tt, set_ref (with_rcount (Count (ref s) + 1) (ref s)) s)) ∧
     (∀ n, 0 < n → Count (ref s) + n < 4294967296 →
        ExAcquireRundownProtectionEx n s = Ok (true, set_ref (with_rcount (Count (ref s) + n) (ref s)) s)) ∧
     (1 ≤ Count (ref s) →
        ExReleaseRundownProtection s = Ok (tt, set_ref (with_rcount (Count (ref s) - 1) (ref s)) s))) ∧
  (Count (ref s) = 0 → ExWaitForRundownProtectionRelease s = Ok (Returned STATUS_SUCCESS, s)) ∧
  (∀ New rest, Count (ref s) ≠ 0 → unsignaled s → KiReadyListHead (sched (rks s)) = New :: rest →
     ∃ s', ExWaitForRundownProtectionRelease s = Ok (SwitchedAway, s') ∧ run_wf s' ∧
       EventInitialized (ref s') = true ∧ Count (ref s') = Count (ref s) ∧
       RundownCompleted (ref s') = RundownCompleted (ref s) ∧
       CurrentThread (sched (rks s')) = New ∧ KiReadyListHead (sched (rks s')) = rest ∧
       rd_waiters s' = rd_waiters s ++ [CurrentThread (sched (rks s))]) ∧
  (∃ s', ExRundownCompleted s = Ok (tt, s') ∧ run_wf s' ∧ RundownCompleted (ref s') = true ∧
     Count (ref s') = Count (ref s) ∧
     if Count (ref s) =? 0 then
       EventInitialized (ref s') = true ∧
       (∃ x, Objects (sched (rks s')) !! RundownEvent = Some x ∧ SignalState x = 1 ∧ WaitListHead x = []) ∧
       KiReadyListHead (sched (rks s')) = KiReadyListHead (sched (rks s)) ++ rd_waiters s
     else EventInitialized (ref s') = EventInitialized (ref s) ∧ rks s' = rks s) ∧
  (RundownCompleted (ref s) = true →
     (∀ n, EventInitialized (ref s) = true ∨ 0 < Count (ref s) →
        0 ≤ n < 4294967296 → Count (ref s) < 4294967295 →
        ∃ s', ExAcquireRundownProtectionEx n s = Ok (false, s') ∧ ref s' = ref s ∧ run_wf s') ∧
     (∀ n, Z.of_nat n < Count (ref s) →
        releases n s = Ok (tt, set_ref (with_rcount (Count (ref s) - Z.of_nat n) (ref s)) s)) ∧
     (EventInitialized (ref s) = true → 0 < Count (ref s) →
        ∃ x s', Objects (sched (rks s)) !! RundownEvent = Some x ∧
        releases (Z.to_nat (Count (ref s))) s = Ok (tt, s') ∧ run_wf s' ∧ Count (ref s') = 0 ∧
        Objects (sched (rks s')) !! RundownEvent = Some (with_waiters [] (with_signal 1 x)) ∧
        KiReadyListHead (sched (rks s')) = KiReadyListHead (sched (rks s)) ++ WaitListHead x) ∧
     (EventInitialized (ref s) = false → 0 < Count (ref s) →
        releases (Z.to_nat (Count (ref s))) s = Undef)).
Proof.
  intros Hwf. pose proof (rw_count _ Hwf) as Hcnt.
  split; [|split; [|split; [|split; [by apply completed_run|]]]].
  - intros Hc. split_and!.
    + intros Hn. apply acquire_open; [done|lia].
    + intros n Hn Hlt. unfold ExAcquireRundownProtectionEx. replace (n =? 0) with false by lia.
      pose proof (acquire_times_open n (Z.to_nat n) 0 s Hc) as Hl. rewrite Z2Nat.id in Hl by lia.
      specialize (Hl ltac:(lia) ltac:(lia) ltac:(lia)).
      unfold acquire_times. rewrite (bind_ok _ _ _ _ _ (loop_ok _ _ _ _ _ _ Hl ltac:(lia))).
      unfold mbind, M_bind. simpl. by rewrite Hc.
    + intros Hn. apply release_plain; [lia|by right].
  - intros H0. unfold ExWaitForRundownProtectionRelease, mbind, M_bind. simpl. by rewrite H0.
  - intros New rest H0 Hu Hr. by apply rundown_wait_blocks.
  - intros Hc. split_and!.
    + intros n Hi Hn Hlt. unfold ExAcquireRundownProtectionEx. case_match; [by exists s|].
      destruct (acquire_times_closed n (Z.to_nat n) 0 s Hwf Hc Hi Hlt ltac:(lia)) as (s' & Hwf' & Href & Hl).
      exists s'. split; [|done]. unfold acquire_times. rewrite (bind_ok _ _ _ _ _ (loop_ok _ _ _ _ _ _ Hl ltac:(lia))).
      unfold mbind, M_bind. simpl. by rewrite Href, Hc.
    + intros n Hn. apply releases_plain. lia.
    + intros Hi H0. assert (Hwf2 : run_wf (set_ref (with_rcount 0 (ref s)) s)) by (by apply set_ref_wf).
      destruct (signal_run _ Hwf2 Hi) as (x & c & Hx & Hr & Hw & Hrd & Ho).
      exists x, (set_rks (set_sched c (rks s)) (set_ref (with_rcount 0 (ref s)) s)).
      split_and!; try done. rewrite releases_all by done.
      by rewrite (bind_ok _ _ _ tt (set_rks (set_sched c (rks s)) (set_ref (with_rcount 0 (ref s)) s)));
        [|rewrite (bind_ok _ _ _ _ _ Hr)].
    + intros Hi H0. rewrite releases_all by done. unfold mbind, M_bind.
      rewrite signal_uninitialised; [done| |done]. by apply set_ref_wf.
Qed.

(** Rundown with references outstanding: ExRundownCompleted sets up the
    event only when the count is already zero, and ExReleaseRundownProtection
    signals it whether or not it is set up.  With one reference held, marking
    the rundown complete and releasing that reference works on an event that
    was never initialised, unless a waiter came first. *)
Theorem rundown_release_uninitialised s :
  run_wf s → Count (ref s) = 1 → EventInitialized (ref s) = false →
  ∃ s', ExRundownCompleted s = Ok (tt, s') ∧ EventInitialized (ref s') = false ∧
    ExReleaseRundownProtection s' = Undef.
Proof.
  intros Hwf Hn Hi. destruct (completed_run s Hwf) as (s' & Hr & Hwf' & Hc & Hn' & Hrest).
  rewrite Hn in Hrest. destruct Hrest as [Hi' _]. exists s'. split_and!; [done|congruence|].
  rewrite release_last by (done || congruence). unfold mbind, M_bind.
  rewrite signal_uninitialised; [done|by apply set_ref_wf|simpl; congruence].
Qed.
End Rundown.

(** The wait list of the demonstration event at 400: no waiter. *)
Definition demo_run (o : bool) (n : Z) : RUN_STATE :=
  mkRun (mkRef n o o) (if o then set_sched (upd_object 400 (mkObject EventObject 0 [] 0 0 0) (demo_sched [32] Ready))
                             (demo_ks [32] Ready)
                       else demo_ks [32] Ready).

Lemma demo_run_wf o n : 0 ≤ n < 4294967296 → run_wf 400 (demo_run o n).
Proof.
  intros Hn. pose proof demo_ks_wf as ([Hi Hc] & ? & ?). destruct o; constructor; simpl; try done.
  - split; [|done]. split; [|done]. by apply new_object_inv.
  - intros _. eexists. split; [apply lookup_insert_eq|done].
Qed.

(** With two references held after rundown an acquire of three fails; marking
    the rundown complete with two references held leaves the event alone. *)
Lemma rundown_protocol_witness :
  (∃ s', ExAcquireRundownProtectionEx 400 3 (demo_run true 2) = Ok (false, s') ∧ ref s' = mkRef 2 true true) ∧
  (∃ s', ExRundownCompleted 400 (demo_run false 2) = Ok (tt, s') ∧ Count (ref s') = 2 ∧
     rks s' = rks (demo_run false 2)).
Proof.
  destruct (rundown_protocol 400 (demo_run true 2) (demo_run_wf true 2 ltac:(lia))) as (_ & _ & _ & _ & H).
  destruct (rundown_protocol 400 (demo_run false 2) (demo_run_wf false 2 ltac:(lia)))
    as (_ & _ & _ & (s2 & Hr2 & _ & _ & Hc2 & _ & Hk2) & _).
  destruct (H eq_refl) as (He & _).
  destruct (He 3 (or_introl eq_refl)) as (s' & Hr & Hs & _); [lia|simpl; lia|].
  split; [exists s'|exists s2]; by split_and!.
Defined.

Lemma rundown_release_uninitialised_witness :
  ∃ s', ExRundownCompleted 400 (demo_run false 1) = Ok (tt, s') ∧ ExReleaseRundownProtection 400 s' = Undef.
Proof.
  destruct (rundown_release_uninitialised 400 (demo_run false 1) (demo_run_wf false 1 ltac:(lia)) eq_refl eq_refl)
    as (s' & H1 & _ & H2). exists s'. split; [exact H1|exact H2].
Defined.
