(* ===== verification/EResource.v ===== *)
(** * EResource: executive resources (src/ex/eresource.c)

    The reader-writer lock of the executive: its state word, its exclusive
    owner and the list of per-thread recursion counts, with its two semaphores
    as dispatcher objects.  [alloc] is what ExAllocatePool returns for an owner
    entry, 0 when the pool is exhausted. *)

From S2P Require Import Prelude Irql Rtl Dispatch.

#[local] Open Scope Z_scope.

Record OWNER := mkOwner { OThread : Z; SharedCount : Z }.

Record ERESOURCE := mkRes {
  RState : Z;
  ExclusiveOwner : Z;                 (* 0 is NULL *)
  Owners : list OWNER;
  RName : list Z
}.

Record ER_STATE := mkER { res : ERESOURCE; ResLock : Z; eks : KS }.

Definition set_res (r : ERESOURCE) (s : ER_STATE) : ER_STATE := mkER r (ResLock s) (eks s).
Definition set_ResLock (v : Z) (s : ER_STATE) : ER_STATE := mkER (res s) v (eks s).
Definition set_eks (k : KS) (s : ER_STATE) : ER_STATE := mkER (res s) (ResLock s) k.

#[global] Instance ER_HasPcr : HasPcr ER_STATE.
Proof.
  refine {| pcr := λ s, ks_pcr (eks s); set_pcr := λ k s, set_eks (set_ks_pcr k (eks s)) s |};
    [done..|by intros [? ? []]].
Defined.

Definition ResourceLock : SpinLock ER_STATE.
Proof. refine (mkSpinLock ResLock set_ResLock _ _ _ _ _ _); [done..|by intros []|done]. Defined.

Definition disp {A} (m : M KS A) : M ER_STATE A := zoom eks set_eks m.

Definition ERESOURCE_EXCLUSIVE_BIT := 31.
Definition EXCLUSIVE_STATE : Z := u32 (Z.shiftl 1 ERESOURCE_EXCLUSIVE_BIT).

Definition with_rstate (v : Z) (r : ERESOURCE) : ERESOURCE :=
  mkRes v (ExclusiveOwner r) (Owners r) (RName r).
Definition with_exclusive (v owner : Z) (r : ERESOURCE) : ERESOURCE := mkRes v owner (Owners r) (RName r).
Definition with_owners (l : list OWNER) (r : ERESOURCE) : ERESOURCE :=
  mkRes (RState r) (ExclusiveOwner r) l (RName r).

Definition PsGetCurrentThread (s : ER_STATE) : Z := CurrentThread (sched (eks s)).

(** An acquire that may wait: it returned, or the thread was switched away and
    the rest of the routine runs when it is switched to again. *)
Inductive ACQUIRE := Acquired (st : Z) | Blocked.

Section EResource.
Context (SharedWaiters ExclusiveWaiter : Z).

Definition ExInitializeResourceLite (Name : list Z) : M ER_STATE Z :=
  mmod (set_res (mkRes 0 0 [] (take 63 (take (RtlStringLength Name) Name))));;
  KeInitializeSpinLock ResourceLock;;
  disp (KeInitializeSemaphore SharedWaiters 0 0x7FFFFFFF);;
  disp (KeInitializeSemaphore ExclusiveWaiter 0 1);;
  mret STATUS_SUCCESS.

(** The owner entries go back to the pool; the structure is zeroed. *)
Definition ExDeleteResourceLite : M ER_STATE Z :=
  disp (KeReleaseSemaphore SharedWaiters 0x7FFFFFFF);;
  disp (KeReleaseSemaphore ExclusiveWaiter 1);;
  mmod (λ s, mkER (mkRes 0 0 [] []) 0
    (set_sched (mkSched (Threads (sched (eks s)))
                  (delete SharedWaiters (delete ExclusiveWaiter (Objects (sched (eks s)))))
                  (KiReadyListHead (sched (eks s))) (CurrentThread (sched (eks s)))
                  (Rsp (sched (eks s))) (TssRsp0 (sched (eks s)))) (eks s)));;
  mret STATUS_SUCCESS.

(** The index of the thread's entry, created in front when there is none. *)
Definition ErFindOrCreateOwner (alloc Thread : Z) : M ER_STATE (option nat) :=
  r ← mgets res;
  match first_idx (λ e, OThread e =? Thread) (Owners r) with
  | Some i => mret (Some i)
  | None =>
      if alloc =? 0 then mret None
      else mmod (set_res (with_owners (mkOwner Thread 0 :: Owners r) r));; mret (Some 0%nat)
  end.

(** [e->SharedCount += d]. *)
Definition add_shared (i : nat) (d : Z) : M ER_STATE unit :=
  e ← mderef (λ s, Owners (res s) !! i);
  mmod (λ s, set_res (with_owners (<[i := mkOwner (OThread e) (s32 (SharedCount e + d))]> (Owners (res s)))
                        (res s)) s).

(** [if (e) e->SharedCount++] after the find. *)
Definition note_shared (alloc thread : Z) : M ER_STATE unit :=
  e ← ErFindOrCreateOwner alloc thread;
  match e with Some i => add_shared i 1 | None => mret tt end.

(** The part of a shared acquire after its wait. *)
Definition acquire_shared_resume (alloc thread : Z) : M ER_STATE ACQUIRE :=
  irql ← KeAcquireSpinLock ResourceLock;
  mmod (λ s, set_res (with_rstate (u32 (RState (res s) + 1)) (res s)) s);;
  KeReleaseSpinLock ResourceLock irql;;
  note_shared alloc thread;;
  mret (Acquired STATUS_SUCCESS).

Definition ExAcquireResourceSharedLite (alloc : Z) (Wait : bool) : M ER_STATE ACQUIRE :=
  thread ← mgets PsGetCurrentThread;
  irql ← KeAcquireSpinLock ResourceLock;
  st ← mgets (λ s, RState (res s));
  w ← disp (KeReadStateSemaphore ExclusiveWaiter);
  if (Z.land st EXCLUSIVE_STATE =? 0) && (w =? 0) then
    mmod (λ s, set_res (with_rstate (u32 (RState (res s) + 1)) (res s)) s);;
    KeReleaseSpinLock ResourceLock irql;;
    note_shared alloc thread;;
    mret (Acquired STATUS_SUCCESS)
  else
    KeReleaseSpinLock ResourceLock irql;;
    if negb Wait then mret (Acquired STATUS_TIMEOUT)
    else
      r ← disp (KeWaitForSingleObject SharedWaiters None);
      match r with
      | Returned _ => acquire_shared_resume alloc thread
      | SwitchedAway => mret Blocked
      end.

(** The part of an exclusive acquire after its wait. *)
Definition acquire_exclusive_resume (thread : Z) : M ER_STATE ACQUIRE :=
  irql ← KeAcquireSpinLock ResourceLock;
  mmod (λ s, set_res (with_exclusive EXCLUSIVE_STATE thread (res s)) s);;
  KeReleaseSpinLock ResourceLock irql;;
  mret (Acquired STATUS_SUCCESS).

Definition ExAcquireResourceExclusiveLite (Wait : bool) : M ER_STATE ACQUIRE :=
  thread ← mgets PsGetCurrentThread;
  irql ← KeAcquireSpinLock ResourceLock;
  st ← mgets (λ s, RState (res s));
  if st =? 0 then
    mmod (λ s, set_res (with_exclusive EXCLUSIVE_STATE thread (res s)) s);;
    KeReleaseSpinLock ResourceLock irql;;
    mret (Acquired STATUS_SUCCESS)
  else
    KeReleaseSpinLock ResourceLock irql;;
    if negb Wait then mret (Acquired STATUS_TIMEOUT)
    else
      r ← disp (KeWaitForSingleObject ExclusiveWaiter None);
      match r with
      | Returned _ => acquire_exclusive_resume thread
      | SwitchedAway => mret Blocked
      end.

(** The exclusive half of the release: the wakes depend on the counts. *)
Definition release_exclusive : M ER_STATE unit :=
  mmod (λ s, set_res (with_exclusive 0 0 (res s)) s);;
  e ← disp (KeReadStateSemaphore ExclusiveWaiter);
  if 0 <? e then disp (KeReleaseSemaphore ExclusiveWaiter 1);; mret tt
  else
    w ← disp (KeReadStateSemaphore SharedWaiters);
    mwhen (0 <? w) (disp (KeReleaseSemaphore SharedWaiters 0x7FFFFFFF);; mret tt).

Definition ExReleaseResourceLite : M ER_STATE Z :=
  thread ← mgets PsGetCurrentThread;
  irql ← KeAcquireSpinLock ResourceLock;
  r ← mgets res;
  if ExclusiveOwner r =? thread then
    release_exclusive;;
    KeReleaseSpinLock ResourceLock irql;;
    mret STATUS_SUCCESS
  else
    match first_idx (λ e, OThread e =? thread) (Owners r) with
    | None => KeReleaseSpinLock ResourceLock irql;; mret STATUS_UNSUCCESSFUL
    | Some i =>
        e ← mderef (λ s, Owners (res s) !! i);
        if SharedCount e <=? 0 then KeReleaseSpinLock ResourceLock irql;; mret STATUS_UNSUCCESSFUL
        else
          add_shared i (-1);;
          mmod (λ s, set_res (with_rstate (u32 (RState (res s) - 1)) (res s)) s);;
          pending ← disp (KeReadStateSemaphore SharedWaiters);
          r ← mgets res;
          mwhen ((RState r =? 0) && (0 <? u32 pending)) (
            disp (KeReleaseSemaphore SharedWaiters (s32 pending));; mret tt);;
          KeReleaseSpinLock ResourceLock irql;;
          mret STATUS_SUCCESS
    end.

Definition ExGetResourceState (s : ER_STATE) : Z := RState (res s).

(** ** What the resource promises *)

(** The shared count of a thread, and the sum of all counts. *)
Definition readers (r : ERESOURCE) (t : Z) : Z :=
  match first_idx (λ e, OThread e =? t) (Owners r) with
  | Some i => match Owners r !! i with Some e => SharedCount e | None => 0 end
  | None => 0
  end.
Definition total (l : list OWNER) : Z := foldr (λ e n, SharedCount e + n) 0 l.

(** A shared acquire by [t] is recorded when [t] has an entry already or the
    pool has a block for one. *)
Definition recorded (alloc : Z) (r : ERESOURCE) (t : Z) : bool :=
  negb (alloc =? 0) || match first_idx (λ e, OThread e =? t) (Owners r) with Some _ => true | None => false end.

(** The invariant, with [k] shared acquires that no entry records. *)
Record res_inv (k : Z) (s : ER_STATE) : Prop := {
  ri_ks : ks_wf (eks s);
  ri_lock : ResLock s = 0;
  ri_addr : SharedWaiters ≠ 0 ∧ ExclusiveWaiter ≠ 0;
  ri_shared : ∃ x, Objects (sched (eks s)) !! SharedWaiters = Some x ∧ CurrentCount x = 0;
  ri_excl : ∃ x, Objects (sched (eks s)) !! ExclusiveWaiter = Some x ∧ CurrentCount x = 0;
  ri_nodup : NoDup (OThread <$> Owners (res s));
  ri_counts : Forall (λ e, 0 ≤ SharedCount e) (Owners (res s));
  ri_lost : 0 ≤ k;
  ri_state : (ExclusiveOwner (res s) = 0 ∧ RState (res s) = total (Owners (res s)) + k ∧
              total (Owners (res s)) + k < 2147483648) ∨
             (ExclusiveOwner (res s) ≠ 0 ∧ RState (res s) = EXCLUSIVE_STATE ∧
              total (Owners (res s)) = 0 ∧ k = 0)
}.

Lemma excl_bit_small st : 0 ≤ st < 2147483648 → Z.land st EXCLUSIVE_STATE = 0.
Proof.
  intros Hst. change EXCLUSIVE_STATE with (2 ^ 31). apply Z.bits_inj'. intros n Hn.
  rewrite Z.land_spec, Z.bits_0, Z.pow2_bits_eqb by lia. destruct (Z.eqb_spec 31 n) as [<-|]; [|apply andb_false_r].
  rewrite andb_true_r. destruct (decide (st = 0)) as [->|]; [done|].
  apply Z.bits_above_log2; [lia|]. apply Z.log2_lt_pow2; lia.
Qed.

Lemma total_insert l i e e' :
  l !! i = Some e → total (<[i := e']> l) = total l - SharedCount e + SharedCount e'.
Proof.
  revert i; induction l as [|x l IH]; intros [|i] Hi; simplify_eq/=; [lia|]. rewrite (IH i Hi). lia.
Qed.
Lemma total_elem l i e :
  Forall (λ e, 0 ≤ SharedCount e) l → l !! i = Some e → 0 ≤ SharedCount e ≤ total l.
Proof.
  intros Hf. revert i; induction Hf as [|x l Hx Hl IH]; intros [|i] Hi; simplify_eq/=.
  - assert (0 ≤ total l); [|lia]. clear IH. induction Hl; simpl; lia.
  - specialize (IH i Hi). lia.
Qed.
Lemma total_nonneg l : Forall (λ e, 0 ≤ SharedCount e) l → 0 ≤ total l.
Proof. induction 1; simpl; lia. Qed.

Lemma first_idx_insert (p : OWNER → bool) l i e e' :
  l !! i = Some e → p e' = p e → first_idx p (<[i := e']> l) = first_idx p l.
Proof.
  revert i; induction l as [|x l IH]; intros [|i] Hi Hp; simplify_eq/=; [by rewrite Hp|].
  by rewrite (IH i Hi Hp).
Qed.

(** Changing the count in the entry found for [t] changes [t]'s count alone. *)
Lemma readers_insert r v t i e c :
  NoDup (OThread <$> Owners r) → first_idx (λ e, OThread e =? t) (Owners r) = Some i → Owners r !! i = Some e →
  ∀ t', readers (with_rstate v (with_owners (<[i := mkOwner (OThread e) c]> (Owners r)) r)) t' =
        if t' =? t then c else readers r t'.
Proof.
  intros Hnd Hi He t'. unfold readers. cbn [Owners with_rstate with_owners].
  rewrite (first_idx_insert _ _ i e) by done.
  pose proof (proj1 (first_idx_Some _ _ _) Hi) as [(e0 & He0 & Ht) _]. simplify_eq.
  apply Z.eqb_eq in Ht. destruct (Z.eqb_spec t' t) as [->|Hne].
  - rewrite Hi, list_lookup_insert_eq by (by eapply lookup_lt_Some). done.
  - destruct (first_idx (λ e, OThread e =? t') (Owners r)) as [j|] eqn:Hj; [|done].
    apply first_idx_Some in Hj as [(y & Hy & Hty) _].
    rewrite list_lookup_insert_ne; [done|]. intros ->. simplify_eq. lia.
Qed.

(** [note_shared]: the thread's count goes up by one, or nothing changes when
    the acquire is not recorded. *)
Lemma note_shared_run alloc t s :
  NoDup (OThread <$> Owners (res s)) → Forall (λ e, 0 ≤ SharedCount e) (Owners (res s)) →
  total (Owners (res s)) < 2147483647 →
  ∃ l, note_shared alloc t s = Ok (tt, set_res (with_owners l (res s)) s) ∧
    NoDup (OThread <$> l) ∧ Forall (λ e, 0 ≤ SharedCount e) l ∧
    total l = total (Owners (res s)) + (if recorded alloc (res s) t then 1 else 0) ∧
    ∀ v t', readers (with_rstate v (with_owners l (res s))) t' =
            if (t' =? t) && recorded alloc (res s) t then readers (res s) t + 1 else readers (res s) t'.
Proof.
  intros Hnd Hf Ht. pose proof (total_nonneg _ Hf). unfold note_shared, ErFindOrCreateOwner, recorded.
  destruct (first_idx (λ e, OThread e =? t) (Owners (res s))) as [i|] eqn:Hi.
  - rewrite orb_true_r. pose proof (proj1 (first_idx_Some _ _ _) Hi) as [(e & He & Hte) _].
    pose proof (total_elem _ _ _ Hf He).
    exists (<[i := mkOwner (OThread e) (SharedCount e + 1)]> (Owners (res s))). split_and!.
    + unfold add_shared, mderef, mbind, M_bind. simpl. rewrite Hi. simpl. rewrite He. simpl.
      unfold s32. rewrite Z.mod_small by lia. by rewrite Z.add_simpl_r.
    + rewrite list_fmap_insert. simpl. rewrite list_insert_id; [done|]. by rewrite list_lookup_fmap, He.
    + apply Forall_insert; [done|]. simpl. lia.
    + rewrite (total_insert _ _ e) by done. simpl. lia.
    + intros v t'. rewrite (readers_insert _ _ t), andb_true_r by done. unfold readers. by rewrite Hi, He.
  - rewrite orb_false_r. destruct (Z.eqb_spec alloc 0) as [->|Ha].
    { exists (Owners (res s)). cbn [negb]. split_and!; [|done|done|lia|].
      - unfold mbind, M_bind. simpl. rewrite Hi. by destruct s as [[] ? ?].
      - intros v t'. by rewrite andb_false_r. }
    exists (mkOwner t 1 :: Owners (res s)). split_and!.
    + unfold add_shared, mderef, mbind, M_bind. simpl. rewrite Hi. by replace (alloc =? 0) with false by lia.
    + simpl. apply NoDup_cons. split; [|done]. intros (e & -> & He)%list_elem_of_fmap.
      apply list_elem_of_lookup in He as [j Hj]. pose proof (proj1 (first_idx_None _ _) Hi j e Hj). simpl in *. lia.
    + constructor; [simpl; lia|done].
    + simpl. lia.
    + intros v t'. unfold readers at 1. cbn [Owners with_rstate with_owners first_idx OThread].
      rewrite (Z.eqb_sym t t'), andb_true_r. destruct (Z.eqb_spec t' t) as [->|Hne].
      * unfold readers. by rewrite Hi.
      * unfold readers. by destruct (first_idx (λ e, OThread e =? t') (Owners (res s))).
Qed.

Lemma read_sem s a x :
  a ≠ 0 → Objects (sched (eks s)) !! a = Some x → disp (KeReadStateSemaphore a) s = Ok (CurrentCount x, s).
Proof.
  intros Ha Hx. unfold disp, zoom, KeReadStateSemaphore, get_object, mderef, mbind, M_bind.
  replace (a =? 0) with false by lia. rewrite Hx. by destruct s as [? ? []].
Qed.

Lemma framed_res f : framed ResourceLock (λ s, set_res (f (res s)) s).
Proof. by constructor. Qed.

Lemma current_pos k s : res_inv k s → PsGetCurrentThread s ≠ 0.
Proof.
  intros [((Hi & th & Ht & _) & _ & _) _ _ _ _ _ _ _ _]. pose proof (w_pos _ Hi _ _ Ht).
  unfold PsGetCurrentThread. lia.
Qed.

(** Replacing the resource's fields keeps the rest of the invariant. *)
Lemma res_inv_set k k' s r :
  res_inv k s → 0 ≤ k' → NoDup (OThread <$> Owners r) → Forall (λ e, 0 ≤ SharedCount e) (Owners r) →
  (ExclusiveOwner r = 0 ∧ RState r = total (Owners r) + k' ∧ total (Owners r) + k' < 2147483648) ∨
  (ExclusiveOwner r ≠ 0 ∧ RState r = EXCLUSIVE_STATE ∧ total (Owners r) = 0 ∧ k' = 0) →
  res_inv k' (set_res r s).
Proof. intros [H1 H2 H3 H4 H5 H6 H7 H8 H9] ? ? ? ?. by constructor. Qed.

(** The tries: an acquire that does not wait. *)
Lemma try_shared alloc k s :
  res_inv k s → total (Owners (res s)) + k < 2147483647 →
  let t := PsGetCurrentThread s in let rcd := recorded alloc (res s) t in
  if ExclusiveOwner (res s) =? 0 then
    ∃ s', ExAcquireResourceSharedLite alloc false s = Ok (Acquired STATUS_SUCCESS, s') ∧
      res_inv (if rcd then k else k + 1) s' ∧ eks s' = eks s ∧ ExclusiveOwner (res s') = 0 ∧
      RState (res s') = RState (res s) + 1 ∧
      ∀ t', readers (res s') t' = if (t' =? t) && rcd then readers (res s) t + 1 else readers (res s) t'
  else ExAcquireResourceSharedLite alloc false s = Ok (Acquired STATUS_TIMEOUT, s).
Proof.
  intros Hinv Ht t rcd. pose proof Hinv as [(Hwf & Hdl & Hc) Hl [_ Hae] _ (x & Hx & Hx0) Hnd Hf Hk Hst].
  pose proof (total_nonneg _ Hf) as H0.
  destruct Hst as [(Ho & Hst & _)|(Ho & Hst & _)];
    [rewrite Ho; cbn [Z.eqb]|replace (ExclusiveOwner (res s) =? 0) with false by lia];
    unfold ExAcquireResourceSharedLite; unfold mbind at 1, M_bind at 1; cbn [mgets]; rewrite acquire_bind by done;
    unfold mbind at 1, M_bind at 1; cbn [mgets]; change (res (locked ResourceLock s)) with (res s);
    (erewrite bind_ok; [|apply (read_sem _ _ x Hae); exact Hx]);
    rewrite Hx0, Hst; change (0 =? 0) with true; rewrite andb_true_r.
  - rewrite excl_bit_small by lia. cbn [Z.eqb].
    set (f := λ s : ER_STATE, set_res (with_rstate (u32 (RState (res s) + 1)) (res s)) s).
    erewrite (bind_ok (mmod f)); [|reflexivity].
    rewrite (release_bind ResourceLock f) by (done || apply (framed_res (λ r, with_rstate (u32 (RState r + 1)) r))).
    destruct (note_shared_run alloc t (f s) Hnd Hf) as (l & Hr & Hnd' & Hf' & Htot & Hrd); [simpl; lia|].
    change (recorded alloc (res (f s)) t) with rcd in Htot, Hrd.
    change (Owners (res (f s))) with (Owners (res s)) in Htot.
    erewrite bind_ok; [|exact Hr].
    eexists. split; [reflexivity|]. split_and!; [|done|done| |].
    + apply (res_inv_set k _ s); [done|destruct rcd; lia|done..|]. left. split; [exact Ho|].
      change (u32 (RState (res s) + 1) = total l + (if rcd then k else k + 1) ∧
              total l + (if rcd then k else k + 1) < 2147483648).
      rewrite Hst, u32_small by lia. destruct rcd; lia.
    + change (u32 (RState (res s) + 1) = total (Owners (res s)) + k + 1). rewrite Hst, u32_small; lia.
    + intros t'. rewrite <- (Hrd (RState (res (f s)))). done.
  - change (Z.land EXCLUSIVE_STATE EXCLUSIVE_STATE =? 0) with false.
    cbv match. by rewrite release_same by done.
Qed.

Lemma try_exclusive k s :
  res_inv k s →
  let t := PsGetCurrentThread s in
  if RState (res s) =? 0 then
    ∃ s', ExAcquireResourceExclusiveLite false s = Ok (Acquired STATUS_SUCCESS, s') ∧ res_inv k s' ∧
      eks s' = eks s ∧ ExclusiveOwner (res s') = t ∧ ∀ t', readers (res s') t' = readers (res s) t'
  else ExAcquireResourceExclusiveLite false s = Ok (Acquired STATUS_TIMEOUT, s).
Proof.
  intros Hinv t. pose proof (current_pos k s Hinv) as Htp.
  pose proof Hinv as [(Hwf & Hdl & Hc) Hl [_ Hae] _ (x & Hx & Hx0) Hnd Hf Hk Hst].
  pose proof (total_nonneg _ Hf).
  destruct (RState (res s) =? 0) eqn:H0;
    unfold ExAcquireResourceExclusiveLite; unfold mbind at 1, M_bind at 1; cbn [mgets]; rewrite acquire_bind by done;
    unfold mbind at 1, M_bind at 1; cbn [mgets]; change (res (locked ResourceLock s)) with (res s); rewrite H0.
  - erewrite bind_ok; [|reflexivity].
    rewrite (release_bind ResourceLock (λ s, set_res (with_exclusive EXCLUSIVE_STATE t (res s)) s))
      by (done || apply (framed_res (λ r, with_exclusive EXCLUSIVE_STATE t r))).
    eexists. split; [reflexivity|]. split_and!; try done.
    apply (res_inv_set k _ s); try done. right. split; [done|]. split; [done|]. simpl.
    destruct Hst as [(_ & Hst & _)|(_ & Hst & _)]; apply Z.eqb_eq in H0; rewrite H0 in Hst; [lia|discriminate Hst].
  - cbv match. by rewrite release_same by done.
Qed.

Lemma release_owner k s :
  res_inv k s → ExclusiveOwner (res s) = PsGetCurrentThread s →
  ExReleaseResourceLite s = Ok (STATUS_SUCCESS, set_res (with_exclusive 0 0 (res s)) s).
Proof.
  intros Hinv Ho.
  pose proof Hinv as [(Hwf & Hdl & Hc) Hl [Has Hae] (y & Hy & Hy0) (x & Hx & Hx0) Hnd Hf Hk Hst].
  unfold ExReleaseResourceLite. unfold mbind at 1, M_bind at 1. cbn [mgets]. rewrite acquire_bind by done.
  unfold mbind at 1, M_bind at 1. cbn [mgets]. change (res (locked ResourceLock s)) with (res s).
  rewrite Ho, Z.eqb_refl. erewrite bind_ok.
  2: { unfold release_exclusive. erewrite bind_ok; [|reflexivity].
       erewrite bind_ok; [|apply (read_sem _ _ x Hae); exact Hx]. rewrite Hx0. cbn [Z.ltb Z.compare].
       erewrite bind_ok; [|apply (read_sem _ _ y Has); exact Hy]. rewrite Hy0. reflexivity. }
  by rewrite (release_bind ResourceLock (λ s, set_res (with_exclusive 0 0 (res s)) s))
    by (done || apply (framed_res (λ r, with_exclusive 0 0 r))).
Qed.

Lemma release_reader k s i e :
  res_inv k s → ExclusiveOwner (res s) ≠ PsGetCurrentThread s →
  first_idx (λ e, OThread e =? PsGetCurrentThread s) (Owners (res s)) = Some i →
  Owners (res s) !! i = Some e → 0 < SharedCount e → SharedCount e < 2147483648 →
  ExReleaseResourceLite s = Ok (STATUS_SUCCESS,
    set_res (with_rstate (u32 (RState (res s) - 1))
      (with_owners (<[i := mkOwner (OThread e) (SharedCount e - 1)]> (Owners (res s))) (res s))) s).
Proof.
  intros Hinv Ho Hi He Hpos Hlt.
  pose proof Hinv as [(Hwf & Hdl & Hc) Hl [Has Hae] (y & Hy & Hy0) _ Hnd Hf Hk Hst].
  unfold ExReleaseResourceLite. unfold mbind at 1, M_bind at 1. cbn [mgets]. rewrite acquire_bind by done.
  unfold mbind at 1, M_bind at 1. cbn [mgets]. change (res (locked ResourceLock s)) with (res s).
  replace (ExclusiveOwner (res s) =? PsGetCurrentThread s) with false by lia. rewrite Hi.
  erewrite deref_bind by exact He. replace (SharedCount e <=? 0) with false by lia.
  set (r1 := with_owners (<[i := mkOwner (OThread e) (SharedCount e - 1)]> (Owners (res s))) (res s)).
  erewrite (bind_ok (add_shared i (-1)) _ _ tt (set_res r1 (locked ResourceLock s))).
  2: { unfold add_shared. erewrite deref_bind by exact He. unfold s32, r1.
       rewrite Z.mod_small by lia. replace (SharedCount e + -1 + 2147483648 - 2147483648) with (SharedCount e - 1) by lia.
       done. }
  erewrite bind_ok; [|reflexivity]. erewrite bind_ok; [|apply (read_sem _ _ y Has); exact Hy].
  unfold mbind at 1, M_bind at 1. cbn [mgets]. rewrite Hy0. change (0 <? u32 0) with false. rewrite andb_false_r.
  erewrite bind_ok; [|reflexivity].
  by rewrite (release_bind ResourceLock (λ s, set_res (with_rstate (u32 (RState (res s) - 1)) r1) s))
    by (done || apply (framed_res (λ r, with_rstate (u32 (RState r - 1)) r1))).
Qed.

Lemma release_stranger k s :
  res_inv k s → ExclusiveOwner (res s) ≠ PsGetCurrentThread s → readers (res s) (PsGetCurrentThread s) ≤ 0 →
  ExReleaseResourceLite s = Ok (STATUS_UNSUCCESSFUL, s).
Proof.
  intros Hinv Ho Hr. pose proof Hinv as [(Hwf & Hdl & Hc) Hl _ _ _ _ _ _ _].
  unfold ExReleaseResourceLite. unfold mbind at 1, M_bind at 1. cbn [mgets]. rewrite acquire_bind by done.
  unfold mbind at 1, M_bind at 1. cbn [mgets]. change (res (locked ResourceLock s)) with (res s).
  replace (ExclusiveOwner (res s) =? PsGetCurrentThread s) with false by lia. unfold readers in Hr.
  destruct (first_idx _ (Owners (res s))) as [i|] eqn:Hi; [|cbv match; by rewrite release_same by done].
  pose proof (proj1 (first_idx_Some _ _ _) Hi) as [(e & He & _) _]. rewrite He in Hr.
  erewrite deref_bind by exact He. replace (SharedCount e <=? 0) with true by lia. cbv match. by rewrite release_same by done.
Qed.

Lemma total_zero r :
  NoDup (OThread <$> Owners r) → Forall (λ e, 0 ≤ SharedCount e) (Owners r) →
  total (Owners r) = 0 ↔ ∀ t, readers r t = 0.
Proof.
  intros Hnd Hf. split.
  - intros H0 t. unfold readers. destruct (first_idx _ _) as [i|]; [|done].
    destruct (Owners r !! i) as [e|] eqn:He; [|done]. pose proof (total_elem _ _ _ Hf He). lia.
  - intros Hr. assert (Hz : ∀ i e, Owners r !! i = Some e → SharedCount e = 0).
    { intros i e He. specialize (Hr (OThread e)). unfold readers in Hr.
      destruct (first_idx (λ e0, OThread e0 =? OThread e) (Owners r)) as [j|] eqn:Hj.
      - apply first_idx_Some in Hj as [(y & Hy & Hty) _]. rewrite Hy in Hr.
        assert (j = i) as ->; [|by simplify_eq]. eapply (NoDup_lookup _ _ _ (OThread e) Hnd).
        + rewrite list_lookup_fmap, Hy. simpl. f_equal. lia.
        + by rewrite list_lookup_fmap, He.
      - pose proof (proj1 (first_idx_None _ _) Hj i e He). simpl in *. lia. }
    clear Hr Hnd Hf. induction (Owners r) as [|e l IH]; [done|]. simpl.
    rewrite (Hz 0%nat e eq_refl), IH; [done|]. intros i y Hy. apply (Hz (S i) y Hy).
Qed.

(** What a release leaves, in terms of the holders. *)
Definition release_spec (k : Z) (s : ER_STATE) (t : Z) (r : Res (Z * ER_STATE)) : Prop :=
  if ExclusiveOwner (res s) =? t then
    ∃ s', r = Ok (STATUS_SUCCESS, s') ∧ res_inv k s' ∧ eks s' = eks s ∧ RState (res s') = 0 ∧
      ExclusiveOwner (res s') = 0 ∧ ∀ t', readers (res s') t' = readers (res s) t'
  else if 0 <? readers (res s) t then
    ∃ s', r = Ok (STATUS_SUCCESS, s') ∧ res_inv k s' ∧ eks s' = eks s ∧
      ExclusiveOwner (res s') = ExclusiveOwner (res s) ∧
      ∀ t', readers (res s') t' = if t' =? t then readers (res s) t - 1 else readers (res s) t'
  else r = Ok (STATUS_UNSUCCESSFUL, s).

Lemma release_run k s : res_inv k s → release_spec k s (PsGetCurrentThread s) (ExReleaseResourceLite s).
Proof.
  intros Hinv. unfold release_spec. pose proof Hinv as [_ _ _ _ _ Hnd Hf Hk Hst]. pose proof (current_pos k s Hinv).
  destruct (Z.eqb_spec (ExclusiveOwner (res s)) (PsGetCurrentThread s)) as [Ho|Ho].
  { eexists. split; [by apply (release_owner k)|]. split_and!; try done. apply (res_inv_set k); try done.
    left. simpl. destruct Hst as [(? & _)|(_ & _ & Ht & ->)]; [congruence|]. rewrite Ht. done. }
  destruct (Z.ltb_spec 0 (readers (res s) (PsGetCurrentThread s))) as [Hr|Hr]; [|by apply (release_stranger k)].
  unfold readers in Hr. destruct (first_idx _ (Owners (res s))) as [i|] eqn:Hi; [|lia].
  pose proof (proj1 (first_idx_Some _ _ _) Hi) as [(e & He & _) _]. rewrite He in Hr.
  pose proof (total_elem _ _ _ Hf He) as Hte.
  destruct Hst as [(Hx & Hst & Htl)|(_ & _ & Ht)]; [|lia].
  eexists. split; [apply (release_reader k s i e); (done || lia)|]. split_and!; [|done|done|].
  - apply (res_inv_set k); [done|done| | |]; simpl.
    + rewrite list_fmap_insert. simpl. rewrite list_insert_id; [done|]. by rewrite list_lookup_fmap, He.
    + apply Forall_insert; [done|]. simpl. lia.
    + left. rewrite (total_insert _ _ e) by done. simpl. rewrite Hst, u32_small by lia. split_and!; [done|lia|lia].
  - intros t'. cbn [res set_res]. rewrite (readers_insert _ _ (PsGetCurrentThread s)) by done.
    unfold readers at 2. by rewrite Hi, He.
Qed.

(** [C6] An executive resource is a reader-writer lock for callers that do not
    wait, while fewer than 2^31 - 1 shared acquires are outstanding.  A shared
    try succeeds exactly when nobody owns the resource exclusively, raises the
    state word by one and adds one to the caller's own count; when the caller
    has no entry yet and the pool has no block for one ([alloc] is 0), it still
    succeeds but no count records it: [k], the number of such lost acquires,
    goes up, and the caller's release fails.  An exclusive try succeeds exactly
    when no count is held and no acquire was lost, and makes the caller the
    owner; a release undoes the caller's own recorded acquire, fails with
    STATUS_UNSUCCESSFUL and no effect for a thread that has no count, and never
    lowers [k], so after a lost acquire the resource can not be taken
    exclusively again.  Every failed try changes nothing.  The state word stays
    the sum of the shared counts plus [k], or the exclusive mark with every
    count and [k] at zero.  No release ever signals a waiter: both semaphores
    start at 0 and are released only when already positive, so the dispatcher's
    state never changes and a thread that waits is not woken. *)
Theorem eresource_refines_rwlock k s alloc :
  res_inv k s → total (Owners (res s)) + k < 2147483647 →
  let t := PsGetCurrentThread s in let rcd := recorded alloc (res s) t in
  (if ExclusiveOwner (res s) =? 0 then
     ∃ s', ExAcquireResourceSharedLite alloc false s = Ok (Acquired STATUS_SUCCESS, s') ∧
       res_inv (if rcd then k else k + 1) s' ∧ eks s' = eks s ∧ ExclusiveOwner (res s') = 0 ∧
       RState (res s') = RState (res s) + 1 ∧
       ∀ t', readers (res s') t' = if (t' =? t) && rcd then readers (res s) t + 1 else readers (res s) t'
   else ExAcquireResourceSharedLite alloc false s = Ok (Acquired STATUS_TIMEOUT, s)) ∧
  (if RState (res s) =? 0 then
     ∃ s', ExAcquireResourceExclusiveLite false s = Ok (Acquired STATUS_SUCCESS, s') ∧ res_inv k s' ∧
       eks s' = eks s ∧ ExclusiveOwner (res s') = t ∧ ∀ t', readers (res s') t' = readers (res s) t'
   else ExAcquireResourceExclusiveLite false s = Ok (Acquired STATUS_TIMEOUT, s)) ∧
  release_spec k s t (ExReleaseResourceLite s) ∧
  (RState (res s) = 0 ↔ ExclusiveOwner (res s) = 0 ∧ k = 0 ∧ ∀ t', readers (res s) t' = 0).
Proof.
  intros Hinv Ht t rcd. split_and!; [by apply try_shared|by apply try_exclusive|by apply release_run|].
  destruct Hinv as [_ _ _ _ _ Hnd Hf Hk Hst]. rewrite <- (total_zero (res s)) by done.
  pose proof (total_nonneg _ Hf).
  destruct Hst as [(-> & -> & _)|(? & -> & _)]; [|split; [done|]; by intros [? _]].
  split; [intros ?; split_and!; lia|intros (_ & -> & ->); lia].
Qed.
End EResource.

Definition demo_res : ER_STATE :=
  mkER (mkRes 1 0 [mkOwner 32 1] []) 0
    (set_sched (upd_object 500 (mkObject SemaphoreObject 0 [] 0x7FFFFFFF 0 0)
                  (upd_object 600 (mkObject SemaphoreObject 0 [] 1 0 0) (demo_sched [32] Ready)))
       (demo_ks [32] Ready)).

Lemma demo_res_inv : res_inv 500 600 0 demo_res.
Proof.
  pose proof demo_ks_wf as ([Hi Hc] & ? & ?). constructor; simpl; try done.
  - split; [|done]. split; [|done]. apply new_object_inv; [apply new_object_inv; done|done|done].
  - eexists. split; [apply lookup_insert_eq|done].
  - eexists. split; [rewrite lookup_insert_ne by done; apply lookup_insert_eq|done].
  - apply NoDup_singleton.
  - repeat constructor. simpl. lia.
  - left. done.
Qed.

(** Thread 32 reads; thread 16 may read too, may not write, and holds nothing
    to release.  With the pool exhausted thread 16's acquire is lost. *)
Lemma eresource_refines_rwlock_witness :
  ExAcquireResourceExclusiveLite 600 false demo_res = Ok (Acquired STATUS_TIMEOUT, demo_res) ∧
  ExReleaseResourceLite 500 600 demo_res = Ok (STATUS_UNSUCCESSFUL, demo_res) ∧
  (∃ s', ExAcquireResourceSharedLite 500 600 0x1000 false demo_res = Ok (Acquired STATUS_SUCCESS, s') ∧
     readers (res s') 16 = 1) ∧
  (∃ s', ExAcquireResourceSharedLite 500 600 0 false demo_res = Ok (Acquired STATUS_SUCCESS, s') ∧
     readers (res s') 16 = 0 ∧ RState (res s') = 2).
Proof.
  destruct (eresource_refines_rwlock 500 600 0 demo_res 0x1000 demo_res_inv)
    as ((s' & Hr & _ & _ & _ & _ & Hrd) & Hx & Hrel & _); [simpl; lia|].
  destruct (eresource_refines_rwlock 500 600 0 demo_res 0 demo_res_inv)
    as ((s2 & Hr2 & _ & _ & _ & Hs2 & Hrd2) & _); [simpl; lia|].
  split_and!; [exact Hx|exact Hrel| |].
  - exists s'. split; [exact Hr|]. apply (Hrd 16).
  - exists s2. split; [exact Hr2|]. split; [apply (Hrd2 16)|exact Hs2].
Defined.
