(* ===== verification/WorkItem.v ===== *)
(** * WorkItem: the executive worker queue (src/ex/workitem.c)

    The table of queued items, the semaphore the workers park on, and one
    drain of the queue by a worker.  The call of an item's routine is recorded
    in a trace; the routine's own effects are not modelled. *)

From S2P Require Import Prelude Irql Dispatch.

#[local] Open Scope Z_scope.

Record WORK_ITEM := mkItem {
  Routine : Z;                        (* 0 is NULL *)
  Context_ : Z;
  Flags : Z;
  DelayMs : Z;
  DueTime : Z;
  InUse : bool
}.

Record WI_STATE := mkWI {
  g_Queue : list WORK_ITEM;
  g_QueueLock : Z;
  g_Init : bool;
  calls : list (Z * Z);               (* the routines called so far, with their contexts *)
  wclock : Clock.CLOCK_STATE;
  wks : KS
}.

Definition set_g_Queue (q : list WORK_ITEM) (s : WI_STATE) : WI_STATE :=
  mkWI q (g_QueueLock s) (g_Init s) (calls s) (wclock s) (wks s).
Definition set_g_QueueLock (v : Z) (s : WI_STATE) : WI_STATE :=
  mkWI (g_Queue s) v (g_Init s) (calls s) (wclock s) (wks s).
Definition set_calls (l : list (Z * Z)) (s : WI_STATE) : WI_STATE :=
  mkWI (g_Queue s) (g_QueueLock s) (g_Init s) l (wclock s) (wks s).
Definition set_wks (k : KS) (s : WI_STATE) : WI_STATE :=
  mkWI (g_Queue s) (g_QueueLock s) (g_Init s) (calls s) (wclock s) k.

#[global] Instance WI_HasPcr : HasPcr WI_STATE.
Proof.
  refine {| pcr := λ s, ks_pcr (wks s); set_pcr := λ k s, set_wks (set_ks_pcr k (wks s)) s |};
    [done..|by intros [? ? ? ? ? []]].
Defined.

Definition QueueLock : SpinLock WI_STATE.
Proof. refine (mkSpinLock g_QueueLock set_g_QueueLock _ _ _ _ _ _); [done..|by intros []|done]. Defined.

Definition wdisp {A} (m : M KS A) : M WI_STATE A := zoom wks set_wks m.

Definition WORKITEM_QUEUE_MAX : nat := 256.
Definition WORKITEM_MAX_THREADS := 4.
Definition zero_item : WORK_ITEM := mkItem 0 0 0 0 0 false.

Inductive WORK_QUEUE_TYPE := CriticalWorkItem | DelayedWorkItem | HyperCriticalWorkItem.
#[global] Instance WORK_QUEUE_TYPE_eq : EqDecision WORK_QUEUE_TYPE.
Proof. solve_decision. Defined.

Definition KeQuerySystemTime (s : WI_STATE) : Z := Clock.KeQuerySystemTime (wclock s).

(** The lowest free slot, zeroed and marked. *)
Definition WorkItemAlloc : M WI_STATE (option nat) :=
  q ← mgets g_Queue;
  match first_idx (λ x, negb (InUse x)) q with
  | Some i => mmod (set_g_Queue (<[i := mkItem 0 0 0 0 0 true]> q));; mret (Some i)
  | None => mret None
  end.

Definition WorkItemFree (i : nat) : M WI_STATE unit :=
  x ← mderef (λ s, g_Queue s !! i);
  mmod (λ s, set_g_Queue (<[i := mkItem 0 0 (Flags x) (DelayMs x) (DueTime x) false]> (g_Queue s)) s).

(** Queued, and for a delayed item due. *)
Definition due (now : Z) (x : WORK_ITEM) : bool :=
  InUse x && negb (truthy (Z.land (Flags x) 1) && (now <? DueTime x)).

Definition WorkItemDequeue : M WI_STATE (option nat) :=
  irql ← KeAcquireSpinLock QueueLock;
  i ← mgets (λ s, first_idx (due (KeQuerySystemTime s)) (g_Queue s));
  KeReleaseSpinLock QueueLock irql;;
  mret i.

(** The inner loop of WorkItemRun. *)
Definition drain : M WI_STATE unit :=
  loop (λ _ : unit,
    item ← WorkItemDequeue;
    match item with
    | None => mret (inr tt)
    | Some i =>
        x ← mderef (λ s, g_Queue s !! i);
        mwhen (truthy (Routine x)) (mmod (λ s, set_calls (calls s ++ [(Routine x, Context_ x)]) s));;
        WorkItemFree i;;
        mret (inl tt)
    end) tt.

Section WorkItem.
Context (g_WorkAvailable : Z).

(** One turn of the outer loop of WorkItemRun: park on the semaphore, and when
    the wait has returned drain the queue. *)
Definition WorkItemRun : M WI_STATE WAIT :=
  r ← wdisp (KeWaitForSingleObject g_WorkAvailable None);
  match r with
  | Returned _ => drain;; mret r
  | SwitchedAway => mret r
  end.

Definition ExQueueWorkItem (Item : option WORK_ITEM) (QueueType : WORK_QUEUE_TYPE) : M WI_STATE Z :=
  match Item with
  | None => mret STATUS_INVALID_PARAMETER
  | Some it =>
    if Routine it =? 0 then mret STATUS_INVALID_PARAMETER
    else
      irql ← KeAcquireSpinLock QueueLock;
      slot ← WorkItemAlloc;
      match slot with
      | None => KeReleaseSpinLock QueueLock irql;; mret STATUS_NO_MEMORY
      | Some i =>
          mmod (λ s,
            let delayed := bool_decide (QueueType = DelayedWorkItem) in
            set_g_Queue (<[i := mkItem (Routine it) (Context_ it) (if delayed then 1 else 0) 0
               (if delayed then s64 (KeQuerySystemTime s + DelayMs it * 10000) else 0) true]> (g_Queue s)) s);;
          KeReleaseSpinLock QueueLock irql;;
          wdisp (KeReleaseSemaphore g_WorkAvailable 1);;
          mret STATUS_SUCCESS
      end
  end.
End WorkItem.

Definition ExInitializeWorkItem (Routine Context : Z) (Item : option WORK_ITEM) : Z * option WORK_ITEM :=
  match Item with
  | Some _ => if Routine =? 0 then (STATUS_INVALID_PARAMETER, Item)
              else (STATUS_SUCCESS, Some (mkItem Routine Context 0 0 0 false))
  | None => (STATUS_INVALID_PARAMETER, None)
  end.

Definition ExGetWorkerCount (s : WI_STATE) : Z := if g_Init s then WORKITEM_MAX_THREADS else 0.

Definition ExGetQueueDepth : M WI_STATE Z :=
  irql ← KeAcquireSpinLock QueueLock;
  depth ← mgets (λ s, countb InUse (g_Queue s));
  KeReleaseSpinLock QueueLock irql;;
  mret depth.

(** ** Properties *)

Record wi_wf (s : WI_STATE) : Prop := {
  wq_len : length (g_Queue s) = WORKITEM_QUEUE_MAX;
  wq_lock : g_QueueLock s = 0;
  wq_ks : ks_wf (wks s)
}.

Lemma framed_queue f : framed QueueLock (λ s, set_g_Queue (f (g_Queue s)) s).
Proof. by constructor. Qed.

Lemma dequeue_run s :
  wi_wf s → WorkItemDequeue s = Ok (first_idx (due (KeQuerySystemTime s)) (g_Queue s), s).
Proof.
  intros [_ Hl (_ & _ & Hc)]. unfold WorkItemDequeue. rewrite acquire_bind by done.
  unfold mbind at 1, M_bind at 1. cbn [mgets]. by rewrite release_same by done.
Qed.

(** The calls a drain makes: the due items from the lowest slot up. *)
Definition call_of (x : WORK_ITEM) : list (Z * Z) :=
  if truthy (Routine x) then [(Routine x, Context_ x)] else [].
Definition due_calls (now : Z) (q : list WORK_ITEM) : list (Z * Z) :=
  q ≫= (λ x, if due now x then call_of x else []).
Definition freed (now : Z) (x : WORK_ITEM) : WORK_ITEM :=
  if due now x then mkItem 0 0 (Flags x) (DelayMs x) (DueTime x) false else x.

Lemma due_freed now x : due now (mkItem 0 0 (Flags x) (DelayMs x) (DueTime x) false) = false.
Proof. done. Qed.

Lemma no_due now q : countb (due now) q = 0 → due_calls now q = [] ∧ freed now <$> q = q.
Proof.
  intros H0. rewrite countb_zero in H0. induction q as [|x q IH]; [done|].
  destruct IH as [IH1 IH2]; [intros i y Hy; apply (H0 (S i) y Hy)|].
  pose proof (H0 0%nat x eq_refl) as Hx. unfold due_calls in *. csimpl. rewrite Hx, IH1, IH2.
  unfold freed. by rewrite Hx.
Qed.

Lemma due_calls_app now q1 q2 : due_calls now (q1 ++ q2) = due_calls now q1 ++ due_calls now q2.
Proof. unfold due_calls. apply bind_app. Qed.

Definition drained (s : WI_STATE) : WI_STATE :=
  set_calls (calls s ++ due_calls (KeQuerySystemTime s) (g_Queue s))
    (set_g_Queue (freed (KeQuerySystemTime s) <$> g_Queue s) s).

Lemma drain_loops n : ∀ s, wi_wf s → countb (due (KeQuerySystemTime s)) (g_Queue s) = Z.of_nat n →
  loops_to (λ _ : unit,
    item ← WorkItemDequeue;
    match item with
    | None => mret (inr tt)
    | Some i =>
        x ← mderef (λ s, g_Queue s !! i);
        mwhen (truthy (Routine x)) (mmod (λ s, set_calls (calls s ++ [(Routine x, Context_ x)]) s));;
        WorkItemFree i;;
        mret (inl tt)
    end) (Z.of_nat n + 1) tt s tt (drained s).
Proof.
  induction n as [|n IH]; intros s Hwf Hn.
  - apply loops_done. rewrite (bind_ok _ _ _ _ _ (dequeue_run s Hwf)).
    destruct (first_idx _ _) as [i|] eqn:Hi.
    + apply first_idx_Some in Hi as [(x & Hx & Hd) _]. pose proof (countb_elem _ _ _ _ Hx Hd). lia.
    + unfold drained. destruct (no_due _ _ Hn) as [-> ->]. rewrite app_nil_r. by destruct s.
  - replace (Z.of_nat (S n) + 1) with (Z.of_nat n + 1 + 1) by lia.
    destruct (first_idx (due (KeQuerySystemTime s)) (g_Queue s)) as [i|] eqn:Hi.
    2: { pose proof (proj1 (first_idx_None _ _) Hi) as H0. apply countb_zero in H0. lia. }
    pose proof (proj1 (first_idx_Some _ _ _) Hi) as [(x & Hx & Hd) Hlow].
    set (now := KeQuerySystemTime s) in *.
    set (x' := mkItem 0 0 (Flags x) (DelayMs x) (DueTime x) false).
    set (s1 := set_g_Queue (<[i := x']> (g_Queue s)) (set_calls (calls s ++ call_of x) s)).
    assert (Hwf1 : wi_wf s1) by (destruct Hwf; constructor; simpl; rewrite ?length_insert; done).
    assert (Hb : drained s1 = drained s).
    { unfold drained. change (KeQuerySystemTime s1) with now. fold now. subst s1. cbn [calls g_Queue set_g_Queue set_calls].
      destruct (list_elem_of_split_length (g_Queue s) i x Hx) as (q1 & q2 & Hq & Hlen).
      assert (Hq1 : countb (due now) q1 = 0).
      { apply countb_zero. intros j y Hy. apply (Hlow j y); [rewrite Hlen; by eapply lookup_lt_Some|].
        rewrite Hq, lookup_app_l by (by eapply lookup_lt_Some). done. }
      rewrite Hq, Hlen, insert_app_r_alt, Nat.sub_diag by lia. simpl insert.
      rewrite !due_calls_app, !fmap_app. destruct (no_due _ _ Hq1) as [-> ->]. unfold due_calls. csimpl.
      unfold freed at 1 3. rewrite Hd. unfold x'. rewrite due_freed. simpl. unfold set_calls, set_g_Queue. simpl.
      by rewrite <- app_assoc. }
    rewrite <- Hb. eapply (loops_step _ _ _ _ tt s1).
    + rewrite (bind_ok _ _ _ _ _ (dequeue_run s Hwf)). fold now. rewrite Hi. erewrite deref_bind by exact Hx.
      rewrite (bind_ok _ _ _ tt (set_calls (calls s ++ call_of x) s)).
      2: { unfold mwhen, call_of. destruct (truthy (Routine x)); [done|]. rewrite app_nil_r. by destruct s. }
      unfold WorkItemFree. unfold mbind at 1, M_bind at 1. erewrite deref_bind by exact Hx. done.
    + apply IH; [done|]. change (KeQuerySystemTime s1) with now. subst s1. cbn [g_Queue set_g_Queue].
      rewrite (countb_insert _ _ _ x) by done. rewrite Hd. unfold x'. rewrite due_freed. lia.
Qed.

Lemma drain_run s : wi_wf s → drain s = Ok (tt, drained s).
Proof.
  intros Hwf. pose proof (countb_bounds (due (KeQuerySystemTime s)) (g_Queue s)) as Hb.
  rewrite (wq_len _ Hwf) in Hb. unfold drain.
  eapply (loop_ok _ _ _ _ _ _ (drain_loops (Z.to_nat (countb (due (KeQuerySystemTime s)) (g_Queue s))) s Hwf ltac:(lia))).
  unfold WORKITEM_QUEUE_MAX in Hb. lia.
Qed.

(** A worker that has been released drains the queue: the inner loop of
    WorkItemRun ends after at most 257 turns, has called the routine of every
    due item exactly once, in the order of the slots and not of submission,
    has freed those slots and touched no other; items not yet due stay queued. *)
Theorem worker_drains_queue s :
  wi_wf s →
  drain s = Ok (tt, drained s) ∧
  calls (drained s) = calls s ++ due_calls (KeQuerySystemTime s) (g_Queue s) ∧
  (∀ i x, g_Queue s !! i = Some x →
     g_Queue (drained s) !! i = Some (if due (KeQuerySystemTime s) x
                                      then mkItem 0 0 (Flags x) (DelayMs x) (DueTime x) false else x)) ∧
  countb (due (KeQuerySystemTime s)) (g_Queue (drained s)) = 0.
Proof.
  intros Hwf. split_and!; [by apply drain_run|done| |].
  - intros i x Hx. change (g_Queue (drained s)) with (freed (KeQuerySystemTime s) <$> g_Queue s).
    by rewrite list_lookup_fmap, Hx.
  - apply countb_zero. intros i x. change (g_Queue (drained s)) with (freed (KeQuerySystemTime s) <$> g_Queue s).
    rewrite list_lookup_fmap.
    intros (y & _ & ->)%fmap_Some. unfold freed. destruct (due _ y) eqn:E; [apply due_freed|exact E].
Qed.

(** Queueing an item in the lowest free slot [i]. *)
Definition queued (s : WI_STATE) (it : WORK_ITEM) (delayed : bool) (i : nat) : list WORK_ITEM :=
  <[i := mkItem (Routine it) (Context_ it) (if delayed then 1 else 0) 0
           (if delayed then s64 (KeQuerySystemTime s + DelayMs it * 10000) else 0) true]> (g_Queue s).

(** ExQueueWorkItem.  An item without a routine is refused; with every slot
    in use the answer is STATUS_NO_MEMORY; neither changes anything.  Otherwise
    the lowest free slot, and no other, takes the routine and its context (and
    for a delayed item the time it falls due), and exactly one unit is
    released on the workers' semaphore, waking the first parked worker. *)
Theorem ExQueueWorkItem_spec s sem y it ty :
  wi_wf s → Objects (sched (wks s)) !! sem = Some y →
  -2147483648 ≤ CurrentCount y + 1 < 2147483648 → 0 ≤ Limit y < 2147483648 →
  (Routine it = 0 → ExQueueWorkItem sem (Some it) ty s = Ok (STATUS_INVALID_PARAMETER, s)) ∧
  (Routine it ≠ 0 → countb (λ x, negb (InUse x)) (g_Queue s) = 0 →
     ExQueueWorkItem sem (Some it) ty s = Ok (STATUS_NO_MEMORY, s)) ∧
  (Routine it ≠ 0 → ∀ i, first_idx (λ x, negb (InUse x)) (g_Queue s) = Some i →
     ∃ k, ExQueueWorkItem sem (Some it) ty s =
            Ok (STATUS_SUCCESS, set_wks k (set_g_Queue (queued s it (bool_decide (ty = DelayedWorkItem)) i) s)) ∧
       ks_wf k ∧ KiReadyListHead (sched k) = KiReadyListHead (sched (wks s)) ++ take 1 (WaitListHead y)).
Proof.
  intros Hwf Hy Hc Hlim. pose proof Hwf as [Hlen Hl Hks]. pose proof Hks as (_ & _ & Hpcr). split_and!.
  - intros H0. unfold ExQueueWorkItem. by rewrite H0.
  - intros Hr H0. unfold ExQueueWorkItem. replace (Routine it =? 0) with false by lia.
    rewrite acquire_bind by done. unfold WorkItemAlloc. rewrite countb_zero, <- first_idx_None in H0.
    erewrite (bind_ok _ _ _ None (locked QueueLock s)).
    2: { unfold mbind at 1, M_bind at 1. cbn [mgets]. change (g_Queue (locked QueueLock s)) with (g_Queue s).
         by rewrite H0. }
    by rewrite release_same by done.
  - intros Hr i Hi. unfold ExQueueWorkItem. replace (Routine it =? 0) with false by lia.
    rewrite acquire_bind by done. unfold WorkItemAlloc.
    erewrite (bind_ok _ _ _ (Some i)).
    2: { unfold mbind at 1, M_bind at 1. cbn [mgets]. change (g_Queue (locked QueueLock s)) with (g_Queue s).
         rewrite Hi. reflexivity. }
    erewrite bind_ok; [|reflexivity]. cbn [g_Queue set_g_Queue]. rewrite list_insert_insert_eq.
    set (q := queued s it (bool_decide (ty = DelayedWorkItem)) i).
    rewrite (release_bind QueueLock (set_g_Queue q)) by (done || apply (framed_queue (λ _, q))).
    destruct (release_semaphore_run (wks s) sem 1 y Hks Hy Hc Hlim) as (k & Hrun & Hkwf & _ & Hrd).
    exists k. split; [|done]. erewrite bind_ok; [|by apply zoom_ok, Hrun]. done.
Qed.

(** An empty queue with one parked worker (thread 16 runs; the semaphore is at 700). *)
Definition demo_wi (q : list WORK_ITEM) : WI_STATE :=
  mkWI q 0 true [] (Clock.mkClock 7 0 None 0 0 [])
    (set_sched (upd_object 700 (mkObject SemaphoreObject 0 [] 0x7FFFFFFF 0 0) (demo_sched [32] Ready))
       (demo_ks [32] Ready)).

Lemma demo_wi_wf q : length q = 256%nat → wi_wf (demo_wi q).
Proof.
  intros Hq. pose proof demo_ks_wf as ([Hi Hc] & ? & ?). constructor; [done|done|].
  split; [|done]. split; [|done]. by apply new_object_inv.
Qed.

(** Slot 0 falls due later than now; slots 1 and 2 are due. *)
Definition demo_queue : list WORK_ITEM :=
  [mkItem 11 1 1 0 1000000 true; mkItem 12 2 0 0 0 true; mkItem 13 3 1 0 70000 true] ++ replicate 253 zero_item.

Lemma worker_drains_queue_witness :
  ∃ s', drain (demo_wi demo_queue) = Ok (tt, s') ∧ calls s' = [(12, 2); (13, 3)] ∧
    g_Queue s' !! 0%nat = Some (mkItem 11 1 1 0 1000000 true).
Proof.
  destruct (worker_drains_queue (demo_wi demo_queue) (demo_wi_wf demo_queue eq_refl)) as (Hr & Hc & Hq & _).
  exists (drained (demo_wi demo_queue)). split_and!; [exact Hr|rewrite Hc; vm_compute; reflexivity|].
  rewrite (Hq 0%nat (mkItem 11 1 1 0 1000000 true) eq_refl). vm_compute. reflexivity.
Defined.

Lemma ExQueueWorkItem_spec_witness :
  ∃ s', ExQueueWorkItem 700 (Some (mkItem 20 4 0 5 0 false)) DelayedWorkItem (demo_wi demo_queue) =
          Ok (STATUS_SUCCESS, s') ∧ g_Queue s' !! 3%nat = Some (mkItem 20 4 1 0 120000 true).
Proof.
  destruct (ExQueueWorkItem_spec (demo_wi demo_queue) 700 (mkObject SemaphoreObject 0 [] 0x7FFFFFFF 0 0)
    (mkItem 20 4 0 5 0 false) DelayedWorkItem (demo_wi_wf demo_queue eq_refl) (lookup_insert_eq _ _ _))
    as (_ & _ & H); [simpl; lia|simpl; lia|].
  destruct (H ltac:(simpl; lia) 3%nat eq_refl) as (k & Hr & _).
  eexists. split; [exact Hr|]. vm_compute. reflexivity.
Defined.
