(* ===== verification/Lookaside.v ===== *)
(** * Lookaside: lookaside lists (src/ex/lookaside.c)

    A bounded cache of pool blocks in front of any pool with the
    [PoolInterface] laws.  The chain of cached blocks, linked through their
    first words from ListHead.Next, is the list of their addresses. *)

From S2P Require Import Prelude Irql Rtl Pool.

#[local] Open Scope Z_scope.

Record NPAGED_LOOKASIDE_LIST := mkLookaside {
  LName : list Z;
  LTag : Z;
  Depth : Z;
  MaximumDepth : Z;
  AllocateHits : Z;
  AllocateMisses : Z;
  FreeHits : Z;
  FreeMisses : Z;
  Lock : Z;
  ListHead : list Z;
  LInUse : bool
}.

Definition LOOKASIDE_MAX_PER_LIST := 256.
Definition LOOKASIDE_MAX_LISTS : nat := 32.

Record LA_STATE (P : Type) := mkLA { la : NPAGED_LOOKASIDE_LIST; la_pool : P }.
Arguments mkLA {P} _ _.
Arguments la {P} _.
Arguments la_pool {P} _.

Definition set_la {P} (l : NPAGED_LOOKASIDE_LIST) (s : LA_STATE P) : LA_STATE P := mkLA l (la_pool s).
Definition set_la_pool {P} (p : P) (s : LA_STATE P) : LA_STATE P := mkLA (la s) p.

(** The list and the depth, and the counters that move with them. *)
Definition with_list (l : list Z) (d ah am fh fm : Z) (x : NPAGED_LOOKASIDE_LIST) : NPAGED_LOOKASIDE_LIST :=
  mkLookaside (LName x) (LTag x) d (MaximumDepth x) ah am fh fm (Lock x) l (LInUse x).
Definition with_lock (v : Z) (x : NPAGED_LOOKASIDE_LIST) : NPAGED_LOOKASIDE_LIST :=
  mkLookaside (LName x) (LTag x) (Depth x) (MaximumDepth x) (AllocateHits x) (AllocateMisses x)
    (FreeHits x) (FreeMisses x) v (ListHead x) (LInUse x).

#[global] Instance LA_HasPcr {P} `{HasPcr P} : HasPcr (LA_STATE P).
Proof.
  refine {| pcr := λ s, pcr (la_pool s); set_pcr := λ k s, set_la_pool (set_pcr k (la_pool s)) s |}.
  - intros k s. apply pcr_set.
  - intros k k' [l p]. unfold set_la_pool. simpl. by rewrite set_pcr_set.
  - intros [l p]. unfold set_la_pool. simpl. by rewrite set_pcr_pcr.
Defined.

Section Lookaside.
Context {P : Type} `{PoolInterface P}.
Implicit Types (s : LA_STATE P).

Definition LookasideLock : SpinLock (LA_STATE P).
Proof.
  refine (mkSpinLock (λ s, Lock (la s)) (λ v s, set_la (with_lock v (la s)) s) _ _ _ _ _ _); try done.
  by intros [[] ?].
Defined.

Definition la_do {A} (m : M P A) : M (LA_STATE P) A := zoom la_pool set_la_pool m.
Definition la_mod (f : NPAGED_LOOKASIDE_LIST → NPAGED_LOOKASIDE_LIST) : M (LA_STATE P) unit :=
  mmod (λ s, set_la (f (la s)) s).

Definition ExInitializeNPagedLookasideList (Tag : Z) : M (LA_STATE P) Z :=
  la_mod (λ _, mkLookaside [] Tag 0 LOOKASIDE_MAX_PER_LIST 0 0 0 0 0 [] false);;
  mret STATUS_SUCCESS.

(** The [while (entry)] of the drain. *)
Fixpoint free_entries (l : list Z) (tag : Z) : M (LA_STATE P) unit :=
  match l with
  | [] => mret tt
  | entry :: l' => la_do (pool_free entry tag);; free_entries l' tag
  end.

Definition ExDeleteNPagedLookasideList : M (LA_STATE P) Z :=
  irql ← KeAcquireSpinLock LookasideLock;
  entry ← mgets (λ s, ListHead (la s));
  la_mod (λ x, with_list [] 0 (AllocateHits x) (AllocateMisses x) (FreeHits x) (FreeMisses x) x);;
  KeReleaseSpinLock LookasideLock irql;;
  tag ← mgets (λ s, LTag (la s));
  free_entries entry tag;;
  mret STATUS_SUCCESS.

Definition take_entry (x : NPAGED_LOOKASIDE_LIST) : NPAGED_LOOKASIDE_LIST :=
  match ListHead x with
  | _ :: l => with_list l (u32 (Depth x - 1)) (u32 (AllocateHits x + 1)) (AllocateMisses x)
                (FreeHits x) (FreeMisses x) x
  | [] => with_list [] (Depth x) (AllocateHits x) (u32 (AllocateMisses x + 1)) (FreeHits x) (FreeMisses x) x
  end.

Definition ExAllocateFromNPagedLookasideList : M (LA_STATE P) Z :=
  irql ← KeAcquireSpinLock LookasideLock;
  entry ← mgets (λ s, head (ListHead (la s)));
  la_mod take_entry;;
  KeReleaseSpinLock LookasideLock irql;;
  match entry with
  | Some e => mret e
  | None =>
      tag ← mgets (λ s, LTag (la s));
      la_do (pool_alloc 0 64 tag)
  end.

Definition ExFreeToNPagedLookasideList (Entry : Z) : M (LA_STATE P) unit :=
  if Entry =? 0 then mret tt
  else
    irql ← KeAcquireSpinLock LookasideLock;
    x ← mgets la;
    if MaximumDepth x <=? Depth x then
      la_mod (λ x, with_list (ListHead x) (Depth x) (AllocateHits x) (AllocateMisses x)
                     (FreeHits x) (u32 (FreeMisses x + 1)) x);;
      KeReleaseSpinLock LookasideLock irql;;
      la_do (pool_free Entry (LTag x))
    else
      la_mod (λ x, with_list (Entry :: ListHead x) (u32 (Depth x + 1)) (AllocateHits x) (AllocateMisses x)
                     (u32 (FreeHits x + 1)) (FreeMisses x) x);;
      KeReleaseSpinLock LookasideLock irql.

Definition ExLookasideGetDepth s : Z := Depth (la s).
Definition ExLookasideGetAllocateHits s : Z := AllocateHits (la s).

(** ** Invariant: every cached block is a live block of the pool with the list's
    tag, each once, and the depth counts them *)
Record la_inv s (m : gmap Z Z) : Prop := {
  lv_pool : pool_rep (la_pool s) m;
  lv_pcr : can_lock (pcr (la_pool s));
  lv_lock : Lock (la s) = 0;
  lv_max : 0 ≤ MaximumDepth (la s) < 4294967296;
  lv_nodup : NoDup (ListHead (la s));
  lv_live a : a ∈ ListHead (la s) → m !! a = Some (LTag (la s));
  lv_depth : Depth (la s) = Z.of_nat (length (ListHead (la s)));
  lv_bound : Depth (la s) ≤ MaximumDepth (la s)
}.

Lemma framed_la f :
  (∀ v x, f (with_lock v x) = with_lock v (f x)) → framed LookasideLock (λ s, set_la (f (la s)) s).
Proof.
  intros Hf. constructor; simpl.
  - intros v k [x p]. unfold set_la, set_la_pool. simpl. by rewrite Hf.
  - intros [x p]. simpl. pose proof (Hf (Lock x) x) as Hx.
    replace (with_lock (Lock x) x) with x in Hx by (by destruct x). rewrite Hx. done.
  - done.
Qed.

Lemma la_section {A} f s (k : M (LA_STATE P) A) m :
  la_inv s m → (∀ v x, f (with_lock v x) = with_lock v (f x)) →
  (la_mod f;; KeReleaseSpinLock LookasideLock (Irql (pcr s));; k) (locked LookasideLock s) =
  k (set_la (f (la s)) s).
Proof.
  intros [_ Hc Hl _ _ _ _ _] Hf. erewrite bind_ok; [|reflexivity].
  by apply (release_bind LookasideLock (λ s, set_la (f (la s)) s)), framed_la.
Qed.

(** A block the clients of the list hold. *)
Definition owned s (m : gmap Z Z) (a : Z) : Prop := m !! a = Some (LTag (la s)) ∧ a ∉ ListHead (la s).

Lemma la_alloc_run s m :
  la_inv s m →
  ∃ a s' m', ExAllocateFromNPagedLookasideList s = Ok (a, s') ∧ la_inv s' m' ∧ LTag (la s') = LTag (la s) ∧
    ((a = 0 ∧ ListHead (la s) = [] ∧ m' = m ∧ ListHead (la s') = []) ∨
     (0 < a ∧ ListHead (la s) = a :: ListHead (la s') ∧ m' = m) ∨
     (0 < a ∧ ListHead (la s) = [] ∧ ListHead (la s') = [] ∧ m !! a = None ∧ m' = <[a := LTag (la s)]> m)).
Proof.
  intros Hinv. pose proof Hinv as [Hp Hc Hl Hmax Hnd Hlive Hd Hb].
  unfold ExAllocateFromNPagedLookasideList. rewrite acquire_bind by done.
  unfold mbind at 1, M_bind at 1. cbn [mgets]. change (ListHead (la (locked LookasideLock s))) with (ListHead (la s)).
  rewrite (la_section take_entry _ _ m Hinv) by (intros v []; unfold take_entry; simpl; by case_match).
  destruct (ListHead (la s)) as [|e l] eqn:Hlist; simpl head.
  - unfold mbind at 1, M_bind at 1. cbn [mgets].
    assert (Hsame : ListHead (take_entry (la s)) = [] ∧ LTag (take_entry (la s)) = LTag (la s) ∧
      Depth (take_entry (la s)) = 0 ∧ MaximumDepth (take_entry (la s)) = MaximumDepth (la s) ∧
      Lock (take_entry (la s)) = 0) by (unfold take_entry; rewrite Hlist; done).
    destruct Hsame as (E1 & E2 & E3 & E4 & E5).
    destruct (pool_alloc_law (la_pool s) m 0 64 (LTag (la s)) Hp Hc ltac:(lia)) as (a & p' & Hr & Hpc & Hcase).
    exists a, (set_la_pool p' (set_la (take_entry (la s)) s)).
    exists (if a =? 0 then m else <[a := LTag (la s)]> m). split_and!.
    + change (la_do (pool_alloc 0 64 (LTag (take_entry (la s)))) (set_la (take_entry (la s)) s) =
        Ok (a, set_la_pool p' (set_la (take_entry (la s)) s))).
      rewrite E2. by apply zoom_ok.
    + constructor; simpl; rewrite ?E1, ?E2, ?E3, ?E4, ?E5; try done; try lia.
      * destruct Hcase as [[-> ?]|(? & ? & ?)]; [done|]. by replace (a =? 0) with false by lia.
      * by rewrite Hpc.
      * intros x Hx. by apply not_elem_of_nil in Hx.
    + done.
    + destruct Hcase as [[-> ?]|(? & ? & ?)]; [left; done|]. right; right.
      replace (a =? 0) with false by lia. done.
  - exists e, (set_la (take_entry (la s)) s), m.
    assert (0 < e). { eapply pool_rep_pos; [exact Hp|]. apply Hlive. by left. }
    split_and!; [done| |unfold take_entry; by rewrite Hlist|right; left; unfold take_entry; simpl; by rewrite Hlist].
    apply NoDup_cons in Hnd as [Hne Hnd]. cbn [length] in Hd.
    constructor; simpl; unfold take_entry; rewrite ?Hlist; simpl; try done.
    + intros x Hx. apply Hlive. by right.
    + rewrite Hd, u32_small; lia.
    + rewrite u32_small; lia.
Qed.

Lemma la_free_run s m a :
  la_inv s m → owned s m a →
  ∃ s' m', ExFreeToNPagedLookasideList a s = Ok (tt, s') ∧ la_inv s' m' ∧ LTag (la s') = LTag (la s) ∧
    ((Depth (la s) < MaximumDepth (la s) ∧ ListHead (la s') = a :: ListHead (la s) ∧ m' = m) ∨
     (Depth (la s) = MaximumDepth (la s) ∧ ListHead (la s') = ListHead (la s) ∧ m' = delete a m)).
Proof.
  intros Hinv [Ha Hna]. pose proof Hinv as [Hp Hc Hl Hmax Hnd Hlive Hd Hb].
  pose proof (pool_rep_pos _ _ _ _ Hp Ha). unfold ExFreeToNPagedLookasideList.
  replace (a =? 0) with false by lia. rewrite acquire_bind by done.
  unfold mbind at 1, M_bind at 1. cbn [mgets].
  change (MaximumDepth (la (locked LookasideLock s))) with (MaximumDepth (la s)).
  change (Depth (la (locked LookasideLock s))) with (Depth (la s)).
  destruct (Z.leb_spec (MaximumDepth (la s)) (Depth (la s))) as [Hfull|Hroom].
  - rewrite (la_section _ _ _ m Hinv) by done.
    destruct (pool_free_law (la_pool s) m a _ (LTag (la s)) Hp Hc Ha ltac:(by right)) as (p' & Hr & Hpc & Hp').
    eexists _, (delete a m). split; [by apply zoom_ok, Hr|]. split_and!; [|done|right; split_and!; (done || lia)].
    constructor; simpl; try done; [by rewrite Hpc|]. intros x Hx.
    rewrite lookup_delete_ne by (by intros ->). by apply Hlive.
  - eexists _, m. split.
    { erewrite bind_ok; [|reflexivity].
      apply (release_framed LookasideLock (λ s, set_la (with_list (a :: ListHead (la s)) (u32 (Depth (la s) + 1))
        (AllocateHits (la s)) (AllocateMisses (la s)) (u32 (FreeHits (la s) + 1)) (FreeMisses (la s)) (la s)) s)); done. }
    split_and!; [|done|left; done].
    constructor; simpl; try done.
    + by constructor.
    + intros x [->|Hx]%elem_of_cons; [done|by apply Hlive].
    + rewrite u32_small; lia.
    + rewrite u32_small; lia.
Qed.

Lemma free_entries_run l tag : ∀ s m,
  pool_rep (la_pool s) m → can_lock (pcr (la_pool s)) → NoDup l → (∀ a, a ∈ l → m !! a = Some tag) →
  ∃ p' m', free_entries l tag s = Ok (tt, set_la_pool p' s) ∧ pool_rep p' m' ∧ pcr p' = pcr (la_pool s) ∧
    ∀ a, m' !! a = if bool_decide (a ∈ l) then None else m !! a.
Proof.
  induction l as [|e l IH]; intros s m Hp Hc Hnd Hl; cbn [free_entries].
  - exists (la_pool s), m. split_and!; [by destruct s|done|done|done].
  - apply NoDup_cons in Hnd as [Hne Hnd].
    destruct (pool_free_law (la_pool s) m e tag tag Hp Hc) as (p1 & Hr & Hpc & Hp1); [apply Hl; by left|by right|].
    destruct (IH (set_la_pool p1 s) (delete e m)) as (p' & m' & Hr' & Hp' & Hpc' & Hm'); simpl; try done.
    + by rewrite Hpc.
    + intros a Ha. rewrite lookup_delete_ne by (by intros ->). apply Hl. by right.
    + exists p', m'. split_and!; [|done|by rewrite Hpc'|].
      * erewrite bind_ok; [|by apply zoom_ok, Hr]. exact Hr'.
      * intros a. rewrite Hm'. destruct (decide (a = e)) as [->|Hae].
        -- rewrite (bool_decide_eq_true_2 (e ∈ e :: l)) by (by left). rewrite lookup_delete_eq. by case_match.
        -- rewrite lookup_delete_ne by done. erewrite (bool_decide_ext (a ∈ l)); [done|]. rewrite elem_of_cons. naive_solver.
Qed.

Lemma la_delete_run s m :
  la_inv s m →
  ∃ s' m', ExDeleteNPagedLookasideList s = Ok (STATUS_SUCCESS, s') ∧ la_inv s' m' ∧ LTag (la s') = LTag (la s) ∧
    ListHead (la s') = [] ∧ ∀ a, m' !! a = if bool_decide (a ∈ ListHead (la s)) then None else m !! a.
Proof.
  intros Hinv. pose proof Hinv as [Hp Hc Hl Hmax Hnd Hlive Hd Hb].
  unfold ExDeleteNPagedLookasideList. rewrite acquire_bind by done.
  unfold mbind at 1, M_bind at 1. cbn [mgets]. change (ListHead (la (locked LookasideLock s))) with (ListHead (la s)).
  rewrite (la_section _ _ _ m Hinv) by done. unfold mbind at 1, M_bind at 1. cbn [mgets].
  destruct (free_entries_run (ListHead (la s)) (LTag (la s))
    (set_la (with_list [] 0 (AllocateHits (la s)) (AllocateMisses (la s)) (FreeHits (la s)) (FreeMisses (la s)) (la s)) s) m)
    as (p' & m' & Hr & Hp' & Hpc & Hm'); [done..|].
  eexists _, m'. split; [erewrite bind_ok; [|exact Hr]; reflexivity|]. split_and!; [|done|done|done].
  constructor; simpl; try done; try lia; [by rewrite Hpc|constructor|]. intros a Ha. by apply not_elem_of_nil in Ha.
Qed.

(** [C10] A lookaside list never hands a block to two clients and never loses
    one.  An allocation returns a block no client held, from the front of the
    cache or else from the pool, or 0 when the cache is empty and the pool
    exhausted; freeing a held block makes exactly that block free again, kept
    while the cache holds fewer than MaximumDepth blocks and given to the pool
    otherwise; deleting the list gives every cached block back to the pool and
    leaves the blocks clients hold.  The depth stays the length of the cache,
    within its maximum. *)
Theorem lookaside_ownership s m :
  la_inv s m →
  (∃ a s' m', ExAllocateFromNPagedLookasideList s = Ok (a, s') ∧ la_inv s' m' ∧
     (a = 0 → ListHead (la s) = [] ∧ m' = m) ∧
     (a ≠ 0 → ¬ owned s m a) ∧ ∀ b, owned s' m' b ↔ owned s m b ∨ (b = a ∧ a ≠ 0)) ∧
  (∀ a, owned s m a → ∃ s' m', ExFreeToNPagedLookasideList a s = Ok (tt, s') ∧ la_inv s' m' ∧
     ∀ b, owned s' m' b ↔ owned s m b ∧ b ≠ a) ∧
  (∃ s' m', ExDeleteNPagedLookasideList s = Ok (STATUS_SUCCESS, s') ∧ la_inv s' m' ∧ ExLookasideGetDepth s' = 0 ∧
     (∀ b, owned s' m' b ↔ owned s m b) ∧ ∀ b, b ∈ ListHead (la s) → m' !! b = None).
Proof.
  intros Hinv. pose proof Hinv as [Hp Hc Hl Hmax Hnd Hlive Hd Hb]. split_and!.
  - destruct (la_alloc_run s m Hinv) as (a & s' & m' & Hr & Hinv' & Ht & Hcase).
    exists a, s', m'. split; [done|]. split; [done|]. unfold owned. rewrite Ht.
    destruct Hcase as [(-> & E1 & -> & E2)|[(Ha & E1 & ->)|(Ha & E1 & E2 & Hn & ->)]].
    + rewrite E1, E2. split_and!; [done|done|]. naive_solver.
    + rewrite E1 in *. apply NoDup_cons in Hnd as [Hna _].
      split_and!; [lia|intros _ [_ H1]; apply H1; by left|].
      intros b. rewrite elem_of_cons. destruct (decide (b = a)) as [->|]; [|naive_solver].
      split; [intros _; right; split; [done|lia]|intros _; split; [apply Hlive; by left|done]].
    + rewrite E1, E2. split_and!; [lia|intros _ [H1 _]; congruence|].
      intros b. destruct (decide (b = a)) as [->|]; [rewrite lookup_insert_eq|rewrite lookup_insert_ne by done].
      * split; [intros _; right; split; [done|lia]|intros _; split; [done|apply not_elem_of_nil]].
      * naive_solver.
  - intros a Ha. destruct (la_free_run s m a Hinv Ha) as (s' & m' & Hr & Hinv' & Ht & Hcase).
    exists s', m'. split; [done|]. split; [done|]. unfold owned in *. rewrite Ht. intros b.
    destruct Hcase as [(_ & -> & ->)|(_ & -> & ->)].
    + rewrite elem_of_cons. naive_solver.
    + destruct (decide (b = a)) as [->|]; [rewrite lookup_delete_eq|rewrite lookup_delete_ne by done]; naive_solver.
  - destruct (la_delete_run s m Hinv) as (s' & m' & Hr & Hinv' & Ht & E & Hm).
    exists s', m'. split_and!; [done|done|unfold ExLookasideGetDepth; by rewrite (lv_depth _ _ Hinv'), E| |].
    + intros b. unfold owned. rewrite Ht, E, Hm. case_bool_decide; [naive_solver|]. split; [naive_solver|].
      intros [? ?]. split; [done|apply not_elem_of_nil].
    + intros b Hin. rewrite Hm. by rewrite bool_decide_eq_true_2.
Qed.
End Lookaside.

(** One cached block, the block of the demonstration pool. *)
Definition demo_la : LA_STATE POOL_STATE :=
  mkLA (mkLookaside [] 7 1 256 0 0 0 0 0 [0x100018] true) demo_pool_used.

Lemma demo_la_inv : la_inv demo_la {[ 0x100018 := 7 ]}.
Proof.
  constructor; simpl; try done.
  - split; [done|]. exists [], [(0x100000, 4072)]. split; [exact demo_pool_used_inv|].
    intros a t. rewrite lookup_singleton_Some. split.
    + intros [<- <-]. exists 4072. split; [by left|done].
    + intros (sz & [[= H1 H2]|H1]%elem_of_cons & Ht); [|by apply not_elem_of_nil in H1].
      assert (a = 0x100018) as -> by lia. by split.
  - apply NoDup_singleton.
  - intros a ->%list_elem_of_singleton. by rewrite lookup_singleton_eq.
Qed.

Lemma lookaside_ownership_witness :
  ∃ s' m', ExAllocateFromNPagedLookasideList demo_la = Ok (0x100018, s') ∧ owned s' m' 0x100018.
Proof.
  destruct (lookaside_ownership demo_la {[ 0x100018 := 7 ]} demo_la_inv) as ((a & s' & m' & Hr & _ & _ & _ & Ho) & _).
  assert (Hb : match ExAllocateFromNPagedLookasideList demo_la with Ok (a, _) => a = 0x100018 | _ => False end)
    by (vm_compute; reflexivity).
  rewrite Hr in Hb. subst a. exists s', m'. split; [exact Hr|]. apply Ho. right. split; [reflexivity|lia].
Defined.
