(* ===== verification/Timer.v ===== *)
(** * Timer: timers, their DPCs and the scan thread (src/ke/timer.c)

    Timers live at addresses; the active list and the scan thread's private
    list of expired timers hold addresses.  A timer's list entry is empty when
    it is on neither.  The call of a deferred routine is recorded in a trace;
    the tick counter does not move during a pass. *)

From S2P Require Import Prelude Irql.

#[local] Open Scope Z_scope.

Record KDPC := mkDpc {
  DeferredRoutine : Z;
  DeferredContext : Z;
  SystemArgument1 : Z;
  SystemArgument2 : Z
}.

Record KTIMER := mkTimer {
  DueTime : Z;
  Period : Z;
  Dpc : Z;                            (* 0 is NULL *)
  DpcContext : Z;
  InUse : bool;
  Cancelled : bool
}.

Record TM_STATE := mkTM {
  tm_pcr : KPCR;
  g_TimerListLock : Z;
  KTimers : gmap Z KTIMER;
  Dpcs : gmap Z KDPC;
  g_TimerListHead : list Z;
  firedList : list Z;
  KeTickCount : Z;
  dpc_calls : list (Z * Z * Z * Z * Z)  (* routine, DPC, context and the two arguments *)
}.

Definition set_tm_pcr (k : KPCR) (s : TM_STATE) : TM_STATE :=
  mkTM k (g_TimerListLock s) (KTimers s) (Dpcs s) (g_TimerListHead s) (firedList s) (KeTickCount s) (dpc_calls s).
Definition set_g_TimerListLock (v : Z) (s : TM_STATE) : TM_STATE :=
  mkTM (tm_pcr s) v (KTimers s) (Dpcs s) (g_TimerListHead s) (firedList s) (KeTickCount s) (dpc_calls s).
(** The timers and both lists. *)
Definition set_timers (m : gmap Z KTIMER) (act fired : list Z) (s : TM_STATE) : TM_STATE :=
  mkTM (tm_pcr s) (g_TimerListLock s) m (Dpcs s) act fired (KeTickCount s) (dpc_calls s).
Definition set_Dpcs (m : gmap Z KDPC) (s : TM_STATE) : TM_STATE :=
  mkTM (tm_pcr s) (g_TimerListLock s) (KTimers s) m (g_TimerListHead s) (firedList s) (KeTickCount s) (dpc_calls s).
Definition set_dpc_calls (l : list (Z * Z * Z * Z * Z)) (s : TM_STATE) : TM_STATE :=
  mkTM (tm_pcr s) (g_TimerListLock s) (KTimers s) (Dpcs s) (g_TimerListHead s) (firedList s) (KeTickCount s) l.

#[global] Instance TM_HasPcr : HasPcr TM_STATE.
Proof. refine {| pcr := tm_pcr; set_pcr := set_tm_pcr |}; [done..|by intros []]. Defined.

Definition TimerListLock : SpinLock TM_STATE.
Proof.
  refine (mkSpinLock g_TimerListLock set_g_TimerListLock _ _ _ _ _ _); [done..|by intros []|done].
Defined.

(** [!IsListEmpty(&Timer->TimerListEntry)]: the timer is on a list. *)
Definition on_list (s : TM_STATE) (t : Z) : bool :=
  bool_decide (t ∈ g_TimerListHead s) || bool_decide (t ∈ firedList s).

(** RemoveEntryList and InitializeListHead of the timer's entry. *)
Definition unlink (t : Z) (s : TM_STATE) : TM_STATE :=
  set_timers (KTimers s) (filter (λ x, x ≠ t) (g_TimerListHead s)) (filter (λ x, x ≠ t) (firedList s)) s.

Definition get_timer (t : Z) : M TM_STATE KTIMER := mderef (λ s, KTimers s !! t).
Definition put_timer (t : Z) (x : KTIMER) : M TM_STATE unit :=
  mmod (λ s, set_timers (<[t := x]> (KTimers s)) (g_TimerListHead s) (firedList s) s).

(** Zeroing a timer that is on a list would leave the list dangling. *)
Definition KeInitializeTimer (Timer : Z) : M TM_STATE unit :=
  if Timer =? 0 then mret tt
  else
    linked ← mgets (λ s, on_list s Timer);
    if linked : bool then mundef else put_timer Timer (mkTimer 0 0 0 0 false false).
Definition KeInitializeTimerEx (Timer Type_ : Z) : M TM_STATE unit := KeInitializeTimer Timer.
Definition KeInitializeDpc (D Routine Context : Z) : M TM_STATE unit :=
  if D =? 0 then mret tt else mmod (λ s, set_Dpcs (<[D := mkDpc Routine Context 0 0]> (Dpcs s)) s).

Definition FreeTimerSlot (Timer : Z) : M TM_STATE unit :=
  x ← get_timer Timer;
  put_timer Timer (mkTimer (DueTime x) (Period x) (Dpc x) (DpcContext x) false false).

(** 100ns units, negative relative, into a tick count; [/] truncates. *)
Definition DueTimeToTicks (tick due : Z) : Z :=
  if due <? 0 then
    let relTicks := Z.quot (s64 (- due)) 10000 in
    let relTicks := if relTicks <=? 0 then 1 else relTicks in
    u64 (tick + relTicks)
  else u64 (Z.quot due 10000).

Definition KeSetTimerEx (Timer Due Per D : Z) : M TM_STATE bool :=
  if Timer =? 0 then mret false
  else
    wasInserted ← mgets (λ s, on_list s Timer);
    irql ← KeAcquireSpinLock TimerListLock;
    mwhen wasInserted (mmod (unlink Timer));;
    x ← get_timer Timer;
    tick ← mgets KeTickCount;
    ctx ← (if D =? 0 then mret 0 else d ← mderef (λ s, Dpcs s !! D); mret (DeferredContext d));
    put_timer Timer (mkTimer (DueTimeToTicks tick Due) (u64 Per) D ctx (InUse x) false);;
    mmod (λ s, set_timers (KTimers s) (g_TimerListHead s ++ [Timer]) (firedList s) s);;
    KeReleaseSpinLock TimerListLock irql;;
    mret wasInserted.

Definition KeSetTimer (Timer Due D : Z) : M TM_STATE bool := KeSetTimerEx Timer Due 0 D.

Definition KeCancelTimer (Timer : Z) : M TM_STATE bool :=
  if Timer =? 0 then mret false
  else
    irql ← KeAcquireSpinLock TimerListLock;
    wasInserted ← mgets (λ s, on_list s Timer);
    mwhen wasInserted (mmod (unlink Timer));;
    x ← get_timer Timer;
    put_timer Timer (mkTimer (DueTime x) (Period x) (Dpc x) (DpcContext x) (InUse x) true);;
    KeReleaseSpinLock TimerListLock irql;;
    mret wasInserted.

(** ** The scan thread *)

Definition expired (tick : Z) (x : KTIMER) : bool := (DueTime x <=? tick) && negb (Cancelled x).

(** The walk of the active list; the next entry is read before the current one
    is moved, so the entries visited are those of the list at the start.
    Returns whether one was moved. *)
Fixpoint collect (l : list Z) : M TM_STATE bool :=
  match l with
  | [] => mret false
  | t :: l' =>
      x ← get_timer t;
      tick ← mgets KeTickCount;
      if expired tick x then
        mmod (unlink t);;
        mmod (λ s, set_timers (KTimers s) (g_TimerListHead s) (firedList s ++ [t]) s);;
        collect l';;
        mret true
      else collect l'
  end.

(** One turn of the firing loop, for the timer removed from the list's head. *)
Definition fire (t : Z) : M TM_STATE unit :=
  x ← get_timer t;
  d ← (if Dpc x =? 0 then mret None else d ← mderef (λ s, Dpcs s !! Dpc x); mret (Some d));
  match d with
  | Some d =>
      mwhen (truthy (DeferredRoutine d) && negb (Cancelled x))
        (mmod (λ s, set_dpc_calls (dpc_calls s ++
           [(DeferredRoutine d, Dpc x, DpcContext x, SystemArgument1 d, SystemArgument2 d)]) s))
  | None => mret tt
  end;;
  if (0 <? Period x) && negb (Cancelled x) then
    KeSetTimerEx t (s64 (- s64 (Period x) * 10000)) (s32 (Period x)) (Dpc x);; mret tt
  else FreeTimerSlot t.

Definition fire_all : M TM_STATE unit :=
  loop (λ _ : unit,
    l ← mgets firedList;
    match l with
    | [] => mret (inr tt)
    | t :: l' =>
        mmod (λ s, set_timers (KTimers s) (g_TimerListHead s) l' s);;
        fire t;;
        mret (inl tt)
    end) tt.

(** One pass of TimerScanThread, up to its decision to scan again or sleep. *)
Definition scan_pass : M TM_STATE bool :=
  mmod (λ s, set_timers (KTimers s) (g_TimerListHead s) [] s);;
  irql ← KeAcquireSpinLock TimerListLock;
  l ← mgets g_TimerListHead;
  fired ← collect l;
  KeReleaseSpinLock TimerListLock irql;;
  fire_all;;
  mret fired.

(** ** Invariant *)

Definition timer_ok (s : TM_STATE) (x : KTIMER) : Prop :=
  0 ≤ Period x < 2147483648 ∧ (Dpc x = 0 ∨ is_Some (Dpcs s !! Dpc x)).

Record tm_inv (s : TM_STATE) : Prop := {
  ti_pcr : can_lock (tm_pcr s);
  ti_lock : g_TimerListLock s = 0;
  ti_nodup : NoDup (g_TimerListHead s);
  ti_active t : t ∈ g_TimerListHead s → 0 < t < 18446744073709551615 ∧
                  ∃ x, KTimers s !! t = Some x ∧ timer_ok s x ∧ Cancelled x = false;
  ti_fired : firedList s = []
}.

Lemma framed_timers f : framed TimerListLock (λ s, set_timers (f (KTimers s)) (g_TimerListHead s) (firedList s) s).
Proof. by constructor. Qed.

(** Setting a timer that is on no list, or on the active list. *)
Definition ctx_of (s : TM_STATE) (D : Z) : Z :=
  if D =? 0 then 0 else match Dpcs s !! D with Some d => DeferredContext d | None => 0 end.
Definition armed (s : TM_STATE) (t due per D : Z) (x : KTIMER) : KTIMER :=
  mkTimer (DueTimeToTicks (KeTickCount s) due) (u64 per) D (ctx_of s D) (InUse x) false.

Lemma set_timer_run s t due per D x :
  can_lock (tm_pcr s) → g_TimerListLock s = 0 → t ≠ 0 → KTimers s !! t = Some x →
  (D = 0 ∨ is_Some (Dpcs s !! D)) →
  KeSetTimerEx t due per D s = Ok (on_list s t,
    set_timers (<[t := armed s t due per D x]> (KTimers s))
      (filter (λ a, a ≠ t) (g_TimerListHead s) ++ [t]) (filter (λ a, a ≠ t) (firedList s)) s).
Proof.
  intros Hc Hl Ht Hx HD. unfold KeSetTimerEx. replace (t =? 0) with false by lia.
  unfold mbind at 1, M_bind at 1. cbn [mgets]. rewrite acquire_bind by done.
  set (u := unlink t (locked TimerListLock s)).
  erewrite (bind_ok _ _ _ tt u).
  2: { unfold mwhen. destruct (on_list s t) eqn:E; [done|]. apply orb_false_iff in E as [E1 E2].
       apply bool_decide_eq_false_1 in E1, E2. unfold u, unlink.
       rewrite (filter_ne_id (g_TimerListHead _)), (filter_ne_id (firedList _)) by done. by destruct s. }
  unfold get_timer. erewrite deref_bind by exact Hx. unfold mbind at 1, M_bind at 1. cbn [mgets].
  erewrite (bind_ok _ _ _ (ctx_of s D) u).
  2: { unfold ctx_of. case_match; [done|]. destruct HD as [->|[d Hd]]; [done|].
       change (Dpcs s !! D = Some d) in Hd. rewrite Hd. by erewrite deref_bind by exact Hd. }
  erewrite bind_ok; [|reflexivity]. erewrite bind_ok; [|reflexivity].
  etrans; [apply (release_bind TimerListLock (λ s0, set_timers (<[t := armed s t due per D x]> (KTimers s0))
    (filter (λ a, a ≠ t) (g_TimerListHead s0) ++ [t]) (filter (λ a, a ≠ t) (firedList s0)) s0) s); done|done].
Qed.

Lemma cancel_timer_run s t x :
  can_lock (tm_pcr s) → g_TimerListLock s = 0 → t ≠ 0 → KTimers s !! t = Some x →
  KeCancelTimer t s = Ok (on_list s t,
    set_timers (<[t := mkTimer (DueTime x) (Period x) (Dpc x) (DpcContext x) (InUse x) true]> (KTimers s))
      (filter (λ a, a ≠ t) (g_TimerListHead s)) (filter (λ a, a ≠ t) (firedList s)) s).
Proof.
  intros Hc Hl Ht Hx. unfold KeCancelTimer. replace (t =? 0) with false by lia. rewrite acquire_bind by done.
  unfold mbind at 1, M_bind at 1. cbn [mgets].
  set (u := unlink t (locked TimerListLock s)).
  change (on_list (locked TimerListLock s) t) with (on_list s t).
  erewrite (bind_ok _ _ _ tt u).
  2: { unfold mwhen. destruct (on_list s t) eqn:E; [done|]. apply orb_false_iff in E as [E1 E2].
       apply bool_decide_eq_false_1 in E1, E2. unfold u, unlink.
       rewrite (filter_ne_id (g_TimerListHead _)), (filter_ne_id (firedList _)) by done. by destruct s. }
  unfold get_timer. erewrite deref_bind by exact Hx.
  erewrite bind_ok; [|reflexivity].
  etrans; [apply (release_bind TimerListLock (λ s0, set_timers
    (<[t := mkTimer (DueTime x) (Period x) (Dpc x) (DpcContext x) (InUse x) true]> (KTimers s0))
    (filter (λ a, a ≠ t) (g_TimerListHead s0)) (filter (λ a, a ≠ t) (firedList s0)) s0) s); done|done].
Qed.

(** ** One pass *)

(** What the timers say at the start of a pass. *)
Definition is_expired (s : TM_STATE) (t : Z) : bool :=
  match KTimers s !! t with Some x => expired (KeTickCount s) x | None => false end.
Definition is_periodic (s : TM_STATE) (t : Z) : bool :=
  match KTimers s !! t with Some x => 0 <? Period x | None => false end.

(** The deferred call a timer makes. *)
Definition call_of (s : TM_STATE) (t : Z) : list (Z * Z * Z * Z * Z) :=
  match KTimers s !! t with
  | Some x =>
      if Dpc x =? 0 then []
      else match Dpcs s !! Dpc x with
           | Some d => if truthy (DeferredRoutine d) && negb (Cancelled x)
                       then [(DeferredRoutine d, Dpc x, DpcContext x, SystemArgument1 d, SystemArgument2 d)]
                       else []
           | None => []
           end
  | None => []
  end.

(** The timer after it fired: re-armed one period from now, or released. *)
Definition after_fire (s : TM_STATE) (x : KTIMER) : KTIMER :=
  if 0 <? Period x then mkTimer (u64 (KeTickCount s + Period x)) (Period x) (Dpc x) (ctx_of s (Dpc x)) (InUse x) false
  else mkTimer (DueTime x) (Period x) (Dpc x) (DpcContext x) false false.

Lemma collect_run l : ∀ kept f s,
  NoDup (kept ++ l) → (∀ t, t ∈ l → is_Some (KTimers s !! t) ∧ t ∉ f) →
  collect l (set_timers (KTimers s) (kept ++ l) f s) =
  Ok (existsb (is_expired s) l,
      set_timers (KTimers s) (kept ++ List.filter (λ t, negb (is_expired s t)) l)
        (f ++ List.filter (is_expired s) l) s).
Proof.
  induction l as [|t l IH]; intros kept f s Hnd Hl; [by rewrite !app_nil_r|].
  destruct (Hl t) as [[x Hx] Hf]; [by left|]. cbn [collect]. unfold get_timer.
  erewrite deref_bind by exact Hx. unfold mbind at 1, M_bind at 1. cbn [mgets].
  assert (He : is_expired s t = expired (KeTickCount s) x) by (unfold is_expired; by rewrite Hx).
  cbn [existsb List.filter KeTickCount set_timers]. rewrite He. apply NoDup_app in Hnd as (Hk & Hkl & Htl).
  apply NoDup_cons in Htl as [Htl Hnd].
  destruct (expired (KeTickCount s) x).
  - erewrite bind_ok; [|reflexivity]. erewrite bind_ok; [|reflexivity].
    unfold unlink. cbn [KTimers g_TimerListHead firedList set_timers].
    rewrite filter_app, filter_cons_False by (by intros ?). rewrite !filter_ne_id by (try done; intros Hin; by eapply Hkl; [|left]).
    erewrite bind_ok; [|apply (IH kept (f ++ [t]) s)].
    + by rewrite <- app_assoc.
    + apply NoDup_app. split_and!; [done| |done]. intros a Ha Hl'. eapply Hkl; [exact Ha|by right].
    + intros a Ha. destruct (Hl a) as [? ?]; [by right|]. split; [done|].
      rewrite not_elem_of_app, list_elem_of_singleton. split; [done|]. by intros ->.
  - cbn [negb]. rewrite (app_assoc kept [t] l : kept ++ t :: l = (kept ++ [t]) ++ l).
    rewrite (IH (kept ++ [t]) f s).
    + by rewrite <- app_assoc.
    + rewrite <- app_assoc. apply NoDup_app. split_and!; [done|done|by constructor].
    + intros a Ha. apply Hl. by right.
Qed.

Lemma s32_small z : -2147483648 ≤ z < 2147483648 → s32 z = z.
Proof. intros. unfold s32. rewrite Z.mod_small; lia. Qed.

Lemma rearm_due tick p : 0 < p < 2147483648 → DueTimeToTicks tick (s64 (- s64 p * 10000)) = u64 (tick + p).
Proof.
  intros Hp. rewrite (s64_small p), s64_small by lia. unfold DueTimeToTicks.
  replace (- p * 10000 <? 0) with true by lia. rewrite s64_small by lia.
  replace (- (- p * 10000)) with (p * 10000) by lia. rewrite Z.quot_mul by lia. by replace (p <=? 0) with false by lia.
Qed.

Lemma fire_run s t x :
  can_lock (tm_pcr s) → g_TimerListLock s = 0 → t ≠ 0 → KTimers s !! t = Some x → timer_ok s x →
  Cancelled x = false → t ∉ g_TimerListHead s → t ∉ firedList s →
  fire t s = Ok (tt, set_timers (<[t := after_fire s x]> (KTimers s))
    (g_TimerListHead s ++ (if is_periodic s t then [t] else [])) (firedList s)
    (set_dpc_calls (dpc_calls s ++ call_of s t) s)).
Proof.
  intros Hc Hl Ht Hx [Hp HD] Hcan Hna Hnf. unfold fire, get_timer. erewrite deref_bind by exact Hx.
  set (s1 := set_dpc_calls (dpc_calls s ++ call_of s t) s).
  assert (Hcall : ∃ d, (if Dpc x =? 0 then mret None else d ← mderef (λ s, Dpcs s !! Dpc x); mret (Some d)) s = Ok (d, s) ∧
    match d with
    | Some d => mwhen (truthy (DeferredRoutine d) && negb (Cancelled x))
        (mmod (λ s, set_dpc_calls (dpc_calls s ++
           [(DeferredRoutine d, Dpc x, DpcContext x, SystemArgument1 d, SystemArgument2 d)]) s))
    | None => mret tt
    end s = Ok (tt, s1)).
  { unfold s1, call_of. rewrite Hx. destruct (Z.eqb_spec (Dpc x) 0) as [E|E].
    - exists None. rewrite app_nil_r. split; [done|]. by destruct s.
    - destruct HD as [?|[d Hd]]; [done|]. exists (Some d). split; [by erewrite deref_bind by exact Hd|].
      rewrite Hd. unfold mwhen. destruct (_ && _); [done|]. rewrite app_nil_r. by destruct s. }
  destruct Hcall as (d & H1 & H2). erewrite bind_ok; [|exact H1]. erewrite bind_ok; [|exact H2].
  unfold is_periodic, after_fire. rewrite Hx, Hcan, andb_true_r.
  destruct (Z.ltb_spec 0 (Period x)) as [Hpos|Hneg].
  - erewrite bind_ok; [|apply (set_timer_run s1 t _ _ _ x); done].
    unfold armed. rewrite rearm_due, (s32_small (Period x)), (u64_small (Period x)) by lia.
    change (g_TimerListHead s1) with (g_TimerListHead s). change (firedList s1) with (firedList s).
    by rewrite !filter_ne_id by done.
  - unfold FreeTimerSlot, get_timer. erewrite deref_bind by exact Hx. rewrite app_nil_r. done.
Qed.

Lemma elem_of_lfilter (p : Z → bool) l t : t ∈ List.filter p l ↔ t ∈ l ∧ p t = true.
Proof. rewrite (list_elem_of_In (List.filter p l)), (list_elem_of_In l). apply filter_In. Qed.

(** What the firing loop leaves when it starts in [s] with [l] expired. *)
Record fired_post (s : TM_STATE) (l : list Z) (s' : TM_STATE) : Prop := {
  fp_same : tm_pcr s' = tm_pcr s ∧ g_TimerListLock s' = g_TimerListLock s ∧ Dpcs s' = Dpcs s ∧
            KeTickCount s' = KeTickCount s;
  fp_fired : firedList s' = [];
  fp_active : g_TimerListHead s' = g_TimerListHead s ++ List.filter (is_periodic s) l;
  fp_calls : dpc_calls s' = dpc_calls s ++ concat (List.map (call_of s) l);
  fp_timers a : KTimers s' !! a =
    if bool_decide (a ∈ l) then (after_fire s <$> KTimers s !! a) else KTimers s !! a
}.

Lemma fire_loop l : ∀ s,
  can_lock (tm_pcr s) → g_TimerListLock s = 0 → firedList s = l → NoDup l →
  (∀ t, t ∈ l → t ≠ 0 ∧ (t ∉ g_TimerListHead s) ∧
     ∃ x, KTimers s !! t = Some x ∧ timer_ok s x ∧ Cancelled x = false) →
  ∃ s', loops_to (λ _ : unit,
    l ← mgets firedList;
    match l with
    | [] => mret (inr tt)
    | t :: l' =>
        mmod (λ s, set_timers (KTimers s) (g_TimerListHead s) l' s);;
        fire t;;
        mret (inl tt)
    end) (Z.of_nat (length l) + 1) tt s tt s' ∧ fired_post s l s'.
Proof.
  induction l as [|t l IH]; intros s Hc Hl Hf Hnd Hok.
  - exists s. split; [apply loops_done; unfold mbind, M_bind; simpl; by rewrite Hf|].
    by constructor; rewrite ?app_nil_r.
  - apply NoDup_cons in Hnd as [Htl Hnd]. destruct (Hok t) as (Ht0 & Hta & x & Hx & Hxok & Hxc); [by left|].
    set (s1 := set_timers (KTimers s) (g_TimerListHead s) l s).
    pose proof (fire_run s1 t x Hc Hl Ht0 Hx Hxok Hxc Hta Htl) as Hr. set (s2 := set_timers _ _ _ _) in Hr.
    assert (Hm : ∀ a, a ∈ l → KTimers s2 !! a = KTimers s !! a).
    { intros a Ha. simpl. rewrite lookup_insert_ne; [done|]. by intros ->. }
    destruct (IH s2) as (s' & Hloop & Hpost); try done.
    { intros a Ha. destruct (Hok a) as (? & Haa & y & Hy & ? & ?); [by right|]. split_and!; [done| |].
      - simpl. rewrite not_elem_of_app. split; [done|]. case_match; [|apply not_elem_of_nil].
        rewrite list_elem_of_singleton. by intros ->.
      - exists y. by rewrite Hm. }
    exists s'. split.
    + replace (Z.of_nat (length (t :: l)) + 1) with (Z.of_nat (length l) + 1 + 1) by (cbn [length]; lia).
      eapply loops_step; [|exact Hloop]. unfold mbind at 1, M_bind at 1. cbn [mgets]. rewrite Hf.
      erewrite bind_ok; [|reflexivity]. by erewrite bind_ok; [|exact Hr].
    + destruct Hpost as [P1 P2 P3 P4 P5]. constructor; [done|done| | |].
      * rewrite P3. simpl g_TimerListHead. change (is_periodic s1 t) with (is_periodic s t).
        rewrite (List.filter_ext_in (is_periodic s2) (is_periodic s)).
        -- rewrite <- app_assoc. cbn [List.filter]. by destruct (is_periodic s t).
        -- intros a Ha%list_elem_of_In. unfold is_periodic. by rewrite Hm.
      * rewrite P4. simpl dpc_calls. rewrite <- app_assoc. f_equal. cbn [List.map concat].
        change (call_of s1 t) with (call_of s t). f_equal. f_equal. apply List.map_ext_in.
        intros a Ha%list_elem_of_In. unfold call_of. by rewrite Hm.
      * intros a. rewrite P5. destruct (decide (a = t)) as [->|Hne].
        -- rewrite (bool_decide_eq_false_2 (t ∈ l)), (bool_decide_eq_true_2 (t ∈ t :: l)) by (done || by left).
           simpl. rewrite lookup_insert_eq, Hx. done.
        -- erewrite (bool_decide_ext (a ∈ t :: l) (a ∈ l)); [|rewrite elem_of_cons; naive_solver].
           simpl. by rewrite lookup_insert_ne by done.
Qed.

(** [C9] A pass of the timer scan thread.  It ends, and calls the deferred
    routine of exactly the timers on the active list that are due, each once
    and in list order.  Afterwards the active list is the timers that were not
    due, in their order, followed by the periodic ones that fired, each armed
    one period after the current tick; a one-shot timer that fired is on no
    list and its slot is free; no other timer changes.  It reports whether any
    timer fired. *)
Theorem timer_scan_pass s :
  tm_inv s →
  let act := g_TimerListHead s in
  let due := List.filter (is_expired s) act in
  ∃ s', scan_pass s = Ok (existsb (is_expired s) act, s') ∧ tm_inv s' ∧
    dpc_calls s' = dpc_calls s ++ concat (List.map (call_of s) due) ∧
    g_TimerListHead s' = List.filter (λ t, negb (is_expired s t)) act ++ List.filter (is_periodic s) due ∧
    ∀ a, KTimers s' !! a = if bool_decide (a ∈ due) then (after_fire s <$> KTimers s !! a) else KTimers s !! a.
Proof.
  intros [Hc Hl Hnd Hact Hf] act due.
  set (s1 := set_timers (KTimers s) (List.filter (λ t, negb (is_expired s t)) act) due s).
  assert (Hin : ∀ t, t ∈ due ↔ t ∈ act ∧ is_expired s t = true).
  { intros t. apply elem_of_lfilter. }
  assert (Hkept : ∀ t, t ∈ g_TimerListHead s1 ↔ t ∈ act ∧ is_expired s t = false).
  { intros t. cbn [g_TimerListHead s1 set_timers]. by rewrite elem_of_lfilter, negb_true_iff. }
  assert (Hndf : ∀ p, NoDup (List.filter p act)).
  { intros p. apply NoDup_ListNoDup, List.NoDup_filter, NoDup_ListNoDup. exact Hnd. }
  destruct (fire_loop due s1) as (s' & Hloop & Hpost); [done|done|done|apply Hndf| |].
  { intros t [Ha He]%Hin. destruct (Hact t Ha) as (Hpos & x & Hx & Hok & Hcan). split_and!; [lia| |eauto].
    rewrite Hkept. intros [_ ?]. congruence. }
  destruct Hpost as [(P1 & P1' & P1'' & P1t) P2 P3 P4 P5].
  exists s'. split_and!; [| |exact P4|exact P3|exact P5].
  - unfold scan_pass. erewrite bind_ok; [|reflexivity].
    replace (set_timers (KTimers s) (g_TimerListHead s) [] s) with s by (destruct s; simpl in *; by subst).
    rewrite acquire_bind by done. unfold mbind at 1, M_bind at 1. cbn [mgets].
    change (g_TimerListHead (locked TimerListLock s)) with act.
    pose proof (collect_run act [] [] (locked TimerListLock s)) as Hcol.
    replace (set_timers (KTimers (locked TimerListLock s)) ([] ++ act) [] (locked TimerListLock s))
      with (locked TimerListLock s) in Hcol by (destruct s; simpl in *; by subst).
    erewrite bind_ok; [|apply Hcol]; [|exact Hnd|].
    2: { intros t Ha. destruct (Hact t Ha) as (_ & x & Hx & _). split; [eauto|apply not_elem_of_nil]. }
    etrans; [apply (release_bind TimerListLock (λ s0, set_timers (KTimers s0)
      (List.filter (λ t, negb (is_expired s t)) act) due s0) s); done|]. fold s1.
    erewrite bind_ok; [reflexivity|]. apply (loop_ok _ _ _ _ _ _ Hloop).
    assert (Z.of_nat (length due) ≤ 18446744073709551615); [|lia].
    apply NoDup_bounded_length; [lia|apply Hndf|]. intros t [Ha _]%Hin. destruct (Hact t Ha). lia.
  - constructor; rewrite ?P1, ?P1'; try done.
    + rewrite P3. apply NoDup_app. split_and!; [apply Hndf| |].
      * intros t [_ He]%Hkept [[_ ?]%Hin _]%elem_of_lfilter. congruence.
      * apply NoDup_ListNoDup, List.NoDup_filter, NoDup_ListNoDup, Hndf.
    + intros t. rewrite P3, elem_of_app. intros [[Ha He]%Hkept|Ht].
      * destruct (Hact t Ha) as (Hpos & x & Hx & Hok & Hcan). split; [done|]. exists x.
        rewrite P5, bool_decide_eq_false_2 by (intros [_ ?]%Hin; congruence). split; [done|].
        split; [|done]. unfold timer_ok in *. by rewrite P1''.
      * apply elem_of_lfilter in Ht as [Hd Hper].
        pose proof Hd as [Ha He]%Hin. destruct (Hact t Ha) as (Hpos & x & Hx & [Hp HD] & Hcan). split; [done|].
        exists (after_fire s x). rewrite P5, bool_decide_eq_true_2 by done. split; [simpl; by rewrite Hx|].
        unfold is_periodic in Hper. simpl in Hper. rewrite Hx in Hper. unfold after_fire. rewrite Hper.
        split; [|done]. split; simpl; [done|]. by rewrite P1''.
Qed.

Lemma due_ticks tick due : -9223372036854775808 < due < 9223372036854775808 →
  DueTimeToTicks tick due = if due <? 0 then u64 (tick + Z.max 1 (- due / 10000)) else due / 10000.
Proof.
  intros Hd. unfold DueTimeToTicks. destruct (Z.ltb_spec due 0) as [Hn|Hp].
  - rewrite s64_small, Z.quot_div_nonneg by lia. do 2 f_equal. pose proof (Z.div_pos (- due) 10000).
    case_match; lia.
  - rewrite Z.quot_div_nonneg by lia. apply u64_small. pose proof (Z.div_pos due 10000).
    pose proof (Z.div_le_upper_bound due 10000 due). lia.
Qed.

Lemma elem_of_fne (l : list Z) a t : a ∈ filter (λ x, x ≠ t) l ↔ a ≠ t ∧ a ∈ l.
Proof. by rewrite list_elem_of_filter. Qed.

(** Arming and cancelling.  KeSetTimer reports whether the timer was armed
    already, leaves it armed exactly once, at the tail of the list, with the
    deadline the due time names (a relative time rounds down to ticks of 10000
    units and is at least one tick).  Cancelling it then reports TRUE, takes it
    off the list and marks it, so no later pass can call its routine; a second
    cancel reports FALSE and changes nothing. *)
Theorem timer_set_cancel s t due D x :
  tm_inv s → 0 < t < 18446744073709551615 → KTimers s !! t = Some x →
  D = 0 ∨ is_Some (Dpcs s !! D) → -9223372036854775808 < due < 9223372036854775808 →
  ∃ s1 x1, KeSetTimer t due D s = Ok (bool_decide (t ∈ g_TimerListHead s), s1) ∧ tm_inv s1 ∧
    g_TimerListHead s1 = filter (λ a, a ≠ t) (g_TimerListHead s) ++ [t] ∧
    KTimers s1 = <[t := x1]> (KTimers s) ∧
    DueTime x1 = (if due <? 0 then u64 (KeTickCount s + Z.max 1 (- due / 10000)) else due / 10000) ∧
    ∃ s2, KeCancelTimer t s1 = Ok (true, s2) ∧ tm_inv s2 ∧
      g_TimerListHead s2 = filter (λ a, a ≠ t) (g_TimerListHead s) ∧
      KeCancelTimer t s2 = Ok (false, s2).
Proof.
  intros [Hc Hl Hnd Hact Hf] Ht Hx HD Hdue. set (x1 := armed s t due 0 D x).
  set (act := filter (λ a, a ≠ t) (g_TimerListHead s)).
  assert (Hact' : ∀ a, a ∈ act → a ≠ t ∧ a ∈ g_TimerListHead s) by (intros a; apply elem_of_fne).
  assert (Hna : t ∉ act) by (intros [? _]%Hact'; done).
  assert (Hnd' : NoDup act) by (by apply NoDup_filter).
  set (s1 := set_timers (<[t := x1]> (KTimers s)) (act ++ [t]) [] s). exists s1, x1.
  set (x2 := mkTimer (DueTime x1) (Period x1) (Dpc x1) (DpcContext x1) (InUse x1) true).
  set (s2 := set_timers (<[t := x2]> (<[t := x1]> (KTimers s))) act [] s).
  assert (Hkeep : ∀ m a, a ∈ act → 0 < a < 18446744073709551615 ∧
    ∃ y, <[t := m]> (KTimers s) !! a = Some y ∧ timer_ok s y ∧ Cancelled y = false).
  { intros m a [Hne Ha]%Hact'. rewrite lookup_insert_ne by done. by apply Hact. }
  split_and!; try done.
  - unfold KeSetTimer. rewrite (set_timer_run s t due 0 D x) by (done || lia).
    unfold on_list. rewrite Hf. rewrite (bool_decide_eq_false_2 (t ∈ [])) by apply not_elem_of_nil.
    by rewrite orb_false_r.
  - constructor; simpl; try done.
    + apply NoDup_app. split_and!; [done| |apply NoDup_singleton]. by intros a Ha ->%list_elem_of_singleton.
    + intros a [Ha|Ha]%elem_of_app; [by apply Hkeep|apply list_elem_of_singleton in Ha as ->]. split; [done|].
      exists x1. by rewrite lookup_insert_eq.
  - by apply due_ticks.
  - exists s2.
    assert (Hon : on_list s1 t = true).
    { unfold on_list. rewrite (bool_decide_eq_true_2 (t ∈ g_TimerListHead s1)); [done|].
      simpl. apply elem_of_app. right. by apply list_elem_of_singleton. }
    split_and!; try done.
    + rewrite (cancel_timer_run s1 t x1) by (done || lia || apply lookup_insert_eq). rewrite Hon.
      change (g_TimerListHead s1) with (act ++ [t]). rewrite filter_app, filter_cons_False, app_nil_r by (by intros ?).
      by rewrite filter_ne_id by done.
    + constructor; simpl; try done. rewrite insert_insert_eq. intros a Ha. by apply Hkeep.
    + rewrite (cancel_timer_run s2 t x2) by (done || lia || apply lookup_insert_eq).
      unfold on_list. cbn [g_TimerListHead firedList s2 set_timers].
      rewrite !bool_decide_eq_false_2 by (done || apply not_elem_of_nil).
      rewrite filter_ne_id by done. unfold s2. simpl. by rewrite !insert_insert_eq.
Qed.

(** Timer 64 is periodic with a DPC and due, timer 128 is not due, timer 192 is
    a one-shot that is due. *)
Definition demo_tm : TM_STATE :=
  mkTM demo_pcr 0
    {[ 64 := mkTimer 90 50 8 7 true false; 128 := mkTimer 500 0 8 7 true false;
       192 := mkTimer 100 0 8 9 true false ]}
    {[ 8 := mkDpc 0x4000 7 1 2 ]} [64; 128; 192] [] 100 [].

Lemma demo_tm_inv : tm_inv demo_tm.
Proof.
  constructor; try done; [repeat constructor; set_solver|].
  intros t. simpl. rewrite !elem_of_cons. unfold timer_ok.
  intros [->|[->|[->|Ht]]]; [..|by apply not_elem_of_nil in Ht]; (split; [lia|eexists; split; [reflexivity|]; simpl; repeat split; try lia; right; eauto]).
Qed.

Lemma timer_scan_pass_witness :
  ∃ s', scan_pass demo_tm = Ok (true, s') ∧
    dpc_calls s' = [(0x4000, 8, 7, 1, 2); (0x4000, 8, 9, 1, 2)] ∧ g_TimerListHead s' = [128; 64].
Proof.
  destruct (timer_scan_pass demo_tm demo_tm_inv) as (s' & Hr & _ & Hc & Ha & _).
  exists s'. split_and!; [exact Hr|exact Hc|exact Ha].
Defined.

Lemma timer_set_cancel_witness :
  ∃ s1 s2, KeSetTimer 128 (-25000) 8 demo_tm = Ok (true, s1) ∧ KeCancelTimer 128 s1 = Ok (true, s2) ∧
    g_TimerListHead s2 = [64; 192].
Proof.
  destruct (timer_set_cancel demo_tm 128 (-25000) 8 (mkTimer 500 0 8 7 true false) demo_tm_inv) as
    (s1 & x1 & H1 & _ & _ & _ & _ & s2 & H2 & _ & H3 & _); [lia|reflexivity|right; eexists; reflexivity|lia|].
  exists s1, s2. split_and!; [exact H1|exact H2|exact H3].
Defined.
