(* ===== verification/Cm.v ===== *)
(** * Cm: the in-memory registry (src/cm/cm.c, src/include/nt/cm.h)

    The tree of keys, with path parsing, creation, values and enumeration.
    Key nodes are pool blocks named by their addresses, apart from the static
    root; the child chain of a key (ChildHead, NextSibling) is the list of its
    children, and the value list is the list of its values.  Names are the
    characters of counted strings.  A value keeps the descriptor of its caller's
    name, so its name is read through the caller's buffer. *)

From S2P Require Import Prelude Irql Rtl Pool.

#[local] Open Scope Z_scope.

(** PCM_KEY_NODE *)
Inductive PKEY := RootKey | PoolKey (a : Z).
#[global] Instance PKEY_eq : EqDecision PKEY.
Proof. solve_decision. Defined.

Record CM_KEY_VALUE := mkValue {
  VNameLength : Z;                    (* characters *)
  VNameBuffer : Z;                    (* the caller's buffer *)
  DataType : Z;
  DataLength : Z;
  Data : list Z
}.

Record CM_KEY_NODE := mkKey {
  KName : list Z;
  Parent : option PKEY;
  Children : list Z;
  Values : list CM_KEY_VALUE;
  SubKeyCount : Z;
  ValueCount : Z
}.

Record CM_STATE (P : Type) := mkCm {
  CmRootKey : CM_KEY_NODE;
  CmNodes : gmap Z CM_KEY_NODE;
  Buffers : gmap Z (list Z);          (* callers' name buffers *)
  CmLock_ : Z;
  cm_pool : P
}.
Arguments mkCm {P} _ _ _ _ _.
Arguments CmRootKey {P} _.
Arguments CmNodes {P} _.
Arguments Buffers {P} _.
Arguments CmLock_ {P} _.
Arguments cm_pool {P} _.

Definition set_keys {P} (r : CM_KEY_NODE) (m : gmap Z CM_KEY_NODE) (s : CM_STATE P) : CM_STATE P :=
  mkCm r m (Buffers s) (CmLock_ s) (cm_pool s).
Definition set_CmLock {P} (v : Z) (s : CM_STATE P) : CM_STATE P :=
  mkCm (CmRootKey s) (CmNodes s) (Buffers s) v (cm_pool s).
Definition set_cm_pool {P} (p : P) (s : CM_STATE P) : CM_STATE P :=
  mkCm (CmRootKey s) (CmNodes s) (Buffers s) (CmLock_ s) p.
Definition set_Buffers {P} (b : gmap Z (list Z)) (s : CM_STATE P) : CM_STATE P :=
  mkCm (CmRootKey s) (CmNodes s) b (CmLock_ s) (cm_pool s).

#[global] Instance CM_HasPcr {P} `{HasPcr P} : HasPcr (CM_STATE P).
Proof.
  refine {| pcr := λ s, pcr (cm_pool s); set_pcr := λ k s, set_cm_pool (set_pcr k (cm_pool s)) s |}.
  - intros k s. apply pcr_set.
  - intros k k' []. unfold set_cm_pool. simpl. by rewrite set_pcr_set.
  - intros []. unfold set_cm_pool. simpl. by rewrite set_pcr_pcr.
Defined.

Definition TAG_KEY := 0x636F7250.     (* TAG_PROC *)
Definition TAG_NAME := 0x656D614E.
Definition sizeof_CM_KEY_NODE := 72.
Definition sizeof_CM_KEY_VALUE := 56.
Definition BACKSLASH := 92.

(** RtlEqualUnicodeString(a, b, TRUE) on the characters. *)
Definition name_eq (a b : list Z) : bool := RtlEqualUnicodeString (ustr a) (ustr b) true.

(** ** Path parsing *)

(** The [for] loop: the index of the next backslash, or the number of characters. *)
Definition seg_end (remaining : list Z) : nat :=
  match first_idx (λ c, c =? BACKSLASH) remaining with Some i => i | None => length remaining end.

(** [segment]: its length is set when the loop breaks, and a zero length is
    replaced by the whole of the remaining path. *)
Definition segment (remaining : list Z) : list Z :=
  if (seg_end remaining =? length remaining)%nat || (seg_end remaining =? 0)%nat then remaining
  else take (seg_end remaining) remaining.

Definition skip_leading (path : list Z) : list Z :=
  match path with c :: l => if c =? BACKSLASH then l else path | [] => [] end.

Section Cm.
Context {P : Type} `{PoolInterface P}.
Implicit Types (s : CM_STATE P).

Definition CmLock : SpinLock (CM_STATE P).
Proof. refine (mkSpinLock CmLock_ set_CmLock _ _ _ _ _ _); try done. by intros []. Defined.

Definition cm_do {A} (m : M P A) : M (CM_STATE P) A := zoom cm_pool set_cm_pool m.

Definition key_of s (k : PKEY) : option CM_KEY_NODE :=
  match k with RootKey => Some (CmRootKey s) | PoolKey a => CmNodes s !! a end.
Definition get_key (k : PKEY) : M (CM_STATE P) CM_KEY_NODE := mderef (λ s, key_of s k).
Definition with_key (k : PKEY) (n : CM_KEY_NODE) s : CM_STATE P :=
  match k with
  | RootKey => set_keys n (CmNodes s) s
  | PoolKey a => set_keys (CmRootKey s) (<[a := n]> (CmNodes s)) s
  end.
Definition put_key (k : PKEY) (n : CM_KEY_NODE) : M (CM_STATE P) unit := mmod (with_key k n).

Definition CmAllocateKeyNode (Name : list Z) : M (CM_STATE P) (option Z) :=
  node ← cm_do (pool_alloc 0 sizeof_CM_KEY_NODE TAG_KEY);
  if node =? 0 then mret None
  else
    nameBuf ← cm_do (pool_alloc 0 (2 * Z.of_nat (length Name) + 2) TAG_NAME);
    if nameBuf =? 0 then cm_do (pool_free node TAG_KEY);; mret None
    else put_key (PoolKey node) (mkKey Name None [] [] 0 0);; mret (Some node).

(** The walk of the child chain. *)
Fixpoint find_from (l : list Z) (Name : list Z) : M (CM_STATE P) (option Z) :=
  match l with
  | [] => mret None
  | c :: l' =>
      n ← get_key (PoolKey c);
      if name_eq (KName n) Name then mret (Some c) else find_from l' Name
  end.
Definition CmFindChild (Parent_ : PKEY) (Name : list Z) : M (CM_STATE P) (option Z) :=
  p ← get_key Parent_; find_from (Children p) Name.

Definition CmInitSystem : M (CM_STATE P) Z :=
  KeInitializeSpinLock CmLock;;
  mmod (λ s, set_keys (mkKey [BACKSLASH] None [] [] 0 0) (CmNodes s) s);;
  mret STATUS_SUCCESS.

(** The child of [parent] named [seg], created at the end of the chain when
    there is none. *)
Definition find_or_create (parent : PKEY) (seg : list Z) : M (CM_STATE P) (option PKEY) :=
  c ← CmFindChild parent seg;
  match c with
  | Some a => mret (Some (PoolKey a))
  | None =>
      node ← CmAllocateKeyNode seg;
      match node with
      | None => mret None
      | Some a =>
          n ← get_key (PoolKey a);
          put_key (PoolKey a) (mkKey (KName n) (Some parent) (Children n) (Values n) (SubKeyCount n) (ValueCount n));;
          p ← get_key parent;
          put_key parent (mkKey (KName p) (Parent p) (Children p ++ [a]) (Values p)
                            (u32 (SubKeyCount p + 1)) (ValueCount p));;
          mret (Some (PoolKey a))
      end
  end.

(** The [while (remaining.Length > 0)] loop; every turn takes a character at
    least, so as many turns as characters are enough. *)
Fixpoint create_walk (fuel : nat) (remaining : list Z) (parent : PKEY) : M (CM_STATE P) (option PKEY) :=
  match remaining, fuel with
  | [], _ => mret (Some parent)
  | _, O => mnofuel
  | _, S fuel' =>
      node ← find_or_create parent (segment remaining);
      match node with
      | None => mret None
      | Some k =>
          if (seg_end remaining <? length remaining)%nat
          then create_walk fuel' (drop (seg_end remaining + 1) remaining) k
          else mret (Some k)
      end
  end.

Definition CmCreateKey (KeyName : list Z) : M (CM_STATE P) (Z * option PKEY) :=
  irql ← KeAcquireSpinLock CmLock;
  k ← create_walk (length KeyName) (skip_leading KeyName) RootKey;
  KeReleaseSpinLock CmLock 0;;
  match k with
  | None => mret (STATUS_NO_MEMORY, None)
  | Some k => mret (STATUS_SUCCESS, Some k)
  end.

Definition CmOpenKey (KeyName : list Z) : M (CM_STATE P) (Z * option PKEY) := CmCreateKey KeyName.

(** ** Values *)

(** [ValueName]: its length and its buffer. *)
Definition CmSetValue (Key : option PKEY) (ValueName : option (Z * Z)) (DataType : Z) (Data : list Z) :
    M (CM_STATE P) Z :=
  match Key, ValueName with
  | Some k, Some (len, buf) =>
      dataBuf ← cm_do (pool_alloc 0 (Z.of_nat (length Data)) TAG_NAME);
      if dataBuf =? 0 then mret STATUS_NO_MEMORY
      else
        value ← cm_do (pool_alloc 0 sizeof_CM_KEY_VALUE TAG_KEY);
        if value =? 0 then cm_do (pool_free dataBuf TAG_NAME);; mret STATUS_NO_MEMORY
        else
          irql ← KeAcquireSpinLock CmLock;
          n ← get_key k;
          put_key k (mkKey (KName n) (Parent n) (Children n)
                       (Values n ++ [mkValue len buf DataType (Z.of_nat (length Data)) Data])
                       (SubKeyCount n) (u32 (ValueCount n + 1)));;
          KeReleaseSpinLock CmLock 0;;
          mret STATUS_SUCCESS
  | _, _ => mret STATUS_INVALID_PARAMETER
  end.

(** The name of a value, as its descriptor reads it now. *)
Definition vname s (v : CM_KEY_VALUE) : option (list Z) :=
  take (Z.to_nat (VNameLength v)) <$> Buffers s !! VNameBuffer v.

Fixpoint find_value (l : list CM_KEY_VALUE) (Name : list Z) : M (CM_STATE P) (option CM_KEY_VALUE) :=
  match l with
  | [] => mret None
  | v :: l' =>
      n ← mderef (λ s, vname s v);
      if name_eq n Name then mret (Some v) else find_value l' Name
  end.

(** The type, the actual length, and the data when it fits the caller's buffer. *)
Definition fit (v : CM_KEY_VALUE) (OutDataLength : Z) : option (list Z) :=
  if DataLength v <=? OutDataLength then Some (Data v) else None.

Definition CmQueryValue (Key : option PKEY) (ValueName : list Z) (OutDataLength : Z) :
    M (CM_STATE P) (Z * option (Z * Z * option (list Z))) :=
  match Key with
  | None => mret (STATUS_INVALID_PARAMETER, None)
  | Some k =>
      irql ← KeAcquireSpinLock CmLock;
      n ← get_key k;
      v ← find_value (Values n) ValueName;
      KeReleaseSpinLock CmLock 0;;
      match v with
      | Some v => mret (STATUS_SUCCESS, Some (DataType v, DataLength v, fit v OutDataLength))
      | None => mret (STATUS_OBJECT_NAME_NOT_FOUND, None)
      end
  end.

Definition CmEnumerateSubKey (Key : option PKEY) (Index : Z) : M (CM_STATE P) (Z * option (list Z)) :=
  match Key with
  | None => mret (STATUS_INVALID_PARAMETER, None)
  | Some k =>
      irql ← KeAcquireSpinLock CmLock;
      n ← get_key k;
      match Children n !! Z.to_nat Index with
      | None => KeReleaseSpinLock CmLock 0;; mret (STATUS_NO_MORE_ENTRIES, None)
      | Some c =>
          x ← get_key (PoolKey c);
          KeReleaseSpinLock CmLock 0;;
          mret (STATUS_SUCCESS, Some (KName x))
      end
  end.

Definition CmEnumerateValue (Key : option PKEY) (Index OutDataLength : Z) :
    M (CM_STATE P) (Z * option ((Z * Z) * Z * option (list Z))) :=
  match Key with
  | None => mret (STATUS_INVALID_PARAMETER, None)
  | Some k =>
      irql ← KeAcquireSpinLock CmLock;
      n ← get_key k;
      match Values n !! Z.to_nat Index with
      | None => KeReleaseSpinLock CmLock 0;; mret (STATUS_NO_MORE_ENTRIES, None)
      | Some v =>
          KeReleaseSpinLock CmLock 0;;
          mret (STATUS_SUCCESS, Some ((VNameLength v, VNameBuffer v), DataType v, fit v OutDataLength))
      end
  end.

Definition CmGetRootKey : PKEY := RootKey.

(** ** Paths *)

Fixpoint segments (fuel : nat) (remaining : list Z) : list (list Z) :=
  match remaining, fuel with
  | [], _ | _, O => []
  | _, S fuel' => segment remaining ::
      if (seg_end remaining <? length remaining)%nat
      then segments fuel' (drop (seg_end remaining + 1) remaining) else []
  end.
Definition path_segments (path : list Z) : list (list Z) := segments (length path) (skip_leading path).

(** The child a name leads to, and the key a path leads to. *)
Definition named s (Name : list Z) (c : Z) : bool :=
  match CmNodes s !! c with Some n => name_eq (KName n) Name | None => false end.
Definition find_pure s (l : list Z) (Name : list Z) : option Z :=
  match first_idx (named s Name) l with Some i => l !! i | None => None end.
Definition cm_child s (k : PKEY) (Name : list Z) : option PKEY :=
  match key_of s k with Some n => PoolKey <$> find_pure s (Children n) Name | None => None end.
Fixpoint cm_path s (k : PKEY) (segs : list (list Z)) : option PKEY :=
  match segs with
  | [] => Some k
  | x :: l => match cm_child s k x with Some k' => cm_path s k' l | None => None end
  end.

(** Every node is a live pool block, and every child is a node. *)
Record cm_inv s (m : gmap Z Z) : Prop := {
  ci_pool : pool_rep (cm_pool s) m;
  ci_pcr : can_lock (pcr (cm_pool s));
  ci_live a n : CmNodes s !! a = Some n → m !! a = Some TAG_KEY;
  ci_child k n c : key_of s k = Some n → c ∈ Children n → is_Some (CmNodes s !! c)
}.

(** [s'] has every key of [s] with the same name and values and its children in
    the same places, and its new keys have no values. *)
Record cm_ext s s' : Prop := {
  ce_old k n : key_of s k = Some n → ∃ n' l, key_of s' k = Some n' ∧ KName n' = KName n ∧
    Values n' = Values n ∧ Children n' = Children n ++ l;
  ce_new k n : key_of s k = None → key_of s' k = Some n → Values n = [];
  ce_buf : Buffers s' = Buffers s
}.

#[global] Instance cm_ext_refl : Reflexive cm_ext.
Proof. intros s. constructor; [|congruence|done]. intros k n Hk. exists n, []. by rewrite app_nil_r. Qed.
#[global] Instance cm_ext_trans : Transitive cm_ext.
Proof.
  intros s1 s2 s3 [A1 B1 C1] [A2 B2 C2]. constructor; [| |congruence].
  - intros k n Hk. destruct (A1 k n Hk) as (n' & l & Hk' & ? & ? & ?).
    destruct (A2 k n' Hk') as (n'' & l' & ? & ? & ? & ?). exists n'', (l ++ l').
    rewrite app_assoc. split_and!; congruence.
  - intros k n H1 H3. destruct (key_of s2 k) as [n2|] eqn:H2; [|eauto].
    destruct (A2 k n2 H2) as (n' & l & ? & _ & Hv & _). rewrite <- (B1 k n2 H1 H2). congruence.
Qed.

Lemma first_idx_app_l {A} (p q : A → bool) (l l' : list A) i :
  first_idx p l = Some i → (∀ x, x ∈ l → q x = p x) → first_idx q (l ++ l') = Some i.
Proof.
  revert i; induction l as [|x l IH]; intros i Hi Hq; [done|]. simpl in *.
  rewrite (Hq x) by (by left). destruct (p x); [done|].
  apply fmap_Some in Hi as (j & Hj & ->). rewrite (IH j Hj); [done|]. intros y Hy. apply Hq. by right.
Qed.

Lemma named_ext s s' m k n c Name :
  cm_inv s m → cm_ext s s' → key_of s k = Some n → c ∈ Children n → named s' Name c = named s Name c.
Proof.
  intros Hi He Hk Hc. destruct (ci_child _ _ Hi k n c Hk Hc) as [x Hx].
  destruct (ce_old _ _ He (PoolKey c) x Hx) as (x' & l & Hx' & Hn & _). simpl in Hx'.
  unfold named. by rewrite Hx, Hx', Hn.
Qed.

Lemma cm_child_ext s s' m k Name r :
  cm_inv s m → cm_ext s s' → cm_child s k Name = Some r → cm_child s' k Name = Some r.
Proof.
  intros Hi He. unfold cm_child. destruct (key_of s k) as [n|] eqn:Hk; [|done].
  destruct (ce_old _ _ He k n Hk) as (n' & l & -> & _ & _ & Hc). unfold find_pure. rewrite Hc.
  destruct (first_idx (named s Name) (Children n)) as [i|] eqn:Hf; [|done].
  rewrite (first_idx_app_l _ (named s' Name) _ l i Hf) by (intros x; by apply (named_ext s s' m k n)).
  rewrite lookup_app_l by (by eapply first_idx_lt). done.
Qed.

Lemma cm_path_ext s s' m segs : ∀ k r,
  cm_inv s m → cm_ext s s' → cm_path s k segs = Some r → cm_path s' k segs = Some r.
Proof.
  induction segs as [|x l IH]; intros k r Hi He; [done|]. simpl.
  destruct (cm_child s k x) as [k'|] eqn:Hc; [|done]. rewrite (cm_child_ext s s' m k x k') by done. by apply IH.
Qed.

Lemma find_from_run s l Name :
  (∀ c, c ∈ l → is_Some (CmNodes s !! c)) → find_from l Name s = Ok (find_pure s l Name, s).
Proof.
  induction l as [|c l IH]; intros Hl; [done|]. cbn [find_from]. destruct (Hl c) as [n Hn]; [by left|].
  unfold get_key. erewrite deref_bind by exact Hn. unfold find_pure. cbn [first_idx].
  assert (named s Name c = name_eq (KName n) Name) as -> by (unfold named; by rewrite Hn).
  destruct (name_eq (KName n) Name); [done|]. rewrite IH by (intros; apply Hl; by right).
  unfold find_pure. by destruct (first_idx (named s Name) l).
Qed.

Lemma find_child_run s m k n Name :
  cm_inv s m → key_of s k = Some n → CmFindChild k Name s = Ok (find_pure s (Children n) Name, s).
Proof.
  intros Hi Hk. unfold CmFindChild, get_key. erewrite deref_bind by exact Hk.
  apply find_from_run. intros c. by apply (ci_child _ _ Hi k n).
Qed.

(** A change of the pool that keeps the blocks does not disturb the tree. *)
Lemma cm_inv_repool s m p m' :
  cm_inv s m → pool_rep p m' → can_lock (pcr p) → (∀ a t, m !! a = Some t → m' !! a = Some t) →
  cm_inv (set_cm_pool p s) m'.
Proof.
  intros [H1 H2 H3 H4] Hp Hpc Hm. constructor; simpl; [done|done|eauto|].
  intros k n c Hk. apply (H4 k n c). by destruct k.
Qed.
Lemma cm_inv_pool s m p m' :
  cm_inv s m → pool_rep p m' → pcr p = pcr (cm_pool s) → (∀ a t, m !! a = Some t → m' !! a = Some t) →
  cm_inv (set_cm_pool p s) m'.
Proof. intros Hi Hp Hpc. apply cm_inv_repool; [done|done|]. rewrite Hpc. apply Hi. Qed.

Lemma allocate_run s m Name :
  cm_inv s m → Z.of_nat (length Name) ≤ 32767 →
  ∃ r p m', cm_inv (set_cm_pool p s) m' ∧ pcr p = pcr (cm_pool s) ∧
    match r with
    | None => CmAllocateKeyNode Name s = Ok (None, set_cm_pool p s)
    | Some a => CmNodes s !! a = None ∧ m' !! a = Some TAG_KEY ∧
        CmAllocateKeyNode Name s = Ok (Some a, with_key (PoolKey a) (mkKey Name None [] [] 0 0) (set_cm_pool p s))
    end.
Proof.
  intros Hi Hlen. pose proof Hi as [Hp Hc Hl _]. unfold CmAllocateKeyNode.
  destruct (pool_alloc_law (cm_pool s) m 0 sizeof_CM_KEY_NODE TAG_KEY Hp Hc) as (a & p1 & Hr1 & Hpc1 & Hcase1);
    [unfold sizeof_CM_KEY_NODE; lia|].
  destruct Hcase1 as [[-> Hp1]|(Ha & Hna & Hp1)].
  { exists None, p1, m. split_and!; [by apply (cm_inv_pool s m)|done|]. by erewrite bind_ok; [|apply zoom_ok, Hr1]. }
  assert (Hle1 : ∀ b t, m !! b = Some t → <[a := TAG_KEY]> m !! b = Some t)
    by (intros b t Hb; rewrite lookup_insert_ne; [done|]; intros ->; congruence).
  destruct (pool_alloc_law p1 (<[a := TAG_KEY]> m) 0 (2 * Z.of_nat (length Name) + 2) TAG_NAME Hp1)
    as (b & p2 & Hr2 & Hpc2 & Hcase2); [by rewrite Hpc1|lia|].
  destruct Hcase2 as [[-> Hp2]|(Hb & Hnb & Hp2)].
  - destruct (pool_free_law p2 (<[a := TAG_KEY]> m) a TAG_KEY TAG_KEY Hp2) as (p3 & Hr3 & Hpc3 & Hp3);
      [by rewrite Hpc2, Hpc1|apply lookup_insert_eq|by right|].
    rewrite delete_insert_id in Hp3 by done. exists None, p3, m.
    split_and!; [apply (cm_inv_pool s m); [done|done|congruence|done]|congruence|].
    erewrite bind_ok; [|apply zoom_ok, Hr1]. replace (a =? 0) with false by lia.
    erewrite bind_ok; [|apply zoom_ok, Hr2]. cbn [Z.eqb]. by erewrite bind_ok; [|apply zoom_ok, Hr3].
  - exists (Some a), p2, (<[b := TAG_NAME]> (<[a := TAG_KEY]> m)). split_and!.
    + apply (cm_inv_pool s m); [done|done|congruence|]. intros c t Hct%Hle1.
      rewrite lookup_insert_ne; [done|]. intros ->. congruence.
    + congruence.
    + apply eq_None_not_Some. intros [n Hn]. apply Hl in Hn. congruence.
    + rewrite lookup_insert_ne; [apply lookup_insert_eq|]. intros ->. by rewrite lookup_insert_eq in Hnb.
    + erewrite bind_ok; [|apply zoom_ok, Hr1]. replace (a =? 0) with false by lia.
      erewrite bind_ok; [|apply zoom_ok, Hr2]. by replace (b =? 0) with false by lia.
Qed.

Lemma key_of_with_eq k n s : (∃ n0, key_of s k = Some n0) → key_of (with_key k n s) k = Some n.
Proof. intros [n0 _]. destruct k; [done|]. simpl. apply lookup_insert_eq. Qed.
Lemma key_of_with_ne k k' n s : k' ≠ k → key_of (with_key k n s) k' = key_of s k'.
Proof. intros Hne. destruct k, k'; simpl; try done. rewrite lookup_insert_ne; congruence. Qed.

(** A new key [a] under [k]. *)
Definition linked (k : PKEY) (p : CM_KEY_NODE) (a : Z) (seg : list Z) s : CM_STATE P :=
  with_key k (mkKey (KName p) (Parent p) (Children p ++ [a]) (Values p) (u32 (SubKeyCount p + 1)) (ValueCount p))
    (with_key (PoolKey a) (mkKey seg (Some k) [] [] 0 0) s).

Lemma name_eq_refl l : name_eq l l = true.
Proof. unfold name_eq. by apply ueq_fold. Qed.

Lemma first_idx_snoc {A} (p q : A → bool) (l : list A) x :
  first_idx p l = None → (∀ y, y ∈ l → q y = p y) → q x = true → first_idx q (l ++ [x]) = Some (length l).
Proof.
  induction l as [|y l IH]; intros Hn Hq Hx; simpl in *; [by rewrite Hx|].
  rewrite (Hq y) by (by left). destruct (p y); [done|]. apply fmap_None in Hn.
  rewrite IH; [done|done| |done]. intros z Hz. apply Hq. by right.
Qed.

Lemma linked_ext k p a seg s :
  key_of s k = Some p → CmNodes s !! a = None → cm_ext s (linked k p a seg s).
Proof.
  intros Hk Ha. unfold linked. constructor; [| |by destruct k].
  - intros k' n Hk'. assert (k' ≠ PoolKey a) by (intros ->; simpl in *; congruence).
    destruct (decide (k' = k)) as [->|Hne].
    + simplify_eq. eexists _, [a]. split; [apply key_of_with_eq; eexists; by rewrite key_of_with_ne|]. done.
    + exists n, []. rewrite !key_of_with_ne by done. by rewrite app_nil_r.
  - intros k' n Hn Hk'. assert (k' ≠ k) by congruence. rewrite key_of_with_ne in Hk' by done.
    destruct (decide (k' = PoolKey a)) as [->|]; [|rewrite key_of_with_ne in Hk' by done; congruence].
    simpl in Hk'. rewrite lookup_insert_eq in Hk'. by simplify_eq.
Qed.

Lemma linked_inv k p a seg s m :
  cm_inv s m → key_of s k = Some p → CmNodes s !! a = None → m !! a = Some TAG_KEY →
  cm_inv (linked k p a seg s) m.
Proof.
  intros Hi Hk Ha Hm. pose proof Hi as [H1 H2 H3 H4].
  assert (Hka : k ≠ PoolKey a) by (intros ->; simpl in *; congruence).
  assert (Hnodes : ∀ b, is_Some (CmNodes s !! b) ∨ b = a → is_Some (CmNodes (linked k p a seg s) !! b)).
  { intros b Hb. unfold linked. destruct k as [|c]; simpl.
    - destruct (decide (b = a)) as [->|]; [rewrite lookup_insert_eq; eauto|]. rewrite lookup_insert_ne by done.
      by destruct Hb.
    - destruct (decide (b = c)) as [->|]; [rewrite lookup_insert_eq; eauto|]. rewrite lookup_insert_ne by done.
      destruct (decide (b = a)) as [->|]; [rewrite lookup_insert_eq; eauto|]. rewrite lookup_insert_ne by done.
      by destruct Hb. }
  constructor.
  - by destruct k.
  - by destruct k.
  - intros b n. unfold linked. destruct k as [|c]; simpl.
    + destruct (decide (b = a)) as [->|]; [done|]. rewrite lookup_insert_ne by done. eauto.
    + destruct (decide (b = c)) as [->|]; [intros _; by eapply H3|]. rewrite lookup_insert_ne by done.
      destruct (decide (b = a)) as [->|]; [done|]. rewrite lookup_insert_ne by done. eauto.
  - intros k' n c Hk' Hc. apply Hnodes. destruct (decide (k' = k)) as [->|Hne].
    + unfold linked in Hk'. rewrite key_of_with_eq in Hk' by (exists p; by rewrite key_of_with_ne). simplify_eq/=.
      apply elem_of_app in Hc as [Hc|Hc]; [left; eauto|apply list_elem_of_singleton in Hc as ->; by right].
    + unfold linked in Hk'. rewrite key_of_with_ne in Hk' by done.
      destruct (decide (k' = PoolKey a)) as [->|Hne'].
      * simpl in Hk'. rewrite lookup_insert_eq in Hk'. simplify_eq/=. by apply not_elem_of_nil in Hc.
      * rewrite key_of_with_ne in Hk' by done. left. eauto.
Qed.

Lemma linked_child k p a seg s m :
  cm_inv s m → key_of s k = Some p → CmNodes s !! a = None → find_pure s (Children p) seg = None →
  cm_child (linked k p a seg s) k seg = Some (PoolKey a).
Proof.
  intros Hi Hk Ha Hn. pose proof (linked_ext k p a seg s Hk Ha) as He.
  assert (Hka : k ≠ PoolKey a) by (intros ->; simpl in *; congruence).
  unfold cm_child. unfold linked at 1. rewrite key_of_with_eq by (exists p; by rewrite key_of_with_ne).
  cbn [Children]. unfold find_pure in *. destruct (first_idx (named s seg) (Children p)) as [i|] eqn:Hf.
  { destruct (lookup_lt_is_Some_2 (Children p) i (first_idx_lt _ _ _ Hf)) as [? Hx]. by rewrite Hx in Hn. }
  rewrite (first_idx_snoc (named s seg)); [| done| |].
  - rewrite lookup_app_r, Nat.sub_diag by lia. done.
  - intros y Hy. by apply (named_ext s _ m k p).
  - unfold named. assert (CmNodes (linked k p a seg s) !! a = Some (mkKey seg (Some k) [] [] 0 0)) as ->.
    { change (key_of (linked k p a seg s) (PoolKey a) = Some (mkKey seg (Some k) [] [] 0 0)).
      unfold linked. rewrite key_of_with_ne by done. simpl. apply lookup_insert_eq. }
    apply name_eq_refl.
Qed.

Lemma set_pool_ext s p : cm_ext s (set_cm_pool p s).
Proof.
  constructor; [| |done]; intros k n Hk.
  - exists n, []. rewrite app_nil_r. by destruct k.
  - destruct k; simpl in *; congruence.
Qed.

Lemma find_or_create_run s m k p seg :
  cm_inv s m → key_of s k = Some p → Z.of_nat (length seg) ≤ 32767 →
  ∃ r s' m', find_or_create k seg s = Ok (r, s') ∧ cm_inv s' m' ∧ cm_ext s s' ∧
    pcr s' = pcr s ∧ CmLock_ s' = CmLock_ s ∧
    match r with
    | None => cm_child s k seg = None
    | Some k' => cm_child s' k seg = Some k' ∧ is_Some (key_of s' k') ∧ (cm_child s k seg ≠ None → s' = s)
    end.
Proof.
  intros Hi Hk Hlen. unfold find_or_create. rewrite (bind_ok _ _ _ _ _ (find_child_run s m k p seg Hi Hk)).
  assert (Hch : cm_child s k seg = PoolKey <$> find_pure s (Children p) seg) by (unfold cm_child; by rewrite Hk).
  rewrite Hch. destruct (find_pure s (Children p) seg) as [a|] eqn:Hf.
  { exists (Some (PoolKey a)), s, m. split_and!; try done. unfold find_pure in Hf.
    destruct (first_idx _ _) as [i|]; [|done]. apply (ci_child _ _ Hi k p a Hk). by eapply list_elem_of_lookup_2. }
  destruct (allocate_run s m seg Hi Hlen) as ([a|] & pp & m' & Hi' & Hpc & Hal).
  - destruct Hal as (Ha & Hma & Hr). assert (Hka : k ≠ PoolKey a) by (intros ->; simpl in *; congruence).
    set (s1 := set_cm_pool pp s) in *.
    assert (Hk1 : key_of s1 k = Some p) by (by destruct k).
    assert (Ha1 : CmNodes s1 !! a = None) by done.
    exists (Some (PoolKey a)), (linked k p a seg s1), m'. split_and!.
    + rewrite (bind_ok _ _ _ _ _ Hr). unfold get_key.
      erewrite deref_bind; [|apply lookup_insert_eq]. erewrite bind_ok; [|reflexivity]. cbn [KName Children Values SubKeyCount ValueCount].
      erewrite deref_bind; [|rewrite !key_of_with_ne by done; exact Hk1]. erewrite bind_ok; [|reflexivity].
      unfold linked. simpl with_key at 2 4. unfold set_keys at 2 3. simpl. rewrite insert_insert_eq. done.
    + by apply linked_inv.
    + transitivity s1; [apply set_pool_ext|by apply linked_ext].
    + destruct k; exact Hpc.
    + by destruct k.
    + apply (linked_child k p a seg s1 m'); done.
    + unfold linked. destruct k as [|c]; simpl; [rewrite lookup_insert_eq; eauto|].
      rewrite lookup_insert_ne, lookup_insert_eq by congruence. eauto.
    + done.
  - exists None, (set_cm_pool pp s), m'. split_and!; [|done|apply set_pool_ext|done|done|done].
    by rewrite (bind_ok _ _ _ _ _ Hal).
Qed.

Lemma segment_length remaining : (length (segment remaining) ≤ length remaining)%nat.
Proof. unfold segment. case_match; [done|]. rewrite length_take. lia. Qed.

Lemma create_walk_step fuel remaining k s :
  remaining ≠ [] → create_walk (S fuel) remaining k s =
    (node ← find_or_create k (segment remaining);
     match node with
     | None => mret None
     | Some k =>
         if (seg_end remaining <? length remaining)%nat
         then create_walk fuel (drop (seg_end remaining + 1) remaining) k
         else mret (Some k)
     end) s.
Proof. by destruct remaining. Qed.
Lemma segments_step fuel remaining :
  remaining ≠ [] → segments (S fuel) remaining = segment remaining ::
    if (seg_end remaining <? length remaining)%nat
    then segments fuel (drop (seg_end remaining + 1) remaining) else [].
Proof. by destruct remaining. Qed.

Lemma create_walk_run fuel : ∀ remaining k s m,
  (length remaining ≤ fuel)%nat → Z.of_nat (length remaining) ≤ 32767 → cm_inv s m → is_Some (key_of s k) →
  ∃ r s' m', create_walk fuel remaining k s = Ok (r, s') ∧ cm_inv s' m' ∧ cm_ext s s' ∧
    pcr s' = pcr s ∧ CmLock_ s' = CmLock_ s ∧
    match r with
    | None => cm_path s k (segments fuel remaining) = None
    | Some k' => cm_path s' k (segments fuel remaining) = Some k' ∧ is_Some (key_of s' k') ∧
                 (cm_path s k (segments fuel remaining) ≠ None → s' = s)
    end.
Proof.
  induction fuel as [|fuel IH]; intros remaining k s m Hf Hlen Hi [p Hk].
  { destruct remaining; [|simpl in *; lia]. exists (Some k), s, m. by split_and!. }
  destruct (decide (remaining = [])) as [->|Hne]; [exists (Some k), s, m; by split_and!|].
  rewrite create_walk_step, segments_step by done. pose proof (segment_length remaining).
  destruct (find_or_create_run s m k p (segment remaining) Hi Hk ltac:(lia))
    as (r & s1 & m1 & Hr & Hi1 & He1 & Hp1 & Hl1 & Hcase).
  rewrite (bind_ok _ _ _ _ _ Hr). cbn [cm_path]. destruct r as [k1|].
  2: { exists None, s1, m1. split_and!; try done. by rewrite Hcase. }
  destruct Hcase as (Hc1 & Hk1 & Hsame).
  destruct (Nat.ltb_spec (seg_end remaining) (length remaining)) as [Hlt|Hge].
  - destruct (IH (drop (seg_end remaining + 1) remaining) k1 s1 m1)
      as (r & s2 & m2 & Hr2 & Hi2 & He2 & Hp2 & Hl2 & Hcase2);
      [rewrite length_drop; lia|rewrite length_drop; lia|done|done|].
    exists r, s2, m2. split_and!; [exact Hr2|done|by transitivity s1|congruence|congruence|].
    destruct r as [k2|].
    + destruct Hcase2 as (Hpath & Hk2 & Hsame2). split_and!; [|done|].
      * by rewrite (cm_child_ext s1 s2 m1 k _ k1).
      * destruct (cm_child s k (segment remaining)) as [k0|] eqn:Hc0; [|intros []; reflexivity].
        specialize (Hsame ltac:(discriminate)). subst s1. simplify_eq. intros Hn. by apply Hsame2.
    + destruct (cm_child s k (segment remaining)) as [k0|] eqn:Hc0; [|reflexivity].
      specialize (Hsame ltac:(discriminate)). subst s1. by simplify_eq.
  - exists (Some k1), s1, m1. split_and!; try done; [by rewrite Hc1|].
    intros Hn. apply Hsame. intros Hc0. rewrite Hc0 in Hn. by apply Hn.
Qed.

(** ** Sections that end at PASSIVE_LEVEL *)

(** The state after a section that was left with [KeReleaseSpinLock(&CmLock, 0)]. *)
Definition passive s : CM_STATE P := set_pcr (mkKPCR PASSIVE_LEVEL true) (set_CmLock 0 s).

Lemma cm_release {A} s (k : M (CM_STATE P) A) :
  pcr s = locked_pcr → CmLock_ s = 1 → (KeReleaseSpinLock CmLock 0;; k) s = k (passive s).
Proof.
  intros Hp Hl. erewrite bind_ok; [|apply release_ok; [rewrite Hp; done|exact Hl]]. done.
Qed.

Lemma passive_inv s m : cm_inv s m → cm_inv (passive s) m.
Proof.
  intros [H1 H2 H3 H4]. constructor; simpl; [by apply pool_rep_pcr|rewrite pcr_set; exact demo_can_lock|done|].
  intros k n c Hk. apply (H4 k n c). by destruct k.
Qed.
Lemma locked_inv s m : cm_inv s m → cm_inv (locked CmLock s) m.
Proof.
  intros [H1 H2 H3 H4]. constructor; simpl; [by apply pool_rep_pcr|rewrite pcr_set; exact locked_can_lock|done|].
  intros k n c Hk. apply (H4 k n c). by destruct k.
Qed.

(** The tree of keys, whatever the lock, the processor and the pool. *)
Definition same_tree s s' : Prop :=
  CmRootKey s' = CmRootKey s ∧ CmNodes s' = CmNodes s ∧ Buffers s' = Buffers s.
Lemma same_tree_key s s' k : same_tree s s' → key_of s' k = key_of s k.
Proof. intros (H1 & H2 & _). destruct k; simpl; congruence. Qed.
Lemma same_tree_path s s' segs : same_tree s s' → ∀ k, cm_path s' k segs = cm_path s k segs.
Proof.
  intros Ht. induction segs as [|x l IH]; intros k; [done|]. cbn [cm_path].
  assert (cm_child s' k x = cm_child s k x) as ->.
  { unfold cm_child, find_pure, named. rewrite (same_tree_key s s' k Ht). by destruct Ht as (_ & -> & _). }
  destruct (cm_child s k x); [apply IH|done].
Qed.
Lemma same_tree_ext s1 s2 s1' s2' : same_tree s1 s1' → same_tree s2 s2' → cm_ext s1 s2 → cm_ext s1' s2'.
Proof.
  intros H1 H2 [A B C]. constructor.
  - intros k n. rewrite (same_tree_key _ _ k H1), (same_tree_key _ _ k H2). apply A.
  - intros k n. rewrite (same_tree_key _ _ k H1), (same_tree_key _ _ k H2). apply B.
  - destruct H1 as (_ & _ & ->), H2 as (_ & _ & ->). exact C.
Qed.

Lemma skip_leading_length path : (length (skip_leading path) ≤ length path)%nat.
Proof. destruct path as [|c l]; [done|]. simpl. case_match; simpl; lia. Qed.

(** [C8] CmCreateKey.  For a path of at most 32767 characters it returns, with
    the key the path leads to in the new tree.  Every key that existed keeps
    its name, its values and its children in their order, so every path that
    led somewhere leads to the same key; keys it added have no values.  A path
    that already existed gives the existing key and changes nothing.  Only a
    path that did not exist can end in STATUS_NO_MEMORY.  The lock is free
    afterwards and the processor at PASSIVE_LEVEL, whatever level the caller
    was at. *)
Theorem CmCreateKey_spec s m path :
  cm_inv s m → CmLock_ s = 0 → Z.of_nat (length path) ≤ 32767 →
  ∃ st r s' m', CmCreateKey path s = Ok ((st, r), s') ∧ cm_inv s' m' ∧ CmLock_ s' = 0 ∧
    pcr s' = mkKPCR PASSIVE_LEVEL true ∧ cm_ext s s' ∧
    (∀ k segs k', cm_path s k segs = Some k' → cm_path s' k segs = Some k') ∧
    match r with
    | None => st = STATUS_NO_MEMORY ∧ cm_path s RootKey (path_segments path) = None
    | Some k => st = STATUS_SUCCESS ∧ cm_path s' RootKey (path_segments path) = Some k ∧ is_Some (key_of s' k) ∧
        (cm_path s RootKey (path_segments path) ≠ None → same_tree s s')
    end.
Proof.
  intros Hi Hl Hlen. unfold CmCreateKey. rewrite acquire_bind by (done || apply Hi).
  pose proof (skip_leading_length path).
  destruct (create_walk_run (length path) (skip_leading path) RootKey (locked CmLock s) m)
    as (r & s1 & m1 & Hr & Hi1 & He1 & Hp1 & Hl1 & Hcase); [lia|lia|by apply locked_inv|by eexists|].
  rewrite (bind_ok _ _ _ _ _ Hr).
  assert (Hp : pcr s1 = locked_pcr) by (rewrite Hp1; simpl; apply pcr_set).
  rewrite cm_release by (try exact Hp; exact Hl1).
  assert (Hext : cm_ext s (passive s1)) by (by apply (same_tree_ext (locked CmLock s) s1)).
  fold (path_segments path) in Hcase.
  rewrite (same_tree_path s (locked CmLock s)) in Hcase by done.
  destruct r as [k|]; eexists _, _, (passive s1), m1; (split; [reflexivity|]);
    (split; [by apply passive_inv|]); (split; [done|]); (split; [simpl; apply pcr_set|]); (split; [done|]);
    (split; [intros k0 segs k' Hk0; by apply (cm_path_ext s _ m)|]).
  - destruct Hcase as (Hpath & Hk & Hsame). split; [done|]. rewrite (same_tree_path s1 (passive s1)) by done.
    split_and!; [done|by rewrite (same_tree_key s1)|]. intros Hn. by rewrite (Hsame Hn).
  - done.
Qed.

(** ** Values *)

(** The first value of a list whose name, read now, equals [Name]. *)
Definition vmatch s (Name : list Z) (v : CM_KEY_VALUE) : bool :=
  match vname s v with Some n => name_eq n Name | None => false end.
Definition first_value s (l : list CM_KEY_VALUE) (Name : list Z) : option CM_KEY_VALUE :=
  match first_idx (vmatch s Name) l with Some i => l !! i | None => None end.

Lemma find_value_run s l Name :
  (∀ v, v ∈ l → is_Some (vname s v)) → find_value l Name s = Ok (first_value s l Name, s).
Proof.
  induction l as [|v l IH]; intros Hl; [done|]. cbn [find_value]. destruct (Hl v) as [n Hn]; [by left|].
  erewrite deref_bind by exact Hn. unfold first_value. cbn [first_idx].
  assert (vmatch s Name v = name_eq n Name) as -> by (unfold vmatch; by rewrite Hn).
  destruct (name_eq n Name); [done|]. rewrite IH by (intros; apply Hl; by right).
  unfold first_value. by destruct (first_idx (vmatch s Name) l).
Qed.

Definition query_answer (v : option CM_KEY_VALUE) (n : Z) : Z * option (Z * Z * option (list Z)) :=
  match v with
  | Some v => (STATUS_SUCCESS, Some (DataType v, DataLength v, fit v n))
  | None => (STATUS_OBJECT_NAME_NOT_FOUND, None)
  end.

Lemma passive_locked s : CmLock_ s = 0 → passive (locked CmLock s) = passive s.
Proof. intros Hl. unfold passive, locked. simpl. unfold set_CmLock, set_cm_pool. simpl. by rewrite set_pcr_set. Qed.

Lemma query_run s m k n Name len :
  cm_inv s m → CmLock_ s = 0 → key_of s k = Some n → (∀ v, v ∈ Values n → is_Some (vname s v)) →
  CmQueryValue (Some k) Name len s = Ok (query_answer (first_value s (Values n) Name) len, passive s).
Proof.
  intros Hi Hl Hk Hv. unfold CmQueryValue. rewrite acquire_bind by (done || apply Hi). unfold get_key.
  erewrite deref_bind; [|rewrite (same_tree_key s) by done; exact Hk].
  erewrite bind_ok; [|apply find_value_run; exact Hv].
  rewrite cm_release by (try (simpl; apply pcr_set); done). rewrite passive_locked by done.
  change (first_value (locked CmLock s) (Values n) Name) with (first_value s (Values n) Name).
  by destruct (first_value s (Values n) Name).
Qed.

Definition add_value (n : CM_KEY_NODE) (v : CM_KEY_VALUE) : CM_KEY_NODE :=
  mkKey (KName n) (Parent n) (Children n) (Values n ++ [v]) (SubKeyCount n) (u32 (ValueCount n + 1)).

Lemma with_key_inv s m k n n' :
  cm_inv s m → key_of s k = Some n → Children n' = Children n → cm_inv (with_key k n' s) m.
Proof.
  intros [H1 H2 H3 H4] Hk Hc. constructor; [by destruct k|by destruct k| |].
  - intros a x. destruct k as [|b]; simpl; [eauto|]. destruct (decide (a = b)) as [->|]; [intros _; by eapply H3|].
    rewrite lookup_insert_ne by done. eauto.
  - intros k' x c Hk' Hin. assert (Hs : is_Some (CmNodes s !! c)).
    { destruct (decide (k' = k)) as [->|]; [|rewrite key_of_with_ne in Hk' by done; eauto].
      rewrite key_of_with_eq in Hk' by eauto. simplify_eq. rewrite Hc in Hin. eauto. }
    destruct k as [|b]; simpl; [done|]. destruct (decide (c = b)) as [->|]; [rewrite lookup_insert_eq; eauto|].
    by rewrite lookup_insert_ne.
Qed.

Lemma set_value_run s m k n len buf ty data :
  cm_inv s m → CmLock_ s = 0 → key_of s k = Some n → 0 < Z.of_nat (length data) < 18446744073709551616 →
  ∃ st s' m', CmSetValue (Some k) (Some (len, buf)) ty data s = Ok (st, s') ∧ cm_inv s' m' ∧ CmLock_ s' = 0 ∧
    Buffers s' = Buffers s ∧ (∀ b t, m !! b = Some t → m' !! b = Some t) ∧
    ((st = STATUS_NO_MEMORY ∧ same_tree s s') ∨
     (st = STATUS_SUCCESS ∧ same_tree (with_key k (add_value n (mkValue len buf ty (Z.of_nat (length data)) data)) s) s' ∧
      pcr s' = mkKPCR PASSIVE_LEVEL true)).
Proof.
  intros Hi Hl Hk Hd. pose proof Hi as [Hp Hc _ _]. unfold CmSetValue.
  destruct (pool_alloc_law (cm_pool s) m 0 (Z.of_nat (length data)) TAG_NAME Hp Hc Hd) as (a & p1 & Hr1 & Hpc1 & Hcase1).
  destruct Hcase1 as [[-> Hp1]|(Ha & Hna & Hp1)].
  { eexists _, _, m. split; [erewrite bind_ok; [|apply zoom_ok, Hr1]; reflexivity|].
    split_and!; [by apply (cm_inv_pool s m)|done|done|done|by left]. }
  assert (Hle1 : ∀ b t, m !! b = Some t → <[a := TAG_NAME]> m !! b = Some t)
    by (intros b t Hb; rewrite lookup_insert_ne; [done|]; intros ->; congruence).
  destruct (pool_alloc_law p1 (<[a := TAG_NAME]> m) 0 sizeof_CM_KEY_VALUE TAG_KEY Hp1)
    as (b & p2 & Hr2 & Hpc2 & Hcase2); [by rewrite Hpc1|unfold sizeof_CM_KEY_VALUE; lia|].
  erewrite bind_ok; [|apply zoom_ok, Hr1]. replace (a =? 0) with false by lia.
  erewrite bind_ok; [|apply zoom_ok, Hr2].
  destruct Hcase2 as [[-> Hp2]|(Hb & Hnb & Hp2)].
  - destruct (pool_free_law p2 (<[a := TAG_NAME]> m) a TAG_NAME TAG_NAME Hp2) as (p3 & Hr3 & Hpc3 & Hp3);
      [by rewrite Hpc2, Hpc1|apply lookup_insert_eq|by right|].
    rewrite delete_insert_id in Hp3 by done. cbn [Z.eqb].
    eexists _, _, m. split; [erewrite bind_ok; [|apply zoom_ok, Hr3]; reflexivity|].
    split_and!; [apply (cm_inv_pool s m); [done|done|congruence|done]|done|done|done|by left].
  - replace (b =? 0) with false by lia. set (s2 := set_cm_pool p2 s).
    set (m2 := <[b := TAG_KEY]> (<[a := TAG_NAME]> m)).
    assert (Hle2 : ∀ c t, m !! c = Some t → m2 !! c = Some t).
    { intros c t Hct%Hle1. unfold m2. rewrite lookup_insert_ne; [done|]. intros ->. congruence. }
    assert (Hi2 : cm_inv s2 m2) by (apply (cm_inv_pool s m); [done|done|congruence|done]).
    change (set_cm_pool p2 (set_cm_pool p1 s)) with s2.
    rewrite acquire_bind by (done || apply Hi2). unfold get_key.
    erewrite deref_bind; [|rewrite (same_tree_key s) by done; exact Hk]. erewrite bind_ok; [|reflexivity].
    rewrite cm_release by (destruct k; try (simpl; apply pcr_set); done).
    eexists _, _, m2. split; [reflexivity|]. split_and!.
    + apply passive_inv. eapply with_key_inv; [by apply locked_inv|rewrite (same_tree_key s) by done; exact Hk|done].
    + by destruct k.
    + by destruct k.
    + done.
    + right. split_and!; [done|by destruct k|destruct k; simpl; apply pcr_set].
Qed.

(** Registry values.  CmSetValue on an existing key either reports
    STATUS_NO_MEMORY and leaves the tree alone, or adds one value; a query then
    answers with the first value of that name.  So a name that was not there
    reads back its type, its length and, when the caller's buffer is large
    enough, its data; but setting a name again does not replace its value: the
    query still answers with the value that was set first. *)
Theorem cm_set_query s m k n buf name ty data out :
  cm_inv s m → CmLock_ s = 0 → key_of s k = Some n → (∀ v, v ∈ Values n → is_Some (vname s v)) →
  Buffers s !! buf = Some name → 0 < Z.of_nat (length data) < 18446744073709551616 →
  ∃ st s' m', CmSetValue (Some k) (Some (Z.of_nat (length name), buf)) ty data s = Ok (st, s') ∧ cm_inv s' m' ∧
    (st = STATUS_NO_MEMORY ∧ same_tree s s' ∨
     st = STATUS_SUCCESS ∧
     (first_value s (Values n) name = None →
        CmQueryValue (Some k) name out s' =
          Ok ((STATUS_SUCCESS, Some (ty, Z.of_nat (length data),
                 if Z.of_nat (length data) <=? out then Some data else None)), passive s')) ∧
     (∀ old, first_value s (Values n) name = Some old →
        CmQueryValue (Some k) name out s' =
          Ok ((STATUS_SUCCESS, Some (DataType old, DataLength old, fit old out)), passive s'))).
Proof.
  intros Hi Hl Hk Hv Hbuf Hd.
  destruct (set_value_run s m k n (Z.of_nat (length name)) buf ty data Hi Hl Hk Hd)
    as (st & s' & m' & Hr & Hi' & Hl' & Hb' & _ & Hcase).
  exists st, s', m'. split; [done|]. split; [done|]. destruct Hcase as [?|(-> & Ht & _)]; [by left|]. right. split; [done|].
  set (v := mkValue (Z.of_nat (length name)) buf ty (Z.of_nat (length data)) data) in *.
  assert (Hk' : key_of s' k = Some (add_value n v)).
  { rewrite (same_tree_key _ _ k Ht). apply key_of_with_eq. eauto. }
  assert (Hvn : ∀ w, vname s' w = vname s w) by (intros w; unfold vname; by rewrite Hb').
  assert (Hname : vname s v = Some name).
  { unfold vname, v. simpl. rewrite Hbuf. simpl. by rewrite Nat2Z.id, firstn_all. }
  assert (Hall : ∀ w, w ∈ Values (add_value n v) → is_Some (vname s' w)).
  { intros w. simpl. rewrite elem_of_app, list_elem_of_singleton, Hvn. intros [Hw| ->]; [eauto|by rewrite Hname]. }
  assert (Hm : ∀ w, vmatch s' name w = vmatch s name w) by (intros w; unfold vmatch; by rewrite Hvn).
  rewrite (query_run s' m' k _ name out Hi' Hl' Hk' Hall). unfold first_value. simpl Values.
  destruct (first_idx (vmatch s name) (Values n)) as [i|] eqn:Hf.
  - rewrite (first_idx_app_l (vmatch s name) (vmatch s' name) _ [v] i Hf) by (intros; apply Hm).
    rewrite lookup_app_l by (by eapply first_idx_lt).
    destruct (lookup_lt_is_Some_2 (Values n) i (first_idx_lt _ _ _ Hf)) as [w Hw]. rewrite Hw.
    split; [done|]. by intros old [= ->].
  - rewrite (first_idx_snoc (vmatch s name)); [|done|intros; apply Hm|].
    + rewrite lookup_app_r, Nat.sub_diag by lia. split; [done|]. by intros.
    + rewrite Hm. unfold vmatch. rewrite Hname. apply name_eq_refl.
Qed.
End Cm.

(** ** Parsing *)

(** A path: the names with backslashes between them. *)
Fixpoint join (segs : list (list Z)) : list Z :=
  match segs with
  | [] => []
  | [x] => x
  | x :: l => x ++ BACKSLASH :: join l
  end.

Definition plain_name (x : list Z) : Prop := x ≠ [] ∧ BACKSLASH ∉ x.

Lemma no_backslash x : BACKSLASH ∉ x → first_idx (λ c, c =? BACKSLASH) x = None.
Proof.
  intros Hx. apply first_idx_None. intros j y Hy. apply Z.eqb_neq. intros ->.
  by apply Hx, (list_elem_of_lookup_2 _ j).
Qed.

Lemma seg_last x : BACKSLASH ∉ x → seg_end x = length x ∧ segment x = x.
Proof.
  intros Hx. assert (He : seg_end x = length x) by (unfold seg_end; by rewrite no_backslash).
  split; [done|]. unfold segment. by rewrite He, Nat.eqb_refl.
Qed.

Lemma seg_more x l : plain_name x → seg_end (x ++ BACKSLASH :: l) = length x ∧ segment (x ++ BACKSLASH :: l) = x.
Proof.
  intros [Hne Hx]. assert (He : seg_end (x ++ BACKSLASH :: l) = length x).
  { unfold seg_end. replace (x ++ BACKSLASH :: l) with ((x ++ [BACKSLASH]) ++ l) by (by rewrite <- app_assoc).
    rewrite (first_idx_app_l (λ c, c =? BACKSLASH) _ _ l (length x)); [done| |done].
    by apply (first_idx_snoc (λ c, c =? BACKSLASH)); [apply no_backslash| |]. }
  split; [done|]. unfold segment. rewrite He, length_app. cbn [length].
  replace (length x =? length x + S (length l))%nat with false by (symmetry; apply Nat.eqb_neq; lia).
  destruct x as [|c x]; [done|]. cbn [length Nat.eqb orb]. by rewrite (take_app_length (c :: x)).
Qed.

Lemma segments_join segs : ∀ fuel,
  Forall plain_name segs → (length (join segs) ≤ fuel)%nat → segments fuel (join segs) = segs.
Proof.
  induction segs as [|x l IH]; intros fuel Hf Hlen; [by destruct fuel|].
  apply Forall_cons in Hf as [Hx Hf]. pose proof Hx as [Hne Hnb].
  destruct l as [|y l].
  - cbn [join] in *. destruct fuel as [|fuel]; [destruct x; simpl in *; [done|lia]|].
    rewrite segments_step by done. destruct (seg_last x Hnb) as [-> ->]. by rewrite Nat.ltb_irrefl.
  - change (join (x :: y :: l)) with (x ++ BACKSLASH :: join (y :: l)) in *.
    rewrite length_app in Hlen. cbn [length] in Hlen. destruct fuel as [|fuel]; [lia|].
    rewrite segments_step by (by destruct x). destruct (seg_more x (join (y :: l)) Hx) as [-> ->].
    rewrite length_app. cbn [length]. replace (length x <? length x + S (length (join (y :: l))))%nat with true
      by (symmetry; apply Nat.ltb_lt; lia).
    f_equal. replace (drop (length x + 1) (x ++ BACKSLASH :: join (y :: l))) with (join (y :: l)).
    + apply IH; [done|lia].
    + rewrite <- drop_drop. rewrite drop_app_length. done.
Qed.

(** Path parsing inverts path printing: for names that are not empty and
    contain no backslash, the path that joins them with backslashes is parsed
    back into those names, with or without a leading backslash.  (An empty
    name in the middle of a path is not skipped: [A\\B] parses as the names
    [A], [\B] and [B].) *)
Theorem cm_parse_roundtrip segs :
  Forall plain_name segs →
  path_segments (join segs) = segs ∧ path_segments (BACKSLASH :: join segs) = segs ∧
  path_segments [65; BACKSLASH; BACKSLASH; 66] = [[65]; [BACKSLASH; 66]; [66]].
Proof.
  intros Hf. unfold path_segments. split_and!.
  - replace (skip_leading (join segs)) with (join segs); [by apply segments_join|].
    destruct segs as [|x l]; [done|]. apply Forall_cons in Hf as [[Hne Hnb] _].
    destruct x as [|c x]; [done|]. assert (c ≠ BACKSLASH) by (intros ->; apply Hnb; by left).
    assert (∃ t, join ((c :: x) :: l) = c :: t) as [t ->] by (destruct l; eexists; reflexivity).
    simpl. by replace (c =? BACKSLASH) with false by (symmetry; by apply Z.eqb_neq).
  - simpl skip_leading. apply segments_join; [done|]. simpl. lia.
  - reflexivity.
Qed.

Lemma cm_parse_roundtrip_witness : path_segments [BACKSLASH; 65; BACKSLASH; 66; 67] = [[65]; [66; 67]].
Proof.
  apply (cm_parse_roundtrip [[65]; [66; 67]]). repeat constructor; try done;
    rewrite ?elem_of_cons; intros [H|H]; try discriminate; try by apply not_elem_of_nil in H.
  destruct H as [H|H]; [discriminate|by apply not_elem_of_nil in H].
Defined.

(** ** A concrete registry: an empty root, one buffer, 40 free pages *)
Definition demo_cm : CM_STATE POOL_STATE :=
  mkCm (mkKey [BACKSLASH] None [] [] 0 0) ∅ {[ 0x5000 := [65; 66] ]} 0 demo_pool.

Lemma demo_cm_inv : cm_inv demo_cm ∅.
Proof.
  constructor; simpl.
  - exact demo_pool_rep.
  - exact demo_can_lock.
  - intros a n Hn. by rewrite lookup_empty in Hn.
  - intros [|a] n c Hk Hc; simpl in Hk.
    + simplify_eq/=. by apply not_elem_of_nil in Hc.
    + by rewrite lookup_empty in Hk.
Qed.

Lemma CmCreateKey_spec_witness :
  ∃ k s', CmCreateKey [65; BACKSLASH; 66] demo_cm = Ok ((STATUS_SUCCESS, Some k), s') ∧
    cm_path s' RootKey [[65]; [66]] = Some k.
Proof.
  destruct (CmCreateKey_spec demo_cm ∅ [65; BACKSLASH; 66] demo_cm_inv eq_refl ltac:(simpl; lia))
    as (st & r & s' & m' & Hr & _ & _ & _ & _ & _ & Hcase).
  assert (Hb : match CmCreateKey [65; BACKSLASH; 66] demo_cm with Ok ((st, _), _) => st = STATUS_SUCCESS | _ => False end)
    by (vm_compute; reflexivity).
  rewrite Hr in Hb. subst st. destruct r as [k|]; [|destruct Hcase as [Hbad _]; discriminate Hbad].
  destruct Hcase as (_ & Hp & _). exists k, s'. split; [exact Hr|exact Hp].
Defined.

Lemma cm_set_query_witness :
  ∃ s', CmSetValue (Some RootKey) (Some (2, 0x5000)) 4 [1; 0; 0; 0] demo_cm = Ok (STATUS_SUCCESS, s') ∧
    CmQueryValue (Some RootKey) [65; 66] 16 s' =
      Ok ((STATUS_SUCCESS, Some (4, 4, Some [1; 0; 0; 0])), passive s').
Proof.
  destruct (cm_set_query demo_cm ∅ RootKey (mkKey [BACKSLASH] None [] [] 0 0) 0x5000 [65; 66] 4 [1; 0; 0; 0] 16
    demo_cm_inv eq_refl eq_refl) as (st & s' & m' & Hr & _ & Hcase).
  - simpl. intros v Hv. by apply not_elem_of_nil in Hv.
  - reflexivity.
  - simpl. lia.
  - assert (Hb : match CmSetValue (Some RootKey) (Some (2, 0x5000)) 4 [1; 0; 0; 0] demo_cm with
      Ok (st, _) => st = STATUS_SUCCESS | _ => False end) by (vm_compute; reflexivity).
    change (Z.of_nat (length [65; 66])) with 2 in Hr. rewrite Hr in Hb. subst st.
    destruct Hcase as [[Hbad _]|(_ & Hq & _)]; [discriminate Hbad|].
    exists s'. split; [exact Hr|]. by apply Hq.
Defined.

(** The caller's buffer is the value's name: once the caller reuses it, the
    value is found under the new content and no longer under its own name. *)
Example cm_value_name_aliased :
  match (CmSetValue (Some RootKey) (Some (2, 0x5000)) 4 [1; 0; 0; 0];;
         mmod (set_Buffers {[ 0x5000 := [88; 89] ]});;
         a ← CmQueryValue (Some RootKey) [65; 66] 16;
         b ← CmQueryValue (Some RootKey) [88; 89] 16;
         mret (a.1, b.1)) demo_cm with
  | Ok (r, _) => r = (STATUS_OBJECT_NAME_NOT_FOUND, STATUS_SUCCESS)
  | _ => False
  end.
Proof. vm_compute. reflexivity. Qed.
