(* ===== verification/Cache.v ===== *)
(** * Cache: the sector cache (src/mm/cache.c)

    The table of cached sectors, the hash chains and the list in order of use.
    Entries are table indices; a hash chain (hash_next) and the LRU list
    (lru_next, lru_prev) are lists of indices, front first.  The device read is
    the callback the caller passes, a function from a sector number to a status
    and the sector read. *)

From S2P Require Import Prelude Irql.

#[local] Open Scope Z_scope.

Record CC_ENTRY := mkEntry { lba : Z; data : list Z; access_count : Z; dirty : bool }.

Record CC_STATE := mkCc {
  cc_pcr : KPCR;
  g_CcLock : Z;
  g_CcEntries : list CC_ENTRY;
  g_CcHash : list (list nat);
  g_CcLru : list nat;
  g_CcInit : bool;
  g_CcHits : Z;
  g_CcMisses : Z;
  g_CcEvictions : Z
}.

Definition set_cc_pcr (k : KPCR) (s : CC_STATE) : CC_STATE :=
  mkCc k (g_CcLock s) (g_CcEntries s) (g_CcHash s) (g_CcLru s) (g_CcInit s) (g_CcHits s) (g_CcMisses s) (g_CcEvictions s).
Definition set_g_CcLock (v : Z) (s : CC_STATE) : CC_STATE :=
  mkCc (cc_pcr s) v (g_CcEntries s) (g_CcHash s) (g_CcLru s) (g_CcInit s) (g_CcHits s) (g_CcMisses s) (g_CcEvictions s).
(** The table, the chains and the list. *)
Definition set_cc (e : list CC_ENTRY) (h : list (list nat)) (l : list nat) (s : CC_STATE) : CC_STATE :=
  mkCc (cc_pcr s) (g_CcLock s) e h l (g_CcInit s) (g_CcHits s) (g_CcMisses s) (g_CcEvictions s).
Definition set_stats (h m e : Z) (s : CC_STATE) : CC_STATE :=
  mkCc (cc_pcr s) (g_CcLock s) (g_CcEntries s) (g_CcHash s) (g_CcLru s) (g_CcInit s) h m e.

#[global] Instance CC_HasPcr : HasPcr CC_STATE.
Proof. refine {| pcr := cc_pcr; set_pcr := set_cc_pcr |}; [done..|by intros []]. Defined.
Definition CcLock : SpinLock CC_STATE.
Proof. refine (mkSpinLock g_CcLock set_g_CcLock _ _ _ _ _ _); [done..|by intros []|done]. Defined.

Definition CC_HASH_SIZE : nat := 1024.
Definition CC_MAX_ENTRIES : nat := 2048.
Definition zero_entry : CC_ENTRY := mkEntry 0 [] 0 false.

Definition CcHashIndex (l : Z) : nat := Z.to_nat (Z.land (u64 (l * 2654435761)) 1023).

Definition CcLruInsertFront (i : nat) (s : CC_STATE) : CC_STATE :=
  set_cc (g_CcEntries s) (g_CcHash s) (i :: g_CcLru s) s.
Definition CcLruRemove (i : nat) (s : CC_STATE) : CC_STATE :=
  set_cc (g_CcEntries s) (g_CcHash s) (filter (λ j, j ≠ i) (g_CcLru s)) s.
Definition CcLruMoveFront (i : nat) (s : CC_STATE) : CC_STATE := CcLruInsertFront i (CcLruRemove i s).

Definition lba_of (s : CC_STATE) (i : nat) : Z :=
  match g_CcEntries s !! i with Some e => lba e | None => 0 end.
Definition chain (s : CC_STATE) (k : nat) : list nat :=
  match g_CcHash s !! k with Some c => c | None => [] end.

(** The walk of the chain. *)
Definition CcHashFind (l : Z) (s : CC_STATE) : option nat :=
  let c := chain s (CcHashIndex l) in
  match first_idx (λ i, lba_of s i =? l) c with Some k => c !! k | None => None end.
Definition CcHashInsert (i : nat) (s : CC_STATE) : CC_STATE :=
  let k := CcHashIndex (lba_of s i) in
  set_cc (g_CcEntries s) (<[k := i :: chain s k]> (g_CcHash s)) (g_CcLru s) s.
Definition CcHashRemove (i : nat) (s : CC_STATE) : CC_STATE :=
  let k := CcHashIndex (lba_of s i) in
  set_cc (g_CcEntries s) (<[k := filter (λ j, j ≠ i) (chain s k)]> (g_CcHash s)) (g_CcLru s) s.

Definition CcInitSystem : M CC_STATE unit :=
  mmod (set_cc (replicate CC_MAX_ENTRIES zero_entry) (replicate CC_HASH_SIZE []) []);;
  KeInitializeSpinLock CcLock;;
  mmod (λ s, mkCc (cc_pcr s) (g_CcLock s) (g_CcEntries s) (g_CcHash s) (g_CcLru s) true 0 0 0).

(** A free slot has sector 0 and was never used. *)
Definition is_free (e : CC_ENTRY) : bool := (lba e =? 0) && (access_count e =? 0).

(** The victim: the first free slot, or the least recently used entry, taken
    off its lists. *)
Definition take_victim (s : CC_STATE) : option nat * CC_STATE :=
  match first_idx is_free (g_CcEntries s) with
  | Some i => (Some i, s)
  | None =>
      match last (g_CcLru s) with
      | None => (None, s)
      | Some i =>
          let s := CcHashRemove i (CcLruRemove i s) in
          (Some i, set_stats (g_CcHits s) (g_CcMisses s) (u32 (g_CcEvictions s + 1)) s)
      end
  end.

Definition put_entry (i : nat) (e : CC_ENTRY) (s : CC_STATE) : CC_STATE :=
  set_cc (<[i := e]> (g_CcEntries s)) (g_CcHash s) (g_CcLru s) s.

Section Cache.
Context (underlying_read : Z → Z * list Z).

(** The buffer is filled when the read succeeds. *)
Definition device_read (l : Z) : Z * option (list Z) :=
  let '(st, d) := underlying_read l in (st, if NT_SUCCESS st then Some d else None).

(** The part of CcReadSector that follows the choice of a victim. *)
Definition fill (l : Z) (i : nat) (irql : Z) : M CC_STATE (Z * option (list Z)) :=
  e ← mderef (λ s, g_CcEntries s !! i);
  mmod (put_entry i (mkEntry l (data e) 1 false));;
  KeReleaseSpinLock CcLock irql;;
  let '(st, d) := underlying_read l in
  mmod (put_entry i (mkEntry l d 1 false));;
  if negb (NT_SUCCESS st) then
    irql ← KeAcquireSpinLock CcLock;
    mmod (put_entry i (mkEntry 0 d 1 false));;
    KeReleaseSpinLock CcLock irql;;
    mret (st, None)
  else
    irql ← KeAcquireSpinLock CcLock;
    mmod (CcHashInsert i);;
    mmod (CcLruInsertFront i);;
    KeReleaseSpinLock CcLock irql;;
    mret (STATUS_SUCCESS, Some d).

Definition CcReadSector (l : Z) : M CC_STATE (Z * option (list Z)) :=
  init ← mgets g_CcInit;
  if negb init then mret (device_read l)
  else
    irql ← KeAcquireSpinLock CcLock;
    hit ← mgets (CcHashFind l);
    match hit with
    | Some i =>
        mmod (λ s, set_stats (u32 (g_CcHits s + 1)) (g_CcMisses s) (g_CcEvictions s) s);;
        e ← mderef (λ s, g_CcEntries s !! i);
        mmod (CcLruMoveFront i);;
        KeReleaseSpinLock CcLock irql;;
        mret (STATUS_SUCCESS, Some (data e))
    | None =>
        mmod (λ s, set_stats (g_CcHits s) (u32 (g_CcMisses s + 1)) (g_CcEvictions s) s);;
        victim ← (λ s, let '(v, s') := take_victim s in Ok (v, s'));
        match victim with
        | None => KeReleaseSpinLock CcLock irql;; mret (device_read l)
        | Some i => fill l i irql
        end
    end.
End Cache.

Definition CcFlushAll : M CC_STATE unit :=
  init ← mgets g_CcInit;
  if negb init then mret tt
  else
    irql ← KeAcquireSpinLock CcLock;
    mmod (λ s, set_cc ((λ e, mkEntry (lba e) (data e) (access_count e) false) <$> g_CcEntries s)
                 (g_CcHash s) (g_CcLru s) s);;
    KeReleaseSpinLock CcLock irql.

Definition CcInvalidate : M CC_STATE unit :=
  init ← mgets g_CcInit;
  if negb init then mret tt
  else
    irql ← KeAcquireSpinLock CcLock;
    mmod (set_cc (replicate CC_MAX_ENTRIES zero_entry) (replicate CC_HASH_SIZE []) []);;
    KeReleaseSpinLock CcLock irql.

Definition CcGetStats (s : CC_STATE) : Z * Z * Z := (g_CcHits s, g_CcMisses s, g_CcEvictions s).

(** ** Invariant *)

Definition lba_in (es : list CC_ENTRY) (i : nat) : Z := match es !! i with Some e => lba e | None => 0 end.
Definition chain_in (hs : list (list nat)) (k : nat) : list nat := match hs !! k with Some c => c | None => [] end.

Section Invariant.
Context (rd : Z → Z * list Z).

(** Every entry on the LRU list holds what the device holds, each sector at most
    once, and the hash chains list exactly those entries. *)
Record cc_core (es : list CC_ENTRY) (hs : list (list nat)) (lru : list nat) : Prop := {
  co_len : length es = CC_MAX_ENTRIES;
  co_hlen : length hs = CC_HASH_SIZE;
  co_nodup : NoDup lru;
  co_valid i : i ∈ lru → ∃ e, es !! i = Some e ∧ is_free e = false ∧
                 NT_SUCCESS (rd (lba e)).1 = true ∧ data e = (rd (lba e)).2;
  co_chain k i : (k < CC_HASH_SIZE)%nat →
                 (i ∈ chain_in hs k ↔ i ∈ lru ∧ CcHashIndex (lba_in es i) = k);
  co_once i j : i ∈ lru → j ∈ lru → lba_in es i = lba_in es j → i = j
}.

Record cc_inv (s : CC_STATE) : Prop := {
  cv_pcr : can_lock (cc_pcr s);
  cv_lock : g_CcLock s = 0;
  cv_init : g_CcInit s = true;
  cv_core : cc_core (g_CcEntries s) (g_CcHash s) (g_CcLru s)
}.

Lemma hash_lt l : (CcHashIndex l < CC_HASH_SIZE)%nat.
Proof.
  unfold CcHashIndex, CC_HASH_SIZE. change 1023 with (Z.ones 10). rewrite Z.land_ones by lia.
  pose proof (Z.mod_pos_bound (u64 (l * 2654435761)) (2 ^ 10)). change (2 ^ 10) with 1024 in *. lia.
Qed.

Lemma elem_of_fne_nat (l : list nat) a t : a ∈ filter (λ x, x ≠ t) l ↔ a ≠ t ∧ a ∈ l.
Proof. by rewrite list_elem_of_filter. Qed.

Lemma core_front es hs lru i :
  cc_core es hs lru → i ∈ lru → cc_core es hs (i :: filter (λ j, j ≠ i) lru).
Proof.
  intros [H1 H2 H3 H4 H5 H6] Hi.
  assert (Hsame : ∀ j, j ∈ i :: filter (λ j, j ≠ i) lru ↔ j ∈ lru).
  { intros j. rewrite elem_of_cons, elem_of_fne_nat. destruct (decide (j = i)) as [->|]; naive_solver. }
  constructor; try done.
  - constructor; [rewrite elem_of_fne_nat; naive_solver|by apply NoDup_filter].
  - intros j Hj. apply H4. by rewrite <- Hsame.
  - intros k j Hk. rewrite Hsame. by apply H5.
  - intros a b. rewrite !Hsame. apply H6.
Qed.

Lemma core_evict es hs lru i :
  cc_core es hs lru → i ∈ lru →
  let k := CcHashIndex (lba_in es i) in
  cc_core es (<[k := filter (λ j, j ≠ i) (chain_in hs k)]> hs) (filter (λ j, j ≠ i) lru).
Proof.
  intros [H1 H2 H3 H4 H5 H6] Hi k. pose proof (hash_lt (lba_in es i)) as Hk. fold k in Hk. constructor.
  - done.
  - by rewrite length_insert.
  - by apply NoDup_filter.
  - intros j [_ Hj]%elem_of_fne_nat. by apply H4.
  - intros k' j Hk'. rewrite elem_of_fne_nat. unfold chain_in at 1. destruct (decide (k' = k)) as [->|Hne].
    + rewrite list_lookup_insert_eq by lia. rewrite elem_of_fne_nat, H5 by done. tauto.
    + rewrite list_lookup_insert_ne by done. fold (chain_in hs k'). rewrite H5 by done. unfold k in Hne.
      split; [|tauto]. intros [? Hh]. split_and!; try done. intros ->. congruence.
  - intros a b [_ Ha]%elem_of_fne_nat [_ Hb]%elem_of_fne_nat. by apply H6.
Qed.

Lemma lba_in_ne es i j e : j ≠ i → lba_in (<[i := e]> es) j = lba_in es j.
Proof. intros Hne. unfold lba_in. by rewrite list_lookup_insert_ne. Qed.

Lemma cc_core_put es hs lru i e : cc_core es hs lru → i ∉ lru → cc_core (<[i := e]> es) hs lru.
Proof.
  intros [H1 H2 H3 H4 H5 H6] Hi.
  assert (Hl : ∀ j, j ∈ lru → lba_in (<[i := e]> es) j = lba_in es j) by (intros j Hj; apply lba_in_ne; by intros ->).
  constructor; try done.
  - by rewrite length_insert.
  - intros j Hj. rewrite list_lookup_insert_ne by (by intros ->). by apply H4.
  - intros k j Hk. rewrite H5 by done. split; intros [Hj ?]; (split; [done|]); [by rewrite Hl|by rewrite <- Hl].
  - intros a b Ha Hb. rewrite !Hl by done. by apply H6.
Qed.

Lemma core_insert es hs lru i e :
  cc_core es hs lru → i ∉ lru → es !! i = Some e → is_free e = false →
  NT_SUCCESS (rd (lba e)).1 = true → data e = (rd (lba e)).2 → (∀ j, j ∈ lru → lba_in es j ≠ lba e) →
  let k := CcHashIndex (lba_in es i) in cc_core es (<[k := i :: chain_in hs k]> hs) (i :: lru).
Proof.
  intros [H1 H2 H3 H4 H5 H6] Hi He Hf Hst Hd Hnew k. pose proof (hash_lt (lba_in es i)) as Hk. fold k in Hk.
  assert (Hli : lba_in es i = lba e) by (unfold lba_in; by rewrite He). constructor.
  - done.
  - by rewrite length_insert.
  - by constructor.
  - intros j [->|Hj]%elem_of_cons; [eauto|by apply H4].
  - intros k' j Hk'. rewrite elem_of_cons. unfold chain_in at 1. destruct (decide (k' = k)) as [->|Hne].
    + rewrite list_lookup_insert_eq by lia. rewrite elem_of_cons, H5 by done. unfold k. naive_solver.
    + rewrite list_lookup_insert_ne by done. fold (chain_in hs k'). rewrite H5 by done. unfold k in Hne. naive_solver.
  - intros a b [->|Ha]%elem_of_cons [->|Hb]%elem_of_cons Hab; [done| | |by apply H6].
    + rewrite Hli in Hab. by destruct (Hnew b Hb).
    + rewrite Hli in Hab. by destruct (Hnew a Ha).
Qed.

(** The lookup finds an entry with the sector exactly when one is cached. *)
Lemma find_some s l i :
  cc_inv s → CcHashFind l s = Some i → i ∈ g_CcLru s ∧ lba_of s i = l.
Proof.
  intros [_ _ _ Hco]. unfold CcHashFind. destruct (first_idx _ _) as [k|] eqn:Hf; [|done]. intros Hk.
  apply first_idx_Some in Hf as [(x & Hx & Hl) _]. simplify_eq. split; [|lia].
  apply (co_chain _ _ _ Hco (CcHashIndex l)); [apply hash_lt|]. by eapply list_elem_of_lookup_2.
Qed.
Lemma find_none s l i : cc_inv s → CcHashFind l s = None → i ∈ g_CcLru s → lba_of s i ≠ l.
Proof.
  intros [_ _ _ Hco]. unfold CcHashFind. destruct (first_idx _ _) as [k|] eqn:Hf.
  { intros Hn. pose proof (first_idx_lt _ _ _ Hf) as Hlt. apply lookup_lt_is_Some_2 in Hlt as [? Hx].
    by rewrite Hx in Hn. }
  intros _ Hi <-. assert (Hin : i ∈ chain s (CcHashIndex (lba_of s i))).
  { apply (co_chain _ _ _ Hco); [apply hash_lt|]. done. }
  apply list_elem_of_lookup in Hin as [j Hj]. pose proof (proj1 (first_idx_None _ _) Hf j i Hj) as Hx. simpl in Hx. lia.
Qed.

(** Slots the cache can still use. *)
Definition usable (s : CC_STATE) : Z :=
  countb is_free (g_CcEntries s) + Z.of_nat (length (g_CcLru s)).

Definition filled (l : Z) (i : nat) (d : list Z) (s : CC_STATE) : CC_STATE :=
  CcLruInsertFront i (CcHashInsert i (put_entry i (mkEntry l d 1 false) s)).
Definition lost (i : nat) (d : list Z) (s : CC_STATE) : CC_STATE := put_entry i (mkEntry 0 d 1 false) s.

Lemma fill_ok l i s e :
  cc_inv s → g_CcEntries s !! i = Some e →
  fill rd l i (Irql (cc_pcr s)) (locked CcLock s) =
    if NT_SUCCESS (rd l).1 then Ok ((STATUS_SUCCESS, Some (rd l).2), filled l i (rd l).2 s)
    else Ok (((rd l).1, None), lost i (rd l).2 s).
Proof.
  intros [Hc Hl _ Hco] He. unfold fill. erewrite deref_bind by exact He. erewrite bind_ok; [|reflexivity].
  etrans; [apply (release_bind CcLock (put_entry i (mkEntry l (data e) 1 false)) s); done|].
  destruct (rd l) as [st d]. cbn [fst snd].
  erewrite (bind_ok _ _ _ tt (put_entry i (mkEntry l d 1 false) s)).
  2: { unfold put_entry. simpl. by rewrite list_insert_insert_eq. }
  set (s1 := put_entry i (mkEntry l d 1 false) s).
  destruct (NT_SUCCESS st); cbn [negb]; rewrite acquire_bind by done.
  - do 2 (erewrite bind_ok; [|reflexivity]).
    etrans; [apply (release_bind CcLock (λ s, CcLruInsertFront i (CcHashInsert i s)) s1); done|]. done.
  - erewrite bind_ok; [|reflexivity].
    etrans; [apply (release_bind CcLock (put_entry i (mkEntry 0 d 1 false)) s1); done|].
    unfold lost, s1, put_entry. simpl. by rewrite list_insert_insert_eq.
Qed.

(** What filling slot [i] leaves. *)
Lemma filled_inv l i s e :
  cc_inv s → g_CcEntries s !! i = Some e → i ∉ g_CcLru s → NT_SUCCESS (rd l).1 = true →
  (∀ j, j ∈ g_CcLru s → lba_of s j ≠ l) →
  cc_inv (filled l i (rd l).2 s) ∧
  usable (filled l i (rd l).2 s) = usable s + 1 - (if is_free e then 1 else 0).
Proof.
  intros [Hc Hl Hi Hco] He Hni Hst Hnew.
  assert (Hlt : (i < length (g_CcEntries s))%nat) by (by eapply lookup_lt_Some).
  assert (Hnf : is_free (mkEntry l (rd l).2 1 false) = false) by (unfold is_free; simpl; apply andb_false_r).
  split.
  - constructor; try done. cbn [filled CcLruInsertFront CcHashInsert put_entry g_CcEntries g_CcHash g_CcLru set_cc].
    eapply (core_insert _ _ _ i (mkEntry l (rd l).2 1 false)); try done.
    + by apply cc_core_put.
    + by rewrite list_lookup_insert_eq.
    + intros j Hj. rewrite lba_in_ne by (by intros ->). by apply Hnew.
  - unfold usable. cbn [filled CcLruInsertFront CcHashInsert put_entry g_CcEntries g_CcHash g_CcLru set_cc length].
    rewrite (countb_insert _ _ _ e) by done. rewrite Hnf. lia.
Qed.

Lemma lost_inv i d s e :
  cc_inv s → g_CcEntries s !! i = Some e → i ∉ g_CcLru s →
  cc_inv (lost i d s) ∧ usable (lost i d s) = usable s - (if is_free e then 1 else 0).
Proof.
  intros [Hc Hl Hi Hco] He Hni. split.
  - constructor; try done. by apply cc_core_put.
  - unfold usable, lost. cbn [put_entry g_CcEntries g_CcLru set_cc]. rewrite (countb_insert _ _ _ e) by done.
    change (is_free (mkEntry 0 d 1 false)) with false. lia.
Qed.

Lemma victim_spec s :
  cc_inv s →
  match take_victim s with
  | (None, s') => s' = s ∧ usable s = 0
  | (Some i, s') => cc_inv s' ∧ ∃ e, g_CcEntries s' !! i = Some e ∧ (i ∉ g_CcLru s') ∧
      (∀ j, j ∈ g_CcLru s' → j ∈ g_CcLru s ∧ lba_of s' j = lba_of s j) ∧
      usable s' = usable s - (if is_free e then 0 else 1)
  end.
Proof.
  intros Hinv. pose proof Hinv as [Hc Hl Hi Hco]. unfold take_victim.
  destruct (first_idx is_free (g_CcEntries s)) as [i|] eqn:Hf.
  - apply first_idx_Some in Hf as [(e & He & Hfree) _]. split; [done|]. exists e. split_and!; try done.
    + intros Hin. destruct (co_valid _ _ _ Hco i Hin) as (e' & He' & Hnf & _). congruence.
    + rewrite Hfree. lia.
  - pose proof (proj1 (first_idx_None _ _) Hf) as Hz. apply countb_zero in Hz.
    destruct (last (g_CcLru s)) as [i|] eqn:Hlast.
    + apply last_Some in Hlast as [l Hlru].
      assert (Hin : i ∈ g_CcLru s) by (rewrite Hlru; apply elem_of_app; right; by apply list_elem_of_singleton).
      pose proof (co_nodup _ _ _ Hco) as Hnd. rewrite Hlru in Hnd. apply NoDup_app in Hnd as (_ & Hdis & _).
      assert (Hni : i ∉ l) by (intros Hil; apply (Hdis i Hil); by apply list_elem_of_singleton).
      assert (Hfil : filter (λ j, j ≠ i) (g_CcLru s) = l).
      { rewrite Hlru, filter_app, filter_cons_False by (by intros ?). rewrite app_nil_r. by apply filter_ne_id. }
      destruct (co_valid _ _ _ Hco i Hin) as (e & He & Hnf & _).
      split; [constructor; try done; by apply core_evict|]. exists e.
      cbn [g_CcEntries g_CcLru set_stats CcHashRemove CcLruRemove set_cc]. rewrite Hfil. split_and!; try done.
      * intros j Hj. split; [rewrite Hlru; apply elem_of_app; by left|done].
      * unfold usable. cbn [g_CcEntries g_CcLru set_stats CcHashRemove CcLruRemove set_cc].
        rewrite Hfil, Hlru, length_app, Hnf. cbn [length]. lia.
    + apply last_None in Hlast. split; [done|]. unfold usable. rewrite Hz, Hlast. done.
Qed.

Lemma stats_inv s h m e : cc_inv s → cc_inv (set_stats h m e s).
Proof. intros [H1 H2 H3 H4]. by constructor. Qed.

Lemma hit_run s l i :
  cc_inv s → CcHashFind l s = Some i →
  ∃ s', CcReadSector rd l s = Ok ((STATUS_SUCCESS, Some (rd l).2), s') ∧ cc_inv s' ∧
    NT_SUCCESS (rd l).1 = true ∧ usable s' = usable s ∧ g_CcMisses s' = g_CcMisses s ∧
    g_CcLru s' = i :: filter (λ j, j ≠ i) (g_CcLru s).
Proof.
  intros Hinv Hfind. pose proof Hinv as [Hc Hl Hi Hco]. destruct (find_some s l i Hinv Hfind) as [Hin Hlba].
  destruct (co_valid _ _ _ Hco i Hin) as (e & He & Hnf & Hst & Hd).
  unfold lba_of in Hlba. rewrite He in Hlba. subst l.
  set (f := λ s, CcLruMoveFront i (set_stats (u32 (g_CcHits s + 1)) (g_CcMisses s) (g_CcEvictions s) s)).
  exists (f s). split_and!; try done.
  - unfold CcReadSector. unfold mbind at 1, M_bind at 1. cbn [mgets]. rewrite Hi. cbn [negb]. rewrite acquire_bind by done.
    unfold mbind at 1, M_bind at 1. cbn [mgets]. change (CcHashFind (lba e) (locked CcLock s)) with (CcHashFind (lba e) s).
    rewrite Hfind. erewrite bind_ok; [|reflexivity]. erewrite deref_bind by exact He.
    erewrite bind_ok; [|reflexivity]. rewrite Hd.
    etrans; [apply (release_bind CcLock f s); done|]. done.
  - constructor; try done. by apply core_front.
  - unfold usable, f. cbn [g_CcEntries g_CcLru CcLruMoveFront CcLruInsertFront CcLruRemove set_cc set_stats length].
    pose proof (co_nodup _ _ _ (core_front _ _ _ i Hco Hin)) as Hnd'. pose proof (co_nodup _ _ _ Hco) as Hnd.
    f_equal. f_equal. apply (Permutation_length (l := i :: _)). apply NoDup_Permutation; [done|done|].
    intros j. rewrite elem_of_cons, elem_of_fne_nat. destruct (decide (j = i)) as [->|]; naive_solver.
Qed.

Lemma miss_run s l :
  cc_inv s → CcHashFind l s = None →
  let s1 := set_stats (g_CcHits s) (u32 (g_CcMisses s + 1)) (g_CcEvictions s) s in
  CcReadSector rd l s =
    match take_victim s1 with
    | (None, s2) => Ok (device_read rd l, s2)
    | (Some i, s2) => if NT_SUCCESS (rd l).1 then Ok ((STATUS_SUCCESS, Some (rd l).2), filled l i (rd l).2 s2)
                      else Ok (((rd l).1, None), lost i (rd l).2 s2)
    end.
Proof.
  intros Hinv Hfind s1. pose proof Hinv as [Hc Hl Hi Hco].
  pose proof (victim_spec s1 (stats_inv s _ _ _ Hinv)) as Hv.
  unfold CcReadSector. unfold mbind at 1, M_bind at 1. cbn [mgets]. rewrite Hi. cbn [negb]. rewrite acquire_bind by done.
  unfold mbind at 1, M_bind at 1. cbn [mgets]. change (CcHashFind l (locked CcLock s)) with (CcHashFind l s).
  rewrite Hfind. erewrite bind_ok; [|reflexivity].
  change (set_stats _ _ _ (locked CcLock s)) with (locked CcLock s1).
  assert (Ht : take_victim (locked CcLock s1) = ((take_victim s1).1, locked CcLock (take_victim s1).2)).
  { unfold take_victim. change (g_CcEntries (locked CcLock s1)) with (g_CcEntries s1).
    change (g_CcLru (locked CcLock s1)) with (g_CcLru s1). destruct (first_idx _ _); [done|]. by destruct (last _). }
  erewrite bind_ok; [|rewrite Ht; reflexivity].
  destruct (take_victim s1) as [[i|] s2] eqn:Hs2; cbn [fst snd] in *.
  - destruct Hv as (Hinv2 & e & He & _). assert (Irql (pcr s) = Irql (cc_pcr s2)) as ->.
    { unfold take_victim in Hs2. destruct (first_idx _ _); [by simplify_eq|]. destruct (last _); by simplify_eq. }
    by apply (fill_ok l i s2 e).
  - destruct Hv as [-> _]. etrans; [apply (release_same CcLock s1); done|]. done.
Qed.

End Invariant.

(** A device where sector 5 fails and the others hold their number. *)
Definition demo_disk (l : Z) : Z * list Z :=
  if l =? 5 then (STATUS_UNSUCCESSFUL, []) else (STATUS_SUCCESS, [l]).

Definition demo_cc : CC_STATE :=
  mkCc demo_pcr 0 (replicate CC_MAX_ENTRIES zero_entry) (replicate CC_HASH_SIZE []) [] true 0 0 0.

Lemma demo_cc_inv : cc_inv demo_disk demo_cc.
Proof.
  constructor; try done. constructor; cbn [g_CcEntries g_CcHash g_CcLru demo_cc].
  - apply length_replicate.
  - apply length_replicate.
  - constructor.
  - intros i Hi. by apply not_elem_of_nil in Hi.
  - intros k i Hk. unfold chain_in. rewrite lookup_replicate_2 by done.
    split; [intros Hi; by apply not_elem_of_nil in Hi|intros [Hi _]; by apply not_elem_of_nil in Hi].
  - intros i j Hi. by apply not_elem_of_nil in Hi.
Qed.

