(* ===== verification/Se.v ===== *)
(** * Se: access checks (src/se/se.c, src/include/nt/se.h)

    SIDs and access control lists are read from byte memory, as the code walks
    them; [mem a] is the byte at address [a], and 0 is the null pointer. *)

From S2P Require Import Prelude.

#[local] Open Scope Z_scope.

Definition rd16 (mem : Z → Z) (a : Z) : Z := mem a + 256 * mem (a + 1).
Definition rd32 (mem : Z → Z) (a : Z) : Z := rd16 mem a + 65536 * rd16 mem (a + 2).

Record GENERIC_MAPPING := mkMapping { GenericRead : Z; GenericWrite : Z; GenericExecute : Z; GenericAll : Z }.

Definition GENERIC_READ := 0x80000000.
Definition GENERIC_WRITE := 0x40000000.
Definition GENERIC_EXECUTE := 0x20000000.
Definition GENERIC_ALL := 0x10000000.

(** ** SIDs *)

Definition Revision (mem : Z → Z) (sid : Z) : Z := mem sid.
Definition SubAuthorityCount (mem : Z → Z) (sid : Z) : Z := mem (sid + 1).
Definition IdentifierAuthority (mem : Z → Z) (sid j : Z) : Z := mem (sid + 2 + j).
Definition SubAuthority (mem : Z → Z) (sid i : Z) : Z := rd32 mem (sid + 8 + 4 * i).

(** Both [for] loops: every index below the bound agrees. *)
Fixpoint all_below (n : nat) (p : Z → bool) : bool :=
  match n with O => true | S n' => all_below n' p && p (Z.of_nat n') end.

Definition SeSidEqual (mem : Z → Z) (Sid1 Sid2 : Z) : bool :=
  if (Sid1 =? 0) && (Sid2 =? 0) then true
  else if (Sid1 =? 0) || (Sid2 =? 0) then false
  else if negb (Revision mem Sid1 =? Revision mem Sid2) then false
  else if negb (SubAuthorityCount mem Sid1 =? SubAuthorityCount mem Sid2) then false
  else if negb (all_below 6 (λ j, IdentifierAuthority mem Sid1 j =? IdentifierAuthority mem Sid2 j)) then false
  else all_below (Z.to_nat (SubAuthorityCount mem Sid1))
         (λ i, SubAuthority mem Sid1 i =? SubAuthority mem Sid2 i).

(** ** Access control lists *)

Definition AclSize (mem : Z → Z) (acl : Z) : Z := rd16 mem (acl + 2).
Definition AceCount (mem : Z → Z) (acl : Z) : Z := rd16 mem (acl + 4).
Definition AceType (mem : Z → Z) (ace : Z) : Z := mem ace.
Definition AceSize (mem : Z → Z) (ace : Z) : Z := rd16 mem (ace + 2).
Definition Mask (mem : Z → Z) (ace : Z) : Z := rd32 mem (ace + 4).
Definition SidStart (ace : Z) : Z := ace + 8.
Definition sizeof_ACL := 8.
Definition sizeof_ACE_HEADER := 4.

(** [a & ~b] on 32-bit masks. *)
Definition andn (a b : Z) : Z := Z.land a (u32 (Z.lnot b)).

(** The allowed mask after the generic mapping. *)
Definition map_generic (GenericMapping : option GENERIC_MAPPING) (DesiredAccess mask : Z) : Z :=
  match GenericMapping with
  | None => mask
  | Some g =>
      let mask := if truthy (Z.land DesiredAccess GENERIC_READ) then andn mask (GenericRead g) else mask in
      let mask := if truthy (Z.land DesiredAccess GENERIC_WRITE) then andn mask (GenericWrite g) else mask in
      let mask := if truthy (Z.land DesiredAccess GENERIC_EXECUTE) then andn mask (GenericExecute g) else mask in
      if truthy (Z.land DesiredAccess GENERIC_ALL) then andn mask (GenericAll g) else mask
  end.

Section Check.
Context (mem : Z → Z) (Subject DesiredAccess : Z) (GenericMapping : option GENERIC_MAPPING).

(** [(DesiredAccess & mask) == DesiredAccess] *)
Definition covers (mask : Z) : bool := Z.land DesiredAccess mask =? DesiredAccess.

(** The [for] loop over the entries, with [granted] and [foundAllow];
    [None] is the return of FALSE from a denying entry. *)
Fixpoint ace_loop (acl : Z) (n : nat) (pAce granted : Z) (foundAllow : bool) : option (Z * bool) :=
  match n with
  | O => Some (granted, foundAllow)
  | S n' =>
      if acl + AclSize mem acl <? pAce + sizeof_ACE_HEADER then Some (granted, foundAllow)
      else
        let next := ace_loop acl n' (pAce + AceSize mem pAce) in
        if AceType mem pAce =? 0 then
          if SeSidEqual mem Subject (SidStart pAce) then
            let mask := map_generic GenericMapping DesiredAccess (Mask mem pAce) in
            if covers mask then next (Z.lor granted mask) true else next granted foundAllow
          else next granted foundAllow
        else if AceType mem pAce =? 1 then
          if SeSidEqual mem Subject (SidStart pAce) && covers (Mask mem pAce) then None
          else next granted foundAllow
        else next granted foundAllow
  end.

(** [SecurityDescriptor]: its DACL pointer, [None] when there is no descriptor.
    Returns the answer and what is stored through AccessStatus. *)
Definition SeAccessCheck (SecurityDescriptor : option Z) (PreviouslyGranted : Z) : bool * Z :=
  match SecurityDescriptor with
  | None => (true, Z.lor DesiredAccess PreviouslyGranted)
  | Some Dacl =>
      if Dacl =? 0 then (true, Z.lor DesiredAccess PreviouslyGranted)
      else
        match ace_loop Dacl (Z.to_nat (AceCount mem Dacl)) (Dacl + sizeof_ACL) 0 false with
        | None => (false, 0)
        | Some (granted, foundAllow) =>
            if foundAllow then (true, Z.lor granted PreviouslyGranted) else (false, 0)
        end
  end.

(** ** What the check decides *)

(** The entries the walk reaches. *)
Fixpoint aces (acl : Z) (n : nat) (pAce : Z) : list Z :=
  match n with
  | O => []
  | S n' => if acl + AclSize mem acl <? pAce + sizeof_ACE_HEADER then []
            else pAce :: aces acl n' (pAce + AceSize mem pAce)
  end.

Definition denies (ace : Z) : bool :=
  (AceType mem ace =? 1) && SeSidEqual mem Subject (SidStart ace) && covers (Mask mem ace).
Definition allows (ace : Z) : bool :=
  (AceType mem ace =? 0) && SeSidEqual mem Subject (SidStart ace) &&
  covers (map_generic GenericMapping DesiredAccess (Mask mem ace)).
Definition grants (l : list Z) (granted : Z) : Z :=
  foldl (λ g ace, if allows ace then Z.lor g (map_generic GenericMapping DesiredAccess (Mask mem ace)) else g) granted l.

Lemma ace_loop_spec acl n : ∀ pAce granted found,
  ace_loop acl n pAce granted found =
  if existsb denies (aces acl n pAce) then None
  else Some (grants (aces acl n pAce) granted, found || existsb allows (aces acl n pAce)).
Proof.
  induction n as [|n IH]; intros p g f; cbn [ace_loop aces]; [by rewrite orb_false_r|].
  case_match; [by rewrite orb_false_r|]. cbn [existsb].
  set (m := map_generic GenericMapping DesiredAccess (Mask mem p)).
  set (l := aces acl n (p + AceSize mem p)).
  assert (Hg : grants (p :: l) g = grants l (if allows p then Z.lor g m else g)) by done. rewrite Hg.
  assert (Ha : allows p = (AceType mem p =? 0) && SeSidEqual mem Subject (SidStart p) && covers m) by done.
  assert (Hd : denies p = (AceType mem p =? 1) && SeSidEqual mem Subject (SidStart p) && covers (Mask mem p)) by done.
  rewrite Ha, Hd. clear Ha Hd Hg. destruct (Z.eqb_spec (AceType mem p) 0) as [E|E].
  - rewrite E. cbn [Z.eqb andb orb]. destruct (SeSidEqual mem Subject (SidStart p)); cbn [andb orb]; [|apply IH].
    destruct (covers m); rewrite IH; cbn [orb]; [|done]. by rewrite orb_true_r.
  - cbn [andb orb]. destruct (AceType mem p =? 1); cbn [andb orb]; [|apply IH].
    destruct (_ && _); cbn [orb]; [done|apply IH].
Qed.

(** What SeAccessCheck decides.  No descriptor or no DACL grants what is
    asked.  Otherwise access is granted exactly when some entry for the subject
    allows every bit asked for and no entry for the subject denies every bit
    asked for, in whatever order they come; the access reported is then the
    union of the masks of the allowing entries with what was granted before.
    In particular an entry that denies only some of the bits asked for has no
    effect at all. *)
Theorem SeAccessCheck_spec Dacl prev :
  Dacl ≠ 0 →
  let l := aces Dacl (Z.to_nat (AceCount mem Dacl)) (Dacl + sizeof_ACL) in
  SeAccessCheck None prev = (true, Z.lor DesiredAccess prev) ∧
  SeAccessCheck (Some 0) prev = (true, Z.lor DesiredAccess prev) ∧
  ((SeAccessCheck (Some Dacl) prev).1 = true ↔
     (∃ a, a ∈ l ∧ allows a = true) ∧ ¬ ∃ a, a ∈ l ∧ denies a = true) ∧
  ((SeAccessCheck (Some Dacl) prev).1 = true →
     (SeAccessCheck (Some Dacl) prev).2 = Z.lor (grants l 0) prev) ∧
  ((SeAccessCheck (Some Dacl) prev).1 = false → (SeAccessCheck (Some Dacl) prev).2 = 0).
Proof.
  intros HD l. split; [done|]. split; [done|]. unfold SeAccessCheck. replace (Dacl =? 0) with false by lia.
  rewrite ace_loop_spec. fold l.
  assert (Hex : ∀ p : Z → bool, existsb p l = true ↔ ∃ a, a ∈ l ∧ p a = true).
  { intros p. rewrite existsb_exists. by setoid_rewrite list_elem_of_In. }
  pose proof (Hex denies) as Hd. pose proof (Hex allows) as Ha.
  destruct (existsb denies l); [|destruct (existsb allows l)]; cbn [orb fst snd]; split_and!; try done; naive_solver.
Qed.
End Check.

(** A list with two entries for the subject at 100: deny bit 1, allow bits 0 and
    1.  Both SIDs are the same bytes. *)
Definition demo_acl : Z → Z := λ a,
  let sid := [1; 0; 0; 0; 0; 0; 0; 1] in
  let at_ (base : Z) (l : list Z) := nth (Z.to_nat (a - base)) l 0 in
  if a <? 100 then 0
  else if a <? 108 then at_ 100 sid
  else if a <? 200 then 0
  else at_ 200 ([2; 0; 40; 0; 2; 0; 0; 0] ++ [1; 0; 16; 0; 2; 0; 0; 0] ++ sid ++ [0; 0; 16; 0; 3; 0; 0; 0] ++ sid).

(** Asking for both bits is granted although one of them is denied. *)
Lemma SeAccessCheck_spec_witness :
  (SeAccessCheck demo_acl 100 3 None (Some 200) 0).1 = true ∧
  denies demo_acl 100 2 208 = true ∧ denies demo_acl 100 3 208 = false.
Proof.
  destruct (SeAccessCheck_spec demo_acl 100 3 None 200 0) as (_ & _ & H & _); [lia|].
  split; [|split; reflexivity]. apply H. split.
  - exists 224. split; [|reflexivity].
    change (aces demo_acl 200 (Z.to_nat (AceCount demo_acl 200)) (200 + sizeof_ACL)) with [208; 224].
    right. by left.
  - intros (a & Ha & Hd).
    change (aces demo_acl 200 (Z.to_nat (AceCount demo_acl 200)) (200 + sizeof_ACL)) with [208; 224] in Ha.
    apply elem_of_cons in Ha as [->|Ha]; [discriminate Hd|].
    apply elem_of_cons in Ha as [->|Ha]; [discriminate Hd|]. by apply not_elem_of_nil in Ha.
Defined.
