(* ===== verification/Firewall.v ===== *)
(** * Firewall: the packet filter (src/net/firewall.c)

    The table of rules, the evaluation of a packet against it, and the ring of
    log entries. *)

From Stdlib Require Ascii String.
Delimit Scope string_scope with string.
Import String.StringSyntax.
From S2P Require Import Prelude Irql Rtl.

#[local] Open Scope Z_scope.

Inductive FW_ACTION := FwActionAllow | FwActionDrop | FwActionLog.
Inductive FW_DIRECTION := FwDirInbound | FwDirOutbound | FwDirBoth.
#[global] Instance FW_DIRECTION_eq : EqDecision FW_DIRECTION.
Proof. solve_decision. Defined.

Record FW_RULE := mkRule {
  Action : FW_ACTION;
  Direction : FW_DIRECTION;
  Protocol : Z;
  SourceIp : Z;
  SourceMask : Z;
  SourcePort : Z;
  DestIp : Z;
  DestMask : Z;
  DestPort : Z;
  RName : list Z;
  Enabled : bool;
  RInUse : bool
}.

Record FW_LOG_ENTRY := mkLog {
  RuleId : Z; LSourceIp : Z; LDestIp : Z; LDestPort : Z; LProtocol : Z; LAction : FW_ACTION; Timestamp : Z
}.

Record PACKET := mkPacket { PProtocol : Z; PSourceIp : Z; PSourcePort : Z; PDestIp : Z; PDestPort : Z; PDirection : FW_DIRECTION }.

Record FW_STATE := mkFw {
  fw_pcr : KPCR;
  g_FwLock : Z;
  g_Rules : list FW_RULE;
  g_Log : list FW_LOG_ENTRY;
  g_LogHead : Z;
  g_LogCount : Z;
  g_FirewallEnabled : bool;
  fw_clock : Clock.CLOCK_STATE
}.

Definition set_fw_pcr (k : KPCR) (s : FW_STATE) : FW_STATE :=
  mkFw k (g_FwLock s) (g_Rules s) (g_Log s) (g_LogHead s) (g_LogCount s) (g_FirewallEnabled s) (fw_clock s).
Definition set_g_FwLock (v : Z) (s : FW_STATE) : FW_STATE :=
  mkFw (fw_pcr s) v (g_Rules s) (g_Log s) (g_LogHead s) (g_LogCount s) (g_FirewallEnabled s) (fw_clock s).
Definition set_g_Rules (r : list FW_RULE) (s : FW_STATE) : FW_STATE :=
  mkFw (fw_pcr s) (g_FwLock s) r (g_Log s) (g_LogHead s) (g_LogCount s) (g_FirewallEnabled s) (fw_clock s).
Definition set_log (l : list FW_LOG_ENTRY) (h c : Z) (s : FW_STATE) : FW_STATE :=
  mkFw (fw_pcr s) (g_FwLock s) (g_Rules s) l h c (g_FirewallEnabled s) (fw_clock s).
Definition set_enabled (b : bool) (s : FW_STATE) : FW_STATE :=
  mkFw (fw_pcr s) (g_FwLock s) (g_Rules s) (g_Log s) (g_LogHead s) (g_LogCount s) b (fw_clock s).

#[global] Instance FW_HasPcr : HasPcr FW_STATE.
Proof. refine {| pcr := fw_pcr; set_pcr := set_fw_pcr |}; [done..|by intros []]. Defined.
Definition FwLock : SpinLock FW_STATE.
Proof. refine (mkSpinLock g_FwLock set_g_FwLock _ _ _ _ _ _); [done..|by intros []|done]. Defined.

Definition FW_MAX_RULES : nat := 128.
Definition FW_LOG_MAX := 256.
Definition zero_rule : FW_RULE := mkRule FwActionAllow FwDirInbound 0 0 0 0 0 0 0 [] false false.

(** The new rule: the caller's fields, in use and enabled. *)
Definition new_rule (a : FW_ACTION) (d : FW_DIRECTION) (proto sip smask sport dip dmask dport : Z) (name : list Z) : FW_RULE :=
  mkRule a d proto sip smask sport dip dmask dport (take 63 (take (RtlStringLength name) name)) true true.

Definition FwAddRule (r : FW_RULE) : M FW_STATE Z :=
  irql ← KeAcquireSpinLock FwLock;
  rules ← mgets g_Rules;
  match first_idx (λ r, negb (RInUse r)) rules with
  | Some i =>
      mmod (set_g_Rules (<[i := r]> rules));;
      KeReleaseSpinLock FwLock irql;;
      mret STATUS_SUCCESS
  | None => KeReleaseSpinLock FwLock irql;; mret STATUS_NO_MEMORY
  end.

(** [RuleId >= FW_MAX_RULES || !g_Rules[RuleId].InUse] is the failing guard. *)
Definition live_rule (s : FW_STATE) (id : Z) : option FW_RULE :=
  if Z.of_nat FW_MAX_RULES <=? id then None
  else match g_Rules s !! Z.to_nat id with
       | Some r => if RInUse r then Some r else None
       | None => None
       end.

Definition FwRemoveRule (id : Z) : M FW_STATE Z :=
  r ← mgets (λ s, live_rule s id);
  match r with
  | None => mret STATUS_INVALID_PARAMETER
  | Some _ =>
      irql ← KeAcquireSpinLock FwLock;
      mmod (λ s, set_g_Rules (<[Z.to_nat id := zero_rule]> (g_Rules s)) s);;
      KeReleaseSpinLock FwLock irql;;
      mret STATUS_SUCCESS
  end.

Definition with_enabled (b : bool) (r : FW_RULE) : FW_RULE :=
  mkRule (Action r) (Direction r) (Protocol r) (SourceIp r) (SourceMask r) (SourcePort r)
    (DestIp r) (DestMask r) (DestPort r) (RName r) b (RInUse r).

Definition FwEnableRule (id : Z) (b : bool) : M FW_STATE Z :=
  r ← mgets (λ s, live_rule s id);
  match r with
  | None => mret STATUS_INVALID_PARAMETER
  | Some r =>
      irql ← KeAcquireSpinLock FwLock;
      mmod (λ s, set_g_Rules (<[Z.to_nat id := with_enabled b r]> (g_Rules s)) s);;
      KeReleaseSpinLock FwLock irql;;
      mret STATUS_SUCCESS
  end.

(** The chain of [continue]s: the rule is skipped when any of them applies. *)
Definition skips (p : PACKET) (r : FW_RULE) : bool :=
  negb (RInUse r) || negb (Enabled r) ||
  (negb (bool_decide (Direction r = FwDirBoth)) && negb (bool_decide (Direction r = PDirection p))) ||
  (negb (Protocol r =? 0) && negb (Protocol r =? PProtocol p)) ||
  (negb (SourcePort r =? 0) && negb (SourcePort r =? PSourcePort p)) ||
  (negb (DestPort r =? 0) && negb (DestPort r =? PDestPort p)) ||
  (truthy (SourceMask r) && negb (Z.land (PSourceIp p) (SourceMask r) =? SourceIp r)) ||
  (truthy (DestMask r) && negb (Z.land (PDestIp p) (DestMask r) =? DestIp r)).

Definition decide_packet (rules : list FW_RULE) (p : PACKET) : FW_ACTION :=
  match first_idx (λ r, negb (skips p r)) rules with
  | Some i => match rules !! i with Some r => Action r | None => FwActionAllow end
  | None => FwActionAllow
  end.

Definition log_entry (s : FW_STATE) (p : PACKET) (a : FW_ACTION) : FW_LOG_ENTRY :=
  mkLog 0 (PSourceIp p) (PDestIp p) (PDestPort p) (PProtocol p) a (Clock.KeQuerySystemTime (fw_clock s)).

Definition write_log (p : PACKET) (a : FW_ACTION) (s : FW_STATE) : FW_STATE :=
  set_log (<[Z.to_nat (g_LogHead s) := log_entry s p a]> (g_Log s))
    ((g_LogHead s + 1) mod FW_LOG_MAX)
    (if g_LogCount s <? FW_LOG_MAX then g_LogCount s + 1 else g_LogCount s) s.

Definition FwEvaluatePacket (p : PACKET) : M FW_STATE FW_ACTION :=
  en ← mgets g_FirewallEnabled;
  if negb en then mret FwActionAllow
  else
    irql ← KeAcquireSpinLock FwLock;
    result ← mgets (λ s, decide_packet (g_Rules s) p);
    mmod (write_log p result);;
    KeReleaseSpinLock FwLock irql;;
    mret result.

Definition FwSetEnabled (b : bool) : M FW_STATE Z := mmod (set_enabled b);; mret STATUS_SUCCESS.
Definition FwIsEnabled (s : FW_STATE) : bool := g_FirewallEnabled s.

(** A string literal, with its terminator. *)
Definition literal (t : String.string) : list Z :=
  List.map (λ c, Z.of_N (Ascii.N_of_ascii c)) (String.list_ascii_of_string t) ++ [0].

Definition FwInit : M FW_STATE Z :=
  KeInitializeSpinLock FwLock;;
  mmod (set_enabled true);;
  mmod (λ s, set_log (g_Log s) 0 0 s);;
  FwAddRule (new_rule FwActionAllow FwDirBoth 0 0x7F000000 0xFF000000 0 0x7F000000 0xFF000000 0 (literal "Allow loopback"%string));;
  FwAddRule (new_rule FwActionAllow FwDirInbound 6 0 0 0 0 0 80 (literal "Allow inbound HTTP"%string));;
  FwAddRule (new_rule FwActionDrop FwDirBoth 6 0 0 0 0 0 23 (literal "Block telnet"%string));;
  mret STATUS_SUCCESS.

Fixpoint enum_from (i : Z) (l : list FW_RULE) (max : nat) : list Z :=
  match l, max with
  | [], _ | _, O => []
  | r :: l', S m => if RInUse r then i :: enum_from (i + 1) l' m else enum_from (i + 1) l' max
  end.
Definition FwEnumRules (s : FW_STATE) (MaxCount : Z) : list Z := enum_from 0 (g_Rules s) (Z.to_nat MaxCount).

Definition FwGetRule (s : FW_STATE) (id : Z) : Z * option (FW_ACTION * FW_DIRECTION * Z * Z * Z) :=
  match live_rule s id with
  | None => (STATUS_INVALID_PARAMETER, None)
  | Some r => (STATUS_SUCCESS, Some (Action r, Direction r, Protocol r, SourceIp r, DestIp r))
  end.

(** ** Properties *)

(** A rule applies to a packet: every field it constrains agrees. *)
Definition applies (r : FW_RULE) (p : PACKET) : Prop :=
  RInUse r = true ∧ Enabled r = true ∧
  (Direction r = FwDirBoth ∨ Direction r = PDirection p) ∧
  (Protocol r = 0 ∨ Protocol r = PProtocol p) ∧
  (SourcePort r = 0 ∨ SourcePort r = PSourcePort p) ∧
  (DestPort r = 0 ∨ DestPort r = PDestPort p) ∧
  (SourceMask r = 0 ∨ Z.land (PSourceIp p) (SourceMask r) = SourceIp r) ∧
  (DestMask r = 0 ∨ Z.land (PDestIp p) (DestMask r) = DestIp r).

Lemma neg_and_neg_or (a b : bool) (A B : Prop) :
  (a = true ↔ A) → (b = true ↔ B) → negb a && negb b = false ↔ A ∨ B.
Proof. intros <- <-. destruct a, b; simpl; naive_solver. Qed.
Lemma truthy_or (z : Z) (b : bool) (B : Prop) :
  (b = true ↔ B) → truthy z && negb b = false ↔ z = 0 ∨ B.
Proof.
  intros <-. unfold truthy. destruct (Z.eqb_spec z 0), b; simpl; naive_solver.
Qed.

Lemma skips_spec p r : skips p r = false ↔ applies r p.
Proof.
  unfold skips, applies. rewrite !orb_false_iff, !negb_false_iff.
  rewrite !(neg_and_neg_or (bool_decide _)) by apply bool_decide_eq_true.
  rewrite !(neg_and_neg_or (_ =? _)) by apply Z.eqb_eq. rewrite !truthy_or by apply Z.eqb_eq. tauto.
Qed.

(** The log as the list of all entries, newest first. *)
Record log_rep (s : FW_STATE) (hist : list FW_LOG_ENTRY) : Prop := {
  lr_len : Z.of_nat (length (g_Log s)) = FW_LOG_MAX;
  lr_head : g_LogHead s = Z.of_nat (length hist) mod FW_LOG_MAX;
  lr_count : g_LogCount s = Z.min (Z.of_nat (length hist)) FW_LOG_MAX;
  lr_at i e : hist !! i = Some e → Z.of_nat i < FW_LOG_MAX →
    g_Log s !! Z.to_nat ((g_LogHead s - 1 - Z.of_nat i) mod FW_LOG_MAX) = Some e
}.

Record fw_inv (s : FW_STATE) (hist : list FW_LOG_ENTRY) : Prop := {
  fi_pcr : can_lock (fw_pcr s);
  fi_lock : g_FwLock s = 0;
  fi_rules : length (g_Rules s) = FW_MAX_RULES;
  fi_log : log_rep s hist
}.

Lemma ring_back x k : (x mod 256 - 1 - k) mod 256 = (x - 1 - k) mod 256.
Proof.
  replace (x mod 256 - 1 - k) with (x mod 256 - (1 + k)) by lia. rewrite Zminus_mod_idemp_l. f_equal. lia.
Qed.

Lemma write_log_rep s hist p a :
  log_rep s hist → log_rep (write_log p a s) (log_entry s p a :: hist).
Proof.
  intros [H1 H2 H3 H4]. unfold FW_LOG_MAX in *.
  pose proof (Z.mod_pos_bound (Z.of_nat (length hist)) 256 ltac:(lia)) as Hb.
  constructor; cbn [g_Log g_LogHead g_LogCount write_log set_log length]; unfold FW_LOG_MAX.
  - by rewrite length_insert.
  - rewrite H2. rewrite Zplus_mod_idemp_l. f_equal. lia.
  - destruct (Z.ltb_spec (g_LogCount s) 256); lia.
  - intros [|i] e; cbn [lookup list_lookup]; intros He Hi; rewrite ring_back.
    + injection He as <-. replace (g_LogHead s + 1 - 1 - Z.of_nat 0) with (g_LogHead s) by lia.
      rewrite Z.mod_small by lia. apply list_lookup_insert_eq. lia.
    + specialize (H4 i e He ltac:(lia)).
      replace (g_LogHead s + 1 - 1 - Z.of_nat (S i)) with (g_LogHead s - 1 - Z.of_nat i) by lia.
      rewrite list_lookup_insert_ne; [done|]. intros Heq.
      pose proof (Z.mod_pos_bound (g_LogHead s - 1 - Z.of_nat i) 256 ltac:(lia)).
      assert (Hq : (g_LogHead s - 1 - Z.of_nat i) mod 256 = g_LogHead s) by lia.
      rewrite Z.mod_eq in Hq by lia. lia.
Qed.

Lemma framed_rules f : framed FwLock (λ s, set_g_Rules (f (g_Rules s)) s).
Proof. by constructor. Qed.

(** [C18] The packet filter is first-match.  A packet is decided by the rule with
    the lowest index whose every constrained field agrees with it, and is
    allowed when there is none or the filter is off.  An evaluation with the
    filter on changes nothing but the log, which records it: the ring holds
    exactly the last 256 evaluations, newest first behind the head.  Adding a
    rule puts it in the lowest free slot, or fails with STATUS_NO_MEMORY and no
    effect when the table is full. *)
Theorem firewall_first_match s hist p r :
  fw_inv s hist →
  (g_FirewallEnabled s = false → FwEvaluatePacket p s = Ok (FwActionAllow, s)) ∧
  (g_FirewallEnabled s = true →
     ∃ a s', FwEvaluatePacket p s = Ok (a, s') ∧ g_Rules s' = g_Rules s ∧
       fw_inv s' (log_entry s p a :: hist) ∧
       ((∃ i x, g_Rules s !! i = Some x ∧ applies x p ∧ a = Action x ∧
           ∀ j y, (j < i)%nat → g_Rules s !! j = Some y → ¬ applies y p) ∨
        (a = FwActionAllow ∧ ∀ j y, g_Rules s !! j = Some y → ¬ applies y p))) ∧
  (match first_idx (λ r, negb (RInUse r)) (g_Rules s) with
   | Some i => FwAddRule r s = Ok (STATUS_SUCCESS, set_g_Rules (<[i := r]> (g_Rules s)) s)
   | None => FwAddRule r s = Ok (STATUS_NO_MEMORY, s)
   end).
Proof.
  intros [Hc Hl Hr Hlog]. split_and!.
  - intros He. unfold FwEvaluatePacket, mbind, M_bind. simpl. by rewrite He.
  - intros He. set (a := decide_packet (g_Rules s) p). exists a, (write_log p a s). split_and!.
    + unfold FwEvaluatePacket. unfold mbind at 1, M_bind at 1. cbn [mgets]. rewrite He. cbn [negb].
      rewrite acquire_bind by done. unfold mbind at 1, M_bind at 1. cbn [mgets].
      change (g_Rules (locked FwLock s)) with (g_Rules s). fold a. erewrite bind_ok; [|reflexivity].
      etrans; [apply (release_bind FwLock (write_log p a) s); done|done].
    + done.
    + constructor; try done. by apply write_log_rep.
    + unfold a, decide_packet. destruct (first_idx _ _) as [i|] eqn:Hf.
      * left. apply first_idx_Some in Hf as [(x & Hx & Hs) Hlow]. exists i, x. rewrite Hx.
        apply negb_true_iff, skips_spec in Hs. split_and!; try done.
        intros j y Hj Hy Ha%skips_spec. specialize (Hlow j y Hj Hy). simpl in Hlow. by rewrite Ha in Hlow.
      * right. split; [done|]. intros j y Hy Ha%skips_spec.
        pose proof (proj1 (first_idx_None _ _) Hf j y Hy) as Hn. simpl in Hn. by rewrite Ha in Hn.
  - unfold FwAddRule. destruct (first_idx _ (g_Rules s)) as [i|] eqn:Hf; rewrite acquire_bind by done;
      unfold mbind at 1, M_bind at 1; cbn [mgets]; change (g_Rules (locked FwLock s)) with (g_Rules s); rewrite Hf.
    + erewrite bind_ok; [|reflexivity].
      etrans; [apply (release_bind FwLock (set_g_Rules (<[i := r]> (g_Rules s))) s); try done|done].
    + by rewrite release_same by done.
Qed.

(** The default rules, and a telnet packet. *)
Definition demo_fw : FW_STATE :=
  mkFw demo_pcr 0
    ([new_rule FwActionAllow FwDirBoth 0 0x7F000000 0xFF000000 0 0x7F000000 0xFF000000 0 (literal "Allow loopback"%string);
      new_rule FwActionAllow FwDirInbound 6 0 0 0 0 0 80 [];
      new_rule FwActionDrop FwDirBoth 6 0 0 0 0 0 23 []] ++ replicate 125 zero_rule)
    (replicate 256 (mkLog 0 0 0 0 0 FwActionAllow 0)) 0 0 true (Clock.mkClock 7 0 None 0 0 []).

Lemma demo_fw_inv : fw_inv demo_fw [].
Proof. by constructor. Qed.

Lemma firewall_first_match_witness :
  ∃ s', FwEvaluatePacket (mkPacket 6 0x0A000001 1024 0x0A000002 23 FwDirInbound) demo_fw = Ok (FwActionDrop, s').
Proof.
  destruct (firewall_first_match demo_fw [] (mkPacket 6 0x0A000001 1024 0x0A000002 23 FwDirInbound) zero_rule demo_fw_inv)
    as (_ & H & _). destruct (H eq_refl) as (a & s' & Hr & _).
  assert (Hb : match FwEvaluatePacket (mkPacket 6 0x0A000001 1024 0x0A000002 23 FwDirInbound) demo_fw with
    Ok (a, _) => a = FwActionDrop | _ => False end) by (vm_compute; reflexivity).
  rewrite Hr in Hb. subst a. exists s'. exact Hr.
Defined.
