(* ===== verification/Quota.v ===== *)
(** * Quota: per-user disk quotas (src/mm/quotas.c)

    A fixed table of 64 records keyed by volume letter and user name.  Names
    are C strings compared over at most 32 characters; reading past the end of
    the list [User] gives the terminator.  The specification is a finite map
    from keys to the three numbers of a record. *)

From S2P Require Import Prelude.

#[local] Open Scope Z_scope.

Record QUOTA_ENTRY := mkQuota {
  Volume : Z;
  User : list Z;           (* CHAR User[32] *)
  Used : Z;
  WarningThreshold : Z;
  HardLimit : Z;
  InUse : bool
}.

Definition QUOTA_MAX_ENTRIES : nat := 64.
Definition STATUS_DISK_QUOTA_EXCEEDED := 0xC0000042.
Definition zero_quota : QUOTA_ENTRY := mkQuota 0 (replicate 32 0) 0 0 0 false.

(** The comparison loop of QuotaFind, [n] characters from position [k]. *)
Definition same_user (a u : list Z) (k n : nat) : bool := same_str a u k n.

Definition matches (Volume_ : Z) (User_ : list Z) (e : QUOTA_ENTRY) : bool :=
  InUse e && (Volume e =? Volume_) && same_user (User e) User_ 0 32.

Definition QuotaFind (es : list QUOTA_ENTRY) (Volume_ : Z) (User_ : list Z) : option nat :=
  first_idx (matches Volume_ User_) es.

Definition claim (Volume_ : Z) (User_ : list Z) (e : QUOTA_ENTRY) : QUOTA_ENTRY :=
  mkQuota Volume_ (copy_str (User e) User_ 0 32) (Used e) (WarningThreshold e) (HardLimit e) true.

Definition with_limits (w h : Z) (e : QUOTA_ENTRY) : QUOTA_ENTRY :=
  mkQuota (Volume e) (User e) (Used e) w h (InUse e).
Definition with_used (n : Z) (e : QUOTA_ENTRY) : QUOTA_ENTRY :=
  mkQuota (Volume e) (User e) n (WarningThreshold e) (HardLimit e) (InUse e).

Definition QuotaSet (Volume_ : Z) (User_ : list Z) (Warning Hard : Z) (es : list QUOTA_ENTRY) :
    Z * list QUOTA_ENTRY :=
  match QuotaFind es Volume_ User_ with
  | Some i => (STATUS_SUCCESS, alter (with_limits Warning Hard) i es)
  | None =>
      match first_idx (λ e, negb (InUse e)) es with
      | Some i => (STATUS_SUCCESS, alter (with_limits Warning Hard ∘ claim Volume_ User_) i es)
      | None => (STATUS_NO_MEMORY, es)
      end
  end.

Definition QuotaCharge (Volume_ : Z) (User_ : list Z) (Bytes : Z) (es : list QUOTA_ENTRY) :
    Z * list QUOTA_ENTRY :=
  match QuotaFind es Volume_ User_ ≫= λ i, (i,.) <$> es !! i with
  | None => (STATUS_SUCCESS, es)
  | Some (i, e) =>
      if truthy (HardLimit e) && (HardLimit e <? u64 (Used e + Bytes)) then (STATUS_DISK_QUOTA_EXCEEDED, es)
      else (STATUS_SUCCESS, <[i := with_used (u64 (Used e + Bytes)) e]> es)
  end.

Definition QuotaReturn (Volume_ : Z) (User_ : list Z) (Bytes : Z) (es : list QUOTA_ENTRY) :
    Z * list QUOTA_ENTRY :=
  match QuotaFind es Volume_ User_ ≫= λ i, (i,.) <$> es !! i with
  | None => (STATUS_NOT_FOUND, es)
  | Some (i, e) =>
      (STATUS_SUCCESS, <[i := with_used (if Used e <? Bytes then 0 else Used e - Bytes) e]> es)
  end.

Definition QuotaQuery (Volume_ : Z) (User_ : list Z) (es : list QUOTA_ENTRY) : Z * option (Z * Z * Z) :=
  match QuotaFind es Volume_ User_ ≫= λ i, es !! i with
  | None => (STATUS_NOT_FOUND, None)
  | Some e => (STATUS_SUCCESS, Some (Used e, WarningThreshold e, HardLimit e))
  end.

Definition QuotaInit : list QUOTA_ENTRY :=
  (QuotaSet 67 [100; 101; 102; 97; 117; 108; 116] (800 * 1024 * 1024) (1024 * 1024 * 1024)
     (replicate QUOTA_MAX_ENTRIES zero_quota)).2.

(** ** The specification: a finite map *)

(** The key of a record: its volume and the C string of at most 32 characters. *)
Definition key (v : Z) (u : list Z) : Z * list Z := (v, cname u 0 32).
Definition key_of (e : QUOTA_ENTRY) : Z * list Z := key (Volume e) (User e).

(** The table stands for the map: each key of the map is the key of exactly one
    record in use. *)
Record quota_rep (es : list QUOTA_ENTRY) (m : gmap (Z * list Z) (Z * Z * Z)) : Prop := {
  qr_len : length es = QUOTA_MAX_ENTRIES;
  qr_user e : e ∈ es → length (User e) = 32%nat;
  qr_fresh e : e ∈ es → InUse e = false → Used e = 0;
  qr_inj i j e f : es !! i = Some e → es !! j = Some f → InUse e = true → InUse f = true → key_of e = key_of f → i = j;
  qr_map k x : m !! k = Some x ↔ ∃ e, e ∈ es ∧ InUse e = true ∧ key_of e = k ∧
    x = (Used e, WarningThreshold e, HardLimit e)
}.

Lemma same_user_cname a u n k : same_user a u k n = bool_decide (cname a k n = cname u k n).
Proof. apply same_str_cname. Qed.

Lemma matches_key v u e : matches v u e = true ↔ InUse e = true ∧ key_of e = key v u.
Proof.
  unfold matches, key_of, key. rewrite !andb_true_iff, Z.eqb_eq, same_user_cname, bool_decide_eq_true, pair_equal_spec.
  tauto.
Qed.

#[local] Arguments cname : simpl never.
#[local] Arguments same_user : simpl never.
#[local] Arguments copy_str : simpl never.

(** The search finds the record of a key exactly when the map has it. *)
Lemma find_spec es m v u :
  quota_rep es m →
  match QuotaFind es v u with
  | Some i => ∃ e, es !! i = Some e ∧ InUse e = true ∧ key_of e = key v u ∧
      m !! key v u = Some (Used e, WarningThreshold e, HardLimit e)
  | None => m !! key v u = None ∧ ∀ e, e ∈ es → InUse e = true → key_of e ≠ key v u
  end.
Proof.
  intros [_ _ _ _ Hm]. unfold QuotaFind. destruct (first_idx _ es) as [i|] eqn:Hi.
  - apply first_idx_Some in Hi as [(e & He & Hk) _]. apply matches_key in Hk as [Hu Hk].
    exists e. split_and!; [done..|]. apply Hm. exists e. split; [by eapply list_elem_of_lookup_2|]. done.
  - rewrite first_idx_None in Hi.
    assert (Hno : ∀ e, e ∈ es → InUse e = true → key_of e ≠ key v u).
    { intros e [j Hj]%list_elem_of_lookup_1 Hu Hk. pose proof (Hi j e Hj) as Hf.
      rewrite (proj2 (matches_key v u e)) in Hf; done. }
    split; [|done]. destruct (m !! key v u) as [x|] eqn:E; [|done]. apply Hm in E as (e & He & Hu & Hk & _).
    by destruct (Hno e He Hu).
Qed.

(** Changing the numbers of the record of a key. *)
Lemma rep_update es m i e e' :
  quota_rep es m → es !! i = Some e → InUse e = true → InUse e' = true → User e' = User e → Volume e' = Volume e →
  quota_rep (<[i := e']> es) (<[key_of e := (Used e', WarningThreshold e', HardLimit e')]> m).
Proof.
  intros [Hlen Hu Hfr Hinj Hm] He Huse Huse' EU EV. pose proof (lookup_lt_Some _ _ _ He) as Hlt.
  assert (Hk : key_of e' = key_of e) by (unfold key_of; by rewrite EU, EV).
  assert (Hin : ∀ x, x ∈ <[i := e']> es → x = e' ∨ (x ∈ es ∧ (InUse x = true → key_of x ≠ key_of e))).
  { intros x [j Hj]%list_elem_of_lookup_1. destruct (decide (i = j)) as [<-|Hne].
    - rewrite list_lookup_insert_eq in Hj by done. left. congruence.
    - rewrite list_lookup_insert_ne in Hj by done. right. split; [by eapply list_elem_of_lookup_2|].
      intros Hx Hkx. apply Hne. by eapply (Hinj i j e x). }
  constructor.
  - by rewrite length_insert.
  - intros x [->|[Hx _]]%Hin; [rewrite EU; apply Hu; by eapply list_elem_of_lookup_2|by apply Hu].
  - intros x [->|[Hx _]]%Hin; [by rewrite Huse'|by apply Hfr].
  - intros j k x y Hj Hk' Hx Hy Hxy.
    assert (Hold : ∀ j x, <[i := e']> es !! j = Some x → InUse x = true →
      ∃ x0, es !! j = Some x0 ∧ InUse x0 = true ∧ key_of x0 = key_of x).
    { intros j0 x0 Hj0 Hx0. destruct (decide (i = j0)) as [<-|Hne].
      - rewrite list_lookup_insert_eq in Hj0 by done. injection Hj0 as <-. exists e. by split_and!.
      - rewrite list_lookup_insert_ne in Hj0 by done. by exists x0. }
    destruct (Hold _ _ Hj Hx) as (x0 & ? & ? & ?). destruct (Hold _ _ Hk' Hy) as (y0 & ? & ? & ?).
    apply (Hinj j k x0 y0); congruence.
  - intros k x. rewrite lookup_insert. case_decide as E.
    + subst k. split.
      * intros [= <-]. exists e'. split_and!; [|done|done|done].
        apply list_elem_of_lookup_2 with i. by rewrite list_lookup_insert_eq.
      * intros (y & [->|[Hy Hne]]%Hin & Huy & Hky & ->); [done|]. by destruct (Hne Huy).
    + rewrite Hm. split.
      * intros (y & [j Hj]%list_elem_of_lookup_1 & Huy & Hky & ->). exists y. split; [|done].
        apply list_elem_of_lookup_2 with j. rewrite list_lookup_insert_ne; [done|]. intros <-. congruence.
      * intros (y & [->|[Hy _]]%Hin & Huy & Hky & ->); [congruence|]. by exists y.
Qed.

(** A free record becomes the record of a new key. *)
Lemma rep_claim es m i e v u w h :
  quota_rep es m → es !! i = Some e → InUse e = false → (∀ x, x ∈ es → InUse x = true → key_of x ≠ key v u) →
  quota_rep (<[i := with_limits w h (claim v u e)]> es) (<[key v u := (0, w, h)]> m).
Proof.
  intros [Hlen Hu Hfr Hinj Hm] He Hfree Hnew. pose proof (lookup_lt_Some _ _ _ He) as Hlt.
  assert (Hein : e ∈ es) by (by eapply list_elem_of_lookup_2).
  set (e' := with_limits w h (claim v u e)).
  assert (Hk : key_of e' = key v u).
  { unfold key_of, key, e'. simpl. f_equal. apply copy_str_cname. rewrite (Hu e Hein). lia. }
  assert (Hat : ∀ j x, <[i := e']> es !! j = Some x → (j = i ∧ x = e') ∨ (j ≠ i ∧ es !! j = Some x)).
  { intros j x Hj. destruct (decide (i = j)) as [<-|Hne].
    - rewrite list_lookup_insert_eq in Hj by done. left. split; congruence.
    - rewrite list_lookup_insert_ne in Hj by done. by right. }
  assert (Hin : ∀ x, x ∈ <[i := e']> es → x = e' ∨ x ∈ es).
  { intros x [j Hj]%list_elem_of_lookup_1. apply Hat in Hj as [[_ ->]|[_ Hj]]; [by left|right; by eapply list_elem_of_lookup_2]. }
  constructor.
  - by rewrite length_insert.
  - intros x [->|Hx]%Hin; [|by apply Hu]. unfold e'. simpl.
    rewrite (proj1 (copy_str_chr 32 (User e) u 0 0 ltac:(rewrite (Hu e Hein); lia))). by apply Hu.
  - intros x [->|Hx]%Hin; [done|by apply Hfr].
  - intros j k x y [[-> ->]|[Hj1 Hj]]%Hat [[-> ->]|[Hk1 Hk2]]%Hat Hx Hy Hxy; [done| | |by eapply Hinj].
    + exfalso. apply (Hnew y); [by eapply list_elem_of_lookup_2|done|congruence].
    + exfalso. apply (Hnew x); [by eapply list_elem_of_lookup_2|done|congruence].
  - intros k x. rewrite lookup_insert. case_decide as E.
    + subst k. split.
      * intros [= <-]. exists e'. split_and!; [|done|done|unfold e'; simpl; by rewrite (Hfr e Hein Hfree)].
        apply list_elem_of_lookup_2 with i. by rewrite list_lookup_insert_eq.
      * intros (y & [->|Hy]%Hin & Huy & Hky & ->); [unfold e'; simpl; by rewrite (Hfr e Hein Hfree)|].
        by destruct (Hnew y Hy Huy).
    + rewrite Hm. split.
      * intros (y & [j Hj]%list_elem_of_lookup_1 & Huy & Hky & ->). exists y. split; [|done].
        apply list_elem_of_lookup_2 with j. rewrite list_lookup_insert_ne; [done|]. intros <-. congruence.
      * intros (y & [->|Hy]%Hin & Huy & Hky & ->); [congruence|]. by exists y.
Qed.

Lemma alter_at {A} (f : A → A) (l : list A) (i : nat) x : l !! i = Some x → alter f i l = <[i := f x]> l.
Proof.
  intros Hx. apply list_eq. intros j. destruct (decide (i = j)) as [<-|Hne].
  - rewrite list_lookup_alter_eq, Hx, list_lookup_insert_eq by (by eapply lookup_lt_Some). done.
  - by rewrite list_lookup_alter_ne, list_lookup_insert_ne.
Qed.

(** The four operations on the map. *)
Definition spec_charge (Bytes : Z) (x : Z * Z * Z) : Z * (Z * Z * Z) :=
  let '(used, w, h) := x in
  if (h =? 0) || (u64 (used + Bytes) <=? h) then (STATUS_SUCCESS, (u64 (used + Bytes), w, h))
  else (STATUS_DISK_QUOTA_EXCEEDED, x).

(** The quota table refines a finite map from (volume, user name) to usage
    and limits, names counting up to their terminator or 32 characters.
    QuotaQuery looks a key up; QuotaSet sets the limits of a key, creating it
    with no usage, and fails with STATUS_NO_MEMORY and no effect only when the
    key is new and all 64 records are taken; QuotaCharge adds to the usage of a
    key unless the sum exceeds a non-zero hard limit, and allows every user
    without a record; QuotaReturn subtracts, stopping at 0.  The sum is taken
    modulo 2^64, so a charge that wraps passes the limit. *)
Theorem quota_refines_map es m v u :
  quota_rep es m →
  QuotaQuery v u es = (if m !! key v u is Some _ then STATUS_SUCCESS else STATUS_NOT_FOUND, m !! key v u) ∧
  (∀ w h, let '(st, es') := QuotaSet v u w h es in
     (st = STATUS_SUCCESS ∧
      quota_rep es' (<[key v u := (default 0 ((λ x, x.1.1) <$> m !! key v u), w, h)]> m)) ∨
     (st = STATUS_NO_MEMORY ∧ es' = es ∧ m !! key v u = None ∧ ∀ e, e ∈ es → InUse e = true)) ∧
  (∀ n, let '(st, es') := QuotaCharge v u n es in
     match m !! key v u with
     | None => st = STATUS_SUCCESS ∧ es' = es
     | Some x => st = (spec_charge n x).1 ∧ quota_rep es' (<[key v u := (spec_charge n x).2]> m)
     end) ∧
  (∀ n, let '(st, es') := QuotaReturn v u n es in
     match m !! key v u with
     | None => st = STATUS_NOT_FOUND ∧ es' = es
     | Some (used, w, h) => st = STATUS_SUCCESS ∧
         quota_rep es' (<[key v u := (if used <? n then 0 else used - n, w, h)]> m)
     end).
Proof.
  intros Hrep. pose proof (find_spec es m v u Hrep) as Hf.
  unfold QuotaQuery, QuotaSet, QuotaCharge, QuotaReturn.
  destruct (QuotaFind es v u) as [i|].
  - destruct Hf as (e & He & Hu & Hk & Hm). rewrite Hm. cbn [mbind option_bind fmap option_fmap option_map default]. rewrite He.
    cbn [fmap option_fmap option_map]. rewrite <- Hk. split_and!; [done| | |].
    + intros w h. left. split; [done|]. rewrite (alter_at _ _ _ _ He). by apply (rep_update es m i e (with_limits w h e)).
    + intros n. unfold spec_charge, truthy. destruct (Z.eqb_spec (HardLimit e) 0) as [E|E]; simpl.
      * split; [done|]. by apply (rep_update es m i e (with_used (u64 (Used e + n)) e)).
      * destruct (Z.ltb_spec (HardLimit e) (u64 (Used e + n))); destruct (Z.leb_spec (u64 (Used e + n)) (HardLimit e)); try lia.
        -- split; [done|]. simpl. by rewrite insert_id by (by rewrite Hk).
        -- split; [done|]. by apply (rep_update es m i e (with_used (u64 (Used e + n)) e)).
    + intros n. split; [done|]. by apply (rep_update es m i e (with_used _ e)).
  - destruct Hf as [Hm Hno]. rewrite Hm. cbn [mbind option_bind]. split_and!; [done| |done|done].
    intros w h. destruct (first_idx (λ e, negb (InUse e)) es) as [i|] eqn:Hi.
    + left. split; [done|]. apply first_idx_Some in Hi as [(e & He & Hfree) _]. apply negb_true_iff in Hfree.
      rewrite (alter_at _ _ _ _ He). by apply rep_claim.
    + right. split_and!; [done..|]. intros e [j Hj]%list_elem_of_lookup_1.
      rewrite first_idx_None in Hi. specialize (Hi j e Hj). simpl in Hi. by destruct (InUse e).
Qed.

(** ** Concrete runs *)

Lemma empty_rep : quota_rep (replicate QUOTA_MAX_ENTRIES zero_quota) ∅.
Proof.
  constructor.
  - by rewrite length_replicate.
  - by intros e [-> _]%elem_of_replicate.
  - by intros e [-> _]%elem_of_replicate.
  - intros i j e f [-> _]%lookup_replicate [-> _]%lookup_replicate Hu. discriminate Hu.
  - intros k x. rewrite lookup_empty. split; [done|]. intros (e & [-> _]%elem_of_replicate & Hu & _). discriminate Hu.
Qed.

Lemma quota_refines_map_witness :
  (QuotaSet 67 [97] 5 10 (replicate QUOTA_MAX_ENTRIES zero_quota)).1 = STATUS_SUCCESS ∧
  quota_rep (QuotaSet 67 [97] 5 10 (replicate QUOTA_MAX_ENTRIES zero_quota)).2 {[ (67, [97]) := (0, 5, 10) ]}.
Proof.
  destruct (quota_refines_map _ ∅ 67 [97] empty_rep) as (_ & Hs & _ & _). specialize (Hs 5 10).
  assert (Hst : (QuotaSet 67 [97] 5 10 (replicate QUOTA_MAX_ENTRIES zero_quota)).1 = STATUS_SUCCESS) by (vm_compute; reflexivity).
  split; [exact Hst|]. destruct (QuotaSet 67 [97] 5 10 _) as [st es'] eqn:E.
  destruct Hs as [[_ Hr]|(Hbad & _)]; [exact Hr|]. rewrite Hbad in Hst. discriminate Hst.
Defined.

(** The wrap-around past the limit. *)
Example quota_wraps :
  let es := (QuotaSet 67 [97] 0 100 (replicate QUOTA_MAX_ENTRIES zero_quota)).2 in
  let es := (QuotaCharge 67 [97] 50 es).2 in
  (QuotaCharge 67 [97] 18446744073709551600 es).1 = STATUS_SUCCESS.
Proof. vm_compute. reflexivity. Qed.
