(* ===== verification/Job.v ===== *)
(** * Job: job objects (src/ps/job.c)

    A table of 32 process groups with limits and counters.  A process is named
    by its address; 0 is the NULL of an empty member slot. *)

From S2P Require Import Prelude.

#[local] Open Scope Z_scope.

Record EJOB := mkJob {
  JName : list Z;
  JInUse : bool;
  PerProcessUserTimeLimit : Z;
  PerProcessKernelTimeLimit : Z;
  TotalUserTimeLimit : Z;
  TotalKernelTimeLimit : Z;
  WorkingSetLimit : Z;
  ProcessCountLimit : Z;
  ActiveProcesses : Z;
  TerminatedProcesses : Z;
  TotalUserTime : Z;
  TotalKernelTime : Z;
  PeakWorkingSetSize : Z;
  Members : list Z
}.

Definition JOB_MAX_OBJECTS : nat := 32.
Definition JOB_MAX_MEMBERS : nat := 32.
Definition STATUS_DISK_QUOTA_EXCEEDED := 0xC0000042.

(** [RtlZeroMemory(&g_Jobs[i], sizeof(EJOB))]. *)
Definition zero_job : EJOB :=
  mkJob (replicate 64 0) false 0 0 0 0 0 0 0 0 0 0 0 (replicate JOB_MAX_MEMBERS 0).

(** The first 63 characters of the name, zero-filled. *)
Fixpoint name_prefix (n : nat) (Name : list Z) : list Z :=
  match n, Name with
  | S n', c :: l => if c =? 0 then [] else c :: name_prefix n' l
  | _, _ => []
  end.
Definition job_name (Name : option (list Z)) : list Z :=
  let p := match Name with Some l => name_prefix 63 l | None => [] end in
  p ++ replicate (64 - length p) 0.

Definition PsCreateJob (Name : option (list Z)) (js : list EJOB) : Z * option Z * list EJOB :=
  match first_idx (λ j, negb (JInUse j)) js with
  | Some i =>
      (STATUS_SUCCESS, Some (Z.of_nat i),
       <[i := mkJob (job_name Name) true 0 0 0 0 0 0 0 0 0 0 0 (replicate JOB_MAX_MEMBERS 0)]> js)
  | None => (STATUS_NO_MEMORY, None, js)
  end.

(** [JobId < JOB_MAX_OBJECTS && g_Jobs[JobId].InUse]. *)
Definition live_job (js : list EJOB) (JobId : Z) : option EJOB :=
  match js !! Z.to_nat JobId with
  | Some j => if (JobId <? 32) && JInUse j then Some j else None
  | None => None
  end.

Definition PsDeleteJob (JobId : Z) (js : list EJOB) : Z * list EJOB :=
  match live_job js JobId with
  | None => (STATUS_INVALID_PARAMETER, js)
  | Some _ => (STATUS_SUCCESS, <[Z.to_nat JobId := zero_job]> js)
  end.

Definition with_members (l : list Z) (active term peak : Z) (j : EJOB) : EJOB :=
  mkJob (JName j) (JInUse j) (PerProcessUserTimeLimit j) (PerProcessKernelTimeLimit j)
    (TotalUserTimeLimit j) (TotalKernelTimeLimit j) (WorkingSetLimit j) (ProcessCountLimit j)
    active term (TotalUserTime j) (TotalKernelTime j) peak l.

Definition PsAssignProcessToJob (JobId Process : Z) (js : list EJOB) : Z * list EJOB :=
  match live_job js JobId with
  | None => (STATUS_INVALID_PARAMETER, js)
  | Some j =>
      if Process =? 0 then (STATUS_INVALID_PARAMETER, js)
      else
        match first_idx (λ p, p =? 0) (Members j) with
        | Some i =>
            let active := u32 (ActiveProcesses j + 1) in
            let peak := if PeakWorkingSetSize j <? active then active else PeakWorkingSetSize j in
            let j' := with_members (<[i := Process]> (Members j)) active (TerminatedProcesses j) peak j in
            (if truthy (ProcessCountLimit j) && (ProcessCountLimit j <? active)
             then STATUS_DISK_QUOTA_EXCEEDED else STATUS_SUCCESS,
             <[Z.to_nat JobId := j']> js)
        | None => (STATUS_NO_MEMORY, js)
        end
  end.

Definition PsRemoveProcessFromJob (JobId Process : Z) (js : list EJOB) : Z * list EJOB :=
  match live_job js JobId with
  | None => (STATUS_INVALID_PARAMETER, js)
  | Some j =>
      if Process =? 0 then (STATUS_INVALID_PARAMETER, js)
      else
        match first_idx (λ p, p =? Process) (Members j) with
        | Some i =>
            let active := if truthy (ActiveProcesses j) then ActiveProcesses j - 1 else 0 in
            (STATUS_SUCCESS,
             <[Z.to_nat JobId := with_members (<[i := 0]> (Members j)) active
                                   (u32 (TerminatedProcesses j + 1)) (PeakWorkingSetSize j) j]> js)
        | None => (STATUS_NOT_FOUND, js)
        end
  end.

Definition PsSetJobLimits (JobId PerUser PerKernel TotUser TotKernel WorkingSet Count : Z)
    (js : list EJOB) : Z * list EJOB :=
  match live_job js JobId with
  | None => (STATUS_INVALID_PARAMETER, js)
  | Some j =>
      (STATUS_SUCCESS,
       <[Z.to_nat JobId := mkJob (JName j) (JInUse j) PerUser PerKernel TotUser TotKernel WorkingSet Count
           (ActiveProcesses j) (TerminatedProcesses j) (TotalUserTime j) (TotalKernelTime j)
           (PeakWorkingSetSize j) (Members j)]> js)
  end.

Definition PsQueryJobInfo (JobId : Z) (js : list EJOB) : Z * option (Z * Z * Z * Z) :=
  match live_job js JobId with
  | None => (STATUS_INVALID_PARAMETER, None)
  | Some j => (STATUS_SUCCESS, Some (ActiveProcesses j, TerminatedProcesses j, TotalUserTime j, TotalKernelTime j))
  end.

Definition PsGetJobCount (js : list EJOB) : Z := countb JInUse js.

(** ** Calls *)

Inductive JOB_CALL :=
| CallCreate (Name : option (list Z))
| CallDelete (id : Z)
| CallAssign (id p : Z)
| CallRemove (id p : Z)
| CallLimits (id a b c d e n : Z).

Definition job_call (c : JOB_CALL) (js : list EJOB) : list EJOB :=
  match c with
  | CallCreate n => (PsCreateJob n js).2
  | CallDelete id => (PsDeleteJob id js).2
  | CallAssign id p => (PsAssignProcessToJob id p js).2
  | CallRemove id p => (PsRemoveProcessFromJob id p js).2
  | CallLimits id a b c d e n => (PsSetJobLimits id a b c d e n js).2
  end.

(** Calls in a row, from the table [js]; the kernel starts with a zeroed one. *)
Definition job_calls (js : list EJOB) (cs : list JOB_CALL) : list EJOB := foldl (λ js c, job_call c js) js cs.
Definition no_jobs : list EJOB := replicate JOB_MAX_OBJECTS zero_job.

(** ** Well-formed job tables *)

Definition members (j : EJOB) : Z := countb (λ p, negb (p =? 0)) (Members j).

Record job_wf (j : EJOB) : Prop := {
  jw_len : length (Members j) = JOB_MAX_MEMBERS;
  jw_name : length (JName j) = 64%nat;
  jw_active : ActiveProcesses j = members j;
  jw_peak : ActiveProcesses j ≤ PeakWorkingSetSize j;
  jw_free : JInUse j = false → j = zero_job
}.

Definition jobs_wf (js : list EJOB) : Prop := length js = JOB_MAX_OBJECTS ∧ Forall job_wf js.

Lemma countb_all {A} (p : A → bool) l : (∀ i x, l !! i = Some x → p x = true) → countb p l = Z.of_nat (length l).
Proof.
  induction l as [|y l IH]; intros Hall; [done|]. rewrite countb_cons, (Hall 0%nat y eq_refl), IH; [cbn [length]; lia|].
  intros i x Hx. by apply (Hall (S i)).
Qed.

Lemma zero_job_wf : job_wf zero_job.
Proof. constructor; done. Qed.

Lemma members_bound j : job_wf j → 0 ≤ members j ≤ 32.
Proof. intros [Hl _ _ _ _]. unfold members. pose proof (countb_bounds (λ p, negb (p =? 0)) (Members j)). unfold JOB_MAX_MEMBERS in Hl. lia. Qed.

Lemma name_prefix_length n l : (length (name_prefix n l) ≤ n)%nat.
Proof. revert l. induction n as [|n IH]; intros [|c l]; simpl; try lia. case_if; simpl; [lia|]. specialize (IH l). lia. Qed.

Lemma job_name_length Name : length (job_name Name) = 64%nat.
Proof.
  unfold job_name. destruct Name as [l|]; [|done]. rewrite length_app, length_replicate.
  pose proof (name_prefix_length 63 l). lia.
Qed.

Lemma live_job_Some js id j : live_job js id = Some j → js !! Z.to_nat id = Some j ∧ JInUse j = true ∧ id < 32.
Proof.
  unfold live_job. destruct (js !! Z.to_nat id) as [x|]; [|done]. case_if; [|done]. intros [= <-]. bool_hyps. split_and!; [done..|lia].
Qed.

Lemma live_job_insert js id j :
  (Z.to_nat id < length js)%nat → id < 32 → JInUse j = true → live_job (<[Z.to_nat id := j]> js) id = Some j.
Proof.
  intros Hl Hid Hu. unfold live_job. rewrite list_lookup_insert_eq by done.
  replace (id <? 32) with true by lia. by rewrite Hu.
Qed.

(** What assigning does to one job. *)
Lemma assign_wf j i p :
  job_wf j → JInUse j = true → p ≠ 0 → first_idx (λ p, p =? 0) (Members j) = Some i →
  let active := ActiveProcesses j + 1 in
  members j < 32 ∧ u32 active = active ∧
  job_wf (with_members (<[i := p]> (Members j)) active (TerminatedProcesses j)
            (if PeakWorkingSetSize j <? active then active else PeakWorkingSetSize j) j).
Proof.
  intros Hwf Hu Hp Hi active. pose proof (members_bound j Hwf) as Hb. destruct Hwf as [Hl Hn Ha Hpk Hf].
  apply first_idx_Some in Hi as [(x & Hx & Hz) _]. apply Z.eqb_eq in Hz as ->.
  assert (Hc : members (with_members (<[i := p]> (Members j)) active (TerminatedProcesses j) 0 j) = members j + 1).
  { unfold members. simpl. rewrite (countb_insert _ _ _ 0 p Hx). simpl. replace (p =? 0) with false by lia. simpl. lia. }
  assert (Hlt : members j < 32).
  { unfold members in *. simpl in Hc. pose proof (countb_bounds (λ p, negb (p =? 0)) (<[i := p]> (Members j))) as Hb'.
    rewrite length_insert, Hl in Hb'. unfold JOB_MAX_MEMBERS in Hb'. lia. }
  split_and!; [done|unfold active; rewrite Ha, u32_small; lia|].
  constructor; simpl; [by rewrite length_insert|done| |case_if; lia|congruence].
  change (active = members (with_members (<[i := p]> (Members j)) active (TerminatedProcesses j) 0 j)). rewrite Hc. subst active. lia.
Qed.

Lemma remove_wf j i p t :
  job_wf j → JInUse j = true → p ≠ 0 → first_idx (λ q, q =? p) (Members j) = Some i →
  0 < ActiveProcesses j ∧
  job_wf (with_members (<[i := 0]> (Members j)) (ActiveProcesses j - 1) t (PeakWorkingSetSize j) j).
Proof.
  intros Hwf Hu Hp Hi. pose proof (members_bound j Hwf) as Hb. destruct Hwf as [Hl Hn Ha Hpk Hf].
  apply first_idx_Some in Hi as [(x & Hx & Hz) _]. apply Z.eqb_eq in Hz as ->.
  assert (Hpos : 1 ≤ members j) by (apply (countb_elem _ _ i p); [done|]; by replace (p =? 0) with false by lia).
  split; [lia|]. constructor; simpl; [by rewrite length_insert|done| |lia|congruence].
  unfold members. simpl. rewrite (countb_insert _ _ _ p 0 Hx). simpl. replace (p =? 0) with false by lia. simpl.
  unfold members in Ha. lia.
Qed.

Lemma jobs_insert js i j : jobs_wf js → job_wf j → jobs_wf (<[i := j]> js).
Proof. intros [Hl Hf] Hj. split; [by rewrite length_insert|by apply Forall_insert]. Qed.

Lemma jobs_lookup js i j : jobs_wf js → js !! i = Some j → job_wf j.
Proof. intros [_ Hf] Hj. by eapply Forall_lookup_1. Qed.

Lemma job_call_wf c js : jobs_wf js → jobs_wf (job_call c js).
Proof.
  intros Hwf. destruct c as [n|id|id p|id p|id a b c d e n]; cbn [job_call].
  - unfold PsCreateJob. destruct (first_idx _ js) as [i|]; [|done]. apply jobs_insert; [done|].
    constructor; try done. apply job_name_length.
  - unfold PsDeleteJob. destruct (live_job js id); [|done]. apply jobs_insert; [done|apply zero_job_wf].
  - unfold PsAssignProcessToJob. destruct (live_job js id) as [j|] eqn:Hj; [|done].
    apply live_job_Some in Hj as (Hj & Hu & _). destruct (Z.eqb_spec p 0); [done|].
    destruct (first_idx _ (Members j)) as [i|] eqn:Hi; [|done].
    destruct (assign_wf j i p (jobs_lookup _ _ _ Hwf Hj) Hu ltac:(lia) Hi) as (_ & -> & Hw). by apply jobs_insert.
  - unfold PsRemoveProcessFromJob. destruct (live_job js id) as [j|] eqn:Hj; [|done].
    apply live_job_Some in Hj as (Hj & Hu & _). destruct (Z.eqb_spec p 0); [done|].
    destruct (first_idx _ (Members j)) as [i|] eqn:Hi; [|done].
    destruct (remove_wf j i p (u32 (TerminatedProcesses j + 1)) (jobs_lookup _ _ _ Hwf Hj) Hu ltac:(lia) Hi) as [Hpos Hw].
    unfold truthy. replace (ActiveProcesses j =? 0) with false by lia. by apply jobs_insert.
  - unfold PsSetJobLimits. destruct (live_job js id) as [j|] eqn:Hj; [|done].
    apply live_job_Some in Hj as (Hj & Hu & _). apply jobs_insert; [done|].
    destruct (jobs_lookup _ _ _ Hwf Hj). constructor; simpl; try done. congruence.
Qed.

Lemma no_jobs_wf : jobs_wf no_jobs.
Proof. split; [by unfold no_jobs; rewrite length_replicate|]. apply Forall_replicate, zero_job_wf. Qed.

Lemma job_calls_wf js cs : jobs_wf js → jobs_wf (job_calls js cs).
Proof. revert js. induction cs as [|c cs IH]; intros js Hjs; [done|]. by apply IH, job_call_wf. Qed.

(** Assigning a process to a job.  The process takes the lowest free slot and
    is counted, also when that exceeds the job's process limit: the call then
    reports STATUS_DISK_QUOTA_EXCEEDED but the process stays a member.  A full
    job gives STATUS_NO_MEMORY with no effect.  Removing the process afterwards
    frees the slot again. *)
Theorem job_assign_remove js id p j :
  jobs_wf js → live_job js id = Some j → 0 ≤ id → p ≠ 0 → p ∉ Members j →
  let '(st, js') := PsAssignProcessToJob id p js in
  match first_idx (λ q, q =? 0) (Members j) with
  | None => st = STATUS_NO_MEMORY ∧ js' = js ∧ members j = 32
  | Some i =>
      ∃ j', live_job js' id = Some j' ∧ Members j' = <[i := p]> (Members j) ∧
        ActiveProcesses j' = ActiveProcesses j + 1 ∧
        (st = STATUS_DISK_QUOTA_EXCEEDED ↔ ProcessCountLimit j ≠ 0 ∧ ProcessCountLimit j < ActiveProcesses j') ∧
        (st = STATUS_SUCCESS ∨ st = STATUS_DISK_QUOTA_EXCEEDED) ∧
        let '(st2, js2) := PsRemoveProcessFromJob id p js' in
        ∃ j2, st2 = STATUS_SUCCESS ∧ live_job js2 id = Some j2 ∧ Members j2 = Members j ∧
          ActiveProcesses j2 = ActiveProcesses j
  end.
Proof.
  intros Hwf Hlive Hid Hp Hnew. apply live_job_Some in Hlive as Hl. destruct Hl as (Hj & Hu & H32).
  pose proof (jobs_lookup _ _ _ Hwf Hj) as Hw. pose proof (lookup_lt_Some _ _ _ Hj) as Hlt.
  unfold PsAssignProcessToJob. rewrite Hlive. replace (p =? 0) with false by lia.
  destruct (first_idx (λ q, q =? 0) (Members j)) as [i|] eqn:Hi.
  - destruct (assign_wf j i p Hw Hu Hp Hi) as (_ & E32 & Hw'). rewrite E32.
    set (j' := with_members _ _ _ _ j) in *. exists j'.
    assert (Hl' : live_job (<[Z.to_nat id := j']> js) id = Some j') by (by apply live_job_insert).
    assert (Hfi : first_idx (λ q, q =? p) (Members j') = Some i).
    { apply first_idx_Some in Hi as [(x & Hx & _) _]. pose proof (lookup_lt_Some _ _ _ Hx). apply first_idx_Some. split.
      - exists p. simpl. rewrite list_lookup_insert_eq by done. split; [done|apply Z.eqb_refl].
      - intros k y Hk Hy. simpl in Hy. rewrite list_lookup_insert_ne in Hy by lia. apply Z.eqb_neq. intros ->.
        apply Hnew. by eapply list_elem_of_lookup_2. }
    split_and!; [done|done|done| | |].
    + change (ActiveProcesses j') with (ActiveProcesses j + 1). unfold truthy.
      destruct (Z.eqb_spec (ProcessCountLimit j) 0); destruct (Z.ltb_spec (ProcessCountLimit j) (ActiveProcesses j + 1)); simpl;
        split; try done; try lia; intros [? ?]; lia.
    + case_if; [by right|by left].
    + unfold PsRemoveProcessFromJob. rewrite Hl'. replace (p =? 0) with false by lia. rewrite Hfi.
      eexists. split_and!; [done|rewrite list_insert_insert_eq; by apply live_job_insert| |].
      * simpl. rewrite list_insert_insert_eq. apply first_idx_Some in Hi as [(x & Hx & Hz) _]. apply Z.eqb_eq in Hz as ->.
        by apply list_insert_id.
      * change (ActiveProcesses j') with (ActiveProcesses j + 1). unfold truthy. pose proof (members_bound j Hw).
        rewrite (jw_active _ Hw). replace (members j + 1 =? 0) with false by lia. simpl. lia.
  - split_and!; [done..|]. unfold members. rewrite first_idx_None in Hi.
    replace 32 with (Z.of_nat (length (Members j))) by (by rewrite (jw_len _ Hw)).
    apply countb_all. intros k x Hk. by rewrite (Hi k x Hk).
Qed.

(** [C22] The job table stays well formed: the zeroed table is, and from any
    well-formed table every sequence of calls, valid or not, leads to one, in
    which every job has 32 member slots, ActiveProcesses exactly the number of
    occupied slots and, when unused, all its fields zero.  In the table reached,
    a query reports the members of a live job and fails for any other; a process
    that is not a member yet and is assigned to a job with a free slot is counted
    by the next query, and removing it restores the count. *)
Theorem job_table_wf (js0 : list EJOB) (cs : list JOB_CALL) (Hwf : jobs_wf js0) :
  let js := job_calls js0 cs in
  jobs_wf no_jobs ∧ jobs_wf js ∧
  (∀ id, PsQueryJobInfo id js =
     match live_job js id with
     | None => (STATUS_INVALID_PARAMETER, None)
     | Some j => (STATUS_SUCCESS, Some (members j, TerminatedProcesses j, TotalUserTime j, TotalKernelTime j))
     end) ∧
  (∀ id p j, live_job js id = Some j → 0 ≤ id → p ≠ 0 → p ∉ Members j → members j < 32 →
     (∃ t u k, PsQueryJobInfo id (job_calls js [CallAssign id p]) =
        (STATUS_SUCCESS, Some (members j + 1, t, u, k))) ∧
     (∃ t u k, PsQueryJobInfo id (job_calls js [CallAssign id p; CallRemove id p]) =
        (STATUS_SUCCESS, Some (members j, t, u, k)))).
Proof.
  intros js. assert (Hjs : jobs_wf js) by (by apply job_calls_wf).
  split_and!; [apply no_jobs_wf|done| |].
  - intros id. unfold PsQueryJobInfo. destruct (live_job js id) as [j|] eqn:Hj; [|done].
    apply live_job_Some in Hj as (Hj & _ & _). by rewrite (jw_active _ (jobs_lookup _ _ _ Hjs Hj)).
  - intros id p j Hj Hid Hp Hnew Hlt. pose proof (job_assign_remove js id p j Hjs Hj Hid Hp Hnew) as Ha.
    apply live_job_Some in Hj as (Hj & _ & _). pose proof (jw_active _ (jobs_lookup _ _ _ Hjs Hj)) as Hact.
    unfold job_calls; cbn [foldl job_call].
    destruct (PsAssignProcessToJob id p js) as [st js1].
    destruct (first_idx _ (Members j)) as [i|]; [|lia].
    destruct Ha as (j1 & Hl1 & _ & Ha1 & _ & _ & Hr). cbn [snd]. destruct (PsRemoveProcessFromJob id p js1) as [st2 js2].
    destruct Hr as (j2 & _ & Hl2 & _ & Ha2). cbn [snd]. unfold PsQueryJobInfo. rewrite Hl1, Hl2, Ha1, Ha2, Hact. split; by do 3 eexists.
Qed.

(** ** Concrete runs *)

Lemma job_table_wf_witness :
  let cs := [CallCreate None; CallAssign 0 5; CallAssign 0 6; CallRemove 0 5; CallAssign 40 7] in
  jobs_wf (job_calls no_jobs cs) ∧
  ∃ j, live_job (job_calls no_jobs cs) 0 = Some j ∧
    PsQueryJobInfo 0 (job_calls no_jobs cs) = (STATUS_SUCCESS, Some (members j, 1, 0, 0)).
Proof.
  intros cs. destruct (job_table_wf no_jobs cs no_jobs_wf) as (_ & Hwf & Hq & _). split; [exact Hwf|].
  specialize (Hq 0). destruct (live_job (job_calls no_jobs cs) 0) as [j|] eqn:Hj; [|vm_compute in Hj; discriminate Hj].
  exists j. split; [reflexivity|]. rewrite Hq. vm_compute in Hj. injection Hj as <-. reflexivity.
Defined.

Lemma job_assign_remove_witness :
  let js := job_calls no_jobs [CallCreate None; CallLimits 0 0 0 0 0 0 1; CallAssign 0 5] in
  (PsAssignProcessToJob 0 6 js).1 = STATUS_DISK_QUOTA_EXCEEDED ∧
  (ActiveProcesses <$> live_job (PsAssignProcessToJob 0 6 js).2 0) = Some 2.
Proof.
  intros js. assert (Hst : (PsAssignProcessToJob 0 6 js).1 = STATUS_DISK_QUOTA_EXCEEDED) by (vm_compute; reflexivity).
  split; [exact Hst|]. destruct (live_job js 0) as [j|] eqn:Hj; [|vm_compute in Hj; discriminate Hj].
  assert (Ej : j = mkJob (job_name None) true 0 0 0 0 0 1 1 0 0 0 1 (5 :: replicate 31 0)) by (vm_compute in Hj; injection Hj as <-; reflexivity).
  pose proof (job_assign_remove js 0 6 j (job_calls_wf _ _ no_jobs_wf) Hj ltac:(lia) ltac:(lia)) as Ha.
  destruct (PsAssignProcessToJob 0 6 js) as [st js']. rewrite Ej in Ha.
  destruct Ha as (j' & Hl & _ & Hact & _); [|cbn [snd]; rewrite Hl; cbn; by rewrite Hact].
  apply (bool_decide_unpack (6 ∉ Members _)). vm_compute. exact I.
Defined.
