(* ===== verification/Atom.v ===== *)
(** * Atom: the global atom table (src/win32k/atom.c)

    Reference-counted names in a hash table of 256 chains.  An entry is a pool
    block; a chain is the list of its entries with their addresses.  A string
    argument is the list of its 16-bit characters, with or without a terminator.
    The specification is a finite map from atoms to a name and a count. *)

From S2P Require Import Prelude Irql Pool.

#[local] Open Scope Z_scope.

Definition ATOM_TABLE_SIZE : nat := 256.
Definition ATOM_MAX_NAME : nat := 255.
Definition sizeof_ATOM_ENTRY := 528.

(** NameLength is the length of the name. *)
Record ATOM_ENTRY := mkAtom { AtomId : Z; RefCount : Z; AName : list Z }.

Record AT_STATE (P : Type) := mkAt {
  g_AtomTable : list (list (Z * ATOM_ENTRY));
  g_AtomLock : Z;
  g_NextAtomId : Z;
  at_pool : P
}.
Arguments mkAt {P} _ _ _ _.
Arguments g_AtomTable {P} _.
Arguments g_AtomLock {P} _.
Arguments g_NextAtomId {P} _.
Arguments at_pool {P} _.

Definition set_table {P} (t : list (list (Z * ATOM_ENTRY))) (s : AT_STATE P) : AT_STATE P :=
  mkAt t (g_AtomLock s) (g_NextAtomId s) (at_pool s).
Definition set_AtomLock {P} (v : Z) (s : AT_STATE P) : AT_STATE P :=
  mkAt (g_AtomTable s) v (g_NextAtomId s) (at_pool s).
Definition set_NextAtomId {P} (v : Z) (s : AT_STATE P) : AT_STATE P :=
  mkAt (g_AtomTable s) (g_AtomLock s) v (at_pool s).
Definition set_at_pool {P} (p : P) (s : AT_STATE P) : AT_STATE P :=
  mkAt (g_AtomTable s) (g_AtomLock s) (g_NextAtomId s) p.

#[global] Instance AT_HasPcr {P} `{HasPcr P} : HasPcr (AT_STATE P).
Proof.
  refine {| pcr := λ s, pcr (at_pool s); set_pcr := λ k s, set_at_pool (set_pcr k (at_pool s)) s |}.
  - intros k s. apply pcr_set.
  - intros k k' []. unfold set_at_pool. simpl. by rewrite set_pcr_set.
  - intros []. unfold set_at_pool. simpl. by rewrite set_pcr_pcr.
Defined.

(** ** Names *)

(** [while (nameLen < ATOM_MAX_NAME && lpString[nameLen]) nameLen++], the
    characters it passes. *)
Fixpoint atom_name (left : nat) (str : list Z) : list Z :=
  match left, str with
  | S left', c :: str' => if c =? 0 then [] else c :: atom_name left' str'
  | _, _ => []
  end.

(** The hash goes over as many bytes as the name has characters. *)
Definition name_bytes (name : list Z) : list Z := name ≫= λ c, [c mod 256; c / 256].
Definition hash_step (hash b : Z) : Z := u32 (Z.lxor hash b * 16777619).
Definition AtomHash (name : list Z) : nat :=
  Z.to_nat (foldl hash_step 2166136261 (take (length name) (name_bytes name)) mod 256).

Definition lower (c : Z) : Z := if (65 <=? c) && (c <=? 90) then u16 (c + 32) else c.
Fixpoint equal_chars (a b : list Z) : bool :=
  match a, b with
  | x :: a', y :: b' => if lower x =? lower y then equal_chars a' b' else false
  | _, _ => true
  end.
Definition AtomEqualName (a b : list Z) : bool := (length a =? length b)%nat && equal_chars a b.

Section Atom.
Context {P : Type} `{PoolInterface P}.
Implicit Types (s : AT_STATE P).

Definition AtomLock : SpinLock (AT_STATE P).
Proof. refine (mkSpinLock g_AtomLock set_AtomLock _ _ _ _ _ _); try done. by intros []. Defined.

Definition at_do {A} (m : M P A) : M (AT_STATE P) A := zoom at_pool set_at_pool m.
Definition bucket s (h : nat) : list (Z * ATOM_ENTRY) := default [] (g_AtomTable s !! h).
Definition set_bucket (h : nat) (b : list (Z * ATOM_ENTRY)) s : AT_STATE P :=
  set_table (<[h := b]> (g_AtomTable s)) s.

Definition AtomInit : M (AT_STATE P) unit :=
  mmod (set_table (replicate ATOM_TABLE_SIZE []));; KeInitializeSpinLock AtomLock.

(** Every return of the C routines between lock and unlock unlocks first. *)
Definition under_lock {A} (body : M (AT_STATE P) A) : M (AT_STATE P) A :=
  irql ← KeAcquireSpinLock AtomLock;
  r ← body;
  KeReleaseSpinLock AtomLock irql;;
  mret r.

Definition with_refs (r : Z) (e : ATOM_ENTRY) : ATOM_ENTRY := mkAtom (AtomId e) r (AName e).

Definition add_atom (name : list Z) : M (AT_STATE P) (Z * option Z) :=
  let h := AtomHash name in
  b ← mgets (λ s, bucket s h);
  match first_idx (λ x, AtomEqualName (AName x.2) name) b with
  | Some i =>
      '(a, e) ← mderef (λ _, b !! i);
      mmod (set_bucket h (<[i := (a, with_refs (u16 (RefCount e + 1)) e)]> b));;
      mret (STATUS_SUCCESS, Some (AtomId e))
  | None =>
      entry ← at_do (pool_alloc 0 sizeof_ATOM_ENTRY 0);
      if entry =? 0 then mret (STATUS_NO_MEMORY, None)
      else
        id ← mgets g_NextAtomId;
        mmod (set_NextAtomId (u16 (id + 1)));;
        mmod (set_bucket h ((entry, mkAtom id 1 name) :: b));;
        mret (STATUS_SUCCESS, Some id)
  end.

(** [lpAtom] says whether that pointer is not null. *)
Definition GlobalAddAtomW (lpString : option (list Z)) (lpAtom : bool) : M (AT_STATE P) (Z * option Z) :=
  match lpString with
  | Some str => if lpAtom then under_lock (add_atom (atom_name ATOM_MAX_NAME str))
                else mret (STATUS_INVALID_PARAMETER, None)
  | None => mret (STATUS_INVALID_PARAMETER, None)
  end.

(** The two nested loops over chains and entries. *)
Definition has_id (nAtom : Z) (x : Z * ATOM_ENTRY) : bool := AtomId x.2 =? nAtom.
Definition find_atom s (nAtom : Z) : option (nat * nat) :=
  h ← first_idx (existsb (has_id nAtom)) (g_AtomTable s);
  i ← first_idx (has_id nAtom) (bucket s h);
  Some (h, i).

Definition delete_atom (nAtom : Z) : M (AT_STATE P) Z :=
  f ← mgets (λ s, find_atom s nAtom);
  match f with
  | None => mret STATUS_NOT_FOUND
  | Some (h, i) =>
      b ← mgets (λ s, bucket s h);
      '(a, e) ← mderef (λ _, b !! i);
      let r := u16 (RefCount e - 1) in
      if r =? 0 then
        mmod (set_bucket h (delete i b));;
        at_do (pool_free a 0);;
        mret STATUS_SUCCESS
      else
        mmod (set_bucket h (<[i := (a, with_refs r e)]> b));;
        mret STATUS_SUCCESS
  end.

Definition GlobalDeleteAtom (nAtom : Z) : M (AT_STATE P) Z :=
  if nAtom <? 0xC000 then mret STATUS_INVALID_PARAMETER else under_lock (delete_atom nAtom).

Definition find_name (name : list Z) : M (AT_STATE P) (Z * option Z) :=
  b ← mgets (λ s, bucket s (AtomHash name));
  match first_idx (λ x, AtomEqualName (AName x.2) name) b with
  | Some i => '(_, e) ← mderef (λ _, b !! i); mret (STATUS_SUCCESS, Some (AtomId e))
  | None => mret (STATUS_NOT_FOUND, None)
  end.

Definition GlobalFindAtomW (lpString : option (list Z)) (lpAtom : bool) : M (AT_STATE P) (Z * option Z) :=
  match lpString with
  | Some str => if lpAtom then under_lock (find_name (atom_name ATOM_MAX_NAME str))
                else mret (STATUS_INVALID_PARAMETER, None)
  | None => mret (STATUS_INVALID_PARAMETER, None)
  end.

(** The status and the characters stored in the buffer, terminator included. *)
Definition get_name (nAtom nMaxCount : Z) : M (AT_STATE P) (option (list Z)) :=
  f ← mgets (λ s, find_atom s nAtom);
  match f with
  | None => mret None
  | Some (h, i) =>
      '(_, e) ← mderef (λ s, bucket s h !! i);
      let len := Z.of_nat (length (AName e)) in
      let copyLen := if nMaxCount <=? len then nMaxCount - 1 else len in
      mret (Some (take (Z.to_nat copyLen) (AName e) ++ [0]))
  end.

Definition GlobalGetAtomNameW (nAtom : Z) (lpBuffer : bool) (nMaxCount : Z) : M (AT_STATE P) (Z * list Z) :=
  if negb lpBuffer || (nMaxCount <=? 0) then mret (STATUS_INVALID_PARAMETER, [])
  else if nAtom <? 0xC000 then mret (STATUS_INVALID_PARAMETER, [])
  else
    r ← under_lock (get_name nAtom nMaxCount);
    match r with
    | Some buf => mret (STATUS_SUCCESS, buf)
    | None => mret (STATUS_NOT_FOUND, [0])
    end.

(** ** The table as a finite map *)

(** Two names get the same atom: the hash sees case, the comparison does not. *)
Definition same_atom (a b : list Z) : Prop := AtomHash a = AtomHash b ∧ lower <$> a = lower <$> b.

Definition entry_in s (x : Z * ATOM_ENTRY) : Prop := ∃ h b, g_AtomTable s !! h = Some b ∧ x ∈ b.

Record atom_inv s (T : gmap Z (list Z * Z)) (m : gmap Z Z) : Prop := {
  ai_len : length (g_AtomTable s) = ATOM_TABLE_SIZE;
  ai_pcr : can_lock (pcr s);
  ai_pool : pool_rep (at_pool s) m;
  ai_map id n r : T !! id = Some (n, r) ↔ ∃ a, entry_in s (a, mkAtom id r n);
  ai_hash h b x : g_AtomTable s !! h = Some b → x ∈ b → AtomHash (AName x.2) = h;
  ai_nodup h b : g_AtomTable s !! h = Some b → NoDup b;
  ai_ids x y : entry_in s x → entry_in s y → AtomId x.2 = AtomId y.2 → x = y;
  ai_addrs x y : entry_in s x → entry_in s y → x.1 = y.1 → x = y;
  ai_class x y : entry_in s x → entry_in s y → same_atom (AName x.2) (AName y.2) → x = y;
  ai_live x : entry_in s x → m !! x.1 = Some 0;
  ai_refs x : entry_in s x → 0 ≤ RefCount x.2 < 65536;
  ai_next : 0 ≤ g_NextAtomId s < 65536
}.

Lemma equal_chars_spec a b : length a = length b → equal_chars a b = true ↔ lower <$> a = lower <$> b.
Proof.
  revert b. induction a as [|x a IH]; intros [|y b] Hl; try done. cbn [equal_chars fmap list_fmap].
  injection Hl as Hl. destruct (Z.eqb_spec (lower x) (lower y)) as [->|Hne].
  - rewrite (IH b Hl). split; [by intros ->|by intros [= ?]].
  - split; [done|]. by intros [= ? _].
Qed.

Lemma AtomEqualName_spec a b : AtomEqualName a b = true ↔ lower <$> a = lower <$> b.
Proof.
  unfold AtomEqualName. rewrite andb_true_iff, Nat.eqb_eq. split.
  - intros [Hl He]. by apply equal_chars_spec.
  - intros He. assert (length a = length b) as Hl by (apply (f_equal length) in He; by rewrite !length_fmap in He).
    split; [done|]. by apply equal_chars_spec.
Qed.

Lemma AtomHash_lt name : (AtomHash name < ATOM_TABLE_SIZE)%nat.
Proof.
  unfold AtomHash, ATOM_TABLE_SIZE. set (x := foldl _ _ _). pose proof (Z.mod_pos_bound x 256 ltac:(lia)). lia.
Qed.

Lemma bucket_lookup s T m h : atom_inv s T m → (h < ATOM_TABLE_SIZE)%nat → g_AtomTable s !! h = Some (bucket s h).
Proof.
  intros Hi Hh. unfold bucket. destruct (lookup_lt_is_Some_2 (g_AtomTable s) h) as [b Hb]; [by rewrite (ai_len _ _ _ Hi)|].
  by rewrite Hb.
Qed.

(** The entry of a name is the first of its chain that compares equal. *)
Lemma name_lookup s T m name :
  atom_inv s T m →
  match first_idx (λ x, AtomEqualName (AName x.2) name) (bucket s (AtomHash name)) with
  | Some i => ∃ a e, bucket s (AtomHash name) !! i = Some (a, e) ∧ same_atom (AName e) name ∧
                T !! AtomId e = Some (AName e, RefCount e)
  | None => ∀ id n r, T !! id = Some (n, r) → ¬ same_atom n name
  end.
Proof.
  intros Hi. pose proof (bucket_lookup s T m _ Hi (AtomHash_lt name)) as Hb.
  destruct (first_idx _ _) as [i|] eqn:Hf.
  - apply first_idx_Some in Hf as [([a e] & Hx & He) _]. exists a, e. apply AtomEqualName_spec in He. cbn in He.
    apply list_elem_of_lookup_2 in Hx as Hin. split; [done|]. split.
    + split; [|done]. by apply (ai_hash _ _ _ Hi _ _ _ Hb) in Hin.
    + apply (ai_map _ _ _ Hi). exists a. destruct e. by exists (AtomHash name), (bucket s (AtomHash name)).
  - rewrite first_idx_None in Hf. intros id n r (a & h & b & Hhb & Hin)%(ai_map _ _ _ Hi) [Hh Hl].
    pose proof (ai_hash _ _ _ Hi _ _ _ Hhb Hin) as Hp. cbn in Hp. rewrite Hh in Hp. subst h.
    rewrite Hb in Hhb. injection Hhb as <-. apply list_elem_of_lookup_1 in Hin as [j Hj].
    specialize (Hf j _ Hj). apply AtomEqualName_spec in Hl. cbn in Hf. congruence.
Qed.

Lemma id_lookup s T m nAtom :
  atom_inv s T m →
  match find_atom s nAtom with
  | Some (h, i) => ∃ a e, bucket s h !! i = Some (a, e) ∧ g_AtomTable s !! h = Some (bucket s h) ∧ AtomId e = nAtom ∧
                     T !! nAtom = Some (AName e, RefCount e)
  | None => T !! nAtom = None
  end.
Proof.
  intros Hi. unfold find_atom. destruct (first_idx (existsb (has_id nAtom)) (g_AtomTable s)) as [h|] eqn:Hh; cbn.
  - apply first_idx_Some in Hh as [(b & Hb & Hex) _]. assert (bucket s h = b) as Hbk by (unfold bucket; by rewrite Hb).
    rewrite Hbk. destruct (first_idx (has_id nAtom) b) as [i|] eqn:Hfi; cbn.
    + apply first_idx_Some in Hfi as [([a e] & Hx & He) _]. unfold has_id in He. cbn in He. apply Z.eqb_eq in He.
      exists a, e. split_and!; [by rewrite Hbk|by rewrite Hb, Hbk|done|]. apply (ai_map _ _ _ Hi). exists a. subst nAtom. destruct e.
      exists h, b. split; [done|]. by apply list_elem_of_lookup_2 in Hx.
    + rewrite first_idx_None in Hfi. apply existsb_exists in Hex as (x & Hin%list_elem_of_In & Hx).
      apply list_elem_of_lookup_1 in Hin as [j Hj]. by rewrite (Hfi j x Hj) in Hx.
  - rewrite first_idx_None in Hh. destruct (T !! nAtom) as [[n r]|] eqn:HT; [|done].
    apply (ai_map _ _ _ Hi) in HT as (a & h & b & Hb & Hin).
    assert (existsb (has_id nAtom) b = true) as Hex.
    { apply existsb_exists. exists (a, mkAtom nAtom r n). split; [by apply list_elem_of_In|]. apply Z.eqb_refl. }
    by rewrite (Hh h b Hb) in Hex.
Qed.

(** ** Changing one chain *)

Lemma entry_in_bucket s T m x :
  atom_inv s T m → entry_in s x ↔ x ∈ bucket s (AtomHash (AName x.2)).
Proof.
  intros Hi. split.
  - intros (h & b & Hb & Hx). pose proof (ai_hash _ _ _ Hi _ _ _ Hb Hx) as <-. unfold bucket. by rewrite Hb.
  - intros Hx. eexists _, _. split; [by eapply bucket_lookup, AtomHash_lt|done].
Qed.

Lemma entry_in_set s h b x :
  (h < length (g_AtomTable s))%nat →
  entry_in (set_bucket h b s) x ↔ x ∈ b ∨ ∃ h' b', h' ≠ h ∧ g_AtomTable s !! h' = Some b' ∧ x ∈ b'.
Proof.
  intros Hh. unfold entry_in. cbn. split.
  - intros (h' & b' & Hb & Hx). destruct (decide (h' = h)) as [->|Hne].
    + rewrite list_lookup_insert_eq in Hb by done. injection Hb as <-. by left.
    + rewrite list_lookup_insert_ne in Hb by done. right. eauto.
  - intros [Hx|(h' & b' & Hne & Hb & Hx)].
    + exists h, b. by rewrite list_lookup_insert_eq.
    + exists h', b'. by rewrite list_lookup_insert_ne.
Qed.

Definition drop_entry (old : option (Z * ATOM_ENTRY)) (T : gmap Z (list Z * Z)) : gmap Z (list Z * Z) :=
  match old with Some x => delete (AtomId x.2) T | None => T end.
Definition put_entry (new : option (Z * ATOM_ENTRY)) (T : gmap Z (list Z * Z)) : gmap Z (list Z * Z) :=
  match new with Some x => <[AtomId x.2 := (AName x.2, RefCount x.2)]> T | None => T end.

Lemma u16_bounds v : 0 ≤ u16 v < 65536.
Proof. apply Z.mod_pos_bound. lia. Qed.

(** One entry leaves a chain, or enters it, or both. *)
Lemma inv_change s s' T m m' old new h b :
  atom_inv s T m → (h < ATOM_TABLE_SIZE)%nat → g_AtomTable s' = <[h := b]> (g_AtomTable s) →
  pool_rep (at_pool s') m' → pcr s' = pcr s →
  0 ≤ g_NextAtomId s' < 65536 →
  (∀ y, entry_in s' y ↔ (entry_in s y ∧ old ≠ Some y) ∨ new = Some y) →
  (∀ x, old = Some x → entry_in s x) → NoDup b → (∀ y, y ∈ b → AtomHash (AName y.2) = h) →
  (∀ y, entry_in s y → old ≠ Some y → m' !! y.1 = Some 0) →
  (∀ x, new = Some x → m' !! x.1 = Some 0 ∧ 0 ≤ RefCount x.2 < 65536 ∧
     ∀ y, entry_in s y → old ≠ Some y → AtomId y.2 ≠ AtomId x.2 ∧ y.1 ≠ x.1 ∧ ¬ same_atom (AName y.2) (AName x.2)) →
  atom_inv s' (put_entry new (drop_entry old T)) m'.
Proof.
  intros Hi Hh Ht Hp Hpcr Hnx He Hold Hnd Hhash Hlive Hnew.
  assert (Hsym : ∀ n1 n2, same_atom n1 n2 → same_atom n2 n1) by (intros n1 n2 [? ?]; split; congruence).
  assert (Hpair : ∀ (R : Z * ATOM_ENTRY → Z * ATOM_ENTRY → Prop),
    (∀ x y, R x y → R y x) → (∀ x y, entry_in s x → entry_in s y → R x y → x = y) →
    (∀ x y, new = Some x → entry_in s y → old ≠ Some y → ¬ R y x) →
    ∀ x y, entry_in s' x → entry_in s' y → R x y → x = y).
  { intros R Hs Hu Hn x y [[Hx Hxo]|Hx]%He [[Hy Hyo]|Hy]%He HR; [by apply Hu|by destruct (Hn y x)|by destruct (Hn x y Hx Hy Hyo (Hs _ _ HR))|congruence]. }
  split.
  - by rewrite Ht, length_insert, (ai_len _ _ _ Hi).
  - rewrite Hpcr. apply (ai_pcr _ _ _ Hi).
  - done.
  - intros id n r.
    assert (HT0 : drop_entry old T !! id = Some (n, r) ↔ ∃ a, entry_in s (a, mkAtom id r n) ∧ old ≠ Some (a, mkAtom id r n)).
    { destruct old as [x|]; cbn; [|rewrite (ai_map _ _ _ Hi); naive_solver].
      rewrite lookup_delete_Some, (ai_map _ _ _ Hi). split.
      - intros [Hne (a & Ha)]. exists a. split; [done|]. intros [= ->]. done.
      - intros (a & Ha & Hne). split; [|eauto]. intros Hid. apply Hne. f_equal. apply (ai_ids _ _ _ Hi); eauto. }
    destruct new as [x|]; cbn.
    + destruct (Hnew x eq_refl) as (_ & _ & Hapart). rewrite lookup_insert_Some. split.
      * intros [[<- [= <- <-]]|[Hne (a & Ha & Ho)%HT0]].
        -- exists x.1. apply He. right. destruct x as [a []]. done.
        -- exists a. apply He. by left.
      * intros (a & [[Ha Ho]|[= ->]]%He); [right|by left]. split; [|apply HT0; eauto].
        destruct (Hapart _ Ha Ho) as [Hid _]. cbn in Hid. congruence.
    + rewrite HT0. split; intros (a & Ha); exists a; [apply He; by left|by apply He in Ha as [?|?]].
  - intros h' b' x Hb Hx. rewrite Ht in Hb. destruct (decide (h' = h)) as [->|Hne].
    + rewrite list_lookup_insert_eq in Hb by (by rewrite (ai_len _ _ _ Hi)). injection Hb as <-. by apply Hhash.
    + rewrite list_lookup_insert_ne in Hb by done. by eapply (ai_hash _ _ _ Hi).
  - intros h' b' Hb. rewrite Ht in Hb. destruct (decide (h' = h)) as [->|Hne].
    + rewrite list_lookup_insert_eq in Hb by (by rewrite (ai_len _ _ _ Hi)). by injection Hb as <-.
    + rewrite list_lookup_insert_ne in Hb by done. by eapply (ai_nodup _ _ _ Hi).
  - apply Hpair; [done|apply (ai_ids _ _ _ Hi)|]. intros x y Hx Hy Ho. apply (proj2 (proj2 (Hnew x Hx)) y Hy Ho).
  - apply Hpair; [done|apply (ai_addrs _ _ _ Hi)|]. intros x y Hx Hy Ho. apply (proj2 (proj2 (Hnew x Hx)) y Hy Ho).
  - apply Hpair; [intros; by apply Hsym|apply (ai_class _ _ _ Hi)|].
    intros x y Hx Hy Ho. apply (proj2 (proj2 (Hnew x Hx)) y Hy Ho).
  - intros x [[Hx Ho]|Hx]%He; [by apply Hlive|by apply Hnew].
  - intros x [[Hx Ho]|Hx]%He; [by apply (ai_refs _ _ _ Hi)|by apply Hnew].
  - done.
Qed.

Lemma NoDup_replace {A} (l : list A) i x :
  NoDup l → (∀ j, l !! j = Some x → j = i) → NoDup (<[i := x]> l).
Proof.
  intros Hnd Hx. apply NoDup_alt. intros j k y Hj Hk.
  destruct (decide (i < length l)%nat) as [Hl|Hl]; [|rewrite list_insert_ge in Hj, Hk by lia; by eapply NoDup_lookup].
  apply list_lookup_insert_Some in Hj as [(<- & -> & _)|[Hnj Hj]], Hk as [(<- & Hy & _)|[Hnk Hk]].
  - done.
  - symmetry. by apply Hx.
  - apply Hx. by rewrite Hj, Hy.
  - by eapply NoDup_lookup.
Qed.

(** An entry gets another count. *)
Lemma refs_inv s T m h i a e r :
  atom_inv s T m → g_AtomTable s !! h = Some (bucket s h) → bucket s h !! i = Some (a, e) → 0 ≤ r < 65536 →
  atom_inv (set_bucket h (<[i := (a, with_refs r e)]> (bucket s h)) s) (<[AtomId e := (AName e, r)]> T) m.
Proof.
  intros Hi Hb Hx Hr. pose proof (lookup_lt_Some _ _ _ Hb) as Hh. pose proof (lookup_lt_Some _ _ _ Hx) as Hil.
  pose proof (ai_nodup _ _ _ Hi _ _ Hb) as Hnd. pose proof (list_elem_of_lookup_2 _ _ _ Hx) as Hin.
  assert (Hex : entry_in s (a, e)) by (by exists h, (bucket s h)).
  assert (Hup : ∀ y, y ∈ <[i := (a, with_refs r e)]> (bucket s h) ↔ y ∈ bucket s h ∧ y ≠ (a, e) ∨ y = (a, with_refs r e)).
  { intros y. rewrite !list_elem_of_lookup. split.
    - intros [j Hj]. destruct (decide (i = j)) as [<-|Hne].
      + rewrite list_lookup_insert_eq in Hj by done. injection Hj as <-. by right.
      + rewrite list_lookup_insert_ne in Hj by done. left. split; [eauto|]. intros ->.
        apply Hne. by eapply NoDup_lookup.
    - intros [[[j Hj] Hne]| ->]; [|exists i; by rewrite list_lookup_insert_eq].
      exists j. rewrite list_lookup_insert_ne; [done|]. intros <-. congruence. }
  replace (<[AtomId e := (AName e, r)]> T) with (put_entry (Some (a, with_refs r e)) (drop_entry (Some (a, e)) T))
    by (cbn; by rewrite insert_delete_eq).
  eapply (inv_change s _ T m m (Some (a, e)) _ h); [done|by rewrite <- (ai_len _ _ _ Hi)|done|apply Hi|done| | | | | | |].
  - apply (ai_next _ _ _ Hi).
  - intros y. rewrite entry_in_set by done. rewrite Hup. split.
    + intros [[[Hy Hne]| ->]|(h' & b' & Hne & Hb' & Hy)].
      * left. split; [by exists h, (bucket s h)|congruence].
      * by right.
      * left. split; [by exists h', b'|]. intros [= <-]. apply Hne.
        pose proof (ai_hash _ _ _ Hi _ _ _ Hb Hin). pose proof (ai_hash _ _ _ Hi _ _ _ Hb' Hy). cbn in *. congruence.
    + intros [[(h' & b' & Hb' & Hy) Hne]|[= <-]]; [|left; by right].
      destruct (decide (h' = h)) as [->|Hnh]; [|right; eauto]. rewrite Hb in Hb'. injection Hb' as <-.
      left. left. split; [done|congruence].
  - by intros x [= <-].
  - apply NoDup_replace; [done|]. intros j Hj. assert (Heq : (a, with_refs r e) = (a, e)).
    { apply (ai_addrs _ _ _ Hi); [|done|done]. exists h, (bucket s h). split; [done|]. by eapply list_elem_of_lookup_2. }
    rewrite Heq in Hj. by eapply NoDup_lookup.
  - intros y [[Hy _]| ->]%Hup; [by eapply (ai_hash _ _ _ Hi)|]. apply (ai_hash _ _ _ Hi _ _ _ Hb Hin).
  - intros y Hy _. by apply (ai_live _ _ _ Hi).
  - intros x [= <-]. split; [by apply (ai_live _ _ _ Hi (a, e))|]. split; [done|]. intros y Hy Hne. cbn.
    split_and!; intros Heq; apply Hne; f_equal; symmetry.
    + by apply (ai_ids _ _ _ Hi).
    + by apply (ai_addrs _ _ _ Hi).
    + by apply (ai_class _ _ _ Hi).
Qed.

(** An entry leaves its chain. *)
Lemma remove_inv s T m h i a e p :
  atom_inv s T m → g_AtomTable s !! h = Some (bucket s h) → bucket s h !! i = Some (a, e) →
  pool_rep p (delete a m) → pcr p = pcr (at_pool s) →
  atom_inv (set_at_pool p (set_bucket h (delete i (bucket s h)) s)) (delete (AtomId e) T) (delete a m).
Proof.
  intros Hi Hb Hx Hp Hpcr. pose proof (lookup_lt_Some _ _ _ Hb) as Hh. pose proof (ai_nodup _ _ _ Hi _ _ Hb) as Hnd.
  assert (Hin := list_elem_of_lookup_2 _ _ _ Hx). assert (Hex : entry_in s (a, e)) by (by exists h, (bucket s h)).
  apply list_elem_of_split_length in Hx as (l1 & l2 & Hl & ->).
  assert (Hdel : delete (length l1) (bucket s h) = l1 ++ l2) by (rewrite Hl; apply delete_middle).
  assert (Hnd' : NoDup (l1 ++ l2) ∧ (a, e) ∉ l1 ++ l2).
  { rewrite Hl, <- Permutation_middle in Hnd. by apply NoDup_cons in Hnd as [? ?]. }
  assert (Hup : ∀ y, y ∈ l1 ++ l2 ↔ y ∈ bucket s h ∧ y ≠ (a, e)).
  { intros y. rewrite Hl, !elem_of_app, elem_of_cons. destruct Hnd' as [_ Hni]. rewrite elem_of_app in Hni.
    split; [|naive_solver]. intros Hy. split; [naive_solver|]. by intros ->. }
  change (delete (AtomId e) T) with (put_entry None (drop_entry (Some (a, e)) T)). rewrite Hdel.
  eapply (inv_change s _ T m _ (Some (a, e)) None h (l1 ++ l2)); [done|by rewrite <- (ai_len _ _ _ Hi)|done|done|done| | | |apply Hnd'| | |done].
  - apply (ai_next _ _ _ Hi).
  - intros y. etrans; [apply (entry_in_set s h (l1 ++ l2) y); done|]. rewrite Hup. split.
    + intros [[Hy Hne]|(h' & b' & Hne & Hb' & Hy)]; left; (split; [by eexists _, _|]); [congruence|]. intros [= <-]. apply Hne.
      pose proof (ai_hash _ _ _ Hi _ _ _ Hb Hin). pose proof (ai_hash _ _ _ Hi _ _ _ Hb' Hy). cbn in *. congruence.
    + intros [[(h' & b' & Hb' & Hy) Hne]|?]; [|done]. destruct (decide (h' = h)) as [->|Hnh]; [|right; eauto].
      rewrite Hb in Hb'. injection Hb' as <-. left. split; [done|congruence].
  - by intros x [= <-].
  - intros y [Hy _]%Hup. by eapply (ai_hash _ _ _ Hi).
  - intros y Hy Hne. rewrite lookup_delete_ne; [by apply (ai_live _ _ _ Hi)|].
    intros Ha. apply Hne. f_equal. by apply (ai_addrs _ _ _ Hi).
Qed.

(** A new entry enters its chain. *)
Lemma insert_inv s T m a name p :
  atom_inv s T m → T !! g_NextAtomId s = None → m !! a = None → pool_rep p (<[a := 0]> m) → pcr p = pcr (at_pool s) →
  (∀ id n r, T !! id = Some (n, r) → ¬ same_atom n name) →
  let h := AtomHash name in
  atom_inv (set_bucket h ((a, mkAtom (g_NextAtomId s) 1 name) :: bucket s h)
              (set_NextAtomId (u16 (g_NextAtomId s + 1)) (set_at_pool p s)))
    (<[g_NextAtomId s := (name, 1)]> T) (<[a := 0]> m).
Proof.
  intros Hi Hnx Ha Hp Hpcr Hno h. assert (Hh := AtomHash_lt name). fold h in Hh.
  pose proof (bucket_lookup s T m h Hi Hh) as Hb. pose proof (ai_next _ _ _ Hi) as Hn0.
  assert (Hfresh : ∀ y, entry_in s y → AtomId y.2 ≠ g_NextAtomId s ∧ y.1 ≠ a ∧ ¬ same_atom (AName y.2) name).
  { intros y Hy. assert (HT : T !! AtomId y.2 = Some (AName y.2, RefCount y.2)).
    { apply (ai_map _ _ _ Hi). exists y.1. by destruct y as [? []]. }
    split_and!; [intros E; rewrite E in HT; congruence| |].
    - intros <-. pose proof (ai_live _ _ _ Hi y Hy). congruence.
    - by apply (Hno _ _ _ HT). }
  change (<[g_NextAtomId s := (name, 1)]> T) with (put_entry (Some (a, mkAtom (g_NextAtomId s) 1 name)) (drop_entry None T)).
  eapply (inv_change s _ T m _ None _ h); [done|done|done|done|done|apply u16_bounds| |done| | | |].
  - intros y. etrans; [apply (entry_in_set (set_NextAtomId (u16 (g_NextAtomId s + 1)) (set_at_pool p s)) h); cbn; by rewrite (ai_len _ _ _ Hi)|].
    rewrite elem_of_cons. cbn. split.
    + intros [[->|Hy]|(h' & b' & _ & Hb' & Hy)]; [by right|left..]; (split; [by eexists _, _|done]).
    + intros [[(h' & b' & Hb' & Hy) _]|[= <-]]; [|left; by left]. destruct (decide (h' = h)) as [->|?]; [|right; eauto].
      rewrite Hb in Hb'. injection Hb' as <-. left. by right.
  - apply NoDup_cons. split; [|by eapply (ai_nodup _ _ _ Hi)]. intros Hin.
    destruct (Hfresh (a, mkAtom (g_NextAtomId s) 1 name)) as [? _]; [by exists h, (bucket s h)|done].
  - intros y [->|Hy]%elem_of_cons; [done|]. by eapply (ai_hash _ _ _ Hi).
  - intros y Hy _. destruct (Hfresh y Hy) as (_ & Hne & _). rewrite lookup_insert_ne by done. by apply (ai_live _ _ _ Hi).
  - intros x [= <-]. cbn. rewrite lookup_insert_eq. split_and!; [done|lia|lia|]. intros y Hy _. by apply Hfresh.
Qed.

(** ** The blocks of the entries *)

(** The block [a] holds an entry of the table [t]. *)
Definition owned (t : list (list (Z * ATOM_ENTRY))) (a : Z) : Prop := ∃ h b e, t !! h = Some b ∧ (a, e) ∈ b.

(** From one table to the next the pool takes back the blocks of the entries
    that left, and every block the atoms never used is as before. *)
Definition blocks_follow (t : list (list (Z * ATOM_ENTRY))) (m : gmap Z Z)
    (t' : list (list (Z * ATOM_ENTRY))) (m' : gmap Z Z) : Prop :=
  ∀ a, ¬ owned t' a → (owned t a → m' !! a = None) ∧ (¬ owned t a → m' !! a = m !! a).

Lemma owned_change t h b b' a :
  t !! h = Some b → (∀ e, (a, e) ∈ b → ∃ e', (a, e') ∈ b') → owned t a → owned (<[h := b']> t) a.
Proof.
  intros Hb Hsub (h' & c & e & Hc & He). destruct (decide (h' = h)) as [->|Hne].
  - simplify_eq. destruct (Hsub e He) as [e' He']. exists h, b', e'.
    rewrite list_lookup_insert_eq by (by eapply lookup_lt_Some). done.
  - exists h', c, e. by rewrite list_lookup_insert_ne.
Qed.

Lemma blocks_refs t m h b i a e e' :
  t !! h = Some b → b !! i = Some (a, e) → blocks_follow t m (<[h := <[i := (a, e')]> b]> t) m.
Proof.
  intros Hb Hx a0 Hno. split; [|done]. intros Ho. destruct Hno. eapply owned_change; [done| |done].
  intros e0 [j Hj]%list_elem_of_lookup_1. pose proof (lookup_lt_Some _ _ _ Hx). destruct (decide (i = j)) as [<-|Hne].
  - simplify_eq. exists e'. apply (list_elem_of_lookup_2 _ i). by rewrite list_lookup_insert_eq.
  - exists e0. apply (list_elem_of_lookup_2 _ j). by rewrite list_lookup_insert_ne.
Qed.
Lemma blocks_insert t m h b a e :
  t !! h = Some b → blocks_follow t m (<[h := (a, e) :: b]> t) (<[a := 0]> m).
Proof.
  intros Hb a0 Hno. split.
  - intros Ho. destruct Hno. eapply owned_change; [done| |done]. intros e0 He0. exists e0. by right.
  - intros _. rewrite lookup_insert_ne; [done|]. intros <-. apply Hno. exists h, ((a, e) :: b), e.
    rewrite list_lookup_insert_eq by (by eapply lookup_lt_Some). split; [done|by left].
Qed.
Lemma blocks_remove t m h b i a e :
  t !! h = Some b → b !! i = Some (a, e) → blocks_follow t m (<[h := delete i b]> t) (delete a m).
Proof.
  intros Hb Hx a0 Hno. destruct (decide (a0 = a)) as [->|Hne].
  - rewrite lookup_delete_eq. split; [done|]. intros Hn. destruct Hn. exists h, b, e.
    split; [done|by eapply list_elem_of_lookup_2].
  - rewrite lookup_delete_ne by done. split; [|done]. intros Ho. destruct Hno. eapply owned_change; [done| |done].
    intros e0 He0. exists e0. apply list_elem_of_split_length in Hx as (l1 & l2 & -> & ->).
    rewrite delete_middle. rewrite elem_of_app, elem_of_cons in He0. rewrite elem_of_app. naive_solver.
Qed.

(** ** Locking *)

Lemma inv_frame s s' T m :
  atom_inv s T m → g_AtomTable s' = g_AtomTable s → g_NextAtomId s' = g_NextAtomId s →
  pool_rep (at_pool s') m → can_lock (pcr s') → atom_inv s' T m.
Proof.
  intros Hi Ht Hn Hp Hc. assert (He : ∀ x, entry_in s' x ↔ entry_in s x) by (intros x; unfold entry_in; by rewrite Ht).
  destruct Hi. split; rewrite ?Ht, ?Hn; try done; try (setoid_rewrite He; done).
Qed.

Lemma under_lock_raw {A} (body : M (AT_STATE P) A) s T m a s2 :
  atom_inv s T m → g_AtomLock s = 0 →
  let s1 := set_lk AtomLock 1 (set_pcr locked_pcr s) in
  body s1 = Ok (a, s2) → pcr s2 = pcr s1 → g_AtomLock s2 = g_AtomLock s1 →
  under_lock body s = Ok (a, set_pcr (pcr s) (set_lk AtomLock 0 s2)).
Proof.
  intros Hi Hl s1 Hr Hpcr Hlk. unfold under_lock. eapply locked_section_ok; [apply Hi|done|exact Hr| |exact Hlk].
  rewrite Hpcr. unfold s1. by rewrite pcr_set_lk, pcr_set.
Qed.

Lemma atom_locked_inv s T m : atom_inv s T m → atom_inv (set_lk AtomLock 1 (set_pcr locked_pcr s)) T m.
Proof.
  intros Hi. eapply inv_frame; [exact Hi|done|done|by apply (pool_rep_pcr (at_pool s)), Hi|].
  rewrite pcr_set_lk, pcr_set. apply locked_can_lock.
Qed.

(** What a routine leaves: its result, the map, the blocks, the table, the next
    number. *)
Definition outcome (A : Type) : Type :=
  A → gmap Z (list Z * Z) → gmap Z Z → list (list (Z * ATOM_ENTRY)) → Z → Prop.

Lemma under_lock_ok {A} (body : M (AT_STATE P) A) s T m (post : outcome A) :
  atom_inv s T m → g_AtomLock s = 0 →
  (∀ s1, atom_inv s1 T m → g_NextAtomId s1 = g_NextAtomId s → g_AtomTable s1 = g_AtomTable s →
     ∃ a s2 T' m', body s1 = Ok (a, s2) ∧ pcr s2 = pcr s1 ∧ g_AtomLock s2 = g_AtomLock s1 ∧ atom_inv s2 T' m' ∧
       post a T' m' (g_AtomTable s2) (g_NextAtomId s2)) →
  ∃ a s' T' m', under_lock body s = Ok (a, s') ∧ g_AtomLock s' = 0 ∧ atom_inv s' T' m' ∧
    post a T' m' (g_AtomTable s') (g_NextAtomId s').
Proof.
  intros Hi Hl Hbody.
  destruct (Hbody _ (atom_locked_inv s T m Hi) eq_refl eq_refl) as (a & s2 & T' & m' & Hr & Hpcr & Hlk & Hi2 & Hpost).
  exists a, (set_pcr (pcr s) (set_lk AtomLock 0 s2)), T', m'. split; [by eapply under_lock_raw|split; [done|split; [|done]]].
  eapply inv_frame; [exact Hi2|done|done|by apply (pool_rep_pcr (at_pool s2)), Hi2|]. rewrite pcr_set. apply Hi.
Qed.

(** ** The routines on the map *)

(** What adding a name does to the map: the atom of an equal name is counted
    once more; otherwise the next number is taken, or nothing happens.  Counts
    and numbers are 16-bit. *)
Definition added (next : Z) (T : gmap Z (list Z * Z)) (name : list Z) (r : Z * option Z) (T' : gmap Z (list Z * Z))
    (next' : Z) : Prop :=
  (∃ id n k, T !! id = Some (n, k) ∧ same_atom n name ∧ r = (STATUS_SUCCESS, Some id) ∧
     T' = <[id := (n, u16 (k + 1))]> T ∧ next' = next) ∨
  (∀ id n k, T !! id = Some (n, k) → ¬ same_atom n name) ∧
  (r = (STATUS_NO_MEMORY, None) ∧ T' = T ∧ next' = next ∨
   r = (STATUS_SUCCESS, Some next) ∧ T' = <[next := (name, 1)]> T ∧ next' = u16 (next + 1)).

(** The atom [id] counted down, and gone when the count is then zero. *)
Definition deleted (T : gmap Z (list Z * Z)) (id : Z) (r : Z) (T' : gmap Z (list Z * Z)) : Prop :=
  match T !! id with
  | None => r = STATUS_NOT_FOUND ∧ T' = T
  | Some (n, k) => r = STATUS_SUCCESS ∧
      T' = if u16 (k - 1) =? 0 then delete id T else <[id := (n, u16 (k - 1))]> T
  end.

(** The number the next new atom gets is free, or no new atom is needed. *)
Definition may_add (next : Z) (T : gmap Z (list Z * Z)) (name : list Z) : Prop :=
  T !! next = None ∨ ∃ id n k, T !! id = Some (n, k) ∧ same_atom n name.

Lemma add_run s T m name :
  atom_inv s T m → may_add (g_NextAtomId s) T name →
  ∃ r s' T' m', add_atom name s = Ok (r, s') ∧ pcr s' = pcr s ∧ g_AtomLock s' = g_AtomLock s ∧
    atom_inv s' T' m' ∧ added (g_NextAtomId s) T name r T' (g_NextAtomId s') ∧
    blocks_follow (g_AtomTable s) m (g_AtomTable s') m'.
Proof.
  intros Hi Hmay. unfold add_atom. unfold mbind at 1, M_bind at 1. cbn [mgets].
  pose proof (name_lookup s T m name Hi) as Hn. pose proof (bucket_lookup s T m _ Hi (AtomHash_lt name)) as Hb.
  destruct (first_idx _ (bucket s (AtomHash name))) as [i|].
  - destruct Hn as (a & e & Hx & Hs & HT). rewrite (deref_bind (λ _, bucket s (AtomHash name) !! i) _ _ _ Hx).
    do 4 eexists. split; [done|]. split_and!; [done|done|by apply refs_inv; [exact Hi|..|apply u16_bounds]| |by eapply blocks_refs].
    left. exists (AtomId e), (AName e), (RefCount e). split_and!; done.
  - destruct (pool_alloc_law (at_pool s) m 0 sizeof_ATOM_ENTRY 0 (ai_pool _ _ _ Hi) (ai_pcr _ _ _ Hi)) as (a & p & Hr & Hpcr & Hcase);
      [unfold sizeof_ATOM_ENTRY; lia|].
    rewrite (bind_ok _ _ _ _ _ (zoom_ok at_pool set_at_pool _ s _ _ Hr)). destruct Hcase as [[-> Hp]|(Ha & Hm & Hp)].
    + do 4 eexists. split; [done|]. split_and!; [done|done| |right; split; [exact Hn|by left]|done].
      eapply inv_frame; [exact Hi|done|done|exact Hp|]. cbn. rewrite Hpcr. apply Hi.
    + replace (a =? 0) with false by lia.
      destruct Hmay as [Hfree|(id & n & k & HT & Hsame)]; [|by destruct (Hn id n k HT)].
      pose proof (insert_inv s T m a name p Hi Hfree Hm Hp Hpcr Hn) as Hi'.
      do 4 eexists. split; [unfold mbind, M_bind; cbn [mgets mmod]; cbn [g_NextAtomId set_at_pool]; done|].
      split_and!; [done|done|exact Hi'| |by apply blocks_insert]. right. split; [done|]. by right.
Qed.

(** A new name when the next number is in use: two entries share it. *)
Lemma add_collides s T m name n k :
  atom_inv s T m → T !! g_NextAtomId s = Some (n, k) → (∀ id n' k', T !! id = Some (n', k') → ¬ same_atom n' name) →
  ∃ r s', add_atom name s = Ok (r, s') ∧ pcr s' = pcr s ∧ g_AtomLock s' = g_AtomLock s ∧
    (r = (STATUS_NO_MEMORY, None) ∧ g_AtomTable s' = g_AtomTable s ∨
     r = (STATUS_SUCCESS, Some (g_NextAtomId s)) ∧
     ∃ a a', entry_in s' (a, mkAtom (g_NextAtomId s) 1 name) ∧ entry_in s' (a', mkAtom (g_NextAtomId s) k n)).
Proof.
  intros Hi HT Hno. unfold add_atom. unfold mbind at 1, M_bind at 1. cbn [mgets].
  pose proof (name_lookup s T m name Hi) as Hn. pose proof (bucket_lookup s T m _ Hi (AtomHash_lt name)) as Hb.
  destruct (first_idx _ (bucket s (AtomHash name))) as [i|].
  { destruct Hn as (a & e & _ & Hs & HT'). by destruct (Hno _ _ _ HT'). }
  destruct (pool_alloc_law (at_pool s) m 0 sizeof_ATOM_ENTRY 0 (ai_pool _ _ _ Hi) (ai_pcr _ _ _ Hi)) as (a & p & Hr & Hpcr & Hcase);
    [unfold sizeof_ATOM_ENTRY; lia|].
  rewrite (bind_ok _ _ _ _ _ (zoom_ok at_pool set_at_pool _ s _ _ Hr)). destruct Hcase as [[-> Hp]|(Ha & Hm & Hp)].
  - do 2 eexists. split; [done|]. split_and!; [done|done|by left].
  - replace (a =? 0) with false by lia.
    do 2 eexists. split; [unfold mbind, M_bind; cbn [mgets mmod]; cbn [g_NextAtomId set_at_pool]; done|].
    split_and!; [done|done|right]. split; [done|]. apply (ai_map _ _ _ Hi) in HT as (a' & h' & b' & Hb' & Hx').
    set (s1 := set_NextAtomId (u16 (g_NextAtomId s + 1)) (set_at_pool p s)).
    assert (Hl : (AtomHash name < length (g_AtomTable s1))%nat) by (cbn; rewrite (ai_len _ _ _ Hi); apply AtomHash_lt).
    exists a, a'. split; apply (entry_in_set s1 (AtomHash name) _ _ Hl); [left; by left|].
    destruct (decide (h' = AtomHash name)) as [->|Hne]; [|right; by exists h', b'].
    rewrite Hb in Hb'. injection Hb' as <-. left. by right.
Qed.

Lemma delete_run s T m id :
  atom_inv s T m →
  ∃ r s' T' m', delete_atom id s = Ok (r, s') ∧ pcr s' = pcr s ∧ g_AtomLock s' = g_AtomLock s ∧
    atom_inv s' T' m' ∧ deleted T id r T' ∧ g_NextAtomId s' = g_NextAtomId s ∧
    blocks_follow (g_AtomTable s) m (g_AtomTable s') m'.
Proof.
  intros Hi. unfold delete_atom. unfold mbind at 1, M_bind at 1. cbn [mgets].
  pose proof (id_lookup s T m id Hi) as Hid. unfold deleted. destruct (find_atom s id) as [[h i]|].
  2:{ rewrite Hid. by exists STATUS_NOT_FOUND, s, T, m. }
  destruct Hid as (a & e & Hx & Hb & <- & HT). rewrite HT.
  unfold mbind at 1, M_bind at 1. cbn [mgets]. rewrite (deref_bind (λ _, bucket s h !! i) _ _ _ Hx).
  assert (Hex : entry_in s (a, e)) by (exists h, (bucket s h); split; [done|by eapply list_elem_of_lookup_2]).
  destruct (u16 (RefCount e - 1) =? 0).
  - unfold mbind at 1, M_bind at 1. cbn [mmod].
    pose proof (ai_live _ _ _ Hi _ Hex) as Hlive. cbn in Hlive.
    destruct (pool_free_law (at_pool s) m a 0 0 (ai_pool _ _ _ Hi) (ai_pcr _ _ _ Hi) Hlive) as (p & Hf & Hpcr & Hp); [by left|].
    erewrite bind_ok; [|by apply zoom_ok]. do 4 eexists. split; [done|].
    split_and!; [done|done|by apply remove_inv|done|done|done|by eapply blocks_remove].
  - do 4 eexists. split; [done|].
    split_and!; [done|done|apply refs_inv; [done|done|done|apply u16_bounds]|done|done|done|by eapply blocks_refs].
Qed.

Definition found (T : gmap Z (list Z * Z)) (name : list Z) (r : Z * option Z) : Prop :=
  (∃ id n k, T !! id = Some (n, k) ∧ same_atom n name ∧ r = (STATUS_SUCCESS, Some id)) ∨
  (∀ id n k, T !! id = Some (n, k) → ¬ same_atom n name) ∧ r = (STATUS_NOT_FOUND, None).

Lemma find_name_run s T m name : atom_inv s T m → ∃ r, find_name name s = Ok (r, s) ∧ found T name r.
Proof.
  intros Hi. unfold find_name. unfold mbind at 1, M_bind at 1. cbn [mgets].
  pose proof (name_lookup s T m name Hi) as Hn. destruct (first_idx _ _) as [i|].
  - destruct Hn as (a & e & Hx & Hs & HT). rewrite (deref_bind (λ _, bucket s (AtomHash name) !! i) _ _ _ Hx).
    eexists. split; [done|]. left. by exists (AtomId e), (AName e), (RefCount e).
  - eexists. split; [done|]. by right.
Qed.

Lemma get_name_run s T m id count :
  atom_inv s T m →
  get_name id count s =
    Ok (match T !! id with Some (n, _) => Some (take (Z.to_nat (count - 1)) n ++ [0]) | None => None end, s).
Proof.
  intros Hi. unfold get_name. unfold mbind at 1, M_bind at 1. cbn [mgets].
  pose proof (id_lookup s T m id Hi) as Hf. destruct (find_atom s id) as [[h i]|]; [|by rewrite Hf].
  destruct Hf as (a & e & Hx & Hb & _ & HT). rewrite (deref_bind (λ s, bucket s h !! i) _ _ _ Hx), HT.
  cbv match. do 4 f_equal. case_if; [done|]. by rewrite !take_ge by lia.
Qed.

(** [C33] The atom table refines a finite map from atoms to names and 16-bit
    counts, as long as the 16-bit counter of new atoms has not come back to an
    atom in use.  Adding a name counts the atom of an equal name, modulo 2^16,
    or creates the atom of the next number and advances the counter modulo 2^16;
    when the name is new and the next number is in use, the same number is given
    to both names (or there is no memory).  Finding a name gives its atom.
    Deleting counts down, modulo 2^16, and removes the atom and frees its block
    when the count is then zero; reading an atom's name gives it back, cut to
    the buffer; numbers below 0xC000, which the counter reaches when it wraps,
    are refused by both with no effect.  No block is lost: the blocks of the
    entries that leave go back to the pool and no other block changes.  Equal
    names are those with the same hash and the same characters up to ASCII case;
    names of more than 255 characters are cut. *)
Theorem atoms_refine_map s T m :
  atom_inv s T m → g_AtomLock s = 0 →
  (∀ str, may_add (g_NextAtomId s) T (atom_name ATOM_MAX_NAME str) →
     ∃ r s' T' m', GlobalAddAtomW (Some str) true s = Ok (r, s') ∧ g_AtomLock s' = 0 ∧ atom_inv s' T' m' ∧
       added (g_NextAtomId s) T (atom_name ATOM_MAX_NAME str) r T' (g_NextAtomId s') ∧
       blocks_follow (g_AtomTable s) m (g_AtomTable s') m') ∧
  (∀ str, ¬ may_add (g_NextAtomId s) T (atom_name ATOM_MAX_NAME str) →
     ∃ r s' n k, GlobalAddAtomW (Some str) true s = Ok (r, s') ∧ g_AtomLock s' = 0 ∧
       T !! g_NextAtomId s = Some (n, k) ∧
       (r = (STATUS_NO_MEMORY, None) ∧ g_AtomTable s' = g_AtomTable s ∨
        r = (STATUS_SUCCESS, Some (g_NextAtomId s)) ∧
        ∃ a a', entry_in s' (a, mkAtom (g_NextAtomId s) 1 (atom_name ATOM_MAX_NAME str)) ∧
                entry_in s' (a', mkAtom (g_NextAtomId s) k n))) ∧
  (∀ id, if id <? 0xC000 then GlobalDeleteAtom id s = Ok (STATUS_INVALID_PARAMETER, s)
     else ∃ r s' T' m', GlobalDeleteAtom id s = Ok (r, s') ∧ g_AtomLock s' = 0 ∧ atom_inv s' T' m' ∧
       deleted T id r T' ∧ g_NextAtomId s' = g_NextAtomId s ∧
       blocks_follow (g_AtomTable s) m (g_AtomTable s') m') ∧
  (∀ str, ∃ r s', GlobalFindAtomW (Some str) true s = Ok (r, s') ∧ g_AtomLock s' = 0 ∧ atom_inv s' T m ∧
     found T (atom_name ATOM_MAX_NAME str) r ∧ g_NextAtomId s' = g_NextAtomId s) ∧
  (∀ id count, 0 < count →
     if id <? 0xC000 then GlobalGetAtomNameW id true count s = Ok ((STATUS_INVALID_PARAMETER, []), s)
     else ∃ s', g_AtomLock s' = 0 ∧ atom_inv s' T m ∧ g_NextAtomId s' = g_NextAtomId s ∧
       GlobalGetAtomNameW id true count s =
         Ok (match T !! id with
             | Some (n, _) => (STATUS_SUCCESS, take (Z.to_nat (count - 1)) n ++ [0])
             | None => (STATUS_NOT_FOUND, [0])
             end, s')).
Proof.
  intros Hi Hl. split_and!.
  - intros str Hmay. apply (under_lock_ok (add_atom (atom_name ATOM_MAX_NAME str)) s T m
      (λ r T' m' t' n', added (g_NextAtomId s) T _ r T' n' ∧ blocks_follow (g_AtomTable s) m t' m') Hi Hl).
    intros s1 Hi1 Hn1 Ht1. rewrite <- Hn1, <- Ht1. apply (add_run s1 T m); [done|by rewrite Hn1].
  - intros str Hno. destruct (T !! g_NextAtomId s) as [[n k]|] eqn:HT; [|destruct Hno; by left].
    destruct (add_collides _ T m (atom_name ATOM_MAX_NAME str) n k (atom_locked_inv s T m Hi) HT)
      as (r & s2 & Hr & Hpcr & Hlk & Hcase); [intros id n' k' HT' Hs; apply Hno; right; by exists id, n', k'|].
    exists r, (set_pcr (pcr s) (set_lk AtomLock 0 s2)), n, k.
    split; [by apply (under_lock_raw (add_atom (atom_name ATOM_MAX_NAME str)) s T m)|]. done.
  - intros id. unfold GlobalDeleteAtom. destruct (id <? 49152); [done|].
    apply (under_lock_ok (delete_atom id) s T m
      (λ r T' m' t' n', deleted T id r T' ∧ n' = g_NextAtomId s ∧ blocks_follow (g_AtomTable s) m t' m') Hi Hl).
    intros s1 Hi1 Hn1 Ht1. rewrite <- Hn1, <- Ht1. by apply (delete_run s1 T m).
  - intros str. destruct (under_lock_ok (find_name (atom_name ATOM_MAX_NAME str)) s T m
      (λ r T' m' _ n', T' = T ∧ m' = m ∧ n' = g_NextAtomId s ∧ found T (atom_name ATOM_MAX_NAME str) r) Hi Hl)
      as (r & s' & T' & m' & Hr & Hl' & Hi' & -> & -> & Hn' & Hres); [|by exists r, s'].
    intros s1 Hi1 Hn1 _. destruct (find_name_run s1 T m (atom_name ATOM_MAX_NAME str) Hi1) as (r & Hr & Hf). by exists r, s1, T, m.
  - intros id count Hc. unfold GlobalGetAtomNameW. cbn [negb orb]. replace (count <=? 0) with false by lia.
    destruct (id <? 49152); [done|].
    destruct (under_lock_ok (get_name id count) s T m (λ r T' m' _ n', T' = T ∧ m' = m ∧ n' = g_NextAtomId s ∧
      r = match T !! id with Some (n, _) => Some (take (Z.to_nat (count - 1)) n ++ [0]) | None => None end) Hi Hl)
      as (r & s' & T' & m' & Hr & Hl' & Hi' & -> & -> & Hn' & ->).
    { intros s1 Hi1 Hn1 _. eexists _, s1, T, m. split; [by apply (get_name_run s1 T m)|done]. }
    exists s'. split_and!; [done|done|done|]. rewrite (bind_ok _ _ _ _ _ Hr). by destruct (T !! id) as [[n k]|].
Qed.

End Atom.

(** ** An instance *)

Definition demo_atoms : AT_STATE POOL_STATE := mkAt (replicate ATOM_TABLE_SIZE []) 0 0xC001 demo_pool.

Lemma demo_atoms_inv : atom_inv demo_atoms ∅ ∅.
Proof.
  assert (Hno : ∀ x, ¬ entry_in demo_atoms x).
  { intros x (h & b & [-> _]%lookup_replicate & Hx). by apply not_elem_of_nil in Hx. }
  split; try (intros x y Hx; by destruct (Hno x)); try (intros x Hx; by destruct (Hno x)).
  - done.
  - exact demo_can_lock.
  - exact demo_pool_rep.
  - intros id n r. rewrite lookup_empty. split; [done|]. intros (a & Ha). by destruct (Hno _ Ha).
  - intros h b x [-> _]%lookup_replicate Hx. by apply not_elem_of_nil in Hx.
  - intros h b [-> _]%lookup_replicate. constructor.
  - cbn. lia.
Qed.

(** A name that differs only in case has another hash, so it gets another atom. *)
Example atom_case_split :
  match (x ← GlobalAddAtomW (Some [65; 66]) true;
         y ← GlobalAddAtomW (Some [97; 98]) true;
         z ← GlobalAddAtomW (Some [65; 66; 0; 67]) true;
         mret (x, y, z)) demo_atoms with
  | Ok (r, _) => r = (STATUS_SUCCESS, Some 0xC001, (STATUS_SUCCESS, Some 0xC002), (STATUS_SUCCESS, Some 0xC001))
  | _ => False
  end.
Proof. vm_compute. reflexivity. Qed.

(** The counter wraps: after number 0xFFFF comes 0, which can be found by name
    but not deleted. *)
Example atom_numbers_wrap :
  match (x ← GlobalAddAtomW (Some [65; 66]) true;
         y ← GlobalAddAtomW (Some [67]) true;
         z ← GlobalFindAtomW (Some [67]) true;
         d ← GlobalDeleteAtom 0;
         mret (x, y, z, d)) (set_NextAtomId 0xFFFF demo_atoms) with
  | Ok (r, _) => r = (STATUS_SUCCESS, Some 0xFFFF, (STATUS_SUCCESS, Some 0), (STATUS_SUCCESS, Some 0), STATUS_INVALID_PARAMETER)
  | _ => False
  end.
Proof. vm_compute. reflexivity. Qed.

Lemma atoms_refine_map_witness :
  ∃ r s' T' m', GlobalAddAtomW (Some [72; 105]) true demo_atoms = Ok (r, s') ∧ atom_inv s' T' m' ∧
    r = (STATUS_SUCCESS, Some 0xC001) ∧ T' !! 0xC001 = Some ([72; 105], 1).
Proof.
  destruct (atoms_refine_map demo_atoms ∅ ∅ demo_atoms_inv eq_refl) as [Hadd _].
  destruct (Hadd [72; 105]) as (r & s' & T' & m' & Hr & _ & Hi & Hres & _); [by left|].
  exists r, s', T', m'. split; [exact Hr|].
  assert (Hb : match GlobalAddAtomW (Some [72; 105]) true demo_atoms with Ok (r, _) => r.1 = STATUS_SUCCESS | _ => False end)
    by (vm_compute; reflexivity).
  rewrite Hr in Hb. destruct Hres as [(id & n & k & HT & _)|[_ [[-> _]|(-> & -> & _)]]].
  - by rewrite lookup_empty in HT.
  - discriminate.
  - split; [exact Hi|]. split; [done|]. apply lookup_insert_eq.
Defined.
