(* ===== verification/IoMgr.v ===== *)
(** * IoMgr: drivers, devices and requests (src/io/iomgr.c, src/include/nt/io.h)

    Driver objects, device objects and request packets are pool blocks, kept in
    maps from their addresses; a request carries its stack locations.  Dispatch
    routines are addresses of code: [dispatch] is what calling one does, a
    parameter of the routine that calls it. *)

From S2P Require Import Prelude Irql Pool.

#[local] Open Scope Z_scope.

Definition IO_TYPE_DRIVER := 0x4452.
Definition IO_TYPE_DEVICE := 0x4456.
Definition IO_TYPE_IRP := 0x4952.
Definition TAG_IOMGR := 0x4D4F49.
Definition TAG_IRP := 0x505249.
Definition TAG_DEV := 0x564544.
Definition IRP_MJ_DEVICE_CONTROL := 0x0E.
Definition IRP_MJ_MAXIMUM_FUNCTION := 0x1B.
Definition FILE_DEVICE_NULL := 0x15.
Definition sizeof_IRP := 56.
Definition sizeof_IO_STACK_LOCATION := 40.
Definition sizeof_DRIVER_OBJECT := 272.
Definition sizeof_DEVICE_OBJECT := 184.

Record IO_STACK_LOCATION := mkStack {
  MajorFunction : Z; OutputBufferLength : Z; InputBufferLength : Z; IoControlCode : Z;
  Type3InputBuffer : Z; SDeviceObject : Z }.

Record IRP := mkIrp {
  IrpType : Z; IrpSize : Z; IoStatus_Status : Z; UserBuffer : Z; StackCount : Z; CurrentLocation : Z;
  Stack : list IO_STACK_LOCATION }.

(** The name is the characters of the caller's string. *)
Record DRIVER_OBJECT := mkDriver {
  DrType : Z; DrDevice : Z; DriverName : list Z; DrMajor : list Z }.

Record DEVICE_OBJECT := mkDevice {
  DvType : Z; ReferenceCount : Z; DvDriver : Z; NextDevice : Z; DeviceType : Z; DeviceExtension : Z;
  DeviceName : list Z }.

Record IO (P : Type) := mkIO {
  Drivers : gmap Z DRIVER_OBJECT;
  Devices : gmap Z DEVICE_OBJECT;
  Irps : gmap Z IRP;
  IopDriverList : list Z;
  IopSpinLock : Z;
  io_pool : P
}.
Arguments mkIO {P} _ _ _ _ _ _.
Arguments Drivers {P} _.
Arguments Devices {P} _.
Arguments Irps {P} _.
Arguments IopDriverList {P} _.
Arguments IopSpinLock {P} _.
Arguments io_pool {P} _.

Section IoMgr.
Context {P : Type} `{PoolInterface P}.
Implicit Types (s : IO P).

Definition set_Drivers x s : IO P := mkIO x (Devices s) (Irps s) (IopDriverList s) (IopSpinLock s) (io_pool s).
Definition set_Devices x s : IO P := mkIO (Drivers s) x (Irps s) (IopDriverList s) (IopSpinLock s) (io_pool s).
Definition set_Irps x s : IO P := mkIO (Drivers s) (Devices s) x (IopDriverList s) (IopSpinLock s) (io_pool s).
Definition set_DriverList x s : IO P := mkIO (Drivers s) (Devices s) (Irps s) x (IopSpinLock s) (io_pool s).
Definition set_io_pool x s : IO P := mkIO (Drivers s) (Devices s) (Irps s) (IopDriverList s) (IopSpinLock s) x.

Definition io_do {A} (m : M P A) : M (IO P) A := zoom io_pool set_io_pool m.
Definition get_irp (a : Z) : M (IO P) IRP := mderef (λ s, Irps s !! a).
Definition put_irp (a : Z) (x : IRP) : M (IO P) unit := mmod (λ s, set_Irps (<[a := x]> (Irps s)) s).
Definition get_driver (a : Z) : M (IO P) DRIVER_OBJECT := mderef (λ s, Drivers s !! a).
Definition put_driver (a : Z) (x : DRIVER_OBJECT) : M (IO P) unit := mmod (λ s, set_Drivers (<[a := x]> (Drivers s)) s).
Definition get_device (a : Z) : M (IO P) DEVICE_OBJECT := mderef (λ s, Devices s !! a).
Definition put_device (a : Z) (x : DEVICE_OBJECT) : M (IO P) unit := mmod (λ s, set_Devices (<[a := x]> (Devices s)) s).

(** ** Requests *)

Definition empty_stack : IO_STACK_LOCATION := mkStack 0xFF 0 0 0 0 0.

Definition IoAllocateIrp (StackSize : Z) : M (IO P) Z :=
  let StackSize := if StackSize <? 1 then 1 else StackSize in
  let IrpSize := sizeof_IRP + StackSize * sizeof_IO_STACK_LOCATION in
  Irp ← io_do (pool_alloc 0 IrpSize TAG_IRP);
  if Irp =? 0 then mret 0
  else
    put_irp Irp (mkIrp IO_TYPE_IRP (u16 IrpSize) 0 0 StackSize StackSize (replicate (Z.to_nat StackSize) empty_stack));;
    mret Irp.

(** The block is given back: nothing lives at its address any more. *)
Definition IoFreeIrp (Irp : Z) : M (IO P) unit :=
  mwhen (truthy Irp) (
    io_do (pool_free Irp TAG_IRP);;
    mmod (λ s, set_Irps (delete Irp (Irps s)) s)).

(** [&Stack[Irp->CurrentLocation - 1]], as an index. *)
Definition IoGetCurrentIrpStackLocation (x : IRP) : Z := CurrentLocation x - 1.
Definition IoGetNextIrpStackLocation (x : IRP) : Z := CurrentLocation x - 1.

Definition stack_at (x : IRP) (i : Z) : option IO_STACK_LOCATION :=
  if i <? 0 then None else Stack x !! Z.to_nat i.
Definition with_stack (i : Z) (y : IO_STACK_LOCATION) (x : IRP) : IRP :=
  mkIrp (IrpType x) (IrpSize x) (IoStatus_Status x) (UserBuffer x) (StackCount x) (CurrentLocation x)
    (<[Z.to_nat i := y]> (Stack x)).
Definition with_location (n : Z) (x : IRP) : IRP :=
  mkIrp (IrpType x) (IrpSize x) (IoStatus_Status x) (UserBuffer x) (StackCount x) n (Stack x).
Definition with_status (st : Z) (x : IRP) : IRP :=
  mkIrp (IrpType x) (IrpSize x) st (UserBuffer x) (StackCount x) (CurrentLocation x) (Stack x).
Definition with_buffer (a : Z) (x : IRP) : IRP :=
  mkIrp (IrpType x) (IrpSize x) (IoStatus_Status x) a (StackCount x) (CurrentLocation x) (Stack x).

Definition IoSkipCurrentIrpStackLocation (Irp : Z) : M (IO P) unit :=
  x ← get_irp Irp;
  mwhen (1 <? CurrentLocation x) (put_irp Irp (with_location (CurrentLocation x - 1) x)).

Definition IoCopyCurrentIrpStackLocationToNext (Irp : Z) : M (IO P) unit :=
  x ← get_irp Irp;
  mwhen (1 <? CurrentLocation x) (
    c ← mderef (λ _, stack_at x (IoGetCurrentIrpStackLocation x));
    put_irp Irp (with_stack (IoGetNextIrpStackLocation x) c x)).

(** ** Drivers and devices *)

Definition IoCreateDriver (Name : option (list Z)) (MajorFunction_ : Z) : M (IO P) (Z * option Z) :=
  Driver ← io_do (pool_alloc 0 sizeof_DRIVER_OBJECT TAG_IOMGR);
  if Driver =? 0 then mret (STATUS_NO_MEMORY, None)
  else
    put_driver Driver (mkDriver IO_TYPE_DRIVER 0 (default [] Name)
      (replicate (Z.to_nat IRP_MJ_MAXIMUM_FUNCTION) (if truthy MajorFunction_ then MajorFunction_ else 0)));;
    mmod (λ s, set_DriverList (IopDriverList s ++ [Driver]) s);;
    mret (STATUS_SUCCESS, Some Driver).

(** [for (NameLen = 0; NameLen < 63 && DeviceName[NameLen]; NameLen++)]. *)
Fixpoint device_name (left : nat) (str : list Z) : list Z :=
  match left, str with
  | S left', c :: str' => if c =? 0 then [] else c :: device_name left' str'
  | _, _ => []
  end.

Definition IoCreateDevice (DriverObject DeviceExtensionSize : Z) (Name : option (list Z)) (DeviceType_ : Z) :
    M (IO P) (Z * option Z) :=
  Device ← io_do (pool_alloc 0 (sizeof_DEVICE_OBJECT + DeviceExtensionSize) TAG_DEV);
  if Device =? 0 then mret (STATUS_NO_MEMORY, None)
  else
    d ← get_driver DriverObject;
    put_device Device (mkDevice IO_TYPE_DEVICE 1 DriverObject (DrDevice d) DeviceType_
      (Device + sizeof_DEVICE_OBJECT) (from_option (device_name 63) [] Name));;
    put_driver DriverObject (mkDriver (DrType d) Device (DriverName d) (DrMajor d));;
    mret (STATUS_SUCCESS, Some Device).

Definition IoDeleteDevice (DeviceObject : Z) : M (IO P) unit :=
  mwhen (truthy DeviceObject) (
    x ← get_device DeviceObject;
    mwhen (truthy (DvDriver x)) (
      d ← get_driver (DvDriver x);
      mwhen (DrDevice d =? DeviceObject) (
        put_driver (DvDriver x) (mkDriver (DrType d) (NextDevice x) (DriverName d) (DrMajor d))));;
    io_do (pool_free DeviceObject TAG_DEV);;
    mmod (λ s, set_Devices (delete DeviceObject (Devices s)) s)).

(** ** Dispatch *)

Definition set_SDevice (d : Z) (y : IO_STACK_LOCATION) : IO_STACK_LOCATION :=
  mkStack (MajorFunction y) (OutputBufferLength y) (InputBufferLength y) (IoControlCode y) (Type3InputBuffer y) d.

Definition IoCallDriver (dispatch : Z → Z → Z → M (IO P) Z) (DeviceObject Irp : Z) : M (IO P) Z :=
  if (DeviceObject =? 0) || (Irp =? 0) then mret STATUS_INVALID_PARAMETER
  else
    v ← get_device DeviceObject;
    if DvDriver v =? 0 then mret STATUS_UNSUCCESSFUL
    else
      x ← get_irp Irp;
      y ← mderef (λ _, stack_at x (IoGetCurrentIrpStackLocation x));
      put_irp Irp (with_stack (IoGetCurrentIrpStackLocation x) (set_SDevice DeviceObject y) x);;
      d ← get_driver (DvDriver v);
      if MajorFunction y <? IRP_MJ_MAXIMUM_FUNCTION then
        h ← mderef (λ _, DrMajor d !! Z.to_nat (MajorFunction y));
        if truthy h then dispatch h DeviceObject Irp else mret STATUS_UNSUCCESSFUL
      else mret STATUS_UNSUCCESSFUL.

Definition IoCompleteRequest (Irp Status : Z) : M (IO P) Z :=
  if Irp =? 0 then mret STATUS_INVALID_PARAMETER
  else x ← get_irp Irp; put_irp Irp (with_status Status x);; mret Status.

Definition IoBuildDeviceIoControlRequest (IoControlCode_ InputBuffer InputBufferLength_ OutputBuffer OutputBufferLength_ : Z) :
    M (IO P) (Z * option Z) :=
  Irp ← IoAllocateIrp 1;
  if Irp =? 0 then mret (STATUS_NO_MEMORY, None)
  else
    x ← get_irp Irp;
    let x := with_buffer OutputBuffer x in
    y ← mderef (λ _, stack_at x (IoGetNextIrpStackLocation x));
    put_irp Irp (with_stack (IoGetNextIrpStackLocation x)
      (mkStack IRP_MJ_DEVICE_CONTROL OutputBufferLength_ InputBufferLength_ IoControlCode_ InputBuffer (SDeviceObject y)) x);;
    mret (STATUS_SUCCESS, Some Irp).

Definition IoInitSystem : M (IO P) Z :=
  mmod (λ s, mkIO (Drivers s) (Devices s) (Irps s) [] 0 (io_pool s));; mret STATUS_SUCCESS.

(** The dispatch routine of the null device: its switch only prints. *)
Definition IopNullDispatch (DeviceObject Irp : Z) : M (IO P) Z :=
  x ← get_irp Irp;
  put_irp Irp (with_status STATUS_SUCCESS x);;
  mret STATUS_SUCCESS.

Definition NullDriverName : list Z := [92; 68; 114; 105; 118; 101; 114; 92; 78; 117; 108; 108].
Definition NullDeviceName : list Z := [92; 68; 101; 118; 105; 99; 101; 92; 78; 117; 108; 108; 0].

Definition IoInitNullDriver (NullDispatch : Z) : M (IO P) Z :=
  '(st, drv) ← IoCreateDriver (Some NullDriverName) NullDispatch;
  match drv with
  | None => mret st
  | Some NullDriver =>
      '(st, _) ← IoCreateDevice NullDriver 0 (Some NullDeviceName) FILE_DEVICE_NULL;
      mret st
  end.

(** ** Invariant *)

(** The devices of a driver, newest first, along NextDevice. *)
#[local] Abbreviation dev_chain := (next_chain NextDevice).

Record irp_wf (x : IRP) : Prop := {
  iw_count : 1 ≤ StackCount x < 256;
  iw_cur : 1 ≤ CurrentLocation x ≤ StackCount x;
  iw_len : Z.of_nat (length (Stack x)) = StackCount x
}.

Record io_inv s (m : gmap Z Z) : Prop := {
  io_rep : pool_rep (io_pool s) m;
  io_pcr : can_lock (pcr (io_pool s));
  io_drivers a d : Drivers s !! a = Some d → m !! a = Some TAG_IOMGR ∧ length (DrMajor d) = Z.to_nat IRP_MJ_MAXIMUM_FUNCTION;
  io_devices a x : Devices s !! a = Some x → m !! a = Some TAG_DEV ∧ is_Some (Drivers s !! DvDriver x);
  io_irps a x : Irps s !! a = Some x → m !! a = Some TAG_IRP ∧ irp_wf x;
  io_list : NoDup (IopDriverList s) ∧ ∀ a, a ∈ IopDriverList s ↔ is_Some (Drivers s !! a);
  io_chain a d : Drivers s !! a = Some d → ∃ l, dev_chain (Devices s) (DrDevice d) l ∧ NoDup l ∧
    ∀ v, v ∈ l ↔ ∃ x, Devices s !! v = Some x ∧ DvDriver x = a
}.

Section Inv.
Context {s : IO P} {m : gmap Z Z} (Hi : io_inv s m).

Lemma live_not_free a : m !! a = None → Drivers s !! a = None ∧ Devices s !! a = None ∧ Irps s !! a = None.
Proof.
  intros Ha. split_and!; apply eq_None_not_Some; intros [x Hx].
  - apply (io_drivers _ _ Hi) in Hx as [? _]. congruence.
  - apply (io_devices _ _ Hi) in Hx as [? _]. congruence.
  - apply (io_irps _ _ Hi) in Hx as [? _]. congruence.
Qed.

(** What a live block may be taken for: the pool tag tells the tables apart. *)
Lemma inv_pool p m' :
  pool_rep p m' → pcr p = pcr (io_pool s) →
  (∀ a, is_Some (Drivers s !! a) ∨ is_Some (Devices s !! a) ∨ is_Some (Irps s !! a) → m' !! a = m !! a) →
  io_inv (set_io_pool p s) m'.
Proof.
  intros Hp Hk Hm. destruct Hi as [_ Hpcr Hdr Hdv Hir Hl Hc]. constructor; cbn; try done; [by rewrite Hk| | |].
  - intros a d Ha. rewrite Hm by eauto. by apply Hdr.
  - intros a x Ha. rewrite Hm by eauto. by apply Hdv.
  - intros a x Ha. rewrite Hm by eauto. by apply Hir.
Qed.

Lemma io_alloc_run n tag :
  0 < n < 18446744073709551616 →
  ∃ a p, io_do (pool_alloc 0 n tag) s = Ok (a, set_io_pool p s) ∧
    ((a = 0 ∧ io_inv (set_io_pool p s) m) ∨
     (0 < a ∧ m !! a = None ∧ io_inv (set_io_pool p s) (<[a := tag]> m))).
Proof.
  intros Hn. destruct (pool_alloc_law (io_pool s) m 0 n tag (io_rep _ _ Hi) (io_pcr _ _ Hi) Hn) as (a & p & Hr & Hk & Hc).
  exists a, p. split; [by apply zoom_ok|]. destruct Hc as [(-> & Hp)|(Ha & Hf & Hp)].
  - left. split; [done|]. by apply inv_pool.
  - right. split_and!; [done..|]. apply inv_pool; [done..|]. intros b Hb. apply lookup_insert_ne. intros <-.
    destruct (live_not_free a Hf) as (E1 & E2 & E3). rewrite E1, E2, E3 in Hb. by destruct Hb as [[? [=]]|[[? [=]]|[? [=]]]].
Qed.

Lemma inv_put_irp a x : m !! a = Some TAG_IRP → irp_wf x → io_inv (set_Irps (<[a := x]> (Irps s)) s) m.
Proof.
  intros Ha Hx. destruct Hi as [Hp Hpcr Hdr Hdv Hir Hl Hc]. constructor; cbn; try done.
  intros b y Hb. apply lookup_insert_Some in Hb as [[<- <-]|[_ Hb]]; [done|by apply Hir].
Qed.

Lemma inv_drop_irp a : io_inv (set_Irps (delete a (Irps s)) s) m.
Proof.
  destruct Hi as [Hp Hpcr Hdr Hdv Hir Hl Hc]. constructor; cbn; try done.
  intros b y [_ Hb]%lookup_delete_Some. by apply Hir.
Qed.

Lemma io_free_run a tag :
  m !! a = Some tag →
  ∃ p, (∀ s', io_pool s' = io_pool s → io_do (pool_free a tag) s' = Ok (tt, set_io_pool p s')) ∧
    pool_rep p (delete a m) ∧ pcr p = pcr (io_pool s).
Proof.
  intros Ha. destruct (pool_free_law (io_pool s) m a tag tag (io_rep _ _ Hi) (io_pcr _ _ Hi) Ha ltac:(by right)) as (p & Hr & Hk & Hp).
  exists p. split; [|done]. intros s' E. apply zoom_ok. by rewrite E.
Qed.

(** Giving back a block that no table holds any more. *)
Lemma inv_freed a p :
  m !! a = Some TAG_DEV ∨ m !! a = Some TAG_IRP → Devices s !! a = None → Irps s !! a = None →
  pool_rep p (delete a m) → pcr p = pcr (io_pool s) → io_inv (set_io_pool p s) (delete a m).
Proof.
  intros Hm Hv Hr Hp Hk. apply inv_pool; [done..|]. intros b Hb. apply lookup_delete_ne. intros <-.
  rewrite Hv, Hr in Hb. destruct Hb as [[d Hd]|[[? [=]]|[? [=]]]]. apply (io_drivers _ _ Hi) in Hd as [Hd _].
  rewrite Hd in Hm. destruct Hm; discriminate.
Qed.
End Inv.

(** ** Requests *)

Definition fresh_irp (n : Z) : IRP :=
  mkIrp IO_TYPE_IRP (u16 (sizeof_IRP + n * sizeof_IO_STACK_LOCATION)) 0 0 n n (replicate (Z.to_nat n) empty_stack).

Lemma fresh_irp_wf n : 1 ≤ n < 256 → irp_wf (fresh_irp n).
Proof. intros Hn. constructor; cbn; [lia..|]. rewrite length_replicate. lia. Qed.

Lemma allocate_irp_run s m n :
  io_inv s m → 1 ≤ n < 256 →
  ∃ a p, let s' := if a =? 0 then set_io_pool p s else set_Irps (<[a := fresh_irp n]> (Irps s)) (set_io_pool p s) in
    IoAllocateIrp n s = Ok (a, s') ∧
    ((a = 0 ∧ io_inv s' m) ∨ (0 < a ∧ m !! a = None ∧ io_inv s' (<[a := TAG_IRP]> m))).
Proof.
  intros Hi Hn. destruct (io_alloc_run Hi (sizeof_IRP + n * sizeof_IO_STACK_LOCATION) TAG_IRP) as (a & p & Hr & Hc).
  { unfold sizeof_IRP, sizeof_IO_STACK_LOCATION. lia. }
  exists a, p. cbv zeta. unfold IoAllocateIrp. destruct (Z.ltb_spec n 1); [lia|].
  rewrite (bind_ok _ _ _ _ _ Hr). destruct Hc as [(-> & Hc)|(Ha & Hf & Hc)]; [split; [done|by left]|].
  destruct (Z.eqb_spec a 0); [lia|]. split; [done|]. right. split_and!; [done..|].
  apply (inv_put_irp Hc); [apply lookup_insert_eq|by apply fresh_irp_wf].
Qed.

Lemma free_irp_run s m a x :
  io_inv s m → Irps s !! a = Some x →
  ∃ s', IoFreeIrp a s = Ok (tt, s') ∧ io_inv s' (delete a m) ∧
    Irps s' = delete a (Irps s) ∧ Devices s' = Devices s ∧ Drivers s' = Drivers s.
Proof.
  intros Hi Hx. destruct (io_irps _ _ Hi _ _ Hx) as [Hm _].
  pose proof (pool_rep_pos _ _ _ _ (io_rep _ _ Hi) Hm) as Hpos.
  destruct (io_free_run Hi a TAG_IRP Hm) as (p & Hr & Hp & Hk).
  exists (set_Irps (delete a (Irps s)) (set_io_pool p s)). split_and!; [|..|done|done|done].
  - unfold IoFreeIrp, truthy. destruct (Z.eqb_spec a 0); [lia|]. cbn [negb]. rewrite mwhen_true.
    by rewrite (bind_ok _ _ _ _ _ (Hr s eq_refl)).
  - apply (inv_freed (inv_drop_irp Hi a) a p); [by right| |apply lookup_delete_eq|done..].
    apply eq_None_not_Some. intros [x' Hx']. apply (io_devices _ _ Hi) in Hx' as [Hx' _]. rewrite Hm in Hx'. discriminate.
Qed.

Lemma with_stack_wf i y x : irp_wf x → irp_wf (with_stack i y x).
Proof. intros [Hc Hl Hs]. constructor; cbn; [done..|]. by rewrite length_insert. Qed.

Lemma set_irp_wf x b st : irp_wf x → irp_wf (with_buffer b x) ∧ irp_wf (with_status st x).
Proof. intros [Hc Hl Hs]. by split; constructor. Qed.

Lemma stack_current x : irp_wf x → is_Some (stack_at x (IoGetCurrentIrpStackLocation x)).
Proof.
  intros [Hc Hl Hs]. unfold stack_at, IoGetCurrentIrpStackLocation. destruct (Z.ltb_spec (CurrentLocation x - 1) 0); [lia|].
  apply lookup_lt_is_Some. lia.
Qed.

(** Where IoCallDriver hands the request to: the entry of the dispatch table, if any. *)
Definition handler (d : DRIVER_OBJECT) (y : IO_STACK_LOCATION) : option Z :=
  if MajorFunction y <? IRP_MJ_MAXIMUM_FUNCTION then
    h ← DrMajor d !! Z.to_nat (MajorFunction y); if truthy h then Some h else None
  else None.

Lemma call_driver_run s m dv v d irp x y dispatch :
  io_inv s m → Devices s !! dv = Some v → Drivers s !! DvDriver v = Some d → Irps s !! irp = Some x →
  stack_at x (IoGetCurrentIrpStackLocation x) = Some y →
  let s' := set_Irps (<[irp := with_stack (IoGetCurrentIrpStackLocation x) (set_SDevice dv y) x]> (Irps s)) s in
  io_inv s' m ∧
  IoCallDriver dispatch dv irp s =
    match handler d y with Some h => dispatch h dv irp s' | None => Ok (STATUS_UNSUCCESSFUL, s') end.
Proof.
  intros Hi Hv Hd Hx Hy. destruct (io_devices _ _ Hi _ _ Hv) as [Hmv _], (io_irps _ _ Hi _ _ Hx) as [Hmx Hwf].
  destruct (io_drivers _ _ Hi _ _ Hd) as [Hmd Hlen].
  pose proof (pool_rep_pos _ _ _ _ (io_rep _ _ Hi) Hmv). pose proof (pool_rep_pos _ _ _ _ (io_rep _ _ Hi) Hmx).
  pose proof (pool_rep_pos _ _ _ _ (io_rep _ _ Hi) Hmd). cbv zeta. split.
  { apply (inv_put_irp Hi); [done|by apply with_stack_wf]. }
  unfold IoCallDriver. destruct (Z.eqb_spec dv 0); [lia|]. destruct (Z.eqb_spec irp 0); [lia|]. cbn [orb].
  unfold get_device. rewrite (deref_bind (λ s, Devices s !! dv) _ _ _ Hv). destruct (Z.eqb_spec (DvDriver v) 0); [lia|].
  unfold get_irp. rewrite (deref_bind (λ s, Irps s !! irp) _ _ _ Hx).
  rewrite (deref_bind (λ _, stack_at x _) _ _ _ Hy). set (s' := set_Irps _ s).
  rewrite (bind_ok (put_irp _ _) _ s tt s' eq_refl).
  unfold get_driver. rewrite (deref_bind (λ s, Drivers s !! _) _ s' d Hd). unfold handler.
  destruct (Z.ltb_spec (MajorFunction y) IRP_MJ_MAXIMUM_FUNCTION) as [Hlt|]; [|done].
  destruct (lookup_lt_is_Some_2 (DrMajor d) (Z.to_nat (MajorFunction y))) as [h Hh].
  { rewrite Hlen. unfold IRP_MJ_MAXIMUM_FUNCTION in *. lia. }
  rewrite (deref_bind (λ _, DrMajor d !! _) _ _ _ Hh), Hh. cbn. by destruct (truthy h).
Qed.

Lemma complete_run s m irp x st :
  io_inv s m → Irps s !! irp = Some x →
  let s' := set_Irps (<[irp := with_status st x]> (Irps s)) s in
  IoCompleteRequest irp st s = Ok (st, s') ∧ io_inv s' m.
Proof.
  intros Hi Hx. destruct (io_irps _ _ Hi _ _ Hx) as [Hm Hwf].
  pose proof (pool_rep_pos _ _ _ _ (io_rep _ _ Hi) Hm). cbv zeta. split.
  - unfold IoCompleteRequest. destruct (Z.eqb_spec irp 0); [lia|]. unfold get_irp. by rewrite (deref_bind (λ s, Irps s !! irp) _ _ _ Hx).
  - apply (inv_put_irp Hi); [done|]. by apply (set_irp_wf x 0 st).
Qed.

Definition ioctl_irp (dv code ib il ob ol : Z) : IRP :=
  with_stack 0 (mkStack IRP_MJ_DEVICE_CONTROL ol il code ib dv) (with_buffer ob (fresh_irp 1)).

Lemma build_run s m code ib il ob ol :
  io_inv s m →
  ∃ a s', IoBuildDeviceIoControlRequest code ib il ob ol s =
      Ok (if a =? 0 then (STATUS_NO_MEMORY, None) else (STATUS_SUCCESS, Some a), s') ∧
    Drivers s' = Drivers s ∧ Devices s' = Devices s ∧
    ((a = 0 ∧ io_inv s' m ∧ Irps s' = Irps s) ∨
     (0 < a ∧ m !! a = None ∧ io_inv s' (<[a := TAG_IRP]> m) ∧ Irps s' = <[a := ioctl_irp 0 code ib il ob ol]> (Irps s))).
Proof.
  intros Hi. destruct (allocate_irp_run s m 1 Hi ltac:(lia)) as (a & p & Hr & Hc). cbv zeta in Hr, Hc.
  unfold IoBuildDeviceIoControlRequest. rewrite (bind_ok _ _ _ _ _ Hr). exists a.
  destruct Hc as [(-> & Hc)|(Ha & Hf & Hc)]; [eexists; split_and!; [reflexivity|done|done|by left]|].
  destruct (Z.eqb_spec a 0) as [->|_]; [lia|]. set (s1 := set_Irps _ _) in *.
  assert (Irps s1 !! a = Some (fresh_irp 1)) as Hx by apply lookup_insert_eq.
  unfold get_irp. rewrite (deref_bind (λ s, Irps s !! a) _ _ _ Hx).
  rewrite (deref_bind (λ _, stack_at (with_buffer ob (fresh_irp 1)) (1 - 1)) _ s1 empty_stack eq_refl).
  exists (set_Irps (<[a := ioctl_irp 0 code ib il ob ol]> (Irps s1)) s1). split_and!; [done|done|done|]. right. split_and!; [done|done| |].
  - apply (inv_put_irp Hc); [apply lookup_insert_eq|]. apply with_stack_wf, (set_irp_wf _ ob 0), fresh_irp_wf. lia.
  - cbn. by rewrite insert_insert_eq.
Qed.

(** [C32] A device-control request end to end.  Building it either reports that
    memory is short, with nothing changed, or gives a new request packet; IoCallDriver
    then hands exactly that packet, with the control code, the buffers and lengths the
    caller named and the target device filled in, to the driver's device-control entry
    (or fails when the entry is empty); completing it records the status, and freeing it
    gives the block back and leaves the tables as they were. *)
Theorem io_request_spec s m dv v d code ib il ob ol :
  io_inv s m → Devices s !! dv = Some v → Drivers s !! DvDriver v = Some d →
  ∃ st r s1, IoBuildDeviceIoControlRequest code ib il ob ol s = Ok ((st, r), s1) ∧
  match r with
  | None => st = STATUS_NO_MEMORY ∧ io_inv s1 m ∧ Irps s1 = Irps s
  | Some irp =>
      st = STATUS_SUCCESS ∧ Irps s !! irp = None ∧
      ∃ s2, io_inv s2 (<[irp := TAG_IRP]> m) ∧ Irps s2 = <[irp := ioctl_irp dv code ib il ob ol]> (Irps s) ∧
        (∀ dispatch, IoCallDriver dispatch dv irp s1 =
           match DrMajor d !! Z.to_nat IRP_MJ_DEVICE_CONTROL with
           | Some h => if truthy h then dispatch h dv irp s2 else Ok (STATUS_UNSUCCESSFUL, s2)
           | None => Undef
           end) ∧
        ∀ status, ∃ s3 s4, IoCompleteRequest irp status s2 = Ok (status, s3) ∧
          Irps s3 !! irp = Some (with_status status (ioctl_irp dv code ib il ob ol)) ∧
          IoFreeIrp irp s3 = Ok (tt, s4) ∧ io_inv s4 m ∧
          Irps s4 = Irps s ∧ Devices s4 = Devices s ∧ Drivers s4 = Drivers s
  end.
Proof.
  intros Hi Hv Hd. destruct (build_run s m code ib il ob ol Hi) as (a & s1 & Hr & Hdr & Hdv & Hc).
  rewrite Hr. destruct Hc as [(-> & H1 & Hirps)|(Ha & Hf & H1 & Hirps)]; [eexists _, _, _; split; [reflexivity|done]|].
  destruct (Z.eqb_spec a 0); [lia|]. eexists _, _, _. split; [reflexivity|]. cbn iota beta.
  destruct (live_not_free Hi a Hf) as (_ & _ & Hna). split_and!; [done..|].
  assert (Irps s1 !! a = Some (ioctl_irp 0 code ib il ob ol)) as Hx by (rewrite Hirps; apply lookup_insert_eq).
  set (y := mkStack IRP_MJ_DEVICE_CONTROL ol il code ib 0).
  pose proof (λ f, call_driver_run s1 _ dv v d a _ y f H1 ltac:(by rewrite Hdv) ltac:(by rewrite Hdr) Hx eq_refl) as Hcall.
  set (s2 := set_Irps _ s1) in Hcall. exists s2. destruct (Hcall (λ _ _ _, mret 0)) as [H2 _].
  assert (Irps s2 = <[a := ioctl_irp dv code ib il ob ol]> (Irps s)) as Hirps2 by (cbn; by rewrite Hirps, insert_insert_eq).
  destruct (io_drivers _ _ Hi _ _ Hd) as [_ Hlen].
  destruct (lookup_lt_is_Some_2 (DrMajor d) (Z.to_nat IRP_MJ_DEVICE_CONTROL)) as [h Hh].
  { rewrite Hlen. unfold IRP_MJ_DEVICE_CONTROL, IRP_MJ_MAXIMUM_FUNCTION. lia. }
  split_and!; [done..| |].
  - intros f. rewrite (proj2 (Hcall f)), Hh. unfold handler. cbn [MajorFunction y]. rewrite Hh. cbn. by destruct (truthy h).
  - intros st. destruct (complete_run s2 _ a _ st H2 ltac:(rewrite Hirps2; apply lookup_insert_eq)) as [Hr3 H3].
    set (s3 := set_Irps _ s2) in *. assert (Irps s3 !! a = Some (with_status st (ioctl_irp dv code ib il ob ol))) as Hx3 by apply lookup_insert_eq.
    destruct (free_irp_run s3 _ a _ H3 Hx3) as (s4 & Hr4 & H4 & Hi4 & Hv4 & Hd4).
    exists s3, s4. rewrite delete_insert_id in H4 by done. split_and!; [done..| | |].
    + rewrite Hi4. cbn [Irps s3 set_Irps]. by rewrite Hirps2, !delete_insert_eq, delete_id.
    + by rewrite Hv4.
    + by rewrite Hd4.
Qed.

(** ** Drivers and devices *)

(** The devices of a driver, newest first. *)
Definition driver_devices s (drv : Z) (l : list Z) : Prop :=
  ∃ d, Drivers s !! drv = Some d ∧ dev_chain (Devices s) (DrDevice d) l.

Lemma driver_devices_det s drv l l' : driver_devices s drv l → driver_devices s drv l' → l = l'.
Proof. intros (d & Hd & Hl) (d' & Hd' & Hl'). rewrite Hd in Hd'. injection Hd' as <-. by eapply next_chain_det. Qed.

Lemma create_driver_run s m name h :
  io_inv s m →
  ∃ a s', IoCreateDriver name h s = Ok (if a =? 0 then (STATUS_NO_MEMORY, None) else (STATUS_SUCCESS, Some a), s') ∧
    Devices s' = Devices s ∧ Irps s' = Irps s ∧
    ((a = 0 ∧ io_inv s' m ∧ Drivers s' = Drivers s) ∨
     (0 < a ∧ m !! a = None ∧ io_inv s' (<[a := TAG_IOMGR]> m) ∧
      Drivers s' = <[a := mkDriver IO_TYPE_DRIVER 0 (default [] name) (replicate (Z.to_nat IRP_MJ_MAXIMUM_FUNCTION) h)]> (Drivers s))).
Proof.
  intros Hi. destruct (io_alloc_run Hi sizeof_DRIVER_OBJECT TAG_IOMGR ltac:(done)) as (a & p & Hr & Hc).
  unfold IoCreateDriver. rewrite (bind_ok _ _ _ _ _ Hr). exists a.
  destruct Hc as [(-> & Hc)|(Ha & Hf & Hc)]; [eexists; split_and!; [reflexivity|done|done|by left]|].
  destruct (Z.eqb_spec a 0) as [->|_]; [lia|]. destruct (live_not_free Hi a Hf) as (Hnd & Hnv & _).
  assert ((if truthy h then h else 0) = h) as -> by (unfold truthy; by destruct (Z.eqb_spec h 0)).
  eexists. split_and!; [reflexivity|done|done|]. right. split_and!; [done|done| |done].
  destruct Hc as [Hp Hpcr Hdr Hdv Hir [Hl1 Hl2] Hch]. cbn in *. constructor; cbn; try done.
  - intros b d [[<- <-]|[_ Hb]]%lookup_insert_Some; [|by apply Hdr]. by rewrite lookup_insert_eq.
  - intros b x Hb. destruct (Hdv b x Hb) as [Hm [d Hd]]. split; [done|]. destruct (decide (DvDriver x = a)) as [->|]; [by rewrite lookup_insert_eq|].
    rewrite lookup_insert_ne by done. eauto.
  - split.
    + apply NoDup_app. split_and!; [done| |by apply NoDup_singleton]. intros b Hb ->%list_elem_of_singleton. apply Hl2 in Hb as [? ?]. congruence.
    + intros b. rewrite elem_of_app, list_elem_of_singleton, Hl2. destruct (decide (b = a)) as [->|].
      * rewrite lookup_insert_eq. split; [eauto|by right].
      * rewrite lookup_insert_ne by done. split; [intros [?|]; [done|congruence]|by left].
  - intros b d [[<- <-]|[Hne Hb]]%lookup_insert_Some; [|by apply (Hch b)].
    exists []. split_and!; [constructor|by apply NoDup_nil|]. intros v. split; [by intros ?%elem_of_nil|]. intros (x & Hx & E).
    apply Hdv in Hx as [_ [d Hd]]. congruence.
Qed.

Definition new_device (dev drv ty : Z) (name : option (list Z)) (d : DRIVER_OBJECT) : DEVICE_OBJECT :=
  mkDevice IO_TYPE_DEVICE 1 drv (DrDevice d) ty (dev + sizeof_DEVICE_OBJECT) (from_option (device_name 63) [] name).

Definition set_DrDevice (v : Z) (d : DRIVER_OBJECT) : DRIVER_OBJECT := mkDriver (DrType d) v (DriverName d) (DrMajor d).

(** Changing one driver's chain while the devices of the others stay. *)
Lemma chains_change s m drv d v D' l :
  io_inv s m → Drivers s !! drv = Some d →
  (∀ a x, D' !! a = Some x → DvDriver x = drv ∧ a ∈ l ∨ DvDriver x ≠ drv ∧ Devices s !! a = Some x) →
  (∀ a x, Devices s !! a = Some x → DvDriver x ≠ drv → D' !! a = Some x) →
  dev_chain D' v l → NoDup l → (∀ a, a ∈ l → ∃ x, D' !! a = Some x ∧ DvDriver x = drv) →
  (∀ a x, D' !! a = Some x → m !! a = Some TAG_DEV) →
  io_inv (set_Drivers (<[drv := set_DrDevice v d]> (Drivers s)) (set_Devices D' s)) m.
Proof.
  intros [Hp Hpcr Hdr Hdv Hir [Hl1 Hl2] Hch] Hd HD1 HD2 Hc Hnd Hl Hm.
  assert (∀ a, is_Some (<[drv := set_DrDevice v d]> (Drivers s) !! a) ↔ is_Some (Drivers s !! a)) as Hdom.
  { intros a. destruct (decide (a = drv)) as [->|]; [rewrite lookup_insert_eq, Hd; by split; eauto|by rewrite lookup_insert_ne]. }
  constructor; cbn; try done.
  - intros a e [[<- <-]|[_ Ha]]%lookup_insert_Some; [by apply (Hdr drv d)|by apply Hdr].
  - intros a x Ha. split; [by apply (Hm a x)|]. apply Hdom. destruct (HD1 a x Ha) as [[-> _]|[_ Ha']]; [by rewrite Hd; eauto|]. by apply (Hdv a x).
  - split; [done|]. intros a. by rewrite Hdom.
  - intros a e [[<- <-]|[Hne Ha]]%lookup_insert_Some.
    + exists l. split_and!; [done..|]. intros b. split; [by apply Hl|]. intros (x & Hx & E). destruct (HD1 b x Hx) as [[_ ?]|[? _]]; done.
    + destruct (Hch a e Ha) as (l' & Hc' & Hn' & Hm'). exists l'. split_and!; [|done|].
      * apply (next_chain_mono _ (Devices s)); [|done]. intros b (x & Hx & E)%Hm'. rewrite Hx. apply HD2; [done|congruence].
      * intros b. rewrite Hm'. split; intros (x & Hx & E); exists x; (split; [|done]).
        -- apply HD2; [done|congruence].
        -- destruct (HD1 b x Hx) as [[E' _]|[_ ?]]; [congruence|done].
Qed.

Lemma create_device_run s m drv d l ext name ty :
  io_inv s m → Drivers s !! drv = Some d → dev_chain (Devices s) (DrDevice d) l → 0 ≤ ext < 4294967296 →
  ∃ a s', IoCreateDevice drv ext name ty s = Ok (if a =? 0 then (STATUS_NO_MEMORY, None) else (STATUS_SUCCESS, Some a), s') ∧
    Irps s' = Irps s ∧
    ((a = 0 ∧ io_inv s' m ∧ Drivers s' = Drivers s ∧ Devices s' = Devices s) ∨
     (0 < a ∧ m !! a = None ∧ io_inv s' (<[a := TAG_DEV]> m) ∧ driver_devices s' drv (a :: l) ∧
      Drivers s' = <[drv := set_DrDevice a d]> (Drivers s) ∧
      Devices s' = <[a := new_device a drv ty name d]> (Devices s))).
Proof.
  intros Hi Hd Hl Hext. destruct (io_alloc_run Hi (sizeof_DEVICE_OBJECT + ext) TAG_DEV) as (a & p & Hr & Hc).
  { unfold sizeof_DEVICE_OBJECT. lia. }
  unfold IoCreateDevice. rewrite (bind_ok _ _ _ _ _ Hr). exists a.
  destruct Hc as [(-> & Hc)|(Ha & Hf & Hc)]; [eexists; split_and!; [reflexivity|done|by left]|].
  destruct (Z.eqb_spec a 0) as [->|_]; [lia|]. destruct (live_not_free Hi a Hf) as (_ & Hnv & _).
  set (s1 := set_io_pool p s) in *.
  unfold get_driver. rewrite (deref_bind (λ s, Drivers s !! drv) _ s1 _ Hd).
  eexists. split_and!; [reflexivity|done|]. right.
  destruct (io_chain _ _ Hi drv d Hd) as (l' & Hl' & Hnd & Hmem). assert (l' = l) as -> by by eapply next_chain_det.
  assert (a ∉ l) as Hal by (intros (x & Hx & _)%Hmem; congruence).
  assert (dev_chain (<[a := new_device a drv ty name d]> (Devices s)) a (a :: l)) as Hchain.
  { eapply nc_cons; [lia|apply lookup_insert_eq|]. apply (next_chain_mono _ (Devices s)); [|done].
    intros v Hv. apply lookup_insert_ne. by intros ->. }
  split_and!; [done|done| |exists (set_DrDevice a d); cbn; by rewrite lookup_insert_eq|done|done].
  apply (chains_change s1 _ drv d a _ (a :: l) Hc Hd); [..|done| | |].
  - intros b x [[<- <-]|[Hne Hb]]%lookup_insert_Some; [left; split; [done|left]|].
    destruct (decide (DvDriver x = drv)); [left|by right]. split; [done|]. right. apply Hmem. eauto.
  - intros b x Hb Hne. rewrite lookup_insert_ne; [done|]. intros ->. cbn in Hb. congruence.
  - by apply NoDup_cons.
  - intros b [->|Hb]%elem_of_cons; [eexists; by rewrite lookup_insert_eq|]. apply Hmem in Hb as (x & Hx & E). exists x.
    rewrite lookup_insert_ne by (intros ->; congruence). done.
  - intros b x [[<- <-]|[Hne Hb]]%lookup_insert_Some; [apply lookup_insert_eq|]. rewrite lookup_insert_ne by done. by apply (io_devices _ _ Hi b x).
Qed.

Lemma unlink_newest s m v x d l :
  io_inv s m → Devices s !! v = Some x → Drivers s !! DvDriver x = Some d → DrDevice d = v →
  dev_chain (Devices s) v l → NoDup l → (∀ a, a ∈ l ↔ ∃ y, Devices s !! a = Some y ∧ DvDriver y = DvDriver x) →
  let s' := set_Drivers (<[DvDriver x := set_DrDevice (NextDevice x) d]> (Drivers s)) (set_Devices (delete v (Devices s)) s) in
  io_inv s' m ∧ ∃ l', l = v :: l' ∧ driver_devices s' (DvDriver x) l'.
Proof.
  intros Hi Hv Hd Hdv Hl Hnd Hmem. inversion Hl as [E|? x' l' Hv0 Hx' Hl' E]; subst.
  { apply (io_devices _ _ Hi) in Hv as [Hv _]. apply (pool_rep_pos _ _ _ _ (io_rep _ _ Hi)) in Hv. lia. }
  rewrite Hv in Hx'. injection Hx' as <-. apply NoDup_cons in Hnd as [Hnin Hnd].
  assert (dev_chain (delete (DrDevice d) (Devices s)) (NextDevice x) l') as Hch.
  { apply (next_chain_mono _ (Devices s)); [|done]. intros w Hw. apply lookup_delete_ne. by intros <-. }
  cbv zeta. split; [|exists l'; split; [done|exists (set_DrDevice (NextDevice x) d); cbn; by rewrite lookup_insert_eq]].
  apply (chains_change s m (DvDriver x) d _ _ l' Hi Hd); [..|done|done| |].
  - intros w y [Hw Hy]%lookup_delete_Some. destruct (decide (DvDriver y = DvDriver x)); [left|by right]. split; [done|].
    assert (w ∈ DrDevice d :: l') as [->|]%elem_of_cons by (apply Hmem; eauto); done.
  - intros w y Hy Hne. rewrite lookup_delete_ne; [done|]. intros <-. congruence.
  - intros w Hw. assert (w ∈ DrDevice d :: l') as (y & Hy & E)%Hmem by by right. exists y.
    rewrite lookup_delete_ne; [done|]. by intros <-.
  - intros w y [_ Hy]%lookup_delete_Some. by apply (io_devices _ _ Hi w y).
Qed.

Lemma delete_device_run s m v x d l :
  io_inv s m → Devices s !! v = Some x → Drivers s !! DvDriver x = Some d → driver_devices s (DvDriver x) l →
  ∃ s', IoDeleteDevice v s = Ok (tt, s') ∧ Irps s' = Irps s ∧ Devices s' = delete v (Devices s) ∧ v ∈ l ∧
    if DrDevice d =? v then io_inv s' (delete v m) ∧ ∃ l', l = v :: l' ∧ driver_devices s' (DvDriver x) l'
    else Drivers s' = Drivers s ∧ ∀ l', ¬ driver_devices s' (DvDriver x) l'.
Proof.
  intros Hi Hv Hd Hdl. destruct (io_devices _ _ Hi _ _ Hv) as [Hm _], (io_drivers _ _ Hi _ _ Hd) as [Hmd _].
  pose proof (pool_rep_pos _ _ _ _ (io_rep _ _ Hi) Hm) as Hv0. pose proof (pool_rep_pos _ _ _ _ (io_rep _ _ Hi) Hmd) as Hd0.
  destruct (io_chain _ _ Hi _ _ Hd) as (l0 & Hl & Hnd & Hmem). assert (l0 = l) as -> by (eapply driver_devices_det; [by exists d|done]).
  assert (v ∈ l) as Hvl by (apply Hmem; eauto). destruct (io_free_run Hi v TAG_DEV Hm) as (p & Hr & Hp & Hk).
  unfold IoDeleteDevice, truthy. destruct (Z.eqb_spec v 0); [lia|]. cbn [negb]. rewrite mwhen_true.
  unfold get_device. rewrite (deref_bind (λ s, Devices s !! v) _ _ _ Hv).
  destruct (Z.eqb_spec (DvDriver x) 0); [lia|]. cbn [negb]. rewrite mwhen_true.
  unfold get_driver. destruct (Z.eqb_spec (DrDevice d) v) as [E|Hne].
  - set (s1 := set_Drivers (<[DvDriver x := set_DrDevice (NextDevice x) d]> (Drivers s)) s).
    exists (set_Devices (delete v (Devices s)) (set_io_pool p s1)). split; [|do 3 (split; [done|])].
    + erewrite bind_ok; [|rewrite (deref_bind (λ s, Drivers s !! _) _ _ _ Hd), E, Z.eqb_refl, mwhen_true; reflexivity].
      fold s1. by rewrite (bind_ok _ _ _ _ _ (Hr s1 eq_refl)).
    + rewrite E in Hl. destruct (unlink_newest s m v x d l Hi Hv Hd E Hl Hnd Hmem) as [H1 H2]. split; [|done].
      apply (inv_freed H1 v p); [by left|apply lookup_delete_eq| |done..]. cbn.
      apply eq_None_not_Some. intros [y Hy]. apply (io_irps _ _ Hi) in Hy as [Hy _]. rewrite Hm in Hy. discriminate.
  - exists (set_Devices (delete v (Devices s)) (set_io_pool p s)). split; [|do 4 (split; [done|])].
    + erewrite bind_ok; [|rewrite (deref_bind (λ s, Drivers s !! _) _ _ _ Hd), (proj2 (Z.eqb_neq _ _) Hne), mwhen_false; reflexivity].
      by rewrite (bind_ok _ _ _ _ _ (Hr s eq_refl)).
    + intros l' (d' & Hd' & Hl'). cbn in Hd', Hl'. rewrite Hd in Hd'. injection Hd' as <-. by apply (next_chain_break _ _ _ _ _ Hl Hvl l').
Qed.

(** The list of a driver's devices.  A new device is put in front of the ones the
    driver has, with the given type and the name cut at its terminator or at 63
    characters, or memory is short and nothing changes.  Deleting the newest device takes
    it off the list; deleting any other frees it but leaves its predecessor pointing at
    the freed block, so that afterwards the list cannot be walked to its end. *)
Theorem device_list_spec s m drv d l ext name ty :
  io_inv s m → Drivers s !! drv = Some d → driver_devices s drv l → 0 ≤ ext < 4294967296 →
  (∃ st r s', IoCreateDevice drv ext name ty s = Ok ((st, r), s') ∧
     match r with
     | None => st = STATUS_NO_MEMORY ∧ io_inv s' m ∧ Devices s' = Devices s ∧ driver_devices s' drv l
     | Some a => st = STATUS_SUCCESS ∧ m !! a = None ∧ io_inv s' (<[a := TAG_DEV]> m) ∧ driver_devices s' drv (a :: l) ∧
                 Devices s' = <[a := new_device a drv ty name d]> (Devices s)
     end) ∧
  (∀ v x, Devices s !! v = Some x → DvDriver x = drv →
     ∃ s', IoDeleteDevice v s = Ok (tt, s') ∧ Devices s' = delete v (Devices s) ∧
       ((head l = Some v ∧ io_inv s' (delete v m) ∧ driver_devices s' drv (tail l)) ∨
        (head l ≠ Some v ∧ v ∈ l ∧ ∀ l', ¬ driver_devices s' drv l'))).
Proof.
  intros Hi Hd Hl Hext. split.
  - destruct Hl as (d' & Hd' & Hl). rewrite Hd in Hd'. injection Hd' as <-.
    destruct (create_device_run s m drv d l ext name ty Hi Hd Hl Hext) as (a & s' & Hr & _ & Hc).
    rewrite Hr. destruct Hc as [(-> & H1 & Hdr & Hdv)|(Ha & Hf & H1 & Hdl & _ & Hdv)].
    + eexists _, _, _. split; [reflexivity|]. cbn. split_and!; [done..|]. exists d. by rewrite Hdr, Hdv.
    + destruct (Z.eqb_spec a 0); [lia|]. eexists _, _, _. split; [reflexivity|done].
  - intros v x Hv <-. destruct (delete_device_run s m v x d l Hi Hv Hd Hl) as (s' & Hr & _ & Hdv & Hvl & Hc).
    exists s'. split_and!; [done..|]. destruct (Z.eqb_spec (DrDevice d) v) as [E|Hne].
    + destruct Hc as (H1 & l' & -> & Hl'). by left.
    + right. split_and!; [|done|by apply Hc]. intros E. destruct l as [|w l]; [done|]. injection E as ->.
      destruct Hl as (d' & Hd' & Hc'). rewrite Hd in Hd'. injection Hd' as <-. inversion Hc'; subst. done.
Qed.

(** The null driver: its table sends every request to its one routine. *)
Lemma init_null_run s m nd :
  io_inv s m →
  ∃ st s', IoInitNullDriver nd s = Ok (st, s') ∧
    ((st = STATUS_NO_MEMORY ∧ ∃ m', io_inv s' m') ∨
     (st = STATUS_SUCCESS ∧ ∃ m' drv d dv v, io_inv s' m' ∧ Drivers s' !! drv = Some d ∧ Devices s' !! dv = Some v ∧
        DvDriver v = drv ∧ driver_devices s' drv [dv] ∧ DrMajor d = replicate (Z.to_nat IRP_MJ_MAXIMUM_FUNCTION) nd)).
Proof.
  intros Hi. destruct (create_driver_run s m (Some NullDriverName) nd Hi) as (drv & s1 & Hr1 & _ & _ & Hc1).
  unfold IoInitNullDriver. rewrite (bind_ok _ _ _ _ _ Hr1).
  destruct Hc1 as [(-> & H1 & _)|(Hd0 & _ & H1 & Hdr)]; [eexists _, _; split; [reflexivity|]; left; eauto|].
  destruct (Z.eqb_spec drv 0); [lia|].
  set (d := mkDriver _ _ _ _) in Hdr. assert (Drivers s1 !! drv = Some d) as Hd by (rewrite Hdr; apply lookup_insert_eq).
  destruct (create_device_run s1 _ drv d [] 0 (Some NullDeviceName) FILE_DEVICE_NULL H1 Hd (nc_end _ _) ltac:(lia)) as (dv & s2 & Hr2 & _ & Hc2).
  rewrite (bind_ok _ _ _ _ _ Hr2).
  destruct Hc2 as [(-> & H2 & _)|(Hv0 & _ & H2 & Hl & Hdr2 & Hdv2)]; [eexists _, _; split; [reflexivity|]; left; eauto|].
  destruct (Z.eqb_spec dv 0); [lia|]. eexists _, _. split; [reflexivity|]. right. split; [done|].
  eexists _, drv, (set_DrDevice dv d), dv, _. split; [exact H2|].
  rewrite Hdr2, Hdv2, !lookup_insert_eq. done.
Qed.

(** ** Every call *)

Inductive IO_CALL :=
| CallCreateDriver (name : option (list Z)) (h : Z)
| CallCreateDevice (drv ext : Z) (name : option (list Z)) (ty : Z)
| CallDeleteDevice (v : Z)
| CallAllocateIrp (n : Z)
| CallFreeIrp (irp : Z)
| CallCompleteRequest (irp st : Z)
| CallBuildRequest (code ib il ob ol : Z)
| CallSkip (irp : Z)
| CallCopy (irp : Z).

Definition run_call (c : IO_CALL) : M (IO P) unit :=
  match c with
  | CallCreateDriver name h => _ ← IoCreateDriver name h; mret tt
  | CallCreateDevice drv ext name ty => _ ← IoCreateDevice drv ext name ty; mret tt
  | CallDeleteDevice v => IoDeleteDevice v
  | CallAllocateIrp n => _ ← IoAllocateIrp n; mret tt
  | CallFreeIrp irp => IoFreeIrp irp
  | CallCompleteRequest irp st => _ ← IoCompleteRequest irp st; mret tt
  | CallBuildRequest code ib il ob ol => _ ← IoBuildDeviceIoControlRequest code ib il ob ol; mret tt
  | CallSkip irp => IoSkipCurrentIrpStackLocation irp
  | CallCopy irp => IoCopyCurrentIrpStackLocationToNext irp
  end.

(** Pointers passed in are live; only a driver's newest device is deleted. *)
Definition allowed (c : IO_CALL) s : Prop :=
  match c with
  | CallCreateDriver _ _ | CallBuildRequest _ _ _ _ _ => True
  | CallCreateDevice drv ext _ _ => is_Some (Drivers s !! drv) ∧ 0 ≤ ext < 4294967296
  | CallDeleteDevice v => v = 0 ∨ ∃ x d, Devices s !! v = Some x ∧ Drivers s !! DvDriver x = Some d ∧ DrDevice d = v
  | CallAllocateIrp n => 0 ≤ n < 256
  | CallFreeIrp irp | CallCompleteRequest irp _ => irp = 0 ∨ is_Some (Irps s !! irp)
  | CallSkip irp | CallCopy irp => is_Some (Irps s !! irp)
  end.

Lemma skip_run s m irp x :
  io_inv s m → Irps s !! irp = Some x → ∃ s', IoSkipCurrentIrpStackLocation irp s = Ok (tt, s') ∧ io_inv s' m.
Proof.
  intros Hi Hx. destruct (io_irps _ _ Hi _ _ Hx) as [Hm [Hc Hl Hs]]. unfold IoSkipCurrentIrpStackLocation, get_irp.
  rewrite (deref_bind (λ s, Irps s !! irp) _ _ _ Hx). destruct (Z.ltb_spec 1 (CurrentLocation x)); [|by exists s].
  eexists. split; [reflexivity|]. apply (inv_put_irp Hi); [done|]. constructor; cbn; [done|lia|done].
Qed.

Lemma copy_run s m irp x :
  io_inv s m → Irps s !! irp = Some x → IoCopyCurrentIrpStackLocationToNext irp s = Ok (tt, s).
Proof.
  intros Hi Hx. destruct (io_irps _ _ Hi _ _ Hx) as [Hm Hwf]. destruct (stack_current x Hwf) as [y Hy].
  unfold IoCopyCurrentIrpStackLocationToNext, get_irp.
  rewrite (deref_bind (λ s, Irps s !! irp) _ _ _ Hx). destruct (Z.ltb_spec 1 (CurrentLocation x)); [|done]. rewrite mwhen_true.
  rewrite (deref_bind (λ _, stack_at x _) _ _ _ Hy). unfold put_irp, mmod. f_equal. f_equal.
  assert (with_stack (IoGetNextIrpStackLocation x) y x = x) as ->.
  { unfold stack_at in Hy. destruct (Z.ltb_spec (IoGetCurrentIrpStackLocation x) 0); [done|].
    destruct x. unfold with_stack. cbn in *. f_equal. by apply list_insert_id. }
  rewrite insert_id by done. by destruct s.
Qed.

Lemma call_run s m c : io_inv s m → allowed c s → ∃ s' m', run_call c s = Ok (tt, s') ∧ io_inv s' m'.
Proof.
  intros Hi Ha. destruct c; cbn [run_call allowed] in *.
  - destruct (create_driver_run s m name h Hi) as (a & s' & Hr & _ & _ & Hc). rewrite (bind_ok _ _ _ _ _ Hr).
    destruct Hc as [(_ & ? & _)|(_ & _ & ? & _)]; eauto.
  - destruct Ha as [[d Hd] Hext]. destruct (io_chain _ _ Hi _ _ Hd) as (l & Hl & _).
    destruct (create_device_run s m drv d l ext name ty Hi Hd Hl Hext) as (a & s' & Hr & _ & Hc).
    rewrite (bind_ok _ _ _ _ _ Hr). destruct Hc as [(_ & ? & _)|(_ & _ & ? & _)]; eauto.
  - destruct Ha as [->|(x & d & Hv & Hd & E)]; [by exists s, m|].
    destruct (io_chain _ _ Hi _ _ Hd) as (l & Hl & _).
    destruct (delete_device_run s m v x d l Hi Hv Hd ltac:(by exists d)) as (s' & Hr & _ & _ & _ & Hc).
    rewrite E, Z.eqb_refl in Hc. destruct Hc as [? _]. eauto.
  - destruct (allocate_irp_run s m (Z.max 1 n) Hi ltac:(lia)) as (a & p & Hr & Hc). cbv zeta in Hr, Hc.
    assert (IoAllocateIrp n = IoAllocateIrp (Z.max 1 n)) as ->.
    { destruct (Z.ltb_spec n 1); [|by rewrite Z.max_r by lia].
      rewrite Z.max_l by lia. unfold IoAllocateIrp. by rewrite (proj2 (Z.ltb_lt n 1)) by lia. }
    rewrite (bind_ok _ _ _ _ _ Hr). destruct Hc as [(_ & ?)|(_ & _ & ?)]; eauto.
  - destruct Ha as [->|[x Hx]]; [by exists s, m|]. destruct (free_irp_run s m irp x Hi Hx) as (s' & Hr & H1 & _). eauto.
  - destruct Ha as [->|[x Hx]]; [by exists s, m|]. destruct (complete_run s m irp x st Hi Hx) as [Hr H1].
    rewrite (bind_ok _ _ _ _ _ Hr). eauto.
  - destruct (build_run s m code ib il ob ol Hi) as (a & s' & Hr & _ & _ & Hc). rewrite (bind_ok _ _ _ _ _ Hr).
    destruct Hc as [(_ & ? & _)|(_ & _ & ? & _)]; eauto.
  - destruct Ha as [x Hx]. destruct (skip_run s m irp x Hi Hx) as (s' & Hr & H1). eauto.
  - destruct Ha as [x Hx]. rewrite (copy_run s m irp x Hi Hx). eauto.
Qed.

(** Calls made one after the other, each allowed when it is made. *)
Fixpoint all_allowed (cs : list IO_CALL) s : Prop :=
  match cs with
  | [] => True
  | c :: cs' => allowed c s ∧ ∀ s', run_call c s = Ok (tt, s') → all_allowed cs' s'
  end.
Fixpoint run_calls (cs : list IO_CALL) : M (IO P) unit :=
  match cs with [] => mret tt | c :: cs' => run_call c;; run_calls cs' end.

(** Whatever calls are made of the I/O manager, each with live arguments and deleting
    only a driver's newest device, all return and the tables stay consistent: every driver,
    device and request is a live pool block of its own tag, drivers are listed once, each
    driver's list holds exactly its devices, and every request's current stack location
    lies within its stack. *)
Theorem io_calls_preserve s m cs :
  io_inv s m → all_allowed cs s → ∃ s' m', run_calls cs s = Ok (tt, s') ∧ io_inv s' m'.
Proof.
  revert s m. induction cs as [|c cs IH]; intros s m Hi Ha; [by exists s, m|]. destruct Ha as [Hc Hrest].
  destruct (call_run s m c Hi Hc) as (s1 & m1 & Hr & H1). cbn [run_calls]. rewrite (bind_ok _ _ _ _ _ Hr).
  by apply (IH s1 m1 H1), Hrest.
Qed.

End IoMgr.

(** ** An instance: the null driver on an empty system *)

Definition demo_io : IO POOL_STATE := mkIO ∅ ∅ ∅ [] 0 demo_pool.

Lemma demo_io_inv : io_inv demo_io ∅.
Proof.
  split; try (intros a x Hx; cbn in Hx; by rewrite lookup_empty in Hx).
  - exact demo_pool_rep.
  - exact demo_can_lock.
  - cbn. split; [constructor|]. intros a. rewrite lookup_empty. split; [by intros ?%elem_of_nil|by intros [? [=]]].
Qed.

Definition null_dispatch (h dv irp : Z) : M (IO POOL_STATE) Z := IopNullDispatch dv irp.

Lemma demo_null_driver :
  ∃ s m drv d dv v, IoInitNullDriver 0x1000 demo_io = Ok (STATUS_SUCCESS, s) ∧ io_inv s m ∧
    Drivers s !! drv = Some d ∧ Devices s !! dv = Some v ∧ DvDriver v = drv ∧ driver_devices s drv [dv] ∧
    DrMajor d !! 14%nat = Some 0x1000.
Proof.
  destruct (init_null_run demo_io ∅ 0x1000 demo_io_inv) as (st & s & Hr & Hc).
  assert (Hb : match IoInitNullDriver 0x1000 demo_io with Ok (r, _) => r = STATUS_SUCCESS | _ => False end) by (vm_compute; reflexivity).
  rewrite Hr in Hb. subst st. destruct Hc as [[Hc _]|(_ & m & drv & d & dv & v & H1 & H2 & H3 & H4 & H5 & H6)]; [discriminate Hc|].
  exists s, m, drv, d, dv, v. split_and!; try assumption. rewrite H6. reflexivity.
Qed.

Lemma io_request_spec_witness :
  ∃ s dv st r s1, IoInitNullDriver 0x1000 demo_io = Ok (STATUS_SUCCESS, s) ∧
    IoBuildDeviceIoControlRequest 0x222000 0x5000 16 0x6000 32 s = Ok ((st, r), s1) ∧
    (r = None ∨ ∃ irp s2, r = Some irp ∧ IoCallDriver null_dispatch dv irp s1 = Ok (STATUS_SUCCESS, s2)).
Proof.
  destruct demo_null_driver as (s & m & drv & d & dv & v & Hr & Hi & Hd & Hv & <- & _ & Hh).
  pose proof (io_request_spec s m dv v d 0x222000 0x5000 16 0x6000 32 Hi Hv Hd) as (st & r & s1 & Hb & Hc).
  exists s, dv, st, r, s1. split; [exact Hr|]. split; [exact Hb|]. destruct r as [irp|]; [|by left]. right.
  destruct Hc as (_ & _ & s2 & _ & Hirps & Hcall & _). specialize (Hcall null_dispatch). change (Z.to_nat IRP_MJ_DEVICE_CONTROL) with 14%nat in Hcall.
  rewrite Hh in Hcall. exists irp. eexists. split; [reflexivity|]. rewrite Hcall. cbn [truthy negb Z.eqb]. unfold null_dispatch, IopNullDispatch, get_irp.
  erewrite (deref_bind (λ s, Irps s !! irp)) by (rewrite Hirps; apply lookup_insert_eq). reflexivity.
Defined.

Lemma device_list_spec_witness :
  ∃ s dv s', IoInitNullDriver 0x1000 demo_io = Ok (STATUS_SUCCESS, s) ∧ IoDeleteDevice dv s = Ok (tt, s') ∧ Devices s' !! dv = None.
Proof.
  destruct demo_null_driver as (s & m & drv & d & dv & v & Hr & Hi & Hd & Hv & E & Hl & _).
  pose proof (device_list_spec s m drv d [dv] 0 None 0 Hi Hd Hl ltac:(lia)) as [_ Hdel].
  destruct (Hdel dv v Hv E) as (s' & Hr' & Hdv & _). exists s, dv, s'. split; [exact Hr|]. split; [exact Hr'|].
  rewrite Hdv. apply lookup_delete_eq.
Defined.

Lemma io_calls_preserve_witness :
  ∃ s' m', run_calls [CallCreateDriver None 0x1000; CallAllocateIrp 3; CallBuildRequest 1 2 3 4 5] demo_io = Ok (tt, s') ∧ io_inv s' m'.
Proof.
  apply (io_calls_preserve demo_io ∅ _ demo_io_inv). cbn [all_allowed allowed].
  split; [done|]. intros s1 _. split; [lia|]. intros s2 _. done.
Defined.
