(* ===== verification/Lpc.v ===== *)
(** * Lpc: local procedure calls (src/lpc/lpc.c, src/include/nt/lpc.h)

    Ports are objects of the object manager; a port keeps a queue of messages
    linked through the messages themselves, an event and a spin lock.  A message
    buffer is its 248 bytes, by address: the request is copied into a pool block,
    the reply is queued where the server's caller has it.  The waits of the code
    are polling loops; they run on the one processor, which nothing takes away
    from them. *)

From S2P Require Import Prelude Irql Rtl Pool Ob Dispatch Disk.

#[local] Open Scope Z_scope.

Definition LPC_PORT_TYPE := 0x4C50.
Definition LPC_PORT_FLAG_NEVER_DISCONNECT := 1.
Definition STATUS_PORT_DISCONNECTED := 0xC000013B.
Definition TAG_PCML := 0x50434D4C.
Definition sizeof_LPC_MESSAGE := 248.
Definition sizeof_LPC_PORT := 96.

Record LPC_PORT := mkPort {
  PType : Z; PName : UNICODE_STRING; ConnectedPort : Z; MsgQueueHead : Z; PFlags : Z }.

(** The members of LPC_MESSAGE the code uses. *)
Definition TotalLength (m : list Z) : Z := field 2 2 m.
Definition MSenderPort (m : list Z) : Z := field 32 8 m.
Definition MNext (m : list Z) : Z := field 40 8 m.
Definition set_ProcessId (v : Z) (m : list Z) : list Z := splice 8 (le_bytes 4 v) m.
Definition set_MessageId (v : Z) (m : list Z) : list Z := splice 12 (le_bytes 4 v) m.
Definition set_SenderPort (v : Z) (m : list Z) : list Z := splice 32 (le_bytes 8 v) m.
Definition set_MNext (v : Z) (m : list Z) : list Z := splice 40 (le_bytes 8 v) m.

Record LPC (P : Type) := mkLpc {
  lp_ob : OB_STATE P;
  lp_dlock : Z;                                 (* KiDispatcherLock *)
  lp_sched : SCHED;
  Ports : gmap Z LPC_PORT;
  PortLocks : gmap Z (positive + positive);     (* the Lock of each port *)
  Msgs : gmap Z (list Z)
}.
Arguments mkLpc {P} _ _ _ _ _ _.
Arguments lp_ob {P} _.
Arguments lp_dlock {P} _.
Arguments lp_sched {P} _.
Arguments Ports {P} _.
Arguments PortLocks {P} _.
Arguments Msgs {P} _.

Section Setters.
Context {P : Type}.
Implicit Types (s : LPC P).
Definition set_lp_ob x s : LPC P := mkLpc x (lp_dlock s) (lp_sched s) (Ports s) (PortLocks s) (Msgs s).
Definition set_lp_ke l c s : LPC P := mkLpc (lp_ob s) l c (Ports s) (PortLocks s) (Msgs s).
Definition set_Ports x s : LPC P := mkLpc (lp_ob s) (lp_dlock s) (lp_sched s) x (PortLocks s) (Msgs s).
Definition set_PortLocks x s : LPC P := mkLpc (lp_ob s) (lp_dlock s) (lp_sched s) (Ports s) x (Msgs s).
Definition set_Msgs x s : LPC P := mkLpc (lp_ob s) (lp_dlock s) (lp_sched s) (Ports s) (PortLocks s) x.
End Setters.

#[global] Instance LPC_HasPcr {P} `{HasPcr P} : HasPcr (LPC P).
Proof.
  refine {| pcr := λ s, pcr (lp_ob s); set_pcr := λ k s, set_lp_ob (set_pcr k (lp_ob s)) s |}.
  - intros k s. apply pcr_set.
  - intros k k' s. unfold set_lp_ob. cbn [lp_ob lp_dlock lp_sched Ports PortLocks Msgs]. by rewrite set_pcr_set.
  - intros []. unfold set_lp_ob. cbn [lp_ob lp_dlock lp_sched Ports PortLocks Msgs]. by rewrite set_pcr_pcr.
Defined.

(** [&port->Lock]. *)
Definition PortLock {P} `{HasPcr P} (port : Z) : SpinLock (LPC P).
Proof.
  refine (mkSpinLock (λ s, lock_word (PortLocks s !! port))
            (λ v s, set_PortLocks (partial_alter (λ _, word_lock v) port (PortLocks s)) s) _ _ _ _ _ _); try done.
  - intros v s. cbn [set_PortLocks PortLocks]. rewrite lookup_partial_alter_eq. by destruct v.
  - intros v w s. unfold set_PortLocks. cbn. by rewrite partial_alter_partial_alter_eq.
  - intros []. unfold set_PortLocks. cbn. rewrite partial_alter_id; [done|]. by destruct (_ !! port) as [[]|].
Defined.

Section Lpc.
Context {P : Type} `{HP : HasPcr P} `{PI : !PoolInterface P}.
Context (DeleteProc : Z → Z → M (OB_STATE P) unit).
Implicit Types (s : LPC P).
#[local] Abbreviation L := (LPC P).

(** The dispatcher's view of the state. *)
Definition ke_view s : KS := mkKS (pcr s) (lp_dlock s) (lp_sched s).
Definition ke_put (k : KS) s : L := set_lp_ke (KiDispatcherLock k) (sched k) (set_pcr (ks_pcr k) s).
Definition ke {A} (m : M KS A) : M L A := zoom ke_view ke_put m.
Definition ob {A} (m : M (OB_STATE P) A) : M L A := zoom lp_ob set_lp_ob m.
Definition alloc (n tag : Z) : M L Z := ob (ob_alloc n tag).
Definition free (a tag : Z) : M L unit := ob (ob_free a tag).

Definition get_port (a : Z) : M L LPC_PORT := mderef (λ s, Ports s !! a).
Definition put_port (a : Z) (x : LPC_PORT) : M L unit := mmod (λ s, set_Ports (<[a := x]> (Ports s)) s).
Definition get_msg (a : Z) : M L (list Z) := mderef (λ s, Msgs s !! a).
Definition put_msg (a : Z) (x : list Z) : M L unit := mmod (λ s, set_Msgs (<[a := x]> (Msgs s)) s).

Definition with_head (h : Z) (p : LPC_PORT) : LPC_PORT := mkPort (PType p) (PName p) (ConnectedPort p) h (PFlags p).
Definition with_connected (c : Z) (p : LPC_PORT) : LPC_PORT := mkPort (PType p) (PName p) c (MsgQueueHead p) (PFlags p).

(** [&port->MsgEvent]. *)
Definition MsgEvent (port : Z) : Z := port + 40.

(** ObDereferenceObject of a port: its memory is gone with the object. *)
Definition deref_port (port : Z) : M L unit :=
  ob (ObDereferenceObject DeleteProc port);;
  mmod (λ s, if decide (is_Some (ObHeaders (lp_ob s) !! BODY_TO_HEADER port)) then s
             else set_Ports (delete port (Ports s)) s).

(** ExFreePoolWithTag of a message: its memory is gone. *)
Definition free_msg (a : Z) : M L unit := free a TAG_PCML;; mmod (λ s, set_Msgs (delete a (Msgs s)) s).

(** ** Ports *)

Definition LpcInitSystem : M L Z := mret STATUS_SUCCESS.

Definition init_port (port : Z) (x : LPC_PORT) : M L unit :=
  put_port port x;;
  ke (KeInitializeEvent (MsgEvent port) NotificationEvent false);;
  KeInitializeSpinLock (PortLock port).

Definition NtCreatePort (OutPortHandle : bool) (PortName : option UNICODE_STRING) : M L (Z * Z) :=
  match PortName with
  | None => mret (STATUS_INVALID_PARAMETER, 0)
  | Some name =>
      if negb OutPortHandle then mret (STATUS_INVALID_PARAMETER, 0)
      else
        '(status, port) ← ob (ObCreateObject 0 sizeof_LPC_PORT (Some name));
        if negb (NT_SUCCESS status) then mret (status, 0)
        else
          init_port port (mkPort LPC_PORT_TYPE name 0 0 0);;
          '(status, h) ← ob (ObInsertHandle port);
          if negb (NT_SUCCESS status) then deref_port port;; mret (status, 0)
          else mret (STATUS_SUCCESS, h)
  end.

(** The server's side of a connection: the first client is remembered. *)
Definition attach (serverPort clientPort : Z) : M L unit :=
  irql ← KeAcquireSpinLock (PortLock serverPort);
  r ← (sp ← get_port serverPort;
       mwhen (ConnectedPort sp =? 0) (put_port serverPort (with_connected clientPort sp)));
  KeReleaseSpinLock (PortLock serverPort) irql;;
  mret r.

Definition NtConnectPort (OutPortHandle : bool) (ServerPortName : option UNICODE_STRING) : M L (Z * Z) :=
  match ServerPortName with
  | None => mret (STATUS_INVALID_PARAMETER, 0)
  | Some name =>
      if negb OutPortHandle then mret (STATUS_INVALID_PARAMETER, 0)
      else
        '(status, serverPort) ← ob (ObLookupObjectByName name);
        if negb (NT_SUCCESS status) then mret (status, 0)
        else
          ty ← mgets (λ s, LpcPortObjectType (lp_ob s));
          '(status, clientPort) ← ob (ObCreateObject ty sizeof_LPC_PORT None);
          if negb (NT_SUCCESS status) then deref_port serverPort;; mret (status, 0)
          else
            init_port clientPort (mkPort LPC_PORT_TYPE (mkUS 0 0 []) serverPort 0 LPC_PORT_FLAG_NEVER_DISCONNECT);;
            attach serverPort clientPort;;
            '(status, h) ← ob (ObInsertHandle clientPort);
            if negb (NT_SUCCESS status) then
              deref_port clientPort;; deref_port serverPort;; mret (status, 0)
            else
              deref_port clientPort;; deref_port serverPort;; mret (STATUS_SUCCESS, h)
  end.

Definition NtListenPort : M L Z := mret STATUS_SUCCESS.
Definition NtAcceptConnectPort (PortHandle : Z) : M L (Z * Z) := mret (STATUS_SUCCESS, PortHandle).
Definition NtRequestPort : M L Z := mret STATUS_SUCCESS.
Definition NtReplyPort : M L Z := mret STATUS_SUCCESS.

(** ** Messages *)

(** [RtlCopyMemory(dst, src, n)] between message buffers. *)
Definition copy_msg (n : Z) (src dst : list Z) : option (list Z) :=
  if (Z.to_nat n <=? length src)%nat then store_at 0 (take (Z.to_nat n) src) dst else None.

(** [while (last->Next) last = last->Next]. *)
Definition last_turn (last : Z) : M L (Z + Z) :=
  m ← get_msg last;
  if MNext m =? 0 then mret (inr last) else mret (inl (MNext m)).

(** A message put at the end of a port's queue, under the port's lock. *)
Definition enqueue (port msg : Z) : M L unit :=
  irql ← KeAcquireSpinLock (PortLock port);
  r ← (p ← get_port port;
       (if MsgQueueHead p =? 0 then put_port port (with_head msg p)
        else
          last ← loop last_turn (MsgQueueHead p);
          m ← get_msg last;
          put_msg last (set_MNext msg m));;
       ke (KeSetEvent (MsgEvent port));;
       mret tt);
  KeReleaseSpinLock (PortLock port) irql;;
  mret r.

(** One look at a port's queue, under its lock: the first message is taken. *)
Definition dequeue (port : Z) : M L (option Z) :=
  irql ← KeAcquireSpinLock (PortLock port);
  r ← (p ← get_port port;
       if MsgQueueHead p =? 0 then mret None
       else
         m ← get_msg (MsgQueueHead p);
         put_port port (with_head (MNext m) p);;
         put_msg (MsgQueueHead p) (set_MNext 0 m);;
         mret (Some (MsgQueueHead p)));
  KeReleaseSpinLock (PortLock port) irql;;
  mret r.

(** The waiting loops: [timeout++ > limit] gives up; KeStallExecutionProcessor
    only reads the time stamp counter. *)
Definition poll_turn (limit port timeout : Z) : M L (Z + option Z) :=
  r ← dequeue port;
  match r with
  | Some m => mret (inr (Some m))
  | None => if limit <? timeout then mret (inr None) else mret (inl (u32 (timeout + 1)))
  end.

(** The request copied to a pool block and queued at the server; 0 when there
    is no memory. *)
Definition request_image (clientPort pid thread : Z) (m : list Z) : list Z :=
  set_MessageId thread (set_ProcessId pid (set_MNext 0 (set_SenderPort clientPort m))).

Definition queue_request (clientPort serverPort : Z) (msg : list Z) (pid : Z) : M L Z :=
  queuedMsg ← alloc sizeof_LPC_MESSAGE TAG_PCML;
  if queuedMsg =? 0 then mret 0
  else
    m ← mderef (λ _, copy_msg (TotalLength msg) msg (replicate (Z.to_nat sizeof_LPC_MESSAGE) 0));
    thread ← mgets (λ s, CurrentThread (lp_sched s));
    put_msg queuedMsg (request_image clientPort pid thread m);;
    enqueue serverPort queuedMsg;;
    mret queuedMsg.

(** A message copied to the caller and freed. *)
Definition hand_over (a : Z) : M L (list Z) :=
  m ← get_msg a;
  out ← mderef (λ _, if (Z.to_nat (TotalLength m) <=? length m)%nat
                     then Some (take (Z.to_nat (TotalLength m)) m) else None);
  free_msg a;;
  mret out.

(** [msg] is the caller's request; the reply is what is copied to the caller.
    [pid] is what PsGetCurrentProcessId returns. *)
Definition NtRequestWaitReplyPort (PortHandle : Z) (RequestMessage : option (list Z)) (ReplyMessage : bool) (pid : Z) :
    M L (Z * list Z) :=
  match RequestMessage with
  | None => mret (STATUS_INVALID_PARAMETER, [])
  | Some msg =>
      if negb ReplyMessage then mret (STATUS_INVALID_PARAMETER, [])
      else
        ty ← mgets (λ s, LpcPortObjectType (lp_ob s));
        '(status, clientPort) ← ob (ObReferenceObjectByHandle DeleteProc PortHandle ty);
        if negb (NT_SUCCESS status) then mret (status, [])
        else
          cp ← get_port clientPort;
          if negb (PType cp =? LPC_PORT_TYPE) then deref_port clientPort;; mret (STATUS_INVALID_HANDLE, [])
          else if ConnectedPort cp =? 0 then deref_port clientPort;; mret (STATUS_PORT_DISCONNECTED, [])
          else
            queuedMsg ← queue_request clientPort (ConnectedPort cp) msg pid;
            if queuedMsg =? 0 then deref_port clientPort;; mret (STATUS_NO_MEMORY, [])
            else
              r ← loop (poll_turn 10000 clientPort) 0;
              match r with
              | None =>
                  deref_port clientPort;;
                  free_msg queuedMsg;;
                  mret (STATUS_TIMEOUT, [])
              | Some replyMsg =>
                  out ← hand_over replyMsg;
                  deref_port clientPort;;
                  mret (STATUS_SUCCESS, out)
              end
  end.

(** [ReplyMessage] is the address of the caller's reply, 0 when there is none. *)
Definition NtReplyWaitReceivePort (PortHandle ReplyMessage : Z) : M L (Z * list Z) :=
  ty ← mgets (λ s, LpcPortObjectType (lp_ob s));
  '(status, serverPort) ← ob (ObReferenceObjectByHandle DeleteProc PortHandle ty);
  if negb (NT_SUCCESS status) then mret (status, [])
  else
    sp ← get_port serverPort;
    if negb (PType sp =? LPC_PORT_TYPE) then deref_port serverPort;; mret (STATUS_INVALID_HANDLE, [])
    else
      mwhen (truthy ReplyMessage) (
        m ← get_msg ReplyMessage;
        mwhen (truthy (MSenderPort m)) (enqueue (MSenderPort m) ReplyMessage));;
      r ← loop (poll_turn 30000 serverPort) 0;
      match r with
      | None => deref_port serverPort;; mret (STATUS_TIMEOUT, [])
      | Some incomingMsg =>
          out ← hand_over incomingMsg;
          deref_port serverPort;;
          mret (STATUS_SUCCESS, out)
      end.

(** The buffer is filled with zeros and no length is reported. *)
Definition NtReadRequestData (BufferLength : Z) : M L (Z * list Z) := mret (STATUS_SUCCESS, replicate (Z.to_nat BufferLength) 0).
Definition NtWriteRequestData : M L Z := mret STATUS_SUCCESS.


(** ** Invariant *)

(** A queue: the messages from a head, along their Next members. *)
#[local] Abbreviation msg_chain := (next_chain MNext).

(** [F] is the pool blocks that hold messages: the object manager leaves them
    alone.  No port is locked between calls.  Nothing waits on a port's event (the
    waits poll), nor on an event in memory that holds no object. *)
Record lpc_inv s (ext : Z → Z) (F : gmap Z Z) : Prop := {
  li_ob : ob_wf (PI := pool_frame PI F) (lp_ob s) ext;
  li_ks : ks_wf (ke_view s);
  li_locks : PortLocks s = ∅;
  li_ports a p : Ports s !! a = Some p →
    is_Some (ObHeaders (lp_ob s) !! BODY_TO_HEADER a) ∧ PType p = LPC_PORT_TYPE ∧
    ∃ e, Objects (lp_sched s) !! MsgEvent a = Some e ∧ OType e = EventObject ∧ WaitListHead e = [];
  li_fresh a e : ObHeaders (lp_ob s) !! BODY_TO_HEADER a = None → Objects (lp_sched s) !! MsgEvent a = Some e → WaitListHead e = [];
  li_msgs a m : Msgs s !! a = Some m → F !! a = Some TAG_PCML ∧ length m = Z.to_nat sizeof_LPC_MESSAGE ∧ Forall byte m
}.

Lemma li_pcr s ext F : lpc_inv s ext F → can_lock (pcr s).
Proof. intros Hi. apply (li_ks _ _ _ Hi). Qed.

Lemma li_unlocked s ext F port : lpc_inv s ext F → lk (PortLock port) s = 0.
Proof. intros Hi. cbn. by rewrite (li_locks _ _ _ Hi), lookup_empty. Qed.

(** Changes a section under a port's lock can make. *)
Definition section_upd (c : SCHED) (ps : gmap Z LPC_PORT) (ms : gmap Z (list Z)) s : L :=
  mkLpc (lp_ob s) (lp_dlock s) c ps (PortLocks s) ms.

Lemma framed_section port c ps ms : framed (PortLock port) (section_upd c ps ms).
Proof. by constructor. Qed.

(** Events of the same addresses and kinds, with no new waiters. *)
Definition events_kept (c c' : SCHED) : Prop := ∀ a,
  match Objects c !! a, Objects c' !! a with
  | Some e, Some e' => OType e' = OType e ∧ (WaitListHead e = [] → WaitListHead e' = [])
  | None, None => True
  | _, _ => False
  end.

Lemma events_same c : events_kept c c.
Proof. intros a. by destruct (Objects c !! a). Qed.

Lemma section_same s : section_upd (lp_sched s) (Ports s) (Msgs s) s = s.
Proof. by destruct s. Qed.

(** ** Queues *)

(** Signalling a port's event inside the port's section: the threads that wait
    on it are made ready, and no event goes away. *)
Lemma set_event_port s ext F port p ps ms :
  lpc_inv s ext F → Ports s !! port = Some p →
  ∃ v c, ke (KeSetEvent (MsgEvent port)) (section_upd (lp_sched s) ps ms (locked (PortLock port) s)) =
           Ok (v, section_upd c ps ms (locked (PortLock port) s)) ∧
    sched_wf c ∧ events_kept (lp_sched s) c.
Proof.
  intros Hi Hp. destruct (li_ports _ _ _ Hi _ _ Hp) as (_ & _ & e & He & Hty & Hwl).
  set (s1 := section_upd (lp_sched s) ps ms (locked (PortLock port) s)).
  pose proof (li_ks _ _ _ Hi) as (Hwf & Hdl & Hc).
  destruct (set_event_run (ke_view s1) (MsgEvent port) e) as (c & Hr & Hwf' & Hpost); [|exact He|].
  { split_and!; [done..|]. unfold ke_view, s1. cbn [ks_pcr]. change (pcr _) with (pcr (set_pcr locked_pcr (lp_ob s))).
    rewrite pcr_set. apply locked_can_lock. }
  eexists _, c. split_and!.
  - unfold ke. erewrite zoom_ok; [|exact Hr]. do 2 f_equal. unfold ke_put. cbn [set_sched sched KiDispatcherLock ks_pcr].
    change (ks_pcr (ke_view s1)) with (pcr s1). rewrite set_pcr_pcr. done.
  - done.
  - unfold set_event_post in Hpost. rewrite Hty in Hpost. cbn in Hpost. intros a.
    rewrite (wk_obj _ _ _ _ _ _ _ Hpost). destruct (decide (a = MsgEvent port)) as [->|Hne].
    + by rewrite He, lookup_insert_eq.
    + rewrite lookup_insert_ne by done. cbn. rewrite lookup_insert_ne by done. apply events_same.
Qed.

Definition msg_ok (m : list Z) : Prop := length m = Z.to_nat sizeof_LPC_MESSAGE ∧ Forall byte m.

Lemma msg_store o n v m : msg_ok m → (o + n ≤ 248)%nat → msg_ok (splice o (le_bytes n v) m).
Proof.
  intros [Hl Hb] Ho. split.
  - rewrite splice_length; [done|]. rewrite le_bytes_length, Hl. by change (Z.to_nat sizeof_LPC_MESSAGE) with 248%nat.
  - apply splice_Forall; [apply le_bytes_byte|done].
Qed.

Lemma next_set v m : msg_ok m → 0 ≤ v < 18446744073709551616 → MNext (set_MNext v m) = v.
Proof. intros [Hl _] Hv. apply field_stored; [done|]. rewrite Hl. by change (Z.to_nat sizeof_LPC_MESSAGE) with 248%nat; lia. Qed.

(** The walk to the last message. *)
Lemma last_msg_loop s l : ∀ a, msg_chain (Msgs s) a l → a ≠ 0 →
  ∃ l' z m, l = l' ++ [z] ∧ Msgs s !! z = Some m ∧ MNext m = 0 ∧ loops_to last_turn (Z.of_nat (length l)) a s z s.
Proof.
  induction l as [|x l IH]; intros a Hc Ha; inversion Hc as [|? m ? _ Hm Hc']; subst; [done|].
  destruct (decide (MNext m = 0)) as [E|Hne].
  - rewrite E in Hc'. apply next_chain_0 in Hc' as ->. exists [], x, m. split_and!; [done..|]. apply loops_done.
    unfold last_turn, get_msg. rewrite (deref_bind (λ s, Msgs s !! x) _ _ _ Hm). by rewrite E.
  - destruct (IH _ Hc' Hne) as (l' & z & mz & -> & Hz & Hz0 & Hl). exists (x :: l'), z, mz. split_and!; [done..|].
    cbn [length]. rewrite Nat2Z.inj_succ, <- Z.add_1_r. eapply loops_step; [|exact Hl].
    unfold last_turn, get_msg. rewrite (deref_bind (λ s, Msgs s !! x) _ _ _ Hm). by destruct (Z.eqb_spec (MNext m) 0).
Qed.

(** Linking a message behind the last one. *)
Lemma chain_snoc Ms a l z m q mq :
  msg_chain Ms a (l ++ [z]) → NoDup (l ++ [z]) → Ms !! z = Some m → msg_ok m →
  Ms !! q = Some mq → MNext mq = 0 → q ≠ 0 → 0 ≤ q < 18446744073709551616 → q ∉ l ++ [z] →
  msg_chain (<[z := set_MNext q m]> Ms) a (l ++ [z; q]).
Proof.
  intros Hc Hnd Hz Hm Hq Hq0 Hqn Hqb Hqin. assert (q ≠ z) as Hqz by (intros ->; apply Hqin, elem_of_app; right; left).
  revert a Hc Hnd Hqin. induction l as [|x l IH]; intros a Hc Hnd Hqin; inversion Hc as [|? mx ? Hx0 Hmx Hc']; subst.
  - eapply nc_cons; [done|apply lookup_insert_eq|]. rewrite next_set by done.
    eapply nc_cons; [done|by rewrite lookup_insert_ne|]. rewrite Hq0. constructor.
  - apply NoDup_cons in Hnd as [Hx Hnd]. eapply nc_cons; [done| |].
    + rewrite lookup_insert_ne; [exact Hmx|]. intros ->. apply Hx, elem_of_app. right. left.
    + apply IH; [done..|]. intros Hin. apply Hqin. by right.
Qed.

Lemma msg_pos s ext F a t : lpc_inv s ext F → F !! a = Some t → 0 < a < 9223372036854775808.
Proof.
  intros Hi Ha. destruct (oi_mem _ _ (proj1 (li_ob _ _ _ Hi))) as (m & [Hd Hp] & _).
  apply (pool_rep_pos _ _ _ t Hp). by apply lookup_union_Some_r.
Qed.

Lemma msgs_kept s ext F a m : lpc_inv s ext F → Msgs s !! a = Some m → is_Some (Msgs s !! a) ∧ msg_ok m.
Proof. intros Hi Ha. split; [eauto|]. by apply (li_msgs _ _ _ Hi) in Ha as [_ ?]. Qed.

Lemma chain_live s ext F a l : lpc_inv s ext F → msg_chain (Msgs s) a l → ∀ x, x ∈ l → ∃ m, Msgs s !! x = Some m ∧ msg_ok m.
Proof.
  intros Hi Hc. induction Hc as [|a m l Ha Hm Hc IH]; intros x Hx; [by apply elem_of_nil in Hx|].
  apply elem_of_cons in Hx as [->|Hx]; [|by apply IH]. exists m. split; [done|]. by apply (msgs_kept s ext F a m Hi Hm).
Qed.

Lemma chain_short s ext F a l : lpc_inv s ext F → msg_chain (Msgs s) a l → NoDup l → Z.of_nat (length l) ≤ 9223372036854775808.
Proof.
  intros Hi Hc Hnd. apply (NoDup_bounded_length l); [lia|done|]. intros x Hx.
  destruct (chain_live _ _ _ _ _ Hi Hc x Hx) as (m & Hm & _). apply (li_msgs _ _ _ Hi) in Hm as [HF _].
  pose proof (msg_pos _ _ _ _ _ Hi HF). lia.
Qed.

Lemma section_inv s ext F c ps ms :
  lpc_inv s ext F → sched_wf c → events_kept (lp_sched s) c →
  (∀ a p, ps !! a = Some p → ∃ p0, Ports s !! a = Some p0 ∧ PType p = PType p0) →
  (∀ a m, ms !! a = Some m → is_Some (Msgs s !! a) ∧ msg_ok m) →
  lpc_inv (section_upd c ps ms s) ext F.
Proof.
  intros [Hob (Hwf & Hdl & Hpc) Hlk Hpt Hfr Hms] Hc Hev Hps Hm. constructor; cbn; try done.
  - intros a p Ha. destruct (Hps a p Ha) as (p0 & Hp0 & E). destruct (Hpt a p0 Hp0) as (Hh & Hty & e & He & Hety & Hw).
    specialize (Hev (MsgEvent a)). rewrite He in Hev. destruct (Objects c !! MsgEvent a) as [e'|]; [|done]. destruct Hev as [E' Hw'].
    split_and!; [done|congruence|]. exists e'. split_and!; [done|congruence|by apply Hw'].
  - intros a e' Ha He'. specialize (Hev (MsgEvent a)). rewrite He' in Hev.
    destruct (Objects (lp_sched s) !! MsgEvent a) as [e|] eqn:He; [|done]. apply Hev. by apply (Hfr a).
  - intros a m Ha. destruct (Hm a m Ha) as [[m0 Hm0] Hok]. by destruct (Hms a m0 Hm0) as [HF _].
Qed.

Lemma port_kept s port p p' : Ports s !! port = Some p → PType p' = PType p →
  ∀ a q, <[port := p']> (Ports s) !! a = Some q → ∃ p0, Ports s !! a = Some p0 ∧ PType q = PType p0.
Proof. intros Hp E a q [[<- <-]|[_ Ha]]%lookup_insert_Some; eauto. Qed.

(** The change of the queue: the head is set, or the last message is linked. *)
Definition link (port q : Z) (p : LPC_PORT) : M L unit :=
  if MsgQueueHead p =? 0 then put_port port (with_head q p)
  else last ← loop last_turn (MsgQueueHead p); m ← get_msg last; put_msg last (set_MNext q m).

Lemma link_run s s1 ext F port p l q mq :
  lpc_inv s ext F → Ports s !! port = Some p → msg_chain (Msgs s) (MsgQueueHead p) l → NoDup l →
  Msgs s !! q = Some mq → MNext mq = 0 → q ∉ l → lp_sched s1 = lp_sched s → Ports s1 = Ports s → Msgs s1 = Msgs s →
  ∃ ps ms, link port q p s1 = Ok (tt, section_upd (lp_sched s) ps ms s1) ∧
    (∃ h, ps = <[port := with_head h p]> (Ports s) ∧ msg_chain ms h (l ++ [q])) ∧
    (∀ a, a ∉ l → ms !! a = Msgs s !! a) ∧ (∀ a m, ms !! a = Some m → is_Some (Msgs s !! a) ∧ msg_ok m).
Proof.
  intros Hi Hp Hch Hnd Hq Hq0 Hql Ec Ep Em. destruct (li_msgs _ _ _ Hi _ _ Hq) as (HFq & Hqok).
  pose proof (msg_pos _ _ _ _ _ Hi HFq) as Hqpos. unfold link.
  destruct (Z.eqb_spec (MsgQueueHead p) 0) as [E|Hne].
  - rewrite E in Hch. apply next_chain_0 in Hch as ->. eexists _, (Msgs s). split.
    { unfold put_port, mmod, section_upd, set_Ports. by rewrite Ec, Em, Ep. }
    split_and!; [|done|intros a m Ha; by eapply msgs_kept].
    exists q. split; [done|]. apply (nc_cons _ _ q mq); [lia|done|]. rewrite Hq0. constructor.
  - pose proof (chain_short _ _ _ _ _ Hi Hch Hnd) as Hlen. rewrite <- Em in Hch.
    destruct (last_msg_loop s1 l _ Hch Hne) as (l' & z & m & -> & Hz & Hz0 & Hl). pose proof Hz as Hz'. rewrite Em in Hz', Hch.
    destruct (msgs_kept _ _ _ _ _ Hi Hz') as [_ Hmz].
    eexists (Ports s), (<[z := set_MNext q m]> (Msgs s)). split_and!.
    + rewrite (bind_ok _ _ _ _ _ (loop_ok _ _ _ _ _ _ Hl ltac:(lia))). unfold get_msg.
      rewrite (deref_bind (λ s, Msgs s !! z) _ _ _ Hz). unfold put_msg, mmod, section_upd, set_Msgs. by rewrite Ec, Em, Ep.
    + exists (MsgQueueHead p). split.
      * rewrite insert_id; [done|]. rewrite Hp. by destruct p.
      * rewrite <- app_assoc. apply (chain_snoc _ _ _ _ m _ mq); try done; lia.
    + intros a Ha. apply lookup_insert_ne. intros <-. apply Ha, elem_of_app. right. left.
    + intros a m' [[<- <-]|[_ Ha]]%lookup_insert_Some; [|by eapply msgs_kept]. split; [by eexists|]. by apply msg_store; [|lia].
Qed.

(** A message joins the end of the queue. *)
Lemma enqueue_run s ext F port p l q mq :
  lpc_inv s ext F → Ports s !! port = Some p → msg_chain (Msgs s) (MsgQueueHead p) l → NoDup l →
  Msgs s !! q = Some mq → MNext mq = 0 → q ∉ l →
  ∃ c ps ms, enqueue port q s = Ok (tt, section_upd c ps ms s) ∧ lpc_inv (section_upd c ps ms s) ext F ∧
    (∃ h, ps = <[port := with_head h p]> (Ports s) ∧ msg_chain ms h (l ++ [q])) ∧
    (∀ a, a ∉ l → ms !! a = Msgs s !! a) ∧ (∀ a, is_Some (ms !! a) → is_Some (Msgs s !! a)).
Proof.
  intros Hi Hp Hch Hnd Hq Hq0 Hql. pose proof (li_pcr _ _ _ Hi) as Hc.
  destruct (link_run s (locked (PortLock port) s) ext F port p l q mq) as (ps & ms & Hbody & Hh & Hms & Hmok); [done..|].
  destruct (set_event_port s ext F port p ps ms Hi Hp) as (v & c & Hev & Hwf & Hobj).
  exists c, ps, ms. split_and!; [| |done|done|intros a [m Ha]; by apply (Hmok a m)].
  - unfold enqueue. apply locked_framed; [done|by eapply li_unlocked|apply framed_section|].
    unfold get_port. rewrite (deref_bind (λ s, Ports s !! port) _ (locked (PortLock port) s) _ Hp). fold (link port q p). rewrite (bind_ok _ _ _ _ _ Hbody).
    by rewrite (bind_ok _ _ _ _ _ Hev).
  - apply section_inv; [done..| |done]. destruct Hh as (h & -> & _). by apply (port_kept s port p).
Qed.

(** The queue's first message is taken; an empty queue is left alone. *)
Lemma dequeue_none s ext F port p :
  lpc_inv s ext F → Ports s !! port = Some p → MsgQueueHead p = 0 → dequeue port s = Ok (None, s).
Proof.
  intros Hi Hp E. unfold dequeue. erewrite (locked_framed (PortLock port) _ id); [done|by eapply li_pcr|by eapply li_unlocked|by constructor|].
  unfold get_port. rewrite (deref_bind (λ s, Ports s !! port) _ (locked (PortLock port) s) _ Hp). by rewrite E.
Qed.

Lemma dequeue_some s ext F port p r m :
  lpc_inv s ext F → Ports s !! port = Some p → MsgQueueHead p = r → r ≠ 0 → Msgs s !! r = Some m →
  let s' := section_upd (lp_sched s) (<[port := with_head (MNext m) p]> (Ports s)) (<[r := set_MNext 0 m]> (Msgs s)) s in
  dequeue port s = Ok (Some r, s') ∧ lpc_inv s' ext F.
Proof.
  intros Hi Hp E Hr Hm. cbv zeta. split.
  - unfold dequeue. apply (locked_framed (PortLock port)); [by eapply li_pcr|by eapply li_unlocked|apply framed_section|].
    unfold get_port. rewrite (deref_bind (λ s, Ports s !! port) _ (locked (PortLock port) s) _ Hp). rewrite E. destruct (Z.eqb_spec r 0); [done|].
    unfold get_msg. by rewrite (deref_bind (λ s, Msgs s !! r) _ (locked (PortLock port) s) _ Hm).
  - apply section_inv; [done|apply (li_ks _ _ _ Hi)|apply events_same|by apply (port_kept s port p)|].
    intros a m' [[<- <-]|[_ Ha]]%lookup_insert_Some; [|by eapply msgs_kept]. split; [eauto|].
    apply msg_store; [by apply (msgs_kept _ _ _ _ _ Hi Hm)|lia].
Qed.

(** Polling: an empty queue stays empty, so the loop gives up after limit + 2 looks. *)
Lemma poll_empty s ext F port p limit :
  lpc_inv s ext F → Ports s !! port = Some p → MsgQueueHead p = 0 → 0 ≤ limit < 4294967294 →
  loop (poll_turn limit port) 0 s = Ok (None, s).
Proof.
  intros Hi Hp E Hl. pose proof (dequeue_none s ext F port p Hi Hp E) as Hd.
  assert (∀ k : nat, Z.of_nat k ≤ limit + 1 →
    loops_to (poll_turn limit port) (Z.of_nat k + 1) (limit + 1 - Z.of_nat k) s None s) as Hloop.
  { induction k as [|k IH]; intros Hk.
    - apply loops_done. unfold poll_turn. rewrite (bind_ok _ _ _ _ _ Hd). destruct (Z.ltb_spec limit (limit + 1 - Z.of_nat 0)); [done|lia].
    - rewrite Nat2Z.inj_succ, <- Z.add_1_r. eapply loops_step; [|apply IH; lia].
      unfold poll_turn. rewrite (bind_ok _ _ _ _ _ Hd). destruct (Z.ltb_spec limit (limit + 1 - (Z.of_nat k + 1))); [lia|].
      rewrite u32_small by lia. unfold mret, M_ret. repeat f_equal. lia. }
  specialize (Hloop (Z.to_nat (limit + 1)) ltac:(lia)). eapply loop_ok; [|].
  - replace 0 with (limit + 1 - Z.of_nat (Z.to_nat (limit + 1))) by lia. exact Hloop.
  - lia.
Qed.

Lemma poll_some s ext F port p r m limit :
  lpc_inv s ext F → Ports s !! port = Some p → MsgQueueHead p = r → r ≠ 0 → Msgs s !! r = Some m →
  let s' := section_upd (lp_sched s) (<[port := with_head (MNext m) p]> (Ports s)) (<[r := set_MNext 0 m]> (Msgs s)) s in
  loop (poll_turn limit port) 0 s = Ok (Some r, s') ∧ lpc_inv s' ext F.
Proof.
  intros Hi Hp E Hr Hm. destruct (dequeue_some s ext F port p r m Hi Hp E Hr Hm) as [Hd Hi']. cbv zeta. split; [|done].
  eapply (loop_ok _ 1); [|lia]. apply loops_done. unfold poll_turn. by rewrite (bind_ok _ _ _ _ _ Hd).
Qed.

(** ** Message blocks *)

Lemma alloc_msg s ext F :
  lpc_inv s ext F →
  ∃ a p, let s' := set_lp_ob (set_ob_pool p (lp_ob s)) s in
    alloc sizeof_LPC_MESSAGE TAG_PCML s = Ok (a, s') ∧
    ((a = 0 ∧ lpc_inv s' ext F) ∨ (0 < a ∧ F !! a = None ∧ lpc_inv s' ext (<[a := TAG_PCML]> F))).
Proof.
  intros [[[Hcore (m & [Hd Hp] & Hh & Ht & Hdis) Hlk] Hpos] Hks Hl Hpt Hfr Hms].
  destruct (pool_alloc_law _ _ 0 sizeof_LPC_MESSAGE TAG_PCML Hp) as (a & p & Hr & Hk & Hcase); [apply Hks|done|].
  assert (ks_wf (ke_view (set_lp_ob (set_ob_pool p (lp_ob s)) s))) as Hks'.
  { destruct Hks as (H1 & H2 & H3). split_and!; [done..|]. unfold ke_view. cbn. by rewrite Hk. }
  exists a, p. cbv zeta. split; [unfold alloc, ob, ob_alloc; by do 2 apply zoom_ok|].
  destruct Hcase as [[-> Hp']|(Ha & [Hma HFa]%lookup_union_None & Hp')]; [left|right]; split_and!; try done.
  - constructor; try done. split; [|done]. constructor; [done| |done]. by exists m.
  - constructor; try done.
    + split; [|done]. constructor; [done| |done]. exists m. split_and!; [|done..].
      split; [by apply map_disjoint_insert_r|]. by rewrite <- insert_union_r.
    + intros b x Hb. destruct (Hms b x Hb) as [HF Hx]. split; [|done]. rewrite lookup_insert_ne; [done|]. intros ->. congruence.
Qed.

Lemma put_msg_inv s ext F a m : lpc_inv s ext F → F !! a = Some TAG_PCML → msg_ok m → lpc_inv (set_Msgs (<[a := m]> (Msgs s)) s) ext F.
Proof.
  intros [Hob Hks Hl Hpt Hfr Hms] Ha Hm. constructor; try done. cbn.
  intros b x [[<- <-]|[_ Hb]]%lookup_insert_Some; [done|by apply Hms].
Qed.

Lemma free_msg_run s ext F a :
  lpc_inv s ext F → F !! a = Some TAG_PCML →
  ∃ p, let s' := set_Msgs (delete a (Msgs s)) (set_lp_ob (set_ob_pool p (lp_ob s)) s) in
    free_msg a s = Ok (tt, s') ∧ lpc_inv s' ext (delete a F).
Proof.
  intros [[[Hcore (m & [Hd Hp] & Hh & Ht & Hdis) Hlk] Hpos] Hks Hl Hpt Hfr Hms] Ha.
  destruct (pool_free_law _ _ a TAG_PCML TAG_PCML Hp) as (p & Hr & Hk & Hp'); [apply Hks|by apply lookup_union_Some_r|by right|].
  exists p. cbv zeta. split.
  - assert (free a TAG_PCML s = Ok (tt, set_lp_ob (set_ob_pool p (lp_ob s)) s)) as Hf by (unfold free, ob, ob_free; by do 2 apply zoom_ok).
    unfold free_msg. by rewrite (bind_ok _ _ _ _ _ Hf).
  - constructor; try done.
    + split; [|done]. constructor; [done| |done]. exists m. split_and!; [|done..]. split; [by apply map_disjoint_delete_r|].
      rewrite delete_union, (delete_id m) in Hp'; [done|]. by eapply map_disjoint_Some_r.
    + destruct Hks as (H1 & H2 & H3). split_and!; [done..|]. unfold ke_view. cbn. by rewrite Hk.
    + cbn. intros b x [Hne Hb]%lookup_delete_Some. rewrite lookup_delete_ne by done. by apply Hms.
Qed.

(** ** Ports as objects *)

(** Delete procedures leave other people's pool blocks alone. *)
Hypothesis Hdel : ∀ F, delete_ok (PI := pool_frame PI F) DeleteProc.

Lemma set_ob_same s : set_lp_ob (lp_ob s) s = s.
Proof. by destruct s. Qed.

(** The object manager does something and no object goes away. *)
Lemma ob_change_inv s ext ext' F o :
  lpc_inv s ext F → ob_wf (PI := pool_frame PI F) o ext' → pcr o = pcr (lp_ob s) →
  (∀ a, is_Some (ObHeaders (lp_ob s) !! a) → is_Some (ObHeaders o !! a)) → lpc_inv (set_lp_ob o s) ext' F.
Proof.
  intros [Hob Hks Hl Hpt Hfr Hms] Ho Hk Hh. constructor; try done.
  - destruct Hks as (H1 & H2 & H3). split_and!; [done..|]. unfold ke_view. cbn. change (can_lock (pcr o)). by rewrite Hk.
  - intros a p Ha. destruct (Hpt a p Ha) as (Hy & Ht & Hev). split_and!; [by apply Hh|done..].
  - cbn. intros a e Ha. apply (Hfr a). apply eq_None_not_Some. intros Hs%Hh. rewrite Ha in Hs. by destruct Hs.
Qed.

Lemma insert_grows (hs : gmap Z OBJECT_HEADER) h y a : is_Some (hs !! a) → is_Some (<[h := y]> hs !! a).
Proof. destruct (decide (a = h)) as [->|]; [rewrite lookup_insert_eq; eauto|by rewrite lookup_insert_ne]. Qed.

Lemma reference_port s ext F H ty x :
  lpc_inv s ext F → let b := table_get (HANDLE_TO_INDEX H) (lp_ob s) in
  HANDLE_TO_INDEX H < OBP_HANDLE_TABLE_SIZE → b ≠ 0 → ext (BODY_TO_HEADER b) + 1 < 4611686018427387904 →
  ObHeaders (lp_ob s) !! BODY_TO_HEADER b = Some x → ty ≠ 0 →
  let s' := set_lp_ob (with_hdr (BODY_TO_HEADER b) (ref_hdr x 1) (lp_ob s)) s in
  if Type_ x =? ty
  then ob (ObReferenceObjectByHandle DeleteProc H ty) s = Ok ((STATUS_SUCCESS, b), s') ∧
       lpc_inv s' (bump ext (BODY_TO_HEADER b) 1) F
  else ob (ObReferenceObjectByHandle DeleteProc H ty) s = Ok ((STATUS_ACCESS_DENIED, 0), s).
Proof.
  intros Hi b Hidx Hb He Hx Hty. cbv zeta.
  destruct (by_handle_run (PI := pool_frame PI F) DeleteProc (lp_ob s) ext H ty (Hdel F) (li_ob _ _ _ Hi) (li_pcr _ _ _ Hi)) as [_ Hg].
  destruct (Hg Hidx Hb He) as (y & Hy & Hden & Hok). fold b in Hy. rewrite Hx in Hy. injection Hy as <-.
  destruct (Z.eqb_spec (Type_ x) ty) as [E|Hne].
  - split; [unfold ob; apply zoom_ok, Hok; by right|]. apply (ob_change_inv s ext); [done| |done|apply insert_grows].
    exact (ref_wf (PI := pool_frame PI F) DeleteProc _ _ _ _ (li_ob _ _ _ Hi) Hx He).
  - unfold ob. erewrite zoom_ok; [|apply Hden; split; done]. by rewrite set_ob_same.
Qed.

Lemma b2h_inj a b : BODY_TO_HEADER a = BODY_TO_HEADER b → a = b.
Proof. unfold BODY_TO_HEADER. lia. Qed.

(** Giving back a reference to a port: the port goes when it was the last. *)
Lemma deref_port_run s ext F port p x :
  lpc_inv s ext F → Ports s !! port = Some p → ObHeaders (lp_ob s) !! BODY_TO_HEADER port = Some x → 1 ≤ ext (BODY_TO_HEADER port) →
  ∃ s', deref_port port s = Ok (tt, s') ∧ lpc_inv s' (bump ext (BODY_TO_HEADER port) (-1)) F ∧
    Msgs s' = Msgs s ∧ lp_sched s' = lp_sched s ∧ ObpHandleTable (lp_ob s') = ObpHandleTable (lp_ob s) ∧
    if PointerCount x =? 1 then Ports s' = delete port (Ports s) ∧ ObHeaders (lp_ob s') = delete (BODY_TO_HEADER port) (ObHeaders (lp_ob s))
    else Ports s' = Ports s ∧ ObHeaders (lp_ob s') = <[BODY_TO_HEADER port := ref_hdr x (-1)]> (ObHeaders (lp_ob s)).
Proof.
  intros Hi Hp Hx He.
  destruct (deref_run (PI := pool_frame PI F) DeleteProc (lp_ob s) ext (BODY_TO_HEADER port) x) as (o & Hr & Hw & Hk & Htab & Hh);
    [apply Hdel|apply (li_ob _ _ _ Hi)|apply (li_pcr _ _ _ Hi)|done|done|].
  replace (HEADER_TO_BODY (BODY_TO_HEADER port)) with port in Hr by (unfold HEADER_TO_BODY, BODY_TO_HEADER; lia). set (s1 := set_lp_ob o s).
  assert (ob (ObDereferenceObject DeleteProc port) s = Ok (tt, s1)) as Hr1 by (unfold ob; by apply zoom_ok).
  unfold deref_port. rewrite (bind_ok _ _ _ _ _ Hr1). unfold mmod. eexists. split; [reflexivity|].
  destruct (PointerCount x =? 1) eqn:E.
  - rewrite decide_False by (cbn; rewrite Hh, lookup_delete_eq; by intros [? ?]). split_and!; try done.
    destruct Hi as [Hob Hks Hl Hpt Hfr Hms]. constructor; try done; cbn.
    + destruct Hks as (H1 & H2 & H3). split_and!; [done..|]. unfold ke_view. cbn. change (can_lock (pcr o)). by rewrite Hk.
    + intros a p' [Hne Ha]%lookup_delete_Some. destruct (Hpt a p' Ha) as (Hy & Ht & Hev).
      split_and!; [|done..]. rewrite Hh, lookup_delete_ne; [done|]. intros ?%b2h_inj. done.
    + intros a e Ha He'. destruct (decide (a = port)) as [->|Hne].
      * destruct (Hpt _ _ Hp) as (_ & _ & e' & He'' & _ & Hwl). rewrite He' in He''. by injection He'' as ->.
      * apply (Hfr a e); [|done]. rewrite Hh, lookup_delete_ne in Ha; [done|]. intros ?%b2h_inj. done.
  - rewrite decide_True by (cbn; rewrite Hh, lookup_insert_eq; eauto). split_and!; try done.
    apply (ob_change_inv s ext); [done..|]. intros a Ha. rewrite Hh. by apply insert_grows.
Qed.

Lemma lpc_ext s ext ext' F : (∀ a, ext' a = ext a) → lpc_inv s ext F → lpc_inv s ext' F.
Proof. intros E [Hob Hks Hl Hpt Hfr Hms]. constructor; try done. by eapply (wf_ext (PI := pool_frame PI F)). Qed.

(** ** The object types stay *)

Definition types_kept (o o' : OB_STATE P) : Prop :=
  LpcPortObjectType o' = LpcPortObjectType o ∧ ∀ ty, is_Some (ObTypes o !! ty) → is_Some (ObTypes o' !! ty).

Definition keeps {A} (m : M (OB_STATE P) A) : Prop := ∀ o a o', m o = Ok (a, o') → types_kept o o'.

Lemma keeps_ret {A} (a : A) : keeps (mret a).
Proof. intros o b o' [= <- <-]. by split. Qed.
Lemma keeps_bind {A B} (m : M (OB_STATE P) A) (k : A → M (OB_STATE P) B) : keeps m → (∀ a, keeps (k a)) → keeps (m ≫= k).
Proof.
  intros Hm Hk o b o2 (a & o1 & H1 & H2)%bind_inv. destruct (Hm _ _ _ H1) as [E1 T1], (Hk _ _ _ _ H2) as [E2 T2].
  split; [congruence|eauto].
Qed.
Lemma keeps_mod f : (∀ o, types_kept o (f o)) → keeps (mmod f).
Proof. intros Hf o a o' [= <- <-]. apply Hf. Qed.
Lemma keeps_gets {A} (f : OB_STATE P → A) : keeps (mgets f).
Proof. intros o a o' [= <- <-]. by split. Qed.
Lemma keeps_deref {A} (f : OB_STATE P → option A) : keeps (mderef f).
Proof. intros o a o'. unfold mderef. destruct (f o); [|done]. intros [= <- <-]. by split. Qed.
Lemma keeps_when b m : keeps m → keeps (mwhen b m).
Proof. intros Hm. destruct b; [done|apply keeps_ret]. Qed.
Lemma keeps_pool {A} (m : M P A) : keeps (zoom ob_pool set_ob_pool m).
Proof. intros o a o'. unfold zoom. destruct (m (ob_pool o)) as [[]| | | |]; try done. intros [= <- <-]. by split. Qed.
Lemma keeps_put_type ty y : keeps (put_type ty y).
Proof.
  apply keeps_mod. intros o. split; [done|]. intros t. cbn. destruct (decide (t = ty)) as [->|]; [rewrite lookup_insert_eq; eauto|by rewrite lookup_insert_ne].
Qed.
Lemma keeps_bug {A} c p1 p2 p3 p4 : keeps (mbug (A := A) c p1 p2 p3 p4).
Proof. done. Qed.
Lemma keeps_spin {A} : keeps (λ _, Spin : Res (A * OB_STATE P)).
Proof. done. Qed.

Ltac keeps :=
  repeat first
    [ apply keeps_bind; [|intros ?] | apply keeps_ret | apply keeps_gets | apply keeps_deref | apply keeps_when
    | apply keeps_pool | apply keeps_put_type | apply keeps_bug | apply keeps_spin
    | (apply keeps_mod; intros ?; by split) | case_match ].

Lemma keeps_acquire : keeps (KeAcquireSpinLock ObLock).
Proof. unfold KeAcquireSpinLock, KeAcquireSpinLockRaiseToDpc, KfRaiseIrql, KeGetCurrentIrql, set_Irql, KeDisableInterrupts. keeps. Qed.
Lemma keeps_release n : keeps (KeReleaseSpinLock ObLock n).
Proof. unfold KeReleaseSpinLock, KfLowerIrql, KeGetCurrentIrql, set_Irql, KeEnableInterrupts. keeps. Qed.
Lemma keeps_reference b : keeps (ObReferenceObject b).
Proof. unfold ObReferenceObject, get_hdr, put_hdr. keeps. Qed.

Lemma keeps_create ty n nm : keeps (ObCreateObject ty n nm).
Proof.
  unfold ObCreateObject, key_of, get_type, ob_alloc, put_hdr, add_type_objects. keeps; apply keeps_acquire || apply keeps_release.
Qed.
Lemma keeps_insert b : keeps (ObInsertHandle b).
Proof.
  unfold ObInsertHandle, get_hdr, put_hdr, add_type_handles, get_type.
  keeps; apply keeps_acquire || apply keeps_release || apply keeps_reference.
Qed.
Lemma keeps_lookup nm : keeps (ObLookupObjectByName nm).
Proof.
  unfold ObLookupObjectByName. keeps; try (apply keeps_acquire || apply keeps_release || apply keeps_reference).
  intros o1 r1 o2. unfold find_name. destruct (find_named _ _ _); try done. intros [= <- <-]. by split.
Qed.

(** The delete procedures keep the types too. *)
Hypothesis Hdelk : ∀ proc b, keeps (DeleteProc proc b).

Lemma keeps_dereference b : keeps (ObDereferenceObject DeleteProc b).
Proof.
  unfold ObDereferenceObject, get_hdr, put_hdr, ASSERT, add_type_objects, get_type, key_of, ob_free.
  keeps; apply keeps_acquire || apply keeps_release || apply Hdelk.
Qed.

Lemma hdr_count s ext F h x :
  lpc_inv s ext F → ObHeaders (lp_ob s) !! h = Some x → 0 < PointerCount x < 9223372036854775807 ∧ 0 ≤ ext h.
Proof.
  intros Hi Hx. destruct (li_ob _ _ _ Hi) as [Hinv Hpos].
  pose proof (count_bounds (PI := pool_frame PI F) DeleteProc _ _ _ _ Hinv Hx). pose proof (Hpos _ _ Hx). lia.
Qed.

Lemma body_nonzero s ext F h x : lpc_inv s ext F → ObHeaders (lp_ob s) !! h = Some x → HEADER_TO_BODY h ≠ 0.
Proof.
  intros Hi Hx. destruct (oi_mem _ _ (proj1 (li_ob _ _ _ Hi))) as (m & [Hd Hm] & Hh & _).
  pose proof (pool_rep_pos _ _ h _ Hm (lookup_union_Some_l _ _ _ _ (Hh _ _ Hx))). unfold HEADER_TO_BODY, sizeof_OBJECT_HEADER. lia.
Qed.

(** Giving back a reference that was taken on top of others. *)
Lemma unreference_port s1 ext F port p x :
  0 < PointerCount x < 9223372036854775807 ∧ 0 ≤ ext (BODY_TO_HEADER port) → Ports s1 !! port = Some p →
  lpc_inv s1 (bump ext (BODY_TO_HEADER port) 1) F → ObHeaders (lp_ob s1) !! BODY_TO_HEADER port = Some (ref_hdr x 1) →
  ∃ s', deref_port port s1 = Ok (tt, s') ∧ lpc_inv s' ext F ∧ Msgs s' = Msgs s1 ∧ Ports s' = Ports s1 ∧
    ObpHandleTable (lp_ob s') = ObpHandleTable (lp_ob s1) ∧
    ObHeaders (lp_ob s') = <[BODY_TO_HEADER port := ref_hdr (ref_hdr x 1) (-1)]> (ObHeaders (lp_ob s1)).
Proof.
  intros [Hpc He] Hpt Hi1 Hx1.
  destruct (deref_port_run s1 _ F port p _ Hi1 Hpt Hx1) as (s' & Hr & Hi' & Hm & _ & Htab & Hc).
  { unfold bump. rewrite Z.eqb_refl. lia. }
  exists s'. split; [done|]. split; [apply (lpc_ext _ _ _ _ (λ a, eq_sym (bump_bump DeleteProc ext _ a)) Hi')|]. split; [done|].
  assert ((PointerCount (ref_hdr x 1) =? 1) = false) as E by (cbn; rewrite s64_small; lia).
  rewrite E in Hc. by destruct Hc.
Qed.

Lemma types_kept_trans o1 o2 o3 : types_kept o1 o2 → types_kept o2 o3 → types_kept o1 o3.
Proof. intros [E1 T1] [E2 T2]. split; [congruence|eauto]. Qed.

Lemma deref_port_types s port s' : deref_port port s = Ok (tt, s') → types_kept (lp_ob s) (lp_ob s').
Proof.
  unfold deref_port. intros ([] & s1 & H1 & H2)%bind_inv. unfold ob, zoom in H1.
  destruct (ObDereferenceObject DeleteProc port (lp_ob s)) as [[[] o]| | | |] eqn:E; try done. injection H1 as <-. injection H2 as <-.
  apply keeps_dereference in E. by destruct (decide _).
Qed.

(** ** Making and connecting ports *)

(** A new object for a port: its memory holds no event anybody waits on. *)
Lemma new_port_run s ext F ty nm :
  lpc_inv s ext F → (ty = 0 ∨ is_Some (ObTypes (lp_ob s) !! ty)) →
  ∃ st port o, ob (ObCreateObject ty sizeof_LPC_PORT nm) s = Ok ((st, port), set_lp_ob o s) ∧ types_kept (lp_ob s) o ∧
    ((st = STATUS_INSUFFICIENT_RESOURCES ∧ lpc_inv (set_lp_ob o s) ext F ∧ ObHeaders o = ObHeaders (lp_ob s)) ∨
     ∃ h, st = STATUS_SUCCESS ∧ port = HEADER_TO_BODY h ∧ ObHeaders (lp_ob s) !! h = None ∧
       lpc_inv (set_lp_ob o s) (fresh_ext ext h) F ∧ Ports s !! port = None ∧
       ObHeaders o = <[h := mkHdr 1 0 ty (stored_name nm)]> (ObHeaders (lp_ob s)) ∧
       ∀ e, Objects (lp_sched s) !! MsgEvent port = Some e → WaitListHead e = []).
Proof.
  intros Hi Hty. destruct (create_run (PI := pool_frame PI F) DeleteProc (lp_ob s) ext ty sizeof_LPC_PORT nm (li_ob _ _ _ Hi) (li_pcr _ _ _ Hi) Hty ltac:(done))
    as (st & port & o & Hr & Hk & Hc).
  exists st, port, o. split; [unfold ob; by apply zoom_ok|]. split; [exact (keeps_create ty sizeof_LPC_PORT nm _ _ _ Hr)|].
  destruct Hc as [(-> & _ & Hw & Hh)|(h & -> & -> & Hn & Hw & Hh)].
  - left. split_and!; [done| |done]. apply (ob_change_inv s ext); [done..|]. by rewrite Hh.
  - right. exists h. assert (BODY_TO_HEADER (HEADER_TO_BODY h) = h) as E by (unfold BODY_TO_HEADER, HEADER_TO_BODY; lia). split_and!; try done.
    + apply (ob_change_inv s ext); [done..|]. intros a Ha. rewrite Hh. by apply insert_grows.
    + apply eq_None_not_Some. intros [p Hp]. apply (li_ports _ _ _ Hi) in Hp as [[y Hy] _]. rewrite E in Hy. congruence.
    + intros e He. apply (li_fresh _ _ _ Hi (HEADER_TO_BODY h)); [by rewrite E|done].
Qed.

Lemma init_port_run s ext F port x :
  lpc_inv s ext F → is_Some (ObHeaders (lp_ob s) !! BODY_TO_HEADER port) → PType x = LPC_PORT_TYPE →
  (∀ e, Objects (lp_sched s) !! MsgEvent port = Some e → WaitListHead e = []) →
  ∃ c, let s' := mkLpc (lp_ob s) (lp_dlock s) c (<[port := x]> (Ports s)) ∅ (Msgs s) in
    init_port port x s = Ok (tt, s') ∧ lpc_inv s' ext F ∧
    CurrentThread c = CurrentThread (lp_sched s).
Proof.
  intros Hi Hh Ht Hev. destruct Hi as [Hob ([Hsi Hcur] & Hdl & Hpc) Hl Hpt Hfr Hms].
  set (e := mkObject EventObject 0 [] 0 0 0). exists (upd_object (MsgEvent port) e (lp_sched s)). cbv zeta. split_and!; [| |done].
  - unfold init_port. rewrite (bind_ok (put_port port x) _ s tt (set_Ports (<[port := x]> (Ports s)) s) eq_refl).
    set (s1 := set_Ports _ s). assert (ke (KeInitializeEvent (MsgEvent port) NotificationEvent false) s1 =
      Ok (tt, set_lp_ke (lp_dlock s) (upd_object (MsgEvent port) e (lp_sched s)) s1)) as Hr.
    { unfold ke. erewrite zoom_ok; [|reflexivity]. do 2 f_equal. unfold ke_put. cbn [set_sched sched KiDispatcherLock ks_pcr ke_view].
      by rewrite set_pcr_pcr. }
    rewrite (bind_ok _ _ _ _ _ Hr). unfold KeInitializeSpinLock, mmod. cbn. unfold set_PortLocks. cbn.
    do 3 f_equal. rewrite Hl. apply map_eq. intros a. rewrite lookup_partial_alter, lookup_empty. by destruct (decide _).
  - constructor; cbn; try done.
    + split_and!; [|done..]. split; [by apply idle_object_inv|done].
    + intros a p [[<- <-]|[Hne Ha]]%lookup_insert_Some.
      * split_and!; [done..|]. exists e. by rewrite lookup_insert_eq.
      * destruct (Hpt a p Ha) as (H1 & H2 & e' & H3). split_and!; [done..|]. exists e'.
        rewrite lookup_insert_ne; [done|]. unfold MsgEvent. lia.
    + intros a e' Ha [[_ <-]|[_ He]]%lookup_insert_Some; [done|by apply (Hfr a)].
Qed.

(** Putting a port in the handle table. *)
Lemma insert_port_run s ext F port x :
  lpc_inv s ext F → ObHeaders (lp_ob s) !! BODY_TO_HEADER port = Some x →
  ∃ st H o, ob (ObInsertHandle port) s = Ok ((st, H), set_lp_ob o s) ∧ types_kept (lp_ob s) o ∧ lpc_inv (set_lp_ob o s) ext F ∧
    ((st = STATUS_INSUFFICIENT_RESOURCES ∧ o = lp_ob s) ∨
     (st = STATUS_SUCCESS ∧ HANDLE_TO_INDEX H < OBP_HANDLE_TABLE_SIZE ∧ table_get (HANDLE_TO_INDEX H) o = port ∧
      ∃ x', ObHeaders o = <[BODY_TO_HEADER port := x']> (ObHeaders (lp_ob s)) ∧ Type_ x' = Type_ x ∧ 1 < PointerCount x')).
Proof.
  intros Hi Hx. pose proof (li_ob _ _ _ Hi) as Hw0.
  pose proof (insert_run (PI := pool_frame PI F) DeleteProc (lp_ob s) ext (BODY_TO_HEADER port) x Hw0 (li_pcr _ _ _ Hi) Hx) as Hr.
  assert (HEADER_TO_BODY (BODY_TO_HEADER port) = port) as E by (unfold BODY_TO_HEADER, HEADER_TO_BODY; lia). rewrite E in Hr.
  destruct (first_idx _ _) as [i|] eqn:Hidx.
  - destruct Hr as (o & Hr & Hw & Hk & Htab & x' & Hh & Htx). eexists _, _, o.
    split; [unfold ob; by apply zoom_ok|]. split; [exact (keeps_insert port _ _ _ Hr)|].
    split; [apply (ob_change_inv s ext); [done..|]; intros a Ha; rewrite Hh; by apply insert_grows|].
    right. pose proof (first_idx_lt _ _ _ Hidx) as Hlt. pose proof (c_len _ _ _ _ _ (oi_core _ _ (proj1 Hw0))) as Hlen.
    assert (HANDLE_TO_INDEX (INDEX_TO_HANDLE (Z.of_nat i)) = Z.of_nat i) as HI by (apply (index_roundtrip DeleteProc); lia). rewrite HI.
    split_and!; [done|lia| |].
    + unfold table_get. rewrite Htab, Nat2Z.id, list_lookup_insert_eq; done.
    + exists x'. split_and!; [done..|].
      assert (ObHeaders o !! BODY_TO_HEADER port = Some x') as Hx' by (rewrite Hh; apply lookup_insert_eq).
      pose proof (count_bounds (PI := pool_frame PI F) DeleteProc _ _ _ _ (proj1 Hw) Hx') as (H1 & _).
      pose proof (count_bounds (PI := pool_frame PI F) DeleteProc _ _ _ _ (proj1 Hw0) Hx) as (H2 & _).
      pose proof (proj2 Hw0 _ _ Hx). rewrite H1, Htab. apply first_idx_Some in Hidx as [(b & Hb & Eb) _].
      rewrite (slots_insert _ _ b) by done. rewrite E, Z.eqb_refl.
      pose proof (hdr_pos (PI := pool_frame PI F) _ _ _ _ _ (oi_mem _ _ (proj1 Hw0)) Hx). unfold HEADER_TO_BODY, sizeof_OBJECT_HEADER in *.
      destruct (Z.eqb_spec b port); lia.
  - exists STATUS_INSUFFICIENT_RESOURCES, 0, (lp_ob s). split; [unfold ob; by apply zoom_ok|]. rewrite set_ob_same. split_and!; [done..|by left].
Qed.

Lemma attach_run s ext F server client sp :
  lpc_inv s ext F → Ports s !! server = Some sp →
  let s' := set_Ports (<[server := if ConnectedPort sp =? 0 then with_connected client sp else sp]> (Ports s)) s in
  attach server client s = Ok (tt, s') ∧ lpc_inv s' ext F.
Proof.
  intros Hi Hp. cbv zeta. set (ps := <[server := _]> (Ports s)).
  assert (set_Ports ps s = section_upd (lp_sched s) ps (Msgs s) s) as -> by done. split.
  - unfold attach. apply (locked_framed (PortLock server)); [by eapply li_pcr|by eapply li_unlocked|apply framed_section|].
    unfold get_port. rewrite (deref_bind (λ s, Ports s !! server) _ (locked (PortLock server) s) _ Hp). subst ps.
    destruct (ConnectedPort sp =? 0); [done|]. rewrite mwhen_false, insert_id by done. by destruct s.
  - apply section_inv; [done|apply (li_ks _ _ _ Hi)|apply events_same| |intros a m Ha; by eapply msgs_kept].
    apply (port_kept s server sp); [done|]. by destruct (ConnectedPort sp =? 0).
Qed.

Lemma b2h_body h : BODY_TO_HEADER (HEADER_TO_BODY h) = h.
Proof. unfold BODY_TO_HEADER, HEADER_TO_BODY. lia. Qed.

Definition server_port (name : UNICODE_STRING) : LPC_PORT := mkPort LPC_PORT_TYPE name 0 0 0.

Lemma create_port_run s ext F name :
  lpc_inv s ext F →
  ∃ st H s', NtCreatePort true (Some name) s = Ok ((st, H), s') ∧ Msgs s' = Msgs s ∧ types_kept (lp_ob s) (lp_ob s') ∧
    ((st = STATUS_INSUFFICIENT_RESOURCES ∧ Ports s' = Ports s ∧
      ∃ ext', lpc_inv s' ext' F ∧ ∀ a, is_Some (ObHeaders (lp_ob s) !! a) → ext' a = ext a) ∨
     ∃ h x, st = STATUS_SUCCESS ∧ ObHeaders (lp_ob s) !! h = None ∧
       Ports s' = <[HEADER_TO_BODY h := server_port name]> (Ports s) ∧ lpc_inv s' (fresh_ext ext h) F ∧
       HANDLE_TO_INDEX H < OBP_HANDLE_TABLE_SIZE ∧ table_get (HANDLE_TO_INDEX H) (lp_ob s') = HEADER_TO_BODY h ∧
       ObHeaders (lp_ob s') = <[h := x]> (ObHeaders (lp_ob s)) ∧ Type_ x = 0).
Proof.
  intros Hi. destruct (new_port_run s ext F 0 (Some name) Hi ltac:(by left)) as (st & port & o & Hr & Hk & Hc).
  unfold NtCreatePort. cbn [negb]. rewrite (bind_ok _ _ _ _ _ Hr).
  destruct Hc as [(-> & Hi1 & Hh)|(h & -> & -> & Hn & Hi1 & Hpn & Hh & Hev)].
  { eexists _, _, _. split; [reflexivity|]. split_and!; [done..|]. left. split_and!; [done..|]. by exists ext. }
  change (NT_SUCCESS STATUS_SUCCESS) with true. cbn [negb]. set (port := HEADER_TO_BODY h) in *.
  assert (BODY_TO_HEADER port = h) as Hb by apply b2h_body. set (s1 := set_lp_ob o s) in *.
  assert (ObHeaders (lp_ob s1) !! h = Some (mkHdr 1 0 0 (stored_name (Some name)))) as Hx by (cbn; rewrite Hh; apply lookup_insert_eq).
  destruct (init_port_run s1 _ F port (server_port name) Hi1) as (c & Hr2 & Hi2 & _); [rewrite Hb; eauto|done|exact Hev|].
  cbv zeta in Hr2, Hi2. set (s2 := mkLpc _ _ c _ _ _) in *. rewrite (bind_ok _ _ _ _ _ Hr2).
  destruct (insert_port_run s2 _ F port _ Hi2 ltac:(rewrite Hb; exact Hx)) as (st & H & o3 & Hr3 & Hk3 & Hi3 & Hc3).
  rewrite (bind_ok _ _ _ _ _ Hr3). destruct Hc3 as [(-> & ->)|(-> & Hidx & Hget & x' & Hh3 & Htx & _)].
  - change (NT_SUCCESS STATUS_INSUFFICIENT_RESOURCES) with false. cbn [negb]. rewrite set_ob_same in *.
    destruct (deref_port_run s2 _ F port (server_port name) _ Hi2 ltac:(apply lookup_insert_eq) ltac:(rewrite Hb; exact Hx)) as (s4 & Hr4 & Hi4 & Hm4 & _ & _ & Hp4).
    { rewrite Hb. unfold fresh_ext. rewrite Z.eqb_refl. lia. }
    rewrite (bind_ok _ _ _ _ _ Hr4). eexists _, _, s4. split; [reflexivity|]. split_and!; [done| |left; split_and!; [done| |]].
    + eapply types_kept_trans; [exact Hk|]. exact (deref_port_types _ _ _ Hr4).
    + destruct Hp4 as [-> _]. cbn. by rewrite delete_insert_id.
    + eexists. split; [exact Hi4|]. intros a Ha. unfold bump, fresh_ext. rewrite Hb.
      destruct (Z.eqb_spec a h) as [->|]; [|done]. rewrite Hn in Ha. by destruct Ha.
  - change (NT_SUCCESS STATUS_SUCCESS) with true. cbn [negb]. exists STATUS_SUCCESS, H, (set_lp_ob o3 s2). split_and!; try done.
    { eapply types_kept_trans; [exact Hk|exact Hk3]. }
    right. exists h, x'. split_and!; try done. cbn. rewrite Hh3, Hb. cbn. rewrite Hh. apply insert_insert_eq.
Qed.

(** Creating a port, and what becomes of its server.  With memory and a free handle
    the port is made with an empty queue and no connection, under the given name and a new
    handle; otherwise nothing is left behind.  The object is made without a type, while
    NtReplyWaitReceivePort asks for the port type: on the handle it was given, the server
    is denied access whatever it replies, so it never receives a message.  One reference
    is held by nobody: closing the handle does not free the port. *)
Theorem lpc_create_spec s ext F name :
  lpc_inv s ext F → LpcPortObjectType (lp_ob s) ≠ 0 →
  ∃ st H s', NtCreatePort true (Some name) s = Ok ((st, H), s') ∧
    ((st = STATUS_INSUFFICIENT_RESOURCES ∧ Ports s' = Ports s ∧ ∃ ext', lpc_inv s' ext' F) ∨
     (st = STATUS_SUCCESS ∧ ∃ port, Ports s !! port = None ∧ Ports s' = <[port := server_port name]> (Ports s) ∧
        lpc_inv s' (fresh_ext ext (BODY_TO_HEADER port)) F ∧
        ∀ reply, NtReplyWaitReceivePort H reply s' = Ok ((STATUS_ACCESS_DENIED, []), s'))).
Proof.
  intros Hi Hty. destruct (create_port_run s ext F name Hi) as (st & H & s' & Hr & _ & [Hk _] & Hc). exists st, H, s'. split; [done|].
  destruct Hc as [(-> & Hp & ext' & Hi' & _)|(h & x & -> & Hn & Hp & Hi' & Hidx & Hget & Hx & Htx)]; [left; eauto|right].
  assert (ObHeaders (lp_ob s') !! h = Some x) as Hx' by (rewrite Hx; apply lookup_insert_eq).
  split; [done|]. exists (HEADER_TO_BODY h). rewrite b2h_body. split_and!; [|done..|].
  - apply eq_None_not_Some. intros [p Hpp]. apply (li_ports _ _ _ Hi) in Hpp as [[y Hy] _]. rewrite b2h_body in Hy. congruence.
  - intros reply. unfold NtReplyWaitReceivePort. unfold mbind at 1, M_bind at 1. cbn [mgets]. rewrite Hk.
    pose proof (reference_port s' _ F H (LpcPortObjectType (lp_ob s)) x Hi' Hidx) as Hd. rewrite Hget, b2h_body in Hd. cbv zeta in Hd.
    rewrite Htx, (proj2 (Z.eqb_neq 0 _)) in Hd by done.
    rewrite (bind_ok _ _ _ _ _ (Hd (body_nonzero _ _ _ _ _ Hi' Hx') ltac:(unfold fresh_ext; rewrite Z.eqb_refl; lia) Hx' Hty)). done.
Qed.

Definition client_port (server : Z) : LPC_PORT :=
  mkPort LPC_PORT_TYPE (mkUS 0 0 []) server 0 LPC_PORT_FLAG_NEVER_DISCONNECT.
Definition attached (client : Z) (sp : LPC_PORT) : LPC_PORT := if ConnectedPort sp =? 0 then with_connected client sp else sp.

Definition without (ext : Z → Z) (h : Z) : Z → Z := λ a, if a =? h then 0 else ext a.

Lemma fresh_gone ext h h' : h ≠ h' → ∀ a, bump (without ext h) h' 1 a = bump (fresh_ext (bump ext h' 1) h) h (-1) a.
Proof. intros Hne a. unfold bump, without, fresh_ext. destruct (Z.eqb_spec a h) as [->|]; [|done]. by destruct (Z.eqb_spec h h'). Qed.

(** The end of NtConnectPort: both references are given back. *)
Lemma connect_end s ext F hc hs x xc pc ps :
  0 < PointerCount x < 9223372036854775807 ∧ 0 ≤ ext hs → hc ≠ hs → 0 < PointerCount xc →
  lpc_inv s (fresh_ext (bump ext hs 1) hc) F → Ports s !! HEADER_TO_BODY hc = Some pc → Ports s !! HEADER_TO_BODY hs = Some ps →
  ObHeaders (lp_ob s) !! hc = Some xc → ObHeaders (lp_ob s) !! hs = Some (ref_hdr x 1) →
  ∃ s1 s2, deref_port (HEADER_TO_BODY hc) s = Ok (tt, s1) ∧ deref_port (HEADER_TO_BODY hs) s1 = Ok (tt, s2) ∧
    lpc_inv s2 (without ext hc) F ∧ Msgs s2 = Msgs s ∧ ObpHandleTable (lp_ob s2) = ObpHandleTable (lp_ob s) ∧
    if PointerCount xc =? 1 then Ports s2 = delete (HEADER_TO_BODY hc) (Ports s)
    else Ports s2 = Ports s ∧ ObHeaders (lp_ob s2) !! hc = Some (ref_hdr xc (-1)).
Proof.
  intros Hx Hne Hxc Hi Hpc Hps Hhc Hhs. assert (HEADER_TO_BODY hc ≠ HEADER_TO_BODY hs) as Hneb by (unfold HEADER_TO_BODY; lia).
  destruct (deref_port_run s _ F (HEADER_TO_BODY hc) pc xc Hi Hpc) as (s1 & Hr1 & Hi1 & Hm1 & _ & Ht1 & Hc1); [by rewrite b2h_body| |].
  { rewrite b2h_body. unfold fresh_ext. rewrite Z.eqb_refl. lia. }
  rewrite b2h_body in Hi1, Hc1. apply (lpc_ext _ _ _ _ (fresh_gone ext hc hs Hne)) in Hi1.
  assert (Ports s1 !! HEADER_TO_BODY hs = Some ps) as Hps1.
  { destruct (PointerCount xc =? 1); destruct Hc1 as [-> _]; [by rewrite lookup_delete_ne|done]. }
  assert (ObHeaders (lp_ob s1) !! hs = Some (ref_hdr x 1)) as Hhs1.
  { destruct (PointerCount xc =? 1); destruct Hc1 as [_ ->]; [by rewrite lookup_delete_ne|by rewrite lookup_insert_ne]. }
  destruct (unreference_port s1 (without ext hc) F (HEADER_TO_BODY hs) ps x) as (s2 & Hr2 & Hi2 & Hm2 & Hp2 & Ht2 & Hh2); try done.
  { rewrite b2h_body. unfold without. by destruct (Z.eqb_spec hs hc); [lia|]. }
  { by rewrite b2h_body. }
  { by rewrite b2h_body. }
  rewrite b2h_body in Hh2. exists s1, s2. split_and!; [done..|congruence|congruence|]. rewrite Hp2, Hh2.
  destruct (PointerCount xc =? 1); destruct Hc1 as [-> Hh]; [done|]. split; [done|]. rewrite lookup_insert_ne, Hh by done. apply lookup_insert_eq.
Qed.

(** The new client port on its way to a handle. *)
Definition connect_tail (server client : Z) : M L (Z * Z) :=
  init_port client (client_port server);;
  attach server client;;
  '(status, h) ← ob (ObInsertHandle client);
  if negb (NT_SUCCESS status) then deref_port client;; deref_port server;; mret (status, 0)
  else deref_port client;; deref_port server;; mret (STATUS_SUCCESS, h).

Lemma connect_tail_run s ext F hc hs x sp ty nm :
  let client := HEADER_TO_BODY hc in let server := HEADER_TO_BODY hs in
  0 < PointerCount x < 9223372036854775807 ∧ 0 ≤ ext hs → lpc_inv s (fresh_ext (bump ext hs 1) hc) F →
  ObHeaders (lp_ob s) !! hc = Some (mkHdr 1 0 ty nm) → ObHeaders (lp_ob s) !! hs = Some (ref_hdr x 1) → hc ≠ hs →
  Ports s !! server = Some sp → Ports s !! client = None →
  (∀ e, Objects (lp_sched s) !! MsgEvent client = Some e → WaitListHead e = []) →
  ∃ st H s', connect_tail server client s = Ok ((st, H), s') ∧ Msgs s' = Msgs s ∧ lpc_inv s' (without ext hc) F ∧
    types_kept (lp_ob s) (lp_ob s') ∧
    ((st = STATUS_INSUFFICIENT_RESOURCES ∧ Ports s' = <[server := attached client sp]> (Ports s)) ∨
     ∃ x, st = STATUS_SUCCESS ∧ Ports s' = <[server := attached client sp]> (<[client := client_port server]> (Ports s)) ∧
       HANDLE_TO_INDEX H < OBP_HANDLE_TABLE_SIZE ∧ table_get (HANDLE_TO_INDEX H) (lp_ob s') = client ∧
       ObHeaders (lp_ob s') !! hc = Some x ∧ Type_ x = ty).
Proof.
  intros client server Hcnt Hi Hhc Hhs Hne Hsp Hcn Hev. assert (BODY_TO_HEADER client = hc) as Hbc by apply b2h_body.
  assert (client ≠ server) as Hncs by (intros E; congruence).
  destruct (init_port_run s _ F client (client_port server) Hi) as (c & Hr1 & Hi1 & _); [rewrite Hbc; eauto|done|done|].
  cbv zeta in Hr1, Hi1. set (s1 := mkLpc _ _ c _ _ _) in *. unfold connect_tail. rewrite (bind_ok _ _ _ _ _ Hr1).
  assert (Ports s1 !! server = Some sp) as Hsp1 by (cbn; by rewrite lookup_insert_ne).
  destruct (attach_run s1 _ F server client sp Hi1 Hsp1) as [Hr2 Hi2]. fold (attached client sp) in Hr2, Hi2. set (s2 := set_Ports _ s1) in *.
  rewrite (bind_ok _ _ _ _ _ Hr2).
  destruct (insert_port_run s2 _ F client _ Hi2 ltac:(rewrite Hbc; exact Hhc)) as (st & H & o & Hr3 & Hk3 & Hi3 & Hc3).
  rewrite (bind_ok _ _ _ _ _ Hr3). set (s3 := set_lp_ob o s2) in *. rewrite Hbc in Hc3.
  assert (Ports s3 !! client = Some (client_port server)) as Hpc3 by (cbn; rewrite lookup_insert_ne by done; apply lookup_insert_eq).
  assert (Ports s3 !! server = Some (attached client sp)) as Hps3 by (apply lookup_insert_eq).
  destruct Hc3 as [(-> & ->)|(-> & Hidx & Hget & x' & Hh3 & Htx & Hgt)].
  - destruct (connect_end s3 ext F hc hs x (mkHdr 1 0 ty nm) _ _ Hcnt Hne ltac:(cbn; lia) Hi3 Hpc3 Hps3 Hhc Hhs) as (s4 & s5 & Hr4 & Hr5 & Hi5 & Hm5 & _ & Hp5).
    change (NT_SUCCESS STATUS_INSUFFICIENT_RESOURCES) with false. cbn [negb].
    fold client in Hr4. fold server in Hr5. rewrite (bind_ok _ _ _ _ _ Hr4), (bind_ok _ _ _ _ _ Hr5).
    eexists _, _, s5. split; [reflexivity|]. split_and!; [done..| |].
    { eapply types_kept_trans; [exact (deref_port_types _ _ _ Hr4)|exact (deref_port_types _ _ _ Hr5)]. }
    left. split; [done|]. rewrite Hp5. cbn.
    fold client. rewrite delete_insert_ne by done. by rewrite delete_insert_id.
  - assert (ObHeaders (lp_ob s3) !! hc = Some x') as Hhc3 by (cbn; rewrite Hh3; apply lookup_insert_eq).
    assert (ObHeaders (lp_ob s3) !! hs = Some (ref_hdr x 1)) as Hhs3 by (cbn; by rewrite Hh3, lookup_insert_ne).
    destruct (connect_end s3 ext F hc hs x x' _ _ Hcnt Hne ltac:(lia) Hi3 Hpc3 Hps3 Hhc3 Hhs3) as (s4 & s5 & Hr4 & Hr5 & Hi5 & Hm5 & Ht5 & Hp5).
    change (NT_SUCCESS STATUS_SUCCESS) with true. cbn [negb].
    fold client in Hr4. fold server in Hr5. rewrite (bind_ok _ _ _ _ _ Hr4), (bind_ok _ _ _ _ _ Hr5).
    eexists _, H, s5. split; [reflexivity|]. split_and!; [done..| |].
    { eapply types_kept_trans; [exact Hk3|]. eapply types_kept_trans; [exact (deref_port_types _ _ _ Hr4)|exact (deref_port_types _ _ _ Hr5)]. }
    right. rewrite (proj2 (Z.eqb_neq _ 1)) in Hp5 by lia. destruct Hp5 as [Hp5 Hx5].
    exists (ref_hdr x' (-1)). split_and!; [done|by rewrite Hp5|done| |exact Hx5|exact Htx]. unfold table_get in *. by rewrite Ht5.
Qed.

(** What connecting to the port of a name does. *)
Definition connect_effect s (ext : Z → Z) (F : gmap Z Z) (name : UNICODE_STRING) (st H : Z) (s' : L) : Prop :=
  let ty := LpcPortObjectType (lp_ob s) in
  (st = STATUS_OBJECT_NAME_NOT_FOUND ∧ s' = s) ∨
  ∃ server sp, named_match (lp_ob s) name (BODY_TO_HEADER server) ∧ Ports s !! server = Some sp ∧
    ((st = STATUS_INSUFFICIENT_RESOURCES ∧ (∃ ext', lpc_inv s' ext' F) ∧
      (Ports s' = Ports s ∨ ∃ client, Ports s' !! client = None ∧ Ports s' = <[server := attached client sp]> (Ports s))) ∨
     ∃ client x, st = STATUS_SUCCESS ∧ Ports s !! client = None ∧ lpc_inv s' (without ext (BODY_TO_HEADER client)) F ∧
       types_kept (lp_ob s) (lp_ob s') ∧
       Ports s' = <[server := attached client sp]> (<[client := client_port server]> (Ports s)) ∧
       HANDLE_TO_INDEX H < OBP_HANDLE_TABLE_SIZE ∧ table_get (HANDLE_TO_INDEX H) (lp_ob s') = client ∧
       ObHeaders (lp_ob s') !! BODY_TO_HEADER client = Some x ∧ Type_ x = ty).

Lemma connect_port_run s ext F name :
  let ty := LpcPortObjectType (lp_ob s) in
  lpc_inv s ext F → is_Some (ObTypes (lp_ob s) !! ty) → (∀ a, ext a + 1 < 4611686018427387904) →
  (∀ h, h ∈ ObpNamedObjectHead (lp_ob s) → named_match (lp_ob s) name h → is_Some (Ports s !! HEADER_TO_BODY h)) →
  ∃ st H s', NtConnectPort true (Some name) s = Ok ((st, H), s') ∧ Msgs s' = Msgs s ∧ connect_effect s ext F name st H s'.
Proof.
  intros ty Hi Hty Hext Hport. unfold connect_effect, NtConnectPort. cbn [negb].
  destruct (lookup_run (PI := pool_frame PI F) DeleteProc (lp_ob s) ext name (li_ob _ _ _ Hi) (li_pcr _ _ _ Hi))
    as [(l1 & hs & x & l2 & Hl & Hx & Hm & _ & Hr)|[_ Hr]].
  2: { erewrite bind_ok; [|unfold ob; apply zoom_ok; exact Hr]. rewrite set_ob_same. eexists _, _, s. split; [reflexivity|]. split; [done|by left]. }
  assert (named_match (lp_ob s) name hs) as Hnm by (by exists x).
  destruct (Hport hs) as [sp Hsp]; [rewrite Hl; apply elem_of_app; right; left|done|]. set (server := HEADER_TO_BODY hs) in *.
  assert (BODY_TO_HEADER server = hs) as Hbs by apply b2h_body.
  set (s1 := set_lp_ob (with_hdr hs (ref_hdr x 1) (lp_ob s)) s).
  assert (ob (ObLookupObjectByName name) s = Ok ((STATUS_SUCCESS, server), s1)) as Hr1 by (unfold ob; by apply zoom_ok).
  rewrite (bind_ok _ _ _ _ _ Hr1). change (NT_SUCCESS STATUS_SUCCESS) with true. cbn [negb].
  assert (lpc_inv s1 (bump ext hs 1) F) as Hi1.
  { apply (ob_change_inv s ext); [done| |done|apply insert_grows]. exact (ref_wf (PI := pool_frame PI F) DeleteProc _ _ _ _ (li_ob _ _ _ Hi) Hx (Hext hs)). }
  unfold mbind at 1, M_bind at 1. cbn [mgets]. change (LpcPortObjectType (lp_ob s1)) with ty.
  assert (ObHeaders (lp_ob s1) !! hs = Some (ref_hdr x 1)) as Hx1 by apply lookup_insert_eq. pose proof (hdr_count _ _ _ _ _ Hi Hx) as Hcnt.
  destruct (new_port_run s1 _ F ty None Hi1 ltac:(by right)) as (st & client & o & Hr2 & Hk2 & Hc2).
  rewrite (bind_ok _ _ _ _ _ Hr2).
  destruct Hc2 as [(-> & Hi2 & Hh2)|(hc & -> & -> & Hn & Hi2 & Hpn & Hh2 & Hev)].
  { change (NT_SUCCESS STATUS_INSUFFICIENT_RESOURCES) with false. cbn [negb]. set (s2 := set_lp_ob o s1) in *.
    destruct (unreference_port s2 ext F server sp x) as (s3 & Hr3 & Hi3 & Hm3 & Hp3 & _); [by rewrite Hbs|done|by rewrite Hbs|rewrite Hbs; cbn; by rewrite Hh2|].
    rewrite (bind_ok _ _ _ _ _ Hr3). eexists _, _, s3. split; [reflexivity|]. split; [done|]. right. exists server, sp. rewrite Hbs.
    split_and!; [done..|]. left. split_and!; [done|by exists ext|]. left. done. }
  change (NT_SUCCESS STATUS_SUCCESS) with true. cbn [negb]. fold (client_port server). fold (connect_tail server (HEADER_TO_BODY hc)).
  destruct (connect_tail_run (set_lp_ob o s1) ext F hc hs x sp ty (stored_name None) Hcnt Hi2) as (st & H & s' & Hr3 & Hm3 & Hi3 & Hk3 & Hc3); try done.
  { cbn. rewrite Hh2. apply lookup_insert_eq. }
  { cbn. rewrite Hh2, lookup_insert_ne; [exact Hx1|]. intros ->. congruence. }
  { intros ->. congruence. }
  fold server in Hr3, Hc3. exists st, H, s'. split; [exact Hr3|]. split; [done|]. right. exists server, sp. rewrite Hbs. split_and!; [done..|].
  destruct Hc3 as [(-> & Hp3)|(x' & -> & Hp3 & Hrest)]; [left|right].
  - split_and!; [done|by eexists|]. right. exists (HEADER_TO_BODY hc). split; [|done]. rewrite Hp3, lookup_insert_ne; [done|]. intros E. cbn in Hpn. congruence.
  - exists (HEADER_TO_BODY hc), x'. rewrite b2h_body. split_and!; try apply Hrest; try done. eapply types_kept_trans; [exact Hk2|exact Hk3].
Qed.

(** Connecting to a port.  An unknown name is reported; when memory is short nothing
    changes; with no handle left the new port is freed again, but a server that had no
    connection keeps the pointer to it.  Otherwise the client gets a handle to a new port
    of the port type, connected to the server, with an empty queue, which lives as long as
    the handle; the server remembers its first client; every other port is untouched and
    the references taken on the way are given back. *)
Theorem lpc_connect_spec s ext F name :
  lpc_inv s ext F → is_Some (ObTypes (lp_ob s) !! LpcPortObjectType (lp_ob s)) → (∀ a, ext a + 1 < 4611686018427387904) →
  (∀ h, h ∈ ObpNamedObjectHead (lp_ob s) → named_match (lp_ob s) name h → is_Some (Ports s !! HEADER_TO_BODY h)) →
  ∃ st H s', NtConnectPort true (Some name) s = Ok ((st, H), s') ∧ Msgs s' = Msgs s ∧ connect_effect s ext F name st H s'.
Proof. apply connect_port_run. Qed.

(** ** Requests *)

Definition request_ok (msg : list Z) : Prop :=
  Forall byte msg ∧ 0 ≤ TotalLength msg ≤ sizeof_LPC_MESSAGE ∧ TotalLength msg ≤ Z.of_nat (length msg).

(** What the server is sent: the request's bytes on a cleared block. *)
Definition copied (msg : list Z) : list Z :=
  splice 0 (take (Z.to_nat (TotalLength msg)) msg) (replicate (Z.to_nat sizeof_LPC_MESSAGE) 0).

Lemma copied_ok msg : request_ok msg →
  copy_msg (TotalLength msg) msg (replicate (Z.to_nat sizeof_LPC_MESSAGE) 0) = Some (copied msg) ∧ msg_ok (copied msg).
Proof.
  intros (Hb & H1 & H2). assert (length (take (Z.to_nat (TotalLength msg)) msg) = Z.to_nat (TotalLength msg)) as Hl by (rewrite length_take; lia).
  assert (0 + length (take (Z.to_nat (TotalLength msg)) msg) ≤ length (replicate (Z.to_nat sizeof_LPC_MESSAGE) 0))%nat as Hfit
    by (rewrite Hl, length_replicate; lia). split.
  - unfold copy_msg. destruct (Nat.leb_spec (Z.to_nat (TotalLength msg)) (length msg)); [|lia]. by apply store_at_fits.
  - split; unfold copied.
    + by rewrite splice_length, length_replicate.
    + apply splice_Forall; [by apply Forall_take|]. apply Forall_replicate. unfold byte. lia.
Qed.

Lemma request_image_ok client pid thread m : msg_ok m →
  msg_ok (request_image client pid thread m) ∧ MNext (request_image client pid thread m) = 0.
Proof.
  intros Hm. assert (msg_ok (set_MNext 0 (set_SenderPort client m))) as H1 by (apply msg_store; [apply msg_store; [done|lia]|lia]).
  assert (msg_ok (set_ProcessId pid (set_MNext 0 (set_SenderPort client m)))) as H2 by (apply msg_store; [done|lia]).
  assert (∀ m', msg_ok m' → length m' = 248%nat) as Hlen by by intros m' [? _]. split; [by apply msg_store; [|lia]|].
  unfold request_image, MNext, set_MessageId. rewrite field_kept; [|rewrite (Hlen _ H2); lia|lia].
  unfold set_ProcessId. rewrite field_kept; [|rewrite (Hlen _ H1); lia|lia]. apply next_set; [by apply msg_store; [|lia]|lia].
Qed.

Lemma queue_request_run s ext F client server sp l msg pid :
  lpc_inv s ext F → Ports s !! server = Some sp → msg_chain (Msgs s) (MsgQueueHead sp) l → NoDup l → request_ok msg →
  ∃ q s', queue_request client server msg pid s = Ok (q, s') ∧
    ObHeaders (lp_ob s') = ObHeaders (lp_ob s) ∧ ObpHandleTable (lp_ob s') = ObpHandleTable (lp_ob s) ∧
    ((q = 0 ∧ lpc_inv s' ext F ∧ Ports s' = Ports s ∧ Msgs s' = Msgs s) ∨
     (0 < q ∧ F !! q = None ∧ Msgs s !! q = None ∧ lpc_inv s' ext (<[q := TAG_PCML]> F) ∧
      (∃ h, Ports s' = <[server := with_head h sp]> (Ports s) ∧ msg_chain (Msgs s') h (l ++ [q])) ∧
      Msgs s' !! q = Some (request_image client pid (CurrentThread (lp_sched s)) (copied msg)) ∧
      ∀ a, a ∉ l → a ≠ q → Msgs s' !! a = Msgs s !! a)).
Proof.
  intros Hi Hsp Hch Hnd Hmsg. destruct (copied_ok msg Hmsg) as [Hcopy Hcok].
  destruct (alloc_msg s ext F Hi) as (q & p & Hr & Hc). cbv zeta in Hr, Hc. set (s1 := set_lp_ob _ s) in *.
  unfold queue_request. rewrite (bind_ok _ _ _ _ _ Hr).
  destruct Hc as [(-> & Hi1)|(Hq & HF & Hi1)]; [eexists 0, s1; split; [done|]; split_and!; [done..|by left]|].
  destruct (Z.eqb_spec q 0); [lia|]. rewrite (deref_bind (λ _, copy_msg _ _ _) _ s1 _ Hcopy).
  set (img := request_image client pid (CurrentThread (lp_sched s)) (copied msg)).
  destruct (request_image_ok client pid (CurrentThread (lp_sched s)) (copied msg) Hcok) as [Hok Hn0]. fold img in Hok, Hn0.
  set (s2 := set_Msgs (<[q := img]> (Msgs s1)) s1).
  assert (lpc_inv s2 ext (<[q := TAG_PCML]> F)) as Hi2 by (apply put_msg_inv; [done|apply lookup_insert_eq|done]).
  assert (Msgs s !! q = None) as Hqn by (apply eq_None_not_Some; intros [m Hm]; apply (li_msgs _ _ _ Hi) in Hm as [? _]; congruence).
  assert (q ∉ l) as Hql by (intros Hin; destruct (chain_live _ _ _ _ _ Hi Hch q Hin) as (m & Hm & _); congruence).
  destruct (enqueue_run s2 ext _ server sp l q img Hi2 Hsp) as (c & ps & ms & Hr3 & Hi3 & (h & -> & Hch3) & Hms & _); try done.
  { apply (next_chain_mono _ (Msgs s)); [|done]. intros v Hv. apply lookup_insert_ne. by intros ->. }
  { apply lookup_insert_eq. }
  exists q. eexists. split; [|split_and!; [..|right; split_and!; [done|done|done|exact Hi3|by exists h| |]]]; [| done..| |].
  - unfold mbind at 1, M_bind at 1. cbn [mgets]. change (CurrentThread (lp_sched s1)) with (CurrentThread (lp_sched s)). fold img.
    rewrite (bind_ok (put_msg q img) _ s1 tt s2 eq_refl). by rewrite (bind_ok _ _ _ _ _ Hr3).
  - cbn. rewrite (Hms q Hql). apply lookup_insert_eq.
  - intros a Ha Hne. cbn. rewrite (Hms a Ha). by apply lookup_insert_ne.
Qed.

Lemma hand_over_run s ext F a m :
  lpc_inv s ext F → Msgs s !! a = Some m → TotalLength m ≤ sizeof_LPC_MESSAGE →
  ∃ p, let s' := set_Msgs (delete a (Msgs s)) (set_lp_ob (set_ob_pool p (lp_ob s)) s) in
    hand_over a s = Ok (take (Z.to_nat (TotalLength m)) m, s') ∧ lpc_inv s' ext (delete a F).
Proof.
  intros Hi Hm Hle. destruct (li_msgs _ _ _ Hi _ _ Hm) as (HF & Hl & _). destruct (free_msg_run s ext F a Hi HF) as (p & Hr & Hi').
  exists p. cbv zeta in *. split; [|done]. unfold hand_over, get_msg. rewrite (deref_bind (λ s, Msgs s !! a) _ _ _ Hm).
  destruct (Nat.leb_spec (Z.to_nat (TotalLength m)) (length m)); [|rewrite Hl in *; lia].
  erewrite (deref_bind (λ _, Some _)) by reflexivity. by rewrite (bind_ok _ _ _ _ _ Hr).
Qed.

Section Request.
Context (s : L) (ext : Z → Z) (F : gmap Z Z) (H : Z) (x : OBJECT_HEADER) (cp : LPC_PORT).
Let port := table_get (HANDLE_TO_INDEX H) (lp_ob s).
Let h := BODY_TO_HEADER port.
Let ty := LpcPortObjectType (lp_ob s).

(** A handle to a port of the port type, with its owner's queue. *)
Record port_handle : Prop := {
  ph_inv : lpc_inv s ext F;
  ph_index : HANDLE_TO_INDEX H < OBP_HANDLE_TABLE_SIZE;
  ph_body : port ≠ 0;
  ph_count : ext h + 1 < 4611686018427387904;
  ph_hdr : ObHeaders (lp_ob s) !! h = Some x;
  ph_type : ty ≠ 0 ∧ Type_ x = ty;
  ph_port : Ports s !! port = Some cp
}.

Lemma open_port : port_handle →
  let s1 := set_lp_ob (with_hdr h (ref_hdr x 1) (lp_ob s)) s in
  ob (ObReferenceObjectByHandle DeleteProc H ty) s = Ok ((STATUS_SUCCESS, port), s1) ∧ lpc_inv s1 (bump ext h 1) F ∧
  ObHeaders (lp_ob s1) !! h = Some (ref_hdr x 1) ∧ PType cp = LPC_PORT_TYPE.
Proof.
  intros [Hi Hidx Hb He Hx [Hty Ht] Hp]. pose proof (reference_port s ext F H ty x Hi Hidx Hb He Hx Hty) as Hr. cbv zeta in Hr.
  rewrite Ht, Z.eqb_refl in Hr. cbv zeta. split_and!; [apply Hr|apply Hr|apply lookup_insert_eq|].
  by apply (li_ports _ _ _ Hi) in Hp as (_ & ? & _).
Qed.

(** What a request does, for a client that is connected to another port.  [l] is
    the server's queue and [r] what already waits at the client. *)
Definition request_effect (server : Z) (sp : LPC_PORT) (l r : list Z) (msg : list Z) (pid st : Z) (out : list Z) (s' : L) : Prop :=
  (st = STATUS_NO_MEMORY ∧ out = [] ∧ lpc_inv s' ext F ∧ Ports s' = Ports s ∧ Msgs s' = Msgs s) ∨
  ∃ q hd, Msgs s !! q = None ∧
    match r with
    | [] =>
        st = STATUS_TIMEOUT ∧ out = [] ∧ lpc_inv s' ext F ∧ Msgs s' !! q = None ∧
        Ports s' !! server = Some (with_head hd sp) ∧ ∀ l', ¬ msg_chain (Msgs s') hd l'
    | r0 :: rs =>
        st = STATUS_SUCCESS ∧ (∃ m, Msgs s !! r0 = Some m ∧ out = take (Z.to_nat (TotalLength m)) (set_MNext 0 m)) ∧
        lpc_inv s' ext (delete r0 (<[q := TAG_PCML]> F)) ∧
        Ports s' !! server = Some (with_head hd sp) ∧ msg_chain (Msgs s') hd (l ++ [q]) ∧
        Msgs s' !! q = Some (request_image port pid (CurrentThread (lp_sched s)) (copied msg)) ∧
        ∃ hd', Ports s' !! port = Some (with_head hd' cp) ∧ msg_chain (Msgs s') hd' rs
    end.

Context (Hph : port_handle).
Let s1 := set_lp_ob (with_hdr h (ref_hdr x 1) (lp_ob s)) s.

(** The call up to the point where the request is queued. *)
Lemma request_unfold msg pid :
  ConnectedPort cp ≠ 0 →
  NtRequestWaitReplyPort H (Some msg) true pid s =
    (queuedMsg ← queue_request port (ConnectedPort cp) msg pid;
     if queuedMsg =? 0 then deref_port port;; mret (STATUS_NO_MEMORY, [])
     else
       r ← loop (poll_turn 10000 port) 0;
       match r with
       | None => deref_port port;; free_msg queuedMsg;; mret (STATUS_TIMEOUT, [])
       | Some replyMsg => out ← hand_over replyMsg; deref_port port;; mret (STATUS_SUCCESS, out)
       end) s1.
Proof.
  intros Hc. destruct (open_port Hph) as (Hr & _ & _ & Ht). unfold NtRequestWaitReplyPort. cbn [negb].
  unfold mbind at 1, M_bind at 1. cbn [mgets]. fold ty. rewrite (bind_ok _ _ _ _ _ Hr). cbn [negb].
  change (NT_SUCCESS STATUS_SUCCESS) with true. cbn [negb]. unfold get_port.
  rewrite (deref_bind (λ s, Ports s !! port) _ s1 cp (ph_port Hph)). rewrite Ht, Z.eqb_refl. cbn [negb].
  by destruct (Z.eqb_spec (ConnectedPort cp) 0).
Qed.

Lemma request_empty sp l msg pid :
  let server := ConnectedPort cp in
  server ≠ 0 → server ≠ port → Ports s !! server = Some sp → msg_chain (Msgs s) (MsgQueueHead sp) l → NoDup l →
  request_ok msg → MsgQueueHead cp = 0 →
  ∃ st out s', NtRequestWaitReplyPort H (Some msg) true pid s = Ok ((st, out), s') ∧
    request_effect server sp l [] msg pid st out s'.
Proof.
  intros server Hs0 Hsp Hport Hch Hnd Hmsg Hempty. rewrite request_unfold by done.
  destruct (open_port Hph) as (_ & Hi1 & Hx1 & _). pose proof (ph_inv Hph) as Hi.
  destruct (queue_request_run s1 _ F port server sp l msg pid Hi1 Hport Hch Hnd Hmsg) as (q & s2 & Hr & Hh & Ht & Hc).
  fold server. rewrite (bind_ok _ _ _ _ _ Hr).
  assert (ObHeaders (lp_ob s2) !! h = Some (ref_hdr x 1)) as Hx2 by (by rewrite Hh).
  destruct Hc as [(-> & Hi2 & Hp & Hm)|(Hq & HF & Hqn & Hi2 & (hd & Hp & Hch2) & Hmq & Hms)].
  - destruct (unreference_port s2 ext F port cp x (hdr_count _ _ _ _ _ Hi (ph_hdr Hph)) ltac:(rewrite Hp; apply (ph_port Hph)) Hi2 Hx2) as (s3 & Hr3 & Hi3 & Hm3 & Hp3 & _).
    cbn. rewrite (bind_ok _ _ _ _ _ Hr3). eexists _, _, s3. split; [reflexivity|]. left. split_and!; [done..|by rewrite Hp3, Hp|by rewrite Hm3, Hm].
  - destruct (Z.eqb_spec q 0); [lia|].
    assert (Ports s2 !! port = Some cp) as Hcp by (rewrite Hp, lookup_insert_ne by done; apply (ph_port Hph)).
    rewrite (bind_ok _ _ _ _ _ (poll_empty s2 _ _ port cp 10000 Hi2 Hcp Hempty ltac:(lia))).
    destruct (unreference_port s2 ext _ port cp x (hdr_count _ _ _ _ _ Hi (ph_hdr Hph)) Hcp Hi2 Hx2) as (s3 & Hr3 & Hi3 & Hm3 & Hp3 & _).
    rewrite (bind_ok _ _ _ _ _ Hr3).
    destruct (free_msg_run s3 ext _ q Hi3 ltac:(apply lookup_insert_eq)) as (p & Hr4 & Hi4). cbv zeta in Hr4, Hi4.
    set (s4 := set_Msgs _ _) in *. rewrite (bind_ok _ _ _ _ _ Hr4). eexists _, _, s4. split; [reflexivity|]. right. exists q, hd.
    rewrite delete_insert_id in Hi4 by done.
    assert (Msgs s4 = delete q (Msgs s2)) as Hm4 by (cbn; by rewrite Hm3). assert (Ports s4 = Ports s2) as Hp4 by done.
    split_and!; try done.
    + rewrite Hm4. apply lookup_delete_eq.
    + rewrite Hp4, Hp. apply lookup_insert_eq.
    + rewrite Hm4. apply (next_chain_break _ _ _ _ _ Hch2). apply elem_of_app. right. left.
Qed.

Lemma request_pending sp l r0 rs m msg pid :
  let server := ConnectedPort cp in
  server ≠ 0 → server ≠ port → Ports s !! server = Some sp → msg_chain (Msgs s) (MsgQueueHead sp) l → NoDup l →
  request_ok msg → msg_chain (Msgs s) (MsgQueueHead cp) (r0 :: rs) → NoDup (r0 :: rs) → (∀ a, a ∈ r0 :: rs → a ∉ l) →
  Msgs s !! r0 = Some m → TotalLength m ≤ sizeof_LPC_MESSAGE →
  ∃ st out s', NtRequestWaitReplyPort H (Some msg) true pid s = Ok ((st, out), s') ∧
    request_effect server sp l (r0 :: rs) msg pid st out s'.
Proof.
  intros server Hs0 Hsp Hport Hch Hnd Hmsg Hcr [Hnd0 Hndr]%NoDup_cons Hdis Hm0 Hlen. rewrite request_unfold by done.
  destruct (open_port Hph) as (_ & Hi1 & Hx1 & _). pose proof (ph_inv Hph) as Hi.
  inversion Hcr as [|? m' ? Hr0 Hm' Hcrs]; subst. rewrite Hm0 in Hm'. injection Hm' as <-.
  destruct (queue_request_run s1 _ F port server sp l msg pid Hi1 Hport Hch Hnd Hmsg) as (q & s2 & Hr & Hh & Ht & Hc).
  fold server. rewrite (bind_ok _ _ _ _ _ Hr).
  assert (ObHeaders (lp_ob s2) !! h = Some (ref_hdr x 1)) as Hx2 by (by rewrite Hh).
  destruct Hc as [(-> & Hi2 & Hp & Hm)|(Hq & HF & Hqn & Hi2 & (hd & Hp & Hch2) & Hmq & Hms)].
  - destruct (unreference_port s2 ext F port cp x (hdr_count _ _ _ _ _ Hi (ph_hdr Hph)) ltac:(rewrite Hp; apply (ph_port Hph)) Hi2 Hx2) as (s3 & Hr3 & Hi3 & Hm3 & Hp3 & _).
    cbn. rewrite (bind_ok _ _ _ _ _ Hr3). eexists _, _, s3. split; [reflexivity|]. left. split_and!; [done..|by rewrite Hp3, Hp|by rewrite Hm3, Hm].
  - destruct (Z.eqb_spec q 0); [lia|]. change (Msgs s1) with (Msgs s) in *.
    assert (Ports s2 !! port = Some cp) as Hcp by (rewrite Hp, lookup_insert_ne by done; apply (ph_port Hph)).
    assert (∀ a, a ∈ MsgQueueHead cp :: rs → Msgs s2 !! a = Msgs s !! a) as Hkeep.
    { intros a Ha. apply Hms; [by apply Hdis|]. intros ->. destruct (chain_live _ _ _ _ _ Hi Hcr q Ha) as (? & ? & _). congruence. }
    assert (Msgs s2 !! MsgQueueHead cp = Some m) as Hm2 by (rewrite Hkeep; [done|left]).
    destruct (poll_some s2 _ _ port cp _ m 10000 Hi2 Hcp eq_refl Hr0 Hm2) as [Hr3 Hi3]. rewrite (bind_ok _ _ _ _ _ Hr3).
    set (s3 := section_upd _ _ _ s2) in *.
    assert (msg_ok m) as Hmok by (by apply (msgs_kept _ _ _ _ _ Hi Hm0)).
    assert (TotalLength (set_MNext 0 m) = TotalLength m) as Htl 
      by (apply field_kept; [rewrite (proj1 Hmok); change (Z.to_nat sizeof_LPC_MESSAGE) with 248%nat|]; lia).
    destruct (hand_over_run s3 _ _ (MsgQueueHead cp) (set_MNext 0 m) Hi3 ltac:(apply lookup_insert_eq) ltac:(by rewrite Htl)) as (p & Hr4 & Hi4).
    cbv zeta in Hr4, Hi4. rewrite Htl in Hr4. rewrite (bind_ok _ _ _ _ _ Hr4). set (s4 := set_Msgs _ _) in *.
    destruct (unreference_port s4 ext _ port _ x (hdr_count _ _ _ _ _ Hi (ph_hdr Hph)) ltac:(apply lookup_insert_eq) Hi4 Hx2) as (s5 & Hr5 & Hi5 & Hm5 & Hp5 & _).
    rewrite (bind_ok _ _ _ _ _ Hr5). eexists _, _, s5. split; [reflexivity|]. right. exists q, hd.
    change (Ports s4) with (<[port := with_head (MNext m) cp]> (Ports s2)) in Hp5.
    change (Msgs s4) with (delete (MsgQueueHead cp) (<[MsgQueueHead cp := set_MNext 0 m]> (Msgs s2))) in Hm5. rewrite delete_insert_eq in Hm5.
    assert (MsgQueueHead cp ≠ q) as Hrq by (intros <-; congruence).
    split_and!; try done; [by exists m| | |by rewrite Hm5, lookup_delete_ne|].
    + rewrite Hp5, lookup_insert_ne by done. rewrite Hp. apply lookup_insert_eq.
    + apply (next_chain_mono _ (Msgs s2)); [|done]. intros v Hv. rewrite Hm5. apply lookup_delete_ne. intros <-.
      apply elem_of_app in Hv as [Hv|Hv%list_elem_of_singleton]; [|done]. by apply (Hdis (MsgQueueHead cp)); [left|].
    + exists (MNext m). split; [rewrite Hp5; apply lookup_insert_eq|]. apply (next_chain_mono _ (Msgs s)); [|done].
      intros v Hv. rewrite Hm5, lookup_delete_ne by (intros <-; done). apply Hkeep. by right.
Qed.
End Request.


End Lpc.

(** ** An instance: one port type, a server and a client *)

Definition demo_name : UNICODE_STRING := mkUS 4 4 [83; 109].

(** An empty object manager whose port type is the pool block [a]. *)
Definition demo_lpc (a : Z) (p : POOL_STATE) : LPC POOL_STATE :=
  mkLpc (mkOb p {[ a := mkType (mkUS 0 0 []) 0x74726F50 0 0 0 ]} ∅ [a] [] (replicate 512 0) 0 0 a)
    0 (demo_sched [32] Ready) ∅ ∅ ∅.

Definition demo_type : Res (Z * POOL_STATE) := pool_alloc 0 sizeof_OBJECT_TYPE TAG_OBJT demo_pool.

(** A server's port is made and a client connects. *)
Definition demo_setup : M (LPC POOL_STATE) (Z * Z) :=
  '(st1, _) ← NtCreatePort no_delete true (Some demo_name);
  '(st2, _) ← NtConnectPort no_delete true (Some demo_name);
  mret (st1, st2).

Definition setup_ok (s : LPC POOL_STATE) : bool :=
  match demo_setup s with
  | Ok ((st1, st2), _) => (st1 =? STATUS_SUCCESS) && (st2 =? STATUS_SUCCESS)
  | _ => false
  end.

Definition type_setup_ok (r : Res (Z * POOL_STATE)) : bool :=
  match r with Ok (a, p) => setup_ok (demo_lpc a p) | _ => false end.

Lemma demo_statuses_ok : type_setup_ok demo_type = true.
Proof. vm_compute. reflexivity. Qed.

Lemma demo_type_ok : match demo_type with Ok (a, _) => 0 <? a | _ => false end = true.
Proof. vm_compute. reflexivity. Qed.

Lemma no_delete_frame F : delete_ok (PI := pool_frame _ F) no_delete.
Proof. intros body proc [] Hm Hc. eexists. split; [reflexivity|]. done. Qed.

Lemma no_delete_keeps proc b : keeps (no_delete proc b).
Proof. apply keeps_ret. Qed.

Lemma demo_base : ∃ a p, demo_type = Ok (a, p) ∧ 0 < a ∧ lpc_inv (demo_lpc a p) (λ _, 0) ∅.
Proof.
  destruct (pool_alloc_law demo_pool ∅ 0 sizeof_OBJECT_TYPE TAG_OBJT demo_pool_rep demo_can_lock ltac:(done)) as (a & p & Hr & Hk & Hc).
  assert (demo_type = Ok (a, p)) as Ht by exact Hr. clear Hr. pose proof demo_type_ok as Hok. rewrite Ht in Hok. destruct Hc as [[-> _]|(Ha & _ & Hp)]; [discriminate Hok|].
  exists a, p. split; [exact Ht|]. split; [exact Ha|]. clear Ht Hok.
  assert (∀ h x, ObHeaders (lp_ob (demo_lpc a p)) !! h ≠ Some x) as Hno by exact lookup_empty_Some. constructor.
  - split; [|intros h x Hx; by apply Hno in Hx]. constructor; [constructor| |done].
    + done.
    + intros h x Hx. by apply Hno in Hx.
    + intros i b [-> _]%lookup_replicate. done.
    + intros h x Hx. by apply Hno in Hx.
    + constructor.
    + intros h. split; [by intros ?%elem_of_nil|]. intros (x & Hx & _). by apply Hno in Hx.
    + exists {[ a := TAG_OBJT ]}. split_and!; [split; [apply map_disjoint_empty_r|by rewrite (right_id_L ∅ (∪))]|..].
      * intros h x Hx. by apply Hno in Hx.
      * intros t y Hy. change (({[ a := mkType (mkUS 0 0 []) 0x74726F50 0 0 0 ]} : gmap Z OBJECT_TYPE) !! t = Some y) in Hy.
        apply lookup_singleton_Some in Hy as [<- _]. apply lookup_singleton_eq.
      * intros h [x Hx]. by apply Hno in Hx.
  - assert (ke_view (demo_lpc a p) = demo_ks [32] Ready) as ->; [|exact demo_ks_wf]. unfold ke_view, demo_ks. f_equal. exact Hk.
  - done.
  - intros b x Hx. by destruct (lookup_empty_Some _ _ Hx).
  - intros b e _ He. by apply (demo_objects [32] Ready _ _ He).
  - intros b x Hx. by destruct (lookup_empty_Some _ _ Hx).
Qed.

Lemma lpc_create_spec_witness :
  ∃ a p st H s', demo_type = Ok (a, p) ∧ NtCreatePort no_delete true (Some demo_name) (demo_lpc a p) = Ok ((st, H), s') ∧
    (st = STATUS_INSUFFICIENT_RESOURCES ∨ NtReplyWaitReceivePort no_delete H 0 s' = Ok ((STATUS_ACCESS_DENIED, []), s')).
Proof.
  destruct demo_base as (a & p & Ht & Ha & Hi).
  pose proof (lpc_create_spec no_delete no_delete_frame no_delete_keeps (demo_lpc a p) _ ∅ demo_name Hi ltac:(cbn; lia)) as (st & H & s' & Hr & Hc).
  exists a, p, st, H, s'. split; [exact Ht|]. split; [exact Hr|]. destruct Hc as [(-> & _)|(_ & port & _ & _ & _ & Hd)]; [by left|right; apply Hd].
Defined.

Lemma setup_run s st H s1 :
  setup_ok s = true → NtCreatePort no_delete true (Some demo_name) s = Ok ((st, H), s1) →
  st = STATUS_SUCCESS ∧ ∀ st2 H2 s2, NtConnectPort no_delete true (Some demo_name) s1 = Ok ((st2, H2), s2) → st2 = STATUS_SUCCESS.
Proof.
  unfold setup_ok, demo_setup. intros Hok Hr. rewrite (bind_ok _ _ _ _ _ Hr) in Hok. clear Hr.
  unfold mbind, M_bind in Hok. destruct (NtConnectPort no_delete true (Some demo_name) s1) as [[[st2 H2] s2]| | | |]; try discriminate Hok.
  apply andb_true_iff in Hok as [H1%Z.eqb_eq H3%Z.eqb_eq]. split; [exact H1|]. intros ? ? ? [= <- <- <-]. exact H3.
Qed.

Lemma setup_type (r : Res (Z * POOL_STATE)) a p :
  type_setup_ok r = true → r = Ok (a, p) → setup_ok (demo_lpc a p) = true.
Proof. intros H ->. exact H. Qed.

Lemma setup_server a p st H s1 :
  demo_type = Ok (a, p) → NtCreatePort no_delete true (Some demo_name) (demo_lpc a p) = Ok ((st, H), s1) →
  st = STATUS_SUCCESS ∧ ∀ st2 H2 s2, NtConnectPort no_delete true (Some demo_name) s1 = Ok ((st2, H2), s2) → st2 = STATUS_SUCCESS.
Proof. intros Ht Hr. exact (setup_run _ _ _ _ (setup_type demo_type a p demo_statuses_ok Ht) Hr). Qed.

Lemma demo_server :
  ∃ a p H s1 h x, demo_type = Ok (a, p) ∧ NtCreatePort no_delete true (Some demo_name) (demo_lpc a p) = Ok ((STATUS_SUCCESS, H), s1) ∧
    lpc_inv s1 (fresh_ext (λ _, 0) h) ∅ ∧ Ports s1 = {[ HEADER_TO_BODY h := server_port demo_name ]} ∧ Msgs s1 = ∅ ∧
    ObHeaders (lp_ob s1) = {[ h := x ]} ∧ LpcPortObjectType (lp_ob s1) = a ∧ a ≠ 0 ∧ is_Some (ObTypes (lp_ob s1) !! a).
Proof.
  destruct demo_base as (a & p & Ht & Ha & Hi).
  destruct (create_port_run no_delete no_delete_frame no_delete_keeps _ _ ∅ demo_name Hi) as (st & H & s1 & Hr & Hm & [Hk1 Hk2] & Hc).
  destruct (setup_server a p st H s1 Ht Hr) as [-> _].
  destruct Hc as [(Hbad & _)|(h & x & _ & _ & Hp & Hi1 & _ & _ & Hh & _)]; [discriminate Hbad|].
  exists a, p, H, s1, h, x. split; [exact Ht|]. split; [exact Hr|]. split; [exact Hi1|]. split; [exact Hp|]. split; [exact Hm|].
  split; [exact Hh|]. split; [exact Hk1|]. split; [lia|]. apply Hk2. exists (mkType (mkUS 0 0 []) 0x74726F50 0 0 0). apply lookup_singleton_eq.
Qed.

Lemma demo_connectable s1 h x :
  Ports s1 = {[ HEADER_TO_BODY h := server_port demo_name ]} → ObHeaders (lp_ob s1) = {[ h := x ]} →
  (∀ a, fresh_ext (λ _, 0) h a + 1 < 4611686018427387904) ∧
  ∀ h' : Z, h' ∈ ObpNamedObjectHead (lp_ob s1) → named_match (lp_ob s1) demo_name h' → is_Some (Ports (P := POOL_STATE) s1 !! HEADER_TO_BODY h').
Proof.
  intros Hp Hh. split.
  - intros a. unfold fresh_ext. destruct (a =? h); lia.
  - intros h' _ (y & Hy & _). rewrite Hh in Hy. apply lookup_singleton_Some in Hy as [<- _]. rewrite Hp, lookup_singleton_eq. eauto.
Qed.

Lemma lpc_connect_spec_witness :
  ∃ a p H1 s1 H2 s2, demo_type = Ok (a, p) ∧
    NtCreatePort no_delete true (Some demo_name) (demo_lpc a p) = Ok ((STATUS_SUCCESS, H1), s1) ∧
    NtConnectPort no_delete true (Some demo_name) s1 = Ok ((STATUS_SUCCESS, H2), s2) ∧
    ∃ cp, Ports s2 !! table_get (HANDLE_TO_INDEX H2) (lp_ob s2) = Some cp.
Proof.
  destruct demo_server as (a & p & H1 & s1 & h & x & Ht & Hr1 & Hi1 & Hp & _ & Hh & Hty & _ & Hobj).
  destruct (demo_connectable s1 h x Hp Hh) as [Hext Hnames].
  pose proof (lpc_connect_spec no_delete no_delete_frame no_delete_keeps s1 _ ∅ demo_name Hi1 ltac:(by rewrite Hty) Hext Hnames) as (st & H2 & s2 & Hr2 & _ & Hc).
  destruct (setup_server a p _ _ s1 Ht Hr1) as [_ Hst]. pose proof (Hst _ _ _ Hr2) as ->. exists a, p, H1, s1, H2, s2.
  split; [exact Ht|]. split; [exact Hr1|]. split; [exact Hr2|].
  destruct Hc as [(Hbad & _)|(server & sp & _ & Hsp & [(Hbad & _)|(client & y & _ & Hn & _ & _ & Hp2 & _ & Hget & _)])]; [discriminate Hbad..|].
  rewrite Hget, Hp2, lookup_insert_ne, lookup_insert_eq; [by eexists|]. intros ->. congruence.
Defined.

(** The client's end after the connection: nothing is queued at either port. *)
Lemma demo_client :
  ∃ s H ext x cp sp, port_handle s ext ∅ H x cp ∧ ConnectedPort cp ≠ 0 ∧
    ConnectedPort cp ≠ table_get (HANDLE_TO_INDEX H) (lp_ob s) ∧ Ports s !! ConnectedPort cp = Some sp ∧
    MsgQueueHead sp = 0 ∧ MsgQueueHead cp = 0 ∧ Msgs (P := POOL_STATE) s = ∅.
Proof.
  destruct demo_server as (a & p & H1 & s1 & h & x & Ht & Hr1 & Hi1 & Hp & Hm1 & Hh & Hty & Ha & Hobj).
  destruct (demo_connectable s1 h x Hp Hh) as [Hext Hnames].
  destruct (connect_port_run no_delete no_delete_frame no_delete_keeps s1 _ ∅ demo_name Hi1 ltac:(by rewrite Hty) Hext Hnames) as (st & H2 & s2 & Hr2 & Hm2 & Hc).
  destruct (setup_server a p _ _ s1 Ht Hr1) as [_ Hst]. pose proof (Hst _ _ _ Hr2) as ->.
  destruct Hc as [(Hbad & _)|(server & sp & _ & Hsp & [(Hbad & _)|(client & y & _ & Hn & Hi2 & [Hk _] & Hp2 & Hix & Hget & Hy & Hyt)])]; [discriminate Hbad..|].
  assert (server ≠ client) as Hne by (intros ->; congruence).
  rewrite Hp in Hsp. apply lookup_singleton_Some in Hsp as [Hserver Hsp].
  assert (∀ b q, Ports s2 !! b = Some q → b ≠ 0) as Hnz.
  { intros b q Hq ->. apply (li_ports _ _ _ Hi2) in Hq as ([z Hz] & _). apply (hdr_pos (PI := pool_frame _ ∅) _ _ _ _ _ (oi_mem _ _ (proj1 (li_ob _ _ _ Hi2)))) in Hz.
    unfold BODY_TO_HEADER, sizeof_OBJECT_HEADER in Hz. lia. }
  assert (Ports s2 !! client = Some (client_port server)) as Hcl by (by rewrite Hp2, lookup_insert_ne, lookup_insert_eq).
  assert (Ports s2 !! server = Some (attached client sp)) as Hsv by (by rewrite Hp2, lookup_insert_eq).
  exists s2, H2, (without (fresh_ext (λ _, 0) h) (BODY_TO_HEADER client)), y, (client_port server), (attached client sp).
  split; [|split_and!; [exact (Hnz _ _ Hsv)|by rewrite Hget|exact Hsv|by subst|done|by rewrite Hm2, Hm1]].
  constructor; rewrite ?Hget; [exact Hi2|exact Hix|exact (Hnz _ _ Hcl)| |exact Hy|split; [by rewrite Hk, Hty|by rewrite Hk]|exact Hcl].
  unfold without. rewrite Z.eqb_refl. lia.
Qed.

(** A request of eight bytes, to a server that has not answered. *)
Definition demo_request : list Z := [0; 0; 8; 0; 1; 0; 0; 0].

Lemma demo_request_ok : request_ok demo_request.
Proof. split; [|by vm_compute]. apply Forall_forall. unfold demo_request, byte. intros b. rewrite !elem_of_cons, elem_of_nil. lia. Qed.

