(* ===== verification/Hive.v ===== *)
(** * Hive: saving and loading the registry (src/cm/cmpers.c)

    CmSaveHive writes the tree of keys into a growing pool buffer and the buffer
    into a file of the FAT32 volume; CmLoadHive reads the file and sets the values
    it finds.  The state is that of the registry and of the file system, which
    share one pool, and the two local structures that are passed by pointer.  The
    recursive functions take fuel; the serializer needs as much as the tree is
    deep, the other as much as the file is long.  [vname_at d] is where the
    local array of names of the activation at depth [d] lies; it exists only
    while a turn of that activation's loop over the values runs. *)

From S2P Require Import Prelude Irql Rtl Pool Disk Fat32 Cm.

#[local] Open Scope Z_scope.

Record SER_BUFFER := mkSer { sb_data : Z; sb_bytes : list Z; sb_size : Z; sb_capacity : Z }.
Record DES_SER := mkDes { ds_bytes : list Z; ds_size : Z; ds_pos : Z }.

Record HIVE (P D : Type) := mkHive {
  hv_cm : CM_STATE P;
  hv_mnt : FAT32_MOUNT; hv_fat : list Z; hv_dev : D;
  hv_ser : SER_BUFFER;
  hv_des : DES_SER
}.
Arguments mkHive {P D} _ _ _ _ _ _.
Arguments hv_cm {P D} _.
Arguments hv_mnt {P D} _.
Arguments hv_fat {P D} _.
Arguments hv_dev {P D} _.
Arguments hv_ser {P D} _.
Arguments hv_des {P D} _.

Definition g_HiveMagic : list Z := [77; 73; 78; 78; 84; 82; 69; 71].
(** "registry.dat" *)
Definition REG_HIVE_FILE : list Z := [114; 101; 103; 105; 115; 116; 114; 121; 46; 100; 97; 116; 0].

(** Characters as bytes, and back. *)
Definition wide (l : list Z) : list Z := l ≫= le_bytes 2.
Fixpoint narrow (bs : list Z) : list Z :=
  match bs with
  | b0 :: b1 :: bs' => b0 + 256 * b1 :: narrow bs'
  | _ => []
  end.

Section Hive.
Context {P : Type} `{HP : HasPcr P} `{PI : !PoolInterface P} {D : Type} `{BD : BlockDevice D}.
Context (vname_at : nat → Z).
#[local] Abbreviation H := (HIVE P D).
Implicit Types (s : H).

Definition set_hv_cm c s : H := mkHive c (hv_mnt s) (hv_fat s) (hv_dev s) (hv_ser s) (hv_des s).
Definition set_hv_ser b s : H := mkHive (hv_cm s) (hv_mnt s) (hv_fat s) (hv_dev s) b (hv_des s).
Definition set_hv_des d s : H := mkHive (hv_cm s) (hv_mnt s) (hv_fat s) (hv_dev s) (hv_ser s) d.

Definition cm {A} (m : M (CM_STATE P) A) : M H A := zoom hv_cm set_hv_cm m.
Definition fs_view s : FS P D := mkFs (hv_mnt s) (hv_fat s) (cm_pool (hv_cm s)) (hv_dev s).
Definition fs_put (f : FS P D) s : H :=
  mkHive (set_cm_pool (fs_pool f) (hv_cm s)) (mnt f) (fat_mem f) (dev f) (hv_ser s) (hv_des s).
Definition fs {A} (m : M (FS P D) A) : M H A := zoom fs_view fs_put m.

Definition alloc (n : Z) : M H Z := cm (cm_do (pool_alloc 0 n 0)).
Definition free (a : Z) : M H unit := cm (cm_do (pool_free a 0)).

(** [s = f(...); if (!NT_SUCCESS(s)) return s;] *)
Definition andthen (m k : M H Z) : M H Z := st ← m; if NT_SUCCESS st then k else mret st.
Definition chk {A} (m : M H (Z * A)) (k : A → M H Z) : M H Z := r ← m; if NT_SUCCESS r.1 then k r.2 else mret r.1.
#[local] Notation "m ;? k" := (andthen m k) (at level 100, k at level 200, right associativity).
#[local] Notation "x ?← m ; k" := (chk m (λ x, k)) (at level 100, m at next level, k at level 200, right associativity).

(** ** Serialization *)

Definition SerInit (initial_cap : Z) : M H Z :=
  a ← alloc initial_cap;
  if a =? 0 then mret STATUS_NO_MEMORY
  else mmod (set_hv_ser (mkSer a (replicate (Z.to_nat initial_cap) 0) 0 initial_cap));; mret STATUS_SUCCESS.

Definition grow_turn (need : Z) (new_cap : Z) : M H (Z + Z) :=
  if new_cap <? need then mret (inl (u64 (new_cap * 2))) else mret (inr new_cap).

Definition SerEnsure (need : Z) : M H Z :=
  b ← mgets hv_ser;
  if u64 (sb_size b + need) <=? sb_capacity b then mret STATUS_SUCCESS
  else
    new_cap ← loop (grow_turn (u64 (sb_size b + need))) (sb_capacity b);
    new_data ← alloc new_cap;
    if new_data =? 0 then mret STATUS_NO_MEMORY
    else
      bytes ← mderef (λ _, store_at 0 (take (Z.to_nat (sb_size b)) (sb_bytes b)) (replicate (Z.to_nat new_cap) 0));
      free (sb_data b);;
      mmod (set_hv_ser (mkSer new_data bytes (sb_size b) new_cap));;
      mret STATUS_SUCCESS.

Definition SerWrite (src : list Z) : M H Z :=
  SerEnsure (Z.of_nat (length src)) ;?
  b ← mgets hv_ser;
  bytes ← mderef (λ _, store_at (Z.to_nat (sb_size b)) src (sb_bytes b));
  mmod (set_hv_ser (mkSer (sb_data b) bytes (u64 (sb_size b + Z.of_nat (length src))) (sb_capacity b)));;
  mret STATUS_SUCCESS.

Definition SerWriteU16 (v : Z) : M H Z := SerWrite (le_bytes 2 v).
Definition SerWriteU32 (v : Z) : M H Z := SerWrite (le_bytes 4 v).

(** A value's name, read through its descriptor. *)
Definition value_name s (v : CM_KEY_VALUE) : option (list Z) :=
  match vname (hv_cm s) v with
  | Some nm => if (length nm =? Z.to_nat (VNameLength v))%nat then Some nm else None
  | None => None
  end.

Definition ser_value (v : CM_KEY_VALUE) : M H Z :=
  SerWriteU16 (VNameLength v) ;?
  nm ← mderef (λ s, value_name s v);
  SerWrite (wide nm) ;?
  SerWriteU32 (DataType v) ;?
  SerWriteU32 (DataLength v) ;?
  bytes ← mderef (λ _, if Z.to_nat (DataLength v) <=? length (Data v) then Some (take (Z.to_nat (DataLength v)) (Data v)) else None)%nat;
  SerWrite bytes.

Fixpoint ser_values (l : list CM_KEY_VALUE) : M H Z :=
  match l with [] => mret STATUS_SUCCESS | v :: l' => ser_value v ;? ser_values l' end.

Fixpoint ser_children (f : PKEY → M H Z) (l : list Z) : M H Z :=
  match l with [] => mret STATUS_SUCCESS | c :: l' => f (PoolKey c) ;? ser_children f l' end.

Fixpoint CmSerializeKey (fuel : nat) (key : PKEY) : M H Z :=
  match fuel with
  | O => mnofuel
  | S fuel' =>
      n ← cm (get_key key);
      SerWriteU16 (Z.of_nat (length (KName n))) ;?
      SerWrite (wide (KName n)) ;?
      SerWriteU32 (SubKeyCount n) ;?
      ser_children (CmSerializeKey fuel') (Children n) ;?
      SerWriteU32 (ValueCount n) ;?
      ser_values (Values n)
  end.

(** What is written before the file is: the header and the tree. *)
Definition ser_hive (fuel : nat) : M H Z :=
  SerWrite g_HiveMagic ;? SerWriteU32 0 ;? SerWriteU32 0 ;? CmSerializeKey fuel CmGetRootKey.

(** [entry0] is what an uninitialised local of Fat32WriteFile holds. *)
Definition CmSaveHive (fuel : nat) (entry0 : list Z) : M H Z :=
  m ← fs Fat32IsMounted;
  if negb m then mret STATUS_DEVICE_DOES_NOT_EXIST
  else
    SerInit 65536 ;?
    st ← ser_hive fuel;
    if negb (NT_SUCCESS st) then b ← mgets hv_ser; free (sb_data b);; mret st
    else
      b ← mgets hv_ser;
      r ← fs (Fat32WriteFile REG_HIVE_FILE (take (Z.to_nat (u32 (sb_size b))) (sb_bytes b)) entry0 true);
      free (sb_data b);;
      mret (if NT_SUCCESS r.1 then STATUS_SUCCESS else r.1).

(** ** Loading *)

Definition DesRead (len : Z) : M H (Z * list Z) :=
  d ← mgets hv_des;
  if ds_size d <? u64 (ds_pos d + len) then mret (STATUS_INVALID_IMAGE_FORMAT, [])
  else
    bytes ← mderef (λ _, if (Z.to_nat (ds_pos d) + Z.to_nat len <=? length (ds_bytes d))%nat
                         then Some (sub (Z.to_nat (ds_pos d)) (Z.to_nat len) (ds_bytes d)) else None);
    mmod (set_hv_des (mkDes (ds_bytes d) (ds_size d) (u64 (ds_pos d + len))));;
    mret (STATUS_SUCCESS, bytes).

Definition DesReadU16 : M H (Z * Z) := r ← DesRead 2; mret (r.1, le_val r.2).
Definition DesReadU32 : M H (Z * Z) := r ← DesRead 4; mret (r.1, le_val r.2).

(** The name put into the local array. *)
Definition put_vname (d : nat) (nm : list Z) : M H unit :=
  old ← mderef (λ s, Buffers (hv_cm s) !! vname_at d);
  new ← mderef (λ _, store_at 0 (nm ++ [0]) old);
  mmod (λ s, set_hv_cm (set_Buffers (<[vname_at d := new]> (Buffers (hv_cm s))) (hv_cm s)) s).

Definition set_data (node : PKEY) (vnlen buf type dlen : Z) : M H Z :=
  if 0 <? dlen then
    data ← alloc dlen;
    if data =? 0 then mret STATUS_NO_MEMORY
    else
      r ← DesRead dlen;
      if negb (NT_SUCCESS r.1) then free data;; mret r.1
      else
        st ← cm (CmSetValue (Some node) (Some (vnlen, buf)) type r.2);
        free data;;
        mret st
  else cm (CmSetValue (Some node) (Some (vnlen, buf)) type []).

(** The body of the loop over the values: its local array comes into being, with
    no particular contents, and is gone on every way out. *)
Definition in_block (d : nat) (body : M H Z) : M H Z :=
  mmod (λ s, set_hv_cm (set_Buffers (<[vname_at d := replicate 256 0]> (Buffers (hv_cm s))) (hv_cm s)) s);;
  st ← body;
  mmod (λ s, set_hv_cm (set_Buffers (delete (vname_at d) (Buffers (hv_cm s))) (hv_cm s)) s);;
  mret st.

Definition des_value_body (d : nat) (node : PKEY) : M H Z :=
  vnlen ?← DesReadU16;
  if 255 <? vnlen then mret STATUS_INVALID_IMAGE_FORMAT
  else
    vn ?← DesRead (vnlen * 2);
    put_vname d (narrow vn);;
    type ?← DesReadU32;
    dlen ?← DesReadU32;
    if 65536 <? dlen then mret STATUS_INVALID_IMAGE_FORMAT
    else set_data node vnlen (vname_at d) type dlen.

Definition des_value (d : nat) (node : PKEY) : M H Z := in_block d (des_value_body d node).

(** [for (i = 0; i < count; i++) { s = f; if (!NT_SUCCESS(s)) return s; }] *)
Definition count_turn (f : M H Z) (count i : Z) : M H (Z + Z) :=
  if i <? count then
    st ← f;
    if NT_SUCCESS st then mret (inl (u32 (i + 1))) else mret (inr st)
  else mret (inr STATUS_SUCCESS).

Fixpoint CmDeserializeKey (fuel d : nat) (parent : PKEY) : M H Z :=
  match fuel with
  | O => mnofuel
  | S fuel' =>
      name_len ?← DesReadU16;
      if 255 <? name_len then mret STATUS_INVALID_IMAGE_FORMAT
      else
        name ?← DesRead (name_len * 2);
        node ?← (if decide (parent = CmGetRootKey) then mret (STATUS_SUCCESS, parent)
                 else r ← cm (CmCreateKey (narrow name)); mret (r.1, default parent r.2));
        subkey_count ?← DesReadU32;
        loop (count_turn (CmDeserializeKey fuel' (S d) node) subkey_count) 0 ;?
        value_count ?← DesReadU32;
        loop (count_turn (des_value d node) value_count) 0
  end.

(** After the file has been read into [hive_data]. *)
Definition load_image (hive_data : Z) (bytes : list Z) : M H Z :=
  mmod (set_hv_des (mkDes bytes (Z.of_nat (length bytes)) 0));;
  r ← DesRead 8;
  if negb (NT_SUCCESS r.1) || negb (bool_decide (r.2 = g_HiveMagic)) then
    free hive_data;; mret STATUS_INVALID_IMAGE_FORMAT
  else
    DesReadU32;;
    DesReadU32;;
    st ← CmDeserializeKey (S (length bytes)) 0 CmGetRootKey;
    free hive_data;;
    mret st.

Definition CmLoadHive : M H Z :=
  m ← fs Fat32IsMounted;
  if negb m then mret STATUS_DEVICE_DOES_NOT_EXIST
  else
    hive_data ← alloc 1048576;
    if hive_data =? 0 then mret STATUS_NO_MEMORY
    else
      r ← fs (Fat32ReadFile REG_HIVE_FILE 1048576);
      let '(st, bytes, _) := r in
      if negb (NT_SUCCESS st) then free hive_data;; mret st
      else if Z.of_nat (length bytes) <? 16 then free hive_data;; mret STATUS_INVALID_IMAGE_FORMAT
      else load_image hive_data bytes.

(** ** The format *)

(** A value: its name, its type and its data; a key: its name, its values and
    its subkeys. *)
Definition kvalue : Type := list Z * Z * list Z.
#[local] Unset Elimination Schemes.
Inductive ktree := KNode (name : list Z) (vals : list kvalue) (kids : list ktree).
#[local] Set Elimination Schemes.

Section ktree_ind.
Context (Q : ktree → Prop) (step : ∀ nm vs ks, Forall Q ks → Q (KNode nm vs ks)).
Fixpoint ktree_rec' (t : ktree) : Q t :=
  match t with
  | KNode nm vs ks =>
      step nm vs ks ((fix go l : Forall Q l :=
        match l with [] => Forall_nil_2 _ | k :: l' => Forall_cons_2 _ _ _ (ktree_rec' k) (go l') end) ks)
  end.
End ktree_ind.

Fixpoint kdepth (t : ktree) : nat := match t with KNode _ _ ks => S (max_list (kdepth <$> ks)) end.

Definition enc_value (v : kvalue) : list Z :=
  let '(nm, ty, data) := v in
  le_bytes 2 (Z.of_nat (length nm)) ++ wide nm ++ le_bytes 4 ty ++ le_bytes 4 (Z.of_nat (length data)) ++ data.

Fixpoint enc_key (t : ktree) : list Z :=
  match t with
  | KNode nm vs ks =>
      le_bytes 2 (Z.of_nat (length nm)) ++ wide nm ++ le_bytes 4 (Z.of_nat (length ks)) ++
      concat (enc_key <$> ks) ++ le_bytes 4 (Z.of_nat (length vs)) ++ concat (enc_value <$> vs)
  end.

Definition hive_image (t : ktree) : list Z := g_HiveMagic ++ replicate 8 0 ++ enc_key t.

(** The tree below a key of the registry. *)
Definition value_rep s (v : CM_KEY_VALUE) (x : kvalue) : Prop :=
  let '(nm, ty, data) := x in
  value_name s v = Some nm ∧ VNameLength v = Z.of_nat (length nm) ∧ DataType v = ty ∧ Data v = data ∧
  DataLength v = Z.of_nat (length data).

Fixpoint key_rep s (k : PKEY) (t : ktree) {struct t} : Prop :=
  match t with
  | KNode nm vs ks =>
      ∃ n, key_of (hv_cm s) k = Some n ∧ KName n = nm ∧ SubKeyCount n = Z.of_nat (length ks) ∧
        ValueCount n = Z.of_nat (length vs) ∧ Forall2 (value_rep s) (Values n) vs ∧
        (fix go (l : list Z) (ts : list ktree) {struct ts} : Prop :=
           match ts, l with
           | [], [] => True
           | t :: ts', a :: l' => key_rep s (PoolKey a) t ∧ go l' ts'
           | _, _ => False
           end) (Children n) ks
  end.

Lemma key_rep_unfold s k nm vs ks :
  key_rep s k (KNode nm vs ks) ↔
  ∃ n, key_of (hv_cm s) k = Some n ∧ KName n = nm ∧ SubKeyCount n = Z.of_nat (length ks) ∧
    ValueCount n = Z.of_nat (length vs) ∧ Forall2 (value_rep s) (Values n) vs ∧
    Forall2 (λ a, key_rep s (PoolKey a)) (Children n) ks.
Proof.
  cbn [key_rep]. split; intros (n & Hk & Hn & H1 & H2 & Hv & Hc); exists n; split_and!; try done; clear -Hc.
  - revert ks Hc. induction (Children n) as [|a l IH]; intros [|t ks] Hc; try done; constructor; [apply Hc|apply IH, Hc].
  - induction Hc; [done|]. by split.
Qed.

(** What loading can read back. *)
Definition char (c : Z) : Prop := 0 ≤ c < 65536.
Definition name_ok (nm : list Z) : Prop := Forall char nm ∧ (length nm ≤ 255)%nat.
Definition value_ok (v : kvalue) : Prop :=
  let '(nm, ty, data) := v in
  name_ok nm ∧ 0 ≤ ty < 4294967296 ∧ Forall byte data ∧ 0 < Z.of_nat (length data) ≤ 65536.
Fixpoint loadable (t : ktree) : Prop :=
  match t with
  | KNode nm vs ks =>
      name_ok nm ∧ Z.of_nat (length ks) < 4294967296 ∧ Z.of_nat (length vs) < 4294967296 ∧
      Forall value_ok vs ∧ Forall id (loadable <$> ks)
  end.

(** The values a loaded tree leaves at the root: those of the subkeys first, and
    each with a name descriptor that points to its activation's array. *)
Definition flat_value (d : nat) (v : kvalue) : CM_KEY_VALUE :=
  let '(nm, ty, data) := v in mkValue (Z.of_nat (length nm)) (vname_at d) ty (Z.of_nat (length data)) data.
Fixpoint flat (d : nat) (t : ktree) : list CM_KEY_VALUE :=
  match t with KNode _ vs ks => concat (flat (S d) <$> ks) ++ (flat_value d <$> vs) end.

(** ** Serialization writes the format *)

Definition SER_MAX := 4294836224.

(** The bytes written so far. *)
Definition written s : list Z := take (Z.to_nat (sb_size (hv_ser s))) (sb_bytes (hv_ser s)).

Record ser_ok s (m : gmap Z Z) : Prop := {
  so_cm : cm_inv (hv_cm s) (<[sb_data (hv_ser s) := 0]> m);
  so_new : m !! sb_data (hv_ser s) = None;
  so_len : Z.of_nat (length (sb_bytes (hv_ser s))) = sb_capacity (hv_ser s);
  so_size : 0 ≤ sb_size (hv_ser s) ≤ sb_capacity (hv_ser s);
  so_cap : 0 < sb_capacity (hv_ser s) < 18446744073709551616
}.

(** The registry and the volume are as in [s]. *)
Record ser_kept s s' : Prop := {
  sk_tree : same_tree (hv_cm s) (hv_cm s');
  sk_lock : CmLock_ (hv_cm s') = CmLock_ (hv_cm s);
  sk_pcr : pcr (hv_cm s') = pcr (hv_cm s);
  sk_mnt : hv_mnt s' = hv_mnt s;
  sk_fat : hv_fat s' = hv_fat s;
  sk_dev : hv_dev s' = hv_dev s
}.

#[global] Instance ser_kept_refl : Reflexive ser_kept.
Proof. by intros s. Qed.
#[global] Instance ser_kept_trans : Transitive ser_kept.
Proof.
  intros s1 s2 s3 [(A1 & A2 & A3) B C E F G] [(A1' & A2' & A3') B' C' E' F' G'].
  constructor; [split_and!; congruence|congruence..].
Qed.

(** [m] appends [bs] in every state with the registry of [s0], or runs out of
    memory. *)
Definition writes s0 (m : M H Z) (bs : list Z) : Prop := ∀ s mp,
  ser_kept s0 s → ser_ok s mp → sb_size (hv_ser s) + Z.of_nat (length bs) < SER_MAX →
  ∃ st s', m s = Ok (st, s') ∧ ser_kept s0 s' ∧ ser_ok s' mp ∧
    (st = STATUS_NO_MEMORY ∨
     st = STATUS_SUCCESS ∧ written s' = written s ++ bs ∧
       sb_size (hv_ser s') = sb_size (hv_ser s) + Z.of_nat (length bs)).

Lemma writes_then s0 m1 m2 b1 b2 : writes s0 m1 b1 → writes s0 m2 b2 → writes s0 (m1 ;? m2) (b1 ++ b2).
Proof.
  intros H1 H2 s mp Hk Hok Hlen. rewrite length_app in Hlen.
  destruct (H1 s mp Hk Hok ltac:(lia)) as (st & s1 & Hr & Hk1 & Hok1 & Hc). unfold andthen. rewrite (bind_ok _ _ _ _ _ Hr).
  destruct Hc as [->|(-> & Hw & Hs)]; [do 2 eexists; split_and!; [reflexivity|done|done|by left]|].
  change (NT_SUCCESS STATUS_SUCCESS) with true. cbv match.
  destruct (H2 s1 mp Hk1 Hok1 ltac:(lia)) as (st & s2 & Hr2 & Hk2 & Hok2 & Hc2). exists st, s2. split_and!; [done..|].
  destruct Hc2 as [?|(-> & Hw2 & Hs2)]; [by left|right]. rewrite Hw2, Hw, Hs2, Hs, length_app, app_assoc. split_and!; [done|done|lia].
Qed.

Lemma writes_deref {A} s0 (f : H → option A) (k : A → M H Z) bs a :
  (∀ s, ser_kept s0 s → f s = Some a) → writes s0 (k a) bs → writes s0 (mderef f ≫= k) bs.
Proof. intros Hf Hw s mp Hk. rewrite (deref_bind f k s a (Hf s Hk)). by apply Hw. Qed.

Lemma writes_nil s0 : writes s0 (mret STATUS_SUCCESS) [].
Proof. intros s mp Hk Hok _. do 2 eexists. split_and!; [reflexivity|done|done|right]. rewrite app_nil_r, Z.add_0_r. done. Qed.

(** A change of the pool only. *)
Definition repool (p : P) s : H := set_hv_cm (set_cm_pool p (hv_cm s)) s.

Lemma repool_kept s0 p s : pcr p = pcr (cm_pool (hv_cm s)) → ser_kept s0 s → ser_kept s0 (repool p s).
Proof. intros Hp Hk. etrans; [exact Hk|]. by constructor. Qed.

Lemma grow_loop need s : 0 < need <= 4294967296 → ∀ c, 0 < c →
  ∃ n c', loops_to (grow_turn need) n c s c' s ∧ 0 < n ≤ 64 ∧ need ≤ c' ∧ (c' = c ∨ c' < 2 * need).
Proof.
  intros Hn. assert (∀ (i : nat) c, 0 < c → need < c * 2 ^ Z.of_nat i →
    ∃ n c', loops_to (grow_turn need) n c s c' s ∧ 0 < n ≤ Z.of_nat i + 1 ∧ need ≤ c' ∧ (c' = c ∨ c' < 2 * need)) as Hi.
  { induction i as [|i IH]; intros c Hc Hlt.
    - exists 1, c. rewrite Z.mul_1_r in Hlt. split_and!; try lia. constructor. unfold grow_turn. by replace (c <? need) with false by lia.
    - destruct (Z.ltb_spec c need) as [Hl|Hl].
      + destruct (IH (c * 2)) as (n & c' & Hr & Hb & Hge & Hor); [lia| |].
        { rewrite Nat2Z.inj_succ, Z.pow_succ_r in Hlt by lia. lia. }
        exists (n + 1), c'. split_and!; [|lia|lia|lia|right; lia].
        eapply loops_step; [|exact Hr]. unfold grow_turn. replace (c <? need) with true by lia. rewrite u64_small by lia. done.
      + exists 1, c. split_and!; try lia. constructor. unfold grow_turn. by replace (c <? need) with false by lia. }
  intros c Hc. destruct (Hi 33%nat c Hc) as (n & c' & ? & ? & ? & ?); [change (2 ^ Z.of_nat 33) with 8589934592; lia|].
  exists n, c'. split_and!; [done|lia..].
Qed.

(** A pool block taken, or none left. *)
Lemma hive_alloc_run s m n :
  cm_inv (hv_cm s) m → 0 < n < 18446744073709551616 →
  ∃ a p, alloc n s = Ok (a, repool p s) ∧ pcr p = pcr (cm_pool (hv_cm s)) ∧
    ((a = 0 ∧ cm_inv (hv_cm (repool p s)) m) ∨ (0 < a ∧ m !! a = None ∧ cm_inv (hv_cm (repool p s)) (<[a := 0]> m))).
Proof.
  intros Hi Hn. destruct (pool_alloc_law _ m 0 n 0 (ci_pool _ _ Hi) (ci_pcr _ _ Hi) Hn) as (a & p & Hr & Hpc & Hc).
  exists a, p. split; [unfold alloc, cm, cm_do, repool; by do 2 apply zoom_ok|]. split; [done|].
  destruct Hc as [[-> Hp]|(Ha & Hna & Hp)]; [left|right].
  - split; [done|]. by apply (cm_inv_pool _ m).
  - split_and!; [done..|]. apply (cm_inv_pool _ m); [done..|]. intros b t Hb. rewrite lookup_insert_ne; [done|]. intros ->. congruence.
Qed.

(** A block given back that no key uses. *)
Lemma hive_free_run s m a :
  cm_inv (hv_cm s) m → m !! a = Some 0 →
  ∃ p, free a s = Ok (tt, repool p s) ∧ pcr p = pcr (cm_pool (hv_cm s)) ∧ cm_inv (hv_cm (repool p s)) (delete a m).
Proof.
  intros Hi Ha. destruct (pool_free_law _ m a 0 0 (ci_pool _ _ Hi) (ci_pcr _ _ Hi) Ha ltac:(by left)) as (p & Hr & Hpc & Hp).
  exists p. split; [unfold free, cm, cm_do, repool; by do 2 apply zoom_ok|]. split; [done|].
  destruct Hi as [H1 H2 H3 H4]. constructor; cbn; [done|by rewrite Hpc| |].
  - intros b n Hb. rewrite lookup_delete_ne; [eauto|]. intros <-. apply H3 in Hb. rewrite Ha in Hb. discriminate Hb.
  - intros k n c Hk. apply (H4 k n c). by destruct k.
Qed.

Lemma ensure_run s m need :
  ser_ok s m → 0 ≤ need → sb_size (hv_ser s) + need < SER_MAX →
  ∃ st s', SerEnsure need s = Ok (st, s') ∧ ser_kept s s' ∧ ser_ok s' m ∧ written s' = written s ∧
    sb_size (hv_ser s') = sb_size (hv_ser s) ∧
    (st = STATUS_NO_MEMORY ∨ st = STATUS_SUCCESS ∧ sb_size (hv_ser s) + need ≤ sb_capacity (hv_ser s')).
Proof.
  intros Hok Hn Hmax. pose proof Hok as [Hcm Hnew Hlen Hsz Hcap]. unfold SER_MAX in Hmax. unfold SerEnsure.
  unfold mbind at 1, M_bind at 1. cbn [mgets]. rewrite u64_small by lia.
  destruct (Z.leb_spec (sb_size (hv_ser s) + need) (sb_capacity (hv_ser s))) as [Hf|Hf].
  { eexists _, s. split_and!; [reflexivity|done..|]. right. by split. }
  destruct (grow_loop (sb_size (hv_ser s) + need) s ltac:(lia) (sb_capacity (hv_ser s)) ltac:(lia)) as (n & c & Hl & Hb & Hge & Hor).
  rewrite (bind_ok _ _ _ _ _ (loop_ok _ _ _ _ _ _ Hl ltac:(lia))).
  destruct (hive_alloc_run s _ c Hcm ltac:(lia)) as (a & p & Hr & Hp & Hc). rewrite (bind_ok _ _ _ _ _ Hr).
  destruct Hc as [[-> Hi]|(Ha & Hna & Hi)].
  { eexists _, (repool p s). split_and!; [reflexivity|by apply repool_kept| |done|done|by left]. by constructor. }
  replace (a =? 0) with false by lia. set (b := hv_ser s) in *.
  assert (length (take (Z.to_nat (sb_size b)) (sb_bytes b)) = Z.to_nat (sb_size b)) as Htk by (rewrite length_take; lia).
  erewrite deref_bind; [|apply store_at_fits; rewrite Htk, length_replicate; lia].
  apply lookup_insert_None in Hna as [Hna Hne].
  destruct (hive_free_run (repool p s) (<[a := 0]> (<[sb_data b := 0]> m)) (sb_data b) Hi) as (p2 & Hr2 & Hp2 & Hi2).
  { rewrite lookup_insert_ne by done. apply lookup_insert_eq. }
  rewrite delete_insert_ne, delete_insert_id in Hi2 by done. rewrite (bind_ok _ _ _ _ _ Hr2).
  eexists _, _. split; [reflexivity|]. split; [|split; [constructor; cbn|split; [|split; [done|right; split; [done|cbn; lia]]]]].
  - cbn [mmod]. constructor; try done. cbn. by rewrite Hp2.
  - done.
  - done.
  - rewrite splice_length by (rewrite length_take, length_replicate; lia). rewrite length_replicate. lia.
  - lia.
  - lia.
  - unfold written. cbn [hv_ser set_hv_ser sb_size sb_bytes]. unfold splice. rewrite take_0, app_nil_l. fold b. by rewrite take_app_length'.
Qed.

Lemma write_run s0 src : writes s0 (SerWrite src) src.
Proof.
  intros s m Hk Hok Hlen. destruct (ensure_run s m (Z.of_nat (length src)) Hok ltac:(lia) Hlen) as (st & s1 & Hr & Hk1 & Hok1 & Hw & Hs & Hc).
  unfold SerWrite, andthen. rewrite (bind_ok _ _ _ _ _ Hr). assert (ser_kept s0 s1) as Hk01 by (by etrans).
  destruct Hc as [->|[-> Hcap]]; [do 2 eexists; split_and!; [reflexivity|done|done|by left]|].
  change (NT_SUCCESS STATUS_SUCCESS) with true. cbv match. unfold mbind at 1, M_bind at 1. cbn [mgets].
  pose proof Hok1 as [Hcm Hnew Hl Hsz Hcp]. unfold SER_MAX in Hlen.
  erewrite deref_bind; [|apply store_at_fits; lia]. rewrite u64_small by lia.
  eexists _, _. split; [reflexivity|]. split; [cbn [mmod]; by destruct Hk01|]. split; [|right; split_and!; [done| |cbn; lia]].
  - constructor; cbn; [done|done| |lia|lia]. rewrite splice_length; lia.
  - rewrite <- Hw. unfold written. cbn. unfold splice. rewrite app_assoc.
    rewrite take_app_length'; [done|]. rewrite length_app, length_take. lia.
Qed.

Lemma kept_name s0 s v : ser_kept s0 s → value_name s v = value_name s0 v.
Proof. intros [(_ & _ & Hb) _ _ _ _ _]. unfold value_name, vname. by rewrite Hb. Qed.

Lemma value_writes s0 v x : value_rep s0 v x → writes s0 (ser_value v) (enc_value x).
Proof.
  destruct x as [[nm ty] data]. intros (Hn & Hl & <- & <- & Hd). unfold ser_value, enc_value. rewrite Hl, Hd.
  apply writes_then; [apply write_run|].
  apply (writes_deref _ _ _ _ nm); [intros s Hk; by rewrite (kept_name s0)|].
  do 3 (apply writes_then; [apply write_run|]).
  apply (writes_deref _ _ _ _ (Data v)); [|apply write_run].
  intros s _. rewrite Nat2Z.id. destruct (Nat.leb_spec (length (Data v)) (length (Data v))); [|lia]. by rewrite firstn_all.
Qed.

Lemma values_write s0 vs xs : Forall2 (value_rep s0) vs xs → writes s0 (ser_values vs) (concat (enc_value <$> xs)).
Proof. induction 1 as [|v x vs xs Hv _ IH]; [apply writes_nil|]. cbn. apply writes_then; [by apply value_writes|done]. Qed.

Lemma children_write s0 f ks : ∀ l,
  Forall2 (λ a t, writes s0 (f (PoolKey a)) (enc_key t)) l ks → writes s0 (ser_children f l) (concat (enc_key <$> ks)).
Proof. induction ks as [|t ks IH]; intros l Hl; inversion Hl; subst; [apply writes_nil|]. cbn. apply writes_then; [done|by apply IH]. Qed.

Lemma kdepth_kids nm vs ks t : t ∈ ks → (kdepth t < kdepth (KNode nm vs ks))%nat.
Proof.
  intros Ht. cbn. apply Nat.lt_succ_r, max_list_elem_of_le. by apply list_elem_of_fmap_2.
Qed.

(** Enough fuel for the depth of the tree writes its encoding. *)
Lemma serialize_writes s0 : ∀ t fuel k, key_rep s0 k t → (kdepth t ≤ fuel)%nat → writes s0 (CmSerializeKey fuel k) (enc_key t).
Proof.
  induction t as [nm vs ks IH] using ktree_rec'. intros [|fuel] k Hrep Hd; [cbn in Hd; lia|].
  apply key_rep_unfold in Hrep as (n & Hk & <- & Hs & Hv & Hvs & Hks). cbn [CmSerializeKey enc_key].
  assert (∀ s, ser_kept s0 s → cm (get_key k) s = Ok (n, s)) as Hget.
  { intros s Hkp. unfold cm. erewrite zoom_ok; [|apply deref_ok; rewrite (same_tree_key (hv_cm s0)); [exact Hk|apply Hkp]]. by destruct s. }
  enough (writes s0 (SerWriteU16 (Z.of_nat (length (KName n))) ;? SerWrite (wide (KName n)) ;? SerWriteU32 (SubKeyCount n) ;?
      ser_children (CmSerializeKey fuel) (Children n) ;? SerWriteU32 (ValueCount n) ;? ser_values (Values n))
      (le_bytes 2 (Z.of_nat (length (KName n))) ++ wide (KName n) ++ le_bytes 4 (Z.of_nat (length ks)) ++
       concat (enc_key <$> ks) ++ le_bytes 4 (Z.of_nat (length vs)) ++ concat (enc_value <$> vs))) as Hw.
  { intros s mp Hkp. rewrite (bind_ok _ _ _ _ _ (Hget s Hkp)). by apply Hw. }
  rewrite Hs, Hv. do 3 (apply writes_then; [apply write_run|]). apply writes_then.
  - apply children_write. rewrite Forall_forall in IH.
    assert (∀ t, t ∈ ks → (kdepth t ≤ fuel)%nat) as Hdk by (intros t Ht; apply (kdepth_kids (KName n) vs) in Ht; lia).
    clear -IH Hks Hdk. induction Hks as [|a t l ks Ha _ IHl]; constructor.
    + apply IH; [left|done|]. apply Hdk. left.
    + apply IHl; [intros x Hx; apply IH; by right|intros x Hx; apply Hdk; by right].
  - apply writes_then; [apply write_run|by apply values_write].
Qed.

(** ** Loading reads the format *)

Definition ahead s : list Z := drop (Z.to_nat (ds_pos (hv_des s))) (ds_bytes (hv_des s)).

(** The local array in scope: none exists, or that of the activation [d]. *)
Definition arrays (o : option nat) (c : CM_STATE P) : Prop :=
  match o with
  | None => ∀ i, Buffers c !! vname_at i = None
  | Some d => ∃ old, Buffers c !! vname_at d = Some old ∧ length old = 256%nat
  end.
Definition same_arrays (o : option nat) (c c' : CM_STATE P) : Prop :=
  match o with
  | None => Buffers c' = Buffers c
  | Some d => delete (vname_at d) (Buffers c') = delete (vname_at d) (Buffers c)
  end.

(** The blocks [m] stay allocated; the array [o] is in scope. *)
Record des_ok (o : option nat) (m : gmap Z Z) s : Prop := {
  do_cm : ∃ m', cm_inv (hv_cm s) m' ∧ ∀ a t, m !! a = Some t → m' !! a = Some t;
  do_lock : CmLock_ (hv_cm s) = 0;
  do_arrays : arrays o (hv_cm s);
  do_size : ds_size (hv_des s) = Z.of_nat (length (ds_bytes (hv_des s))) ∧ ds_size (hv_des s) < SER_MAX;
  do_pos : 0 ≤ ds_pos (hv_des s) ≤ ds_size (hv_des s)
}.

(** The root has the values [vs] more, nothing else of the tree changed, and no
    name buffer but the array in scope. *)
Record loaded (o : option nat) s s' (vs : list CM_KEY_VALUE) : Prop := {
  ld_nodes : CmNodes (hv_cm s') = CmNodes (hv_cm s);
  ld_values : Values (CmRootKey (hv_cm s')) = Values (CmRootKey (hv_cm s)) ++ vs;
  ld_count : u32 (ValueCount (CmRootKey (hv_cm s'))) = u32 (ValueCount (CmRootKey (hv_cm s)) + Z.of_nat (length vs));
  ld_children : Children (CmRootKey (hv_cm s')) = Children (CmRootKey (hv_cm s));
  ld_arrays : same_arrays o (hv_cm s) (hv_cm s')
}.

Lemma same_arrays_eq o c c' : Buffers c' = Buffers c → same_arrays o c c'.
Proof. intros Hb. destruct o; [by simpl; rewrite Hb|done]. Qed.

Lemma loaded_nil o s s' :
  CmNodes (hv_cm s') = CmNodes (hv_cm s) → CmRootKey (hv_cm s') = CmRootKey (hv_cm s) →
  Buffers (hv_cm s') = Buffers (hv_cm s) → loaded o s s' [].
Proof.
  intros Hn Hr Hb. constructor; [done|by rewrite Hr, app_nil_r|by rewrite Hr, Z.add_0_r|by rewrite Hr|by apply same_arrays_eq].
Qed.

Lemma loaded_app o s1 s2 s3 v1 v2 : loaded o s1 s2 v1 → loaded o s2 s3 v2 → loaded o s1 s3 (v1 ++ v2).
Proof.
  intros [A B C E F] [A' B' C' E' F']. constructor; [congruence|by rewrite B', B, app_assoc| |congruence|destruct o; simpl in *; congruence].
  rewrite C'. unfold u32 in *. rewrite Z.add_mod, C, <- Z.add_mod by lia. f_equal. rewrite length_app. lia.
Qed.

(** [f] reads [bs] and adds the values [vs], or stops for lack of memory. *)
Definition read_result (o : option nat) (m : gmap Z Z) s (st : Z) s' (rest : list Z) (vs : list CM_KEY_VALUE) : Prop :=
  des_ok o m s' ∧
  (st = STATUS_SUCCESS ∧ ahead s' = rest ∧ loaded o s s' vs ∨
   st = STATUS_NO_MEMORY ∧ ∃ vs', vs' `prefix_of` vs ∧ loaded o s s' vs').
Definition reads (o : option nat) (m : gmap Z Z) (f : M H Z) (bs : list Z) (vs : list CM_KEY_VALUE) : Prop := ∀ s rest,
  des_ok o m s → ahead s = bs ++ rest → ∃ st s', f s = Ok (st, s') ∧ read_result o m s st s' rest vs.

Section Reads.
Context (o : option nat) (m : gmap Z Z).

Lemma des_read_run s bs rest :
  des_ok o m s → ahead s = bs ++ rest →
  ∃ s1, DesRead (Z.of_nat (length bs)) s = Ok ((STATUS_SUCCESS, bs), s1) ∧ des_ok o m s1 ∧ ahead s1 = rest ∧ hv_cm s1 = hv_cm s.
Proof.
  intros Hok Ha. pose proof Hok as [H1 H2 H3 [H4 H4'] H5]. unfold SER_MAX in *. unfold ahead in Ha.
  assert (length bs ≤ length (ds_bytes (hv_des s)) - Z.to_nat (ds_pos (hv_des s)))%nat as Hl
    by (rewrite <- length_drop, Ha, length_app; lia).
  unfold DesRead. unfold mbind at 1, M_bind at 1. cbn [mgets]. rewrite u64_small by lia.
  destruct (Z.ltb_spec (ds_size (hv_des s)) (ds_pos (hv_des s) + Z.of_nat (length bs))); [lia|].
  rewrite Nat2Z.id. erewrite deref_bind; [|destruct (Nat.leb_spec (Z.to_nat (ds_pos (hv_des s)) + length bs) (length (ds_bytes (hv_des s)))); [reflexivity|lia]].
  eexists. split; [unfold sub; rewrite Ha, take_app_length; reflexivity|]. split; [constructor; cbn; try done; lia|]. split; [|done].
  unfold ahead. cbn. rewrite Z2Nat.inj_add, Nat2Z.id, <- drop_drop, Ha by lia. apply drop_app_length.
Qed.

Lemma reads_state s s1 rest vs st s' :
  hv_cm s1 = hv_cm s → read_result o m s1 st s' rest vs → read_result o m s st s' rest vs.
Proof.
  intros Hc [Hok Hr]. split; [done|]. assert (∀ v, loaded o s1 s' v → loaded o s s' v) as Hl by (intros v []; constructor; by rewrite <- Hc).
  destruct Hr as [(? & ? & ?)|(? & v & ? & ?)]; [left|right]; eauto.
Qed.

Lemma reads_bytes k b bs vs n : n = Z.of_nat (length b) → reads o m (k b) bs vs → reads o m (chk (DesRead n) k) (b ++ bs) vs.
Proof.
  intros -> Hk s rest Hok Ha. rewrite <- app_assoc in Ha. destruct (des_read_run s b _ Hok Ha) as (s1 & Hr & Hok1 & Ha1 & Hc).
  unfold chk. rewrite (bind_ok _ _ _ _ _ Hr). cbn [fst snd]. change (NT_SUCCESS STATUS_SUCCESS) with true. cbv match.
  destruct (Hk s1 rest Hok1 Ha1) as (st & s' & Hr' & Hres). exists st, s'. split; [done|]. by apply (reads_state s s1).
Qed.

Lemma reads_field (n : nat) k v bs vs : 0 ≤ v < 256 ^ Z.of_nat n →
  reads o m (k v) bs vs → reads o m (chk (r ← DesRead (Z.of_nat n); mret (r.1, le_val r.2)) k) (le_bytes n v ++ bs) vs.
Proof.
  intros Hv Hk s rest Hok Ha. rewrite <- app_assoc in Ha. destruct (des_read_run s _ _ Hok Ha) as (s1 & Hr & Hok1 & Ha1 & Hc).
  rewrite le_bytes_length in Hr. unfold chk. erewrite bind_ok; [|rewrite (bind_ok _ _ _ _ _ Hr); reflexivity].
  cbn [fst snd]. change (NT_SUCCESS STATUS_SUCCESS) with true. cbv match. rewrite le_val_bytes, Z.mod_small by done.
  destruct (Hk s1 rest Hok1 Ha1) as (st & s' & Hr' & Hres). exists st, s'. split; [done|]. by apply (reads_state s s1).
Qed.

Lemma reads_then f g b1 b2 v1 v2 : reads o m f b1 v1 → reads o m g b2 v2 → reads o m (f ;? g) (b1 ++ b2) (v1 ++ v2).
Proof.
  intros Hf Hg s rest Hok Ha. rewrite <- app_assoc in Ha. destruct (Hf s _ Hok Ha) as (st & s1 & Hr & Hok1 & Hc).
  unfold andthen. rewrite (bind_ok _ _ _ _ _ Hr). destruct Hc as [(-> & Ha1 & Hl1)|(-> & v & Hp & Hl)].
  - change (NT_SUCCESS STATUS_SUCCESS) with true. cbv match. destruct (Hg s1 rest Hok1 Ha1) as (st & s2 & Hr2 & Hok2 & Hc2).
    exists st, s2. split; [done|]. split; [done|]. destruct Hc2 as [(-> & ? & ?)|(-> & v & Hp & ?)]; [left|right].
    + split_and!; [done..|]. by eapply loaded_app.
    + split; [done|]. exists (v1 ++ v). split; [by apply prefix_app|]. by eapply loaded_app.
  - do 2 eexists. split; [reflexivity|]. split; [done|]. right. split; [done|]. exists v. split; [|done]. by apply prefix_app_r.
Qed.

(** A block is taken and given back around a piece of the load. *)
Lemma des_ok_repool p m' s :
  des_ok o m s → cm_inv (hv_cm (repool p s)) m' → (∀ a t, m !! a = Some t → m' !! a = Some t) → des_ok o m (repool p s).
Proof. intros [H1 H2 H3 H4 H5] Hi Hm. constructor; try done. by exists m'. Qed.

Lemma hive_set_run s data vnlen buf ty :
  des_ok o m s → 0 < Z.of_nat (length data) ≤ 65536 →
  ∃ st s', cm (CmSetValue (Some RootKey) (Some (vnlen, buf)) ty data) s = Ok (st, s') ∧ des_ok o m s' ∧
    hv_des s' = hv_des s ∧ (∀ m1, cm_inv (hv_cm s) m1 → ∃ m2, cm_inv (hv_cm s') m2 ∧ ∀ a t, m1 !! a = Some t → m2 !! a = Some t) ∧
    (st = STATUS_SUCCESS ∧ loaded o s s' [mkValue vnlen buf ty (Z.of_nat (length data)) data] ∨
     st = STATUS_NO_MEMORY ∧ loaded o s s' []).
Proof.
  intros Hok Hd. pose proof Hok as [(m1 & Hi & Hm) Hl Hf H4 H5].
  assert (∀ m1, cm_inv (hv_cm s) m1 → ∃ st c m2, CmSetValue (Some RootKey) (Some (vnlen, buf)) ty data (hv_cm s) = Ok (st, c) ∧
    cm_inv c m2 ∧ CmLock_ c = 0 ∧ Buffers c = Buffers (hv_cm s) ∧ (∀ b t, m1 !! b = Some t → m2 !! b = Some t) ∧
    (st = STATUS_SUCCESS ∧ loaded o s (set_hv_cm c s) [mkValue vnlen buf ty (Z.of_nat (length data)) data] ∨
     st = STATUS_NO_MEMORY ∧ loaded o s (set_hv_cm c s) [])) as Hset.
  { intros m3 Hi3. destruct (set_value_run (hv_cm s) m3 RootKey _ vnlen buf ty data Hi3 Hl eq_refl ltac:(lia))
      as (st & c & m2 & Hr & Hi2 & Hl2 & Hb & Hle & Hc). exists st, c, m2. split_and!; [done..|].
    destruct Hc as [(-> & Hr1 & Hr2 & _)|(-> & (Hr1 & Hr2 & _) & _)]; [right|left]; (split; [done|]).
    - by apply loaded_nil.
    - cbn in Hr1, Hr2. constructor; cbn; [done|by rewrite Hr1| |by rewrite Hr1|by apply same_arrays_eq]. rewrite Hr1. cbn. unfold u32. by rewrite Z.mod_mod. }
  destruct (Hset m1 Hi) as (st & c & m2 & Hr & Hi2 & Hl2 & Hb & Hle & Hc). exists st, (set_hv_cm c s).
  split; [unfold cm; by apply zoom_ok|]. split_and!; try done.
  - constructor; cbn; [| |destruct o; simpl in *; by rewrite Hb|done|done]; [|done]. exists m2. split; [done|]. eauto.
  - intros m3 Hi3. destruct (Hset m3 Hi3) as (st3 & c3 & m4 & Hr3 & Hi4 & _ & _ & Hle3 & _).
    rewrite Hr in Hr3. injection Hr3 as <- <-. by exists m4.
Qed.

Lemma reads_data vnlen buf ty data :
  0 < Z.of_nat (length data) ≤ 65536 →
  reads o m (set_data RootKey vnlen buf ty (Z.of_nat (length data))) data [mkValue vnlen buf ty (Z.of_nat (length data)) data].
Proof.
  intros Hd s rest Hok Ha. pose proof Hok as [(m1 & Hi & Hm) _ _ _ _]. unfold set_data.
  destruct (Z.ltb_spec 0 (Z.of_nat (length data))); [|lia].
  destruct (hive_alloc_run s m1 (Z.of_nat (length data)) Hi ltac:(lia)) as (a & p & Hr & Hpc & Hc). rewrite (bind_ok _ _ _ _ _ Hr).
  destruct Hc as [[-> Hi1]|(Ha0 & Hna & Hi1)].
  { do 2 eexists. split; [reflexivity|]. split; [by apply (des_ok_repool _ m1)|]. right. split; [done|]. exists []. split; [apply prefix_nil|by apply loaded_nil]. }
  replace (a =? 0) with false by lia.
  assert (∀ b t, m1 !! b = Some t → <[a := 0]> m1 !! b = Some t) as Hle by (intros b t Hb; rewrite lookup_insert_ne; [done|congruence]).
  assert (des_ok o m (repool p s)) as Hok1 by (apply (des_ok_repool _ (<[a := 0]> m1)); eauto).
  destruct (des_read_run _ data rest Hok1 Ha) as (s2 & Hr2 & Hok2 & Ha2 & Hc2). rewrite (bind_ok _ _ _ _ _ Hr2). cbn [fst snd].
  change (NT_SUCCESS STATUS_SUCCESS) with true. cbn [negb].
  destruct (hive_set_run s2 data vnlen buf ty Hok2 Hd) as (st & s3 & Hr3 & Hok3 & Hds & Hblk & Hc3). rewrite (bind_ok _ _ _ _ _ Hr3).
  destruct (Hblk (<[a := 0]> m1)) as (m3 & Hi3 & Hm3); [by rewrite Hc2|].
  destruct (hive_free_run s3 m3 a Hi3) as (q & Hr4 & Hpq & Hi4); [apply Hm3, lookup_insert_eq|]. rewrite (bind_ok _ _ _ _ _ Hr4).
  eexists _, _. split; [reflexivity|]. split.
  - apply (des_ok_repool _ (delete a m3)); [done..|]. intros b t Hb. rewrite lookup_delete_ne; [apply Hm3, Hle; eauto|].
    intros <-. apply Hm in Hb. congruence.
  - assert (∀ v, loaded o s2 s3 v → loaded o s (repool q s3) v) as Hld by (intros v []; by constructor; rewrite Hc2 in *).
    destruct Hc3 as [[-> Hl]|[-> Hl]]; [left|right].
    + split_and!; [done| |by apply Hld]. unfold ahead in *. cbn. by rewrite Hds.
    + split; [done|]. exists []. split; [apply prefix_nil|by apply Hld].
Qed.

Lemma wide_length nm : length (wide nm) = (2 * length nm)%nat.
Proof. induction nm as [|c nm IH]; [done|]. change (wide (c :: nm)) with (le_bytes 2 c ++ wide nm). rewrite length_app, le_bytes_length, IH. cbn. lia. Qed.

Lemma narrow_wide nm : Forall char nm → narrow (wide nm) = nm.
Proof.
  induction 1 as [|c nm Hc _ IH]; [done|]. change (wide (c :: nm)) with (c mod 256 :: c / 256 mod 256 :: wide nm). cbn. rewrite IH.
  unfold char in Hc. f_equal. Z.div_mod_to_equations. lia.
Qed.

(** The counted loops. *)
Lemma reads_loop {A} (f : M H Z) (eb : A → list Z) (ev : A → list CM_KEY_VALUE) count : 0 ≤ count < 4294967296 → ∀ xs i s rest,
  (∀ x, x ∈ xs → reads o m f (eb x) (ev x)) → 0 ≤ i → i + Z.of_nat (length xs) = count → des_ok o m s →
  ahead s = concat (eb <$> xs) ++ rest →
  ∃ n st s', loops_to (count_turn f count) n i s st s' ∧ 0 < n ≤ Z.of_nat (length xs) + 1 ∧
    read_result o m s st s' rest (concat (ev <$> xs)).
Proof.
  intros Hcount. induction xs as [|x xs IH]; intros i s rest Hf Hi Hc Hok Ha.
  - exists 1, STATUS_SUCCESS, s. split; [|split; [cbn; lia|split; [done|left; split_and!; [done|done|by apply loaded_nil]]]].
    constructor. unfold count_turn. by replace (i <? count) with false by (cbn in Hc; lia).
  - cbn [length] in Hc. cbn [fmap list_fmap concat] in Ha |- *. rewrite <- app_assoc in Ha.
    destruct (Hf x ltac:(left) s _ Hok Ha) as (st & s1 & Hr & Hok1 & Hres).
    assert (count_turn f count i s = if NT_SUCCESS st then Ok (inl (u32 (i + 1)), s1) else Ok (inr st, s1)) as Hturn.
    { unfold count_turn. replace (i <? count) with true by lia. rewrite (bind_ok _ _ _ _ _ Hr). by destruct (NT_SUCCESS st). }
    destruct Hres as [(-> & Ha1 & Hl1)|(-> & v & Hp & Hl)].
    + change (NT_SUCCESS STATUS_SUCCESS) with true in Hturn. cbv match in Hturn. destruct (IH (i + 1) s1 rest) as (n & st & s2 & Hlp & Hn & Hok2 & Hc2); [intros y Hy; apply Hf; by right|lia|lia|done|done|].
      exists (n + 1), st, s2. split; [rewrite u32_small in Hturn by lia; by eapply loops_step|].
      split; [cbn [length]; lia|]. split; [done|]. destruct Hc2 as [(-> & ? & ?)|(-> & v & Hp & ?)]; [left|right].
      * split_and!; [done..|]. by eapply loaded_app.
      * split; [done|]. eexists. split; [by apply prefix_app|]. by eapply loaded_app.
    + exists 1, STATUS_NO_MEMORY, s1. split; [constructor; by rewrite Hturn|]. split; [cbn [length]; lia|]. split; [done|].
      right. split; [done|]. exists v. split; [by apply prefix_app_r|done].
Qed.

Lemma reads_counted {A} (f : M H Z) (eb : A → list Z) (ev : A → list CM_KEY_VALUE) xs :
  Z.of_nat (length xs) < 4294967296 → (∀ x, x ∈ xs → reads o m f (eb x) (ev x)) →
  reads o m (loop (count_turn f (Z.of_nat (length xs))) 0) (concat (eb <$> xs)) (concat (ev <$> xs)).
Proof.
  intros Hl Hf s rest Hok Ha. destruct (reads_loop f eb ev (Z.of_nat (length xs)) ltac:(lia) xs 0 s rest Hf) as (n & st & s' & Hlp & Hn & Hres); [lia|lia|done..|].
  exists st, s'. split; [|done]. by apply (loop_ok _ n); [|lia].
Qed.

End Reads.

(** The name goes into the array in scope. *)
Lemma reads_put m d nm k bs vs :
  (length nm ≤ 255)%nat → reads (Some d) m k bs vs → reads (Some d) m (put_vname d nm;; k) bs vs.
Proof.
  intros Hn Hk s rest Hok Ha. pose proof Hok as [(m' & Hi & Hm) Hl (old & Hold & Hlen) H4 H5].
  unfold put_vname. erewrite bind_ok; [|erewrite deref_bind by exact Hold; erewrite deref_bind
    by (apply store_at_fits; rewrite length_app; cbn; lia); reflexivity].
  set (s1 := set_hv_cm _ s). destruct (Hk s1 rest) as (st & s' & Hr & Hok' & Hc); [|done|].
  - constructor; cbn; [|done| |done|done].
    + exists m'. split; [|done]. destruct Hi as [I1 I2 I3 I4]. constructor; cbn; try done.
    + rewrite lookup_insert_eq. eexists. split; [done|]. by rewrite splice_length by (rewrite length_app; cbn; lia).
  - exists st, s'. split; [done|]. split; [done|].
    assert (∀ v, loaded (Some d) s1 s' v → loaded (Some d) s s' v) as Hld.
    { intros v [A B C E F]. constructor; try done. simpl in F |- *. by rewrite delete_insert_eq in F. }
    destruct Hc as [(? & ? & ?)|(? & v & ? & ?)]; [left|right]; eauto.
Qed.

(** The array lives for the body alone. *)
Lemma reads_block m d f bs vs : reads (Some d) m f bs vs → reads None m (in_block d f) bs vs.
Proof.
  intros Hf s rest Hok Ha. pose proof Hok as [(m' & Hi & Hm) Hl Hno H4 H5].
  unfold in_block. unfold mbind at 1, M_bind at 1. cbn [mmod].
  set (s1 := set_hv_cm _ s). destruct (Hf s1 rest) as (st & s2 & Hr & Hok2 & Hc); [|done|].
  - constructor; cbn; [|done| |done|done].
    + exists m'. split; [|done]. destruct Hi as [I1 I2 I3 I4]. constructor; cbn; try done.
    + rewrite lookup_insert_eq. eexists. split; [done|]. done.
  - rewrite (bind_ok _ _ _ _ _ Hr). do 2 eexists. split; [reflexivity|].
    assert (∀ v, loaded (Some d) s1 s2 v → delete (vname_at d) (Buffers (hv_cm s2)) = Buffers (hv_cm s)) as Hb.
    { intros v [_ _ _ _ F]. simpl in F. rewrite F, delete_insert_eq. apply delete_id, Hno. }
    set (s3 := set_hv_cm _ s2).
    assert (∀ v, loaded (Some d) s1 s2 v → loaded None s s3 v) as Hld.
    { intros v Hv. pose proof (Hb v Hv) as Hb'. destruct Hv as [A B C E F]. by constructor. }
    assert (Buffers (hv_cm s3) = Buffers (hv_cm s)) as Hb3.
    { destruct Hc as [(_ & _ & Hv)|(_ & v & _ & Hv)]; by apply (Hb _ Hv). }
    split.
    + destruct Hok2 as [(m2 & Hi2 & Hm2) Hl2 _ H42 H52]. constructor; [|done| |done|done].
      * exists m2. split; [|done]. destruct Hi2 as [I1 I2 I3 I4]. by constructor.
      * intros i. rewrite Hb3. apply Hno.
    + destruct Hc as [(? & ? & ?)|(? & v & ? & ?)]; [left|right]; eauto.
Qed.

Lemma reads_value m d v : value_ok v → reads None m (des_value d RootKey) (enc_value v) [flat_value d v].
Proof.
  destruct v as [[nm ty] data]. intros ((Hc & Hn) & Hty & Hb & Hlen). unfold des_value, enc_value, flat_value.
  apply reads_block. unfold des_value_body.
  apply (reads_field _ _ 2); [lia|]. cbv beta. replace (255 <? Z.of_nat (length nm)) with false by lia.
  apply reads_bytes; [rewrite wide_length; lia|]. rewrite narrow_wide by done. apply reads_put; [done|].
  apply (reads_field _ _ 4); [lia|]. apply (reads_field _ _ 4); [lia|]. cbv beta.
  replace (65536 <? Z.of_nat (length data)) with false by lia. rewrite <- (app_nil_r [_]) at 1. rewrite app_nil_r. by apply reads_data.
Qed.

Lemma flat_values d vs : concat ((λ v, [flat_value d v]) <$> vs) = flat_value d <$> vs.
Proof. induction vs as [|v vs IH]; [done|]. cbn. by rewrite IH. Qed.

(** A loaded key adds its values and those of its subkeys to the root. *)
Lemma deserialize_reads m : ∀ t d fuel, loadable t → (kdepth t ≤ fuel)%nat →
  reads None m (CmDeserializeKey fuel d RootKey) (enc_key t) (flat d t).
Proof.
  induction t as [nm vs ks IH] using ktree_rec'. intros d [|fuel] ((Hc & Hn) & Hlk & Hlv & Hvs & Hks) Hfu; [cbn in Hfu; lia|].
  rewrite Forall_forall in IH. rewrite Forall_forall in Hvs. rewrite Forall_fmap, Forall_forall in Hks.
  assert (∀ t, t ∈ ks → (kdepth t ≤ fuel)%nat) as Hdk
    by (intros t Ht; apply (kdepth_kids nm vs) in Ht; lia).
  cbn [CmDeserializeKey enc_key flat]. apply (reads_field _ _ 2); [lia|]. cbv beta. replace (255 <? Z.of_nat (length nm)) with false by lia.
  apply reads_bytes; [rewrite wide_length; lia|]. rewrite decide_True by done.
  assert (∀ (k : PKEY → M H Z) bs vs, reads None m (k RootKey) bs vs → reads None m (chk (mret (STATUS_SUCCESS, RootKey)) k) bs vs) as Hret
    by (intros k bs v Hk; exact Hk). apply Hret. clear Hret.
  apply (reads_field _ _ 4); [lia|]. cbv beta. apply reads_then.
  - apply reads_counted; [done|]. intros t Ht. apply IH; [done|by apply Hks|by apply Hdk].
  - apply (reads_field _ _ 4); [lia|]. rewrite <- flat_values. apply reads_counted; [done|]. intros v Hv. by apply reads_value, Hvs.
Qed.

(** ** Saving *)

Lemma fs_put_view s : fs_put (fs_view s) s = s.
Proof. destruct s as [[] ? ? ? ? ?]. done. Qed.

Lemma kept_view s s' : ser_kept s s' → fs_view s' = set_fs_pool (cm_pool (hv_cm s')) (fs_view s).
Proof. intros [_ _ _ H1 H2 H3]. unfold fs_view, set_fs_pool. cbn. by rewrite H1, H2, H3. Qed.

Lemma fat_ok_repool (f : FS P D) p m m' : fat_ok f m → pool_rep p m' → can_lock (pcr p) → fat_ok (set_fs_pool p f) m'.
Proof. intros [] Hp Hc. by constructor. Qed.

Lemma kept_fat_ok s s' m m' : fat_ok (fs_view s) m → ser_kept s s' → cm_inv (hv_cm s') m' → fat_ok (fs_view s') m'.
Proof. intros Hf Hk Hi. rewrite (kept_view s s' Hk). eapply fat_ok_repool; [done|apply Hi..]. Qed.

Lemma ser_init_run s m : cm_inv (hv_cm s) m →
  ∃ st s', SerInit 65536 s = Ok (st, s') ∧ ser_kept s s' ∧
    (st = STATUS_NO_MEMORY ∧ cm_inv (hv_cm s') m ∨
     st = STATUS_SUCCESS ∧ ser_ok s' m ∧ written s' = [] ∧ sb_size (hv_ser s') = 0).
Proof.
  intros Hi. destruct (hive_alloc_run s m 65536 Hi ltac:(lia)) as (a & p & Hr & Hp & Hc). unfold SerInit. rewrite (bind_ok _ _ _ _ _ Hr).
  destruct Hc as [[-> Hi1]|(Ha & Hna & Hi1)].
  { do 2 eexists. split; [reflexivity|]. split; [by apply repool_kept|]. by left. }
  replace (a =? 0) with false by lia. do 2 eexists. split; [reflexivity|]. cbn [mmod]. split; [by constructor|].
  right. split; [done|]. split; [|done]. constructor; cbn [set_hv_ser hv_ser hv_cm sb_data sb_bytes sb_size sb_capacity]; [done|done| |lia|lia].
  rewrite length_replicate. lia.
Qed.

Lemma ser_hive_writes s0 t fuel : key_rep s0 RootKey t → (kdepth t ≤ fuel)%nat → writes s0 (ser_hive fuel) (hive_image t).
Proof.
  intros Hr Hd. unfold ser_hive, hive_image. change (replicate 8 0) with (le_bytes 4 0 ++ le_bytes 4 0). rewrite <- app_assoc.
  do 3 (apply writes_then; [apply write_run|]). by apply serialize_writes.
Qed.

(** The buffer is made and filled. *)
Definition ser_all (fuel : nat) : M H Z := SerInit 65536 ;? ser_hive fuel.

Lemma ser_all_run s m t fuel :
  cm_inv (hv_cm s) m → key_rep s RootKey t → (kdepth t ≤ fuel)%nat → Z.of_nat (length (hive_image t)) < SER_MAX →
  ∃ st s', ser_all fuel s = Ok (st, s') ∧ ser_kept s s' ∧
    (st = STATUS_NO_MEMORY ∨ st = STATUS_SUCCESS ∧ ser_ok s' m ∧ written s' = hive_image t ∧
       sb_size (hv_ser s') = Z.of_nat (length (hive_image t))).
Proof.
  intros Hi Hr Hd Hlen. destruct (ser_init_run s m Hi) as (st & s1 & Hr1 & Hk1 & Hc). unfold ser_all, andthen. rewrite (bind_ok _ _ _ _ _ Hr1).
  destruct Hc as [[-> _]|(-> & Hok & Hw & Hs)]; [do 2 eexists; split; [reflexivity|]; split; [done|by left]|].
  change (NT_SUCCESS STATUS_SUCCESS) with true. cbv match.
  destruct (ser_hive_writes s t fuel Hr Hd s1 m Hk1 Hok ltac:(lia)) as (st & s2 & Hr2 & Hk2 & Hok2 & Hc2).
  exists st, s2. split; [done|]. split; [done|]. destruct Hc2 as [?|(-> & Hw2 & Hs2)]; [by left|right].
  rewrite Hw2, Hw, Hs2, Hs. by split_and!.
Qed.

(** The file is written from the filled buffer, which is then given back. *)
Lemma save_run s s1 m fuel entry0 r f :
  valid (hv_mnt s) = true → ser_all fuel s = Ok (STATUS_SUCCESS, s1) → ser_ok s1 m → sb_size (hv_ser s1) < SER_MAX →
  Fat32WriteFile REG_HIVE_FILE (written s1) entry0 true (fs_view s1) = Ok (r, f) → fat_ok f (<[sb_data (hv_ser s1) := 0]> m) →
  ∃ p, CmSaveHive fuel entry0 s = Ok (if NT_SUCCESS r.1 then STATUS_SUCCESS else r.1, repool p (fs_put f s1)) ∧
    cm_inv (hv_cm (repool p (fs_put f s1))) m ∧ fat_ok (fs_view (repool p (fs_put f s1))) m.
Proof.
  intros Hv Hall Hok Hsz Hw Hfo. pose proof Hok as [Hi Hnew Hl Hs Hc]. unfold SER_MAX in Hsz.
  unfold CmSaveHive. erewrite bind_ok; [|apply zoom_ok; reflexivity]. rewrite fs_put_view. cbn [fs_view mnt]. rewrite Hv. cbn [negb].
  unfold ser_all, andthen in *. apply bind_inv in Hall as (st & s0 & H0 & H1). rewrite (bind_ok _ _ _ _ _ H0).
  destruct (NT_SUCCESS st) eqn:Hst; [|injection H1 as -> ->; discriminate Hst]. rewrite (bind_ok _ _ _ _ _ H1).
  change (NT_SUCCESS STATUS_SUCCESS) with true. cbn [negb]. unfold mbind at 1, M_bind at 1. cbn [mgets].
  rewrite u32_small by lia. change (take _ _) with (written s1).
  erewrite bind_ok; [|apply zoom_ok; exact Hw].
  assert (cm_inv (hv_cm (fs_put f s1)) (<[sb_data (hv_ser s1) := 0]> m)) as Hi2
    by (apply (cm_inv_repool _ (<[sb_data (hv_ser s1) := 0]> m)); [done|apply Hfo..|done]).
  destruct (hive_free_run (fs_put f s1) _ (sb_data (hv_ser s1)) Hi2) as (p & Hr & Hp & Hi3); [apply lookup_insert_eq|].
  rewrite (bind_ok _ _ _ _ _ Hr). rewrite delete_insert_id in Hi3 by done. exists p. split; [done|]. split; [done|].
  apply (fat_ok_repool f p _ m Hfo); apply Hi3.
Qed.

(** ** Loading a file *)

Lemma kdepth_enc t : (kdepth t ≤ length (enc_key t))%nat.
Proof.
  induction t as [nm vs ks IH] using ktree_rec'. cbn [kdepth enc_key]. rewrite !length_app, !le_bytes_length.
  enough (max_list (kdepth <$> ks) ≤ length (concat (enc_key <$> ks)))%nat by lia.
  induction IH as [|t ks Ht _ IH]; [done|]. cbn. rewrite length_app. lia.
Qed.

(** What a load leaves: the registry in order, no local array, and the values of
    [t] at the root, all of them or, for lack of memory, the first ones. *)
Definition load_result s t (st : Z) s' : Prop :=
  (∃ m', cm_inv (hv_cm s') m') ∧ CmLock_ (hv_cm s') = 0 ∧ arrays None (hv_cm s') ∧
  (st = STATUS_SUCCESS ∧ loaded None s s' (flat 0 t) ∨
   st = STATUS_NO_MEMORY ∧ ∃ vs, vs `prefix_of` flat 0 t ∧ loaded None s s' vs).

Lemma load_image_run s m t rest a :
  cm_inv (hv_cm s) m → m !! a = Some 0 → CmLock_ (hv_cm s) = 0 → arrays None (hv_cm s) → loadable t →
  Z.of_nat (length (hive_image t ++ rest)) < SER_MAX →
  ∃ st s', load_image a (hive_image t ++ rest) s = Ok (st, s') ∧ load_result s t st s'.
Proof.
  intros Hi Ha Hl Hf Hld Hlen. unfold load_image. unfold mbind at 1, M_bind at 1. cbn [mmod].
  set (s0 := set_hv_des _ s). assert (des_ok None m s0) as Hok0 by (constructor; cbn; [by exists m|done..|lia]).
  assert (ahead s0 = g_HiveMagic ++ le_bytes 4 0 ++ le_bytes 4 0 ++ enc_key t ++ rest) as Ha0
    by (unfold ahead, s0, hive_image; cbn [set_hv_des hv_des ds_bytes ds_pos]; by rewrite <- !app_assoc).
  destruct (des_read_run None m s0 _ _ Hok0 Ha0) as (s1 & Hr1 & Hok1 & Ha1 & Hc1).
  change (Z.of_nat (length g_HiveMagic)) with 8 in Hr1. rewrite (bind_ok _ _ _ _ _ Hr1). cbn [fst snd].
  rewrite bool_decide_true by done. change (NT_SUCCESS STATUS_SUCCESS) with true. cbn [negb orb].
  destruct (des_read_run None m s1 _ _ Hok1 Ha1) as (s2 & Hr2 & Hok2 & Ha2 & Hc2).
  destruct (des_read_run None m s2 _ _ Hok2 Ha2) as (s3 & Hr3 & Hok3 & Ha3 & Hc3). rewrite le_bytes_length in Hr2, Hr3.
  change (Z.of_nat 4) with 4 in Hr2, Hr3. unfold DesReadU32.
  erewrite bind_ok; [|rewrite (bind_ok _ _ _ _ _ Hr2); reflexivity]. erewrite bind_ok; [|rewrite (bind_ok _ _ _ _ _ Hr3); reflexivity].
  destruct (deserialize_reads m t 0 (S (length (hive_image t ++ rest))) Hld) with s3 rest as (st & s4 & Hr4 & Hok4 & Hres); [|done|done|].
  { pose proof (kdepth_enc t). unfold hive_image. rewrite !length_app. lia. }
  change CmGetRootKey with RootKey. rewrite (bind_ok _ _ _ _ _ Hr4). destruct (do_cm _ _ _ Hok4) as (m' & Hi4 & Hm).
  destruct (hive_free_run s4 m' a Hi4) as (p & Hr5 & _ & Hi5); [by apply Hm|]. rewrite (bind_ok _ _ _ _ _ Hr5).
  exists st, (repool p s4). split; [done|]. split; [by exists (delete a m')|]. split; [apply Hok4|]. split; [apply Hok4|].
  assert (∀ v, loaded None s3 s4 v → loaded None s (repool p s4) v) as Hld'
    by (intros v []; constructor; cbn [repool set_hv_cm hv_cm set_cm_pool CmNodes CmRootKey same_arrays Buffers];
        by rewrite Hc3, Hc2, Hc1 in * ).
  destruct Hres as [(-> & _ & Hv)|(-> & v & Hp & Hv)]; [left|right]; eauto.
Qed.

(** The file named registry.dat starts with the image of [t]. *)
Definition file_holds (f : FS P D) (t : ktree) : Prop :=
  ∃ dl l e rest, chain (fat f) (root_cluster (mnt f)) dl ∧ find_entry f dl REG_HIVE_FILE = Some e ∧
    chain (fat f) (first_cluster e) l ∧ 2 ≤ first_cluster e ∧
    take (Z.to_nat (Z.min (FileSize e) 1048576)) (content f l) = hive_image t ++ rest.

Lemma load_run s m t :
  cm_inv (hv_cm s) m → fat_ok (fs_view s) m → CmLock_ (hv_cm s) = 0 → arrays None (hv_cm s) → loadable t →
  file_holds (fs_view s) t →
  ∃ st s', CmLoadHive s = Ok (st, s') ∧ load_result s t st s'.
Proof.
  intros Hi Hfo Hl Hf Hld (dl & l & e & rest & Hdl & He & Hch & Hfc & Hfile). unfold CmLoadHive.
  erewrite bind_ok; [|apply zoom_ok; reflexivity]. rewrite fs_put_view, (fo_valid _ _ Hfo). cbn [negb].
  destruct (hive_alloc_run s m 1048576 Hi ltac:(lia)) as (a & p & Hr & Hp & Hc). rewrite (bind_ok _ _ _ _ _ Hr).
  assert (∀ s' m', cm_inv (hv_cm s') m' → hv_cm s' = set_cm_pool (cm_pool (hv_cm s')) (hv_cm s) → load_result s t STATUS_NO_MEMORY s') as Hnomem.
  { intros s' m' Hi' Hs'. split; [by exists m'|]. rewrite Hs'. split; [done|]. split; [done|]. right. split; [done|].
    exists []. split; [apply prefix_nil|]. by apply loaded_nil; rewrite Hs'. }
  destruct Hc as [[-> Hi1]|(Ha & Hna & Hi1)]; [do 2 eexists; split; [reflexivity|by apply (Hnomem _ m)]|].
  replace (a =? 0) with false by lia.
  assert (fat_ok (fs_view (repool p s)) (<[a := 0]> m)) as Hfo1 by (apply (fat_ok_repool (fs_view s) p m); [done|apply Hi1..]).
  destruct (read_file_run (fs_view (repool p s)) _ REG_HIVE_FILE dl l 1048576 Hfo1 Hdl ltac:(lia)) as (r & f & Hr1 & Hfo2 & Hs & Hres).
  { intros e' He' _. change (find_entry (fs_view s) dl REG_HIVE_FILE = Some e') in He'. rewrite He in He'. by injection He' as <-. }
  erewrite bind_ok; [|apply zoom_ok; exact Hr1]. set (s2 := fs_put f (repool p s)).
  assert (cm_inv (hv_cm s2) (<[a := 0]> m)) as Hi2 by (apply (cm_inv_repool _ (<[a := 0]> m)); [exact Hi1|apply Hfo2..|done]).
  assert (s2 = s2 ∧ CmNodes (hv_cm s2) = CmNodes (hv_cm s) ∧ CmRootKey (hv_cm s2) = CmRootKey (hv_cm s)) as (_ & Hn2 & Hr2) by done.
  destruct Hres as [->| ->].
  - change (NT_SUCCESS STATUS_NO_MEMORY) with false. cbn [negb].
    destruct (hive_free_run s2 _ a Hi2) as (q & Hr3 & _ & Hi3); [apply lookup_insert_eq|]. rewrite (bind_ok _ _ _ _ _ Hr3).
    do 2 eexists. split; [reflexivity|]. by eapply Hnomem.
  - change (find_entry (fs_view (repool p s)) dl REG_HIVE_FILE) with (find_entry (fs_view s) dl REG_HIVE_FILE). rewrite He.
    change (content (fs_view (repool p s)) l) with (content (fs_view s) l). rewrite Hfile.
    assert (16 ≤ length (hive_image t))%nat as H16 by (unfold hive_image; rewrite !length_app; cbn; lia).
    assert (length (hive_image t ++ rest) ≤ Z.to_nat (Z.min (FileSize e) 1048576))%nat as Hlen by (rewrite <- Hfile, length_take; lia).
    pose proof Hlen as Hlen'. rewrite length_app in Hlen'.
    destruct (Z.eqb_spec (FileSize e) 0) as [Hz|_]; [rewrite Hz in Hlen'; cbn in Hlen'; lia|].
    replace (first_cluster e <? 2) with false by lia. cbv zeta. change (NT_SUCCESS STATUS_SUCCESS) with true. cbn [negb].
    replace (Z.of_nat (length (hive_image t ++ rest)) <? 16) with false by (rewrite length_app; lia).
    destruct (load_image_run s2 _ t rest a Hi2 ltac:(apply lookup_insert_eq) Hl Hf Hld) as (st & s' & Hr3 & Hm' & Hl' & Har & Hres); [unfold SER_MAX; lia|].
    exists st, s'. do 4 (split; [done|]). assert (∀ v, loaded None s2 s' v → loaded None s s' v) as Hld' by (intros v []; by constructor).
    destruct Hres as [[-> ?]|(-> & v & ? & ?)]; [left|right]; eauto.
Qed.

(** ** Saving and loading *)

Lemma wide_bytes nm : Forall byte (wide nm).
Proof. induction nm as [|c nm IH]; [constructor|]. change (wide (c :: nm)) with (le_bytes 2 c ++ wide nm). apply Forall_app. split; [apply le_bytes_byte|done]. Qed.

Lemma concat_bytes {A} (f : A → list Z) l : (∀ x, x ∈ l → Forall byte (f x)) → Forall byte (concat (f <$> l)).
Proof. induction l as [|x l IH]; intros Hf; [constructor|]. cbn. apply Forall_app. split; [apply Hf; left|apply IH; intros y Hy; apply Hf; by right]. Qed.

Lemma image_bytes t : loadable t → Forall byte (hive_image t).
Proof.
  intros Hl. unfold hive_image. rewrite !Forall_app. split_and!; [repeat (constructor; [unfold byte; lia|]); constructor|apply Forall_replicate; unfold byte; lia|].
  induction t as [nm vs ks IH] using ktree_rec'. destruct Hl as (_ & _ & _ & Hvs & Hks). rewrite Forall_forall in IH.
  rewrite Forall_forall in Hvs. rewrite Forall_fmap, Forall_forall in Hks. cbn [enc_key]. rewrite !Forall_app.
  split_and!; try apply le_bytes_byte; [apply wide_bytes| |].
  - apply concat_bytes. intros t Ht. apply IH; [done|by apply Hks].
  - apply concat_bytes. intros [[nm' ty] data] Hv. destruct (Hvs _ Hv) as (_ & _ & Hb & _). unfold enc_value.
    rewrite !Forall_app. split_and!; try apply le_bytes_byte; [apply wide_bytes|done].
Qed.

(** No memory for the buffer: nothing is written. *)
Lemma save_nomem s m t fuel entry0 s1 :
  cm_inv (hv_cm s) m → valid (hv_mnt s) = true → key_rep s RootKey t → (kdepth t ≤ fuel)%nat →
  Z.of_nat (length (hive_image t)) < SER_MAX → ser_all fuel s = Ok (STATUS_NO_MEMORY, s1) →
  ∃ s', CmSaveHive fuel entry0 s = Ok (STATUS_NO_MEMORY, s') ∧ same_tree (hv_cm s) (hv_cm s').
Proof.
  intros Hi Hv Hr Hd Hlen Hall. unfold CmSaveHive. erewrite bind_ok; [|apply zoom_ok; reflexivity]. rewrite fs_put_view.
  cbn [fs_view mnt]. rewrite Hv. cbn [negb]. destruct (ser_init_run s m Hi) as (st & s0 & H0 & Hk0 & Hc).
  unfold ser_all, andthen in *. rewrite (bind_ok _ _ _ _ _ H0) in Hall. rewrite (bind_ok _ _ _ _ _ H0).
  destruct Hc as [[-> _]|(-> & Hok & _ & Hs)]; [eexists; split; [reflexivity|apply Hk0]|].
  change (NT_SUCCESS STATUS_SUCCESS) with true in *. cbv match in Hall |- *.
  destruct (ser_hive_writes s t fuel Hr Hd s0 m Hk0 Hok ltac:(lia)) as (st & s2 & Hr2 & Hk2 & Hok2 & _).
  rewrite Hr2 in Hall. injection Hall as -> ->. rewrite (bind_ok _ _ _ _ _ Hr2). change (NT_SUCCESS STATUS_NO_MEMORY) with false. cbn [negb].
  unfold mbind at 1, M_bind at 1. cbn [mgets].
  destruct (hive_free_run s1 _ (sb_data (hv_ser s1)) (so_cm _ _ Hok2)) as (p & Hf & _); [apply lookup_insert_eq|].
  rewrite (bind_ok _ _ _ _ _ Hf). eexists. split; [reflexivity|]. apply Hk2.
Qed.

Lemma take_prefix (l b : list Z) n k : (n ≤ k)%nat → take n l = b → length b = n → take k l = b ++ take (k - n) (drop n l).
Proof. intros Hk <- Hl. rewrite <- (take_drop n (take k l)), take_take, skipn_firstn_comm. by rewrite Nat.min_l. Qed.

(** ** Names after a load *)

(** The name descriptors of loaded values point to arrays that are gone. *)
Lemma flat_dead (c : CM_STATE P) t : arrays None c → ∀ d, Forall (λ v, vname c v = None) (flat d t).
Proof.
  intros Hno. induction t as [nm vs ks IH] using ktree_rec'. intros d. cbn [flat]. apply Forall_app. split.
  - clear vs. induction IH as [|k ks Hk _ IHks]; [constructor|]. cbn. apply Forall_app. split; [apply Hk|apply IHks].
  - apply Forall_fmap, Forall_true. intros [[nm' ty] data]. unfold vname. cbn. by rewrite Hno.
Qed.

(** A lookup by name that passes the values with names reads such a descriptor. *)
Lemma find_dead (c : CM_STATE P) pre v rest nm :
  (∀ w, w ∈ pre → ∃ x, vname c w = Some x ∧ name_eq x nm = false) → vname c v = None →
  find_value (pre ++ v :: rest) nm c = Undef.
Proof.
  intros Hpre Hv. induction pre as [|w pre IH]; cbn [app find_value].
  - unfold mderef, mbind, M_bind. by rewrite Hv.
  - destruct (Hpre w) as (x & Hx & Hne); [by left|]. rewrite (deref_bind (λ c, vname c w) _ _ _ Hx), Hne.
    apply IH. intros y Hy. apply Hpre. by right.
Qed.

Lemma query_dead (c : CM_STATE P) m pre v rest nm n :
  cm_inv c m → CmLock_ c = 0 → Values (CmRootKey c) = pre ++ v :: rest →
  (∀ w, w ∈ pre → ∃ x, vname c w = Some x ∧ name_eq x nm = false) → vname c v = None →
  CmQueryValue (Some RootKey) nm n c = Undef.
Proof.
  intros Hi Hl Hvs Hpre Hv. unfold CmQueryValue. rewrite acquire_bind by (done || apply Hi).
  unfold get_key. erewrite deref_bind by reflexivity. cbn [key_of].
  change (CmRootKey (locked CmLock c)) with (CmRootKey c). rewrite Hvs.
  unfold mbind at 1, M_bind at 1. by rewrite (find_dead (locked CmLock c) pre v rest nm).
Qed.

(** The saved volume is mounted in [s']. *)
Definition same_volume s s' : Prop := hv_mnt s' = hv_mnt s ∧ hv_fat s' = hv_fat s ∧ hv_dev s' = hv_dev s.

Lemma load_names s m t :
  cm_inv (hv_cm s) m → fat_ok (fs_view s) m → CmLock_ (hv_cm s) = 0 → arrays None (hv_cm s) → loadable t →
  file_holds (fs_view s) t →
  ∃ st s', CmLoadHive s = Ok (st, s') ∧ load_result s t st s' ∧ Forall (λ v, vname (hv_cm s') v = None) (flat 0 t) ∧
    (st = STATUS_SUCCESS → flat 0 t ≠ [] → ∀ nm n,
       (∀ w, w ∈ Values (CmRootKey (hv_cm s)) → ∃ x, vname (hv_cm s) w = Some x ∧ name_eq x nm = false) →
       CmQueryValue (Some RootKey) nm n (hv_cm s') = Undef).
Proof.
  intros Hi Hfo Hl Hno Hld Hfile. destruct (load_run s m t Hi Hfo Hl Hno Hld Hfile) as (st & s' & Hr & Hres).
  exists st, s'. split; [done|]. split; [done|]. destruct Hres as ((m' & Hi') & Hl' & Hno' & Hc).
  pose proof (flat_dead (hv_cm s') t Hno' 0) as Hdead. split; [done|]. intros -> Hne nm n Hpre.
  destruct Hc as [[_ [_ Hvs _ _ Hb]]|[Hbad _]]; [|discriminate Hbad].
  destruct (flat 0 t) as [|v rest]; [done|]. apply Forall_cons in Hdead as [Hv _].
  eapply (query_dead (hv_cm s') m' _ v rest); [done|done|exact Hvs| |done].
  intros w Hw. destruct (Hpre w Hw) as (x & Hx & He). exists x. split; [|done].
  revert Hx. unfold vname. simpl in Hb. by rewrite Hb.
Qed.


(** A value CmSaveHive writes and a load refuses: with a name of more than 255
    characters or more than 65536 bytes of data, the turn of the loop that meets
    it ends the load with STATUS_INVALID_IMAGE_FORMAT, and sets nothing. *)
Theorem oversized_value_refused m d nm ty data s rest :
  des_ok None m s → ahead s = enc_value (nm, ty, data) ++ rest → Forall char nm → 0 ≤ ty < 4294967296 →
  Z.of_nat (length nm) < 65536 → Z.of_nat (length data) < 4294967296 →
  (255 < length nm)%nat ∨ 65536 < Z.of_nat (length data) →
  ∃ s', des_value d RootKey s = Ok (STATUS_INVALID_IMAGE_FORMAT, s') ∧ loaded None s s' [].
Proof.
  intros Hok Ha Hc Hty Hn Hd Hbig. pose proof Hok as [(m' & Hi & Hm) Hl Hno H4 H5].
  set (s0 := set_hv_cm (set_Buffers (<[vname_at d := replicate 256 0]> (Buffers (hv_cm s))) (hv_cm s)) s).
  assert (des_ok (Some d) m s0) as Hok0.
  { constructor; cbn -[replicate]; [|done| |done|done].
    - exists m'. split; [|done]. destruct Hi as [I1 I2 I3 I4]. by constructor.
    - rewrite lookup_insert_eq. eexists. split; [done|]. apply length_replicate. }
  enough (∃ s1, des_value_body d RootKey s0 = Ok (STATUS_INVALID_IMAGE_FORMAT, s1) ∧ loaded (Some d) s0 s1 [])
    as (s1 & Hr & [A B C E F]).
  { unfold des_value, in_block. unfold mbind at 1, M_bind at 1. cbn [mmod]. fold s0. rewrite (bind_ok _ _ _ _ _ Hr).
    eexists. split; [reflexivity|]. constructor; try done. cbn in F |- *. rewrite F, delete_insert_eq. apply delete_id, Hno. }
  unfold enc_value in Ha. rewrite <- !app_assoc in Ha. change (ahead s) with (ahead s0) in Ha. unfold des_value_body, DesReadU16, DesReadU32, chk.
  destruct (des_read_run _ m s0 _ _ Hok0 Ha) as (s1 & R1 & O1 & A1 & C1). rewrite le_bytes_length in R1. change (Z.of_nat 2) with 2 in R1.
  erewrite bind_ok; [|rewrite (bind_ok _ _ _ _ _ R1); reflexivity]. cbn [fst snd]. change (NT_SUCCESS STATUS_SUCCESS) with true. cbv match.
  rewrite le_val_bytes, Z.mod_small by lia.
  destruct (Z.ltb_spec 255 (Z.of_nat (length nm))) as [Hlong|Hshort].
  { exists s1. split; [done|]. apply loaded_nil; by rewrite C1. }
  destruct Hbig as [Hbig|Hbig]; [lia|].
  destruct (des_read_run _ m s1 _ _ O1 A1) as (s2 & R2 & O2 & A2 & C2). rewrite wide_length in R2.
  replace (Z.of_nat (2 * length nm)) with (Z.of_nat (length nm) * 2) in R2 by lia. rewrite (bind_ok _ _ _ _ _ R2). cbn [fst snd].
  change (NT_SUCCESS STATUS_SUCCESS) with true. cbv match. rewrite narrow_wide by done.
  destruct (do_arrays _ _ _ O2) as (old & Hold & Hlen).
  unfold put_vname. erewrite bind_ok; [|erewrite deref_bind by exact Hold; erewrite deref_bind
    by (apply store_at_fits; rewrite length_app; cbn; lia); reflexivity].
  set (s3 := set_hv_cm _ s2).
  assert (des_ok (Some d) m s3) as O3.
  { destruct O2 as [(m2 & Hi2 & Hm2) L2 _ H42 H52]. constructor; cbn; [|done| |done|done].
    - exists m2. split; [|done]. destruct Hi2 as [I1 I2 I3 I4]. by constructor.
    - rewrite lookup_insert_eq. eexists. split; [done|]. by rewrite splice_length by (rewrite length_app; cbn; lia). }
  destruct (des_read_run _ m s3 _ _ O3 A2) as (s4 & R4 & O4 & A4 & C4). rewrite le_bytes_length in R4. change (Z.of_nat 4) with 4 in R4.
  erewrite bind_ok; [|rewrite (bind_ok _ _ _ _ _ R4); reflexivity]. cbn [fst snd]. change (NT_SUCCESS STATUS_SUCCESS) with true. cbv match.
  destruct (des_read_run _ m s4 _ _ O4 A4) as (s5 & R5 & O5 & A5 & C5). rewrite le_bytes_length in R5. change (Z.of_nat 4) with 4 in R5.
  erewrite bind_ok; [|rewrite (bind_ok _ _ _ _ _ R5); reflexivity]. cbn [fst snd]. change (NT_SUCCESS STATUS_SUCCESS) with true. cbv match.
  rewrite le_val_bytes, (Z.mod_small (Z.of_nat (length data))) by lia.
  destruct (Z.ltb_spec 65536 (Z.of_nat (length data))) as [_|]; [|lia]. exists s5. split; [done|].
  assert (∀ c1 c2, CmNodes c2 = CmNodes c1 → CmRootKey c2 = CmRootKey c1 → Buffers c2 = <[vname_at d := splice 0 (nm ++ [0]) old]> (Buffers c1) →
    ∀ x y, hv_cm x = c1 → hv_cm y = c2 → loaded (Some d) x y []) as Hld.
  { intros c1 c2 E1 E2 E3 x y <- <-. constructor; [done|by rewrite E2, app_nil_r|by rewrite E2, Z.add_0_r|by rewrite E2|].
    cbn. by rewrite E3, delete_insert_eq. }
  eapply (Hld (hv_cm s0) (hv_cm s5)); [by rewrite C5, C4; cbn; rewrite C2, C1..|done|done].
Qed.

End Hive.

(** ** A root key with one value, on the volume of Fat32 *)

Definition demo_frame (_ : nat) : Z := 0x7000.
Definition demo_hive : HIVE POOL_STATE RAMDISK :=
  mkHive (mkCm (mkKey [BACKSLASH] None [] [mkValue 1 0x5000 4 4 [1; 2; 3; 4]] 0 1) ∅
            {[ 0x5000 := [65; 66] ]} 0 demo_pool)
    (mnt demo_fs) (fat_mem demo_fs) (dev demo_fs) (mkSer 0 [] 0 0) (mkDes [] 0 0).
Definition demo_tree : ktree := KNode [BACKSLASH] [([65], 4, [1; 2; 3; 4])] [].

Lemma demo_hive_cm : cm_inv (hv_cm demo_hive) ∅.
Proof.
  assert (∀ a n, CmNodes (hv_cm demo_hive) !! a ≠ Some n) as Hno by exact lookup_empty_Some.
  constructor; [exact demo_pool_rep|exact demo_can_lock|intros a n Hn; by apply Hno in Hn|].
  intros [|a] n c Hk Hc; [|by apply Hno in Hk]. injection Hk as <-. by apply not_elem_of_nil in Hc.
Qed.

Lemma demo_hive_arrays : arrays demo_frame None (hv_cm demo_hive).
Proof. intros i. vm_compute. reflexivity. Qed.

Lemma demo_tree_rep : key_rep demo_hive RootKey demo_tree.
Proof.
  apply key_rep_unfold. eexists. split; [reflexivity|]. split_and!; try done.
  constructor; [|constructor]. split_and!; try done.
Qed.

Lemma demo_tree_loadable : loadable demo_tree.
Proof.
  assert (∀ c, char c → name_ok [c]) as Hc by (intros c Hc; split; [by apply Forall_singleton|cbn; lia]).
  split_and!; cbn; try lia; [apply Hc; unfold char, BACKSLASH; lia| |constructor].
  apply Forall_singleton. split_and!; cbn; try lia; [apply Hc; unfold char; lia|].
  repeat (apply Forall_cons; split; [unfold byte; lia|]). apply Forall_nil_2.
Qed.

Definition saved_ok (r save : Res (Z * HIVE POOL_STATE RAMDISK)) : bool :=
  match r with
  | Ok (st, s1) =>
      (st =? STATUS_SUCCESS) &&
      match Fat32FindEntry (root_cluster (mnt demo_fs)) REG_HIVE_FILE (fs_view s1) with
      | Ok ((st2, Some e), _) => (st2 =? STATUS_SUCCESS) && bool_decide (e = demo_entry)
      | _ => false
      end &&
      match save with Ok (st3, _) => st3 =? STATUS_SUCCESS | _ => false end
  | _ => false
  end.

Lemma demo_saved_ok : saved_ok (ser_all 1 demo_hive) (CmSaveHive 1 [] demo_hive) = true.
Proof. vm_compute. reflexivity. Qed.

Lemma saved_unfold r save st1 s1 :
  r = Ok (st1, s1) → saved_ok r save = true →
  st1 = STATUS_SUCCESS ∧ (∃ f0, Fat32FindEntry (root_cluster (mnt demo_fs)) REG_HIVE_FILE (fs_view s1) = Ok ((STATUS_SUCCESS, Some demo_entry), f0)) ∧
  ∀ st3 s3, save = Ok (st3, s3) → st3 = STATUS_SUCCESS.
Proof.
  intros ->. unfold saved_ok. intros [[H1%Z.eqb_eq H2]%andb_true_iff H3]%andb_true_iff. split; [exact H1|]. split.
  - destruct (Fat32FindEntry _ _ (fs_view s1)) as [[[st2 [e|]] f0]| | | |]; try discriminate H2.
    apply andb_true_iff in H2 as [->%Z.eqb_eq ->%bool_decide_eq_true]. by exists f0.
  - intros st3 s3 ->. by apply Z.eqb_eq.
Qed.

