(* ===== verification/Ntfs.v ===== *)
(** * Ntfs: the NTFS reader (src/fs/ntfs.c)

    The mount record, file records of the master file table, the walk over their
    attributes, data runs, and reading a file by its index.  Records and sectors
    are bytes; a read outside a record is [Undef].  The disk is any
    [BlockDevice], buffers come from any [PoolInterface]. *)

From S2P Require Import Prelude Irql Pool Disk Fat32.

#[local] Open Scope Z_scope.

Definition STATUS_BUFFER_TOO_SMALL := 0xC0000023.

Definition ATTR_FILE_NAME := 0x30.
Definition ATTR_DATA := 0x80.
Definition ATTR_END := 0xFFFFFFFF.

(** ** The on-disk records *)

(** NTFS_BOOT_SECTOR. *)
Definition oem_id (b : list Z) : list Z := sub 3 8 b.
Definition b_bytes_per_sector (b : list Z) : Z := field 11 2 b.
Definition b_sectors_per_cluster (b : list Z) : Z := field 13 1 b.
Definition b_total_sectors (b : list Z) : Z := field 46 8 b.
Definition mft_logical_cluster (b : list Z) : Z := field 54 8 b.
Definition mft_mirror_logical_cluster (b : list Z) : Z := field 62 8 b.
Definition b_clusters_per_mft_record (b : list Z) : Z := s32 (field 70 4 b).
Definition b_clusters_per_index_block (b : list Z) : Z := s32 (field 78 4 b).

(** NTFS_FILE_RECORD_HEADER. *)
Definition magic (r : list Z) : list Z := sub 0 4 r.
Definition first_attr_offset (r : list Z) : Z := field 20 2 r.

(** NTFS_ATTR_HEADER, of 24 bytes. *)
Definition sizeof_ATTR : nat := 24.
Definition a_type (a : list Z) : Z := field 0 4 a.
Definition a_length (a : list Z) : Z := field 4 4 a.
Definition non_resident (a : list Z) : Z := field 8 1 a.
Definition value_length (a : list Z) : Z := field 16 4 a.
Definition value_offset (a : list Z) : Z := field 20 2 a.

Record NTFS_MOUNT := mkNtfs {
  n_partition_start : Z;
  n_bytes_per_sector : Z;
  n_bytes_per_cluster : Z;
  clusters_per_mft_record : Z;
  bytes_per_mft_record : Z;
  clusters_per_index_block : Z;
  bytes_per_index_block : Z;
  mft_lcn : Z;
  mft_mirror_lcn : Z;
  n_total_sectors : Z;
  n_valid : bool
}.

Record NTFS (P D : Type) := mkNt { g_NtfsMount : NTFS_MOUNT; nt_pool : P; nt_dev : D }.
Arguments mkNt {P D} _ _ _.
Arguments g_NtfsMount {P D} _.
Arguments nt_pool {P D} _.
Arguments nt_dev {P D} _.

(** ** Data runs *)

(** [for (i...) v |= (ULONG64)p[i] << (8 * i)] *)
Fixpoint or_bytes (i : Z) (bs : list Z) (v : Z) : Z :=
  match bs with
  | [] => v
  | b :: bs' => or_bytes (i + 1) bs' (Z.lor v (u64 (Z.shiftl b (8 * i))))
  end.

(** The sign bytes above the [n] bytes of the offset. *)
Definition sign_extend (n : nat) (v : Z) : Z := or_bytes (Z.of_nat n) (replicate (8 - n) 0xFF) v.

Definition last_byte (bs : list Z) : Z := default 0 (last bs).

(** The next run of the list at [p]: where it ends, its length and its cluster;
    nothing at the end of the list. *)
Definition NtfsDecodeDataRun (rec : list Z) (p : Z) : option (option (Z * Z * Z)) :=
  hdr ← bytes_at p 1 rec;
  let hdr := le_val hdr in
  if hdr =? 0 then Some None
  else
    let len_size := Z.shiftr hdr 4 in
    let off_size := Z.land hdr 0x0F in
    if (len_size =? 0) || (8 <? len_size) || (8 <? off_size) then Some None
    else
      len ← bytes_at (p + 1) len_size rec;
      off ← bytes_at (p + 1 + len_size) off_size rec;
      let offset := or_bytes 0 off 0 in
      let offset := if (0 <? off_size) && has_bits (last_byte off) 0x80 then sign_extend (length off) offset else offset in
      let lcn := if s64 offset <? 0 then 0 else offset in
      Some (Some (p + 1 + len_size + off_size, or_bytes 0 len 0, lcn)).

(** ** Data runs, decoded *)

Lemma lor_shifted v b n : 0 ≤ v < 2 ^ n → 0 ≤ n → Z.lor v (Z.shiftl b n) = v + b * 2 ^ n.
Proof.
  intros Hv Hn. assert (Z.land v (Z.shiftl b n) = 0) as Hl.
  { apply Z.bits_inj'. intros i Hi. rewrite Z.land_spec, Z.bits_0. destruct (Z.lt_ge_cases i n) as [Hlt|Hge].
    - rewrite Z.shiftl_spec_low by done. apply andb_false_r.
    - rewrite <- (Z.mod_small v (2 ^ n)) by done. by rewrite Z.mod_pow2_bits_high by lia. }
  by rewrite <- Z.shiftl_mul_pow2, Z.add_nocarry_lxor, Z.lxor_lor by done.
Qed.

Lemma or_bytes_le bs : ∀ i v, Forall byte bs → 0 ≤ i → i + Z.of_nat (length bs) ≤ 8 → 0 ≤ v < 2 ^ (8 * i) →
  or_bytes i bs v = v + le_val bs * 2 ^ (8 * i).
Proof.
  induction bs as [|b bs IH]; intros i v Hb Hi Hl Hv; [cbn; lia|]. apply Forall_cons in Hb as [Hb Hbs]. unfold byte in Hb. cbn [or_bytes length] in *.
  assert (2 ^ (8 * (i + 1)) = 256 * 2 ^ (8 * i)) as Hp by (rewrite Z.mul_add_distr_l, Z.pow_add_r by lia; lia).
  assert (0 < 2 ^ (8 * i)) by (apply Z.pow_pos_nonneg; lia).
  assert (2 ^ (8 * i) ≤ 2 ^ 56) by (apply Z.pow_le_mono_r; lia).
  assert (u64 (Z.shiftl b (8 * i)) = Z.shiftl b (8 * i)) as ->
    by (apply u64_small; rewrite Z.shiftl_mul_pow2 by lia; change (2 ^ 56) with 72057594037927936 in *; nia).
  rewrite lor_shifted by lia. rewrite IH; [|done|lia|lia|rewrite Hp; nia]. cbn [le_val]. rewrite Hp. lia.
Qed.

Lemma le_val_ff n : le_val (replicate n 255) = 256 ^ Z.of_nat n - 1.
Proof. induction n as [|n IH]; [done|]. cbn [replicate le_val]. rewrite IH, Nat2Z.inj_succ, Z.pow_succ_r by lia. lia. Qed.

Lemma le_val_app a b : le_val (a ++ b) = le_val a + 256 ^ Z.of_nat (length a) * le_val b.
Proof.
  induction a as [|x a IH]; [cbn [length app le_val]; rewrite Z.mul_1_l; lia|]. cbn [app le_val length].
  rewrite IH, Nat2Z.inj_succ, Z.pow_succ_r by lia. lia.
Qed.

(** A run on disk: the sizes of the two numbers, the length, the signed offset. *)
Definition enc_run (ls os : nat) (len off : Z) : list Z :=
  [16 * Z.of_nat ls + Z.of_nat os] ++ le_bytes ls len ++ le_bytes os off.

Definition run_fits (ls os : nat) (len off : Z) : Prop :=
  (1 ≤ ls ≤ 8)%nat ∧ (os ≤ 8)%nat ∧ 0 ≤ len < 256 ^ Z.of_nat ls ∧ - 256 ^ Z.of_nat os ≤ 2 * off < 256 ^ Z.of_nat os.

Lemma byte_sign b : 0 ≤ b < 256 → has_bits b 0x80 = (256 <=? 2 * b).
Proof.
  intros Hb. assert (forallb (λ b, Bool.eqb (has_bits b 0x80) (256 <=? 2 * b)) (seqZ 0 256) = true) as Hall by (vm_compute; reflexivity).
  rewrite forallb_forall in Hall. apply eqb_prop, Hall, list_elem_of_In, elem_of_seqZ. lia.
Qed.

(** The sign of an offset is the high bit of its last byte. *)
Lemma last_le n v : has_bits (last_byte (le_bytes (S n) v)) 0x80 = (256 ^ Z.of_nat (S n) <=? 2 * (v mod 256 ^ Z.of_nat (S n))).
Proof.
  revert v. induction n as [|n IH]; intros v.
  - cbn [le_bytes]. change (last_byte [v mod 256]) with (v mod 256). change (256 ^ Z.of_nat 1) with 256.
    apply byte_sign. by apply Z.mod_pos_bound.
  - change (le_bytes (S (S n)) v) with (v mod 256 :: le_bytes (S n) (v / 256)).
    assert (last_byte (v mod 256 :: le_bytes (S n) (v / 256)) = last_byte (le_bytes (S n) (v / 256))) as -> by done.
    rewrite IH. rewrite (Nat2Z.inj_succ (S n)), Z.pow_succ_r by lia. set (q := 256 ^ Z.of_nat (S n)).
    assert (0 < q) by (apply Z.pow_pos_nonneg; lia). rewrite Z.rem_mul_r by lia.
    assert (0 ≤ v mod 256 < 256) by (by apply Z.mod_pos_bound). assert (0 ≤ (v / 256) mod q < q) by (by apply Z.mod_pos_bound).
    assert (q mod 2 = 0) as Hq by (unfold q; rewrite Nat2Z.inj_succ, Z.pow_succ_r by lia; Z.div_mod_to_equations; lia).
    apply eq_bool_prop_intro. rewrite !Is_true_true, !Z.leb_le. split; intros; Z.div_mod_to_equations; lia.
Qed.

Lemma bytes_at_app pre b post o n : o = Z.of_nat (length pre) → n = Z.of_nat (length b) → bytes_at o n (pre ++ b ++ post) = Some b.
Proof.
  intros -> ->. unfold bytes_at. rewrite !length_app. replace (_ && _ && _) with true by lia. unfold sub.
  by rewrite !Nat2Z.id, drop_app_length, take_app_length.
Qed.

Lemma pow256 n : 256 ^ Z.of_nat n = 2 ^ (8 * Z.of_nat n).
Proof. rewrite Z.pow_mul_r by lia. done. Qed.

Lemma run_pow os : (os ≤ 8)%nat → 0 < 256 ^ Z.of_nat os ≤ 18446744073709551616.
Proof. intros Ho. split; [apply Z.pow_pos_nonneg; lia|]. change 18446744073709551616 with (256 ^ 8). apply Z.pow_le_mono_r; lia. Qed.

(** The offset as the code assembles it. *)
Lemma offset_value os off : (os ≤ 8)%nat → - 256 ^ Z.of_nat os ≤ 2 * off < 256 ^ Z.of_nat os →
  let v := or_bytes 0 (le_bytes os off) 0 in
  (if (0 <? Z.of_nat os) && has_bits (last_byte (le_bytes os off)) 0x80 then sign_extend os v else v) = u64 off.
Proof.
  intros Ho Hr v. pose proof (run_pow os Ho) as Hp.
  assert (v = off mod 256 ^ Z.of_nat os) as Hv.
  { unfold v. rewrite or_bytes_le; [|apply le_bytes_byte|lia|rewrite le_bytes_length; lia|done].
    rewrite le_val_bytes. cbn. lia. }
  destruct os as [|n].
  { cbn [Z.of_nat Z.ltb Z.compare andb]. rewrite Hv. change (256 ^ Z.of_nat 0) with 1 in *. replace off with 0 by lia. done. }
  replace (0 <? Z.of_nat (S n)) with true by lia. rewrite last_le. cbn [andb]. set (q := 256 ^ Z.of_nat (S n)) in *.
  destruct (Z.lt_ge_cases off 0) as [Hneg|Hpos].
  - assert (off mod q = off + q) as Hm by (symmetry; apply (Z.mod_unique_pos _ _ (-1)); lia).
    rewrite Hv, Hm. replace (q <=? 2 * (off + q)) with true by lia. unfold sign_extend.
    rewrite or_bytes_le; [|apply Forall_replicate; unfold byte; lia|lia|rewrite length_replicate; lia|rewrite <- pow256; fold q; lia].
    rewrite le_val_ff, <- pow256. fold q.
    assert (256 ^ Z.of_nat (8 - S n) * q = 18446744073709551616) as He.
    { unfold q. rewrite <- Z.pow_add_r by lia. replace (Z.of_nat (8 - S n) + Z.of_nat (S n)) with 8 by lia. done. }
    rewrite Z.mul_sub_distr_r, He. unfold u64. apply (Z.mod_unique_pos _ _ (-1)); lia.
  - rewrite Hv. rewrite !Z.mod_small by lia. replace (q <=? 2 * off) with false by lia. by rewrite u64_small by lia.
Qed.

Lemma decode_run ls os len off pre post : run_fits ls os len off →
  NtfsDecodeDataRun (pre ++ enc_run ls os len off ++ post) (Z.of_nat (length pre)) =
    Some (Some (Z.of_nat (length (pre ++ enc_run ls os len off)), len, Z.max 0 off)).
Proof.
  intros (Hls & Hos & Hlen & Hoff). unfold NtfsDecodeDataRun, enc_run. set (h := 16 * Z.of_nat ls + Z.of_nat os).
  rewrite <- !app_assoc. rewrite (bytes_at_app pre [h]) by done. cbn [option_bind mbind le_val]. rewrite Z.mul_0_r, Z.add_0_r.
  assert (Z.shiftr h 4 = Z.of_nat ls) as Hs by (rewrite Z.shiftr_div_pow2 by lia; unfold h; change (2 ^ 4) with 16; Z.div_mod_to_equations; lia).
  assert (Z.land h 15 = Z.of_nat os) as Ha by (change 15 with (Z.ones 4); rewrite Z.land_ones by lia; unfold h; change (2 ^ 4) with 16; Z.div_mod_to_equations; lia).
  rewrite Hs, Ha. replace (h =? 0) with false by lia. replace (_ || _ || _) with false by lia. cbv zeta.
  assert (bytes_at (Z.of_nat (length pre) + 1) (Z.of_nat ls) (pre ++ [h] ++ le_bytes ls len ++ le_bytes os off ++ post) = Some (le_bytes ls len)) as ->.
  { rewrite app_assoc. apply bytes_at_app; [rewrite length_app; cbn [length]; lia|by rewrite le_bytes_length]. }
  assert (bytes_at (Z.of_nat (length pre) + 1 + Z.of_nat ls) (Z.of_nat os) (pre ++ [h] ++ le_bytes ls len ++ le_bytes os off ++ post) = Some (le_bytes os off)) as Hof.
  { rewrite (app_assoc pre), (app_assoc (pre ++ [h])). apply bytes_at_app; [rewrite !length_app, le_bytes_length; cbn [length]; lia|by rewrite le_bytes_length]. }
  cbn [option_bind mbind]. rewrite Hof.
  cbn [option_bind mbind]. rewrite le_bytes_length. pose proof (offset_value os off Hos Hoff) as Hov. cbv zeta in Hov. rewrite Hov.
  pose proof (run_pow os Hos). pose proof (run_pow ls ltac:(lia)). do 2 f_equal.
  assert (or_bytes 0 (le_bytes ls len) 0 = len) as ->.
  { rewrite or_bytes_le; [|apply le_bytes_byte|lia|rewrite le_bytes_length; lia|done]. rewrite le_val_bytes, Z.mod_small by lia. cbn. lia. }
  f_equal; [f_equal; rewrite !length_app, !le_bytes_length; cbn [length]; lia|].
  destruct (Z.lt_ge_cases off 0) as [Hneg|Hpos].
  - assert (s64 (u64 off) = off) as ->.
    { unfold u64. replace (off mod 18446744073709551616) with (off + 18446744073709551616) by (apply (Z.mod_unique_pos _ _ (-1)); lia).
      unfold s64. rewrite <- (Z.mod_unique_pos (off + 18446744073709551616 + 9223372036854775808) _ 1 (off + 9223372036854775808)); lia. }
    replace (off <? 0) with true by lia. lia.
  - rewrite u64_small, s64_small by lia. replace (off <? 0) with false by lia. lia.
Qed.

Section Ntfs.
Context {P : Type} `{HP : HasPcr P} `{PI : !PoolInterface P} {D : Type} `{BD : BlockDevice D}.
#[local] Abbreviation NT := (NTFS P D).
Implicit Types (s : NT).

Definition set_nt_pool (p : P) s : NT := mkNt (g_NtfsMount s) p (nt_dev s).
Definition set_nt_dev (d : D) s : NT := mkNt (g_NtfsMount s) (nt_pool s) d.
Definition set_nt_mount (m : NTFS_MOUNT) s : NT := mkNt m (nt_pool s) (nt_dev s).

Definition nt_alloc (n : Z) : M NT Z := zoom nt_pool set_nt_pool (pool_alloc 0 n 0).
Definition nt_free (a : Z) : M NT unit := zoom nt_pool set_nt_pool (pool_free a 0).

Definition NtfsReadSectors (lba count : Z) : M NT (Z * list Z) :=
  if count =? 0 then mret (STATUS_SUCCESS, []) else zoom nt_dev set_nt_dev (AhciReadSectors lba count).

(** What the read leaves in a buffer. *)
Definition read_into (buf : list Z) (r : Z * list Z) : M NT (Z * list Z) :=
  b ← mderef (λ _, store_at 0 r.2 buf); mret (r.1, b).

Definition NtfsReadMftRecord (mft_index : Z) (buffer : list Z) : M NT (Z * list Z) :=
  m ← mgets g_NtfsMount;
  if negb (n_valid m) then mret (STATUS_DEVICE_DOES_NOT_EXIST, buffer)
  else
    let mft_byte_offset := u64 (mft_lcn m * n_bytes_per_cluster m) in
    let record_byte_offset := u64 (mft_index * bytes_per_mft_record m) in
    let total_byte_offset := u64 (mft_byte_offset + record_byte_offset) in
    if n_bytes_per_sector m =? 0 then mundef
    else
      let sector_offset := total_byte_offset / n_bytes_per_sector m in
      let num_sectors := bytes_per_mft_record m / n_bytes_per_sector m in
      r ← NtfsReadSectors (u64 (n_partition_start m + sector_offset)) num_sectors;
      read_into buffer r.

(** ** Mounting *)

Definition NTFS_OEM : list Z := [78; 84; 70; 83; 32; 32; 32; 32].

(** A record size: a cluster count, or the negated exponent of a byte count. *)
Definition record_bytes (clusters bytes_per_cluster : Z) : option Z :=
  if 0 <=? clusters then Some (u32 (clusters * bytes_per_cluster))
  else if - clusters <? 64 then Some (u32 (Z.shiftl 1 (- clusters)))
  else None.

Definition NtfsMountPartition (partition_start_lba : Z) : M NT Z :=
  '(st, boot) ← NtfsReadSectors partition_start_lba 1;
  if negb (NT_SUCCESS st) then mret st
  else if negb (bool_decide (oem_id boot = NTFS_OEM)) then mret STATUS_INVALID_IMAGE_FORMAT
  else
    let bpc := b_bytes_per_sector boot * b_sectors_per_cluster boot in
    bpm ← mderef (λ _, record_bytes (b_clusters_per_mft_record boot) bpc);
    bpi ← mderef (λ _, record_bytes (b_clusters_per_index_block boot) bpc);
    mmod (set_nt_mount (mkNtfs partition_start_lba (b_bytes_per_sector boot) bpc (b_clusters_per_mft_record boot) bpm
            (b_clusters_per_index_block boot) bpi (mft_logical_cluster boot) (mft_mirror_logical_cluster boot)
            (b_total_sectors boot) true));;
    mret STATUS_SUCCESS.

Definition NtfsIsMounted : M NT bool := mgets (λ s, n_valid (g_NtfsMount s)).

(** ** Attributes *)

(** The header, and the value's offset and length. *)
Definition found_attr (offset : Z) (hdr : list Z) : list Z * Z * Z :=
  if non_resident hdr =? 0 then (hdr, u32 (offset + value_offset hdr), value_length hdr)
  else (hdr, u32 (offset + 0x40), a_length hdr).

Definition attr_turn (record : list Z) (record_size attr_type offset : Z) : M NT (Z + option (list Z * Z * Z)) :=
  if offset + Z.of_nat sizeof_ATTR <=? record_size then
    hdr ← mderef (λ _, bytes_at offset (Z.of_nat sizeof_ATTR) record);
    if (a_type hdr =? ATTR_END) || (a_length hdr =? 0) then mret (inr None)
    else if a_type hdr =? attr_type then mret (inr (Some (found_attr offset hdr)))
    else mret (inl (u32 (offset + a_length hdr)))
  else mret (inr None).

Definition NtfsFindAttribute (record : list Z) (record_size attr_type : Z) : M NT (option (list Z * Z * Z)) :=
  off ← mderef (λ _, bytes_at 20 2 record);
  loop (attr_turn record record_size attr_type) (le_val off).

(** ** Files *)

Definition NtfsReadFileRecord (file_index : Z) (buffer : list Z) (bufsize : Z) : M NT (Z * list Z) :=
  m ← mgets g_NtfsMount;
  if bufsize <? bytes_per_mft_record m then mret (STATUS_BUFFER_TOO_SMALL, buffer)
  else NtfsReadMftRecord file_index buffer.

Definition FILE_MAGIC : list Z := [70; 73; 76; 69].

(** The start both file operations share: the record is read and checked, and
    the attribute found.  The record's block and its bytes are handed to [k];
    on a failure the block is given back. *)
Definition with_attribute {A} (file_index attr_type : Z) (fail : Z → A)
    (k : Z → list Z → list Z * Z * Z → M NT A) : M NT A :=
  m ← mgets g_NtfsMount;
  record ← nt_alloc (bytes_per_mft_record m);
  if record =? 0 then mret (fail STATUS_NO_MEMORY)
  else
    '(st, bytes) ← NtfsReadFileRecord file_index (zeros (bytes_per_mft_record m)) (bytes_per_mft_record m);
    if negb (NT_SUCCESS st) then nt_free record;; mret (fail st)
    else
      mg ← mderef (λ _, bytes_at 0 4 bytes);
      if negb (bool_decide (mg = FILE_MAGIC)) then nt_free record;; mret (fail STATUS_INVALID_IMAGE_FORMAT)
      else
        p ← NtfsFindAttribute bytes (bytes_per_mft_record m) attr_type;
        match p with
        | None => nt_free record;; mret (fail STATUS_OBJECT_NAME_NOT_FOUND)
        | Some a => k record bytes a
        end.

(** [(c < 128) ? (CHAR)c : '?'] *)
Definition narrow_char (c : Z) : Z := if c <? 128 then c else 63.

(** The characters of a name of [n] 16-bit units. *)
Fixpoint chars_of (bs : list Z) : list Z :=
  match bs with
  | b0 :: b1 :: bs' => narrow_char (b0 + 256 * b1) :: chars_of bs'
  | _ => []
  end.

(** [max_len] is the size of the caller's buffer; the result is what it gets. *)
Definition NtfsGetFileName (file_index max_len : Z) : M NT (Z * list Z) :=
  m ← mgets g_NtfsMount;
  if negb (n_valid m) then mret (STATUS_DEVICE_DOES_NOT_EXIST, [])
  else with_attribute file_index ATTR_FILE_NAME (λ st, (st, [])) (λ record bytes a,
    let '(ahdr, voff, _) := a in
    if negb (non_resident ahdr =? 0) then nt_free record;; mret (STATUS_INVALID_IMAGE_FORMAT, [])
    else
      nl ← mderef (λ _, bytes_at (voff + 64) 1 bytes);
      let name_len_chars := if max_len <=? le_val nl then u32 (max_len - 1) else le_val nl in
      if max_len <=? name_len_chars then mundef
      else
        name ← mderef (λ _, bytes_at (voff + 66) (2 * name_len_chars) bytes);
        nt_free record;;
        mret (STATUS_SUCCESS, chars_of name ++ [0])).

(** One run of a file: [runs] is the offset of the run list in the record, [out]
    what has been copied. *)
Definition run_turn (record : Z) (bytes : list Z) (bufsize : Z) (x : Z * Z * list Z) : M NT ((Z * Z * list Z) + (Z * list Z)) :=
  let '(runs, prev_lcn, out) := x in
  let bytes_copied := Z.of_nat (length out) in
  if bytes_copied <? bufsize then
    next ← mderef (λ _, NtfsDecodeDataRun bytes runs);
    match next with
    | None => nt_free record;; mret (inr (STATUS_SUCCESS, out))
    | Some (next, length_, lcn) =>
        m ← mgets g_NtfsMount;
        let prev_lcn := if prev_lcn =? 0 then lcn else u64 (prev_lcn + lcn) in
        let run_bytes := u64 (length_ * n_bytes_per_cluster m) in
        let to_read := Z.min (bufsize - bytes_copied) run_bytes in
        if n_bytes_per_sector m =? 0 then mundef
        else
          let lba := u64 (n_partition_start m + u64 (prev_lcn * n_bytes_per_cluster m) / n_bytes_per_sector m) in
          let num_sectors := u32 (to_read + n_bytes_per_sector m - 1) / n_bytes_per_sector m in
          let size := u32 (num_sectors * n_bytes_per_sector m) in
          cluster_buf ← nt_alloc size;
          if cluster_buf =? 0 then nt_free record;; mret (inr (STATUS_NO_MEMORY, out))
          else
            r ← NtfsReadSectors lba num_sectors;
            '(st, buf) ← read_into (zeros size) r;
            if negb (NT_SUCCESS st) then nt_free cluster_buf;; nt_free record;; mret (inr (st, out))
            else
              data ← mderef (λ _, bytes_at 0 to_read buf);
              nt_free cluster_buf;;
              mret (inl (next, u64 (prev_lcn + length_), out ++ data))
    end
  else nt_free record;; mret (inr (STATUS_SUCCESS, out)).

(** [want] says whether the pointer bytes_read is not null.  The result is the
    status, what is in the buffer, and what is stored in [*bytes_read]. *)
Definition NtfsReadFile (file_index bufsize : Z) (want : bool) : M NT (Z * list Z * option Z) :=
  m ← mgets g_NtfsMount;
  if negb (n_valid m) then mret (STATUS_DEVICE_DOES_NOT_EXIST, [], None)
  else
    let count (n : Z) := if want then Some n else None in
    with_attribute file_index ATTR_DATA (λ st, (st, [], count 0)) (λ record bytes a,
      let '(ahdr, voff, vlen) := a in
      if non_resident ahdr =? 0 then
        let copy := Z.min vlen bufsize in
        value ← mderef (λ _, bytes_at voff copy bytes);
        nt_free record;;
        mret (STATUS_SUCCESS, value, count copy)
      else
        r ← loop (run_turn record bytes bufsize) (voff, 0, []);
        mret (r.1, r.2, count (if NT_SUCCESS r.1 then Z.of_nat (length r.2) else 0))).

(** ** The attribute walk *)

(** The attributes of a record from an offset on, with their offsets: up to the
    end mark, an attribute of no length, or the end of the record. *)
Inductive attr_list (rec : list Z) (size : Z) : Z → list (Z * list Z) → Prop :=
| al_out off : size < off + Z.of_nat sizeof_ATTR → attr_list rec size off []
| al_end off hdr :
    off + Z.of_nat sizeof_ATTR ≤ size → bytes_at off (Z.of_nat sizeof_ATTR) rec = Some hdr →
    (a_type hdr =? ATTR_END) || (a_length hdr =? 0) = true → attr_list rec size off []
| al_cons off hdr l :
    off + Z.of_nat sizeof_ATTR ≤ size → bytes_at off (Z.of_nat sizeof_ATTR) rec = Some hdr →
    (a_type hdr =? ATTR_END) || (a_length hdr =? 0) = false → 0 < a_length hdr → off + a_length hdr < 4294967296 →
    attr_list rec size (off + a_length hdr) l → attr_list rec size off ((off, hdr) :: l).

(** The attributes passed up to one whose length carries the offset past 32 bits,
    the last of the list. *)
Inductive attr_wraps (rec : list Z) (size : Z) : Z → list (Z * list Z) → Prop :=
| aw_here off hdr :
    off + Z.of_nat sizeof_ATTR ≤ size → bytes_at off (Z.of_nat sizeof_ATTR) rec = Some hdr →
    (a_type hdr =? ATTR_END) || (a_length hdr =? 0) = false → 4294967296 ≤ off + a_length hdr →
    attr_wraps rec size off [(off, hdr)]
| aw_cons off hdr l :
    off + Z.of_nat sizeof_ATTR ≤ size → bytes_at off (Z.of_nat sizeof_ATTR) rec = Some hdr →
    (a_type hdr =? ATTR_END) || (a_length hdr =? 0) = false → 0 < a_length hdr → off + a_length hdr < 4294967296 →
    attr_wraps rec size (off + a_length hdr) l → attr_wraps rec size off ((off, hdr) :: l).

(** Where the walk goes on after the last attribute of a list. *)
Definition next_offset (l : list (Z * list Z)) : Z :=
  match last l with Some (off, hdr) => u32 (off + a_length hdr) | None => 0 end.

Definition first_attr (ty : Z) (l : list (Z * list Z)) : option (list Z * Z * Z) :=
  match first_idx (λ x, a_type x.2 =? ty) l with
  | Some i => (λ x, found_attr x.1 x.2) <$> l !! i
  | None => None
  end.

Lemma attr_loop rec size ty s off l :
  attr_list rec size off l → 0 ≤ off →
  ∃ n, loops_to (attr_turn rec size ty) n off s (first_attr ty l) s ∧ 0 < n ≤ Z.max 0 (size - off) + 1.
Proof.
  induction 1 as [off Hout|off hdr Hin Hb He|off hdr l Hin Hb He Hp Hw _ IH]; intros Hoff; change (Z.of_nat sizeof_ATTR) with 24 in *.
  - exists 1. split; [|lia]. constructor. unfold attr_turn. change (Z.of_nat sizeof_ATTR) with 24. by replace (off + 24 <=? size) with false by lia.
  - exists 1. split; [|lia]. constructor. unfold attr_turn. change (Z.of_nat sizeof_ATTR) with 24. replace (off + 24 <=? size) with true by lia.
    rewrite (deref_bind (λ _, bytes_at off 24 rec) _ s hdr Hb). by rewrite He.
  - assert (attr_turn rec size ty off s = if a_type hdr =? ty then Ok (inr (Some (found_attr off hdr)), s) else Ok (inl (off + a_length hdr), s)) as Ht.
    { unfold attr_turn. change (Z.of_nat sizeof_ATTR) with 24. replace (off + 24 <=? size) with true by lia.
      rewrite (deref_bind (λ _, bytes_at off 24 rec) _ s hdr Hb). rewrite He, u32_small by lia. by destruct (a_type hdr =? ty). }
    unfold first_attr. cbn [first_idx snd]. destruct (a_type hdr =? ty).
    + exists 1. split; [by constructor|lia].
    + destruct (IH ltac:(lia)) as (n & Hl & Hn). exists (n + 1). split; [|lia]. eapply loops_step; [exact Ht|].
      unfold first_attr in Hl. by destruct (first_idx _ l).
Qed.

(** One turn at an attribute. *)
Lemma attr_turn_run rec size ty s off hdr :
  off + Z.of_nat sizeof_ATTR ≤ size → bytes_at off (Z.of_nat sizeof_ATTR) rec = Some hdr → (a_type hdr =? ATTR_END) || (a_length hdr =? 0) = false →
  attr_turn rec size ty off s = if a_type hdr =? ty then Ok (inr (Some (found_attr off hdr)), s) else Ok (inl (u32 (off + a_length hdr)), s).
Proof.
  intros Hin Hb He. unfold attr_turn. replace (_ <=? size) with true by lia. rewrite (deref_bind (λ _, bytes_at off _ rec) _ s hdr Hb), He.
  by destruct (a_type hdr =? ty).
Qed.

Lemma first_attr_cons ty off hdr l : first_attr ty ((off, hdr) :: l) = if a_type hdr =? ty then Some (found_attr off hdr) else first_attr ty l.
Proof. unfold first_attr. cbn [first_idx snd]. destruct (a_type hdr =? ty); [done|]. by destruct (first_idx _ l). Qed.

(** A walk that wraps: an attribute passed on the way is found, otherwise the walk
    goes on from the wrapped offset. *)
Lemma attr_wrap_loop rec size ty s off l :
  attr_wraps rec size off l → 0 ≤ off →
  match first_attr ty l with
  | Some a => ∃ n, loops_to (attr_turn rec size ty) n off s (Some a) s ∧ 0 < n ≤ Z.max 0 (size - off) + 1
  | None => ∀ n r s', loops_to (attr_turn rec size ty) (n + Z.of_nat (length l)) off s r s' ↔
                      loops_to (attr_turn rec size ty) n (next_offset l) s r s'
  end.
Proof.
  assert (∀ off hdr, off + Z.of_nat sizeof_ATTR ≤ size → bytes_at off (Z.of_nat sizeof_ATTR) rec = Some hdr →
    (a_type hdr =? ATTR_END) || (a_length hdr =? 0) = false → (a_type hdr =? ty) = false → ∀ n r s',
    loops_to (attr_turn rec size ty) (n + 1) off s r s' ↔ loops_to (attr_turn rec size ty) n (u32 (off + a_length hdr)) s r s') as Hgo.
  { intros o hdr Hin Hb He Hty n r s'. pose proof (attr_turn_run rec size ty s o hdr Hin Hb He) as Ht. rewrite Hty in Ht. split.
    - inversion 1 as [? ? ? ? Hx|n0 ? ? x1 s1 ? ? Hx Hl Heq]; subst; rewrite Ht in Hx; [done|]. injection Hx as <- <-. by replace n with n0 by lia.
    - intros Hl. by eapply loops_step. }
  induction 1 as [off hdr Hin Hb He Hw|off hdr l Hin Hb He Hp Hw Hal IH]; intros Hoff; rewrite first_attr_cons.
  all: pose proof (attr_turn_run rec size ty s off hdr Hin Hb He) as Ht; change (Z.of_nat sizeof_ATTR) with 24 in *.
  all: destruct (a_type hdr =? ty) eqn:Hty; [exists 1; split; [by constructor|lia]|].
  - intros n r s'. cbn [length]. apply (Hgo off hdr Hin Hb He Hty).
  - assert (∃ x l', l = x :: l') as (x & l' & Hx) by (inversion Hal; subst; eauto).
    assert (next_offset ((off, hdr) :: l) = next_offset l) as -> by (by subst l).
    rewrite (u32_small (off + a_length hdr)) in Ht by lia. specialize (IH ltac:(lia)). destruct (first_attr ty l) as [a|].
    + destruct IH as (n & Hl & Hn). exists (n + 1). split; [by eapply loops_step|lia].
    + intros n r s'. rewrite <- IH, <- (u32_small (off + a_length hdr)) by lia. rewrite <- (Hgo off hdr Hin Hb He Hty). cbn [length].
      by replace (n + Z.of_nat (S (length l))) with (n + Z.of_nat (length l) + 1) by lia.
Qed.

(** Every walk ends or wraps. *)
Lemma attr_list_or_wraps rec size off :
  0 ≤ off → size = Z.of_nat (length rec) → Forall byte rec → (∃ l, attr_list rec size off l) ∨ ∃ l, attr_wraps rec size off l.
Proof.
  intros Hoff Hsz Hb. remember (Z.to_nat (size - off)) as k eqn:Hk. revert off Hoff Hk.
  induction (lt_wf k) as [k _ IH]; intros off Hoff Hk.
  destruct (Z.lt_ge_cases size (off + Z.of_nat sizeof_ATTR)) as [Ho|Ho]; [left; exists []; by constructor|].
  assert (∃ hdr, bytes_at off (Z.of_nat sizeof_ATTR) rec = Some hdr ∧ 0 ≤ a_length hdr) as (hdr & Hh & Hlen).
  { unfold bytes_at. replace (_ && _ && _) with true by lia. eexists. split; [done|]. unfold a_length. apply field_bound; [by apply sub_Forall|].
    change (Z.to_nat (Z.of_nat sizeof_ATTR)) with 24%nat. change (Z.of_nat sizeof_ATTR) with 24 in *. rewrite sub_length; lia. }
  destruct ((a_type hdr =? ATTR_END) || (a_length hdr =? 0)) eqn:He; [left; exists []; by eapply al_end|].
  pose proof He as [_ He2%Z.eqb_neq]%orb_false_iff. destruct (Z.le_gt_cases 4294967296 (off + a_length hdr)); [right; eexists; by apply aw_here|].
  destruct (IH (Z.to_nat (size - (off + a_length hdr))) ltac:(change (Z.of_nat sizeof_ATTR) with 24 in *; lia) (off + a_length hdr)) as [[l Hl]|[l Hl]]; [lia|done|left|right].
  - eexists. eapply al_cons; [lia|done|done|lia|lia|exact Hl].
  - eexists. eapply aw_cons; [lia|done|done|lia|lia|exact Hl].
Qed.

Lemma find_attr_loop rec size ty s n r :
  (22 ≤ length rec)%nat → size < 4294967296 → loops_to (attr_turn rec size ty) n (first_attr_offset rec) s r s → 0 < n ≤ Z.max 0 (size - first_attr_offset rec) + 1 →
  0 ≤ first_attr_offset rec → NtfsFindAttribute rec size ty s = Ok (r, s).
Proof.
  intros Hl Hsz Hn Hlt H0. unfold NtfsFindAttribute. erewrite deref_bind; [|unfold bytes_at; replace (_ && _ && _) with true by lia; reflexivity].
  change (le_val (sub (Z.to_nat 20) (Z.to_nat 2) rec)) with (first_attr_offset rec). eapply loop_ok; [exact Hn|lia].
Qed.

Lemma find_attr_run rec size ty s l :
  (22 ≤ length rec)%nat → Forall byte rec → size < 4294967296 → attr_list rec size (first_attr_offset rec) l →
  NtfsFindAttribute rec size ty s = Ok (first_attr ty l, s).
Proof.
  intros Hl Hb Hsz Hal. assert (0 ≤ first_attr_offset rec) as H0 by (unfold first_attr_offset; apply field_bound; [done|lia]).
  destruct (attr_loop rec size ty s _ l Hal H0) as (n & Hn & Hlt). by apply (find_attr_loop rec size ty s n).
Qed.

(** ** Reading files *)

Definition spc s : Z := n_bytes_per_cluster (g_NtfsMount s) / 512.

(** A mounted volume of 512-byte sectors whose records are whole sectors. *)
Record nt_ok s (m : gmap Z Z) : Prop := {
  no_valid : n_valid (g_NtfsMount s) = true;
  no_bps : n_bytes_per_sector (g_NtfsMount s) = 512;
  no_bpc : n_bytes_per_cluster (g_NtfsMount s) = 512 * spc s;
  no_spc : 0 < spc s < 256;
  no_bpm : ∃ k, bytes_per_mft_record (g_NtfsMount s) = 512 * k ∧ 0 < k ≤ 256;
  no_start : 0 ≤ n_partition_start (g_NtfsMount s) < 4611686018427387904;
  no_mft : 0 ≤ mft_lcn (g_NtfsMount s);
  no_dev : dev_up (nt_dev s);
  no_pool : pool_rep (nt_pool s) m;
  no_pcr : can_lock (pcr (nt_pool s))
}.

(** Nothing on the volume has changed. *)
Record nt_same s s' : Prop := {
  ns_mnt : g_NtfsMount s' = g_NtfsMount s;
  ns_dev l : sector (nt_dev s') l = sector (nt_dev s) l
}.

#[global] Instance nt_same_refl : Reflexive nt_same.
Proof. by intros s. Qed.
#[global] Instance nt_same_trans : Transitive nt_same.
Proof. intros s1 s2 s3 [A B] [A' B']. split; [congruence|]. intros l. by rewrite B'. Qed.

(** The record of a file. *)
Definition record_lba s (idx : Z) : Z :=
  let m := g_NtfsMount s in n_partition_start m + (mft_lcn m * n_bytes_per_cluster m + idx * bytes_per_mft_record m) / 512.
Definition record_of s (idx : Z) : list Z :=
  sectors (sector (nt_dev s)) (record_lba s idx) (Z.to_nat (bytes_per_mft_record (g_NtfsMount s) / 512)).

Lemma record_length s m idx : nt_ok s m → Z.of_nat (length (record_of s idx)) = bytes_per_mft_record (g_NtfsMount s).
Proof.
  intros Hok. unfold record_of. rewrite sectors_length by (intros l; apply sector_len, Hok).
  destruct (no_bpm _ _ Hok) as (k & -> & Hk). rewrite (Z.mul_comm 512), Z.div_mul by lia. unfold SECTOR. lia.
Qed.

Lemma record_bytes_ok s m idx : nt_ok s m → Forall byte (record_of s idx).
Proof. intros Hok. apply sectors_Forall. intros l. apply sector_byte, Hok. Qed.

Lemma nt_pool_ok s m p m' : nt_ok s m → pool_rep p m' → pcr p = pcr (nt_pool s) → nt_ok (set_nt_pool p s) m'.
Proof. intros [] Hp Hc. constructor; try done. cbn. by rewrite Hc. Qed.

Lemma nt_alloc_run s m n : nt_ok s m → 0 < n < 18446744073709551616 →
  ∃ a s', nt_alloc n s = Ok (a, s') ∧ nt_same s s' ∧
    ((a = 0 ∧ nt_ok s' m) ∨ (0 < a ∧ m !! a = None ∧ nt_ok s' (<[a := 0]> m))).
Proof.
  intros Hok Hn. destruct (pool_alloc_law (nt_pool s) m 0 n 0 (no_pool _ _ Hok) (no_pcr _ _ Hok) Hn) as (a & p & Hr & Hpc & Hc).
  exists a, (set_nt_pool p s). split; [by apply zoom_ok|]. split; [done|].
  destruct Hc as [[-> Hp]|(Ha & Hm & Hp)]; [left|right]; split_and!; try done; by eapply nt_pool_ok.
Qed.

Lemma nt_free_run s m a : m !! a = None → nt_ok s (<[a := 0]> m) → ∃ s', nt_free a s = Ok (tt, s') ∧ nt_ok s' m ∧ nt_same s s'.
Proof.
  intros Ha Hok. destruct (pool_free_law (nt_pool s) (<[a := 0]> m) a 0 0 (no_pool _ _ Hok) (no_pcr _ _ Hok)) as (p & Hr & Hpc & Hp);
    [by rewrite lookup_insert_eq|by left|]. rewrite delete_insert_id in Hp by done.
  exists (set_nt_pool p s). split; [by apply zoom_ok|]. split; [by eapply nt_pool_ok|done].
Qed.

Lemma nt_read_run s m lba n : nt_ok s m → 0 < n ≤ 256 →
  ∃ s', NtfsReadSectors lba n s = Ok ((STATUS_SUCCESS, sectors (sector (nt_dev s)) lba (Z.to_nat n)), s') ∧ nt_ok s' m ∧ nt_same s s'.
Proof.
  intros Hok Hn. destruct (ahci_read_law (nt_dev s) lba n (no_dev _ _ Hok) Hn) as (d & Hr & Hup & Hs). exists (set_nt_dev d s).
  unfold NtfsReadSectors. replace (n =? 0) with false by lia. split; [by apply zoom_ok|]. split; [destruct Hok; by constructor|done].
Qed.

Lemma run_zeros_length n : 0 ≤ n → Z.of_nat (length (zeros n)) = n.
Proof. intros Hn. unfold zeros. rewrite length_replicate. lia. Qed.

Lemma read_into_run s buf st bs : length bs = length buf → read_into buf (st, bs) s = Ok ((st, bs), s).
Proof. intros Hl. unfold read_into. erewrite deref_bind; [|apply store_at_fits; cbn; lia]. by rewrite splice_all. Qed.

Lemma read_record_run s m idx :
  nt_ok s m → 0 ≤ idx → mft_lcn (g_NtfsMount s) * n_bytes_per_cluster (g_NtfsMount s) + idx * bytes_per_mft_record (g_NtfsMount s) < 9223372036854775808 →
  ∃ s', NtfsReadFileRecord idx (zeros (bytes_per_mft_record (g_NtfsMount s))) (bytes_per_mft_record (g_NtfsMount s)) s
        = Ok ((STATUS_SUCCESS, record_of s idx), s') ∧ nt_ok s' m ∧ nt_same s s'.
Proof.
  intros Hok Hi Hmax. pose proof (no_bpm _ _ Hok) as (k & Hk & Hkb). pose proof (no_bpc _ _ Hok) as Hbpc. pose proof (no_spc _ _ Hok) as Hspc.
  pose proof (no_start _ _ Hok) as Hst. pose proof (no_mft _ _ Hok) as Hmft.
  destruct (nt_read_run s m (record_lba s idx) k Hok Hkb) as (s' & Hr & Hok' & Hs). exists s'. split; [|done].
  unfold NtfsReadFileRecord. unfold mbind at 1, M_bind at 1. cbn [mgets]. rewrite Z.ltb_irrefl. unfold NtfsReadMftRecord.
  unfold mbind at 1, M_bind at 1. cbn [mgets]. rewrite (no_valid _ _ Hok), (no_bps _ _ Hok). cbn [negb Z.eqb]. cbv zeta.
  assert (0 ≤ mft_lcn (g_NtfsMount s) * n_bytes_per_cluster (g_NtfsMount s)) by nia. assert (0 ≤ idx * bytes_per_mft_record (g_NtfsMount s)) by nia.
  set (X := mft_lcn _ * _) in *. set (Y := idx * _) in *. rewrite (u64_small X), (u64_small Y), (u64_small (X + Y)) by lia.
  rewrite u64_small by (Z.div_mod_to_equations; lia). change (n_partition_start _ + _ / 512) with (record_lba s idx).
  assert (bytes_per_mft_record (g_NtfsMount s) / 512 = k) as Hd by (rewrite Hk, (Z.mul_comm 512), Z.div_mul by lia; done).
  rewrite Hd, (bind_ok _ _ _ _ _ Hr). unfold record_of. rewrite Hd. apply read_into_run.
  pose proof (record_length s m idx Hok) as Hl. unfold record_of in Hl. rewrite Hd in Hl. apply Nat2Z.inj. rewrite Hl, run_zeros_length; lia.
Qed.

(** The common start of the file operations. *)
Lemma with_attribute_run {A} s m idx ty l (fail : Z → A) k :
  let rec := record_of s idx in
  nt_ok s m → 0 ≤ idx → mft_lcn (g_NtfsMount s) * n_bytes_per_cluster (g_NtfsMount s) + idx * bytes_per_mft_record (g_NtfsMount s) < 9223372036854775808 →
  attr_list rec (bytes_per_mft_record (g_NtfsMount s)) (first_attr_offset rec) l →
  (∃ st s', with_attribute idx ty fail k s = Ok (fail st, s') ∧ nt_ok s' m ∧ nt_same s s' ∧
     (st = STATUS_NO_MEMORY ∨ st = STATUS_INVALID_IMAGE_FORMAT ∧ magic rec ≠ FILE_MAGIC ∨
      st = STATUS_OBJECT_NAME_NOT_FOUND ∧ magic rec = FILE_MAGIC ∧ first_attr ty l = None)) ∨
  ∃ record a s1, with_attribute idx ty fail k s = k record rec a s1 ∧ magic rec = FILE_MAGIC ∧ first_attr ty l = Some a ∧
    m !! record = None ∧ nt_ok s1 (<[record := 0]> m) ∧ nt_same s s1.
Proof.
  intros rec Hok Hi Hmax Hal. pose proof (no_bpm _ _ Hok) as (kk & Hk & Hkb). pose proof (record_length s m idx Hok) as Hlen. fold rec in Hlen.
  pose proof (record_bytes_ok s m idx Hok) as Hb. fold rec in Hb. remember (with_attribute idx ty fail k s) as w eqn:Hw.
  unfold with_attribute in Hw. unfold mbind at 1, M_bind at 1 in Hw. cbn [mgets] in Hw.
  destruct (nt_alloc_run s m (bytes_per_mft_record (g_NtfsMount s)) Hok ltac:(lia)) as (a & s1 & Hr & Hs & Hc). rewrite (bind_ok _ _ _ _ _ Hr) in Hw.
  destruct Hc as [[-> Hok1]|(Ha & Hna & Hok1)]; [left; eexists _, s1; split; [exact Hw|]; split_and!; [done|done|by left]|].
  replace (a =? 0) with false in Hw by lia.
  destruct (read_record_run s1 _ idx Hok1 Hi) as (s2 & Hr2 & Hok2 & Hs2); [by rewrite (ns_mnt _ _ Hs)|]. rewrite (ns_mnt _ _ Hs) in Hr2.
  assert (record_of s1 idx = rec) as Hrec.
  { unfold rec, record_of, record_lba. rewrite (ns_mnt _ _ Hs). apply sectors_ext. intros. apply Hs. }
  rewrite Hrec in Hr2. rewrite (bind_ok _ _ _ _ _ Hr2) in Hw. change (NT_SUCCESS STATUS_SUCCESS) with true in Hw. cbn [negb] in Hw.
  assert (nt_same s s2) as Hss by (by etrans). destruct (nt_free_run s2 m a Hna Hok2) as (s3 & Hr3 & Hok3 & Hs3).
  assert (nt_same s s3) as Hss3 by (by etrans).
  assert (bytes_at 0 4 rec = Some (magic rec)) as Hmg by (unfold bytes_at; replace (_ && _ && _) with true by lia; done).
  rewrite (deref_bind (λ _, bytes_at 0 4 rec) _ s2 _ Hmg) in Hw. case_bool_decide as Hm; cbn [negb] in Hw.
  2: { rewrite (bind_ok _ _ _ _ _ Hr3) in Hw. left. eexists _, s3. split; [exact Hw|]. split_and!; [done|done|by right; left]. }
  rewrite (bind_ok _ _ _ _ _ (find_attr_run rec (bytes_per_mft_record (g_NtfsMount s)) ty s2 l ltac:(lia) Hb ltac:(lia) Hal)) in Hw.
  destruct (first_attr ty l) as [x|] eqn:Hf; [right; by exists a, x, s2|].
  left. rewrite (bind_ok _ _ _ _ _ Hr3) in Hw. eexists _, s3. split; [exact Hw|]. split_and!; [done|done|by right; right].
Qed.

(** The runs listed from an offset of the record on: lengths and offsets. *)
Inductive run_list (rec : list Z) : Z → list (Z * Z) → Prop :=
| rl_end p : NtfsDecodeDataRun rec p = Some None → run_list rec p []
| rl_cons p q len lcn l : NtfsDecodeDataRun rec p = Some (Some (q, len, lcn)) → run_list rec q l → run_list rec p ((len, lcn) :: l).

(** Where a run starts, given where the one before it ended. *)
Definition run_start (prev lcn : Z) : Z := if prev =? 0 then lcn else prev + lcn.

Fixpoint runs_data s (prev : Z) (l : list (Z * Z)) : list Z :=
  match l with
  | [] => []
  | (len, lcn) :: l' =>
      sectors (sector (nt_dev s)) (n_partition_start (g_NtfsMount s) + run_start prev lcn * spc s) (Z.to_nat (len * spc s)) ++
      runs_data s (run_start prev lcn + len) l'
  end.

Fixpoint runs_fit (prev : Z) (l : list (Z * Z)) : Prop :=
  match l with
  | [] => True
  | (len, lcn) :: l' => 0 < len ∧ 0 ≤ lcn ∧ run_start prev lcn + len < 1099511627776 ∧ runs_fit (run_start prev lcn + len) l'
  end.

Lemma runs_data_same s s' : nt_same s s' → ∀ l prev, runs_data s' prev l = runs_data s prev l.
Proof.
  intros [Hm Hd]. induction l as [|[len lcn] l IH]; intros prev; [done|]. cbn [runs_data]. rewrite IH. unfold spc. rewrite Hm.
  f_equal. apply sectors_ext. intros. apply Hd.
Qed.

Lemma take_sectors sec lba n n' k : (∀ l, length (sec l) = SECTOR) → (k ≤ SECTOR * n)%nat → (n ≤ n')%nat →
  take k (sectors sec lba n') = take k (sectors sec lba n).
Proof.
  intros Hs Hk Hn. replace n' with (n + (n' - n))%nat by lia. rewrite sectors_app, take_app_le; [done|]. rewrite sectors_length; done.
Qed.

(** What a read of the first [k] bytes of a run leaves in the buffer: the driver
    fills 256 sectors at most, and the rest of the fresh block is zero. *)
Definition part_data s (lba : Z) (k : nat) : list Z := take k (sectors (sector (nt_dev s)) lba 256 ++ replicate k 0).

Lemma part_data_length s m lba k : nt_ok s m → length (part_data s lba k) = k.
Proof. intros _. unfold part_data. rewrite length_take, length_app, length_replicate. lia. Qed.

Lemma part_data_same s s' lba k : nt_same s s' → part_data s' lba k = part_data s lba k.
Proof. intros [_ Hd]. unfold part_data. do 2 f_equal. apply sectors_ext. intros. apply Hd. Qed.

Lemma read_part s m lba k n :
  nt_ok s m → 0 < k → n = (k + 511) / 512 →
  ∃ bs buf s', NtfsReadSectors lba n s = Ok ((STATUS_SUCCESS, bs), s') ∧
    read_into (zeros (n * 512)) (STATUS_SUCCESS, bs) s' = Ok ((STATUS_SUCCESS, buf), s') ∧
    bytes_at 0 k buf = Some (part_data s lba (Z.to_nat k)) ∧ nt_ok s' m ∧ nt_same s s'.
Proof.
  intros Hok Hk Hn. assert (0 < n ∧ k ≤ n * 512) as [Hn0 Hcov] by (subst n; Z.div_mod_to_equations; lia).
  assert (∀ l, length (sector (nt_dev s) l) = SECTOR) as Hsl by (intros l; apply sector_len, Hok).
  destruct (nt_read_run s m lba (Z.min n 256) Hok ltac:(lia)) as (s' & Hr & Hok' & Hs).
  set (bs := sectors _ lba _) in Hr. set (buf := bs ++ replicate (Z.to_nat (n * 512) - length bs) 0).
  assert (length bs = 512 * Z.to_nat (Z.min n 256))%nat as Hbl by (apply sectors_length, Hsl).
  assert (length buf = Z.to_nat (n * 512)) as Hbf by (unfold buf; rewrite length_app, length_replicate; lia).
  exists bs, buf, s'. split_and!; [| | |done|done].
  - destruct (Z.le_gt_cases n 256); [by rewrite Z.min_l in Hr by lia|]. rewrite Z.min_r in Hr by lia. rewrite <- Hr.
    unfold NtfsReadSectors. replace (n =? 0) with false by lia. cbn [Z.eqb]. unfold zoom. by rewrite ahci_read_clamp by (apply Hok || lia).
  - unfold read_into, zeros. erewrite deref_bind; [|apply store_at_fits; cbn [snd]; rewrite length_replicate; lia]. cbn [fst snd]. unfold mret, M_ret. do 3 f_equal.
    unfold splice, buf. by rewrite drop_replicate.
  - unfold bytes_at. replace (_ && _ && _) with true by lia. f_equal. unfold sub, part_data. rewrite drop_0. unfold buf.
    destruct (Z.le_gt_cases n 256).
    + rewrite !take_app_le by (rewrite ?Hbl, ?(sectors_length _ _ _ Hsl); unfold SECTOR; lia).
      symmetry. rewrite (take_sectors _ _ (Z.to_nat (Z.min n 256))); [done|done|unfold SECTOR; lia|lia].
    + unfold bs. rewrite Z.min_r by lia. change (Z.to_nat 256) with 256%nat. rewrite !take_app. f_equal. rewrite !take_replicate. f_equal. lia.
Qed.

(** What the runs give a buffer with [left] bytes to fill. *)
Fixpoint runs_read s (prev left : Z) (l : list (Z * Z)) : list Z :=
  match l with
  | [] => []
  | (len, lcn) :: l' =>
      let k := Z.min left (len * n_bytes_per_cluster (g_NtfsMount s)) in
      part_data s (n_partition_start (g_NtfsMount s) + run_start prev lcn * spc s) (Z.to_nat k) ++
      runs_read s (run_start prev lcn + len) (left - k) l'
  end.

Lemma runs_read_same s s' : nt_same s s' → ∀ l prev left, runs_read s' prev left l = runs_read s prev left l.
Proof.
  intros Hs. induction l as [|[len lcn] l IH]; intros prev left; [done|]. cbn [runs_read]. cbv zeta. rewrite IH, (part_data_same s s' _ _ Hs).
  unfold spc. by rewrite (ns_mnt _ _ Hs).
Qed.

Lemma runs_read_none s m l : nt_ok s m → ∀ prev, runs_fit prev l → runs_read s prev 0 l = [].
Proof.
  intros Hok. pose proof (no_bpc _ _ Hok) as Hbpc. pose proof (no_spc _ _ Hok) as Hspc.
  induction l as [|[len lcn] l IH]; intros prev Hf; [done|]. cbn [runs_read runs_fit] in *. cbv zeta. destruct Hf as (Hlen & _ & _ & Hf).
  rewrite Z.min_l by nia. change (0 - 0) with 0. by rewrite (IH _ Hf).
Qed.

(** No part asked of the driver is longer than it reads at once. *)
Definition parts_short s (left : Z) (l : list (Z * Z)) : Prop :=
  left ≤ 131072 ∨ Forall (λ r, r.1 * n_bytes_per_cluster (g_NtfsMount s) ≤ 131072) l.

(** Short parts are read exactly: the buffer gets the clusters of the runs. *)
Lemma runs_read_exact s m : nt_ok s m → ∀ l prev left, runs_fit prev l → 0 ≤ left → parts_short s left l →
  runs_read s prev left l = take (Z.to_nat left) (runs_data s prev l).
Proof.
  intros Hok. pose proof (no_bpc _ _ Hok) as Hbpc. pose proof (no_spc _ _ Hok) as Hspc.
  assert (∀ l, length (sector (nt_dev s) l) = SECTOR) as Hsl by (intros l; apply sector_len, Hok).
  induction l as [|[len lcn] l IH]; intros prev left Hf Hl Hsh; [cbn; by rewrite take_nil|]. cbn [runs_read runs_data runs_fit] in *. cbv zeta.
  destruct Hf as (Hlen & _ & _ & Hf). set (lba := n_partition_start _ + _). set (k := Z.min left _).
  assert (0 ≤ k ≤ 131072 ∧ k ≤ len * (512 * spc s)) as [Hk Hk2].
  { unfold k. rewrite <- Hbpc. destruct Hsh as [?|[? _]%Forall_cons]; cbn [fst] in *; nia. }
  rewrite IH; [|done|unfold k; lia|destruct Hsh as [?|[_ ?]%Forall_cons]; [left; lia|by right]].
  assert (part_data s lba (Z.to_nat k) = take (Z.to_nat left) (sectors (sector (nt_dev s)) lba (Z.to_nat (len * spc s)))) as ->.
  { unfold part_data. rewrite take_app_le by (rewrite (sectors_length _ _ _ Hsl); unfold SECTOR; lia).
    transitivity (take (Z.to_nat k) (sectors (sector (nt_dev s)) lba (Z.to_nat (len * spc s)))).
    - destruct (Nat.le_gt_cases 256 (Z.to_nat (len * spc s))); [symmetry|]; apply take_sectors; unfold SECTOR; try done; lia.
    - destruct (Z.le_gt_cases left (len * (512 * spc s))); [by replace k with left by (unfold k; lia)|].
      rewrite !take_ge; [done|rewrite (sectors_length _ _ _ Hsl); unfold SECTOR, k; lia..]. }
  rewrite take_app. f_equal. f_equal. rewrite (sectors_length _ _ _ Hsl). unfold SECTOR, k. nia.
Qed.

Section Runs.
Context (m : gmap Z Z) (record bufsize : Z) (rec : list Z).
Context (Hrec : m !! record = None) (Hbuf : bufsize ≤ 4294966784).

(** One run of a file is read. *)
Lemma run_turn_run s p q len lcn prev out :
  nt_ok s (<[record := 0]> m) → NtfsDecodeDataRun rec p = Some (Some (q, len, lcn)) →
  0 < len → 0 ≤ lcn → 0 ≤ prev → run_start prev lcn + len < 1099511627776 → Z.of_nat (length out) < bufsize →
  let k := Z.min (bufsize - Z.of_nat (length out)) (len * n_bytes_per_cluster (g_NtfsMount s)) in
  let data := part_data s (n_partition_start (g_NtfsMount s) + run_start prev lcn * spc s) (Z.to_nat k) in
  0 < k ∧ ∃ r s', run_turn record rec bufsize (p, prev, out) s = Ok (r, s') ∧ nt_same s s' ∧
    (r = inr (STATUS_NO_MEMORY, out) ∧ nt_ok s' m ∨
     r = inl (q, run_start prev lcn + len, out ++ data) ∧ nt_ok s' (<[record := 0]> m)).
Proof.
  intros Hok Hdec Hlen Hlcn Hprev Hst Hout k data. pose proof (no_spc _ _ Hok) as Hspc. pose proof (no_bpc _ _ Hok) as Hbpc. pose proof (no_start _ _ Hok) as Hpst.
  set (start := run_start prev lcn) in *. assert (0 ≤ start) as Hs0 by (unfold start, run_start; destruct (prev =? 0); lia).
  assert (0 < k ≤ 4294966784) as Hk by (unfold k; nia). split; [lia|].
  unfold run_turn. replace (Z.of_nat (length out) <? bufsize) with true by lia.
  rewrite (deref_bind (λ _, NtfsDecodeDataRun rec p) _ s _ Hdec). unfold mbind at 1, M_bind at 1. cbn [mgets]. cbv zeta.
  assert ((if prev =? 0 then lcn else u64 (prev + lcn)) = start) as ->
    by (unfold start, run_start in *; destruct (prev =? 0); [done|]; apply u64_small; lia).
  rewrite (no_bps _ _ Hok). cbn [Z.eqb].
  rewrite (u64_small (len * _)), (u64_small (start * _)), (u64_small (start + len)) by nia.
  replace (start * n_bytes_per_cluster (g_NtfsMount s) / 512) with (start * spc s) by (rewrite Hbpc; apply Z.div_unique_exact; lia).
  rewrite (u64_small (n_partition_start _ + _)) by nia. fold k.
  rewrite (u32_small (k + 512 - 1)) by lia. replace (k + 512 - 1) with (k + 511) by lia. remember ((k + 511) / 512) as n eqn:Hn.
  assert (0 < n * 512 < 4294967296) as Hn2 by (subst n; Z.div_mod_to_equations; lia). rewrite (u32_small (n * 512)) by lia.
  destruct (nt_alloc_run s _ (n * 512) Hok ltac:(lia)) as (a & s1 & Hr1 & Hs1 & Hc). rewrite (bind_ok _ _ _ _ _ Hr1).
  destruct Hc as [[-> Hok1]|(Ha & Hna & Hok1)].
  { destruct (nt_free_run s1 m record Hrec Hok1) as (s2 & Hr2 & Hok2 & Hs2). cbn [Z.eqb]. rewrite (bind_ok _ _ _ _ _ Hr2).
    eexists _, s2. split; [reflexivity|]. split; [by etrans|by left]. }
  replace (a =? 0) with false by lia.
  destruct (read_part s1 _ (n_partition_start (g_NtfsMount s) + start * spc s) k n Hok1 ltac:(lia) Hn) as (bs & buf & s2 & Hr2 & Hr2' & Hba & Hok2 & Hs2).
  rewrite (bind_ok _ _ _ _ _ Hr2), (bind_ok _ _ _ _ _ Hr2'). change (NT_SUCCESS STATUS_SUCCESS) with true. cbn [negb].
  rewrite (deref_bind (λ _, bytes_at 0 k buf) _ s2 _ Hba).
  destruct (nt_free_run s2 _ a Hna Hok2) as (s3 & Hr3 & Hok3 & Hs3). rewrite (bind_ok _ _ _ _ _ Hr3).
  eexists _, s3. split; [reflexivity|]. split; [by do 2 (etrans; [done|])|right]. by rewrite (part_data_same s s1 _ _ Hs1).
Qed.

Lemma run_loop : ∀ l s p prev out,
  nt_ok s (<[record := 0]> m) → run_list rec p l → runs_fit prev l → 0 ≤ prev → Z.of_nat (length out) ≤ bufsize →
  ∃ n st out' s', loops_to (run_turn record rec bufsize) n (p, prev, out) s (st, out') s' ∧
    0 < n ≤ bufsize - Z.of_nat (length out) + 1 ∧ nt_ok s' m ∧ nt_same s s' ∧
    (st = STATUS_NO_MEMORY ∨ st = STATUS_SUCCESS ∧ out' = out ++ runs_read s prev (bufsize - Z.of_nat (length out)) l).
Proof.
  induction l as [|[len lcn] l IH]; intros s p prev out Hok Hl Hf Hp Hout.
  all: destruct (nt_free_run s m record Hrec Hok) as (s0 & Hr0 & Hok0 & Hs0).
  all: destruct (Z.lt_ge_cases (Z.of_nat (length out)) bufsize) as [Hlt|Hge];
    [|exists 1, STATUS_SUCCESS, out, s0; split; [constructor; unfold run_turn; replace (Z.of_nat (length out) <? bufsize) with false by lia;
        by rewrite (bind_ok _ _ _ _ _ Hr0)|]; split_and!; [lia|lia|done|done|];
        right; split; [done|]; replace (bufsize - Z.of_nat (length out)) with 0 by lia; by rewrite (runs_read_none s _ _ Hok _ Hf), app_nil_r].
  - inversion Hl as [? Hd|]; subst. exists 1, STATUS_SUCCESS, out, s0. split.
    { constructor. unfold run_turn. replace (Z.of_nat (length out) <? bufsize) with true by lia.
      rewrite (deref_bind (λ _, NtfsDecodeDataRun rec p) _ s _ Hd). by rewrite (bind_ok _ _ _ _ _ Hr0). }
    split_and!; [lia|lia|done|done|]. right. split; [done|]. cbn. by rewrite app_nil_r.
  - inversion Hl as [|? q ? ? ? Hd Hl']; subst. destruct Hf as (H1 & H2 & H3 & Hf).
    destruct (run_turn_run s p q len lcn prev out Hok Hd H1 H2 Hp H3 Hlt) as (Hk & r & s1 & Hr & Hs1 & Hc). cbv zeta in Hc, Hk.
    destruct Hc as [[-> Hok1]|[-> Hok1]].
    + exists 1, STATUS_NO_MEMORY, out, s1. split_and!; [by constructor|lia|lia|done|done|by left].
    + cbn [runs_read]. cbv zeta. set (start := run_start prev lcn) in *. set (k := Z.min _ _) in *. set (data := part_data _ _ _) in *.
      assert (0 ≤ start) by (unfold start, run_start; destruct (prev =? 0); lia).
      assert (Z.of_nat (length (out ++ data)) = Z.of_nat (length out) + k) as Hol by (unfold data; rewrite length_app, (part_data_length s _ _ _ Hok); lia).
      destruct (IH s1 q (start + len) (out ++ data) Hok1 Hl' Hf) as (n & st & out' & s2 & Hlp & Hn & Hok2 & Hs2 & Hc2); [lia|lia|].
      exists (n + 1), st, out', s2. split; [by eapply loops_step|]. split; [lia|]. split; [done|]. split; [by etrans|].
      destruct Hc2 as [?|[-> ->]]; [by left|right]. split; [done|]. rewrite (runs_read_same s s1 Hs1), <- app_assoc, Hol. do 3 f_equal. lia.
Qed.
End Runs.

(** The headers found are bytes of the record. *)
Lemma attr_list_in rec size off l : attr_list rec size off l → ∀ x, x ∈ l → bytes_at x.1 (Z.of_nat sizeof_ATTR) rec = Some x.2.
Proof. induction 1 as [| |off hdr l Hin Hb He Hp Hw _ IH]; intros x Hx; [by apply elem_of_nil in Hx..|]. apply elem_of_cons in Hx as [->|Hx]; [done|by apply IH]. Qed.

Lemma first_attr_header rec size off l ty hdr voff vlen :
  attr_list rec size off l → Forall byte rec → first_attr ty l = Some (hdr, voff, vlen) → Forall byte hdr ∧ length hdr = 24%nat ∧ 0 ≤ voff ∧ 0 ≤ vlen.
Proof.
  intros Hal Hb Hf. unfold first_attr in Hf. destruct (first_idx _ l) as [i|]; [|done]. destruct (l !! i) as [[o h]|] eqn:Hi; [|done].
  apply list_elem_of_lookup_2 in Hi. pose proof (attr_list_in _ _ _ _ Hal _ Hi) as Hh. cbn [fst snd] in Hh. injection Hf as Hf.
  unfold bytes_at in Hh. change (Z.of_nat sizeof_ATTR) with 24 in Hh. case_match eqn:Hc; [|done]. injection Hh as <-.
  assert (length (sub (Z.to_nat o) 24 rec) = 24%nat) as Hl by (apply sub_length; lia).
  assert (Forall byte (sub (Z.to_nat o) 24 rec)) as Hfb by (by apply sub_Forall). change (Z.to_nat 24) with 24%nat in Hf.
  unfold found_attr in Hf. destruct (non_resident _ =? 0); injection Hf as <- <- <-; split_and!; try done;
    try (apply Z.mod_pos_bound; lia); unfold value_length, a_length; apply field_bound; try done; lia.
Qed.

(** Where the file's bytes are: in the record, or in its runs. *)
Definition data_ok s (rec : list Z) (bufsize : Z) (a : list Z * Z * Z) : Prop :=
  let '(hdr, voff, vlen) := a in
  if non_resident hdr =? 0 then voff + Z.min vlen bufsize ≤ bytes_per_mft_record (g_NtfsMount s)
  else ∃ runs, run_list rec voff runs ∧ runs_fit 0 runs.
Definition data_of s (rec : list Z) (bufsize : Z) (a : list Z * Z * Z) (out : list Z) : Prop :=
  let '(hdr, voff, vlen) := a in
  if non_resident hdr =? 0 then out = sub (Z.to_nat voff) (Z.to_nat (Z.min vlen bufsize)) rec
  else ∃ runs, run_list rec voff runs ∧ out = runs_read s 0 bufsize runs ∧
    (parts_short s bufsize runs → out = take (Z.to_nat bufsize) (runs_data s 0 runs)).


Lemma chars_length n bs : length bs = (2 * n)%nat → length (chars_of bs) = n.
Proof.
  revert bs. induction n as [|n IH]; intros bs Hl; [by destruct bs|]. destruct bs as [|b0 [|b1 bs]]; [cbn in Hl; lia..|].
  cbn [chars_of length]. rewrite IH; [done|]. cbn [length] in Hl. lia.
Qed.

(** The name of a file: the characters of the first name attribute, each
    outside ASCII replaced, cut so that they and the terminator fit the caller's
    buffer; a name held outside the record is refused. *)
Theorem NtfsGetFileName_spec s m idx max_len l :
  let mt := g_NtfsMount s in let rec := record_of s idx in
  nt_ok s m → 0 ≤ idx → mft_lcn mt * n_bytes_per_cluster mt + idx * bytes_per_mft_record mt < 9223372036854775808 →
  attr_list rec (bytes_per_mft_record mt) (first_attr_offset rec) l → 0 < max_len < 4294967296 →
  (∀ hdr voff vlen, first_attr ATTR_FILE_NAME l = Some (hdr, voff, vlen) → non_resident hdr = 0 →
     voff + 66 + 2 * field (Z.to_nat voff + 64) 1 rec ≤ bytes_per_mft_record mt) →
  ∃ st name s', NtfsGetFileName idx max_len s = Ok ((st, name), s') ∧ nt_ok s' m ∧ nt_same s s' ∧
    (st = STATUS_NO_MEMORY ∨
     st = STATUS_INVALID_IMAGE_FORMAT ∨
     st = STATUS_OBJECT_NAME_NOT_FOUND ∧ first_attr ATTR_FILE_NAME l = None ∨
     st = STATUS_SUCCESS ∧ (length name ≤ Z.to_nat max_len)%nat ∧
       ∃ hdr voff vlen, first_attr ATTR_FILE_NAME l = Some (hdr, voff, vlen) ∧
         let n := Z.min (field (Z.to_nat voff + 64) 1 rec) (max_len - 1) in
         name = chars_of (sub (Z.to_nat voff + 66) (2 * Z.to_nat n) rec) ++ [0]).
Proof.
  intros mt rec Hok Hi Hmax Hal Hml Hname. pose proof (record_length s m idx Hok) as Hlen. pose proof (record_bytes_ok s m idx Hok) as Hb. fold rec mt in Hlen, Hb.
  remember (NtfsGetFileName idx max_len s) as w eqn:Hw. unfold NtfsGetFileName in Hw. unfold mbind at 1, M_bind at 1 in Hw. cbn [mgets] in Hw.
  rewrite (no_valid _ _ Hok) in Hw. cbn [negb] in Hw.
  match type of Hw with _ = with_attribute _ _ ?f ?k _ => destruct (with_attribute_run s m idx ATTR_FILE_NAME l f k Hok Hi Hmax Hal)
    as [(st & s' & Hr & Hok' & Hs & Hc)|(record & [[hdr voff] vlen] & s1 & Hr & Hm & Hf & Hna & Hok1 & Hs1)] end; rewrite Hr in Hw; clear Hr.
  { eexists st, _, s'. split; [exact Hw|]. split_and!; [done|done|]. destruct Hc as [?|[[? _]|(? & _ & ?)]]; [by left|by right; left|by right; right; left]. }
  fold rec in Hw. destruct (first_attr_header _ _ _ _ _ _ _ _ Hal Hb Hf) as (_ & _ & Hv0 & _). specialize (Hname hdr voff vlen Hf).
  destruct (nt_free_run s1 m record Hna Hok1) as (s2 & Hr2 & Hok2 & Hs2). assert (nt_same s s2) by (by etrans).
  destruct (Z.eqb_spec (non_resident hdr) 0) as [Hres|Hres]; cbn [negb] in Hw.
  2: { rewrite (bind_ok _ _ _ _ _ Hr2) in Hw. eexists _, _, s2. split; [exact Hw|]. split_and!; [done|done|by right; left]. }
  specialize (Hname Hres).
  assert (0 ≤ le_val (sub (Z.to_nat voff + 64) 1 rec) < 256 ^ Z.of_nat (length (sub (Z.to_nat voff + 64) 1 rec))) as Hnl0 by (by apply le_val_bound, sub_Forall).
  fold (field (Z.to_nat voff + 64) 1 rec) in Hnl0. set (nl := field (Z.to_nat voff + 64) 1 rec) in *.
  assert (length (sub (Z.to_nat voff + 64) 1 rec) = 1%nat) as Hsl by (apply sub_length; lia). rewrite Hsl in Hnl0. change (256 ^ Z.of_nat 1) with 256 in Hnl0.
  assert (bytes_at (voff + 64) 1 rec = Some (sub (Z.to_nat voff + 64) 1 rec)) as Hba1
    by (unfold bytes_at; replace (_ && _ && _) with true by lia; by replace (Z.to_nat (voff + 64)) with (Z.to_nat voff + 64)%nat by lia).
  rewrite (deref_bind (λ _, bytes_at (voff + 64) 1 rec) _ s1 _ Hba1) in Hw. fold (field (Z.to_nat voff + 64) 1 rec) in Hw. fold nl in Hw. cbv zeta in Hw.
  set (n := Z.min nl (max_len - 1)).
  assert ((if max_len <=? nl then u32 (max_len - 1) else nl) = n) as Hn by (unfold n; destruct (Z.leb_spec max_len nl); rewrite ?u32_small; lia).
  rewrite Hn in Hw. replace (max_len <=? n) with false in Hw by lia.
  assert (bytes_at (voff + 66) (2 * n) rec = Some (sub (Z.to_nat voff + 66) (2 * Z.to_nat n) rec)) as Hba2.
  { unfold bytes_at. replace (_ && _ && _) with true by lia. by replace (Z.to_nat (voff + 66)) with (Z.to_nat voff + 66)%nat by lia; replace (Z.to_nat (2 * n)) with (2 * Z.to_nat n)%nat by lia. }
  rewrite (deref_bind (λ _, bytes_at (voff + 66) (2 * n) rec) _ s1 _ Hba2), (bind_ok _ _ _ _ _ Hr2) in Hw.
  eexists _, _, s2. split; [exact Hw|]. split; [done|]. split; [done|]. right; right; right. split; [done|]. split.
  - rewrite length_app, (chars_length (Z.to_nat n)); [cbn [length]; lia|]. apply sub_length. lia.
  - exists hdr, voff, vlen. by split.
Qed.

(** [C37] The attribute walk over any record of fewer than 2^32 bytes.  Either the
    walk ends, at the end mark, at an attribute of no length or at the end of the
    record, and answers for every type with the first attribute of that type, or with
    none; or it comes to an attribute whose length carries the offset past 32 bits.
    Then an attribute of the type asked for up to there is still found, and a walk that
    has found none goes on from the wrapped offset: it returns exactly when the walk
    from there does, and with the same answer ([ntfs_walk_hangs] has one that never
    does). *)
Theorem NtfsFindAttribute_spec rec size :
  (22 ≤ length rec)%nat → Forall byte rec → size = Z.of_nat (length rec) → size < 4294967296 →
  (∃ l, attr_list rec size (first_attr_offset rec) l ∧ ∀ ty s, NtfsFindAttribute rec size ty s = Ok (first_attr ty l, s)) ∨
  (∃ l, attr_wraps rec size (first_attr_offset rec) l ∧ ∀ ty s,
     match first_attr ty l with
     | Some a => NtfsFindAttribute rec size ty s = Ok (Some a, s)
     | None => ∀ n r s', loops_to (attr_turn rec size ty) (n + Z.of_nat (length l)) (first_attr_offset rec) s r s' ↔
                         loops_to (attr_turn rec size ty) n (next_offset l) s r s'
     end).
Proof.
  intros Hl Hb Hsz Hmax. assert (0 ≤ first_attr_offset rec) as H0 by (unfold first_attr_offset; apply field_bound; [done|lia]).
  destruct (attr_list_or_wraps rec size (first_attr_offset rec) H0 Hsz Hb) as [[l Hal]|[l Hal]]; [left|right]; exists l; (split; [done|]); intros ty s.
  - by apply find_attr_run.
  - pose proof (attr_wrap_loop rec size ty s _ l Hal H0) as Hw. destruct (first_attr ty l) as [a|]; [|exact Hw].
    destruct Hw as (n & Hn & Hlt). by apply (find_attr_loop rec size ty s n).
Qed.

(** What a mount establishes, on a volume of plain geometry. *)
Lemma mount_ok s m lba :
  let b := sector (nt_dev s) lba in
  dev_up (nt_dev s) → pool_rep (nt_pool s) m → can_lock (pcr (nt_pool s)) → 0 ≤ lba < 4611686018427387904 →
  oem_id b = NTFS_OEM → b_bytes_per_sector b = 512 → b_sectors_per_cluster b ≠ 0 →
  (∃ k, record_bytes (b_clusters_per_mft_record b) (512 * b_sectors_per_cluster b) = Some (512 * k) ∧ 0 < k ≤ 256) →
  is_Some (record_bytes (b_clusters_per_index_block b) (512 * b_sectors_per_cluster b)) →
  ∃ s', NtfsMountPartition lba s = Ok (STATUS_SUCCESS, s') ∧ nt_ok s' m ∧ ∀ l, sector (nt_dev s') l = sector (nt_dev s) l.
Proof.
  intros b Hup Hp Hc Hlba Hoem Hbps Hspc (k & Hk & Hkb) [bpi Hbpi].
  destruct (ahci_read_law (nt_dev s) lba 1 Hup ltac:(lia)) as (d & Hr & Hup' & Hsec). change (Z.to_nat 1) with 1%nat in Hr. cbn [sectors] in Hr. rewrite app_nil_r in Hr. fold b in Hr.
  unfold NtfsMountPartition. erewrite bind_ok; [|unfold NtfsReadSectors; cbn [Z.eqb]; apply zoom_ok; exact Hr].
  cbv beta iota. change (NT_SUCCESS STATUS_SUCCESS) with true. cbn [negb]. rewrite bool_decide_true by done. cbn [negb]. cbv zeta. rewrite Hbps.
  erewrite deref_bind; [|exact Hk]. erewrite deref_bind; [|exact Hbpi]. eexists. split; [reflexivity|]. split; [|done].
  assert (0 ≤ b_sectors_per_cluster b < 256) as Hb1 by (unfold b_sectors_per_cluster; apply (field_bound 13 1); [by apply sector_byte|unfold b; rewrite sector_len by done; unfold SECTOR; lia]).
  assert (512 * b_sectors_per_cluster b / 512 = b_sectors_per_cluster b) as Hdiv by (rewrite (Z.mul_comm 512), Z.div_mul by lia; done).
  constructor; cbn; unfold spc; cbn; rewrite ?Hdiv; try done; try lia; [by exists k|].
  unfold mft_logical_cluster. apply field_bound; [by apply sector_byte|unfold b; rewrite sector_len by done; unfold SECTOR; lia].
Qed.

End Ntfs.

(** Data runs.  A run written with sizes that hold its numbers is decoded to its
    length and its offset, and the decoder stands at the byte after it; a negative
    offset, which the comments describe, comes out as 0.  A zero byte ends the list. *)
Theorem ntfs_run_roundtrip ls os len off pre post :
  run_fits ls os len off →
  NtfsDecodeDataRun (pre ++ enc_run ls os len off ++ post) (Z.of_nat (length pre)) =
    Some (Some (Z.of_nat (length (pre ++ enc_run ls os len off)), len, Z.max 0 off)) ∧
  NtfsDecodeDataRun (pre ++ 0 :: post) (Z.of_nat (length pre)) = Some None.
Proof.
  intros Hf. split; [by apply decode_run|]. unfold NtfsDecodeDataRun. change (pre ++ 0 :: post) with (pre ++ [0] ++ post).
  by rewrite bytes_at_app.
Qed.

Lemma ntfs_run_roundtrip_witness :
  NtfsDecodeDataRun ([1; 2] ++ enc_run 2 1 300 (-5) ++ [0]) 2 = Some (Some (6, 300, 0)).
Proof. apply (ntfs_run_roundtrip 2 1 300 (-5) [1; 2] [0]). split_and!; cbn; lia. Defined.

(** ** A volume with one file of two runs *)

Definition demo_record : list Z :=
  splice 0 [70; 73; 76; 69] (splice 20 [56] (splice 56 (le_bytes 4 ATTR_DATA ++ le_bytes 4 80 ++ [1])
    (splice 120 (enc_run 1 1 2 10 ++ enc_run 1 1 1 3 ++ [0]) (splice 136 (le_bytes 4 ATTR_END) (replicate 1024 0))))).
Definition demo_ntfs_disk : RAMDISK :=
  mkDisk (λ l, if l =? 4 then take 512 demo_record else if l =? 5 then drop 512 demo_record else replicate 512 (l mod 256)).
Definition demo_ntfs : NTFS POOL_STATE RAMDISK :=
  mkNt (mkNtfs 0 512 512 2 1024 2 1024 4 8 100 true) demo_pool demo_ntfs_disk.

Lemma demo_record_bytes : Forall byte demo_record.
Proof.
  assert (forallb byteb demo_record = true) as Hb by (vm_compute; reflexivity). rewrite forallb_forall in Hb.
  apply Forall_forall. intros x Hx%list_elem_of_In%Hb. unfold byteb in Hx. unfold byte. lia.
Qed.

Lemma demo_ntfs_ok : nt_ok demo_ntfs ∅.
Proof.
  constructor; try (cbn; done); try (cbn; lia).
  - exists 2. cbn. lia.
  - intros l. cbn [demo_ntfs nt_dev demo_ntfs_disk platter]. pose proof demo_record_bytes as Hb.
    destruct (l =? 4); [|destruct (l =? 5)].
    + split; [vm_compute; reflexivity|by apply Forall_take].
    + split; [vm_compute; reflexivity|by apply Forall_drop].
    + split; [apply length_replicate|]. apply Forall_replicate. unfold byte. apply Z.mod_pos_bound. lia.
  - exact demo_pool_rep.
Qed.

Definition demo_attr : list Z := sub 56 24 demo_record.
Lemma demo_attrs : attr_list (record_of demo_ntfs 0) 1024 (first_attr_offset (record_of demo_ntfs 0)) [(56, demo_attr)].
Proof.
  assert (record_of demo_ntfs 0 = demo_record) as -> by (vm_compute; reflexivity).
  change (first_attr_offset demo_record) with 56.
  eapply al_cons; [vm_compute; discriminate|vm_compute; reflexivity|vm_compute; reflexivity|vm_compute; reflexivity|vm_compute; reflexivity|].
  change (56 + a_length _) with 136. eapply al_end; [vm_compute; discriminate|vm_compute; reflexivity|vm_compute; reflexivity].
Qed.

Lemma demo_runs : run_list demo_record 120 [(2, 10); (1, 3)].
Proof. eapply rl_cons; [vm_compute; reflexivity|]. eapply rl_cons; [vm_compute; reflexivity|]. apply rl_end. vm_compute. reflexivity. Qed.


Lemma NtfsFindAttribute_spec_witness :
  NtfsFindAttribute demo_record 1024 ATTR_DATA demo_ntfs = Ok (Some (demo_attr, 120, 80), demo_ntfs) ∧
  NtfsFindAttribute demo_record 1024 ATTR_FILE_NAME demo_ntfs = Ok (None, demo_ntfs).
Proof.
  destruct (NtfsFindAttribute_spec (P := POOL_STATE) (D := RAMDISK) demo_record 1024) as [(l & Hl & Hr)|(l & Hl & _)].
  - vm_compute. repeat constructor.
  - exact demo_record_bytes.
  - vm_compute. reflexivity.
  - lia.
  - assert (l = [(56, demo_attr)]) as ->.
    { change (first_attr_offset demo_record) with 56 in Hl. inversion Hl as [? Ho|? hdr ? Hb He|? hdr l' ? Hb ? ? ? Hl']; subst.
      - vm_compute in Ho. discriminate Ho.
      - vm_compute in Hb. injection Hb as <-. vm_compute in He. discriminate He.
      - assert (hdr = demo_attr) as -> by (apply (inj Some); rewrite <- Hb; vm_compute; reflexivity). f_equal. change (56 + a_length demo_attr) with 136 in Hl'.
        inversion Hl' as [| |? hdr2 ? ? Hb2 He2]; subst; [done|done|]. vm_compute in Hb2. injection Hb2 as <-. vm_compute in He2. discriminate He2. }
    split; apply Hr.
  - exfalso. change (first_attr_offset demo_record) with 56 in Hl. inversion Hl as [? hdr ? Hb ? Hw|? hdr l' ? Hb ? ? ? Hl']; subst.
    + vm_compute in Hb. injection Hb as <-. vm_compute in Hw. by apply Hw.
    + assert (hdr = demo_attr) as -> by (apply (inj Some); rewrite <- Hb; vm_compute; reflexivity). change (56 + a_length demo_attr) with 136 in Hl'.
      inversion Hl' as [? hdr2 ? Hb2 He2|? hdr2 ? ? Hb2 He2]; subst; vm_compute in Hb2; injection Hb2 as <-; vm_compute in He2; discriminate He2.
Defined.

(** An attribute whose length takes the offset back to the one before it: the
    walk goes round for ever. *)
Definition hang_record : list Z :=
  splice 20 [56] (splice 56 (le_bytes 4 16 ++ le_bytes 4 24) (splice 80 (le_bytes 4 16 ++ le_bytes 4 4294967272) (replicate 512 0))).

Theorem ntfs_walk_hangs (s : NTFS POOL_STATE RAMDISK) : ∀ n r s', ¬ loops_to (attr_turn hang_record 512 ATTR_DATA) n 56 s r s'.
Proof.
  assert (∀ s : NTFS POOL_STATE RAMDISK, attr_turn hang_record 512 ATTR_DATA 56 s = Ok (inl 80, s)) as H1 by (intros ?; vm_compute; reflexivity).
  assert (∀ s : NTFS POOL_STATE RAMDISK, attr_turn hang_record 512 ATTR_DATA 80 s = Ok (inl 56, s)) as H2 by (intros ?; vm_compute; reflexivity).
  assert (∀ n x (s : NTFS POOL_STATE RAMDISK) r s', loops_to (attr_turn hang_record 512 ATTR_DATA) n x s r s' → x = 56 ∨ x = 80 → False) as Hn.
  { induction 1 as [x s0 b s' Hx|n x s0 x' s1 b s' Hx _ IH]; intros [->| ->]; rewrite ?H1, ?H2 in Hx; try discriminate Hx; injection Hx as <- <-; apply IH; auto. }
  intros n r s' Hl. by eapply Hn; [exact Hl|left].
Qed.
