(* ===== verification/Partition.v ===== *)
(** * Partition: the partition scan (src/fs/partition.c)

    The table of partitions and the scan that fills it from the master boot record
    or from the GUID partition table, mounting each FAT32 and NTFS volume it
    recognises.  The scan runs on the disk of the two file systems and on their
    pool, so the mounts are the ones of the files Fat32 and Ntfs. *)

From S2P Require Import Prelude Irql Pool Disk Fat32 Ntfs.

#[local] Open Scope Z_scope.

(** ** The on-disk records *)

(** PARTITION_TABLE_ENTRY, 16 bytes; MBR. *)
Definition system_id (e : list Z) : Z := field 4 1 e.
Definition start_lba (e : list Z) : Z := field 8 4 e.
Definition num_sectors (e : list Z) : Z := field 12 4 e.
Definition mbr_partition (mbr : list Z) (i : nat) : list Z := sub (446 + 16 * i) 16 mbr.
Definition mbr_signature (mbr : list Z) : Z := field 510 2 mbr.

Definition MBR_SIGNATURE := 0xAA55.
Definition PART_TYPE_EMPTY := 0x00.
Definition PART_TYPE_FAT32 := 0x0B.
Definition PART_TYPE_FAT32_LBA := 0x0C.
Definition PART_TYPE_NTFS := 0x07.
Definition PART_TYPE_EFI := 0xEE.
Definition PART_TYPE_EXTENDED := 0x05.
Definition PART_TYPE_EXT_LBA := 0x0F.

(** GPT_HEADER; GPT_ENTRY, 128 bytes. *)
Definition gpt_signature (h : list Z) : list Z := sub 0 8 h.
Definition partition_entry_lba (h : list Z) : Z := field 72 8 h.
Definition num_partition_entries (h : list Z) : Z := field 80 4 h.
Definition partition_entry_size (h : list Z) : Z := field 84 4 h.
Definition sizeof_GPT_ENTRY := 128.
Definition type_guid (e : list Z) : list Z := sub 0 16 e.
Definition starting_lba (e : list Z) : Z := field 32 8 e.
Definition ending_lba (e : list Z) : Z := field 40 8 e.

Definition GPT_SIGNATURE : list Z := [69; 70; 73; 32; 80; 65; 82; 84].
Definition GPT_TYPE_MICROSOFT_BASIC : list Z :=
  [0xA2; 0xA0; 0xD0; 0xEB; 0xE5; 0xB9; 0x33; 0x44; 0x87; 0xC0; 0x68; 0xB6; 0xB7; 0x26; 0x99; 0xC7].

(** ** The table *)

Record PARTITION_INFO := mkPart {
  pi_index : Z;
  pi_system_id : Z;
  pi_start_lba : Z;
  pi_num_sectors : Z;
  pi_mounted : bool;
  pi_fstype : list Z
}.
Definition zero_part : PARTITION_INFO := mkPart 0 0 0 0 false (replicate 16 0).
Definition MAX_PARTITIONS := 32.

Definition with_mounted (b : bool) (p : PARTITION_INFO) : PARTITION_INFO :=
  mkPart (pi_index p) (pi_system_id p) (pi_start_lba p) (pi_num_sectors p) b (pi_fstype p).
(** The bytes of a name written over the start of [fstype]. *)
Definition with_fstype (nm : list Z) (p : PARTITION_INFO) : PARTITION_INFO :=
  mkPart (pi_index p) (pi_system_id p) (pi_start_lba p) (pi_num_sectors p) (pi_mounted p) (splice 0 nm (pi_fstype p)).

Definition FS_FAT32 : list Z := [70; 65; 84; 51; 50; 0].
Definition FS_NTFS : list Z := [78; 84; 70; 83; 0].
Definition FS_EXTENDED : list Z := [69; 88; 84; 69; 78; 68; 69; 68; 0].
Definition FS_UNKNOWN : list Z := [85; 78; 75; 78; 79; 87; 78; 0].
Definition FS_QUESTION : list Z := [63; 0].
Definition FS_OTHER : list Z := [85; 0].

Record PART (P D : Type) := mkPt {
  g_Partitions : list PARTITION_INFO;
  g_NumPartitions : Z;
  pt_mnt : FAT32_MOUNT;
  pt_fat : list Z;
  pt_ntfs : NTFS_MOUNT;
  pt_pool : P;
  pt_dev : D
}.
Arguments mkPt {P D} _ _ _ _ _ _ _.
Arguments g_Partitions {P D} _.
Arguments g_NumPartitions {P D} _.
Arguments pt_mnt {P D} _.
Arguments pt_fat {P D} _.
Arguments pt_ntfs {P D} _.
Arguments pt_pool {P D} _.
Arguments pt_dev {P D} _.

(** A counted loop whose body says whether to break. *)
Fixpoint for_each {S} (f : nat → M S bool) (l : list nat) : M S unit :=
  match l with
  | [] => mret tt
  | i :: l' => stop ← f i; if stop : bool then mret tt else for_each f l'
  end.

Section Partition.
Context {P : Type} `{HP : HasPcr P} `{PI : !PoolInterface P} {D : Type} `{BD : !BlockDevice D}.
#[local] Abbreviation PT := (PART P D).
Implicit Types (s : PT).

Definition set_parts (l : list PARTITION_INFO) (n : Z) s : PT :=
  mkPt l n (pt_mnt s) (pt_fat s) (pt_ntfs s) (pt_pool s) (pt_dev s).
Definition set_pt_dev (d : D) s : PT := mkPt (g_Partitions s) (g_NumPartitions s) (pt_mnt s) (pt_fat s) (pt_ntfs s) (pt_pool s) d.
Definition set_pt_pool (p : P) s : PT := mkPt (g_Partitions s) (g_NumPartitions s) (pt_mnt s) (pt_fat s) (pt_ntfs s) p (pt_dev s).

(** The parts of the state the file systems work on. *)
Definition fat_view s : FS P D := mkFs (pt_mnt s) (pt_fat s) (pt_pool s) (pt_dev s).
Definition fat_put (f : FS P D) s : PT :=
  mkPt (g_Partitions s) (g_NumPartitions s) (mnt f) (fat_mem f) (pt_ntfs s) (fs_pool f) (dev f).
Definition ntfs_view s : NTFS P D := mkNt (pt_ntfs s) (pt_pool s) (pt_dev s).
Definition ntfs_put (n : NTFS P D) s : PT :=
  mkPt (g_Partitions s) (g_NumPartitions s) (pt_mnt s) (pt_fat s) (g_NtfsMount n) (nt_pool n) (nt_dev n).

Definition read_disk (lba n : Z) : M PT (Z * list Z) := zoom pt_dev set_pt_dev (AhciReadSectors lba n).
Definition mount_fat (lba : Z) : M PT Z := zoom fat_view fat_put (Fat32MountPartition lba).
Definition mount_ntfs (lba : Z) : M PT Z := zoom ntfs_view ntfs_put (NtfsMountPartition lba).

Definition PartitionGetCount : M PT Z := mgets g_NumPartitions.
(** A reference to an entry, or none. *)
Definition PartitionGetInfo (index : Z) : M PT (option nat) :=
  n ← mgets g_NumPartitions; mret (if n <=? index then None else Some (Z.to_nat index)).

(** [&g_Partitions[g_NumPartitions++]], and a store through the pointer. *)
Definition next_part : M PT nat :=
  n ← mgets g_NumPartitions;
  mmod (λ s, set_parts (g_Partitions s) (u32 (n + 1)) s);;
  mret (Z.to_nat n).
Definition upd_part (j : nat) (f : PARTITION_INFO → PARTITION_INFO) : M PT unit :=
  p ← mderef (λ s, g_Partitions s !! j);
  mmod (λ s, set_parts (<[j := f p]> (g_Partitions s)) (g_NumPartitions s) s).

Definition table_full : M PT bool := n ← mgets g_NumPartitions; mret (MAX_PARTITIONS <=? n).

(** A recognised file system: its name is recorded and its volume mounted. *)
Definition mount_as (nm : list Z) (mount : Z → M PT Z) (j : nat) (lba : Z) : M PT unit :=
  upd_part j (with_fstype nm);;
  ms ← mount lba;
  upd_part j (with_mounted (NT_SUCCESS ms)).

(** ** The scan of a boot record *)

Definition mbr_turn (mbr : list Z) (i : nat) : M PT bool :=
  let e := mbr_partition mbr i in
  let ty := system_id e in
  if ty =? PART_TYPE_EMPTY then mret false
  else
    j ← next_part;
    upd_part j (λ p, mkPart (Z.of_nat i) ty (start_lba e) (num_sectors e) false (replicate 16 0));;
    (if (ty =? PART_TYPE_FAT32) || (ty =? PART_TYPE_FAT32_LBA) then mount_as FS_FAT32 mount_fat j (start_lba e)
     else if ty =? PART_TYPE_NTFS then mount_as FS_NTFS mount_ntfs j (start_lba e)
     else if (ty =? PART_TYPE_EXTENDED) || (ty =? PART_TYPE_EXT_LBA) then upd_part j (with_fstype FS_EXTENDED)
     else upd_part j (with_fstype FS_UNKNOWN));;
    table_full.

Definition is_gpt (mbr : list Z) : bool :=
  existsb (λ i, system_id (mbr_partition mbr i) =? PART_TYPE_EFI) (seq 0 4).

(** ** The scan of a GUID partition table *)

Definition is_empty (e : list Z) : bool := forallb (λ b, b =? 0) (type_guid e).

Definition fat32_mark (bs : list Z) : bool :=
  bool_decide (sub 0x52 5 bs = take 5 FS_FAT32) || bool_decide (sub 0x36 5 bs = take 5 FS_FAT32).
Definition ntfs_mark (bs : list Z) : bool := bool_decide (sub 0x03 4 bs = take 4 FS_NTFS).

(** A basic-data partition: its boot sector says which file system to mount. *)
Definition probe (j : nat) (lba : Z) : M PT unit :=
  '(st, bs) ← read_disk lba 1;
  if NT_SUCCESS st then
    if fat32_mark bs then mount_as FS_FAT32 mount_fat j lba
    else if ntfs_mark bs then mount_as FS_NTFS mount_ntfs j lba
    else upd_part j (with_fstype FS_QUESTION)
  else mret tt.

Definition gpt_turn (entries : list Z) (entry_size : Z) (i : nat) : M PT bool :=
  e ← mderef (λ _, bytes_at (Z.of_nat i * entry_size) sizeof_GPT_ENTRY entries);
  if is_empty e then mret false
  else
    j ← next_part;
    upd_part j (λ p, mkPart (Z.of_nat i) 0 (starting_lba e) (u64 (ending_lba e - starting_lba e + 1)) (pi_mounted p) (pi_fstype p));;
    (if bool_decide (type_guid e = GPT_TYPE_MICROSOFT_BASIC) then probe j (starting_lba e)
     else upd_part j (with_fstype FS_OTHER));;
    table_full.

Definition bad_header (num_entries entry_size : Z) : bool :=
  (128 <? num_entries) || (entry_size =? 0) || (256 <? entry_size).

(** The part of the scan a protective partition leads to; [None] is the end
    that all scans share. *)
Definition gpt_scan : M PT (option Z) :=
  '(st, gpt) ← read_disk 1 1;
  if negb (NT_SUCCESS st) then mret (Some st)
  else if negb (bool_decide (gpt_signature gpt = GPT_SIGNATURE)) then mret (Some STATUS_INVALID_IMAGE_FORMAT)
  else
    let num_entries := num_partition_entries gpt in
    let entry_size0 := partition_entry_size gpt in
    if bad_header num_entries entry_size0 then mret (Some STATUS_INVALID_IMAGE_FORMAT)
    else
      let entry_size := if entry_size0 <? sizeof_GPT_ENTRY then sizeof_GPT_ENTRY else entry_size0 in
      let entries_sectors := (num_entries * entry_size + 511) / 512 in
      entries ← zoom pt_pool set_pt_pool (pool_alloc 0 (num_entries * entry_size) 0);
      if entries =? 0 then mret (Some STATUS_NO_MEMORY)
      else
        r ← read_disk (partition_entry_lba gpt) entries_sectors;
        bytes ← mderef (λ _, store_at 0 r.2 (zeros (num_entries * entry_size)));
        if negb (NT_SUCCESS r.1) then
          zoom pt_pool set_pt_pool (pool_free entries 0);;
          mret (Some r.1)
        else
          for_each (gpt_turn bytes entry_size) (seq 0 (Z.to_nat num_entries));;
          zoom pt_pool set_pt_pool (pool_free entries 0);;
          mret None.

Definition PartitionScan : M PT Z :=
  mmod (set_parts (replicate 32 zero_part) 0);;
  present ← mgets (λ s, AhciIsPresent (pt_dev s));
  if negb present then mret STATUS_DEVICE_DOES_NOT_EXIST
  else
    '(st, mbr) ← read_disk 0 1;
    if negb (NT_SUCCESS st) then mret st
    else if negb (mbr_signature mbr =? MBR_SIGNATURE) then mret STATUS_INVALID_IMAGE_FORMAT
    else
      r ← (if is_gpt mbr then gpt_scan else for_each (mbr_turn mbr) (seq 0 4);; mret None);
      match r with
      | Some st => mret st
      | None =>
          n ← mgets g_NumPartitions;
          if n =? 0 then mret STATUS_OBJECT_NAME_NOT_FOUND else mret STATUS_SUCCESS
      end.

(** ** What the scan relies on and keeps *)

(** The blocks of the pool: [m0] and the cache of the mounted FAT32 volume. *)
Definition with_cache (c : Z) (m0 : gmap Z Z) : gmap Z Z := if c =? 0 then m0 else <[c := 0]> m0.

Record world (sec : Z → list Z) (m0 : gmap Z Z) s : Prop := {
  wd_dev : dev_up (pt_dev s);
  wd_sec l : sector (pt_dev s) l = sec l;
  wd_pool : pool_rep (pt_pool s) (with_cache (fat_cache (pt_mnt s)) m0);
  wd_new : m0 !! fat_cache (pt_mnt s) = None;
  wd_pcr : can_lock (pcr (pt_pool s))
}.

(** The table: the entries listed, then entries that are zero. *)
Definition listed s : list PARTITION_INFO := take (Z.to_nat (g_NumPartitions s)) (g_Partitions s).
Record table_ok s : Prop := {
  tb_num : 0 ≤ g_NumPartitions s ≤ 32;
  tb_len : length (g_Partitions s) = 32%nat;
  tb_rest : g_Partitions s = listed s ++ replicate (32 - Z.to_nat (g_NumPartitions s)) zero_part
}.

(** In the middle of a turn that began in [s0] the new entry is [p]. *)
Record turning sec m0 s0 (p : PARTITION_INFO) s : Prop := {
  tn_world : world sec m0 s;
  tn_parts : g_Partitions s = <[Z.to_nat (g_NumPartitions s0) := p]> (g_Partitions s0);
  tn_num : g_NumPartitions s = g_NumPartitions s0 + 1
}.

(** What the boot sector of a FAT32 volume describes. *)
Definition geometry (sec : Z → list Z) (lba : Z) : FAT32_MOUNT := read_bpb lba (sec lba) unmounted.
Definition sane (sec : Z → list Z) (lba : Z) : Prop :=
  SectorsPerCluster (sec lba) ≠ 0 ∧ 0 ≤ lba < 4294967296 ∧ 2 ≤ fat_entries (geometry sec lba) < EOC_MIN.

(** Volumes whose mount does not leave the buffers it fills: not FAT32 at all, or
    with a table no larger than the cache. *)
Definition fat_safe (sec : Z → list Z) (lba : Z) : Prop :=
  no_marks (sec lba) = true ∨
  sane sec lba ∧ 128 * fat_total_sectors (geometry sec lba) ≤ fat_entries (geometry sec lba).
(** Volumes whose mount does, or divides by zero. *)
Definition fat_bad (sec : Z → list Z) (lba : Z) : Prop :=
  no_marks (sec lba) = false ∧
  (SectorsPerCluster (sec lba) = 0 ∨
   sane sec lba ∧ fat_entries (geometry sec lba) < 128 * fat_total_sectors (geometry sec lba)).

(** NTFS volumes whose record sizes are shifted by 64 bits or more. *)
Definition ntfs_bad (sec : Z → list Z) (lba : Z) : Prop :=
  let b := sec lba in let bpc := b_bytes_per_sector b * b_sectors_per_cluster b in
  oem_id b = NTFS_OEM ∧ (record_bytes (b_clusters_per_mft_record b) bpc = None ∨ record_bytes (b_clusters_per_index_block b) bpc = None).

(** The pool, holding at least the blocks [m0], refuses the cache of a volume. *)
Definition no_room (m0 : gmap Z Z) (sec : Z → list Z) (lba : Z) : Prop :=
  ∃ (m : gmap Z Z) (p p' : P), m0 ⊆ m ∧ pool_rep p m ∧ pool_alloc 0 (fat_entries (geometry sec lba) * 4) 0 p = Ok (0, p').

Definition ntfs_safe (sec : Z → list Z) (lba : Z) : Prop :=
  let b := sec lba in let bpc := b_bytes_per_sector b * b_sectors_per_cluster b in
  oem_id b ≠ NTFS_OEM ∨
  is_Some (record_bytes (b_clusters_per_mft_record b) bpc) ∧ is_Some (record_bytes (b_clusters_per_index_block b) bpc).

Lemma with_cache_delete c (m0 : gmap Z Z) : m0 !! c = None → delete c (with_cache c m0) = m0.
Proof. intros Hn. unfold with_cache. destruct (c =? 0); [by apply delete_id|by apply delete_insert_id]. Qed.

Lemma next_part_run sec m0 s :
  world sec m0 s → table_ok s → g_NumPartitions s < 32 →
  ∃ s', next_part s = Ok (Z.to_nat (g_NumPartitions s), s') ∧ turning sec m0 s zero_part s' ∧ pt_ntfs s' = pt_ntfs s.
Proof.
  intros Hw [Hn Hlen Hrest] Hlt. eexists. split; [reflexivity|]. split; [|done]. split.
  - by destruct Hw.
  - cbn. symmetry. apply list_insert_id. rewrite Hrest. rewrite lookup_app_r by (unfold listed; rewrite length_take; lia).
    apply lookup_replicate. split; [done|]. unfold listed. rewrite length_take. lia.
  - cbn. apply u32_small. lia.
Qed.

Lemma upd_part_run sec m0 s0 p s f :
  table_ok s0 → g_NumPartitions s0 < 32 → turning sec m0 s0 p s →
  ∃ s', upd_part (Z.to_nat (g_NumPartitions s0)) f s = Ok (tt, s') ∧ turning sec m0 s0 (f p) s' ∧ pt_ntfs s' = pt_ntfs s.
Proof.
  intros [Hn Hlen Hrest] Hlt [Hw Hp Hnum].
  eexists. split; [unfold upd_part; rewrite (deref_bind _ _ s p); [reflexivity|rewrite Hp; apply list_lookup_insert_eq; lia]|].
  split; [|done]. split; [by destruct Hw| |done]. cbn. by rewrite Hp, list_insert_insert_eq.
Qed.

Lemma table_full_run sec m0 s0 p s :
  table_ok s0 → g_NumPartitions s0 < 32 → turning sec m0 s0 p s →
  table_full s = Ok (32 <=? g_NumPartitions s0 + 1, s) ∧ table_ok s ∧ listed s = listed s0 ++ [p].
Proof.
  intros [Hn Hlen Hrest] Hlt [Hw Hp Hnum]. split; [unfold table_full; unfold mbind, M_bind; cbn; by rewrite Hnum|].
  assert (length (listed s0) = Z.to_nat (g_NumPartitions s0)) as Hl.
  { unfold listed. rewrite length_take. lia. }
  replace (32 - Z.to_nat (g_NumPartitions s0))%nat with (S (31 - Z.to_nat (g_NumPartitions s0))) in Hrest by lia.
  rewrite Hrest, <- Hl, (insert_app_r_alt _ _ (length (listed s0))), Nat.sub_diag in Hp by lia. cbn in Hp. fold zero_part in Hp.
  assert (listed s = listed s0 ++ [p]) as Hls.
  { unfold listed at 1. rewrite Hp, Hnum, cons_middle, app_assoc. apply take_app_length'. rewrite length_app. cbn [length]. lia. }
  split; [|done]. split; [lia|rewrite Hp, length_app; cbn [length]; rewrite length_replicate; lia|]. rewrite Hls, Hp, <- app_assoc, Hnum. cbn [app]. do 3 f_equal. lia.
Qed.

(** ** The mounts *)

(** The old cache is a block of the pool. *)
Lemma world_old sec m0 s : world sec m0 s → fat_cache (pt_mnt s) = 0 ∨ with_cache (fat_cache (pt_mnt s)) m0 !! fat_cache (pt_mnt s) = Some 0.
Proof. intros _. unfold with_cache. destruct (Z.eqb_spec (fat_cache (pt_mnt s)) 0); [by left|right; apply lookup_insert_eq]. Qed.

Lemma mount_fat_run sec m0 s0 p s lba :
  turning sec m0 s0 p s → fat_safe sec lba →
  ∃ st s', mount_fat lba s = Ok (st, s') ∧ turning sec m0 s0 p s' ∧ pt_ntfs s' = pt_ntfs s ∧
    if NT_SUCCESS st then no_marks (sec lba) = false else no_marks (sec lba) = true ∨ no_room m0 sec lba.
Proof.
  intros [Hw Hparts Hnum] Hsafe. pose proof (world_old _ _ _ Hw) as Hold. destruct Hw as [Hup Hsec Hp Hnew Hpcr]. destruct (no_marks (sec lba)) eqn:Hm.
  - destruct (mount_refused (fat_view s) lba Hup) as (d & Hr & Hup' & Hsec'); [cbn; by rewrite Hsec|].
    eexists _, _. split; [by apply zoom_ok; exact Hr|]. split; [|split; [done|by left]]. split; [|done|done]. split; try done. intros l. cbn. by rewrite Hsec', <- Hsec.
  - destruct Hsafe as [?|[(Hspc & Hlba & He) Hfit]]; [congruence|].
    destruct (mount_run (fat_view s) _ lba Hup Hp Hpcr Hold Hlba) as [(s' & Hr & Hz & Hp' & Hpcr' & Hup' & Hsec' & pf & pf' & Hpf & Hal)|Hrun];
      [cbn; by rewrite Hsec|cbn; by rewrite Hsec|cbn; by rewrite Hsec| |]; cbn [fat_view mnt dev] in *.
    + rewrite with_cache_delete in Hp' by done. rewrite with_cache_delete in Hpf by done.
      eexists _, _. split; [by apply zoom_ok; exact Hr|]. split; [|split; [done|right; exists m0, pf, pf'; split_and!; [done|done|by rewrite Hsec in Hal]]].
      split; [|done|done]. split; cbn; rewrite ?Hz; try done.
      * intros l. by rewrite Hsec', <- Hsec.
      * destruct (m0 !! 0) as [t|] eqn:H0; [|done]. pose proof (pool_rep_pos _ _ _ _ Hp' H0). lia.
    + rewrite Hsec in Hrun. change (fat_total_sectors (read_bpb lba (sec lba) (pt_mnt s))) with (fat_total_sectors (geometry sec lba)) in Hrun.
      change (fat_entries (read_bpb lba (sec lba) (pt_mnt s))) with (fat_entries (geometry sec lba)) in Hrun.
      rewrite (proj2 (Z.leb_le _ _) Hfit), with_cache_delete in Hrun by done.
      destruct Hrun as (cache & s4 & Hr & Hnz & Hfr & [Hmt _ Hup4 Hsec4 Hp4 Hpcr4]).
      eexists _, _. split; [by apply zoom_ok; exact Hr|]. split; [|done]. split; [|done|done]. split; cbn; rewrite ?Hmt; try done.
      * intros l. by rewrite Hsec4.
      * cbn. unfold with_cache. by rewrite (proj2 (Z.eqb_neq _ _) Hnz).
Qed.

(** A bad volume: the machine is lost, unless the pool has no room for the cache. *)
Lemma mount_fat_bad sec m0 s lba :
  world sec m0 s → fat_bad sec lba → mount_fat lba s = Undef ∨ no_room m0 sec lba.
Proof.
  intros Hw [Hm Hbad]. pose proof (world_old _ _ _ Hw) as Hold. destruct Hw as [Hup Hsec Hp Hnew Hpcr]. unfold mount_fat.
  destruct Hbad as [H0|[(Hspc & Hlba & He) Hover]].
  - left. unfold zoom. enough (Fat32MountPartition lba (fat_view s) = Undef) as -> by done.
    destruct (read_boot_run (fat_view s) lba Hup) as (d & Hr & _). cbn [fat_view dev] in Hr. rewrite Hsec in Hr.
    unfold Fat32MountPartition. rewrite (bind_ok _ _ _ _ _ Hr). cbn [fst snd]. change (NT_SUCCESS STATUS_SUCCESS) with true. cbn [negb]. cbv zeta.
    unfold no_marks in Hm. by rewrite Hm, H0.
  - destruct (mount_run (fat_view s) _ lba Hup Hp Hpcr Hold Hlba) as [(s' & _ & _ & _ & _ & _ & _ & pf & pf' & Hpf & Hal)|Hrun];
      [cbn; by rewrite Hsec|cbn; by rewrite Hsec|cbn; by rewrite Hsec| |]; cbn [fat_view mnt dev] in *.
    + right. rewrite with_cache_delete in Hpf by done. exists m0, pf, pf'. split_and!; [done|done|by rewrite Hsec in Hal].
    + left. rewrite Hsec in Hrun. change (fat_total_sectors (read_bpb lba (sec lba) (pt_mnt s))) with (fat_total_sectors (geometry sec lba)) in Hrun.
      change (fat_entries (read_bpb lba (sec lba) (pt_mnt s))) with (fat_entries (geometry sec lba)) in Hrun.
      rewrite (proj2 (Z.leb_gt _ _) Hover) in Hrun. unfold zoom. by rewrite Hrun.
Qed.

Lemma mount_ntfs_run sec m0 s0 p s lba :
  turning sec m0 s0 p s → ntfs_safe sec lba →
  ∃ st s', mount_ntfs lba s = Ok (st, s') ∧ turning sec m0 s0 p s' ∧ NT_SUCCESS st = bool_decide (oem_id (sec lba) = NTFS_OEM) ∧
    if NT_SUCCESS st then n_valid (pt_ntfs s') = true ∧ n_partition_start (pt_ntfs s') = lba else pt_ntfs s' = pt_ntfs s.
Proof.
  intros [[Hup Hsec Hp Hnew Hpcr] Hparts Hnum] Hsafe.
  destruct (ahci_read_law (pt_dev s) lba 1 Hup ltac:(lia)) as (d & Hr & Hup' & Hsec'). change (Z.to_nat 1) with 1%nat in Hr. cbn [sectors] in Hr. rewrite app_nil_r, Hsec in Hr.
  assert (turning sec m0 s0 p (set_pt_dev d s)) as Ht.
  { split; [|done|done]. split; try done. intros l. cbn. by rewrite Hsec', Hsec. }
  assert (NtfsReadSectors lba 1 (ntfs_view s) = Ok ((STATUS_SUCCESS, sec lba), set_nt_dev d (ntfs_view s))) as Hrd
    by (unfold NtfsReadSectors; cbn [Z.eqb]; apply zoom_ok; exact Hr).
  pose proof (eq_refl (NtfsMountPartition lba (ntfs_view s))) as Hw. unfold NtfsMountPartition in Hw at 2. rewrite (bind_ok _ _ _ _ _ Hrd) in Hw.
  cbv beta iota in Hw. change (NT_SUCCESS STATUS_SUCCESS) with true in Hw. cbn [negb] in Hw.
  case_bool_decide as Hoem; cbn [negb] in Hw.
  - destruct Hsafe as [?|[[b1 H1] [b2 H2]]]; [done|]. cbv zeta in Hw.
    rewrite (deref_bind (λ _, record_bytes (b_clusters_per_mft_record (sec lba)) _) _ _ _ H1) in Hw.
    rewrite (deref_bind (λ _, record_bytes (b_clusters_per_index_block (sec lba)) _) _ _ _ H2) in Hw.
    eexists _, _. split; [apply zoom_ok; exact Hw|]. split; [by destruct Ht as [[] ? ?]|]. done.
  - eexists _, _. split; [apply zoom_ok; exact Hw|]. split; [by destruct Ht as [[] ? ?]|]. done.
Qed.

Lemma mount_ntfs_bad sec m0 s lba : world sec m0 s → ntfs_bad sec lba → mount_ntfs lba s = Undef.
Proof.
  intros [Hup Hsec _ _ _] [Hoem Hbad]. destruct (ahci_read_law (pt_dev s) lba 1 Hup ltac:(lia)) as (d & Hr & _).
  change (Z.to_nat 1) with 1%nat in Hr. cbn [sectors] in Hr. rewrite app_nil_r, Hsec in Hr.
  assert (NtfsReadSectors lba 1 (ntfs_view s) = Ok ((STATUS_SUCCESS, sec lba), set_nt_dev d (ntfs_view s))) as Hrd
    by (unfold NtfsReadSectors; cbn [Z.eqb]; apply zoom_ok; exact Hr).
  unfold mount_ntfs, zoom. enough (NtfsMountPartition lba (ntfs_view s) = Undef) as -> by done. unfold NtfsMountPartition. rewrite (bind_ok _ _ _ _ _ Hrd).
  cbv beta iota. change (NT_SUCCESS STATUS_SUCCESS) with true. rewrite bool_decide_true by done. cbn [negb]. cbv zeta.
  unfold mbind at 1, M_bind at 1, mderef at 1. destruct (record_bytes (b_clusters_per_mft_record _) _); [|done].
  destruct Hbad as [?|Hbad]; [done|]. unfold mbind at 1, M_bind at 1, mderef at 1. by rewrite Hbad.
Qed.

(** ** The entries the scan writes *)

Definition padded (nm : list Z) : list Z := splice 0 nm (replicate 16 0).

Definition mbr_name (ty : Z) : list Z :=
  if (ty =? PART_TYPE_FAT32) || (ty =? PART_TYPE_FAT32_LBA) then FS_FAT32
  else if ty =? PART_TYPE_NTFS then FS_NTFS
  else if (ty =? PART_TYPE_EXTENDED) || (ty =? PART_TYPE_EXT_LBA) then FS_EXTENDED
  else FS_UNKNOWN.
Definition gpt_name (sec : Z → list Z) (e : list Z) : list Z :=
  if bool_decide (type_guid e = GPT_TYPE_MICROSOFT_BASIC) then
    let bs := sec (starting_lba e) in
    if fat32_mark bs then FS_FAT32 else if ntfs_mark bs then FS_NTFS else FS_QUESTION
  else FS_OTHER.

(** What the mounted flag of an entry of this name says. *)
Definition mounts_to (m0 : gmap Z Z) (sec : Z → list Z) (nm : list Z) (lba : Z) (b : bool) : Prop :=
  if bool_decide (nm = FS_FAT32) then
    if b then no_marks (sec lba) = false else no_marks (sec lba) = true ∨ no_room m0 sec lba
  else if bool_decide (nm = FS_NTFS) then b = bool_decide (oem_id (sec lba) = NTFS_OEM)
  else b = false.
Definition name_safe sec (nm : list Z) (lba : Z) : Prop :=
  (nm = FS_FAT32 → fat_safe sec lba) ∧ (nm = FS_NTFS → ntfs_safe sec lba).

Definition name_bad sec (nm : list Z) (lba : Z) : Prop :=
  nm = FS_FAT32 ∧ fat_bad sec lba ∨ nm = FS_NTFS ∧ ntfs_bad sec lba.

Lemma mounts_to_mono m0 m1 sec nm lba b : m0 ⊆ m1 → mounts_to m1 sec nm lba b → mounts_to m0 sec nm lba b.
Proof.
  intros Hm. unfold mounts_to. destruct (bool_decide (nm = FS_FAT32)); [|done]. destruct b; [done|].
  intros [?|(m & p & p' & ? & ?)]; [by left|right]. exists m, p, p'. split; [by etrans|done].
Qed.

(** The NTFS volume in use after the entries [l] were written. *)
Definition is_ntfs (p : PARTITION_INFO) : bool := pi_mounted p && bool_decide (pi_fstype p = padded FS_NTFS).
Fixpoint last_ntfs (l : list PARTITION_INFO) : option PARTITION_INFO :=
  match l with
  | [] => None
  | p :: l' => match last_ntfs l' with Some q => Some q | None => if is_ntfs p then Some p else None end
  end.
Definition ntfs_after (l : list PARTITION_INFO) s s' : Prop :=
  match last_ntfs l with
  | Some p => n_valid (pt_ntfs s') = true ∧ n_partition_start (pt_ntfs s') = pi_start_lba p
  | None => pt_ntfs s' = pt_ntfs s
  end.

Lemma ntfs_after_trans l1 l2 s1 s2 s3 : ntfs_after l1 s1 s2 → ntfs_after l2 s2 s3 → ntfs_after (l1 ++ l2) s1 s3.
Proof.
  unfold ntfs_after. intros H1 H2. assert (last_ntfs (l1 ++ l2) = match last_ntfs l2 with Some q => Some q | None => last_ntfs l1 end) as ->.
  { clear. induction l1 as [|p l1 IH]; cbn; [by destruct (last_ntfs l2)|]. rewrite IH. by destruct (last_ntfs l2). }
  destruct (last_ntfs l2); [done|]. rewrite H2. by destruct (last_ntfs l1).
Qed.

(** An entry of a given name, named and mounted. *)
Definition named nm p b : PARTITION_INFO := with_mounted b (with_fstype nm p).

Lemma named_run sec m0 s0 p s nm lba (act : M PT unit) :
  let j := Z.to_nat (g_NumPartitions s0) in
  table_ok s0 → g_NumPartitions s0 < 32 → turning sec m0 s0 p s → pt_ntfs s = pt_ntfs s0 →
  pi_mounted p = false → pi_fstype p = replicate 16 0 → pi_start_lba p = lba → name_safe sec nm lba →
  act = (if bool_decide (nm = FS_FAT32) then mount_as FS_FAT32 mount_fat j lba
         else if bool_decide (nm = FS_NTFS) then mount_as FS_NTFS mount_ntfs j lba else upd_part j (with_fstype nm)) →
  ∃ b s', act s = Ok (tt, s') ∧ mounts_to m0 sec nm lba b ∧ turning sec m0 s0 (named nm p b) s' ∧ ntfs_after [named nm p b] s0 s'.
Proof.
  intros j Htb Hlt Ht Hn Hpm Hpf Hpl [Hsf Hsn] ->. unfold mounts_to.
  assert (∀ b, last_ntfs [named nm p b] = if b && bool_decide (padded nm = padded FS_NTFS) then Some (named nm p b) else None) as Hlast
    by (intros b; cbn; unfold is_ntfs; cbn; by rewrite Hpf).
  destruct (upd_part_run sec m0 s0 p s (with_fstype nm) Htb Hlt Ht) as (s1 & Hr1 & Ht1 & Hn1). fold j in Hr1.
  destruct (bool_decide_reflect (nm = FS_FAT32)) as [Hfat|_]; [|destruct (bool_decide_reflect (nm = FS_NTFS)) as [Hntfs|_]].
  - destruct (mount_fat_run _ _ _ _ _ lba Ht1 (Hsf Hfat)) as (st & s2 & Hr2 & Ht2 & Hn2 & Hst).
    destruct (upd_part_run _ _ _ _ _ (with_mounted (NT_SUCCESS st)) Htb Hlt Ht2) as (s3 & Hr3 & Ht3 & Hn3). fold j in Hr3.
    exists (NT_SUCCESS st), s3. rewrite Hfat in *. split; [|split; [done|split; [exact Ht3|]]].
    + unfold mount_as. by rewrite (bind_ok _ _ _ _ _ Hr1), (bind_ok _ _ _ _ _ Hr2).
    + unfold ntfs_after. rewrite Hlast. rewrite bool_decide_false by discriminate. rewrite andb_false_r. congruence.
  - destruct (mount_ntfs_run _ _ _ _ _ lba Ht1 (Hsn Hntfs)) as (st & s2 & Hr2 & Ht2 & Hst & Hn2).
    destruct (upd_part_run _ _ _ _ _ (with_mounted (NT_SUCCESS st)) Htb Hlt Ht2) as (s3 & Hr3 & Ht3 & Hn3). fold j in Hr3.
    exists (NT_SUCCESS st), s3. rewrite Hntfs in *. split; [|split; [done|split; [exact Ht3|]]].
    + unfold mount_as. by rewrite (bind_ok _ _ _ _ _ Hr1), (bind_ok _ _ _ _ _ Hr2).
    + unfold ntfs_after. rewrite Hlast, bool_decide_true, andb_true_r by done. destruct (NT_SUCCESS st); [|congruence].
      rewrite Hn3. cbn. by rewrite Hpl.
  - exists false, s1. split; [done|]. split; [done|]. unfold named, with_mounted. cbn. destruct p; cbn in *; subst. split; [exact Ht1|].
    unfold ntfs_after. cbn. congruence.
Qed.

(** A bad volume, of either name. *)
Lemma named_bad sec m0 s0 p s nm lba (act : M PT unit) :
  let j := Z.to_nat (g_NumPartitions s0) in
  table_ok s0 → g_NumPartitions s0 < 32 → turning sec m0 s0 p s → name_bad sec nm lba →
  act = (if bool_decide (nm = FS_FAT32) then mount_as FS_FAT32 mount_fat j lba
         else if bool_decide (nm = FS_NTFS) then mount_as FS_NTFS mount_ntfs j lba else upd_part j (with_fstype nm)) →
  act s = Undef ∨ no_room m0 sec lba.
Proof.
  intros j Htb Hlt Ht Hbad ->. destruct (upd_part_run sec m0 s0 p s (with_fstype nm) Htb Hlt Ht) as (s1 & Hr1 & [Hw1 _ _] & _). fold j in Hr1.
  destruct Hbad as [[-> Hbad]|[-> Hbad]].
  - rewrite bool_decide_true by done. unfold mount_as. rewrite (bind_ok _ _ _ _ _ Hr1).
    destruct (mount_fat_bad _ _ _ _ Hw1 Hbad) as [Hu|?]; [left; by apply bind_undef|by right].
  - rewrite bool_decide_false by discriminate. rewrite bool_decide_true by done. unfold mount_as. rewrite (bind_ok _ _ _ _ _ Hr1).
    left. apply bind_undef, (mount_ntfs_bad _ _ _ _ Hw1 Hbad).
Qed.

(** ** Turns and loops *)

(** A turn skips its entry without effect or lists one more partition. *)
Definition turns sec m0 (f : nat → M PT bool) (keep : nat → bool) (R : nat → PARTITION_INFO → Prop) (i : nat) : Prop :=
  ∀ s, world sec m0 s → table_ok s → g_NumPartitions s < 32 →
  if keep i then ∃ p s', f i s = Ok (32 <=? g_NumPartitions s + 1, s') ∧ world sec m0 s' ∧ table_ok s' ∧
    g_NumPartitions s' = g_NumPartitions s + 1 ∧ listed s' = listed s ++ [p] ∧ R i p ∧ ntfs_after [p] s s'
  else f i s = Ok (false, s).

Lemma for_each_run sec m0 f keep R l : Forall (turns sec m0 f keep R) l → ∀ s,
  world sec m0 s → table_ok s → g_NumPartitions s < 32 →
  ∃ ps s', for_each f l s = Ok (tt, s') ∧ world sec m0 s' ∧ table_ok s' ∧ listed s' = listed s ++ ps ∧
    Forall2 R (take (32 - Z.to_nat (g_NumPartitions s)) (filter (λ i, keep i = true) l)) ps ∧ ntfs_after ps s s'.
Proof.
  induction 1 as [|i l Hi _ IH]; intros s Hw Htb Hlt.
  { exists [], s. rewrite app_nil_r. cbn. by rewrite take_nil. }
  specialize (Hi s Hw Htb Hlt). cbn [for_each]. destruct (keep i) eqn:Hk.
  - destruct Hi as (p & s1 & Hr & Hw1 & Htb1 & Hn1 & Hl1 & HR & Hnt). rewrite filter_cons_True by done.
    replace (32 - Z.to_nat (g_NumPartitions s))%nat with (S (32 - Z.to_nat (g_NumPartitions s1))) by (pose proof (tb_num _ Htb); lia).
    cbn [take]. rewrite (bind_ok _ _ _ _ _ Hr). destruct (Z.leb_spec 32 (g_NumPartitions s + 1)).
    + exists [p], s1. replace (32 - Z.to_nat (g_NumPartitions s1))%nat with 0%nat by lia. rewrite take_0. split_and!; try done. by constructor.
    + destruct (IH s1 Hw1 Htb1 ltac:(lia)) as (ps & s2 & Hr2 & Hw2 & Htb2 & Hl2 & HF & Hnt2). exists (p :: ps), s2.
      rewrite Hl2, Hl1, <- app_assoc. split_and!; try done; [by constructor|]. by eapply (ntfs_after_trans [p]).
  - rewrite filter_cons_False by congruence. rewrite (bind_ok _ _ _ _ _ Hi). by apply IH.
Qed.

(** A turn that ends badly, after turns that did not fill the table. *)
Definition turns_bad sec m0 (f : nat → M PT bool) (i : nat) (Q : Prop) : Prop :=
  ∀ s, world sec m0 s → table_ok s → g_NumPartitions s < 32 → f i s = Undef ∨ Q.

Lemma for_each_bad sec m0 f keep R Q i l2 l1 : Forall (turns sec m0 f keep R) l1 → turns_bad sec m0 f i Q → ∀ s,
  world sec m0 s → table_ok s → g_NumPartitions s + Z.of_nat (length (filter (λ i, keep i = true) l1)) < 32 →
  for_each f (l1 ++ i :: l2) s = Undef ∨ Q.
Proof.
  intros Hl Hbad. induction Hl as [|k l Hk _ IH]; intros s Hw Htb Hlt.
  { cbn in Hlt. destruct (Hbad s Hw Htb ltac:(lia)) as [Hu|?]; [left; by apply bind_undef|by right]. }
  cbn [app for_each]. specialize (Hk s Hw Htb ltac:(lia)). destruct (keep k) eqn:Hkeep.
  - rewrite filter_cons_True in Hlt by done. cbn [length] in Hlt. destruct Hk as (p & s1 & Hr & Hw1 & Htb1 & Hn1 & _).
    rewrite (bind_ok _ _ _ _ _ Hr). replace (32 <=? g_NumPartitions s + 1) with false by lia. apply IH; [done|done|lia].
  - rewrite filter_cons_False in Hlt by congruence. rewrite (bind_ok _ _ _ _ _ Hk). by apply IH.
Qed.

Definition mbr_part m0 sec (i : nat) (p : PARTITION_INFO) : Prop :=
  let e := mbr_partition (sec 0) i in let nm := mbr_name (system_id e) in
  ∃ b, p = mkPart (Z.of_nat i) (system_id e) (start_lba e) (num_sectors e) b (padded nm) ∧ mounts_to m0 sec nm (start_lba e) b.
Definition mbr_used (mbr : list Z) (i : nat) : bool := negb (system_id (mbr_partition mbr i) =? PART_TYPE_EMPTY).

Lemma mbr_turns sec m0 i :
  (let e := mbr_partition (sec 0) i in mbr_used (sec 0) i = true → name_safe sec (mbr_name (system_id e)) (start_lba e)) →
  turns sec m0 (mbr_turn (sec 0)) (mbr_used (sec 0)) (mbr_part m0 sec) i.
Proof.
  intros Hsafe s Hw Htb Hlt. unfold mbr_used, mbr_turn, mbr_part in *. set (e := mbr_partition (sec 0) i) in *. set (ty := system_id e) in *.
  destruct (ty =? PART_TYPE_EMPTY); [done|]. specialize (Hsafe eq_refl).
  destruct (next_part_run _ _ _ Hw Htb Hlt) as (s1 & Hr1 & Ht1 & Hn1). rewrite (bind_ok _ _ _ _ _ Hr1). set (j := Z.to_nat _).
  set (p0 := mkPart (Z.of_nat i) ty (start_lba e) (num_sectors e) false (replicate 16 0)).
  destruct (upd_part_run _ _ _ _ _ (λ _, p0) Htb Hlt Ht1) as (s2 & Hr2 & Ht2 & Hn2). fold j in Hr2. rewrite (bind_ok _ _ _ _ _ Hr2).
  match goal with |- context [(?act ≫= _) s2] => destruct (named_run sec m0 s p0 s2 (mbr_name ty) (start_lba e) act Htb Hlt Ht2
    ltac:(congruence) eq_refl eq_refl eq_refl Hsafe) as (b & s3 & Hr3 & Hb & Ht3 & Hnt) end.
  { fold j. unfold mbr_name. destruct (_ || _); [done|]. destruct (ty =? PART_TYPE_NTFS); [done|]. by destruct (_ || _). }
  rewrite (bind_ok _ _ _ _ _ Hr3). destruct (table_full_run _ _ _ _ _ Htb Hlt Ht3) as (Hf & Htb3 & Hls).
  exists (named (mbr_name ty) p0 b), s3. destruct Ht3. split_and!; try done. by exists b.
Qed.

Lemma mbr_turn_bad sec m0 i :
  let e := mbr_partition (sec 0) i in
  mbr_used (sec 0) i = true → name_bad sec (mbr_name (system_id e)) (start_lba e) →
  turns_bad sec m0 (mbr_turn (sec 0)) i (no_room m0 sec (start_lba e)).
Proof.
  intros e Hu Hbad s Hw Htb Hlt. unfold mbr_used, mbr_turn in *. fold e in Hu |- *. set (ty := system_id e) in *.
  destruct (ty =? PART_TYPE_EMPTY); [done|].
  destruct (next_part_run _ _ _ Hw Htb Hlt) as (s1 & Hr1 & Ht1 & _). rewrite (bind_ok _ _ _ _ _ Hr1). set (j := Z.to_nat _).
  match goal with |- context [(upd_part j ?f ≫= _) s1] => destruct (upd_part_run _ _ _ _ _ f Htb Hlt Ht1) as (s2 & Hr2 & Ht2 & _) end.
  fold j in Hr2. rewrite (bind_ok _ _ _ _ _ Hr2).
  match goal with |- context [(?act ≫= _) s2] => destruct (named_bad sec m0 s _ s2 (mbr_name ty) (start_lba e) act Htb Hlt Ht2 Hbad) as [Hx|?] end.
  - fold j. unfold mbr_name. destruct (_ || _); [done|]. destruct (ty =? PART_TYPE_NTFS); [done|]. by destruct (_ || _).
  - left. by apply bind_undef.
  - by right.
Qed.

Definition gpt_entry (entries : list Z) (size : Z) (i : nat) : list Z := sub (Z.to_nat (Z.of_nat i * size)) 128 entries.
Definition gpt_used (entries : list Z) (size : Z) (i : nat) : bool := negb (is_empty (gpt_entry entries size i)).
Definition gpt_part m0 sec (entries : list Z) (size : Z) (i : nat) (p : PARTITION_INFO) : Prop :=
  let e := gpt_entry entries size i in let nm := gpt_name sec e in
  ∃ b, p = mkPart (Z.of_nat i) 0 (starting_lba e) (u64 (ending_lba e - starting_lba e + 1)) b (padded nm) ∧
    mounts_to m0 sec nm (starting_lba e) b.

Lemma read_disk_run s lba n :
  dev_up (pt_dev s) → 0 < n ≤ 256 →
  ∃ d, read_disk lba n s = Ok ((STATUS_SUCCESS, sectors (sector (pt_dev s)) lba (Z.to_nat n)), set_pt_dev d s) ∧ dev_up d ∧
    ∀ l, sector d l = sector (pt_dev s) l.
Proof.
  intros Hup Hn. destruct (ahci_read_law (pt_dev s) lba n Hup Hn) as (d & Hr & ? & ?). exists d. split; [by apply zoom_ok|done].
Qed.

Lemma world_read sec m0 s lba n :
  world sec m0 s → 0 < n ≤ 256 →
  ∃ s', read_disk lba n s = Ok ((STATUS_SUCCESS, sectors sec lba (Z.to_nat n)), s') ∧ world sec m0 s' ∧
    g_Partitions s' = g_Partitions s ∧ g_NumPartitions s' = g_NumPartitions s ∧ pt_ntfs s' = pt_ntfs s.
Proof.
  intros [Hup Hsec Hp Hnew Hpcr] Hn. destruct (read_disk_run s lba n Hup Hn) as (d & Hr & Hup' & Hsec').
  rewrite (sectors_ext _ sec) in Hr by (intros; apply Hsec). eexists. split; [exact Hr|]. split; [|done].
  split; try done. intros l. cbn. by rewrite Hsec', Hsec.
Qed.

Lemma gpt_turns sec m0 entries size i :
  (let e := gpt_entry entries size i in gpt_used entries size i = true → name_safe sec (gpt_name sec e) (starting_lba e)) →
  0 ≤ Z.of_nat i * size → Z.of_nat i * size + 128 ≤ Z.of_nat (length entries) →
  turns sec m0 (gpt_turn entries size) (gpt_used entries size) (gpt_part m0 sec entries size) i.
Proof.
  intros Hsafe H0 Hin s Hw Htb Hlt. unfold gpt_used, gpt_turn, gpt_part in *.
  assert (bytes_at (Z.of_nat i * size) sizeof_GPT_ENTRY entries = Some (gpt_entry entries size i)) as Hb
    by (unfold bytes_at, sizeof_GPT_ENTRY; by replace (_ && _ && _) with true by lia).
  rewrite (deref_bind (λ _, bytes_at (Z.of_nat i * size) sizeof_GPT_ENTRY entries) _ s _ Hb). set (e := gpt_entry entries size i) in *.
  destruct (is_empty e); [done|]. specialize (Hsafe eq_refl). cbn [negb].
  destruct (next_part_run _ _ _ Hw Htb Hlt) as (s1 & Hr1 & Ht1 & Hn1). rewrite (bind_ok _ _ _ _ _ Hr1). set (j := Z.to_nat _).
  match goal with |- context [(upd_part j ?f ≫= _) s1] => destruct (upd_part_run _ _ _ _ _ f Htb Hlt Ht1) as (s2 & Hr2 & Ht2 & Hn2) end.
  fold j in Hr2. rewrite (bind_ok _ _ _ _ _ Hr2). cbn [pi_mounted pi_fstype zero_part] in Ht2.
  set (p0 := mkPart _ _ _ _ _ _) in Ht2.
  assert (∃ b s3, (if bool_decide (type_guid e = GPT_TYPE_MICROSOFT_BASIC) then probe j (starting_lba e) else upd_part j (with_fstype FS_OTHER)) s2 = Ok (tt, s3) ∧
    mounts_to m0 sec (gpt_name sec e) (starting_lba e) b ∧ turning sec m0 s (named (gpt_name sec e) p0 b) s3 ∧ ntfs_after [named (gpt_name sec e) p0 b] s s3)
    as (b & s3 & Hr3 & Hb3 & Ht3 & Hnt).
  { unfold gpt_name in *. destruct (bool_decide (type_guid e = _)).
    - destruct Ht2 as [Hw2 Hp2 Hnum2]. destruct (world_read _ _ _ (starting_lba e) 1 Hw2 ltac:(lia)) as (s3 & Hr3 & Hw3 & Hp3 & Hnum3 & Hn3).
      change (Z.to_nat 1) with 1%nat in Hr3. cbn [sectors] in Hr3. rewrite app_nil_r in Hr3.
      unfold probe. rewrite (bind_ok _ _ _ _ _ Hr3). cbv beta iota. change (NT_SUCCESS STATUS_SUCCESS) with true. cbv beta iota.
      assert (turning sec m0 s p0 s3) as Ht3 by (split; [done|by rewrite Hp3|by rewrite Hnum3]).
      apply (named_run _ _ _ _ _ _ _ _ Htb Hlt Ht3 ltac:(congruence) eq_refl eq_refl eq_refl Hsafe).
      fold j. destruct (fat32_mark _); [done|]. by destruct (ntfs_mark _).
    - by apply (named_run _ _ _ _ _ _ _ _ Htb Hlt Ht2 ltac:(congruence) eq_refl eq_refl eq_refl Hsafe). }
  rewrite (bind_ok _ _ _ _ _ Hr3). destruct (table_full_run _ _ _ _ _ Htb Hlt Ht3) as (Hf & Htb3 & Hls).
  eexists _, s3. destruct Ht3. split_and!; try done. by exists b.
Qed.

Lemma gpt_part_mono m0 m1 sec entries size i p : m0 ⊆ m1 → gpt_part m1 sec entries size i p → gpt_part m0 sec entries size i p.
Proof. intros Hm (b & -> & Hb). exists b. split; [done|]. by eapply mounts_to_mono. Qed.

Lemma gpt_turn_bad sec m0 entries size i :
  let e := gpt_entry entries size i in
  gpt_used entries size i = true → name_bad sec (gpt_name sec e) (starting_lba e) →
  0 ≤ Z.of_nat i * size → Z.of_nat i * size + 128 ≤ Z.of_nat (length entries) →
  turns_bad sec m0 (gpt_turn entries size) i (no_room m0 sec (starting_lba e)).
Proof.
  intros e Hu Hbad H0 Hin s Hw Htb Hlt. unfold gpt_used, gpt_turn in *.
  assert (bytes_at (Z.of_nat i * size) sizeof_GPT_ENTRY entries = Some e) as Hb
    by (unfold bytes_at, sizeof_GPT_ENTRY; by replace (_ && _ && _) with true by lia).
  rewrite (deref_bind (λ _, bytes_at (Z.of_nat i * size) sizeof_GPT_ENTRY entries) _ s _ Hb). fold e in Hu. destruct (is_empty e); [done|].
  destruct (next_part_run _ _ _ Hw Htb Hlt) as (s1 & Hr1 & Ht1 & _). rewrite (bind_ok _ _ _ _ _ Hr1). set (j := Z.to_nat _).
  match goal with |- context [(upd_part j ?f ≫= _) s1] => destruct (upd_part_run _ _ _ _ _ f Htb Hlt Ht1) as (s2 & Hr2 & Ht2 & _) end.
  fold j in Hr2. rewrite (bind_ok _ _ _ _ _ Hr2). unfold gpt_name in Hbad.
  destruct (bool_decide (type_guid e = _)); [|destruct Hbad as [[? _]|[? _]]; discriminate].
  destruct Ht2 as [Hw2 Hp2 Hnum2]. destruct (world_read _ _ _ (starting_lba e) 1 Hw2 ltac:(lia)) as (s3 & Hr3 & Hw3 & Hp3 & Hnum3 & _).
  change (Z.to_nat 1) with 1%nat in Hr3. cbn [sectors] in Hr3. rewrite app_nil_r in Hr3.
  assert (∃ p, turning sec m0 s p s3) as [p Ht3] by (eexists; split; [done|by rewrite Hp3|by rewrite Hnum3]).
  enough (probe j (starting_lba e) s2 = Undef ∨ no_room m0 sec (starting_lba e)) as Hx by (destruct Hx as [?|?]; [left; by apply bind_undef|by right]).
  unfold probe. rewrite (bind_ok _ _ _ _ _ Hr3). cbv beta iota. change (NT_SUCCESS STATUS_SUCCESS) with true. cbv beta iota.
  eapply (named_bad sec m0 s p s3 _ (starting_lba e) _ Htb Hlt Ht3 Hbad). fold j. destruct (fat32_mark _); [done|]. by destruct (ntfs_mark _).
Qed.

(** ** The scan *)

Definition gpt_size (h : list Z) : Z := Z.max 128 (partition_entry_size h).
Definition gpt_refused (h : list Z) : bool :=
  negb (bool_decide (gpt_signature h = GPT_SIGNATURE)) || bad_header (num_partition_entries h) (partition_entry_size h).
Definition gpt_entries sec : list Z :=
  let h := sec 1 in sectors sec (partition_entry_lba h) (Z.to_nat (num_partition_entries h * gpt_size h / 512)).

(** The tables the scan can read: the entries fill whole sectors, and the volumes
    can be mounted within their buffers. *)
Definition mbr_plain sec : Prop := ∀ i : nat, (i < 4)%nat →
  let e := mbr_partition (sec 0) i in mbr_used (sec 0) i = true → name_safe sec (mbr_name (system_id e)) (start_lba e).
Definition gpt_plain sec : Prop :=
  let h := sec 1 in gpt_refused h = false →
  0 < num_partition_entries h ∧ (num_partition_entries h * gpt_size h) mod 512 = 0 ∧
  ∀ i : nat, Z.of_nat i < num_partition_entries h →
    let e := gpt_entry (gpt_entries sec) (gpt_size h) i in
    gpt_used (gpt_entries sec) (gpt_size h) i = true → name_safe sec (gpt_name sec e) (starting_lba e).

Lemma with_cache_insert c a (m0 : gmap Z Z) : c ≠ a → with_cache c (<[a := 0]> m0) = <[a := 0]> (with_cache c m0).
Proof. intros Hne. unfold with_cache. destruct (c =? 0); [done|by apply insert_insert_ne]. Qed.

Lemma with_cache_fresh c a (m0 : gmap Z Z) : 0 < a → with_cache c m0 !! a = None → c ≠ a ∧ m0 !! a = None.
Proof.
  unfold with_cache. intros Ha. destruct (Z.eqb_spec c 0); [split; [lia|done]|]. intros [? ?]%lookup_insert_None. done.
Qed.

Lemma alloc_world sec m0 s n :
  world sec m0 s → 0 < n < 18446744073709551616 →
  ∃ a s', zoom pt_pool set_pt_pool (pool_alloc 0 n 0) s = Ok (a, s') ∧
    g_Partitions s' = g_Partitions s ∧ g_NumPartitions s' = g_NumPartitions s ∧ pt_ntfs s' = pt_ntfs s ∧
    (a = 0 ∧ world sec m0 s' ∨ 0 < a ∧ m0 !! a = None ∧ world sec (<[a := 0]> m0) s').
Proof.
  intros [Hup Hsec Hp Hnew Hpcr] Hn. destruct (pool_alloc_law (pt_pool s) _ 0 n 0 Hp Hpcr Hn) as (a & p & Hr & Hpc & Hc).
  exists a, (set_pt_pool p s). split; [by apply zoom_ok|]. split_and!; [done..|].
  destruct Hc as [[-> Hp']|(Ha & Hf & Hp')]; [left|right].
  - split; [done|]. split; try done. cbn. by rewrite Hpc.
  - destruct (with_cache_fresh _ _ _ Ha Hf) as [Hne Hf0]. split_and!; [done|done|]. split; cbn; try done.
    + by rewrite with_cache_insert.
    + by rewrite lookup_insert_ne.
    + by rewrite Hpc.
Qed.

Lemma free_world sec m0 s a :
  0 < a → m0 !! a = None → world sec (<[a := 0]> m0) s →
  ∃ s', zoom pt_pool set_pt_pool (pool_free a 0) s = Ok (tt, s') ∧ world sec m0 s' ∧
    g_Partitions s' = g_Partitions s ∧ g_NumPartitions s' = g_NumPartitions s ∧ pt_ntfs s' = pt_ntfs s.
Proof.
  intros Ha Hf [Hup Hsec Hp Hnew Hpcr]. assert (fat_cache (pt_mnt s) ≠ a) as Hne by (intros <-; by rewrite lookup_insert_eq in Hnew).
  rewrite lookup_insert_ne in Hnew by done. rewrite with_cache_insert in Hp by done.
  destruct (pool_free_law (pt_pool s) _ a 0 0 Hp Hpcr) as (p & Hr & Hpc & Hp'); [by rewrite lookup_insert_eq|by left|].
  rewrite delete_insert_id in Hp' by (unfold with_cache; destruct (_ =? 0); [done|by rewrite lookup_insert_ne]).
  eexists. split; [apply zoom_ok; exact Hr|]. split; [|done]. split; cbn; try done. by rewrite Hpc.
Qed.

Lemma table_same s s' : g_Partitions s' = g_Partitions s → g_NumPartitions s' = g_NumPartitions s →
  listed s' = listed s ∧ (table_ok s → table_ok s').
Proof.
  intros Hp Hn. assert (listed s' = listed s) as Hl by (unfold listed; by rewrite Hp, Hn). split; [done|].
  intros []. split; rewrite ?Hl, ?Hp, ?Hn; done.
Qed.

(** The tables of two states are the same. *)
Record table_eq s s' : Prop := {
  te_parts : g_Partitions s' = g_Partitions s;
  te_num : g_NumPartitions s' = g_NumPartitions s;
  te_ntfs : pt_ntfs s' = pt_ntfs s
}.
#[local] Instance table_eq_trans : Transitive table_eq.
Proof. intros ? ? ? [] []. split; congruence. Qed.

(** The scan up to the array of entries in its block. *)
Lemma gpt_scan_open sec m0 s :
  let h := sec 1 in let n := num_partition_entries h in let size := gpt_size h in
  world sec m0 s → gpt_refused h = false → 0 < n →
  128 ≤ size ≤ 256 ∧ 0 < n * size ≤ 32768 ∧
  ((∃ s', gpt_scan s = Ok (Some STATUS_NO_MEMORY, s') ∧ world sec m0 s' ∧ table_eq s s') ∨
   ∃ a s', 0 < a ∧ m0 !! a = None ∧ world sec (<[a := 0]> m0) s' ∧ table_eq s s' ∧
     gpt_scan s = (bytes ← mderef (λ _, store_at 0 (sectors sec (partition_entry_lba h) (Z.to_nat ((n * size + 511) / 512))) (zeros (n * size)));
       for_each (gpt_turn bytes size) (seq 0 (Z.to_nat n));; zoom pt_pool set_pt_pool (pool_free a 0);; mret None) s').
Proof.
  intros h n size Hw Href Hnum. unfold gpt_refused in Href. apply orb_false_iff in Href as [Hsig Hbad].
  destruct (world_read _ _ _ 1 1 Hw ltac:(lia)) as (s1 & Hr1 & Hw1 & Hp1 & Hn1 & Hnt1).
  change (Z.to_nat 1) with 1%nat in Hr1. cbn [sectors] in Hr1. rewrite app_nil_r in Hr1. fold h in Hr1.
  remember (gpt_scan s) as w eqn:Hrun. unfold gpt_scan in Hrun. rewrite (bind_ok _ _ _ _ _ Hr1) in Hrun. cbv beta iota in Hrun. change (NT_SUCCESS STATUS_SUCCESS) with true in Hrun.
  cbn [negb] in Hrun. rewrite Hsig, Hbad in Hrun. cbv zeta in Hrun.
  replace (if partition_entry_size h <? sizeof_GPT_ENTRY then _ else _) with size in Hrun
    by (unfold size, gpt_size, sizeof_GPT_ENTRY; destruct (Z.ltb_spec (partition_entry_size h) 128); lia).
  unfold bad_header in Hbad. fold n in Hbad, Hrun.
  assert (128 ≤ size ≤ 256) as Hsz by (unfold size, gpt_size; lia). assert (0 < n * size ≤ 32768) as Hns by nia. split; [done|]. split; [done|].
  destruct (alloc_world _ _ _ (n * size) Hw1 ltac:(lia)) as (a & s2 & Hr2 & Hp2 & Hn2 & Hnt2 & Hc). rewrite (bind_ok _ _ _ _ _ Hr2) in Hrun.
  destruct Hc as [[-> Hw2]|(Ha & Hfr & Hw2)]; [left; exists s2; split_and!; [exact Hrun|done|split; congruence]|right]. replace (a =? 0) with false in Hrun by lia.
  destruct (world_read _ _ _ (partition_entry_lba h) ((n * size + 511) / 512) Hw2) as (s3 & Hr3 & Hw3 & Hp3 & Hn3 & Hnt3); [Z.div_mod_to_equations; lia|].
  rewrite (bind_ok _ _ _ _ _ Hr3) in Hrun. exists a, s3. split_and!; [done|done|done|split; congruence|exact Hrun].
Qed.

Lemma gpt_refused_run sec m0 s :
  world sec m0 s → gpt_refused (sec 1) = true →
  ∃ s', gpt_scan s = Ok (Some STATUS_INVALID_IMAGE_FORMAT, s') ∧ world sec m0 s' ∧ table_eq s s'.
Proof.
  intros Hw Href. destruct (world_read _ _ _ 1 1 Hw ltac:(lia)) as (s1 & Hr1 & Hw1 & Hp1 & Hn1 & Hnt1).
  change (Z.to_nat 1) with 1%nat in Hr1. cbn [sectors] in Hr1. rewrite app_nil_r in Hr1.
  exists s1. split; [|done]. unfold gpt_scan. rewrite (bind_ok _ _ _ _ _ Hr1). cbv beta iota. change (NT_SUCCESS STATUS_SUCCESS) with true. cbn [negb].
  unfold gpt_refused in Href. destruct (negb _); [done|]. cbn [orb] in Href. by rewrite Href.
Qed.

(** The sectors read are as long as they say. *)
Lemma world_sectors sec m0 s lba k : world sec m0 s → length (sectors sec lba k) = (SECTOR * k)%nat.
Proof. intros Hw. apply sectors_length. intros l. rewrite <- (wd_sec _ _ _ Hw). apply sector_len, Hw. Qed.

(** An array that fills whole sectors: the scan up to its entries. *)
Lemma gpt_scan_array sec m0 s :
  let h := sec 1 in let n := num_partition_entries h in let size := gpt_size h in
  world sec m0 s → gpt_refused h = false → 0 < n → (n * size) mod 512 = 0 →
  (∀ i : nat, Z.of_nat i < n → 0 ≤ Z.of_nat i * size ∧ Z.of_nat i * size + 128 ≤ Z.of_nat (length (gpt_entries sec))) ∧
  ((∃ s', gpt_scan s = Ok (Some STATUS_NO_MEMORY, s') ∧ world sec m0 s' ∧ table_eq s s') ∨
   ∃ a s', 0 < a ∧ m0 !! a = None ∧ world sec (<[a := 0]> m0) s' ∧ table_eq s s' ∧
     gpt_scan s = (for_each (gpt_turn (gpt_entries sec) size) (seq 0 (Z.to_nat n));; zoom pt_pool set_pt_pool (pool_free a 0);; mret None) s').
Proof.
  intros h n size Hw Href Hnum Hmod. destruct (gpt_scan_open sec m0 s Hw Href Hnum) as (Hsz & Hns & Hc).
  fold h in Hsz, Hns, Hc. fold n in Hsz, Hns, Hc. fold size in Hsz, Hns, Hc.
  assert (n * size = 512 * (n * size / 512)) as Hq by (apply Z.div_exact; lia).
  assert (length (gpt_entries sec) = Z.to_nat (n * size)) as Hlen.
  { unfold gpt_entries. fold h n size. rewrite (world_sectors _ _ _ _ _ Hw). unfold SECTOR. lia. }
  split; [intros i Hi; rewrite Hlen; nia|]. destruct Hc as [Hc|(a & s3 & Ha & Hfr & Hw3 & Hte & Hrun)]; [by left|right].
  exists a, s3. split_and!; [done..|]. rewrite Hrun.
  replace ((n * size + 511) / 512) with (n * size / 512) by (apply Z.div_unique with 511; lia).
  change (sectors sec (partition_entry_lba h) (Z.to_nat (n * size / 512))) with (gpt_entries sec).
  rewrite (deref_bind (λ _, store_at 0 (gpt_entries sec) (zeros (n * size))) _ s3 (gpt_entries sec)); [done|].
  rewrite store_at_fits by (unfold zeros; rewrite length_replicate, Hlen; lia). f_equal. apply splice_all. unfold zeros. by rewrite length_replicate.
Qed.

Lemma gpt_scan_run sec m0 s :
  let h := sec 1 in
  world sec m0 s → table_ok s → g_NumPartitions s = 0 → gpt_plain sec →
  ∃ r s', gpt_scan s = Ok (r, s') ∧ world sec m0 s' ∧ table_ok s' ∧
    if gpt_refused h then r = Some STATUS_INVALID_IMAGE_FORMAT ∧ listed s' = []
    else r = Some STATUS_NO_MEMORY ∧ listed s' = [] ∨
      r = None ∧ ntfs_after (listed s') s s' ∧
      Forall2 (gpt_part m0 sec (gpt_entries sec) (gpt_size h))
        (take 32 (filter (λ i, gpt_used (gpt_entries sec) (gpt_size h) i = true) (seq 0 (Z.to_nat (num_partition_entries h))))) (listed s').
Proof.
  intros h Hw Htb Hz Hplain.
  assert (∀ s', table_eq s s' → table_ok s' ∧ listed s' = []) as Hnil.
  { intros s' [Hp Hn _]. split; [by apply (table_same s s')|]. unfold listed. rewrite Hn, Hz. by rewrite take_0. }
  destruct (gpt_refused h) eqn:Href.
  { destruct (gpt_refused_run _ _ _ Hw Href) as (s' & ? & ? & []%Hnil). by eexists _, s'. }
  destruct (Hplain Href) as (Hnum & Hmod & Hsafe). fold h in Hnum, Hmod, Hsafe.
  destruct (gpt_scan_array sec m0 s Hw Href Hnum Hmod) as (Hin & [(s' & ? & ? & []%Hnil)|(a & s3 & Ha & Hfr & Hw3 & Hte & Hrun)]).
  { eexists _, s'. split_and!; [done|done|done|by left]. }
  fold h in Hrun, Hin. set (n := num_partition_entries h) in *. set (size := gpt_size h) in *.
  assert (Forall (turns sec (<[a:=0]> m0) (gpt_turn (gpt_entries sec) size) (gpt_used (gpt_entries sec) size) (gpt_part (<[a:=0]> m0) sec (gpt_entries sec) size)) (seq 0 (Z.to_nat n))) as Hturns.
  { apply Forall_seq. intros i Hi. apply gpt_turns; [apply Hsafe; lia|apply Hin; lia..]. }
  destruct (Hnil s3 Hte) as [Htb3 Hl3]. assert (g_NumPartitions s3 = 0) as Hz3 by (rewrite <- Hz; apply Hte).
  destruct (for_each_run _ _ _ _ _ _ Hturns s3 Hw3 Htb3) as (ps & s4 & Hr4 & Hw4 & Htb4 & Hl4 & HF & Hnt4); [lia|].
  rewrite (bind_ok _ _ _ _ _ Hr4) in Hrun. destruct (free_world _ _ _ _ Ha Hfr Hw4) as (s5 & Hr5 & Hw5 & Hp5 & Hn5 & Hnt5). rewrite (bind_ok _ _ _ _ _ Hr5) in Hrun.
  rewrite Hz3 in HF. rewrite Hl3 in Hl4. cbn [app] in Hl4. destruct (table_same s4 s5 Hp5 Hn5) as [Hl5 Htb5].
  eexists _, s5. split; [exact Hrun|]. split_and!; [done|by apply Htb5|]. right. rewrite Hl5, Hl4. split; [done|].
  split; [|eapply Forall2_impl; [exact HF|]; intros i p; by apply gpt_part_mono, insert_subseteq].
  pose proof (te_ntfs _ _ Hte). unfold ntfs_after in *. destruct (last_ntfs ps); congruence.
Qed.

(** A bad volume among the first entries of the array. *)
Lemma gpt_scan_bad sec m0 s i :
  let h := sec 1 in let n := num_partition_entries h in let used := gpt_used (gpt_entries sec) (gpt_size h) in
  let e := gpt_entry (gpt_entries sec) (gpt_size h) in
  world sec m0 s → table_ok s → g_NumPartitions s = 0 → gpt_refused h = false → (n * gpt_size h) mod 512 = 0 → Z.of_nat i < n →
  used i = true → name_bad sec (gpt_name sec (e i)) (starting_lba (e i)) → (length (filter (λ j, used j = true) (seq 0 i)) < 32)%nat →
  (∀ j, (j < i)%nat → used j = true → name_safe sec (gpt_name sec (e j)) (starting_lba (e j))) →
  gpt_scan s = Undef ∨ (∃ s', gpt_scan s = Ok (Some STATUS_NO_MEMORY, s')) ∨ no_room m0 sec (starting_lba (e i)).
Proof.
  intros h n used e Hw Htb Hz Href Hmod Hi Hu Hbad Hfew Hsafe.
  destruct (gpt_scan_array sec m0 s Hw Href ltac:(fold h; fold n; lia) Hmod) as (Hin & [(s' & ? & _)|(a & s3 & Ha & Hfr & Hw3 & [Hp Hn _] & Hrun)]);
    [right; left; by exists s'|]. fold h in Hrun, Hin. fold n in Hrun, Hin.
  assert (seq 0 (Z.to_nat n) = seq 0 i ++ i :: seq (S i) (Z.to_nat n - S i)) as Hseq
    by (replace (Z.to_nat n) with (i + S (Z.to_nat n - S i))%nat at 1 by lia; by rewrite seq_app).
  assert (Forall (turns sec (<[a:=0]> m0) (gpt_turn (gpt_entries sec) (gpt_size h)) used (gpt_part (<[a:=0]> m0) sec (gpt_entries sec) (gpt_size h))) (seq 0 i)) as Hturns.
  { apply Forall_seq. intros j Hj. apply gpt_turns; [apply Hsafe; lia|apply Hin; lia..]. }
  destruct (for_each_bad sec _ _ _ _ _ i (seq (S i) (Z.to_nat n - S i)) _ Hturns (gpt_turn_bad sec _ _ _ i Hu Hbad ltac:(apply Hin; lia) ltac:(apply Hin; lia)) s3 Hw3)
    as [Hx|(m & p & p' & Hm & ?)]; [by apply (table_same s s3 Hp Hn)|rewrite Hn, Hz; lia| |].
  - left. rewrite Hrun, Hseq. by apply bind_undef.
  - right; right. exists m, p, p'. split; [|done]. etrans; [by apply (insert_subseteq _ a 0)|done].
Qed.

(** An array of entries that does not fill whole sectors is read past the end of
    the block allocated for it. *)
Lemma gpt_entries_overrun sec m0 s :
  let h := sec 1 in
  world sec m0 s → gpt_refused h = false → 0 < num_partition_entries h → (num_partition_entries h * gpt_size h) mod 512 ≠ 0 →
  gpt_scan s = Undef ∨ ∃ s', gpt_scan s = Ok (Some STATUS_NO_MEMORY, s').
Proof.
  intros h Hw Href Hnum Hmod. destruct (gpt_scan_open sec m0 s Hw Href Hnum) as (Hsz & Hns & [(s' & ? & _)|(a & s3 & _ & _ & _ & _ & Hrun)]); [right; by exists s'|left].
  fold h in Hrun, Hsz, Hns. rewrite Hrun. unfold mbind at 1, M_bind at 1, mderef at 1. rewrite store_at_over; [done|].
  rewrite (world_sectors _ _ _ _ _ Hw). unfold zeros, SECTOR. rewrite length_replicate. Z.div_mod_to_equations. lia.
Qed.

Definition scan_status (l : list PARTITION_INFO) : Z :=
  match l with [] => STATUS_OBJECT_NAME_NOT_FOUND | _ => STATUS_SUCCESS end.

Lemma scan_end s : table_ok s →
  (n ← mgets g_NumPartitions; if n =? 0 then mret STATUS_OBJECT_NAME_NOT_FOUND else mret STATUS_SUCCESS) s = Ok (scan_status (listed s), s).
Proof.
  intros [Hn Hlen _]. unfold mbind at 1, M_bind at 1. cbn [mgets]. unfold listed. destruct (Z.eqb_spec (g_NumPartitions s) 0) as [->|Hne].
  - by rewrite take_0.
  - destruct (g_Partitions s); [done|]. by replace (Z.to_nat (g_NumPartitions s)) with (S (Z.to_nat (g_NumPartitions s - 1))) by lia.
Qed.

(** The scan up to the table of the boot record. *)
Lemma scan_open sec m0 s :
  world sec m0 s →
  ∃ s1, world sec m0 s1 ∧ table_ok s1 ∧ g_NumPartitions s1 = 0 ∧ listed s1 = [] ∧ pt_ntfs s1 = pt_ntfs s ∧
    PartitionScan s =
      if negb (mbr_signature (sec 0) =? MBR_SIGNATURE) then Ok (STATUS_INVALID_IMAGE_FORMAT, s1)
      else (r ← (if is_gpt (sec 0) then gpt_scan else for_each (mbr_turn (sec 0)) (seq 0 4);; mret None);
            match r with
            | Some st => mret st
            | None => n ← mgets g_NumPartitions; if n =? 0 then mret STATUS_OBJECT_NAME_NOT_FOUND else mret STATUS_SUCCESS
            end) s1.
Proof.
  intros Hw. set (s0 := set_parts (replicate 32 zero_part) 0 s).
  assert (world sec m0 s0) as Hw0 by (by destruct Hw). assert (table_ok s0) as Htb0 by (by split; [cbn; lia|done|done]).
  destruct (world_read _ _ _ 0 1 Hw0 ltac:(lia)) as (s1 & Hr1 & Hw1 & Hp1 & Hn1 & Hnt1).
  change (Z.to_nat 1) with 1%nat in Hr1. cbn [sectors] in Hr1. rewrite app_nil_r in Hr1.
  destruct (table_same _ _ Hp1 Hn1) as [Hl1 Htb1]. exists s1. split_and!; [done|by apply Htb1|done|done|done|].
  unfold PartitionScan. unfold mbind at 1, M_bind at 1. cbn [mmod]. fold s0.
  unfold mbind at 1, M_bind at 1. cbn [mgets]. rewrite (ahci_present_law _ (wd_dev _ _ _ Hw0)). cbn [negb].
  rewrite (bind_ok _ _ _ _ _ Hr1). cbv beta iota. change (NT_SUCCESS STATUS_SUCCESS) with true. cbn [negb]. by destruct (negb _).
Qed.

(** What the scan of a disk relies on, when the boot record has its signature. *)
Definition plain sec : Prop :=
  mbr_signature (sec 0) = MBR_SIGNATURE → if is_gpt (sec 0) then gpt_plain sec else mbr_plain sec.

(** What a scan of such a disk leaves. *)
Definition scanned sec m0 s (st : Z) s' : Prop :=
  if negb (mbr_signature (sec 0) =? MBR_SIGNATURE) then st = STATUS_INVALID_IMAGE_FORMAT ∧ listed s' = []
  else if is_gpt (sec 0) then
    let h := sec 1 in let size := gpt_size h in let used := gpt_used (gpt_entries sec) size in
    if gpt_refused h then st = STATUS_INVALID_IMAGE_FORMAT ∧ listed s' = []
    else st = STATUS_NO_MEMORY ∧ listed s' = [] ∨
      st = scan_status (listed s') ∧ ntfs_after (listed s') s s' ∧
      Forall2 (gpt_part m0 sec (gpt_entries sec) size)
        (take 32 (filter (λ i, used i = true) (seq 0 (Z.to_nat (num_partition_entries h))))) (listed s')
  else st = scan_status (listed s') ∧ ntfs_after (listed s') s s' ∧
    Forall2 (mbr_part m0 sec) (filter (λ i, mbr_used (sec 0) i = true) (seq 0 4)) (listed s').

Lemma ntfs_after_from l s0 s1 s' : pt_ntfs s1 = pt_ntfs s0 → ntfs_after l s1 s' → ntfs_after l s0 s'.
Proof. unfold ntfs_after. intros Hn. destruct (last_ntfs l); [done|]. by rewrite Hn. Qed.

Lemma scan_plain sec m0 s : world sec m0 s → plain sec → ∃ st s', PartitionScan s = Ok (st, s') ∧ world sec m0 s' ∧ table_ok s' ∧ scanned sec m0 s st s'.
Proof.
  intros Hw Hplain. destruct (scan_open sec m0 s Hw) as (s1 & Hw1 & Htb1 & Hn1 & Hl1 & Hnt1 & Hrun). unfold scanned.
  destruct (Z.eqb_spec (mbr_signature (sec 0)) MBR_SIGNATURE) as [Hsig|_]; cbn [negb] in Hrun |- *; [|by eexists _, s1].
  specialize (Hplain Hsig). destruct (is_gpt (sec 0)).
  - destruct (gpt_scan_run sec m0 s1 Hw1 Htb1 Hn1 Hplain) as (r & s2 & Hr2 & Hw2 & Htb2 & Hc). rewrite (bind_ok _ _ _ _ _ Hr2) in Hrun.
    cbv zeta. destruct (gpt_refused _); [destruct Hc as [-> ?]; by eexists _, s2|].
    destruct Hc as [[-> ?]|(-> & Hnt & HF)]; [eexists _, s2; split; [exact Hrun|]; naive_solver|].
    rewrite scan_end in Hrun by done. eexists _, s2. split; [exact Hrun|]. split_and!; [done|done|]. right. split_and!; [done| |done].
    by eapply ntfs_after_from.
  - assert (Forall (turns sec m0 (mbr_turn (sec 0)) (mbr_used (sec 0)) (mbr_part m0 sec)) (seq 0 4)) as Hturns
      by (apply Forall_seq; intros i Hi; apply mbr_turns, Hplain; lia).
    destruct (for_each_run _ _ _ _ _ _ Hturns s1 Hw1 Htb1) as (ps & s2 & Hr2 & Hw2 & Htb2 & Hl2 & HF & Hnt); [rewrite Hn1; lia|].
    erewrite bind_ok in Hrun; [|rewrite (bind_ok _ _ _ _ _ Hr2); reflexivity]. rewrite scan_end in Hrun by done.
    rewrite Hl1 in Hl2. cbn [app] in Hl2. eexists _, s2. split; [exact Hrun|]. rewrite Hl2. split_and!; [done|done|done|by eapply ntfs_after_from|].
    rewrite Hn1 in HF. rewrite take_ge in HF; [done|]. change (32 - Z.to_nat 0)%nat with 32%nat. etrans; [apply length_filter|cbn; lia].
Qed.


End Partition.

(** ** A disk of three partitions *)

Definition demo_entry (ty lba n : Z) : list Z := [0; 0; 0; 0; ty; 0; 0; 0] ++ le_bytes 4 lba ++ le_bytes 4 n.
Definition demo_mbr : list Z :=
  splice 446 (demo_entry PART_TYPE_NTFS 8 100 ++ demo_entry PART_TYPE_EMPTY 0 0 ++ demo_entry PART_TYPE_FAT32 200 50 ++ demo_entry 0x83 300 10)
    (splice 510 [0x55; 0xAA] (replicate 512 0)).
Definition demo_boot : list Z :=
  splice 3 (NTFS_OEM ++ le_bytes 2 512 ++ [2]) (splice 70 (le_bytes 4 (-10)) (splice 78 (le_bytes 4 (-12)) (replicate 512 0))).
Definition demo_parts_disk : RAMDISK := mkDisk (λ l, if l =? 0 then demo_mbr else if l =? 8 then demo_boot else replicate 512 0).
Definition demo_parts : PART POOL_STATE RAMDISK :=
  mkPt [] 0 (mkMount 0 0 0 0 0 0 0 0 0 0 0 false 0 0 0) [] (mkNtfs 0 0 0 0 0 0 0 0 0 0 false) demo_pool demo_parts_disk.

Lemma bytes_forall (l : list Z) : forallb byteb l = true → Forall byte l.
Proof.
  rewrite forallb_forall. intros Hb. apply Forall_forall. intros x Hx%list_elem_of_In%Hb. unfold byteb in Hx. unfold byte. lia.
Qed.

Lemma demo_parts_world : world (platter demo_parts_disk) ∅ demo_parts.
Proof.
  constructor; try (cbn; done); [|exact demo_pool_rep].
  intros l. cbn [demo_parts pt_dev demo_parts_disk platter]. destruct (l =? 0); [|destruct (l =? 8)];
    (split; [vm_compute; reflexivity|apply bytes_forall; vm_compute; reflexivity]).
Qed.

Lemma demo_parts_plain : mbr_plain (platter demo_parts_disk).
Proof.
  intros i Hi e _. subst e.
  destruct i as [|[|[|[|i]]]]; [split; [vm_compute; discriminate|]|split; vm_compute; discriminate| |split; vm_compute; discriminate|lia].
  - intros _. right. split; eexists; vm_compute; reflexivity.
  - split; [|vm_compute; discriminate]. intros _. left. vm_compute. reflexivity.
Qed.

(** The same disk with a FAT32 volume of two tables, each of them complete. *)
Definition full_boot : list Z := splice 16 [2] Fat32.demo_boot.
Definition full_disk : RAMDISK := mkDisk (λ l, if l =? 200 then full_boot else platter demo_parts_disk l).
Definition full_parts : PART POOL_STATE RAMDISK := set_pt_dev full_disk demo_parts.

Lemma full_parts_world : world (platter full_disk) ∅ full_parts.
Proof.
  destruct demo_parts_world as [Hup _ Hp Hn Hc]. constructor; try done. intros l. cbn [full_parts set_pt_dev pt_dev full_disk platter].
  destruct (l =? 200); [|apply Hup]. split; [vm_compute; reflexivity|apply bytes_forall; vm_compute; reflexivity].
Qed.

Lemma full_volume_bad : name_bad (platter full_disk) (mbr_name PART_TYPE_FAT32) 200.
Proof.
  left. split; [done|]. split; [vm_compute; reflexivity|right]. assert (fat_entries (geometry (platter full_disk) 200) = 127) as Hn by (vm_compute; reflexivity).
  assert (fat_total_sectors (geometry (platter full_disk) 200) = 2) as Ht by (vm_compute; reflexivity). unfold sane. rewrite Hn, Ht.
  split; [split; [vm_compute; discriminate|unfold EOC_MIN; lia]|lia].
Qed.

