(* ===== verification/Boot.v ===== *)
(** * Boot: from the command line to the order of initialisation
    (src/boot/bootargs.c, src/boot/profile.c, src/boot/registry.c)

    The flags of the command line choose a boot profile; the profile says which
    registered subsystems are wanted; a topological sort orders them, and their
    initialisation routines are called in that order.  Those routines are a
    parameter, known by name, acting on the rest of the kernel.  Strings are lists
    of character codes; debug output is left out. *)

From stdpp Require Import strings.
From S2P Require Import Prelude Disk.

#[local] Open Scope Z_scope.

Definition STATUS_OBJECT_NAME_COLLISION := 0xC0000035.

(** The characters of a string constant. *)
Definition str (s : string) : list Z := (λ c, Z.of_N (Ascii.N_of_ascii c)) <$> String.list_ascii_of_string s.

(** ** Data *)

Inductive BOOT_PROFILE :=
| BootProfileNormal
| BootProfileLive
| BootProfileInstall
| BootProfileSafe
| BootProfileRecovery
| BootProfileTerminal
| BootProfileDebug.
#[global] Instance BOOT_PROFILE_eq_dec : EqDecision BOOT_PROFILE.
Proof. solve_decision. Defined.

Definition BOOT_MAX_PROFILES : nat := 8.
Definition BOOT_MAX_SUBSYSTEMS : nat := 96.
Definition BOOT_MAX_DEPS_PER := 8.
Definition BOOT_MAX_NAME : nat := 32.

(** The arrays of names hold as many as their counts say. *)
Record BOOT_PROFILE_DEF := mkProfile {
  p_Id : BOOT_PROFILE;
  p_Name : list Z;
  Required : list (list Z);
  Excluded : list (list Z);
  p_InUse : bool
}.
Definition zero_profile : BOOT_PROFILE_DEF := mkProfile BootProfileNormal (replicate 32 0) [] [] false.

(** [Init] is the name of the routine; a dependency is a pointer to a string. *)
Record BOOT_SUBSYSTEM_REC := mkRec {
  r_Name : list Z;
  Init : option string;
  Deps : list (option (list Z));
  DepCount : Z;
  Phase : Z;
  ShouldInit : bool;
  Initialized : bool;
  r_InUse : bool
}.
Definition zero_rec : BOOT_SUBSYSTEM_REC := mkRec (replicate 32 0) None (replicate 8 None) 0 0 false false false.

Definition with_should (b : bool) (r : BOOT_SUBSYSTEM_REC) : BOOT_SUBSYSTEM_REC :=
  mkRec (r_Name r) (Init r) (Deps r) (DepCount r) (Phase r) b (Initialized r) (r_InUse r).
Definition with_initialized (b : bool) (r : BOOT_SUBSYSTEM_REC) : BOOT_SUBSYSTEM_REC :=
  mkRec (r_Name r) (Init r) (Deps r) (DepCount r) (Phase r) (ShouldInit r) b (r_InUse r).

Record BOOT (W : Type) := mkBoot {
  g_BootCmdLine : list Z;
  g_Parsed : bool;
  g_Profiles : list BOOT_PROFILE_DEF;
  g_ActiveProfile : BOOT_PROFILE;
  g_Registry : list BOOT_SUBSYSTEM_REC;
  kernel : W
}.
Arguments mkBoot {W} _ _ _ _ _ _.
Arguments g_BootCmdLine {W} _.
Arguments g_Parsed {W} _.
Arguments g_Profiles {W} _.
Arguments g_ActiveProfile {W} _.
Arguments g_Registry {W} _.
Arguments kernel {W} _.

(** A name copied into a zeroed array of [n] characters. *)
Definition copy_name (n : nat) (src : list Z) : list Z :=
  let c := cname src 0 (n - 1) in c ++ replicate (n - length c) 0.

(** ** The registry as a table *)

Definition BootFindRec (g : list BOOT_SUBSYSTEM_REC) (Name : option (list Z)) : option nat :=
  match Name with
  | None => None
  | Some nm => first_idx (λ r, r_InUse r && same_str (r_Name r) nm 0 BOOT_MAX_NAME) g
  end.

Definition selected (r : BOOT_SUBSYSTEM_REC) : bool := r_InUse r && ShouldInit r.

(** The dependencies a record declares. *)
Definition deps_of (r : BOOT_SUBSYSTEM_REC) : list (option (list Z)) := take (Z.to_nat (DepCount r)) (Deps r).

(** A dependency counts when its record is found and wanted. *)
Definition counts (g : list BOOT_SUBSYSTEM_REC) (d : option (list Z)) : bool :=
  match BootFindRec g d ≫= (g !!.) with Some r => ShouldInit r | None => false end.

Definition indegree (g : list BOOT_SUBSYSTEM_REC) : list Z :=
  (λ r, if selected r then countb (counts g) (deps_of r) else 0) <$> g.

(** The scan for a record that is wanted, not yet emitted, without open
    dependencies, and of the lowest phase. *)
Fixpoint pick (i : nat) (g : list BOOT_SUBSYSTEM_REC) (emitted : list bool) (deg : list Z) (best : option nat) (bestPhase : Z) : option nat :=
  match g, emitted, deg with
  | r :: g', e :: emitted', d :: deg' =>
      if negb (selected r) || e || negb (d =? 0) then pick (S i) g' emitted' deg' best bestPhase
      else if Phase r <? bestPhase then pick (S i) g' emitted' deg' (Some i) (Phase r)
      else pick (S i) g' emitted' deg' best bestPhase
  | _, _, _ => best
  end.

(** Does a record name [best] among its dependencies? *)
Definition waits_for (g : list BOOT_SUBSYSTEM_REC) (best : nat) (r : BOOT_SUBSYSTEM_REC) : bool :=
  existsb (λ d, bool_decide (BootFindRec g d = Some best)) (deps_of r).

Fixpoint release (G : list BOOT_SUBSYSTEM_REC) (best : nat) (g : list BOOT_SUBSYSTEM_REC) (emitted : list bool) (deg : list Z) : list Z :=
  match g, emitted, deg with
  | r :: g', e :: emitted', d :: deg' =>
      (if selected r && negb e && waits_for G best r then u32 (d - 1) else d) :: release G best g' emitted' deg'
  | _, _, _ => deg
  end.

(** The main loop: [k] records are still to be emitted. *)
Fixpoint emit (g : list BOOT_SUBSYSTEM_REC) (k : nat) (emitted : list bool) (deg : list Z) (order : list nat) : list nat :=
  match k with
  | O => order
  | S k' =>
      match pick 0 g emitted deg None 0xFFFFFFFF with
      | None => order
      | Some best =>
          let emitted' := <[best := true]> emitted in
          emit g k' emitted' (release g best g emitted' deg) (order ++ [best])
      end
  end.

Definition BootTopoSort (g : list BOOT_SUBSYSTEM_REC) : Z * list nat :=
  let n := Z.to_nat (countb selected g) in
  if (n =? 0)%nat then (STATUS_SUCCESS, [])
  else
    let order := emit g n (replicate BOOT_MAX_SUBSYSTEMS false) (indegree g) [] in
    if negb (length order =? n)%nat then (STATUS_UNSUCCESSFUL, order) else (STATUS_SUCCESS, order).

(** ** The declarations of BootRegistryInit *)

Definition reg (name : string) (init : option string) (deps : list string) (count phase : Z) :
    option (list Z) * option string * list (list Z) * Z * Z :=
  (Some (str name), init, str <$> deps, count, phase).

Definition boot_table : list (option (list Z) * option string * list (list Z) * Z * Z) := [
  reg "HAL" (None) [] 0 0;
  reg "Mm" (Some "MmInitSystemWrap") ["HAL"; "Ke"] 2 0;
  reg "Ex" (Some "ExInitializePoolManager") ["Mm"] 1 0;
  reg "Ob" (Some "ObInitSystem") ["Ex"] 1 0;
  reg "Io" (Some "IoInitSystem") ["Ob"; "Mm"] 2 1;
  reg "NullDriver" (Some "IoInitNullDriver") ["Io"] 1 1;
  reg "Cm" (Some "CmInitSystem") ["Io"] 1 1;
  reg "Cc" (Some "WrapCcInit") ["Io"; "Cm"] 1 1;
  reg "Se" (Some "SeInitSystem") ["Ob"] 1 1;
  reg "Ps" (Some "PsInitSystem") ["Ob"; "Mm"] 2 1;
  reg "Scm" (Some "ScmInitSystem") ["Ob"; "Io"] 1 1;
  reg "Lpc" (Some "LpcInitSystem") ["Ob"] 1 1;
  reg "Usb" (Some "UsbInitSystem") ["Io"] 1 1;
  reg "Gpu" (Some "GpuInitializeSubsystem") ["Io"] 1 1;
  reg "Ahci" (Some "AhciInitSystem") ["Io"] 1 1;
  reg "Partition" (Some "PartitionScan") ["Io"; "Ahci"] 1 1;
  reg "Rtw" (Some "RtwInitSystem") ["Io"] 1 1;
  reg "Fs" (Some "FsInitSystem") ["Io"] 1 1;
  reg "RecycleBin" (Some "RecycleBinInit") ["Fs"] 1 2;
  reg "Network" (Some "NetConnectionsInit") ["Fs"] 1 2;
  reg "Comreg" (Some "ComRegisterInit") ["Fs"] 1 2;
  reg "SafeMode" (Some "SafeModeInit") ["Fs"] 1 2;
  reg "BootCfg" (Some "BootCfgInit") ["Fs"] 1 2;
  reg "DisplayTopology" (Some "DisplayTopologyInit") ["Fs"] 1 2;
  reg "Namespace" (Some "NsInit") ["Fs"] 1 2;
  reg "Etw" (Some "EtwInit") ["Fs"] 1 2;
  reg "Reliability" (Some "ReliabilityInit") ["Fs"] 1 2;
  reg "Spooler" (Some "SpoolerInit") ["Fs"] 1 2;
  reg "Touch" (Some "TouchInputInit") ["Fs"] 1 2;
  reg "Ime" (Some "ImeInit") ["Fs"] 1 2;
  reg "Gamepad" (Some "GamepadInit") ["Fs"] 1 2;
  reg "Mmc" (Some "MmcInit") ["Fs"] 1 2;
  reg "Acpi" (Some "AcpiInit") ["Fs"] 1 2;
  reg "Wmi" (Some "WmiInit") ["Fs"] 1 2;
  reg "Rpc" (Some "RpcInit") ["Fs"] 1 2;
  reg "Reparse" (Some "ReparseInit") ["Fs"] 1 2;
  reg "Vss" (Some "VssInit") ["Fs"] 1 2;
  reg "Pnp" (Some "PnpInit") ["Fs"] 1 2;
  reg "Kd" (Some "WrapKdInit") ["Fs"] 1 2;
  reg "Apps" (Some "NotepadInit") ["Fs"] 1 2;
  reg "SafeUsb" (Some "SafeUsbInit") ["Fs"] 1 2;
  reg "Quota" (Some "QuotaInit") ["Fs"] 1 2;
  reg "Profile" (Some "RoamingProfileInit") ["Fs"] 1 2;
  reg "Sync" (Some "SyncInit") ["Fs"] 1 2;
  reg "Hid" (Some "HidInit") ["Fs"] 1 2;
  reg "Tsf" (Some "TsfInit") ["Fs"] 1 2;
  reg "Media" (Some "MediaInit") ["Fs"] 1 2;
  reg "Installer" (Some "InstInit") ["Fs"] 1 2;
  reg "OsInstall" (Some "OsInstallInit") ["Fs"; "Ahci"] 2 2;
  reg "Wine" (Some "WineInit") ["Fs"] 1 2;
  reg "Properties" (Some "PropertiesInit") ["Fs"] 1 2;
  reg "Taskmgr" (Some "TaskmgrInit") ["Fs"] 1 2;
  reg "Tpm" (Some "TpmInit") ["Fs"] 1 2;
  reg "SteamInput" (Some "SteamInputInit") ["Fs"] 1 2;
  reg "CtrlName" (Some "ControllerNameInit") ["Fs"] 1 2;
  reg "Win32k" (Some "WrapWin32kInit") ["Fs"] 1 3;
  reg "BootChain" (Some "BootChainInit") ["Win32k"; "Ps"] 2 3
].

Section Boot.
Context {W : Type} (call : string → W → Z * W).
Implicit Types (s : BOOT W).

Definition set_cmdline (l : list Z) s : BOOT W := mkBoot l (g_Parsed s) (g_Profiles s) (g_ActiveProfile s) (g_Registry s) (kernel s).
Definition set_parsed (b : bool) s : BOOT W := mkBoot (g_BootCmdLine s) b (g_Profiles s) (g_ActiveProfile s) (g_Registry s) (kernel s).
Definition set_profiles (l : list BOOT_PROFILE_DEF) s : BOOT W := mkBoot (g_BootCmdLine s) (g_Parsed s) l (g_ActiveProfile s) (g_Registry s) (kernel s).
Definition set_active (p : BOOT_PROFILE) s : BOOT W := mkBoot (g_BootCmdLine s) (g_Parsed s) (g_Profiles s) p (g_Registry s) (kernel s).
Definition set_registry (l : list BOOT_SUBSYSTEM_REC) s : BOOT W := mkBoot (g_BootCmdLine s) (g_Parsed s) (g_Profiles s) (g_ActiveProfile s) l (kernel s).
Definition set_kernel (w : W) s : BOOT W := mkBoot (g_BootCmdLine s) (g_Parsed s) (g_Profiles s) (g_ActiveProfile s) (g_Registry s) w.

(** ** The command line *)

Definition MB2_TAG_TYPE_CMDLINE := 1.

(** The copy of the string at [o]: it ends at a 0 or at 511 characters. *)
Definition copy_cmdline (mem : list Z) (o : Z) : option (list Z) :=
  let c := cname (drop (Z.to_nat o) mem) 0 511 in
  if (length c =? 511)%nat || (o + Z.of_nat (length c) <? Z.of_nat (length mem)) then Some c else None.

Definition tag_turn (mem : list Z) (fin ptr : Z) : M (BOOT W) (Z + Z) :=
  if ptr <? fin then
    ty ← mderef (λ _, bytes_at ptr 4 mem);
    sz ← mderef (λ _, bytes_at (ptr + 4) 4 mem);
    if (le_val ty =? 0) && (le_val sz =? 0) then
      mmod (set_parsed true);; mret (inr STATUS_NOT_FOUND)
    else if le_val ty =? MB2_TAG_TYPE_CMDLINE then
      c ← mderef (λ _, copy_cmdline mem (ptr + 8));
      mmod (λ s, set_parsed true (set_cmdline (splice 0 (c ++ [0]) (g_BootCmdLine s)) s));;
      mret (inr STATUS_SUCCESS)
    else mret (inl (ptr + Z.land (u32 (le_val sz + 7)) 0xFFFFFFF8))
  else
    mmod (set_parsed true);; mret (inr STATUS_NOT_FOUND).

Definition BootArgsParse (Mb2Info : option (list Z)) : M (BOOT W) Z :=
  match Mb2Info with
  | None => mret STATUS_INVALID_PARAMETER
  | Some mem =>
      parsed ← mgets (λ s, g_Parsed s);
      if parsed : bool then mret STATUS_SUCCESS
      else
        total ← mderef (λ _, bytes_at 0 4 mem);
        loop (tag_turn mem (le_val total)) 8
  end.

(** Is the flag a substring of the command line? *)
Definition BootArgsHas (Flag : option (list Z)) s : bool :=
  match Flag with
  | None => false
  | Some f =>
      let cmd := cname (g_BootCmdLine s) 0 512 in
      if (length cmd <? length f)%nat then false
      else existsb (λ i, bool_decide (take (length f) (drop i cmd) = f)) (seq 0 (S (length cmd - length f)))
  end.

Definition BootArgsIsInstall := BootArgsHas (Some (str "/install")).
Definition BootArgsIsSafeMode := BootArgsHas (Some (str "/safemode")).
Definition BootArgsIsTerminal := BootArgsHas (Some (str "/terminal")).
Definition BootArgsIsRecovery := BootArgsHas (Some (str "/recovery")).
Definition BootArgsIsDebug := BootArgsHas (Some (str "/debug")).

(** ** Profiles *)

Definition BootFindProfile (Id : BOOT_PROFILE) s : option nat :=
  first_idx (λ p, p_InUse p && bool_decide (p_Id p = Id)) (g_Profiles s).

Definition AddProfileSubsys (i : nat) (Name : list Z) (required : bool) : M (BOOT W) Z :=
  p ← mderef (λ s, g_Profiles s !! i);
  let l := if required then Required p else Excluded p in
  if (BOOT_MAX_SUBSYSTEMS <=? length l)%nat then mret STATUS_NO_MEMORY
  else
    let p' := if required then mkProfile (p_Id p) (p_Name p) (l ++ [Name]) (Excluded p) (p_InUse p)
              else mkProfile (p_Id p) (p_Name p) (Required p) (l ++ [Name]) (p_InUse p) in
    mmod (λ s, set_profiles (<[i := p']> (g_Profiles s)) s);;
    mret STATUS_SUCCESS.

Definition BootDefineProfile (Id : BOOT_PROFILE) (Name : list Z) : M (BOOT W) Z :=
  ps ← mgets g_Profiles;
  match first_idx (λ p, negb (p_InUse p)) ps with
  | Some i =>
      mmod (set_profiles (<[i := mkProfile Id (copy_name 32 Name) [] [] true]> ps));;
      mret STATUS_SUCCESS
  | None => mret STATUS_NO_MEMORY
  end.

Definition BootProfileAddRequired (Id : BOOT_PROFILE) (Name : list Z) : M (BOOT W) Z :=
  i ← mgets (BootFindProfile Id);
  match i with None => mret STATUS_NOT_FOUND | Some i => AddProfileSubsys i Name true end.
Definition BootProfileAddExcluded (Id : BOOT_PROFILE) (Name : list Z) : M (BOOT W) Z :=
  i ← mgets (BootFindProfile Id);
  match i with None => mret STATUS_NOT_FOUND | Some i => AddProfileSubsys i Name false end.

Definition BootProfileActivate (Id : BOOT_PROFILE) : M (BOOT W) Z := mmod (set_active Id);; mret STATUS_SUCCESS.
Definition BootProfileGetActive : M (BOOT W) BOOT_PROFILE := mgets g_ActiveProfile.

Definition named (l : list (list Z)) (Name : list Z) : bool := existsb (λ x, same_str x Name 0 32) l.

(** What a profile says of a name; no profile, no answer. *)
Definition profile_allows (ps : list BOOT_PROFILE_DEF) (active : BOOT_PROFILE) (Name : list Z) : option bool :=
  i ← first_idx (λ p, p_InUse p && bool_decide (p_Id p = active)) ps;
  p ← ps !! i;
  Some (if named (Excluded p) Name then false
        else if (0 <? length (Required p))%nat then named (Required p) Name else true).

Definition BootProfileAllowsSubsystem (Name : option (list Z)) : M (BOOT W) bool :=
  match Name with
  | None => mret false
  | Some nm => mderef (λ s, profile_allows (g_Profiles s) (g_ActiveProfile s) nm)
  end.

Definition BootProfileIsSubsystemRequired (Name : option (list Z)) : M (BOOT W) bool :=
  match Name with
  | None => mret false
  | Some nm =>
      p ← mderef (λ s, BootFindProfile (g_ActiveProfile s) s ≫= (g_Profiles s !!.));
      mret (named (Required p) nm)
  end.

Definition INSTALL_SET : list string :=
  ["HAL"; "Ke"; "Mm"; "Ex"; "Ob"; "Io"; "NullDriver"; "Ahci"; "Usb"; "Partition"; "Fs"; "Framebuffer"; "Keyboard"; "Installer"; "OsInstall"].
Definition excluded_sets : list (BOOT_PROFILE * string) :=
  ((λ x : string, (BootProfileSafe, x)) <$> ["Touch"; "Gamepad"; "Tpm"; "Win32k"; "Explorer"; "Audio"]) ++
  ((λ x : string, (BootProfileRecovery, x)) <$> ["Explorer"; "Apps"; "Network"]) ++
  ((λ x : string, (BootProfileTerminal, x)) <$> ["Explorer"; "BootChain"]).

(** A list of calls whose results are ignored. *)
Fixpoint in_turn {S A} (f : A → M S Z) (l : list A) : M S unit :=
  match l with [] => mret tt | x :: l' => f x;; in_turn f l' end.

Definition BootProfileInit : M (BOOT W) Z :=
  mmod (set_profiles (replicate BOOT_MAX_PROFILES zero_profile));;
  in_turn (λ x, BootDefineProfile x.1 (str x.2))
    [(BootProfileNormal, "Normal"); (BootProfileLive, "Live"); (BootProfileInstall, "Install"); (BootProfileSafe, "Safe");
     (BootProfileRecovery, "Recovery"); (BootProfileTerminal, "Terminal"); (BootProfileDebug, "Debug")];;
  in_turn (λ x, BootProfileAddRequired BootProfileInstall (str x)) INSTALL_SET;;
  in_turn (λ x, BootProfileAddExcluded x.1 (str x.2)) excluded_sets;;
  BootProfileAddRequired BootProfileDebug (str "KDBG");;
  BootProfileAddExcluded BootProfileLive (str "Installer");;
  mret STATUS_SUCCESS.

Definition BootProfileResolve : M (BOOT W) Z :=
  s ← mget;
  (if BootArgsIsInstall s then BootProfileActivate BootProfileInstall
   else if BootArgsIsSafeMode s then BootProfileActivate BootProfileSafe
   else if BootArgsIsRecovery s then BootProfileActivate BootProfileRecovery
   else if BootArgsIsTerminal s then BootProfileActivate BootProfileTerminal
   else if BootArgsIsDebug s then BootProfileActivate BootProfileDebug
   else BootProfileActivate BootProfileNormal);;
  mret STATUS_SUCCESS.

(** ** The registry *)

Definition BootRegisterSubsystemEx (Name : option (list Z)) (Init_ : option string) (Deps_ : list (list Z)) (DepCount_ Phase_ : Z) : M (BOOT W) Z :=
  match Name, Init_ with
  | Some nm, Some _ =>
      if BOOT_MAX_DEPS_PER <? DepCount_ then mret STATUS_INVALID_PARAMETER
      else
        g ← mgets g_Registry;
        match BootFindRec g (Some nm) with
        | Some _ => mret STATUS_OBJECT_NAME_COLLISION
        | None =>
            match first_idx (λ r, negb (r_InUse r)) g with
            | None => mret STATUS_NO_MEMORY
            | Some i =>
                if Z.of_nat (length Deps_) <? DepCount_ then mundef
                else
                  let ds := take (Z.to_nat DepCount_) Deps_ in
                  let r := mkRec (copy_name BOOT_MAX_NAME nm) Init_ ((Some <$> ds) ++ replicate (8 - length ds) None) DepCount_ Phase_ false false true in
                  mmod (set_registry (<[i := r]> g));;
                  mret STATUS_SUCCESS
            end
        end
  | _, _ => mret STATUS_INVALID_PARAMETER
  end.

Definition BootRegisterSubsystem (Name : option (list Z)) (Init_ : option string) : M (BOOT W) Z :=
  BootRegisterSubsystemEx Name Init_ [] 0 2.

Definition BootMarkSubsystemInitialized (Name : option (list Z)) : M (BOOT W) Z :=
  g ← mgets g_Registry;
  match BootFindRec g Name with
  | None => mret STATUS_NOT_FOUND
  | Some i => mmod (set_registry (alter (with_initialized true) i g));; mret STATUS_SUCCESS
  end.

(** The records with [ShouldInit] set from the profile. *)
Definition marked (ps : list BOOT_PROFILE_DEF) (active : BOOT_PROFILE) (g : list BOOT_SUBSYSTEM_REC) : option (list BOOT_SUBSYSTEM_REC) :=
  mapM (λ r, if r_InUse r then (λ b, with_should b r) <$> profile_allows ps active (r_Name r) else Some r) g.

Definition BootMarkShouldInit : M (BOOT W) Z :=
  g ← mderef (λ s, marked (g_Profiles s) (g_ActiveProfile s) (g_Registry s));
  mmod (set_registry g);;
  mret STATUS_SUCCESS.

(** The calls, in the order of the sort. *)
Fixpoint run_order (order : list nat) : M (BOOT W) unit :=
  match order with
  | [] => mret tt
  | i :: order' =>
      r ← mderef (λ s, g_Registry s !! i);
      match Init r with
      | None => run_order order'
      | Some f =>
          s ← mget;
          let '(st, w) := call f (kernel s) in
          mmod (set_kernel w);;
          mmod (λ s, set_registry (alter (with_initialized (NT_SUCCESS st)) i (g_Registry s)) s);;
          run_order order'
      end
  end.

Definition BootRegistryInit : M (BOOT W) Z :=
  mmod (set_registry (replicate BOOT_MAX_SUBSYSTEMS zero_rec));;
  in_turn (λ x, let '(nm, init, deps, count, phase) := x in BootRegisterSubsystemEx nm init deps count phase) boot_table;;
  BootMarkShouldInit;;
  g ← mgets g_Registry;
  let '(st, order) := BootTopoSort g in
  if negb (NT_SUCCESS st) then mret st
  else run_order order;; mret STATUS_SUCCESS.

(** Runs one routine outside the registry's order. *)
Definition BootRunSubsystem (Name : option (list Z)) (Init_ : string) : M (BOOT W) Z :=
  allowed ← BootProfileAllowsSubsystem Name;
  if negb allowed then mret STATUS_SUCCESS
  else
    s ← mget;
    let '(st, w) := call Init_ (kernel s) in
    mmod (set_kernel w);;
    (if NT_SUCCESS st then BootMarkSubsystemInitialized Name;; mret st else mret st).

End Boot.

(** ** What the sort computes *)

(** The records to be emitted, and the wanted ones a record depends on. *)
Definition is_wanted (g : list BOOT_SUBSYSTEM_REC) (i : nat) : Prop := ∃ r, g !! i = Some r ∧ selected r = true.
#[global] Instance is_wanted_dec g i : Decision (is_wanted g i).
Proof.
  refine (match g !! i as o return g !! i = o → Decision (is_wanted g i) with
          | Some r => λ H, match selected r as b return selected r = b → _ with true => λ Hs, left _ | false => λ Hs, right _ end eq_refl
          | None => λ H, right _ end eq_refl).
  - by exists r.
  - intros (r' & Hr & Hs'). congruence.
  - intros (r & Hr & _). congruence.
Defined.
Definition wanted (g : list BOOT_SUBSYSTEM_REC) : list nat := filter (is_wanted g) (seq 0 (length g)).

Definition dep_index (g : list BOOT_SUBSYSTEM_REC) (d : option (list Z)) : option nat :=
  j ← BootFindRec g d; r ← g !! j; if ShouldInit r then Some j else None.
Definition wdeps (g : list BOOT_SUBSYSTEM_REC) (r : BOOT_SUBSYSTEM_REC) : list nat := omap (dep_index g) (deps_of r).
Definition needs (g : list BOOT_SUBSYSTEM_REC) (i : nat) : list nat := match g !! i with Some r => wdeps g r | None => [] end.

Record registry_wf (g : list BOOT_SUBSYSTEM_REC) : Prop := {
  rw_len : length g = BOOT_MAX_SUBSYSTEMS;
  rw_phase r : r ∈ g → 0 ≤ Phase r < 0xFFFFFFFF;
  rw_deps r : r ∈ g → length (Deps r) = 8%nat;
  rw_nodup r : r ∈ g → NoDup (wdeps g r)
}.

(** A set of records each of which waits for another of the set. *)
Definition blocked (g : list BOOT_SUBSYSTEM_REC) : Prop :=
  ∃ C : list nat, C ≠ [] ∧ ∀ i, i ∈ C → is_wanted g i ∧ ∃ j, j ∈ C ∧ j ∈ needs g i.

(** Every record comes after those it needs. *)
Definition ordered (g : list BOOT_SUBSYSTEM_REC) (order : list nat) : Prop :=
  ∀ k i, order !! k = Some i → ∀ j, j ∈ needs g i → j ∈ take k order.

Definition ready (g : list BOOT_SUBSYSTEM_REC) (past : list nat) (i : nat) : Prop :=
  is_wanted g i ∧ (i ∉ past) ∧ ∀ j, j ∈ needs g i → j ∈ past.
Definition before (g : list BOOT_SUBSYSTEM_REC) (i i' : nat) : Prop :=
  ∀ r r', g !! i = Some r → g !! i' = Some r' → Phase r < Phase r' ∨ Phase r = Phase r' ∧ (i ≤ i')%nat.

(** At every place stands the first of the records that are ready, by phase and
    then by registration. *)
Definition greedy (g : list BOOT_SUBSYSTEM_REC) (order : list nat) : Prop :=
  ∀ k i, order !! k = Some i → ∀ i', ready g (take k order) i' → before g i i'.

Section Topo.
Context (g : list BOOT_SUBSYSTEM_REC) (Hwf : registry_wf g).

Lemma counts_length r : countb (counts g) (deps_of r) = Z.of_nat (length (wdeps g r)).
Proof.
  unfold wdeps. induction (deps_of r) as [|d l IH]; [done|]. rewrite countb_cons, IH. cbn [omap list_omap]. unfold counts, dep_index at 2.
  destruct (BootFindRec g d) as [j|]; cbn; [|lia]. destruct (g !! j) as [r'|]; cbn; [|lia]. destruct (ShouldInit r'); cbn [length]; lia.
Qed.

Lemma find_in_use d j : BootFindRec g d = Some j → ∃ r, g !! j = Some r ∧ r_InUse r = true.
Proof. unfold BootFindRec. destruct d; [|done]. rewrite first_idx_Some. intros [(r & Hr & [? _]%andb_true_iff) _]. by exists r. Qed.

Lemma wdeps_wanted r j : j ∈ wdeps g r → is_wanted g j.
Proof.
  unfold wdeps. rewrite list_elem_of_omap. intros (d & _ & Hd). unfold dep_index in Hd.
  destruct (BootFindRec g d) as [j'|] eqn:Hf; cbn in Hd; [|done]. destruct (find_in_use _ _ Hf) as (r' & Hr' & Hu). rewrite Hr' in Hd. cbn in Hd.
  destruct (ShouldInit r') eqn:Hs; [|done]. injection Hd as <-. exists r'. split; [done|]. unfold selected. by rewrite Hu, Hs.
Qed.

Lemma waits_for_needs b r : is_wanted g b → waits_for g b r = bool_decide (b ∈ wdeps g r).
Proof.
  intros (rb & Hb & Hs). apply andb_true_iff in Hs as [_ Hs]. apply eq_bool_prop_intro. rewrite bool_decide_spec. unfold waits_for, wdeps.
  rewrite list_elem_of_omap. split.
  - intros (d & Hd & Hf)%Is_true_true%existsb_exists. apply bool_decide_eq_true in Hf. exists d. split; [by apply list_elem_of_In|].
    unfold dep_index. rewrite Hf. cbn. rewrite Hb. cbn. by rewrite Hs.
  - intros (d & Hd & Hf). apply Is_true_true, existsb_exists. exists d. split; [by apply list_elem_of_In|]. apply bool_decide_eq_true.
    unfold dep_index in Hf. destruct (BootFindRec g d) as [j|]; cbn in Hf; [|done]. destruct (g !! j); cbn in Hf; [|done]. case_match; congruence.
Qed.

(** A record the scan may take. *)
Definition open_at (h : list BOOT_SUBSYSTEM_REC) (emitted : list bool) (deg : list Z) (k : nat) (r : BOOT_SUBSYSTEM_REC) : Prop :=
  h !! k = Some r ∧ emitted !! k = Some false ∧ deg !! k = Some 0 ∧ selected r = true.

Lemma pick_spec h : ∀ i emitted deg best bp, length emitted = length h → length deg = length h →
  (pick i h emitted deg best bp = best ∧ ∀ k r, open_at h emitted deg k r → bp ≤ Phase r) ∨
  ∃ k r, pick i h emitted deg best bp = Some (i + k)%nat ∧ open_at h emitted deg k r ∧ Phase r < bp ∧
    ∀ k' r', open_at h emitted deg k' r' → Phase r < Phase r' ∨ Phase r = Phase r' ∧ (k ≤ k')%nat.
Proof.
  induction h as [|r h IH]; intros i emitted deg best bp He Hd.
  { left. split; [done|]. intros k r [Hk _]. done. }
  destruct emitted as [|e emitted], deg as [|d deg]; try done. cbn [pick]. injection He as He. injection Hd as Hd.
  assert (∀ k r', open_at (r :: h) (e :: emitted) (d :: deg) (S k) r' ↔ open_at h emitted deg k r') as Hsucc by done.
  destruct (negb (selected r) || e || negb (d =? 0)) eqn:Hskip.
  - assert (∀ r', ¬ open_at (r :: h) (e :: emitted) (d :: deg) 0 r') as H0.
    { intros r' ([= <-] & [= ->] & [= ->] & Hs). rewrite Hs in Hskip. done. }
    destruct (IH (S i) emitted deg best bp He Hd) as [[-> Hall]|(k & r' & -> & Ho & Hlt & Hmin)]; [left|right].
    + split; [done|]. intros [|k] r' Ho; [by apply H0 in Ho|by eapply Hall].
    + exists (S k), r'. split; [f_equal; lia|]. split; [done|]. split; [done|].
      intros [|k'] r'' Ho'; [by apply H0 in Ho'|]. destruct (Hmin k' r'' Ho') as [?|[? ?]]; [by left|right; split; [done|lia]].
  - apply orb_false_iff in Hskip as [[Hs ->]%orb_false_iff Hz]. apply negb_false_iff in Hs, Hz. apply Z.eqb_eq in Hz as ->.
    assert (open_at (r :: h) (false :: emitted) (0 :: deg) 0 r) as H0 by done.
    assert (∀ r', open_at (r :: h) (false :: emitted) (0 :: deg) 0 r' → r' = r) as H0' by (intros r' ([= <-] & _); done).
    destruct (Z.ltb_spec (Phase r) bp) as [Hlt|Hge].
    + right. destruct (IH (S i) emitted deg (Some i) (Phase r) He Hd) as [[-> Hall]|(k & r' & -> & Ho & Hlt' & Hmin)].
      * exists 0%nat, r. split; [f_equal; lia|]. split; [done|]. split; [done|].
        intros [|k'] r' Ho'; [apply H0' in Ho' as ->; right; lia|]. specialize (Hall k' r' Ho'). lia.
      * exists (S k), r'. split; [f_equal; lia|]. split; [done|]. split; [lia|].
        intros [|k'] r'' Ho'; [apply H0' in Ho' as ->; by left|]. destruct (Hmin k' r'' Ho') as [?|[? ?]]; [by left|right; split; [done|lia]].
    + destruct (IH (S i) emitted deg best bp He Hd) as [[-> Hall]|(k & r' & -> & Ho & Hlt & Hmin)]; [left|right].
      * split; [done|]. intros [|k] r' Ho'; [by apply H0' in Ho' as ->|by eapply Hall].
      * exists (S k), r'. split; [f_equal; lia|]. split; [done|]. split; [done|].
        intros [|k'] r'' Ho'; [apply H0' in Ho' as ->; left; lia|]. destruct (Hmin k' r'' Ho') as [?|[? ?]]; [by left|right; split; [done|lia]].
Qed.

Lemma release_spec b h : ∀ emitted deg, length emitted = length h → length deg = length h →
  length (release g b h emitted deg) = length h ∧
  ∀ k r e d, h !! k = Some r → emitted !! k = Some e → deg !! k = Some d →
    release g b h emitted deg !! k = Some (if selected r && negb e && waits_for g b r then u32 (d - 1) else d).
Proof.
  induction h as [|r h IH]; intros [|e emitted] [|d deg] He Hd; try done. cbn [release]. injection He as He. injection Hd as Hd.
  destruct (IH emitted deg He Hd) as [Hl Hk]. split; [cbn [length]; by rewrite Hl|].
  intros [|k] r' e' d'; cbn [lookup list_lookup]; [by intros [= <-] [= <-] [= <-]|apply Hk].
Qed.

(** The state of the main loop after [order] has been emitted. *)
Record topo_inv (order : list nat) (emitted : list bool) (deg : list Z) : Prop := {
  ti_elen : length emitted = length g;
  ti_dlen : length deg = length g;
  ti_nodup : NoDup order;
  ti_wanted i : i ∈ order → is_wanted g i;
  ti_emitted i : (i < length g)%nat → emitted !! i = Some (bool_decide (i ∈ order));
  ti_deg i r : g !! i = Some r → selected r = true → i ∉ order →
    deg !! i = Some (Z.of_nat (length (filter (λ j, j ∉ order) (wdeps g r))));
  ti_ordered : ordered g order;
  ti_greedy : greedy g order
}.

Lemma filter_none (Q : nat → Prop) `{!∀ x, Decision (Q x)} l : (∀ x, x ∈ l → ¬ Q x) → filter Q l = [].
Proof.
  induction l as [|x l IH]; intros Hn; [done|]. rewrite filter_cons, decide_False by (apply Hn; left). apply IH. intros y Hy. apply Hn. by right.
Qed.

Lemma open_ready order emitted deg i r :
  topo_inv order emitted deg → open_at g emitted deg i r ↔ g !! i = Some r ∧ ready g order i.
Proof.
  intros [He Hd _ _ Hem Hdeg _ _]. unfold open_at, ready. split.
  - intros (Hi & Hf & Hz & Hs). pose proof (lookup_lt_Some _ _ _ Hi) as Hlt. rewrite (Hem i Hlt) in Hf. injection Hf as Hf. apply bool_decide_eq_false in Hf.
    rewrite (Hdeg i r Hi Hs Hf) in Hz. injection Hz as Hz. split; [done|]. split; [by exists r|]. split; [done|].
    intros j Hj. unfold needs in Hj. rewrite Hi in Hj. destruct (decide (j ∈ order)) as [|Hn]; [done|exfalso].
    assert (j ∈ filter (λ j, j ∉ order) (wdeps g r)) as Hin by (by apply list_elem_of_filter). destruct (filter _ _); [by apply elem_of_nil in Hin|cbn [length] in Hz; lia].
  - intros (Hi & (r' & Hi' & Hs) & Hn & Hall). assert (r' = r) as -> by congruence. pose proof (lookup_lt_Some _ _ _ Hi) as Hlt.
    split; [done|]. rewrite (Hem i Hlt). split; [by rewrite bool_decide_false|]. split; [|done]. rewrite (Hdeg i r Hi Hs Hn). do 2 f_equal.
    replace (filter _ _) with (@nil nat); [done|]. symmetry. apply filter_none. intros j Hj. intros Hno. apply Hno, Hall. unfold needs. by rewrite Hi.
Qed.

Lemma take_snoc_lookup (l : list nat) b k i : (l ++ [b]) !! k = Some i →
  (k < length l)%nat ∧ l !! k = Some i ∧ take k (l ++ [b]) = take k l ∨ k = length l ∧ i = b ∧ take k (l ++ [b]) = l.
Proof.
  intros Hk. destruct (decide (k < length l)%nat) as [Hlt|Hge].
  - left. rewrite lookup_app_l in Hk by done. rewrite take_app_le by lia. done.
  - right. pose proof (lookup_lt_Some _ _ _ Hk) as Hlt. rewrite length_app in Hlt. cbn [length] in Hlt. assert (k = length l) as -> by lia.
    rewrite lookup_app_r, Nat.sub_diag in Hk by done. injection Hk as <-. by rewrite take_app_length.
Qed.

Lemma filter_emit (order l : list nat) b : NoDup l → b ∉ order →
  Z.of_nat (length (filter (λ j, j ∉ order) l)) = Z.of_nat (length (filter (λ j, j ∉ order ++ [b]) l)) + (if bool_decide (b ∈ l) then 1 else 0).
Proof.
  intros Hnd Hb. induction Hnd as [|x l Hx Hnd IH]; [done|]. rewrite !filter_cons.
  destruct (decide (x = b)) as [->|Hne].
  - rewrite (decide_True (P := b ∉ order)) by done. rewrite decide_False by set_solver. rewrite bool_decide_true by left. rewrite bool_decide_false in IH by done.
    cbn [length]. lia.
  - replace (bool_decide (b ∈ x :: l)) with (bool_decide (b ∈ l)) by (apply bool_decide_ext; set_solver).
    destruct (decide (x ∉ order)) as [Hxo|Hxo]; [rewrite decide_True by set_solver; cbn [length]; lia|]. rewrite decide_False by set_solver. done.
Qed.

Lemma topo_step order emitted deg b r :
  topo_inv order emitted deg → g !! b = Some r → ready g order b → (∀ i', ready g order i' → before g b i') →
  topo_inv (order ++ [b]) (<[b := true]> emitted) (release g b g (<[b := true]> emitted) deg).
Proof.
  intros Hinv Hb (Hw & Hn & Hall) Hmin. pose proof Hinv as [He Hd Hnd Hwt Hem Hdeg Hord Hgr]. pose proof (lookup_lt_Some _ _ _ Hb) as Hlt.
  destruct (release_spec b g (<[b := true]> emitted) deg) as [Hrl Hrk]; [by rewrite length_insert|done|].
  assert (∀ i, (i < length g)%nat → <[b := true]> emitted !! i = Some (bool_decide (i ∈ order ++ [b]))) as Hem'.
  { intros i Hi. destruct (decide (i = b)) as [->|Hne].
    - rewrite list_lookup_insert_eq by lia. by rewrite bool_decide_true by set_solver.
    - rewrite list_lookup_insert_ne by done. rewrite (Hem i Hi). f_equal. apply bool_decide_ext. set_solver. }
  split; try done.
  - by rewrite length_insert.
  - apply NoDup_app. split; [done|]. split; [set_solver|apply NoDup_singleton].
  - intros i [Hi|Hi]%elem_of_app; [by apply Hwt|]. apply list_elem_of_singleton in Hi as ->. done.
  - intros i r' Hi Hs Hni. assert (i ∉ order) as Hni0 by set_solver. specialize (Hdeg i r' Hi Hs Hni0).
    rewrite (Hrk i r' _ _ Hi (Hem' i (lookup_lt_Some _ _ _ Hi)) Hdeg). rewrite bool_decide_false by done. rewrite Hs, (waits_for_needs _ _ Hw). cbn [andb negb].
    assert (r' ∈ g) as Hin by (by apply list_elem_of_lookup_2 in Hi). pose proof (filter_emit order (wdeps g r') b (rw_nodup _ Hwf _ Hin) Hn) as Hf.
    assert (length (wdeps g r') ≤ 8)%nat as Hw8.
    { pose proof (counts_length r') as Hc. pose proof (countb_bounds (counts g) (deps_of r')) as Hcb. revert Hcb. unfold deps_of at 3.
      rewrite length_take, (rw_deps _ Hwf _ Hin). lia. }
    pose proof (length_filter (λ j, j ∉ order) (wdeps g r')) as Hl8. case_bool_decide; [rewrite u32_small by lia|]; f_equal; lia.
  - intros k i Hk j Hj. destruct (take_snoc_lookup _ _ _ _ Hk) as [(_ & Hk' & ->)|(_ & -> & ->)]; [by eapply Hord|by apply Hall].
  - intros k i Hk i' Hr'. destruct (take_snoc_lookup _ _ _ _ Hk) as [(_ & Hk' & Ht)|(_ & -> & Ht)]; rewrite Ht in Hr'; [by eapply Hgr|by apply Hmin].
Qed.

Lemma emit_run k : ∀ order emitted deg, topo_inv order emitted deg →
  ∃ emitted' deg', topo_inv (emit g k emitted deg order) emitted' deg' ∧
    (length (emit g k emitted deg order) = (length order + k)%nat ∨
     (length (emit g k emitted deg order) < length order + k)%nat ∧ ∀ i, ¬ ready g (emit g k emitted deg order) i).
Proof.
  induction k as [|k IH]; intros order emitted deg Hinv; cbn [emit]; [exists emitted, deg; split; [done|left; lia]|].
  destruct (pick_spec g 0 emitted deg None 0xFFFFFFFF (ti_elen _ _ _ Hinv) (ti_dlen _ _ _ Hinv)) as [[-> Hall]|(b & r & -> & Ho & _ & Hmin)].
  - exists emitted, deg. split; [done|]. right. split; [lia|]. intros i Hi. destruct Hi as ((r & Hr & Hs) & Hi2). pose proof (rw_phase _ Hwf r (list_elem_of_lookup_2 _ _ _ Hr)).
    assert (open_at g emitted deg i r) as Ho by (apply (open_ready order); [done|]; split; [done|split; [by exists r|done]]). specialize (Hall i r Ho). lia.
  - rewrite Nat.add_0_l. apply (open_ready order) in Ho as [Hb Hready]; [|done].
    assert (∀ i', ready g order i' → before g b i') as Hbef.
    { intros i' Hr' r0 r' H0 H'. assert (r0 = r) as -> by congruence. apply (Hmin i' r'). by apply (open_ready order). }
    destruct (IH _ _ _ (topo_step order emitted deg b r Hinv Hb Hready Hbef)) as (em' & deg' & Hinv' & Hc). exists em', deg'. split; [done|].
    rewrite length_app in Hc. cbn [length] in Hc. destruct Hc as [Hc|[Hc Hnr]]; [left; lia|right; split; [lia|done]].
Qed.

End Topo.

Lemma wanted_count g : ∀ off (Q : nat → Prop) `{!∀ x, Decision (Q x)}, (∀ i r, g !! i = Some r → Q (off + i)%nat ↔ selected r = true) →
  Z.of_nat (length (filter Q (seq off (length g)))) = countb selected g.
Proof.
  induction g as [|r g IH]; intros off Q HQ Hq; [done|]. cbn [length seq]. rewrite filter_cons, countb_cons.
  assert (∀ i r', g !! i = Some r' → Q (S off + i)%nat ↔ selected r' = true) as Hq'
    by (intros i r' Hi; rewrite <- (Hq (S i) r' Hi); by replace (S off + i)%nat with (off + S i)%nat by lia).
  specialize (Hq 0%nat r eq_refl). rewrite Nat.add_0_r in Hq. rewrite <- (IH (S off) Q HQ Hq').
  case_decide as Hd; destruct (selected r); cbn [length]; first [lia|exfalso; naive_solver].
Qed.

Lemma wanted_length g : Z.of_nat (length (wanted g)) = countb selected g.
Proof. apply wanted_count. intros i r Hi. unfold is_wanted. rewrite Nat.add_0_l, Hi. naive_solver. Qed.

Lemma wanted_spec g i : i ∈ wanted g ↔ is_wanted g i.
Proof.
  unfold wanted. rewrite list_elem_of_filter, elem_of_seq. split; [by intros [? _]|]. intros Hw. split; [done|].
  destruct Hw as (r & Hr & _). apply lookup_lt_Some in Hr. lia.
Qed.

(** An order leaves no set of records that wait for each other. *)
Lemma ordered_not_blocked g order : (∀ i, is_wanted g i → i ∈ order) → ordered g order → ¬ blocked g.
Proof.
  intros Hall Hord (C & Hne & HC).
  assert (∀ k i, order !! k = Some i → i ∈ C → False) as Hno.
  { intros k. induction (lt_wf k) as [k _ IH]. intros i Hk Hi. destruct (HC i Hi) as (_ & j & Hj & Hn).
    specialize (Hord k i Hk j Hn). apply list_elem_of_lookup in Hord as (k' & Hk').
    assert (k' < k)%nat as Hlt by (apply lookup_lt_Some in Hk'; rewrite length_take in Hk'; lia).
    rewrite lookup_take_lt in Hk' by done. by eapply (IH k'). }
  destruct C as [|i C]; [done|]. destruct (HC i ltac:(left)) as [Hw _]. apply Hall, list_elem_of_lookup in Hw as (k & Hk). eapply Hno; [exact Hk|left].
Qed.


(** ** The boot *)

(** The flag occurs in the command line. *)
Definition has_flag {W} (flag : string) (s : BOOT W) : Prop :=
  ∃ pre post, cname (g_BootCmdLine s) 0 512 = pre ++ str flag ++ post.

Lemma BootArgsHas_spec {W} flag (s : BOOT W) : BootArgsHas (Some (str flag)) s = true ↔ has_flag flag s.
Proof.
  unfold BootArgsHas, has_flag. set (cmd := cname _ _ _). set (f := str flag). split.
  - destruct (length cmd <? length f)%nat; [done|]. intros (i & _ & Hi)%existsb_exists. apply bool_decide_eq_true in Hi.
    exists (take i cmd), (drop (length f) (drop i cmd)). rewrite <- Hi at 1. by rewrite !take_drop.
  - intros (pre & post & Hc). assert (length cmd = length pre + (length f + length post))%nat as Hl by (by rewrite Hc, !length_app).
    destruct (Nat.ltb_spec (length cmd) (length f)); [lia|]. apply existsb_exists. exists (length pre). split; [apply in_seq; lia|].
    apply bool_decide_eq_true. rewrite Hc, drop_app_length. apply take_app_length.
Qed.

(** The tables the boot builds, whatever the rest of the state. *)
Definition blank : BOOT unit := mkBoot [] false [] BootProfileNormal [] tt.
Definition register_row {W} (x : option (list Z) * option string * list (list Z) * Z * Z) : M (BOOT W) Z :=
  let '(nm, init, deps, count, phase) := x in BootRegisterSubsystemEx nm init deps count phase.
Definition boot_profiles : list BOOT_PROFILE_DEF := Eval vm_compute in match BootProfileInit blank with Ok (_, s) => g_Profiles s | _ => [] end.
Definition boot_records : list BOOT_SUBSYSTEM_REC := Eval vm_compute in
  match in_turn register_row boot_table (set_registry (replicate BOOT_MAX_SUBSYSTEMS zero_rec) blank) with Ok (_, s) => g_Registry s | _ => [] end.
Definition boot_registry (p : BOOT_PROFILE) : list BOOT_SUBSYSTEM_REC := default [] (marked boot_profiles p boot_records).

(** The routines a profile calls, in order. *)
Definition init_order (p : BOOT_PROFILE) : list string := omap (λ i, boot_registry p !! i ≫= Init) (BootTopoSort (boot_registry p)).2.

Definition allowed (p : BOOT_PROFILE) (nm : list Z) : bool := default false (profile_allows boot_profiles p nm).
Definition comes_before (l : list string) (a b : string) : bool :=
  match first_idx (λ x, bool_decide (x = a)) l, first_idx (λ x, bool_decide (x = b)) l with
  | Some i, Some j => (i <? j)%nat
  | _, _ => false
  end.

(** Every declared subsystem the profile allows is called once, after all the
    allowed ones it declares, those beyond its [DepCount] included. *)
Definition declared_first (p : BOOT_PROFILE) : bool :=
  let o := init_order p in
  bool_decide (NoDup o) &&
  forallb (λ x, let '(nm, init, deps, _, _) := x in
    match nm, init with
    | Some nm, Some f =>
        if allowed p nm then
          bool_decide (f ∈ o) &&
          forallb (λ d, forallb (λ y, let '(nm', init', _, _, _) := y in
            match init' with
            | Some f' => if bool_decide (nm' = Some d) && allowed p d then comes_before o f' f else true
            | None => true
            end) boot_table) deps
        else bool_decide (f ∉ o)
    | _, _ => true
    end) boot_table.

Definition all_profiles : list BOOT_PROFILE :=
  [BootProfileNormal; BootProfileLive; BootProfileInstall; BootProfileSafe; BootProfileRecovery; BootProfileTerminal; BootProfileDebug].

Lemma all_declared_first : forallb declared_first all_profiles = true.
Proof. vm_compute. reflexivity. Qed.

Lemma debug_order : init_order BootProfileDebug = [].
Proof. vm_compute. reflexivity. Qed.

Lemma install_order : init_order BootProfileInstall =
  ["MmInitSystemWrap"; "ExInitializePoolManager"; "ObInitSystem"; "IoInitSystem"; "IoInitNullDriver"; "UsbInitSystem";
   "AhciInitSystem"; "PartitionScan"; "FsInitSystem"; "InstInit"; "OsInstallInit"].
Proof. vm_compute. reflexivity. Qed.

Lemma sort_succeeds p : (BootTopoSort (boot_registry p)).1 = STATUS_SUCCESS.
Proof. destruct p; vm_compute; reflexivity. Qed.

Lemma order_inits p : Forall (λ i, is_Some (boot_registry p !! i ≫= Init)) (BootTopoSort (boot_registry p)).2 ∧ NoDup (BootTopoSort (boot_registry p)).2.
Proof.
  split; [|destruct p; apply (bool_decide_unpack _); vm_compute; exact I].
  apply Forall_forall. intros i Hi. assert (forallb (λ i, bool_decide (is_Some (boot_registry p !! i ≫= Init))) (BootTopoSort (boot_registry p)).2 = true) as Hb
    by (destruct p; vm_compute; reflexivity).
  rewrite forallb_forall in Hb. apply (bool_decide_eq_true_1 _), Hb. by apply list_elem_of_In.
Qed.

Section Sequence.
Context {W : Type} (call : string → W → Z * W).
Implicit Types (s : BOOT W).

Lemma profiles_run s : BootProfileInit s = Ok (STATUS_SUCCESS, set_profiles boot_profiles s).
Proof. destruct s. vm_compute. reflexivity. Qed.

Lemma records_run s :
  in_turn register_row boot_table (set_registry (replicate BOOT_MAX_SUBSYSTEMS zero_rec) s) = Ok (tt, set_registry boot_records s).
Proof. destruct s. vm_compute. reflexivity. Qed.

Lemma marked_run p : marked boot_profiles p boot_records = Some (boot_registry p).
Proof. destruct p; vm_compute; reflexivity. Qed.

(** The calls one after the other: their results and the last state. *)
Fixpoint run_calls (fs : list string) (w : W) : list Z * W :=
  match fs with
  | [] => ([], w)
  | f :: fs' => let '(st, w1) := call f w in let '(sts, w2) := run_calls fs' w1 in (st :: sts, w2)
  end.

Lemma run_order_run order : ∀ s g fs, Forall2 (λ i f, (g !! i ≫= Init) = Some f) order fs → NoDup order → g_Registry s = g →
  ∃ s', run_order call order s = Ok (tt, s') ∧ kernel s' = (run_calls fs (kernel s)).2 ∧
    (∀ i, i ∉ order → g_Registry s' !! i = g !! i) ∧
    ∀ k i st, order !! k = Some i → (run_calls fs (kernel s)).1 !! k = Some st →
      g_Registry s' !! i = with_initialized (NT_SUCCESS st) <$> g !! i.
Proof.
  induction order as [|i order IH]; intros s g fs HF Hnd Hg; inversion HF as [|? f ? fs' Hf HF']; subst.
  { exists s. split; [done|]. split; [done|]. split; [done|]. intros k i st Hk. done. }
  apply NoDup_cons in Hnd as [Hni Hnd]. destruct (g_Registry s !! i) as [r|] eqn:Hr; cbn in Hf; [|done].
  cbn [run_order run_calls]. rewrite (deref_bind (λ s, g_Registry s !! i) _ s r Hr), Hf. unfold mbind at 1, M_bind at 1. cbn [mget].
  destruct (call f (kernel s)) as [st w] eqn:Hc.
  set (s1 := set_registry (alter (with_initialized (NT_SUCCESS st)) i (g_Registry s)) (set_kernel w s)).
  destruct (IH s1 (g_Registry s1) fs') as (s' & Hrun & Hk & Hout & Hin); [|done|done|].
  { eapply Forall2_impl; [|intros j f' Hj; exact Hj]. clear -HF' Hni. induction HF' as [|j f' order fs' Hj HF' IH]; constructor.
    - cbn. rewrite list_lookup_alter_ne by set_solver. exact Hj.
    - apply IH. set_solver. }
  exists s'. split; [exact Hrun|]. change (kernel s1) with w in Hk, Hin. destruct (run_calls fs' w) as [sts w2]. split; [exact Hk|]. split.
  - intros j Hj. rewrite Hout by set_solver. cbn. by rewrite list_lookup_alter_ne by set_solver.
  - intros [|k] j st' Hk' Hst; cbn in Hk', Hst.
    + injection Hk' as <-. injection Hst as <-. rewrite Hout by done. cbn. by rewrite list_lookup_alter_eq.
    + rewrite (Hin k j st' Hk' Hst). cbn. rewrite list_lookup_alter_ne; [done|]. intros ->. apply Hni. by eapply list_elem_of_lookup_2.
Qed.

Lemma run_order_active order : ∀ s s', run_order call order s = Ok (tt, s') → g_ActiveProfile s' = g_ActiveProfile s.
Proof.
  induction order as [|i order IH]; intros s s'; cbn [run_order]; [by intros [= <-]|].
  intros (r & s1 & Hd & Hk)%bind_inv. unfold mderef in Hd. destruct (g_Registry s !! i); [|done]. injection Hd as <- <-.
  destruct (Init _); [|by apply IH]. unfold mbind at 1, M_bind at 1 in Hk. cbn [mget] in Hk. destruct (call _ _) as [st w]. by apply IH in Hk.
Qed.

(** The profile the flags of the command line ask for. *)
Definition chosen s (p : BOOT_PROFILE) : Prop :=
  has_flag "/install" s ∧ p = BootProfileInstall ∨
  ¬ has_flag "/install" s ∧
  (has_flag "/safemode" s ∧ p = BootProfileSafe ∨
   ¬ has_flag "/safemode" s ∧
   (has_flag "/recovery" s ∧ p = BootProfileRecovery ∨
    ¬ has_flag "/recovery" s ∧
    (has_flag "/terminal" s ∧ p = BootProfileTerminal ∨
     ¬ has_flag "/terminal" s ∧
     (has_flag "/debug" s ∧ p = BootProfileDebug ∨ ¬ has_flag "/debug" s ∧ p = BootProfileNormal)))).

Lemma resolve_run s : ∃ p, BootProfileResolve s = Ok (STATUS_SUCCESS, set_active p s) ∧ chosen s p.
Proof.
  unfold BootProfileResolve, BootArgsIsInstall, BootArgsIsSafeMode, BootArgsIsRecovery, BootArgsIsTerminal, BootArgsIsDebug.
  assert (∀ f, BootArgsHas (Some (str f)) s = false → ¬ has_flag f s) as Hno by (intros f Hf; rewrite <- BootArgsHas_spec; by rewrite Hf).
  unfold mbind at 1, M_bind at 1. cbn [mget]. unfold chosen.
  destruct (BootArgsHas (Some (str "/install")) s) eqn:E1; [apply BootArgsHas_spec in E1; eexists; split; [reflexivity|exact (or_introl (conj E1 eq_refl))]|apply Hno in E1].
  destruct (BootArgsHas (Some (str "/safemode")) s) eqn:E2; [apply BootArgsHas_spec in E2; eexists; split; [reflexivity|exact (or_intror (conj E1 (or_introl (conj E2 eq_refl))))]|apply Hno in E2].
  destruct (BootArgsHas (Some (str "/recovery")) s) eqn:E3; [apply BootArgsHas_spec in E3; eexists; split; [reflexivity|exact (or_intror (conj E1 (or_intror (conj E2 (or_introl (conj E3 eq_refl))))))]|apply Hno in E3].
  destruct (BootArgsHas (Some (str "/terminal")) s) eqn:E4; [apply BootArgsHas_spec in E4; eexists; split; [reflexivity|exact (or_intror (conj E1 (or_intror (conj E2 (or_intror (conj E3 (or_introl (conj E4 eq_refl))))))))]|apply Hno in E4].
  destruct (BootArgsHas (Some (str "/debug")) s) eqn:E5; [apply BootArgsHas_spec in E5; eexists; split; [reflexivity|exact (or_intror (conj E1 (or_intror (conj E2 (or_intror (conj E3 (or_intror (conj E4 (or_introl (conj E5 eq_refl))))))))))]|apply Hno in E5].
  eexists. split; [reflexivity|exact (or_intror (conj E1 (or_intror (conj E2 (or_intror (conj E3 (or_intror (conj E4 (or_intror (conj E5 eq_refl))))))))))].
Qed.


End Sequence.

(** ** The command line in the boot information *)

Lemma align8 x : 0 ≤ x < 4294967296 → Z.land x 0xFFFFFFF8 = x / 8 * 8.
Proof.
  intros Hx. change 0xFFFFFFF8 with (Z.shiftl (Z.ones 29) 3). change 8 with (2 ^ 3). rewrite <- Z.shiftr_div_pow2, <- Z.shiftl_mul_pow2 by lia.
  apply Z.bits_inj'. intros n Hn. rewrite Z.land_spec, !Z.shiftl_spec by lia.
  destruct (Z.lt_ge_cases n 3) as [Hlt|Hge]; [rewrite !(Z.testbit_neg_r _ (n - 3)) by lia; by rewrite andb_false_r|].
  rewrite Z.shiftr_spec by lia. replace (n - 3 + 3) with n by lia. rewrite Z.testbit_ones by lia.
  destruct (Z.lt_ge_cases n 32) as [H32|H32]; [replace (n - 3 <? 29) with true by lia; replace (0 <=? n - 3) with true by lia; by rewrite andb_true_r|].
  replace (Z.testbit x n) with false; [done|]. symmetry. destruct (Z.eq_dec x 0) as [->|Hne]; [apply Z.bits_0|].
  apply Z.bits_above_log2; [lia|]. apply Z.log2_lt_pow2; [lia|]. eapply Z.lt_le_trans; [apply Hx|]. change 4294967296 with (2 ^ 32). apply Z.pow_le_mono_r; lia.
Qed.

(** The first command-line tag from [ptr] on, and the string it holds. *)
Inductive cmdline_at (mem : list Z) (fin : Z) : Z → option (list Z) → Prop :=
| ca_out ptr : fin ≤ ptr → cmdline_at mem fin ptr None
| ca_stop ptr ty sz :
    ptr < fin → bytes_at ptr 4 mem = Some ty → bytes_at (ptr + 4) 4 mem = Some sz → le_val ty = 0 → le_val sz = 0 →
    cmdline_at mem fin ptr None
| ca_cmd ptr ty sz c :
    ptr < fin → bytes_at ptr 4 mem = Some ty → bytes_at (ptr + 4) 4 mem = Some sz → le_val ty = MB2_TAG_TYPE_CMDLINE →
    copy_cmdline mem (ptr + 8) = Some c → cmdline_at mem fin ptr (Some c)
| ca_skip ptr ty sz r :
    ptr < fin → bytes_at ptr 4 mem = Some ty → bytes_at (ptr + 4) 4 mem = Some sz → le_val ty ≠ MB2_TAG_TYPE_CMDLINE →
    0 < le_val sz < 4294967289 → cmdline_at mem fin (ptr + (le_val sz + 7) / 8 * 8) r → cmdline_at mem fin ptr r.

Definition parsed_state {W} (r : option (list Z)) (s : BOOT W) : BOOT W :=
  set_parsed true (match r with Some c => set_cmdline (splice 0 (c ++ [0]) (g_BootCmdLine s)) s | None => s end).
Definition parse_status (r : option (list Z)) : Z := match r with Some _ => STATUS_SUCCESS | None => STATUS_NOT_FOUND end.

Lemma tag_loop {W} mem fin ptr r (s : BOOT W) :
  cmdline_at mem fin ptr r → ∃ n, loops_to (tag_turn mem fin) n ptr s (parse_status r) (parsed_state r s) ∧ 0 < n ≤ Z.max 0 (fin - ptr) + 1.
Proof.
  induction 1 as [ptr Ho|ptr ty sz Hlt Ht Hs Hz1 Hz2|ptr ty sz c Hlt Ht Hs Hty Hc|ptr ty sz r Hlt Ht Hs Hty Hsz _ IH].
  - exists 1. split; [|lia]. constructor. unfold tag_turn. by replace (ptr <? fin) with false by lia.
  - exists 1. split; [|lia]. constructor. unfold tag_turn. replace (ptr <? fin) with true by lia.
    rewrite (deref_bind (λ _, bytes_at ptr 4 mem) _ _ _ Ht), (deref_bind (λ _, bytes_at (ptr + 4) 4 mem) _ _ _ Hs). by rewrite Hz1, Hz2.
  - exists 1. split; [|lia]. constructor. unfold tag_turn. replace (ptr <? fin) with true by lia.
    rewrite (deref_bind (λ _, bytes_at ptr 4 mem) _ _ _ Ht), (deref_bind (λ _, bytes_at (ptr + 4) 4 mem) _ _ _ Hs). rewrite Hty. cbn [andb Z.eqb Pos.eqb MB2_TAG_TYPE_CMDLINE].
    by rewrite (deref_bind (λ _, copy_cmdline mem (ptr + 8)) _ _ _ Hc).
  - destruct IH as (n & Hl & Hn). exists (n + 1). split; [|revert Hn; Z.div_mod_to_equations; lia]. eapply loops_step; [|exact Hl].
    unfold tag_turn. replace (ptr <? fin) with true by lia.
    rewrite (deref_bind (λ _, bytes_at ptr 4 mem) _ _ _ Ht), (deref_bind (λ _, bytes_at (ptr + 4) 4 mem) _ _ _ Hs).
    replace (le_val sz =? 0) with false by lia. rewrite andb_false_r. replace (le_val ty =? MB2_TAG_TYPE_CMDLINE) with false by lia.
    rewrite u32_small by lia. rewrite align8 by lia. done.
Qed.

(** The parser takes the string of the first command-line tag, at most 511
    characters of it, and skips the others. *)
Theorem BootArgsParse_spec {W} mem total r (s : BOOT W) :
  g_Parsed s = false → Forall byte mem → bytes_at 0 4 mem = Some total → cmdline_at mem (le_val total) 8 r →
  BootArgsParse (Some mem) s = Ok (parse_status r, parsed_state r s).
Proof.
  intros Hp Hb Ht Hc. destruct (tag_loop mem (le_val total) 8 r s Hc) as (n & Hl & Hn).
  assert (0 ≤ le_val total < 4294967296) as Htot.
  { unfold bytes_at in Ht. case_match eqn:Hin; [|done]. apply (inj Some) in Ht as <-. pose proof (sub_length (Z.to_nat 0) (Z.to_nat 4) mem ltac:(lia)) as Hsl.
    pose proof (le_val_bound (sub (Z.to_nat 0) (Z.to_nat 4) mem) ltac:(by apply sub_Forall)) as Hv. by rewrite Hsl in Hv. }
  unfold BootArgsParse. unfold mbind at 1, M_bind at 1. cbn [mgets]. rewrite Hp. rewrite (deref_bind (λ _, bytes_at 0 4 mem) _ _ _ Ht).
  eapply loop_ok; [exact Hl|lia].
Qed.

(** A tag of another type and of size 0 is never left. *)
Theorem bootargs_zero_tag_hangs {W} mem fin ptr ty sz (s : BOOT W) :
  ptr < fin → bytes_at ptr 4 mem = Some ty → bytes_at (ptr + 4) 4 mem = Some sz → le_val ty ≠ 0 → le_val ty ≠ MB2_TAG_TYPE_CMDLINE → le_val sz = 0 →
  ∀ n r s', ¬ loops_to (tag_turn mem fin) n ptr s r s'.
Proof.
  intros Hlt Ht Hs Hty Hty1 Hz. assert (∀ s0 : BOOT W, tag_turn mem fin ptr s0 = Ok (inl ptr, s0)) as Hturn.
  { intros s0. unfold tag_turn. replace (ptr <? fin) with true by lia.
    rewrite (deref_bind (λ _, bytes_at ptr 4 mem) _ _ _ Ht), (deref_bind (λ _, bytes_at (ptr + 4) 4 mem) _ _ _ Hs).
    replace (le_val ty =? 0) with false by lia. cbn [andb]. replace (le_val ty =? MB2_TAG_TYPE_CMDLINE) with false by lia.
    rewrite Hz. change (Z.land (u32 (0 + 7)) 0xFFFFFFF8) with 0. by rewrite Z.add_0_r. }
  intros n r s' Hl. remember ptr as q eqn:Hq in Hl. revert Hq. induction Hl as [x s0 b s1 Hx|n x s0 x' s1 b s2 Hx _ IH]; intros ->; rewrite Hturn in Hx; [done|].
  injection Hx as <- <-. by apply IH.
Qed.

(** ** Registries *)

Definition wfb (g : list BOOT_SUBSYSTEM_REC) : bool :=
  (length g =? BOOT_MAX_SUBSYSTEMS)%nat &&
  forallb (λ r, (0 <=? Phase r) && (Phase r <? 0xFFFFFFFF) && (length (Deps r) =? 8)%nat && bool_decide (NoDup (wdeps g r))) g.

Lemma wfb_wf g : wfb g = true → registry_wf g.
Proof.
  unfold wfb. rewrite andb_true_iff, forallb_forall, Nat.eqb_eq. intros [Hl Hall].
  split; [done|..]; intros r Hr%list_elem_of_In%Hall; rewrite !andb_true_iff in Hr; destruct Hr as [[[? ?] ?%Nat.eqb_eq] ?%bool_decide_eq_true]; [lia|done|done].
Qed.


(** A dependency declared twice is counted twice and released once: the sort
    reports a cycle where there is none. *)
Definition twice_registry : list BOOT_SUBSYSTEM_REC :=
  mkRec (copy_name 32 (str "A")) (Some "InitA") (replicate 8 None) 0 1 true false true ::
  mkRec (copy_name 32 (str "B")) (Some "InitB") ([Some (str "A"); Some (str "A")] ++ replicate 6 None) 2 1 true false true ::
  replicate 94 zero_rec.

Theorem dependency_twice_refused : (BootTopoSort twice_registry).1 = STATUS_UNSUCCESSFUL ∧ ¬ blocked twice_registry.
Proof.
  split; [vm_compute; reflexivity|]. apply (ordered_not_blocked twice_registry [0%nat; 1%nat]).
  - intros i Hi. assert (wanted twice_registry = [0%nat; 1%nat]) as <- by (vm_compute; reflexivity). by apply wanted_spec.
  - intros [|[|k]] i [= <-] j Hj.
    + vm_compute in Hj. by apply elem_of_nil in Hj.
    + assert (needs twice_registry 1 = [0%nat; 0%nat]) as He by (vm_compute; reflexivity). rewrite He in Hj. cbn. set_solver.
Qed.

(** The boot chain runs in safe mode although the window system it declares is
    excluded there. *)
Lemma safe_mode_boot_chain : "BootChainInit" ∈ init_order BootProfileSafe ∧ "WrapWin32kInit" ∉ init_order BootProfileSafe.
Proof. split; apply (bool_decide_unpack _); vm_compute; exact I. Qed.
