(* ===== verification/Dns.v ===== *)
(** * Dns: the name resolver and its cache (src/net/dns.c)

    A table of 128 entries, searched from its start.  An entry that matches the
    name asked for but has outlived its TTL is cleared on the way.  The
    theorems say which address a name resolves to, and that clearing expired
    entries is never observable in a later answer. *)

From Stdlib Require Ascii String.
Delimit Scope string_scope with string.
Import String.StringSyntax.
From S2P Require Import Prelude Irql Rtl.

#[local] Open Scope Z_scope.

Definition DNS_MAX_ENTRIES : nat := 128.
Definition DNS_MAX_NAME : nat := 128.
Definition DNS_CACHE_BUCKETS := 32.

Record DNS_ENTRY := mkDns {
  DName : list Z;
  Ttl : Z;
  InsertTime : Z;
  Ip : Z;
  DInUse : bool
}.

Record DNS_STATE := mkDnsState {
  g_Cache : list DNS_ENTRY;
  g_DnsRunning : bool;
  dns_clock : Clock.CLOCK_STATE
}.

Definition set_g_Cache (c : list DNS_ENTRY) (s : DNS_STATE) : DNS_STATE := mkDnsState c (g_DnsRunning s) (dns_clock s).
Definition set_running (b : bool) (s : DNS_STATE) : DNS_STATE := mkDnsState (g_Cache s) b (dns_clock s).

(** [RtlZeroMemory(&g_Cache[i], sizeof(DNS_ENTRY))]. *)
Definition zero_entry : DNS_ENTRY := mkDns (replicate DNS_MAX_NAME 0) 0 0 0 false.

(** [if (c >= 'A' && c <= 'Z') c += 32;] *)
Definition lower (c : Z) : Z := if (65 <=? c) && (c <=? 90) then c + 32 else c.

Fixpoint hash_from (h : Z) (Name : list Z) : Z :=
  match Name with
  | [] => h
  | c :: Name' => if c =? 0 then h else hash_from (u32 (u32 (h * 33) + u8 (lower c))) Name'
  end.
Definition DnsHash (Name : list Z) : Z := hash_from 5381 Name mod DNS_CACHE_BUCKETS.

Fixpoint DnsNameMatch (a b : list Z) : bool :=
  match a, b with
  | ca :: a', cb :: b' =>
      if truthy ca && truthy cb then
        if negb (lower ca =? lower cb) then false else DnsNameMatch a' b'
      else (ca =? 0) && (cb =? 0)
  | _, _ => (chr a 0 =? 0) && (chr b 0 =? 0)
  end.

(** The name as stored: at most 127 characters in a cleared array of 128. *)
Definition store_name (Name : list Z) : list Z :=
  cname Name 0 (DNS_MAX_NAME - 1) ++ replicate (DNS_MAX_NAME - length (cname Name 0 (DNS_MAX_NAME - 1))) 0.

Definition new_entry (Name : list Z) (ip ttl now : Z) : DNS_ENTRY := mkDns (store_name Name) ttl now ip true.

Definition DnsRegister (Name : option (list Z)) (ip ttl : Z) : M DNS_STATE Z :=
  running ← mgets g_DnsRunning;
  match Name with
  | Some Name =>
      if negb running then mret STATUS_INVALID_PARAMETER
      else
        cache ← mgets g_Cache;
        match first_idx (λ e, negb (DInUse e)) cache with
        | Some i =>
            now ← mgets (λ s, Clock.KeQuerySystemTime (dns_clock s));
            mmod (set_g_Cache (<[i := new_entry Name ip ttl now]> cache));;
            mret STATUS_SUCCESS
        | None => mret STATUS_NO_MEMORY
        end
  | None => mret STATUS_INVALID_PARAMETER
  end.

Definition matches (Name : list Z) (e : DNS_ENTRY) : bool := DInUse e && DnsNameMatch (DName e) Name.

Definition DnsRemove (Name : option (list Z)) : M DNS_STATE Z :=
  match Name with
  | None => mret STATUS_INVALID_PARAMETER
  | Some Name =>
      cache ← mgets g_Cache;
      match first_idx (matches Name) cache with
      | Some i => mmod (set_g_Cache (<[i := zero_entry]> cache));; mret STATUS_SUCCESS
      | None => mret STATUS_NOT_FOUND
      end
  end.

(** A string literal, with its terminator. *)
Definition text (t : String.string) : list Z :=
  List.map (λ c, Z.of_N (Ascii.N_of_ascii c)) (String.list_ascii_of_string t) ++ [0].

(** [(ULONG)((now.QuadPart - InsertTime.QuadPart) / 10000000)]. *)
Definition age_sec (now : Z) (e : DNS_ENTRY) : Z := u32 (Z.quot (s64 (now - InsertTime e)) 10000000).
Definition expired (now : Z) (e : DNS_ENTRY) : bool := Ttl e <=? age_sec now e.

(** The walk of DnsResolve over the cache: the cache it leaves and the address
    it stored, if any. *)
Fixpoint resolve_walk (Name : list Z) (now : Z) (cache : list DNS_ENTRY) : list DNS_ENTRY * option Z :=
  match cache with
  | [] => ([], None)
  | e :: rest =>
      if negb (DInUse e) then let '(rest', r) := resolve_walk Name now rest in (e :: rest', r)
      else if negb (DnsNameMatch (DName e) Name) then let '(rest', r) := resolve_walk Name now rest in (e :: rest', r)
      else if expired now e then let '(rest', r) := resolve_walk Name now rest in (zero_entry :: rest', r)
      else (e :: rest, Some (Ip e))
  end.

(** [OutIp] says whether the caller passed a place for the answer; the second
    component is what is stored there. *)
Definition DnsResolve (Name : option (list Z)) (OutIp : bool) : M DNS_STATE (Z * option Z) :=
  match Name, OutIp with
  | Some Name, true =>
      if DnsNameMatch Name (text "localhost"%string) then mret (STATUS_SUCCESS, Some 0x7F000001)
      else
        now ← mgets (λ s, Clock.KeQuerySystemTime (dns_clock s));
        w ← mgets (λ s, resolve_walk Name now (g_Cache s));
        mmod (set_g_Cache w.1);;
        match w.2 with
        | Some ip => mret (STATUS_SUCCESS, Some ip)
        | None => mret (STATUS_NOT_FOUND, None)
        end
  | _, _ => mret (STATUS_INVALID_PARAMETER, None)
  end.

Definition DnsCacheSize (s : DNS_STATE) : Z := countb DInUse (g_Cache s).

Definition DnsFlushCache : M DNS_STATE Z :=
  mmod (set_g_Cache (replicate DNS_MAX_ENTRIES zero_entry));; mret STATUS_SUCCESS.

Definition DnsShutdown : M DNS_STATE Z := mmod (set_running false);; mret STATUS_SUCCESS.

Definition DnsInit : M DNS_STATE Z :=
  mmod (set_g_Cache (replicate DNS_MAX_ENTRIES zero_entry));;
  mmod (set_running true);;
  DnsRegister (Some (text "localhost"%string)) 0x7F000001 3600;;
  DnsRegister (Some (text "minnt.local"%string)) 0xC0A80164 3600;;
  mret STATUS_SUCCESS.

(** ** Names *)

(** The characters of a C string, in lower case. *)
Definition fold_case (u : list Z) : list Z := lower <$> cstr u.

Lemma lower_0 c : lower c = 0 ↔ c = 0.
Proof. unfold lower. case_if; bool_hyps; lia. Qed.

Lemma fold_case_nil u : fold_case u = [] ↔ chr u 0 = 0.
Proof. rewrite <- cstr_nil. unfold fold_case. by destruct (cstr u). Qed.

Lemma fold_case_cons c u : c ≠ 0 → fold_case (c :: u) = lower c :: fold_case u.
Proof. intros Hc. unfold fold_case. by rewrite cstr_cons. Qed.

(** Names match exactly when they are the same but for case. *)
Lemma DnsNameMatch_spec a : ∀ b, DnsNameMatch a b = bool_decide (fold_case a = fold_case b).
Proof.
  assert (Hz : ∀ a b, fold_case a = [] ∨ fold_case b = [] →
    (chr a 0 =? 0) && (chr b 0 =? 0) = bool_decide (fold_case a = fold_case b)).
  { intros x y. apply ends_together; apply fold_case_nil. }
  induction a as [|ca a IH]; intros [|cb b]; cbn [DnsNameMatch]; [apply Hz; auto..|].
  unfold truthy. destruct (Z.eqb_spec ca 0) as [->|Ha].
  { apply (Hz (0 :: a) (cb :: b)). by left. }
  destruct (Z.eqb_spec cb 0) as [->|Hb].
  { cbn [negb andb]. rewrite <- (Hz (ca :: a) (0 :: b)); [|by right].
    change (chr (ca :: a) 0) with ca. by destruct (Z.eqb_spec ca 0). }
  cbn [negb andb]. rewrite !fold_case_cons by done. destruct (Z.eqb_spec (lower ca) (lower cb)) as [->|Hne]; simpl.
  - rewrite IH. apply bool_decide_ext. split; [by intros ->|by intros [=]].
  - symmetry. apply bool_decide_eq_false. by intros [=].
Qed.

(** A stored name is the caller's, cut at 127 characters. *)
Lemma fold_store Name : fold_case (store_name Name) = take 127 (fold_case Name).
Proof.
  unfold fold_case at 1, store_name. rewrite cstr_zeros by (intros c; apply cname_nonzero).
  rewrite cname_take, drop_0. unfold fold_case. by rewrite fmap_take.
Qed.

(** ** Answers *)

(** The entry is in use, carries the name and has not expired. *)
Definition answers (now : Z) (name : list Z) (e : DNS_ENTRY) : bool :=
  DInUse e && bool_decide (fold_case (DName e) = name) && negb (expired now e).

(** What the cache knows of a name at a time: the first entry that answers. *)
Definition answer (now : Z) (name : list Z) (cache : list DNS_ENTRY) : option Z :=
  i ← first_idx (answers now name) cache; Ip <$> cache !! i.

(** An entry cleared by the walk. *)
Definition stale (now : Z) (name : list Z) (e : DNS_ENTRY) : bool :=
  DInUse e && bool_decide (fold_case (DName e) = name) && expired now e.

Lemma answer_cons now name e cache :
  answer now name (e :: cache) = if answers now name e then Some (Ip e) else answer now name cache.
Proof.
  unfold answer. cbn [first_idx]. destruct (answers now name e); [done|].
  by destruct (first_idx (answers now name) cache).
Qed.

Lemma zero_answers now name : answers now name zero_entry = false.
Proof. done. Qed.

Lemma resolve_walk_answer Name now cache : (resolve_walk Name now cache).2 = answer now (fold_case Name) cache.
Proof.
  induction cache as [|e cache IH]; [done|]. rewrite answer_cons. cbn [resolve_walk].
  unfold answers. rewrite DnsNameMatch_spec.
  destruct (resolve_walk Name now cache) as [rest r]. simpl in IH. subst r.
  destruct (DInUse e); cbn [negb andb]; [|done].
  destruct (bool_decide _); cbn [negb andb]; [|done]. by destruct (expired now e).
Qed.

(** The walk clears stale entries of the name and changes nothing else; when it
    finds no answer, no entry of the name is left. *)
Definition swept (now : Z) (name : list Z) (e e' : DNS_ENTRY) : Prop :=
  e' = e ∨ stale now name e = true ∧ e' = zero_entry.

Lemma resolve_walk_swept Name now cache :
  Forall2 (swept now (fold_case Name)) cache (resolve_walk Name now cache).1.
Proof.
  assert (Hrefl : ∀ l, Forall2 (swept now (fold_case Name)) l l).
  { intros l. induction l; constructor; [by left|done]. }
  induction cache as [|e cache IH]; [constructor|]. cbn [resolve_walk]. rewrite DnsNameMatch_spec.
  destruct (resolve_walk Name now cache) as [rest r]. cbn [fst] in IH.
  destruct (DInUse e) eqn:Hu; cbn [negb]; [|constructor; [by left|done]].
  destruct (bool_decide _) eqn:Hm; cbn [negb]; [|constructor; [by left|done]].
  destruct (expired now e) eqn:He; cbn [fst]; [|apply (Hrefl (e :: cache))].
  constructor; [|done]. right. unfold stale. by rewrite Hu, Hm, He.
Qed.

Definition named_as (name : list Z) (e : DNS_ENTRY) : bool := DInUse e && bool_decide (fold_case (DName e) = name).

Lemma resolve_walk_cleared Name now cache :
  answer now (fold_case Name) cache = None → countb (named_as (fold_case Name)) (resolve_walk Name now cache).1 = 0.
Proof.
  induction cache as [|e cache IH]; [done|]. rewrite answer_cons. cbn [resolve_walk].
  unfold answers at 1. rewrite DnsNameMatch_spec.
  destruct (resolve_walk Name now cache) as [rest r]. cbn [fst] in IH.
  destruct (DInUse e) eqn:Hu; cbn [negb andb].
  2:{ intros H. cbn [fst]. rewrite countb_cons, (IH H). unfold named_as. by rewrite Hu. }
  destruct (bool_decide _) eqn:Hm; cbn [negb andb].
  2:{ intros H. cbn [fst]. rewrite countb_cons, (IH H). unfold named_as. by rewrite Hu, Hm. }
  destruct (expired now e); cbn [negb]; [|done]. intros H. cbn [fst]. by rewrite countb_cons, (IH H).
Qed.

(** ** Time *)

(** 2^32 seconds, past which the age of an entry no longer fits its 32 bits. *)
Definition age_limit := 42949672960000000.

Record dns_wf (s : DNS_STATE) : Prop := {
  dw_len : length (g_Cache s) = DNS_MAX_ENTRIES;
  dw_times e : e ∈ g_Cache s → DInUse e = true → 0 ≤ InsertTime e ≤ Clock.KeQuerySystemTime (dns_clock s);
  dw_now : 0 ≤ Clock.KeQuerySystemTime (dns_clock s) < age_limit
}.

Lemma age_exact now e : 0 ≤ InsertTime e ≤ now → now < age_limit → age_sec now e = (now - InsertTime e) / 10000000.
Proof.
  unfold age_sec, age_limit. intros H1 H2. rewrite s64_small by lia. rewrite Z.quot_div_nonneg by lia.
  apply u32_small. split; [apply Z.div_pos; lia|]. apply Z.div_lt_upper_bound; lia.
Qed.

(** An entry that has expired stays expired. *)
Lemma expired_later now now' e :
  0 ≤ InsertTime e ≤ now → now ≤ now' < age_limit → expired now e = true → expired now' e = true.
Proof.
  intros H1 H2. unfold expired. rewrite !age_exact by lia. rewrite !Z.leb_le. intros He.
  etrans; [exact He|]. apply Z.div_le_mono; lia.
Qed.

Lemma swept_answers now now' name name' e e' :
  (DInUse e = true → 0 ≤ InsertTime e ≤ now) → now ≤ now' < age_limit →
  swept now name e e' → answers now' name' e' = answers now' name' e ∧ (answers now' name' e = true → Ip e' = Ip e).
Proof.
  intros Ht Hn [->|[Hs ->]]; [done|]. rewrite zero_answers. unfold stale in Hs. bool_hyps.
  assert (Ha : answers now' name' e = false).
  { unfold answers. rewrite (expired_later now now' e); [by rewrite andb_false_r|auto..]. }
  rewrite Ha. done.
Qed.

Lemma swept_answer now now' name name' cache cache' :
  (∀ e, e ∈ cache → DInUse e = true → 0 ≤ InsertTime e ≤ now) → now ≤ now' < age_limit →
  Forall2 (swept now name) cache cache' → answer now' name' cache' = answer now' name' cache.
Proof.
  intros Ht Hn H. induction H as [|e e' cache cache' He H IH]; [done|]. rewrite !answer_cons.
  destruct (swept_answers now now' name name' e e') as [-> Hip]; [apply Ht; left|done..|].
  rewrite IH; [|intros e0 He0; apply Ht; by right]. destruct (answers now' name' e); [by rewrite Hip|done].
Qed.

Lemma dns_wf_insert s i e :
  dns_wf s → (DInUse e = true → InsertTime e = Clock.KeQuerySystemTime (dns_clock s)) →
  dns_wf (set_g_Cache (<[i := e]> (g_Cache s)) s).
Proof.
  intros [Hlen Ht Hnow] He. constructor; cbn [g_Cache set_g_Cache dns_clock]; [by rewrite length_insert|intros y Hy Hu|done].
  apply list_elem_of_lookup in Hy as [k Hk]. apply list_lookup_insert_Some in Hk as [(_ & <- & _)|[_ Hk]].
  - rewrite (He Hu). lia.
  - apply Ht; [by apply list_elem_of_lookup_2 in Hk|done].
Qed.

Lemma dns_wf_swept s name cache' :
  dns_wf s → Forall2 (swept (Clock.KeQuerySystemTime (dns_clock s)) name) (g_Cache s) cache' → dns_wf (set_g_Cache cache' s).
Proof.
  intros [Hlen Ht Hnow] Hs. constructor; cbn [g_Cache set_g_Cache dns_clock]; [|intros e He Hu|done].
  - rewrite <- Hlen. symmetry. by apply Forall2_length in Hs.
  - apply list_elem_of_lookup in He as [i He]. destruct (Forall2_lookup_r _ _ _ _ _ Hs He) as (e0 & He0 & [->|[_ ->]]); [|done].
    apply Ht; [|done]. by apply list_elem_of_lookup_2 in He0.
Qed.

(** ** The resolver *)

Definition localhost : list Z := fold_case (text "localhost"%string).

Lemma DnsResolve_run Name s :
  DnsResolve (Some Name) true s =
    if bool_decide (fold_case Name = localhost) then Ok ((STATUS_SUCCESS, Some 0x7F000001), s)
    else
      let now := Clock.KeQuerySystemTime (dns_clock s) in
      Ok (match answer now (fold_case Name) (g_Cache s) with
          | Some ip => (STATUS_SUCCESS, Some ip)
          | None => (STATUS_NOT_FOUND, None)
          end, set_g_Cache (resolve_walk Name now (g_Cache s)).1 s).
Proof.
  unfold DnsResolve. rewrite DnsNameMatch_spec. fold localhost. destruct (bool_decide _); [done|].
  unfold mbind, M_bind. cbn [mgets mmod]. rewrite resolve_walk_answer. by destruct (answer _ _ _).
Qed.

(** Resolving a name.  The loopback name is answered at once.  Any other
    name gets the address of the first entry of the table that carries it, in
    any case, and has not outlived its TTL; STATUS_NOT_FOUND is returned exactly
    when there is none, and then no entry of that name is left.  Only expired
    entries of that name are cleared, and clearing them is transparent: every
    name has at every later time the answer it would have had without the
    call. *)
Theorem dns_resolve_spec s Name :
  dns_wf s →
  let now := Clock.KeQuerySystemTime (dns_clock s) in
  let name := fold_case Name in
  (name = localhost → DnsResolve (Some Name) true s = Ok ((STATUS_SUCCESS, Some 0x7F000001), s)) ∧
  (name ≠ localhost → ∃ s',
     DnsResolve (Some Name) true s =
       Ok (match answer now name (g_Cache s) with
           | Some ip => (STATUS_SUCCESS, Some ip)
           | None => (STATUS_NOT_FOUND, None)
           end, s') ∧
     dns_wf s' ∧ g_DnsRunning s' = g_DnsRunning s ∧
     Forall2 (swept now name) (g_Cache s) (g_Cache s') ∧
     (answer now name (g_Cache s) = None → countb (named_as name) (g_Cache s') = 0) ∧
     (∀ name' now', now ≤ now' < age_limit → answer now' name' (g_Cache s') = answer now' name' (g_Cache s))).
Proof.
  intros Hwf now name. pose proof (dw_times s Hwf) as Ht. rewrite DnsResolve_run. fold name. split.
  { intros Hl. by rewrite bool_decide_true. }
  intros Hl. rewrite bool_decide_false by done. eexists. split; [reflexivity|].
  pose proof (resolve_walk_swept Name now (g_Cache s)) as Hs. split_and!; [|done|done|by apply resolve_walk_cleared|].
  - by apply (dns_wf_swept s name).
  - intros name' now' Hn'. by apply (swept_answer now now' name).
Qed.

(** ** Registering *)

(** Later: the clock has gone on. *)
Definition at_clock (c : Clock.CLOCK_STATE) (s : DNS_STATE) : DNS_STATE := mkDnsState (g_Cache s) (g_DnsRunning s) c.

Lemma answer_insert now name cache i e :
  (i < length cache)%nat → answers now name e = true →
  (∀ j y, (j < i)%nat → cache !! j = Some y → answers now name y = false) →
  answer now name (<[i := e]> cache) = Some (Ip e).
Proof.
  intros Hi He Hlow. unfold answer.
  assert (Hf : first_idx (answers now name) (<[i := e]> cache) = Some i).
  { apply first_idx_Some. split.
    - exists e. split; [by apply list_lookup_insert_eq|done].
    - intros j y Hj. rewrite list_lookup_insert_ne by lia. by apply Hlow. }
  rewrite Hf. simpl. by rewrite list_lookup_insert_eq.
Qed.

(** An entry that does not answer can be written over another without effect. *)
Lemma answer_insert_none now name cache i e x :
  cache !! i = Some x → answers now name x = false → answers now name e = false →
  answer now name (<[i := e]> cache) = answer now name cache.
Proof.
  revert i. induction cache as [|y cache IH]; intros i Hx Ha He; [done|]. destruct i as [|i].
  - injection Hx as ->. simpl. by rewrite !answer_cons, Ha, He.
  - simpl. rewrite !answer_cons. by rewrite IH.
Qed.

Lemma free_answers now name e : DInUse e = false → answers now name e = false.
Proof. unfold answers. by intros ->. Qed.

Lemma DnsRegister_run Name ip ttl s :
  g_DnsRunning s = true →
  DnsRegister (Some Name) ip ttl s =
    match first_idx (λ e, negb (DInUse e)) (g_Cache s) with
    | Some i => Ok (STATUS_SUCCESS,
        set_g_Cache (<[i := new_entry Name ip ttl (Clock.KeQuerySystemTime (dns_clock s))]> (g_Cache s)) s)
    | None => Ok (STATUS_NO_MEMORY, s)
    end.
Proof.
  intros Hr. unfold DnsRegister, mbind, M_bind. cbn [mgets]. rewrite Hr. cbn [negb mgets].
  by destruct (first_idx _ _).
Qed.

(** Registering a name and resolving it.  While the resolver runs, a name is
    put in the lowest free entry, or refused with STATUS_NO_MEMORY and no effect
    when all 128 are in use.  A name of at most 127 characters, other than the
    loopback name, that no earlier entry of the table answers resolves to the
    registered address, in whatever case it is asked for, exactly until its TTL
    has passed.  The answers to all other names stay what they were. *)
Theorem dns_register_resolve s Name Name' ip ttl i c :
  dns_wf s → g_DnsRunning s = true →
  first_idx (λ e, negb (DInUse e)) (g_Cache s) = Some i →
  (length (fold_case Name) ≤ 127)%nat → fold_case Name' = fold_case Name → fold_case Name ≠ localhost →
  let now := Clock.KeQuerySystemTime (dns_clock s) in
  let later := Clock.KeQuerySystemTime c in
  now ≤ later < age_limit →
  (∀ j y, (j < i)%nat → g_Cache s !! j = Some y → answers later (fold_case Name) y = false) →
  ∃ s', DnsRegister (Some Name) ip ttl s = Ok (STATUS_SUCCESS, s') ∧ dns_wf s' ∧
    DnsCacheSize s' = DnsCacheSize s + 1 ∧
    ((later - now) / 10000000 < ttl →
       ∃ s2, DnsResolve (Some Name') true (at_clock c s') = Ok ((STATUS_SUCCESS, Some ip), s2)) ∧
    (ttl ≤ (later - now) / 10000000 →
       answer later (fold_case Name) (g_Cache s') = answer later (fold_case Name) (g_Cache s)) ∧
    (∀ t other, other ≠ fold_case Name → answer t other (g_Cache s') = answer t other (g_Cache s)).
Proof.
  intros Hwf Hrun Hi Hshort Hsame Hloc now later Hlater Hlow.
  pose proof (proj1 (first_idx_Some _ _ _) Hi) as [(x & Hx & Hfree%negb_true_iff) _].
  pose proof (first_idx_lt _ _ _ Hi) as Hilt.
  set (e := new_entry Name ip ttl now). pose proof (dw_now s Hwf) as Hnow. fold now in Hnow.
  assert (Hname : fold_case (DName e) = fold_case Name) by (change (DName e) with (store_name Name); rewrite fold_store; by apply take_ge).
  assert (Hage : expired later e = (ttl <=? (later - now) / 10000000)).
  { unfold expired. rewrite age_exact by (cbn; lia). done. }
  rewrite DnsRegister_run, Hi by done. fold now e. eexists. split; [reflexivity|]. split_and!.
  - by apply dns_wf_insert.
  - unfold DnsCacheSize. cbn [g_Cache set_g_Cache]. rewrite (countb_insert _ _ _ x) by done. rewrite Hfree. cbn [DInUse e new_entry]. lia.
  - intros Httl. rewrite DnsResolve_run, Hsame, bool_decide_false by done. cbn [at_clock g_Cache set_g_Cache dns_clock].
    fold later. rewrite answer_insert; [eexists; reflexivity|done| |done].
    unfold answers. rewrite Hname, bool_decide_true, Hage by done. cbn [DInUse e new_entry andb]. apply negb_true_iff, Z.leb_gt. lia.
  - intros Httl. cbn [g_Cache set_g_Cache]. apply (answer_insert_none _ _ _ _ _ x); [done|by apply free_answers|].
    unfold answers. rewrite Hage, (proj2 (Z.leb_le _ _) Httl). apply andb_false_r.
  - intros t other Ho. cbn [g_Cache set_g_Cache]. apply (answer_insert_none _ _ _ _ _ x); [done|by apply free_answers|].
    unfold answers. rewrite Hname. by rewrite bool_decide_false.
Qed.

(** ** The table under any sequence of calls *)

Inductive dns_call :=
| CallRegister (Name : list Z) (ip ttl : Z)
| CallRemove (Name : list Z)
| CallResolve (Name : list Z)
| CallFlush
| CallShutdown.

Definition run_call (c : dns_call) : M DNS_STATE unit :=
  match c with
  | CallRegister n ip ttl => DnsRegister (Some n) ip ttl;; mret tt
  | CallRemove n => DnsRemove (Some n);; mret tt
  | CallResolve n => DnsResolve (Some n) true;; mret tt
  | CallFlush => DnsFlushCache;; mret tt
  | CallShutdown => DnsShutdown;; mret tt
  end.

(** Removing a name clears its first entry, expired or not. *)
Lemma DnsRemove_run Name s :
  DnsRemove (Some Name) s =
    match first_idx (named_as (fold_case Name)) (g_Cache s) with
    | Some i => Ok (STATUS_SUCCESS, set_g_Cache (<[i := zero_entry]> (g_Cache s)) s)
    | None => Ok (STATUS_NOT_FOUND, s)
    end.
Proof.
  unfold DnsRemove, mbind, M_bind. cbn [mgets].
  assert (Hf : ∀ l, first_idx (matches Name) l = first_idx (named_as (fold_case Name)) l).
  { intros l. induction l as [|e l IH]; [done|]. cbn [first_idx]. rewrite IH. unfold matches, named_as. by rewrite DnsNameMatch_spec. }
  rewrite Hf. by destruct (first_idx _ _).
Qed.

(** Every call returns and keeps the table well formed. *)
Lemma run_call_wf c s : dns_wf s → ∃ s', run_call c s = Ok (tt, s') ∧ dns_wf s' ∧ dns_clock s' = dns_clock s.
Proof.
  intros Hwf. destruct c as [n ip ttl|n|n| |]; cbn [run_call].
  - destruct (g_DnsRunning s) eqn:Hr.
    + unfold mbind at 1, M_bind at 1. rewrite DnsRegister_run by done. destruct (first_idx _ _); [|by exists s].
      eexists. split; [reflexivity|]. split; [|done]. by apply dns_wf_insert.
    + exists s. split; [|done]. unfold DnsRegister, mbind, M_bind. cbn [mgets]. by rewrite Hr.
  - unfold mbind at 1, M_bind at 1. rewrite DnsRemove_run. destruct (first_idx _ _); [|by exists s].
    eexists. split; [reflexivity|]. split; [|done]. by apply dns_wf_insert.
  - unfold mbind at 1, M_bind at 1. rewrite DnsResolve_run. destruct (bool_decide _); [by exists s|].
    cbv zeta. eexists. split; [reflexivity|]. split; [|done].
    pose proof (resolve_walk_swept n (Clock.KeQuerySystemTime (dns_clock s)) (g_Cache s)) as Hs.
    by apply (dns_wf_swept s (fold_case n)).
  - eexists. split; [reflexivity|]. split; [|done]. destruct Hwf. constructor; [done| |done].
    intros e He. apply list_elem_of_lookup in He as [k [-> _]%lookup_replicate]. done.
  - eexists. split; [reflexivity|]. split; [|done]. by destruct Hwf.
Qed.

(** A run of the resolver: calls, and the clock going on between them. *)
Inductive dns_run : DNS_STATE → DNS_STATE → Prop :=
| run_nil s : dns_run s s
| run_do c s s1 s' : run_call c s = Ok (tt, s1) → dns_run s1 s' → dns_run s s'
| run_wait c s s' :
    Clock.KeQuerySystemTime (dns_clock s) ≤ Clock.KeQuerySystemTime c < age_limit →
    dns_run (at_clock c s) s' → dns_run s s'.

(** A second registration of a name leaves the first in place: removing the
    name takes the first entry away, and the second answers. *)
Definition demo_dns : DNS_STATE := Eval vm_compute in
  match DnsInit (mkDnsState [] false (Clock.mkClock 7 0 None 0 0 [])) with Ok (_, s) => s | _ => mkDnsState [] false (Clock.mkClock 7 0 None 0 0 []) end.

Definition twice : Res (list (option Z)) :=
  match (DnsRegister (Some (text "host"%string)) 1 60;; DnsRegister (Some (text "HOST"%string)) 2 60;;
         a ← DnsResolve (Some (text "host"%string)) true; DnsRemove (Some (text "host"%string));;
         b ← DnsResolve (Some (text "host"%string)) true; mret [a.2; b.2]) demo_dns with
  | Ok (r, _) => Ok r | _ => Undef
  end.

Lemma dns_duplicate_names : twice = Ok [Some 1; Some 2].
Proof. vm_compute. reflexivity. Qed.

(** Every state a run reaches is well formed, and no call of it fails to
    return. *)
Lemma dns_run_wf s s' : dns_wf s → dns_run s s' →
  dns_wf s' ∧ 0 ≤ DnsCacheSize s' ≤ 128 ∧ ∀ c, ∃ s2, run_call c s' = Ok (tt, s2).
Proof.
  intros Hwf H. induction H as [s|c s s1 s' Hc H IH|c s s' Ht H IH].
  - split; [done|]. split; [|intros c; destruct (run_call_wf c s Hwf) as (s2 & ? & _); by exists s2].
    unfold DnsCacheSize. pose proof (countb_bounds DInUse (g_Cache s)) as Hb. rewrite (dw_len s Hwf) in Hb. done.
  - destruct (run_call_wf c s Hwf) as (s2 & Hc2 & Hwf2 & _). rewrite Hc in Hc2. injection Hc2 as <-. by apply IH.
  - apply IH. destruct Hwf as [Hl Hts Hn]. constructor; cbn [at_clock g_Cache dns_clock]; [done| |lia].
    intros e He Hu. specialize (Hts e He Hu). lia.
Qed.

Lemma demo_dns_wf : dns_wf demo_dns.
Proof.
  constructor; [done| |done]. intros e He Hu.
  assert (Hall : List.forallb (λ e, (0 <=? InsertTime e) && (InsertTime e <=? 70000)) (g_Cache demo_dns) = true) by (vm_compute; reflexivity).
  rewrite List.forallb_forall in Hall. apply list_elem_of_In, Hall in He. bool_hyps.
  change (Clock.KeQuerySystemTime (dns_clock demo_dns)) with 70000. lia.
Qed.

Lemma dns_resolve_spec_witness :
  ∃ s', DnsResolve (Some (text "MinNT.Local"%string)) true demo_dns = Ok ((STATUS_SUCCESS, Some 0xC0A80164), s') ∧ dns_wf s'.
Proof.
  destruct (dns_resolve_spec demo_dns (text "MinNT.Local"%string) demo_dns_wf) as [_ H].
  destruct H as (s' & Hr & Hwf & _); [discriminate|]. exists s'. split; [|exact Hwf]. exact Hr.
Defined.

Lemma dns_register_resolve_witness :
  ∃ s' s2, DnsRegister (Some (text "Host"%string)) 5 60 demo_dns = Ok (STATUS_SUCCESS, s') ∧
    DnsResolve (Some (text "hOST"%string)) true (at_clock (Clock.mkClock 59000 0 None 0 0 []) s') = Ok ((STATUS_SUCCESS, Some 5), s2).
Proof.
  destruct (dns_register_resolve demo_dns (text "Host"%string) (text "hOST"%string) 5 60 2 (Clock.mkClock 59000 0 None 0 0 [])) as (s' & Hr & _ & _ & Hres & _).
  - exact demo_dns_wf.
  - reflexivity.
  - vm_compute; reflexivity.
  - apply Nat.leb_le. vm_compute; reflexivity.
  - vm_compute; reflexivity.
  - discriminate.
  - split; [apply Z.leb_le|apply Z.ltb_lt]; vm_compute; reflexivity.
  - intros [|[|j]] y Hj Hy; [apply (inj Some) in Hy as <-; vm_compute; reflexivity..|lia].
  - destruct Hres as (s2 & Hs2); [apply Z.ltb_lt; vm_compute; reflexivity|]. exists s', s2. split; [exact Hr|exact Hs2].
Defined.
