(* ===== verification/Scm.v ===== *)
(** * Scm: the service control manager (src/se/scm.c)

    The table of services, their states, the threads that host them and their
    keys in the registry.  The state joins the registry and the process manager
    on one pool: [reg_view] is the registry on the pool of the object manager.
    A stall of the processor runs no other thread (the clock interrupt only
    counts), so a service thread runs between the calls, never inside them. *)

From Stdlib Require Ascii String.
Delimit Scope string_scope with string.
Import String.StringSyntax.
From S2P Require Import Prelude Irql Rtl MmPfn Pool Disk Ob Dispatch Ps Cm.

#[local] Open Scope Z_scope.

Definition MAX_SERVICES : nat := 64.
Definition MAX_SERVICE_NAME : nat := 64.
Definition MAX_DISPLAY_NAME : nat := 128.

Definition SERVICE_BOOT_START := 0.
Definition SERVICE_SYSTEM_START := 1.
Definition SERVICE_AUTO_START := 2.
Definition SERVICE_DEMAND_START := 3.
Definition SERVICE_DISABLED := 4.

Definition SERVICE_STOPPED := 1.
Definition SERVICE_START_PENDING := 2.
Definition SERVICE_STOP_PENDING := 3.
Definition SERVICE_RUNNING := 4.

Definition STATUS_BUFFER_TOO_SMALL := 0xC0000023.

Record SCM_SERVICE := mkSvc {
  SName : list Z;
  DisplayName : list Z;
  ServiceType : Z;
  StartType : Z;
  CurrentState : Z;
  ProcessId : Z;
  SThread : Z;
  SContext : Z;
  SRoutine : Z;
  SInUse : bool
}.

Record SCM_STATE := mkScm {
  g_Services : list SCM_SERVICE;
  g_ScmLock : Z;
  g_ScmInitialized : bool;
  scm_reg : CM_STATE unit;            (* the registry, without its pool *)
  scm_ps : PS_STATE
}.

Definition set_g_Services (v : list SCM_SERVICE) (s : SCM_STATE) : SCM_STATE :=
  mkScm v (g_ScmLock s) (g_ScmInitialized s) (scm_reg s) (scm_ps s).
Definition set_g_ScmLock (v : Z) (s : SCM_STATE) : SCM_STATE :=
  mkScm (g_Services s) v (g_ScmInitialized s) (scm_reg s) (scm_ps s).
Definition set_initialized (v : bool) (s : SCM_STATE) : SCM_STATE :=
  mkScm (g_Services s) (g_ScmLock s) v (scm_reg s) (scm_ps s).
Definition set_scm_reg (v : CM_STATE unit) (s : SCM_STATE) : SCM_STATE :=
  mkScm (g_Services s) (g_ScmLock s) (g_ScmInitialized s) v (scm_ps s).
Definition set_scm_ps (v : PS_STATE) (s : SCM_STATE) : SCM_STATE :=
  mkScm (g_Services s) (g_ScmLock s) (g_ScmInitialized s) (scm_reg s) v.

Definition ps_pool (p : PS_STATE) : POOL_STATE := ob_pool (ps_ob p).
Definition set_ps_pool (q : POOL_STATE) (p : PS_STATE) : PS_STATE := set_ps_ob (set_ob_pool q (ps_ob p)) p.

(** The registry on the pool it shares with the object manager. *)
Definition reg_view (s : SCM_STATE) : CM_STATE POOL_STATE :=
  mkCm (CmRootKey (scm_reg s)) (CmNodes (scm_reg s)) (Buffers (scm_reg s)) (CmLock_ (scm_reg s)) (ps_pool (scm_ps s)).
Definition reg_put (c : CM_STATE POOL_STATE) (s : SCM_STATE) : SCM_STATE :=
  set_scm_reg (mkCm (CmRootKey c) (CmNodes c) (Buffers c) (CmLock_ c) tt) (set_scm_ps (set_ps_pool (cm_pool c) (scm_ps s)) s).
Definition reg {A} (m : M (CM_STATE POOL_STATE) A) : M SCM_STATE A := zoom reg_view reg_put m.
Definition ps {A} (m : M PS_STATE A) : M SCM_STATE A := zoom scm_ps set_scm_ps m.

#[global] Instance SCM_HasPcr : HasPcr SCM_STATE.
Proof.
  refine {| pcr := λ s, pcr (ps_pool (scm_ps s)); set_pcr := λ k s, set_scm_ps (set_ps_pool (set_pcr k (ps_pool (scm_ps s))) (scm_ps s)) s |}.
  - done.
  - done.
  - by intros [? ? ? ? [[[[]]]]].
Defined.
Definition ScmLock : SpinLock SCM_STATE.
Proof. refine (mkSpinLock g_ScmLock set_g_ScmLock _ _ _ _ _ _); [done..|by intros []|done]. Defined.

Definition zero_service : SCM_SERVICE :=
  mkSvc (replicate MAX_SERVICE_NAME 0) (replicate MAX_DISPLAY_NAME 0) 0 0 0 0 0 0 0 false.

Definition with_state (st : Z) (v : SCM_SERVICE) : SCM_SERVICE :=
  mkSvc (SName v) (DisplayName v) (ServiceType v) (StartType v) st (ProcessId v) (SThread v) (SContext v) (SRoutine v) (SInUse v).
Definition with_thread (t : Z) (v : SCM_SERVICE) : SCM_SERVICE :=
  mkSvc (SName v) (DisplayName v) (ServiceType v) (StartType v) (CurrentState v) (ProcessId v) t (SContext v) (SRoutine v) (SInUse v).

(** Access through [svc = &g_Services[i]]. *)
Definition get_svc (i : nat) : M SCM_STATE SCM_SERVICE := mderef (λ s, g_Services s !! i).
Definition upd_svc (i : nat) (f : SCM_SERVICE → SCM_SERVICE) : M SCM_STATE unit :=
  mmod (λ s, set_g_Services (alter f i (g_Services s)) s).

Definition text (t : String.string) : list Z :=
  List.map (λ c, Z.of_N (Ascii.N_of_ascii c)) (String.list_ascii_of_string t).

(** An array of [n] cleared elements that starts with [l]. *)
Definition padded (n : nat) (l : list Z) : list Z := l ++ replicate (n - length l) 0.

Definition ScmInitSystem : M SCM_STATE Z :=
  mmod (set_g_Services (replicate MAX_SERVICES zero_service));;
  KeInitializeSpinLock ScmLock;;
  mmod (set_initialized true);;
  mret STATUS_SUCCESS.

Definition key_prefix : list Z := text "\Registry\Machine\System\CurrentControlSet\Services\"%string.

(** [(prefixLen + nameLen) * 2 > 1024] is refused; a name that fills the buffer
    leaves no room for the terminator, which is then written past its end. *)
Definition OpenServiceKey (Name : list Z) : M SCM_STATE (Z * option PKEY) :=
  let path := key_prefix ++ (u8 <$> cstr Name) in
  if 1024 <? Z.of_nat (length path) * 2 then mret (STATUS_BUFFER_TOO_SMALL, None)
  else if Z.of_nat (length path) =? 512 then mundef
  else reg (CmCreateKey path).

Section Scm.
(** Where the three name arrays of WriteServiceToRegistry are on its stack;
    their scopes are disjoint, so the addresses may coincide. *)
Context (nb_display nb_type nb_start : Z).
(** The address of the table, of the thread routine, and of the code the
    process manager stores. *)
Context (services_base thread_routine : Z) (code : CODE).
(** The call of a service's routine with its context. *)
Context (run_service : Z → Z → M SCM_STATE unit).

Definition sizeof_SCM_SERVICE := 376.
Definition svc_addr (i : nat) : Z := services_base + sizeof_SCM_SERVICE * Z.of_nat i.

(** One block of WriteServiceToRegistry: the name copied to its array, the
    value set. *)
Definition set_named (key : option PKEY) (buf : Z) (name : list Z) (ty : Z) (data : list Z) : M SCM_STATE Z :=
  reg (mmod (λ c, set_Buffers (<[buf := name]> (Buffers c)) c);;
       CmSetValue key (Some (Z.of_nat (length name), buf)) ty data).

(** The arrays are gone when the function returns. *)
Definition leave_frame : M SCM_STATE unit :=
  reg (mmod (λ c, set_Buffers (delete nb_display (delete nb_type (delete nb_start (Buffers c)))) c)).

Definition WriteServiceToRegistry (i : nat) : M SCM_STATE Z :=
  svc ← get_svc i;
  '(st, key) ← OpenServiceKey (SName svc);
  if negb (NT_SUCCESS st) then mret st
  else
    st ← set_named key nb_display (text "DisplayName"%string) 1 (DisplayName svc ≫= le_bytes 2);
    if negb (NT_SUCCESS st) then leave_frame;; mret st
    else
      st ← set_named key nb_type (text "Type"%string) 4 (le_bytes 4 (ServiceType svc));
      if negb (NT_SUCCESS st) then leave_frame;; mret st
      else
        st ← set_named key nb_start (text "Start"%string) 4 (le_bytes 4 (StartType svc));
        leave_frame;;
        if negb (NT_SUCCESS st) then mret st else mret STATUS_SUCCESS.

Definition new_service (Name : list Z) (Display : option (list Z)) (ty start routine ctx : Z) : SCM_SERVICE :=
  mkSvc (padded MAX_SERVICE_NAME (cstr Name))
    (padded MAX_DISPLAY_NAME match Display with
                             | Some d => cname d 0 (MAX_DISPLAY_NAME - 1)
                             | None => u8 <$> cstr Name
                             end)
    ty start SERVICE_STOPPED 0 0 ctx routine true.

Definition ScmRegisterService (Name : option (list Z)) (Display : option (list Z)) (ty start routine ctx : Z) :
    M SCM_STATE Z :=
  match Name with
  | Some Name =>
      if routine =? 0 then mret STATUS_INVALID_PARAMETER
      else if (MAX_SERVICE_NAME <=? RtlStringLength Name)%nat then mret STATUS_INVALID_PARAMETER
      else
        irql ← KeAcquireSpinLock ScmLock;
        slot ← mgets (λ s, first_idx (λ v, negb (SInUse v)) (g_Services s));
        match slot with
        | None => KeReleaseSpinLock ScmLock irql;; mret STATUS_INSUFFICIENT_RESOURCES
        | Some i =>
            upd_svc i (λ _, new_service Name Display ty start routine ctx);;
            KeReleaseSpinLock ScmLock irql;;
            WriteServiceToRegistry i;;
            mret STATUS_SUCCESS
        end
  | None => mret STATUS_INVALID_PARAMETER
  end.

(** The thread that hosts a service. *)
Definition ScmServiceThread (i : nat) : M SCM_STATE unit :=
  upd_svc i (with_state SERVICE_START_PENDING);;
  svc ← get_svc i;
  run_service (SRoutine svc) (SContext svc);;
  upd_svc i (with_state SERVICE_STOPPED).

(** [while (Name[j] && svc.Name[j] == Name[j] && svc.Name[j]) j++;] and the test
    that both strings end there. *)
Fixpoint svc_match (u a : list Z) : bool :=
  match u, a with
  | c :: u', d :: a' =>
      if truthy c && (d =? c) && truthy d then svc_match u' a' else (c =? 0) && (d =? 0)
  | _, _ => (chr u 0 =? 0) && (chr a 0 =? 0)
  end.
Definition find_service (Name : list Z) (l : list SCM_SERVICE) : option nat :=
  first_idx (λ v, SInUse v && svc_match Name (SName v)) l.

(** A busy wait of 1000 microseconds changes nothing here. *)
Definition stall : M SCM_STATE unit := mret tt.

(** [while (ticks++ < limit) { if (svc->CurrentState == target) break; stall; }] *)
Definition wait_turn (i : nat) (target limit ticks : Z) : M SCM_STATE (Z + unit) :=
  if ticks <? limit then
    svc ← get_svc i;
    if CurrentState svc =? target then mret (inr tt) else stall;; mret (inl (ticks + 1))
  else mret (inr tt).

Definition ScmStartService (Name : list Z) : M SCM_STATE Z :=
  irql ← KeAcquireSpinLock ScmLock;
  found ← mgets (λ s, find_service Name (g_Services s));
  match found with
  | None => KeReleaseSpinLock ScmLock irql;; mret STATUS_INVALID_HANDLE
  | Some i =>
      svc ← get_svc i;
      if negb (CurrentState svc =? SERVICE_STOPPED) then
        KeReleaseSpinLock ScmLock irql;; mret STATUS_INVALID_DEVICE_REQUEST
      else
        upd_svc i (with_state SERVICE_START_PENDING);;
        KeReleaseSpinLock ScmLock irql;;
        proc ← mgets (λ s, PsInitialSystemProcess (scm_ps s));
        '(st, t) ← ps (PsCreateSystemThread code proc thread_routine (svc_addr i));
        if negb (NT_SUCCESS st) then
          upd_svc i (with_state SERVICE_STOPPED);; mret st
        else
          upd_svc i (with_thread t);;
          loop (wait_turn i SERVICE_RUNNING 100) 0;;
          svc ← get_svc i;
          mwhen (CurrentState svc =? SERVICE_START_PENDING) (upd_svc i (with_state SERVICE_RUNNING));;
          mret STATUS_SUCCESS
  end.

Definition ScmStopService (Name : list Z) : M SCM_STATE Z :=
  irql ← KeAcquireSpinLock ScmLock;
  found ← mgets (λ s, find_service Name (g_Services s));
  match found with
  | None => KeReleaseSpinLock ScmLock irql;; mret STATUS_INVALID_HANDLE
  | Some i =>
      svc ← get_svc i;
      if CurrentState svc =? SERVICE_STOPPED then
        KeReleaseSpinLock ScmLock irql;; mret STATUS_SUCCESS
      else
        upd_svc i (with_state SERVICE_STOP_PENDING);;
        KeReleaseSpinLock ScmLock irql;;
        loop (wait_turn i SERVICE_STOPPED 1000) 0;;
        svc ← get_svc i;
        mwhen (negb (CurrentState svc =? SERVICE_STOPPED)) (upd_svc i (with_state SERVICE_STOPPED));;
        mret STATUS_SUCCESS
  end.

Definition should_start (v : SCM_SERVICE) : bool :=
  SInUse v && (StartType v =? SERVICE_AUTO_START) && (CurrentState v =? SERVICE_STOPPED).

Fixpoint auto_from (l : list nat) (overall : Z) : M SCM_STATE Z :=
  match l with
  | [] => mret overall
  | i :: l' =>
      irql ← KeAcquireSpinLock ScmLock;
      svc ← get_svc i;
      KeReleaseSpinLock ScmLock irql;;
      if should_start svc then
        st ← ScmStartService (SName svc);
        auto_from l' (if NT_SUCCESS st then overall else st)
      else auto_from l' overall
  end.
Definition ScmAutoStart : M SCM_STATE Z := auto_from (seq 0 MAX_SERVICES) STATUS_SUCCESS.

(** What ScmEnumServices stores at index [n] of its arrays. *)
Definition enum_entry (v : SCM_SERVICE) : list Z * Z * Z :=
  (cname (SName v) 0 (MAX_SERVICE_NAME - 1), ServiceType v, CurrentState v).
Definition ScmEnumServices (MaxCount : Z) : M SCM_STATE (list (list Z * Z * Z)) :=
  irql ← KeAcquireSpinLock ScmLock;
  r ← mgets (λ s, enum_entry <$> take (Z.to_nat MaxCount) (List.filter SInUse (g_Services s)));
  KeReleaseSpinLock ScmLock irql;;
  mret r.

(** The status, and what is stored through [pState]. *)
Definition ScmQueryServiceStatus (s : SCM_STATE) (Name : option (list Z)) (pState : bool) : Z * option Z :=
  match Name, pState with
  | Some Name, true =>
      match find_service Name (g_Services s) ≫= (λ i, g_Services s !! i) with
      | Some v => (STATUS_SUCCESS, Some (CurrentState v))
      | None => (STATUS_INVALID_HANDLE, Some SERVICE_STOPPED)
      end
  | _, _ => (STATUS_INVALID_PARAMETER, None)
  end.

(** Every place the caller gave is written; the tuple is (type, state, start
    type, routine, context). *)
Definition ScmGetServiceInfo (s : SCM_STATE) (Name : option (list Z)) : Z * option (Z * Z * Z * Z * Z) :=
  match Name with
  | None => (STATUS_INVALID_PARAMETER, None)
  | Some Name =>
      match find_service Name (g_Services s) ≫= (λ i, g_Services s !! i) with
      | Some v => (STATUS_SUCCESS, Some (ServiceType v, CurrentState v, StartType v, SRoutine v, SContext v))
      | None => (STATUS_INVALID_HANDLE, None)
      end
  end.
End Scm.

(** ** Names *)

(** A service is found by its exact name. *)
Lemma svc_match_spec u : ∀ a, svc_match u a = bool_decide (cstr u = cstr a).
Proof.
  assert (Hz : ∀ u a, cstr u = [] ∨ cstr a = [] → (chr u 0 =? 0) && (chr a 0 =? 0) = bool_decide (cstr u = cstr a)).
  { intros x y. apply ends_together; apply cstr_nil. }
  induction u as [|c u IH]; intros [|d a]; cbn [svc_match]; [apply Hz; auto..|].
  unfold truthy. destruct (Z.eqb_spec c 0) as [->|Hc]; cbn [negb andb].
  { apply (Hz (0 :: u) (d :: a)). by left. }
  destruct (Z.eqb_spec d 0) as [->|Hd]; cbn [negb andb].
  { rewrite andb_false_r. symmetry. apply (bool_decide_eq_false_2 (cstr (c :: u) = [])). by rewrite cstr_cons. }
  rewrite !cstr_cons by done. rewrite andb_true_r. destruct (Z.eqb_spec d c) as [->|Hne].
  - rewrite IH. apply bool_decide_ext. split; [by intros ->|by intros [=]].
  - symmetry. apply bool_decide_eq_false. by intros [= E].
Qed.

Definition named_svc (name : list Z) (v : SCM_SERVICE) : bool := SInUse v && bool_decide (name = cstr (SName v)).

Lemma find_service_spec Name l : find_service Name l = first_idx (named_svc (cstr Name)) l.
Proof.
  unfold find_service. induction l as [|v l IH]; [done|]. cbn [first_idx]. rewrite IH. unfold named_svc. by rewrite svc_match_spec.
Qed.

Lemma cstr_padded n l : (∀ c, c ∈ l → c ≠ 0) → cstr (padded n l) = l.
Proof. apply cstr_zeros. Qed.
Lemma padded_length n l : (length l ≤ n)%nat → length (padded n l) = n.
Proof. intros Hl. unfold padded. rewrite length_app, length_replicate. lia. Qed.

(** ** The invariant

    The registry's nodes are in the blocks [m]; the rest of the pool is the
    object manager's, whose own blocks are disjoint from them. *)

Record scm_wf (s : SCM_STATE) (m : gmap Z Z) (ext : Z → Z) : Prop := {
  sw_len : length (g_Services s) = MAX_SERVICES;
  sw_lock : g_ScmLock s = 0;
  sw_ps : ps_wf m (scm_ps s) ext;
  sw_proc : is_Some (Processes (scm_ps s) !! PsInitialSystemProcess (scm_ps s));
  sw_cmlock : CmLock_ (scm_reg s) = 0;
  sw_live a n : CmNodes (scm_reg s) !! a = Some n → m !! a = Some TAG_KEY;
  sw_child k n c : key_of (reg_view s) k = Some n → c ∈ Children n → is_Some (CmNodes (scm_reg s) !! c)
}.

Lemma scm_can_lock s m ext : scm_wf s m ext → can_lock (pcr s).
Proof. intros H. apply (pw_pcr _ _ _ (sw_ps _ _ _ H)). Qed.

(** What only goes through the registry leaves of the rest. *)
Record same_scm (s s' : SCM_STATE) : Prop := {
  ss_svc : g_Services s' = g_Services s;
  ss_init : g_ScmInitialized s' = g_ScmInitialized s;
  ss_ps : scm_ps s' = set_ps_pool (ps_pool (scm_ps s')) (scm_ps s)
}.
#[global] Instance same_scm_refl : Reflexive same_scm.
Proof. intros s. constructor; [done..|]. by destruct s as [? ? ? ? [[]]]. Qed.
#[global] Instance same_scm_trans : Transitive same_scm.
Proof.
  intros s1 s2 s3 [A1 B1 C1] [A2 B2 C2]. constructor; [congruence..|]. rewrite C2, C1. done.
Qed.
Lemma reg_put_same c s : same_scm s (reg_put c s).
Proof. done. Qed.
Lemma reg_view_put c s : reg_view (reg_put c s) = c.
Proof. by destruct c. Qed.

(** The registry's half of the state is well formed for the registry, and
    whatever the registry does to it is well formed for the rest. *)
Lemma scm_open s m ext : scm_wf s m ext →
  ∃ mo, cm_inv (H0 := shared mo) (reg_view s) m ∧
    ∀ c m', cm_inv (H0 := shared mo) c m' → CmLock_ c = 0 → scm_wf (reg_put c s) m' ext.
Proof.
  intros [Hlen Hlk [Hob Hsch Hpl Hpcr Hty Hbod Heth] Hproc Hcl Hlive Hch].
  pose proof Hob as [[Hcore (mo & [Hd Hp] & Hh & Ht & Hx) Hol] Hpos]. exists mo. split.
  - constructor; [|done|done|done]. split; [done|]. by rewrite map_union_comm.
  - intros c m' [[Hd' Hp'] Hpc' Hlive' Hch'] Hcl'. constructor; [done|done| |done|done| |].
    + constructor; [|done|done|done|done|done|done].
      split; [constructor; [done| |done]|done]. exists mo. split_and!; [|done..].
      split; [done|]. by rewrite map_union_comm.
    + exact Hlive'.
    + rewrite reg_view_put. exact Hch'.
Qed.

(** ** Values of a key *)

Definition values_of (c : CM_STATE POOL_STATE) (k : PKEY) : option (list CM_KEY_VALUE) := Values <$> key_of c k.
Definition shape (n : CM_KEY_NODE) : list Z * list Z := (KName n, Children n).

(** Paths depend on the names and the children of the keys alone. *)
Lemma cm_path_shape (c c' : CM_STATE POOL_STATE) :
  (∀ k, shape <$> key_of c' k = shape <$> key_of c k) → ∀ segs k, cm_path c' k segs = cm_path c k segs.
Proof.
  intros Hs segs. induction segs as [|x segs IH]; intros k; [done|]. cbn [cm_path].
  assert (Hn : ∀ a, Cm.named c' x a = Cm.named c x a).
  { intros a. unfold Cm.named. specialize (Hs (PoolKey a)). simpl in Hs.
    destruct (CmNodes c' !! a), (CmNodes c !! a); simpl in Hs; try done. injection Hs as -> _. done. }
  assert (Hc : cm_child c' k x = cm_child c k x).
  { unfold cm_child. specialize (Hs k). destruct (key_of c' k) as [n'|], (key_of c k) as [n|]; simpl in Hs; try done.
    injection Hs as _ ->. unfold find_pure. f_equal.
    assert (Hf : first_idx (Cm.named c' x) (Children n) = first_idx (Cm.named c x) (Children n)).
    { induction (Children n) as [|a l IHl]; [done|]. cbn [first_idx]. by rewrite Hn, IHl. }
    by rewrite Hf. }
  rewrite Hc. destruct (cm_child c k x); [apply IH|done].
Qed.

Section Writes.
Context (s0 : SCM_STATE) (m0 : gmap Z Z) (ext : Z → Z).

(** A step of WriteServiceToRegistry on the key [k]: the rest of the machine is
    as in [s0], the paths are those of [c0], the values of the other keys too. *)
Record writing (c0 : CM_STATE POOL_STATE) (k : PKEY) (vs : list CM_KEY_VALUE) (s : SCM_STATE) (m : gmap Z Z) : Prop := {
  wr_wf : scm_wf s m ext;
  wr_same : same_scm s0 s;
  wr_shape k' : shape <$> key_of (reg_view s) k' = shape <$> key_of c0 k';
  wr_here : values_of (reg_view s) k = Some vs;
  wr_other k' : k' ≠ k → values_of (reg_view s) k' = values_of c0 k'
}.

Lemma set_named_run c0 k vs s m buf name ty data :
  writing c0 k vs s m → 0 < Z.of_nat (length data) < 18446744073709551616 →
  ∃ st s' m', set_named (Some k) buf name ty data s = Ok (st, s') ∧
    ((st = STATUS_NO_MEMORY ∧ writing c0 k vs s' m') ∨
     (st = STATUS_SUCCESS ∧
      writing c0 k (vs ++ [mkValue (Z.of_nat (length name)) buf ty (Z.of_nat (length data)) data]) s' m')).
Proof.
  intros [Hwf Hsame Hsh Hhere Hoth] Hd. destruct (scm_open s m ext Hwf) as (mo & Hi & Hback).
  set (c1 := set_Buffers (<[buf := name]> (Buffers (reg_view s))) (reg_view s)).
  assert (Hi1 : cm_inv (H0 := shared mo) c1 m) by (destruct Hi; by constructor).
  assert (Hk1 : ∀ k', key_of c1 k' = key_of (reg_view s) k') by (by intros []).
  unfold values_of in Hhere. destruct (key_of (reg_view s) k) as [n|] eqn:Hk; [|done]. injection Hhere as Hvs.
  destruct (set_value_run (H0 := shared mo) c1 m k n (Z.of_nat (length name)) buf ty data Hi1 (sw_cmlock _ _ _ Hwf))
    as (st & c' & m' & Hr & Hi' & Hl' & _ & _ & Hcase); [by rewrite Hk1|done|].
  exists st, (reg_put c' s), m'. split.
  { unfold set_named, reg. apply zoom_ok. rewrite (bind_ok _ _ _ tt c1) by done. exact Hr. }
  assert (Hw' : scm_wf (reg_put c' s) m' ext) by by apply Hback.
  assert (Hs' : same_scm s0 (reg_put c' s)) by (etrans; [exact Hsame|apply reg_put_same]).
  destruct Hcase as [[-> Ht]|(-> & Ht & _)]; [left|right]; (split; [done|]).
  - assert (Hkk : ∀ k', key_of c' k' = key_of (reg_view s) k') by (intros k'; by rewrite (same_tree_key c1 c' k' Ht), Hk1).
    constructor; [done|done|..]; rewrite reg_view_put; unfold values_of.
    + intros k'. by rewrite Hkk.
    + by rewrite Hkk, Hk, <- Hvs.
    + intros k' Hne. rewrite Hkk. by apply Hoth.
  - set (v := mkValue _ _ _ _ _) in *.
    assert (Hke : key_of c' k = Some (add_value n v)).
    { rewrite (same_tree_key _ _ k Ht). apply key_of_with_eq. exists n. by rewrite Hk1. }
    assert (Hkn : ∀ k', k' ≠ k → key_of c' k' = key_of (reg_view s) k').
    { intros k' Hne. rewrite (same_tree_key _ _ k' Ht), key_of_with_ne by done. apply Hk1. }
    constructor; [done|done|..]; rewrite reg_view_put; unfold values_of.
    + intros k'. destruct (decide (k' = k)) as [->|Hne]; [|by rewrite Hkn].
      rewrite <- Hsh, Hke, Hk. done.
    + by rewrite Hke, <- Hvs.
    + intros k' Hne. rewrite Hkn by done. by apply Hoth.
Qed.

(** Leaving the function: the name arrays are dead, nothing else changes. *)
Lemma leave_frame_run nb1 nb2 nb3 c0 k vs s m :
  writing c0 k vs s m → ∃ s', leave_frame nb1 nb2 nb3 s = Ok (tt, s') ∧ writing c0 k vs s' m ∧
    Buffers (reg_view s') = delete nb1 (delete nb2 (delete nb3 (Buffers (reg_view s)))).
Proof.
  intros [Hwf Hsame Hsh Hhere Hoth]. destruct (scm_open s m ext Hwf) as (mo & Hi & Hback). eexists. split; [reflexivity|].
  split; [|done]. constructor; try done.
  - apply Hback; [|by destruct Hwf]. destruct Hi. by constructor.
  - etrans; [exact Hsame|apply reg_put_same].
Qed.
End Writes.

(** The path of a service's key, and the values stored in it. *)
Definition svc_path (name : list Z) : list Z := key_prefix ++ (u8 <$> name).
Definition svc_values (nb1 nb2 nb3 : Z) (v : SCM_SERVICE) : list CM_KEY_VALUE :=
  [mkValue 11 nb1 1 256 (DisplayName v ≫= le_bytes 2); mkValue 4 nb2 4 4 (le_bytes 4 (ServiceType v));
   mkValue 5 nb3 4 4 (le_bytes 4 (StartType v))].

(** The registry has every key of before, at the same paths and with the same
    values, apart from the values of the key [k]. *)
Record reg_grows (c c' : CM_STATE POOL_STATE) (k : PKEY) : Prop := {
  rg_path k0 segs r : cm_path c k0 segs = Some r → cm_path c' k0 segs = Some r;
  rg_values k' vs : k' ≠ k → values_of c k' = Some vs → values_of c' k' = Some vs
}.

(** The routine is the same whoever else owns blocks of the pool. *)
Lemma create_key_shared mo path c : CmCreateKey (H0 := shared mo) path c = CmCreateKey path c.
Proof. reflexivity. Qed.

Lemma open_key_run s m ext name :
  scm_wf s m ext → (length (cstr name) ≤ 63)%nat →
  ∃ st r s' m', OpenServiceKey name s = Ok ((st, r), s') ∧ scm_wf s' m' ext ∧ same_scm s s' ∧
    (∀ k, reg_grows (reg_view s) (reg_view s') k) ∧
    match r with
    | None => st = STATUS_NO_MEMORY
    | Some k => st = STATUS_SUCCESS ∧ cm_path (reg_view s') RootKey (path_segments (svc_path (cstr name))) = Some k ∧
        values_of (reg_view s') k = Some (default [] (values_of (reg_view s) k))
    end.
Proof.
  intros Hwf Hlen. destruct (scm_open s m ext Hwf) as (mo & Hi & Hback). unfold OpenServiceKey. fold (svc_path (cstr name)). cbv zeta.
  assert (Hpl : (length (svc_path (cstr name)) ≤ 115)%nat).
  { unfold svc_path. rewrite length_app, length_fmap. change (length key_prefix) with 52%nat. lia. }
  replace (1024 <? _) with false by lia. replace (_ =? 512) with false by lia.
  destruct (CmCreateKey_spec (H0 := shared mo) (reg_view s) m (svc_path (cstr name)) Hi (sw_cmlock _ _ _ Hwf))
    as (st & r & c' & m' & Hr & Hi' & Hl' & _ & Hext & Hpath & Hcase); [lia|].
  exists st, r, (reg_put c' s), m'. rewrite create_key_shared in Hr. split; [unfold reg; apply zoom_ok; exact Hr|]. split; [by apply Hback|].
  split; [done|]. rewrite reg_view_put. split.
  - intros k. constructor; [exact Hpath|]. intros k' vs _. unfold values_of. destruct (key_of (reg_view s) k') as [n|] eqn:Hk; [|done].
    intros [= <-]. destruct (ce_old _ _ Hext k' n Hk) as (n' & l & -> & _ & Hv & _). simpl. by rewrite Hv.
  - destruct r as [k|]; [|by destruct Hcase]. destruct Hcase as (-> & Hp & [n Hn] & _). split; [done|]. split; [done|].
    unfold values_of. rewrite Hn. destruct (key_of (reg_view s) k) as [n0|] eqn:Hk.
    + destruct (ce_old _ _ Hext k n0 Hk) as (n' & l & Hn' & _ & Hv & _). rewrite Hn in Hn'. injection Hn' as <-. simpl. by rewrite Hv.
    + simpl. f_equal. by apply (ce_new _ _ Hext k).
Qed.

Section Persist.
Context (nb1 nb2 nb3 : Z).

(** What WriteServiceToRegistry leaves when it succeeds. *)
Record persisted (s s' : SCM_STATE) (v : SCM_SERVICE) : Prop := {
  pe_key : ∃ k, cm_path (reg_view s') RootKey (path_segments (svc_path (cstr (SName v)))) = Some k ∧
    values_of (reg_view s') k = Some (default [] (values_of (reg_view s) k) ++ svc_values nb1 nb2 nb3 v) ∧
    reg_grows (reg_view s) (reg_view s') k;
  pe_dead : Buffers (reg_view s') !! nb1 = None ∧ Buffers (reg_view s') !! nb2 = None ∧ Buffers (reg_view s') !! nb3 = None
}.

Lemma values_data v : length (DisplayName v) = MAX_DISPLAY_NAME → Z.of_nat (length (DisplayName v ≫= le_bytes 2)) = 256.
Proof.
  intros Hl. assert (H : ∀ l : list Z, length (l ≫= le_bytes 2) = (2 * length l)%nat).
  { intros l. induction l as [|c l IH]; [done|]. rewrite bind_cons, length_app, IH, le_bytes_length. simpl. lia. }
  rewrite H, Hl. done.
Qed.

Lemma reg_grows_writing s0 ext c c0 k vs s m :
  reg_grows c c0 k → writing s0 ext c0 k vs s m → reg_grows c (reg_view s) k.
Proof.
  intros [Hp Hv] [_ _ Hsh _ Ho]. constructor.
  - intros k0 segs r Hr. rewrite (cm_path_shape c0 (reg_view s) Hsh). by apply Hp.
  - intros k' vs' Hne Hv'. rewrite Ho by done. by apply Hv.
Qed.

Lemma write_service_run s m ext i v :
  scm_wf s m ext → g_Services s !! i = Some v → length (DisplayName v) = MAX_DISPLAY_NAME → (length (cstr (SName v)) ≤ 63)%nat →
  ∃ st s' m', WriteServiceToRegistry nb1 nb2 nb3 i s = Ok (st, s') ∧ scm_wf s' m' ext ∧ same_scm s s' ∧
    (st = STATUS_NO_MEMORY ∨ (st = STATUS_SUCCESS ∧ persisted s s' v)).
Proof.
  intros Hwf Hi Hdl Hnl. unfold WriteServiceToRegistry, get_svc. erewrite deref_bind by exact Hi.
  destruct (open_key_run s m ext (SName v) Hwf Hnl) as (st & r & s1 & m1 & Hr1 & Hwf1 & Hs1 & Hg1 & Hcase).
  rewrite (bind_ok _ _ _ _ _ Hr1). cbv beta iota.
  destruct r as [k|]; [|subst st; exists STATUS_NO_MEMORY, s1, m1; split; [done|]; split; [done|]; split; [done|by left]].
  destruct Hcase as (-> & Hpath & Hvals). change (NT_SUCCESS STATUS_SUCCESS) with true. cbn [negb].
  set (c0 := reg_view s1) in *. set (vs := default [] (values_of (reg_view s) k)) in *.
  assert (Hw1 : writing s ext c0 k vs s1 m1) by (by constructor).
  assert (Hfail : ∀ vs' s2 m2, writing s ext c0 k vs' s2 m2 →
    ∃ st s' m', (leave_frame nb1 nb2 nb3;; mret STATUS_NO_MEMORY) s2 = Ok (st, s') ∧ scm_wf s' m' ext ∧ same_scm s s' ∧
      (st = STATUS_NO_MEMORY ∨ (st = STATUS_SUCCESS ∧ persisted s s' v))).
  { intros vs' s2 m2 Hw. destruct (leave_frame_run s ext nb1 nb2 nb3 c0 k vs' s2 m2 Hw) as (s3 & Hr & [Hx Hy _ _ _] & _).
    exists STATUS_NO_MEMORY, s3, m2. rewrite (bind_ok _ _ _ _ _ Hr). split; [done|]. split; [done|]. split; [done|by left]. }
  pose proof (values_data v Hdl) as Hdata.
  destruct (set_named_run s ext c0 k vs s1 m1 nb1 (text "DisplayName"%string) 1 (DisplayName v ≫= le_bytes 2) Hw1)
    as (st2 & s2 & m2 & Hr2 & Hc2); [lia|].
  rewrite (bind_ok _ _ _ _ _ Hr2). destruct Hc2 as [[-> Hw2]|[-> Hw2]]; [by eapply Hfail|].
  change (NT_SUCCESS STATUS_SUCCESS) with true. cbn [negb].
  destruct (set_named_run s ext c0 k _ s2 m2 nb2 (text "Type"%string) 4 (le_bytes 4 (ServiceType v)) Hw2)
    as (st3 & s3 & m3 & Hr3 & Hc3); [rewrite le_bytes_length; lia|].
  rewrite (bind_ok _ _ _ _ _ Hr3). destruct Hc3 as [[-> Hw3]|[-> Hw3]]; [by eapply Hfail|].
  change (NT_SUCCESS STATUS_SUCCESS) with true. cbn [negb].
  destruct (set_named_run s ext c0 k _ s3 m3 nb3 (text "Start"%string) 4 (le_bytes 4 (StartType v)) Hw3)
    as (st4 & s4 & m4 & Hr4 & Hc4); [rewrite le_bytes_length; lia|].
  rewrite (bind_ok _ _ _ _ _ Hr4). destruct Hc4 as [[-> Hw4]|[-> Hw4]].
  { destruct (leave_frame_run s ext nb1 nb2 nb3 c0 k _ s4 m4 Hw4) as (s5 & Hr5 & [Hx Hy _ _ _] & _).
    exists STATUS_NO_MEMORY, s5, m4. rewrite (bind_ok _ _ _ _ _ Hr5). split; [done|]. split; [done|]. split; [done|by left]. }
  destruct (leave_frame_run s ext nb1 nb2 nb3 c0 k _ s4 m4 Hw4) as (s5 & Hr5 & Hw5 & Hb5).
  exists STATUS_SUCCESS, s5, m4. rewrite (bind_ok _ _ _ _ _ Hr5). split; [done|].
  split; [apply (wr_wf _ _ _ _ _ _ _ Hw5)|]. split; [apply (wr_same _ _ _ _ _ _ _ Hw5)|]. right. split; [done|]. constructor.
  - exists k. split_and!.
    + rewrite (cm_path_shape c0 (reg_view s5)) by apply (wr_shape _ _ _ _ _ _ _ Hw5). exact Hpath.
    + rewrite (wr_here _ _ _ _ _ _ _ Hw5). unfold svc_values. rewrite Hdata, !le_bytes_length, <- !app_assoc. reflexivity.
    + by eapply reg_grows_writing.
  - rewrite Hb5. split_and!; rewrite !lookup_delete_None; tauto.
Qed.
End Persist.

(** ** Registering a service *)

Lemma framed_svc f : framed ScmLock (λ s, set_g_Services (f (g_Services s)) s).
Proof. by constructor. Qed.

Lemma scm_wf_svc s m ext l : scm_wf s m ext → length l = MAX_SERVICES → scm_wf (set_g_Services l s) m ext.
Proof. intros [] Hl. by constructor. Qed.

Lemma new_service_wf Name Display ty start routine ctx :
  (RtlStringLength Name < MAX_SERVICE_NAME)%nat →
  let v := new_service Name Display ty start routine ctx in
  cstr (SName v) = cstr Name ∧ length (DisplayName v) = MAX_DISPLAY_NAME.
Proof.
  intros Hn. cbv zeta. unfold new_service. cbn [SName DisplayName]. pose proof (cstr_length Name) as Hc. split.
  - apply cstr_padded. intros c. apply cstr_nonzero.
  - apply padded_length. destruct Display as [d|].
    + rewrite cname_take, length_take. lia.
    + rewrite length_fmap. unfold MAX_SERVICE_NAME, MAX_DISPLAY_NAME in *. lia.
Qed.

Section Services.
Context (nb1 nb2 nb3 services_base thread_routine : Z) (code : CODE).
#[local] Abbreviation Register := (ScmRegisterService nb1 nb2 nb3).
#[local] Abbreviation Start := (ScmStartService services_base thread_routine code).

(** [C27] Registering a service.  A missing name or routine, or a name of 64
    characters or more, is refused.  Otherwise the service goes to the lowest
    free slot, stopped, with its name and its display name cut at 127
    characters, or STATUS_INSUFFICIENT_RESOURCES is returned with no effect when
    all 64 are taken.  It is then written to the registry: on success the key of
    its path exists and has gained the three values, every other path and value
    of the registry is as before; a lack of memory there is not reported.  The
    service manager, the registry and the process manager stay well formed on
    their common pool, and a lookup by that name gives the service unless an
    earlier one has the same name. *)
Theorem scm_register_spec s m ext Name Display ty start routine ctx :
  scm_wf s m ext →
  (routine = 0 ∨ (MAX_SERVICE_NAME ≤ RtlStringLength Name)%nat →
     Register (Some Name) Display ty start routine ctx s = Ok (STATUS_INVALID_PARAMETER, s)) ∧
  (routine ≠ 0 → (RtlStringLength Name < MAX_SERVICE_NAME)%nat →
     let v := new_service Name Display ty start routine ctx in
     match first_idx (λ v, negb (SInUse v)) (g_Services s) with
     | None => Register (Some Name) Display ty start routine ctx s = Ok (STATUS_INSUFFICIENT_RESOURCES, s)
     | Some i => ∃ st s' m',
         Register (Some Name) Display ty start routine ctx s = Ok (STATUS_SUCCESS, s') ∧ scm_wf s' m' ext ∧
         g_Services s' = <[i := v]> (g_Services s) ∧
         scm_ps s' = set_ps_pool (ps_pool (scm_ps s')) (scm_ps s) ∧
         WriteServiceToRegistry nb1 nb2 nb3 i (set_g_Services (<[i := v]> (g_Services s)) s) = Ok (st, s') ∧
         (st = STATUS_NO_MEMORY ∨ (st = STATUS_SUCCESS ∧ persisted nb1 nb2 nb3 s s' v)) ∧
         ((∀ j w, (j < i)%nat → g_Services s !! j = Some w → named_svc (cstr Name) w = false) →
            ScmGetServiceInfo s' (Some Name) = (STATUS_SUCCESS, Some (ty, SERVICE_STOPPED, start, routine, ctx)))
     end).
Proof.
  intros Hwf. split.
  { intros Hbad. unfold ScmRegisterService. destruct (Z.eqb_spec routine 0) as [|Hr]; [done|].
    destruct Hbad as [?|Hlen]; [done|]. by rewrite (proj2 (Nat.leb_le _ _) Hlen). }
  intros Hr Hlen v. unfold ScmRegisterService. replace (routine =? 0) with false by lia.
  rewrite (proj2 (Nat.leb_gt _ _) Hlen). pose proof (scm_can_lock _ _ _ Hwf) as Hc. pose proof (sw_lock _ _ _ Hwf) as Hl.
  destruct (new_service_wf Name Display ty start routine ctx Hlen) as [Hname Hdisp]. fold v in Hname, Hdisp.
  destruct (first_idx _ (g_Services s)) as [i|] eqn:Hf; rewrite acquire_bind by done; unfold mbind at 1, M_bind at 1; cbn [mgets];
    change (g_Services (locked ScmLock s)) with (g_Services s); rewrite Hf; [|by rewrite release_same by done].
  pose proof (first_idx_lt _ _ _ Hf) as Hilt.
  set (s1 := set_g_Services (<[i := v]> (g_Services s)) s).
  assert (Hal : alter (λ _, v) i (g_Services s) = <[i := v]> (g_Services s)).
  { destruct (lookup_lt_is_Some_2 _ _ Hilt) as [x Hx]. by apply (alter_insert (λ _, v) _ _ x). }
  unfold upd_svc at 1. erewrite bind_ok; [|reflexivity].
  assert (Hwf1 : scm_wf s1 m ext) by (apply scm_wf_svc; [done|rewrite length_insert; apply Hwf]).
  assert (Hv1 : g_Services s1 !! i = Some v) by by apply list_lookup_insert_eq.
  destruct (write_service_run nb1 nb2 nb3 s1 m ext i v Hwf1 Hv1 Hdisp) as (st & s2 & m2 & Hr2 & Hwf2 & [Hs1 _ Hs3] & Hcase).
  { rewrite Hname, cstr_length. unfold MAX_SERVICE_NAME in Hlen. lia. }
  exists st, s2, m2. split_and!; [|done|done|done|done|destruct Hcase as [?|[? [Hk Hd]]]; [by left|right; split; [done|by constructor]]|].
  - etrans; [apply (release_bind ScmLock (λ s, set_g_Services (alter (λ _, v) i (g_Services s)) s) s); [done..|apply framed_svc]|].
    cbv beta. rewrite Hal. fold s1. by rewrite (bind_ok _ _ _ _ _ Hr2).
  - intros Hlow. unfold ScmGetServiceInfo. rewrite Hs1, find_service_spec. cbn [s1 set_g_Services g_Services].
    rewrite (first_idx_put _ _ i v); [|done| |done].
    + simpl. by rewrite list_lookup_insert_eq.
    + unfold named_svc. rewrite Hname. by rewrite bool_decide_true.
Qed.

(** ** Starting and stopping *)

(** Waiting for a state nobody sets takes all its turns and changes nothing. *)
Lemma wait_run i target limit s v :
  g_Services s !! i = Some v → 0 ≤ limit ≤ 1000 → loop (wait_turn i target limit) 0 s = Ok (tt, s).
Proof.
  intros Hi Hl. assert (H : ∀ d : nat, Z.of_nat d ≤ limit → ∃ n, loops_to (wait_turn i target limit) n (limit - Z.of_nat d) s tt s ∧ n ≤ Z.of_nat d + 1).
  { induction d as [|d IH]; intros Hd.
    - exists 1. split; [|lia]. apply loops_done. unfold wait_turn. by replace (_ <? limit) with false by lia.
    - destruct IH as (n & Hn & Hle); [lia|].
      assert (Hb : wait_turn i target limit (limit - Z.of_nat (S d)) s =
        Ok (if CurrentState v =? target then inr tt else inl (limit - Z.of_nat d), s)).
      { unfold wait_turn. replace (_ <? limit) with true by lia. unfold get_svc. erewrite deref_bind by exact Hi.
        destruct (CurrentState v =? target); [done|]. unfold stall. rewrite bind_ret. by replace (limit - Z.of_nat (S d) + 1) with (limit - Z.of_nat d) by lia. }
      destruct (CurrentState v =? target).
      + exists 1. split; [by apply loops_done|lia].
      + exists (n + 1). split; [by eapply loops_step|lia]. }
  destruct (H (Z.to_nat limit)) as (n & Hn & Hle); [lia|]. rewrite Z2Nat.id, Z.sub_diag in Hn by lia.
  apply (loop_ok _ n); [done|lia].
Qed.

Lemma with_state_same v st : CurrentState v = st → with_state st v = v.
Proof. intros <-. by destruct v. Qed.

Lemma scm_wf_ps s m ext p ext' :
  scm_wf s m ext → ps_wf m p ext' → is_Some (Processes p !! PsInitialSystemProcess p) → scm_wf (set_scm_ps p s) m ext'.
Proof. intros [] Hp Hi. by constructor. Qed.

(** What a start does to the service at [i] and to the threads. *)
Definition started (s s' : SCM_STATE) (i : nat) (v : SCM_SERVICE) (st : Z) : Prop :=
  (st = STATUS_INSUFFICIENT_RESOURCES ∧ g_Services s' = g_Services s ∧ thread_refused (scm_ps s) (scm_ps s')) ∨
  (st = STATUS_SUCCESS ∧ ∃ t p,
     thread_created (scm_ps s) (scm_ps s') t (PsInitialSystemProcess (scm_ps s)) p (system_frame code)
       thread_routine (svc_addr services_base i) ∧
     g_Services s' = <[i := with_state SERVICE_RUNNING (with_thread t v)]> (g_Services s)).

Lemma start_run s m ext Name i v :
  scm_wf s m ext → find_service Name (g_Services s) = Some i → g_Services s !! i = Some v →
  (CurrentState v ≠ SERVICE_STOPPED → Start Name s = Ok (STATUS_INVALID_DEVICE_REQUEST, s)) ∧
  (CurrentState v = SERVICE_STOPPED →
     ∃ st s' ext', Start Name s = Ok (st, s') ∧ scm_wf s' m ext' ∧ scm_reg s' = scm_reg s ∧ started s s' i v st ∧
       PsInitialSystemProcess (scm_ps s') = PsInitialSystemProcess (scm_ps s)).
Proof.
  intros Hwf Hf Hi. pose proof (scm_can_lock _ _ _ Hwf) as Hc. pose proof (sw_lock _ _ _ Hwf) as Hl.
  pose proof (lookup_lt_Some _ _ _ Hi) as Hilt.
  assert (Hfind : find_service Name (g_Services (locked ScmLock s)) = Some i) by exact Hf.
  split; intros Hst; unfold ScmStartService, get_svc, upd_svc; rewrite acquire_bind by done; unfold mbind at 1, M_bind at 1;
    cbn [mgets]; rewrite Hfind; erewrite deref_bind by exact Hi.
  { replace (CurrentState v =? SERVICE_STOPPED) with false by lia. cbn [negb]. by rewrite release_same by done. }
  rewrite Hst, Z.eqb_refl. cbn [negb]. erewrite bind_ok; [|reflexivity].
  set (v1 := with_state SERVICE_START_PENDING v). set (s1 := set_g_Services (<[i := v1]> (g_Services s)) s).
  assert (Hwf1 : scm_wf s1 m ext) by (apply scm_wf_svc; [done|rewrite length_insert; apply Hwf]).
  assert (Hv1 : (<[i := v1]> (g_Services s)) !! i = Some v1) by by apply list_lookup_insert_eq.
  destruct (sw_proc _ _ _ Hwf) as [p Hp].
  destruct (create_thread_run m code (scm_ps s) ext _ p (system_frame code) thread_routine (svc_addr services_base i) (sw_ps _ _ _ Hwf) Hp)
    as (st & t & p' & ext' & Hr & Hpw & Hini & Hcase); [cbn; lia|].
  assert (Hp' : is_Some (Processes p' !! PsInitialSystemProcess p')).
  { rewrite Hini. destruct Hcase as [(_ & _ & [-> _ _ _])|[_ [_ _ _ _ _ _ -> _]]]; [by rewrite Hp|rewrite lookup_insert_eq; eauto]. }
  set (s2 := set_scm_ps p' s1). assert (Hwf2 : scm_wf s2 m ext') by by apply (scm_wf_ps s1 m ext).
  assert (Hhead : ∀ k : M SCM_STATE Z,
    (KeReleaseSpinLock ScmLock (Irql (pcr s));; k) (set_g_Services (alter (with_state SERVICE_START_PENDING) i (g_Services s)) (locked ScmLock s)) = k s1).
  { intros k. etrans; [apply (release_bind ScmLock (λ s, set_g_Services (alter (with_state SERVICE_START_PENDING) i (g_Services s)) s) s); [done..|apply framed_svc]|].
    cbv beta. by rewrite (alter_insert _ _ _ v Hi). }
  rewrite Hhead. unfold mbind at 1, M_bind at 1. cbn [mgets]. change (scm_ps s1) with (scm_ps s).
  rewrite (bind_ok _ _ _ (st, t) s2); [|unfold ps; apply zoom_ok; exact Hr]. cbv beta iota.
  destruct Hcase as [(-> & -> & Href)|[-> Hcr]].
  - change (NT_SUCCESS STATUS_INSUFFICIENT_RESOURCES) with false. cbn [negb].
    assert (Hback : alter (with_state SERVICE_STOPPED) i (<[i := v1]> (g_Services s)) = g_Services s).
    { rewrite (alter_insert _ _ _ v1 Hv1), list_insert_insert_eq. apply list_insert_id. by rewrite Hi, <- (with_state_same v _ Hst) at 1. }
    eexists _, _, ext'. split; [reflexivity|]. cbn [set_g_Services g_Services s2 s1 set_scm_ps scm_reg scm_ps]. rewrite Hback.
    split; [apply scm_wf_svc; [done|apply Hwf]|]. split; [done|]. split; [|done]. left. done.
  - change (NT_SUCCESS STATUS_SUCCESS) with true. cbn [negb]. erewrite bind_ok; [|reflexivity].
    cbn [s2 s1 set_scm_ps set_g_Services g_Services]. rewrite (alter_insert _ _ _ v1 Hv1), list_insert_insert_eq.
    set (l3 := <[i := with_thread t v1]> (g_Services s)). set (s3 := set_g_Services l3 s2).
    change (set_g_Services l3 _) with s3. assert (Hv3 : g_Services s3 !! i = Some (with_thread t v1)) by by apply list_lookup_insert_eq.
    rewrite (bind_ok _ _ _ _ _ (wait_run i SERVICE_RUNNING 100 s3 _ Hv3 ltac:(lia))).
    erewrite deref_bind by exact Hv3. change (CurrentState (with_thread t v1) =? SERVICE_START_PENDING) with true.
    unfold mwhen. erewrite bind_ok; [|reflexivity]. eexists _, _, ext'. split; [reflexivity|].
    rewrite (alter_insert _ _ _ _ Hv3). unfold s3, l3. cbn [set_g_Services g_Services]. rewrite list_insert_insert_eq. split_and!.
    + apply (scm_wf_svc s2); [done|rewrite length_insert; apply Hwf].
    + done.
    + right. split; [done|]. by exists t, p.
    + done.
Qed.
Lemma stop_run s m ext Name i v :
  scm_wf s m ext → find_service Name (g_Services s) = Some i → g_Services s !! i = Some v →
  ScmStopService Name s = Ok (STATUS_SUCCESS, set_g_Services (<[i := with_state SERVICE_STOPPED v]> (g_Services s)) s).
Proof.
  intros Hwf Hf Hi. pose proof (scm_can_lock _ _ _ Hwf) as Hc. pose proof (sw_lock _ _ _ Hwf) as Hl.
  pose proof (lookup_lt_Some _ _ _ Hi) as Hilt.
  assert (Hfind : find_service Name (g_Services (locked ScmLock s)) = Some i) by exact Hf.
  unfold ScmStopService, get_svc, upd_svc. rewrite acquire_bind by done. unfold mbind at 1, M_bind at 1.
  cbn [mgets]. rewrite Hfind. erewrite deref_bind by exact Hi. destruct (Z.eqb_spec (CurrentState v) SERVICE_STOPPED) as [Hst|Hst].
  { rewrite release_same by done. rewrite (with_state_same v _ Hst), list_insert_id by done. by destruct s. }
  set (v1 := with_state SERVICE_STOP_PENDING v). set (s1 := set_g_Services (<[i := v1]> (g_Services s)) s).
  assert (Hv1 : g_Services s1 !! i = Some v1) by by apply list_lookup_insert_eq.
  erewrite bind_ok; [|reflexivity].
  etrans; [apply (release_bind ScmLock (λ s, set_g_Services (alter (with_state SERVICE_STOP_PENDING) i (g_Services s)) s) s); [done..|apply framed_svc]|].
  cbv beta. rewrite (alter_insert _ _ _ v Hi). fold v1 s1.
  rewrite (bind_ok _ _ _ _ _ (wait_run i SERVICE_STOPPED 1000 s1 _ Hv1 ltac:(lia))). erewrite deref_bind by exact Hv1.
  change (CurrentState v1 =? SERVICE_STOPPED) with false. unfold mwhen. cbn [negb]. erewrite bind_ok; [|reflexivity].
  rewrite (alter_insert _ _ _ v1 Hv1). unfold s1. cbn [set_g_Services g_Services]. by rewrite list_insert_insert_eq.
Qed.


(** ** Restarting *)

Lemma find_service_insert Name l i v w :
  l !! i = Some v → SName w = SName v → SInUse w = SInUse v → find_service Name (<[i := w]> l) = find_service Name l.
Proof.
  unfold find_service. intros Hi Hn Hu. revert i Hi. induction l as [|x l IH]; intros [|i] Hi; [done..| |].
  - injection Hi as ->. cbn [insert list_insert first_idx]. by rewrite Hn, Hu.
  - change (<[S i := w]> (x :: l)) with (x :: <[i := w]> l). cbn [first_idx]. by rewrite (IH i Hi).
Qed.

(** Stopping a service and starting it again leaves two threads that run it:
    the stop does not end the first, and the start does not know of it. *)
Theorem scm_restart_two_threads s m ext Name i v s1 s2 s3 :
  scm_wf s m ext → find_service Name (g_Services s) = Some i → g_Services s !! i = Some v → CurrentState v = SERVICE_STOPPED →
  Start Name s = Ok (STATUS_SUCCESS, s1) → ScmStopService Name s1 = Ok (STATUS_SUCCESS, s2) →
  Start Name s2 = Ok (STATUS_SUCCESS, s3) →
  ∃ t1 t2 e1 e2, t1 ≠ t2 ∧ EThreads (scm_ps s3) !! t1 = Some e1 ∧ EThreads (scm_ps s3) !! t2 = Some e2 ∧
    StartRoutine e1 = thread_routine ∧ StartRoutine e2 = thread_routine ∧
    StartContext e1 = svc_addr services_base i ∧ StartContext e2 = svc_addr services_base i ∧
    t1 ∈ KiReadyListHead (ps_sched (scm_ps s3)) ∧ t2 ∈ KiReadyListHead (ps_sched (scm_ps s3)).
Proof.
  intros Hwf Hf Hi Hst Hr1 Hr2 Hr3. pose proof (lookup_lt_Some _ _ _ Hi) as Hilt.
  destruct (proj2 (start_run s m ext Name i v Hwf Hf Hi) Hst) as (st & s1' & ext1 & H1 & Hwf1 & _ & Hs1 & _).
  rewrite Hr1 in H1. injection H1 as <- <-. destruct Hs1 as [[Hbad _]|(_ & t1 & p1 & Hc1 & Hl1)]; [discriminate Hbad|].
  set (w := with_state SERVICE_RUNNING (with_thread t1 v)) in *.
  assert (Hf1 : find_service Name (g_Services s1) = Some i) by (rewrite Hl1, (find_service_insert _ _ _ v); done).
  assert (Hi1 : g_Services s1 !! i = Some w) by (rewrite Hl1; by apply list_lookup_insert_eq).
  rewrite (stop_run s1 m ext1 Name i w Hwf1 Hf1 Hi1) in Hr2. injection Hr2 as <-.
  set (s2 := set_g_Services _ s1) in *. assert (Hlen1 : (i < length (g_Services s1))%nat) by by eapply lookup_lt_Some.
  assert (Hwf2 : scm_wf s2 m ext1) by (apply scm_wf_svc; [done|rewrite length_insert; apply Hwf1]).
  destruct (proj2 (start_run s2 m ext1 Name i (with_state SERVICE_STOPPED w) Hwf2
    ltac:(etrans; [apply (find_service_insert _ _ _ w); done|exact Hf1]) ltac:(by apply list_lookup_insert_eq)) eq_refl)
    as (st & s3' & ext3 & H3 & _ & _ & Hs3 & _).
  rewrite Hr3 in H3. injection H3 as <- <-. destruct Hs3 as [[Hbad _]|(_ & t2 & p2 & Hc2 & _)]; [discriminate Hbad|].
  change (scm_ps s2) with (scm_ps s1) in Hc2.
  assert (Hne : t1 ≠ t2).
  { intros ->. pose proof (tc_fresh _ _ _ _ _ _ _ _ Hc2) as Hn. destruct (tc_thread _ _ _ _ _ _ _ _ Hc1) as (? & ? & Ht & _). congruence. }
  eexists t1, t2, _, _. split; [done|].
  rewrite (tc_eth _ _ _ _ _ _ _ _ Hc2), lookup_insert_ne, (tc_eth _ _ _ _ _ _ _ _ Hc1), lookup_insert_eq by done.
  split; [reflexivity|]. split; [apply lookup_insert_eq|].
  rewrite (tc_ready _ _ _ _ _ _ _ _ Hc2), (tc_ready _ _ _ _ _ _ _ _ Hc1). split_and!; try done.
  - apply elem_of_app. left. apply elem_of_app. right. left.
  - apply elem_of_app. right. left.
Qed.
(** ** Starting at boot *)

Definition unique_names (l : list SCM_SERVICE) : Prop := ∀ i j v w, l !! i = Some v → l !! j = Some w →
  SInUse v = true → SInUse w = true → cstr (SName v) = cstr (SName w) → i = j.

Lemma unique_find l i v : unique_names l → l !! i = Some v → SInUse v = true → find_service (SName v) l = Some i.
Proof.
  intros Hu Hi Hv. rewrite find_service_spec. apply first_idx_Some. split.
  - exists v. split; [done|]. unfold named_svc. rewrite Hv. by apply bool_decide_eq_true.
  - intros j w Hj Hw. unfold named_svc. destruct (SInUse w) eqn:Hw'; [|done]. apply bool_decide_eq_false.
    intros Heq. rewrite (Hu i j v w Hi Hw Hv Hw' Heq) in Hj. lia.
Qed.

Lemma unique_insert l i v w :
  unique_names l → l !! i = Some v → SName w = SName v → SInUse w = SInUse v → unique_names (<[i := w]> l).
Proof.
  intros Hu Hi Hn Hb j k x y Hj Hk Hx Hy Heq.
  assert (H : ∀ j x, (<[i := w]> l) !! j = Some x → SInUse x = true →
    ∃ x', l !! j = Some x' ∧ SInUse x' = true ∧ cstr (SName x') = cstr (SName x)).
  { clear -Hi Hn Hb. intros j x [(-> & <- & _)|[_ Hj]]%list_lookup_insert_Some Hx; [|by exists x].
    exists v. by rewrite <- Hb, <- Hn. }
  destruct (H j x Hj Hx) as (x' & Hj' & Hx' & Ex), (H k y Hk Hy) as (y' & Hk' & Hy' & Ey).
  apply (Hu j k x' y'); try done. congruence.
Qed.

(** What the boot-time start leaves of the service at [j]. *)
Definition auto_done (s' : SCM_STATE) (st : Z) (j : nat) (v v' : SCM_SERVICE) : Prop :=
  if should_start v then
    (CurrentState v' = SERVICE_RUNNING ∧ ∃ e, EThreads (scm_ps s') !! SThread v' = Some e ∧
       StartRoutine e = thread_routine ∧ StartContext e = svc_addr services_base j) ∨
    (v' = v ∧ st = STATUS_INSUFFICIENT_RESOURCES)
  else v' = v.

Lemma auto_from_run m l : ∀ s ext overall,
  scm_wf s m ext → unique_names (g_Services s) → NoDup l → (∀ j, j ∈ l → (j < MAX_SERVICES)%nat) →
  ∃ st s' ext', auto_from services_base thread_routine code l overall s = Ok (st, s') ∧ scm_wf s' m ext' ∧
    (st = overall ∨ st = STATUS_INSUFFICIENT_RESOURCES) ∧
    (∀ t e, EThreads (scm_ps s) !! t = Some e → EThreads (scm_ps s') !! t = Some e) ∧
    (∀ j, j ∉ l → g_Services s' !! j = g_Services s !! j) ∧
    (∀ j v, j ∈ l → g_Services s !! j = Some v → ∃ v', g_Services s' !! j = Some v' ∧ auto_done s' st j v v').
Proof.
  induction l as [|i l IH]; intros s ext overall Hwf Hu Hnd Hlt.
  { exists overall, s, ext. split; [done|]. split; [done|]. split; [by left|]. split; [done|]. split; [done|].
    intros j v Hj. by apply elem_of_nil in Hj. }
  apply NoDup_cons in Hnd as [Hil Hnd]. pose proof (scm_can_lock _ _ _ Hwf) as Hc. pose proof (sw_lock _ _ _ Hwf) as Hl.
  assert (Hi : (i < length (g_Services s))%nat) by (rewrite (sw_len _ _ _ Hwf); apply Hlt; left).
  destruct (lookup_lt_is_Some_2 _ _ Hi) as [v Hv].
  cbn [auto_from]. rewrite acquire_bind by done. unfold get_svc. erewrite deref_bind by exact Hv. rewrite release_same by done.
  destruct (should_start v) eqn:Hss.
  - pose proof Hss as Hss'. unfold should_start in Hss'. bool_hyps.
    assert (Hst : CurrentState v = SERVICE_STOPPED) by lia.
    destruct (proj2 (start_run s m ext (SName v) i v Hwf ltac:(by apply unique_find) Hv) Hst) as (st & s1 & ext1 & Hr1 & Hwf1 & _ & Hs1 & _).
    assert (Hs1' : unique_names (g_Services s1) ∧ (∀ j, j ≠ i → g_Services s1 !! j = g_Services s !! j) ∧
      (∀ t e, EThreads (scm_ps s) !! t = Some e → EThreads (scm_ps s1) !! t = Some e) ∧
      ∃ v1, g_Services s1 !! i = Some v1 ∧
        ((st = STATUS_SUCCESS ∧ CurrentState v1 = SERVICE_RUNNING ∧ ∃ e, EThreads (scm_ps s1) !! SThread v1 = Some e ∧
            StartRoutine e = thread_routine ∧ StartContext e = svc_addr services_base i) ∨
         (v1 = v ∧ st = STATUS_INSUFFICIENT_RESOURCES))).
    { destruct Hs1 as [(-> & Hg & [_ He _ _])|(-> & t & p & Hcr & Hg)]; rewrite Hg.
      - split; [done|]. split; [done|]. split; [by rewrite He|]. exists v. split; [done|by right].
      - split; [by apply (unique_insert _ _ v)|]. split; [intros j Hj; by rewrite list_lookup_insert_ne|]. split.
        + intros t' e He. rewrite (tc_eth _ _ _ _ _ _ _ _ Hcr), lookup_insert_ne; [done|]. intros ->.
          destruct (pw_eth _ _ _ (sw_ps _ _ _ Hwf) _ _ He) as [y Hy]. rewrite (tc_fresh _ _ _ _ _ _ _ _ Hcr) in Hy. done.
        + eexists. split; [by apply list_lookup_insert_eq|]. left. split; [done|]. split; [done|]. eexists.
          split; [rewrite (tc_eth _ _ _ _ _ _ _ _ Hcr); apply lookup_insert_eq|done]. }
    destruct Hs1' as (Hu1 & Hoth & Hmono1 & v1 & Hv1 & Hcase).
    rewrite (bind_ok _ _ _ _ _ Hr1).
    destruct (IH s1 ext1 (if NT_SUCCESS st then overall else st) Hwf1 Hu1 Hnd) as (st' & s' & ext' & Hr & Hwf' & Hov & Hmono & Hout & Hin);
      [intros j Hj; apply Hlt; by right|].
    exists st', s', ext'. split; [done|]. split; [done|]. split_and!.
    + destruct Hcase as [[-> _]|[_ ->]]; [exact Hov|right]. by destruct Hov.
    + eauto.
    + intros j [Hji Hjl]%not_elem_of_cons. rewrite Hout, Hoth by done. done.
    + intros j w [->|Hj]%elem_of_cons Hw.
      * rewrite Hv in Hw. injection Hw as <-. exists v1. rewrite Hout by done. split; [done|]. unfold auto_done. rewrite Hss.
        destruct Hcase as [(-> & Hrun & e & He & Hfacts)|[-> ->]]; [left; split; [done|]; exists e; split; [by apply Hmono|done]|].
        right. split; [done|]. by destruct Hov.
      * apply Hin; [done|]. rewrite Hoth; [done|]. by intros ->.
  - destruct (IH s ext overall Hwf Hu Hnd) as (st' & s' & ext' & Hr & Hwf' & Hov & Hmono & Hout & Hin);
      [intros j Hj; apply Hlt; by right|].
    exists st', s', ext'. split; [done|]. split; [done|]. split; [done|]. split; [done|]. split.
    + intros j [Hji Hjl]%not_elem_of_cons. by apply Hout.
    + intros j w [->|Hj]%elem_of_cons Hw; [|by apply Hin]. rewrite Hv in Hw. injection Hw as <-. exists v. rewrite Hout by done.
      split; [done|]. unfold auto_done. by rewrite Hss.
Qed.

(** The boot-time start.  When no two services have the same name, every
    stopped service with automatic start is running afterwards, hosted by a
    thread of its own whose context is its entry, or is still stopped for lack of
    memory, which the status then reports; every other service is as it was. *)
Theorem scm_autostart_spec s m ext :
  scm_wf s m ext → unique_names (g_Services s) →
  ∃ st s' ext', ScmAutoStart services_base thread_routine code s = Ok (st, s') ∧ scm_wf s' m ext' ∧
    (st = STATUS_SUCCESS ∨ st = STATUS_INSUFFICIENT_RESOURCES) ∧
    ∀ j v, g_Services s !! j = Some v → ∃ v', g_Services s' !! j = Some v' ∧ auto_done s' st j v v'.
Proof.
  intros Hwf Hu. destruct (auto_from_run m (seq 0 MAX_SERVICES) s ext STATUS_SUCCESS Hwf Hu) as (st & s' & ext' & Hr & Hwf' & Hov & _ & _ & Hin).
  - apply NoDup_seq.
  - intros j Hj%elem_of_seq. lia.
  - exists st, s', ext'. split; [exact Hr|]. split; [done|]. split; [done|]. intros j v Hj. apply Hin; [|done].
    apply elem_of_seq. apply lookup_lt_Some in Hj. rewrite (sw_len _ _ _ Hwf) in Hj. lia.
Qed.

(** ** The thread of a service *)

(** While the routine of a service runs the service is reported as starting,
    whatever the start that created the thread had set; it is stopped when the
    routine returns. *)
Theorem scm_thread_states (run_service : Z → Z → M SCM_STATE unit) s i v Name :
  g_Services s !! i = Some v → find_service Name (g_Services s) = Some i →
  let s1 := set_g_Services (<[i := with_state SERVICE_START_PENDING v]> (g_Services s)) s in
  ScmServiceThread run_service i s = (run_service (SRoutine v) (SContext v);; upd_svc i (with_state SERVICE_STOPPED)) s1 ∧
  ScmQueryServiceStatus s1 (Some Name) true = (STATUS_SUCCESS, Some SERVICE_START_PENDING) ∧
  (∀ s2 v2, run_service (SRoutine v) (SContext v) s1 = Ok (tt, s2) → g_Services s2 !! i = Some v2 →
     ScmServiceThread run_service i s =
       Ok (tt, set_g_Services (<[i := with_state SERVICE_STOPPED v2]> (g_Services s2)) s2)).
Proof.
  intros Hi Hf s1. pose proof (lookup_lt_Some _ _ _ Hi) as Hilt.
  assert (Hi1 : g_Services s1 !! i = Some (with_state SERVICE_START_PENDING v)) by by apply list_lookup_insert_eq.
  assert (Hrun : ScmServiceThread run_service i s = (run_service (SRoutine v) (SContext v);; upd_svc i (with_state SERVICE_STOPPED)) s1).
  { unfold ScmServiceThread, upd_svc at 1. erewrite bind_ok; [|reflexivity]. rewrite (alter_insert _ _ _ v Hi).
    unfold get_svc. by erewrite deref_bind by exact Hi1. }
  split; [exact Hrun|]. split.
  - unfold ScmQueryServiceStatus. cbn [s1 set_g_Services g_Services]. rewrite (find_service_insert _ _ _ v), Hf by done. simpl.
    by rewrite list_lookup_insert_eq.
  - intros s2 v2 Hr H2. rewrite Hrun, (bind_ok _ _ _ _ _ Hr). unfold upd_svc. cbn [mmod]. by rewrite (alter_insert _ _ _ v2 H2).
Qed.
End Services.

(** ** What the registry keeps of a service

    The values keep the addresses of name arrays that are gone, so a query on
    the key of a new service reads through them and has no meaning. *)
Theorem scm_values_unreadable nb1 nb2 nb3 s s' m ext v :
  scm_wf s' m ext → persisted nb1 nb2 nb3 s s' v →
  ∃ k, cm_path (reg_view s') RootKey (path_segments (svc_path (cstr (SName v)))) = Some k ∧
    (default [] (values_of (reg_view s) k) = [] →
       ∀ Name len, CmQueryValue (Some k) Name len (reg_view s') = Undef).
Proof.
  intros Hwf [(k & Hp & Hv & _) (Hd & _ & _)]. exists k. split; [done|]. intros Hnil Name len. rewrite Hnil in Hv.
  unfold values_of in Hv. destruct (key_of (reg_view s') k) as [n|] eqn:Hk; [|done]. injection Hv as Hv.
  unfold CmQueryValue. rewrite acquire_bind; [|apply (pw_pcr _ _ _ (sw_ps _ _ _ Hwf))|apply (sw_cmlock _ _ _ Hwf)].
  unfold get_key. erewrite deref_bind by (rewrite (same_tree_key (reg_view s')) by done; exact Hk).
  rewrite Hv. apply bind_undef, bind_undef. unfold mderef, vname. cbn [VNameBuffer svc_values].
  change (Buffers (locked CmLock (reg_view s'))) with (Buffers (reg_view s')). by rewrite Hd.
Qed.

(** ** Concrete runs *)

Definition demo_scm : SCM_STATE :=
  mkScm (replicate 64 zero_service) 0 true (mkCm (mkKey [BACKSLASH] None [] [] 0 0) ∅ ∅ 0 tt) demo_ps.

Lemma demo_scm_wf : scm_wf demo_scm ∅ (λ _, 0).
Proof.
  constructor; [done|done|exact demo_ps_wf|by eexists|done|..]; cbn [demo_scm scm_reg CmNodes].
  - intros a n Ha. by rewrite lookup_empty in Ha.
  - intros [|a] n c Hk Hc; cbn in Hk; [injection Hk as <-; by apply not_elem_of_nil in Hc|by rewrite lookup_empty in Hk].
Defined.

Definition demo_service : SCM_SERVICE := new_service (text "spooler"%string) None 16 SERVICE_AUTO_START 0x400000 5.
Definition demo_scm1 : SCM_STATE := set_g_Services (demo_service :: replicate 63 zero_service) demo_scm.
Lemma demo_scm1_wf : scm_wf demo_scm1 ∅ (λ _, 0).
Proof. apply scm_wf_svc; [exact demo_scm_wf|done]. Defined.

Lemma scm_register_spec_witness :
  ∃ s', ScmRegisterService 0x70 0x80 0x90 (Some (text "spooler"%string)) None 16 SERVICE_AUTO_START 0x400000 5 demo_scm = Ok (STATUS_SUCCESS, s') ∧
    g_Services s' !! 0%nat = Some demo_service ∧ persisted 0x70 0x80 0x90 demo_scm s' demo_service.
Proof.
  destruct (scm_register_spec 0x70 0x80 0x90 demo_scm ∅ (λ _, 0) (text "spooler"%string) None 16 SERVICE_AUTO_START 0x400000 5 demo_scm_wf) as [_ H].
  destruct (H ltac:(discriminate) ltac:(apply Nat.ltb_lt; reflexivity)) as (st & s' & m' & Hr & _ & Hg & _ & Hw & Hcase & _).
  exists s'. split; [exact Hr|]. split; [rewrite Hg; reflexivity|].
  assert (Hb : match WriteServiceToRegistry 0x70 0x80 0x90 0 (set_g_Services (<[0%nat := demo_service]> (g_Services demo_scm)) demo_scm) with
    Ok (st, _) => st = STATUS_SUCCESS | _ => False end) by (vm_compute; reflexivity).
  fold demo_service in Hw. rewrite Hw in Hb. subst st. destruct Hcase as [Hbad|[_ Hp]]; [discriminate Hbad|exact Hp].
Defined.


Lemma demo_unique : unique_names (g_Services demo_scm1).
Proof.
  assert (H : ∀ i v, g_Services demo_scm1 !! i = Some v → SInUse v = true → i = 0%nat).
  { intros [|i] v Hv Hu; [done|]. cbn [demo_scm1 set_g_Services g_Services lookup list_lookup] in Hv.
    apply lookup_replicate in Hv as [-> _]. discriminate Hu. }
  intros i j v w Hi Hj Hv Hw _. by rewrite (H i v Hi Hv), (H j w Hj Hw).
Defined.

Lemma scm_autostart_spec_witness :
  ∃ s' v', ScmAutoStart 0x600000 0x500000 demo_code demo_scm1 = Ok (STATUS_SUCCESS, s') ∧
    g_Services s' !! 0%nat = Some v' ∧ CurrentState v' = SERVICE_RUNNING.
Proof.
  destruct (scm_autostart_spec 0x600000 0x500000 demo_code demo_scm1 ∅ (λ _, 0) demo_scm1_wf demo_unique) as (st & s' & ext' & Hr & _ & _ & Hall).
  assert (Hb : match ScmAutoStart 0x600000 0x500000 demo_code demo_scm1 with Ok (st, _) => st = STATUS_SUCCESS | _ => False end)
    by (vm_compute; reflexivity).
  rewrite Hr in Hb. subst st. destruct (Hall 0%nat demo_service eq_refl) as (v' & Hv' & [[Hrun _]|[_ Hbad]]); [|discriminate Hbad].
  exists s', v'. split; [exact Hr|]. split; [exact Hv'|exact Hrun].
Defined.

(** Two services of the same name: the boot-time start of the second finds the
    first, already running, and reports the error. *)
Example scm_autostart_same_name :
  match ScmAutoStart 0x600000 0x500000 demo_code
          (set_g_Services (demo_service :: demo_service :: replicate 62 zero_service) demo_scm) with
  | Ok (st, s') => st = STATUS_INVALID_DEVICE_REQUEST ∧ CurrentState <$> g_Services s' !! 1%nat = Some SERVICE_STOPPED
  | _ => False
  end.
Proof. vm_compute. split; reflexivity. Qed.
