(* ===== verification/RamFs.v ===== *)
(** * RamFs: the FAT16 RAM disk and the file calls on it (src/fs/fs.c)

    The disk is the bytes from [RamDiskBase] on, so that the table, the root
    directory and the data area are what the layout makes of them, overlaps
    included.  A file object points at its directory entry, here its index. *)

From S2P Require Import Prelude Irql Rtl Pool Ob.

#[local] Open Scope Z_scope.

Definition STATUS_DISK_FULL := 0xC000017F.
Definition STATUS_NO_SUCH_FILE := 0xC000000F.
Definition STATUS_END_OF_FILE := 0xC0000011.
Definition STATUS_DEVICE_DATA_ERROR := 0xC000009C.

Definition RAMDISK_SECTOR_SIZE := 512.
Definition FAT16_ATTR_VOLUME_ID := 0x08.
Definition FAT16_ATTR_ARCHIVE := 0x20.
Definition IO_TYPE_FILE := 0x4649.
Definition TAG_PROC := 0x636F7250.
Definition TAG_NAME := 0x656D614E.
Definition FS_MAX_FILES : nat := 64.
Definition sizeof_FAT16_DIR_ENTRY := 30.
Definition sizeof_FILE_OBJECT := 56.

(** ** Bytes *)

Definition rd16 (o : Z) (d : Z → Z) : Z := d o + 256 * d (o + 1).
Definition rd32 (o : Z) (d : Z → Z) : Z := rd16 o d + 65536 * rd16 (o + 2) d.
Definition put_bytes (o : Z) (bs : list Z) (d : Z → Z) : Z → Z := λ a,
  if (o <=? a) && (a <? o + Z.of_nat (length bs)) then default 0 (bs !! Z.to_nat (a - o)) else d a.
Definition get_bytes (o : Z) (n : nat) (d : Z → Z) : list Z := (λ k, d (o + k)) <$> seqZ 0 (Z.of_nat n).
Definition bytes16 (v : Z) : list Z := [v mod 256; v / 256 mod 256].
Definition bytes32 (v : Z) : list Z := bytes16 (v mod 65536) ++ bytes16 (v / 65536 mod 65536).

(** The fields of FAT16_BPB the code uses. *)
Record FAT16_BPB := mkBpb {
  SectorsPerCluster : Z;
  ReservedSectors : Z;
  RootEntryCount : Z;
  SectorsPerFAT : Z;
  TotalSectors16 : Z;
  TotalSectors32 : Z
}.

Record FILE_OBJECT := mkFile {
  FileName : list Z;                  (* the characters; Buffer is not NULL when in use *)
  CurrentOffset : Z;
  FsContext : option nat
}.

Record RAMFS := mkRam {
  RamDiskBase : Z;
  RamDiskSize : Z;
  RamDiskSectors : Z;
  RamDiskBpb : FAT16_BPB;
  RamDiskFat : Z;                     (* offsets from RamDiskBase *)
  RamDiskRootDir : Z;
  RamDiskDataArea : Z;
  DiskBytes : Z → Z;
  FsLock_ : Z;
  FsFileTable : list FILE_OBJECT;
  FsFileInUse : list bool;
  PoolFiles : gmap Z FILE_OBJECT;     (* file objects in pool blocks *)
  fs_ob : OB_STATE POOL_STATE
}.

Definition set_disk (d : Z → Z) (s : RAMFS) : RAMFS :=
  mkRam (RamDiskBase s) (RamDiskSize s) (RamDiskSectors s) (RamDiskBpb s) (RamDiskFat s) (RamDiskRootDir s) (RamDiskDataArea s)
    d (FsLock_ s) (FsFileTable s) (FsFileInUse s) (PoolFiles s) (fs_ob s).
Definition set_layout (base size sectors : Z) (b : FAT16_BPB) (fat root data : Z) (s : RAMFS) : RAMFS :=
  mkRam base size sectors b fat root data
    (DiskBytes s) (FsLock_ s) (FsFileTable s) (FsFileInUse s) (PoolFiles s) (fs_ob s).
Definition set_FsLock (v : Z) (s : RAMFS) : RAMFS :=
  mkRam (RamDiskBase s) (RamDiskSize s) (RamDiskSectors s) (RamDiskBpb s) (RamDiskFat s) (RamDiskRootDir s) (RamDiskDataArea s)
    (DiskBytes s) v (FsFileTable s) (FsFileInUse s) (PoolFiles s) (fs_ob s).
Definition set_files (t : list FILE_OBJECT) (u : list bool) (s : RAMFS) : RAMFS :=
  mkRam (RamDiskBase s) (RamDiskSize s) (RamDiskSectors s) (RamDiskBpb s) (RamDiskFat s) (RamDiskRootDir s) (RamDiskDataArea s)
    (DiskBytes s) (FsLock_ s) t u (PoolFiles s) (fs_ob s).
Definition set_PoolFiles (m : gmap Z FILE_OBJECT) (s : RAMFS) : RAMFS :=
  mkRam (RamDiskBase s) (RamDiskSize s) (RamDiskSectors s) (RamDiskBpb s) (RamDiskFat s) (RamDiskRootDir s) (RamDiskDataArea s)
    (DiskBytes s) (FsLock_ s) (FsFileTable s) (FsFileInUse s) m (fs_ob s).
Definition set_fs_ob (o : OB_STATE POOL_STATE) (s : RAMFS) : RAMFS :=
  mkRam (RamDiskBase s) (RamDiskSize s) (RamDiskSectors s) (RamDiskBpb s) (RamDiskFat s) (RamDiskRootDir s) (RamDiskDataArea s)
    (DiskBytes s) (FsLock_ s) (FsFileTable s) (FsFileInUse s) (PoolFiles s) o.

#[global] Instance RAMFS_HasPcr : HasPcr RAMFS.
Proof.
  refine {| pcr := λ s, pcr (fs_ob s); set_pcr := λ k s, set_fs_ob (set_pcr k (fs_ob s)) s |}.
  - done.
  - done.
  - by intros [? ? ? ? ? ? ? ? ? ? ? ? [[[]]]].
Defined.
Definition FsLock : SpinLock RAMFS.
Proof. refine (mkSpinLock FsLock_ set_FsLock _ _ _ _ _ _); [done..|by intros []|done]. Defined.

Definition obj {A} (m : M (OB_STATE POOL_STATE) A) : M RAMFS A := zoom fs_ob set_fs_ob m.

(** Memory of the disk: an access outside it has no meaning. *)
Definition in_disk (s : RAMFS) (o n : Z) : bool := (0 <=? o) && (o + n <=? RamDiskSize s) && truthy (RamDiskBase s).
Definition load {A} (o n : Z) (f : (Z → Z) → A) : M RAMFS A :=
  mderef (λ s, if in_disk s o n then Some (f (DiskBytes s)) else None).
Definition store (o : Z) (bs : list Z) : M RAMFS unit :=
  s ← mget; if in_disk s o (Z.of_nat (length bs)) then mmod (λ s, set_disk (put_bytes o bs (DiskBytes s)) s) else mundef.

(** ** The RAM disk *)

Definition FsInitSystem : M RAMFS Z :=
  KeInitializeSpinLock FsLock;;
  mmod (set_files (replicate FS_MAX_FILES (mkFile [] 0 None)) (replicate FS_MAX_FILES false));;
  mret STATUS_SUCCESS.

(** The sectors of the root directory. *)
Definition root_sectors (b : FAT16_BPB) : Z := (RootEntryCount b * 32 + RAMDISK_SECTOR_SIZE - 1) / RAMDISK_SECTOR_SIZE.

Definition FsCreateRamDisk (SizeInMB : Z) : M RAMFS Z :=
  s ← mget;
  if truthy (RamDiskBase s) then mret STATUS_SUCCESS
  else
    let size := u32 (Z.shiftl SizeInMB 20) in
    base ← obj (ob_alloc size TAG_PROC);
    mmod (λ s, set_layout base size (RamDiskSectors s) (RamDiskBpb s) (RamDiskFat s) (RamDiskRootDir s) (RamDiskDataArea s) s);;
    if base =? 0 then mret STATUS_NO_MEMORY
    else
      mmod (set_disk (λ _, 0));;
      let totalSectors := size / RAMDISK_SECTOR_SIZE in
      let b0 := mkBpb 4 1 512 0 0 0 in
      let dataSectors := u32 (totalSectors - 1 - 2 - root_sectors b0) in
      let totalClusters := dataSectors / 4 in
      let fatSectors := if 4085 <? totalClusters then u32 ((totalClusters + 1 + 1) * 2 + RAMDISK_SECTOR_SIZE - 1) / RAMDISK_SECTOR_SIZE else 2 in
      let fat := RAMDISK_SECTOR_SIZE in
      let root := fat + fatSectors * RAMDISK_SECTOR_SIZE in
      mmod (set_layout base size totalSectors
              (mkBpb 4 1 512 (u16 fatSectors) (if 0xFFFF <? totalSectors then 0 else u16 totalSectors)
                 (if 0xFFFF <? totalSectors then totalSectors else 0))
              fat root (root + root_sectors b0 * RAMDISK_SECTOR_SIZE));;
      store fat [0xF8; 0xFF; 0xFF; 0xFF];;
      mret STATUS_SUCCESS.

Definition FsMountFat16 (s : RAMFS) : Z := if truthy (RamDiskBase s) then STATUS_SUCCESS else STATUS_DEVICE_DATA_ERROR.

(** ** Clusters *)

Definition FsClusterSize (s : RAMFS) : Z := SectorsPerCluster (RamDiskBpb s) * RAMDISK_SECTOR_SIZE.
Definition FsClusterBase (s : RAMFS) (Cluster : Z) : Z := RamDiskDataArea s + u32 (u32 (Cluster - 2) * FsClusterSize s).
Definition FsReadFatEntry (Cluster : Z) : M RAMFS Z :=
  s ← mget; load (RamDiskFat s + 2 * Cluster) 2 (rd16 (RamDiskFat s + 2 * Cluster)).
Definition FsWriteFatEntry (Cluster Value : Z) : M RAMFS unit :=
  s ← mget; store (RamDiskFat s + 2 * Cluster) (bytes16 Value).

(** The offset of a directory entry, and its fields. *)
Definition entry_at (s : RAMFS) (i : nat) : Z := RamDiskRootDir s + sizeof_FAT16_DIR_ENTRY * Z.of_nat i.
Definition FirstCluster (i : nat) : M RAMFS Z := s ← mget; load (entry_at s i + 24) 2 (rd16 (entry_at s i + 24)).
Definition FileSize (i : nat) : M RAMFS Z := s ← mget; load (entry_at s i + 26) 4 (rd32 (entry_at s i + 26)).
Definition set_FirstCluster (i : nat) (v : Z) : M RAMFS unit := s ← mget; store (entry_at s i + 24) (bytes16 v).
Definition set_FileSize (i : nat) (v : Z) : M RAMFS unit := s ← mget; store (entry_at s i + 26) (bytes32 v).

(** [(USHORT)(... / SectorsPerCluster)] *)
Definition total_clusters (s : RAMFS) : Z :=
  u16 (u32 (RamDiskSectors s - ReservedSectors (RamDiskBpb s) - SectorsPerFAT (RamDiskBpb s) - root_sectors (RamDiskBpb s))
       / SectorsPerCluster (RamDiskBpb s)).

(** The search for a free cluster from [cluster] on: its number, marked as the
    end of a chain. *)
Definition free_turn (total cluster : Z) : M RAMFS (Z + option Z) :=
  if cluster <? total then
    v ← FsReadFatEntry cluster;
    if v =? 0 then FsWriteFatEntry cluster 0xFFFF;; mret (inr (Some cluster))
    else mret (inl (cluster + 1))
  else mret (inr None).

Definition FsAllocCluster (i : nat) : M RAMFS Z :=
  s ← mget;
  r ← loop (free_turn (total_clusters s)) 2;
  match r with
  | None => mret 0
  | Some c =>
      fc ← FirstCluster i;
      mwhen (fc =? 0) (set_FirstCluster i (u16 c));;
      mret c
  end.

(** One turn of the walk along a chain: the cluster and the offset left. *)
Definition chain_turn (size : Z) (co : Z * Z) : M RAMFS (Z * Z + option (Z * Z)) :=
  let '(c, off) := co in
  if size <=? off then
    next ← FsReadFatEntry c;
    if (next =? 0xFFFF) || (next =? 0) then mret (inr None)
    else mret (inl (next, off - size))
  else mret (inr (Some (c, off))).

(** The cluster and the offset in it, None for NULL. *)
Definition FsResolveClusterChain (i : nat) (Offset : Z) : M RAMFS (option (Z * Z)) :=
  fc ← FirstCluster i;
  if fc =? 0 then mret None
  else
    fs ← FileSize i;
    if fs <=? Offset then mret None
    else
      s ← mget;
      loop (chain_turn (FsClusterSize s)) (fc, Offset).

(** ** Directory entries *)

(** [for (j = 0; j < n && f[j] != ' '; j++)] *)
Fixpoint until_space (l : list Z) : list Z :=
  match l with
  | [] => []
  | c :: l' => if c =? 32 then [] else c :: until_space l'
  end.

(** The wide name built from the 11 bytes of an entry. *)
Definition name83 (fn ext : list Z) : list Z :=
  until_space fn ++ (if hd 0 ext =? 32 then [] else 46 :: until_space ext).

(** [wcslen(FileName)] characters; a NULL name has none.  Names are shorter than
    32768 characters, so that their counts fit the 16-bit lengths. *)
Definition chars (FileName : option (list Z)) : list Z := match FileName with Some f => cstr f | None => [] end.
Definition same_name (a b : list Z) : bool := RtlEqualUnicodeString (ustr a) (ustr b) true.

Fixpoint find_file (l : list nat) (target : list Z) : M RAMFS (option nat) :=
  match l with
  | [] => mret None
  | i :: l' =>
      s ← mget;
      e ← load (entry_at s i) sizeof_FAT16_DIR_ENTRY (get_bytes (entry_at s i) 12);
      if hd 0 e =? 0 then mret None
      else if hd 0 e =? 0xE5 then find_file l' target
      else if has_bits (chr e 11) FAT16_ATTR_VOLUME_ID then find_file l' target
      else if same_name (name83 (take 8 e) (take 3 (drop 8 e))) target then mret (Some i)
      else find_file l' target
  end.
Definition FsFindFile (FileName : option (list Z)) : M RAMFS (option nat) :=
  s ← mget; find_file (seq 0 (Z.to_nat (RootEntryCount (RamDiskBpb s)))) (chars FileName).

Fixpoint find_slot (l : list nat) : M RAMFS (option nat) :=
  match l with
  | [] => mret None
  | i :: l' =>
      s ← mget;
      b ← load (entry_at s i) 1 (λ d, d (entry_at s i));
      if (b =? 0) || (b =? 0xE5) then mret (Some i) else find_slot l'
  end.

(** The arrays [name] and [ext] of wide characters, as bytes. *)
Definition wide_array (n : nat) (l : list Z) : list Z := (take n l ++ replicate (n - length (take n l)) 0) ≫= bytes16.
Definition split_name (f : list Z) : list Z * list Z :=
  match wcsrchr (Some f) 46 with
  | Some d => (wide_array 8 (take d f), wide_array 3 (cstr (drop (S d) f)))
  | None => (wide_array 8 (cstr f), wide_array 3 [])
  end.

(** RtlCopyMemory of 8 and of 3 bytes of those arrays, the attribute, the size
    and a first cluster of 0. *)
Definition FsCreateFileEntry (FileName : list Z) (Size : Z) : M RAMFS (option nat) :=
  s ← mget;
  slot ← find_slot (seq 0 (Z.to_nat (RootEntryCount (RamDiskBpb s))));
  match slot with
  | None => mret None
  | Some i =>
      store (entry_at s i) (take 8 (split_name FileName).1);;
      store (entry_at s i + 8) (take 3 (split_name FileName).2);;
      store (entry_at s i + 11) [FAT16_ATTR_ARCHIVE];;
      set_FileSize i Size;;
      set_FirstCluster i 0;;
      mret (Some i)
  end.

(** ** Opening *)

Definition opened (target : list Z) (fu : FILE_OBJECT * bool) : bool := fu.2 && same_name (FileName fu.1) target.

(** The index of the file object. *)
Definition FsOpenFile (Name : option (list Z)) : M RAMFS (Z * option nat) :=
  irql ← KeAcquireSpinLock FsLock;
  s ← mget;
  match first_idx (opened (chars Name)) (zip (FsFileTable s) (FsFileInUse s)) with
  | Some fd => KeReleaseSpinLock FsLock 0;; mret (STATUS_SUCCESS, Some fd)
  | None =>
      entry ← FsFindFile Name;
      match entry with
      | None => KeReleaseSpinLock FsLock 0;; mret (STATUS_NO_SUCH_FILE, None)
      | Some i =>
          match first_idx negb (FsFileInUse s) with
          | None => KeReleaseSpinLock FsLock 0;; mret (STATUS_INSUFFICIENT_RESOURCES, None)
          | Some fd =>
              mmod (λ s, set_files (<[fd := mkFile [] 0 None]> (FsFileTable s)) (FsFileInUse s) s);;
              buf ← obj (ob_alloc (2 * Z.of_nat (length (chars Name)) + 2) TAG_NAME);
              if buf =? 0 then KeReleaseSpinLock FsLock 0;; mret (STATUS_NO_MEMORY, None)
              else
                mmod (λ s, set_files (<[fd := mkFile (chars Name) 0 (Some i)]> (FsFileTable s)) (<[fd := true]> (FsFileInUse s)) s);;
                KeReleaseSpinLock FsLock 0;;
                mret (STATUS_SUCCESS, Some fd)
          end
      end
  end.

Section Files.
(** The address of FsFileTable, and the delete procedures of object types. *)
Context (table_base : Z) (DeleteProc : Z → Z → M (OB_STATE POOL_STATE) unit).

Definition table_addr (fd : nat) : Z := table_base + sizeof_FILE_OBJECT * Z.of_nat fd.
(** The file object at an address: in the table or in a pool block. *)
Definition table_index (a : Z) : option nat :=
  if (table_base <=? a) && (a <? table_base + sizeof_FILE_OBJECT * Z.of_nat FS_MAX_FILES) && ((a - table_base) mod sizeof_FILE_OBJECT =? 0)
  then Some (Z.to_nat ((a - table_base) / sizeof_FILE_OBJECT)) else None.
Definition file_at (s : RAMFS) (a : Z) : option FILE_OBJECT :=
  match table_index a with Some fd => FsFileTable s !! fd | None => PoolFiles s !! a end.
Definition put_file (a : Z) (f : FILE_OBJECT) (s : RAMFS) : RAMFS :=
  match table_index a with
  | Some fd => set_files (<[fd := f]> (FsFileTable s)) (FsFileInUse s) s
  | None => set_PoolFiles (<[a := f]> (PoolFiles s)) s
  end.
Definition with_offset (o : Z) (f : FILE_OBJECT) : FILE_OBJECT := mkFile (FileName f) o (FsContext f).

Definition FILE_CREATE := 2.
Definition FILE_OPEN_IF := 3.
Definition FILE_CREATED := 2.

(** The status, the handle, and what is stored in the I/O status block, None
    when it is left alone.  The name comes in [EaBuffer]. *)
Definition NtCreateFile (OutFileHandle : bool) (EaBuffer : option (list Z)) (EaLength CreateDisposition : Z) :
    M RAMFS (Z * Z * option (Z * Z)) :=
  if negb OutFileHandle then mret (STATUS_INVALID_PARAMETER, 0, None)
  else
    '(st, fd) ← FsOpenFile EaBuffer;
    match fd with
    | None =>
        if (CreateDisposition =? FILE_CREATE) || (CreateDisposition =? FILE_OPEN_IF) then
          entry ← match EaBuffer with Some n => FsCreateFileEntry n 0 | None => mundef end;
          match entry with
          | None => mret (STATUS_DISK_FULL, 0, Some (STATUS_DISK_FULL, 0))
          | Some i =>
              file ← obj (ob_alloc sizeof_FILE_OBJECT 0);
              if file =? 0 then mret (STATUS_NO_MEMORY, 0, Some (STATUS_NO_MEMORY, 0))
              else
                mmod (λ s, set_PoolFiles (<[file := mkFile (chars EaBuffer) 0 (Some i)]> (PoolFiles s)) s);;
                '(st, h) ← obj (ObInsertHandle file);
                mret (st, h, if NT_SUCCESS st then Some (STATUS_SUCCESS, FILE_CREATED) else None)
          end
        else mret (st, 0, Some (st, 0))
    | Some fd =>
        '(st, h) ← obj (ObInsertHandle (table_addr fd));
        if negb (NT_SUCCESS st) then mret (st, h, Some (st, 0))
        else mret (STATUS_SUCCESS, h, Some (STATUS_SUCCESS, 0))
    end.

(** ** Reading *)

(** One turn of the copy loop: the bytes left, the offset, the bytes read. *)
Definition read_turn (i : nat) (x : Z * Z * list Z) : M RAMFS (Z * Z * list Z + list Z) :=
  let '(remaining, off, acc) := x in
  fs ← FileSize i;
  if negb ((0 <? remaining) && (off <? fs)) then mret (inr acc)
  else
    r ← FsResolveClusterChain i off;
    match r with
    | None => mret (inr acc)
    | Some (c, oic) =>
        s ← mget;
        let space := FsClusterSize s - oic in
        let n1 := if fs <? u32 (off + remaining) then fs - off else remaining in
        let n := if space <? n1 then space else n1 in
        bs ← load (FsClusterBase s c + oic) n (get_bytes (FsClusterBase s c + oic) (Z.to_nat n));
        mret (inl (remaining - n, u32 (off + n), acc ++ bs))
    end.

(** Between taking and releasing the reference on the file object: the status
    and the bytes, [None] at the end of the file. *)
Definition read_file (body : Z) (Length : Z) (ByteOffset : option Z) : M RAMFS (option (list Z)) :=
  f ← mderef (λ s, file_at s body);
  match FsContext f with
  | None => mundef
  | Some i =>
      let readOffset := match ByteOffset with Some o => u32 o | None => CurrentOffset f end in
      fs ← FileSize i;
      if fs <=? readOffset then mret None
      else
        let readLength := if fs <? u32 (readOffset + Length) then fs - readOffset else Length in
        bs ← loop (read_turn i) (readLength, readOffset, []);
        mmod (put_file body (with_offset (u32 (readOffset + Z.of_nat (length bs))) f));;
        mret (Some bs)
  end.

Definition NtReadFile (FileHandle Length : Z) (ByteOffset : option Z) : M RAMFS (Z * list Z) :=
  '(st, body) ← obj (ObReferenceObjectByHandle DeleteProc FileHandle 0);
  if negb (NT_SUCCESS st) then mret (st, [])
  else
    r ← read_file body Length ByteOffset;
    obj (ObDereferenceObject DeleteProc body);;
    match r with
    | None => mret (STATUS_END_OF_FILE, [])
    | Some bs => mret (STATUS_SUCCESS, bs)
    end.

(** ** Writing *)

(** [while (chase)]: the last cluster of a chain. *)
Definition chase_turn (chase : Z) : M RAMFS (Z + Z) :=
  if chase =? 0 then mret (inr chase)
  else
    next ← FsReadFatEntry chase;
    if (next =? 0xFFFF) || (next =? 0) then mret (inr chase) else mret (inl next).

(** The cluster added to a file whose chain has run out. *)
Definition grow_chain (i : nat) : M RAMFS (option (Z * Z)) :=
  s ← mget;
  r ← loop (free_turn (total_clusters s)) 2;
  match r with
  | None => mret None
  | Some c =>
      fc ← FirstCluster i;
      (if fc =? 0 then set_FirstCluster i (u16 c)
       else
         lastc ← loop chase_turn fc;
         FsWriteFatEntry lastc (u16 c));;
      mret (Some (c, 0))
  end.

(** One turn: the bytes left of the source and the offset. *)
Definition write_turn (i : nat) (x : list Z * Z) : M RAMFS (list Z * Z + list Z) :=
  let '(src, off) := x in
  match src with
  | [] => mret (inr [])
  | _ =>
      r ← FsResolveClusterChain i off;
      r ← match r with Some co => mret (Some co) | None => grow_chain i end;
      match r with
      | None => mret (inr src)
      | Some (c, oic) =>
          s ← mget;
          fs ← FileSize i;
          let remaining := Z.of_nat (length src) in
          let space := FsClusterSize s - oic in
          let n1 := if fs <? u32 (off + remaining) then u32 (fs - off) else remaining in
          let n := if space <? n1 then space else n1 in
          if remaining <? n then mundef
          else
            store (FsClusterBase s c + oic) (take (Z.to_nat n) src);;
            mret (inl (drop (Z.to_nat n) src, u32 (off + n)))
      end
  end.

(** The number of bytes written, None for a file object without an entry. *)
Definition write_file (body : Z) (Buffer : list Z) (ByteOffset : option Z) : M RAMFS (option Z) :=
  f ← mderef (λ s, file_at s body);
  let writeOffset := match ByteOffset with Some o => u32 o | None => CurrentOffset f end in
  match FsContext f with
  | None => mret None
  | Some i =>
      let Length := Z.of_nat (length Buffer) in
      fs ← FileSize i;
      mwhen (fs <? u32 (writeOffset + Length)) (set_FileSize i (u32 (writeOffset + Length)));;
      left ← loop (write_turn i) (Buffer, writeOffset);
      let written := Length - Z.of_nat (length left) in
      mmod (put_file body (with_offset (u32 (writeOffset + written)) f));;
      mret (Some written)
  end.

Definition NtWriteFile (FileHandle : Z) (Buffer : list Z) (ByteOffset : option Z) : M RAMFS (Z * Z) :=
  '(st, body) ← obj (ObReferenceObjectByHandle DeleteProc FileHandle 0);
  if negb (NT_SUCCESS st) then mret (st, 0)
  else
    r ← write_file body Buffer ByteOffset;
    obj (ObDereferenceObject DeleteProc body);;
    match r with
    | None => mret (STATUS_INVALID_HANDLE, 0)
    | Some n => mret (STATUS_SUCCESS, n)
    end.

Definition NtClose (Handle : Z) : M RAMFS Z := obj (ObCloseHandle DeleteProc Handle).

(** The name of the object attributes is tested and not used; [NtCreateFile] is
    given no name. *)
Definition zero_turn (h truncated : Z) : M RAMFS (Z + unit) :=
  if truncated <? 65536 then
    '(st, n) ← NtWriteFile h (replicate 256 0) None;
    if negb (NT_SUCCESS st) then mret (inr tt) else mret (inl (u32 (truncated + n)))
  else mret (inr tt).
Definition NtDeleteFile (ObjectName : option (list Z)) : M RAMFS Z :=
  match ObjectName with
  | None => mret STATUS_INVALID_PARAMETER
  | Some _ =>
      '(st, h, _) ← NtCreateFile true None 0 1;
      if negb (NT_SUCCESS st) then mret st
      else
        loop (zero_turn h) 0;;
        NtClose h;;
        mret STATUS_SUCCESS
  end.
End Files.

(** ** Directory listing *)

(** A FILE_DIRECTORY_INFORMATION, with the offset it is stored at; the times are
    all 0. *)
Record DIR_INFO := mkInfo {
  di_at : Z;
  NextEntryOffset : Z;
  FileIndex : Z;
  EndOfFile : Z;
  FileNameLength : Z;
  di_name : list Z
}.
Definition sizeof_DIR_INFO := 56.
Definition NAME_AT := 48.                  (* the offset of FileName in it *)
Definition with_next (v : Z) (e : DIR_INFO) : DIR_INFO := mkInfo (di_at e) v (FileIndex e) (EndOfFile e) (FileNameLength e) (di_name e).

(** The entries "." and "..", written whatever the length is: the second has to
    fit, and [Length - bytesUsed] not to wrap. *)
Definition dot_entries (Length : Z) : M RAMFS (Z * list DIR_INFO) :=
  let a := sizeof_DIR_INFO + 3 * 2 in
  if Length <? a + NAME_AT + 4 * 2 then mundef
  else mret (a + sizeof_DIR_INFO + 4 * 2, [mkInfo 0 a 0 0 6 [46; 0; 0]; mkInfo a 0 1 0 8 [46; 46; 0; 0]]).

Definition filter_out (FileName : option UNICODE_STRING) (name : list Z) : bool :=
  match FileName with
  | Some f => (0 <? Length f) && negb (RtlEqualUnicodeString f (ustr name) true)
  | None => false
  end.

(** The scan of the root directory: the bytes used and the entries so far. *)
Fixpoint list_entries (l : list nat) (FileName : option UNICODE_STRING) (Length : Z) (ReturnSingleEntry : bool)
    (used : Z) (es : list DIR_INFO) : M RAMFS (Z * list DIR_INFO) :=
  match l with
  | [] => mret (used, es)
  | i :: l' =>
      s ← mget;
      e ← load (entry_at s i) sizeof_FAT16_DIR_ENTRY (get_bytes (entry_at s i) 12);
      let skip := list_entries l' FileName Length ReturnSingleEntry used es in
      if hd 0 e =? 0 then mret (used, es)
      else if hd 0 e =? 0xE5 then skip
      else if has_bits (chr e 11) FAT16_ATTR_VOLUME_ID then skip
      else
        let name := name83 (take 8 e) (take 3 (drop 8 e)) in
        if filter_out FileName name then skip
        else
          let nameLen := 2 * Z.of_nat (length name) in
          let entrySize := Z.land (sizeof_DIR_INFO + nameLen + 7) (Z.lnot 7) in
          if Length <? u32 (used + entrySize) then
            mret (used, if ReturnSingleEntry then match es with [] => [] | e0 :: es' => with_next 0 e0 :: es' end else es)
          else
            size ← FileSize i;
            let es' := es ++ [mkInfo used (if ReturnSingleEntry then 0 else entrySize) (Z.of_nat i) size nameLen name] in
            if ReturnSingleEntry then mret (used + entrySize, es')
            else list_entries l' FileName Length ReturnSingleEntry (used + entrySize) es'
  end.

(** The status, what is stored in the status block, and the buffer. *)
Definition NtQueryDirectoryFile (IoStatusBlock FileInformation : bool) (Length : Z) (ReturnSingleEntry : bool) (FileName : option UNICODE_STRING) :
    M RAMFS (Z * option (Z * Z) * list DIR_INFO) :=
  if negb IoStatusBlock then mret (STATUS_INVALID_PARAMETER, None, [])
  else if negb FileInformation || (Length =? 0) then mret (STATUS_INVALID_PARAMETER, Some (STATUS_INVALID_PARAMETER, 0), [])
  else
    '(used, es) ← (if match FileName with None => true | Some f => Rtl.Length f =? 0 end then dot_entries Length else mret (0, []));
    s ← mget;
    '(used, es) ← list_entries (seq 0 (Z.to_nat (RootEntryCount (RamDiskBpb s)))) FileName Length ReturnSingleEntry used es;
    match es with
    | [] => mret (STATUS_NO_SUCH_FILE, Some (STATUS_NO_SUCH_FILE, 0), [])
    | _ => mret (STATUS_SUCCESS, Some (STATUS_SUCCESS, used), es)
    end.

(** ** Memory *)

Lemma put_out o bs d a : a < o ∨ o + Z.of_nat (length bs) ≤ a → put_bytes o bs d a = d a.
Proof. intros H. unfold put_bytes. by replace (_ && _) with false by lia. Qed.
Lemma put_in o bs d a : o ≤ a < o + Z.of_nat (length bs) → put_bytes o bs d a = default 0 (bs !! Z.to_nat (a - o)).
Proof. intros H. unfold put_bytes. by replace (_ && _) with true by lia. Qed.

Lemma rd16_put o v d : 0 ≤ v < 65536 → rd16 o (put_bytes o (bytes16 v) d) = v.
Proof.
  intros Hv. unfold rd16. rewrite !put_in by (simpl; lia). replace (o - o) with 0 by lia. replace (o + 1 - o) with 1 by lia.
  change (default 0 (bytes16 v !! Z.to_nat 0)) with (v mod 256). change (default 0 (bytes16 v !! Z.to_nat 1)) with (v / 256 mod 256).
  Z.div_mod_to_equations. lia.
Qed.
Lemma rd16_other o o' bs d : o + 2 ≤ o' ∨ o' + Z.of_nat (length bs) ≤ o → rd16 o (put_bytes o' bs d) = rd16 o d.
Proof. intros H. unfold rd16. by rewrite !put_out by lia. Qed.
Lemma rd32_other o o' bs d : o + 4 ≤ o' ∨ o' + Z.of_nat (length bs) ≤ o → rd32 o (put_bytes o' bs d) = rd32 o d.
Proof. intros H. unfold rd32. by rewrite !rd16_other by lia. Qed.
Lemma rd32_put o v d : 0 ≤ v < 4294967296 → rd32 o (put_bytes o (bytes32 v) d) = v.
Proof.
  intros Hv. unfold rd32, rd16. rewrite !put_in by (simpl; lia).
  replace (o - o) with 0 by lia. replace (o + 1 - o) with 1 by lia. replace (o + 2 - o) with 2 by lia. replace (o + 2 + 1 - o) with 3 by lia.
  change (default 0 (bytes32 v !! Z.to_nat 0)) with (v mod 65536 mod 256).
  change (default 0 (bytes32 v !! Z.to_nat 1)) with (v mod 65536 / 256 mod 256).
  change (default 0 (bytes32 v !! Z.to_nat 2)) with (v / 65536 mod 65536 mod 256).
  change (default 0 (bytes32 v !! Z.to_nat 3)) with (v / 65536 mod 65536 / 256 mod 256).
  Z.div_mod_to_equations. lia.
Qed.

Definition all_bytes (d : Z → Z) : Prop := ∀ a, 0 ≤ d a < 256.
Lemma rd16_bound o d : all_bytes d → 0 ≤ rd16 o d < 65536.
Proof. intros H. unfold rd16. pose proof (H o). pose proof (H (o + 1)). lia. Qed.
Lemma rd32_bound o d : all_bytes d → 0 ≤ rd32 o d < 4294967296.
Proof. intros H. unfold rd32. pose proof (rd16_bound o d H). pose proof (rd16_bound (o + 2) d H). lia. Qed.
Lemma put_all_bytes o bs d : all_bytes d → Forall (λ b, 0 ≤ b < 256) bs → all_bytes (put_bytes o bs d).
Proof.
  intros Hd Hb a. unfold put_bytes. case_if; [|apply Hd]. destruct (bs !! Z.to_nat (a - o)) as [b|] eqn:E; simpl; [|lia].
  by eapply (Forall_lookup_1 _ _ _ _ Hb).
Qed.
Lemma bytes16_bytes v : Forall (λ b, 0 ≤ b < 256) (bytes16 v).
Proof. unfold bytes16. repeat constructor; Z.div_mod_to_equations; lia. Qed.
Lemma bytes32_bytes v : Forall (λ b, 0 ≤ b < 256) (bytes32 v).
Proof. unfold bytes32. apply Forall_app. split; apply bytes16_bytes. Qed.

Lemma get_bytes_lookup o n d k : (k < n)%nat → get_bytes o n d !! k = Some (d (o + Z.of_nat k)).
Proof.
  intros Hk. unfold get_bytes. rewrite list_lookup_fmap, lookup_seqZ_lt by lia. done.
Qed.
Lemma get_bytes_length o n d : length (get_bytes o n d) = n.
Proof. unfold get_bytes. rewrite length_fmap, length_seqZ. lia. Qed.

(** ** Layout *)

Definition CLUSTER := 2048.

(** A disk whose table has room for every cluster. *)
Record geom (s : RAMFS) : Prop := {
  ge_base : RamDiskBase s ≠ 0;
  ge_spc : SectorsPerCluster (RamDiskBpb s) = 4;
  ge_root : RootEntryCount (RamDiskBpb s) = 512;
  ge_fat : 0 ≤ RamDiskFat s;
  ge_total : 2 ≤ total_clusters s < 65535;
  ge_fits : RamDiskFat s + 2 * total_clusters s ≤ RamDiskRootDir s;
  ge_dir : RamDiskRootDir s + 30 * 512 ≤ RamDiskDataArea s;
  ge_data : RamDiskDataArea s + CLUSTER * (total_clusters s - 2) ≤ RamDiskSize s;
  ge_bytes : all_bytes (DiskBytes s)
}.

(** Same layout, other contents. *)
Lemma geom_disk s d : geom s → all_bytes d → geom (set_disk d s).
Proof. intros [] Hd. by constructor. Qed.

Definition fat (s : RAMFS) (c : Z) : Z := rd16 (RamDiskFat s + 2 * c) (DiskBytes s).
Definition first_of (s : RAMFS) (i : nat) : Z := rd16 (entry_at s i + 24) (DiskBytes s).
Definition size_of (s : RAMFS) (i : nat) : Z := rd32 (entry_at s i + 26) (DiskBytes s).
Definition in_range (s : RAMFS) (c : Z) : Prop := 2 ≤ c < total_clusters s.
Definition cluster_at (s : RAMFS) (c : Z) : Z := RamDiskDataArea s + CLUSTER * (c - 2).

Lemma cluster_base s c : geom s → in_range s c → FsClusterBase s c = cluster_at s c ∧ FsClusterSize s = CLUSTER.
Proof.
  intros Hg Hc. unfold FsClusterBase, FsClusterSize, cluster_at, in_range, CLUSTER, RAMDISK_SECTOR_SIZE in *.
  rewrite (ge_spc _ Hg). pose proof (ge_total _ Hg). rewrite (u32_small (c - 2)), u32_small by lia. lia.
Qed.

Lemma ram_load_run {A} s o n (f : (Z → Z) → A) :
  RamDiskBase s ≠ 0 → 0 ≤ o → o + n ≤ RamDiskSize s → load o n f s = Ok (f (DiskBytes s), s).
Proof.
  intros Hb H1 H2. apply deref_ok. unfold in_disk, truthy. by replace (_ && _ && _) with true by lia.
Qed.
Lemma ram_store_run s o bs :
  RamDiskBase s ≠ 0 → 0 ≤ o → o + Z.of_nat (length bs) ≤ RamDiskSize s →
  store o bs s = Ok (tt, set_disk (put_bytes o bs (DiskBytes s)) s).
Proof.
  intros Hb H1 H2. unfold store, mbind, M_bind. simpl. unfold in_disk, truthy. by replace (_ && _ && _) with true by lia.
Qed.

Lemma geom_offsets s : geom s → 0 ≤ RamDiskRootDir s ∧ 0 ≤ RamDiskDataArea s ∧ RamDiskDataArea s ≤ RamDiskSize s.
Proof. intros []. unfold CLUSTER in *. lia. Qed.

Lemma fat_run s c : geom s → 0 ≤ c < total_clusters s → FsReadFatEntry c s = Ok (fat s c, s).
Proof.
  intros Hg Hc. unfold FsReadFatEntry. unfold mbind at 1, M_bind at 1. simpl. pose proof (geom_offsets s Hg).
  destruct Hg. apply ram_load_run; unfold CLUSTER in *; lia.
Qed.
Lemma first_run s i : geom s → (i < 512)%nat → FirstCluster i s = Ok (first_of s i, s).
Proof.
  intros Hg Hi. unfold FirstCluster. unfold mbind at 1, M_bind at 1. simpl. pose proof (geom_offsets s Hg).
  destruct Hg. unfold entry_at, sizeof_FAT16_DIR_ENTRY. apply ram_load_run; unfold CLUSTER in *; lia.
Qed.
Lemma size_run s i : geom s → (i < 512)%nat → FileSize i s = Ok (size_of s i, s).
Proof.
  intros Hg Hi. unfold FileSize. unfold mbind at 1, M_bind at 1. simpl. pose proof (geom_offsets s Hg).
  destruct Hg. unfold entry_at, sizeof_FAT16_DIR_ENTRY. apply ram_load_run; unfold CLUSTER in *; lia.
Qed.

(** ** Chains *)

Fixpoint chain (s : RAMFS) (cs : list Z) : Prop :=
  match cs with
  | [] => True
  | c :: l => in_range s c ∧ fat s c = hd 0xFFFF l ∧ chain s l
  end.

(** The file of a directory entry: the clusters of its chain. *)
Record file (s : RAMFS) (i : nat) (cs : list Z) : Prop := {
  fi_idx : (i < 512)%nat;
  fi_first : first_of s i = hd 0 cs;
  fi_chain : chain s cs;
  fi_nodup : NoDup cs
}.

Lemma chain_elem s cs c : chain s cs → c ∈ cs → in_range s c ∧ fat s c ≠ 0.
Proof.
  induction cs as [|c0 cs IH]; [by intros _ ?%elem_of_nil|]. intros (Hr & Hf & Hc) [->|Hin]%elem_of_cons; [|by apply IH].
  split; [done|]. rewrite Hf. destruct cs as [|c' cs]; [done|]. destruct Hc as (Hr' & _). simpl. unfold in_range in Hr'. lia.
Qed.
Lemma chain_lookup s cs k c : chain s cs → cs !! k = Some c → in_range s c.
Proof. intros Hc Hk. apply (chain_elem s cs c Hc). by apply list_elem_of_lookup_2 in Hk. Qed.

(** The place of byte [off] of a file. *)
Definition place (cs : list Z) (off : Z) : option (Z * Z) := (λ c, (c, off mod CLUSTER)) <$> cs !! Z.to_nat (off / CLUSTER).

Lemma chain_walk s cs : geom s → chain s cs → cs ≠ [] → ∀ off, 0 ≤ off →
  ∃ n, loops_to (chain_turn CLUSTER) n (hd 0 cs, off) s (place cs off) s ∧ n ≤ Z.of_nat (length cs) + 1.
Proof.
  intros Hg. induction cs as [|c cs IH]; intros Hc Hne off Hoff; [done|]. clear Hne. destruct Hc as (Hr & Hf & Hc).
  cbn [hd length]. destruct (Z.lt_ge_cases off CLUSTER) as [Hlt|Hge].
  - exists 1. split; [|lia]. apply loops_done. unfold chain_turn. replace (CLUSTER <=? off) with false by lia.
    unfold place. rewrite Z.div_small, Z.mod_small by (unfold CLUSTER in *; lia). done.
  - assert (Hbody : chain_turn CLUSTER (c, off) s =
      Ok (match cs with [] => inr None | c' :: _ => inl (c', off - CLUSTER) end, s)).
    { unfold chain_turn. replace (CLUSTER <=? off) with true by lia. pose proof (ge_total s Hg).
      erewrite bind_ok; [|apply fat_run; [done|unfold in_range in Hr; lia]]. rewrite Hf. destruct cs as [|c' cs]; [done|].
      destruct Hc as ([? ?] & _). cbn [hd]. by replace (_ || _) with false by lia. }
    assert (Hpl : place (c :: cs) off = place cs (off - CLUSTER)).
    { unfold place. assert (Hd : off / CLUSTER = (off - CLUSTER) / CLUSTER + 1) by (unfold CLUSTER; Z.div_mod_to_equations; lia).
      assert (Hm : off mod CLUSTER = (off - CLUSTER) mod CLUSTER) by (unfold CLUSTER in *; Z.div_mod_to_equations; lia).
      rewrite Hd, Hm, Z2Nat.inj_add, Nat.add_comm by (try apply Z.div_pos; unfold CLUSTER in *; lia). done. }
    rewrite Hpl. destruct cs as [|c' cs].
    + exists 1. split; [|simpl; lia]. apply loops_done. rewrite Hbody. unfold place. by rewrite lookup_nil.
    + destruct (IH Hc ltac:(done) (off - CLUSTER)) as (n & Hn & Hle); [lia|]. exists (n + 1). split; [|lia].
      eapply loops_step; [exact Hbody|exact Hn].
Qed.

Lemma total_bound s cs : geom s → chain s cs → NoDup cs → Z.of_nat (length cs) ≤ 65535.
Proof.
  intros Hg Hc Hnd. pose proof (ge_total s Hg). transitivity (total_clusters s); [|lia]. apply NoDup_bounded_length; [lia|done|].
  intros c Hin. destruct (chain_elem s cs c Hc Hin) as [[] _]. lia.
Qed.

Lemma ram_resolve_run s i cs off : geom s → file s i cs → 0 ≤ off →
  FsResolveClusterChain i off s = Ok (if off <? size_of s i then place cs off else None, s).
Proof.
  intros Hg [Hi Hfirst Hc Hnd] Hoff. unfold FsResolveClusterChain. erewrite bind_ok; [|by apply first_run]. rewrite Hfirst.
  destruct cs as [|c cs].
  { cbn [hd]. cbn [Z.eqb]. unfold place. rewrite lookup_nil. by destruct (off <? size_of s i). }
  pose proof Hc as ([Hc2 _] & _). cbn [hd]. replace (c =? 0) with false by lia.
  erewrite bind_ok; [|by apply size_run]. destruct (Z.leb_spec (size_of s i) off) as [Hle|Hlt].
  { by replace (off <? size_of s i) with false by lia. }
  replace (off <? size_of s i) with true by lia. unfold mbind at 1, M_bind at 1. cbn [mget].
  destruct (cluster_base s c Hg (proj1 Hc)) as [_ ->].
  destruct (chain_walk s (c :: cs) Hg Hc ltac:(done) off Hoff) as (n & Hn & Hle).
  pose proof (total_bound s _ Hg Hc Hnd). eapply loop_ok; [exact Hn|lia].
Qed.

(** ** Free clusters *)

Lemma free_walk s : geom s → ∀ (d : nat) c, 2 ≤ c → total_clusters s - c = Z.of_nat d →
  ∃ n r s', loops_to (free_turn (total_clusters s)) n c s r s' ∧ n ≤ Z.of_nat d + 1 ∧
    match r with
    | None => s' = s ∧ ∀ c', c ≤ c' < total_clusters s → fat s c' ≠ 0
    | Some f => c ≤ f < total_clusters s ∧ fat s f = 0 ∧ (∀ c', c ≤ c' < f → fat s c' ≠ 0) ∧
        s' = set_disk (put_bytes (RamDiskFat s + 2 * f) (bytes16 0xFFFF) (DiskBytes s)) s
    end.
Proof.
  intros Hg. induction d as [|d IH]; intros c Hc Hd.
  { exists 1, None, s. split; [|split; [lia|split; [done|lia]]]. apply loops_done. unfold free_turn.
    by replace (c <? total_clusters s) with false by lia. }
  assert (Hrd : FsReadFatEntry c s = Ok (fat s c, s)) by (apply fat_run; [done|lia]).
  destruct (Z.eqb_spec (fat s c) 0) as [H0|H0].
  - eexists 1, (Some c), _. split; [apply loops_done|split; [lia|split; [lia|split; [done|split; [lia|reflexivity]]]]].
    unfold free_turn. replace (c <? total_clusters s) with true by lia. rewrite (bind_ok _ _ _ _ _ Hrd), H0. cbn [Z.eqb].
    unfold FsWriteFatEntry. erewrite bind_ok; [reflexivity|]. unfold mbind at 1, M_bind at 1. cbn [mget].
    pose proof (geom_offsets s Hg). destruct Hg. apply ram_store_run; [done|lia|]. simpl. unfold CLUSTER in *. lia.
  - destruct (IH (c + 1)) as (n & r & s' & Hn & Hle & Hr); [lia..|]. exists (n + 1), r, s'. split; [|split; [lia|]].
    + eapply loops_step; [|exact Hn]. unfold free_turn. replace (c <? total_clusters s) with true by lia.
      rewrite (bind_ok _ _ _ _ _ Hrd). by replace (fat s c =? 0) with false by lia.
    + destruct r as [f|].
      * destruct Hr as (H1 & H2 & H3 & H4). split_and!; [lia|lia|done| |done]. intros c' Hc'.
        destruct (decide (c' = c)) as [->|]; [done|apply H3; lia].
      * destruct Hr as [-> H3]. split; [done|]. intros c' Hc'. destruct (decide (c' = c)) as [->|]; [done|apply H3; lia].
Qed.

Lemma chase_walk s cs : geom s → chain s cs → cs ≠ [] →
  ∃ n l, last cs = Some l ∧ loops_to chase_turn n (hd 0 cs) s l s ∧ n ≤ Z.of_nat (length cs).
Proof.
  intros Hg. induction cs as [|c cs IH]; intros Hc Hne; [done|]. clear Hne. destruct Hc as ([Hr1 Hr2] & Hf & Hc). cbn [hd length].
  assert (Hb : chase_turn c s = Ok (match cs with [] => inr c | c' :: _ => inl c' end, s)).
  { unfold chase_turn. replace (c =? 0) with false by lia. erewrite bind_ok; [|apply fat_run; [done|lia]]. rewrite Hf.
    destruct cs as [|c' cs]; [done|]. destruct Hc as ([? ?] & _). pose proof (ge_total s Hg). cbn [hd].
    by replace (_ || _) with false by lia. }
  destruct cs as [|c' cs].
  - exists 1, c. split; [done|]. split; [by apply loops_done|simpl; lia].
  - destruct (IH Hc ltac:(done)) as (n & l & Hl & Hn & Hle). exists (n + 1), l. split; [done|]. split; [|lia].
    eapply loops_step; [exact Hb|exact Hn].
Qed.

(** ** What a store changes *)

Definition fbyte (s : RAMFS) (cs : list Z) (off : Z) : option Z :=
  (λ co, DiskBytes s (cluster_at s co.1 + co.2)) <$> place cs off.

(** The parts of the disk a store leaves alone. *)
Definition fats_kept (s : RAMFS) (d : Z → Z) : Prop := ∀ c, 0 ≤ c < total_clusters s → fat (set_disk d s) c = fat s c.
Definition sizes_kept (s : RAMFS) (d : Z → Z) : Prop := ∀ j, (j < 512)%nat → size_of (set_disk d s) j = size_of s j.
Definition firsts_kept (s : RAMFS) (d : Z → Z) : Prop := ∀ j, (j < 512)%nat → first_of (set_disk d s) j = first_of s j.
Definition data_kept (s : RAMFS) (d : Z → Z) : Prop :=
  ∀ c k, in_range s c → 0 ≤ k < CLUSTER → d (cluster_at s c + k) = DiskBytes s (cluster_at s c + k).

Ltac geom_lia := unfold fat, first_of, size_of, in_range, cluster_at, entry_at, sizeof_FAT16_DIR_ENTRY, CLUSTER in *; cbn [length bytes16 bytes32 app set_disk RamDiskFat RamDiskRootDir RamDiskDataArea] in *; lia.

Lemma put_fat_effect s c v : geom s → 0 ≤ c < total_clusters s → 0 ≤ v < 65536 →
  let d := put_bytes (RamDiskFat s + 2 * c) (bytes16 v) (DiskBytes s) in
  geom (set_disk d s) ∧ fat (set_disk d s) c = v ∧
  (∀ c', 0 ≤ c' < total_clusters s → c' ≠ c → fat (set_disk d s) c' = fat s c') ∧
  sizes_kept s d ∧ firsts_kept s d ∧ data_kept s d.
Proof.
  intros Hg Hc Hv d. pose proof Hg as [? ? ? ? ? ? ? ? Hb]. split_and!.
  - apply geom_disk; [done|]. apply put_all_bytes; [done|apply bytes16_bytes].
  - apply rd16_put. done.
  - intros c' Hc' Hne. apply rd16_other. geom_lia.
  - intros j Hj. apply rd32_other. geom_lia.
  - intros j Hj. apply rd16_other. geom_lia.
  - intros c' k Hr Hk. apply put_out. geom_lia.
Qed.

Lemma put_first_effect s i v : geom s → (i < 512)%nat → 0 ≤ v < 65536 →
  let d := put_bytes (entry_at s i + 24) (bytes16 v) (DiskBytes s) in
  geom (set_disk d s) ∧ first_of (set_disk d s) i = v ∧
  (∀ j, (j < 512)%nat → j ≠ i → first_of (set_disk d s) j = first_of s j) ∧
  sizes_kept s d ∧ fats_kept s d ∧ data_kept s d.
Proof.
  intros Hg Hi Hv d. pose proof Hg as [? ? ? ? ? ? ? ? Hb]. split_and!.
  - apply geom_disk; [done|]. apply put_all_bytes; [done|apply bytes16_bytes].
  - apply rd16_put. done.
  - intros j Hj Hne. apply rd16_other. geom_lia.
  - intros j Hj. apply rd32_other. destruct (decide (j = i)) as [->|]; geom_lia.
  - intros c Hc. apply rd16_other. geom_lia.
  - intros c' k Hr Hk. apply put_out. geom_lia.
Qed.

Lemma put_size_effect s i v : geom s → (i < 512)%nat → 0 ≤ v < 4294967296 →
  let d := put_bytes (entry_at s i + 26) (bytes32 v) (DiskBytes s) in
  geom (set_disk d s) ∧ size_of (set_disk d s) i = v ∧
  (∀ j, (j < 512)%nat → j ≠ i → size_of (set_disk d s) j = size_of s j) ∧
  firsts_kept s d ∧ fats_kept s d ∧ data_kept s d.
Proof.
  intros Hg Hi Hv d. pose proof Hg as [? ? ? ? ? ? ? ? Hb]. split_and!.
  - apply geom_disk; [done|]. apply put_all_bytes; [done|apply bytes32_bytes].
  - apply rd32_put. done.
  - intros j Hj Hne. apply rd32_other. geom_lia.
  - intros j Hj. apply rd16_other. destruct (decide (j = i)) as [->|]; geom_lia.
  - intros c Hc. apply rd16_other. geom_lia.
  - intros c' k Hr Hk. apply put_out. geom_lia.
Qed.

Lemma put_data_effect s c o bs : geom s → in_range s c → 0 ≤ o → o + Z.of_nat (length bs) ≤ CLUSTER → Forall (λ b, 0 ≤ b < 256) bs →
  let d := put_bytes (cluster_at s c + o) bs (DiskBytes s) in
  geom (set_disk d s) ∧ sizes_kept s d ∧ firsts_kept s d ∧ fats_kept s d ∧
  (∀ c' k, in_range s c' → 0 ≤ k < CLUSTER → d (cluster_at s c' + k) =
     if bool_decide (c' = c ∧ o ≤ k < o + Z.of_nat (length bs)) then default 0 (bs !! Z.to_nat (k - o)) else DiskBytes s (cluster_at s c' + k)).
Proof.
  intros Hg Hc Ho Hl Hbs d. pose proof Hg as [? ? ? ? ? ? ? ? Hb]. split_and!.
  - apply geom_disk; [done|]. by apply put_all_bytes.
  - intros j Hj. apply rd32_other. geom_lia.
  - intros j Hj. apply rd16_other. geom_lia.
  - intros c' Hc'. apply rd16_other. geom_lia.
  - intros c' k Hr Hk. destruct (bool_decide_reflect (c' = c ∧ o ≤ k < o + Z.of_nat (length bs))) as [[-> Hin]|Hout].
    + unfold d. rewrite put_in by lia. do 2 f_equal. lia.
    + apply put_out. destruct (decide (c' = c)) as [->|Hne]; [lia|geom_lia].
Qed.

(** Chains and files over a store. *)
Lemma chain_kept s d cs : chain s cs → (∀ c, c ∈ cs → fat (set_disk d s) c = fat s c) → chain (set_disk d s) cs.
Proof.
  induction cs as [|c cs IH]; [done|]. intros (Hr & Hf & Hc) Hk. split; [done|]. split; [rewrite Hk by left; done|].
  apply IH; [done|]. intros c' Hc'. apply Hk. by right.
Qed.
Lemma file_kept s d i cs : fats_kept s d → firsts_kept s d → file s i cs → file (set_disk d s) i cs.
Proof.
  intros Hf H1 [Hi Hfi Hc Hn]. constructor; [done|by rewrite H1| |done]. apply chain_kept; [done|].
  intros c Hin. destruct (chain_elem s cs c Hc Hin) as [[] _]. apply Hf. lia.
Qed.
Lemma ram_chain_snoc s d cs c : chain s cs → c ∉ cs → in_range s c →
  (∀ c', c' ∈ cs → last cs ≠ Some c' → fat (set_disk d s) c' = fat s c') →
  (∀ l, last cs = Some l → fat (set_disk d s) l = c) → fat (set_disk d s) c = 0xFFFF → NoDup cs → chain (set_disk d s) (cs ++ [c]).
Proof.
  intros Hc Hni Hr Hk Hl Hcc Hnd. induction cs as [|c0 cs IH]; [done|]. destruct Hc as (Hr0 & Hf0 & Hc). cbn [app chain].
  apply not_elem_of_cons in Hni as [_ Hni]. apply NoDup_cons in Hnd as [Hn0 Hnd].
  split; [done|]. destruct cs as [|c1 cs].
  - split; [by apply Hl|done].
  - split.
    + rewrite Hk; [done|left|]. intros Hlast. apply Hn0. rewrite last_cons_cons in Hlast. apply last_Some_elem_of in Hlast. done.
    + apply IH; try done. intros c' Hc' Hl'. apply Hk; [by right|]. by rewrite last_cons_cons.
Qed.

(** ** Growing a file *)

(** The other files: not touched by what happens to the file at [i]. *)
Definition others_kept (s : RAMFS) (d : Z → Z) (i : nat) (cs : list Z) : Prop :=
  ∀ j csj, j ≠ i → file s j csj → csj ## cs →
    file (set_disk d s) j csj ∧ size_of (set_disk d s) j = size_of s j ∧
    ∀ off, 0 ≤ off → fbyte (set_disk d s) csj off = fbyte s csj off.

Lemma fbyte_data s d cs off : data_kept s d → chain s cs → 0 ≤ off → fbyte (set_disk d s) cs off = fbyte s cs off.
Proof.
  intros Hd Hc Hoff. unfold fbyte, place. destruct (cs !! _) as [c|] eqn:Hk; [|done]. simpl. f_equal.
  apply (Hd c (off mod CLUSTER)); [by eapply chain_lookup|]. apply Z.mod_pos_bound. done.
Qed.

(** The file at [i] had the clusters [cs] and has [cs1] on the new disk: its
    chain was extended by free clusters, and nothing else happened to chains. *)
Record extends (s : RAMFS) (d : Z → Z) (i : nat) (cs cs1 : list Z) : Prop := {
  ex_geom : geom (set_disk d s);
  ex_file : file (set_disk d s) i cs1;
  ex_prefix : cs `prefix_of` cs1;
  ex_new : ∀ c, c ∈ cs1 → c ∈ cs ∨ fat s c = 0;
  ex_used : ∀ c, in_range s c → fat s c ≠ 0 → fat (set_disk d s) c ≠ 0;
  ex_sizes : sizes_kept s d;
  ex_others : others_kept s d i cs
}.

Lemma extends_refl s i cs : geom s → file s i cs → extends s (DiskBytes s) i cs cs.
Proof.
  intros Hg Hf. assert (Hid : set_disk (DiskBytes s) s = s) by by destruct s. constructor; rewrite ?Hid; try done; [by left|].
  intros j csj Hj Hfj Hdis. by rewrite Hid.
Qed.

Lemma extends_trans s d1 d2 i cs cs1 cs2 :
  extends s d1 i cs cs1 → extends (set_disk d1 s) d2 i cs1 cs2 → extends s d2 i cs cs2.
Proof.
  intros [G1 F1 P1 N1 U1 S1 O1] [G2 F2 P2 N2 U2 S2 O2]. constructor; [exact G2|exact F2|by etransitivity| | | |].
  - intros c Hc. destruct (N2 c Hc) as [?|H0]; [by apply N1|]. destruct (decide (fat s c = 0)) as [|Hne]; [by right|].
    exfalso. apply (U1 c); [|done|done]. by destruct (chain_elem _ _ c (fi_chain _ _ _ F2) Hc).
  - intros c Hr Hne. apply (U2 c); [done|]. by apply U1.
  - intros j Hj. rewrite <- (S1 j Hj). by apply S2.
  - intros j csj Hj Hfj Hdis. destruct (O1 j csj Hj Hfj Hdis) as (A1 & B1 & C1).
    destruct (O2 j csj Hj A1) as (A2 & B2 & C2).
    { intros c Hc Hc1. destruct (N1 c Hc1) as [?|H0]; [by apply (Hdis c)|]. by apply (chain_elem s csj c (fi_chain _ _ _ Hfj)) in Hc as [_ ?]. }
    split; [exact A2|]. split; [by rewrite <- B1|]. intros off Hoff. rewrite <- C1 by done. by apply C2.
Qed.

(** A free cluster marked as the last one and linked to the chain. *)
Lemma extends_snoc s d i cs c :
  file s i cs → in_range s c → fat s c = 0 → geom (set_disk d s) → sizes_kept s d → data_kept s d →
  (∀ j, (j < 512)%nat → first_of (set_disk d s) j = if decide (j = i) then hd c cs else first_of s j) →
  (∀ c', 0 ≤ c' < total_clusters s →
     fat (set_disk d s) c' = if decide (c' = c) then 0xFFFF else if decide (last cs = Some c') then c else fat s c') →
  extends s d i cs (cs ++ [c]).
Proof.
  intros [Hi Hfirst Hc Hnd] [Hr1 Hr2] H0 Hg Hs Hd Hfi Hfa.
  assert (Hni : c ∉ cs) by (intros Hin; by apply (chain_elem s cs c Hc) in Hin as [_ ?]).
  assert (Hrange : ∀ c', c' ∈ cs → 0 ≤ c' < total_clusters s) by (intros c' Hin; destruct (chain_elem s cs c' Hc Hin) as [[] _]; lia).
  constructor; [done| |by apply prefix_app_r| | |done|].
  - constructor; [done|rewrite Hfi, decide_True by done; by destruct cs| |].
    + apply ram_chain_snoc; try done.
      * intros c' Hin Hl. rewrite Hfa, !decide_False by (auto; congruence). done.
      * intros l Hl. apply last_Some_elem_of in Hl as Hin. rewrite Hfa, decide_False, decide_True by (auto; congruence). done.
      * rewrite Hfa, decide_True by lia. done.
    + apply NoDup_app. split; [done|]. split; [|apply NoDup_singleton]. intros x Hx. rewrite list_elem_of_singleton. by intros ->.
  - intros c' [?|Hin]%elem_of_app; [by left|]. right. apply list_elem_of_singleton in Hin. by subst c'.
  - intros c' [? ?] Hne. rewrite Hfa by lia. repeat case_decide; [done|lia|done].
  - intros j csj Hj [Aj Bj Cj Dj] Hdis. split; [|split; [by apply Hs|intros off Hoff; by apply fbyte_data]].
    constructor; [done|by rewrite Hfi, decide_False by done| |done]. apply chain_kept; [done|]. intros c' Hc'.
    destruct (chain_elem s csj c' Cj Hc') as [[? ?] ?]. rewrite Hfa, !decide_False; [done| |congruence|lia].
    intros Hl. apply last_Some_elem_of in Hl. by apply (Hdis c').
Qed.

Lemma FsWriteFatEntry_run s c v : geom s → 0 ≤ c < total_clusters s →
  FsWriteFatEntry c v s = Ok (tt, set_disk (put_bytes (RamDiskFat s + 2 * c) (bytes16 v) (DiskBytes s)) s).
Proof. intros Hg Hc. pose proof (geom_offsets s Hg). destruct Hg. unfold FsWriteFatEntry, mbind, M_bind. cbn [mget]. apply ram_store_run; geom_lia. Qed.
Lemma set_FirstCluster_run s i v : geom s → (i < 512)%nat →
  set_FirstCluster i v s = Ok (tt, set_disk (put_bytes (entry_at s i + 24) (bytes16 v) (DiskBytes s)) s).
Proof. intros Hg Hi. pose proof (geom_offsets s Hg). destruct Hg. unfold set_FirstCluster, mbind, M_bind. cbn [mget]. apply ram_store_run; geom_lia. Qed.
Lemma set_FileSize_run s i v : geom s → (i < 512)%nat →
  set_FileSize i v s = Ok (tt, set_disk (put_bytes (entry_at s i + 26) (bytes32 v) (DiskBytes s)) s).
Proof. intros Hg Hi. pose proof (geom_offsets s Hg). destruct Hg. unfold set_FileSize, mbind, M_bind. cbn [mget]. apply ram_store_run; geom_lia. Qed.

Lemma grow_run s i cs : geom s → file s i cs →
  ∃ r d, grow_chain i s = Ok (r, set_disk d s) ∧ data_kept s d ∧
    match r with
    | None => d = DiskBytes s ∧ ∀ c, in_range s c → fat s c ≠ 0
    | Some (c, o) => o = 0 ∧ extends s d i cs (cs ++ [c])
    end.
Proof.
  intros Hg Hfile. pose proof Hfile as [Hi Hfirst Hc Hnd]. unfold grow_chain. unfold mbind at 1, M_bind at 1. cbn [mget].
  pose proof (ge_total s Hg) as Htot.
  destruct (free_walk s Hg (Z.to_nat (total_clusters s - 2)) 2) as (n & r & s1 & Hn & Hle & Hr); [lia..|].
  erewrite bind_ok; [|eapply loop_ok; [exact Hn|lia]]. destruct r as [c|].
  2:{ destruct Hr as [-> Hall]. exists None, (DiskBytes s). split; [by destruct s|done]. }
  destruct Hr as (Hcr & Hc0 & _ & ->).
  destruct (put_fat_effect s c 0xFFFF Hg ltac:(lia) ltac:(lia)) as (Hg1 & Hf1 & Hfo1 & Hs1 & Hfi1 & Hd1).
  set (d1 := put_bytes _ _ (DiskBytes s)) in *. set (s1 := set_disk d1 s) in *.
  assert (Hu : u16 c = c) by (apply Z.mod_small; lia). rewrite Hu.
  rewrite (bind_ok _ _ _ _ _ (first_run s1 i Hg1 Hi)), (Hfi1 i Hi : first_of s1 i = _), Hfirst. destruct cs as [|c0 cs'].
  - cbn [hd]. cbn [Z.eqb]. rewrite (bind_ok _ _ _ _ _ (set_FirstCluster_run s1 i c Hg1 Hi)).
    destruct (put_first_effect s1 i c Hg1 Hi ltac:(lia)) as (Hg2 & Hf2 & Hfo2 & Hs2 & Hfa2 & Hd2).
    set (d2 := put_bytes _ _ (DiskBytes s1)) in *.
    assert (Hdt : data_kept s d2) by (intros c' k Hr Hk; rewrite <- (Hd1 c' k Hr Hk); by apply Hd2).
    exists (Some (c, 0)), d2. split; [done|]. split; [done|]. split; [done|]. apply extends_snoc; try done.
    + intros j Hj. rewrite <- (Hs1 j Hj). by apply Hs2.
    + intros j Hj. case_decide as Hji; [by rewrite Hji|]. rewrite <- (Hfi1 j Hj). by apply Hfo2.
    + intros c' Hc'. transitivity (fat s1 c'); [by apply Hfa2|]. case_decide as Hcc; [by rewrite Hcc|]. by apply Hfo1.
  - cbn [hd]. pose proof Hc as ([Hc1 Hc2] & _). replace (c0 =? 0) with false by lia.
    assert (Hchain1 : chain s1 (c0 :: cs')).
    { apply chain_kept; [done|]. intros c' Hc'. destruct (chain_elem s _ c' Hc Hc') as [[] ?]. apply Hfo1; [lia|congruence]. }
    destruct (chase_walk s1 (c0 :: cs') Hg1 Hchain1 ltac:(done)) as (n2 & l & Hl & Hn2 & Hle2).
    pose proof (total_bound s1 _ Hg1 Hchain1 Hnd) as Htb. apply last_Some_elem_of in Hl as Hlin.
    destruct (chain_elem s _ l Hc Hlin) as [[Hl1 Hl2] Hl0].
    destruct (put_fat_effect s1 l c Hg1 (conj (ltac:(lia) : 0 ≤ l) Hl2) ltac:(lia)) as (Hg2 & Hf2 & Hfo2 & Hs2 & Hfi2 & Hd2).
    erewrite (bind_ok (_ ≫= _)); [|rewrite (bind_ok _ _ _ _ _ (loop_ok _ _ _ _ _ _ Hn2 ltac:(lia))); apply FsWriteFatEntry_run; [done|split; [lia|exact Hl2]]].
    set (d2 := put_bytes _ _ (DiskBytes s1)) in *.
    assert (Hdt : data_kept s d2) by (intros c' k Hr Hk; rewrite <- (Hd1 c' k Hr Hk); by apply Hd2).
    exists (Some (c, 0)), d2. split; [done|]. split; [done|]. split; [done|]. apply extends_snoc; try done.
    + intros j Hj. rewrite <- (Hs1 j Hj). by apply Hs2.
    + intros j Hj. transitivity (first_of s1 j); [by apply Hfi2|]. rewrite (Hfi1 j Hj : first_of s1 j = _). case_decide as Hji; [by rewrite Hji|done].
    + intros c' Hc'. rewrite Hl. destruct (decide (c' = l)) as [->|Hne].
      * rewrite decide_False by congruence. rewrite decide_True by done. exact Hf2.
      * transitivity (fat s1 c'); [by apply Hfo2|]. case_decide as Hcc; [by rewrite Hcc|]. rewrite decide_False by congruence. by apply Hfo1.
Qed.

(** ** Writing *)

Lemma place_prefix cs cs1 off co : cs `prefix_of` cs1 → place cs off = Some co → place cs1 off = Some co.
Proof.
  intros Hp. unfold place. destruct (cs !! _) as [c|] eqn:Hk; [|done]. by rewrite (prefix_lookup_Some _ _ _ _ Hk Hp).
Qed.
Lemma place_inside cs off : 0 ≤ off < CLUSTER * Z.of_nat (length cs) → ∃ c, place cs off = Some (c, off mod CLUSTER) ∧ c ∈ cs.
Proof.
  intros [H0 H1]. unfold place. destruct (lookup_lt_is_Some_2 cs (Z.to_nat (off / CLUSTER))) as [c Hc].
  { unfold CLUSTER in *. Z.div_mod_to_equations. lia. }
  exists c. rewrite Hc. split; [done|]. by eapply list_elem_of_lookup_2.
Qed.
Lemma place_outside cs off : CLUSTER * Z.of_nat (length cs) ≤ off → place cs off = None.
Proof. intros H. unfold place. rewrite lookup_ge_None_2; [done|]. unfold CLUSTER in *. Z.div_mod_to_equations. lia. Qed.
Lemma place_snoc cs c : place (cs ++ [c]) (CLUSTER * Z.of_nat (length cs)) = Some (c, 0).
Proof.
  unfold place. rewrite Z.mul_comm, Z.div_mul, Z.mod_mul, Nat2Z.id by done. by rewrite list_lookup_middle.
Qed.

(** The cluster a turn writes to: of the chain, or a new one at its end. *)
Lemma slot_run s i cs off : geom s → file s i cs → 0 ≤ off < size_of s i → off ≤ CLUSTER * Z.of_nat (length cs) →
  ∃ r d, (r ← FsResolveClusterChain i off; match r with Some co => mret (Some co) | None => grow_chain i end) s = Ok (r, set_disk d s) ∧
    data_kept s d ∧
    match r with
    | None => d = DiskBytes s ∧ off = CLUSTER * Z.of_nat (length cs) ∧ ∀ c, in_range s c → fat s c ≠ 0
    | Some (c, o) => ∃ cs1, extends s d i cs cs1 ∧ c ∈ cs1 ∧ o = off mod CLUSTER ∧ place cs1 off = Some (c, o)
    end.
Proof.
  intros Hg Hf [H0 H1] H2. rewrite (bind_ok _ _ _ _ _ (ram_resolve_run s i cs off Hg Hf H0)). replace (off <? size_of s i) with true by lia.
  destruct (Z.lt_ge_cases off (CLUSTER * Z.of_nat (length cs))) as [Hlt|Hge].
  - destruct (place_inside cs off ltac:(lia)) as (c & Hp & Hin). rewrite Hp. exists (Some (c, off mod CLUSTER)), (DiskBytes s).
    split; [by destruct s|]. split; [done|]. exists cs. split; [by apply extends_refl|done].
  - rewrite place_outside by lia. destruct (grow_run s i cs Hg Hf) as (r & d & -> & Hd & Hr). exists r, d.
    split; [done|]. split; [done|]. assert (Hoff : off = CLUSTER * Z.of_nat (length cs)) by lia. destruct r as [[c o]|].
    + destruct Hr as [-> He]. exists (cs ++ [c]). split; [done|]. split; [set_solver|].
      rewrite Hoff. split; [by rewrite Z.mul_comm, Z.mod_mul|apply place_snoc].
    + by destruct Hr.
Qed.

(** The bytes of a file after a store into one of its clusters. *)
Lemma fbyte_put s i cs off c o bs : geom s → file s i cs → 0 ≤ off → place cs off = Some (c, o) →
  o + Z.of_nat (length bs) ≤ CLUSTER → Forall (λ b, 0 ≤ b < 256) bs →
  ∀ a, 0 ≤ a → fbyte (set_disk (put_bytes (cluster_at s c + o) bs (DiskBytes s)) s) cs a =
    if bool_decide (off ≤ a < off + Z.of_nat (length bs)) then bs !! Z.to_nat (a - off) else fbyte s cs a.
Proof.
  intros Hg [Hi Hfi Hc Hnd] Hoff Hp Hl Hbs a Ha. unfold place in Hp. destruct (cs !! _) as [c'|] eqn:Hk; [|done].
  simplify_eq/=. pose proof (chain_lookup _ _ _ _ Hc Hk) as Hr.
  assert (Hob : 0 ≤ off mod CLUSTER < CLUSTER) by by apply Z.mod_pos_bound.
  destruct (put_data_effect s c (off mod CLUSTER) bs Hg Hr ltac:(lia) Hl Hbs) as (_ & _ & _ & _ & Hd).
  unfold fbyte, place. pose proof (Z.div_mod off CLUSTER ltac:(done)) as Eo. pose proof (Z.div_mod a CLUSTER ltac:(done)) as Ea.
  assert (Hab : 0 ≤ a mod CLUSTER < CLUSTER) by by apply Z.mod_pos_bound.
  assert (Hq : 0 ≤ off / CLUSTER ∧ 0 ≤ a / CLUSTER) by (split; by apply Z.div_pos).
  destruct (bool_decide_reflect (off ≤ a < off + Z.of_nat (length bs))) as [Hin|Hout].
  - assert (Hdiv : a / CLUSTER = off / CLUSTER) by (unfold CLUSTER in *; Z.div_mod_to_equations; lia).
    rewrite Hdiv, Hk. cbn [fmap option_fmap option_map fst snd]. cbn [set_disk DiskBytes].
    change (cluster_at (set_disk _ s) c) with (cluster_at s c).
    rewrite Hd by done. rewrite bool_decide_true by (split; [done|rewrite Hdiv in Ea; lia]). replace (a mod CLUSTER - off mod CLUSTER) with (a - off) by (rewrite Hdiv in Ea; lia).
    destruct (lookup_lt_is_Some_2 bs (Z.to_nat (a - off))) as [b Hb]; [lia|]. by rewrite Hb.
  - destruct (cs !! Z.to_nat (a / CLUSTER)) as [c1|] eqn:Hk1; [|done]. cbn [fmap option_fmap option_map fst snd]. cbn [set_disk DiskBytes].
    change (cluster_at (set_disk _ s) c1) with (cluster_at s c1).
    rewrite Hd by (try done; by eapply chain_lookup). rewrite bool_decide_false; [done|]. intros [-> Hin].
    pose proof (NoDup_lookup _ _ _ _ Hnd Hk Hk1). apply Hout. assert (off / CLUSTER = a / CLUSTER) by lia. unfold CLUSTER in *. lia.
Qed.

Lemma data_extends s i cs c o bs : geom s → file s i cs → c ∈ cs → 0 ≤ o → o + Z.of_nat (length bs) ≤ CLUSTER → Forall (λ b, 0 ≤ b < 256) bs →
  extends s (put_bytes (cluster_at s c + o) bs (DiskBytes s)) i cs cs.
Proof.
  intros Hg Hf Hin Ho Hl Hbs. destruct (chain_elem s cs c (fi_chain _ _ _ Hf) Hin) as [Hr _].
  destruct (put_data_effect s c o bs Hg Hr Ho Hl Hbs) as (G & S & F & A & D). set (d := put_bytes _ _ _) in *.
  constructor; [done|by apply file_kept|done|by left| |done|].
  - intros c' [? ?] Hne. by rewrite A by lia.
  - intros j csj Hj Hfj Hdis. split; [by apply file_kept|]. split; [by apply S, (fi_idx _ _ _ Hfj)|].
    intros off Hoff. unfold fbyte, place. destruct (csj !! _) as [c'|] eqn:Hk; [|done]. cbn [fmap option_fmap option_map fst snd]. f_equal.
    change (cluster_at (set_disk d s) c') with (cluster_at s c'). change (DiskBytes (set_disk d s)) with d.
    rewrite D; [|by eapply chain_lookup; [apply Hfj|]|by apply Z.mod_pos_bound].
    rewrite bool_decide_false; [done|]. intros [-> _]. apply (Hdis c); [|done]. by eapply list_elem_of_lookup_2.
Qed.

(** [w] bytes of [src] written from [off] on: they are there, the bytes the file
    had elsewhere are kept. *)
Record wrote (s : RAMFS) (d : Z → Z) (i : nat) (cs cs1 : list Z) (off : Z) (src : list Z) (w : Z) : Prop := {
  wr_ext : extends s d i cs cs1;
  wr_new : ∀ a, off ≤ a < off + w → fbyte (set_disk d s) cs1 a = src !! Z.to_nat (a - off);
  wr_old : ∀ a, 0 ≤ a < CLUSTER * Z.of_nat (length cs) → ¬ off ≤ a < off + w → fbyte (set_disk d s) cs1 a = fbyte s cs a;
  wr_len : off + w ≤ CLUSTER * Z.of_nat (length cs1)
}.

Lemma bind_bind {S A B C} (m : M S A) (f : A → M S B) (g : B → M S C) s : ((m ≫= f) ≫= g) s = (m ≫= λ a, f a ≫= g) s.
Proof. unfold mbind, M_bind. by destruct (m s) as [[]| | | |]. Qed.
Lemma place_Some cs off c o : 0 ≤ off → place cs off = Some (c, o) → off - o + CLUSTER ≤ CLUSTER * Z.of_nat (length cs).
Proof.
  unfold place. intros Hoff. destruct (cs !! _) as [c'|] eqn:Hk; [|done]. intros [= -> <-]. apply lookup_lt_Some in Hk.
  unfold CLUSTER in *. Z.div_mod_to_equations. lia.
Qed.

(** One turn: [n] bytes, up to the end of the cluster. *)
Lemma ram_write_turn_run s i cs src off : geom s → file s i cs → src ≠ [] → Forall (λ b, 0 ≤ b < 256) src →
  0 ≤ off → off + Z.of_nat (length src) ≤ size_of s i → off ≤ CLUSTER * Z.of_nat (length cs) →
  (write_turn i (src, off) s = Ok (inr src, s) ∧ off = CLUSTER * Z.of_nat (length cs) ∧ ∀ c, in_range s c → fat s c ≠ 0) ∨
  ∃ n d cs1, write_turn i (src, off) s = Ok (inl (drop (Z.to_nat n) src, off + n), set_disk d s) ∧
    0 < n ≤ Z.of_nat (length src) ∧ wrote s d i cs cs1 off src n.
Proof.
  intros Hg Hf Hne Hbs H0 H1 H2. set (L := Z.of_nat (length src)) in *.
  assert (HL : 0 < L) by (destruct src; [done|]; unfold L; cbn [length]; lia).
  pose proof (rd32_bound (entry_at s i + 26) _ (ge_bytes s Hg)) as Hsz. change (rd32 _ _) with (size_of s i) in Hsz.
  destruct (slot_run s i cs off Hg Hf ltac:(lia) H2) as (r & d & Hrun & Hd & Hr).
  assert (Hturn : write_turn i (src, off) s = match r with
     | None => Ok (inr src, set_disk d s)
     | Some (c, o) => (s1 ← mget; fs ← FileSize i;
          let space := FsClusterSize s1 - o in
          let n1 := if fs <? u32 (off + L) then u32 (fs - off) else L in
          let n := if space <? n1 then space else n1 in
          if L <? n then mundef else store (FsClusterBase s1 c + o) (take (Z.to_nat n) src);;
          mret (inl (drop (Z.to_nat n) src, u32 (off + n)))) (set_disk d s) end).
  { unfold write_turn. destruct src as [|b src]; [done|]. fold L. rewrite <- bind_bind, (bind_ok _ _ _ _ _ Hrun). by destruct r as [[c o]|]. }
  destruct r as [[c o]|].
  2:{ left. destruct Hr as (-> & ? & ?). split; [|done]. rewrite Hturn. by destruct s. }
  right. destruct Hr as (cs1 & He & Hin & -> & Hp). pose proof (ex_geom _ _ _ _ _ He) as Hg1. pose proof (ex_file _ _ _ _ _ He) as Hf1.
  set (s1 := set_disk d s) in *. set (o := off mod CLUSTER) in *.
  assert (Ho : 0 ≤ o < CLUSTER) by by apply Z.mod_pos_bound.
  destruct (chain_elem s1 cs1 c (fi_chain _ _ _ Hf1) Hin) as [Hcr _]. destruct (cluster_base s1 c Hg1 Hcr) as [Hcb Hcz].
  set (n := Z.min (CLUSTER - o) L). assert (Hlt : Z.of_nat (length (take (Z.to_nat n) src)) = n) by (rewrite length_take; lia).
  set (d2 := put_bytes (cluster_at s1 c + o) (take (Z.to_nat n) src) (DiskBytes s1)).
  assert (Hbt : Forall (λ b, 0 ≤ b < 256) (take (Z.to_nat n) src)) by by apply Forall_take.
  assert (He2 : extends s1 d2 i cs1 cs1) by (apply data_extends; [done..|lia|lia|done]).
  assert (Hby : ∀ a, 0 ≤ a → fbyte (set_disk d2 s1) cs1 a = if bool_decide (off ≤ a < off + n) then take (Z.to_nat n) src !! Z.to_nat (a - off) else fbyte s1 cs1 a).
  { intros a Ha. pose proof (fbyte_put s1 i cs1 off c o (take (Z.to_nat n) src) Hg1 Hf1 H0 Hp ltac:(lia) Hbt a Ha) as E. by rewrite Hlt in E. }
  exists n, d2, cs1. split; [|split; [lia|]].
  - rewrite Hturn. unfold mbind at 1, M_bind at 1. cbn [mget]. rewrite (bind_ok _ _ _ _ _ (size_run s1 i Hg1 (fi_idx _ _ _ Hf))).
    rewrite (ex_sizes _ _ _ _ _ He i (fi_idx _ _ _ Hf) : size_of s1 i = _), Hcz. cbv zeta. rewrite !u32_small by lia.
    replace (size_of s i <? off + L) with false by lia.
    replace (if CLUSTER - o <? L then CLUSTER - o else L) with n by (case_match; lia). replace (L <? n) with false by lia.
    rewrite Hcb. erewrite bind_ok; [|apply ram_store_run].
    + rewrite u32_small by lia. done.
    + apply Hg1.
    + pose proof (geom_offsets s1 Hg1). unfold in_range, cluster_at, CLUSTER in *. lia.
    + rewrite Hlt. pose proof (ge_data s1 Hg1). unfold in_range, cluster_at, CLUSTER in *. lia.
  - constructor.
    + by eapply extends_trans.
    + intros a Ha. transitivity (fbyte (set_disk d2 s1) cs1 a); [done|]. rewrite Hby, bool_decide_true by lia. apply lookup_take_lt. lia.
    + intros a Ha Hout. transitivity (fbyte (set_disk d2 s1) cs1 a); [done|]. rewrite Hby, bool_decide_false by lia.
      destruct (place_inside cs a Ha) as (c' & Hpa & Hc'). unfold fbyte.
      rewrite Hpa, (place_prefix _ _ _ _ (ex_prefix _ _ _ _ _ He) Hpa). cbn [fmap option_fmap option_map fst snd]. f_equal.
      apply (Hd c' (a mod CLUSTER)); [|by apply Z.mod_pos_bound]. by apply (chain_elem s cs c' (fi_chain _ _ _ Hf)).
    + pose proof (place_Some cs1 off c o H0 Hp). lia.
Qed.

Lemma wrote_nil s i cs off src : geom s → file s i cs → 0 ≤ off → off ≤ CLUSTER * Z.of_nat (length cs) → wrote s (DiskBytes s) i cs cs off src 0.
Proof.
  intros Hg Hf H0 H2. assert (Hid : set_disk (DiskBytes s) s = s) by by destruct s.
  constructor; [by apply extends_refl|lia| |lia]. intros a _ _. by rewrite Hid.
Qed.

Lemma wrote_app s d1 d2 i cs cs1 cs2 off src n w : 0 ≤ off → 0 < n ≤ Z.of_nat (length src) → 0 ≤ w → wrote s d1 i cs cs1 off src n →
  wrote (set_disk d1 s) d2 i cs1 cs2 (off + n) (drop (Z.to_nat n) src) w → wrote s d2 i cs cs2 off src (n + w).
Proof.
  intros H0 Hn Hw [E1 N1 O1 L1] [E2 N2 O2 L2]. constructor; [by eapply extends_trans| | |lia].
  - intros a Ha. destruct (decide (a < off + n)) as [Hlt|Hge].
    + rewrite <- N1 by lia. apply O2; lia.
    + transitivity (drop (Z.to_nat n) src !! Z.to_nat (a - (off + n))); [apply N2; lia|]. rewrite lookup_drop. f_equal. lia.
  - intros a Ha Hout. rewrite <- O1 by lia. apply O2; [|lia]. pose proof (prefix_length _ _ (ex_prefix _ _ _ _ _ E1)). unfold CLUSTER in *. lia.
Qed.

Lemma ram_write_loop i (m : nat) : ∀ src s cs off, (length src ≤ m)%nat → geom s → file s i cs → Forall (λ b, 0 ≤ b < 256) src →
  0 ≤ off → off + Z.of_nat (length src) ≤ size_of s i → off ≤ CLUSTER * Z.of_nat (length cs) →
  ∃ k d cs1 w, loops_to (write_turn i) k (src, off) s (drop (Z.to_nat w) src) (set_disk d s) ∧ k ≤ Z.of_nat (length src) + 1 ∧
    0 ≤ w ≤ Z.of_nat (length src) ∧ wrote s d i cs cs1 off src w ∧
    (w < Z.of_nat (length src) → ∀ c, in_range s c → fat (set_disk d s) c ≠ 0).
Proof.
  induction m as [|m IH]; intros src s cs off Hm Hg Hf Hb H0 H1 H2; (destruct (decide (src = [])) as [->|Hne];
    [exists 1, (DiskBytes s), cs, 0; split_and!; [|done..|by apply wrote_nil|done]; apply loops_done; cbn; by destruct s|]).
  { destruct src; [done|cbn [length] in Hm; lia]. }
  destruct (ram_write_turn_run s i cs src off Hg Hf Hne Hb H0 H1 H2) as [(Ht & Ho & Hno)|(n & d1 & cs1 & Ht & Hn & Hw1)].
  - exists 1, (DiskBytes s), cs, 0. assert (Hid : set_disk (DiskBytes s) s = s) by by destruct s. rewrite Hid.
    split_and!; [by apply loops_done|lia|lia|lia|by apply wrote_nil|done].
  - pose proof (wr_ext _ _ _ _ _ _ _ _ Hw1) as He.
    destruct (IH (drop (Z.to_nat n) src) (set_disk d1 s) cs1 (off + n)) as (k & d2 & cs2 & w & Hl & Hk & Hw & Hw2 & Hfull).
    { rewrite length_drop. lia. }
    { apply He. } { apply He. } { by apply Forall_drop. } { lia. }
    { rewrite length_drop, (ex_sizes _ _ _ _ _ He) by apply Hf. lia. }
    { apply Hw1. }
    rewrite length_drop in *. exists (k + 1), d2, cs2, (n + w). split_and!; [|lia|lia|lia|by eapply wrote_app; [..|exact Hw1|exact Hw2]; lia|].
    + rewrite drop_drop in Hl. replace (Z.to_nat (n + w)) with (Z.to_nat n + Z.to_nat w)%nat by lia. by eapply loops_step.
    + intros Hlt. apply Hfull. lia.
Qed.

(** ** Reading *)

(** The bytes [off, off + n) of a file. *)
Definition holds (s : RAMFS) (cs : list Z) (off : Z) (bs : list Z) : Prop :=
  ∀ a, off ≤ a < off + Z.of_nat (length bs) → fbyte s cs a = bs !! Z.to_nat (a - off).

Lemma read_turn_run s i cs rem off acc : geom s → file s i cs → 0 < rem → 0 ≤ off → off + rem ≤ size_of s i →
  off < CLUSTER * Z.of_nat (length cs) →
  ∃ bs, read_turn i (rem, off, acc) s = Ok (inl (rem - Z.of_nat (length bs), off + Z.of_nat (length bs), acc ++ bs), s) ∧
    0 < Z.of_nat (length bs) ≤ rem ∧ off + Z.of_nat (length bs) ≤ CLUSTER * Z.of_nat (length cs) ∧ holds s cs off bs.
Proof.
  intros Hg Hf Hr H0 H1 H2. pose proof (rd32_bound (entry_at s i + 26) _ (ge_bytes s Hg)) as Hsz. change (rd32 _ _) with (size_of s i) in Hsz.
  destruct (place_inside cs off ltac:(lia)) as (c & Hp & Hin). set (o := off mod CLUSTER) in *.
  assert (Ho : 0 ≤ o < CLUSTER) by by apply Z.mod_pos_bound.
  destruct (chain_elem s cs c (fi_chain _ _ _ Hf) Hin) as [Hcr _]. destruct (cluster_base s c Hg Hcr) as [Hcb Hcz].
  set (n := Z.min (CLUSTER - o) rem). exists (get_bytes (cluster_at s c + o) (Z.to_nat n) (DiskBytes s)).
  pose proof (place_Some cs off c o H0 Hp). rewrite get_bytes_length, Z2Nat.id by lia. split; [|split; [lia|split; [lia|]]].
  - unfold read_turn. rewrite (bind_ok _ _ _ _ _ (size_run s i Hg (fi_idx _ _ _ Hf))).
    replace (negb _) with false by lia. rewrite (bind_ok _ _ _ _ _ (ram_resolve_run s i cs off Hg Hf H0)).
    replace (off <? size_of s i) with true by lia. rewrite Hp. unfold mbind at 1, M_bind at 1. cbn [mget]. cbv zeta.
    rewrite Hcz, Hcb, !u32_small by lia. replace (size_of s i <? off + rem) with false by lia.
    replace (if CLUSTER - o <? rem then CLUSTER - o else rem) with n by (case_match; lia).
    erewrite bind_ok; [|apply ram_load_run]; [|apply Hg|..].
    + rewrite u32_small by lia. done.
    + pose proof (geom_offsets s Hg). unfold in_range, cluster_at, CLUSTER in *. lia.
    + pose proof (ge_data s Hg). unfold in_range, cluster_at, CLUSTER in *. lia.
  - intros a Ha. rewrite get_bytes_length in Ha. rewrite get_bytes_lookup by lia. unfold fbyte, place.
    assert (Hda : a / CLUSTER = off / CLUSTER ∧ a mod CLUSTER = o + (a - off)) by (unfold o, CLUSTER in *; Z.div_mod_to_equations; lia).
    destruct Hda as [-> ->]. unfold place in Hp. destruct (cs !! _); [|done]. simplify_eq/=. do 2 f_equal. lia.
Qed.

Lemma holds_app s cs off b1 b2 : holds s cs off b1 → holds s cs (off + Z.of_nat (length b1)) b2 → holds s cs off (b1 ++ b2).
Proof.
  intros H1 H2 a Ha. rewrite length_app in Ha. destruct (decide (a < off + Z.of_nat (length b1))).
  - rewrite H1 by lia. rewrite lookup_app_l by lia. done.
  - rewrite H2 by lia. rewrite lookup_app_r by lia. f_equal. lia.
Qed.

Lemma ram_read_loop i (m : nat) : ∀ s cs rem off acc, rem ≤ Z.of_nat m → geom s → file s i cs → 0 ≤ rem → 0 ≤ off → off + rem ≤ size_of s i →
  off < size_of s i →
  ∃ k bs, loops_to (read_turn i) k (rem, off, acc) s (acc ++ bs) s ∧ k ≤ rem + 1 ∧
    Z.of_nat (length bs) = Z.max 0 (Z.min rem (CLUSTER * Z.of_nat (length cs) - off)) ∧ holds s cs off bs.
Proof.
  assert (Hnil : ∀ s cs rem off acc, read_turn i (rem, off, acc) s = Ok (inr acc, s) → 0 ≤ rem →
    rem = 0 ∨ CLUSTER * Z.of_nat (length cs) ≤ off → ∃ k bs, loops_to (read_turn i) k (rem, off, acc) s (acc ++ bs) s ∧ k ≤ rem + 1 ∧
    Z.of_nat (length bs) = Z.max 0 (Z.min rem (CLUSTER * Z.of_nat (length cs) - off)) ∧ holds s cs off bs).
  { intros s cs rem off acc Ht Hr Hc. exists 1, []. rewrite app_nil_r. split_and!; [by apply loops_done|lia|cbn [length]; lia|].
    intros a Ha. cbn [length] in Ha. lia. }
  assert (Hzero : ∀ s cs off acc, geom s → file s i cs → read_turn i (0, off, acc) s = Ok (inr acc, s)).
  { intros s cs off acc Hg Hf. unfold read_turn. by rewrite (bind_ok _ _ _ _ _ (size_run s i Hg (fi_idx _ _ _ Hf))). }
  induction m as [|m IH]; intros s cs rem off acc Hm Hg Hf Hr H0 H1 H1'.
  { apply Hnil; [|lia|lia]. assert (rem = 0) as -> by lia. by eapply Hzero. }
  destruct (decide (rem = 0)) as [->|Hne]; [apply Hnil; [by eapply Hzero|lia|lia]|].
  destruct (Z.lt_ge_cases off (CLUSTER * Z.of_nat (length cs))) as [Hlt|Hge].
  - destruct (read_turn_run s i cs rem off acc Hg Hf ltac:(lia) H0 H1 Hlt) as (b1 & Ht & Hb1 & Hle & Hh1).
    destruct (decide (rem - Z.of_nat (length b1) = 0)) as [Hz|Hnz].
    + rewrite Hz in Ht. exists 2, b1. split_and!; [|lia|lia|done]. apply (loops_step _ 1 _ _ _ _ _ _ Ht), loops_done. by eapply Hzero.
    + destruct (IH s cs (rem - Z.of_nat (length b1)) (off + Z.of_nat (length b1)) (acc ++ b1)) as (k & b2 & Hl & Hk & Hlen & Hh2); [lia|done|done|lia..|].
      exists (k + 1), (b1 ++ b2). rewrite app_assoc, length_app. split_and!; [by eapply loops_step|lia|lia|by apply holds_app].
  - apply Hnil; [|lia|lia]. unfold read_turn. rewrite (bind_ok _ _ _ _ _ (size_run s i Hg (fi_idx _ _ _ Hf))).
    replace (negb _) with false by lia. rewrite (bind_ok _ _ _ _ _ (ram_resolve_run s i cs off Hg Hf H0)).
    rewrite place_outside by lia. by destruct (off <? size_of s i).
Qed.

(** ** Files *)

Lemma file_at_put tb s a f g : file_at tb s a = Some f → file_at tb (put_file tb a g s) a = Some g.
Proof.
  unfold file_at, put_file. destruct (table_index tb a) as [fd|]; intros H.
  - cbn [set_files FsFileTable]. apply list_lookup_insert_eq. by eapply lookup_lt_Some.
  - cbn [set_PoolFiles PoolFiles]. apply lookup_insert_eq.
Qed.

(** What the theorems say of a disk does not depend on the file objects. *)
Definition same_files (s s1 : RAMFS) : Prop :=
  (geom s → geom s1) ∧ (∀ i cs, file s i cs → file s1 i cs) ∧ (∀ i, size_of s1 i = size_of s i) ∧
  (∀ cs a, fbyte s1 cs a = fbyte s cs a) ∧ (∀ c, fat s1 c = fat s c) ∧ (∀ c, in_range s c → in_range s1 c).
Lemma put_file_same tb a g s : same_files s (put_file tb a g s).
Proof.
  unfold put_file. destruct (table_index tb a); (split_and!; [intros []; by constructor| |done..]);
    (intros i cs [Hi Hf Hc Hn]; constructor; [done..| |done]; clear -Hc; induction cs as [|c cs IH]; [done|];
     destruct Hc as (H1 & H2 & H3); split; [done|split; [done|by apply IH]]).
Qed.

(** The offset a transfer starts from. *)
Definition start_of (f : FILE_OBJECT) (ByteOffset : option Z) : Z := match ByteOffset with Some o => u32 o | None => CurrentOffset f end.

(** The bytes a read gives: up to the end of the file and of its chain. *)
Lemma ram_read_file_run tb s body f i cs n ByteOffset : geom s → file s i cs → file_at tb s body = Some f → FsContext f = Some i →
  let off := start_of f ByteOffset in
  0 ≤ off < size_of s i → 0 ≤ n → off + n < 4294967296 →
  ∃ bs, read_file tb body n ByteOffset s = Ok (Some bs, put_file tb body (with_offset (off + Z.of_nat (length bs)) f) s) ∧
    Z.of_nat (length bs) = Z.max 0 (Z.min (Z.min n (size_of s i - off)) (CLUSTER * Z.of_nat (length cs) - off)) ∧ holds s cs off bs.
Proof.
  intros Hg Hf Hat Hctx off Hoff Hn Hlt. unfold read_file. rewrite (deref_bind (λ s, file_at tb s body) _ _ _ Hat), Hctx. fold (start_of f ByteOffset). fold off.
  rewrite (bind_ok _ _ _ _ _ (size_run s i Hg (fi_idx _ _ _ Hf))). replace (size_of s i <=? off) with false by lia.
  cbv zeta. rewrite (u32_small (off + n)) by lia.
  replace (if size_of s i <? off + n then size_of s i - off else n) with (Z.min n (size_of s i - off)) by (case_match; lia).
  destruct (ram_read_loop i (Z.to_nat n) s cs (Z.min n (size_of s i - off)) off []) as (k & bs & Hl & Hk & Hlen & Hh); [lia|done|done|lia..|].
  rewrite (bind_ok _ _ _ _ _ (loop_ok _ _ _ _ _ _ Hl ltac:(lia))). exists bs. split; [|done].
  cbn [app]. rewrite u32_small by lia. done.
Qed.

Lemma holds_eq s cs off b1 b2 : length b1 = length b2 → holds s cs off b1 → holds s cs off b2 → 0 ≤ off → b1 = b2.
Proof.
  intros Hl H1 H2 Hoff. apply list_eq. intros k. destruct (decide (k < length b1)%nat) as [Hk|Hk].
  - specialize (H1 (off + Z.of_nat k) ltac:(lia)). specialize (H2 (off + Z.of_nat k) ltac:(lia)).
    replace (Z.to_nat _) with k in * by lia. congruence.
  - by rewrite !lookup_ge_None_2 by lia.
Qed.

(** The size stored before the bytes. *)
Lemma size_step s i cs v : geom s → file s i cs → 0 ≤ v < 4294967296 →
  ∃ d, mwhen (size_of s i <? v) (set_FileSize i v) s = Ok (tt, set_disk d s) ∧ geom (set_disk d s) ∧ fats_kept s d ∧ firsts_kept s d ∧ data_kept s d ∧
    size_of (set_disk d s) i = Z.max (size_of s i) v ∧ ∀ j, (j < 512)%nat → j ≠ i → size_of (set_disk d s) j = size_of s j.
Proof.
  intros Hg [Hi _ _ _] Hv. unfold mwhen. destruct (Z.ltb_spec (size_of s i) v) as [Hlt|Hge].
  - destruct (put_size_effect s i v Hg Hi Hv) as (G & S & O & F & A & D). eexists. split; [by apply set_FileSize_run|].
    split_and!; try done. rewrite S. lia.
  - exists (DiskBytes s). assert (Hid : set_disk (DiskBytes s) s = s) by by destruct s. rewrite Hid. split_and!; try done. lia.
Qed.

Lemma write_file_run tb s body f i cs Buffer ByteOffset : geom s → file s i cs → file_at tb s body = Some f → FsContext f = Some i →
  Forall (λ b, 0 ≤ b < 256) Buffer →
  let off := start_of f ByteOffset in
  let L := Z.of_nat (length Buffer) in
  0 ≤ off ≤ CLUSTER * Z.of_nat (length cs) → off + L < 4294967296 →
  ∃ w d0 d cs1, write_file tb body Buffer ByteOffset s = Ok (Some w, put_file tb body (with_offset (off + w) f) (set_disk d s)) ∧
    0 ≤ w ≤ L ∧ geom (set_disk d0 s) ∧ fats_kept s d0 ∧ firsts_kept s d0 ∧ data_kept s d0 ∧
    size_of (set_disk d0 s) i = Z.max (size_of s i) (off + L) ∧ (∀ j, (j < 512)%nat → j ≠ i → size_of (set_disk d0 s) j = size_of s j) ∧
    wrote (set_disk d0 s) d i cs cs1 off Buffer w ∧ (w < L → ∀ c, in_range s c → fat (set_disk d s) c ≠ 0).
Proof.
  intros Hg Hf Hat Hctx Hb off L Hoff Hlt. unfold write_file. rewrite (deref_bind (λ s, file_at tb s body) _ _ _ Hat), Hctx.
  fold (start_of f ByteOffset). fold off. fold L. cbv zeta. rewrite (bind_ok _ _ _ _ _ (size_run s i Hg (fi_idx _ _ _ Hf))).
  rewrite (u32_small (off + L)) by lia.
  destruct (size_step s i cs (off + L) Hg Hf ltac:(lia)) as (d0 & Hrun & G0 & A0 & F0 & D0 & S0 & O0).
  rewrite (bind_ok _ _ _ _ _ Hrun).
  destruct (ram_write_loop i (length Buffer) Buffer (set_disk d0 s) cs off) as (k & d & cs1 & w & Hl & Hk & Hw & Hwr & Hfull);
    [done|done|by apply file_kept|done|lia|lia|lia|].
  rewrite (bind_ok _ _ _ _ _ (loop_ok _ _ _ _ _ _ Hl ltac:(lia))).
  exists w, d0, d, cs1. split; [|done]. rewrite length_drop, u32_small by lia.
  replace (L - _) with w by lia. done.
Qed.

(** [C26] Writing to a file of a RAM disk whose table has room for its clusters, at
    an offset that is not past its last cluster: the call returns and stores the
    bytes it reports, all of them unless no cluster is free; the size grows to the
    end of the request, the chain is the old one extended, the position moves, a
    read of that length at that offset gives the bytes back, the other bytes the
    file had are kept, and so are the chain, size and bytes of every other file,
    none of which shares a cluster with the new chain. *)
Theorem ramfs_write_read tb s body f i cs Buffer ByteOffset :
  geom s → file s i cs → file_at tb s body = Some f → FsContext f = Some i → Forall (λ b, 0 ≤ b < 256) Buffer →
  let off := start_of f ByteOffset in
  let L := Z.of_nat (length Buffer) in
  0 ≤ off ≤ CLUSTER * Z.of_nat (length cs) → off + L < 4294967296 →
  ∃ w cs1 s1, write_file tb body Buffer ByteOffset s = Ok (Some w, s1) ∧ 0 ≤ w ≤ L ∧
    (w < L → ∀ c, in_range s c → fat s1 c ≠ 0) ∧
    geom s1 ∧ file s1 i cs1 ∧ cs `prefix_of` cs1 ∧ size_of s1 i = Z.max (size_of s i) (off + L) ∧
    file_at tb s1 body = Some (with_offset (off + w) f) ∧
    (0 < w → ∃ s2, read_file tb body w (Some off) s1 = Ok (Some (take (Z.to_nat w) Buffer), s2) ∧ DiskBytes s2 = DiskBytes s1) ∧
    (∀ a, 0 ≤ a < CLUSTER * Z.of_nat (length cs) → ¬ off ≤ a < off + w → fbyte s1 cs1 a = fbyte s cs a) ∧
    (∀ j csj, j ≠ i → file s j csj → csj ## cs →
       file s1 j csj ∧ csj ## cs1 ∧ size_of s1 j = size_of s j ∧ ∀ a, 0 ≤ a → fbyte s1 csj a = fbyte s csj a).
Proof.
  intros Hg Hf Hat Hctx Hb off L Hoff Hlt.
  destruct (write_file_run tb s body f i cs Buffer ByteOffset Hg Hf Hat Hctx Hb Hoff Hlt)
    as (w & d0 & d & cs1 & Hrun & Hw & G0 & A0 & F0 & D0 & S0 & O0 & [[Ge Fe Pe Ne Ue Se Oe] New Old Len] & Hfull).
  set (f1 := with_offset (off + w) f) in *.
  destruct (put_file_same tb body f1 (set_disk d s)) as (Pg & Pf & Ps & Pb & Pa & Pr).
  exists w, cs1, (put_file tb body f1 (set_disk d s)). split; [exact Hrun|]. split; [done|].
  assert (Hsz : size_of (put_file tb body f1 (set_disk d s)) i = Z.max (size_of s i) (off + L)).
  { rewrite Ps. etransitivity; [apply Se, Hf|exact S0]. }
  assert (Hat1 : file_at tb (put_file tb body f1 (set_disk d s)) body = Some f1) by (apply (file_at_put _ _ _ f); exact Hat).
  split_and!; [|by apply Pg|by apply Pf|done|done|done| | |].
  - intros HwL c Hr. rewrite Pa. by apply Hfull.
  - intros Hpos. destruct (ram_read_file_run tb _ body f1 i cs1 w (Some off) (Pg Ge) (Pf _ _ Fe) Hat1 Hctx) as (bs & Hrd & Hlen & Hh).
    { cbn [start_of]. rewrite u32_small, Hsz by lia. lia. } { lia. } { cbn [start_of]. rewrite u32_small by lia. lia. }
    cbn [start_of] in *. rewrite (u32_small off) in * by lia. rewrite Hsz in Hlen.
    assert (Hbs : bs = take (Z.to_nat w) Buffer).
    2:{ rewrite Hbs in Hrd. eexists. split; [exact Hrd|]. unfold put_file. by destruct (table_index tb body). }
    apply (holds_eq (put_file tb body f1 (set_disk d s)) cs1 off); [rewrite length_take; lia|done| |lia].
    intros a Ha. rewrite length_take in Ha. rewrite Pb, lookup_take_lt by lia. apply New. lia.
  - intros a Ha Hout. rewrite Pb, <- (fbyte_data s d0 cs a D0 (fi_chain _ _ _ Hf)) by lia. by apply Old.
  - intros j csj Hj Hfj Hdis. destruct (Oe j csj Hj (file_kept _ _ _ _ A0 F0 Hfj) Hdis) as (Fj & Sj & Bj).
    split; [by apply Pf|]. split; [|split].
    + intros c Hc Hc1. destruct (Ne c Hc1) as [?|H0]; [by apply (Hdis c)|].
      destruct (chain_elem s csj c (fi_chain _ _ _ Hfj) Hc) as [[? ?] Hne]. apply Hne. rewrite <- A0 by lia. done.
    + rewrite Ps, <- (O0 j (fi_idx _ _ _ Hfj) Hj). exact Sj.
    + intros a Ha. rewrite Pb, <- (fbyte_data s d0 csj a D0 (fi_chain _ _ _ Hfj) Ha). by apply Bj.
Qed.

(** ** The directory *)

Definition entry12 (s : RAMFS) (i : nat) : list Z := get_bytes (entry_at s i) 12 (DiskBytes s).
Definition name_of (s : RAMFS) (i : nat) : list Z := name83 (take 8 (entry12 s i)) (take 3 (drop 8 (entry12 s i))).
Lemma entry_run s i : geom s → (i < 512)%nat →
  load (entry_at s i) sizeof_FAT16_DIR_ENTRY (get_bytes (entry_at s i) 12) s = Ok (entry12 s i, s).
Proof.
  intros Hg Hi. pose proof (geom_offsets s Hg). destruct Hg. unfold entry_at, sizeof_FAT16_DIR_ENTRY. apply ram_load_run; unfold CLUSTER in *; lia.
Qed.

(** The entries a search goes through: up to the first free one that was never
    used, without the deleted ones and the label. *)
Fixpoint live (s : RAMFS) (l : list nat) : list nat :=
  match l with
  | [] => []
  | i :: l' =>
      if hd 0 (entry12 s i) =? 0 then []
      else if (hd 0 (entry12 s i) =? 0xE5) || has_bits (chr (entry12 s i) 11) FAT16_ATTR_VOLUME_ID then live s l'
      else i :: live s l'
  end.

Lemma find_file_run s target l : geom s → Forall (λ i, (i < 512)%nat) l →
  find_file l target s = Ok (list_find (λ i, same_name (name_of s i) target) (live s l) ≫= λ p, Some p.2, s).
Proof.
  intros Hg. induction l as [|i l IH]; intros Hl; [done|]. apply Forall_cons in Hl as [Hi Hl]. cbn [find_file live].
  unfold mbind at 1, M_bind at 1. cbn [mget]. rewrite (bind_ok _ _ _ _ _ (entry_run s i Hg Hi)).
  destruct (hd 0 (entry12 s i) =? 0); [done|]. destruct (hd 0 (entry12 s i) =? 0xE5); cbn [orb]; [by apply IH|].
  destruct (has_bits _ _); [by apply IH|]. fold (name_of s i). cbn [list_find]. case_decide as E.
  - by replace (same_name (name_of s i) target) with true by (symmetry; by apply Is_true_true).
  - apply Is_true_false in E. rewrite E, IH by done. by destruct (list_find _ (live s l)) as [[]|].
Qed.

(** A name without an end mark is not the name of an entry whose second byte is 0. *)
Lemma not_same_name s i target : entry12 s i !! 1%nat = Some 0 → hd 0 (entry12 s i) ≠ 32 → Forall (λ c, c ≠ 0) target →
  same_name (name_of s i) target = false.
Proof.
  intros H1 H0 Ht. destruct (same_name _ _) eqn:E; [exfalso|done]. unfold same_name, RtlEqualUnicodeString in E.
  assert (Hn : ∃ l, name_of s i = hd 0 (entry12 s i) :: 0 :: l).
  { unfold name_of, name83. destruct (entry12 s i) as [|b0 [|b1 e]]; [done..|]. injection H1 as ->. cbn [hd] in *. cbn [take until_space].
    replace (b0 =? 32) with false by lia. cbn [Z.eqb]. eexists. reflexivity. }
  destruct Hn as [l Hn]. rewrite Hn in E. unfold ustr in E. cbn [Length Buffer] in E. destruct (_ =? _) eqn:El; cbn [negb] in E; [|done].
  apply Z.eqb_eq in El. pose proof (proj1 (units_equal_spec RtlpUpcase true _ _ _ _) E 1%nat) as E1. cbn [length] in *.
  specialize (E1 ltac:(Z.div_mod_to_equations; lia)). unfold Rtl.rd in E1. cbn iota in E1.
  destruct (lookup_lt_is_Some_2 target 1) as [c Hc]; [lia|]. rewrite Hc in E1.
  pose proof (Forall_lookup_1 _ _ _ _ Ht Hc) as Hpos. change (0 = RtlpUpcase c) in E1. cbn beta in Hpos.
  unfold RtlpUpcase in E1. destruct (Z.leb_spec 97 c); cbn [andb] in E1; [|lia]. destruct (Z.leb_spec c 122); lia.
Qed.

Lemma entry_store s d i : geom s → (i < 512)%nat → (∀ a, a < entry_at s i ∨ entry_at s i + 30 ≤ a → d a = DiskBytes s a) →
  fats_kept s d ∧ data_kept s d ∧
  ∀ j, (j < 512)%nat → j ≠ i → first_of (set_disk d s) j = first_of s j ∧ size_of (set_disk d s) j = size_of s j.
Proof.
  intros Hg Hi Hd. pose proof Hg as [? ? ? ? ? ? ? ? Hb]. split_and!.
  - intros c Hc. unfold fat, rd16. cbn [set_disk DiskBytes RamDiskFat]. rewrite !Hd; [done|geom_lia..].
  - intros c k Hr Hk. apply Hd. geom_lia.
  - intros j Hj Hne. unfold first_of, size_of, rd32, rd16. cbn [set_disk DiskBytes]. change (entry_at (set_disk d s) j) with (entry_at s j).
    split; rewrite !Hd; first [done|geom_lia].
Qed.

Lemma find_slot_run s l : geom s → Forall (λ i, (i < 512)%nat) l → ∃ r, find_slot l s = Ok (r, s) ∧ ∀ i, r = Some i → i ∈ l.
Proof.
  intros Hg. induction l as [|i l IH]; intros Hl; [by exists None|]. apply Forall_cons in Hl as [Hi Hl]. cbn [find_slot].
  unfold mbind at 1, M_bind at 1. cbn [mget]. erewrite bind_ok.
  2:{ pose proof (geom_offsets s Hg). destruct Hg. apply ram_load_run; geom_lia. }
  case_match; [exists (Some i); split; [done|intros j [= ->]; by left]|]. destruct (IH Hl) as (r & -> & Hr). exists r. split; [done|].
  intros j Hj. right. auto.
Qed.

Lemma wide_array_props n l : length (wide_array n l) = (2 * n)%nat ∧ Forall (λ b, 0 ≤ b < 256) (wide_array n l).
Proof.
  unfold wide_array. assert (Hl : length (take n l ++ replicate (n - length (take n l)) 0) = n).
  { rewrite length_app, length_replicate, length_take. lia. }
  remember (take n l ++ _) as m eqn:Em. clear Em. subst n. induction m as [|c m [IH1 IH2]]; [done|]. rewrite bind_cons. cbn [length]. split.
  - rewrite length_app, IH1. change (length (bytes16 c)) with 2%nat. lia.
  - apply Forall_app. split; [apply bytes16_bytes|done].
Qed.
Lemma wide_array_first n c l : 0 ≤ c < 256 → ∃ m, wide_array (S n) (c :: l) = c :: 0 :: m.
Proof.
  intros Hc. unfold wide_array. cbn [take app mbind list_bind]. unfold bytes16. rewrite Z.mod_small by lia.
  replace (c / 256 mod 256) with 0 by (Z.div_mod_to_equations; lia). by eexists.
Qed.
Lemma split_name_props f : ∃ l m, split_name f = (wide_array 8 l, wide_array 3 m) ∧ (∀ c, head f = Some c → c ≠ 46 → c ≠ 0 → ∃ l', l = c :: l').
Proof.
  unfold split_name. destruct (wcsrchr (Some f) 46) as [d|] eqn:Hd; eexists _, _; (split; [reflexivity|]); intros c Hc H46 H0.
  - destruct f as [|c' f]; [done|]. injection Hc as ->. destruct d as [|d]; [|by eexists]. exfalso.
    cbn [wcsrchr wcsrchr_loop] in Hd. replace (c =? 0) with false in Hd by lia. replace (c =? 46) with false in Hd by lia.
    assert (Hgen : ∀ g k o, (∀ x, o = Some x → 0 < x)%nat → (0 < k)%nat → ∀ x, wcsrchr_loop g 46 k o = Some x → (0 < x)%nat).
    { induction g as [|y g IH]; intros k o Ho Hk x; cbn [wcsrchr_loop]; [auto|]. destruct (y =? 0); [auto|]. apply IH; [|lia].
      intros x'. destruct (y =? 46); [intros [= <-]; done|auto]. }
    pose proof (Hgen f 1%nat None ltac:(done) ltac:(lia) _ Hd). lia.
  - destruct f as [|c' f]; [done|]. injection Hc as ->. unfold cstr. cbn [RtlStringLength]. replace (c =? 0) with false by lia. by eexists.
Qed.

(** A new entry: an empty file of the size given, and nothing else changes. *)
Lemma ram_create_run s f Size : geom s → 0 ≤ Size < 4294967296 →
  ∃ r d, FsCreateFileEntry f Size s = Ok (r, set_disk d s) ∧ geom (set_disk d s) ∧ fats_kept s d ∧ data_kept s d ∧
    match r with
    | None => d = DiskBytes s
    | Some i => file (set_disk d s) i [] ∧ size_of (set_disk d s) i = Size ∧
        (∀ j, (j < 512)%nat → j ≠ i → first_of (set_disk d s) j = first_of s j ∧ size_of (set_disk d s) j = size_of s j) ∧
        (∀ c, head f = Some c → c ≠ 46 → 0 < c < 256 → d (entry_at s i) = c ∧ d (entry_at s i + 1) = 0)
    end.
Proof.
  intros Hg Hs. unfold FsCreateFileEntry. unfold mbind at 1, M_bind at 1. cbn [mget]. rewrite (ge_root s Hg).
  destruct (find_slot_run s (seq 0 (Z.to_nat 512)) Hg) as (r & Hr & Hin); [apply Forall_seq; lia|].
  rewrite (bind_ok _ _ _ _ _ Hr). destruct r as [i|].
  2:{ exists None, (DiskBytes s). assert (Hid : set_disk (DiskBytes s) s = s) by by destruct s. by rewrite Hid. }
  specialize (Hin i eq_refl). apply elem_of_seq in Hin. destruct (split_name_props f) as (l & m & Hsp & Hfirst). rewrite Hsp. cbn [fst snd].
  destruct (wide_array_props 8 l) as [L8 B8]. destruct (wide_array_props 3 m) as [L3 B3].
  set (b8 := take 8 (wide_array 8 l)). set (b3 := take 3 (wide_array 3 m)).
  assert (H8 : length b8 = 8%nat) by (unfold b8; rewrite length_take; lia). assert (H3 : length b3 = 3%nat) by (unfold b3; rewrite length_take; lia).
  assert (F8 : Forall (λ b, 0 ≤ b < 256) b8) by by apply Forall_take. assert (F3 : Forall (λ b, 0 ≤ b < 256) b3) by by apply Forall_take.
  set (e := entry_at s i).
  set (d := put_bytes (e + 24) (bytes16 0) (put_bytes (e + 26) (bytes32 Size) (put_bytes (e + 11) [FAT16_ATTR_ARCHIVE] (put_bytes (e + 8) b3 (put_bytes e b8 (DiskBytes s)))))).
  assert (Hrun : ∀ k a bs, e ≤ a ∧ a + Z.of_nat (length bs) ≤ e + 30 → store a bs (set_disk k s) = Ok (tt, set_disk (put_bytes a bs k) s)).
  { intros k o bs Ho. pose proof (geom_offsets s Hg). unfold e in *. rewrite ram_store_run; [done|apply Hg|..]; destruct Hg; cbn [set_disk RamDiskSize]; geom_lia. }
  assert (Hout : ∀ a, a < e ∨ e + 30 ≤ a → d a = DiskBytes s a).
  { intros a Ha. unfold d. rewrite !put_out; [done|cbn [length bytes16 bytes32 app]; lia..]. }
  destruct (entry_store s d i Hg ltac:(lia) Hout) as (A & D & O). exists (Some i), d. split.
  { assert (H1 : store e b8 s = Ok (tt, set_disk (put_bytes e b8 (DiskBytes s)) s)).
    { rewrite <- (Hrun (DiskBytes s) e b8) by lia. by destruct s. }
    rewrite (bind_ok _ _ _ _ _ H1), (bind_ok _ _ _ _ _ (Hrun _ (e + 8) b3 ltac:(lia))),
      (bind_ok _ _ _ _ _ (Hrun _ (e + 11) [FAT16_ATTR_ARCHIVE] ltac:(cbn [length]; lia))).
    erewrite bind_ok; [|exact (Hrun _ (e + 26) (bytes32 Size) ltac:(cbn [length bytes16 bytes32 app]; lia))].
    erewrite bind_ok; [reflexivity|exact (Hrun _ (e + 24) (bytes16 0) ltac:(cbn [length bytes16]; lia))]. }
  split_and!; [|done|done| | |done|].
  - apply geom_disk; [done|]. repeat apply put_all_bytes; [apply Hg|done|done|by repeat constructor|apply bytes32_bytes|apply bytes16_bytes].
  - constructor; [lia| |done|constructor]. unfold first_of. change (DiskBytes (set_disk d s)) with d. by apply rd16_put.
  - unfold size_of. change (rd32 (e + 26) d = Size). unfold d. rewrite rd32_other by (cbn [length bytes16]; lia). by apply rd32_put.
  - intros c Hc H46 Hcb. destruct (Hfirst c Hc H46 ltac:(lia)) as [l' ->]. destruct (wide_array_first 7 c l' ltac:(lia)) as [m' Hm].
    assert (Hb8 : b8 = c :: 0 :: take 6 m') by (unfold b8; by rewrite Hm). fold e.
    split; unfold d; rewrite !(put_out (e + _)) by (cbn [length bytes16 bytes32 app]; lia); rewrite put_in by lia; rewrite Hb8.
    + by replace (e - e) with 0 by lia.
    + by replace (e + 1 - e) with 1 by lia.
Qed.

(** A file that was just created cannot be opened: the 8 bytes stored are the
    first four characters as 16-bit units, and no name has a zero in it. *)
Theorem ramfs_created_not_found s f Size c : geom s → 0 ≤ Size < 4294967296 → head f = Some c → 0 < c < 256 → c ≠ 46 → c ≠ 32 →
  ∀ i s1 Name, FsCreateFileEntry f Size s = Ok (Some i, s1) → ∃ r, FsFindFile Name s1 = Ok (r, s1) ∧ r ≠ Some i.
Proof.
  intros Hg Hs Hc Hcb H46 H32 i s1 Name Hrun. destruct (ram_create_run s f Size Hg Hs) as (r & d & Hrun' & G & _ & _ & Hr).
  rewrite Hrun in Hrun'. simplify_eq. destruct Hr as (Hfile & _ & _ & Hb). destruct (Hb c Hc H46 Hcb) as [B0 B1].
  unfold FsFindFile. unfold mbind at 1, M_bind at 1. cbn [mget]. eexists. split; [apply find_file_run; [done|]|].
  - apply Forall_seq. intros j Hj. rewrite (ge_root _ G) in Hj. lia.
  - destruct (list_find _ _) as [[k j]|] eqn:E; [|done]. cbn. intros [= ->]. apply list_find_Some in E as (_ & Hm & _).
    rewrite not_same_name in Hm; [done| | |].
    + unfold entry12. rewrite get_bytes_lookup by lia. f_equal. exact B1.
    + assert (H0 : entry12 (set_disk d s) i !! 0%nat = Some c).
      { unfold entry12. rewrite get_bytes_lookup by lia. f_equal. rewrite <- B0. cbn [DiskBytes set_disk]. f_equal. change (entry_at (set_disk d s) i) with (entry_at s i). lia. }
      destruct (entry12 (set_disk d s) i); [done|]. injection H0 as ->. done.
    + unfold chars. destruct Name as [u|]; [|constructor]. apply Forall_forall. intros x. apply cstr_nonzero.
Qed.

(** ** The layout of a new disk *)

(** The table has two sectors unless there are more than 4085 clusters. *)
Definition fat_sectors (mb : Z) : Z := if 4085 <? (2048 * mb - 35) / 4 then ((2048 * mb - 35) / 4 * 2 + 515) / 512 else 2.

Lemma create_disk_run s mb base o : 1 ≤ mb ≤ 128 → RamDiskBase s = 0 → base ≠ 0 →
  ob_alloc (1048576 * mb) TAG_PROC (fs_ob s) = Ok (base, o) →
  FsCreateRamDisk mb s = Ok (STATUS_SUCCESS,
    mkRam base (1048576 * mb) (2048 * mb)
      (mkBpb 4 1 512 (fat_sectors mb) (if 0xFFFF <? 2048 * mb then 0 else 2048 * mb) (if 0xFFFF <? 2048 * mb then 2048 * mb else 0))
      512 (512 + 512 * fat_sectors mb) (512 + 512 * fat_sectors mb + 16384)
      (put_bytes 512 [0xF8; 0xFF; 0xFF; 0xFF] (λ _, 0)) (FsLock_ s) (FsFileTable s) (FsFileInUse s) (PoolFiles s) o).
Proof.
  intros Hmb H0 Hb Ha. unfold FsCreateRamDisk. unfold mbind at 1, M_bind at 1. cbn [mget]. rewrite H0. cbn [truthy Z.eqb negb].
  cbv zeta. rewrite Z.shiftl_mul_pow2 by lia. change (2 ^ 20) with 1048576. rewrite (Z.mul_comm mb), u32_small by lia.
  erewrite bind_ok; [|by apply zoom_ok]. unfold mbind at 1, M_bind at 1. cbn [mmod]. replace (base =? 0) with false by lia.
  unfold mbind at 1, M_bind at 1. cbn [mmod]. unfold mbind at 1, M_bind at 1. cbn [mmod]. unfold RAMDISK_SECTOR_SIZE.
  change (root_sectors (mkBpb 4 1 512 0 0 0)) with 32. replace (1048576 * mb / 512) with (2048 * mb) by (Z.div_mod_to_equations; lia).
  replace (u32 (2048 * mb - 1 - 2 - 32)) with (2048 * mb - 35) by (rewrite u32_small; lia).
  replace (if 4085 <? (2048 * mb - 35) / 4 then _ else 2) with (fat_sectors mb).
  2:{ unfold fat_sectors. case_match; [|done]. rewrite u32_small by (Z.div_mod_to_equations; lia). f_equal. lia. }
  assert (Hf : 2 ≤ fat_sectors mb ≤ 257) by (unfold fat_sectors; case_match; Z.div_mod_to_equations; lia).
  replace (u16 (fat_sectors mb)) with (fat_sectors mb) by (symmetry; apply Z.mod_small; lia).
  replace (if 65535 <? 2048 * mb then 0 else u16 (2048 * mb)) with (if 65535 <? 2048 * mb then 0 else 2048 * mb)
    by (case_match; [done|]; symmetry; apply Z.mod_small; lia).
  erewrite bind_ok; [|apply ram_store_run; cbn [RamDiskBase RamDiskSize set_layout set_disk length]; lia].
  unfold mret, M_ret, set_layout, set_disk. cbn. do 3 f_equal; lia.
Qed.

Lemma new_disk_total mb (s : RAMFS) : 1 ≤ mb ≤ 128 → RamDiskSectors s = 2048 * mb → SectorsPerCluster (RamDiskBpb s) = 4 → ReservedSectors (RamDiskBpb s) = 1 →
  RootEntryCount (RamDiskBpb s) = 512 → SectorsPerFAT (RamDiskBpb s) = fat_sectors mb →
  total_clusters s = (2048 * mb - 33 - fat_sectors mb) / 4 ∧ total_clusters s ≤ (2048 * mb - 35) / 4 < 65535.
Proof.
  intros Hmb H1 H2 H3 H4 H5. assert (Hf : 2 ≤ fat_sectors mb ≤ 257) by (unfold fat_sectors; case_match; Z.div_mod_to_equations; lia).
  assert (H : total_clusters s = (2048 * mb - 33 - fat_sectors mb) / 4).
  { unfold total_clusters, root_sectors, RAMDISK_SECTOR_SIZE. rewrite H1, H2, H3, H4, H5. change ((512 * 32 + 512 - 1) / 512) with 32.
    rewrite u32_small by lia. replace (2048 * mb - 1 - fat_sectors mb - 32) with (2048 * mb - 33 - fat_sectors mb) by lia.
    apply Z.mod_small. Z.div_mod_to_equations. lia. }
  rewrite H. split; [done|]. Z.div_mod_to_equations. lia.
Qed.

(** A RAM disk of 1 MB, or of 8 to 128 MB, is laid out without overlap and is
    empty: every cluster is free and every directory entry is an empty file that
    was never used.  Between 2 and 7 MB the table is too short: the entry of
    cluster 512, which the allocator hands out, is the start of the directory. *)
Theorem ramdisk_layout s mb base o : RamDiskBase s = 0 → base ≠ 0 → ob_alloc (1048576 * mb) TAG_PROC (fs_ob s) = Ok (base, o) →
  (mb = 1 ∨ 8 ≤ mb ≤ 128 → ∃ s1, FsCreateRamDisk mb s = Ok (STATUS_SUCCESS, s1) ∧ geom s1 ∧
     (∀ c, in_range s1 c → fat s1 c = 0) ∧ (∀ i, (i < 512)%nat → file s1 i [] ∧ size_of s1 i = 0 ∧ hd 0 (entry12 s1 i) = 0)) ∧
  (2 ≤ mb ≤ 7 → ∃ s1, FsCreateRamDisk mb s = Ok (STATUS_SUCCESS, s1) ∧ in_range s1 512 ∧ RamDiskFat s1 + 2 * 512 = RamDiskRootDir s1).
Proof.
  intros H0 Hb Ha. split; intros Hmb; (eexists; split; [eapply create_disk_run; [lia|done|done|exact Ha]|]);
    match goal with |- context [mkRam ?a ?b ?c ?d ?e ?f ?g ?h ?i ?j ?k ?l ?m] => set (s1 := mkRam a b c d e f g h i j k l m) end;
    destruct (new_disk_total mb s1 ltac:(lia) eq_refl eq_refl eq_refl eq_refl eq_refl) as [Ht Hle].
  - assert (Hf : 2 * ((2048 * mb - 35) / 4) ≤ 512 * fat_sectors mb ∧ 2 ≤ fat_sectors mb ≤ 257).
    { unfold fat_sectors. case_match; Z.div_mod_to_equations; lia. }
    assert (Hz : ∀ a, a < 512 ∨ 516 ≤ a → DiskBytes s1 a = 0) by (intros a Hd; by apply put_out).
    assert (Hr0 : ∀ i k, 0 ≤ k → DiskBytes s1 (entry_at s1 i + k) = 0).
    { intros i k Hk. apply Hz. unfold entry_at, sizeof_FAT16_DIR_ENTRY. cbn [s1 RamDiskRootDir]. lia. }
    split; [|split].
    + constructor; cbn [s1 RamDiskBase RamDiskBpb RamDiskFat RamDiskRootDir RamDiskDataArea RamDiskSize DiskBytes SectorsPerCluster RootEntryCount]; try done.
      * Z.div_mod_to_equations. lia.
      * lia.
      * lia.
      * unfold CLUSTER. Z.div_mod_to_equations. lia.
      * apply put_all_bytes; [done|by repeat constructor].
    + intros c [? ?]. unfold fat, rd16. rewrite !Hz; [done|cbn [s1 RamDiskFat]; lia..].
    + intros i Hi. split_and!.
      * constructor; [done| |done|constructor]. unfold first_of, rd16. rewrite <- Z.add_assoc, !Hr0 by lia. done.
      * unfold size_of, rd32, rd16. rewrite <- !Z.add_assoc, !Hr0 by lia. done.
      * unfold entry12, get_bytes. cbn [seqZ]. change (DiskBytes s1 (entry_at s1 i + 0) = 0). by apply Hr0.
  - unfold in_range. rewrite Ht. cbn [s1 RamDiskFat RamDiskRootDir]. assert (Hf : fat_sectors mb = 2).
    { unfold fat_sectors. case_match; [|done]. Z.div_mod_to_equations. lia. }
    rewrite Hf. Z.div_mod_to_equations. lia.
Qed.

(** ** Handles *)

(** The objects handles stand for have a header; file objects have none.  So a
    file that was found cannot be given a handle: the count of references would
    be taken from the memory before the file object. *)
Theorem ramfs_open_no_header tb s s1 fd Name EaLength disp i :
  FsOpenFile Name s = Ok ((STATUS_SUCCESS, Some fd), s1) → can_lock (pcr s1) → lk ObLock (fs_ob s1) = 0 →
  first_idx (λ b, b =? 0) (ObpHandleTable (fs_ob s1)) = Some i → ObHeaders (fs_ob s1) !! BODY_TO_HEADER (table_addr tb fd) = None →
  NtCreateFile tb true Name EaLength disp s = Undef.
Proof.
  intros Hopen Hc Hl Hi Hno. unfold NtCreateFile. cbn [negb]. rewrite (bind_ok _ _ _ _ _ Hopen). cbv beta iota.
  apply bind_undef. unfold obj, zoom. assert (Hu : ObInsertHandle (table_addr tb fd) (fs_ob s1) = Undef); [|by rewrite Hu].
  unfold ObInsertHandle. rewrite acquire_bind by done. unfold mbind at 1, M_bind at 1. cbn [mgets].
  change (ObpHandleTable (locked ObLock (fs_ob s1))) with (ObpHandleTable (fs_ob s1)). rewrite Hi. erewrite bind_ok; [|reflexivity].
  change (set_ObpHandleTable _ (locked ObLock (fs_ob s1))) with (put_slot i (table_addr tb fd) (locked ObLock (fs_ob s1))).
  rewrite release_bind; [|done..|apply framed_slot]. cbn [fst]. apply bind_undef. unfold mwhen. change (NT_SUCCESS STATUS_SUCCESS) with true.
  cbv iota zeta. apply bind_undef. unfold ObReferenceObject. apply bind_undef. unfold get_hdr, mderef. cbn [put_slot set_ObpHandleTable ObHeaders].
  by rewrite Hno.
Qed.

(** ** Listing *)

(** The entries a caller sees who follows [NextEntryOffset] from the start. *)
Fixpoint walk (n : nat) (at_ : Z) (es : list DIR_INFO) : list DIR_INFO :=
  match n, filter (λ e, di_at e = at_) es with
  | S n, e :: _ => e :: (if NextEntryOffset e =? 0 then [] else walk n (at_ + NextEntryOffset e) es)
  | _, _ => []
  end.

Lemma name_of_length s i : (length (name_of s i) ≤ 12)%nat.
Proof.
  assert (Hu : ∀ l, (length (until_space l) ≤ length l)%nat) by (induction l as [|c l IH]; cbn; [done|]; case_match; cbn; lia).
  unfold name_of, name83. rewrite length_app. pose proof (Hu (take 8 (entry12 s i))) as H1. pose proof (Hu (take 3 (drop 8 (entry12 s i)))) as H2.
  rewrite length_take in H1, H2. case_match; cbn [length]; lia.
Qed.

Lemma list_entries_run s Len l : geom s → Forall (λ i, (i < 512)%nat) l → Len < 4294967296 → ∀ used es, 0 ≤ used → used + 88 * Z.of_nat (length (live s l)) ≤ Len →
  ∃ used' es', list_entries l None Len false used es s = Ok ((used', es ++ es'), s) ∧ used ≤ used' ∧ Forall (λ e, used ≤ di_at e) es' ∧
    (λ e, (FileIndex e, di_name e, EndOfFile e)) <$> es' = (λ i, (Z.of_nat i, name_of s i, size_of s i)) <$> live s l.
Proof.
  intros Hg Hl HLen. induction l as [|i l IH]; intros used es Hu Hfit; [exists used, []; by rewrite app_nil_r|].
  apply Forall_cons in Hl as [Hi Hl]. specialize (IH Hl). cbn [list_entries live] in *.
  unfold mbind at 1, M_bind at 1. cbn [mget]. rewrite (bind_ok _ _ _ _ _ (entry_run s i Hg Hi)).
  destruct (hd 0 (entry12 s i) =? 0); [exists used, []; by rewrite app_nil_r|].
  destruct (hd 0 (entry12 s i) =? 0xE5); cbn [orb] in *; [by apply IH|]. destruct (has_bits _ _); [by apply IH|].
  cbn [filter_out]. fold (name_of s i). set (n := name_of s i). pose proof (name_of_length s i) as Hn. fold n in Hn. cbv zeta. cbn [length] in Hfit.
  assert (He : 56 ≤ Z.land (sizeof_DIR_INFO + 2 * Z.of_nat (length n) + 7) (Z.lnot 7) ≤ 88).
  { change (Z.lnot 7) with (Z.lnot (Z.ones 3)). rewrite <- Z.ldiff_land, Z.ldiff_ones_r, Z.shiftr_div_pow2, Z.shiftl_mul_pow2 by lia.
    unfold sizeof_DIR_INFO. change (2 ^ 3) with 8. Z.div_mod_to_equations. lia. }
  set (sz := Z.land _ _) in *. rewrite u32_small by lia. replace (Len <? used + sz) with false by lia.
  rewrite (bind_ok _ _ _ _ _ (size_run s i Hg Hi)).
  edestruct (IH (used + sz)) as (used' & es' & Hrun & Hle & Hat & Hsh); [lia|lia|]. eexists used', (_ :: es'). split; [rewrite Hrun, <- app_assoc; reflexivity|].
  split; [lia|]. split; [constructor; [done|]; eapply Forall_impl; [exact Hat|]; cbn; lia|]. cbn [fmap list_fmap]. by rewrite <- Hsh.
Qed.

(** With room for every entry a listing without a filter has the two dot entries
    and then one entry per live directory entry, in order, with its index, name
    and size; but the second dot entry is marked as the last one, and a caller
    who follows the offsets sees nothing after it. *)
Theorem listing_cut s Len : geom s → 126 + 88 * Z.of_nat (length (live s (seq 0 512))) ≤ Len < 4294967296 →
  ∃ used es, NtQueryDirectoryFile true true Len false None s = Ok ((STATUS_SUCCESS, Some (STATUS_SUCCESS, used), es), s) ∧
    (λ e, (FileIndex e, di_name e, EndOfFile e)) <$> drop 2 es = (λ i, (Z.of_nat i, name_of s i, size_of s i)) <$> live s (seq 0 512) ∧
    di_name <$> walk (length es) 0 es = [[46; 0; 0]; [46; 46; 0; 0]].
Proof.
  intros Hg HLen. unfold NtQueryDirectoryFile. cbn [negb orb]. replace (Len =? 0) with false by lia.
  unfold dot_entries, sizeof_DIR_INFO, NAME_AT. replace (Len <? _) with false by lia. erewrite bind_ok; [|reflexivity]. cbv beta iota.
  unfold mbind at 1, M_bind at 1. cbn [mget]. rewrite (ge_root s Hg). change (Z.to_nat 512) with 512%nat.
  edestruct (list_entries_run s Len (seq 0 512) Hg) as (used & es & Hrun & Hle & Hat & Hsh); [apply Forall_seq; lia|lia| |apply HLen|]; [lia|].
  rewrite (bind_ok _ _ _ _ _ Hrun). cbn [app]. eexists used, _. split; [reflexivity|]. split; [exact Hsh|].
  cbn [length walk]. rewrite !filter_cons_True by done. cbn [NextEntryOffset Z.eqb fmap list_fmap di_name].
  change (0 + (56 + 3 * 2)) with 62. rewrite filter_cons_False by done. by rewrite filter_cons_True.
Qed.

(** ** A disk of 1 MB *)

Definition demo_ram : RAMFS :=
  mkRam 0x200000 1048576 2048 (mkBpb 4 1 512 2 2048 0) 512 1536 17920 (put_bytes 512 [0xF8; 0xFF; 0xFF; 0xFF] (λ _, 0)) 0
    (mkFile [65] 0 (Some 0%nat) :: replicate 63 (mkFile [] 0 None)) (true :: replicate 63 false) ∅ demo_ob.

Lemma demo_ram_geom : geom demo_ram.
Proof.
  constructor; try done; [by vm_compute..|]. apply put_all_bytes; [done|by repeat constructor].
Qed.
Lemma demo_ram_file : file demo_ram 0 [].
Proof. constructor; [lia|by vm_compute|done|constructor]. Qed.

Lemma ramfs_write_read_witness :
  ∃ s1 s2, write_file 0x8000 0x8000 [1; 2; 3] None demo_ram = Ok (Some 3, s1) ∧ read_file 0x8000 0x8000 3 (Some 0) s1 = Ok (Some [1; 2; 3], s2).
Proof.
  destruct (ramfs_write_read 0x8000 demo_ram 0x8000 (mkFile [65] 0 (Some 0%nat)) 0 [] [1; 2; 3] None demo_ram_geom demo_ram_file)
    as (w & cs1 & s1 & Hw & Hb & Hfull & _ & _ & _ & _ & _ & Hr & _).
  - done.
  - done.
  - by repeat constructor.
  - cbn. lia.
  - cbn. lia.
  - assert (Hw3 : w = 3).
    { assert (H3 : (match write_file 0x8000 0x8000 [1; 2; 3] None demo_ram with Ok (r, _) => r | _ => None end) = Some 3) by by vm_compute.
      rewrite Hw in H3. congruence. }
    subst w. destruct (Hr ltac:(lia)) as (s2 & Hr2 & _). exists s1, s2. split; [exact Hw|exact Hr2].
Defined.

(** A write that starts past the last cluster of a file puts its bytes at the
    start of the cluster it adds: they are found at the wrong offset. *)
Theorem ramfs_write_past_end :
  ∃ s1, write_file 0x8000 0x8000 [1; 2; 3] (Some 5000) demo_ram = Ok (Some 3, s1) ∧
    (∃ s2, read_file 0x8000 0x8000 3 (Some 5000) s1 = Ok (Some [], s2)) ∧ (∃ s2, read_file 0x8000 0x8000 3 (Some 0) s1 = Ok (Some [1; 2; 3], s2)).
Proof.
  assert (H : ∀ A (r : Res (A * RAMFS)) a, match r with Ok (x, _) => Some x | _ => None end = Some a → ∃ s2, r = Ok (a, s2)).
  { intros A [[x s2]| | | |] a; [|done..]. intros [= ->]. by exists s2. }
  destruct (H _ (write_file 0x8000 0x8000 [1; 2; 3] (Some 5000) demo_ram) (Some 3)) as [s1 Hs1]; [by vm_compute|].
  exists s1. split; [done|]. split; apply H.
  - transitivity (match write_file 0x8000 0x8000 [1; 2; 3] (Some 5000) demo_ram with
      Ok (_, s1) => match read_file 0x8000 0x8000 3 (Some 5000) s1 with Ok (x, _) => Some x | _ => None end | _ => None end); [by rewrite Hs1|by vm_compute].
  - transitivity (match write_file 0x8000 0x8000 [1; 2; 3] (Some 5000) demo_ram with
      Ok (_, s1) => match read_file 0x8000 0x8000 3 (Some 0) s1 with Ok (x, _) => Some x | _ => None end | _ => None end); [by rewrite Hs1|by vm_compute].
Qed.
