(* ===== verification/Filter.v ===== *)
(** * Filter: the file-system filter manager (src/fs/filter.c)

    A table of 32 filters, each with one callback per operation.  A filter is
    named by its slot.  What a callback answers is a parameter; the calls made
    are recorded in order.  The walk starts one past the end of the table, so
    the memory behind it is part of the state. *)

From S2P Require Import Prelude Rtl.

#[local] Open Scope Z_scope.

Definition FLT_MAX_FILTERS : nat := 32.
Definition FLT_MAX_NAME : nat := 64.

Inductive FLT_OPERATION :=
  FltOpPreCreate | FltOpPostCreate | FltOpPreRead | FltOpPostRead
| FltOpPreWrite | FltOpPostWrite | FltOpPreCleanup | FltOpPostCleanup.
Definition FltOpMax := 8.
Definition op_index (o : FLT_OPERATION) : Z :=
  match o with
  | FltOpPreCreate => 0 | FltOpPostCreate => 1 | FltOpPreRead => 2 | FltOpPostRead => 3
  | FltOpPreWrite => 4 | FltOpPostWrite => 5 | FltOpPreCleanup => 6 | FltOpPostCleanup => 7
  end.

Record FLT_CALLBACK := mkCb { Callback : Z; CbContext : Z; CbInUse : bool }.
Record FLT_FILTER := mkFlt {
  FltId : Z;
  FltName : list Z;
  Altitude : Z;
  Callbacks : list FLT_CALLBACK;
  Attached : bool;
  FltInUse : bool
}.

(** [g_Behind] is what a read of g_Filters[32] finds. *)
Record FLT_STATE := mkFltState {
  g_Filters : list FLT_FILTER;
  g_NextFilterId : Z;
  g_Behind : FLT_FILTER;
  Calls : list (Z * Z * Z)            (* callback, context, request *)
}.
Definition set_g_Filters (l : list FLT_FILTER) (s : FLT_STATE) : FLT_STATE := mkFltState l (g_NextFilterId s) (g_Behind s) (Calls s).
Definition set_g_NextFilterId (v : Z) (s : FLT_STATE) : FLT_STATE := mkFltState (g_Filters s) v (g_Behind s) (Calls s).
Definition set_Calls (l : list (Z * Z * Z)) (s : FLT_STATE) : FLT_STATE := mkFltState (g_Filters s) (g_NextFilterId s) (g_Behind s) l.

Definition zero_cb : FLT_CALLBACK := mkCb 0 0 false.
Definition zero_filter : FLT_FILTER := mkFlt 0 (replicate FLT_MAX_NAME 0) 0 (replicate (Z.to_nat FltOpMax) zero_cb) false false.

Definition FltMgrInit : M FLT_STATE Z :=
  mmod (set_g_Filters (replicate FLT_MAX_FILTERS zero_filter));; mret STATUS_SUCCESS.

(** The first 63 characters, zero-filled. *)
Definition flt_name (Name : list Z) : list Z :=
  let n := take (FLT_MAX_NAME - 1) (cstr Name) in n ++ replicate (FLT_MAX_NAME - length n) 0.

(** The status and the slot stored in [*OutFilter]. *)
Definition FltRegisterFilter (Name : option (list Z)) (Alt : Z) (OutFilter : bool) : M FLT_STATE (Z * option nat) :=
  match Name, OutFilter with
  | Some Name, true =>
      slot ← mgets (λ s, first_idx (λ f, negb (FltInUse f)) (g_Filters s));
      match slot with
      | None => mret (STATUS_NO_MEMORY, None)
      | Some i =>
          id ← mgets g_NextFilterId;
          mmod (set_g_NextFilterId (u32 (id + 1)));;
          mmod (λ s, set_g_Filters (<[i := mkFlt id (flt_name Name) Alt (Callbacks zero_filter) false true]> (g_Filters s)) s);;
          mret (STATUS_SUCCESS, Some i)
      end
  | _, _ => mret (STATUS_INVALID_PARAMETER, None)
  end.

(** A filter pointer is NULL or the address of a slot. *)
Definition on_filter (Filter : option nat) (f : FLT_FILTER → FLT_FILTER) : M FLT_STATE Z :=
  match Filter with
  | None => mret STATUS_INVALID_PARAMETER
  | Some i => mmod (λ s, set_g_Filters (alter f i (g_Filters s)) s);; mret STATUS_SUCCESS
  end.
Definition with_attached (b : bool) (f : FLT_FILTER) : FLT_FILTER := mkFlt (FltId f) (FltName f) (Altitude f) (Callbacks f) b (FltInUse f).
Definition with_callback (o : Z) (c : FLT_CALLBACK) (f : FLT_FILTER) : FLT_FILTER :=
  mkFlt (FltId f) (FltName f) (Altitude f) (<[Z.to_nat o := c]> (Callbacks f)) (Attached f) (FltInUse f).

Definition FltAttachFilter (Filter : option nat) : M FLT_STATE Z := on_filter Filter (with_attached true).
Definition FltDetachFilter (Filter : option nat) : M FLT_STATE Z := on_filter Filter (with_attached false).
Definition FltUnregisterFilter (Filter : option nat) : M FLT_STATE Z := on_filter Filter (λ _, zero_filter).
Definition FltSetCallback (Filter : option nat) (Operation Cb Context : Z) : M FLT_STATE Z :=
  if FltOpMax <=? Operation then mret STATUS_INVALID_PARAMETER
  else on_filter Filter (with_callback Operation (mkCb Cb Context true)).

Section Invoke.
(** What a callback returns for its context and the request. *)
Context (answer : Z → Z → Z → Z).

(** The filter at an index of the walk. *)
Definition filter_at (s : FLT_STATE) (i : nat) : option FLT_FILTER :=
  if (i =? FLT_MAX_FILTERS)%nat then Some (g_Behind s) else g_Filters s !! i.

(** The status a call returned when it stops the walk. *)
Definition invoke_one (Operation Request : Z) (i : nat) : M FLT_STATE (option Z) :=
  f ← mderef (λ s, filter_at s i);
  if negb (FltInUse f) || negb (Attached f) then mret None
  else
    c ← mderef (λ _, Callbacks f !! Z.to_nat Operation);
    if negb (CbInUse c) || (Callback c =? 0) then mret None
    else
      mmod (λ s, set_Calls (Calls s ++ [(Callback c, CbContext c, Request)]) s);;
      let st := answer (Callback c) (CbContext c) Request in
      mret (if NT_SUCCESS st then None else Some st).

Fixpoint invoke_from (Operation Request : Z) (l : list nat) : M FLT_STATE Z :=
  match l with
  | [] => mret STATUS_SUCCESS
  | i :: l' =>
      r ← invoke_one Operation Request i;
      match r with Some st => mret st | None => invoke_from Operation Request l' end
  end.

(** The indices of the two passes: from 32 down to 0, and from 0 up to 31. *)
Definition walk_order : list nat := reverse (seq 0 (S FLT_MAX_FILTERS)) ++ seq 0 FLT_MAX_FILTERS.
Definition FltInvokeCallbacks (Operation Request : Z) : M FLT_STATE Z := invoke_from Operation Request walk_order.
End Invoke.

Definition FltGetAttachedCount (s : FLT_STATE) : Z := countb (λ f, FltInUse f && Attached f) (g_Filters s).

(** ** Calls *)

(** The calls a filter gets for an operation: none or one. *)
Definition calls_of (o r : Z) (f : FLT_FILTER) : list (Z * Z * Z) :=
  if FltInUse f && Attached f then
    match Callbacks f !! Z.to_nat o with
    | Some c => if CbInUse c && negb (Callback c =? 0) then [(Callback c, CbContext c, r)] else []
    | None => []
    end
  else [].

(** The answers up to the first that is an error, and that error. *)
Fixpoint until_error (answer : Z → Z → Z → Z) (cs : list (Z * Z * Z)) : list (Z * Z * Z) * Z :=
  match cs with
  | [] => ([], STATUS_SUCCESS)
  | (cb, cx, r) :: cs' =>
      if NT_SUCCESS (answer cb cx r) then let '(done, st) := until_error answer cs' in ((cb, cx, r) :: done, st)
      else ([(cb, cx, r)], answer cb cx r)
  end.

(** Every filter has its eight callbacks. *)
Definition flt_shaped (f : FLT_FILTER) : Prop := length (Callbacks f) = Z.to_nat FltOpMax.
Record flt_wf (s : FLT_STATE) : Prop := {
  fw_length : length (g_Filters s) = FLT_MAX_FILTERS;
  fw_shape : Forall flt_shaped (g_Filters s);
  fw_next : 0 ≤ g_NextFilterId s < 4294967296;
  fw_ids : ∀ i f, g_Filters s !! i = Some f → FltInUse f = true → 0 < FltId f < g_NextFilterId s;
  fw_unique : ∀ i j f g, g_Filters s !! i = Some f → g_Filters s !! j = Some g → FltInUse f = true → FltInUse g = true →
    FltId f = FltId g → i = j
}.

Section Walk.
Context (answer : Z → Z → Z → Z) (o r : Z).
Hypothesis Hop : 0 ≤ o < FltOpMax.

(** One index: at most one call, and the walk stops when it fails. *)
Lemma invoke_one_run s i f : filter_at s i = Some f → flt_shaped f →
  invoke_one answer o r i s = Ok (match calls_of o r f with
    | [] => (None, s)
    | c :: _ => (if NT_SUCCESS (answer c.1.1 c.1.2 r) then None else Some (answer c.1.1 c.1.2 r), set_Calls (Calls s ++ [c]) s)
    end).
Proof.
  intros Hf Hs. unfold invoke_one. rewrite (deref_bind (λ s, filter_at s i) _ _ _ Hf). unfold calls_of.
  destruct (FltInUse f); cbn [negb orb andb]; [|done]. destruct (Attached f); cbn [negb]; [|done].
  destruct (lookup_lt_is_Some_2 (Callbacks f) (Z.to_nat o)) as [c Hc]; [unfold flt_shaped, FltOpMax in *; lia|].
  rewrite (deref_bind (λ _, Callbacks f !! Z.to_nat o) _ _ _ Hc), Hc.
  destruct (CbInUse c); cbn [negb orb andb]; [|done]. by destruct (Callback c =? 0).
Qed.

Definition calls_at (s : FLT_STATE) (l : list nat) : list (Z * Z * Z) :=
  l ≫= λ i, match filter_at s i with Some f => calls_of o r f | None => [] end.

Lemma calls_of_short f : calls_of o r f = [] ∨ ∃ cb cx, calls_of o r f = [(cb, cx, r)].
Proof. unfold calls_of. repeat case_match; eauto. Qed.

(** The record of calls is not looked at by the walk. *)
Lemma calls_at_record s l t : calls_at (set_Calls t s) l = calls_at s l.
Proof. done. Qed.

Lemma invoke_from_run l : ∀ s, (∀ i, i ∈ l → ∃ f, filter_at s i = Some f ∧ flt_shaped f) →
  invoke_from answer o r l s = let '(done, st) := until_error answer (calls_at s l) in Ok (st, set_Calls (Calls s ++ done) s).
Proof.
  induction l as [|i l IH]; intros s Hl; cbn [invoke_from]; [cbn; rewrite app_nil_r; by destruct s|].
  destruct (Hl i) as (f & Hf & Hs); [by left|]. unfold calls_at in *. rewrite bind_cons, Hf.
  pose proof (invoke_one_run s i f Hf Hs) as Hrun. destruct (calls_of_short f) as [E|(cb & cx & E)]; rewrite E in *.
  - rewrite (bind_ok _ _ _ _ _ Hrun). apply IH. intros j Hj. apply Hl. by right.
  - cbn [fst snd] in Hrun. cbn [app until_error]. destruct (NT_SUCCESS (answer cb cx r)); rewrite (bind_ok _ _ _ _ _ Hrun); [|done].
    rewrite IH by (intros j Hj; apply Hl; by right).
    change (λ i0 : nat, _) with (λ i, match filter_at s i with Some f => calls_of o r f | None => [] end) at 1.
    destruct (until_error answer _) as [d st]. cbn [Calls set_Calls]. by rewrite <- app_assoc.
Qed.

End Walk.

Lemma calls_at_table o r s l : Forall (λ i, (i < FLT_MAX_FILTERS)%nat) l → calls_at o r s l = l ≫= λ i, from_option (calls_of o r) [] (g_Filters s !! i).
Proof.
  intros Hl. unfold calls_at. induction Hl as [|i l Hi Hl IH]; [done|]. rewrite !bind_cons, IH. f_equal. unfold filter_at.
  replace (i =? FLT_MAX_FILTERS)%nat with false by (symmetry; apply Nat.eqb_neq; lia). by destruct (g_Filters s !! i).
Qed.

Lemma op_index_bound o : 0 ≤ op_index o < FltOpMax.
Proof. by destruct o. Qed.

Lemma bind_join {A B} (f : A → list B) (l : list A) : l ≫= f = mjoin (f <$> l).
Proof. induction l as [|x l IH]; [done|]. rewrite bind_cons, IH. done. Qed.
Lemma fmap_seq_lookup {A B} (f : A → list B) (l : list A) : (λ i, from_option f [] (l !! i)) <$> seq 0 (length l) = f <$> l.
Proof.
  apply list_eq. intros i. rewrite !list_lookup_fmap. destruct (decide (i < length l)%nat) as [Hi|Hi].
  - rewrite lookup_seq_lt by done. destruct (lookup_lt_is_Some_2 l i Hi) as [x Hx]. rewrite Hx. cbn. by rewrite Hx.
  - by rewrite lookup_seq_ge, lookup_ge_None_2 by lia.
Qed.

(** The calls of an operation, if all of them succeed: the filters of the table
    from the last slot to the first, and again from the first to the last. *)
Definition both_passes (o : FLT_OPERATION) (r : Z) (l : list FLT_FILTER) : list (Z * Z * Z) :=
  (reverse l ≫= calls_of (op_index o) r) ++ (l ≫= calls_of (op_index o) r).

Lemma walk_calls s o r : flt_wf s →
  calls_at (op_index o) r s walk_order = calls_of (op_index o) r (g_Behind s) ++ both_passes o r (g_Filters s).
Proof.
  intros Hwf. unfold walk_order, both_passes. replace (reverse (seq 0 (S FLT_MAX_FILTERS))) with (FLT_MAX_FILTERS :: reverse (seq 0 FLT_MAX_FILTERS)) by done.
  cbn [app]. unfold calls_at at 1. rewrite bind_cons. change (filter_at s FLT_MAX_FILTERS) with (Some (g_Behind s)). cbv iota. f_equal.
  rewrite bind_app. f_equal.
  - fold (calls_at (op_index o) r s (reverse (seq 0 FLT_MAX_FILTERS))). rewrite calls_at_table.
    2:{ rewrite Forall_reverse. apply Forall_seq. lia. }
    rewrite !bind_join, fmap_reverse, <- (fw_length s Hwf), fmap_seq_lookup, fmap_reverse. done.
  - fold (calls_at (op_index o) r s (seq 0 FLT_MAX_FILTERS)). rewrite calls_at_table by (apply Forall_seq; lia).
    by rewrite !bind_join, <- (fw_length s Hwf), fmap_seq_lookup.
Qed.

Lemma invoke_run answer s o r : flt_wf s → flt_shaped (g_Behind s) →
  FltInvokeCallbacks answer (op_index o) r s =
  let '(done, st) := until_error answer (calls_of (op_index o) r (g_Behind s) ++ both_passes o r (g_Filters s)) in
  Ok (st, set_Calls (Calls s ++ done) s).
Proof.
  intros Hwf Hb. unfold FltInvokeCallbacks. rewrite <- walk_calls by done. apply invoke_from_run; [apply op_index_bound|].
  intros i Hi. unfold filter_at. destruct (Nat.eqb_spec i FLT_MAX_FILTERS) as [->|Hne]; [by eexists|].
  assert (Hlt : (i < FLT_MAX_FILTERS)%nat).
  { unfold walk_order in Hi. rewrite elem_of_app, elem_of_reverse, !elem_of_seq in Hi. lia. }
  destruct (lookup_lt_is_Some_2 (g_Filters s) i) as [f Hf]; [by rewrite (fw_length s Hwf)|]. exists f. split; [done|].
  by apply (Forall_lookup_1 _ _ _ _ (fw_shape s Hwf) Hf).
Qed.

(** ** Theorems *)

(** [C30] Invoking the callbacks of an operation, when the memory behind the table
    does not look like an attached filter: every attached filter with a callback
    for it is called, from the last slot to the first and then again from the
    first to the last, up to and including the first call that fails, whose status
    is returned.  A callback is the answer it gives ([answer]): one that changes the
    table while the request walks it is outside the model. *)
Theorem flt_invoke_spec answer s o r : flt_wf s → flt_shaped (g_Behind s) → FltInUse (g_Behind s) && Attached (g_Behind s) = false →
  ∃ done st, until_error answer (both_passes o r (g_Filters s)) = (done, st) ∧
    FltInvokeCallbacks answer (op_index o) r s = Ok (st, set_Calls (Calls s ++ done) s) ∧
    done `prefix_of` both_passes o r (g_Filters s) ∧
    (NT_SUCCESS st = true → done = both_passes o r (g_Filters s) ∧ Forall (λ c, NT_SUCCESS (answer c.1.1 c.1.2 c.2) = true) done) ∧
    (NT_SUCCESS st = false → ∃ c, last done = Some c ∧ answer c.1.1 c.1.2 c.2 = st).
Proof.
  intros Hwf Hb Hoff. rewrite invoke_run by done. unfold calls_of at 1. rewrite Hoff. cbn [app].
  generalize (both_passes o r (g_Filters s)) as cs. induction cs as [|[[cb cx] q] cs IH].
  { exists [], STATUS_SUCCESS. split_and!; done. }
  cbn [until_error]. destruct (NT_SUCCESS (answer cb cx q)) eqn:E.
  - destruct IH as (d & st & Hu & _ & Hp & Hs & Hf). rewrite Hu. exists ((cb, cx, q) :: d), st. split_and!; [done|done|by apply prefix_cons| |].
    + intros H. destruct (Hs H) as [-> HF]. split; [done|]. by constructor.
    + intros H. destruct (Hf H) as (c & Hc & Ha). exists c. split; [|done]. destruct d; [done|]. by rewrite last_cons_cons.
  - exists [(cb, cx, q)], (answer cb cx q). split_and!; [done|done|by apply prefix_cons, prefix_nil|congruence|]. intros _. by exists (cb, cx, q).
Qed.

(** The altitudes play no part in the order: whatever they are changed to, the
    same calls are made. *)
Definition with_altitude (v : Z) (f : FLT_FILTER) : FLT_FILTER := mkFlt (FltId f) (FltName f) v (Callbacks f) (Attached f) (FltInUse f).
Theorem flt_altitude_ignored o r (l : list FLT_FILTER) (alt : FLT_FILTER → Z) :
  both_passes o r ((λ f, with_altitude (alt f) f) <$> l) = both_passes o r l.
Proof.
  unfold both_passes. rewrite <- fmap_reverse. assert (H : ∀ k, ((λ f, with_altitude (alt f) f) <$> k) ≫= calls_of (op_index o) r = k ≫= calls_of (op_index o) r).
  { induction k as [|f k IH]; [done|]. cbn [fmap list_fmap]. rewrite !bind_cons. by f_equal. }
  by rewrite !H.
Qed.

(** The walk reads one filter behind the table and calls what it finds there. *)
Theorem flt_calls_behind answer s o r cb cx : flt_wf s → flt_shaped (g_Behind s) → calls_of (op_index o) r (g_Behind s) = [(cb, cx, r)] →
  NT_SUCCESS (answer cb cx r) = false →
  FltInvokeCallbacks answer (op_index o) r s = Ok (answer cb cx r, set_Calls (Calls s ++ [(cb, cx, r)]) s).
Proof. intros Hwf Hb Hc Hf. rewrite invoke_run, Hc by done. cbn [app until_error]. by rewrite Hf. Qed.

(** ** The table *)

Inductive flt_call :=
  CRegister (Name : option (list Z)) (Alt : Z) (Out : bool) | CAttach (f : option nat) | CDetach (f : option nat)
| CUnregister (f : option nat) | CSetCallback (f : option nat) (op cb cx : Z).
Definition flt_run (c : flt_call) : M FLT_STATE Z :=
  match c with
  | CRegister n a o => r ← FltRegisterFilter n a o; mret r.1
  | CAttach f => FltAttachFilter f
  | CDetach f => FltDetachFilter f
  | CUnregister f => FltUnregisterFilter f
  | CSetCallback f op cb cx => FltSetCallback f op cb cx
  end.

(** A change of one slot that keeps its identifier and the number of callbacks,
    or clears it. *)
Lemma flt_wf_alter s i g : flt_wf s →
  (∀ f, flt_shaped f → flt_shaped (g f) ∧ (FltInUse (g f) = true → FltInUse f = true ∧ FltId (g f) = FltId f)) →
  flt_wf (set_g_Filters (alter g i (g_Filters s)) s).
Proof.
  intros [L S N I U] Hg.
  assert (Hl : ∀ j f', alter g i (g_Filters s) !! j = Some f' → ∃ f, g_Filters s !! j = Some f ∧ flt_shaped f' ∧
    (FltInUse f' = true → FltInUse f = true ∧ FltId f' = FltId f)).
  { intros j f'. destruct (decide (j = i)) as [->|Hne].
    - rewrite list_lookup_alter_eq. destruct (g_Filters s !! i) as [f|] eqn:E; [|done]. intros [= <-]. exists f. split; [done|].
      apply Hg. by apply (Forall_lookup_1 _ _ _ _ S E).
    - rewrite list_lookup_alter_ne by done. intros E. exists f'. split_and!; [done| |done]. by apply (Forall_lookup_1 _ _ _ _ S E). }
  constructor; cbn [set_g_Filters g_Filters g_NextFilterId].
  - by rewrite length_alter.
  - apply Forall_lookup_2. intros j f' Hj. by destruct (Hl j f' Hj) as (f & _ & ? & _).
  - done.
  - intros j f' Hj Hu. destruct (Hl j f' Hj) as (f & Hf & _ & Hk). destruct (Hk Hu) as [Hu' ->]. by apply (I j).
  - intros j k f' h' Hj Hk Hu Hv E. destruct (Hl j f' Hj) as (f & Hf & _ & Hx). destruct (Hl k h' Hk) as (h & Hh & _ & Hy).
    destruct (Hx Hu) as [? ?], (Hy Hv) as [? ?]. apply (U j k f h); congruence.
Qed.

(** Every call on a well-formed table returns and leaves it well formed: the
    identifiers of the registered filters stay distinct.  The counter must not be
    at its last value. *)
Theorem flt_calls_wf s c : flt_wf s → 0 < g_NextFilterId s → g_NextFilterId s + 1 < 4294967296 →
  ∃ st s', flt_run c s = Ok (st, s') ∧ flt_wf s' ∧ Calls s' = Calls s ∧ g_NextFilterId s ≤ g_NextFilterId s' ≤ g_NextFilterId s + 1.
Proof.
  intros Hwf H0 H1. assert (Hon : ∀ f g, (∀ f, flt_shaped f → flt_shaped (g f) ∧ (FltInUse (g f) = true → FltInUse f = true ∧ FltId (g f) = FltId f)) →
    ∃ st s', on_filter f g s = Ok (st, s') ∧ flt_wf s' ∧ Calls s' = Calls s ∧ g_NextFilterId s ≤ g_NextFilterId s' ≤ g_NextFilterId s + 1).
  { intros [i|] g Hg; eexists _, _; (split; [reflexivity|]); (split; [by first [apply flt_wf_alter|done]|]); (split; [done|cbn; lia]). }
  destruct c as [n a b|f|f|f|f op cb cx]; cbn [flt_run].
  - destruct n as [n|]; [|by eexists _, _; split; [reflexivity|split; [done|split; [done|lia]]]].
    destruct b; [|by eexists _, _; split; [reflexivity|split; [done|split; [done|lia]]]].
    unfold FltRegisterFilter. unfold mbind, M_bind. cbn [mgets]. destruct (first_idx _ _) as [i|] eqn:Hi; [|by eexists _, _; split; [reflexivity|split; [done|split; [done|lia]]]].
    cbn. eexists _, _. split; [reflexivity|]. cbn [Calls g_NextFilterId set_g_Filters set_g_NextFilterId]. rewrite u32_small by lia. split; [|split; [done|lia]].
    apply first_idx_Some in Hi as [(f & Hf & Hu) _]. pose proof (lookup_lt_Some _ _ _ Hf) as Hlt. destruct Hwf as [L S N I U].
    constructor; cbn [set_g_Filters set_g_NextFilterId g_Filters g_NextFilterId].
    + by rewrite length_insert.
    + by apply Forall_insert.
    + lia.
    + intros j h Hj Hv. destruct (decide (j = i)) as [->|Hne].
      * rewrite list_lookup_insert_eq in Hj by done. injection Hj as <-. cbn. lia.
      * rewrite list_lookup_insert_ne in Hj by done. specialize (I j h Hj Hv). lia.
    + intros j k h1 h2 Hj Hk Hv Hw E. destruct (decide (j = i)) as [->|Hne], (decide (k = i)) as [->|Hne']; [done| | |].
      * rewrite list_lookup_insert_eq in Hj by done. rewrite list_lookup_insert_ne in Hk by done. injection Hj as <-. specialize (I k h2 Hk Hw). cbn in E. lia.
      * rewrite list_lookup_insert_eq in Hk by done. rewrite list_lookup_insert_ne in Hj by done. injection Hk as <-. specialize (I j h1 Hj Hv). cbn in E. lia.
      * rewrite list_lookup_insert_ne in Hj, Hk by done. by apply (U j k h1 h2).
  - by apply Hon.
  - by apply Hon.
  - by apply Hon.
  - unfold FltSetCallback. destruct (_ <=? _); [by eexists _, _; split; [reflexivity|split; [done|split; [done|lia]]]|]. apply Hon.
    intros h Hh. split; [|done]. unfold flt_shaped, with_callback. cbn. by rewrite length_insert.
Qed.

(** ** A table with two filters *)

Definition demo_cb (cb : Z) : FLT_FILTER → FLT_FILTER := with_callback 0 (mkCb cb 7 true).
Definition demo_flt : FLT_STATE :=
  mkFltState (demo_cb 0x100 (mkFlt 1 (flt_name [65; 0]) 10 (Callbacks zero_filter) true true) ::
              demo_cb 0x200 (mkFlt 2 (flt_name [66; 0]) 90 (Callbacks zero_filter) true true) :: replicate 30 zero_filter) 3 zero_filter [].
Lemma demo_flt_wf : flt_wf demo_flt.
Proof.
  assert (Hz : ∀ j f, replicate 30 zero_filter !! j = Some f → FltInUse f = true → False).
  { intros j f [-> _]%lookup_replicate. done. }
  constructor; [done| |cbn; lia| |].
  - unfold demo_flt. cbn [g_Filters]. do 2 (apply Forall_cons; split; [done|]). by apply Forall_replicate.
  - intros [|[|j]] f Hf Hu; cbn in Hf; [injection Hf as <-; cbn; lia..|]. by destruct (Hz j f Hf Hu).
  - intros [|[|i]] [|[|j]] f g Hf Hg Hu Hv E; try done; cbn in Hf, Hg; simplify_eq/=; try done; first [by destruct (Hz _ _ Hf Hu)|by destruct (Hz _ _ Hg Hv)].
Qed.

Lemma flt_invoke_spec_witness :
  ∃ done, FltInvokeCallbacks (λ cb _ _, if cb =? 0x100 then 0xC0000022 else 0) 0 5 demo_flt = Ok (0xC0000022, set_Calls done demo_flt) ∧
    done = [(0x200, 7, 5); (0x100, 7, 5)].
Proof.
  destruct (flt_invoke_spec (λ cb _ _, if cb =? 0x100 then 0xC0000022 else 0) demo_flt FltOpPreCreate 5 demo_flt_wf eq_refl eq_refl)
    as (d & st & Hu & Hr & _).
  assert (E : until_error (λ cb _ _, if cb =? 0x100 then 0xC0000022 else 0) (both_passes FltOpPreCreate 5 (g_Filters demo_flt)) = ([(0x200, 7, 5); (0x100, 7, 5)], 0xC0000022)) by by vm_compute.
  rewrite E in Hu. injection Hu as <- <-. exists [(0x200, 7, 5); (0x100, 7, 5)]. split; [exact Hr|done].
Defined.
