(* ===== verification/Apc.v ===== *)
(** * Apc: asynchronous procedure calls and fibers (src/ps/apc.c, src/ps/fiber.c)

    APC objects lie in memory of their callers, at addresses; the calls of their
    routines are recorded.  Fibers are a table of 32 records. *)

From S2P Require Import Prelude.

#[local] Open Scope Z_scope.

Definition STATUS_UNSUCCESSFUL := 0xC0000001.

Record KAPC := mkApc {
  ApcMode : Z;
  Inserted : bool;
  KernelApc : bool;
  NormalRoutine : Z;
  NormalContext : Z;
  ApcArgument1 : Z;
  ApcArgument2 : Z;
  ApcThread : Z
}.

Record APC_STATE := mkApcState {
  Apcs : gmap Z KAPC;
  testApcInUse : list bool;
  ApcCalls : list (Z * Z * Z * Z)     (* routine, context, two arguments *)
}.
Definition set_Apcs (m : gmap Z KAPC) (s : APC_STATE) : APC_STATE := mkApcState m (testApcInUse s) (ApcCalls s).
Definition set_testApcInUse (l : list bool) (s : APC_STATE) : APC_STATE := mkApcState (Apcs s) l (ApcCalls s).
Definition set_ApcCalls (l : list (Z * Z * Z * Z)) (s : APC_STATE) : APC_STATE := mkApcState (Apcs s) (testApcInUse s) l.
Definition put_apc (Apc : Z) (x : KAPC) (s : APC_STATE) : APC_STATE := set_Apcs (<[Apc := x]> (Apcs s)) s.

(** The memory at [Apc] is the caller's, whatever it held before. *)
Definition KeInitializeApc (Apc Thread KernelRoutine NormalRtn ProcessorMode Context : Z) : M APC_STATE Z :=
  if (Apc =? 0) || (Thread =? 0) || (KernelRoutine =? 0) then mret STATUS_INVALID_PARAMETER
  else
    mmod (put_apc Apc (mkApc (Z.land ProcessorMode 0xFF) false (ProcessorMode =? 0) NormalRtn Context 0 0 Thread));;
    mret STATUS_SUCCESS.

Definition with_inserted (b : bool) (x : KAPC) : KAPC :=
  mkApc (ApcMode x) b (KernelApc x) (NormalRoutine x) (NormalContext x) (ApcArgument1 x) (ApcArgument2 x) (ApcThread x).
Definition with_arguments (a1 a2 : Z) (x : KAPC) : KAPC :=
  mkApc (ApcMode x) (Inserted x) (KernelApc x) (NormalRoutine x) (NormalContext x) a1 a2 (ApcThread x).

Definition KeInsertQueueApc (Apc SystemArgument1 SystemArgument2 : Z) : M APC_STATE Z :=
  if Apc =? 0 then mret STATUS_INVALID_PARAMETER
  else
    x ← mderef (λ s, Apcs s !! Apc);
    if ApcThread x =? 0 then mret STATUS_INVALID_PARAMETER
    else if Inserted x then mret STATUS_UNSUCCESSFUL
    else
      mmod (put_apc Apc (with_arguments SystemArgument1 SystemArgument2 (with_inserted true x)));;
      mwhen (truthy (NormalRoutine x) && KernelApc x)
        (mmod (λ s, set_ApcCalls (ApcCalls s ++ [(NormalRoutine x, NormalContext x, SystemArgument1, SystemArgument2)]) s));;
      mret STATUS_SUCCESS.

Definition KeRemoveQueueApc (Apc : Z) : M APC_STATE bool :=
  if Apc =? 0 then mret false
  else
    x ← mderef (λ s, Apcs s !! Apc);
    if negb (Inserted x) then mret false
    else mmod (put_apc Apc (with_inserted false x));; mret true.

Definition KeDeliverApc (Thread : Z) : Z := if Thread =? 0 then STATUS_INVALID_PARAMETER else STATUS_SUCCESS.

(** [frame] is the address of the local variable [apc], whose memory is gone when
    the routine returns. *)
Definition PsQueueUserApc (frame Thread ApcRoutine Context SystemArgument1 SystemArgument2 : Z) : M APC_STATE Z :=
  if (Thread =? 0) || (ApcRoutine =? 0) then mret STATUS_INVALID_PARAMETER
  else
    KeInitializeApc frame Thread ApcRoutine 0 1 Context;;
    x ← mderef (λ s, Apcs s !! frame);
    mmod (put_apc frame (with_arguments SystemArgument1 SystemArgument2 x));;
    st ← KeInsertQueueApc frame 0 0;
    mmod (λ s, set_Apcs (delete frame (Apcs s)) s);;
    mret st.

(** [table] is the address of the static array of 8 objects. *)
Definition sizeof_KAPC := 64.
Definition ApcTestQueue (table Thread : Z) : M APC_STATE Z :=
  if Thread =? 0 then mret STATUS_INVALID_PARAMETER
  else
    slot ← mgets (λ s, first_idx negb (testApcInUse s));
    match slot with
    | None => mret STATUS_NO_MEMORY
    | Some i =>
        let a := table + sizeof_KAPC * Z.of_nat i in
        mmod (λ s, set_testApcInUse (<[i := true]> (testApcInUse s)) s);;
        KeInitializeApc a Thread 0xDEADBEEF 0xCAFE0000 0 (Z.of_nat i);;
        KeInsertQueueApc a 0 0
    end.

(** ** Fibers *)

Record FIBER := mkFiber {
  FStackBase : Z;
  FStartRoutine : Z;
  FStartParameter : Z;
  FActive : bool;
  FInUse : bool
}.
Definition FIBER_MAX_PER_THREAD := 8.
Definition MAX_FIBERS : nat := Z.to_nat (FIBER_MAX_PER_THREAD * 4).

(** The status and the identifier stored. *)
Definition PsCreateFiber (StackBase StartRoutine StartParameter : Z) (OutFiberId : bool) (fs : list FIBER) : Z * option Z * list FIBER :=
  if (StackBase =? 0) || (StartRoutine =? 0) || negb OutFiberId then (STATUS_INVALID_PARAMETER, None, fs)
  else
    match first_idx (λ f, negb (FInUse f)) fs with
    | None => (STATUS_NO_MEMORY, None, fs)
    | Some i => (STATUS_SUCCESS, Some (Z.of_nat i), <[i := mkFiber StackBase StartRoutine StartParameter true true]> fs)
    end.

(** [FiberId < MAX && g_Fibers[FiberId].InUse] *)
Definition live_fiber (FiberId : Z) (fs : list FIBER) : option FIBER :=
  if FIBER_MAX_PER_THREAD * 4 <=? FiberId then None
  else match fs !! Z.to_nat FiberId with Some f => if FInUse f then Some f else None | None => None end.

Definition PsDeleteFiber (FiberId : Z) (fs : list FIBER) : Z * list FIBER :=
  match live_fiber FiberId fs with
  | None => (STATUS_INVALID_PARAMETER, fs)
  | Some f => (STATUS_SUCCESS, <[Z.to_nat FiberId := mkFiber (FStackBase f) (FStartRoutine f) (FStartParameter f) false false]> fs)
  end.

Definition PsSwitchToFiber (FiberId : Z) (fs : list FIBER) : Z :=
  match live_fiber FiberId fs with None => STATUS_INVALID_PARAMETER | Some _ => STATUS_SUCCESS end.

Definition PsGetCurrentFiberId (CurrentThread : Z) (fs : list FIBER) : Z :=
  if CurrentThread =? 0 then 0xFFFFFFFF
  else match first_idx (λ f, FInUse f && FActive f) fs with Some i => Z.of_nat i | None => 0xFFFFFFFF end.

(** [uninit] is what the local variable [id] held before. *)
Definition PsConvertThreadToFiber (uninit : Z) (fs : list FIBER) : Z * list FIBER :=
  let '(_, id, fs') := PsCreateFiber 0 0 0 true fs in (default uninit id, fs').
Definition PsConvertFiberToThread (FiberId : Z) (fs : list FIBER) : Z * list FIBER := PsDeleteFiber FiberId fs.

(** ** Theorems *)

(** An object that is not queued: inserting it records the arguments and, for a
    kernel APC with a routine, calls the routine once, at once; it is then refused
    until it is removed. *)
Theorem apc_insert_spec s Apc x a1 a2 : Apc ≠ 0 → Apcs s !! Apc = Some x → ApcThread x ≠ 0 → Inserted x = false →
  ∃ s1, KeInsertQueueApc Apc a1 a2 s = Ok (STATUS_SUCCESS, s1) ∧
    Apcs s1 = <[Apc := with_arguments a1 a2 (with_inserted true x)]> (Apcs s) ∧
    ApcCalls s1 = ApcCalls s ++ (if truthy (NormalRoutine x) && KernelApc x then [(NormalRoutine x, NormalContext x, a1, a2)] else []) ∧
    (∀ b1 b2, KeInsertQueueApc Apc b1 b2 s1 = Ok (STATUS_UNSUCCESSFUL, s1)) ∧
    ∃ s2, KeRemoveQueueApc Apc s1 = Ok (true, s2) ∧ Apcs s2 = <[Apc := with_arguments a1 a2 x]> (Apcs s) ∧ ApcCalls s2 = ApcCalls s1 ∧
      KeRemoveQueueApc Apc s2 = Ok (false, s2).
Proof.
  intros Ha Hx Ht Hi. unfold KeInsertQueueApc, KeRemoveQueueApc. replace (Apc =? 0) with false by lia.
  rewrite (deref_bind (λ s, Apcs s !! Apc) _ _ _ Hx). replace (ApcThread x =? 0) with false by lia. rewrite Hi.
  unfold mwhen. destruct (truthy (NormalRoutine x) && KernelApc x);
    (eexists; split; [reflexivity|]); cbn; (split; [done|]); (split; [by rewrite ?app_nil_r|]);
    (split; [intros b1 b2; erewrite deref_bind by apply lookup_insert_eq; cbn; by replace (ApcThread x =? 0) with false by lia|]);
    erewrite deref_bind by apply lookup_insert_eq; cbn; (eexists; split; [reflexivity|]); cbn;
    (split; [rewrite insert_insert_eq; unfold with_inserted, with_arguments; cbn; by rewrite <- Hi|]); (split; [done|]);
    by erewrite deref_bind by apply lookup_insert_eq.
Qed.

(** A user APC is accepted and forgotten: nothing is called, and its object was
    on the stack of the call. *)
Theorem user_apc_lost s frame Thread Routine Context a1 a2 : frame ≠ 0 → Thread ≠ 0 → Routine ≠ 0 → Apcs s !! frame = None →
  PsQueueUserApc frame Thread Routine Context a1 a2 s = Ok (STATUS_SUCCESS, s).
Proof.
  intros Hf Ht Hr Hn. unfold PsQueueUserApc, KeInitializeApc, KeInsertQueueApc. replace (Thread =? 0) with false by lia. replace (Routine =? 0) with false by lia.
  replace (frame =? 0) with false by lia. cbn [orb]. unfold mbind, M_bind, mderef. cbn. rewrite lookup_insert_eq. cbn. rewrite lookup_insert_eq. cbn.
  replace (Thread =? 0) with false by lia. cbn.
  unfold mwhen, mret, M_ret. cbn. rewrite !insert_insert_eq, delete_insert_id by done. by destruct s.
Qed.

(** A created fiber is live until it is deleted, and others are not touched. *)
Theorem fiber_create_delete fs sb sr sp : sb ≠ 0 → sr ≠ 0 → length fs = MAX_FIBERS →
  match PsCreateFiber sb sr sp true fs with
  | (st, Some id, fs') => st = STATUS_SUCCESS ∧ live_fiber id fs = None ∧ live_fiber id fs' = Some (mkFiber sb sr sp true true) ∧
      (∀ j, j ≠ id → 0 ≤ j → live_fiber j fs' = live_fiber j fs) ∧
      (PsDeleteFiber id fs').1 = STATUS_SUCCESS ∧ ∀ j, 0 ≤ j → live_fiber j (PsDeleteFiber id fs').2 = live_fiber j fs
  | (st, None, fs') => st = STATUS_NO_MEMORY ∧ fs' = fs ∧ ∀ f, f ∈ fs → FInUse f = true
  end.
Proof.
  intros Hsb Hsr Hl. unfold PsCreateFiber. replace (sb =? 0) with false by lia. replace (sr =? 0) with false by lia. cbn [orb negb].
  destruct (first_idx _ fs) as [i|] eqn:Hi.
  - pose proof (first_idx_lt _ _ _ Hi) as Hlt. apply first_idx_Some in Hi as [(f & Hf & Hu) _]. rewrite Hl in Hlt.
    assert (Hi32 : Z.of_nat i < 32) by (unfold MAX_FIBERS, FIBER_MAX_PER_THREAD in Hlt; lia).
    assert (Hlv : ∀ k gs, live_fiber (Z.of_nat k) gs = if (k <? 32)%nat then match gs !! k with Some f => if FInUse f then Some f else None | None => None end else None).
    { intros k gs. unfold live_fiber. rewrite Nat2Z.id. change (FIBER_MAX_PER_THREAD * 4) with 32. destruct (Nat.ltb_spec k 32), (Z.leb_spec 32 (Z.of_nat k)); try done; lia. }
    assert (Hi' : (i <? 32)%nat = true) by (apply Nat.ltb_lt; lia). destruct (FInUse f) eqn:Ef; [done|].
    set (fs' := <[i := _]> fs). assert (Hnew : fs' !! i = Some (mkFiber sb sr sp true true)) by (apply list_lookup_insert_eq; by rewrite Hl).
    assert (Hother : ∀ j, j ≠ Z.of_nat i → 0 ≤ j → live_fiber j fs' = live_fiber j fs).
    { intros j Hj Hj0. rewrite <- (Z2Nat.id j) by done. rewrite !Hlv. unfold fs'. by rewrite list_lookup_insert_ne by lia. }
    assert (Hdel : PsDeleteFiber (Z.of_nat i) fs' = (STATUS_SUCCESS, <[i := mkFiber sb sr sp false false]> fs')).
    { unfold PsDeleteFiber. rewrite Hlv, Hi', Hnew. cbn. by rewrite Nat2Z.id. }
    split; [done|]. split; [by rewrite Hlv, Hi', Hf, Ef|]. split; [by rewrite Hlv, Hi', Hnew|]. split; [done|].
    rewrite Hdel. split; [done|]. intros j Hj. cbn [snd]. destruct (decide (j = Z.of_nat i)) as [->|Hne].
    + rewrite !Hlv, Hi', Hf, Ef. rewrite list_lookup_insert_eq; [done|]. unfold fs'. by rewrite length_insert, Hl.
    + rewrite <- Hother by done. rewrite <- (Z2Nat.id j) by done. rewrite !Hlv. by rewrite list_lookup_insert_ne by lia.
  - split; [done|]. split; [done|]. intros f [k Hk]%list_elem_of_lookup_1. rewrite first_idx_None in Hi. specialize (Hi k f Hk). by destruct (FInUse f).
Qed.

(** Converting a thread never creates a fiber: the null stack and routine are
    refused, and what is returned is an uninitialised variable. *)
Theorem convert_thread_uninitialised uninit fs : PsConvertThreadToFiber uninit fs = (uninit, fs).
Proof. done. Qed.

(** Switching to a fiber does not change which one is current: that is the first
    live one. *)
Theorem current_fiber_first t fs i f : t ≠ 0 → (∀ g, g ∈ fs → FActive g = FInUse g) → live_fiber (Z.of_nat i) fs = Some f →
  PsSwitchToFiber (Z.of_nat i) fs = STATUS_SUCCESS ∧ PsGetCurrentFiberId t fs ≤ Z.of_nat i.
Proof.
  intros Ht Hact Hf. split; [unfold PsSwitchToFiber; by rewrite Hf|]. unfold PsGetCurrentFiberId. replace (t =? 0) with false by lia.
  unfold live_fiber in Hf. destruct (_ <=? _); [done|]. rewrite Nat2Z.id in Hf. destruct (fs !! i) as [g|] eqn:Hg; [|done]. destruct (FInUse g) eqn:Hu; [|done].
  destruct (first_idx _ fs) as [k|] eqn:Hk.
  - apply first_idx_Some in Hk as [_ Hmin]. destruct (decide (k ≤ i)%nat) as [|Hlt]; [lia|]. exfalso.
    specialize (Hmin i g ltac:(lia) Hg). rewrite Hact, Hu in Hmin; [done|]. by eapply list_elem_of_lookup_2.
  - rewrite first_idx_None in Hk. specialize (Hk i g Hg). rewrite Hact, Hu in Hk; [done|]. by eapply list_elem_of_lookup_2.
Qed.
