(* ===== verification/SeToken.v ===== *)
(** * SeToken: tokens, SIDs and security descriptors (src/se/se.c)

    The creating half of the security subsystem, on the allocator interface.  The
    blocks it fills are kept by address; [sid_at] says that the bytes the access
    check of Se reads at an address are those of a SID. *)

From S2P Require Import Prelude Irql Pool Se.

#[local] Open Scope Z_scope.

Definition SID_REVISION := 1.
Definition TAG_PROC := 0x636F7250.
Definition sizeof_SID := 68.
Definition sizeof_TOKEN := 32.
Definition SECURITY_DESCRIPTOR_MIN_LENGTH := 40.

Record SID := mkSid { SidRevision : Z; SidCount : Z; SidAuthority : list Z; SidSubs : list Z }.
Record TOKEN := mkToken { TokenId : Z; AuthenticationId : Z; UserSid : Z; GroupSid : Z; Privileges : Z; Elevated : bool }.
Record SECURITY_DESCRIPTOR := mkSd { SdRevision : Z; SdControl : Z; SdOwner : Z; SdGroup : Z; SdSacl : Z; SdDacl : Z }.

Record SE_STATE (P : Type) := mkSe {
  SeNextTokenId : Z;
  SeNullToken : TOKEN;
  Sids : gmap Z SID;
  Tokens : gmap Z TOKEN;
  Descriptors : gmap Z SECURITY_DESCRIPTOR;
  se_pool : P
}.
Arguments mkSe {P} _ _ _ _ _ _.
Arguments SeNextTokenId {P} _.
Arguments SeNullToken {P} _.
Arguments Sids {P} _.
Arguments Tokens {P} _.
Arguments Descriptors {P} _.
Arguments se_pool {P} _.

Section Tokens.
Context {P : Type} `{HP : HasPcr P} `{PI : !PoolInterface P}.

Definition set_SeNextTokenId (v : Z) (s : SE_STATE P) : SE_STATE P := mkSe v (SeNullToken s) (Sids s) (Tokens s) (Descriptors s) (se_pool s).
Definition set_SeNullToken (t : TOKEN) (s : SE_STATE P) : SE_STATE P := mkSe (SeNextTokenId s) t (Sids s) (Tokens s) (Descriptors s) (se_pool s).
Definition put_sid (a : Z) (x : SID) (s : SE_STATE P) : SE_STATE P := mkSe (SeNextTokenId s) (SeNullToken s) (<[a := x]> (Sids s)) (Tokens s) (Descriptors s) (se_pool s).
Definition put_token (a : Z) (x : TOKEN) (s : SE_STATE P) : SE_STATE P := mkSe (SeNextTokenId s) (SeNullToken s) (Sids s) (<[a := x]> (Tokens s)) (Descriptors s) (se_pool s).
Definition put_sd (a : Z) (x : SECURITY_DESCRIPTOR) (s : SE_STATE P) : SE_STATE P := mkSe (SeNextTokenId s) (SeNullToken s) (Sids s) (Tokens s) (<[a := x]> (Descriptors s)) (se_pool s).
Definition set_se_pool (p : P) (s : SE_STATE P) : SE_STATE P := mkSe (SeNextTokenId s) (SeNullToken s) (Sids s) (Tokens s) (Descriptors s) p.
Definition se_alloc (n : Z) : M (SE_STATE P) Z := zoom se_pool set_se_pool (pool_alloc 0 n TAG_PROC).

(** Zeroed, with its revision and count: the address, 0 for none. *)
Definition SeAllocateSid (SubAuthorityCount : Z) : M (SE_STATE P) Z :=
  let size := u32 (sizeof_SID - 4 + SubAuthorityCount * 4) in
  sid ← se_alloc size;
  if sid =? 0 then mret 0
  else mmod (put_sid sid (mkSid SID_REVISION (u8 SubAuthorityCount) (replicate 6 0) (replicate 15 0)));; mret sid.

(** [IdentifierAuthority.Value[5] = v; SubAuthority[0] = 0] *)
Definition with_authority (v : Z) (x : SID) : SID := mkSid (SidRevision x) (SidCount x) (<[5%nat := v]> (SidAuthority x)) (<[0%nat := 0]> (SidSubs x)).
Definition create_sid (v : Z) : M (SE_STATE P) Z :=
  sid ← SeAllocateSid 1;
  if sid =? 0 then mret 0
  else x ← mderef (λ s, Sids s !! sid); mmod (put_sid sid (with_authority v x));; mret sid.
Definition SeCreateWorldSid : M (SE_STATE P) Z := create_sid 1.
Definition SeCreateLocalSid : M (SE_STATE P) Z := create_sid 2.

(** [SeNextTokenId++] *)
Definition next_id : M (SE_STATE P) Z := id ← mgets SeNextTokenId; mmod (set_SeNextTokenId (u32 (id + 1)));; mret id.

Definition SeInitSystem : M (SE_STATE P) Z :=
  id ← next_id;
  user ← SeCreateWorldSid;
  group ← SeCreateWorldSid;
  mmod (set_SeNullToken (mkToken id 0 user group 0 true));;
  mret STATUS_SUCCESS.

(** The status and the token stored. *)
Definition SeCreateToken : M (SE_STATE P) (Z * Z) :=
  token ← se_alloc sizeof_TOKEN;
  if token =? 0 then mret (STATUS_NO_MEMORY, 0)
  else
    id ← next_id;
    user ← SeCreateWorldSid;
    group ← SeCreateWorldSid;
    mmod (put_token token (mkToken id 0 user group 0xFFFF true));;
    mret (STATUS_SUCCESS, token).

Definition SeCreateSecurityDescriptor : M (SE_STATE P) (Z * Z) :=
  sd ← se_alloc SECURITY_DESCRIPTOR_MIN_LENGTH;
  if sd =? 0 then mret (STATUS_NO_MEMORY, 0)
  else mmod (put_sd sd (mkSd 1 0x8000 0 0 0 0));; mret (STATUS_SUCCESS, sd).

(** ** What the calls keep *)

(** The blocks owned, with the tag they carry: each holds one object. *)
Record se_wf (s : SE_STATE P) (m : gmap Z Z) : Prop := {
  sw_pool : pool_rep (se_pool s) m;
  sw_lock : can_lock (pcr (se_pool s));
  sw_sids : ∀ a x, Sids s !! a = Some x → is_Some (m !! a);
  sw_tokens : ∀ a x, Tokens s !! a = Some x → is_Some (m !! a);
  sw_descs : ∀ a x, Descriptors s !! a = Some x → is_Some (m !! a);
  sw_next : 0 ≤ SeNextTokenId s < 4294967296;
  sw_ids : ∀ a x, Tokens s !! a = Some x → TokenId x < SeNextTokenId s
}.

Lemma se_alloc_run s m n : se_wf s m → 0 < n < 18446744073709551616 →
  ∃ a p', se_alloc n s = Ok (a, set_se_pool p' s) ∧
    ((a = 0 ∧ se_wf (set_se_pool p' s) m) ∨
     (0 < a ∧ m !! a = None ∧ se_wf (set_se_pool p' s) (<[a := TAG_PROC]> m) ∧ Sids s !! a = None ∧ Tokens s !! a = None)).
Proof.
  intros [Hp Hc H1 H2 H3 H4 H5] Hn. destruct (pool_alloc_law (se_pool s) m 0 n TAG_PROC Hp Hc Hn) as (a & p' & Hr & Hk & Hcase).
  exists a, p'. split; [by apply zoom_ok|]. destruct Hcase as [[-> Hp']|(Ha & Hm & Hp')].
  - left. split; [done|]. constructor; cbn; try done. by rewrite Hk.
  - right. split_and!; [done|done| | |].
    + constructor; cbn; try done; [by rewrite Hk|..]; intros b x Hx; (destruct (decide (a = b)) as [->|]; [by rewrite lookup_insert_eq|]); rewrite lookup_insert_ne by done; eauto.
    + destruct (Sids s !! a) eqn:E; [|done]. apply H1 in E. rewrite Hm in E. by destruct E.
    + destruct (Tokens s !! a) eqn:E; [|done]. apply H2 in E. rewrite Hm in E. by destruct E.
Qed.

Definition world (v : Z) : SID := mkSid 1 1 [0; 0; 0; 0; 0; v] (replicate 15 0).

(** A SID is created in a new block or not at all; nothing else changes. *)
Lemma create_sid_run s m v : se_wf s m →
  ∃ a s' m', create_sid v s = Ok (a, s') ∧ se_wf s' m' ∧ m ⊆ m' ∧ Tokens s' = Tokens s ∧ SeNextTokenId s' = SeNextTokenId s ∧ SeNullToken s' = SeNullToken s ∧
    ((a = 0 ∧ Sids s' = Sids s) ∨ (0 < a ∧ m !! a = None ∧ Sids s !! a = None ∧ Sids s' = <[a := world v]> (Sids s))).
Proof.
  intros Hwf. unfold create_sid, SeAllocateSid. destruct (se_alloc_run s m 68 Hwf ltac:(lia)) as (a & p' & Hr & Hcase).
  change (u32 (sizeof_SID - 4 + 1 * 4)) with 68. destruct Hcase as [[-> Hw]|(Ha & Hm & Hw & Hn & Ht)].
  - exists 0, (set_se_pool p' s), m. split; [|split_and!; try done; by left]. erewrite bind_ok; [|by erewrite bind_ok; [|exact Hr]]. done.
  - exists a, (put_sid a (world v) (set_se_pool p' s)), (<[a := TAG_PROC]> m). split_and!; [| |by apply insert_subseteq|done|done|done|by right].
    + erewrite bind_ok.
      2:{ erewrite bind_ok; [|exact Hr]. replace (a =? 0) with false by lia. reflexivity. }
      replace (a =? 0) with false by lia. erewrite deref_bind by apply lookup_insert_eq. unfold mbind, M_bind, mmod, mret, M_ret, put_sid. cbn. by rewrite insert_insert_eq.
    + destruct Hw as [K1 K2 K3 K4 K5 K6 K7]. constructor; cbn in *; try done. intros b x. destruct (decide (a = b)) as [->|].
      * by rewrite !lookup_insert_eq.
      * rewrite lookup_insert_ne by done. apply K3.
Qed.

(** A token slot is 0 or a block that holds the SID of everyone. *)
Definition world_or_none (s : SE_STATE P) (a : Z) : Prop := a = 0 ∨ (0 < a ∧ Sids s !! a = Some (world 1)).

Lemma next_id_run s m : se_wf s m → SeNextTokenId s + 1 < 4294967296 →
  next_id s = Ok (SeNextTokenId s, set_SeNextTokenId (SeNextTokenId s + 1) s) ∧ se_wf (set_SeNextTokenId (SeNextTokenId s + 1) s) m.
Proof.
  intros [K1 K2 K3 K4 K5 K6 K7] H. unfold next_id, mbind, M_bind. cbn. rewrite u32_small by lia. split; [done|].
  constructor; cbn; try done; [lia|]. intros a x Hx. specialize (K7 a x Hx). lia.
Qed.

(** The two SIDs of a token. *)
Lemma two_sids s m : se_wf s m →
  ∃ u g s' m', (user ← SeCreateWorldSid; group ← SeCreateWorldSid; mret (user, group)) s = Ok ((u, g), s') ∧ se_wf s' m' ∧ m ⊆ m' ∧
    Tokens s' = Tokens s ∧ SeNextTokenId s' = SeNextTokenId s ∧ world_or_none s' u ∧ world_or_none s' g ∧ (0 < u → u ≠ g) ∧ Sids s ⊆ Sids s'.
Proof.
  intros Hwf. destruct (create_sid_run s m 1 Hwf) as (u & s1 & m1 & Hr1 & Hw1 & Hm1 & Ht1 & Hn1 & _ & Hc1).
  destruct (create_sid_run s1 m1 1 Hw1) as (g & s2 & m2 & Hr2 & Hw2 & Hm2 & Ht2 & Hn2 & _ & Hc2).
  assert (S1 : Sids s ⊆ Sids s1) by (destruct Hc1 as [[_ ->]|(_ & _ & ? & ->)]; [done|by apply insert_subseteq]).
  assert (S2 : Sids s1 ⊆ Sids s2) by (destruct Hc2 as [[_ ->]|(_ & _ & ? & ->)]; [done|by apply insert_subseteq]).
  exists u, g, s2, m2. split_and!.
  - unfold SeCreateWorldSid. rewrite (bind_ok _ _ _ _ _ Hr1), (bind_ok _ _ _ _ _ Hr2). done.
  - done.
  - by etransitivity.
  - congruence.
  - congruence.
  - destruct Hc1 as [[-> _]|(Hu & _ & _ & E)]; [by left|right]. split; [done|]. eapply lookup_weaken; [|exact S2]. rewrite E. apply lookup_insert_eq.
  - destruct Hc2 as [[-> _]|(Hu & _ & _ & E)]; [by left|right]. split; [done|]. rewrite E. apply lookup_insert_eq.
  - intros Hu ->. destruct Hc1 as [[-> _]|(_ & _ & _ & E)]; [lia|]. destruct Hc2 as [[-> _]|(_ & _ & Hn & _)]; [lia|].
    rewrite E, lookup_insert_eq in Hn. done.
  - by etransitivity.
Qed.

(** Creating a token: without memory for it nothing is changed; otherwise the
    token is a new block with an identifier no other token has, and its two SIDs
    are distinct blocks with the SID of everyone.  A SID for which there is no
    memory is left null and the call still succeeds. *)
Theorem SeCreateToken_spec s m : se_wf s m → SeNextTokenId s + 1 < 4294967296 →
  ∃ st t s' m', SeCreateToken s = Ok ((st, t), s') ∧ se_wf s' m' ∧ Sids s ⊆ Sids s' ∧
    ((st = STATUS_NO_MEMORY ∧ t = 0 ∧ Tokens s' = Tokens s ∧ SeNextTokenId s' = SeNextTokenId s) ∨
     (st = STATUS_SUCCESS ∧ 0 < t ∧ m !! t = None ∧
      ∃ u g, Tokens s' = <[t := mkToken (SeNextTokenId s) 0 u g 0xFFFF true]> (Tokens s) ∧ SeNextTokenId s' = SeNextTokenId s + 1 ∧
        (∀ a x, Tokens s !! a = Some x → TokenId x ≠ SeNextTokenId s) ∧
        world_or_none s' u ∧ world_or_none s' g ∧ (0 < u → u ≠ g))).
Proof.
  intros Hwf Hid. unfold SeCreateToken. destruct (se_alloc_run s m sizeof_TOKEN Hwf ltac:(done)) as (t & p' & Hr & Hcase).
  rewrite (bind_ok _ _ _ _ _ Hr). destruct Hcase as [[-> Hw]|(Ht & Hm & Hw & _ & Hn)].
  { eexists _, 0, _, m. split; [reflexivity|]. split; [exact Hw|]. split; [done|]. by left. }
  replace (t =? 0) with false by lia. set (s1 := set_se_pool p' s) in *.
  destruct (next_id_run s1 _ Hw Hid) as [Hi Hw1]. rewrite (bind_ok _ _ _ _ _ Hi). set (s2 := set_SeNextTokenId _ s1) in *.
  destruct (two_sids s2 _ Hw1) as (u & g & s3 & m3 & Hr3 & Hw3 & Hm3 & Ht3 & Hn3 & Hu & Hg & Hug & Hsub).
  apply bind_inv in Hr3 as (u' & sa & Hra & Hr3). apply bind_inv in Hr3 as (g' & sb & Hrb & Hr3). injection Hr3 as -> -> ->.
  rewrite (bind_ok _ _ _ _ _ Hra), (bind_ok _ _ _ _ _ Hrb).
  eexists _, t, (put_token t (mkToken (SeNextTokenId s) 0 u g 0xFFFF true) s3), m3. split; [reflexivity|].
  assert (Hmt : m3 !! t = Some TAG_PROC) by (eapply lookup_weaken; [|exact Hm3]; apply lookup_insert_eq).
  split; [|split; [exact Hsub|right; split_and!; [done|done|done|]]].
  - destruct Hw3 as [K1 K2 K3 K4 K5 K6 K7]. constructor; cbn; try done.
    + intros a x. destruct (decide (t = a)) as [->|]; [rewrite lookup_insert_eq; by rewrite Hmt|]. rewrite lookup_insert_ne by done. apply K4.
    + intros a x. destruct (decide (t = a)) as [->|]; [rewrite lookup_insert_eq; intros [= <-]; cbn; rewrite Hn3; cbn; lia|].
      rewrite lookup_insert_ne by done. apply K7.
  - exists u, g. split_and!; [cbn; by rewrite Ht3|done| |done|done|done]. intros a x Hx. pose proof (sw_ids _ _ Hwf a x Hx). lia.
Qed.
End Tokens.

(** ** SIDs in memory *)

(** The bytes at an address are those of a SID. *)
Definition sid_at (mem : Z → Z) (a : Z) (x : SID) : Prop :=
  Revision mem a = SidRevision x ∧ SubAuthorityCount mem a = SidCount x ∧
  (∀ j, 0 ≤ j < 6 → IdentifierAuthority mem a j = default 0 (SidAuthority x !! Z.to_nat j)) ∧
  (∀ i, 0 ≤ i < SidCount x → SubAuthority mem a i = default 0 (SidSubs x !! Z.to_nat i)).

Lemma all_below_spec n p : all_below n p = true ↔ ∀ i, 0 ≤ i < Z.of_nat n → p i = true.
Proof.
  induction n as [|n IH]; cbn [all_below]; [split; [lia|done]|]. rewrite andb_true_iff, IH. split.
  - intros [H1 H2] i Hi. destruct (decide (i = Z.of_nat n)) as [->|]; [done|]. apply H1. lia.
  - intros H. split; [intros i Hi|]; apply H; lia.
Qed.

(** The comparison of the access check tells the SIDs this component creates
    apart: two of everyone are equal wherever they lie, one of everyone and a
    local one are not. *)
Theorem created_sids_compare mem a b v w : a ≠ 0 → b ≠ 0 → sid_at mem a (world v) → sid_at mem b (world w) →
  SeSidEqual mem a b = true ↔ v = w.
Proof.
  intros Ha Hb (R1 & C1 & A1 & S1) (R2 & C2 & A2 & S2). cbn in *. unfold SeSidEqual. replace (a =? 0) with false by lia. replace (b =? 0) with false by lia.
  cbn [andb orb]. rewrite R1, R2, C1, C2. cbn [Z.eqb Pos.eqb negb]. change (Z.to_nat 1) with 1%nat.
  set (p6 := all_below 6 _). destruct p6 eqn:E6; cbn [negb].
  - assert (Hvw : v = w).
    { unfold p6 in E6. rewrite all_below_spec in E6. specialize (E6 5 ltac:(lia)). rewrite A1, A2 in E6 by lia. by apply Z.eqb_eq in E6. }
    split; [done|intros _]. apply all_below_spec. intros i Hi. rewrite S1, S2 by lia. apply Z.eqb_refl.
  - split; [done|]. intros ->. exfalso. assert (p6 = true); [|congruence]. unfold p6. apply all_below_spec. intros j Hj. rewrite A1, A2 by lia. apply Z.eqb_refl.
Qed.

(** ** An instance *)

Definition demo_se : SE_STATE POOL_STATE := mkSe 1 (mkToken 0 0 0 0 0 false) ∅ ∅ ∅ demo_pool.
Lemma demo_se_wf : se_wf demo_se ∅.
Proof.
  constructor; [exact demo_pool_rep|exact demo_can_lock| | | |cbn; lia|]; intros a x Hx; cbn in Hx; by rewrite lookup_empty in Hx.
Qed.

Lemma SeCreateToken_spec_witness : ∃ t s', SeCreateToken demo_se = Ok ((STATUS_SUCCESS, t), s') ∧ SeNextTokenId s' = 2 ∧ 0 < t.
Proof.
  destruct (SeCreateToken_spec demo_se ∅ demo_se_wf ltac:(cbn; lia)) as (st & t & s' & m' & Hr & _ & _ & Hcase).
  assert (Hb : match SeCreateToken demo_se with Ok (r, _) => r.1 = STATUS_SUCCESS | _ => False end) by (vm_compute; reflexivity).
  rewrite Hr in Hb. destruct Hcase as [(-> & _)|(-> & Ht & _ & u & g & _ & Hn & _)]; [discriminate Hb|]. exists t, s'. split; [exact Hr|]. split; [exact Hn|exact Ht].
Defined.
