(* ===== verification/Pe.v ===== *)
(** * Pe: the image loader (src/ke/pe.c, src/include/nt/pe.h)

    PE images are read and built in virtual memory, whose bytes are [vm]; a byte
    can be reached when the page tables of MmPte translate its page, and an
    access that cannot is not defined.  Pages come from the page allocator and
    are mapped by MmMapPage; module records and temporary names come from the
    pool over the same pages. *)

From S2P Require Import Prelude Irql Rtl MmPfn MmPte Disk Pool.

#[local] Open Scope Z_scope.

Definition STATUS_INVALID_IMAGE_FORMAT := 0xC000007B.
Definition IMAGE_DOS_SIGNATURE := 0x5A4D.
Definition IMAGE_NT_SIGNATURE := 0x4550.
Definition IMAGE_FILE_MACHINE_AMD64 := 0x8664.
Definition PE32_PLUS := 0x20B.
Definition sizeof_IMAGE_DOS_HEADER := 64.
Definition sizeof_IMAGE_NT_HEADERS := 264.
Definition sizeof_IMAGE_FILE_HEADER := 20.
Definition sizeof_IMAGE_SECTION_HEADER := 40.
Definition sizeof_IMAGE_IMPORT_DESCRIPTOR := 20.
Definition sizeof_PE_MODULE := 40.
Definition IMAGE_DIRECTORY_ENTRY_EXPORT := 0.
Definition IMAGE_DIRECTORY_ENTRY_IMPORT := 1.
Definition IMAGE_DIRECTORY_ENTRY_BASERELOC := 5.
Definition IMAGE_REL_BASED_DIR64 := 10.
Definition IMAGE_SCN_CNT_CODE := 0x20.
Definition IMAGE_SCN_CNT_INITIALIZED_DATA := 0x40.
Definition IMAGE_ORDINAL_FLAG64 := 0x8000000000000000.
Definition TAG_EPM0 := 0x65706D30.

Record PE_IMAGE := mkImage {
  ImageBase : Z;
  MappedBase : Z;
  EntryPoint : Z;
  ImageSize : Z;
  NumberOfSections : Z;
  Sections : Z;
  Imports : Z;
  IsExe : bool
}.
(** The name of a module is absent when it was registered without one, or when
    there was no memory for it. *)
Record PE_MODULE := mkModule { ModName : option UNICODE_STRING; ModImage : Z }.

Record PE_STATE := mkPe {
  pe_pool : POOL_STATE;
  vm : Z → Z;
  Images : gmap Z PE_IMAGE;
  ModuleListHead : list (Z * PE_MODULE);
  ModuleListLock_ : Z
}.
Definition set_pe_pool (p : POOL_STATE) (s : PE_STATE) : PE_STATE := mkPe p (vm s) (Images s) (ModuleListHead s) (ModuleListLock_ s).
Definition set_vm (v : Z → Z) (s : PE_STATE) : PE_STATE := mkPe (pe_pool s) v (Images s) (ModuleListHead s) (ModuleListLock_ s).
Definition set_Images (m : gmap Z PE_IMAGE) (s : PE_STATE) : PE_STATE := mkPe (pe_pool s) (vm s) m (ModuleListHead s) (ModuleListLock_ s).
Definition set_ModuleListHead (l : list (Z * PE_MODULE)) (s : PE_STATE) : PE_STATE := mkPe (pe_pool s) (vm s) (Images s) l (ModuleListLock_ s).
Definition set_ModuleListLock (v : Z) (s : PE_STATE) : PE_STATE := mkPe (pe_pool s) (vm s) (Images s) (ModuleListHead s) v.

#[global] Instance PE_HasPcr : HasPcr PE_STATE.
Proof.
  refine {| pcr := λ s, pcr (pe_pool s); set_pcr := λ k s, set_pe_pool (set_pcr k (pe_pool s)) s |}.
  - done.
  - done.
  - by intros [[[]]].
Defined.
Definition ModuleListLock : SpinLock PE_STATE.
Proof. refine (mkSpinLock ModuleListLock_ set_ModuleListLock _ _ _ _ _ _); [done..|by intros []|done]. Defined.

Definition mm {A} (m : M PFN_STATE A) : M PE_STATE A := zoom (λ s, pool_mm (pe_pool s)) (λ t s, set_pe_pool (set_pool_mm t (pe_pool s)) s) m.
Definition pl {A} (m : M POOL_STATE A) : M PE_STATE A := zoom pe_pool set_pe_pool m.

Section Pe.
(** The root of the page tables in use. *)
Context (cr3 : Z).

(** ** Virtual memory *)

(** The pages that the [n] bytes from [a] lie in. *)
Definition page_list (a n : Z) : list Z := if n <=? 0 then [] else seqZ (a / 4096) ((a + n - 1) / 4096 - a / 4096 + 1).
Definition reach (s : PE_STATE) (a n : Z) : bool :=
  forallb (λ p, match translation (pool_mm (pe_pool s)) cr3 (4096 * p) with Some _ => true | None => false end) (page_list a n).
Definition peek (m : Z → Z) (a : Z) (n : nat) : list Z := (λ k, m (a + k)) <$> seqZ 0 (Z.of_nat n).
Definition poke (a : Z) (bs : list Z) (m : Z → Z) : Z → Z := λ b,
  if (a <=? b) && (b <? a + Z.of_nat (length bs)) then default 0 (bs !! Z.to_nat (b - a)) else m b.

Definition rd (n a : Z) : M PE_STATE Z :=
  s ← mget; if reach s a n then mret (le_val (peek (vm s) a (Z.to_nat n))) else mundef.
Definition wr (a : Z) (bs : list Z) : M PE_STATE unit :=
  s ← mget; if reach s a (Z.of_nat (length bs)) then mmod (set_vm (poke a bs (vm s))) else mundef.
Definition vm_zero (a n : Z) : M PE_STATE unit :=
  s ← mget; if reach s a n then mmod (set_vm (λ b, if (a <=? b) && (b <? a + n) then 0 else vm s b)) else mundef.
Definition vm_copy (dst src n : Z) : M PE_STATE unit :=
  s ← mget;
  if reach s src n && reach s dst n then
    mmod (set_vm (λ b, if (dst <=? b) && (b <? dst + n) then vm s (b - dst + src) else vm s b))
  else mundef.

(** ** Headers *)

Definition Signature (nt : Z) := rd 4 nt.
Definition Machine (nt : Z) := rd 2 (nt + 4).
Definition FileNumberOfSections (nt : Z) := rd 2 (nt + 6).
Definition SizeOfOptionalHeader (nt : Z) := rd 2 (nt + 20).
Definition Magic (nt : Z) := rd 2 (nt + 24).
Definition AddressOfEntryPoint (nt : Z) := rd 4 (nt + 40).
Definition OptImageBase (nt : Z) := rd 8 (nt + 48).
Definition SizeOfImage (nt : Z) := rd 4 (nt + 80).
Definition NumberOfRvaAndSizes (nt : Z) := rd 4 (nt + 132).
Definition DirAddress (nt i : Z) := rd 4 (nt + 136 + 8 * i).
Definition DirSize (nt i : Z) := rd 4 (nt + 140 + 8 * i).

(** [(PUCHAR)&OptHeader->NumberOfRvaAndSizes + NumberOfRvaAndSizes * 8] *)
Definition section_table (nt n : Z) : Z := nt + 132 + n * 8.
Definition VirtualSize (sec : Z) := rd 4 (sec + 8).
Definition VirtualAddress (sec : Z) := rd 4 (sec + 12).
Definition SizeOfRawData (sec : Z) := rd 4 (sec + 16).
Definition PointerToRawData (sec : Z) := rd 4 (sec + 20).
Definition Characteristics (sec : Z) := rd 4 (sec + 36).

Definition e_magic (dos : Z) := rd 2 dos.
Definition e_lfanew (dos : Z) : M PE_STATE Z := v ← rd 4 (dos + 60); mret (s32 v).

Definition PeValidateImage (DosHeader FileSize : Z) : M PE_STATE Z :=
  if FileSize <? sizeof_IMAGE_DOS_HEADER then mret STATUS_INVALID_IMAGE_FORMAT
  else
    magic ← e_magic DosHeader;
    if negb (magic =? IMAGE_DOS_SIGNATURE) then mret STATUS_INVALID_IMAGE_FORMAT
    else
      lf ← e_lfanew DosHeader;
      if FileSize <? u32 lf + sizeof_IMAGE_NT_HEADERS then mret STATUS_INVALID_IMAGE_FORMAT
      else
        let nt := DosHeader + lf in
        sig ← Signature nt;
        if negb (sig =? IMAGE_NT_SIGNATURE) then mret STATUS_INVALID_IMAGE_FORMAT
        else
          m ← Machine nt;
          if negb (m =? IMAGE_FILE_MACHINE_AMD64) then mret STATUS_INVALID_IMAGE_FORMAT
          else
            opt ← Magic nt;
            if negb (opt =? PE32_PLUS) then mret STATUS_INVALID_IMAGE_FORMAT else mret STATUS_SUCCESS.

(** ** Loading *)

(** One page of the image: the status that ends the loop, if any. *)
Definition map_turn (imageBase imageSize mapped : Z) : M PE_STATE (Z + option Z) :=
  if mapped <? imageSize then
    pa ← mm MmAllocatePhysicalPage;
    if pa =? 0 then mret (inr (Some STATUS_NO_MEMORY))
    else
      st ← mm (MmMapPage cr3 (u64 (imageBase + mapped)) pa (Z.lor PTE_USER PTE_WRITE));
      if negb (NT_SUCCESS st) then mm (MmFreePhysicalPage pa);; mret (inr (Some st))
      else mret (inl (mapped + PAGE_SIZE))
  else mret (inr None).

Fixpoint copy_sections (FileBase imageBase table : Z) (l : list Z) : M PE_STATE unit :=
  match l with
  | [] => mret tt
  | i :: l' =>
      let sec := table + sizeof_IMAGE_SECTION_HEADER * i in
      raw ← SizeOfRawData sec;
      ptr ← PointerToRawData sec;
      (if (0 <? raw) && (0 <? ptr) then
         vs ← VirtualSize sec;
         va ← VirtualAddress sec;
         vm_copy (u64 (imageBase + va)) (FileBase + ptr) (if vs <? raw then vs else raw)
       else mret tt);;
      copy_sections FileBase imageBase table l'
  end.

(** One entry of a block of relocations. *)
Definition reloc_entry (imageBase va base delta j : Z) : M PE_STATE unit :=
  e ← rd 2 (base + 8 + 2 * j);
  if Z.shiftr e 12 =? IMAGE_REL_BASED_DIR64 then
    let patch := u64 (imageBase + va + Z.land e 0xFFF) in
    v ← rd 8 patch;
    wr patch (le_bytes 8 (u64 (v + delta)))
  else mret tt.
Definition entry_turn (imageBase va base delta count j : Z) : M PE_STATE (Z + unit) :=
  if j <? count then reloc_entry imageBase va base delta j;; mret (inl (j + 1)) else mret (inr tt).
Definition block_turn (imageBase delta relocEnd base : Z) : M PE_STATE (Z + unit) :=
  if base <? relocEnd then
    va ← rd 4 base;
    size ← rd 4 (base + 4);
    loop (entry_turn imageBase va base delta (u32 (u64 (size - 8) / 2))) 0;;
    mret (inl (u64 (base + size)))
  else mret (inr tt).
Definition relocate (nt imageBase : Z) : M PE_STATE unit :=
  relocRva ← DirAddress nt IMAGE_DIRECTORY_ENTRY_BASERELOC;
  relocSize ← DirSize nt IMAGE_DIRECTORY_ENTRY_BASERELOC;
  if truthy relocRva && truthy relocSize then
    prefBase ← OptImageBase nt;
    let delta := s64 (u64 (imageBase - prefBase)) in
    let relocBase := u64 (imageBase + relocRva) in
    loop (block_turn imageBase delta (u64 (relocBase + relocSize))) relocBase
  else mret tt.

Definition PeLoadImage (FileBase FileSize : Z) (Exe : bool) (OutImage : Z) : M PE_STATE Z :=
  st ← PeValidateImage FileBase FileSize;
  if negb (NT_SUCCESS st) then mret st
  else
    lf ← e_lfanew FileBase;
    let nt := FileBase + lf in
    n ← NumberOfRvaAndSizes nt;
    let table := section_table nt n in
    imageSize ← SizeOfImage nt;
    imageBase ← OptImageBase nt;
    failed ← loop (map_turn imageBase imageSize) 0;
    match failed with
    | Some st => mret st
    | None =>
        vm_zero imageBase imageSize;;
        opt ← SizeOfOptionalHeader nt;
        vm_copy imageBase FileBase (opt + sizeof_IMAGE_FILE_HEADER + 4);;
        nsec ← FileNumberOfSections nt;
        copy_sections FileBase imageBase table (seqZ 0 nsec);;
        relocate nt imageBase;;
        prefBase ← OptImageBase nt;
        entry ← AddressOfEntryPoint nt;
        size ← SizeOfImage nt;
        nsec ← FileNumberOfSections nt;
        importRva ← DirAddress nt IMAGE_DIRECTORY_ENTRY_IMPORT;
        mmod (λ s, set_Images (<[OutImage := mkImage prefBase imageBase (u64 (imageBase + entry)) size nsec table
          (if truthy importRva then u64 (imageBase + importRva) else 0) Exe]> (Images s)) s);;
        mret STATUS_SUCCESS
    end.

Definition PeUnloadImage (Image : Z) : M PE_STATE unit :=
  x ← mderef (λ s, Images s !! Image);
  mmod (λ s, set_Images (<[Image := mkImage (ImageBase x) 0 0 (ImageSize x) (NumberOfSections x) (Sections x) (Imports x) (IsExe x)]> (Images s)) s).

(** ** Exports *)

(** The address of the export directory, 0 for none.  The NT headers are taken to
    follow the DOS header at once. *)
Definition PeGetExportDirectory (Image : PE_IMAGE) : M PE_STATE Z :=
  let nt := MappedBase Image + sizeof_IMAGE_DOS_HEADER in
  exportRva ← DirAddress nt IMAGE_DIRECTORY_ENTRY_EXPORT;
  exportSize ← DirSize nt IMAGE_DIRECTORY_ENTRY_EXPORT;
  if negb (truthy exportRva) || negb (truthy exportSize) then mret 0 else mret (u64 (MappedBase Image + exportRva)).

Definition ExpBase (d : Z) := rd 4 (d + 16).
Definition NumberOfFunctions (d : Z) := rd 4 (d + 20).
Definition NumberOfNames (d : Z) := rd 4 (d + 24).
Definition AddressOfFunctions (d : Z) := rd 4 (d + 28).
Definition AddressOfNames (d : Z) := rd 4 (d + 32).
Definition AddressOfNameOrdinals (d : Z) := rd 4 (d + 36).

(** _stricmp(s1, s2) == 0, one pair of characters a turn. *)
Definition stricmp_turn (ab : Z * Z) : M PE_STATE (Z * Z + bool) :=
  let '(a, b) := ab in
  x ← rd 1 a;
  y ← rd 1 b;
  if (x =? 0) || (y =? 0) then mret (inr (x =? y))
  else if negb (lower_ascii x =? lower_ascii y) then mret (inr false)
  else mret (inl (a + 1, b + 1)).
Definition stricmp_eq (a b : Z) : M PE_STATE bool := loop stricmp_turn (a, b).

(** The search through the table of names, from [i] on. *)
Definition name_turn (Base d numFunctions numNames functions names ordinals NameToFind i : Z) : M PE_STATE (Z + Z) :=
  if i <? numNames then
    rva ← rd 4 (names + 4 * i);
    eq ← stricmp_eq (u64 (Base + rva)) NameToFind;
    if (eq : bool) then
      ordinal ← rd 2 (ordinals + 2 * i);
      if ordinal <? numFunctions then
        funcRva ← rd 4 (functions + 4 * ordinal);
        if truthy funcRva then b ← ExpBase d; mret (inr (u32 (b + ordinal)))
        else mret (inl (i + 1))
      else mret (inl (i + 1))
    else mret (inl (i + 1))
  else mret (inr 0).
Definition PeFindExportByName (Image : PE_IMAGE) (NameToFind : Z) : M PE_STATE Z :=
  d ← PeGetExportDirectory Image;
  if d =? 0 then mret 0
  else
    numFunctions ← NumberOfFunctions d;
    numNames ← NumberOfNames d;
    if numNames =? 0 then mret 0
    else
      f ← AddressOfFunctions d;
      n ← AddressOfNames d;
      o ← AddressOfNameOrdinals d;
      let B := MappedBase Image in
      loop (name_turn B d numFunctions numNames (u64 (B + f)) (u64 (B + n)) (u64 (B + o)) NameToFind) 0.

Definition PeFindExportByOrdinal (Image : PE_IMAGE) (Ordinal : Z) : M PE_STATE Z :=
  d ← PeGetExportDirectory Image;
  if d =? 0 then mret 0
  else
    numFunctions ← NumberOfFunctions d;
    b ← ExpBase d;
    let target := u32 (Ordinal - b) in
    if numFunctions <=? target then mret 0
    else
      f ← AddressOfFunctions d;
      funcRva ← rd 4 (u64 (MappedBase Image + f) + 4 * target);
      if funcRva =? 0 then mret 0 else mret (u32 (b + target)).

(** The section an address is in decides, then the image itself; 0 is NULL. *)
Definition section_turn (Image : PE_IMAGE) (table nsec ExportRva i : Z) : M PE_STATE (Z + Z) :=
  let B := MappedBase Image in
  if i <? nsec then
    let sec := table + sizeof_IMAGE_SECTION_HEADER * i in
    rva ← VirtualAddress sec;
    size ← VirtualSize sec;
    if (rva <=? ExportRva) && (ExportRva <? u32 (rva + size)) then
      c ← Characteristics sec;
      if has_bits c IMAGE_SCN_CNT_CODE || has_bits c IMAGE_SCN_CNT_INITIALIZED_DATA then mret (inr (u64 (B + ExportRva)))
      else mret (inl (i + 1))
    else mret (inl (i + 1))
  else
    mret (inr (if (u32 B <=? ExportRva) && (ExportRva <? u32 (u32 B + ImageSize Image)) then u64 (B + ExportRva) else 0)).
Definition PeResolveExport (Image : PE_IMAGE) (ExportRva : Z) : M PE_STATE Z :=
  let nt := MappedBase Image + sizeof_IMAGE_DOS_HEADER in
  n ← NumberOfRvaAndSizes nt;
  nsec ← FileNumberOfSections nt;
  loop (section_turn Image (section_table nt n) nsec ExportRva) 0.

(** ** Modules *)

Definition PeInitModuleList : M PE_STATE unit := mmod (set_ModuleListHead []);; KeInitializeSpinLock ModuleListLock.

(** The characters before the end mark. *)
Definition str_turn (al : Z * list Z) : M PE_STATE (Z * list Z + list Z) :=
  let '(a, l) := al in
  c ← rd 1 a;
  if c =? 0 then mret (inr l) else mret (inl (a + 1, l ++ [c])).
Definition read_str (a : Z) : M PE_STATE (list Z) := loop str_turn (a, []).

(** [(WCHAR)DllName[i]]: characters are signed. *)
Definition widen (c : Z) : Z := if c <? 128 then c else c + 0xFF00.
Definition wide_name (n : list Z) : UNICODE_STRING :=
  mkUS (u16 (2 * Z.of_nat (length n))) (u16 (2 * (Z.of_nat (length n) + 1))) ((widen <$> n) ++ [0]).

(** Whether a module has the name at an address: a copy in 16-bit characters is
    made for the comparison and given back. *)
Definition has_name (DllName : Z) (m : PE_MODULE) : M PE_STATE bool :=
  match ModName m with
  | None => mret false
  | Some u =>
      n ← read_str DllName;
      if Length u =? u16 (2 * Z.of_nat (length n)) then
        w ← pl (pool_alloc 0 (2 * (Z.of_nat (length n) + 1)) TAG_EPM0);
        if w =? 0 then mret false
        else
          pl (pool_free w TAG_EPM0);;
          mret (RtlEqualUnicodeString u (wide_name n) true)
      else mret false
  end.
Fixpoint find_module (DllName : Z) (l : list (Z * PE_MODULE)) : M PE_STATE (option Z) :=
  match l with
  | [] => mret None
  | (_, m) :: l' => b ← has_name DllName m; if (b : bool) then mret (Some (ModImage m)) else find_module DllName l'
  end.

Definition PeIsModuleLoaded (DllName : Z) : M PE_STATE bool :=
  irql ← KeAcquireSpinLock ModuleListLock;
  l ← mgets ModuleListHead;
  r ← find_module DllName l;
  KeReleaseSpinLock ModuleListLock irql;;
  mret (match r with Some _ => true | None => false end).
Definition PeFindModuleHandle (DllName : Z) : M PE_STATE Z :=
  irql ← KeAcquireSpinLock ModuleListLock;
  l ← mgets ModuleListHead;
  r ← find_module DllName l;
  KeReleaseSpinLock ModuleListLock irql;;
  mret (default 0 r).

(** The name of a new module; past a length of 32766 the block is smaller than
    what is written to it. *)
Definition module_name (DllName : Z) : M PE_STATE (option UNICODE_STRING) :=
  if DllName =? 0 then mret None
  else
    c ← rd 1 DllName;
    if c =? 0 then mret None
    else
      n ← read_str DllName;
      buf ← pl (pool_alloc 0 (MaximumLength (wide_name n)) TAG_EPM0);
      if buf =? 0 then mret None
      else if MaximumLength (wide_name n) <? 2 * (Z.of_nat (length n) + 1) then mundef
      else mret (Some (wide_name n)).
Definition PeRegisterModule (DllName Image : Z) : M PE_STATE unit :=
  irql ← KeAcquireSpinLock ModuleListLock;
  l ← mgets ModuleListHead;
  (if existsb (λ x, ModImage x.2 =? Image) l then mret tt
   else
     m ← pl (pool_alloc 0 sizeof_PE_MODULE TAG_EPM0);
     if m =? 0 then mret tt
     else
       name ← module_name DllName;
       mmod (λ s, set_ModuleListHead (ModuleListHead s ++ [(m, mkModule name Image)]) s));;
  KeReleaseSpinLock ModuleListLock irql.

(** ** Imports *)

(** One thunk: the address of the function it names is stored in the table. *)
Definition thunk_turn (imageBase : Z) (target : PE_IMAGE) (oi : Z * Z) : M PE_STATE (Z * Z + unit) :=
  let '(orig, iat) := oi in
  v ← rd 8 orig;
  if v =? 0 then mret (inr tt)
  else
    exportRva ← (if has_bits v IMAGE_ORDINAL_FLAG64 then PeFindExportByOrdinal target (Z.land v 0xFFFF)
                 else PeFindExportByName target (u64 (imageBase + v + 2)));
    addr ← (if truthy exportRva then PeResolveExport target exportRva else mret 0);
    wr iat (le_bytes 8 addr);;
    mret (inl (orig + 8, iat + 8)).
Definition import_turn (imageBase desc : Z) : M PE_STATE (Z + unit) :=
  name ← rd 4 (desc + 12);
  if name =? 0 then mret (inr tt)
  else
    t ← PeFindModuleHandle (u64 (imageBase + name));
    if t =? 0 then mret (inl (desc + sizeof_IMAGE_IMPORT_DESCRIPTOR))
    else
      target ← mderef (λ s, Images s !! t);
      o ← rd 4 desc;
      f ← rd 4 (desc + 16);
      loop (thunk_turn imageBase target) (u64 (imageBase + (if truthy o then o else f)), u64 (imageBase + f));;
      mret (inl (desc + sizeof_IMAGE_IMPORT_DESCRIPTOR)).
Definition PeResolveImports (Image : Z) : M PE_STATE Z :=
  x ← mderef (λ s, Images s !! Image);
  if Imports x =? 0 then mret STATUS_SUCCESS
  else loop (import_turn (MappedBase x)) (Imports x);; mret STATUS_SUCCESS.
End Pe.

(** ** Reaching memory *)

Definition val (s : PE_STATE) (n a : Z) : Z := le_val (peek (vm s) a (Z.to_nat n)).
Definition vm_bytes (s : PE_STATE) : Prop := ∀ a, byte (vm s a).

Lemma rd_run cr3 s n a : reach cr3 s a n = true → rd cr3 n a s = Ok (val s n a, s).
Proof. intros H. unfold rd, mbind, M_bind. cbn [mget]. by rewrite H. Qed.

Lemma page_list_elem a n p : 0 ≤ a → p ∈ page_list a n ↔ 0 < n ∧ a / 4096 ≤ p ≤ (a + n - 1) / 4096.
Proof.
  intros Ha. unfold page_list. destruct (Z.leb_spec n 0).
  - rewrite elem_of_nil. lia.
  - rewrite elem_of_seqZ. assert (a / 4096 ≤ (a + n - 1) / 4096) by (apply Z.div_le_mono; lia). lia.
Qed.

Lemma reach_spec cr3 s a n : 0 ≤ a → reach cr3 s a n = true ↔
  ∀ p, 0 < n → a / 4096 ≤ p ≤ (a + n - 1) / 4096 → is_Some (translation (pool_mm (pe_pool s)) cr3 (4096 * p)).
Proof.
  intros Ha. unfold reach. rewrite forallb_forall. split.
  - intros H p Hn Hp. specialize (H p). rewrite <- list_elem_of_In, page_list_elem in H by done. specialize (H (conj Hn Hp)). by case_match.
  - intros H p. rewrite <- list_elem_of_In, page_list_elem by done. intros [Hn Hp]. by destruct (H p Hn Hp) as [es ->].
Qed.

Lemma reach_sub cr3 s a n b k : 0 ≤ a → reach cr3 s a n = true → a ≤ b → b + k ≤ a + n → reach cr3 s b k = true.
Proof.
  intros Ha Hr Hb Hk. rewrite reach_spec in Hr |- * by lia. intros p Hk0 Hp. apply Hr; [lia|].
  split; [transitivity (b / 4096); [apply Z.div_le_mono; lia|lia]|]. transitivity ((b + k - 1) / 4096); [lia|]. apply Z.div_le_mono; lia.
Qed.

Lemma peek_bytes s a n : vm_bytes s → Forall byte (peek (vm s) a n).
Proof. intros H. unfold peek. apply Forall_fmap, Forall_forall. intros k _. apply H. Qed.
Lemma val_bound s n a : vm_bytes s → 0 ≤ n → 0 ≤ val s n a < 256 ^ n.
Proof.
  intros Hb Hn. pose proof (le_val_bound _ (peek_bytes s a (Z.to_nat n) Hb)) as H.
  assert (Hl : length (peek (vm s) a (Z.to_nat n)) = Z.to_nat n) by (unfold peek; rewrite length_fmap, length_seqZ; lia).
  rewrite Hl, Z2Nat.id in H by done. exact H.
Qed.

(** ** Validation *)

(** The conditions the loader checks, on a file at [F]. *)
Record pe_valid (s : PE_STATE) (F size : Z) : Prop := {
  pv_size : 64 ≤ size;
  pv_magic : val s 2 F = IMAGE_DOS_SIGNATURE;
  pv_lfanew : val s 4 (F + 60) + 264 ≤ size;
  pv_sig : val s 4 (F + val s 4 (F + 60)) = IMAGE_NT_SIGNATURE;
  pv_machine : val s 2 (F + val s 4 (F + 60) + 4) = IMAGE_FILE_MACHINE_AMD64;
  pv_opt : val s 2 (F + val s 4 (F + 60) + 24) = PE32_PLUS
}.

Lemma validate_run cr3 s F size : vm_bytes s → 0 ≤ F → 0 ≤ size < 2147483648 → reach cr3 s F size = true →
  ∃ st, PeValidateImage cr3 F size s = Ok (st, s) ∧ (st = STATUS_SUCCESS ∨ st = STATUS_INVALID_IMAGE_FORMAT) ∧
    (st = STATUS_SUCCESS ↔ pe_valid s F size) ∧
    (st = STATUS_SUCCESS → reach cr3 s (F + val s 4 (F + 60)) sizeof_IMAGE_NT_HEADERS = true).
Proof.
  intros Hb HF Hs Hr. unfold PeValidateImage, sizeof_IMAGE_DOS_HEADER, sizeof_IMAGE_NT_HEADERS.
  assert (Hno : ∀ P : Prop, ¬ P → ∃ st, (mret STATUS_INVALID_IMAGE_FORMAT : M PE_STATE Z) s = Ok (st, s) ∧ (st = STATUS_SUCCESS ∨ st = STATUS_INVALID_IMAGE_FORMAT) ∧
    (st = STATUS_SUCCESS ↔ P) ∧ (st = STATUS_SUCCESS → reach cr3 s (F + val s 4 (F + 60)) 264 = true)).
  { intros P HP. exists STATUS_INVALID_IMAGE_FORMAT. split_and!; [done|by right|done|done]. }
  destruct (Z.ltb_spec size 64); [apply Hno; intros []; lia|].
  assert (Hsub : ∀ n a, F ≤ a → a + n ≤ F + size → rd cr3 n a s = Ok (val s n a, s)) by (intros n a ? ?; apply rd_run; by eapply reach_sub).
  unfold e_magic. rewrite (bind_ok _ _ _ _ _ (Hsub 2 F ltac:(lia) ltac:(lia))).
  destruct (Z.eqb_spec (val s 2 F) IMAGE_DOS_SIGNATURE) as [E1|E1]; cbn [negb]; [|apply Hno; by intros []].
  pose proof (val_bound s 4 (F + 60) Hb ltac:(lia)) as Hlf. change (256 ^ 4) with 4294967296 in Hlf. set (lf := val s 4 (F + 60)) in *.
  assert (Hrd : e_lfanew cr3 F s = Ok (s32 lf, s)) by (unfold e_lfanew; by rewrite (bind_ok _ _ _ _ _ (Hsub 4 (F + 60) ltac:(lia) ltac:(lia)))).
  rewrite (bind_ok _ _ _ _ _ Hrd). assert (Hu : u32 (s32 lf) = lf).
  { unfold u32, s32. Z.div_mod_to_equations. lia. }
  rewrite Hu. destruct (Z.ltb_spec size (lf + 264)); [apply Hno; intros []; lia|].
  assert (Hs32 : s32 lf = lf) by (unfold s32; Z.div_mod_to_equations; lia). rewrite Hs32. set (nt := F + lf) in *.
  unfold Signature. rewrite (bind_ok _ _ _ _ _ (Hsub 4 nt ltac:(lia) ltac:(lia))).
  destruct (Z.eqb_spec (val s 4 nt) IMAGE_NT_SIGNATURE) as [E2|E2]; cbn [negb]; [|apply Hno; by intros []].
  unfold Machine. rewrite (bind_ok _ _ _ _ _ (Hsub 2 (nt + 4) ltac:(lia) ltac:(lia))).
  destruct (Z.eqb_spec (val s 2 (nt + 4)) IMAGE_FILE_MACHINE_AMD64) as [E3|E3]; cbn [negb]; [|apply Hno; by intros []].
  unfold Magic. rewrite (bind_ok _ _ _ _ _ (Hsub 2 (nt + 24) ltac:(lia) ltac:(lia))).
  destruct (Z.eqb_spec (val s 2 (nt + 24)) PE32_PLUS) as [E4|E4]; cbn [negb]; [|apply Hno; by intros []].
  exists STATUS_SUCCESS. split_and!; [done|by left|split; [done..|]|].
  - intros _. by constructor.
  - intros _. eapply reach_sub; [exact HF|exact Hr|lia|lia].
Qed.

(** [C31] Validation of a file of less than 2 GB that can be read: it returns without
    changing anything, it accepts exactly the files with the signatures of a
    64-bit image whose headers lie inside the file, and it never reads outside
    the file. *)
Theorem PeValidateImage_spec cr3 s F size : vm_bytes s → 0 ≤ F → 0 ≤ size < 2147483648 → reach cr3 s F size = true →
  ∃ st, PeValidateImage cr3 F size s = Ok (st, s) ∧ (st = STATUS_SUCCESS ∨ st = STATUS_INVALID_IMAGE_FORMAT) ∧
    (st = STATUS_SUCCESS ↔ pe_valid s F size) ∧
    (st = STATUS_SUCCESS → reach cr3 s (F + val s 4 (F + 60)) sizeof_IMAGE_NT_HEADERS = true).
Proof. apply validate_run. Qed.

(** ** Mapping the image *)

(** A new page put at an address without the present bit: nothing translates the
    address afterwards, whatever did before. *)
Lemma map_new_page s cr3 Va : mm_ok s (base_of cr3) → not_large s (base_of cr3) (va_path Va) →
  ∃ pa s1, MmAllocatePhysicalPage s = Ok (pa, s1) ∧
    ((pa = 0 ∧ s1 = s) ∨
     pa ≠ 0 ∧ ∃ st s2, MmMapPage cr3 Va pa (Z.lor PTE_USER PTE_WRITE) s1 = Ok (st, s2) ∧
       ((st = STATUS_NO_MEMORY ∧ ∃ s3, MmFreePhysicalPage pa s2 = Ok (tt, s3) ∧ mm_ok s3 (base_of cr3)) ∨
        (st = STATUS_SUCCESS ∧ mm_ok s2 (base_of cr3) ∧ only_page s s2 cr3 Va ∧ translation s2 cr3 Va = None))).
Proof.
  intros Hok Hn. destruct (alloc_ok s _ Hok) as (pa & s1 & R1 & O1 & _ & T1 & [[-> ->]|(Hpa & Hal & Hf & Ha & _ & Hno)]);
    [by exists 0, s; split; [|left]|]. exists pa, s1. split; [done|right]. split; [lia|].
  assert (Hn1 : not_large s1 (base_of cr3) (va_path Va)).
  { intros es He. apply Hn. rewrite <- He. symmetry. by apply (T1 cr3 Va). }
  unfold MmMapPage. set (v := Z.lor (align_down pa 4096) (Z.lor PTE_USER PTE_WRITE)).
  destruct (set_pte_run s1 cr3 Va v (mret STATUS_NO_MEMORY) (mret STATUS_SUCCESS) O1 Hn1)
    as (s2 & O2 & _ & X2 & [[R _]|(s3 & R & O3 & _ & Ho & _ & es & _ & Ht)]); rewrite R.
  - exists STATUS_NO_MEMORY, s2. split; [done|left]. split; [done|].
    destruct (free_table_page s2 _ pa O2) as (s4 & R4 & O4 & _ & _); [lia| | |by exists s4].
    + apply (px_active _ _ _ X2); [Z.div_mod_to_equations; lia|done].
    + intros q u Hlq Hq Hu. destruct (px_new _ _ _ X2 q u Hlq Hq Hu) as [Hu1|Hu1]; [by eapply Hno|]. intros E. by rewrite E, Ha in Hu1.
  - exists STATUS_SUCCESS, s3. split; [done|right]. split_and!; [done|done| |].
    + intros Vb Hd. by rewrite Ho, T1.
    + rewrite Ht. unfold v. by rewrite not_present_flags.
Qed.

Definition pmm (s : PE_STATE) : PFN_STATE := pool_mm (pe_pool s).
Definition put_mm (t : PFN_STATE) (s : PE_STATE) : PE_STATE := set_pe_pool (set_pool_mm t (pe_pool s)) s.

Lemma mm_run {A} (m : M PFN_STATE A) s a t : m (pmm s) = Ok (a, t) → mm m s = Ok (a, put_mm t s).
Proof. intros H. unfold mm, zoom. fold (pmm s). by rewrite H. Qed.

(** Addresses at which a page can be mapped or was unmapped by the loop. *)
Definition mappable (cr3 : Z) (s : PE_STATE) (Va : Z) : Prop := not_large (pmm s) (base_of cr3) (va_path Va).
Lemma only_page_mappable cr3 s t Va Vb : only_page (pmm s) t cr3 Va → translation t cr3 Va = None → mappable cr3 s Vb → mappable cr3 (put_mm t s) Vb.
Proof.
  intros Ho Hnone Hm es. change (walk _ _ _) with (translation t cr3 Vb). destruct (decide (va_path Va = va_path Vb)) as [E|E].
  - unfold translation in *. by rewrite <- E, Hnone.
  - rewrite Ho by done. apply Hm.
Qed.

Lemma map_loop cr3 base size (k : nat) : ∀ s mapped, 0 ≤ mapped → mm_ok (pmm s) (base_of cr3) → size - mapped ≤ 4096 * Z.of_nat k →
  (∀ Va, mappable cr3 s (u64 (base + Va))) →
  ∃ n r t, loops_to (map_turn cr3 base size) n mapped s r (put_mm t s) ∧ n ≤ Z.of_nat k + 1 ∧
    (r = Some STATUS_NO_MEMORY ∨ r = None ∧ (∀ Vb, translation (pmm s) cr3 Vb = None → translation t cr3 Vb = None) ∧
       (mapped < size → translation t cr3 (u64 (base + mapped)) = None)).
Proof.
  assert (Hid : ∀ s, put_mm (pmm s) s = s) by by intros [[]].
  induction k as [|k IH]; intros s mapped H0 Hok Hk Hm.
  { exists 1, None, (pmm s). rewrite Hid. split; [apply loops_done; unfold map_turn; by replace (mapped <? size) with false by lia|].
    split; [lia|right]. split; [done|]. split; [done|lia]. }
  destruct (Z.ltb_spec mapped size) as [Hlt|Hge].
  2:{ exists 1, None, (pmm s). rewrite Hid. split; [apply loops_done; unfold map_turn; by replace (mapped <? size) with false by lia|].
      split; [lia|right]. split; [done|]. split; [done|lia]. }
  destruct (map_new_page (pmm s) cr3 (u64 (base + mapped)) Hok (Hm mapped)) as (pa & s1 & Ha & Hcase).
  assert (Hal : mm MmAllocatePhysicalPage s = Ok (pa, put_mm s1 s)) by by apply mm_run.
  assert (Hturn : ∀ x, (if pa =? 0 then mret (inr (Some STATUS_NO_MEMORY)) else
      st ← mm (MmMapPage cr3 (u64 (base + mapped)) pa (Z.lor PTE_USER PTE_WRITE));
      if negb (NT_SUCCESS st) then mm (MmFreePhysicalPage pa);; mret (inr (Some st)) else mret (inl (mapped + PAGE_SIZE))) (put_mm s1 s) = x →
    map_turn cr3 base size mapped s = x).
  { intros x <-. unfold map_turn. replace (mapped <? size) with true by lia. by rewrite (bind_ok _ _ _ _ _ Hal). }
  destruct Hcase as [[-> ->]|(Hpa & st & s2 & Hmp & Hres)].
  { exists 1, (Some STATUS_NO_MEMORY), (pmm s). split; [|split; [lia|by left]]. apply loops_done. by apply Hturn. }
  assert (Hmp' : mm (MmMapPage cr3 (u64 (base + mapped)) pa (Z.lor PTE_USER PTE_WRITE)) (put_mm s1 s) = Ok (st, put_mm s2 s)) by exact (mm_run _ (put_mm s1 s) _ _ Hmp).
  replace (pa =? 0) with false in Hturn by lia. rewrite (bind_ok _ _ _ _ _ Hmp') in Hturn. destruct Hres as [(-> & s3 & Hfr & _)|(-> & O2 & Ho & Hnone)].
  - assert (Hfr' : mm (MmFreePhysicalPage pa) (put_mm s2 s) = Ok (tt, put_mm s3 s)) by exact (mm_run _ (put_mm s2 s) _ _ Hfr).
    change (negb (NT_SUCCESS STATUS_NO_MEMORY)) with true in Hturn. cbv iota in Hturn. rewrite (bind_ok _ _ _ _ _ Hfr') in Hturn.
    exists 1, (Some STATUS_NO_MEMORY), s3. split; [|split; [lia|by left]]. apply loops_done. by apply Hturn.
  - change (negb (NT_SUCCESS STATUS_SUCCESS)) with false in Hturn. cbv iota in Hturn.
    destruct (IH (put_mm s2 s) (mapped + PAGE_SIZE)) as (n & r & t & Hl & Hn & Hr); [unfold PAGE_SIZE; lia|done|unfold PAGE_SIZE; lia| |].
    { intros Va. by eapply only_page_mappable. }
    exists (n + 1), r, t. split; [eapply loops_step; [by apply Hturn|exact Hl]|]. split; [lia|]. destruct Hr as [->|(-> & Hk1 & _)]; [by left|right].
    split; [done|]. split; [|intros _; by apply Hk1]. intros Vb Hb. apply Hk1. change (translation s2 cr3 Vb = None).
    destruct (decide (va_path (u64 (base + mapped)) = va_path Vb)) as [E|E]; [|by rewrite Ho].
    unfold translation in *. by rewrite <- E.
Qed.

(** Loading an image never succeeds.  A valid file with a nonempty image: either
    the pages run out, or the loader touches the first byte of the image while no
    page table entry translates it, because the pages were entered without the
    present bit. *)
Theorem PeLoadImage_faults cr3 s F size Exe Out : vm_bytes s → 0 ≤ F → 0 ≤ size < 2147483648 → reach cr3 s F size = true → pe_valid s F size →
  let nt := F + val s 4 (F + 60) in
  let base := val s 8 (nt + 48) in
  0 < val s 4 (nt + 80) → mm_ok (pmm s) (base_of cr3) → (∀ Va, mappable cr3 s (u64 (base + Va))) →
  (∃ s', PeLoadImage cr3 F size Exe Out s = Ok (STATUS_NO_MEMORY, s')) ∨ PeLoadImage cr3 F size Exe Out s = Undef.
Proof.
  intros Hb HF Hs Hr Hv nt base Hsz Hok Hm. destruct (validate_run cr3 s F size Hb HF Hs Hr) as (st & Hval & _ & Hiff & Hnt).
  apply Hiff in Hv as Hst. subst st. specialize (Hnt eq_refl). fold nt in Hnt. pose proof Hv as [Hv1 _ Hv2 _ _ _].
  pose proof (val_bound s 4 (F + 60) Hb ltac:(lia)) as Hlf.
  assert (Hrd : ∀ n a, nt ≤ a → a + n ≤ nt + 264 → rd cr3 n a s = Ok (val s n a, s)).
  { intros n a ? ?. apply rd_run. eapply reach_sub; [|exact Hnt|lia|unfold sizeof_IMAGE_NT_HEADERS; lia]. lia. }
  assert (Hlfr : e_lfanew cr3 F s = Ok (val s 4 (F + 60), s)).
  { unfold e_lfanew. rewrite (bind_ok _ _ _ _ _ (rd_run cr3 s 4 (F + 60) ltac:(eapply reach_sub; [exact HF|exact Hr|lia|lia]))).
    unfold mret, M_ret. do 3 f_equal. unfold s32. Z.div_mod_to_equations. lia. }
  unfold PeLoadImage. rewrite (bind_ok _ _ _ _ _ Hval). change (negb (NT_SUCCESS STATUS_SUCCESS)) with false. cbv iota.
  rewrite (bind_ok _ _ _ _ _ Hlfr). cbv zeta. fold nt. unfold NumberOfRvaAndSizes, SizeOfImage, OptImageBase.
  rewrite (bind_ok _ _ _ _ _ (Hrd 4 (nt + 132) ltac:(lia) ltac:(lia))), (bind_ok _ _ _ _ _ (Hrd 4 (nt + 80) ltac:(lia) ltac:(lia))),
    (bind_ok _ _ _ _ _ (Hrd 8 (nt + 48) ltac:(lia) ltac:(lia))). fold base.
  pose proof (val_bound s 4 (nt + 80) Hb ltac:(lia)) as Hszb. change (256 ^ 4) with 4294967296 in Hszb.
  pose proof (val_bound s 8 (nt + 48) Hb ltac:(lia)) as Hbb. fold base in Hbb. change (256 ^ 8) with 18446744073709551616 in Hbb.
  set (sz := val s 4 (nt + 80)) in *.
  destruct (map_loop cr3 base sz (Z.to_nat (sz / 4096 + 1)) s 0) as (n & r & t & Hl & Hn & Hcase); [lia|done| |done|].
  { rewrite Z2Nat.id by (Z.div_mod_to_equations; lia). Z.div_mod_to_equations. lia. }
  rewrite Z2Nat.id in Hn by (Z.div_mod_to_equations; lia).
  rewrite (bind_ok _ _ _ _ _ (loop_ok _ _ _ _ _ _ Hl ltac:(Z.div_mod_to_equations; lia))).
  destruct Hcase as [->|(-> & _ & Hnone)]; [left; by eexists|right]. specialize (Hnone Hsz). rewrite Z.add_0_r in Hnone.
  replace (u64 base) with base in Hnone by (symmetry; apply Z.mod_small; lia). apply bind_undef.
  unfold vm_zero, mbind, M_bind. cbn [mget]. replace (reach cr3 (put_mm t s) base sz) with false; [done|]. symmetry. apply not_true_iff_false.
  rewrite reach_spec by lia. intros Hreach. destruct (Hreach (base / 4096) Hsz) as [es He].
  { split; [lia|]. apply Z.div_le_mono; lia. }
  change (translation t cr3 (4096 * (base / 4096)) = Some es) in He. unfold translation in *.
  replace (4096 * (base / 4096)) with (PAGE_ALIGN base) in He by (unfold PAGE_ALIGN, align_down, PAGE_SIZE; Z.div_mod_to_equations; lia).
  rewrite va_path_align in He. congruence.
Qed.

(** ** Relocations *)

(** Same addresses reachable, same bytes there. *)
Record same_mem (s s' : PE_STATE) : Prop := {
  sm_pool : pe_pool s' = pe_pool s;
  sm_images : Images s' = Images s;
  sm_modules : ModuleListHead s' = ModuleListHead s;
  sm_lock : ModuleListLock_ s' = ModuleListLock_ s;
  sm_vm a : vm s' a = vm s a
}.
#[local] Instance same_mem_refl : Reflexive same_mem.
Proof. by constructor. Qed.
#[local] Instance same_mem_trans : Transitive same_mem.
Proof. intros s1 s2 s3 [] []. constructor; try congruence. Qed.
Lemma same_reach cr3 s s' a n : same_mem s s' → reach cr3 s' a n = reach cr3 s a n.
Proof. intros [E _ _ _ _]. unfold reach. by rewrite E. Qed.
Lemma same_val s s' n a : same_mem s s' → val s' n a = val s n a.
Proof. intros [_ _ _ _ E]. unfold val, peek. f_equal. apply list_fmap_ext. intros k x _. apply E. Qed.

Lemma le_bytes_val bs : Forall byte bs → le_bytes (length bs) (le_val bs) = bs.
Proof.
  induction 1 as [|b bs Hb _ IH]; [done|]. cbn [length le_bytes le_val]. unfold byte in Hb. f_equal.
  - rewrite Z.mul_comm, Z_mod_plus_full. apply Z.mod_small. lia.
  - replace ((b + 256 * le_val bs) / 256) with (le_val bs) by (Z.div_mod_to_equations; lia). done.
Qed.

(** Adding 0 to a number in memory stores what was there. *)
Lemma rewrite_same cr3 s a : vm_bytes s → 0 ≤ a → reach cr3 s a 8 = true →
  ∃ s', (v ← rd cr3 8 a; wr cr3 a (le_bytes 8 (u64 (v + 0)))) s = Ok (tt, s') ∧ same_mem s s'.
Proof.
  intros Hb Ha Hr. rewrite (bind_ok _ _ _ _ _ (rd_run cr3 s 8 a Hr)). unfold wr, mbind, M_bind. cbn [mget].
  rewrite le_bytes_length. change (Z.of_nat 8) with 8. rewrite Hr. eexists. split; [reflexivity|]. constructor; try done. intros b. cbn [set_vm vm].
  unfold poke. rewrite le_bytes_length. destruct (_ && _) eqn:E; [|done]. pose proof (val_bound s 8 a Hb ltac:(lia)) as Hv. change (256 ^ 8) with 18446744073709551616 in Hv.
  rewrite Z.add_0_r. replace (u64 (val s 8 a)) with (val s 8 a) by (symmetry; apply Z.mod_small; lia). unfold val.
  assert (Hl : length (peek (vm s) a (Z.to_nat 8)) = 8%nat) by (unfold peek; by rewrite length_fmap, length_seqZ).
  pose proof (le_bytes_val _ (peek_bytes s a (Z.to_nat 8) Hb)) as Hle. rewrite Hl in Hle. rewrite Hle.
  unfold peek. rewrite list_lookup_fmap, lookup_seqZ_lt by lia. cbn. f_equal. lia.
Qed.

(** A table of blocks that can be walked: each has its header, its entries and
    what they patch in memory. *)
Inductive blocks (cr3 : Z) (s : PE_STATE) (imageBase stop : Z) : Z → nat → Prop :=
| blocks_end base : stop ≤ base → blocks cr3 s imageBase stop base 0
| blocks_next base n : 0 ≤ base < stop → reach cr3 s base (val s 4 (base + 4)) = true → 8 ≤ val s 4 (base + 4) →
    base + val s 4 (base + 4) < 18446744073709551616 →
    (∀ j, 0 ≤ j < (val s 4 (base + 4) - 8) / 2 → Z.shiftr (val s 2 (base + 8 + 2 * j)) 12 = IMAGE_REL_BASED_DIR64 →
       reach cr3 s (u64 (imageBase + val s 4 base + Z.land (val s 2 (base + 8 + 2 * j)) 0xFFF)) 8 = true) →
    blocks cr3 s imageBase stop (base + val s 4 (base + 4)) n → blocks cr3 s imageBase stop base (S n).

Lemma blocks_same cr3 s s' ib stop base n : same_mem s s' → blocks cr3 s ib stop base n → blocks cr3 s' ib stop base n.
Proof.
  intros Hs. induction 1 as [base Hb|base n Hb Hr H8 Ho Hp _ IH]; [by apply blocks_end|].
  apply blocks_next; rewrite ?(same_val s s') by done; rewrite ?(same_reach cr3 s s') by done; try done.
  intros j Hj. rewrite !(same_val s s'), (same_reach cr3 s s') by done. by apply Hp.
Qed.

Lemma blocks_count cr3 s ib stop base n : blocks cr3 s ib stop base n → Z.of_nat n ≤ Z.max 0 (stop - base).
Proof. induction 1; lia. Qed.

Lemma entries_run cr3 ib base count (k : nat) : ∀ s j, vm_bytes s → 0 ≤ base → 0 ≤ j → count - j = Z.of_nat k →
  reach cr3 s base (8 + 2 * count) = true →
  (∀ i, 0 ≤ i < count → Z.shiftr (val s 2 (base + 8 + 2 * i)) 12 = IMAGE_REL_BASED_DIR64 →
     reach cr3 s (u64 (ib + val s 4 base + Z.land (val s 2 (base + 8 + 2 * i)) 0xFFF)) 8 = true) →
  ∃ s', loops_to (entry_turn cr3 ib (val s 4 base) base 0 count) (Z.of_nat k + 1) j s tt s' ∧ same_mem s s'.
Proof.
  induction k as [|k IH]; intros s j Hb H0 Hj Hk Hr Hp.
  { exists s. split; [|done]. apply (loops_done _ j s tt s). unfold entry_turn. by replace (j <? count) with false by lia. }
  assert (Hone : ∃ s1, reloc_entry cr3 ib (val s 4 base) base 0 j s = Ok (tt, s1) ∧ same_mem s s1).
  { unfold reloc_entry. rewrite (bind_ok _ _ _ _ _ (rd_run cr3 s 2 (base + 8 + 2 * j) ltac:(eapply reach_sub; [exact H0|exact Hr|lia|lia]))).
    destruct (Z.eqb_spec (Z.shiftr (val s 2 (base + 8 + 2 * j)) 12) IMAGE_REL_BASED_DIR64) as [E|E]; [|by exists s].
    apply rewrite_same; [done| |apply Hp; [lia|done]]. apply Z.mod_pos_bound. done. }
  destruct Hone as (s1 & H1 & Hs1). assert (Hb1 : vm_bytes s1) by (intros a; rewrite (sm_vm _ _ Hs1); apply Hb).
  destruct (IH s1 (j + 1)) as (s' & Hl & Hs'); [done|done|lia|lia|by rewrite (same_reach cr3 s s1)| |].
  { intros i Hi. rewrite !(same_val s s1), (same_reach cr3 s s1) by done. by apply Hp. }
  rewrite (same_val s s1) in Hl by done. exists s'. split; [|by etransitivity]. rewrite Nat2Z.inj_succ. replace (Z.succ (Z.of_nat k) + 1) with (Z.of_nat k + 1 + 1) by lia.
  eapply loops_step; [|exact Hl]. unfold entry_turn. replace (j <? count) with true by lia. by rewrite (bind_ok _ _ _ _ _ H1).
Qed.

Lemma blocks_run cr3 ib stop n : ∀ s base, vm_bytes s → blocks cr3 s ib stop base n →
  ∃ s', loops_to (block_turn cr3 ib 0 stop) (Z.of_nat n + 1) base s tt s' ∧ same_mem s s'.
Proof.
  induction n as [|n IH]; intros s base Hb Hbl; inversion Hbl as [b Hge|b m Hlt Hr H8 Ho Hp Hnext]; subst.
  { exists s. split; [|done]. apply (loops_done _ base s tt s). unfold block_turn. by replace (base <? stop) with false by lia. }
  set (size := val s 4 (base + 4)) in *.
  assert (Hsz : size < 4294967296) by (pose proof (val_bound s 4 (base + 4) Hb ltac:(lia)); unfold size; change (256 ^ 4) with 4294967296 in *; lia).
  destruct (entries_run cr3 ib base ((size - 8) / 2) (Z.to_nat ((size - 8) / 2)) s 0) as (s1 & Hl & Hs1);
    [done|lia|lia|rewrite Z2Nat.id by (apply Z.div_pos; lia); lia|eapply reach_sub; [|exact Hr|lia|Z.div_mod_to_equations; lia]; lia|done|].
  assert (Hb1 : vm_bytes s1) by (intros a; rewrite (sm_vm _ _ Hs1); apply Hb).
  destruct (IH s1 (base + size) Hb1 (blocks_same _ _ _ _ _ _ _ Hs1 Hnext)) as (s' & Hl' & Hs').
  exists s'. split; [|by etransitivity]. rewrite Nat2Z.inj_succ. replace (Z.succ (Z.of_nat n) + 1) with (Z.of_nat n + 1 + 1) by lia.
  eapply loops_step; [|exact Hl']. unfold block_turn. replace (base <? stop) with true by lia.
  rewrite (bind_ok _ _ _ _ _ (rd_run cr3 s 4 base ltac:(eapply reach_sub; [|exact Hr|lia|lia]; lia))),
    (bind_ok _ _ _ _ _ (rd_run cr3 s 4 (base + 4) ltac:(eapply reach_sub; [|exact Hr|lia|lia]; lia))). fold size.
  assert (Hc : u32 (u64 (size - 8) / 2) = (size - 8) / 2).
  { unfold u64. rewrite Z.mod_small by lia. apply u32_small. Z.div_mod_to_equations. lia. }
  rewrite Hc. rewrite (bind_ok _ _ _ _ _ (loop_ok _ _ _ _ _ _ Hl ltac:(Z.div_mod_to_equations; lia))).
  unfold mret, M_ret. do 3 f_equal. unfold u64. rewrite Z.mod_small by lia. done.
Qed.

(** An image is loaded where it asks to be, so relocating it does nothing: with a
    table of blocks that can be walked the pass ends and every byte is what it
    was. *)
Theorem relocate_noop cr3 s nt n : vm_bytes s → 0 ≤ nt → reach cr3 s nt sizeof_IMAGE_NT_HEADERS = true →
  let base := val s 8 (nt + 48) in
  let rva := val s 4 (nt + 176) in
  let size := val s 4 (nt + 180) in
  base + rva + size < 18446744073709551616 → blocks cr3 s base (base + rva + size) (base + rva) n →
  ∃ s', relocate cr3 nt base s = Ok (tt, s') ∧ same_mem s s'.
Proof.
  intros Hb H0 Hr base rva size Ho Hbl. unfold relocate, DirAddress, DirSize, OptImageBase. change (nt + 136 + 8 * IMAGE_DIRECTORY_ENTRY_BASERELOC) with (nt + 136 + 40).
  change (nt + 140 + 8 * IMAGE_DIRECTORY_ENTRY_BASERELOC) with (nt + 140 + 40).
  assert (Hrd : ∀ k a, nt ≤ a → a + k ≤ nt + 264 → rd cr3 k a s = Ok (val s k a, s)).
  { intros k a ? ?. apply rd_run. eapply reach_sub; [exact H0|exact Hr|lia|unfold sizeof_IMAGE_NT_HEADERS; lia]. }
  rewrite (bind_ok _ _ _ _ _ (Hrd 4 (nt + 136 + 40) ltac:(lia) ltac:(lia))), (bind_ok _ _ _ _ _ (Hrd 4 (nt + 140 + 40) ltac:(lia) ltac:(lia))).
  replace (nt + 136 + 40) with (nt + 176) by lia. replace (nt + 140 + 40) with (nt + 180) by lia. fold rva size.
  destruct (truthy rva && truthy size); [|by exists s].
  rewrite (bind_ok _ _ _ _ _ (Hrd 8 (nt + 48) ltac:(lia) ltac:(lia))). fold base. cbv zeta.
  assert (K1 : 0 ≤ base) by (apply (val_bound s 8 (nt + 48) Hb); lia). assert (K2 : 0 ≤ rva) by (apply (val_bound s 4 (nt + 176) Hb); lia).
  assert (K3 : 0 ≤ size) by (apply (val_bound s 4 (nt + 180) Hb); lia). replace (base - base) with 0 by lia. change (s64 (u64 0)) with 0.
  assert (Hu : u64 (base + rva) = base + rva) by (apply Z.mod_small; lia). rewrite Hu.
  assert (Hu2 : u64 (base + rva + size) = base + rva + size) by (apply Z.mod_small; lia). rewrite Hu2.
  destruct (blocks_run cr3 base _ n s (base + rva) Hb Hbl) as (s' & Hl & Hs'). exists s'. split; [|done]. eapply loop_ok; [exact Hl|].
  pose proof (blocks_count _ _ _ _ _ _ Hbl). lia.
Qed.

(** ** Exports *)

(** A string with its end mark in memory. *)
Record str_at (cr3 : Z) (s : PE_STATE) (a : Z) (l : list Z) : Prop := {
  sa_addr : 0 ≤ a;
  sa_reach : reach cr3 s a (Z.of_nat (length l) + 1) = true;
  sa_char k c : l !! k = Some c → vm s (a + Z.of_nat k) = c ∧ c ≠ 0;
  sa_end : vm s (a + Z.of_nat (length l)) = 0;
  sa_short : Z.of_nat (length l) < 4294967296
}.
Definition fold_name (l : list Z) : list Z := lower_ascii <$> l.

Lemma val_1 s a : val s 1 a = vm s a.
Proof. change (vm s (a + 0) + 0 = vm s a). by rewrite !Z.add_0_r. Qed.

Lemma str_cons cr3 s a c l : str_at cr3 s a (c :: l) → vm s a = c ∧ c ≠ 0 ∧ str_at cr3 s (a + 1) l.
Proof.
  intros [H0 Hr Hc He Hl]. cbn [length] in *. destruct (Hc 0%nat c eq_refl) as [H1 H2]. rewrite Z.add_0_r in H1. split_and!; [done|done|]. constructor.
  - lia.
  - eapply reach_sub; [exact H0|exact Hr|lia|lia].
  - intros k x Hk. replace (a + 1 + Z.of_nat k) with (a + Z.of_nat (S k)) by lia. by apply (Hc (S k)).
  - by replace (a + 1 + Z.of_nat (length l)) with (a + Z.of_nat (S (length l))) by lia.
  - lia.
Qed.
Lemma str_head cr3 s a l : str_at cr3 s a l → rd cr3 1 a s = Ok (hd 0 l, s).
Proof.
  intros Hs. rewrite rd_run by (eapply reach_sub; [apply Hs|apply Hs|lia|lia]). rewrite val_1. destruct l as [|c l].
  - pose proof (sa_end _ _ _ _ Hs) as He. cbn [length hd] in *. by rewrite Z.add_0_r in He; rewrite He.
  - destruct (str_cons _ _ _ _ _ Hs) as [-> _]. done.
Qed.

Lemma lower_ascii_zero c : lower_ascii c = 0 → c = 0.
Proof. unfold lower_ascii. case_match; lia. Qed.

Lemma stricmp_run cr3 s l1 : ∀ l2 a b, str_at cr3 s a l1 → str_at cr3 s b l2 →
  ∃ n, loops_to (stricmp_turn cr3) n (a, b) s (bool_decide (fold_name l1 = fold_name l2)) s ∧ n ≤ Z.of_nat (length l1) + 1.
Proof.
  induction l1 as [|x l1 IH]; intros l2 a b H1 H2.
  - exists 1. split; [|lia]. apply loops_done. unfold stricmp_turn. rewrite (bind_ok _ _ _ _ _ (str_head _ _ _ _ H1)), (bind_ok _ _ _ _ _ (str_head _ _ _ _ H2)). cbn [hd].
    cbn [Z.eqb orb]. destruct l2 as [|y l2]; [done|]. destruct (str_cons _ _ _ _ _ H2) as (_ & Hy & _). cbn [hd]. rewrite bool_decide_false; [by destruct y|unfold fold_name; by cbn [fmap list_fmap]].
  - destruct (str_cons _ _ _ _ _ H1) as (_ & Hx & H1'). assert (Hturn : ∀ r, (let y := hd 0 l2 in if (x =? 0) || (y =? 0) then Ok (inr (x =? y), s)
      else if negb (lower_ascii x =? lower_ascii y) then Ok (inr false, s) else Ok (inl (a + 1, b + 1), s)) = r → stricmp_turn cr3 (a, b) s = r).
    { intros r <-. unfold stricmp_turn. rewrite (bind_ok _ _ _ _ _ (str_head _ _ _ _ H1)), (bind_ok _ _ _ _ _ (str_head _ _ _ _ H2)). cbn [hd]. by repeat case_match. }
    cbv zeta in Hturn. replace (x =? 0) with false in Hturn by lia. cbn [orb] in Hturn. destruct l2 as [|y l2]; cbn [hd] in Hturn.
    + exists 1. split; [|cbn [length]; lia]. apply loops_done. apply Hturn. rewrite bool_decide_false; [cbn [Z.eqb]; by replace (x =? 0) with false by lia|unfold fold_name; by cbn [fmap list_fmap]].
    + destruct (str_cons _ _ _ _ _ H2) as (_ & Hy & H2'). replace (y =? 0) with false in Hturn by lia.
      destruct (Z.eqb_spec (lower_ascii x) (lower_ascii y)) as [E|E]; cbn [negb] in Hturn.
      * destruct (IH l2 (a + 1) (b + 1) H1' H2') as (n & Hn & Hle). exists (n + 1). split; [|cbn [length]; lia]. eapply loops_step; [by apply Hturn|].
        replace (bool_decide (fold_name (x :: l1) = fold_name (y :: l2))) with (bool_decide (fold_name l1 = fold_name l2)); [exact Hn|].
        apply bool_decide_ext. unfold fold_name. cbn [fmap list_fmap]. rewrite E. split; [congruence|]. by intros [= H].
      * exists 1. split; [|cbn [length]; lia]. apply loops_done. rewrite bool_decide_false; [by apply Hturn|]. unfold fold_name. cbn [fmap list_fmap]. intros [= H _]. done.
Qed.

(** One name of an export table: its characters, its ordinal and the address of
    the function, 0 if there is none. *)
Record EXPORT := mkExport { ExName : list Z; ExOrdinal : Z; ExFunction : Z }.
Definition found_export (numFunctions : Z) (target : list Z) (e : EXPORT) : bool :=
  bool_decide (fold_name (ExName e) = fold_name target) && (ExOrdinal e <? numFunctions) && truthy (ExFunction e).

(** The tables of an image hold the exports [es]. *)
Record export_table (cr3 : Z) (s : PE_STATE) (B d numFunctions functions names ordinals : Z) (es : list EXPORT) : Prop := {
  et_dir : 0 ≤ d ∧ reach cr3 s d 40 = true;
  et_addr : 0 ≤ functions ∧ 0 ≤ names ∧ 0 ≤ ordinals;
  et_entry i e : es !! i = Some e →
    reach cr3 s (names + 4 * Z.of_nat i) 4 = true ∧ str_at cr3 s (u64 (B + val s 4 (names + 4 * Z.of_nat i))) (ExName e) ∧
    reach cr3 s (ordinals + 2 * Z.of_nat i) 2 = true ∧ val s 2 (ordinals + 2 * Z.of_nat i) = ExOrdinal e ∧
    (ExOrdinal e < numFunctions → reach cr3 s (functions + 4 * ExOrdinal e) 4 = true ∧ val s 4 (functions + 4 * ExOrdinal e) = ExFunction e)
}.

Lemma name_loop cr3 s B d nf f n o es target t : export_table cr3 s B d nf f n o es → str_at cr3 s target t →
  ∀ (k : nat) i, (i + k = length es)%nat →
  ∃ turns, loops_to (name_turn cr3 B d nf (Z.of_nat (length es)) f n o target) turns (Z.of_nat i) s
    (match first_idx (found_export nf t) (drop i es) with Some j => u32 (val s 4 (d + 16) + default 0 (ExOrdinal <$> es !! (i + j)%nat)) | None => 0 end) s ∧
    turns ≤ Z.of_nat k + 1.
Proof.
  intros [[Hd0 Hdr] (Hf0 & Hn0 & Ho0) Hent] Ht. induction k as [|k IH]; intros i Hi.
  { exists 1. split; [|lia]. rewrite drop_ge by lia. apply loops_done. unfold name_turn. by replace (Z.of_nat i <? _) with false by lia. }
  destruct (lookup_lt_is_Some_2 es i) as [e He]; [lia|]. rewrite (drop_S es e i He). cbn [first_idx].
  destruct (Hent i e He) as (Hr1 & Hstr & Hr2 & Hv2 & Hfun). destruct (stricmp_run cr3 s (ExName e) t _ _ Hstr Ht) as (m & Hm & Hmle).
  assert (Heq : stricmp_eq cr3 (u64 (B + val s 4 (n + 4 * Z.of_nat i))) target s = Ok (bool_decide (fold_name (ExName e) = fold_name t), s)).
  { eapply loop_ok; [exact Hm|]. pose proof (sa_short _ _ _ _ Hstr). lia. }
  assert (Hbody : name_turn cr3 B d nf (Z.of_nat (length es)) f n o target (Z.of_nat i) s =
    Ok (if found_export nf t e then inr (u32 (val s 4 (d + 16) + ExOrdinal e)) else inl (Z.of_nat i + 1), s)).
  { unfold name_turn. replace (Z.of_nat i <? _) with true by lia. rewrite (bind_ok _ _ _ _ _ (rd_run _ _ _ _ Hr1)), (bind_ok _ _ _ _ _ Heq). unfold found_export.
    destruct (bool_decide _); cbn [andb]; [|done]. rewrite (bind_ok _ _ _ _ _ (rd_run _ _ _ _ Hr2)), Hv2.
    destruct (Z.ltb_spec (ExOrdinal e) nf) as [Hlt|Hge]; cbn [andb]; [|done]. destruct (Hfun Hlt) as [Hr3 Hv3].
    rewrite (bind_ok _ _ _ _ _ (rd_run _ _ _ _ Hr3)), Hv3. destruct (truthy (ExFunction e)); [|done]. unfold ExpBase.
    by rewrite (bind_ok _ _ _ _ _ (rd_run cr3 s 4 (d + 16) ltac:(eapply reach_sub; [exact Hd0|exact Hdr|lia|lia]))). }
  destruct (found_export nf t e) eqn:E.
  - exists 1. split; [|lia]. apply loops_done. rewrite Hbody. rewrite Nat.add_0_r, He. done.
  - destruct (IH (S i) ltac:(lia)) as (turns & Hl & Hle). exists (turns + 1). split; [|lia]. eapply loops_step; [exact Hbody|].
    replace (Z.of_nat i + 1) with (Z.of_nat (S i)) by lia. destruct (first_idx _ (drop (S i) es)) as [j|]; [|exact Hl]. cbn. by replace (i + S j)%nat with (S i + j)%nat by lia.
Qed.

(** Looking up an export by name gives, for the first name that agrees without
    regard to case and has a function, the ordinal base plus the ordinal; the
    address of the function, which the callers expect, is not returned. *)
Theorem PeFindExportByName_spec cr3 s Image es target t :
  let B := MappedBase Image in
  let nt := B + 64 in
  let d := u64 (B + val s 4 (nt + 136)) in
  0 ≤ B → reach cr3 s nt sizeof_IMAGE_NT_HEADERS = true → val s 4 (nt + 136) ≠ 0 → val s 4 (nt + 140) ≠ 0 → d ≠ 0 →
  val s 4 (d + 24) = Z.of_nat (length es) → es ≠ [] →
  export_table cr3 s B d (val s 4 (d + 20)) (u64 (B + val s 4 (d + 28))) (u64 (B + val s 4 (d + 32))) (u64 (B + val s 4 (d + 36))) es →
  str_at cr3 s target t → vm_bytes s →
  PeFindExportByName cr3 Image target s =
    Ok (match first_idx (found_export (val s 4 (d + 20)) t) es with Some j => u32 (val s 4 (d + 16) + default 0 (ExOrdinal <$> es !! j)) | None => 0 end, s).
Proof.
  intros B nt d HB Hr H1 H2 Hd Hn Hes Het Ht Hb. pose proof (et_dir _ _ _ _ _ _ _ _ _ Het) as [Hd0 Hdr].
  unfold PeFindExportByName, PeGetExportDirectory, DirAddress, DirSize, sizeof_IMAGE_DOS_HEADER. fold B. fold nt. unfold IMAGE_DIRECTORY_ENTRY_EXPORT. rewrite Z.mul_0_r, !Z.add_0_r.
  assert (Hrd : ∀ k a, nt ≤ a → a + k ≤ nt + 264 → rd cr3 k a s = Ok (val s k a, s)).
  { intros k a ? ?. apply rd_run. eapply reach_sub; [|exact Hr|lia|unfold sizeof_IMAGE_NT_HEADERS; lia]. lia. }
  assert (Hrd' : ∀ k a, d ≤ a → a + k ≤ d + 40 → rd cr3 k a s = Ok (val s k a, s)).
  { intros k a ? ?. apply rd_run. eapply reach_sub; [|exact Hdr|lia|lia]. lia. }
  erewrite bind_ok.
  2:{ rewrite (bind_ok _ _ _ _ _ (Hrd 4 (nt + 136) ltac:(lia) ltac:(lia))), (bind_ok _ _ _ _ _ (Hrd 4 (nt + 140) ltac:(lia) ltac:(lia))).
      unfold truthy. replace (val s 4 (nt + 136) =? 0) with false by lia. replace (val s 4 (nt + 140) =? 0) with false by lia. cbn [negb orb]. reflexivity. }
  fold d. replace (d =? 0) with false by lia. unfold NumberOfFunctions, NumberOfNames, AddressOfFunctions, AddressOfNames, AddressOfNameOrdinals.
  rewrite (bind_ok _ _ _ _ _ (Hrd' 4 (d + 20) ltac:(lia) ltac:(lia))), (bind_ok _ _ _ _ _ (Hrd' 4 (d + 24) ltac:(lia) ltac:(lia))), Hn.
  replace (Z.of_nat (length es) =? 0) with false by (destruct es; [done|cbn [length]; lia]).
  rewrite (bind_ok _ _ _ _ _ (Hrd' 4 (d + 28) ltac:(lia) ltac:(lia))), (bind_ok _ _ _ _ _ (Hrd' 4 (d + 32) ltac:(lia) ltac:(lia))), (bind_ok _ _ _ _ _ (Hrd' 4 (d + 36) ltac:(lia) ltac:(lia))).
  cbv zeta. destruct (name_loop _ _ _ _ _ _ _ _ es target t Het Ht (length es) 0 eq_refl) as (turns & Hl & Hle).
  rewrite drop_0 in Hl. eapply loop_ok; [exact Hl|]. pose proof (val_bound s 4 (d + 24) Hb ltac:(lia)) as K. rewrite Hn in K. change (256 ^ 4) with 4294967296 in K. lia.
Qed.

(** ** An image in memory *)

(** A file of 384 bytes: a DOS header, and NT headers right behind it. *)
Definition demo_file : list Z :=
  [0x4D; 0x5A] ++ replicate 58 0 ++ [64; 0; 0; 0] ++ [0x50; 0x45; 0; 0; 0x64; 0x86] ++ replicate 18 0 ++ [0x0B; 0x02] ++ replicate 294 0.
(** Page tables in which every entry is present. *)
Definition demo_pe : PE_STATE :=
  mkPe (set_pool_mm (set_qmem (λ _, 0x200001) (pool_mm demo_pool)) demo_pool) (poke 0x10000 demo_file (λ _, 0)) ∅ [] 0.
Lemma demo_pe_bytes : vm_bytes demo_pe.
Proof.
  intros a. unfold demo_pe. cbn [vm]. unfold poke. destruct (_ && _); [|unfold byte; lia].
  destruct (demo_file !! _) as [b|] eqn:E; [|unfold byte; cbn; lia]. cbn [default]. revert E.
  assert (Hall : Forall byte demo_file) by (unfold demo_file, byte; repeat (apply Forall_app; split); repeat constructor; lia).
  intros E. by apply (Forall_lookup_1 _ _ _ _ Hall E).
Qed.

Lemma PeValidateImage_spec_witness :
  PeValidateImage 0x200000 0x10000 384 demo_pe = Ok (STATUS_SUCCESS, demo_pe) ∧ ¬ pe_valid demo_pe 0x10001 384.
Proof.
  split; [|intros [_ H _ _ _ _]; by vm_compute in H].
  destruct (PeValidateImage_spec 0x200000 demo_pe 0x10000 384 demo_pe_bytes) as (st & Hr & _ & Hiff & _); [lia|lia|by vm_compute|].
  replace st with STATUS_SUCCESS in Hr; [exact Hr|]. symmetry. apply Hiff. constructor; by vm_compute.
Defined.
