(* ===== verification/MsgQueue.v ===== *)
(** * MsgQueue: message queues of threads (src/win32k/queue.c)

    A table of 32 rings of 128 messages, each with a lock and a synchronization
    event of the dispatcher, at the address [QEvent i].  A call that blocks ends
    with the thread switched away; the rest of it is its [_resume].  The clock
    interrupt advances the time between two reads of it: the n-th read of
    KeTickCount gives [clock n]. *)

From S2P Require Import Prelude Irql Dispatch.

#[local] Open Scope Z_scope.

Definition MAX_THREAD_QUEUES : nat := 32.
Definition QUEUE_SIZE := 128.
Definition QS_POSTMESSAGE := 0x0008.
Definition QS_ALLINPUT := 0x04FF.
Definition WAIT_OBJECT_0 := 0.
Definition WAIT_TIMEOUT := 0x102.
Definition WAIT_FAILED := 0xFFFFFFFF.
Definition MWMO_INFINITE := 0xFFFFFFFF.
Definition MWMO_POLL_MS := 10.

Record W32K_MSG := mkMsg { hwnd : Z; message : Z; wParam : Z; lParam : Z; time : Z; pt : Z * Z }.
Definition zero_msg : W32K_MSG := mkMsg 0 0 0 0 0 (0, 0).

Record THREAD_MSG_QUEUE := mkQueue {
  QThreadId : Z;
  Messages : list W32K_MSG;
  Head : Z;
  Tail : Z;
  QCount : Z;
  QInUse : bool
}.

(** [QLocks] holds the words of the locks that are not 0. *)
Record QSTATE := mkQS {
  g_ThreadQueues : list THREAD_MSG_QUEUE;
  QLocks : gmap nat (positive + positive);
  Reads : nat;
  qks : KS
}.
Definition set_g_ThreadQueues (l : list THREAD_MSG_QUEUE) (s : QSTATE) : QSTATE := mkQS l (QLocks s) (Reads s) (qks s).
Definition set_QLocks m (s : QSTATE) : QSTATE := mkQS (g_ThreadQueues s) m (Reads s) (qks s).
Definition set_Reads (n : nat) (s : QSTATE) : QSTATE := mkQS (g_ThreadQueues s) (QLocks s) n (qks s).
Definition set_qks (k : KS) (s : QSTATE) : QSTATE := mkQS (g_ThreadQueues s) (QLocks s) (Reads s) k.

#[global] Instance QSTATE_HasPcr : HasPcr QSTATE.
Proof.
  refine {| pcr := λ s, ks_pcr (qks s); set_pcr := λ k s, set_qks (set_ks_pcr k (qks s)) s |}.
  - done.
  - done.
  - by intros [? ? ? []].
Defined.

(** [&q->Lock]. *)
Definition QLock (i : nat) : SpinLock QSTATE.
Proof.
  refine (mkSpinLock (λ s, lock_word (QLocks s !! i))
            (λ v s, set_QLocks (partial_alter (λ _, word_lock v) i (QLocks s)) s) _ _ _ _ _ _); try done.
  - intros v s. cbn [set_QLocks QLocks]. rewrite lookup_partial_alter_eq. by destruct v.
  - intros v w s. unfold set_QLocks. cbn. by rewrite partial_alter_partial_alter_eq.
  - intros []. unfold set_QLocks. cbn. rewrite partial_alter_id; [done|]. by destruct (_ !! i) as [[]|].
Defined.

Definition kern {A} (m : M KS A) : M QSTATE A := zoom qks set_qks m.

(** ** Rings *)

(** [q->Messages[(q->Head + k) % QUEUE_SIZE]] *)
Definition slot (H k : Z) : nat := Z.to_nat (u32 (H + k) mod QUEUE_SIZE).
Definition message_at (q : THREAD_MSG_QUEUE) (k : Z) : W32K_MSG := default zero_msg (Messages q !! slot (Head q) k).

(** Does the filter let a message through? *)
Definition wanted (FilterMin FilterMax m : Z) : bool :=
  ((FilterMin =? 0) && (FilterMax =? 0)) || negb ((m <? FilterMin) || (FilterMax <? m)).

(** The position, counted from the head, of the first message let through. *)
Definition first_wanted (FilterMin FilterMax : Z) (q : THREAD_MSG_QUEUE) : option nat :=
  first_idx (λ i, wanted FilterMin FilterMax (message (message_at q i))) (seqZ 0 (QCount q)).

(** [for (j = i; j > 0; j--) Messages[(Head + j) % 128] = Messages[(Head + j - 1) % 128]] *)
Fixpoint shift (H : Z) (j : nat) (l : list W32K_MSG) : list W32K_MSG :=
  match j with
  | O => l
  | S j' => shift H j' (<[slot H (Z.of_nat j) := default zero_msg (l !! slot H (Z.of_nat j - 1))]> l)
  end.

(** The message at position [i] taken out. *)
Definition take_out (i : nat) (q : THREAD_MSG_QUEUE) : THREAD_MSG_QUEUE :=
  mkQueue (QThreadId q) (shift (Head q) i (Messages q)) (u32 (Head q + 1) mod QUEUE_SIZE) (Tail q) (u32 (QCount q - 1)) (QInUse q).

(** The five members stored for a posted message; [pt] is left as it was. *)
Definition put_in (Msg w l now : Z) (q : THREAD_MSG_QUEUE) : THREAD_MSG_QUEUE :=
  mkQueue (QThreadId q)
    (alter (λ m, mkMsg 0 Msg w l (u32 now) (pt m)) (Z.to_nat (Tail q)) (Messages q))
    (Head q) (u32 (Tail q + 1) mod QUEUE_SIZE) (u32 (QCount q + 1)) (QInUse q).

Definition fresh (tid : Z) : THREAD_MSG_QUEUE := mkQueue tid (replicate (Z.to_nat QUEUE_SIZE) zero_msg) 0 0 0 true.
Definition with_inuse (b : bool) (n : Z) (q : THREAD_MSG_QUEUE) : THREAD_MSG_QUEUE :=
  mkQueue (QThreadId q) (Messages q) (Head q) (Tail q) n b.
Definition upd_queue (i : nat) (f : THREAD_MSG_QUEUE → THREAD_MSG_QUEUE) : M QSTATE unit :=
  mmod (λ s, set_g_ThreadQueues (alter f i (g_ThreadQueues s)) s).
Definition get_queue (i : nat) : M QSTATE THREAD_MSG_QUEUE := mderef (λ s, g_ThreadQueues s !! i).

Section Queues.
#[local] Set Default Proof Using "Type".
#[local] Set Proof Using Clear Unused.
Context (QEvent : nat → Z) (clock : nat → Z) (UniqueThreadId : Z → Z).

Definition KeTickCount : M QSTATE Z := n ← mgets Reads; mmod (set_Reads (S n));; mret (clock n).
Definition PsGetCurrentThreadId : M QSTATE Z := mgets (λ s, UniqueThreadId (CurrentThread (sched (qks s)))).

(** The table is zeroed, then every lock and event is initialised. *)
Fixpoint init_queues (l : list nat) : M QSTATE unit :=
  match l with
  | [] => mret tt
  | i :: l' => KeInitializeSpinLock (QLock i);; kern (KeInitializeEvent (QEvent i) SynchronizationEvent false);; init_queues l'
  end.
Definition QueueInit : M QSTATE Z :=
  mmod (set_g_ThreadQueues (replicate MAX_THREAD_QUEUES (mkQueue 0 (replicate (Z.to_nat QUEUE_SIZE) zero_msg) 0 0 0 false)));;
  init_queues (seq 0 MAX_THREAD_QUEUES);;
  mret STATUS_SUCCESS.

Definition owned (tid : Z) (q : THREAD_MSG_QUEUE) : bool := QInUse q && (QThreadId q =? tid).
Definition QueueFindOrCreate (tid : Z) (Create : bool) : M QSTATE (option nat) :=
  l ← mgets g_ThreadQueues;
  match first_idx (owned tid) l with
  | Some i => mret (Some i)
  | None =>
      match first_idx (λ q, negb (QInUse q)) l with
      | Some i => if Create then upd_queue i (λ _, fresh tid);; mret (Some i) else mret None
      | None => mret None
      end
  end.

(** The message stored under the lock of queue [i], and its event set. *)
Definition post_to (i : nat) (Msg w l : Z) : M QSTATE Z :=
  irql ← KeAcquireSpinLock (QLock i);
  q ← get_queue i;
  if QUEUE_SIZE <=? QCount q then
    KeReleaseSpinLock (QLock i) irql;; mret STATUS_INSUFFICIENT_RESOURCES
  else
    now ← KeTickCount;
    upd_queue i (put_in Msg w l now);;
    KeReleaseSpinLock (QLock i) irql;;
    kern (KeSetEvent (QEvent i));;
    mret STATUS_SUCCESS.
Definition UserPostThreadMessage (tid Msg w l : Z) : M QSTATE Z :=
  r ← QueueFindOrCreate tid true;
  match r with
  | None => mret STATUS_INSUFFICIENT_RESOURCES
  | Some i => post_to i Msg w l
  end.

(** The call returned, or its thread waits for the event of queue [i]. *)
Inductive GETMSG := GetReturned (st : Z) (m : option W32K_MSG) | GetSwitched (i : nat).

(** One search under the lock, and the wait after a search that found nothing. *)
Definition get_turn (i : nat) (FilterMin FilterMax : Z) (_ : unit) : M QSTATE (unit + GETMSG) :=
  irql ← KeAcquireSpinLock (QLock i);
  q ← get_queue i;
  match first_wanted FilterMin FilterMax q with
  | Some k =>
      upd_queue i (take_out k);;
      KeReleaseSpinLock (QLock i) irql;;
      mret (inr (GetReturned STATUS_SUCCESS (Some (message_at q (Z.of_nat k)))))
  | None =>
      KeReleaseSpinLock (QLock i) irql;;
      w ← kern (KeWaitForSingleObject (QEvent i) None);
      mret match w with Returned _ => inl tt | SwitchedAway => inr (GetSwitched i) end
  end.
Definition UserGetMessageForThread (tid : Z) (Msg : bool) (FilterMin FilterMax : Z) : M QSTATE GETMSG :=
  if negb Msg then mret (GetReturned STATUS_INVALID_PARAMETER None)
  else
    r ← QueueFindOrCreate tid false;
    match r with
    | None => mret (GetReturned STATUS_NOT_FOUND None)
    | Some i => loop (get_turn i FilterMin FilterMax) tt
    end.
(** What the blocked thread does when it runs again: it goes on with queue [i]. *)
Definition UserGetMessage_resume (i : nat) (Thread FilterMin FilterMax : Z) : M QSTATE GETMSG :=
  kern (KeWait_resume Thread);; loop (get_turn i FilterMin FilterMax) tt.

Definition UserDestroyThreadQueue (tid : Z) : M QSTATE Z :=
  r ← QueueFindOrCreate tid false;
  match r with
  | Some i => upd_queue i (with_inuse false 0);; mret STATUS_SUCCESS
  | None => mret STATUS_SUCCESS
  end.

(** The thread id is passed as a ULONG.  The second result is [*pStatus]. *)
Definition UserGetQueueStatus (QSFlags : Z) (pStatus : bool) : M QSTATE (Z * option Z) :=
  myTid ← PsGetCurrentThreadId;
  if negb pStatus then mret (STATUS_INVALID_PARAMETER, None)
  else
    r ← QueueFindOrCreate (u32 myTid) false;
    total ← match r with Some i => q ← get_queue i; mret (QCount q) | None => mret 0 end;
    mret (STATUS_SUCCESS, Some (if 0 <? total then Z.land QSFlags 0xFFFF else 0)).

(** ** Waiting for input or objects *)

(** The call returned [st] with [*pResult], or its thread waits. *)
Inductive MSGWAIT := WaitDone (st : Z) (res : option Z) | WaitSwitched.

(** A poll: the wait with a zero timeout. *)
Definition poll_object (o : Z) : M QSTATE bool :=
  w ← kern (KeWaitForSingleObject o (Some 0));
  mret match w with Returned st => st =? STATUS_WAIT_0 | SwitchedAway => false end.
Fixpoint poll_all (Handles : list Z) (l : list nat) : M QSTATE bool :=
  match l with
  | [] => mret true
  | i :: l' =>
      h ← mderef (λ _, Handles !! i);
      b ← poll_object h;
      if b : bool then poll_all Handles l' else mret false
  end.
Fixpoint poll_any (Handles : list Z) (l : list nat) : M QSTATE (option Z) :=
  match l with
  | [] => mret None
  | i :: l' =>
      h ← mderef (λ _, Handles !! i);
      b ← poll_object h;
      if b : bool then mret (Some (WAIT_OBJECT_0 + Z.of_nat i)) else poll_any Handles l'
  end.
Definition poll_handles (Count : Z) (Handles : list Z) (fWaitAll : bool) : M QSTATE (option Z) :=
  if 0 <? Count then
    if fWaitAll then
      b ← poll_all Handles (seq 0 (Z.to_nat Count));
      mret (if b : bool then Some WAIT_OBJECT_0 else None)
    else poll_any Handles (seq 0 (Z.to_nat Count))
  else mret None.

(** How long to sleep, in milliseconds; [None] when the deadline has come.
    [deadline] is [None] for an infinite wait. *)
Definition poll_ms (deadline : option Z) : M QSTATE (option Z) :=
  match deadline with
  | None => mret (Some MWMO_POLL_MS)
  | Some d =>
      now ← KeTickCount;
      let remaining := s64 (u64 (d - now)) in
      mret (if remaining <=? 0 then None else Some (if remaining <? MWMO_POLL_MS then remaining else MWMO_POLL_MS))
  end.
Definition deadline_over (deadline : option Z) : M QSTATE bool :=
  match deadline with None => mret false | Some d => now ← KeTickCount; mret (d <=? now) end.

Definition msgwait_turn (i : nat) (pollTimer Count : Z) (Handles : list Z) (fWaitAll wakeOnInput : bool) (deadline : option Z) (_ : unit) : M QSTATE (unit + MSGWAIT) :=
  irql ← KeAcquireSpinLock (QLock i);
  q ← get_queue i;
  KeReleaseSpinLock (QLock i) irql;;
  if (0 <? QCount q) && wakeOnInput then mret (inr (WaitDone STATUS_SUCCESS (Some (u32 (WAIT_OBJECT_0 + Count)))))
  else
    r ← poll_handles Count Handles fWaitAll;
    match r with
    | Some v => mret (inr (WaitDone STATUS_SUCCESS (Some v)))
    | None =>
        over ← deadline_over deadline;
        if over : bool then mret (inr (WaitDone STATUS_TIMEOUT (Some WAIT_TIMEOUT)))
        else
          ms ← poll_ms deadline;
          match ms with
          | None => mret (inr (WaitDone STATUS_TIMEOUT (Some WAIT_TIMEOUT)))
          | Some ms =>
              w ← kern (KeWaitForSingleObject (if wakeOnInput then QEvent i else pollTimer) (Some (- (ms * 10000))));
              mret match w with Returned _ => inl tt | SwitchedAway => inr WaitSwitched end
          end
    end.

(** [pollTimer] is the address of the event on the stack.  [Handles] is [None]
    for a null pointer; its elements are used as addresses of objects. *)
Definition UserMsgWaitForMultipleObjects (pollTimer Count : Z) (Handles : option (list Z)) (fWaitAll : bool)
    (Timeout WakeMask : Z) (pResult : bool) : M QSTATE MSGWAIT :=
  if negb pResult then mret (WaitDone STATUS_INVALID_PARAMETER None)
  else if (0 <? Count) && bool_decide (Handles = None) then mret (WaitDone STATUS_INVALID_PARAMETER None)
  else
    myTid ← PsGetCurrentThreadId;
    r ← QueueFindOrCreate (u32 myTid) true;
    match r with
    | None => mret (WaitDone STATUS_INSUFFICIENT_RESOURCES (Some WAIT_FAILED))
    | Some i =>
        let wakeOnInput := has_bits WakeMask (Z.lor QS_POSTMESSAGE QS_ALLINPUT) in
        deadline ← (if Timeout =? MWMO_INFINITE then mret None else now ← KeTickCount; mret (Some (u64 (now + Timeout))));
        kern (KeInitializeEvent pollTimer NotificationEvent false);;
        loop (msgwait_turn i pollTimer Count (default [] Handles) fWaitAll wakeOnInput deadline) tt
    end.

(** ** Rings refine lists *)

(** The messages of a queue, oldest first. *)
Definition contents (q : THREAD_MSG_QUEUE) : list W32K_MSG := message_at q <$> seqZ 0 (QCount q).

Record queue_wf (q : THREAD_MSG_QUEUE) : Prop := {
  qw_len : length (Messages q) = 128%nat;
  qw_head : 0 ≤ Head q < 128;
  qw_count : 0 ≤ QCount q ≤ 128;
  qw_tail : Tail q = (Head q + QCount q) mod 128
}.

Lemma slot_eq H k : 0 ≤ H < 128 → -1 ≤ k ≤ 256 → 0 ≤ H + k → slot H k = Z.to_nat ((H + k) mod 128).
Proof. intros. unfold slot, QUEUE_SIZE. by rewrite u32_small by lia. Qed.
Lemma slot_lt H k : (slot H k < 128)%nat.
Proof. unfold slot, QUEUE_SIZE. pose proof (Z.mod_pos_bound (u32 (H + k)) 128 ltac:(lia)). lia. Qed.
Lemma slot_inj H j k : 0 ≤ H < 128 → 0 ≤ j < 128 → 0 ≤ k < 128 → slot H j = slot H k → j = k.
Proof. intros ? ? ?. rewrite !slot_eq by lia. Z.div_mod_to_equations. lia. Qed.

Lemma length_contents q : queue_wf q → Z.of_nat (length (contents q)) = QCount q.
Proof. intros []. unfold contents. rewrite length_fmap, length_seqZ. lia. Qed.
Lemma contents_lookup q (k : nat) : (Z.of_nat k < QCount q) → contents q !! k = Some (message_at q (Z.of_nat k)).
Proof. intros. unfold contents. rewrite list_lookup_fmap, lookup_seqZ_lt by lia. done. Qed.

Lemma length_shift H j : ∀ l, length (shift H j l) = length l.
Proof. induction j as [|j IH]; intros l; cbn [shift]; [done|]. by rewrite IH, length_insert. Qed.

(** The shift moves the [i] messages at the head one place up. *)
Lemma shift_lookup H i : ∀ l k, 0 ≤ H < 128 → length l = 128%nat → (i < 128)%nat → 0 ≤ k < 128 →
  default zero_msg (shift H i l !! slot H k) = default zero_msg (l !! slot H (if (0 <? k) && (k <=? Z.of_nat i) then k - 1 else k)).
Proof.
  induction i as [|i IH]; intros l k HH Hl Hi Hk; cbn [shift].
  { destruct ((0 <? k) && (k <=? Z.of_nat 0)) eqn:E; [lia|done]. }
  rewrite IH by (rewrite ?length_insert; lia).
  destruct ((0 <? k) && (k <=? Z.of_nat i)) eqn:E1.
  - rewrite list_lookup_insert_ne by (intros E%slot_inj; lia).
    destruct ((0 <? k) && (k <=? Z.of_nat (S i))) eqn:E2; [done|lia].
  - destruct (decide (k = Z.of_nat (S i))) as [->|Hne].
    + rewrite list_lookup_insert_eq by (rewrite Hl; apply slot_lt).
      destruct ((0 <? Z.of_nat (S i)) && (Z.of_nat (S i) <=? Z.of_nat (S i))) eqn:E2; [done|lia].
    + rewrite list_lookup_insert_ne by (intros E%slot_inj; lia).
      destruct ((0 <? k) && (k <=? Z.of_nat (S i))) eqn:E2; [lia|done].
Qed.

Lemma message_at_slot q k : queue_wf q → 0 ≤ k < 128 → Messages q !! slot (Head q) k = Some (message_at q k).
Proof.
  intros [] Hk. unfold message_at. destruct (lookup_lt_is_Some_2 (Messages q) (slot (Head q) k)) as [m ->]; [|done].
  rewrite qw_len0. apply slot_lt.
Qed.

Lemma contents_ext q l : 0 ≤ QCount q → QCount q = Z.of_nat (length l) → (∀ k : nat, (k < length l)%nat → Some (message_at q (Z.of_nat k)) = l !! k) → contents q = l.
Proof.
  intros H0 Hn Hk. apply list_eq. intros k. destruct (decide (k < length l)%nat).
  - rewrite contents_lookup by lia. by apply Hk.
  - rewrite !lookup_ge_None_2; [done|lia|]. unfold contents. rewrite length_fmap, length_seqZ. lia.
Qed.

Lemma take_out_run q i : queue_wf q → (Z.of_nat i < QCount q) →
  queue_wf (take_out i q) ∧ contents (take_out i q) = delete i (contents q).
Proof.
  intros Hq Hi. pose proof Hq as []. pose proof (length_contents q Hq) as Hl.
  assert (Hh : Head (take_out i q) = (Head q + 1) mod 128) by (cbn; unfold QUEUE_SIZE; by rewrite u32_small by lia).
  assert (Hc : QCount (take_out i q) = QCount q - 1) by (cbn; rewrite u32_small; lia).
  assert (Hwf : queue_wf (take_out i q)).
  { constructor; rewrite ?Hh, ?Hc; cbn [take_out Messages Tail]; [by rewrite length_shift|Z.div_mod_to_equations; lia|lia|].
    rewrite qw_tail0. Z.div_mod_to_equations. lia. }
  split; [done|]. assert (Hd : length (delete i (contents q)) = (length (contents q) - 1)%nat) by (rewrite length_delete; [lia|apply lookup_lt_is_Some_2; lia]).
  apply contents_ext; [lia|lia|]. intros k Hk.
  assert (Hs : slot (Head (take_out i q)) (Z.of_nat k) = slot (Head q) (Z.of_nat k + 1)).
  { rewrite Hh, !slot_eq; [|Z.div_mod_to_equations; lia..]. f_equal. Z.div_mod_to_equations. lia. }
  unfold message_at at 1. rewrite Hs. cbn [take_out Messages]. rewrite shift_lookup by lia.
  destruct ((0 <? Z.of_nat k + 1) && (Z.of_nat k + 1 <=? Z.of_nat i)) eqn:E.
  - rewrite list_lookup_delete_lt, contents_lookup by lia. unfold message_at. do 4 f_equal. lia.
  - rewrite list_lookup_delete_ge, contents_lookup by lia. unfold message_at. do 4 f_equal. lia.
Qed.

(** The message a post stores: its point is that of the slot. *)
Definition posted (Msg w l now : Z) (p : Z * Z) : W32K_MSG := mkMsg 0 Msg w l (u32 now) p.

Lemma put_in_run q Msg w l now : queue_wf q → QCount q < 128 →
  ∃ p, queue_wf (put_in Msg w l now q) ∧ contents (put_in Msg w l now q) = contents q ++ [posted Msg w l now p].
Proof.
  intros Hq Hc. pose proof Hq as []. pose proof (length_contents q Hq) as Hl. set (q' := put_in Msg w l now q).
  assert (Ht : Z.to_nat (Tail q) = slot (Head q) (QCount q)) by (rewrite slot_eq by lia; by rewrite qw_tail0).
  assert (Hn : QCount q' = QCount q + 1) by (cbn; rewrite u32_small; lia).
  exists (pt (message_at q (QCount q))). split.
  - constructor; rewrite ?Hn; cbn [q' put_in Messages Head Tail]; [by rewrite length_alter|done|lia|].
    rewrite qw_tail0. unfold QUEUE_SIZE. rewrite u32_small by (Z.div_mod_to_equations; lia). Z.div_mod_to_equations. lia.
  - apply contents_ext; [lia|rewrite length_app; cbn [length]; lia|]. intros k Hk. rewrite length_app in Hk. cbn [length] in Hk.
    unfold message_at. change (Head q') with (Head q). cbn [q' put_in Messages]. rewrite Ht.
    destruct (decide (k = length (contents q))) as [->|Hne].
    + rewrite lookup_app_r, Nat.sub_diag by lia. cbn. replace (Z.of_nat (length (contents q))) with (QCount q) by lia.
      rewrite list_lookup_alter_eq, message_at_slot by (done || lia). done.
    + rewrite list_lookup_alter_ne by (intros E%slot_inj; lia). rewrite lookup_app_l, contents_lookup by lia. done.
Qed.

Lemma first_wanted_spec mn mx q i : queue_wf q → first_wanted mn mx q = Some i ↔
  (∃ m, contents q !! i = Some m ∧ wanted mn mx (message m) = true) ∧ (∀ j m, (j < i)%nat → contents q !! j = Some m → wanted mn mx (message m) = false).
Proof.
  intros Hq. unfold first_wanted. rewrite first_idx_Some.
  assert (Hk : ∀ k j, seqZ 0 (QCount q) !! k = Some j ↔ Z.of_nat k < QCount q ∧ j = Z.of_nat k) by (intros; rewrite lookup_seqZ; lia).
  assert (Hc : ∀ k m, contents q !! k = Some m ↔ Z.of_nat k < QCount q ∧ m = message_at q (Z.of_nat k)).
  { intros k m. unfold contents. rewrite list_lookup_fmap, fmap_Some. setoid_rewrite Hk. naive_solver. }
  setoid_rewrite Hk. setoid_rewrite Hc. naive_solver.
Qed.

(** ** The table refines a map from threads to lists *)

Definition queue_in (l : list THREAD_MSG_QUEUE) (tid : Z) : option (list W32K_MSG) :=
  i ← first_idx (owned tid) l; contents <$> l !! i.
Definition queue_of (s : QSTATE) (tid : Z) : option (list W32K_MSG) := queue_in (g_ThreadQueues s) tid.

Record table_wf (l : list THREAD_MSG_QUEUE) : Prop := {
  tw_len : length l = MAX_THREAD_QUEUES;
  tw_ring i q : l !! i = Some q → QInUse q = true → queue_wf q;
  tw_owner i j q r : l !! i = Some q → l !! j = Some r → QInUse q = true → QInUse r = true → QThreadId q = QThreadId r → i = j
}.

Lemma owned_true tid q : owned tid q = true ↔ QInUse q = true ∧ QThreadId q = tid.
Proof. unfold owned. lia. Qed.

(** With one queue for each thread the search finds it. *)
Lemma owner_first l tid i q : table_wf l → l !! i = Some q → owned tid q = true → first_idx (owned tid) l = Some i.
Proof.
  intros [] Hq Ho. apply first_idx_Some. split; [eauto|]. intros j r Hj Hr. apply not_true_iff_false. intros Hr'.
  apply owned_true in Ho as [? ?], Hr' as [? ?]. assert (j = i); [|lia]. eapply tw_owner0; [done..|congruence].
Qed.

Lemma queue_in_owner l tid i q : table_wf l → l !! i = Some q → owned tid q = true → queue_in l tid = Some (contents q).
Proof. intros Hl Hq Ho. unfold queue_in. by rewrite (owner_first l tid i q) by done; cbn; rewrite Hq. Qed.

Lemma queue_in_Some l tid c : queue_in l tid = Some c → ∃ i q, first_idx (owned tid) l = Some i ∧ l !! i = Some q ∧ owned tid q = true ∧ c = contents q.
Proof.
  unfold queue_in. intros (i & Hi & (q & Hq & ->)%fmap_Some)%bind_Some. pose proof (proj1 (first_idx_Some _ _ _) Hi) as [(q' & Hq' & Ho) _].
  simplify_eq. eauto 10.
Qed.
Lemma queue_in_None l tid : queue_in l tid = None → first_idx (owned tid) l = None.
Proof.
  unfold queue_in. destruct (first_idx (owned tid) l) as [i|] eqn:E; [|done]. cbn. intros H%fmap_None.
  apply first_idx_lt, lookup_lt_is_Some_2 in E as [? ?]. congruence.
Qed.

(** Changing the ring of a queue in use. *)
Lemma table_upd l i q f : table_wf l → l !! i = Some q → queue_wf (f q) → QInUse (f q) = QInUse q → QThreadId (f q) = QThreadId q →
  table_wf (alter f i l) ∧ ∀ t, queue_in (alter f i l) t = if owned t q then Some (contents (f q)) else queue_in l t.
Proof.
  intros Hl Hq Hf Hu Ht. pose proof Hl as [Hlen Hring Howner].
  assert (Hlk : ∀ j r, alter f i l !! j = Some r → ∃ r0, l !! j = Some r0 ∧ QInUse r = QInUse r0 ∧ QThreadId r = QThreadId r0 ∧ (QInUse r = true → queue_wf r)).
  { intros j r. destruct (decide (i = j)) as [<-|]; [rewrite list_lookup_alter_eq, Hq|rewrite list_lookup_alter_ne by done; eauto 10].
    cbn. intros [= <-]. eauto. }
  assert (Hw : table_wf (alter f i l)).
  { constructor; [by rewrite length_alter|by intros j r (? & ? & ? & ? & ?)%Hlk|].
    intros j k r r' (r0 & ? & -> & -> & _)%Hlk (r1 & ? & -> & -> & _)%Hlk. by apply Howner. }
  split; [done|]. intros t. destruct (owned t q) eqn:Ho.
  - apply (queue_in_owner _ _ i); [done|by rewrite list_lookup_alter_eq, Hq|]. unfold owned in *. by rewrite Hu, Ht.
  - unfold queue_in. rewrite first_idx_alter by (intros x Hx; simplify_eq; unfold owned; by rewrite Hu, Ht).
    destruct (first_idx (owned t) l) as [j|] eqn:Ej; [|done]. cbn. apply first_idx_Some in Ej as [(r & Hr & Hor) _].
    rewrite list_lookup_alter_ne; [done|]. intros <-. congruence.
Qed.

(** A queue created in a free slot, or a queue given up. *)
Lemma table_fresh l i q tid : table_wf l → l !! i = Some q → QInUse q = false → queue_in l tid = None →
  table_wf (alter (λ _, fresh tid) i l) ∧ ∀ t, queue_in (alter (λ _, fresh tid) i l) t = if t =? tid then Some [] else queue_in l t.
Proof.
  intros Hl Hq Hu Hn%queue_in_None. pose proof Hl as [Hlen Hring Howner]. rewrite first_idx_None in Hn.
  assert (Hlk : ∀ j r, alter (λ _, fresh tid) i l !! j = Some r → (j = i ∧ r = fresh tid) ∨ (j ≠ i ∧ l !! j = Some r)).
  { intros j r. destruct (decide (i = j)) as [<-|]; [rewrite list_lookup_alter_eq, Hq; cbn; naive_solver|rewrite list_lookup_alter_ne by done; naive_solver]. }
  assert (Hf : queue_wf (fresh tid)) by (constructor; done).
  assert (Hw : table_wf (alter (λ _, fresh tid) i l)).
  { constructor; [by rewrite length_alter|intros j r [[_ ->]|[_ ?]]%Hlk; [done|eauto]|].
    intros j k r r' [[-> ->]|[Hj Hr]]%Hlk [[-> ->]|[Hk Hr']]%Hlk; cbn [fresh QInUse QThreadId]; intros E1 E2 E3; [done| | |by eapply Howner].
    - specialize (Hn k r' Hr'). unfold owned in Hn. lia.
    - specialize (Hn j r Hr). unfold owned in Hn. lia. }
  split; [done|]. intros t. destruct (Z.eqb_spec t tid) as [->|Hne].
  - change (Some []) with (Some (contents (fresh tid))). apply (queue_in_owner _ _ i); [done|by rewrite list_lookup_alter_eq, Hq|]. unfold owned. cbn. lia.
  - unfold queue_in. rewrite first_idx_alter by (intros x Hx; simplify_eq; unfold owned; cbn; lia).
    destruct (first_idx (owned t) l) as [j|] eqn:Ej; [|done]. cbn. apply first_idx_Some in Ej as [(r & Hr & Hor) _].
    rewrite list_lookup_alter_ne; [done|]. intros <-. unfold owned in Hor. simplify_eq. lia.
Qed.

Lemma table_release l i q : table_wf l → l !! i = Some q → QInUse q = true →
  table_wf (alter (with_inuse false 0) i l) ∧ ∀ t, queue_in (alter (with_inuse false 0) i l) t = if t =? QThreadId q then None else queue_in l t.
Proof.
  intros Hl Hq Hu. split.
  { pose proof Hl as [Hlen Hring Howner].
    assert (Hlk : ∀ j r, alter (with_inuse false 0) i l !! j = Some r → QInUse r = true → l !! j = Some r).
    { intros j r. destruct (decide (i = j)) as [<-|]; [|by rewrite list_lookup_alter_ne]. rewrite list_lookup_alter_eq, Hq. cbn. by intros [= <-]. }
    constructor; [by rewrite length_alter|eauto|]. intros j k r r' ? ? ? ? ?. eapply Howner; [by apply Hlk|by apply Hlk|done..]. }
  intros t. unfold queue_in. destruct (Z.eqb_spec t (QThreadId q)) as [->|Hne].
  - rewrite (proj2 (first_idx_None _ _)); [done|]. intros j r. destruct (decide (i = j)) as [<-|Hj].
    + rewrite list_lookup_alter_eq, Hq. cbn. intros [= <-]. done.
    + rewrite list_lookup_alter_ne by done. intros Hr. apply not_true_iff_false. intros [? ?]%owned_true. destruct Hl. apply Hj. by eapply tw_owner0.
  - rewrite first_idx_alter by (intros x Hx; simplify_eq; unfold owned; cbn; lia).
    destruct (first_idx (owned t) l) as [j|] eqn:Ej; [|done]. cbn. apply first_idx_Some in Ej as [(r & Hr & Hor) _].
    rewrite list_lookup_alter_ne; [done|]. intros <-. unfold owned in Hor. simplify_eq. lia.
Qed.

(** ** Calls *)

Record qs_wf (s : QSTATE) : Prop := {
  qs_table : table_wf (g_ThreadQueues s);
  qs_locks : QLocks s = ∅;
  qs_ks : ks_wf (qks s);
  qs_event i : (i < MAX_THREAD_QUEUES)%nat → ∃ x, Objects (sched (qks s)) !! QEvent i = Some x ∧ OType x = SynchronizationEvent
}.

Lemma qs_lock s i : qs_wf s → can_lock (pcr s) ∧ lk (QLock i) s = 0.
Proof. intros [_ Hl (_ & _ & Hc) _]. split; [done|]. cbn. by rewrite Hl, lookup_empty. Qed.

(** The events are kept by a step that only changes one of them. *)
Lemma qs_event_upd s k i y : qs_wf s → ks_wf k → Objects (sched k) = <[QEvent i := y]> (Objects (sched (qks s))) → OType y = SynchronizationEvent →
  qs_wf (set_qks k s).
Proof.
  intros [? ? ? He] Hk Hob Hy. constructor; [done..|]. intros j Hj. cbn [set_qks qks]. rewrite Hob.
  destruct (decide (QEvent i = QEvent j)) as [E|E]; [rewrite E, lookup_insert_eq; eauto|rewrite lookup_insert_ne by done; eauto].
Qed.

Lemma kern_run {A} (m : M KS A) s a k : m (qks s) = Ok (a, k) → kern m s = Ok (a, set_qks k s).
Proof. apply zoom_ok. Qed.

Lemma find_run s tid create : QueueFindOrCreate tid create s =
  match first_idx (owned tid) (g_ThreadQueues s), first_idx (λ q, negb (QInUse q)) (g_ThreadQueues s), create with
  | Some i, _, _ => Ok (Some i, s)
  | None, Some i, true => Ok (Some i, set_g_ThreadQueues (alter (λ _, fresh tid) i (g_ThreadQueues s)) s)
  | _, _, _ => Ok (None, s)
  end.
Proof. unfold QueueFindOrCreate. unfold mbind at 1, M_bind at 1. cbn [mgets]. destruct (first_idx (owned tid) _); [done|]. destruct (first_idx _ _); by destruct create. Qed.

(** What a post does to the queue it goes to. *)
Lemma post_to_run s i q Msg w l : qs_wf s → g_ThreadQueues s !! i = Some q → QInUse q = true →
  (QCount q = 128 → post_to i Msg w l s = Ok (STATUS_INSUFFICIENT_RESOURCES, s)) ∧
  (QCount q < 128 → ∃ x c', Objects (sched (qks s)) !! QEvent i = Some x ∧ OType x = SynchronizationEvent ∧
     set_event_post (QEvent i) x (sched (qks s)) c' ∧
     let s' := mkQS (alter (put_in Msg w l (clock (Reads s))) i (g_ThreadQueues s)) (QLocks s) (S (Reads s)) (set_sched c' (qks s)) in
     post_to i Msg w l s = Ok (STATUS_SUCCESS, s') ∧ ks_wf (qks s')).
Proof.
  intros Hwf Hq Hu. destruct (qs_lock s i Hwf) as [Hc H0]. pose proof (qw_count q (tw_ring _ (qs_table _ Hwf) i q Hq Hu)) as Hn.
  assert (Hi : (i < MAX_THREAD_QUEUES)%nat) by (rewrite <- (tw_len _ (qs_table _ Hwf)); by eapply lookup_lt_Some).
  unfold post_to. rewrite acquire_bind by done. unfold get_queue. rewrite (deref_bind _ _ _ q) by exact Hq. unfold QUEUE_SIZE. split; intros Hc'.
  - rewrite Hc'. cbn [Z.leb Z.compare Pos.compare Pos.compare_cont]. by rewrite release_same by done.
  - destruct (Z.leb_spec 128 (QCount q)); [lia|]. destruct (qs_event _ Hwf i Hi) as (x & Hx & Ht).
    destruct (set_event_run (qks s) (QEvent i) x (qs_ks _ Hwf) Hx) as (c' & Hr & Hk & Hp). exists x, c'. split; [done|]. split; [done|]. split; [done|].
    cbn zeta. split; [|split; [done|apply (qs_ks _ Hwf)]].
    set (f := λ s : QSTATE, mkQS (alter (put_in Msg w l (clock (Reads s))) i (g_ThreadQueues s)) (QLocks s) (S (Reads s)) (qks s)).
    change ((KeReleaseSpinLock (QLock i) (Irql (pcr s));; kern (KeSetEvent (QEvent i));; mret STATUS_SUCCESS) (f (locked (QLock i) s)) =
      Ok (STATUS_SUCCESS, set_qks (set_sched c' (qks s)) (f s))).
    rewrite release_bind by done. erewrite bind_ok; [|apply kern_run; exact Hr]. done.
Qed.

Lemma event_set_objects e x c c' : set_event_post e x c c' → OType x = SynchronizationEvent →
  ∃ y, Objects c' = <[e := y]> (Objects c) ∧ OType y = SynchronizationEvent ∧ CurrentThread c' = CurrentThread c.
Proof.
  unfold set_event_post. intros Hp Ht. rewrite Ht in Hp. cbn in Hp. destruct (WaitListHead x) as [|t rest].
  - subst c'. by exists (with_signal 1 x).
  - destruct Hp as (_ & Ho & Hc & _). by exists (with_signal 0 (with_waiters rest x)).
Qed.

Lemma put_owner Msg w l now q : QInUse (put_in Msg w l now q) = QInUse q ∧ QThreadId (put_in Msg w l now q) = QThreadId q.
Proof. done. Qed.

(** A post to a queue with room, on the whole state. *)
Lemma post_room s i q tid Msg w l : qs_wf s → g_ThreadQueues s !! i = Some q → owned tid q = true → QCount q < 128 →
  ∃ s' p x, post_to i Msg w l s = Ok (STATUS_SUCCESS, s') ∧ qs_wf s' ∧
    (∀ t, queue_of s' t = if t =? tid then Some (contents q ++ [posted Msg w l (clock (Reads s)) p]) else queue_of s t) ∧
    (∃ q', g_ThreadQueues s' !! i = Some q' ∧ owned tid q' = true ∧ contents q' = contents q ++ [posted Msg w l (clock (Reads s)) p]) ∧
    Objects (sched (qks s)) !! QEvent i = Some x ∧ OType x = SynchronizationEvent ∧ set_event_post (QEvent i) x (sched (qks s)) (sched (qks s')).
Proof.
  intros Hwf Hq Ho Hc. pose proof (proj1 (owned_true _ _) Ho) as [Hu Ht].
  destruct (proj2 (post_to_run s i q Msg w l Hwf Hq Hu) Hc) as (x & c' & Hx & Hty & Hp & Hr & Hk).
  destruct (put_in_run q Msg w l (clock (Reads s)) (tw_ring _ (qs_table _ Hwf) i q Hq Hu) Hc) as (p & Hq' & Hcon).
  destruct (table_upd _ i q (put_in Msg w l (clock (Reads s))) (qs_table _ Hwf) Hq Hq' eq_refl eq_refl) as [Htb Hqs].
  destruct (event_set_objects _ _ _ _ Hp Hty) as (y & Hob & Hy & _).
  eexists _, p, x. split; [exact Hr|]. split; [|split; [|split; [|done]]].
  - assert (Hwf' := qs_event_upd s _ i y Hwf Hk Hob Hy). destruct Hwf'. by constructor.
  - intros t. unfold queue_of. cbn [g_ThreadQueues]. rewrite Hqs, Hcon. destruct (Z.eqb_spec t tid) as [->|Hne]; [by rewrite Ho|].
    destruct (owned t q) eqn:E; [|done]. apply owned_true in E as [_ E]. congruence.
  - eexists. cbn [g_ThreadQueues]. rewrite list_lookup_alter_eq, Hq. split; [done|]. split; [|done]. by apply owned_true.
Qed.

(** Posting to a thread appends to its list of messages, in a queue made for it
    when it has none; it fails, and changes nothing, when the list holds 128
    messages or all 32 queues belong to other threads.  No other queue changes. *)
Theorem msg_post_spec s tid Msg w l : qs_wf s →
  (∀ c, queue_of s tid = Some c → (length c < 128)%nat → ∃ s' p, UserPostThreadMessage tid Msg w l s = Ok (STATUS_SUCCESS, s') ∧ qs_wf s' ∧
     ∀ t, queue_of s' t = if t =? tid then Some (c ++ [posted Msg w l (clock (Reads s)) p]) else queue_of s t) ∧
  (queue_of s tid = None → (∃ q, q ∈ g_ThreadQueues s ∧ QInUse q = false) →
     ∃ s' p, UserPostThreadMessage tid Msg w l s = Ok (STATUS_SUCCESS, s') ∧ qs_wf s' ∧
     ∀ t, queue_of s' t = if t =? tid then Some [posted Msg w l (clock (Reads s)) p] else queue_of s t) ∧
  (∀ c, queue_of s tid = Some c → length c = 128%nat → UserPostThreadMessage tid Msg w l s = Ok (STATUS_INSUFFICIENT_RESOURCES, s)) ∧
  (queue_of s tid = None → (∀ q, q ∈ g_ThreadQueues s → QInUse q = true) → UserPostThreadMessage tid Msg w l s = Ok (STATUS_INSUFFICIENT_RESOURCES, s)).
Proof.
  intros Hwf. unfold UserPostThreadMessage. pose proof (qs_table _ Hwf) as Htb.
  assert (Hex : ∀ c, queue_of s tid = Some c → ∃ i q, g_ThreadQueues s !! i = Some q ∧ owned tid q = true ∧ c = contents q ∧ QCount q = Z.of_nat (length c) ∧
    QueueFindOrCreate tid true s = Ok (Some i, s)).
  { intros c (i & q & Hf & Hq & Ho & ->)%queue_in_Some. exists i, q. split_and!; [done..| |by rewrite find_run, Hf].
    symmetry. apply length_contents. apply owned_true in Ho as [? _]. by eapply tw_ring. }
  split_and!.
  - intros c Hc Hl. destruct (Hex c Hc) as (i & q & Hq & Ho & -> & Hn & Hf). rewrite (bind_ok _ _ _ _ _ Hf).
    destruct (post_room s i q tid Msg w l Hwf Hq Ho ltac:(lia)) as (s' & p & x & ? & ? & ? & _). eauto.
  - intros Hn (q & (k & Hk)%list_elem_of_lookup & Hu). destruct (first_idx (λ q, negb (QInUse q)) (g_ThreadQueues s)) as [i|] eqn:Ei.
    2:{ rewrite first_idx_None in Ei. specialize (Ei k q Hk). by rewrite Hu in Ei. }
    pose proof (proj1 (first_idx_Some _ _ _) Ei) as [(q0 & Hq0 & Hu0%negb_true_iff) _].
    destruct (table_fresh _ i q0 tid Htb Hq0 Hu0 Hn) as [Ht' Hqs].
    erewrite bind_ok; [|rewrite find_run, (queue_in_None _ _ Hn), Ei; reflexivity].
    set (s1 := set_g_ThreadQueues _ s). assert (Hwf1 : qs_wf s1) by (destruct Hwf; by constructor).
    destruct (post_room s1 i (fresh tid) tid Msg w l Hwf1) as (s' & p & x & Hr & Hw & Hall & _); [|unfold owned; cbn; lia|done|].
    { cbn [s1 set_g_ThreadQueues g_ThreadQueues]. by rewrite list_lookup_alter_eq, Hq0. }
    exists s', p. split_and!; [done..|]. intros t. rewrite Hall. destruct (Z.eqb_spec t tid) as [->|Hne]; [done|].
    unfold queue_of. cbn [s1 set_g_ThreadQueues g_ThreadQueues]. rewrite Hqs. by destruct (Z.eqb_spec t tid).
  - intros c Hc Hl. destruct (Hex c Hc) as (i & q & Hq & Ho & -> & Hn & Hf). rewrite (bind_ok _ _ _ _ _ Hf).
    apply owned_true in Ho as [Hu _]. apply (proj1 (post_to_run s i q Msg w l Hwf Hq Hu)). lia.
  - intros Hn Hall. assert (Hf : QueueFindOrCreate tid true s = Ok (None, s)); [|by rewrite (bind_ok _ _ _ _ _ Hf)].
    rewrite find_run, (queue_in_None _ _ Hn), (proj2 (first_idx_None _ _)); [done|]. intros j q Hq. rewrite (Hall q); [done|]. by eapply list_elem_of_lookup_2.
Qed.

Lemma get_found s i q k mn mx : qs_wf s → g_ThreadQueues s !! i = Some q → first_wanted mn mx q = Some k →
  get_turn i mn mx tt s = Ok (inr (GetReturned STATUS_SUCCESS (Some (message_at q (Z.of_nat k)))), set_g_ThreadQueues (alter (take_out k) i (g_ThreadQueues s)) s).
Proof.
  intros Hwf Hq Hk. destruct (qs_lock s i Hwf) as [Hc H0]. unfold get_turn. rewrite acquire_bind by done.
  unfold get_queue. rewrite (deref_bind _ _ _ q) by exact Hq. rewrite Hk.
  set (f := λ s : QSTATE, set_g_ThreadQueues (alter (take_out k) i (g_ThreadQueues s)) s).
  change ((KeReleaseSpinLock (QLock i) (Irql (pcr s));; mret (inr (GetReturned STATUS_SUCCESS (Some (message_at q (Z.of_nat k))))) : M QSTATE (unit + GETMSG)) (f (locked (QLock i) s)) =
    Ok (inr (GetReturned STATUS_SUCCESS (Some (message_at q (Z.of_nat k)))), f s)).
  by rewrite release_bind by done.
Qed.

Lemma get_waits s i q mn mx w k : qs_wf s → g_ThreadQueues s !! i = Some q → first_wanted mn mx q = None →
  KeWaitForSingleObject (QEvent i) None (qks s) = Ok (w, k) →
  get_turn i mn mx tt s = Ok (match w with Returned _ => inl tt | SwitchedAway => inr (GetSwitched i) end, set_qks k s).
Proof.
  intros Hwf Hq Hn Hw. destruct (qs_lock s i Hwf) as [Hc H0]. unfold get_turn. rewrite acquire_bind by done.
  unfold get_queue. rewrite (deref_bind _ _ _ q) by exact Hq. rewrite Hn, release_same by done. by rewrite (bind_ok _ _ _ _ _ (kern_run _ _ _ _ Hw)).
Qed.

(** Taking a message on the whole state. *)
Lemma get_takes s i q tid k mn mx : qs_wf s → g_ThreadQueues s !! i = Some q → owned tid q = true → first_wanted mn mx q = Some k →
  ∃ s' m, contents q !! k = Some m ∧ get_turn i mn mx tt s = Ok (inr (GetReturned STATUS_SUCCESS (Some m)), s') ∧ qs_wf s' ∧ qks s' = qks s ∧
    ∀ t, queue_of s' t = if t =? tid then Some (delete k (contents q)) else queue_of s t.
Proof.
  intros Hwf Hq Ho Hk. pose proof (proj1 (owned_true _ _) Ho) as [Hu Ht]. pose proof (tw_ring _ (qs_table _ Hwf) i q Hq Hu) as Hw.
  destruct (proj1 (first_wanted_spec mn mx q k Hw) Hk) as [(m & Hm & _) _]. pose proof (lookup_lt_Some _ _ _ Hm) as Hlt. pose proof (length_contents q Hw) as Hl.
  destruct (take_out_run q k Hw ltac:(lia)) as [Hw' Hcon].
  destruct (table_upd _ i q (take_out k) (qs_table _ Hwf) Hq Hw' eq_refl eq_refl) as [Htb Hqs].
  eexists _, m. split; [done|]. split; [rewrite (get_found s i q k mn mx) by done; by rewrite contents_lookup in Hm by lia; injection Hm as <-|].
  split; [destruct Hwf; by constructor|]. split; [done|].
  intros t. unfold queue_of. cbn [set_g_ThreadQueues g_ThreadQueues]. rewrite Hqs, Hcon. destruct (Z.eqb_spec t tid) as [->|Hne]; [by rewrite Ho|].
  destruct (owned t q) eqn:E; [|done]. apply owned_true in E as [_ E]. congruence.
Qed.

(** A search that finds nothing blocks: a signal left by an earlier message is
    consumed and the search repeated once. *)
Lemma get_blocks s i q mn mx New rest x : qs_wf s → g_ThreadQueues s !! i = Some q → first_wanted mn mx q = None →
  KiReadyListHead (sched (qks s)) = New :: rest → Objects (sched (qks s)) !! QEvent i = Some x → OType x = SynchronizationEvent →
  ∃ k', loop (get_turn i mn mx) tt s = Ok (GetSwitched i, set_qks k' s) ∧ ks_wf k' ∧
    CurrentThread (sched k') = New ∧ KiReadyListHead (sched k') = rest ∧
    Objects (sched k') = <[QEvent i := with_waiters (WaitListHead x ++ [CurrentThread (sched (qks s))]) (with_signal 0 x)]> (Objects (sched (qks s))).
Proof.
  intros Hwf Hq Hn Hr Hx Ht. pose proof (qs_ks _ Hwf) as Hks. pose proof Hks as ([Hi (th & Hth & Hrun)] & Hl & Hc).
  destruct (decide (SignalState x = 0)) as [E|E].
  - destruct (wait_blocks (qks s) (QEvent i) x th New rest None Hks Hx E ltac:(done) Hth Hr) as (k' & Hw & Hwf' & Hcur & Hrd & Hob).
    exists k'. split_and!; [|done..|]; [|rewrite Hob; by destruct x; cbn in *; subst].
    eapply (loop_ok _ 1); [|lia]. apply loops_done. by rewrite (get_waits s i q mn mx _ _ Hwf Hq Hn Hw).
  - pose proof (wait_signaled (qks s) (QEvent i) x None Hx E) as Hw1. unfold consume in Hw1. rewrite Ht in Hw1. cbn [SynchronizationEvent MutantObject Z.eqb Pos.eqb] in Hw1.
    set (k1 := set_sched _ _) in Hw1. assert (Hk1 : ks_wf k1).
    { split; [|done]. split; [by eapply upd_object_inv|by exists th]. }
    assert (Hwf1 : qs_wf (set_qks k1 s)) by (by eapply qs_event_upd).
    assert (Hx1 : Objects (sched k1) !! QEvent i = Some (with_signal 0 x)) by apply lookup_insert_eq.
    destruct (wait_blocks k1 (QEvent i) _ th New rest None Hk1 Hx1 eq_refl ltac:(done) Hth Hr) as (k' & Hw & Hwf' & Hcur & Hrd & Hob).
    exists k'. split_and!; [|done..|rewrite Hob; cbn [k1 set_sched sched upd_object Objects]; by rewrite insert_insert_eq].
    eapply (loop_ok _ 2); [|lia]. change 2 with (1 + 1). eapply loops_step; [by rewrite (get_waits s i q mn mx _ _ Hwf Hq Hn Hw1)|].
    apply loops_done. by rewrite (get_waits (set_qks k1 s) i q mn mx _ _ Hwf1 Hq Hn Hw).
Qed.

(** Getting a message takes the first one the filter lets through out of the
    list of the thread, wherever it stands, and keeps the order of the others;
    a thread without a queue is told so at once. *)
Theorem msg_get_spec s tid mn mx : qs_wf s →
  (∀ c k m, queue_of s tid = Some c → c !! k = Some m → wanted mn mx (message m) = true → (∀ j m', (j < k)%nat → c !! j = Some m' → wanted mn mx (message m') = false) →
     ∃ s', UserGetMessageForThread tid true mn mx s = Ok (GetReturned STATUS_SUCCESS (Some m), s') ∧ qs_wf s' ∧ qks s' = qks s ∧
       ∀ t, queue_of s' t = if t =? tid then Some (delete k c) else queue_of s t) ∧
  (queue_of s tid = None → UserGetMessageForThread tid true mn mx s = Ok (GetReturned STATUS_NOT_FOUND None, s)).
Proof.
  intros Hwf. unfold UserGetMessageForThread. cbn [negb]. split.
  - intros c k m (i & q & Hf & Hq & Ho & ->)%queue_in_Some Hm Hw Hbefore. erewrite bind_ok; [|by rewrite find_run, Hf].
    pose proof (proj1 (owned_true _ _) Ho) as [Hu _].
    assert (Hk : first_wanted mn mx q = Some k) by (apply first_wanted_spec; [by eapply tw_ring; [apply Hwf|..]|eauto]).
    destruct (get_takes s i q tid k mn mx Hwf Hq Ho Hk) as (s' & m' & Hm' & Hr & Hw' & Hks & Hall). assert (m' = m) as -> by congruence.
    exists s'. split_and!; [|done..]. eapply (loop_ok _ 1); [|lia]. by apply loops_done.
  - intros Hn. assert (Hf : QueueFindOrCreate tid false s = Ok (None, s)); [|by rewrite (bind_ok _ _ _ _ _ Hf)].
    rewrite find_run, (queue_in_None _ _ Hn). by destruct (first_idx _ _).
Qed.


(** Destroying the queue of a thread frees its slot and loses its messages. *)
Theorem msg_destroy_spec s tid : qs_wf s → ∃ s', UserDestroyThreadQueue tid s = Ok (STATUS_SUCCESS, s') ∧ qs_wf s' ∧ qks s' = qks s ∧
  ∀ t, queue_of s' t = if t =? tid then None else queue_of s t.
Proof.
  intros Hwf. unfold UserDestroyThreadQueue. destruct (queue_of s tid) as [c|] eqn:Hc.
  - destruct (queue_in_Some _ _ _ Hc) as (i & q & Hf & Hq & Ho & ->). apply owned_true in Ho as [Hu Ht].
    destruct (table_release _ i q (qs_table _ Hwf) Hq Hu) as [Htb Hall]. erewrite bind_ok; [|by rewrite find_run, Hf].
    eexists. split; [reflexivity|]. split; [destruct Hwf; by constructor|]. split; [done|]. intros t. rewrite <- Ht. apply Hall.
  - assert (Hf : QueueFindOrCreate tid false s = Ok (None, s)) by (rewrite find_run, (queue_in_None _ _ Hc); by destruct (first_idx _ _)).
    rewrite (bind_ok _ _ _ _ _ Hf). exists s. split_and!; [done..|]. intros t. by destruct (Z.eqb_spec t tid) as [->|].
Qed.

(** ** Polling *)

Definition signaled (c : SCHED) (o : Z) : bool := match Objects c !! o with Some x => truthy (SignalState x) | None => false end.
(** The objects of [l] consumed by the current thread. *)
Fixpoint consumed (l : list Z) (c : SCHED) : SCHED :=
  match l with
  | [] => c
  | o :: l' => consumed l' (match Objects c !! o with Some x => upd_object o (consume (CurrentThread c) x) c | None => c end)
  end.
Definition with_sched (c : SCHED) (s : QSTATE) : QSTATE := set_qks (set_sched c (qks s)) s.

Lemma poll_run s o x : Objects (sched (qks s)) !! o = Some x →
  poll_object o s = Ok (signaled (sched (qks s)) o, if signaled (sched (qks s)) o then with_sched (consumed [o] (sched (qks s))) s else s).
Proof.
  intros Hx. unfold poll_object, signaled. cbn [consumed]. rewrite Hx. unfold truthy. destruct (Z.eqb_spec (SignalState x) 0) as [E|E]; cbn [negb].
  - erewrite bind_ok; [|apply kern_run; unfold KeWaitForSingleObject, get_object, mbind at 1, M_bind at 1; cbn [mgets]; erewrite deref_bind by exact Hx; by rewrite E].
    by destruct s as [? ? ? []].
  - erewrite bind_ok; [|apply kern_run, wait_signaled; done]. done.
Qed.

Lemma consumed_cur l : ∀ c, CurrentThread (consumed l c) = CurrentThread c.
Proof. induction l as [|o l IH]; intros c; cbn; [done|]. rewrite IH. by destruct (Objects c !! o). Qed.

(** Consuming changes the objects of the list, each once, and no other. *)
Lemma consumed_lookup l : ∀ c o, NoDup l →
  Objects (consumed l c) !! o = if bool_decide (o ∈ l) then consume (CurrentThread c) <$> Objects c !! o else Objects c !! o.
Proof.
  induction l as [|a l IH]; intros c o Hd; cbn [consumed]; [done|]. apply NoDup_cons in Hd as [Ha Hd]. rewrite IH by done.
  set (c1 := match Objects c !! a with Some x => _ | None => c end).
  assert (H1 : CurrentThread c1 = CurrentThread c) by (unfold c1; by destruct (Objects c !! a)).
  assert (H2 : Objects c1 !! o = if bool_decide (o = a) then consume (CurrentThread c) <$> Objects c !! o else Objects c !! o).
  { unfold c1. case_bool_decide as E; [subst o; destruct (Objects c !! a) eqn:E'; [apply lookup_insert_eq|by rewrite E']|].
    destruct (Objects c !! a); [by apply lookup_insert_ne|done]. }
  rewrite H1, H2. repeat case_bool_decide; set_solver.
Qed.

Lemma signaled_consumed a c o : o ≠ a → signaled (consumed [a] c) o = signaled c o.
Proof. intros Hne. unfold signaled. cbn [consumed]. destruct (Objects c !! a); [|done]. cbn [upd_object Objects]. by rewrite lookup_insert_ne. Qed.

Lemma object_consumed a c o : is_Some (Objects c !! o) → is_Some (Objects (consumed [a] c) !! o).
Proof. intros H. cbn [consumed]. destruct (Objects c !! a); [|done]. cbn [upd_object Objects]. apply lookup_insert_is_Some'. by right. Qed.

(** How many of the first objects are signaled. *)
Definition lead (c : SCHED) (l : list Z) : nat := default (length l) (first_idx (λ o, negb (signaled c o)) l).

Lemma lead_cons c o l : lead c (o :: l) = if signaled c o then S (lead c l) else 0%nat.
Proof. unfold lead. cbn. destruct (signaled c o); [|done]. cbn. by destruct (first_idx _ l). Qed.
Lemma lead_ext c c' l : (∀ o, o ∈ l → signaled c' o = signaled c o) → lead c' l = lead c l.
Proof. induction l as [|o l IH]; intros H; [done|]. rewrite !lead_cons, IH, H; [done|by left|intros ? ?; apply H; by right]. Qed.

(** Polling all: the signaled objects at the front are consumed, whether or not
    the rest is signaled. *)
Lemma poll_all_run hs : ∀ l k s, NoDup l → drop k hs = l → (∀ o, o ∈ l → is_Some (Objects (sched (qks s)) !! o)) →
  poll_all hs (seq k (length l)) s =
  Ok (bool_decide (lead (sched (qks s)) l = length l), with_sched (consumed (take (lead (sched (qks s)) l) l) (sched (qks s))) s).
Proof.
  induction l as [|o l IH]; intros k s Hd Hk Ho; cbn [length seq poll_all].
  { cbn. destruct s as [? ? ? []]. done. }
  apply NoDup_cons in Hd as [Hin Hd]. assert (Hlk : hs !! k = Some o) by (rewrite <- (Nat.add_0_r k), <- lookup_drop, Hk; done).
  assert (Hk' : drop (S k) hs = l) by (rewrite <- Nat.add_1_r, <- drop_drop, Hk; done).
  rewrite (deref_bind _ _ _ o) by done. destruct (Ho o ltac:(by left)) as [x Hx]. rewrite (bind_ok _ _ _ _ _ (poll_run s o x Hx)). rewrite lead_cons.
  destruct (signaled (sched (qks s)) o) eqn:E.
  - rewrite IH; [|done..|intros o' Ho'; cbn [with_sched set_qks qks set_sched sched]; apply object_consumed, Ho; by right].
    cbn [with_sched set_qks qks set_sched sched]. rewrite (lead_ext (sched (qks s))) by (intros o' Ho'; apply signaled_consumed; set_solver).
    do 2 f_equal. apply bool_decide_ext. lia.
  - cbn. by destruct s as [? ? ? []].
Qed.

(** Polling any: the first signaled object, if there is one, is consumed. *)
Lemma poll_any_run hs : ∀ l k s, drop k hs = l → (∀ o, o ∈ l → is_Some (Objects (sched (qks s)) !! o)) →
  poll_any hs (seq k (length l)) s =
  match first_idx (signaled (sched (qks s))) l with
  | Some i => Ok (Some (Z.of_nat (k + i)), with_sched (consumed (take 1 (drop i l)) (sched (qks s))) s)
  | None => Ok (None, s)
  end.
Proof.
  induction l as [|o l IH]; intros k s Hk Ho; cbn [length seq poll_any first_idx]; [done|].
  assert (Hlk : hs !! k = Some o) by (rewrite <- (Nat.add_0_r k), <- lookup_drop, Hk; done).
  assert (Hk' : drop (S k) hs = l) by (rewrite <- Nat.add_1_r, <- drop_drop, Hk; done).
  rewrite (deref_bind _ _ _ o) by done. destruct (Ho o ltac:(by left)) as [x Hx]. rewrite (bind_ok _ _ _ _ _ (poll_run s o x Hx)).
  destruct (signaled (sched (qks s)) o) eqn:E.
  - cbn [drop take]. unfold mret, M_ret. do 4 f_equal. unfold WAIT_OBJECT_0. lia.
  - rewrite IH by (done || intros o' Ho'; apply Ho; by right). destruct (first_idx _ l) as [i|]; [|done]. cbn [fmap option_fmap option_map drop]. do 4 f_equal. lia.
Qed.

(** What a poll of the objects finds, and which of them it consumes. *)
Definition poll_result (all : bool) (c : SCHED) (hs : list Z) : option Z * list Z :=
  if all then (if bool_decide (lead c hs = length hs) then Some 0 else None, take (lead c hs) hs)
  else match first_idx (signaled c) hs with Some i => (Some (Z.of_nat i), take 1 (drop i hs)) | None => (None, []) end.

Lemma poll_handles_run s all hs : hs ≠ [] → NoDup hs → (∀ o, o ∈ hs → is_Some (Objects (sched (qks s)) !! o)) →
  poll_handles (Z.of_nat (length hs)) hs all s =
  Ok ((poll_result all (sched (qks s)) hs).1, with_sched (consumed (poll_result all (sched (qks s)) hs).2 (sched (qks s))) s).
Proof.
  intros Hne Hd Ho. unfold poll_handles, poll_result. destruct (Z.ltb_spec 0 (Z.of_nat (length hs))); [|destruct hs; cbn in *; [done|lia]]. rewrite Nat2Z.id. destruct all.
  - rewrite (bind_ok _ _ _ _ _ (poll_all_run hs hs 0 s Hd eq_refl Ho)). cbn [fst snd]. by case_bool_decide.
  - rewrite (poll_any_run hs hs 0 s eq_refl Ho). destruct (first_idx _ hs) as [i|]; [done|]. cbn. by destruct s as [? ? ? []].
Qed.

(** Waiting with a timeout of 0 and no input wanted or there: the objects are
    polled once.  Waiting for any reports and consumes the first signaled one.
    Waiting for all reports success when all are signaled; when one is not, the
    wait times out, and the signals of those before it are lost all the same. *)
Theorem msgwait_poll_spec s all hs c pollTimer mask :
  let c0 := upd_object pollTimer (mkObject EventObject 0 [] 0 0 0) (sched (qks s)) in
  qs_wf s → queue_of s (u32 (UniqueThreadId (CurrentThread (sched (qks s))))) = Some c →
  (c = [] ∨ has_bits mask (Z.lor QS_POSTMESSAGE QS_ALLINPUT) = false) →
  hs ≠ [] → NoDup hs → (∀ o, o ∈ hs → is_Some (Objects c0 !! o)) →
  0 ≤ clock (Reads s) ≤ clock (S (Reads s)) → clock (Reads s) < 18446744073709551616 →
  ∃ s', UserMsgWaitForMultipleObjects pollTimer (Z.of_nat (length hs)) (Some hs) all 0 mask true s =
    Ok (match (poll_result all c0 hs).1 with Some v => WaitDone STATUS_SUCCESS (Some v) | None => WaitDone STATUS_TIMEOUT (Some WAIT_TIMEOUT) end, s') ∧
    g_ThreadQueues s' = g_ThreadQueues s ∧ sched (qks s') = consumed (poll_result all c0 hs).2 c0.
Proof.
  intros c0 Hwf Hq Hin Hne Hd Ho Hck Hck'. destruct (queue_in_Some _ _ _ Hq) as (i & q & Hf & Hqi & Hown & ->).
  pose proof (proj1 (owned_true _ _) Hown) as [Hu _]. pose proof (length_contents q (tw_ring _ (qs_table _ Hwf) i q Hqi Hu)) as Hcl.
  set (s1 := with_sched c0 (set_Reads (S (Reads s)) s)).
  assert (Hp := poll_handles_run s1 all hs Hne Hd Ho). change (sched (qks s1)) with c0 in Hp.
  destruct (poll_result all c0 hs) as [r taken] eqn:Er. cbn [fst snd] in *. set (s2 := with_sched (consumed taken c0) s1) in *.
  assert (Hturn : msgwait_turn i pollTimer (Z.of_nat (length hs)) hs all (has_bits mask (Z.lor QS_POSTMESSAGE QS_ALLINPUT)) (Some (clock (Reads s))) tt s1 =
    Ok (inr match r with Some v => WaitDone STATUS_SUCCESS (Some v) | None => WaitDone STATUS_TIMEOUT (Some WAIT_TIMEOUT) end,
        match r with Some _ => s2 | None => set_Reads (S (S (Reads s))) s2 end)).
  { destruct (qs_lock s i Hwf) as [Hc H0]. unfold msgwait_turn. rewrite acquire_bind by done.
    unfold get_queue. rewrite (deref_bind _ _ _ q) by exact Hqi. rewrite release_same by done.
    replace ((0 <? QCount q) && _) with false; [|destruct Hin as [E| ->]; [rewrite E in Hcl; cbn in Hcl; lia|by rewrite andb_false_r]].
    rewrite (bind_ok _ _ _ _ _ Hp). destruct r as [v|]; [done|]. cbn [deadline_over].
    unfold KeTickCount, mbind, M_bind. cbn. by rewrite (proj2 (Z.leb_le _ _)) by lia. }
  eexists. split.
  - unfold UserMsgWaitForMultipleObjects. cbn [negb]. rewrite bool_decide_eq_false_2, andb_false_r by done.
    unfold mbind at 1, M_bind at 1, PsGetCurrentThreadId. cbn [mgets]. erewrite bind_ok; [|by rewrite find_run, Hf].
    cbn [MWMO_INFINITE Z.eqb]. erewrite bind_ok; [|reflexivity]. rewrite Z.add_0_r, u64_small by lia. erewrite bind_ok; [|reflexivity].
    eapply (loop_ok _ 1); [|lia]. apply loops_done. exact Hturn.
  - by destruct r.
Qed.

(** A finite wait with no input wanted sleeps on an event on its own stack, and a
    timeout other than 0 does not end a wait: the thread is switched away whatever
    its deadline. *)
Theorem msgwait_sleeps s c pollTimer Timeout mask New rest :
  qs_wf s → queue_of s (u32 (UniqueThreadId (CurrentThread (sched (qks s))))) = Some c →
  has_bits mask (Z.lor QS_POSTMESSAGE QS_ALLINPUT) = false →
  0 < Timeout < MWMO_INFINITE → (∀ n, 0 ≤ clock n < 4611686018427387904) → clock (S (Reads s)) < clock (Reads s) + Timeout → clock (S (S (Reads s))) < clock (Reads s) + Timeout →
  Objects (sched (qks s)) !! pollTimer = None → KiReadyListHead (sched (qks s)) = New :: rest →
  ∃ s', UserMsgWaitForMultipleObjects pollTimer 0 None false Timeout mask true s = Ok (WaitSwitched, s') ∧ CurrentThread (sched (qks s')) = New ∧
    ∃ x, Objects (sched (qks s')) !! pollTimer = Some x ∧ SignalState x = 0 ∧ WaitListHead x = [CurrentThread (sched (qks s))].
Proof.
  intros Hwf Hq Hm HT Hck H1 H2 Hnew Hr. destruct (queue_in_Some _ _ _ Hq) as (i & q & Hf & Hqi & Hown & ->).
  set (ev := mkObject EventObject 0 [] 0 0 0). set (k1 := set_sched (upd_object pollTimer ev (sched (qks s))) (qks s)).
  pose proof (qs_ks _ Hwf) as ([Hi (th & Hth & Hrun)] & Hl & Hc).
  assert (Hk1 : ks_wf k1) by (split; [split; [by apply new_object_inv|by exists th]|done]).
  unfold MWMO_INFINITE in HT. pose proof (Hck (Reads s)). pose proof (Hck (S (Reads s))). pose proof (Hck (S (S (Reads s)))).
  set (rem := clock (Reads s) + Timeout - clock (S (S (Reads s)))).
  set (ms := if rem <? MWMO_POLL_MS then rem else MWMO_POLL_MS). assert (Hms : 0 < ms) by (unfold ms, MWMO_POLL_MS; case_match; lia).
  destruct (wait_blocks k1 pollTimer ev th New rest (Some (- (ms * 10000))) Hk1 (lookup_insert_eq _ _ _) eq_refl) as (k2 & Hw & _ & Hcur & _ & Hob); [intros [=]; lia|done..|].
  set (s1 := mkQS (g_ThreadQueues s) (QLocks s) (S (Reads s)) k1). set (s2 := set_Reads (S (S (S (Reads s)))) s1).
  exists (set_qks k2 s2). split; [|split; [done|eexists; cbn [set_qks qks]; rewrite Hob, lookup_insert_eq; done]].
  unfold UserMsgWaitForMultipleObjects. cbn [negb Z.ltb Z.compare andb].
  unfold mbind at 1, M_bind at 1, PsGetCurrentThreadId. cbn [mgets]. erewrite bind_ok; [|by rewrite find_run, Hf].
  rewrite (proj2 (Z.eqb_neq _ _)) by (unfold MWMO_INFINITE; lia). erewrite bind_ok; [|reflexivity]. rewrite u64_small by lia. erewrite bind_ok; [|reflexivity].
  eapply (loop_ok _ 1); [|lia]. apply loops_done. rewrite Hm. match goal with |- msgwait_turn _ _ _ _ _ _ _ _ ?st = _ => change st with s1 end.
  destruct (qs_lock s i Hwf) as [Hc' HL]. unfold msgwait_turn. rewrite acquire_bind by done.
  unfold get_queue. rewrite (deref_bind _ _ _ q) by exact Hqi. rewrite release_same, andb_false_r by done.
  rewrite (bind_ok _ _ _ None s1) by reflexivity. erewrite bind_ok; [|reflexivity]. cbn [Reads s1]. rewrite (proj2 (Z.leb_gt _ _)) by lia.
  assert (Hp : poll_ms (Some (clock (Reads s) + Timeout)) (set_Reads (S (S (Reads s))) s1) = Ok (Some ms, s2)).
  { cbn [poll_ms]. unfold KeTickCount, mbind, M_bind, mret, M_ret. cbn. rewrite u64_small, s64_small by lia. fold rem.
    by rewrite (proj2 (Z.leb_gt rem 0)) by (unfold rem; lia). }
  rewrite (bind_ok _ _ _ _ _ Hp). erewrite bind_ok; [|apply kern_run; exact Hw]. done.
Qed.

(** ** Initialisation *)

Definition new_event : KOBJECT := mkObject SynchronizationEvent 0 [] 0 0 0.
Lemma init_queues_run l : ∀ s, ks_wf (qks s) → QLocks s = ∅ → (∀ i x, Objects (sched (qks s)) !! QEvent i = Some x → WaitListHead x = []) →
  ∃ c', init_queues l s = Ok (tt, with_sched c' s) ∧ ks_wf (set_sched c' (qks s)) ∧
    (∀ o, Objects c' !! o = if bool_decide (o ∈ QEvent <$> l) then Some new_event else Objects (sched (qks s)) !! o) ∧
    KiReadyListHead c' = KiReadyListHead (sched (qks s)) ∧ CurrentThread c' = CurrentThread (sched (qks s)).
Proof.
  induction l as [|i l IH]; intros s Hk Hl Hw; cbn [init_queues].
  { exists (sched (qks s)). split_and!; try done; by destruct s as [? ? ? []]. }
  set (s1 := with_sched (upd_object (QEvent i) new_event (sched (qks s))) s).
  assert (Hr : KeInitializeSpinLock (QLock i) s = Ok (tt, s)).
  { unfold KeInitializeSpinLock. cbn. do 2 f_equal. destruct s as [g m r k]. cbn in *. subst m. f_equal. }
  rewrite (bind_ok _ _ _ _ _ Hr). rewrite (bind_ok _ _ _ tt s1) by done.
  assert (Hw1 : ∀ j x, Objects (sched (qks s1)) !! QEvent j = Some x → WaitListHead x = []).
  { intros j x. cbn. intros [[_ <-]|[_ H]]%lookup_insert_Some; [done|eauto]. }
  assert (Hk1 : ks_wf (qks s1)).
  { destruct Hk as ([Hi (th & Ht & Hs)] & Hd & Hc). split; [|done]. split; [|by exists th]. apply idle_object_inv; [done|eauto|done]. }
  destruct (IH s1 Hk1 Hl Hw1) as (c' & Hrun & Hk' & Hob & Hrd & Hcur). exists c'. split_and!; [exact Hrun|done| |done|done].
  intros o. rewrite Hob. cbn [fmap list_fmap s1 with_sched set_qks qks set_sched sched upd_object Objects].
  destruct (decide (QEvent i = o)) as [<-|Hne]; [rewrite lookup_insert_eq|rewrite lookup_insert_ne by done]; repeat case_bool_decide; set_solver.
Qed.

(** Initialisation leaves 32 free queues with unsignaled events and no messages
    for any thread, and the invariant of the calls. *)
Theorem msg_queue_init s : ks_wf (qks s) → QLocks s = ∅ → (∀ i x, Objects (sched (qks s)) !! QEvent i = Some x → WaitListHead x = []) →
  ∃ s', QueueInit s = Ok (STATUS_SUCCESS, s') ∧ qs_wf s' ∧ (∀ t, queue_of s' t = None) ∧ length (g_ThreadQueues s') = MAX_THREAD_QUEUES ∧
    (∀ q, q ∈ g_ThreadQueues s' → QInUse q = false) ∧
    (∀ i x, Objects (sched (qks s')) !! QEvent i = Some x → WaitListHead x = []) ∧
    KiReadyListHead (sched (qks s')) = KiReadyListHead (sched (qks s)) ∧ CurrentThread (sched (qks s')) = CurrentThread (sched (qks s)).
Proof.
  intros Hk Hl Hw. unfold QueueInit. set (q0 := mkQueue _ _ _ _ _ _). set (s1 := set_g_ThreadQueues (replicate MAX_THREAD_QUEUES q0) s).
  rewrite (bind_ok _ _ _ tt s1) by done. destruct (init_queues_run (seq 0 MAX_THREAD_QUEUES) s1 Hk Hl Hw) as (c' & Hr & Hk' & Hob & Hrd & Hcur).
  rewrite (bind_ok _ _ _ _ _ Hr). eexists. split; [reflexivity|].
  assert (Hq : ∀ i q, replicate MAX_THREAD_QUEUES q0 !! i = Some q → q = q0) by (by intros i q [-> _]%lookup_replicate).
  assert (Hn : ∀ t, first_idx (owned t) (replicate MAX_THREAD_QUEUES q0) = None) by (intros t; apply first_idx_None; by intros i q ->%Hq).
  split_and!; [|intros t; unfold queue_of, queue_in; cbn [with_sched set_qks g_ThreadQueues s1 set_g_ThreadQueues]; by rewrite Hn|done| | |done|done].
  - constructor; [constructor; [done|by intros i q ->%Hq|by intros i j q r ->%Hq]|done|done|]. intros i Hi. cbn [with_sched set_qks qks set_sched sched]. rewrite Hob.
    destruct (decide (QEvent i ∈ QEvent <$> seq 0 MAX_THREAD_QUEUES)) as [E|E].
    { rewrite (bool_decide_eq_true_2 _ E). exists new_event. split; reflexivity. }
    destruct E. apply list_elem_of_fmap. exists i. split; [done|]. apply elem_of_seq. lia.
  - by intros q (i & ->%Hq)%list_elem_of_lookup.
  - intros i x. cbn [with_sched set_qks qks set_sched sched]. rewrite Hob. case_bool_decide; [by intros [= <-]|apply Hw].
Qed.

End Queues.

(** ** A concrete run *)

Definition demo_event (i : nat) : Z := 0x1000 + 64 * Z.of_nat i.
Definition demo_clock (n : nat) : Z := 100 + Z.of_nat n.
(** Thread 5 gets a queue in a freshly initialised table. *)
Definition demo_boot : QSTATE := mkQS [] ∅ 0 (demo_ks [32] Ready).
Definition demo_qs : QSTATE :=
  match (QueueInit demo_event;; QueueFindOrCreate 5 true) demo_boot with Ok (_, s) => s | _ => demo_boot end.

Lemma demo_boot_idle i x : Objects (sched (qks demo_boot)) !! demo_event i = Some x → WaitListHead x = [].
Proof. apply demo_objects. Qed.

Lemma demo_qs_run : qs_wf demo_event demo_qs ∧ queue_of demo_qs 5 = Some [] ∧ (∃ q, q ∈ g_ThreadQueues demo_qs ∧ QInUse q = false) ∧
  KiReadyListHead (sched (qks demo_qs)) = [32] ∧ CurrentThread (sched (qks demo_qs)) = 16 ∧
  (∀ i x, Objects (sched (qks demo_qs)) !! demo_event i = Some x → WaitListHead x = []).
Proof.
  destruct (msg_queue_init demo_event demo_boot demo_ks_wf eq_refl demo_boot_idle) as (s & Hr & Hwf & Hq & Hlen & Hfree & Hidle & Hrd & Hcur).
  unfold demo_qs. rewrite (bind_ok _ _ _ _ _ Hr), find_run, (queue_in_None _ _ (Hq 5)).
  destruct (g_ThreadQueues s) as [|q [|q1 l]] eqn:E; [done..|]. assert (Hu := Hfree q ltac:(by left)). cbn [first_idx]. rewrite Hu. cbn [negb].
  destruct (table_fresh (q :: q1 :: l) 0 q 5) as [Ht Hall]; [rewrite <- E; apply Hwf|done|done|rewrite <- E; apply Hq|].
  split_and!; [destruct Hwf; by constructor|by apply (Hall 5)| |done..].
  exists q1. split; [right; by left|]. apply Hfree. right. by left.
Qed.

Lemma msg_post_spec_witness : ∃ s' p, UserPostThreadMessage demo_event demo_clock 5 0x400 1 2 demo_qs = Ok (STATUS_SUCCESS, s') ∧
  queue_of s' 5 = Some [posted 0x400 1 2 100 p].
Proof.
  destruct demo_qs_run as (Hwf & Hq & Hfree & _).
  destruct (msg_post_spec demo_event demo_clock demo_qs 5 0x400 1 2 Hwf) as (H & _).
  destruct (H [] Hq ltac:(cbn; lia)) as (s' & p & Hr & _ & Hall). exists s', p. split; [exact Hr|]. rewrite Hall. reflexivity.
Defined.

