(* ===== verification/Clipboard.v ===== *)
(** * Clipboard: the clipboard (src/win32k/clipboard.c)

    A table of 64 formats, each with the address of a pool block that holds a
    copy of the data, and a table of format names.  [Blocks] holds the bytes of
    the blocks.  Memory handed in is the list of its bytes, [None] for null; a
    name is the list of its 16-bit characters. *)

From S2P Require Import Prelude Irql Pool.

#[local] Open Scope Z_scope.

Definition STATUS_DEVICE_BUSY := 0xC00000B7.
Definition STATUS_BUFFER_TOO_SMALL := 0xC0000023.
Definition CLIPBOARD_MAX_FORMATS : nat := 64.
Definition CLIPBOARD_MAX_NAME : nat := 128.
Definition CF_TEXT_ID := 1.
Definition CF_BITMAP_ID := 2.
Definition CF_UNICODETEXT_ID := 13.
Definition CF_HDROP_ID := 15.
Definition g_wszText : list Z := [67; 70; 95; 84; 69; 88; 84; 0].
Definition g_wszBitmap : list Z := [67; 70; 95; 66; 73; 84; 77; 65; 80; 0].
Definition g_wszUnicodeText : list Z := [67; 70; 95; 85; 78; 73; 67; 79; 68; 69; 84; 69; 88; 84; 0].
Definition g_wszHDrop : list Z := [67; 70; 95; 72; 68; 82; 79; 80; 0].

Record CLIPBOARD_FORMAT := mkFormat { FormatId : Z; Data : Z; DataSize : Z; FmtInUse : bool }.

Record CLIP (P : Type) := mkClip {
  Open_ : bool;
  OwnerThread_ : Z;
  HwndOwner : Z;
  FormatCount : Z;
  NextFormatId : Z;
  Formats : list CLIPBOARD_FORMAT;
  FormatNames : list (list Z);
  g_ClipboardLock : Z;
  Blocks : gmap Z (list Z);
  cb_pool : P
}.
Arguments mkClip {P} _ _ _ _ _ _ _ _ _ _.
Arguments Open_ {P} _.
Arguments OwnerThread_ {P} _.
Arguments HwndOwner {P} _.
Arguments FormatCount {P} _.
Arguments NextFormatId {P} _.
Arguments Formats {P} _.
Arguments FormatNames {P} _.
Arguments g_ClipboardLock {P} _.
Arguments Blocks {P} _.
Arguments cb_pool {P} _.

Section Setters.
Context {P : Type}.
Implicit Types (s : CLIP P).
Definition set_owner (o : bool) (t h : Z) s : CLIP P := mkClip o t h (FormatCount s) (NextFormatId s) (Formats s) (FormatNames s) (g_ClipboardLock s) (Blocks s) (cb_pool s).
Definition set_FormatCount v s : CLIP P := mkClip (Open_ s) (OwnerThread_ s) (HwndOwner s) v (NextFormatId s) (Formats s) (FormatNames s) (g_ClipboardLock s) (Blocks s) (cb_pool s).
Definition set_Formats v s : CLIP P := mkClip (Open_ s) (OwnerThread_ s) (HwndOwner s) (FormatCount s) (NextFormatId s) v (FormatNames s) (g_ClipboardLock s) (Blocks s) (cb_pool s).
Definition set_FormatNames v s : CLIP P := mkClip (Open_ s) (OwnerThread_ s) (HwndOwner s) (FormatCount s) (NextFormatId s) (Formats s) v (g_ClipboardLock s) (Blocks s) (cb_pool s).
Definition set_g_ClipboardLock v s : CLIP P := mkClip (Open_ s) (OwnerThread_ s) (HwndOwner s) (FormatCount s) (NextFormatId s) (Formats s) (FormatNames s) v (Blocks s) (cb_pool s).
Definition set_Blocks v s : CLIP P := mkClip (Open_ s) (OwnerThread_ s) (HwndOwner s) (FormatCount s) (NextFormatId s) (Formats s) (FormatNames s) (g_ClipboardLock s) v (cb_pool s).
Definition set_cb_pool p s : CLIP P := mkClip (Open_ s) (OwnerThread_ s) (HwndOwner s) (FormatCount s) (NextFormatId s) (Formats s) (FormatNames s) (g_ClipboardLock s) (Blocks s) p.
End Setters.

#[global] Instance CLIP_HasPcr {P} `{HasPcr P} : HasPcr (CLIP P).
Proof.
  refine {| pcr := λ s, pcr (cb_pool s); set_pcr := λ k s, set_cb_pool (set_pcr k (cb_pool s)) s |}.
  - intros k s. apply pcr_set.
  - intros k k' []. unfold set_cb_pool. cbn. by rewrite set_pcr_set.
  - intros []. unfold set_cb_pool. cbn. by rewrite set_pcr_pcr.
Defined.

(** ** Names *)

Definition zero_format : CLIPBOARD_FORMAT := mkFormat 0 0 0 false.
(** Characters copied over the start of a row. *)
Definition over (c row : list Z) : list Z := c ++ drop (length c) row.
Definition zero_row : list Z := replicate CLIPBOARD_MAX_NAME 0.
Definition init_names : list (list Z) :=
  [over g_wszText zero_row; over g_wszBitmap zero_row; over g_wszUnicodeText zero_row; over g_wszHDrop zero_row] ++
  replicate (CLIPBOARD_MAX_FORMATS - 4) zero_row.

(** Is the row in use with exactly these characters before its terminator? *)
Definition row_match (name row : list Z) : bool :=
  negb (chr row 0 =? 0) && bool_decide (take (length name) row = name) && (chr row (length name) =? 0).
Definition row_free (row : list Z) : bool := chr row 0 =? 0.

(** The name of a built-in format with the number of characters to copy. *)
Definition builtin (Format : Z) : option (nat * list Z) :=
  if Format =? CF_TEXT_ID then Some (7%nat, g_wszText)
  else if Format =? CF_BITMAP_ID then Some (10%nat, g_wszBitmap)
  else if Format =? CF_UNICODETEXT_ID then Some (15%nat, g_wszUnicodeText)
  else if Format =? CF_HDROP_ID then Some (8%nat, g_wszHDrop)
  else None.

(** ** Operations *)

Definition has_format (Format : Z) (x : CLIPBOARD_FORMAT) : bool := FmtInUse x && (FormatId x =? Format).
Definition choose_slot (Format : Z) (l : list CLIPBOARD_FORMAT) : option nat :=
  match first_idx (has_format Format) l with Some i => Some i | None => first_idx (λ x, negb (FmtInUse x)) l end.

(** The walk of the enumeration: the first format in use once [found]. *)
Fixpoint next_after (Prev : Z) (found : bool) (l : list CLIPBOARD_FORMAT) : option Z :=
  match l with
  | [] => None
  | x :: l' =>
      if FmtInUse x then
        if found then Some (FormatId x) else next_after Prev (FormatId x =? Prev) l'
      else next_after Prev found l'
  end.

Section Clipboard.
Context {P : Type} `{HP : HasPcr P} `{PI : !PoolInterface P}.
Implicit Types (s : CLIP P).
#[local] Abbreviation C := (CLIP P).

Definition ClipboardLock : SpinLock C.
Proof. refine (mkSpinLock g_ClipboardLock set_g_ClipboardLock _ _ _ _ _ _); try done. by intros []. Defined.

(** Every return of the C routines between lock and unlock unlocks first. *)
Definition clip_locked {A} (body : M C A) : M C A :=
  irql ← KeAcquireSpinLock ClipboardLock;
  r ← body;
  KeReleaseSpinLock ClipboardLock irql;;
  mret r.

Definition cb_do {A} (m : M P A) : M C A := zoom cb_pool set_cb_pool m.
Definition upd_format (i : nat) (f : CLIPBOARD_FORMAT → CLIPBOARD_FORMAT) : M C unit := mmod (λ s, set_Formats (alter f i (Formats s)) s).
Definition free_data (a : Z) : M C unit := cb_do (pool_free a 0);; mmod (λ s, set_Blocks (delete a (Blocks s)) s).

Definition ClipboardInit : M C unit :=
  mmod (λ s, mkClip false 0 0 0 0 (replicate CLIPBOARD_MAX_FORMATS zero_format) (replicate CLIPBOARD_MAX_FORMATS zero_row) (g_ClipboardLock s) (Blocks s) (cb_pool s));;
  KeInitializeSpinLock ClipboardLock;;
  mmod (λ s, mkClip (Open_ s) (OwnerThread_ s) (HwndOwner s) (FormatCount s) 100 (Formats s) init_names (g_ClipboardLock s) (Blocks s) (cb_pool s)).

Definition UserOpenClipboard (CurrentThread hWnd : Z) : M C Z := clip_locked (
  o ← mgets Open_;
  if o : bool then mret STATUS_DEVICE_BUSY
  else mmod (set_owner true CurrentThread hWnd);; mret STATUS_SUCCESS).

Definition UserCloseClipboard : M C Z := clip_locked (mmod (set_owner false 0 0);; mret STATUS_SUCCESS).

Fixpoint empty_from (l : list nat) : M C unit :=
  match l with
  | [] => mret tt
  | i :: l' =>
      x ← mderef (λ s, Formats s !! i);
      mwhen (FmtInUse x && truthy (Data x)) (free_data (Data x);; upd_format i (λ x, mkFormat (FormatId x) 0 0 (FmtInUse x)));;
      upd_format i (λ x, mkFormat (FormatId x) (Data x) (DataSize x) false);;
      empty_from l'
  end.
Definition UserEmptyClipboard : M C Z := clip_locked (
  o ← mgets Open_;
  if negb o then mret STATUS_DEVICE_BUSY
  else
    empty_from (seq 0 CLIPBOARD_MAX_FORMATS);;
    mmod (set_FormatCount 0);;
    mret STATUS_SUCCESS).

(** The data copied to a new block; false when there is no memory. *)
Definition copy_data (i : nat) (hMem : option (list Z)) (Size : Z) : M C bool :=
  match hMem with
  | Some bytes =>
      if 0 <? Size then
        a ← cb_do (pool_alloc 0 Size 0);
        upd_format i (λ x, mkFormat (FormatId x) a (DataSize x) (FmtInUse x));;
        if a =? 0 then
          upd_format i (λ x, mkFormat (FormatId x) (Data x) (DataSize x) false);; mret false
        else if Z.of_nat (length bytes) <? Size then mundef
        else mmod (λ s, set_Blocks (<[a := take (Z.to_nat Size) bytes]> (Blocks s)) s);; mret true
      else upd_format i (λ x, mkFormat (FormatId x) 0 (DataSize x) (FmtInUse x));; mret true
  | None => upd_format i (λ x, mkFormat (FormatId x) 0 (DataSize x) (FmtInUse x));; mret true
  end.
Definition set_data (Format : Z) (hMem : option (list Z)) (Size : Z) : M C Z :=
  o ← mgets Open_;
  if negb o then mret STATUS_DEVICE_BUSY
  else
    l ← mgets Formats;
    match choose_slot Format l with
    | None => mret STATUS_INSUFFICIENT_RESOURCES
    | Some i =>
        x ← mderef (λ s, Formats s !! i);
        mwhen (truthy (Data x)) (free_data (Data x));;
        upd_format i (λ x, mkFormat Format (Data x) Size true);;
        ok ← copy_data i hMem Size;
        if ok : bool then mmod (λ s, set_FormatCount (u32 (FormatCount s + 1)) s);; mret STATUS_SUCCESS
        else mret STATUS_NO_MEMORY
    end.
Definition UserSetClipboardData (Format : Z) (hMem : option (list Z)) (Size : Z) : M C Z := clip_locked (set_data Format hMem Size).

(** The status with [*ppData] and [*pSize]. *)
Definition UserGetClipboardData (Format : Z) (ppData pSize : bool) : M C (Z * option (Z * Z)) :=
  if negb ppData || negb pSize then mret (STATUS_INVALID_PARAMETER, None)
  else clip_locked (
    l ← mgets Formats;
    match first_idx (has_format Format) l with
    | Some i => x ← mderef (λ s, Formats s !! i); mret (STATUS_SUCCESS, Some (Data x, DataSize x))
    | None => mret (STATUS_NOT_FOUND, Some (0, 0))
    end).

Definition UserCountClipboardFormats (pCount : bool) : M C (Z * option Z) :=
  if negb pCount then mret (STATUS_INVALID_PARAMETER, None)
  else clip_locked (n ← mgets FormatCount; mret (STATUS_SUCCESS, Some n)).

Definition UserEnumClipboardFormats (PrevFormat : Z) (pNextFormat : bool) : M C (Z * option Z) :=
  if negb pNextFormat then mret (STATUS_INVALID_PARAMETER, None)
  else clip_locked (
    l ← mgets Formats;
    match next_after PrevFormat (PrevFormat =? 0) l with
    | Some f => mret (STATUS_SUCCESS, Some f)
    | None => mret (STATUS_NO_MORE_ENTRIES, Some 0)
    end).

Definition UserIsClipboardFormatAvailable (Format : Z) (pAvailable : bool) : M C (Z * option Z) :=
  if negb pAvailable then mret (STATUS_INVALID_PARAMETER, None)
  else clip_locked (
    l ← mgets Formats;
    mret (STATUS_SUCCESS, Some (match first_idx (has_format Format) l with Some _ => 1 | None => 0 end))).

(** A name already there, or the first free row from the fifth on. *)
Definition register_name (name : list Z) : M C (Z * option Z) :=
  rows ← mgets FormatNames;
  match first_idx (row_match name) rows with
  | Some i => mret (STATUS_SUCCESS, Some (if (i <? 4)%nat then Z.of_nat i + 1 else 100 + Z.of_nat i))
  | None =>
      match first_idx row_free (drop 4 rows) with
      | Some k =>
          mmod (set_FormatNames (alter (over (name ++ [0])) (4 + k)%nat rows));;
          mret (STATUS_SUCCESS, Some (100 + Z.of_nat (4 + k)%nat))
      | None => mret (STATUS_INSUFFICIENT_RESOURCES, None)
      end
  end.
Definition UserRegisterClipboardFormatW (lpFormatName : option (list Z)) (lpFormat : bool) : M C (Z * option Z) :=
  match lpFormatName with
  | Some u => if lpFormat then clip_locked (register_name (cname u 0 (CLIPBOARD_MAX_NAME - 1))) else mret (STATUS_INVALID_PARAMETER, None)
  | None => mret (STATUS_INVALID_PARAMETER, None)
  end.

(** The status with the characters stored in the buffer. *)
Definition UserGetClipboardFormatNameW (Format : Z) (lpBuf : bool) (cchMax : Z) : M C (Z * list Z) :=
  if negb lpBuf || (cchMax <=? 0) then mret (STATUS_INVALID_PARAMETER, [])
  else clip_locked (mret
    match builtin Format with
    | Some (nameLen, name) =>
        if cchMax <=? Z.of_nat nameLen then (STATUS_BUFFER_TOO_SMALL, [])
        else (STATUS_SUCCESS, take nameLen name ++ [0])
    | None => (STATUS_NOT_FOUND, [0])
    end).

(** ** The clipboard as a map from formats to data *)

(** A format's size, and its bytes unless its data pointer is null. *)
Definition data_of (b : gmap Z (list Z)) (x : CLIPBOARD_FORMAT) : Z * option (list Z) := (DataSize x, if Data x =? 0 then None else b !! Data x).
Definition view s (f : Z) : option (Z * option (list Z)) :=
  i ← first_idx (has_format f) (Formats s); data_of (Blocks s) <$> Formats s !! i.

(** [m] is the map of the live pool blocks. *)
Record clip_wf s (m : gmap Z Z) : Prop := {
  cw_len : length (Formats s) = CLIPBOARD_MAX_FORMATS;
  cw_pcr : can_lock (pcr s);
  cw_pool : pool_rep (cb_pool s) m;
  cw_idle i x : Formats s !! i = Some x → FmtInUse x = false → Data x = 0;
  cw_live i x : Formats s !! i = Some x → Data x ≠ 0 → m !! Data x = Some 0 ∧ ∃ bs, Blocks s !! Data x = Some bs ∧ Z.of_nat (length bs) = DataSize x;
  cw_alias i j x y : Formats s !! i = Some x → Formats s !! j = Some y → Data x = Data y → Data x ≠ 0 → i = j;
  cw_once i j x y : Formats s !! i = Some x → Formats s !! j = Some y → FmtInUse x = true → FmtInUse y = true → FormatId x = FormatId y → i = j
}.

Lemma has_format_true f x : has_format f x = true ↔ FmtInUse x = true ∧ FormatId x = f.
Proof. unfold has_format. lia. Qed.

Lemma view_slot s m i x f : clip_wf s m → Formats s !! i = Some x → has_format f x = true → view s f = Some (data_of (Blocks s) x).
Proof.
  intros Hw Hx Hf. unfold view. rewrite (proj2 (first_idx_Some _ _ i)); [cbn; by rewrite Hx|]. split; [eauto|].
  intros j y Hj Hy. apply not_true_iff_false. intros [? ?]%has_format_true. apply has_format_true in Hf as [? ?].
  assert (j = i); [|lia]. eapply (cw_once _ _ Hw); [done..|congruence].
Qed.
Lemma view_none s f : (∀ j y, Formats s !! j = Some y → has_format f y = false) → view s f = None.
Proof. intros H. unfold view. by rewrite (proj2 (first_idx_None _ _) H). Qed.

(** One slot changes, with the blocks of the others kept. *)
Lemma slot_upd s s' m m' i x x' :
  clip_wf s m → Formats s !! i = Some x → Formats s' = <[i := x']> (Formats s) →
  can_lock (pcr s') → pool_rep (cb_pool s') m' →
  (FmtInUse x' = false → Data x' = 0) →
  (Data x' ≠ 0 → m' !! Data x' = Some 0 ∧ ∃ bs, Blocks s' !! Data x' = Some bs ∧ Z.of_nat (length bs) = DataSize x') →
  (∀ j y, j ≠ i → Formats s !! j = Some y → Data y ≠ 0 → m' !! Data y = Some 0 ∧ Blocks s' !! Data y = Blocks s !! Data y ∧ Data y ≠ Data x') →
  (FmtInUse x' = true → ∀ j y, j ≠ i → Formats s !! j = Some y → has_format (FormatId x') y = false) →
  clip_wf s' m' ∧ ∀ g, view s' g = if has_format g x' then Some (data_of (Blocks s') x') else if has_format g x then None else view s g.
Proof.
  intros Hw Hx Hf Hpcr Hp Hidle Hlive Hoth Hone. pose proof Hw as [W1 _ _ W5 W6 W7 W8].
  assert (Hi : (i < length (Formats s))%nat) by by eapply lookup_lt_Some.
  assert (Hl : ∀ j y, Formats s' !! j = Some y → (j = i ∧ y = x') ∨ (j ≠ i ∧ Formats s !! j = Some y)).
  { intros j y. rewrite Hf. destruct (decide (j = i)) as [->|Hne]; [rewrite list_lookup_insert_eq by done; naive_solver|].
    rewrite list_lookup_insert_ne by done. naive_solver. }
  assert (Hw' : clip_wf s' m').
  { constructor; try done; [by rewrite Hf, length_insert|..].
    - intros j y [[-> ->]|[_ Hy]]%Hl; [done|eauto].
    - intros j y [[-> ->]|[Hj Hy]]%Hl Hd; [by apply Hlive|]. destruct (Hoth j y Hj Hy Hd) as (? & -> & _). split; [done|]. by apply (W6 j y).
    - intros j k y z [[-> ->]|[Hj Hy]]%Hl [[-> ->]|[Hk Hz]]%Hl Hd H0; [done| | |eauto].
      + destruct (Hoth k z Hk Hz ltac:(congruence)) as (_ & _ & ?). congruence.
      + destruct (Hoth j y Hj Hy ltac:(congruence)) as (_ & _ & ?). congruence.
    - intros j k y z [[-> ->]|[Hj Hy]]%Hl [[-> ->]|[Hk Hz]]%Hl U1 U2 E; [done| | |eauto].
      + pose proof (Hone U1 k z Hk Hz) as Hno. unfold has_format in Hno. lia.
      + pose proof (Hone U2 j y Hj Hy) as Hno. unfold has_format in Hno. lia. }
  split; [done|]. intros g. destruct (has_format g x') eqn:E1; [apply (view_slot _ _ i _ _ Hw'); [by rewrite Hf, list_lookup_insert_eq|done]|].
  destruct (has_format g x) eqn:E2.
  - apply view_none. intros j y [[-> ->]|[Hj Hy]]%Hl; [done|]. apply not_true_iff_false. intros Hg. apply has_format_true in E2 as [? ?], Hg as [? ?].
    apply Hj. eapply W8; [done..|congruence].
  - destruct (first_idx (has_format g) (Formats s)) as [j|] eqn:Ej.
    + apply first_idx_Some in Ej as [(y & Hy & Hg) _]. assert (Hj : j ≠ i) by (intros ->; simplify_eq; congruence).
      rewrite (view_slot s m j y g Hw Hy Hg), (view_slot s' m' j y g Hw'); [|by rewrite Hf, list_lookup_insert_ne|done].
      unfold data_of. destruct (Z.eqb_spec (Data y) 0) as [|Hd]; [done|]. by destruct (Hoth j y Hj Hy Hd) as (_ & -> & _).
    + rewrite first_idx_None in Ej. rewrite (view_none s g Ej). apply view_none. intros j y [[-> ->]|[Hj Hy]]%Hl; [done|eauto].
Qed.

Lemma view_same s s' : Formats s' = Formats s → Blocks s' = Blocks s → ∀ g, view s' g = view s g.
Proof. intros Hf Hb g. unfold view. by rewrite Hf, Hb. Qed.

(** The members that the table of formats does not depend on. *)
Lemma clip_wf_same s s' m : clip_wf s m → Formats s' = Formats s → Blocks s' = Blocks s → can_lock (pcr s') → pool_rep (cb_pool s') m → clip_wf s' m.
Proof. intros [] Hf Hb Hc Hp. constructor; rewrite ?Hf, ?Hb; done. Qed.

Lemma clip_wf_locked s m : clip_wf s m → clip_wf (locked ClipboardLock s) m.
Proof. intros Hw. eapply clip_wf_same; [exact Hw|done|done| |]; cbn; [rewrite pcr_set; apply locked_can_lock|apply pool_rep_pcr, Hw]. Qed.

Lemma clip_locked_run {A} (body : M C A) s m a s2 m2 :
  clip_wf s m → g_ClipboardLock s = 0 → body (locked ClipboardLock s) = Ok (a, s2) → clip_wf s2 m2 → g_ClipboardLock s2 = 1 → pcr s2 = locked_pcr →
  let s' := set_pcr (pcr s) (set_lk ClipboardLock 0 s2) in clip_locked body s = Ok (a, s') ∧ clip_wf s' m2.
Proof.
  intros Hw Hl Hr Hw2 Hl2 Hp2. split.
  - unfold clip_locked. eapply locked_section_ok; [apply Hw|done|exact Hr|done|done].
  - eapply clip_wf_same; [exact Hw2|done|done| |]; cbn; [rewrite pcr_set; apply Hw|apply pool_rep_pcr, Hw2].
Qed.

(** ** Storing data *)

(** The old block of a slot given back. *)
Lemma free_slot_run s m i x : clip_wf s m → Formats s !! i = Some x →
  ∃ p m' B, mwhen (truthy (Data x)) (free_data (Data x)) s = Ok (tt, set_Blocks B (set_cb_pool p s)) ∧
    pcr p = pcr s ∧ pool_rep p m' ∧ (∀ b, b ≠ Data x → m' !! b = m !! b ∧ B !! b = Blocks s !! b) ∧ (Data x ≠ 0 → m' = delete (Data x) m).
Proof.
  intros Hw Hx. unfold truthy. destruct (Z.eqb_spec (Data x) 0) as [E|E]; cbn [negb].
  - exists (cb_pool s), m, (Blocks s). split_and!; try done; [by destruct s|apply Hw].
  - destruct (cw_live _ _ Hw i x Hx E) as (Hm & _). destruct (pool_free_law (cb_pool s) m (Data x) 0 0 (cw_pool _ _ Hw) (cw_pcr _ _ Hw) Hm (or_introl eq_refl)) as (p & Hr & Hk & Hp).
    exists p, (delete (Data x) m), (delete (Data x) (Blocks s)). split_and!; [|done|done| |done].
    + rewrite mwhen_true. unfold free_data. erewrite bind_ok; [|apply zoom_ok; exact Hr]. done.
    + intros b Hb. by rewrite !lookup_delete_ne.
Qed.

(** What the clipboard holds for a format after a store. *)
Definition stored (hMem : option (list Z)) (Size : Z) : Z * option (list Z) :=
  (Size, match hMem with Some bytes => if 0 <? Size then Some (take (Z.to_nat Size) bytes) else None | None => None end).

(** The slot a store goes to: the one of the format, or the first unused one. *)
Lemma choose_some s m f i : clip_wf s m → choose_slot f (Formats s) = Some i →
  ∃ x, Formats s !! i = Some x ∧ (FmtInUse x = true → FormatId x = f) ∧ ∀ j y, j ≠ i → Formats s !! j = Some y → has_format f y = false.
Proof.
  intros Hw. unfold choose_slot. destruct (first_idx (has_format f) (Formats s)) as [k|] eqn:E.
  - intros [= ->]. apply first_idx_Some in E as [(x & Hx & Hf) _]. exists x. apply has_format_true in Hf as [? ?]. split_and!; [done..|].
    intros j y Hj Hy. apply not_true_iff_false. intros [? ?]%has_format_true. apply Hj. eapply (cw_once _ _ Hw); [done..|congruence].
  - intros [(x & Hx & Hf) _]%first_idx_Some. rewrite first_idx_None in E. exists x. split_and!; [done|by destruct (FmtInUse x)|eauto].
Qed.
Lemma choose_none s f : choose_slot f (Formats s) = None → view s f = None ∧ ∀ x, x ∈ Formats s → FmtInUse x = true.
Proof.
  unfold choose_slot. destruct (first_idx (has_format f) (Formats s)) eqn:E; [done|]. rewrite first_idx_None in E. intros Ei. rewrite first_idx_None in Ei.
  split; [by apply view_none|]. intros x (j & Hx)%list_elem_of_lookup. specialize (Ei j x Hx). by destruct (FmtInUse x).
Qed.

(** The blocks after the one of the slot was freed, and perhaps block [a] of the
    copy taken. *)
Definition renewed (m1 : gmap Z Z) (B : gmap Z (list Z)) (a : Z) (new : list Z) (m' : gmap Z Z) (B' : gmap Z (list Z)) : Prop :=
  (a = 0 ∧ m' = m1 ∧ B' = B) ∨ (0 < a ∧ m1 !! a = None ∧ m' = <[a := 0]> m1 ∧ B' = <[a := new]> B).

Lemma copy_data_run s m1 i f d hMem Size : Formats s !! i = Some (mkFormat f d Size true) → can_lock (pcr s) → pool_rep (cb_pool s) m1 →
  0 ≤ Size < 4294967296 → (∀ bytes, hMem = Some bytes → Size ≤ Z.of_nat (length bytes)) →
  ∃ ok a p B m', copy_data i hMem Size s = Ok (ok, set_Blocks B (set_cb_pool p (set_Formats (<[i := mkFormat f a Size ok]> (Formats s)) s))) ∧
    pcr p = pcr s ∧ pool_rep p m' ∧ renewed m1 (Blocks s) a (default [] (stored hMem Size).2) m' B ∧ (ok = false → a = 0) ∧
    (ok = true → (a = 0 ↔ (stored hMem Size).2 = None)).
Proof.
  intros Hi Hc Hp Hs Hlen. unfold copy_data, stored.
  assert (Hnull : (upd_format i (λ x, mkFormat (FormatId x) 0 (DataSize x) (FmtInUse x));; mret true) s =
    Ok (true, set_Blocks (Blocks s) (set_cb_pool (cb_pool s) (set_Formats (<[i := mkFormat f 0 Size true]> (Formats s)) s)))).
  { unfold upd_format, mbind, M_bind, mmod, mret, M_ret. by rewrite (alter_insert _ _ i _ Hi). }
  assert (Hn : ∃ ok a p B m', (upd_format i (λ x, mkFormat (FormatId x) 0 (DataSize x) (FmtInUse x));; mret true) s =
      Ok (ok, set_Blocks B (set_cb_pool p (set_Formats (<[i := mkFormat f a Size ok]> (Formats s)) s))) ∧
    pcr p = pcr s ∧ pool_rep p m' ∧ renewed m1 (Blocks s) a [] m' B ∧ (ok = false → a = 0) ∧ (ok = true → (a = 0 ↔ @None (list Z) = None))).
  { exists true, 0, (cb_pool s), (Blocks s), m1. split_and!; try done. by left. }
  destruct hMem as [bytes|]; [|exact Hn]. destruct (Z.ltb_spec 0 Size) as [H0|H0]; [|exact Hn]. clear Hn Hnull. specialize (Hlen bytes eq_refl).
  destruct (pool_alloc_law (cb_pool s) m1 0 Size 0 Hp Hc ltac:(lia)) as (a & p & Hal & Hk & Hcase).
  set (s3 := set_Formats (<[i := mkFormat f a Size true]> (Formats s)) (set_cb_pool p s)).
  assert (Hi3 : Formats s3 !! i = Some (mkFormat f a Size true)) by (apply list_lookup_insert_eq; by eapply lookup_lt_Some).
  rewrite (bind_ok _ _ _ a (set_cb_pool p s)) by (by apply zoom_ok).
  rewrite (bind_ok _ _ _ tt s3) by (unfold upd_format, mmod; cbn [set_cb_pool Formats]; by rewrite (alter_insert _ _ i _ Hi)).
  destruct Hcase as [[-> Hp']|(Ha & Hfree & Hp')].
  - exists false, 0, p, (Blocks s), m1. split_and!; try done; [|by left].
    unfold upd_format, mbind, M_bind, mmod, mret, M_ret. cbn [Z.eqb]. rewrite (alter_insert _ _ i _ Hi3). unfold s3. cbn. by rewrite list_insert_insert_eq.
  - exists true, a, p, (<[a := take (Z.to_nat Size) bytes]> (Blocks s)), (<[a := 0]> m1). replace (a =? 0) with false by lia.
    destruct (Z.ltb_spec (Z.of_nat (length bytes)) Size); [lia|]. split_and!; try done; [by right|]. intros _. split; [lia|done].
Qed.

(** The state after a store, whatever became of the copy. *)
Lemma slot_replaced s m i x f a Size u m1 B new s' m' :
  clip_wf s m → Formats s !! i = Some x → (FmtInUse x = true → FormatId x = f) → (∀ j y, j ≠ i → Formats s !! j = Some y → has_format f y = false) →
  (∀ b, b ≠ Data x → m1 !! b = m !! b ∧ B !! b = Blocks s !! b) → renewed m1 B a new m' (Blocks s') → (a ≠ 0 → Z.of_nat (length new) = Size) →
  Formats s' = <[i := mkFormat f a Size u]> (Formats s) → pcr s' = pcr s → pool_rep (cb_pool s') m' → (u = false → a = 0) →
  clip_wf s' m' ∧ ∀ g, view s' g = if g =? f then (if u then Some (Size, if a =? 0 then None else Some new) else None) else view s g.
Proof.
  intros Hw Hx Hid Hno Hrest Hren Hlen Hf Hpc Hp Hu.
  assert (Hoth : ∀ j y, j ≠ i → Formats s !! j = Some y → Data y ≠ 0 → m' !! Data y = Some 0 ∧ Blocks s' !! Data y = Blocks s !! Data y ∧ Data y ≠ a).
  { intros j y Hj Hy Hd. assert (Hne : Data y ≠ Data x) by (intros E; apply Hj; by eapply (cw_alias _ _ Hw)).
    destruct (Hrest _ Hne) as [Hm Hb]. destruct (cw_live _ _ Hw j y Hy Hd) as (Hm0 & _). rewrite Hm0 in Hm.
    destruct Hren as [(-> & -> & ->)|(Ha & Hn & -> & ->)]; [done|]. assert (Data y ≠ a) by congruence. by rewrite !lookup_insert_ne. }
  destruct (slot_upd s s' m m' i x (mkFormat f a Size u) Hw Hx Hf) as [Hw' Hv]; try done.
  - rewrite Hpc. apply Hw.
  - cbn. intros Hz. destruct Hren as [(-> & _)|(Ha & Hn & -> & ->)]; [done|]. rewrite !lookup_insert_eq. eauto.
  - split; [done|]. intros g. rewrite Hv. unfold has_format at 1, data_of. cbn [FmtInUse FormatId Data DataSize]. rewrite (Z.eqb_sym f g). destruct (Z.eqb_spec g f) as [->|Hg].
    + destruct u; cbn [andb].
      * destruct (Z.eqb_spec a 0) as [|Ha]; [done|]. destruct Hren as [(? & _)|(_ & _ & _ & ->)]; [done|]. by rewrite lookup_insert_eq.
      * destruct (has_format f x) eqn:E; [done|]. apply view_none. intros j y Hy. destruct (decide (j = i)) as [->|]; [congruence|eauto].
    + rewrite andb_false_r. destruct (has_format g x) eqn:E; [|done]. apply has_format_true in E as [E1 E2]. rewrite (Hid E1) in E2. congruence.
Qed.

Definition set_outcome s f hMem Size (st : Z) s' : Prop :=
  (st = STATUS_SUCCESS ∧ FormatCount s' = u32 (FormatCount s + 1) ∧ ∀ g, view s' g = if g =? f then Some (stored hMem Size) else view s g) ∨
  (st = STATUS_NO_MEMORY ∧ FormatCount s' = FormatCount s ∧ ∀ g, view s' g = if g =? f then None else view s g) ∨
  (st = STATUS_INSUFFICIENT_RESOURCES ∧ FormatCount s' = FormatCount s ∧ (∀ g, view s' g = view s g) ∧ view s f = None ∧ ∀ x, x ∈ Formats s → FmtInUse x = true).

Lemma set_data_run s m f hMem Size : clip_wf s m → Open_ s = true → 0 ≤ Size < 4294967296 →
  (∀ bytes, hMem = Some bytes → Size ≤ Z.of_nat (length bytes)) →
  ∃ st s' m', set_data f hMem Size s = Ok (st, s') ∧ clip_wf s' m' ∧ g_ClipboardLock s' = g_ClipboardLock s ∧ pcr s' = pcr s ∧ set_outcome s f hMem Size st s'.
Proof.
  intros Hw Ho Hs Hlen. unfold set_data. unfold mbind at 1, M_bind at 1. cbn [mgets]. rewrite Ho. cbn [negb]. unfold mbind at 1, M_bind at 1. cbn [mgets].
  destruct (choose_slot f (Formats s)) as [i|] eqn:Ei.
  2:{ exists STATUS_INSUFFICIENT_RESOURCES, s, m. apply choose_none in Ei as [? ?]. split_and!; try done. right. right. done. }
  destruct (choose_some s m f i Hw Ei) as (x & Hx & Hid & Hno). rewrite (deref_bind _ _ _ x) by done.
  destruct (free_slot_run s m i x Hw Hx) as (p & m1 & B & Hfree & Hk & Hp & Hrest & Hdel). rewrite (bind_ok _ _ _ _ _ Hfree).
  set (s2 := set_Formats (<[i := mkFormat f (Data x) Size true]> (Formats s)) (set_Blocks B (set_cb_pool p s))).
  rewrite (bind_ok _ _ _ tt s2) by (unfold upd_format, mmod; cbn [set_Blocks set_cb_pool Formats]; by rewrite (alter_insert _ _ i _ Hx)).
  assert (Hi2 : Formats s2 !! i = Some (mkFormat f (Data x) Size true)) by (apply list_lookup_insert_eq; by eapply lookup_lt_Some).
  destruct (copy_data_run s2 m1 i f (Data x) hMem Size Hi2) as (ok & a & p' & B' & m' & Hr & Hk' & Hp' & Hren & Hu & Hok); [cbn; rewrite Hk; apply Hw|done..|].
  rewrite (bind_ok _ _ _ _ _ Hr). set (s3 := set_Blocks B' (set_cb_pool p' _)).
  assert (Hlen' : a ≠ 0 → Z.of_nat (length (default [] (stored hMem Size).2)) = Size).
  { intros Ha. destruct ok; [|by rewrite Hu in Ha]. specialize (Hok eq_refl). unfold stored in *. destruct hMem as [bytes|]; [|cbn in Hok; tauto].
    destruct (0 <? Size); cbn in *; [|tauto]. rewrite length_take. specialize (Hlen bytes eq_refl). lia. }
  assert (Hf3 : Formats s3 = <[i := mkFormat f a Size ok]> (Formats s)) by (cbn; by rewrite list_insert_insert_eq).
  assert (Hpc3 : pcr s3 = pcr s) by (cbn in Hk' |- *; by rewrite Hk', Hk).
  destruct (slot_replaced s m i x f a Size ok m1 B _ s3 m' Hw Hx Hid Hno Hrest Hren Hlen' Hf3 Hpc3 Hp' Hu) as [Hw3 Hv3]. destruct ok.
  - exists STATUS_SUCCESS, (set_FormatCount (u32 (FormatCount s3 + 1)) s3), m'. split_and!; [done|by eapply clip_wf_same; [exact Hw3|..|apply Hw3|apply Hw3]|done|done|].
    left. split_and!; [done..|]. intros g. rewrite (view_same s3) by done. rewrite Hv3. destruct (g =? f); [|done]. f_equal. specialize (Hok eq_refl).
    unfold stored in *. destruct hMem as [bytes|]; [destruct (0 <? Size)|]; cbn in *; destruct (Z.eqb_spec a 0); tauto || naive_solver.
  - exists STATUS_NO_MEMORY, s3, m'. split_and!; try done. right. left. done.
Qed.

(** ** Emptying *)

Lemma empty_run l : ∀ s m, clip_wf s m → (∀ i, i ∈ l → (i < CLIPBOARD_MAX_FORMATS)%nat) →
  ∃ s' m', empty_from l s = Ok (tt, s') ∧ clip_wf s' m' ∧ g_ClipboardLock s' = g_ClipboardLock s ∧ pcr s' = pcr s ∧ Open_ s' = Open_ s ∧
    (∀ i x, Formats s' !! i = Some x → (i ∈ l ∨ ∃ y, Formats s !! i = Some y ∧ FmtInUse y = false) → FmtInUse x = false) ∧
    m' ⊆ m ∧
    (∀ i x, i ∈ l → Formats s !! i = Some x → Data x ≠ 0 → m' !! Data x = None).
Proof.
  induction l as [|i l IH]; intros s m Hw Hl; cbn [empty_from].
  { exists s, m. split_and!; try done; [|by intros i x Hi; apply not_elem_of_nil in Hi]. intros i x Hx [Hi|(y & Hy & Hu)]; [by apply not_elem_of_nil in Hi|]. by simplify_eq. }
  destruct (lookup_lt_is_Some_2 (Formats s) i) as [x Hx]; [rewrite (cw_len _ _ Hw); apply Hl; by left|]. rewrite (deref_bind _ _ _ x) by done.
  assert (Hg : FmtInUse x && truthy (Data x) = truthy (Data x)).
  { destruct (FmtInUse x) eqn:E; [done|]. by rewrite (cw_idle _ _ Hw i x Hx E). }
  rewrite Hg. destruct (free_slot_run s m i x Hw Hx) as (p & m1 & B & Hfree & Hk & Hp & Hrest & Hdel).
  set (sz := if truthy (Data x) then 0 else DataSize x).
  set (s1 := set_Formats (<[i := mkFormat (FormatId x) 0 sz false]> (Formats s)) (set_Blocks B (set_cb_pool p s))).
  assert (Hr : (mwhen (truthy (Data x)) (free_data (Data x);; upd_format i (λ x, mkFormat (FormatId x) 0 0 (FmtInUse x)));;
    upd_format i (λ x, mkFormat (FormatId x) (Data x) (DataSize x) false)) s = Ok (tt, s1)).
  { unfold sz in s1. unfold mwhen in Hfree |- *. unfold truthy in *. destruct (Z.eqb_spec (Data x) 0) as [E|E]; cbn [negb] in *.
    - injection Hfree as Hs. unfold mbind, M_bind, mret, M_ret, upd_format, mmod. rewrite (alter_insert _ _ i _ Hx), E. unfold s1. rewrite <- Hs. reflexivity.
    - erewrite bind_ok; [|erewrite bind_ok; [|exact Hfree]; reflexivity]. unfold upd_format, mmod. cbn [set_Formats set_Blocks set_cb_pool Formats].
      rewrite (alter_insert _ (alter _ _ _) i (mkFormat (FormatId x) 0 0 (FmtInUse x))) by (by rewrite list_lookup_alter_eq, Hx).
      rewrite (alter_insert _ _ i _ Hx), list_insert_insert_eq. done. }
  destruct (slot_upd s s1 m m1 i x (mkFormat (FormatId x) 0 sz false) Hw Hx eq_refl) as [Hw1 _]; try done.
  { cbn. rewrite Hk. apply Hw. }
  { intros j y Hj Hy Hd. assert (Hne : Data y ≠ Data x) by (intros E; apply Hj; by eapply (cw_alias _ _ Hw)). destruct (Hrest _ Hne) as [E1 E2].
    destruct (cw_live _ _ Hw j y Hy Hd) as (? & _). split_and!; [congruence|exact E2|done]. }
  assert (Hsub : m1 ⊆ m).
  { apply map_subseteq_spec. intros a v Ha. destruct (decide (a = Data x)) as [->|Hne]; [|destruct (Hrest a Hne) as [E _]; congruence].
    destruct (decide (Data x = 0)) as [E|E]; [|rewrite (Hdel E), lookup_delete_eq in Ha; done]. rewrite E in Ha. apply (pool_rep_pos _ _ _ _ Hp) in Ha. lia. }
  destruct (IH s1 m1 Hw1 ltac:(intros j Hj; apply Hl; by right)) as (s' & m' & Hr' & Hw' & Hlk & Hpc & Hop & Hun & Hsub' & Hgone).
  exists s', m'. split; [|split_and!; [done|by rewrite Hlk|rewrite Hpc; cbn; by rewrite Hk|by rewrite Hop| |by etrans|]].
  - apply bind_inv in Hr as ([] & t & H1 & H2). rewrite (bind_ok _ _ _ _ _ H1), (bind_ok _ _ _ _ _ H2). exact Hr'.
  - intros j y Hy Hj. apply (Hun j y Hy). destruct (decide (j = i)) as [->|Hne].
    + right. eexists. split; [apply list_lookup_insert_eq; by eapply lookup_lt_Some|done].
    + destruct Hj as [[?|Hj]%elem_of_cons|(z & Hz & Hu)]; [done|by left|]. right. exists z. cbn [s1 set_Formats Formats]. by rewrite list_lookup_insert_ne.
  - intros j y Hj Hy Hd. destruct (decide (j = i)) as [->|Hne].
    + simplify_eq. eapply lookup_weaken_None; [|exact Hsub']. by rewrite (Hdel Hd), lookup_delete_eq.
    + apply elem_of_cons in Hj as [?|Hj]; [done|]. apply (Hgone j y Hj); [cbn; by rewrite list_lookup_insert_ne|done].
Qed.

(** ** Theorems *)

(** Storing data under a format replaces what the format held and nothing else,
    and can be read back as a copy of the bytes; without memory the format is left
    empty, and a 65th format is refused. *)
Theorem clip_set_spec s m f hMem Size : clip_wf s m → g_ClipboardLock s = 0 → 0 ≤ Size < 4294967296 →
  (∀ bytes, hMem = Some bytes → Size ≤ Z.of_nat (length bytes)) →
  if Open_ s then ∃ st s' m', UserSetClipboardData f hMem Size s = Ok (st, s') ∧ clip_wf s' m' ∧ g_ClipboardLock s' = 0 ∧ set_outcome s f hMem Size st s'
  else UserSetClipboardData f hMem Size s = Ok (STATUS_DEVICE_BUSY, s).
Proof.
  intros Hw Hl Hs Hlen. destruct (Open_ s) eqn:Ho.
  - destruct (set_data_run (locked ClipboardLock s) m f hMem Size (clip_wf_locked s m Hw) Ho Hs Hlen) as (st & s2 & m2 & Hr & Hw2 & Hlk & Hpc & Hout).
    destruct (clip_locked_run (set_data f hMem Size) s m st s2 m2 Hw Hl Hr Hw2 Hlk) as [Hrun Hw']; [rewrite Hpc; apply pcr_set|].
    eexists st, _, m2. split; [exact Hrun|]. split; [done|]. split; [done|]. exact Hout.
  - unfold UserSetClipboardData, clip_locked. rewrite (acquire_bind ClipboardLock) by (done || apply Hw).
    erewrite bind_ok; [|unfold set_data, mbind at 1, M_bind at 1; cbn [mgets]; change (Open_ (locked ClipboardLock s)) with (Open_ s); by rewrite Ho].
    rewrite (release_same ClipboardLock) by (done || apply Hw). done.
Qed.

(** A query answers with the address and the size of the data of the format. *)
Theorem clip_get_spec s m f : clip_wf s m → g_ClipboardLock s = 0 →
  ∃ r, UserGetClipboardData f true true s = Ok (r, s) ∧
    match view s f with
    | Some (size, d) => ∃ a, r = (STATUS_SUCCESS, Some (a, size)) ∧ match d with Some bs => 0 ≠ a ∧ Blocks s !! a = Some bs | None => a = 0 end
    | None => r = (STATUS_NOT_FOUND, Some (0, 0))
    end.
Proof.
  intros Hw Hl. unfold UserGetClipboardData, clip_locked, view. cbn [negb orb]. rewrite (acquire_bind ClipboardLock) by (done || apply Hw).
  assert (Hread : ∀ (r : Z * option (Z * Z)) (body : M C (Z * option (Z * Z))), body (locked ClipboardLock s) = Ok (r, locked ClipboardLock s) →
    (r ← body; KeReleaseSpinLock ClipboardLock (Irql (pcr s));; mret r) (locked ClipboardLock s) = Ok (r, s)).
  { intros r body Hb. rewrite (bind_ok _ _ _ _ _ Hb). rewrite (release_same ClipboardLock) by (done || apply Hw). done. }
  destruct (first_idx (has_format f) (Formats s)) as [i|] eqn:Ei.
  - apply first_idx_Some in Ei as Hi. destruct Hi as [(x & Hx & Hf) _]. cbn. rewrite Hx. cbn. exists (STATUS_SUCCESS, Some (Data x, DataSize x)). split.
    + apply Hread. unfold mbind at 1, M_bind at 1. cbn [mgets]. change (Formats (locked ClipboardLock s)) with (Formats s). rewrite Ei. by rewrite (deref_bind _ _ _ x).
    + exists (Data x). split; [done|]. destruct (Z.eqb_spec (Data x) 0) as [E|E]; [done|]. destruct (cw_live _ _ Hw i x Hx E) as (_ & bs & -> & _). done.
  - exists (STATUS_NOT_FOUND, Some (0, 0)). split; [|done]. apply Hread. unfold mbind at 1, M_bind at 1. cbn [mgets]. change (Formats (locked ClipboardLock s)) with (Formats s). by rewrite Ei.
Qed.

(** Emptying an open clipboard leaves no format and gives back every block. *)
Theorem clip_empty_spec s m : clip_wf s m → g_ClipboardLock s = 0 → Open_ s = true →
  ∃ s' m', UserEmptyClipboard s = Ok (STATUS_SUCCESS, s') ∧ clip_wf s' m' ∧ g_ClipboardLock s' = 0 ∧ (∀ f, view s' f = None) ∧ FormatCount s' = 0 ∧
    m' ⊆ m ∧ (∀ i x, Formats s !! i = Some x → Data x ≠ 0 → m' !! Data x = None).
Proof.
  intros Hw Hl Ho. destruct (empty_run (seq 0 CLIPBOARD_MAX_FORMATS) (locked ClipboardLock s) m (clip_wf_locked s m Hw)) as (s2 & m2 & Hr & Hw2 & Hlk & Hpc & Hop & Hun & Hsub & Hgone).
  { intros i Hi%elem_of_seq. lia. }
  assert (Hall : ∀ i, (i < length (Formats s))%nat → i ∈ seq 0 CLIPBOARD_MAX_FORMATS) by (intros i Hi; apply elem_of_seq; rewrite (cw_len _ _ Hw) in Hi; lia).
  set (s3 := set_FormatCount 0 s2). assert (Hw3 : clip_wf s3 m2) by (by eapply clip_wf_same; [exact Hw2|..|apply Hw2|apply Hw2]).
  destruct (clip_locked_run (o ← mgets Open_; if negb o then mret STATUS_DEVICE_BUSY else empty_from (seq 0 CLIPBOARD_MAX_FORMATS);; mmod (set_FormatCount 0);; mret STATUS_SUCCESS)
    s m STATUS_SUCCESS s3 m2 Hw Hl) as [Hrun Hw']; [|done|done|etrans; [exact Hpc|apply pcr_set]|].
  { unfold mbind at 1, M_bind at 1. cbn [mgets]. change (Open_ (locked ClipboardLock s)) with (Open_ s). rewrite Ho. cbn [negb]. by rewrite (bind_ok _ _ _ _ _ Hr). }
  eexists _, m2. split; [exact Hrun|]. split_and!; [done|done| |done|done|].
  - intros f. apply view_none. intros j y Hy. unfold has_format. rewrite (Hun j y Hy); [done|]. left. apply Hall. rewrite (cw_len _ _ Hw), <- (cw_len _ _ Hw2). by eapply lookup_lt_Some.
  - intros i x Hx Hd. apply (Hgone i x); [apply Hall; by eapply lookup_lt_Some|done|done].
Qed.

(** The formats in use, in slot order. *)
Definition in_use s : list Z := FormatId <$> List.filter FmtInUse (Formats s).

Lemma next_after_true p l : next_after p true l = head (FormatId <$> List.filter FmtInUse l).
Proof. induction l as [|x l IH]; cbn; [done|]. by destruct (FmtInUse x). Qed.
Lemma next_after_false p l : ∀ k, (FormatId <$> List.filter FmtInUse l) !! k = Some p → NoDup (FormatId <$> List.filter FmtInUse l) →
  next_after p false l = (FormatId <$> List.filter FmtInUse l) !! S k.
Proof.
  induction l as [|x l IH]; intros k Hk Hd; cbn in *; [done|]. destruct (FmtInUse x) eqn:E; [|by apply IH]. cbn in *. apply NoDup_cons in Hd as [Hn Hd].
  destruct k as [|k]; cbn in Hk.
  - injection Hk as ->. rewrite Z.eqb_refl, next_after_true. by destruct (_ <$> _).
  - destruct (Z.eqb_spec (FormatId x) p) as [E'|Hne]; [|by apply IH]. destruct Hn. rewrite E'. by eapply list_elem_of_lookup_2.
Qed.

Lemma in_use_nodup s m : clip_wf s m → NoDup (in_use s).
Proof.
  intros Hw. unfold in_use. assert (H := cw_once _ _ Hw). revert H. clear Hw. induction (Formats s) as [|x l IH]; intros H; cbn; [constructor|].
  assert (Hl : NoDup (FormatId <$> List.filter FmtInUse l)).
  { apply IH. intros i j y z Hy Hz U1 U2 E. assert (S i = S j) by (by apply (H (S i) (S j) y z)). lia. }
  destruct (FmtInUse x) eqn:E; [|done]. cbn. apply NoDup_cons. split; [|done].
  intros (y & Ey & Hy)%list_elem_of_fmap. apply list_elem_of_In, filter_In in Hy as [Hy Uy]. apply list_elem_of_In, list_elem_of_lookup in Hy as [j Hj].
  by assert (0%nat = S j) by (by apply (H 0%nat (S j) x y)).
Qed.

(** A call that only reads, under the lock. *)
Lemma clip_read {A} (body : M C A) s m a : clip_wf s m → g_ClipboardLock s = 0 → body (locked ClipboardLock s) = Ok (a, locked ClipboardLock s) →
  clip_locked body s = Ok (a, s).
Proof.
  intros Hw Hl Hb. unfold clip_locked. rewrite (acquire_bind ClipboardLock) by (done || apply Hw). rewrite (bind_ok _ _ _ _ _ Hb).
  rewrite (release_same ClipboardLock) by (done || apply Hw). done.
Qed.

(** Enumerating from 0 and then from each answer gives every format in use once,
    in slot order, and then the end. *)
Theorem clip_enum_spec s m : clip_wf s m → g_ClipboardLock s = 0 →
  let answer o := match o with Some f => (STATUS_SUCCESS, Some f) | None => (STATUS_NO_MORE_ENTRIES, Some 0) end in
  UserEnumClipboardFormats 0 true s = Ok (answer (head (in_use s)), s) ∧
  ∀ k f, in_use s !! k = Some f → f ≠ 0 → UserEnumClipboardFormats f true s = Ok (answer (in_use s !! S k), s).
Proof.
  intros Hw Hl answer.
  assert (Hrun : ∀ p, UserEnumClipboardFormats p true s = Ok (answer (next_after p (p =? 0) (Formats s)), s)).
  { intros p. unfold UserEnumClipboardFormats. cbn [negb]. eapply clip_read; [done..|]. unfold mbind, M_bind, mgets.
    change (Formats (locked ClipboardLock s)) with (Formats s). by destruct (next_after p (p =? 0) (Formats s)). }
  split; [rewrite Hrun; cbn [Z.eqb]; by rewrite next_after_true|]. intros k f Hk H0. rewrite Hrun. replace (f =? 0) with false by lia.
  by rewrite (next_after_false f _ k Hk (in_use_nodup s m Hw)).
Qed.

(** Only one thread at a time gets the clipboard open; but closing does not ask
    who closes. *)
Theorem clip_open_close s m t h t' h' : clip_wf s m → g_ClipboardLock s = 0 → Open_ s = false →
  ∃ s1, UserOpenClipboard t h s = Ok (STATUS_SUCCESS, s1) ∧ OwnerThread_ s1 = t ∧ UserOpenClipboard t' h' s1 = Ok (STATUS_DEVICE_BUSY, s1) ∧
    UserCloseClipboard s1 = Ok (STATUS_SUCCESS, set_owner false 0 0 s).
Proof.
  intros Hw Hl Ho. pose proof (cw_pcr _ _ Hw) as Hc. exists (set_owner true t h s).
  assert (Hfr : ∀ o t h, framed ClipboardLock (set_owner (P := P) o t h)) by (intros; by constructor).
  unfold UserOpenClipboard, UserCloseClipboard. split_and!; [|done| |].
  - unfold clip_locked. apply (locked_framed ClipboardLock _ (set_owner true t h)); [done..|]. unfold mbind at 1, M_bind at 1. cbn [mgets].
    change (Open_ (locked ClipboardLock s)) with (Open_ s). by rewrite Ho.
  - eapply clip_read; [|done|done]. by eapply clip_wf_same; [exact Hw|..|apply Hw|apply Hw].
  - unfold clip_locked. change (set_owner false 0 0 s) with (set_owner false 0 0 (set_owner true t h s)).
    by apply (locked_framed ClipboardLock _ (set_owner false 0 0)).
Qed.

(** ** Names *)

Lemma row_match_over name row : name ≠ [] → (∀ c, c ∈ name → c ≠ 0) → row_match name (over (name ++ [0]) row) = true.
Proof.
  intros Hne H0. unfold row_match, over, chr. rewrite <- app_assoc. destruct name as [|c name]; [done|].
  rewrite lookup_app_l by (cbn; lia). cbn [lookup list_lookup default]. rewrite take_app_length, bool_decide_eq_true_2 by done.
  rewrite lookup_app_r, Nat.sub_diag by done. cbn. specialize (H0 c ltac:(by left)). destruct (Z.eqb_spec c 0); [done|]. by destruct (Z.eqb_spec 0 0).
Qed.

Lemma first_idx_filled {A} (p q : A → bool) f l : ∀ k, first_idx p l = None → first_idx q l = Some k → (∀ x, p (f x) = true) → first_idx p (alter f k l) = Some k.
Proof.
  induction l as [|y l IH]; intros k Hp Hq Hf; [done|]. cbn in Hp, Hq. destruct (p y) eqn:Ep; [done|]. destruct (first_idx p l) eqn:E; [done|].
  destruct (q y); [injection Hq as <-; cbn; by rewrite Hf|]. destruct (first_idx q l) as [j|] eqn:Ej; [|done]. injection Hq as <-.
  change (alter f (S j) (y :: l)) with (y :: alter f j l). cbn. rewrite Ep. by rewrite (IH j).
Qed.

(** Registering a name gives an identifier, and registering the same name again
    gives the same one. *)
Theorem clip_register_spec s m u r s' : clip_wf s m → g_ClipboardLock s = 0 → (4 ≤ length (FormatNames s))%nat →
  cname u 0 (CLIPBOARD_MAX_NAME - 1) ≠ [] →
  register_name (cname u 0 (CLIPBOARD_MAX_NAME - 1)) s = Ok ((STATUS_SUCCESS, r), s') →
  clip_wf s' m ∧ (∀ f, view s' f = view s f) ∧ register_name (cname u 0 (CLIPBOARD_MAX_NAME - 1)) s' = Ok ((STATUS_SUCCESS, r), s').
Proof.
  intros Hw Hl H4 Hne Hr. pose proof (λ c, cname_nonzero u (CLIPBOARD_MAX_NAME - 1) c 0) as H0. set (name := cname u 0 _) in *. unfold register_name, mbind at 1, M_bind at 1 in Hr. cbn [mgets] in Hr.
  destruct (first_idx (row_match name) (FormatNames s)) as [i|] eqn:Ei.
  { injection Hr as <- <-. split_and!; [done..|]. unfold register_name, mbind, M_bind, mgets. by rewrite Ei. }
  destruct (first_idx row_free (drop 4 (FormatNames s))) as [k|] eqn:Ek; [|done]. injection Hr as <- <-.
  split_and!; [by eapply clip_wf_same; [exact Hw|..|apply Hw|apply Hw]|done|].
  unfold register_name, mbind, M_bind, mgets. cbn [set_FormatNames FormatNames].
  assert (Hi : first_idx (row_match name) (alter (over (name ++ [0])) (4 + k)%nat (FormatNames s)) = Some (4 + k)%nat).
  { destruct (FormatNames s) as [|r0 [|r1 [|r2 [|r3 l]]]]; cbn [length] in H4; try lia. cbn [drop] in Ek. cbn [first_idx] in Ei.
    destruct (row_match name r0) eqn:E0; [done|]. destruct (row_match name r1) eqn:E1; [done|]. destruct (row_match name r2) eqn:E2; [done|]. destruct (row_match name r3) eqn:E3; [done|].
    destruct (first_idx (row_match name) l) eqn:El; [done|].
    change (alter (over (name ++ [0])) (4 + k)%nat (r0 :: r1 :: r2 :: r3 :: l)) with (r0 :: r1 :: r2 :: r3 :: alter (over (name ++ [0])) k l).
    cbn [first_idx]. rewrite E0, E1, E2, E3. by rewrite (first_idx_filled (row_match name) row_free _ l k El Ek) by (intros; by apply row_match_over). }
  match goal with |- context [first_idx (row_match name) ?l] => change l with (alter (over (name ++ [0])) (4 + k)%nat (FormatNames s)) end.
  rewrite Hi. done.
Qed.

(** The identifiers of registered names are never turned back into names, and the
    built-in names of Unicode text and file lists register as 3 and 4, where the
    other calls know them as 13 and 15. *)
Theorem clip_names_lost s m : clip_wf s m → g_ClipboardLock s = 0 →
  (∀ k n, 0 < n → UserGetClipboardFormatNameW (100 + Z.of_nat k) true n s = Ok ((STATUS_NOT_FOUND, [0]), s)) ∧
  (∀ n, 16 ≤ n → UserGetClipboardFormatNameW 13 true n s = Ok ((STATUS_SUCCESS, g_wszUnicodeText ++ [0]), s)) ∧
  (FormatNames s = init_names → register_name (cname g_wszUnicodeText 0 (CLIPBOARD_MAX_NAME - 1)) s = Ok ((STATUS_SUCCESS, Some 3), s) ∧
   ∀ n, 0 < n → UserGetClipboardFormatNameW 3 true n s = Ok ((STATUS_NOT_FOUND, [0]), s)).
Proof.
  intros Hw Hl. assert (Hget : ∀ f n, 0 < n → UserGetClipboardFormatNameW f true n s = Ok (match builtin f with
    | Some (nameLen, name) => if n <=? Z.of_nat nameLen then (STATUS_BUFFER_TOO_SMALL, []) else (STATUS_SUCCESS, take nameLen name ++ [0])
    | None => (STATUS_NOT_FOUND, [0]) end, s)).
  { intros f n Hn. unfold UserGetClipboardFormatNameW. rewrite (proj2 (Z.leb_gt n 0)) by done. by eapply clip_read. }
  split_and!.
  - intros k n Hn. rewrite Hget by done. unfold builtin, CF_TEXT_ID, CF_BITMAP_ID, CF_UNICODETEXT_ID, CF_HDROP_ID. rewrite !(proj2 (Z.eqb_neq _ _)) by lia. done.
  - intros n Hn. rewrite Hget by lia. cbn [builtin CF_TEXT_ID CF_BITMAP_ID CF_UNICODETEXT_ID Z.eqb Pos.eqb]. by rewrite (proj2 (Z.leb_gt n _)) by (cbn; lia).
  - intros Hn. split; [|intros n ?; by rewrite Hget]. unfold register_name, mbind, M_bind, mgets. rewrite Hn. by vm_compute.
Qed.
End Clipboard.

(** Text stored, read back, stored again: one format, counted twice. *)
Definition demo_clip : CLIP POOL_STATE := mkClip false 0 0 0 0 [] [] 0 ∅ demo_pool.
Example clip_run :
  match (ClipboardInit;; UserOpenClipboard 16 0;; UserSetClipboardData 1 (Some [72; 105; 0]) 3;; UserSetClipboardData 1 (Some [72; 111; 0]) 3;;
         r ← UserGetClipboardData 1 true true; n ← UserCountClipboardFormats true; s ← mget; mret (r, n, in_use s, Blocks s)) demo_clip with
  | Ok (((st, Some (a, size)), n, l, b), _) => (st =? 0) && (size =? 3) && bool_decide (b !! a = Some [72; 111; 0]) && bool_decide (n = (STATUS_SUCCESS, Some 2)) && bool_decide (l = [1])
  | _ => false
  end = true.
Proof. vm_compute. reflexivity. Qed.
