(* ===== verification/RtlSupp.v ===== *)
(** * RtlSupp: the formatter, allocated strings, search paths and the environment (src/rtl/rtlsupp.c)

    A string is the list of its units, read up to its first 0 or its end.  The
    formatter stores its output front to back, so its buffer is the list of the
    units stored; its arguments are the words it finds behind its last parameter.
    Blocks of the pool hold units: [Texts]. *)

From S2P Require Import Prelude Irql Rtl Pool.

#[local] Open Scope Z_scope.

(** ** The formatter *)

(** Room for one more unit and the terminator. *)
Definition room (cb : Z) (out : list Z) : bool := (Z.of_nat (length out) + 1) * 2 <? cb.
Definition push (cb : Z) (out : list Z) (c : Z) : list Z := if room cb out then out ++ [c] else out.

(** The loop of the string conversion: units up to the 0, while there is room. *)
Fixpoint push_str (cb : Z) (str out : list Z) : list Z :=
  match str with
  | [] => out
  | c :: str' => if negb (c =? 0) && room cb out then push_str cb str' (out ++ [c]) else out
  end.

(** The digits of the buffer, from the last back to the first, while there is room. *)
Definition push_rev (cb : Z) (buf out : list Z) : list Z :=
  foldl (push cb) out (reverse buf).

(** The decimal digits, lowest first: at least one, at most 31. *)
Fixpoint dec_digits (left : nat) (val : Z) : list Z :=
  match left with
  | O => []
  | S left' => (48 + val mod 10) :: (if val / 10 =? 0 then [] else dec_digits left' (val / 10))
  end.

Definition hex_digit (d : Z) : Z := if d <? 10 then 48 + d else 87 + d.
(** The hexadecimal digits, lowest first: as long as the value is not 0, at most 15. *)
Fixpoint hex_digits (left : nat) (val : Z) : list Z :=
  match left with
  | O => []
  | S left' => if val =? 0 then [] else hex_digit (Z.land val 0xF) :: hex_digits left' (Z.shiftr val 4)
  end.
(** The buffer of [%p]: 0x and the eight digits from the highest on. *)
Definition ptr_digits (val : Z) : list Z :=
  48 :: 120 :: ((λ j, hex_digit (Z.land (Z.shiftr val j) 0xF)) <$> [28; 24; 20; 16; 12; 8; 4; 0]).

(** The string at an address, for [%s]. *)
Definition null_text : list Z := [40; 110; 117; 108; 108; 41].

(** One conversion [%d] with the words left: the output and the words after it;
    [None] where the C text has no meaning. *)
Definition convert (text : Z → list Z) (cb d : Z) (ap out : list Z) : option (list Z * list Z) :=
  if d =? 115 then
    match ap with
    | [] => None
    | a :: ap' => Some (push_str cb (if a =? 0 then null_text else text a) out, ap')
    end
  else if d =? 100 then
    match ap with
    | [] => None
    | a :: ap' =>
        let val := s64 a in
        if val =? -9223372036854775808 then None
        else Some (push_rev cb (dec_digits 31 (Z.abs val)) (if val <? 0 then push cb out 45 else out), ap')
    end
  else if d =? 117 then
    match ap with [] => None | a :: ap' => Some (push_rev cb (dec_digits 31 a) out, ap') end
  else if d =? 120 then
    match ap with [] => None | a :: ap' => Some (push_rev cb (if a =? 0 then [48] else hex_digits 15 a) out, ap') end
  else if d =? 112 then
    match ap with [] => None | a :: ap' => Some (push_rev cb (ptr_digits a) out, ap') end
  else if d =? 37 then Some (push cb out 37, ap)
  else Some (push cb (push cb out 37) d, ap).

(** The loop over the format.  A format that ends in [%] is read past its end. *)
Fixpoint format (text : Z → list Z) (cb : Z) (fmt ap out : list Z) : option (list Z) :=
  match fmt with
  | [] => Some out
  | c :: fmt' =>
      if (c =? 0) || negb ((Z.of_nat (length out) + 4) * 2 <? cb) then Some out
      else if c =? 37 then
        match fmt' with
        | [] => None
        | d :: fmt'' =>
            if d =? 0 then None
            else match convert text cb d ap out with Some (out', ap') => format text cb fmt'' ap' out' | None => None end
        end
      else format text cb fmt' ap (out ++ [c])
  end.

(** The status and the units stored in the buffer. *)
Definition RtlStringCbPrintfW (text : Z → list Z) (pszDest : bool) (cbDest : Z) (pszFormat ap : list Z) : option (Z * list Z) :=
  if negb pszDest || (cbDest =? 0) then Some (STATUS_INVALID_PARAMETER, [])
  else out ← format text cbDest pszFormat ap []; Some (STATUS_SUCCESS, out ++ [0]).

(** ** Strings *)

Definition wcscpy (src : list Z) : list Z := cstr src ++ [0].
Definition RtlWStringLength (S : list Z) : Z := Z.of_nat (RtlStringLength S).

(** Characters are signed. *)
Definition schar (c : Z) : Z := if c <? 128 then c else c - 256.
Fixpoint stricmp (s1 s2 : list Z) : Z :=
  match s1, s2 with
  | a :: s1', b :: s2' =>
      if (a =? 0) || (b =? 0) then schar a - schar b
      else if lower_ascii a =? lower_ascii b then stricmp s1' s2'
      else schar (lower_ascii a) - schar (lower_ascii b)
  | a :: _, [] => schar a
  | [], b :: _ => - schar b
  | [], [] => 0
  end.

(** A counted string: its two lengths and the string it points to. *)
Record ANSI_STRING := mkAnsi { ALength : Z; AMaximumLength : Z; ABuffer : option (list Z) }.
Definition RtlInitAnsiString (Src : option (list Z)) : ANSI_STRING :=
  match Src with
  | Some s => mkAnsi (u16 (Z.of_nat (RtlStringLength s))) (u16 (Z.of_nat (RtlStringLength s) + 1)) (Some s)
  | None => mkAnsi 0 0 None
  end.
Definition RtlInitEmptyAnsiString (Buffer : option (list Z)) (MaximumLength : Z) : ANSI_STRING :=
  mkAnsi 0 MaximumLength (match Buffer with Some b => Some (<[0%nat := 0]> b) | None => None end).

Definition RtlConvertUlongToLuid (Ulong : Z) : Z * Z := (Ulong, 0).

(** ** Allocated strings *)

Definition TAG_rUSt := 0x72555374.
Definition TAG_NAME := 0x656D614E.
Definition STATUS_BUFFER_OVERFLOW := 0x80000005.
Definition STATUS_NO_SUCH_FILE := 0xC000000F.

Record RS (P : Type) := mkRs { Texts : gmap Z (list Z); rs_pool : P }.
Arguments mkRs {P} _ _.
Arguments Texts {P} _.
Arguments rs_pool {P} _.

Section Alloc.
Context {P : Type} `{HP : HasPcr P} `{PI : !PoolInterface P}.
Implicit Types (s : RS P).

Definition set_Texts (m : gmap Z (list Z)) s : RS P := mkRs m (rs_pool s).
Definition set_rs_pool (p : P) s : RS P := mkRs (Texts s) p.
Definition rs_do {A} (m : M P A) : M (RS P) A := zoom rs_pool set_rs_pool m.
Definition put_units (a : Z) (l : list Z) : M (RS P) unit := mmod (λ s, set_Texts (<[a := l]> (Texts s)) s).
Definition drop_units (a tag : Z) : M (RS P) unit := rs_do (pool_free a tag);; mmod (λ s, set_Texts (delete a (Texts s)) s).

(** The status with Length, MaximumLength and Buffer of the string.  The copy has
    no meaning when the block, sized by a 16-bit length, is too short for it. *)
Definition RtlCreateUnicodeString (Dst : bool) (Src : option (list Z)) : M (RS P) (Z * option (Z * Z * Z)) :=
  match Src with
  | Some src =>
      if negb Dst then mret (STATUS_INVALID_PARAMETER, None)
      else
        let byteLen := u16 (Z.of_nat (RtlStringLength src) * 2) in
        a ← rs_do (pool_alloc 0 (byteLen + 2) TAG_rUSt);
        if a =? 0 then mret (STATUS_NO_MEMORY, None)
        else if byteLen + 2 <? Z.of_nat (length (wcscpy src)) * 2 then mundef
        else put_units a (wcscpy src);; mret (STATUS_SUCCESS, Some (byteLen, u16 (byteLen + 2), a))
  | None => mret (STATUS_INVALID_PARAMETER, None)
  end.

(** The name built from a directory, a file name and an extension. *)
Definition join_path (Path : option (list Z)) (FileName : list Z) (Extension : option (list Z)) : list Z :=
  let p := default [] (cstr <$> Path) in
  (match p with [] => [] | _ => p ++ [92] end) ++ cstr FileName ++ default [] (cstr <$> Extension).

(** [exists] is FsOpenFile, which is declared in the file and defined nowhere in
    it.  The status and the units stored at OutPart. *)
Definition RtlDosSearchPath_U (exists_ : list Z → Z) (Path FileName Extension : option (list Z)) (OutLength : Z) (OutPart : bool) : M (RS P) (Z * list Z) :=
  match FileName with
  | Some name =>
      if negb OutPart || (OutLength <? 2) then mret (STATUS_INVALID_PARAMETER, [])
      else
        let full := join_path Path name Extension in
        let n := Z.of_nat (wcslen Path + 1 + wcslen FileName + wcslen Extension + 1) in
        let Maximum := u16 (n * 2) in
        a ← rs_do (pool_alloc 0 (Maximum + 2) TAG_NAME);
        if a =? 0 then mret (STATUS_NO_MEMORY, [])
        else if Maximum + 2 <? Z.of_nat (length full) * 2 + 2 then mundef
        else
          let Len := u16 (Z.of_nat (length full) * 2) in
          put_units a (full ++ [0]);;
          let st := exists_ full in
          (if NT_SUCCESS st then
             if Len + 2 <=? OutLength then drop_units a TAG_NAME;; mret (STATUS_SUCCESS, full ++ [0])
             else drop_units a TAG_NAME;; mret (STATUS_BUFFER_OVERFLOW, [])
           else drop_units a TAG_NAME;; mret (STATUS_NO_SUCH_FILE, []))
  | None => mret (STATUS_INVALID_PARAMETER, [])
  end.

(** ** The environment *)

Definition pathVal : list Z := [80; 65; 84; 72; 61; 92; 83; 121; 115; 116; 101; 109; 82; 111; 111; 116; 92; 115; 121; 115; 116; 101; 109; 51; 50].
Definition sysRootVal : list Z := [83; 89; 83; 84; 69; 77; 82; 79; 79; 84; 61; 92; 83; 121; 115; 116; 101; 109; 82; 111; 111; 116].
Definition comSpecVal : list Z :=
  [67; 79; 77; 83; 80; 69; 67; 61; 92; 83; 121; 115; 116; 101; 109; 82; 111; 111; 116; 92; 115; 121; 115; 116; 101; 109; 51; 50; 92; 99; 109; 100; 46; 101; 120; 101].

(** [RtlCopyMemory(env + k, c)] on the units of the block. *)
Definition copy_at (k : nat) (c l : list Z) : list Z := take k l ++ c ++ drop (k + length c) l.
Definition env_units : nat := length pathVal + length sysRootVal + length comSpecVal + 4.
(** The block comes zeroed from the pool. *)
Definition env_block : list Z :=
  <[(env_units - 1)%nat := 0]>
    (copy_at (length pathVal + length sysRootVal + 2) (comSpecVal ++ [0])
       (copy_at (length pathVal) (sysRootVal ++ [0])
          (copy_at 0 (pathVal ++ [0]) (replicate env_units 0)))).

Definition RtlCreateEnvironment (Environment : bool) : M (RS P) (Z * Z) :=
  if negb Environment then mret (STATUS_INVALID_PARAMETER, 0)
  else
    a ← rs_do (pool_alloc 0 (Z.of_nat env_units * 2) TAG_NAME);
    if a =? 0 then mret (STATUS_NO_MEMORY, 0)
    else put_units a env_block;; mret (STATUS_SUCCESS, a).
Definition RtlQueryEnvironmentVariable_U : Z := STATUS_OBJECT_NAME_NOT_FOUND.
End Alloc.

(** The strings of an environment block, up to the empty one. *)
Fixpoint env_strings (fuel : nat) (l : list Z) : list (list Z) :=
  match fuel with
  | O => []
  | S n => match cstr l with [] => [] | s => s :: env_strings n (drop (S (length s)) l) end
  end.

(** ** Theorems *)

Lemma push_bound cb out c : Z.even cb = true → (Z.of_nat (length out) + 1) * 2 ≤ cb →
  (Z.of_nat (length (push cb out c)) + 1) * 2 ≤ cb.
Proof.
  intros He Hb. unfold push, room. case_match eqn:E; [|done].
  apply Zeven_bool_iff, Zeven_ex in He as [k ->]. rewrite length_app. simpl. lia.
Qed.

Lemma push_str_bound cb str : ∀ out, Z.even cb = true → (Z.of_nat (length out) + 1) * 2 ≤ cb →
  (Z.of_nat (length (push_str cb str out)) + 1) * 2 ≤ cb.
Proof.
  induction str as [|c str IH]; intros out He Hb; simpl; [done|]. case_match eqn:E; [|done]. apply IH; [done|].
  pose proof (push_bound cb out c He Hb) as H. unfold push in H. apply andb_prop in E as [_ E]. by rewrite E in H.
Qed.

Lemma push_all_bound cb l : ∀ out, Z.even cb = true → (Z.of_nat (length out) + 1) * 2 ≤ cb →
  (Z.of_nat (length (foldl (push cb) out l)) + 1) * 2 ≤ cb.
Proof. induction l as [|c l IH]; intros out He Hb; simpl; [done|]. apply IH; [done|by apply push_bound]. Qed.

Create HintDb rtlsupp.
#[local] Hint Resolve push_bound push_str_bound push_all_bound : rtlsupp.

Lemma convert_bound text cb d ap out out' ap' : Z.even cb = true → (Z.of_nat (length out) + 1) * 2 ≤ cb →
  convert text cb d ap out = Some (out', ap') → (Z.of_nat (length out') + 1) * 2 ≤ cb.
Proof.
  intros He Hb. unfold convert, push_rev. intros H.
  repeat (case_match; simplify_eq; auto 6 with rtlsupp).
Qed.

Lemma format_bound text cb n : ∀ fmt ap out out', (length fmt ≤ n)%nat → Z.even cb = true → (Z.of_nat (length out) + 1) * 2 ≤ cb →
  format text cb fmt ap out = Some out' → (Z.of_nat (length out') + 1) * 2 ≤ cb.
Proof.
  induction n as [|n IH]; intros [|c fmt] ap out out' Hn He Hb; simpl in *; intros H; simplify_eq; [done|lia|done|].
  destruct (_ || _) eqn:E; simplify_eq; [done|]. destruct (c =? 37).
  - destruct fmt as [|d fmt]; simplify_eq. destruct (d =? 0); simplify_eq.
    destruct (convert _ _ _ _ _) as [[o a]|] eqn:Ec; simplify_eq.
    eapply IH in H; [done|simpl in Hn; lia|done|by eapply convert_bound].
  - eapply IH in H; [done|lia|done|]. rewrite length_app. simpl. lia.
Qed.

(** Whatever the format and its arguments, a buffer of an even size of at least
    two bytes is not written past its end, and ends in a terminator. *)
Theorem printf_bound text cb fmt ap st l : 0 < cb → Z.even cb = true →
  RtlStringCbPrintfW text true cb fmt ap = Some (st, l) →
  st = STATUS_SUCCESS ∧ last l = Some 0 ∧ Z.of_nat (length l) * 2 ≤ cb.
Proof.
  intros Hc He. unfold RtlStringCbPrintfW. cbn [negb orb]. replace (cb =? 0) with false by lia.
  destruct (format text cb fmt ap []) as [out|] eqn:E; [|done]. intros H. simplify_eq/=.
  assert (2 ≤ cb) by (apply Zeven_bool_iff, Zeven_ex in He as [k ->]; lia).
  apply (format_bound text cb (length fmt)) in E; [|done|done|simpl; lia].
  split_and!; [done|apply last_snoc|]. rewrite length_app. simpl. lia.
Qed.

(** A buffer of an odd size is overrun by one byte. *)
Example printf_odd : RtlStringCbPrintfW (λ _, [97; 98; 99; 100; 101; 102; 103; 104]) true 9 [37; 115] [1] =
  Some (STATUS_SUCCESS, [97; 98; 99; 100; 0]).
Proof. reflexivity. Qed.

Lemma push_room cb l : ∀ out, (Z.of_nat (length out) + Z.of_nat (length l)) * 2 < cb → foldl (push cb) out l = out ++ l.
Proof.
  induction l as [|c l IH]; intros out Hr; simpl; [by rewrite app_nil_r|].
  unfold push at 2, room. simpl in Hr. replace (_ <? cb) with true by lia.
  rewrite IH by (rewrite length_app; simpl; lia). by rewrite <- app_assoc.
Qed.

(** The digits stored, read from the last to the first, are those of the value. *)
Lemma dec_digits_spec left : ∀ k val, (0 < k ≤ left)%nat → 0 ≤ val < 10 ^ Z.of_nat k →
  ∃ ds, reverse (dec_digits left val) = map unit_of_digit ds ∧ Forall (λ d, 0 ≤ d < 10) ds ∧
    digits_value 10 ds = val ∧ (length ds ≤ k)%nat.
Proof.
  induction left as [|left IH]; intros k val Hk Hv; [lia|]. simpl.
  assert (Hm : 0 ≤ val mod 10 < 10) by (apply Z.mod_pos_bound; lia).
  assert (Hu : 48 + val mod 10 = unit_of_digit (val mod 10)) by (unfold unit_of_digit; by replace (_ <? 10) with true by lia).
  rewrite reverse_cons, Hu. destruct (Z.eqb_spec (val / 10) 0) as [E|E].
  - exists [val mod 10]. split_and!; [done|by apply Forall_singleton| |simpl; lia].
    unfold digits_value. simpl. rewrite Z.mod_small; [done|]. apply Z.div_small_iff in E; lia.
  - destruct k as [|[|k]]; [lia|rewrite Z.div_small in E by (simpl in Hv; lia); lia|].
    destruct (IH (S k) (val / 10)) as (ds & Hd & Hf & Hx & Hl); [lia| |].
    { rewrite (Nat2Z.inj_succ (S k)), Z.pow_succ_r in Hv by lia. split; [Z.div_mod_to_equations; lia|apply Z.div_lt_upper_bound; lia]. }
    exists (ds ++ [val mod 10]). rewrite Hd. split_and!.
    + by rewrite map_app.
    + apply Forall_app; split; [done|by apply Forall_singleton].
    + unfold digits_value in *. rewrite foldl_app, Hx. simpl. Z.div_mod_to_equations; lia.
    + rewrite length_app. simpl. lia.
Qed.

#[local] Arguments dec_digits : simpl never.
#[local] Arguments push_rev : simpl never.
#[local] Arguments s64 : simpl never.

(** What is printed of a 64-bit value in decimal is read back as its low 32 bits:
    of an unsigned one and, but for the lowest, of a signed one. *)
Theorem print_parse text cb n : 42 < cb → 0 ≤ n < 18446744073709551616 →
  (∃ l, RtlStringCbPrintfW text true cb [37; 117] [n] = Some (STATUS_SUCCESS, l ++ [0]) ∧
     RtlUnicodeStringToInteger (Some (ustr l)) 10 = (STATUS_SUCCESS, Some (u32 n))) ∧
  (n ≠ 9223372036854775808 → ∃ l, RtlStringCbPrintfW text true cb [37; 100] [n] = Some (STATUS_SUCCESS, l ++ [0]) ∧
     RtlUnicodeStringToInteger (Some (ustr l)) 10 = (STATUS_SUCCESS, Some (u32 n))).
Proof.
  intros Hc Hn.
  assert (Hdec : ∀ v out, (length out ≤ 1)%nat → 0 ≤ v < 18446744073709551616 → ∃ ds, push_rev cb (dec_digits 31 v) out = out ++ map unit_of_digit ds ∧
     Forall (λ d, 0 ≤ d < 10) ds ∧ digits_value 10 ds = v).
  { intros v out Ho Hv. destruct (dec_digits_spec 31 20 v) as (ds & Hd & Hf & Hx & Hl); [lia|simpl; lia|].
    exists ds. split_and!; [|done|done]. unfold push_rev. rewrite Hd. apply push_room. rewrite length_map. lia. }
  unfold RtlStringCbPrintfW. cbn [negb orb]. replace (cb =? 0) with false by lia.
  cbn [format length]. replace ((Z.of_nat 0 + 4) * 2 <? cb) with true by lia.
  cbn -[convert RtlUnicodeStringToInteger]. unfold convert. cbn -[push push_rev dec_digits RtlUnicodeStringToInteger s64]. split.
  - destruct (Hdec n []) as (ds & -> & Hf & Hx); [simpl; lia|lia|]. exists (map unit_of_digit ds). split; [done|].
    rewrite <- Hx. by apply RtlUnicodeStringToInteger_roundtrip.
  - intros Hlow. assert (Hs : s64 n = n ∧ n < 9223372036854775808 ∨ s64 n = n - 18446744073709551616 ∧ 9223372036854775808 < n).
    { unfold s64. destruct (Z.ltb_spec n 9223372036854775808); [left|right]; (split; [Z.div_mod_to_equations|]; lia). }
    destruct Hs as [[-> Hs]|[-> Hs]].
    + replace (n =? _) with false by lia. replace (n <? 0) with false by lia. rewrite Z.abs_eq by lia.
      destruct (Hdec n []) as (ds & -> & Hf & Hx); [simpl; lia|lia|]. exists (map unit_of_digit ds). split; [done|].
      rewrite <- Hx. by apply RtlUnicodeStringToInteger_roundtrip.
    + replace (_ =? _) with false by lia. replace (_ <? 0) with true by lia. rewrite Z.abs_neq by lia.
      replace (push cb [] 45) with [45] by (symmetry; apply (push_room cb [45] []); simpl; lia).
      destruct (Hdec (- (n - 18446744073709551616)) [45]) as (ds & -> & Hf & Hx); [simpl; lia|lia|].
      exists (45 :: map unit_of_digit ds). split; [done|].
      destruct (RtlUnicodeStringToInteger_roundtrip 10 ds) as [_ ->]; [lia|done|]. rewrite Hx. do 2 f_equal.
      unfold u32. rewrite Z.opp_involutive. replace n with (n - 18446744073709551616 + 4294967296 * 4294967296) at 2 by lia.
      by rewrite Z_mod_plus_full.
Qed.

(** A pointer is printed backwards, its low 32 bits only. *)
Theorem print_ptr text cb a : 22 < cb → RtlStringCbPrintfW text true cb [37; 112] [a] = Some (STATUS_SUCCESS, reverse (ptr_digits a) ++ [0]).
Proof.
  intros Hc. unfold RtlStringCbPrintfW. cbn [negb orb]. replace (cb =? 0) with false by lia.
  cbn [format length]. replace ((Z.of_nat 0 + 4) * 2 <? cb) with true by lia. cbn -[ptr_digits push_rev].
  unfold push_rev. rewrite push_room; [done|]. rewrite length_reverse. simpl. lia.
Qed.

(** The pointer 0x12345678 comes out as 87654321x0. *)
Example print_ptr_run : RtlStringCbPrintfW (λ _, []) true 64 [37; 112] [0x12345678] =
  Some (STATUS_SUCCESS, [56; 55; 54; 53; 52; 51; 50; 49; 120; 48; 0]).
Proof. reflexivity. Qed.

(** The 16th hexadecimal digit is lost: 0xF000000000000001 prints as 1 behind zeros. *)
Example print_hex_run : RtlStringCbPrintfW (λ _, []) true 64 [37; 120] [0xF000000000000001] =
  Some (STATUS_SUCCESS, replicate 14 48 ++ [49; 0]).
Proof. vm_compute. reflexivity. Qed.

(** The environment created reads as one variable: the second is written over the
    terminator of the first, and an empty string comes before the third. *)
Theorem env_merged : env_strings 4 env_block = [pathVal ++ sysRootVal].
Proof. vm_compute. reflexivity. Qed.

Lemma join_path_length Path name Ext :
  Z.of_nat (length (join_path Path name Ext)) + 1 ≤ Z.of_nat (wcslen Path + 1 + wcslen (Some name) + wcslen Ext + 1).
Proof.
  unfold join_path. rewrite !length_app, cstr_length.
  assert (H : ∀ o : option (list Z), length (default [] (cstr <$> o)) = wcslen o) by (intros [u|]; simpl; [apply cstr_length|done]).
  rewrite H. pose proof (H Path). destruct (default [] (cstr <$> Path)); rewrite ?length_app; simpl in *; lia.
Qed.

Section AllocTheorems.
Context {P : Type} `{HP : HasPcr P} `{PI : !PoolInterface P}.
Implicit Types (s : RS P).

(** A source of less than 32768 units is copied with its terminator to a new block,
    or there is no memory and nothing else changes; with a longer one the length
    wraps and what is allocated does not hold the copy. *)
Theorem create_string_spec s m src :
  pool_rep (rs_pool s) m → can_lock (pcr (rs_pool s)) →
  let n := Z.of_nat (length (cstr src)) in
  (n < 32768 → ∃ r s', RtlCreateUnicodeString true (Some src) s = Ok (r, s') ∧ pcr (rs_pool s') = pcr (rs_pool s) ∧
     (r = (STATUS_NO_MEMORY, None) ∧ pool_rep (rs_pool s') m ∧ Texts s' = Texts s ∨
      ∃ a, r = (STATUS_SUCCESS, Some (2 * n, u16 (2 * n + 2), a)) ∧ 0 < a ∧ m !! a = None ∧
        pool_rep (rs_pool s') (<[a := TAG_rUSt]> m) ∧ Texts s' = <[a := cstr src ++ [0]]> (Texts s))) ∧
  (32768 ≤ n → (∃ s', RtlCreateUnicodeString true (Some src) s = Ok ((STATUS_NO_MEMORY, None), s')) ∨
     RtlCreateUnicodeString true (Some src) s = Undef).
Proof.
  intros Hp Hl n. assert (Hn : Z.of_nat (RtlStringLength src) = n) by (unfold n; by rewrite cstr_length).
  assert (Hw : Z.of_nat (length (wcscpy src)) = n + 1) by (unfold wcscpy; rewrite length_app; simpl; lia).
  unfold RtlCreateUnicodeString. cbn [negb]. rewrite Hn.
  destruct (pool_alloc_law (rs_pool s) m 0 (u16 (n * 2) + 2) TAG_rUSt Hp Hl) as (a & p & Hr & Hk & Hc); [unfold u16; Z.div_mod_to_equations; lia|].
  erewrite bind_ok; [|apply zoom_ok; exact Hr]. split; intros Hb.
  - replace (u16 (n * 2)) with (2 * n) by (unfold u16; rewrite Z.mod_small; lia). rewrite Hw.
    destruct Hc as [[-> Hm]|(Ha & Hf & Hm)]; [by eexists _, _; split_and!; [done..|left]|].
    replace (a =? 0) with false by lia. replace (_ <? _) with false by lia.
    eexists _, _. split_and!; [done..|]. right. by exists a.
  - destruct Hc as [[-> Hm]|(Ha & Hf & Hm)]; [left; by eexists|right].
    replace (a =? 0) with false by lia. by replace (_ <? _) with true by (unfold u16; Z.div_mod_to_equations; lia).
Qed.

(** The search: the block of the name is given back on every branch, and the name
    joined is stored exactly when it exists and fits with its terminator. *)
Theorem search_path_spec (exists_ : list Z → Z) s m Path name Extension OutLength :
  pool_rep (rs_pool s) m → can_lock (pcr (rs_pool s)) → 2 ≤ OutLength →
  Z.of_nat (wcslen Path + wcslen (Some name) + wcslen Extension) < 32766 →
  let full := join_path Path name Extension in
  ∃ r s', RtlDosSearchPath_U exists_ Path (Some name) Extension OutLength true s = Ok (r, s') ∧
    pcr (rs_pool s') = pcr (rs_pool s) ∧ pool_rep (rs_pool s') m ∧ (∀ b, m !! b ≠ None → Texts s' !! b = Texts s !! b) ∧
    (r = (STATUS_NO_MEMORY, []) ∨
     r = if negb (NT_SUCCESS (exists_ full)) then (STATUS_NO_SUCH_FILE, [])
         else if Z.of_nat (length full) * 2 + 2 <=? OutLength then (STATUS_SUCCESS, full ++ [0])
         else (STATUS_BUFFER_OVERFLOW, [])).
Proof.
  intros Hp Hl Ho Hn full. unfold RtlDosSearchPath_U. cbn [negb orb]. replace (OutLength <? 2) with false by lia.
  set (n := Z.of_nat _). assert (Hn' : 0 ≤ n < 32768) by lia.
  assert (Hfull : Z.of_nat (length full) + 1 ≤ n) by apply join_path_length.
  replace (u16 (n * 2)) with (n * 2) by (unfold u16; rewrite Z.mod_small; lia).
  destruct (pool_alloc_law (rs_pool s) m 0 (n * 2 + 2) TAG_NAME Hp Hl) as (a & p & Hr & Hk & Hc); [lia|].
  erewrite bind_ok; [|apply zoom_ok; exact Hr].
  destruct Hc as [[-> Hm]|(Ha & Hf & Hm)]; [eexists _, _; split_and!; [done..|by left]|].
  replace (a =? 0) with false by lia. fold full. replace (_ <? _) with false by lia.
  replace (u16 _) with (Z.of_nat (length full) * 2) by (unfold u16; rewrite Z.mod_small; lia).
  destruct (pool_free_law p (<[a := TAG_NAME]> m) a TAG_NAME TAG_NAME Hm) as (p2 & Hr2 & Hk2 & Hm2); [by rewrite Hk|apply lookup_insert_eq|by right|].
  rewrite delete_insert_id in Hm2 by done.
  set (s2 := mkRs (delete a (<[a := full ++ [0]]> (Texts s))) p2).
  assert (Hd : ∀ A (r : A), (drop_units a TAG_NAME;; mret r) (set_Texts (<[a := full ++ [0]]> (Texts s)) (set_rs_pool p s)) = Ok (r, s2)).
  { intros A r. unfold drop_units. erewrite bind_ok; [|erewrite bind_ok; [|apply zoom_ok; exact Hr2]; reflexivity]. reflexivity. }
  erewrite bind_ok; [|reflexivity]. eexists _, s2. split_and!; [|cbn; congruence|done| |right; reflexivity].
  - destruct (NT_SUCCESS (exists_ full)); cbn [negb]; [case_match|]; apply Hd.
  - intros b Hb. cbn. assert (b ≠ a) by congruence. by rewrite lookup_delete_ne, lookup_insert_ne.
Qed.
End AllocTheorems.

(** Directory, separator, name and extension. *)
Example join_run : join_path (Some [67; 58]) [97; 0; 98] (Some [46; 99]) = [67; 58; 92; 97; 46; 99].
Proof. reflexivity. Qed.
